(* ===== verification/_CoqProject ===== *)
-Q . S2P
Prelude.v
Dlist.v
Bitvec.v
Util.v
Varint.v
Cstring.v
Rowset.v
Hash.v
Mem5.v
Btree.v
BtVarint.v
BtCell.v
BtMem.v
BtPage.v
BtTile.v
BtSpace.v
BtFree.v
BtAlloc.v
BtDefrag.v
BtUpdate.v
BtList.v
BtInit.v
BtHistory.v
BtSafe.v
BtPager.v
BtView.v
BtPtrmap.v
BtFreelist.v
BtTrunk.v
BtTake.v
BtAllocate.v
BtRelease.v
BtBalance.v
BtPages.v
BtPayload.v
BtChain.v
BtStore.v
BtFill.v
BtClear.v
BtAccess.v
BtServe.v
BtInsert.v
BtRows.v
Wal.v
WalIndex.v
WalSort.v
WalIter.v
WalFormat.v
WalShare.v
WalLog.v
WalRestart.v
WalRecover.v
WalFrames.v
WalDurable.v
WalCrash.v
WalUndo.v
WalLost.v
WalSystem.v
WalProtocol.v
WalSnapshot.v
WalWriter.v
WalBackfill.v
WalIsolation.v
WalProgress.v
