(* ===== verification/Prelude.v ===== *)
(** * The storage core of libSQL

    This library models the parts of the C code of libSQL
    (src/libsql-sqlite3/src/) that keep a database in write-ahead-log mode
    correct: the log itself, its index in shared memory, the protocol of the
    connections that share them, and the data structures, the allocator and
    the codecs below.
    Every definition is a translation of the C function with the same name;
    [Fixpoint]s with names of their own are the loops of these functions.

    ** The program

    A transaction in WAL mode appends frames (a page number and a page) to the
    log file.  The wal-index, in shared memory, has a header that tells which
    frames are committed and hash tables from page numbers to frames.  A
    reader notes the header when it begins and finds pages with the hash
    tables, or in the database file; a checkpoint copies frames into the
    database file; a writer restarts a log that is completely copied; after a
    crash, the wal-index is rebuilt from the checksums in the log file.

    ** Files and what their theorems show

    - Prelude: machine-width integers, result codes, arrays, lemmas on lists.
    - Bitvec: bitvec.c.  The bitmap, the hash table and the array of
      sub-bitmaps implement a finite set, for every answer of the allocator.
    - Util, Varint: integer codecs and checked arithmetic of util.c.  Every
      64-bit integer is read back from what is written; the unrolled decoders
      equal the definition of the format; overflow is reported exactly.
    - Cstring: case folding and quoting of util.c, global.c and hash.c.
    - Rowset: rowset.c.  Insertions and tests answer as a set of rowids with
      batches; extraction is in increasing order; trees are balanced.
    - Dlist: doubly linked lists in a store of elements, for Hash and Mem5.
    - Hash: hash.c, on a heap of linked elements.  Insertion, replacement,
      removal and lookup implement a map from names, case folded.
    - Mem5: mem5.c, the allocator of blocks that are powers of two, on its
      arrays.  Allocations are disjoint whatever their users do; an
      allocation fails only when no region of its size is free; resizing
      keeps the content.
    - Btree: the data of btreeInt.h, the kinds of B-tree pages, and the
      functions of btree.c that parse a cell or compute its size.  BtVarint,
      BtCell: their inlined readers of integers, and that they agree.
    - BtMem: access to the bytes of a page; BtPage: the operations of btree.c
      on one page (allocation, release, defragmentation, creation,
      initialisation, insertion and removal of cells).
    - BtTile: tilings of a page by cells, free blocks and fragments; BtSpace:
      the invariant of the content area; BtFree, BtAlloc, BtDefrag, BtUpdate:
      the operations on space keep it, and the cells.
    - BtList, BtInit, BtHistory: a page implements a list of cells.  Any
      history of insertions and removals that fit in sum succeeds and leaves
      the cells of the list; the bytes, read again, give the same page.
    - BtSafe: the same operations on a page of any bytes stay inside of the
      page and end with success or with [SQLITE_CORRUPT]; only the size of a
      cell that begins in the page is computed from up to 17 bytes, which may
      be after its end and count as zeros.
    - BtPager: the state that btree.c has of several pages, with what the
      pager below promises; BtView: what can be seen of it, and a program
      logic with a rule for each operation on pages.
    - BtPtrmap: the pointer map of auto-vacuum databases.  BtFreelist: the
      list of free pages, [allocateBtreePage] and [freePage2].  BtTrunk: the
      list as a predicate on pages; BtTake, BtAllocate, BtRelease: both
      functions verified, on every branch and for every answer of the pager.
    - BtBalance: what stays the same while pages are allocated and freed, for
      the users of these functions.
    - BtPages: in any history of allocations, releases and changes every page
      is either free or in use, and a rollback restores the pages that were in
      use at the beginning.
    - BtPayload: the payloads of cells, on their page and on chains of overflow
      pages ([fillInCell], [accessPayload], [clearCellOverflow] and what they
      call), and the fields of a cursor that they use.  BtChain: the chain as
      a predicate on pages; BtStore, BtFill: [fillInCell] stores the payload;
      BtClear: the chain is freed; BtAccess, BtServe: [accessPayload] reads or
      overwrites exactly the bytes asked for, with or without the cache of
      page numbers of the cursor.
    - BtInsert, BtRows: the end of [sqlite3BtreeInsert], which puts a row on
      its page, for all values of [loc]; its theorems are about new rows
      ([loc] is not 0) on a page with room.  The payload of a row that was
      inserted is read back.
    - Wal: the data of wal.c and wal.h.
    - WalIndex: the hash tables of the wal-index ([walIndexAppend],
      [walCleanupHash], [walFindFrame]) refine the list of the page numbers
      of the frames; a search is a linear search for the newest frame.
    - WalSort, WalIter: [walMergesort] and the iterators of the checkpoint;
      [walIteratorRevInit] leaves pages out when [minFrame] is stale.
    - WalFormat: checksums, frame headers, the copies of the header, on hosts
      of both byte orders.
    - WalShare: the operations of connections that share a WAL as programs of
      individual accesses to locks, shared memory and files; reading the
      header, read and write transactions, the restart of the log, all modes
      of checkpoints.  Beginning a read transaction ends after a bounded
      number of accesses, by the limit of the code.
    - WalLog: [walFrames] and what it calls, rollback and savepoints, over a
      file whose operations can fail at any point; the program of
      [walRestartLog] runs in it with the answers of the locks and changes of
      the checkpoint information by other connections.  WalRestart: what
      [walRestartLog] can do to the connection.  WalRecover:
      [walIndexRecover] finds exactly the valid frames of any file.
    - WalFrames, WalDurable, WalCrash: a committed transaction, spilled and
      overwritten in any way, in a log that goes on or starts again, is
      recovered from the file, and no outcome of [walFrames] harms an earlier
      one.  WalUndo: rollback and savepoints.  WalLost: the commits that are
      lost because a rollback to a savepoint leaves [iReCksum].
    - WalSystem: the shared state, the effect of each access on it, and the
      transition system of any number of connections, in which accesses
      interleave in any order and can fail.
    - WalProtocol: the invariant of the shared state, what a connection can
      rely on, and a program logic with a rule for each kind of access;
      WalSnapshot, WalWriter, WalBackfill: the programs of WalShare verified
      in that logic.
    - WalIsolation: snapshot isolation, no lost updates, only commits change
      the content, the shared state is always well formed; and the schedule
      in which a checkpoint overlaps with the restart of the log, which
      corrupts the database.
    - WalProgress: a checkpoint that nobody disturbs completes, also when the
      database file has to grow.

    ** Conventions

    A w-bit integer is a [Z], with [u8], [u16], [u32] and [u64] where the code
    wraps around.  Fallible code returns a result code, a [result] or an
    option; [None] stands for an access outside of an object, so that a
    theorem that gives [Some] also says that there is none.  The allocator,
    the files and the busy handler are oracles: lists or functions of the
    answers of the next calls, over which the theorems quantify.

    Loops that are not structural have fuel.  In each case a theorem gives
    the result for the fuel chosen: the number of slots plus one for linear
    probing, the number of entries for list traversals, the number of usable
    bytes for the increasing lists of free blocks of a page, three more than the
    number of free pages for the search of their list, which gives up after
    that many trunk pages, the number of bytes of a payload for the loop that
    writes it, two more than the number of overflow pages up to the last byte
    asked for in the loop that reads it, three for the search of the next page
    that can hold a payload (at most two in a row cannot), 40 sort buckets for
    fewer than 2^40 rowids, [maxTurns] for the retries of a read transaction
    ([begin_read_bounded] shows that more turns change nothing: the code gives
    up first).

    ** Restrictions of the model of shared connections

    The locking mode is NORMAL and the shared memory can be written.  A copy
    of the wal-index header is read or written in one step; that a torn copy
    is noticed is up to its checksum.  The frames of a transaction are written
    in one step, page images are abstract, and a salt chosen at a restart was
    not used before.  Sleeping between retries is not modelled.  The theorems
    of WalIsolation assume that no log is restarted while another connection
    runs a checkpoint ([noOverlap]); [checkpoint_restart_race] shows that they
    do not hold otherwise.

    ** The pager

    The free pages and the payloads are verified over a pager that is given by the comments of
    pager.c, not by its code: BtPager defines fetching and releasing a page,
    making it writeable, the rollback journal, and the flags that spare it.
    Which calls fail, which pages are in the cache and what is read of a page
    that was not written are answers over which the theorems quantify.

    ** What is not modelled

    Of wal.c: opening and closing, the snapshot interface, lock timeouts,
    exclusive locking mode, wal-indexes in heap memory.  Of util.c: the
    conversions between numbers and text.  Of btree.c: the movement of
    cursors, balancing, preformatted cells, shared caches.  The code of the pager, the virtual machine, the SQL front
    end, the vector index, the extensions and the bindings are not part of
    this library; system calls and memory allocation are oracles. *)

From stdpp Require Import base list numbers option gmap.
#[local] Open Scope Z_scope.

(** ** Machine-width integers *)

Definition u8 (x : Z) : Z := x mod 2 ^ 8.
Definition u16 (x : Z) : Z := x mod 2 ^ 16.
Definition u32 (x : Z) : Z := x mod 2 ^ 32.
Definition u64 (x : Z) : Z := x mod 2 ^ 64.

Definition is_byte (b : Z) : Prop := 0 <= b < 256.

#[export] Instance is_byte_dec b : Decision (is_byte b) := _.

(** Result codes of src/sqlite.h.in that the modelled code returns. *)
Definition SQLITE_OK : Z := 0.
Definition SQLITE_NOMEM : Z := 7.

Definition SQLITE_ERROR : Z := 1.
Definition SQLITE_BUSY : Z := 5.
Definition SQLITE_CORRUPT : Z := 11.
Definition SQLITE_CANTOPEN : Z := 14.

(** Fallible code: a value, or the result code of the failure. *)
Inductive result (A : Type) : Type :=
| Ok (a : A)
| Err (rc : Z).
Arguments Ok {A} a.
Arguments Err {A} rc.

#[export] Instance result_ret : MRet result := @Ok.
#[export] Instance result_bind : MBind result := fun A B f r =>
  match r with Ok a => f a | Err rc => Err rc end.

(** ** Memory allocation

    The allocator is an oracle: the list of the outcomes of the next
    calls; an exhausted list means that every further call succeeds. *)
Abbreviation mallocs := (list bool).

Definition alloc (m : mallocs) : bool * mallocs :=
  match m with
  | [] => (true, [])
  | b :: m' => (b, m')
  end.

(** ** Arrays of integers indexed by Z *)

Definition nthZ (t : list Z) (k : Z) : Z := default 0 (t !! Z.to_nat k).
Definition setZ (t : list Z) (k v : Z) : list Z := <[Z.to_nat k := v]> t.

Lemma length_setZ t k v : length (setZ t k v) = length t.
Proof. apply length_insert. Qed.

Lemma nthZ_setZ_eq t k v :
  0 <= k < Z.of_nat (length t) -> nthZ (setZ t k v) k = v.
Proof.
  intros Hk. unfold nthZ, setZ. rewrite list_lookup_insert_eq by lia. done.
Qed.

Lemma nthZ_setZ_ne t k j v :
  0 <= k -> 0 <= j -> k <> j -> nthZ (setZ t k v) j = nthZ t j.
Proof.
  intros Hk Hj Hne. unfold nthZ, setZ. rewrite list_lookup_insert_ne by lia. done.
Qed.

Lemma nthZ_replicate n k : nthZ (replicate n 0) k = 0.
Proof.
  unfold nthZ. destruct (replicate n 0 !! Z.to_nat k) as [x|] eqn:E; [|done].
  apply lookup_replicate in E as [-> _]. done.
Qed.

Lemma nthZ_elem t k : nthZ t k <> 0 -> nthZ t k ∈ t.
Proof.
  unfold nthZ. destruct (t !! Z.to_nat k) as [x|] eqn:E; simpl; [|done].
  intros _. by eapply list_elem_of_lookup_2.
Qed.

Lemma elem_nthZ t x :
  x ∈ t -> exists k, 0 <= k < Z.of_nat (length t) /\ nthZ t k = x.
Proof.
  intros [i Hi]%list_elem_of_lookup_1. exists (Z.of_nat i).
  apply lookup_lt_Some in Hi as Hlt. split; [lia|].
  unfold nthZ. rewrite Nat2Z.id, Hi. done.
Qed.

Lemma take_eq_le {A} (l l' : list A) n m :
  take n l = take n l' -> (m <= n)%nat -> take m l = take m l'.
Proof. intros H Hm. replace m with (Nat.min m n) by lia. by rewrite <- !take_take, H. Qed.

(** Structural recursion below an array of optional children. *)
Definition nth_apply {B R} (f : B -> R) (d : R) : list (option B) -> nat -> R :=
  fix go l n :=
    match l, n with
    | [], _ => d
    | x :: _, O => match x with Some s => f s | None => d end
    | _ :: l', S n' => go l' n'
    end.

Definition nth_update {B} (f : B -> option B)
    : list (option B) -> nat -> option (list (option B)) :=
  fix go l n :=
    match l, n with
    | [], _ => Some []
    | x :: l', O =>
        match x with
        | Some s => s' ← f s; Some (Some s' :: l')
        | None => Some (x :: l')
        end
    | x :: l', S n' => l'' ← go l' n'; Some (x :: l'')
    end.

Lemma nth_apply_lookup {B R} (f : B -> R) d l n :
  nth_apply f d l n = match l !! n with Some (Some s) => f s | _ => d end.
Proof. revert n; induction l as [|x l IH]; intros [|n]; simpl; auto. Qed.

Lemma nth_update_lookup {B} (f : B -> option B) l n :
  nth_update f l n =
  match l !! n with
  | Some (Some s) => s' ← f s; Some (<[n := Some s']> l)
  | _ => Some l
  end.
Proof.
  revert n; induction l as [|x l IH]; intros [|n]; simpl; try done.
  rewrite IH. destruct (l !! n) as [[s|]|]; simpl; try done.
  destruct (f s); done.
Qed.

(** Number of non-zero cells of an array. *)
Definition stored (l : list Z) : nat := length (filter (fun v => v <> 0) l).

Lemma stored_lt_free l :
  (stored l < length l)%nat -> exists z, 0 <= z < Z.of_nat (length l) /\ nthZ l z = 0.
Proof.
  unfold stored. induction l as [|x l IH]; simpl; [lia|].
  rewrite filter_cons. case_decide as Hx; simpl; intros H.
  - destruct IH as (z & Hz & Hn); [lia|]. exists (z + 1). split; [lia|].
    unfold nthZ in *. by replace (Z.to_nat (z + 1)) with (S (Z.to_nat z)) by lia.
  - exists 0. split; [lia|]. unfold nthZ. simpl. lia.
Qed.

Lemma stored_setZ l k v :
  0 <= k < Z.of_nat (length l) -> nthZ l k = 0 -> v <> 0 ->
  stored (setZ l k v) = S (stored l).
Proof.
  unfold stored, setZ, nthZ. intros Hk H0 Hv.
  assert (Z.to_nat k < length l)%nat as Hlt by lia. revert H0 Hlt.
  generalize (Z.to_nat k) as i. clear Hk.
  induction l as [|x l IH]; intros [|i] H0 Hlt; simpl in *; try lia.
  - subst x. rewrite !filter_cons. repeat case_decide; try done.
  - rewrite !filter_cons. specialize (IH i H0 ltac:(lia)). case_decide; simpl; lia.
Qed.

Lemma stored_replicate n : stored (replicate n 0) = 0%nat.
Proof. induction n as [|n IH]; [done|]. unfold stored in *. simpl. by rewrite filter_cons. Qed.

Lemma elem_setZ l k v x :
  0 <= k < Z.of_nat (length l) -> nthZ l k = 0 -> x <> 0 ->
  x ∈ setZ l k v <-> x = v \/ x ∈ l.
Proof.
  intros Hk H0 Hx. split.
  - intros [j [Hj Hn]]%elem_nthZ. rewrite length_setZ in Hj.
    destruct (decide (k = j)) as [->|Hne].
    + rewrite nthZ_setZ_eq in Hn by done. auto.
    + rewrite nthZ_setZ_ne in Hn by lia. right. rewrite <- Hn. apply nthZ_elem. lia.
  - intros [->|[j [Hj Hn]]%elem_nthZ].
    + rewrite <- (nthZ_setZ_eq l k v Hk) at 1. apply nthZ_elem.
      rewrite nthZ_setZ_eq by done. done.
    + assert (k <> j) by congruence. rewrite <- Hn.
      rewrite <- (nthZ_setZ_ne l k j v) by lia. apply nthZ_elem.
      rewrite nthZ_setZ_ne by lia. lia.
Qed.

(** ** Bits *)

Lemma land_bit x k :
  0 <= k -> negb (Z.land x (Z.shiftl 1 k) =? 0) = Z.testbit x k.
Proof.
  intros Hk. destruct (Z.testbit x k) eqn:E.
  - apply negb_true_iff, Z.eqb_neq. intros H0.
    assert (Z.testbit (Z.land x (Z.shiftl 1 k)) k = true) as Hb.
    { rewrite Z.land_spec, E, Z.shiftl_spec, Z.sub_diag by done. done. }
    rewrite H0, Z.bits_0 in Hb. done.
  - apply negb_false_iff, Z.eqb_eq, Z.bits_inj'. intros n Hn.
    rewrite Z.land_spec, Z.shiftl_1_l, Z.pow2_bits_eqb, Z.bits_0 by done.
    destruct (Z.eqb_spec k n) as [<-|]; [by rewrite E|]. apply andb_false_r.
Qed.

Lemma land_7 i : Z.land i 7 = i mod 8.
Proof. apply (Z.land_ones i 3). lia. Qed.

Lemma testbit_u8 x k : 0 <= k < 8 -> Z.testbit (u8 x) k = Z.testbit x k.
Proof. intros. unfold u8. apply Z.mod_pow2_bits_low. lia. Qed.

Lemma u8_range x : 0 <= u8 x < 256.
Proof. unfold u8. apply Z.mod_pos_bound. lia. Qed.

Lemma testbit_bit k j : 0 <= k -> Z.testbit (Z.shiftl 1 k) j = (k =? j).
Proof. intros. by rewrite Z.shiftl_1_l, Z.pow2_bits_eqb. Qed.

Lemma u32_range x : 0 <= u32 x < 2 ^ 32.
Proof. apply Z.mod_pos_bound. lia. Qed.

Lemma u32_small x : 0 <= x < 2 ^ 32 -> u32 x = x.
Proof. intros. by apply Z.mod_small. Qed.

(** ** Linear probing

    A table of [N] slots is a function from slots to contents, with 0 for
    an empty slot; [home] is the slot where the search for a value starts. *)
Section Probing.
Context (N : Z).

Definition dist (h k : Z) : Z := (k - h) mod N.
Definition slot (h d : Z) : Z := (h + d) mod N.

(** Every stored value is reachable from its home slot. *)
Definition chained (home : Z -> Z) (t : Z -> Z) : Prop :=
  forall k, 0 <= k < N -> t k <> 0 ->
  forall d, 0 <= d < dist (home (t k)) k -> t (slot (home (t k)) d) <> 0.

(** Walk from slot [h] to the first slot that is empty or that [stop]s. *)
Fixpoint walk (fuel : nat) (t : Z -> Z) (stop : Z -> bool) (h : Z) : option Z :=
  match fuel with
  | O => None
  | S f => if (t h =? 0) || stop (t h) then Some h
           else walk f t stop ((h + 1) mod N)
  end.

Hypothesis Npos : 0 < N.

Lemma slot_range h d : 0 <= slot h d < N.
Proof using Npos. unfold slot. apply Z.mod_pos_bound. lia. Qed.

Lemma dist_range h k : 0 <= dist h k < N.
Proof using Npos. unfold dist. apply Z.mod_pos_bound. lia. Qed.

Lemma slot_dist h k : 0 <= k < N -> slot h (dist h k) = k.
Proof using Npos.
  intros Hk. unfold slot, dist. rewrite Zplus_mod_idemp_r.
  replace (h + (k - h)) with k by lia. by apply Z.mod_small.
Qed.

Lemma dist_slot h d : 0 <= d < N -> dist h (slot h d) = d.
Proof using Npos.
  intros Hd. unfold slot, dist. rewrite Zminus_mod_idemp_l.
  replace (h + d - h) with d by lia. by apply Z.mod_small.
Qed.

Lemma slot_0 h : 0 <= h < N -> slot h 0 = h.
Proof using Npos. intros. unfold slot. rewrite Z.add_0_r. by apply Z.mod_small. Qed.

Lemma slot_succ h d : (slot h d + 1) mod N = slot h (d + 1).
Proof using Npos. unfold slot. rewrite Zplus_mod_idemp_l. f_equal. lia. Qed.

Lemma walk_from fuel t stop h d e :
  0 <= d <= e -> e - d < Z.of_nat fuel ->
  (t (slot h e) = 0 \/ stop (t (slot h e)) = true) ->
  exists d', d <= d' <= e
    /\ walk fuel t stop (slot h d) = Some (slot h d')
    /\ (t (slot h d') = 0 \/ stop (t (slot h d')) = true)
    /\ (forall c, d <= c < d' -> t (slot h c) <> 0 /\ stop (t (slot h c)) = false).
Proof using Npos.
  revert d; induction fuel as [|f IH]; intros d Hde Hf He; [lia|]. simpl.
  destruct ((t (slot h d) =? 0) || stop (t (slot h d))) eqn:E.
  - exists d. apply orb_true_iff in E. rewrite Z.eqb_eq in E.
    repeat split; auto; lia.
  - apply orb_false_iff in E as [E1%Z.eqb_neq E2].
    assert (d <> e) by (intros ->; destruct He; congruence).
    rewrite slot_succ. destruct (IH (d + 1)) as (d' & Hd' & Hw & Hend & Hbefore);
      [lia|lia|done|].
    exists d'. repeat split; auto; try lia;
      destruct (decide (c = d)) as [->|]; try done; apply Hbefore; lia.
Qed.

(** With at least one empty slot the walk ends within [N] steps. *)
Lemma walk_total t stop h z :
  0 <= h < N -> 0 <= z < N -> t z = 0 ->
  exists d, 0 <= d < N
    /\ walk (Z.to_nat N) t stop h = Some (slot h d)
    /\ (t (slot h d) = 0 \/ stop (t (slot h d)) = true)
    /\ (forall c, 0 <= c < d -> t (slot h c) <> 0 /\ stop (t (slot h c)) = false).
Proof using Npos.
  intros Hh Hz Ht. pose proof (dist_range h z) as Hd.
  destruct (walk_from (Z.to_nat N) t stop h 0 (dist h z)) as (d & Hd' & Hw & He & Hb);
    [lia|lia|rewrite slot_dist by lia; auto|].
  rewrite slot_0 in Hw by lia. exists d. repeat split; auto; try lia; apply Hb; done.
Qed.

(** In a chained table the walk that looks for [v] finds it exactly when
    it is stored. *)
Lemma walk_finds t home v d :
  chained home t -> v <> 0 -> 0 <= d < N ->
  (t (slot (home v) d) = 0 \/ t (slot (home v) d) = v) ->
  (forall c, 0 <= c < d -> t (slot (home v) c) <> 0 /\ t (slot (home v) c) <> v) ->
  (exists k, 0 <= k < N /\ t k = v) -> t (slot (home v) d) = v.
Proof using Npos.
  intros Hch Hv Hd Hend Hb (k & Hk & Htk). destruct Hend as [H0|]; [|done].
  exfalso. pose proof (dist_range (home v) k) as Hr.
  destruct (Z.lt_trichotomy (dist (home v) k) d) as [Hlt|[Heq|Hgt]].
  - destruct (Hb (dist (home v) k)) as [_ Hne]; [lia|].
    rewrite slot_dist in Hne by done. done.
  - rewrite <- Heq, slot_dist in H0 by done. congruence.
  - specialize (Hch k Hk). rewrite Htk in Hch. apply (Hch Hv d); [lia|done].
Qed.

(** Storing a value in the first empty slot of its walk keeps the table
    chained. *)
Lemma chained_insert t t' home v d :
  chained home t -> v <> 0 -> 0 <= d < N ->
  t' (slot (home v) d) = v ->
  (forall k, 0 <= k < N -> k <> slot (home v) d -> t' k = t k) ->
  t (slot (home v) d) = 0 ->
  (forall c, 0 <= c < d -> t (slot (home v) c) <> 0) ->
  chained home t'.
Proof using Npos.
  intros Hch Hv Hd Hnew Hold H0 Hb k Hk Hnz c Hc.
  destruct (decide (slot (home (t' k)) c = slot (home v) d)) as [->|Hne]; [congruence|].
  rewrite Hold by (apply slot_range || done).
  destruct (decide (k = slot (home v) d)) as [->|Hkd].
  - rewrite Hnew in *. rewrite dist_slot in Hc by done. by apply Hb.
  - rewrite (Hold k) in * by done. by apply (Hch k).
Qed.
End Probing.

(** Distinct values between 1 and [n]: at most [n] of them. *)
Lemma pigeonhole (f : Z -> Z) d n :
  0 <= n ->
  (forall c, 0 <= c < d -> 1 <= f c <= n) ->
  (forall c c', 0 <= c < d -> 0 <= c' < d -> f c = f c' -> c = c') -> d <= n.
Proof.
  intros Hn Hr Hinj. destruct (Z.lt_ge_cases d 0) as [|Hd]; [lia|].
  assert (NoDup (f <$> seqZ 0 d)) as Hnd.
  { apply NoDup_fmap_2_strong; [|apply NoDup_seqZ].
    intros x y Hx%elem_of_seqZ Hy%elem_of_seqZ. apply Hinj; lia. }
  assert (f <$> seqZ 0 d ⊆ seqZ 1 n) as Hsub.
  { intros x (c & -> & Hc%elem_of_seqZ)%list_elem_of_fmap.
    apply elem_of_seqZ. specialize (Hr c). lia. }
  apply NoDup_submseteq, submseteq_length in Hsub; [|done].
  rewrite length_fmap, !length_seqZ in Hsub. lia.
Qed.
