(* ===== verification/Dlist.v ===== *)
(** * Doubly-linked lists in memory

    hash.c and mem5.c keep their objects on doubly-linked lists, with the
    links inside the objects.  The interface [Linked] is what the lists need
    of an object; the memory is a map from addresses to objects.  The null
    pointer is 0 in one file and any negative number in the other, and a
    parameter here. *)

From stdpp Require Import base list numbers option gmap sets.
From S2P Require Import Prelude.
#[local] Open Scope Z_scope.

(** An object with two links; [cargo] is everything else in it. *)
Class Linked (E P : Type) := {
  next : E -> Z;
  prev : E -> Z;
  cargo : E -> P;
  set_next : Z -> E -> E;
  set_prev : Z -> E -> E;
  next_set_next a e : next (set_next a e) = a;
  prev_set_next a e : prev (set_next a e) = prev e;
  cargo_set_next a e : cargo (set_next a e) = cargo e;
  next_set_prev a e : next (set_prev a e) = next e;
  prev_set_prev a e : prev (set_prev a e) = a;
  cargo_set_prev a e : cargo (set_prev a e) = cargo e
}.

#[global] Arguments next {E P _} _ : simpl never.
#[global] Arguments prev {E P _} _ : simpl never.
#[global] Arguments set_next {E P _} _ _ : simpl never.
#[global] Arguments set_prev {E P _} _ _ : simpl never.

Create Rewrite HintDb linked.
#[export] Hint Rewrite @next_set_next @prev_set_next @cargo_set_next @next_set_prev @prev_set_prev
  @cargo_set_prev : linked.

(** An assignment to a field of the object at address [a]. *)
Definition store {E} (f : E -> E) (a : Z) (m : gmap Z E) : option (gmap Z E) :=
  e ← m !! a; Some (<[a := f e]> m).

Fixpoint endOf (p : Z) (l : list Z) : Z :=
  match l with [] => p | a :: l' => endOf a l' end.

Lemma endOf_snoc p l z : endOf p (l ++ [z]) = z.
Proof. revert p; induction l as [|a l IH]; intros p; simpl; auto. Qed.

Lemma hd_app (n : Z) l1 l2 : hd n (l1 ++ l2) = hd (hd n l2) l1.
Proof. by destruct l1. Qed.

(** Updates elsewhere do not matter. *)
Ltac apart := rewrite lookup_insert_ne by (intros ?; subst; done).

Section dlist.
Context {E P : Type} `{Linked E P}.
Implicit Types (m : gmap Z E) (e : E).

Lemma store_ok (f : E -> E) a m e : m !! a = Some e -> store f a m = Some (<[a := f e]> m).
Proof. unfold store. by intros ->. Qed.

(** [dll m p l n]: the objects at the addresses [l] are linked in this order,
    after [p] and before [n]. *)
Fixpoint dll (m : gmap Z E) (p : Z) (l : list Z) (n : Z) : Prop :=
  match l with
  | [] => True
  | a :: l' => (exists e, m !! a = Some e /\ prev e = p /\ next e = hd n l') /\ dll m a l' n
  end.

Lemma dll_app m p l1 l2 n :
  dll m p (l1 ++ l2) n <-> dll m p l1 (hd n l2) /\ dll m (endOf p l1) l2 n.
Proof.
  revert p; induction l1 as [|a l1 IH]; intros p; simpl; [tauto|].
  rewrite IH, hd_app. tauto.
Qed.

(** Only the objects on the list matter. *)
Lemma dll_frame m m' p l n :
  (forall a, a ∈ l -> m' !! a = m !! a) -> dll m p l n -> dll m' p l n.
Proof.
  revert p; induction l as [|a l IH]; intros p Heq; simpl; [done|].
  intros [(e & He & Hp & Hn) Hl]. split.
  - exists e. rewrite Heq by set_solver. done.
  - apply IH; [set_solver|done].
Qed.

Lemma dll_insert_apart m p l n a e : a ∉ l -> dll m p l n -> dll (<[a := e]> m) p l n.
Proof. intros Ha. apply dll_frame. intros b Hb. by apart. Qed.

Lemma dll_delete_apart m p l n a : a ∉ l -> dll m p l n -> dll (delete a m) p l n.
Proof. intros Ha. apply dll_frame. intros b Hb. rewrite lookup_delete_ne; [done|]. by intros ->. Qed.

Lemma dll_set_prev m p p' y l n e :
  dll m p (y :: l) n -> y ∉ l -> m !! y = Some e ->
  dll (<[y := set_prev p' e]> m) p' (y :: l) n.
Proof.
  intros [(e' & He & Hp & Hn) Hl] Hy Hm. split; [|by apply dll_insert_apart].
  exists (set_prev p' e). rewrite lookup_insert_eq. autorewrite with linked. by simplify_eq.
Qed.

Lemma dll_set_next m p l z n n' e :
  dll m p (l ++ [z]) n -> z ∉ l -> m !! z = Some e ->
  dll (<[z := set_next n' e]> m) p (l ++ [z]) n'.
Proof.
  rewrite !dll_app. simpl. intros [Hl [(e' & He & Hp & Hn) _]] Hz Hm.
  split; [by apply dll_insert_apart|]. split; [|done].
  exists (set_next n' e). rewrite lookup_insert_eq. autorewrite with linked. by simplify_eq.
Qed.

(** The object of the list at an address. *)
Lemma dll_elem m p l1 a l2 n :
  dll m p (l1 ++ a :: l2) n ->
  exists e, m !! a = Some e /\ prev e = endOf p l1 /\ next e = hd n l2.
Proof. rewrite dll_app. simpl. tauto. Qed.

(** ** What an object holds apart from the links *)

Definition payload (m : gmap Z E) (a : Z) : option P := cargo <$> m !! a.

Definition same (m m' : gmap Z E) : Prop := forall a, payload m' a = payload m a.

Lemma same_insert m a e e' :
  m !! a = Some e -> cargo e' = cargo e -> same m (<[a := e']> m).
Proof.
  intros He Hd b. unfold payload. destruct (decide (a = b)) as [->|Hne].
  - rewrite lookup_insert_eq, He. simpl. by rewrite Hd.
  - by rewrite lookup_insert_ne.
Qed.

Lemma same_trans m m' m'' : same m m' -> same m' m'' -> same m m''.
Proof. intros H1 H2 a. by rewrite H2, H1. Qed.

(** [m'] has the objects of [m], with other links in those of [l]. *)
Definition relinked (l : list Z) (m m' : gmap Z E) : Prop :=
  same m m' /\ (forall a, a ∉ l -> m' !! a = m !! a).

Lemma relinked_refl l m : relinked l m m.
Proof. done. Qed.

Lemma relinked_insert l m0 m a e e' :
  relinked l m0 m -> a ∈ l -> m !! a = Some e -> cargo e' = cargo e ->
  relinked l m0 (<[a := e']> m).
Proof.
  intros [Hs Hf] Ha He Hd. split; [eapply same_trans; [done|by eapply same_insert]|].
  intros b Hb. rewrite lookup_insert_ne by set_solver. by apply Hf.
Qed.

Lemma relinked_some l m m' a : relinked l m m' -> is_Some (m !! a) -> is_Some (m' !! a).
Proof.
  intros [Hs _] [e He]. specialize (Hs a). unfold payload in Hs. rewrite He in Hs.
  destruct (m' !! a); [eauto|discriminate].
Qed.

Lemma relinked_mono l l' m m' : l ⊆ l' -> relinked l m m' -> relinked l' m m'.
Proof. intros Hl [Hs Hf]. split; [done|]. intros a Ha. apply Hf. set_solver. Qed.

Lemma relinked_trans l m m' m'' : relinked l m m' -> relinked l m' m'' -> relinked l m m''.
Proof.
  intros [Hs Hf] [Hs' Hf']. split; [by eapply same_trans|].
  intros a Ha. by rewrite Hf', Hf.
Qed.

(** ** Assignments at the ends of a list

    [isNull] is the test for the null pointer in the code, [null] the null
    pointer that it stores. *)
Section ends.
Context (isNull : Z -> bool) (null : Z) (null_is : isNull null = true).

Definition linkable (l : list Z) : Prop := Forall (fun a => isNull a = false) l.

(** Make [x] the successor of the last object of [l1]. *)
Lemma relink_end m l1 x n :
  dll m null l1 n -> NoDup l1 -> linkable l1 ->
  exists m', (if negb (isNull (endOf null l1)) then store (set_next x) (endOf null l1) m else Some m)
      = Some m'
    /\ dll m' null l1 x /\ relinked l1 m m'.
Proof using null_is.
  destruct l1 as [|z l1 _] using rev_ind; intros Hd Hnd H0.
  { exists m. simpl. by rewrite null_is. }
  rewrite endOf_snoc. apply Forall_app in H0 as [_ [Hz _]%Forall_cons].
  apply NoDup_app in Hnd as (Hnd & Hdis & _).
  destruct (dll_elem _ _ _ _ _ _ Hd) as (e & He & _ & _).
  exists (<[z := set_next x e]> m). rewrite Hz. simpl.
  unfold store. rewrite He. split_and!; [done| |].
  - apply (dll_set_next _ _ _ _ n); [done| |done]. intros Hz'. apply (Hdis z Hz'). set_solver.
  - eapply relinked_insert; [done| |done|by autorewrite with linked]. set_solver.
Qed.

(** Make [x] the predecessor of the first object of [l2]. *)
Lemma relink_begin m p l2 x n :
  dll m p l2 n -> NoDup l2 -> linkable l2 ->
  exists m', (if negb (isNull (hd null l2)) then store (set_prev x) (hd null l2) m else Some m) = Some m'
    /\ dll m' x l2 n /\ relinked l2 m m'.
Proof using null_is.
  destruct l2 as [|y l2]; intros Hd Hnd H0; [exists m; simpl; by rewrite null_is|].
  apply Forall_cons in H0 as [Hy0 _]. apply NoDup_cons in Hnd as [Hy Hnd].
  destruct Hd as [(e & He & Hp & Hn) Hd].
  exists (<[y := set_prev x e]> m). simpl. rewrite Hy0. simpl.
  unfold store. rewrite He. split; [done|]. split.
  - eapply dll_set_prev; [|done|done]. split; [|done]. eauto.
  - eapply relinked_insert; [done| |done|by autorewrite with linked]. set_solver.
Qed.

(** Join the lists on both sides of an object. *)
Lemma relink_around m l1 x l2 :
  dll m null (l1 ++ x :: l2) null -> NoDup (l1 ++ x :: l2) -> linkable (l1 ++ x :: l2) ->
  exists m1 m2,
    (if negb (isNull (endOf null l1)) then store (set_next (hd null l2)) (endOf null l1) m else Some m)
      = Some m1
    /\ (if negb (isNull (hd null l2)) then store (set_prev (endOf null l1)) (hd null l2) m1
        else Some m1) = Some m2
    /\ dll m2 null (l1 ++ l2) null /\ relinked (l1 ++ l2) m m2.
Proof using null_is.
  intros Hd Hnd H0. apply dll_app in Hd as [Hd1 [_ Hd2]].
  apply NoDup_app in Hnd as (Hnd1 & Hdis & [_ Hnd2]%NoDup_cons).
  apply Forall_app in H0 as [H01 [_ H02]%Forall_cons].
  assert (forall a, a ∈ l1 -> a ∉ l2) as Hdis' by (intros a Ha Ha'; apply (Hdis a Ha); by right).
  destruct (relink_end _ _ (hd null l2) _ Hd1) as (m1 & E1 & Hd1' & Hr1); [done|done|].
  assert (dll m1 x l2 null) as Hd2'.
  { eapply dll_frame; [|done]. intros a Ha. apply Hr1. intros Ha'. by apply (Hdis' a). }
  destruct (relink_begin _ _ _ (endOf null l1) _ Hd2') as (m2 & E2 & Hd2'' & Hr2); [done|done|].
  exists m1, m2. split; [done|]. split; [done|]. split.
  - apply dll_app. split; [|done]. eapply dll_frame; [|done]. intros a Ha. apply Hr2. by apply Hdis'.
  - eapply relinked_trans; (eapply relinked_mono; [|done]); intros a Ha; apply elem_of_app; auto.
Qed.

End ends.
End dlist.
