(* ===== verification/Bitvec.v ===== *)
(** * src/libsql-sqlite3/src/bitvec.c

    A [Bitvec] is a set of page numbers between 1 and [iSize].  It is a plain
    bitmap, a linearly probed hash table or an array of sub-bitmaps,
    depending on [iSize] and [iDivisor].  The file models every operation of
    bitvec.c and proves that together they implement a finite set. *)

From stdpp Require Import base list numbers option gmap.
From S2P Require Import Prelude.
#[local] Open Scope Z_scope.

(** ** Data *)

Definition BITVEC_SZ : Z := 512.
Definition BITVEC_USIZE : Z := (BITVEC_SZ - 3 * 4) / 8 * 8.
Definition BITVEC_SZELEM : Z := 8.
Definition BITVEC_NELEM : Z := BITVEC_USIZE / 1.
Definition BITVEC_NBIT : Z := BITVEC_NELEM * BITVEC_SZELEM.
Definition BITVEC_NINT : Z := BITVEC_USIZE / 4.
Definition BITVEC_MXHASH : Z := BITVEC_NINT / 2.
Definition BITVEC_NPTR : Z := BITVEC_USIZE / 8.
Definition BITVEC_HASH (x : Z) : Z := (x * 1) mod BITVEC_NINT.

(** The union [Bitvec.u]; the fields [iSize] and [iDivisor] say which member
    is in use. *)
Inductive Bitvec_u (B : Type) : Type :=
| aBitmap (l : list Z)
| aHash (l : list Z)
| apSub (l : list (option B)).
Arguments aBitmap {B} l.
Arguments aHash {B} l.
Arguments apSub {B} l.

Inductive Bitvec : Type :=
| mkBitvec (iSize nSet iDivisor : Z) (u : Bitvec_u Bitvec).

Definition iSize (p : Bitvec) : Z := let '(mkBitvec s _ _ _) := p in s.
Definition iDivisor (p : Bitvec) : Z := let '(mkBitvec _ _ d _) := p in d.

(** ** Operations *)

(** The zeroed memory of a new object is read through the member that
    [iSize] selects ([iDivisor] is 0). *)
Definition zeroBitvec (sz : Z) : Bitvec :=
  mkBitvec sz 0 0
    (if sz <=? BITVEC_NBIT then aBitmap (replicate (Z.to_nat BITVEC_NELEM) 0)
     else aHash (replicate (Z.to_nat BITVEC_NINT) 0)).

Definition sqlite3BitvecCreate (m : mallocs) (sz : Z) : option Bitvec * mallocs :=
  let '(ok, m') := alloc m in
  (if ok then Some (zeroBitvec sz) else None, m').

(** [while( p->u.aHash[h] )] of sqlite3BitvecTestNotNull. *)
Fixpoint testProbe (fuel : nat) (t : list Z) (i h : Z) : option bool :=
  match fuel with
  | O => None
  | S f =>
      if nthZ t h =? 0 then Some false
      else if nthZ t h =? i then Some true
      else testProbe f t i ((h + 1) mod BITVEC_NINT)
  end.

(** The body of sqlite3BitvecTestNotNull after [i--] and the range test. *)
Fixpoint testLoop (p : Bitvec) (i : Z) {struct p} : option bool :=
  let '(mkBitvec sz _ dv u) := p in
  if negb (dv =? 0) then
    match u with
    | apSub l =>
        nth_apply (fun s => testLoop s (i mod dv)) (Some false) l (Z.to_nat (i / dv))
    | _ => None
    end
  else if sz <=? BITVEC_NBIT then
    match u with
    | aBitmap l =>
        Some (negb (Z.land (nthZ l (i / BITVEC_SZELEM))
                      (Z.shiftl 1 (Z.land i (BITVEC_SZELEM - 1))) =? 0))
    | _ => None
    end
  else
    match u with
    | aHash l => testProbe (Z.to_nat BITVEC_NINT) l (u32 (i + 1)) (BITVEC_HASH i)
    | _ => None
    end.

Definition sqlite3BitvecTestNotNull (p : Bitvec) (i : Z) : option bool :=
  let i := u32 (i - 1) in
  if iSize p <=? i then Some false else testLoop p i.

Definition sqlite3BitvecTest (p : option Bitvec) (i : Z) : option bool :=
  match p with
  | None => Some false
  | Some p => sqlite3BitvecTestNotNull p i
  end.

(** [h++; if( h>=BITVEC_NINT ) h = 0;] *)
Definition nextSlot (h : Z) : Z := if BITVEC_NINT <=? h + 1 then 0 else h + 1.

(** The do-while loop of sqlite3BitvecSet: [inl tt] when the value is
    already stored, [inr h] when [h] is the first free slot. *)
Fixpoint setProbe (fuel : nat) (t : list Z) (i h : Z) : option (unit + Z) :=
  match fuel with
  | O => None
  | S f =>
      if nthZ t h =? i then Some (inl ())
      else let h := nextSlot h in
           if nthZ t h =? 0 then Some (inr h) else setProbe f t i h
  end.

(** [for(j=0; j<BITVEC_NINT; j++) if( aiValues[j] ) rc |= sqlite3BitvecSet(...)],
    with the recursive call as an argument. *)
Fixpoint setValues (set : mallocs -> Bitvec -> Z -> option (Z * Bitvec * mallocs))
    (m : mallocs) (rc : Z) (p : Bitvec) (aiValues : list Z) : option (Z * Bitvec * mallocs) :=
  match aiValues with
  | [] => Some (rc, p, m)
  | v :: vs =>
      if v =? 0 then setValues set m rc p vs
      else '(rc', p', m') ← set m p (u32 (v - 1));
           setValues set m' (Z.lor rc rc') p' vs
  end.

(** The label [bitvec_set_end]. *)
Definition bitvec_set_end (m : mallocs) (sz n dv : Z) (l : list Z) (h i : Z)
    : option (Z * Bitvec * mallocs) :=
  Some (SQLITE_OK, mkBitvec sz (u32 (n + 1)) dv (aHash (setZ l h i)), m).

(** The label [bitvec_set_rehash]; [set] is sqlite3BitvecSet after [i--]. *)
Definition bitvec_set_rehash
    (set : mallocs -> Bitvec -> Z -> option (Z * Bitvec * mallocs))
    (m : mallocs) (sz n dv : Z) (l : list Z) (h i : Z) : option (Z * Bitvec * mallocs) :=
  if BITVEC_MXHASH <=? n then
    match alloc m with
    | (false, m') => Some (SQLITE_NOMEM, mkBitvec sz n dv (aHash l), m')
    | (true, m') =>
        let p := mkBitvec sz n ((sz + BITVEC_NPTR - 1) / BITVEC_NPTR)
                   (apSub (replicate (Z.to_nat BITVEC_NPTR) None)) in
        '(rc, p', m'') ← set m' p (u32 (i - 1));
        setValues set m'' rc p' l
    end
  else bitvec_set_end m sz n dv l h i.

(** sqlite3BitvecSet after [i--]; each descent into a sub-bitmap and each
    re-hash uses one unit of fuel.  [None] is the divergence of a loop or an
    access to the wrong member of the union. *)
Fixpoint setLoop (fuel : nat) (m : mallocs) (p : Bitvec) (i : Z)
    : option (Z * Bitvec * mallocs) :=
  match fuel with
  | O => None
  | S f =>
    let '(mkBitvec sz n dv u) := p in
    if (BITVEC_NBIT <? sz) && negb (dv =? 0) then
      match u with
      | apSub l =>
          let bin := i / dv in
          let i := i mod dv in
          match l !! Z.to_nat bin with
          | None => None
          | Some (Some s) =>
              '(rc, s', m') ← setLoop f m s i;
              Some (rc, mkBitvec sz n dv (apSub (<[Z.to_nat bin := Some s']> l)), m')
          | Some None =>
              match sqlite3BitvecCreate m dv with
              | (None, m') => Some (SQLITE_NOMEM, p, m')
              | (Some s, m') =>
                  '(rc, s', m'') ← setLoop f m' s i;
                  Some (rc, mkBitvec sz n dv (apSub (<[Z.to_nat bin := Some s']> l)), m'')
              end
          end
      | _ => None
      end
    else if sz <=? BITVEC_NBIT then
      match u with
      | aBitmap l =>
          let k := i / BITVEC_SZELEM in
          Some (SQLITE_OK,
                mkBitvec sz n dv
                  (aBitmap (setZ l k (u8 (Z.lor (nthZ l k)
                              (Z.shiftl 1 (Z.land i (BITVEC_SZELEM - 1))))))), m)
      | _ => None
      end
    else
      match u with
      | aHash l =>
          let h := BITVEC_HASH i in
          let i := u32 (i + 1) in
          if nthZ l h =? 0 then
            if n <? BITVEC_NINT - 1 then bitvec_set_end m sz n dv l h i
            else bitvec_set_rehash (setLoop f) m sz n dv l h i
          else
            match setProbe (Z.to_nat BITVEC_NINT) l i h with
            | None => None
            | Some (inl _) => Some (SQLITE_OK, p, m)
            | Some (inr h) => bitvec_set_rehash (setLoop f) m sz n dv l h i
            end
      | _ => None
      end
  end.

(** Nine units of fuel are enough for every u32 size ([setLoop_spec]). *)
Definition sqlite3BitvecSet (m : mallocs) (p : option Bitvec) (i : Z)
    : option (Z * option Bitvec * mallocs) :=
  match p with
  | None => Some (SQLITE_OK, None, m)
  | Some p => '(rc, p', m') ← setLoop 9 m p (u32 (i - 1)); Some (rc, Some p', m')
  end.

(** [while( p->u.aHash[h] ){ h++; if( h>=BITVEC_NINT ) h = 0; }] *)
Fixpoint freeSlot (fuel : nat) (t : list Z) (h : Z) : option Z :=
  match fuel with
  | O => None
  | S f => if nthZ t h =? 0 then Some h else freeSlot f t (nextSlot h)
  end.

(** The loop of sqlite3BitvecClear that rebuilds the table without [x]. *)
Fixpoint rebuild (n : Z) (t : list Z) (x : Z) (aiValues : list Z) : option (Z * list Z) :=
  match aiValues with
  | [] => Some (n, t)
  | v :: vs =>
      if negb (v =? 0) && negb (v =? x) then
        h ← freeSlot (Z.to_nat BITVEC_NINT) t (BITVEC_HASH (v - 1));
        rebuild (u32 (n + 1)) (setZ t h v) x vs
      else rebuild n t x vs
  end.

Fixpoint clearLoop (p : Bitvec) (i : Z) {struct p} : option Bitvec :=
  let '(mkBitvec sz n dv u) := p in
  if negb (dv =? 0) then
    match u with
    | apSub l =>
        l' ← nth_update (fun s => clearLoop s (i mod dv)) l (Z.to_nat (i / dv));
        Some (mkBitvec sz n dv (apSub l'))
    | _ => None
    end
  else if sz <=? BITVEC_NBIT then
    match u with
    | aBitmap l =>
        let k := i / BITVEC_SZELEM in
        Some (mkBitvec sz n dv
          (aBitmap (setZ l k (u8 (Z.land (nthZ l k)
                      (Z.lnot (Z.shiftl 1 (Z.land i (BITVEC_SZELEM - 1)))))))))
    | _ => None
    end
  else
    match u with
    | aHash l =>
        '(n', t) ← rebuild 0 (replicate (Z.to_nat BITVEC_NINT) 0) (u32 (i + 1)) l;
        Some (mkBitvec sz n' dv (aHash t))
    | _ => None
    end.

Definition sqlite3BitvecClear (p : option Bitvec) (i : Z) : option (option Bitvec) :=
  match p with
  | None => Some None
  | Some p => Some <$> clearLoop p (u32 (i - 1))
  end.

Definition sqlite3BitvecSize (p : Bitvec) : Z := iSize p.

(** ** Specification: the set of members, zero-based *)

Fixpoint bits (p : Bitvec) (i : Z) {struct p} : bool :=
  let '(mkBitvec _ _ dv u) := p in
  match u with
  | aBitmap l => Z.testbit (nthZ l (i / 8)) (i mod 8)
  | aHash l => bool_decide (i + 1 ∈ l)
  | apSub l => nth_apply (fun s => bits s (i mod dv)) false l (Z.to_nat (i / dv))
  end.

(** The table of the hash representation: linearly probed, with at least
    one free slot, and [n] entries between 1 and [sz]. *)
Record hash_ok (sz n : Z) (l : list Z) : Prop := {
  hash_len : length l = Z.to_nat BITVEC_NINT;
  hash_range : forall v, v ∈ l -> 0 <= v <= sz;
  hash_chained : chained BITVEC_NINT (fun v => BITVEC_HASH (v - 1)) (nthZ l);
  hash_count : n = Z.of_nat (stored l);
  hash_free : n <= BITVEC_NINT - 1
}.

Inductive wf : Bitvec -> Prop :=
| wf_bitmap sz l :
    0 <= sz <= BITVEC_NBIT -> length l = Z.to_nat BITVEC_NELEM ->
    (forall b, b ∈ l -> 0 <= b < 256) ->
    wf (mkBitvec sz 0 0 (aBitmap l))
| wf_hash sz n l :
    BITVEC_NBIT < sz < 2 ^ 32 -> hash_ok sz n l ->
    wf (mkBitvec sz n 0 (aHash l))
| wf_sub sz n dv l :
    BITVEC_NBIT < sz < 2 ^ 32 -> dv = (sz + BITVEC_NPTR - 1) / BITVEC_NPTR ->
    length l = Z.to_nat BITVEC_NPTR ->
    (forall k s, l !! k = Some (Some s) -> wf s) ->
    (forall k s, l !! k = Some (Some s) -> iSize s = dv) ->
    wf (mkBitvec sz n dv (apSub l)).

(** ** Lemmas *)

Lemma NINT_eq : BITVEC_NINT = 124. Proof. done. Qed.
Lemma NBIT_eq : BITVEC_NBIT = 3968. Proof. done. Qed.
Lemma NELEM_eq : BITVEC_NELEM = 496. Proof. done. Qed.
Lemma NPTR_eq : BITVEC_NPTR = 62. Proof. done. Qed.
Lemma MXHASH_eq : BITVEC_MXHASH = 62. Proof. done. Qed.

Ltac bv_const := rewrite ?NINT_eq, ?NBIT_eq, ?NELEM_eq, ?NPTR_eq, ?MXHASH_eq in *.
Ltac bv_lia := bv_const; lia.

Lemma BITVEC_HASH_range x : 0 <= BITVEC_HASH x < BITVEC_NINT.
Proof. unfold BITVEC_HASH. apply Z.mod_pos_bound. bv_lia. Qed.

Lemma nextSlot_mod h : 0 <= h < BITVEC_NINT -> nextSlot h = (h + 1) mod BITVEC_NINT.
Proof.
  intros Hh. unfold nextSlot. case (Z.leb_spec BITVEC_NINT (h + 1)); intros.
  - replace (h + 1) with BITVEC_NINT by lia. by rewrite Z.mod_same by bv_lia.
  - by rewrite Z.mod_small by lia.
Qed.

Lemma testProbe_walk f t i h :
  i <> 0 ->
  testProbe f t i h =
  (fun k => nthZ t k =? i) <$> walk BITVEC_NINT f (nthZ t) (fun v => v =? i) h.
Proof.
  intros Hi. revert h; induction f as [|f IH]; intros h; cbn; [done|].
  destruct (Z.eqb_spec (nthZ t h) 0) as [E|E]; simpl.
  - f_equal. symmetry. apply Z.eqb_neq. congruence.
  - destruct (nthZ t h =? i) eqn:E2; simpl; [by rewrite E2|apply IH].
Qed.

Lemma setProbe_walk f t i h k :
  i <> 0 -> 0 <= h < BITVEC_NINT -> nthZ t h <> 0 ->
  walk BITVEC_NINT f (nthZ t) (fun v => v =? i) h = Some k ->
  setProbe f t i h = Some (if nthZ t k =? i then inl () else inr k).
Proof.
  intros Hi. revert h; induction f as [|f IH]; intros h Hh Hnz; cbn; [done|].
  destruct (Z.eqb_spec (nthZ t h) 0) as [E|_]; [done|]. simpl.
  destruct (nthZ t h =? i) eqn:E; [intros [= <-]; by rewrite E|].
  rewrite nextSlot_mod by done. intros Hw.
  assert (0 <= (h + 1) mod BITVEC_NINT < BITVEC_NINT) by (apply Z.mod_pos_bound; bv_lia).
  destruct (Z.eqb_spec (nthZ t ((h + 1) mod BITVEC_NINT)) 0) as [E0|]; [|by apply IH].
  destruct f; cbn in Hw; [done|]. rewrite E0 in Hw. cbn in Hw. injection Hw as <-.
  rewrite E0. by destruct (Z.eqb_spec 0 i); [congruence|].
Qed.

Lemma freeSlot_walk f t h :
  0 <= h < BITVEC_NINT ->
  freeSlot f t h = walk BITVEC_NINT f (nthZ t) (fun _ => false) h.
Proof.
  revert h; induction f as [|f IH]; intros h Hh; cbn; [done|].
  rewrite orb_false_r. destruct (nthZ t h =? 0); [done|].
  rewrite nextSlot_mod by done. apply IH. apply Z.mod_pos_bound. bv_lia.
Qed.

#[local] Arguments testProbe : simpl never.
#[local] Arguments setProbe : simpl never.
#[local] Arguments freeSlot : simpl never.
#[local] Arguments walk : simpl never.

Lemma hash_ok_free sz n l :
  hash_ok sz n l -> exists z, 0 <= z < BITVEC_NINT /\ nthZ l z = 0.
Proof.
  intros [Hlen _ _ Hn Hf]. destruct (stored_lt_free l) as (z & Hz & H0); [bv_lia|].
  exists z. split; [|done]. rewrite Hlen in Hz. bv_lia.
Qed.

(** The walk that a search for [v] makes, with its outcome. *)
Lemma hash_walk sz n l v :
  hash_ok sz n l -> v <> 0 ->
  exists d, 0 <= d < BITVEC_NINT
    /\ walk BITVEC_NINT (Z.to_nat BITVEC_NINT) (nthZ l) (fun x => x =? v) (BITVEC_HASH (v - 1))
       = Some (slot BITVEC_NINT (BITVEC_HASH (v - 1)) d)
    /\ (forall c, 0 <= c < d -> nthZ l (slot BITVEC_NINT (BITVEC_HASH (v - 1)) c) <> 0)
    /\ (if bool_decide (v ∈ l)
        then nthZ l (slot BITVEC_NINT (BITVEC_HASH (v - 1)) d) = v
        else nthZ l (slot BITVEC_NINT (BITVEC_HASH (v - 1)) d) = 0).
Proof.
  intros Hok Hv. destruct (hash_ok_free _ _ _ Hok) as (z & Hz & H0).
  destruct (walk_total BITVEC_NINT ltac:(done) (nthZ l) (fun x => x =? v)
              (BITVEC_HASH (v - 1)) z) as (d & Hd & Hw & He & Hb);
    [apply BITVEC_HASH_range|done|done|].
  exists d. rewrite Z.eqb_eq in He. repeat split; try done; try lia.
  { intros c Hc. by apply Hb. }
  case_bool_decide as Hin.
  - apply (walk_finds BITVEC_NINT ltac:(done) (nthZ l) (fun v => BITVEC_HASH (v - 1)));
      [apply Hok|done..| |].
    + intros c Hc. destruct (Hb c Hc) as [? ?%Z.eqb_neq]. done.
    + apply elem_nthZ in Hin as (k & Hk & Hn). exists k. split; [|done].
      rewrite (hash_len _ _ _ Hok) in Hk. bv_lia.
  - destruct He as [He|He]; [done|]. destruct Hin. rewrite <- He. apply nthZ_elem. congruence.
Qed.

Lemma hash_insert sz n l v d :
  hash_ok sz n l -> 1 <= v <= sz -> n < BITVEC_NINT - 1 -> 0 <= d < BITVEC_NINT ->
  let k := slot BITVEC_NINT (BITVEC_HASH (v - 1)) d in
  nthZ l k = 0 ->
  (forall c, 0 <= c < d -> nthZ l (slot BITVEC_NINT (BITVEC_HASH (v - 1)) c) <> 0) ->
  hash_ok sz (n + 1) (setZ l k v)
  /\ (forall x, x <> 0 -> x ∈ setZ l k v <-> x = v \/ x ∈ l).
Proof.
  intros Hok Hv Hn Hd k H0 Hb.
  assert (0 <= k < BITVEC_NINT) as Hk by (apply slot_range; bv_lia).
  pose proof (hash_len _ _ _ Hok) as Hlen.
  assert (0 <= k < Z.of_nat (length l)) as Hk' by (rewrite Hlen; bv_lia).
  split; [|intros x Hx; by apply elem_setZ].
  split; [by rewrite length_setZ| | | |bv_lia].
  - intros x Hx. destruct (decide (x = 0)) as [->|]; [lia|].
    apply elem_setZ in Hx as [->|Hx]; [lia| |done..]. by apply (hash_range _ _ _ Hok).
  - eapply (chained_insert BITVEC_NINT ltac:(done) (nthZ l) _ _ v d); try done; try lia.
    + apply Hok.
    + by rewrite nthZ_setZ_eq.
    + intros j Hj Hne. apply nthZ_setZ_ne; unfold k in *; lia.
  - rewrite stored_setZ by (done || lia). rewrite (hash_count _ _ _ Hok). lia.
Qed.

Lemma hash_ok_empty sz :
  0 <= sz -> hash_ok sz 0 (replicate (Z.to_nat BITVEC_NINT) 0).
Proof.
  intros Hsz. split.
  - apply length_replicate.
  - intros v [-> _]%elem_of_replicate. lia.
  - intros k _ Hnz. by rewrite nthZ_replicate in Hnz.
  - by rewrite stored_replicate.
  - bv_lia.
Qed.

Lemma bits_bitmap l i :
  0 <= i ->
  negb (Z.land (nthZ l (i / BITVEC_SZELEM)) (Z.shiftl 1 (Z.land i (BITVEC_SZELEM - 1))) =? 0)
  = Z.testbit (nthZ l (i / 8)) (i mod 8).
Proof.
  intros Hi. change (BITVEC_SZELEM - 1) with 7. rewrite land_7.
  apply land_bit. apply Z.mod_pos_bound. lia.
Qed.

(** Changing the byte of bit [i] changes exactly that bit. *)
Lemma bitmap_update l i j b f :
  0 <= i < BITVEC_NBIT -> 0 <= j -> length l = Z.to_nat BITVEC_NELEM ->
  (forall k, 0 <= k < 8 ->
     Z.testbit b k = if k =? i mod 8 then f else Z.testbit (nthZ l (i / 8)) k) ->
  Z.testbit (nthZ (setZ l (i / 8) b) (j / 8)) (j mod 8)
  = if j =? i then f else Z.testbit (nthZ l (j / 8)) (j mod 8).
Proof.
  intros Hi Hj Hlen Hb. assert (0 <= j mod 8 < 8) by (apply Z.mod_pos_bound; lia).
  destruct (decide (j / 8 = i / 8)) as [E|E].
  - rewrite E, nthZ_setZ_eq by (rewrite Hlen; bv_const; split; [apply Z.div_pos; lia|];
      apply Z.div_lt_upper_bound; lia). rewrite Hb by done.
    destruct (Z.eqb_spec (j mod 8) (i mod 8)), (Z.eqb_spec j i); try done; exfalso.
    + pose proof (Z.div_mod j 8). pose proof (Z.div_mod i 8). lia.
    + congruence.
  - rewrite nthZ_setZ_ne by (try apply Z.div_pos; lia).
    destruct (Z.eqb_spec j i); [congruence|done].
Qed.

Lemma dv_bounds sz :
  BITVEC_NBIT < sz ->
  0 < (sz + BITVEC_NPTR - 1) / BITVEC_NPTR < sz
  /\ sz <= (sz + BITVEC_NPTR - 1) / BITVEC_NPTR * BITVEC_NPTR.
Proof.
  intros Hsz. bv_const.
  pose proof (Z.div_mod (sz + 62 - 1) 62) as E.
  pose proof (Z.mod_pos_bound (sz + 62 - 1) 62). lia.
Qed.

Lemma wf_size p : wf p -> 0 <= iSize p < 2 ^ 32.
Proof. inversion 1; simpl; bv_lia. Qed.

(** Test agrees with [bits], and terminates. *)
Lemma testLoop_bits p i :
  wf p -> 0 <= i < iSize p -> testLoop p i = Some (bits p i).
Proof.
  intros Hwf. revert i.
  induction Hwf as [sz l Hsz Hlen _|sz n l Hsz Hok|sz n dv l Hsz Hdv Hlen _ IH Hs];
    intros i Hi; cbn [iSize] in Hi; simpl.
  - replace (sz <=? BITVEC_NBIT) with true by (symmetry; apply Z.leb_le; lia).
    f_equal. apply bits_bitmap. lia.
  - replace (sz <=? BITVEC_NBIT) with false by (symmetry; apply Z.leb_gt; lia).
    rewrite u32_small by lia. rewrite testProbe_walk by lia.
    destruct (hash_walk _ _ _ (i + 1) Hok ltac:(lia)) as (d & Hd & Hw & _ & He).
    replace (i + 1 - 1) with i in * by lia. rewrite Hw. simpl. f_equal.
    case_bool_decide; rewrite He; [apply Z.eqb_refl|apply Z.eqb_neq; lia].
  - pose proof (dv_bounds sz ltac:(lia)) as [Hd _]. rewrite <- Hdv in Hd.
    replace (dv =? 0) with false by (symmetry; apply Z.eqb_neq; lia). simpl.
    rewrite !nth_apply_lookup.
    destruct (l !! Z.to_nat (i / dv)) as [[s|]|] eqn:E; try done.
    apply (IH _ _ E). rewrite (Hs _ _ E).
    apply Z.mod_pos_bound. lia.
Qed.

Lemma wf_zero sz : 0 <= sz < 2 ^ 32 -> wf (zeroBitvec sz).
Proof.
  intros Hsz. unfold zeroBitvec. case (Z.leb_spec sz BITVEC_NBIT); intros.
  - apply wf_bitmap; [lia|apply length_replicate|].
    intros b [-> _]%elem_of_replicate. lia.
  - apply wf_hash; [lia|]. apply hash_ok_empty. lia.
Qed.

Lemma bits_zero sz i : 0 <= i -> bits (zeroBitvec sz) i = false.
Proof.
  intros Hi. unfold zeroBitvec. case (sz <=? BITVEC_NBIT); cbn [bits].
  - rewrite nthZ_replicate. apply Z.bits_0.
  - apply bool_decide_eq_false. intros [? _]%elem_of_replicate. lia.
Qed.

(** What a call that adds the members [A] to [p] guarantees: whatever the
    result code, the new bitmap is well formed and holds nothing but old
    members and members of [A]; when the code is SQLITE_OK it holds all of
    them. *)
Record added (A : Z -> Prop) (rc : Z) (p p' : Bitvec) : Prop := {
  added_wf : wf p';
  added_size : iSize p' = iSize p;
  added_mode : iDivisor p <> 0 -> iDivisor p' = iDivisor p;
  added_rc : rc = SQLITE_OK \/ rc = SQLITE_NOMEM;
  added_sound j : 0 <= j -> bits p' j = true -> bits p j = true \/ A j;
  added_complete j :
    rc = SQLITE_OK -> 0 <= j -> bits p j = true \/ A j -> bits p' j = true
}.

Lemma added_none p rc A : wf p -> rc = SQLITE_NOMEM -> added A rc p p.
Proof. intros ? ->. split; auto. done. Qed.

Lemma added_trans A B C rc1 rc2 p1 p2 p3 :
  added A rc1 p1 p2 -> added B rc2 p2 p3 ->
  (forall j, 0 <= j -> C j <-> A j \/ B j) ->
  added C (Z.lor rc1 rc2) p1 p3.
Proof.
  intros [W1 S1 M1 R1 N1 C1] [W2 S2 M2 R2 N2 C2] HC. split.
  - done.
  - congruence.
  - intros Hd. rewrite <- (M1 Hd). apply M2. by rewrite (M1 Hd).
  - unfold SQLITE_OK, SQLITE_NOMEM in *. destruct R1 as [->| ->], R2 as [->| ->]; auto.
  - intros j Hj H. rewrite HC by done.
    destruct (N2 j Hj H) as [H'|]; [destruct (N1 j Hj H')|]; auto.
  - intros j Hrc Hj. apply Z.lor_eq_0_iff in Hrc as [Hr1 Hr2]. rewrite HC by done.
    intros H. apply C2; [done..|]. destruct H as [|[|]]; auto.
Qed.

Abbreviation setter := (mallocs -> Bitvec -> Z -> option (Z * Bitvec * mallocs)).

(** [set] implements sqlite3BitvecSet on the bitmaps that satisfy [P]. *)
Definition sets (P : Bitvec -> Prop) (set : setter) : Prop :=
  forall m p i, wf p -> P p -> 0 <= i < iSize p ->
  exists rc p' m', set m p i = Some (rc, p', m') /\ added (eq i) rc p p'.

Lemma setValues_spec (set : setter) sz dv m rc p vs :
  sets (fun p => iSize p = sz /\ iDivisor p = dv) set -> dv <> 0 ->
  wf p -> iSize p = sz -> iDivisor p = dv -> (forall v, v ∈ vs -> 0 <= v <= sz) ->
  rc = SQLITE_OK \/ rc = SQLITE_NOMEM ->
  exists rc' p' m', setValues set m rc p vs = Some (Z.lor rc rc', p', m')
    /\ added (fun j => j + 1 ∈ vs) rc' p p'.
Proof.
  intros Hset Hdv. revert m rc p. induction vs as [|v vs IH]; intros m rc p Hwf Hsz Hd Hv Hrc.
  - exists SQLITE_OK, p, m. simpl. rewrite Z.lor_0_r. split; [done|].
    split; auto; intros j; try set_solver.
  - simpl. destruct (Z.eqb_spec v 0) as [->|Hnz].
    + destruct (IH m rc p) as (rc' & p' & m' & E & Hadd); try done.
      { intros w Hw. apply Hv. set_solver. }
      exists rc', p', m'. split; [done|]. destruct Hadd as [W S M R N C].
      split; auto; intros j; [intros Hj H; destruct (N j Hj H); set_solver|].
      intros Hr Hj [H|H]; apply C; auto.
      apply elem_of_cons in H as [H|H]; [lia|auto].
    + assert (0 <= v <= sz) as Hv' by (apply Hv; set_solver).
      pose proof (wf_size _ Hwf). rewrite u32_small by lia.
      destruct (Hset m p (v - 1)) as (rc1 & p1 & m1 & E1 & H1); [done..|lia|].
      rewrite E1. simpl.
      destruct (IH m1 (Z.lor rc rc1) p1) as (rc2 & p2 & m2 & E2 & H2); try done.
      { apply H1. }
      { by rewrite (added_size _ _ _ _ H1). }
      { rewrite (added_mode _ _ _ _ H1); congruence. }
      { intros w Hw. apply Hv. set_solver. }
      { unfold SQLITE_OK, SQLITE_NOMEM in *.
        destruct Hrc as [->| ->], (added_rc _ _ _ _ H1) as [->| ->]; auto. }
      exists (Z.lor rc1 rc2), p2, m2. rewrite Z.lor_assoc. split; [done|].
      eapply added_trans; [done..|]. intros j Hj. rewrite elem_of_cons.
      split; intros [?|?]; auto; left; lia.
Qed.

Lemma set_bitmap sz l i :
  wf (mkBitvec sz 0 0 (aBitmap l)) -> 0 <= i < sz -> sz <= BITVEC_NBIT ->
  added (eq i) SQLITE_OK (mkBitvec sz 0 0 (aBitmap l))
    (mkBitvec sz 0 0 (aBitmap (setZ l (i / BITVEC_SZELEM)
       (u8 (Z.lor (nthZ l (i / BITVEC_SZELEM))
              (Z.shiftl 1 (Z.land i (BITVEC_SZELEM - 1)))))))).
Proof.
  intros Hwf Hi Hsz. inversion Hwf as [? ? _ Hlen Hb| |]; subst.
  change (BITVEC_SZELEM - 1) with 7. change BITVEC_SZELEM with 8. rewrite land_7.
  assert (0 <= i mod 8 < 8) by (apply Z.mod_pos_bound; lia).
  set (b := u8 _).
  assert (forall j, 0 <= j ->
    Z.testbit (nthZ (setZ l (i / 8) b) (j / 8)) (j mod 8)
    = if j =? i then true else Z.testbit (nthZ l (j / 8)) (j mod 8)) as Hbits.
  { intros j Hj. apply bitmap_update; [lia|lia|done|]. intros k Hk. unfold b.
    rewrite testbit_u8, Z.lor_spec, testbit_bit by lia.
    rewrite (Z.eqb_sym k). destruct (i mod 8 =? k); [apply orb_true_r|apply orb_false_r]. }
  split; simpl; try done; auto.
  - apply wf_bitmap; [lia|by rewrite length_setZ|].
    intros x [j [Hj <-]]%elem_nthZ. rewrite length_setZ in Hj.
    destruct (decide (i / 8 = j)) as [<-|Hne].
    + rewrite nthZ_setZ_eq by done. apply u8_range.
    + rewrite nthZ_setZ_ne by (try apply Z.div_pos; lia).
      destruct (decide (nthZ l j = 0)) as [->|]; [lia|]. by apply Hb, nthZ_elem.
  - intros j Hj. rewrite Hbits by done. destruct (Z.eqb_spec j i); auto.
  - intros j _ Hj. rewrite Hbits by done. destruct (Z.eqb_spec j i) as [|]; [done|].
    intros [|]; [done|congruence].
Qed.

Lemma set_hash sz n l i d :
  let p := mkBitvec sz n 0 (aHash l) in
  wf p -> 0 <= i < sz -> n < BITVEC_NINT - 1 -> 0 <= d < BITVEC_NINT ->
  let h := slot BITVEC_NINT (BITVEC_HASH i) d in
  nthZ l h = 0 ->
  (forall c, 0 <= c < d -> nthZ l (slot BITVEC_NINT (BITVEC_HASH i) c) <> 0) ->
  added (eq i) SQLITE_OK p (mkBitvec sz (u32 (n + 1)) 0 (aHash (setZ l h (u32 (i + 1))))).
Proof.
  intros p Hwf Hi Hn Hd h H0 Hb. subst h. inversion Hwf as [|? ? ? Hsz Hok|]; subst.
  assert (0 <= n) by (rewrite (hash_count _ _ _ Hok); lia).
  rewrite !u32_small by bv_lia.
  destruct (hash_insert sz n l (i + 1) d Hok) as [Hok' Hel]; try (done || lia);
    replace (i + 1 - 1) with i in * by lia; try done.
  split; simpl; try done; auto.
  - by apply wf_hash.
  - intros j Hj. rewrite !bool_decide_eq_true, Hel by lia. intros [|]; [right; lia|auto].
  - intros j _ Hj. rewrite !bool_decide_eq_true, Hel by lia. intros [|]; [auto|left; lia].
Qed.

(** Replacing the child that holds [i] adds what the child adds. *)
Lemma set_sub sz n dv l i s s' rc :
  let p := mkBitvec sz n dv (apSub l) in
  wf p -> 0 <= i < sz -> wf s -> iSize s = dv ->
  (forall j, 0 <= j -> j / dv = i / dv ->
     bits s (j mod dv) = bits p j) ->
  added (eq (i mod dv)) rc s s' ->
  added (eq i) rc p (mkBitvec sz n dv (apSub (<[Z.to_nat (i / dv) := Some s']> l))).
Proof.
  intros p Hwf Hi Hs Hss Hbits [W S M R N C].
  inversion Hwf as [| |? ? ? ? Hsz Hdv Hlen Hw Hd]; subst sz0 n0 dv0 l0.
  pose proof (dv_bounds sz ltac:(lia)) as [Hd0 Hd1]. rewrite <- Hdv in Hd0, Hd1.
  assert (0 <= i / dv < BITVEC_NPTR).
  { split; [apply Z.div_pos; lia|]. apply Z.div_lt_upper_bound; lia. }
  set (l' := <[_ := _]> l).
  assert (forall j, 0 <= j ->
    bits (mkBitvec sz n dv (apSub l')) j
    = if j / dv =? i / dv then bits s' (j mod dv) else bits p j) as Hnew.
  { intros j Hj. assert (0 <= j / dv) by (apply Z.div_pos; lia).
    cbn [bits p]. rewrite !nth_apply_lookup. unfold l'.
    destruct (Z.eqb_spec (j / dv) (i / dv)) as [->|].
    - rewrite list_lookup_insert_eq by bv_lia. done.
    - rewrite list_lookup_insert_ne by lia. done. }
  assert (forall j, 0 <= j -> j / dv = i / dv -> i mod dv = j mod dv -> i = j) as Hinj.
  { intros j Hj E1 E2. rewrite (Z.div_mod i dv), (Z.div_mod j dv) by lia. congruence. }
  split; simpl; try done.
  - apply wf_sub; try done.
    + unfold l'. by rewrite length_insert.
    + intros k x Hk. unfold l' in Hk. apply list_lookup_insert_Some in Hk as [(_&[=<-]&_)|[_ Hk]]; eauto.
    + intros k x Hk. unfold l' in Hk.
      apply list_lookup_insert_Some in Hk as [(_&[=<-]&_)|[_ Hk]]; [congruence|eauto].
  - intros j Hj. change (nth_apply _ _ _ _) with (bits (mkBitvec sz n dv (apSub l')) j) at 1.
    rewrite Hnew by done. destruct (Z.eqb_spec (j / dv) (i / dv)) as [E|E]; [|auto].
    intros Hb. assert (0 <= j mod dv) by (apply Z.mod_pos_bound; lia).
    destruct (N (j mod dv) ltac:(done) Hb) as [Hb'|Hb']; [|eauto].
    rewrite Hbits in Hb' by done. auto.
  - intros j Hrc Hj Hb. change (bits (mkBitvec sz n dv (apSub l')) j = true).
    rewrite Hnew by done. destruct (Z.eqb_spec (j / dv) (i / dv)) as [E|E].
    + apply C; [done|apply Z.mod_pos_bound; lia|]. rewrite Hbits by done.
      destruct Hb as [|<-]; auto.
    + destruct Hb as [|<-]; done.
Qed.

Definition levels (k : nat) (p : Bitvec) : Prop :=
  iSize p <= BITVEC_NBIT * BITVEC_NPTR ^ Z.of_nat k.

Definition fuel_for (k : nat) (p : Bitvec) : nat :=
  if iDivisor p =? 0 then (2 * k + 1)%nat else (2 * k)%nat.

Lemma levels_sub k sz :
  BITVEC_NBIT < sz -> sz <= BITVEC_NBIT * BITVEC_NPTR ^ Z.of_nat k ->
  exists k', k = S k' /\
    (sz + BITVEC_NPTR - 1) / BITVEC_NPTR <= BITVEC_NBIT * BITVEC_NPTR ^ Z.of_nat k'.
Proof.
  intros Hsz Hk. destruct k as [|k']; [simpl in Hk; lia|]. exists k'. split; [done|].
  rewrite Nat2Z.inj_succ, Z.pow_succ_r in Hk by lia. bv_const.
  set (q := 62 ^ Z.of_nat k') in *.
  apply Z.lt_succ_r, Z.div_lt_upper_bound; lia.
Qed.

Lemma wf_empty_sub sz n :
  BITVEC_NBIT < sz < 2 ^ 32 ->
  wf (mkBitvec sz n ((sz + BITVEC_NPTR - 1) / BITVEC_NPTR)
        (apSub (replicate (Z.to_nat BITVEC_NPTR) None))).
Proof.
  intros Hsz. apply wf_sub; try done.
  - intros k s [? _]%lookup_replicate. done.
  - intros k s [? _]%lookup_replicate. done.
Qed.

Lemma bits_empty_sub sz n dv j :
  bits (mkBitvec sz n dv (apSub (replicate (Z.to_nat BITVEC_NPTR) None))) j = false.
Proof.
  cbn [bits]. rewrite nth_apply_lookup.
  destruct (_ !! _) as [[s|]|] eqn:E; try done. apply lookup_replicate in E as [? _]. done.
Qed.

(** The re-hash of a full table, given a setter for the new representation. *)
Lemma set_rehash (set : setter) m sz n l i d :
  wf (mkBitvec sz n 0 (aHash l)) -> 0 <= i < sz ->
  sets (fun p => iSize p = sz /\ iDivisor p = (sz + BITVEC_NPTR - 1) / BITVEC_NPTR) set ->
  0 <= d < BITVEC_NINT ->
  nthZ l (slot BITVEC_NINT (BITVEC_HASH i) d) = 0 ->
  (forall c, 0 <= c < d -> nthZ l (slot BITVEC_NINT (BITVEC_HASH i) c) <> 0) ->
  exists rc p' m',
    bitvec_set_rehash set m sz n 0 l (slot BITVEC_NINT (BITVEC_HASH i) d) (u32 (i + 1))
    = Some (rc, p', m')
    /\ added (eq i) rc (mkBitvec sz n 0 (aHash l)) p'.
Proof.
  intros Hwf Hi Hset Hd H0 Hb. inversion Hwf as [|? ? ? Hsz Hok|]; subst.
  unfold bitvec_set_rehash. case (Z.leb_spec BITVEC_MXHASH n); intros Hn;
    [|do 3 eexists; split; [done|]; apply set_hash; try done; bv_lia].
  destruct (alloc m) as [[] m']; [|do 3 eexists; split; [done|]; by apply added_none].
  rewrite (u32_small (i + 1)), u32_small by lia. replace (i + 1 - 1) with i by lia.
  pose proof (dv_bounds sz ltac:(lia)) as [Hd0 _].
  set (dv := (sz + BITVEC_NPTR - 1) / BITVEC_NPTR) in *. set (p1 := mkBitvec sz n dv _).
  destruct (Hset m' p1 i) as (rc1 & p2 & m2 & E1 & H1); [by apply wf_empty_sub|done|done|].
  destruct (setValues_spec set sz dv m2 rc1 p2 l) as (rc2 & p3 & m3 & E2 & H2);
    try done; try apply H1; cbn [iDivisor p1]; try lia.
  { apply (hash_range _ _ _ Hok). }
  exists (Z.lor rc1 rc2), p3, m3. rewrite E1. simpl. rewrite E2. split; [done|].
  pose proof (added_trans _ _ (fun j => i = j \/ j + 1 ∈ l) _ _ _ _ _ H1 H2 ltac:(done))
    as [W S M R N C].
  split; simpl; try done.
  - intros j Hj Hb'. rewrite bool_decide_eq_true.
    destruct (N j Hj Hb') as [Hb2|[|]]; auto. unfold p1 in Hb2. by rewrite bits_empty_sub in Hb2.
  - intros j Hrc Hj. rewrite bool_decide_eq_true. intros Hb'. apply C; [done..|].
    destruct Hb'; auto.
Qed.

Lemma added_present sz n l i :
  wf (mkBitvec sz n 0 (aHash l)) -> i + 1 ∈ l ->
  added (eq i) SQLITE_OK (mkBitvec sz n 0 (aHash l)) (mkBitvec sz n 0 (aHash l)).
Proof.
  intros Hwf Hin. split; auto.
  intros j _ Hj [|<-]; [done|]. by apply bool_decide_eq_true.
Qed.

(** Bitmaps of at most [k] levels that [fuel] suffices for. *)
Definition fueled (fuel k : nat) (p : Bitvec) : Prop :=
  levels k p /\ (fuel_for k p <= fuel)%nat.

Lemma fueled_pos k p : wf p -> ~ fueled 0 k p.
Proof.
  intros Hwf [Hlev Hf]. unfold fuel_for in Hf.
  inversion Hwf as [| |? ? ? ? Hsz Hdv]; subst p; cbn [iDivisor] in Hf; try (simpl in Hf; lia).
  pose proof (dv_bounds sz ltac:(lia)). destruct (Z.eqb_spec dv 0); [lia|].
  destruct (levels_sub k sz) as (k' & -> & _); [lia|done|]. lia.
Qed.

Lemma setLoop_hash f k m sz n l i :
  (forall k, sets (fueled f k) (setLoop f)) ->
  wf (mkBitvec sz n 0 (aHash l)) -> fueled (S f) k (mkBitvec sz n 0 (aHash l)) ->
  0 <= i < sz ->
  exists rc p' m', setLoop (S f) m (mkBitvec sz n 0 (aHash l)) i = Some (rc, p', m')
    /\ added (eq i) rc (mkBitvec sz n 0 (aHash l)) p'.
Proof.
  intros IH Hwf [Hlev Hfuel] Hi. inversion Hwf as [|? ? ? Hsz Hok|]; subst. cbn [setLoop].
  replace (BITVEC_NBIT <? sz) with true by (symmetry; apply Z.ltb_lt; lia).
  replace (sz <=? BITVEC_NBIT) with false by (symmetry; apply Z.leb_gt; lia).
  cbn [andb negb Z.eqb]. destruct (levels_sub k sz) as (k' & -> & _); [lia|done|].
  unfold fuel_for in Hfuel. simpl in Hfuel.
  assert (sets (fun p => iSize p = sz /\ iDivisor p = (sz + BITVEC_NPTR - 1) / BITVEC_NPTR)
            (setLoop f)) as Hset.
  { intros m1 p1 i1 W1 [S1 D1] R1. apply (IH (S k')); [done| |done].
    unfold fueled, levels, fuel_for. rewrite S1, D1. split; [done|].
    pose proof (dv_bounds sz ltac:(lia)). destruct (Z.eqb_spec ((sz + BITVEC_NPTR - 1) / BITVEC_NPTR) 0); lia. }
  destruct (hash_walk sz n l (i + 1) Hok ltac:(lia)) as (d & Hd & Hwalk & Hb & He).
  replace (i + 1 - 1) with i in * by lia.
  destruct (Z.eqb_spec (nthZ l (BITVEC_HASH i)) 0) as [E0|E0].
  - rewrite <- (slot_0 BITVEC_NINT ltac:(done) (BITVEC_HASH i)) in E0 |- *
      by apply BITVEC_HASH_range.
    case (Z.ltb_spec n (BITVEC_NINT - 1)); intros Hn; [|apply set_rehash; done || lia].
    do 3 eexists. split; [done|]. apply set_hash; done || lia.
  - pose proof (setProbe_walk _ l (i + 1) _ _ ltac:(lia) (BITVEC_HASH_range i) E0 Hwalk) as Hp.
    assert (u32 (i + 1) = i + 1) as Eu by (apply u32_small; lia).
    rewrite <- Eu in Hp at 1. rewrite Hp, Eu.
    case_bool_decide as Hin; rewrite He.
    + rewrite Z.eqb_refl. do 3 eexists. split; [done|]. by apply added_present.
    + destruct (Z.eqb_spec 0 (i + 1)); [lia|].
      rewrite <- Eu. by apply set_rehash.
Qed.

Lemma setLoop_sub f k m sz n dv l i :
  (forall k, sets (fueled f k) (setLoop f)) ->
  wf (mkBitvec sz n dv (apSub l)) -> fueled (S f) k (mkBitvec sz n dv (apSub l)) ->
  0 <= i < sz ->
  exists rc p' m', setLoop (S f) m (mkBitvec sz n dv (apSub l)) i = Some (rc, p', m')
    /\ added (eq i) rc (mkBitvec sz n dv (apSub l)) p'.
Proof.
  intros IH Hwf [Hlev Hfuel] Hi.
  inversion Hwf as [| |? ? ? ? Hsz Hdv Hlen Hw Hd]; subst sz0 n0 dv0 l0. cbn [setLoop].
  pose proof (dv_bounds sz ltac:(lia)) as [Hd0 Hd1]. rewrite <- Hdv in Hd0, Hd1.
  replace (BITVEC_NBIT <? sz) with true by (symmetry; apply Z.ltb_lt; lia).
  destruct (levels_sub k sz) as (k' & -> & Hk'); [lia|done|].
  unfold fuel_for in Hfuel. cbn [iDivisor] in Hfuel.
  destruct (Z.eqb_spec dv 0); [lia|]. cbn [andb negb].
  assert (0 <= i / dv < BITVEC_NPTR).
  { split; [apply Z.div_pos; lia|]. apply Z.div_lt_upper_bound; lia. }
  assert (0 <= i mod dv < dv) by (apply Z.mod_pos_bound; lia).
  assert (forall m s, wf s -> iSize s = dv ->
    (forall j, 0 <= j -> j / dv = i / dv ->
       bits s (j mod dv) = bits (mkBitvec sz n dv (apSub l)) j) ->
    exists rc p' m',
      ('(rc, s', m') ← setLoop f m s (i mod dv);
       Some (rc, mkBitvec sz n dv (apSub (<[Z.to_nat (i / dv) := Some s']> l)), m'))
      = Some (rc, p', m') /\ added (eq i) rc (mkBitvec sz n dv (apSub l)) p') as Hchild.
  { intros m1 s W1 S1 B1. destruct (IH k' m1 s (i mod dv)) as (rc & s' & m' & E & Ha);
      [done| |lia|].
    - unfold fueled, levels, fuel_for. rewrite S1, Hdv. split; [done|].
      destruct (iDivisor s =? 0); lia.
    - rewrite E. do 3 eexists. split; [done|]. eapply set_sub; done. }
  destruct (l !! Z.to_nat (i / dv)) as [[s|]|] eqn:El.
  - apply Hchild; [eauto..|]. intros j Hj E. cbn [bits].
    by rewrite nth_apply_lookup, E, El.
  - unfold sqlite3BitvecCreate. destruct (alloc m) as [[] m'] eqn:Ea.
    + apply Hchild; [apply wf_zero; lia|done|]. intros j Hj E. cbn [bits].
      rewrite nth_apply_lookup, E, El. apply bits_zero. apply Z.mod_pos_bound. lia.
    + do 3 eexists. split; [done|]. by apply added_none.
  - exfalso. apply lookup_ge_None in El. bv_lia.
Qed.

Lemma setLoop_spec fuel k : sets (fueled fuel k) (setLoop fuel).
Proof.
  revert k; induction fuel as [|f IH]; intros k m p i Hwf Hfu Hi.
  { by destruct (fueled_pos k p). }
  inversion Hwf as [sz l Hsz Hlen Hb| |]; subst p.
  - cbn [setLoop iSize] in *.
    replace (BITVEC_NBIT <? sz) with false by (symmetry; apply Z.ltb_ge; lia). cbn [andb].
    replace (sz <=? BITVEC_NBIT) with true by (symmetry; apply Z.leb_le; lia).
    do 3 eexists. split; [done|]. apply set_bitmap; [done|lia..].
  - by eapply setLoop_hash.
  - by eapply setLoop_sub.
Qed.

Lemma rebuild_spec sz x vs n t :
  hash_ok sz n t -> sz < 2 ^ 32 -> (forall v, v ∈ vs -> 0 <= v <= sz) ->
  n + Z.of_nat (stored vs) <= BITVEC_NINT - 1 ->
  exists n' t', rebuild n t x vs = Some (n', t') /\ hash_ok sz n' t'
    /\ (forall y, y <> 0 -> y ∈ t' <-> y ∈ t \/ (y ∈ vs /\ y <> x)).
Proof.
  revert n t; induction vs as [|v vs IH]; intros n t Hok Hsz Hvs Hn; simpl.
  { exists n, t. split; [done|]. split; [done|]. set_solver. }
  assert (stored (v :: vs) = (if decide (v <> 0%Z) then 1 else 0) + stored vs)%nat as Hst.
  { unfold stored. rewrite filter_cons. by case_decide. }
  assert (forall w, w ∈ vs -> 0 <= w <= sz) as Hvs' by (intros; apply Hvs; set_solver).
  destruct (Z.eqb_spec v 0) as [->|Hv0]; cbn [negb andb].
  { destruct (IH n t) as (n' & t' & E & Hok' & Hel); [done..|case_decide; lia|].
    exists n', t'. split; [done|]. split; [done|]. intros y Hy. rewrite Hel by done. set_solver. }
  rewrite decide_True in Hst by done.
  destruct (Z.eqb_spec v x) as [->|Hvx]; cbn [negb].
  { destruct (IH n t) as (n' & t' & E & Hok' & Hel); [done..|lia|].
    exists n', t'. split; [done|]. split; [done|]. intros y Hy. rewrite Hel by done. set_solver. }
  assert (1 <= v <= sz) by (specialize (Hvs v ltac:(set_solver)); lia).
  assert (0 <= n) by (rewrite (hash_count _ _ _ Hok); lia).
  rewrite freeSlot_walk by apply BITVEC_HASH_range.
  destruct (hash_ok_free _ _ _ Hok) as (z & Hz & Hz0).
  destruct (walk_total BITVEC_NINT ltac:(done) (nthZ t) (fun _ => false)
              (BITVEC_HASH (v - 1)) z) as (d & Hd & Hw & [He|He] & Hb);
    [apply BITVEC_HASH_range|done|done| |done].
  rewrite Hw, u32_small by bv_lia. simpl.
  destruct (hash_insert sz n t v d) as [Hok1 Hel1]; try done; [bv_lia| |].
  { intros c Hc. by apply Hb. }
  destruct (IH _ _ Hok1) as (n' & t' & E & Hok' & Hel); [done..|lia|].
  exists n', t'. split; [done|]. split; [done|].
  intros y Hy. rewrite Hel, Hel1 by done. set_solver.
Qed.

(** What clearing bit [i] guarantees. *)
Definition cleared (i : Z) (p p' : Bitvec) : Prop :=
  wf p' /\ iSize p' = iSize p
  /\ forall j, 0 <= j -> bits p' j = bits p j && negb (j =? i).

Lemma clear_bitmap sz l i :
  wf (mkBitvec sz 0 0 (aBitmap l)) -> 0 <= i < sz ->
  cleared i (mkBitvec sz 0 0 (aBitmap l))
    (mkBitvec sz 0 0 (aBitmap (setZ l (i / BITVEC_SZELEM)
       (u8 (Z.land (nthZ l (i / BITVEC_SZELEM))
              (Z.lnot (Z.shiftl 1 (Z.land i (BITVEC_SZELEM - 1))))))))).
Proof.
  intros Hwf Hi. inversion Hwf as [? ? Hsz Hlen Hb| |]; subst.
  change (BITVEC_SZELEM - 1) with 7. change BITVEC_SZELEM with 8. rewrite land_7.
  assert (0 <= i mod 8 < 8) by (apply Z.mod_pos_bound; lia). split; [|split; [done|]].
  - apply wf_bitmap; [lia|by rewrite length_setZ|].
    intros x [j [Hj <-]]%elem_nthZ. rewrite length_setZ in Hj.
    destruct (decide (i / 8 = j)) as [<-|Hne].
    + rewrite nthZ_setZ_eq by done. apply u8_range.
    + rewrite nthZ_setZ_ne by (try apply Z.div_pos; lia).
      destruct (decide (nthZ l j = 0)) as [->|]; [lia|]. by apply Hb, nthZ_elem.
  - intros j Hj. cbn [bits]. rewrite (bitmap_update l i j _ false); [|lia..|done|].
    { destruct (j =? i); [by rewrite andb_false_r|by rewrite andb_true_r]. }
    intros k Hk. rewrite testbit_u8, Z.land_spec, Z.lnot_spec, testbit_bit by lia.
    rewrite (Z.eqb_sym k). destruct (i mod 8 =? k); [apply andb_false_r|apply andb_true_r].
Qed.

Lemma clearLoop_spec p :
  wf p -> forall i, 0 <= i < iSize p -> exists p', clearLoop p i = Some p' /\ cleared i p p'.
Proof.
  induction 1 as [sz l Hsz Hlen Hb|sz n l Hsz Hok|sz n dv l Hsz Hdv Hlen Hw IH Hs];
    intros i Hi; cbn [iSize] in Hi; cbn [clearLoop].
  - replace (sz <=? BITVEC_NBIT) with true by (symmetry; apply Z.leb_le; lia).
    eexists. split; [done|]. apply clear_bitmap; [by apply wf_bitmap|done].
  - replace (sz <=? BITVEC_NBIT) with false by (symmetry; apply Z.leb_gt; lia).
    cbn [negb Z.eqb]. rewrite u32_small by lia.
    destruct (rebuild_spec sz (i + 1) l 0 (replicate (Z.to_nat BITVEC_NINT) 0))
      as (n' & t' & E & Hok' & Hel); [apply hash_ok_empty; lia|lia|apply Hok| |].
    { rewrite Z.add_0_l, <- (hash_count _ _ _ Hok). apply Hok. }
    rewrite E. eexists. split; [done|]. split; [by apply wf_hash|]. split; [done|].
    intros j Hj. cbn [bits]. apply eq_bool_prop_intro.
    rewrite andb_True, !bool_decide_spec, Hel, negb_True by lia.
    rewrite elem_of_replicate, Is_true_true, Z.eqb_eq. split.
    + intros [[? _]|[? ?]]; [lia|]. split; [done|lia].
    + intros [? ?]. right. split; [done|lia].
  - pose proof (dv_bounds sz ltac:(lia)) as [Hd0 _]. rewrite <- Hdv in Hd0.
    destruct (Z.eqb_spec dv 0); [lia|]. cbn [negb]. rewrite nth_update_lookup.
    assert (0 <= i mod dv < dv) by (apply Z.mod_pos_bound; lia).
    assert (forall j, 0 <= j -> j / dv = i / dv -> (j mod dv =? i mod dv) = (j =? i)) as Hinj.
    { intros j Hj E. destruct (Z.eqb_spec (j mod dv) (i mod dv)), (Z.eqb_spec j i); try congruence.
      exfalso. pose proof (Z.div_mod i dv). pose proof (Z.div_mod j dv). nia. }
    destruct (l !! Z.to_nat (i / dv)) as [[s|]|] eqn:El.
    + destruct (IH _ _ El (i mod dv)) as (s' & E & W & S & B); [by rewrite (Hs _ _ El)|].
      rewrite E. eexists. split; [done|]. split; [|split; [done|]].
      * apply wf_sub; [done..|by rewrite length_insert| |];
          intros k x [(_&[=<-]&_)|[_ Hk]]%list_lookup_insert_Some; eauto.
        rewrite S. eauto.
      * intros j Hj. cbn [bits]. rewrite !nth_apply_lookup.
        assert (0 <= i / dv) by (apply Z.div_pos; lia).
        assert (0 <= j / dv) by (apply Z.div_pos; lia).
        destruct (decide (j / dv = i / dv)) as [Ej|Ej].
        -- rewrite Ej, list_lookup_insert_eq, El by (by eapply lookup_lt_Some).
           rewrite B by (apply Z.mod_pos_bound; lia). by rewrite Hinj.
        -- rewrite list_lookup_insert_ne by lia.
           destruct (Z.eqb_spec j i); [congruence|]. by rewrite andb_true_r.
    + eexists. split; [done|]. split; [by apply wf_sub|]. split; [done|].
      intros j Hj. destruct (Z.eqb_spec j i) as [->|]; [|by rewrite andb_true_r].
      cbn [bits]. by rewrite nth_apply_lookup, El.
    + eexists. split; [done|]. split; [by apply wf_sub|]. split; [done|].
      intros j Hj. destruct (Z.eqb_spec j i) as [->|]; [|by rewrite andb_true_r].
      cbn [bits]. by rewrite nth_apply_lookup, El.
Qed.

(** ** Refinement: a Bitvec is a finite set of integers *)

Definition represents (p : Bitvec) (S : gset Z) : Prop :=
  wf p /\ (forall i, i ∈ S -> 1 <= i <= iSize p)
  /\ (forall i, 1 <= i <= iSize p -> bits p (i - 1) = true <-> i ∈ S).

Lemma represents_bits p S i :
  represents p S -> 1 <= i <= iSize p -> bits p (i - 1) = bool_decide (i ∈ S).
Proof.
  intros (_ & _ & H) Hi. specialize (H i Hi). case_bool_decide; [by apply H|].
  apply not_true_is_false. tauto.
Qed.

(** A new Bitvec of any u32 size is well formed and represents the
    empty set; when the allocation fails, no object is returned. *)
Theorem sqlite3BitvecCreate_refines m sz (H : 0 <= sz < 2 ^ 32) :
  match sqlite3BitvecCreate m sz with
  | (Some p, _) => fst (alloc m) = true /\ iSize p = sz /\ represents p ∅
  | (None, _) => fst (alloc m) = false
  end.
Proof.
  unfold sqlite3BitvecCreate. destruct (alloc m) as [[] m']; simpl; [|done].
  split; [done|]. split; [done|]. split; [by apply wf_zero|]. split; [set_solver|].
  intros i Hi. rewrite bits_zero by lia. set_solver.
Qed.

(** On a Bitvec that represents [S], sqlite3BitvecTest terminates and
    answers membership in [S] for every u32 argument, 0 and the values
    above [iSize] included. *)
Theorem sqlite3BitvecTest_refines p S i (Hp : represents p S) (Hi : 0 <= i < 2 ^ 32) :
  sqlite3BitvecTest (Some p) i = Some (bool_decide (i ∈ S)).
Proof.
  pose proof Hp as (Hwf & HS & _). pose proof (wf_size _ Hwf).
  unfold sqlite3BitvecTest, sqlite3BitvecTestNotNull.
  destruct (decide (1 <= i <= iSize p)) as [Hin|Hout].
  - rewrite u32_small by lia. case (Z.leb_spec (iSize p) (i - 1)); intros; [lia|].
    rewrite testLoop_bits by (done || lia). f_equal. by apply represents_bits.
  - assert (iSize p <= u32 (i - 1)).
    { destruct (decide (i = 0)) as [->|]; [change (u32 (0 - 1)) with (2 ^ 32 - 1); lia|].
      rewrite u32_small; lia. }
    case (Z.leb_spec (iSize p) (u32 (i - 1))); intros; [|lia].
    rewrite bool_decide_eq_false_2; [done|]. intros Hin%HS. lia.
Qed.

(** Sqlite3BitvecSet terminates on every well-formed object and every
    allocator behaviour.  It either returns SQLITE_OK and the object
    represents [{i} ∪ S], or returns SQLITE_NOMEM and the object is still
    well formed and represents a subset of [{i} ∪ S]: a failed re-hash can
    lose members but never invents one. *)
Theorem sqlite3BitvecSet_refines m p S i (Hp : represents p S) (Hi : 1 <= i <= iSize p) :
  exists rc p' m',
    sqlite3BitvecSet m (Some p) i = Some (rc, Some p', m') /\ iSize p' = iSize p
    /\ ((rc = SQLITE_OK /\ represents p' ({[i]} ∪ S))
        \/ (rc = SQLITE_NOMEM /\ exists S', S' ⊆ {[i]} ∪ S /\ represents p' S')).
Proof.
  pose proof Hp as (Hwf & HS & _). pose proof (wf_size _ Hwf). unfold sqlite3BitvecSet.
  rewrite u32_small by lia.
  destruct (setLoop_spec 9 4 m p (i - 1)) as (rc & p' & m' & E & [W Sz _ R N C]); [done| |lia|].
  { split; [unfold levels; change (BITVEC_NBIT * _) with 58632501248; lia|]. unfold fuel_for. destruct (iDivisor p =? 0); lia. }
  exists rc, p', m'. rewrite E. split; [done|]. split; [done|].
  set (S' := filter (fun j => bits p' (j - 1) = true) ({[i]} ∪ S)).
  assert (represents p' S') as HS'.
  { split; [done|]. split.
    { rewrite Sz. unfold S'. intros j [_ [->%elem_of_singleton|?]%elem_of_union]%elem_of_filter; auto. }
    intros j Hj. unfold S'.
    rewrite elem_of_filter. split; [|tauto]. intros Hb. split; [done|].
    destruct (N (j - 1) ltac:(lia) Hb) as [Hb'|Hb'].
    - rewrite (represents_bits p S) in Hb' by (done || lia).
      apply bool_decide_eq_true in Hb'. by apply elem_of_union_r.
    - replace j with i by lia. by apply elem_of_union_l, elem_of_singleton. }
  destruct R as [->| ->]; [left|right; split; [done|]; exists S'; split; [|done]].
  2: { unfold S'. intros j. rewrite elem_of_filter. tauto. }
  split; [done|]. replace ({[i]} ∪ S) with S'; [done|]. apply set_eq. intros j. unfold S'.
  rewrite elem_of_filter. split; [tauto|]. intros Hj. split; [|done].
  apply C; [done| |].
  - apply elem_of_union in Hj as [?%elem_of_singleton|?%HS]; lia.
  - apply elem_of_union in Hj as [->%elem_of_singleton|Hj]; [auto|left].
    rewrite (represents_bits p S) by auto. by apply bool_decide_eq_true.
Qed.

(** sqlite3BitvecClear terminates and removes exactly [i]. *)
Theorem sqlite3BitvecClear_refines p S i (Hp : represents p S) (Hi : 1 <= i <= iSize p) :
  exists p', sqlite3BitvecClear (Some p) i = Some (Some p') /\ iSize p' = iSize p
    /\ represents p' (S ∖ {[i]}).
Proof.
  pose proof Hp as (Hwf & HS & _). pose proof (wf_size _ Hwf). unfold sqlite3BitvecClear.
  rewrite u32_small by lia.
  destruct (clearLoop_spec p Hwf (i - 1)) as (p' & E & W & Sz & B); [lia|].
  exists p'. rewrite E. split; [done|]. split; [done|]. split; [done|].
  rewrite Sz. split; [intros j [? _]%elem_of_difference; auto|]. intros j Hj.
  rewrite B, (represents_bits p S) by (done || lia).
  rewrite andb_true_iff, bool_decide_eq_true, negb_true_iff, Z.eqb_neq.
  rewrite elem_of_difference, elem_of_singleton. split; intros [? ?]; (split; [done|lia]).
Qed.

(** ** Witnesses *)

Definition bv7 : Bitvec := mkBitvec 8 0 0 (aBitmap (64 :: replicate 495 0)).

Lemma represents_bv7 : represents bv7 {[7]}.
Proof.
  split; [|split].
  - apply wf_bitmap; [bv_lia|done|].
    intros b [->|[-> _]%elem_of_replicate]%elem_of_cons; lia.
  - intros i ->%elem_of_singleton. simpl. lia.
  - intros i Hi. rewrite elem_of_singleton. simpl in Hi.
    assert (i = 1 \/ i = 2 \/ i = 3 \/ i = 4 \/ i = 5 \/ i = 6 \/ i = 7 \/ i = 8)
      as [->|[->|[->|[->|[->|[->|[->| ->]]]]]]] by lia; vm_compute; split; done.
Qed.

Lemma represents_empty sz : 0 <= sz < 2 ^ 32 -> represents (zeroBitvec sz) ∅.
Proof.
  intros Hsz. split; [by apply wf_zero|]. split; [set_solver|].
  intros i Hi. rewrite bits_zero by lia. set_solver.
Qed.

Lemma sqlite3BitvecCreate_witness :
  match sqlite3BitvecCreate [] 5000 with
  | (Some p, _) => fst (alloc []) = true /\ iSize p = 5000 /\ represents p ∅
  | (None, _) => fst (alloc []) = false
  end.
Proof. apply (sqlite3BitvecCreate_refines [] 5000). lia. Defined.

Lemma sqlite3BitvecTest_witness :
  sqlite3BitvecTest (Some bv7) 7 = Some (bool_decide (7 ∈ ({[7]} : gset Z))).
Proof. apply (sqlite3BitvecTest_refines bv7 {[7]} 7 represents_bv7). lia. Defined.

Lemma sqlite3BitvecSet_witness :
  exists rc p' m',
    sqlite3BitvecSet [] (Some (zeroBitvec 5000)) 4321 = Some (rc, Some p', m')
    /\ iSize p' = iSize (zeroBitvec 5000)
    /\ ((rc = SQLITE_OK /\ represents p' ({[4321]} ∪ ∅))
        \/ (rc = SQLITE_NOMEM /\ exists S', S' ⊆ {[4321]} ∪ ∅ /\ represents p' S')).
Proof.
  apply (sqlite3BitvecSet_refines [] (zeroBitvec 5000) ∅ 4321).
  - apply represents_empty. lia.
  - simpl. lia.
Defined.

Lemma sqlite3BitvecClear_witness :
  exists p', sqlite3BitvecClear (Some bv7) 7 = Some (Some p') /\ iSize p' = iSize bv7
    /\ represents p' ({[7]} ∖ {[7]}).
Proof. apply (sqlite3BitvecClear_refines bv7 {[7]} 7 represents_bv7). simpl. lia. Defined.
