(* ===== verification/Util.v ===== *)
(** * src/libsql-sqlite3/src/util.c: integer codecs and checked arithmetic

    Big-endian four-byte integers, variable-length integers, hexadecimal
    digits, and 64-bit arithmetic that reports overflow.  A buffer is a list
    of bytes and a byte is an integer between 0 and 255; the [#else] branches
    (the portable C, without compiler builtins) are the ones modelled. *)

From stdpp Require Import base list numbers option.
From S2P Require Import Prelude.
#[local] Open Scope Z_scope.

(** ** Four-byte big-endian integers *)

Definition sqlite3Get4byte (p : list Z) : Z :=
  Z.lor (Z.lor (Z.lor (u32 (Z.shiftl (nthZ p 0) 24)) (Z.shiftl (nthZ p 1) 16))
               (Z.shiftl (nthZ p 2) 8)) (nthZ p 3).

Definition sqlite3Put4byte (v : Z) : list Z :=
  [u8 (Z.shiftr v 24); u8 (Z.shiftr v 16); u8 (Z.shiftr v 8); u8 v].

(** ** Variable-length integers *)

(** The [for(i=7; i>=0; i--)] loop; [acc] is the part of [p] already written. *)
Fixpoint putVarint9 (i : nat) (v : Z) (acc : list Z) : list Z :=
  match i with
  | O => acc
  | S i' => putVarint9 i' (Z.shiftr v 7) (u8 (Z.lor (Z.land v 0x7f) 0x80) :: acc)
  end.

(** The [do ... while( v!=0 )] loop that fills [buf], least significant
    group first. *)
Fixpoint putVarintBuf (fuel : nat) (v : Z) : list Z :=
  match fuel with
  | O => []
  | S f =>
      u8 (Z.lor (Z.land v 0x7f) 0x80) ::
      (let v := Z.shiftr v 7 in if v =? 0 then [] else putVarintBuf f v)
  end.

(** The bytes written to [p]; the C function also returns their number. *)
Definition putVarint64 (v : Z) : list Z :=
  if negb (Z.land v (Z.shiftl 0xff000000 32) =? 0) then
    putVarint9 8 (Z.shiftr v 8) [u8 v]
  else
    let buf := putVarintBuf 10 v in
    rev (setZ buf 0 (Z.land (nthZ buf 0) 0x7f)).

Definition sqlite3PutVarint (v : Z) : list Z :=
  if v <=? 0x7f then [Z.land v 0x7f]
  else if v <=? 0x3fff then
    [Z.lor (Z.land (Z.shiftr v 7) 0x7f) 0x80; Z.land v 0x7f]
  else putVarint64 v.

Definition SLOT_2_0 : Z := 0x001fc07f.
Definition SLOT_4_2_0 : Z := 0xf01fc07f.

Definition shl32 (x k : Z) : Z := u32 (Z.shiftl x k).

(** [(n, v)]: the bytes read and the value. *)
Definition sqlite3GetVarint (p : list Z) : Z * Z :=
  if nthZ p 0 <? 128 then (1, nthZ p 0) else
  if nthZ p 1 <? 128 then
    (2, Z.lor (shl32 (Z.land (nthZ p 0) 0x7f) 7) (nthZ p 1)) else
  let a := shl32 (nthZ p 0) 14 in
  let b := nthZ p 1 in
  let a := Z.lor a (nthZ p 2) in
  if Z.land a 0x80 =? 0 then
    let a := Z.land a SLOT_2_0 in
    let b := Z.land b 0x7f in
    let b := shl32 b 7 in
    (3, Z.lor a b)
  else
  let a := Z.land a SLOT_2_0 in
  let b := shl32 b 14 in
  let b := Z.lor b (nthZ p 3) in
  if Z.land b 0x80 =? 0 then
    let b := Z.land b SLOT_2_0 in
    let a := shl32 a 7 in
    (4, Z.lor a b)
  else
  let b := Z.land b SLOT_2_0 in
  let s := a in
  let a := shl32 a 14 in
  let a := Z.lor a (nthZ p 4) in
  if Z.land a 0x80 =? 0 then
    let b := shl32 b 7 in
    let a := Z.lor a b in
    let s := Z.shiftr s 18 in
    (5, Z.lor (Z.shiftl s 32) a)
  else
  let s := shl32 s 7 in
  let s := Z.lor s b in
  let b := shl32 b 14 in
  let b := Z.lor b (nthZ p 5) in
  if Z.land b 0x80 =? 0 then
    let a := Z.land a SLOT_2_0 in
    let a := shl32 a 7 in
    let a := Z.lor a b in
    let s := Z.shiftr s 18 in
    (6, Z.lor (Z.shiftl s 32) a)
  else
  let a := shl32 a 14 in
  let a := Z.lor a (nthZ p 6) in
  if Z.land a 0x80 =? 0 then
    let a := Z.land a SLOT_4_2_0 in
    let b := Z.land b SLOT_2_0 in
    let b := shl32 b 7 in
    let a := Z.lor a b in
    let s := Z.shiftr s 11 in
    (7, Z.lor (Z.shiftl s 32) a)
  else
  let a := Z.land a SLOT_2_0 in
  let b := shl32 b 14 in
  let b := Z.lor b (nthZ p 7) in
  if Z.land b 0x80 =? 0 then
    let b := Z.land b SLOT_4_2_0 in
    let a := shl32 a 7 in
    let a := Z.lor a b in
    let s := Z.shiftr s 4 in
    (8, Z.lor (Z.shiftl s 32) a)
  else
  let a := shl32 a 15 in
  let a := Z.lor a (nthZ p 8) in
  let b := Z.land b SLOT_2_0 in
  let b := shl32 b 8 in
  let a := Z.lor a b in
  let s := shl32 s 4 in
  let b := nthZ p 4 in
  let b := Z.land b 0x7f in
  let b := Z.shiftr b 3 in
  let s := Z.lor s b in
  (9, Z.lor (Z.shiftl s 32) a).

(** The function assumes that [p[0]] has its high bit set. *)
Definition sqlite3GetVarint32 (p : list Z) : Z * Z :=
  if Z.land (nthZ p 1) 0x80 =? 0 then
    (2, Z.lor (Z.shiftl (Z.land (nthZ p 0) 0x7f) 7) (nthZ p 1))
  else if Z.land (nthZ p 2) 0x80 =? 0 then
    (3, Z.lor (Z.lor (Z.shiftl (Z.land (nthZ p 0) 0x7f) 14)
                     (Z.shiftl (Z.land (nthZ p 1) 0x7f) 7)) (nthZ p 2))
  else
    let '(n, v64) := sqlite3GetVarint p in
    if negb (Z.land v64 0xffffffff =? v64) then (n, 0xffffffff) else (n, u32 v64).

Fixpoint varintLenLoop (fuel : nat) (i v : Z) : Z :=
  match fuel with
  | O => i
  | S f =>
      let v := Z.shiftr v 7 in
      if v =? 0 then i else varintLenLoop f (i + 1) v
  end.

(** At most nine shifts by seven leave a 64-bit integer non-zero. *)
Definition sqlite3VarintLen (v : Z) : Z := varintLenLoop 10 1 v.

(** ** Hexadecimal digits and blob literals *)

Definition sqlite3HexToInt (h : Z) : Z :=
  Z.land (h + 9 * Z.land 1 (Z.shiftr h 6)) 0xf.

Fixpoint hexPairs (z : list Z) : list Z :=
  match z with
  | h :: l :: z' =>
      u8 (Z.lor (Z.shiftl (sqlite3HexToInt h) 4) (sqlite3HexToInt l)) :: hexPairs z'
  | _ => []
  end.

(** ** Checked 64-bit arithmetic

    The result is the return code and the new value of [*pA]. *)

Definition LARGEST_INT64 : Z := 2 ^ 63 - 1.
Definition SMALLEST_INT64 : Z := - 2 ^ 63.

Definition sqlite3AddInt64 (iA iB : Z) : Z * Z :=
  if iB >=? 0 then
    if (iA >? 0) && (LARGEST_INT64 - iA <? iB) then (1, iA) else (0, iA + iB)
  else
    if (iA <? 0) && (- (iA + LARGEST_INT64) >? iB + 1) then (1, iA) else (0, iA + iB).

Definition sqlite3SubInt64 (iA iB : Z) : Z * Z :=
  if iB =? SMALLEST_INT64 then
    if iA >=? 0 then (1, iA) else (0, iA - iB)
  else sqlite3AddInt64 iA (- iB).

Definition sqlite3MulInt64 (iA iB : Z) : Z * Z :=
  if iB >? 0 then
    if iA >? LARGEST_INT64 `quot` iB then (1, iA)
    else if iA <? SMALLEST_INT64 `quot` iB then (1, iA)
    else (0, iA * iB)
  else if iB <? 0 then
    if iA >? 0 then
      if iB <? SMALLEST_INT64 `quot` iA then (1, iA) else (0, iA * iB)
    else if iA <? 0 then
      if iB =? SMALLEST_INT64 then (1, iA)
      else if iA =? SMALLEST_INT64 then (1, iA)
      else if - iA >? LARGEST_INT64 `quot` (- iB) then (1, iA)
      else (0, iA * iB)
    else (0, iA * iB)
  else (0, iA * iB).

Definition sqlite3AbsInt32 (x : Z) : Z :=
  if x >=? 0 then x
  else if x =? - 2 ^ 31 then 0x7fffffff
  else - x.

(** ** Bit fields *)

Lemma land_low_high x y k :
  0 <= k -> 0 <= y < 2 ^ k -> Z.land (Z.shiftl x k) y = 0.
Proof.
  intros Hk Hy. apply Z.bits_inj'. intros n Hn.
  rewrite Z.land_spec, Z.bits_0, Z.shiftl_spec by done.
  destruct (decide (n < k)) as [Hlt|Hge]; [by rewrite Z.testbit_neg_r by lia|].
  rewrite <- (Z.mod_small y (2 ^ k)), Z.mod_pow2_bits_high, andb_false_r by lia. done.
Qed.

(** A concatenation of bit fields is their weighted sum. *)
Lemma lor_shiftl x y k :
  0 <= k -> 0 <= y < 2 ^ k -> Z.lor (Z.shiftl x k) y = x * 2 ^ k + y.
Proof.
  intros Hk Hy. pose proof (Z.add_lor_land (Z.shiftl x k) y) as H.
  rewrite land_low_high, Z.shiftl_mul_pow2 in H by done.
  rewrite Z.shiftl_mul_pow2 by done. lia.
Qed.

Lemma byte_testbit_high x k : is_byte x -> 8 <= k -> Z.testbit x k = false.
Proof.
  intros Hx Hk. unfold is_byte in Hx.
  rewrite <- (Z.mod_small x (2 ^ 8)) by lia. apply Z.mod_pow2_bits_high. lia.
Qed.

(** ** Bit-blasting

    The bit operations are pushed down to the bits of the input bytes, for
    every bit index (a negative one reads [false]). *)

Lemma bits_byte x : is_byte x ->
  exists g : Z -> bool, forall k, Z.testbit x k = (0 <=? k) && (k <? 8) && g k.
Proof.
  intros Hx. exists (Z.testbit x). intros k. destruct (Z.leb_spec 0 k); simpl.
  - destruct (Z.ltb_spec k 8); simpl; [done|]. by apply byte_testbit_high.
  - by apply Z.testbit_neg_r.
Qed.

Lemma bits_small x : is_byte x -> (x <? 128) = true ->
  exists g : Z -> bool, forall k, Z.testbit x k = (0 <=? k) && (k <? 7) && g k.
Proof.
  intros Hx Hs%Z.ltb_lt. unfold is_byte in Hx.
  exists (Z.testbit x). intros k. destruct (Z.leb_spec 0 k); simpl.
  - destruct (Z.ltb_spec k 7); simpl; [done|].
    rewrite <- (Z.mod_small x (2 ^ 7)) by lia. apply Z.mod_pow2_bits_high. lia.
  - by apply Z.testbit_neg_r.
Qed.

Lemma bits_shiftl x k m : Z.testbit (Z.shiftl x k) m = (0 <=? m) && Z.testbit x (m - k).
Proof.
  destruct (Z.leb_spec 0 m); simpl; [by apply Z.shiftl_spec|by apply Z.testbit_neg_r].
Qed.

Lemma bits_shiftr x k m : Z.testbit (Z.shiftr x k) m = (0 <=? m) && Z.testbit x (m + k).
Proof.
  destruct (Z.leb_spec 0 m); simpl; [by apply Z.shiftr_spec|by apply Z.testbit_neg_r].
Qed.

Lemma bits_shl32 x k m :
  Z.testbit (shl32 x k) m = (m <? 32) && ((0 <=? m) && Z.testbit x (m - k)).
Proof. unfold shl32, u32. by rewrite Z.testbit_mod_pow2, bits_shiftl. Qed.

Lemma bits_lt64 x m : 0 <= x < 2 ^ 64 -> 64 <= m -> Z.testbit x m = false.
Proof. intros Hx Hm. rewrite <- (Z.mod_small x (2 ^ 64)) by lia. apply Z.mod_pow2_bits_high. lia. Qed.

Ltac push_bits :=
  repeat (rewrite Z.lor_spec || rewrite Z.land_spec || rewrite bits_shl32
          || rewrite bits_shiftl || rewrite bits_shiftr).

(** [for_index n m]: a goal for each index [0 <= n < m], with [n] a numeral. *)
Lemma index_cases (P : Z -> Prop) (m : nat) :
  (forall i, (i < m)%nat -> P (Z.of_nat i)) -> forall n, 0 <= n < Z.of_nat m -> P n.
Proof. intros H n Hn. rewrite <- (Z2Nat.id n) by lia. apply H. lia. Qed.

(** The mask test of [sqlite3GetVarint] looks at the last byte only. *)
Lemma high_bit_test x y :
  is_byte y -> (Z.land (Z.lor (shl32 x 14) y) 0x80 =? 0) = (y <? 128).
Proof.
  intros Hy. change 0x80 with (Z.shiftl 1 7) at 1.
  rewrite <- (negb_involutive (_ =? 0)), land_bit by done.
  rewrite Z.lor_spec, bits_shl32, (Z.testbit_neg_r x) by lia.
  unfold is_byte in Hy. 
  change ((7 <? 32) && ((0 <=? 7) && false) || Z.testbit y 7) with (Z.testbit y 7).
  rewrite Z.testbit_odd, Z.shiftr_div_pow2 by done.
  destruct (Z.ltb_spec y 128).
  - by rewrite Z.div_small by lia.
  - replace (y / 2 ^ 7) with 1; [done|]. apply Z.div_unique with (y - 128); lia.
Qed.

(** ** The reference decoder

    Seven bits of each byte, most significant group first, up to the first
    byte below 128; the ninth byte gives all its eight bits. *)
Fixpoint varintRef (n : nat) (i : Z) (p : list Z) (acc : Z) : Z * Z :=
  match n with
  | O => (i + 1, Z.lor (Z.shiftl acc 8) (nthZ p i))
  | S n' =>
      let v := Z.lor (Z.shiftl acc 7) (Z.land (nthZ p i) 0x7f) in
      if nthZ p i <? 128 then (i + 1, v) else varintRef n' (i + 1) p v
  end.

Definition getVarintRef (p : list Z) : Z * Z := varintRef 8 0 p 0.

Lemma nthZ_byte p i : Forall is_byte p -> is_byte (nthZ p i).
Proof.
  intros Hp. unfold nthZ. destruct (p !! Z.to_nat i) as [x|] eqn:E; simpl.
  - by eapply Forall_lookup_1.
  - unfold is_byte. lia.
Qed.

Ltac bits_high :=
  repeat match goal with
  | |- context [?x <? ?y] => replace (x <? y) with false by (symmetry; apply Z.ltb_ge; lia)
  end;
  repeat (rewrite Z.bits_0 || rewrite andb_false_r || rewrite andb_false_l
          || rewrite orb_false_r || rewrite orb_false_l); reflexivity.

Ltac split_bits :=
  repeat match goal with |- context [?g ?k] => is_var g; destruct (g k) end.

Ltac bitblast n :=
  apply Z.bits_inj'; intros n Hn; push_bits;
  repeat match goal with
  | H : is_byte ?x, Hs : (?x <? 128) = true |- _ =>
      let g := fresh "g" in let Hg := fresh "Hg" in
      destruct (bits_small x H Hs) as [g Hg]; rewrite ?Hg; clear Hg H Hs
  end;
  repeat match goal with
  | H : is_byte ?x |- _ =>
      let g := fresh "g" in let Hg := fresh "Hg" in
      destruct (bits_byte x H) as [g Hg]; rewrite ?Hg; clear Hg H
  end;
  destruct (Z.lt_ge_cases n 66) as [Hlt|Hge];
  [ revert n Hn Hlt;
    match goal with |- forall n, _ -> _ -> @?P n =>
      intros n Hn Hlt; apply (index_cases P 66); [|lia];
      intros i Hi; do 66 (destruct i as [|i];
        [clear; vm_compute; split_bits; reflexivity|]); lia
    end
  | bits_high ].


(** The optimised decoder reads what the reference decoder reads. *)
Lemma getVarint_ref p :
  Forall is_byte p -> sqlite3GetVarint p = getVarintRef p.
Proof.
  intros Hp.
  pose proof (nthZ_byte p 0 Hp). pose proof (nthZ_byte p 1 Hp).
  pose proof (nthZ_byte p 2 Hp). pose proof (nthZ_byte p 3 Hp).
  pose proof (nthZ_byte p 4 Hp). pose proof (nthZ_byte p 5 Hp).
  pose proof (nthZ_byte p 6 Hp). pose proof (nthZ_byte p 7 Hp).
  pose proof (nthZ_byte p 8 Hp). clear Hp.
  unfold getVarintRef, sqlite3GetVarint. cbn [varintRef].
  change (0 + 1) with 1. change (1 + 1) with 2. change (2 + 1) with 3.
  change (3 + 1) with 4. change (4 + 1) with 5. change (5 + 1) with 6.
  change (6 + 1) with 7. change (7 + 1) with 8. change (8 + 1) with 9.
  generalize dependent (nthZ p 0). generalize dependent (nthZ p 1).
  generalize dependent (nthZ p 2). generalize dependent (nthZ p 3).
  generalize dependent (nthZ p 4). generalize dependent (nthZ p 5).
  generalize dependent (nthZ p 6). generalize dependent (nthZ p 7).
  generalize dependent (nthZ p 8). intros. cbv zeta.
  rewrite !high_bit_test by assumption.
  do 8 (match goal with |- context [?z <? 128] => destruct (z <? 128) eqn:? end;
        [f_equal; bitblast n|]).
  f_equal; bitblast n.
Qed.

