(* ===== verification/Varint.v ===== *)
(** * Variable-length integers: round trips

    What [sqlite3PutVarint] writes, [sqlite3GetVarint] and
    [sqlite3GetVarint32] read back, and [sqlite3VarintLen] is the number of
    bytes written. *)

From stdpp Require Import base list numbers option.
From S2P Require Import Prelude Util.
#[local] Open Scope Z_scope.

(** ** Round trip of the variable-length integers *)

Lemma land_127 b : Z.land b 0x7f = b mod 128.
Proof. apply (Z.land_ones b 7). lia. Qed.

Definition is_cont (b : Z) : Prop := 128 <= b < 256.

(** Value of continuation bytes read after [acc]. *)
Definition contValue (acc : Z) (l : list Z) : Z := foldl (fun a b => a * 128 + b mod 128) acc l.

Lemma group_byte v : u8 (Z.lor (Z.land v 0x7f) 0x80) = v mod 128 + 128.
Proof.
  pose proof (Z.mod_pos_bound v 128 ltac:(lia)).
  rewrite land_127, Z.lor_comm.
  change (Z.lor 128 (v mod 128)) with (Z.lor (Z.shiftl 1 7) (v mod 128)).
  rewrite lor_shiftl by lia. unfold u8. rewrite Z.mod_small by lia. lia.
Qed.

Lemma cont_step acc b : Z.lor (Z.shiftl acc 7) (Z.land b 0x7f) = acc * 128 + b mod 128.
Proof.
  rewrite land_127, lor_shiftl; [done|lia|]. apply Z.mod_pos_bound. lia.
Qed.

Lemma nthZ_app_length pre b l : nthZ (pre ++ b :: l) (Z.of_nat (length pre)) = b.
Proof. unfold nthZ. rewrite Nat2Z.id, lookup_app_r, Nat.sub_diag by lia. done. Qed.

Lemma varintRef_cont l n pre rest acc :
  Forall is_cont l ->
  varintRef (length l + n) (Z.of_nat (length pre)) (pre ++ l ++ rest) acc
  = varintRef n (Z.of_nat (length (pre ++ l))) (pre ++ l ++ rest) (contValue acc l).
Proof.
  revert pre acc. induction l as [|b l IH]; intros pre acc Hl; simpl; [by rewrite app_nil_r|].
  apply Forall_cons_1 in Hl as [Hb Hl]. unfold is_cont in Hb. rewrite nthZ_app_length.
  replace (b <? 128) with false by (symmetry; apply Z.ltb_ge; lia).
  rewrite cont_step. specialize (IH (pre ++ [b]) (acc * 128 + b mod 128) Hl).
  rewrite length_app in IH. simpl in IH. rewrite <- !app_assoc in IH. simpl in IH.
  replace (Z.of_nat (length pre) + 1) with (Z.of_nat (length pre + 1)) by lia. done.
Qed.

Lemma varintRef_last l n b rest :
  Forall is_cont l -> 0 <= b < 128 -> (length l < 8)%nat -> n = (8 - length l)%nat ->
  getVarintRef ((l ++ [b]) ++ rest) = (Z.of_nat (length l) + 1, contValue 0 l * 128 + b).
Proof.
  intros Hl Hb Hlen ->. unfold getVarintRef. rewrite <- app_assoc. simpl ([b] ++ rest).
  pose proof (varintRef_cont l (8 - length l) [] (b :: rest) 0 Hl) as H. simpl in H.
  replace (length l + (8 - length l))%nat with 8%nat in H by lia.
  change (Z.of_nat 0) with 0 in H. rewrite H.
  destruct (8 - length l)%nat eqn:E; [lia|]. cbn [varintRef].
  rewrite nthZ_app_length, cont_step, Z.mod_small by lia.
  by replace (b <? 128) with true by (symmetry; apply Z.ltb_lt; lia).
Qed.

Lemma varintRef_ninth l b rest :
  Forall is_cont l -> 0 <= b < 256 -> length l = 8%nat ->
  getVarintRef ((l ++ [b]) ++ rest) = (9, contValue 0 l * 256 + b).
Proof.
  intros Hl Hb Hlen. unfold getVarintRef. rewrite <- app_assoc. simpl ([b] ++ rest).
  pose proof (varintRef_cont l 0 [] (b :: rest) 0 Hl) as H. rewrite Hlen in H.
  change (8 + 0)%nat with 8%nat in H. simpl app in H. simpl length in H.
  change (Z.of_nat 0) with 0 in H. rewrite H. cbn [varintRef].
  rewrite nthZ_app_length, lor_shiftl, Hlen by lia. done.
Qed.

Lemma putVarint9_app i v acc : putVarint9 i v acc = putVarint9 i v [] ++ acc.
Proof.
  revert v acc. induction i as [|i IH]; intros v acc; simpl; [done|].
  rewrite IH, (IH _ [_]), <- app_assoc. done.
Qed.

Lemma contValue_app acc l b : contValue acc (l ++ [b]) = contValue acc l * 128 + b mod 128.
Proof. unfold contValue. by rewrite foldl_app. Qed.

Lemma cont_group v : is_cont (v mod 128 + 128) /\ (v mod 128 + 128) mod 128 = v mod 128.
Proof.
  pose proof (Z.mod_pos_bound v 128 ltac:(lia)). split; [unfold is_cont; lia|].
  rewrite <- (Z.mul_1_l 128) at 2. rewrite Z.mod_add, Z.mod_mod by lia. done.
Qed.

Lemma putVarint9_spec i v :
  0 <= v -> let l := putVarint9 i v [] in
  Forall is_cont l /\ length l = i /\ contValue 0 l = v mod 128 ^ Z.of_nat i.
Proof.
  revert v. induction i as [|i IH]; intros v Hv; cbn [putVarint9].
  - rewrite Z.mod_1_r. done.
  - rewrite putVarint9_app, group_byte. destruct (cont_group v) as [Hc Hm].
    destruct (IH (Z.shiftr v 7)) as (Hf & Hl & Hval); [by apply Z.shiftr_nonneg|].
    rewrite contValue_app, length_app, Hval, Hm, Hl.
    split; [by apply Forall_app_2; [|apply Forall_singleton]|]. split; [simpl; lia|].
    rewrite Z.shiftr_div_pow2, Nat2Z.inj_succ, Z.pow_succ_r by lia.
    change (2 ^ 7) with 128. rewrite Z.rem_mul_r by lia. lia.
Qed.

Lemma putVarintBuf_S f v :
  putVarintBuf (S f) v
  = v mod 128 + 128 :: (if v / 128 =? 0 then [] else putVarintBuf f (v / 128)).
Proof.
  cbn [putVarintBuf]. rewrite group_byte, Z.shiftr_div_pow2 by lia. done.
Qed.

(** The loop that fills [buf] stops before its fuel does. *)
Lemma putVarintBuf_spec f w :
  0 <= w < 128 ^ Z.of_nat (S f) ->
  let l := rev (putVarintBuf (S f) w) in
  Forall is_cont l /\ (1 <= length l <= S f)%nat /\ contValue 0 l = w
  /\ (length l = 1%nat \/ 128 ^ (Z.of_nat (length l) - 1) <= w).
Proof.
  revert w. induction f as [|f IH]; intros w Hw; rewrite putVarintBuf_S;
    destruct (cont_group w) as [Hc Hm]; pose proof (Z.div_mod w 128 ltac:(lia)) as Hdm.
  - assert (w < 128) by (apply Hw).
    rewrite Z.div_small by lia. simpl. split; [by apply Forall_singleton|].
    rewrite Hm, Z.mod_small by lia. repeat split; auto.
  - destruct (Z.eqb_spec (w / 128) 0) as [E|E].
    + simpl. rewrite Hm. rewrite E in Hdm. repeat split; auto; lia || by apply Forall_singleton.
    + destruct (IH (w / 128)) as (Hf & Hl & Hval & Hlow).
      { rewrite (Nat2Z.inj_succ (S f)), Z.pow_succ_r in Hw by lia. split.
        - apply Z.div_pos; lia.
        - apply Z.div_lt_upper_bound; lia. }
      cbn [rev]. rewrite contValue_app, length_app, Hval, Hm. cbn [length].
      split; [by apply Forall_app_2; [|apply Forall_singleton]|]. split; [lia|].
      split; [lia|]. right.
      assert (0 <= w / 128) by (apply Z.div_pos; lia).
      pose proof (Z.mod_pos_bound w 128 ltac:(lia)).
      destruct Hlow as [->|Hlow]; [change (128 ^ _) with 128; lia|].
      replace (Z.of_nat (length (rev (putVarintBuf (S f) (w / 128))) + 1) - 1)
        with (Z.succ (Z.of_nat (length (rev (putVarintBuf (S f) (w / 128)))) - 1)) by lia.
      rewrite Z.pow_succ_r by lia. lia.
Qed.

(** What [sqlite3PutVarint] writes: continuation bytes, then a last byte. *)
Definition encodes (v : Z) (p : list Z) : Prop :=
  exists l b, p = l ++ [b] /\ Forall is_cont l
    /\ ((length l < 8)%nat /\ 0 <= b < 128 /\ v = contValue 0 l * 128 + b
          /\ (l = [] \/ 128 ^ Z.of_nat (length l) <= v)
        \/ length l = 8%nat /\ 0 <= b < 256 /\ v = contValue 0 l * 256 + b /\ 2 ^ 56 <= v).

Lemma top_byte_test v :
  0 <= v < 2 ^ 64 -> negb (Z.land v (Z.shiftl 0xff000000 32) =? 0) = (2 ^ 56 <=? v).
Proof.
  intros Hv.
  assert (Z.land v (Z.shiftl 0xff000000 32) = Z.shiftl (v / 2 ^ 56) 56) as ->.
  { rewrite <- Z.shiftr_div_pow2 by lia. apply Z.bits_inj'. intros n Hn.
    change (Z.shiftl 0xff000000 32) with (Z.shiftl (Z.ones 8) 56).
    rewrite Z.land_spec, !Z.shiftl_spec by done. destruct (decide (n < 56)).
    - rewrite !(Z.testbit_neg_r _ (n - 56)), andb_false_r by lia. done.
    - rewrite Z.shiftr_spec by lia. replace (n - 56 + 56) with n by lia.
      destruct (decide (n < 64)).
      + rewrite Z.ones_spec_low, andb_true_r by lia. done.
      + rewrite (bits_lt64 v) by lia. done. }
  rewrite Z.shiftl_mul_pow2 by lia. destruct (Z.leb_spec (2 ^ 56) v).
  - apply negb_true_iff, Z.eqb_neq.
    assert (1 <= v / 2 ^ 56) by (apply Z.div_le_lower_bound; lia). lia.
  - by rewrite Z.div_small by lia.
Qed.

Lemma putVarint64_encodes v : 128 <= v < 2 ^ 64 -> encodes v (putVarint64 v).
Proof.
  intros Hv. unfold putVarint64. rewrite top_byte_test by lia.
  pose proof (Z.div_mod v 256 ltac:(lia)). pose proof (Z.mod_pos_bound v 256 ltac:(lia)).
  pose proof (Z.div_mod v 128 ltac:(lia)). pose proof (Z.mod_pos_bound v 128 ltac:(lia)).
  destruct (Z.leb_spec (2 ^ 56) v).
  - rewrite putVarint9_app, Z.shiftr_div_pow2 by lia. change (2 ^ 8) with 256.
    destruct (putVarint9_spec 8 (v / 256)) as (Hf & Hl & Hval); [lia|].
    exists (putVarint9 8 (v / 256) []), (u8 v). split; [done|]. split; [done|]. right.
    split; [done|]. unfold u8. change (2 ^ 8) with 256. split; [lia|].
    rewrite Hval, Z.mod_small; [lia|]. change (128 ^ Z.of_nat 8) with (2 ^ 56). lia.
  - rewrite putVarintBuf_S.
    destruct (Z.eqb_spec (v / 128) 0) as [E|E]; [lia|].
    destruct (putVarintBuf_spec 8 (v / 128)) as (Hf & Hl & Hval & Hlow).
    { change (128 ^ Z.of_nat 9) with (2 ^ 63). lia. }
    revert Hf Hl Hval Hlow. generalize (putVarintBuf 9 (v / 128)). intros buf.
    rewrite length_rev. intros Hf Hl Hval Hlow. destruct (cont_group v) as [_ Hm].
    change (nthZ (v mod 128 + 128 :: buf) 0) with (v mod 128 + 128).
    change (setZ (v mod 128 + 128 :: buf) 0 ?x) with (x :: buf).
    rewrite land_127, Hm. exists (rev buf), (v mod 128). split; [done|]. split; [done|].
    left. rewrite length_rev, Hval.
    assert (length buf < 8)%nat as Hlt.
    { destruct Hlow as [->|Hlow]; [lia|]. destruct (decide (length buf < 8)%nat); [done|].
      assert (128 ^ 7 <= 128 ^ (Z.of_nat (length buf) - 1)) by (apply Z.pow_le_mono_r; lia).
      lia. }
    split; [done|]. split; [lia|]. split; [lia|]. right.
    destruct Hlow as [->|Hlow]; [lia|].
    replace (Z.of_nat (length buf)) with (Z.succ (Z.of_nat (length buf) - 1)) by lia.
    rewrite Z.pow_succ_r by lia. lia.
Qed.

Lemma putVarint_encodes v : 0 <= v < 2 ^ 64 -> encodes v (sqlite3PutVarint v).
Proof.
  intros Hv. unfold sqlite3PutVarint. rewrite !land_127.
  pose proof (Z.div_mod v 128 ltac:(lia)). pose proof (Z.mod_pos_bound v 128 ltac:(lia)).
  destruct (Z.leb_spec v 0x7f).
  - exists [], (v mod 128). split; [done|]. split; [done|]. left. simpl.
    rewrite Z.mod_small by lia. repeat split; auto; lia.
  - destruct (Z.leb_spec v 0x3fff).
    + pose proof (group_byte (v / 128)) as Hg. rewrite land_127 in Hg.
      unfold u8 in Hg. rewrite Z.shiftr_div_pow2 by lia. change (2 ^ 7) with 128.
      rewrite (Z.mod_small (v / 128) 128) in * by lia.
      rewrite Z.mod_small in Hg by (rewrite Z.lor_comm;
        change (Z.lor 128 (v / 128)) with (Z.lor (Z.shiftl 1 7) (v / 128));
        rewrite lor_shiftl; lia).
      rewrite Hg. exists [v / 128 + 128], (v mod 128). split; [done|].
      split; [apply Forall_singleton; unfold is_cont; lia|]. left. simpl.
      replace ((v / 128 + 128) mod 128) with (v / 128); [repeat split; auto; lia|].
      apply Z.mod_unique with 1; lia.
    + apply putVarint64_encodes. lia.
Qed.

Lemma contValue_bounds a l :
  0 <= a -> a * 128 ^ Z.of_nat (length l) <= contValue a l < (a + 1) * 128 ^ Z.of_nat (length l).
Proof.
  revert a. induction l as [|b l IH]; intros a Ha; [simpl; lia|].
  pose proof (Z.mod_pos_bound b 128 ltac:(lia)).
  change (contValue a (b :: l)) with (contValue (a * 128 + b mod 128) l).
  specialize (IH (a * 128 + b mod 128) ltac:(lia)).
  cbn [length]. rewrite Nat2Z.inj_succ, Z.pow_succ_r by lia.
  pose proof (Z.pow_pos_nonneg 128 (Z.of_nat (length l)) ltac:(lia) ltac:(lia)). nia.
Qed.

Lemma encodes_bytes v p : encodes v p -> Forall is_byte p.
Proof.
  intros (l & b & -> & Hl & Hb). apply Forall_app_2.
  - eapply Forall_impl; [|exact Hl]. intros x. unfold is_cont, is_byte. lia.
  - apply Forall_singleton. unfold is_byte. lia.
Qed.

Lemma encodes_decodes v p rest :
  encodes v p -> getVarintRef (p ++ rest) = (Z.of_nat (length p), v).
Proof.
  intros (l & b & -> & Hl & [(Hlen & Hb & -> & _)|(Hlen & Hb & -> & _)]).
  - rewrite (varintRef_last l _ b) by done. rewrite length_app. simpl. f_equal. lia.
  - rewrite varintRef_ninth by done. rewrite length_app. simpl. f_equal. lia.
Qed.

Lemma varintLenLoop_spec k f i v :
  (k < f)%nat -> 0 <= v < 128 ^ (Z.of_nat k + 1) -> (k = 0%nat \/ 128 ^ Z.of_nat k <= v) ->
  varintLenLoop f i v = i + Z.of_nat k.
Proof.
  revert f i v. induction k as [|k IH]; intros [|f] i v Hf Hv Hlow; try lia; cbn [varintLenLoop];
    rewrite Z.shiftr_div_pow2 by lia; change (2 ^ 7) with 128.
  - rewrite Z.div_small by (change (128 ^ (Z.of_nat 0 + 1)) with 128 in Hv; lia). simpl. lia.
  - destruct Hlow as [|Hlow]; [done|]. rewrite Nat2Z.inj_succ in *.
    rewrite Z.pow_succ_r in Hlow by lia.
    replace (Z.succ (Z.of_nat k) + 1) with (Z.succ (Z.of_nat k + 1)) in Hv by lia.
    rewrite Z.pow_succ_r in Hv by lia.
    assert (0 < 128 ^ Z.of_nat k) by (apply Z.pow_pos_nonneg; lia).
    assert (128 ^ Z.of_nat k <= v / 128) by (apply Z.div_le_lower_bound; lia).
    assert (v / 128 < 128 ^ (Z.of_nat k + 1)) by (apply Z.div_lt_upper_bound; lia).
    destruct (Z.eqb_spec (v / 128) 0); [lia|]. rewrite IH; [lia|lia|lia|auto].
Qed.

Lemma varintRef_range n i p acc :
  Forall is_byte p -> 0 <= acc ->
  let '(m, v) := varintRef n i p acc in
  i < m <= i + Z.of_nat n + 1 /\ 0 <= v < (acc + 1) * 128 ^ Z.of_nat n * 256.
Proof.
  intros Hp. revert i acc. induction n as [|n IH]; intros i acc Hacc; cbn [varintRef];
    pose proof (nthZ_byte p i Hp) as Hb; unfold is_byte in Hb.
  - rewrite lor_shiftl by lia. change (128 ^ Z.of_nat 0) with 1. lia.
  - rewrite cont_step. pose proof (Z.mod_pos_bound (nthZ p i) 128 ltac:(lia)).
    pose proof (Z.pow_pos_nonneg 128 (Z.of_nat n) ltac:(lia) ltac:(lia)).
    rewrite Nat2Z.inj_succ, Z.pow_succ_r by lia.
    destruct (nthZ p i <? 128); [split; [lia|nia]|].
    specialize (IH (i + 1) (acc * 128 + nthZ p i mod 128) ltac:(lia)).
    destruct (varintRef n (i + 1) p _) as [m v]. destruct IH as [Hm Hv]. split; [lia|].
    split; [lia|]. eapply Z.lt_le_trans; [apply Hv|]. nia.
Qed.

(** ** Properties *)

(** The unrolled 32-bit decoder [sqlite3GetVarint] computes, on every
    buffer, what the byte-at-a-time definition of the format gives; it reads
    between one and nine bytes and its value fits 64 bits. *)
Theorem sqlite3GetVarint_correct p :
  Forall is_byte p ->
  sqlite3GetVarint p = getVarintRef p
  /\ 1 <= (sqlite3GetVarint p).1 <= 9 /\ 0 <= (sqlite3GetVarint p).2 < 2 ^ 64.
Proof.
  intros Hp. rewrite getVarint_ref by done. split; [done|]. unfold getVarintRef.
  pose proof (varintRef_range 8 0 p 0 Hp ltac:(lia)) as H.
  destruct (varintRef 8 0 p 0) as [m v]. simpl fst. simpl snd.
  change ((0 + 1) * 128 ^ Z.of_nat 8 * 256) with (2 ^ 64) in H. lia.
Qed.

Lemma sqlite3GetVarint_correct_witness :
  Forall is_byte [0x81; 0x80; 0x05] /\ sqlite3GetVarint [0x81; 0x80; 0x05] = (3, 16389).
Proof.
  assert (Forall is_byte [0x81; 0x80; 0x05]) as H
    by (repeat constructor; unfold is_byte; lia).
  split; [exact H|]. rewrite (proj1 (sqlite3GetVarint_correct _ H)). reflexivity.
Defined.

(** C37: every 64-bit integer survives [sqlite3PutVarint] followed by
    [sqlite3GetVarint], whatever follows it in the buffer, and the reader
    consumes exactly the bytes written. *)
Theorem varint_roundtrip v rest :
  0 <= v < 2 ^ 64 -> Forall is_byte rest ->
  sqlite3GetVarint (sqlite3PutVarint v ++ rest)
  = (Z.of_nat (length (sqlite3PutVarint v)), v).
Proof.
  intros Hv Hr. apply putVarint_encodes in Hv as He.
  rewrite getVarint_ref; [by apply encodes_decodes|].
  apply Forall_app_2; [by eapply encodes_bytes|done].
Qed.

Lemma varint_roundtrip_witness :
  sqlite3GetVarint (sqlite3PutVarint (2 ^ 63 + 5) ++ [7]) = (9, 2 ^ 63 + 5).
Proof.
  rewrite (varint_roundtrip (2 ^ 63 + 5) [7]);
    [reflexivity|lia|repeat constructor; unfold is_byte; lia].
Defined.

(** [sqlite3VarintLen] is the number of bytes [sqlite3PutVarint] writes,
    except on the integers of 64 significant bits, where it says ten and
    nine are written. *)
Theorem sqlite3VarintLen_correct v :
  0 <= v < 2 ^ 64 ->
  sqlite3VarintLen v
  = Z.of_nat (length (sqlite3PutVarint v)) + (if 2 ^ 63 <=? v then 1 else 0).
Proof.
  intros Hv. destruct (putVarint_encodes v Hv) as (l & b & -> & Hl & Hcase).
  unfold sqlite3VarintLen. rewrite length_app. simpl (length [b]).
  pose proof (contValue_bounds 0 l ltac:(lia)) as Hc.
  destruct Hcase as [(Hlen & Hb & Hval & Hlow)|(Hlen & Hb & Hval & Hlow)].
  - assert (128 ^ Z.of_nat (length l) <= 128 ^ 7) by (apply Z.pow_le_mono_r; lia).
    destruct (Z.leb_spec (2 ^ 63) v); [lia|]. rewrite (varintLenLoop_spec (length l)).
    + lia.
    + lia.
    + rewrite Z.pow_add_r, Z.pow_1_r by lia. lia.
    + destruct Hlow as [->|]; auto.
  - destruct (Z.leb_spec (2 ^ 63) v); rewrite Hlen.
    + rewrite (varintLenLoop_spec 9); [done|lia|simpl; lia|right; simpl; lia].
    + rewrite (varintLenLoop_spec 8); [done|lia|simpl; lia|right; simpl; lia].
Qed.

Lemma sqlite3VarintLen_correct_witness :
  sqlite3VarintLen 300 = 2 /\ sqlite3VarintLen (2 ^ 64 - 1) = 10.
Proof.
  split; [rewrite (sqlite3VarintLen_correct 300) by lia
         |rewrite (sqlite3VarintLen_correct (2 ^ 64 - 1)) by lia]; reflexivity.
Defined.

Lemma byte_high_bit b : is_byte b -> (Z.land b 0x80 =? 0) = (b <? 128).
Proof. intros Hb. rewrite <- (high_bit_test 0 b Hb). done. Qed.

(** After the one-byte case, [sqlite3GetVarint32] reads the same bytes as
    the 64-bit reader, and its value is the same up to saturation at
    [0xffffffff]. *)
Theorem sqlite3GetVarint32_saturates p :
  Forall is_byte p -> 128 <= nthZ p 0 ->
  sqlite3GetVarint32 p
  = ((sqlite3GetVarint p).1, Z.min (sqlite3GetVarint p).2 0xffffffff).
Proof.
  intros Hp H0. unfold sqlite3GetVarint32. rewrite !byte_high_bit by by apply nthZ_byte.
  pose proof (varintRef_range 8 0 p 0 Hp ltac:(lia)) as Hr. fold (getVarintRef p) in Hr.
  rewrite getVarint_ref by done. unfold getVarintRef in *. cbn [varintRef] in *.
  replace (nthZ p 0 <? 128) with false in * by (symmetry; apply Z.ltb_ge; lia).
  rewrite !cont_step in *. change (0 + 1) with 1 in *. change (1 + 1) with 2 in *.
  change (2 + 1) with 3 in *.
  pose proof (Z.mod_pos_bound (nthZ p 0) 128 ltac:(lia)).
  pose proof (Z.mod_pos_bound (nthZ p 1) 128 ltac:(lia)).
  pose proof (nthZ_byte p 1 Hp) as Hb1. pose proof (nthZ_byte p 2 Hp) as Hb2.
  unfold is_byte in Hb1, Hb2. rewrite !land_127.
  destruct (Z.ltb_spec (nthZ p 1) 128).
  { simpl fst. simpl snd. rewrite lor_shiftl by lia. f_equal.
    rewrite (Z.mod_small (nthZ p 1)) by lia. lia. }
  destruct (Z.ltb_spec (nthZ p 2) 128).
  { simpl fst. simpl snd. rewrite <- Z.lor_assoc, !lor_shiftl by (rewrite ?lor_shiftl; lia).
    f_equal. rewrite (Z.mod_small (nthZ p 2)) by lia. lia. }
  match goal with |- context [let '(_, _) := ?t in _] => destruct t as [n v] end.
  simpl fst. simpl snd. change 0xffffffff with (Z.ones 32). rewrite Z.land_ones by lia.
  change (Z.ones 32) with (2 ^ 32 - 1). destruct Hr as [_ Hv].
  destruct (Z.eqb_spec (v mod 2 ^ 32) v) as [E|E]; simpl; f_equal.
  - unfold u32. pose proof (Z.mod_pos_bound v (2 ^ 32) ltac:(lia)). lia.
  - destruct (Z.lt_ge_cases v (2 ^ 32)); [|lia]. by rewrite Z.mod_small in E by lia.
Qed.

Lemma sqlite3GetVarint32_saturates_witness :
  sqlite3GetVarint32 (sqlite3PutVarint (2 ^ 40)) = (6, 0xffffffff).
Proof.
  rewrite (sqlite3GetVarint32_saturates (sqlite3PutVarint (2 ^ 40)));
    [reflexivity|by apply (bool_decide_unpack _)|vm_compute; congruence].
Defined.

Definition int64 (x : Z) : bool := (SMALLEST_INT64 <=? x) && (x <=? LARGEST_INT64).

Lemma int64_true x : int64 x = true <-> - 2 ^ 63 <= x < 2 ^ 63.
Proof. unfold int64, SMALLEST_INT64, LARGEST_INT64. rewrite andb_true_iff, !Z.leb_le. lia. Qed.

Lemma int64_false x : int64 x = false <-> x < - 2 ^ 63 \/ 2 ^ 63 <= x.
Proof. rewrite <- not_true_iff_false, int64_true. lia. Qed.

(** The exact contract: either the mathematical result fits and is stored,
    or [*pA] keeps its value and 1 is returned. *)
Definition checked (a r : Z) : Z * Z := if int64 r then (0, r) else (1, a).

Lemma AddInt64_checked a b :
  int64 a = true -> int64 b = true -> sqlite3AddInt64 a b = checked a (a + b).
Proof.
  rewrite !int64_true. intros Ha Hb. unfold sqlite3AddInt64, checked, LARGEST_INT64.
  rewrite Z.geb_leb, !Z.gtb_ltb.
  destruct (int64 (a + b)) eqn:E; rewrite ?int64_true, ?int64_false in E;
    destruct (Z.leb_spec 0 b), (Z.ltb_spec 0 a), (Z.ltb_spec a 0), (Z.ltb_spec (2 ^ 63 - 1 - a) b),
      (Z.ltb_spec (b + 1) (- (a + (2 ^ 63 - 1)))); simpl; try done; lia.
Qed.

Lemma SubInt64_checked a b :
  int64 a = true -> int64 b = true -> sqlite3SubInt64 a b = checked a (a - b).
Proof.
  intros Ha Hb. unfold sqlite3SubInt64. unfold SMALLEST_INT64.
  destruct (Z.eqb_spec b (- 2 ^ 63)) as [->|Hne].
  - apply int64_true in Ha. unfold checked. rewrite Z.geb_leb.
    destruct (Z.leb_spec 0 a), (int64 (a - - 2 ^ 63)) eqn:E;
      rewrite ?int64_true, ?int64_false in E; try done; lia.
  - rewrite AddInt64_checked; [f_equal; lia|done|]. rewrite int64_true in *. lia.
Qed.

Lemma quot_lt n a b : 0 < b -> 0 <= n -> (n `quot` b < a <-> n < a * b).
Proof.
  intros Hb Hn. rewrite Z.quot_div_nonneg by lia. split; intros H.
  - pose proof (Z.div_mod n b ltac:(lia)). pose proof (Z.mod_pos_bound n b ltac:(lia)). nia.
  - apply Z.div_lt_upper_bound; lia.
Qed.

Lemma quot_neg_lt n a b : 0 < b -> 0 <= n -> (a < (- n) `quot` b <-> a * b < - n).
Proof.
  intros Hb Hn. rewrite Z.quot_opp_l by lia.
  pose proof (quot_lt n (- a) b Hb Hn). lia.
Qed.

Lemma MulInt64_checked a b :
  int64 a = true -> int64 b = true -> sqlite3MulInt64 a b = checked a (a * b).
Proof.
  rewrite !int64_true. intros Ha Hb.
  unfold sqlite3MulInt64, checked, LARGEST_INT64, SMALLEST_INT64. rewrite !Z.gtb_ltb.
  destruct (int64 (a * b)) eqn:E; rewrite ?int64_true, ?int64_false in E;
  destruct (Z.ltb_spec 0 b).
  1, 3: pose proof (quot_lt (2 ^ 63 - 1) a b ltac:(lia) ltac:(lia));
    pose proof (quot_neg_lt (2 ^ 63) a b ltac:(lia) ltac:(lia));
    destruct (Z.ltb_spec ((2 ^ 63 - 1) `quot` b) a), (Z.ltb_spec a ((- 2 ^ 63) `quot` b)); try done; lia.
  all: destruct (Z.ltb_spec b 0); [|by replace b with 0 in * by lia; lia || done].
  all: destruct (Z.ltb_spec 0 a);
    [pose proof (quot_neg_lt (2 ^ 63) b a ltac:(lia) ltac:(lia));
     destruct (Z.ltb_spec b ((- 2 ^ 63) `quot` a)); try done; lia|].
  all: destruct (Z.ltb_spec a 0); [|by replace a with 0 in * by lia; lia || done].
  all: destruct (Z.eqb_spec b (- 2 ^ 63)); [try done; nia|];
    destruct (Z.eqb_spec a (- 2 ^ 63)); [try done; nia|];
    pose proof (quot_lt (2 ^ 63 - 1) (- a) (- b) ltac:(lia) ltac:(lia));
    destruct (Z.ltb_spec ((2 ^ 63 - 1) `quot` (- b)) (- a)); try done; lia.
Qed.

(** Checked 64-bit addition, subtraction and multiplication report an
    overflow exactly when the mathematical result is not a 64-bit signed
    integer, leaving the operand unchanged, and store the exact result
    otherwise. *)
Theorem checked_int64_exact a b :
  int64 a = true -> int64 b = true ->
  sqlite3AddInt64 a b = checked a (a + b)
  /\ sqlite3SubInt64 a b = checked a (a - b)
  /\ sqlite3MulInt64 a b = checked a (a * b).
Proof. auto using AddInt64_checked, SubInt64_checked, MulInt64_checked. Qed.

Lemma checked_int64_exact_witness :
  sqlite3MulInt64 (2 ^ 32) (- 2 ^ 31) = (0, - 2 ^ 63)
  /\ sqlite3MulInt64 (2 ^ 32) (2 ^ 31) = (1, 2 ^ 32).
Proof.
  split.
  - by rewrite (proj2 (proj2 (checked_int64_exact (2 ^ 32) (- 2 ^ 31) eq_refl eq_refl))).
  - by rewrite (proj2 (proj2 (checked_int64_exact (2 ^ 32) (2 ^ 31) eq_refl eq_refl))).
Defined.

(** Four-byte big-endian integers *)

Lemma Get4byte_sum p :
  Forall is_byte p ->
  sqlite3Get4byte p = nthZ p 0 * 2 ^ 24 + nthZ p 1 * 2 ^ 16 + nthZ p 2 * 2 ^ 8 + nthZ p 3.
Proof.
  intros Hp. pose proof (nthZ_byte p 0 Hp) as H0. pose proof (nthZ_byte p 1 Hp) as H1.
  pose proof (nthZ_byte p 2 Hp) as H2. pose proof (nthZ_byte p 3 Hp) as H3.
  unfold is_byte in *. unfold sqlite3Get4byte.
  rewrite u32_small by (rewrite Z.shiftl_mul_pow2; lia).
  rewrite <- !Z.lor_assoc. rewrite !lor_shiftl by (rewrite ?lor_shiftl; rewrite ?lor_shiftl; lia). lia.
Qed.

Lemma Put4byte_bytes v : Forall is_byte (sqlite3Put4byte v).
Proof. repeat (apply Forall_cons_2; [apply u8_range|]). by apply Forall_nil. Qed.

Lemma Get4byte_Put4byte v rest :
  0 <= v < 2 ^ 32 -> Forall is_byte rest -> sqlite3Get4byte (sqlite3Put4byte v ++ rest) = v.
Proof.
  intros Hv Hr. rewrite Get4byte_sum by (by apply Forall_app_2; [apply Put4byte_bytes|]).
  unfold nthZ. simpl. unfold u8. rewrite !Z.shiftr_div_pow2 by lia.
  change (2 ^ 24) with (256 * 256 * 256). change (2 ^ 16) with (256 * 256).
  change (2 ^ 8) with 256.
  pose proof (Z.div_mod v 256 ltac:(lia)).
  pose proof (Z.div_mod (v / 256) 256 ltac:(lia)).
  pose proof (Z.div_mod (v / 256 / 256) 256 ltac:(lia)).
  rewrite <- !Z.div_div by lia. rewrite (Z.mod_small (v / 256 / 256 / 256)); [lia|].
  rewrite !Z.div_div by lia. split; [apply Z.div_pos; lia|apply Z.div_lt_upper_bound; lia].
Qed.

Lemma Put4byte_Get4byte p :
  Forall is_byte p -> length p = 4%nat -> sqlite3Put4byte (sqlite3Get4byte p) = p.
Proof.
  intros Hp Hl. rewrite Get4byte_sum by done.
  destruct p as [|a [|b [|c [|d [|]]]]]; try done.
  apply Forall_cons_1 in Hp as [Ha Hp]. apply Forall_cons_1 in Hp as [Hb Hp].
  apply Forall_cons_1 in Hp as [Hc Hp]. apply Forall_cons_1 in Hp as [Hd _].
  unfold is_byte in *. unfold sqlite3Put4byte, u8, nthZ. simpl lookup. simpl default.
  rewrite !Z.shiftr_div_pow2 by lia.
  f_equal; [|f_equal; [|f_equal; [|f_equal]]].
  - symmetry. apply (Z.mod_unique _ _ 0); [lia|]. symmetry. apply (Z.div_unique _ _ _ (b * 2 ^ 16 + c * 2 ^ 8 + d)); lia.
  - symmetry. apply (Z.mod_unique _ _ a); [lia|]. symmetry. apply (Z.div_unique _ _ _ (c * 2 ^ 8 + d)); lia.
  - symmetry. apply (Z.mod_unique _ _ (a * 2 ^ 8 + b)); [lia|]. symmetry. apply (Z.div_unique _ _ _ d); lia.
  - symmetry. apply (Z.mod_unique _ _ (a * 2 ^ 16 + b * 2 ^ 8 + c)); lia.
Qed.
