(* ===== verification/Cstring.v ===== *)
(** * src/libsql-sqlite3/src/util.c, global.c, hash.c: C strings

    A C string is the list of its bytes without the terminator: reading just
    after the last byte gives 0.  Case is that of US-ASCII. *)

From stdpp Require Import base list numbers option.
From S2P Require Import Prelude.
#[local] Open Scope Z_scope.

(** A string that a list represents: no byte of it is the terminator. *)
Definition cstring (z : list Z) : Prop := Forall (fun c => 1 <= c < 256) z.

#[export] Instance cstring_dec z : Decision (cstring z) := _.

(** The first byte of the rest of a string. *)
Definition byteAt (z : list Z) : Z := default 0 (head z).

(** ** Case *)

Definition sqlite3UpperToLower : list Z := seqZ 0 65 ++ seqZ 97 26 ++ seqZ 91 165.

Definition UpperToLower (c : Z) : Z := nthZ sqlite3UpperToLower c.

Definition fold (z : list Z) : list Z := UpperToLower <$> z.

(** ** Comparison *)

(** Each turn that does not end the loop moves both pointers within their
    strings; [fuel] is the length of the longer one, plus one. *)
Fixpoint icmpLoop (fuel : nat) (a b : list Z) : option Z :=
  match fuel with
  | O => None
  | S f =>
      let c := byteAt a in
      let x := byteAt b in
      if c =? x then
        if c =? 0 then Some c else icmpLoop f (tail a) (tail b)
      else
        let c := UpperToLower c - UpperToLower x in
        if negb (c =? 0) then Some c else icmpLoop f (tail a) (tail b)
  end.

Definition sqlite3StrICmp (zLeft zRight : list Z) : Z :=
  default 0 (icmpLoop (S (length zLeft `max` length zRight)) zLeft zRight).

(** The NULL pointer is [None]. *)
Definition sqlite3_stricmp (zLeft zRight : option (list Z)) : Z :=
  match zLeft, zRight with
  | None, None => 0
  | None, Some _ => -1
  | Some _, None => 1
  | Some l, Some r => sqlite3StrICmp l r
  end.

(** The [while] loop of [sqlite3_strnicmp]: [N] after the decrement of its
    condition, and the two pointers; it ends at the end of [a]. *)
Fixpoint strnicmpLoop (fuel : nat) (a b : list Z) (N : Z) : Z * list Z * list Z :=
  match fuel with
  | O => (N - 1, a, b)
  | S f =>
      if (N >? 0) && negb (byteAt a =? 0) && (UpperToLower (byteAt a) =? UpperToLower (byteAt b))
      then strnicmpLoop f (tail a) (tail b) (N - 1)
      else (N - 1, a, b)
  end.

Definition sqlite3_strnicmp (zLeft zRight : option (list Z)) (N : Z) : Z :=
  match zLeft, zRight with
  | None, None => 0
  | None, Some _ => -1
  | Some _, None => 1
  | Some l, Some r =>
      let '(N, a, b) := strnicmpLoop (length l) l r N in
      if N <? 0 then 0 else UpperToLower (byteAt a) - UpperToLower (byteAt b)
  end.

(** ** Hashes *)

Definition sqlite3StrIHash (z : option (list Z)) : Z :=
  match z with
  | None => 0
  | Some z => foldl (fun h c => u8 (h + UpperToLower c)) 0 z
  end.

(** [strHash] of hash.c. *)
Definition strHash (z : list Z) : Z :=
  foldl (fun h c => u32 (u32 (h + UpperToLower c) * 0x9e3779b1)) 0 z.

(** ** Quotes *)

Definition sqlite3Isquote (c : Z) : bool :=
  (c =? 39) || (c =? 34) || (c =? 96) || (c =? 91).

(** The [for] loop from [z[i]], with the bytes [z[0..j-1]] that are written;
    since [j <= i - 1], what is read was not overwritten.  [None]: the end of
    the string before the closing quote. *)
Fixpoint dequoteLoop (z : list Z) (quote : Z) : option (list Z) :=
  match z with
  | [] => None
  | c :: z' =>
      if c =? quote then
        match z' with
        | c' :: z'' => if c' =? quote then o ← dequoteLoop z'' quote; Some (quote :: o) else Some []
        | [] => Some []
        end
      else o ← dequoteLoop z' quote; Some (c :: o)
  end.

Definition sqlite3Dequote (z : list Z) : option (list Z) :=
  let quote := byteAt z in
  if negb (sqlite3Isquote quote) then Some z else
  let quote := if quote =? 91 then 93 else quote in
  dequoteLoop (tail z) quote.

(** The token: its text [z] and its length [n], at most that of the text. *)
Definition sqlite3DequoteToken (z : list Z) (n : Z) : list Z * Z :=
  if n <? 2 then (z, n) else
  if negb (sqlite3Isquote (byteAt z)) then (z, n) else
  if existsb sqlite3Isquote (take (Z.to_nat (n - 2)) (tail z)) then (z, n)
  else (tail z, n - 2).

(** ** Case folding *)

Lemma UpperToLower_eq c :
  0 <= c < 256 -> UpperToLower c = if (65 <=? c) && (c <=? 90) then c + 32 else c.
Proof.
  intros Hc.
  assert (forallb (fun c => UpperToLower c =? if (65 <=? c) && (c <=? 90) then c + 32 else c)
                  (seqZ 0 256) = true) as Hall by (vm_compute; reflexivity).
  rewrite forallb_forall in Hall. apply Z.eqb_eq, Hall, list_elem_of_In, elem_of_seqZ. lia.
Qed.

(** Folding does not make a terminator, and maps a terminator to itself. *)
Lemma UpperToLower_0 c : 0 <= c < 256 -> UpperToLower c = 0 <-> c = 0.
Proof. intros Hc. rewrite UpperToLower_eq by done. destruct (_ && _) eqn:E; lia. Qed.

Lemma byteAt_range z : cstring z -> 0 <= byteAt z < 256.
Proof. intros Hz. destruct Hz; unfold byteAt; simpl; lia. Qed.

Lemma cstring_tail z : cstring z -> cstring (tail z).
Proof. by intros []; [constructor|]. Qed.

Lemma byteAt_0 z : cstring z -> byteAt z = 0 <-> z = [].
Proof. intros Hz. destruct Hz; unfold byteAt; simpl; [done|]. split; [lia|done]. Qed.

Lemma fold_cons_byte z : z <> [] -> fold z = UpperToLower (byteAt z) :: fold (tail z).
Proof. by destruct z. Qed.

(** ** Comparison is equality up to case *)

Lemma icmpLoop_ok fuel a b :
  cstring a -> cstring b -> (length a < fuel)%nat -> (length b < fuel)%nat ->
  exists c, icmpLoop fuel a b = Some c /\ (c = 0 <-> fold a = fold b).
Proof.
  revert a b; induction fuel as [|f IH]; intros a b Ha Hb Hla Hlb; [lia|]. simpl.
  pose proof (byteAt_range a Ha) as Ra. pose proof (byteAt_range b Hb) as Rb.
  pose proof (byteAt_0 a Ha) as Za. pose proof (byteAt_0 b Hb) as Zb.
  assert (forall z : list Z, z <> [] -> length z < S f -> length (tail z) < f)%nat as Htail
    by (intros [] ? ?; simpl in *; [done|lia]).
  destruct (Z.eqb_spec (byteAt a) (byteAt b)) as [He|Hne].
  - destruct (Z.eqb_spec (byteAt a) 0) as [H0|H0].
    + exists (byteAt a). split; [done|].
      assert (a = []) as -> by tauto. assert (b = []) as -> by (apply Zb; lia). done.
    + assert (a <> []) by tauto. assert (byteAt b <> 0) by lia. assert (b <> []) by tauto.
      destruct (IH (tail a) (tail b)) as (c & Ec & Hc); auto using cstring_tail.
      exists c. split; [done|]. rewrite Hc, (fold_cons_byte a), (fold_cons_byte b), He by done.
      split; [by intros -> | by intros [= ->]].
  - destruct (Z.eqb_spec (UpperToLower (byteAt a) - UpperToLower (byteAt b)) 0) as [H0|H0]; simpl.
    + assert (a <> [] /\ b <> []) as [Hna Hnb].
      { pose proof (UpperToLower_0 (byteAt a) Ra). pose proof (UpperToLower_0 (byteAt b) Rb).
        split; intros ->; unfold byteAt in *; simpl default in *; intuition lia. }
      destruct (IH (tail a) (tail b)) as (c & Ec & Hc); auto using cstring_tail.
      exists c. split; [done|]. rewrite Hc, (fold_cons_byte a), (fold_cons_byte b) by done.
      replace (UpperToLower (byteAt a)) with (UpperToLower (byteAt b)) by lia.
      split; [by intros -> | by intros [= ->]].
    + eexists. split; [done|]. split; [lia|]. intros Heq. exfalso. apply H0.
      destruct a as [|x a], b as [|y b]; try discriminate Heq; [done|].
      injection Heq as Hxy _. unfold byteAt. simpl. lia.
Qed.

Lemma sqlite3StrICmp_0 a b :
  cstring a -> cstring b -> sqlite3StrICmp a b = 0 <-> fold a = fold b.
Proof.
  intros Ha Hb. unfold sqlite3StrICmp.
  destruct (icmpLoop_ok (S (length a `max` length b)) a b) as (c & -> & Hc); auto; lia.
Qed.

(** Strings that differ in case only have the same hash. *)
Lemma strHash_fold a b : fold a = fold b -> strHash a = strHash b.
Proof.
  unfold strHash, fold. generalize 0. revert b.
  induction a as [|x a IH]; intros [|y b] h E; try discriminate E; [done|].
  injection E as Exy E. simpl. rewrite Exy. by apply IH.
Qed.

Lemma strHash_range z : 0 <= strHash z < 2 ^ 32.
Proof.
  unfold strHash. set (g := fun h c => _).
  assert (forall h, 0 <= h < 2 ^ 32 -> 0 <= foldl g h z < 2 ^ 32) as H; [|apply H; lia].
  induction z as [|x z IH]; intros h Hh; [done|]. apply IH. apply Z.mod_pos_bound. lia.
Qed.

(** ** Quoting *)

(** An identifier or a string in quotes: the closing quote is doubled. *)
Definition closing (q : Z) : Z := if q =? 91 then 93 else q.

Fixpoint escape (q : Z) (s : list Z) : list Z :=
  match s with
  | [] => []
  | c :: s => if c =? closing q then c :: c :: escape q s else c :: escape q s
  end.

Definition quoted (q : Z) (s : list Z) : list Z := q :: escape q s ++ [closing q].

Lemma dequoteLoop_ok q s : dequoteLoop (escape q s ++ [closing q]) (closing q) = Some s.
Proof.
  induction s as [|c s IH]; simpl; [by rewrite Z.eqb_refl|].
  destruct (Z.eqb_spec c (closing q)) as [->|Hne]; simpl.
  - rewrite Z.eqb_refl, IH. done.
  - apply Z.eqb_neq in Hne. by rewrite Hne, IH.
Qed.

(** ** Correctness *)

(** C38: [sqlite3Dequote] undoes quoting: for each of the four kinds of quotes,
    it gives back any text from its quoted form, in which every closing quote
    of the text is doubled. *)
Theorem sqlite3Dequote_quoted q s :
  sqlite3Isquote q = true -> sqlite3Dequote (quoted q s) = Some s.
Proof.
  intros Hq. unfold sqlite3Dequote, quoted, byteAt. simpl. rewrite Hq. simpl.
  apply dequoteLoop_ok.
Qed.

Lemma sqlite3Dequote_quoted_witness :
  sqlite3Dequote (quoted 91 [97; 93; 98]) = Some [97; 93; 98].
Proof. apply (sqlite3Dequote_quoted 91 [97; 93; 98]). reflexivity. Defined.
