(* ===== verification/Rowset.v ===== *)
(** * src/libsql-sqlite3/src/rowset.c: sets of rowids

    A [RowSet] is used in one of two ways: insert rowids and extract them in
    increasing order ([sqlite3RowSetNext]), or insert rowids in batches and
    test whether a rowid belongs to an earlier batch ([sqlite3RowSetTest]).
    An entry is on one list or in one tree at a time, so that a list linked
    by [pRight] is a list of rowids here, a tree is an inductive tree, and
    the forest list is the list of its trees ([Nil] where [pLeft] is 0);
    [pLast] is the last entry of [pEntry].  What the allocator answers is an
    argument of the operations that allocate. *)

From stdpp Require Import base list numbers option sets sorting gmap.
From S2P Require Import Prelude.
#[local] Open Scope Z_scope.

(** ** Data *)

(** A tree of [RowSetEntry] objects. *)
Inductive tree : Type :=
| Nil
| Entry (pLeft : tree) (v : Z) (pRight : tree).

(** The sizes of the structures on a machine with 64-bit pointers. *)
Definition sizeof_RowSetEntry : Z := 24.
Definition sizeof_RowSet : Z := 56.
Definition ROWSET_ALLOCATION_SIZE : Z := 1024.
Definition ROWSET_ENTRY_PER_CHUNK : Z := (ROWSET_ALLOCATION_SIZE - 8) / sizeof_RowSetEntry.

Definition ROWSET_SORTED : Z := 1.
Definition ROWSET_NEXT : Z := 2.

(** [nChunk] is the length of the list [pChunk]. *)
Record RowSet := mkRowSet {
  nChunk : Z;
  pEntry : list Z;
  nFresh : Z;
  pForest : list tree;
  rsFlags : Z;
  iBatch : Z
}.

Definition hasFlag (p : RowSet) (f : Z) : bool := negb (Z.land (rsFlags p) f =? 0).

(** ** Construction, destruction, allocation *)

(** [N]: the size of the block that [sqlite3DbMallocRawNN] returns, [None]
    when it fails. *)
Definition sqlite3RowSetInit (N : option Z) : option RowSet :=
  match N with
  | None => None
  | Some N => Some (mkRowSet 0 [] (u16 ((N - sizeof_RowSet) / sizeof_RowSetEntry)) []
                             ROWSET_SORTED 0)
  end.

(** [iBatch] keeps its value. *)
Definition sqlite3RowSetClear (p : RowSet) : RowSet :=
  mkRowSet 0 [] 0 [] ROWSET_SORTED (iBatch p).

(** Whether an entry was allocated. *)
Definition rowSetEntryAlloc (mallocOk : bool) (p : RowSet) : bool * RowSet :=
  let take p n := mkRowSet (nChunk p) (pEntry p) n (pForest p) (rsFlags p) (iBatch p) in
  if nFresh p =? 0 then
    if negb mallocOk then (false, p)
    else (true, mkRowSet (nChunk p + 1) (pEntry p) (ROWSET_ENTRY_PER_CHUNK - 1)
                         (pForest p) (rsFlags p) (iBatch p))
  else (true, take p (nFresh p - 1)).

(** ** Insertion *)

Definition sqlite3RowSetInsert (mallocOk : bool) (p : RowSet) (rowid : Z) : RowSet :=
  let '(ok, p) := rowSetEntryAlloc mallocOk p in
  if negb ok then p else
  let rsFlags :=
    match last (pEntry p) with
    | Some pLast => if rowid <=? pLast then Z.ldiff (rsFlags p) ROWSET_SORTED else rsFlags p
    | None => rsFlags p
    end in
  mkRowSet (nChunk p) (pEntry p ++ [rowid]) (nFresh p) (pForest p) rsFlags (iBatch p).

(** ** Sorting *)

(** The code is called with two lists that are not empty, and stops as soon
    as one of them is. *)
Fixpoint rowSetEntryMerge (pA : list Z) : list Z -> list Z :=
  fix merge (pB : list Z) : list Z :=
    match pA, pB with
    | [], _ => pB
    | _, [] => pA
    | a :: pA', b :: pB' =>
        if a <=? b then
          if a <? b then a :: rowSetEntryMerge pA' pB else rowSetEntryMerge pA' pB
        else b :: merge pB'
    end.

Definition nBucket : nat := 40.

(** [for(i=0; aBucket[i]; i++)] and the assignment that follows it; [None]
    when [i] leaves the array. *)
Fixpoint bucketLoop (aBucket : list (list Z)) (pIn : list Z) : option (list (list Z)) :=
  match aBucket with
  | [] => None
  | [] :: rest => Some (pIn :: rest)
  | b :: rest => r ← bucketLoop rest (rowSetEntryMerge b pIn); Some ([] :: r)
  end.

(** [while( pIn )]. *)
Fixpoint sortLoop (pIn : list Z) (aBucket : list (list Z)) : option (list (list Z)) :=
  match pIn with
  | [] => Some aBucket
  | v :: pNext => b ← bucketLoop aBucket [v]; sortLoop pNext b
  end.

(** The last [for] loop. *)
Fixpoint joinLoop (aBucket : list (list Z)) (pIn : list Z) : list Z :=
  match aBucket with
  | [] => pIn
  | [] :: rest => joinLoop rest pIn
  | b :: rest => joinLoop rest (match pIn with [] => b | _ => rowSetEntryMerge pIn b end)
  end.

Definition rowSetEntrySort (pIn : list Z) : option (list Z) :=
  b ← sortLoop pIn (replicate nBucket []);
  Some (joinLoop (drop 1 b) (default [] (b !! 0%nat))).

(** ** Lists and trees *)

Fixpoint rowSetTreeToList (pIn : tree) : list Z :=
  match pIn with
  | Nil => []
  | Entry pLeft v pRight => rowSetTreeToList pLeft ++ v :: rowSetTreeToList pRight
  end.

(** The tree, and what is left of the list. *)
Fixpoint rowSetNDeepTree (iDepth : nat) (ppList : list Z) : tree * list Z :=
  match ppList with
  | [] => (Nil, [])
  | x :: rest =>
      match iDepth with
      | O | S O => (Entry Nil x Nil, rest)
      | S d =>
          let '(pLeft, ppList) := rowSetNDeepTree d ppList in
          match ppList with
          | [] => (pLeft, [])
          | v :: ppList =>
              let '(pRight, ppList) := rowSetNDeepTree d ppList in
              (Entry pLeft v pRight, ppList)
          end
      end
  end.

(** Each turn takes an entry of the list, whose length bounds the turns. *)
Fixpoint listToTreeLoop (fuel : nat) (iDepth : nat) (p : tree) (pList : list Z) : tree :=
  match fuel, pList with
  | S f, v :: pList =>
      let '(pRight, pList) := rowSetNDeepTree iDepth pList in
      listToTreeLoop f (S iDepth) (Entry p v pRight) pList
  | _, _ => p
  end.

Definition rowSetListToTree (pList : list Z) : tree :=
  match pList with
  | [] => Nil
  | v :: pList => listToTreeLoop (length pList) 1 (Entry Nil v Nil) pList
  end.

(** ** Extraction in order *)

(** The result code, and the rowid when it is 1; [None] when the sort leaves
    its array of buckets. *)
Definition sqlite3RowSetNext (p : RowSet) : option (option Z * RowSet) :=
  p ← (if negb (hasFlag p ROWSET_NEXT) then
         e ← (if negb (hasFlag p ROWSET_SORTED) then rowSetEntrySort (pEntry p)
              else Some (pEntry p));
         Some (mkRowSet (nChunk p) e (nFresh p) (pForest p)
                        (Z.lor (rsFlags p) (Z.lor ROWSET_SORTED ROWSET_NEXT)) (iBatch p))
       else Some p);
  match pEntry p with
  | [] => Some (None, p)
  | v :: rest =>
      let p := mkRowSet (nChunk p) rest (nFresh p) (pForest p) (rsFlags p) (iBatch p) in
      Some (Some v, match rest with [] => sqlite3RowSetClear p | _ => p end)
  end.

(** ** Membership test *)

(** The loop over the forest that puts the sorted list [p] into it: the first
    tree that is 0 takes it, merged with the trees before it.  The list that
    found no place is returned. *)
Fixpoint forestLoop (pForest : list tree) (p : list Z) : list tree * option (list Z) :=
  match pForest with
  | [] => ([], Some p)
  | Nil :: rest => (rowSetListToTree p :: rest, None)
  | t :: rest =>
      let '(rest, p) := forestLoop rest (rowSetEntryMerge (rowSetTreeToList t) p) in
      (Nil :: rest, p)
  end.

(** The [while] loop over one tree. *)
Fixpoint treeTest (p : tree) (iRowid : Z) : bool :=
  match p with
  | Nil => false
  | Entry pLeft v pRight =>
      if v <? iRowid then treeTest pRight iRowid
      else if v >? iRowid then treeTest pLeft iRowid
      else true
  end.

Definition forestTest (pForest : list tree) (iRowid : Z) : bool :=
  existsb (fun t => treeTest t iRowid) pForest.

(** The part of [sqlite3RowSetTest] that runs when the batch changes. *)
Definition newBatch (mallocOk : bool) (p : RowSet) (b : Z) : option RowSet :=
  match pEntry p with
  | [] => Some (mkRowSet (nChunk p) [] (nFresh p) (pForest p) (rsFlags p) b)
  | _ =>
      e ← (if negb (hasFlag p ROWSET_SORTED) then rowSetEntrySort (pEntry p)
           else Some (pEntry p));
      let '(forest, rest) := forestLoop (pForest p) e in
      let '(forest, p) :=
        match rest with
        | None => (forest, p)
        | Some e =>
            let '(ok, p) := rowSetEntryAlloc mallocOk p in
            (if ok then forest ++ [rowSetListToTree e] else forest, p)
        end in
      Some (mkRowSet (nChunk p) [] (nFresh p) forest (Z.lor (rsFlags p) ROWSET_SORTED) b)
  end.

Definition sqlite3RowSetTest (mallocOk : bool) (p : RowSet) (b iRowid : Z) : option (bool * RowSet) :=
  p ← (if negb (b =? iBatch p) then newBatch mallocOk p b else Some p);
  Some (forestTest (pForest p) iRowid, p).

(** ** Sorting: the result is the strictly increasing list of the entries *)

Abbreviation ascending := (StronglySorted Z.lt).

(** One strictly increasing list for a set of rowids. *)
Lemma ascending_unique l l' :
  ascending l -> ascending l' -> (forall x, x ∈ l <-> x ∈ l') -> l = l'.
Proof.
  intros Hl Hl' Hiff.
  assert (forall k, ascending k -> NoDup k) as Hnd.
  { induction 1 as [|x k Hk IH Hx]; constructor; [|done].
    intros H. rewrite Forall_forall in Hx. specialize (Hx x H). lia. }
  apply (StronglySorted_unique_strong Z.lt); auto; [lia|].
  apply NoDup_Permutation; auto.
Qed.

Lemma merge_elem pA pB x : x ∈ rowSetEntryMerge pA pB <-> x ∈ pA \/ x ∈ pB.
Proof.
  revert pB; induction pA as [|a pA IHA]; intros pB;
    [destruct pB; set_solver|].
  induction pB as [|b pB IHB]; [set_solver|]. simpl in *.
  destruct (Z.leb_spec a b); [destruct (Z.ltb_spec a b)|].
  - rewrite elem_of_cons, IHA. set_solver.
  - assert (a = b) as -> by lia. rewrite IHA. set_solver.
  - rewrite elem_of_cons, IHB. set_solver.
Qed.

Lemma merge_ascending pA pB :
  ascending pA -> ascending pB -> ascending (rowSetEntryMerge pA pB).
Proof.
  intros HA. revert pB; induction HA as [|a pA HA IHA Ha]; intros pB HB;
    [by destruct pB|].
  induction HB as [|b pB HB IHB Hb]; [by constructor|]. simpl in *.
  rewrite Forall_forall in Ha, Hb.
  destruct (Z.leb_spec a b); [destruct (Z.ltb_spec a b)|].
  - constructor; [apply IHA; constructor; [done|by apply Forall_forall]|].
    apply Forall_forall. intros x [Hx|[->|Hx]%elem_of_cons]%merge_elem; auto.
    specialize (Hb x Hx). lia.
  - apply IHA. constructor; [done|by apply Forall_forall].
  - constructor; [done|]. apply Forall_forall.
    intros x Hx. change (x ∈ rowSetEntryMerge (a :: pA) pB) in Hx.
    apply merge_elem in Hx as [[->|Hx]%elem_of_cons|Hx]; auto.
    specialize (Ha x Hx). lia.
Qed.

Lemma merge_nonempty pA pB : pB <> [] -> rowSetEntryMerge pA pB <> [].
Proof.
  destruct pB as [|b pB]; [done|]. intros _ H.
  assert (b ∈ rowSetEntryMerge pA (b :: pB)) as Hb by (apply merge_elem; set_solver).
  rewrite H in Hb. set_solver.
Qed.

(** The buckets count, in binary, the entries taken so far. *)
Fixpoint weight (aBucket : list (list Z)) : Z :=
  match aBucket with
  | [] => 0
  | b :: rest => (match b with [] => 0 | _ => 1 end) + 2 * weight rest
  end.

Lemma bucketLoop_ok aBucket pIn :
  pIn <> [] -> ascending pIn -> Forall ascending aBucket ->
  weight aBucket < 2 ^ Z.of_nat (length aBucket) - 1 ->
  exists aBucket', bucketLoop aBucket pIn = Some aBucket'
    /\ length aBucket' = length aBucket /\ Forall ascending aBucket'
    /\ weight aBucket' = weight aBucket + 1
    /\ (forall x, x ∈ concat aBucket' <-> x ∈ pIn \/ x ∈ concat aBucket).
Proof.
  intros Hne Hp Hb. revert pIn Hne Hp; induction Hb as [|b rest Hb Hrest IH];
    intros pIn Hne Hp Hw; [simpl in Hw; lia|].
  destruct b as [|v b].
  - exists (pIn :: rest). split_and!; [done|done|by constructor| |set_solver].
    simpl. destruct pIn; [done|lia].
  - assert (2 ^ Z.of_nat (length ((v :: b) :: rest)) = 2 * 2 ^ Z.of_nat (length rest)) as Hpow.
    { simpl length. rewrite Nat2Z.inj_succ. apply Z.pow_succ_r. lia. }
    change (weight ((v :: b) :: rest)) with (1 + 2 * weight rest) in *.
    destruct (IH (rowSetEntryMerge (v :: b) pIn)) as (r & Hr & Hlen & Hasc & Hwr & Hel);
      [by apply merge_nonempty|by apply merge_ascending|lia|].
    exists ([] :: r). cbn [bucketLoop]. rewrite Hr. split_and!; [done| | | |].
    + simpl. by rewrite Hlen.
    + constructor; [constructor|done].
    + simpl weight. lia.
    + intros x. simpl. rewrite Hel, merge_elem. set_solver.
Qed.

Lemma sortLoop_ok pIn aBucket :
  Forall ascending aBucket ->
  weight aBucket + Z.of_nat (length pIn) < 2 ^ Z.of_nat (length aBucket) ->
  exists aBucket', sortLoop pIn aBucket = Some aBucket'
    /\ length aBucket' = length aBucket /\ Forall ascending aBucket'
    /\ (forall x, x ∈ concat aBucket' <-> x ∈ pIn \/ x ∈ concat aBucket).
Proof.
  revert aBucket; induction pIn as [|v pIn IH]; intros aBucket Hb Hw.
  - exists aBucket. split_and!; [done|done|done|set_solver].
  - simpl length in Hw.
    destruct (bucketLoop_ok aBucket [v]) as (b & Eb & Hlen & Hasc & Hwb & Hel);
      [done|repeat constructor|done|lia|].
    destruct (IH b) as (b' & Eb' & Hlen' & Hasc' & Hel'); [done|rewrite Hlen; lia|].
    exists b'. simpl. rewrite Eb. simpl. split_and!; [done|congruence|done|].
    intros x. rewrite Hel', Hel. set_solver.
Qed.

Lemma joinLoop_ok aBucket pIn :
  Forall ascending aBucket -> ascending pIn ->
  ascending (joinLoop aBucket pIn)
  /\ (forall x, x ∈ joinLoop aBucket pIn <-> x ∈ pIn \/ x ∈ concat aBucket).
Proof.
  intros Hb. revert pIn; induction Hb as [|b rest Hb Hrest IH]; intros pIn Hp.
  - split; [done|set_solver].
  - destruct b as [|v b]; [by apply IH|].
    destruct pIn as [|w pIn]; simpl joinLoop.
    + destruct (IH (v :: b) Hb) as [H1 H2]. split; [done|]. intros x. rewrite H2. set_solver.
    + change (match w :: pIn with [] => v :: b | _ :: _ => rowSetEntryMerge (w :: pIn) (v :: b) end)
        with (rowSetEntryMerge (w :: pIn) (v :: b)).
      destruct (IH (rowSetEntryMerge (w :: pIn) (v :: b))) as [H1 H2];
        [by apply merge_ascending|]. split; [done|].
      intros x. rewrite H2, merge_elem. set_solver.
Qed.

Lemma weight_replicate n : weight (replicate n []) = 0.
Proof. induction n as [|n IH]; simpl; [done|]. by rewrite IH. Qed.

Lemma concat_replicate_nil n : concat (replicate n []) =@{list Z} [].
Proof. by induction n. Qed.

(** Forty buckets are enough for fewer than 2^40 entries. *)
Lemma rowSetEntrySort_ok pIn :
  Z.of_nat (length pIn) < 2 ^ 40 ->
  exists l, rowSetEntrySort pIn = Some l /\ ascending l /\ (forall x, x ∈ l <-> x ∈ pIn).
Proof.
  intros Hlen.
  destruct (sortLoop_ok pIn (replicate nBucket [])) as (b & Eb & Hlb & Hasc & Hel).
  { apply Forall_replicate. constructor. }
  { rewrite weight_replicate, length_replicate. done. }
  rewrite length_replicate in Hlb. unfold rowSetEntrySort. rewrite Eb. simpl.
  destruct b as [|b0 b]; [done|]. inversion Hasc; subst.
  destruct (joinLoop_ok b b0) as [H1' H2']; [done|done|].
  eexists. split; [done|]. split; [done|]. intros x.
  specialize (Hel x). rewrite concat_replicate_nil in Hel. simpl in Hel.
  rewrite elem_of_app in Hel.
  rewrite H2', Hel. set_solver.
Qed.

(** ** Trees *)

Fixpoint height (t : tree) : nat :=
  match t with
  | Nil => 0
  | Entry l _ r => S (height l `max` height r)
  end.

(** The tree takes a prefix of the list, in order; it is complete unless the
    list runs out. *)
Lemma rowSetNDeepTree_ok d l t rest :
  (1 <= d)%nat -> rowSetNDeepTree d l = (t, rest) ->
  rowSetTreeToList t ++ rest = l /\ (height t <= d)%nat
  /\ (rest <> [] -> length (rowSetTreeToList t) = 2 ^ d - 1)%nat.
Proof.
  revert l t rest; induction d as [|d IH]; intros l t rest Hd; [lia|].
  destruct l as [|x l]; [intros [= <- <-]; split_and!; [done|simpl; lia|done]|].
  destruct d as [|d]; [intros [= <- <-]; split_and!; [done|simpl; lia|done]|].
  change (rowSetNDeepTree (S (S d)) (x :: l)) with
    (let '(pLeft, ppList) := rowSetNDeepTree (S d) (x :: l) in
     match ppList with
     | [] => (pLeft, [])
     | v :: ppList =>
         let '(pRight, ppList) := rowSetNDeepTree (S d) ppList in (Entry pLeft v pRight, ppList)
     end).
  destruct (rowSetNDeepTree (S d) (x :: l)) as [tl r1] eqn:E1.
  apply IH in E1 as (Hl & Hhl & Hcl); [|lia].
  destruct r1 as [|v r1]; [intros [= <- <-]; split_and!; [done|lia|done]|].
  destruct (rowSetNDeepTree (S d) r1) as [tr r2] eqn:E2.
  apply IH in E2 as (Hr & Hhr & Hcr); [|lia]. intros [= <- <-]. split_and!.
  - rewrite <- Hl, <- Hr. simpl. by rewrite <- app_assoc.
  - simpl. lia.
  - intros Hne. simpl rowSetTreeToList. rewrite length_app. simpl length.
    rewrite Hcl, Hcr by done. rewrite (Nat.pow_succ_r' 2 (S d)).
    pose proof (Nat.pow_nonzero 2 (S d)). lia.
Qed.

Lemma pow_height h n : (h <= n)%nat -> (2 ^ (h - 1) <= 2 ^ (n - 1))%nat.
Proof. intros. apply Nat.pow_le_mono_r; lia. Qed.

(** The loop invariant: the tree built so far has the entries of a complete
    tree of depth [k]. *)
Lemma listToTreeLoop_ok fuel k p l :
  (1 <= k)%nat -> (length l <= fuel)%nat ->
  (height p <= k)%nat -> length (rowSetTreeToList p) = (2 ^ k - 1)%nat ->
  let t := listToTreeLoop fuel k p l in
  rowSetTreeToList t = rowSetTreeToList p ++ l
  /\ (2 ^ (height t - 1) <= length (rowSetTreeToList t))%nat.
Proof.
  revert k p l; induction fuel as [|f IH]; intros k p l Hk Hf Hh Hc t; subst t;
    (destruct l as [|v l]; [|simpl in Hf; try lia]).
  1, 2: rewrite app_nil_r; split; [done|]; simpl listToTreeLoop; rewrite Hc;
    pose proof (pow_height _ _ Hh); destruct k as [|k]; [lia|];
    rewrite Nat.sub_succ, Nat.sub_0_r in *; rewrite Nat.pow_succ_r';
    pose proof (Nat.pow_nonzero 2 k); lia.
  simpl. destruct (rowSetNDeepTree k l) as [tr r] eqn:E.
  apply rowSetNDeepTree_ok in E as (Hl & Hhr & Hcr); [|lia].
  pose proof (Nat.pow_nonzero 2 k) as Hnz.
  assert (height (Entry p v tr) <= S k)%nat as HhS by (simpl; lia).
  destruct r as [|w r].
  - rewrite app_nil_r in Hl. destruct f; simpl; rewrite Hl; (split; [done|]);
      apply pow_height in HhS; simpl in HhS; rewrite !Nat.sub_0_r in *;
      rewrite length_app, Hc; simpl; lia.
  - destruct (IH (S k) (Entry p v tr) (w :: r)) as [H1 H2]; [lia| |done| |].
    + rewrite <- Hl, length_app in Hf. simpl in *. lia.
    + simpl rowSetTreeToList. rewrite length_app. simpl length. rewrite Hc, Hcr by done.
      rewrite Nat.pow_succ_r'. lia.
    + split; [|done]. rewrite H1. simpl. rewrite <- Hl. by rewrite <- app_assoc.
Qed.

Lemma rowSetListToTree_ok l :
  rowSetTreeToList (rowSetListToTree l) = l
  /\ (l <> [] -> 2 ^ (height (rowSetListToTree l) - 1) <= length l)%nat.
Proof.
  destruct l as [|v l]; [done|]. unfold rowSetListToTree.
  destruct (listToTreeLoop_ok (length l) 1 (Entry Nil v Nil) l) as [H1 H2]; [lia|lia|done|done|].
  rewrite H1 in H2 |- *. done.
Qed.

(** The loop over a search tree. *)
Lemma treeTest_ok t x :
  ascending (rowSetTreeToList t) -> treeTest t x = true <-> x ∈ rowSetTreeToList t.
Proof.
  induction t as [|l IHl v r IHr]; simpl; [set_solver|]. intros Hs.
  apply StronglySorted_app in Hs as (Hlt & Hl & Hr).
  inversion Hr as [|? ? Hr' Hvr]; subst. rewrite Forall_forall in Hvr.
  assert (forall y, y ∈ rowSetTreeToList l -> y < v) as Hlv by (intros; apply Hlt; set_solver).
  rewrite elem_of_app, elem_of_cons.
  destruct (Z.ltb_spec v x); [|rewrite Z.gtb_ltb; destruct (Z.ltb_spec x v)].
  - rewrite IHr by done. split; [auto|]. intros [H'%Hlv|[->|H']]; [lia|lia|done].
  - rewrite IHl by done. split; [auto|]. intros [H'|[->|H'%Hvr]]; [done|lia|lia].
  - assert (x = v) by lia. naive_solver.
Qed.

(** ** What a rowset promises

    The rowids of the earlier batches, those of the current batch, and the
    number of the batch. *)
Record rowids := mkRowids { past : gset Z; cur : gset Z; batch : Z }.

Inductive op : Type :=
| OpInsert (rowid : Z)
| OpTest (iBatch iRowid : Z).

(** The answer is a [bool] for a test and nothing for an insertion. *)
Definition specStep (s : rowids) (o : op) : option bool * rowids :=
  match o with
  | OpInsert x => (None, mkRowids (past s) ({[x]} ∪ cur s) (batch s))
  | OpTest b x =>
      let s := if decide (b = batch s) then s else mkRowids (past s ∪ cur s) ∅ b in
      (Some (bool_decide (x ∈ past s)), s)
  end.

Fixpoint specRun (s : rowids) (ops : list op) : list (option bool) :=
  match ops with
  | [] => []
  | o :: ops => let '(r, s) := specStep s o in r :: specRun s ops
  end.

(** The same operations on a [RowSet], with an allocator that does not fail. *)
Definition rowSetStep (p : RowSet) (o : op) : option (option bool * RowSet) :=
  match o with
  | OpInsert x => Some (None, sqlite3RowSetInsert true p x)
  | OpTest b x => '(r, p) ← sqlite3RowSetTest true p b x; Some (Some r, p)
  end.

Fixpoint rowSetRun (p : RowSet) (ops : list op) : option (list (option bool)) :=
  match ops with
  | [] => Some []
  | o :: ops => '(r, p) ← rowSetStep p o; l ← rowSetRun p ops; Some (r :: l)
  end.

(** The invariant of [pEntry] and of the flags while rowids are inserted. *)
Record entries_ok (p : RowSet) : Prop := {
  en_flags : rsFlags p = 0 \/ rsFlags p = ROWSET_SORTED;
  en_sorted : rsFlags p = ROWSET_SORTED -> ascending (pEntry p)
}.

Definition forest_ok (f : list tree) : Prop :=
  Forall (fun t => ascending (rowSetTreeToList t)) f.

Definition members (f : list tree) : list Z := concat (rowSetTreeToList <$> f).

(** [p] holds the rowids of [s], and at most [n] of the current batch. *)
Record holds (n : nat) (p : RowSet) (s : rowids) : Prop := {
  h_entries : entries_ok p;
  h_forest : forest_ok (pForest p);
  h_cur : forall x, x ∈ pEntry p <-> x ∈ cur s;
  h_past : forall x, x ∈ members (pForest p) <-> x ∈ past s;
  h_batch : iBatch p = batch s;
  h_len : (length (pEntry p) <= n)%nat
}.

Lemma ascending_snoc l x y :
  ascending l -> last l = Some y -> y < x -> ascending (l ++ [x]).
Proof.
  intros Hl Hlast Hxy. apply StronglySorted_app. split_and!; [|done|repeat constructor].
  intros a b Ha ->%list_elem_of_singleton.
  apply last_Some in Hlast as [l' ->]. apply StronglySorted_app in Hl as (Hlt & _ & _).
  apply elem_of_app in Ha as [Ha| ->%list_elem_of_singleton]; [|done].
  specialize (Hlt a y Ha). set_solver by lia.
Qed.

Lemma rowSetEntryAlloc_true p :
  exists p', rowSetEntryAlloc true p = (true, p') /\ pEntry p' = pEntry p
    /\ pForest p' = pForest p /\ rsFlags p' = rsFlags p /\ iBatch p' = iBatch p.
Proof. unfold rowSetEntryAlloc. destruct (nFresh p =? 0); simpl; eauto 10. Qed.

Lemma insert_entries p x :
  entries_ok p ->
  let p' := sqlite3RowSetInsert true p x in
  entries_ok p' /\ pEntry p' = pEntry p ++ [x] /\ pForest p' = pForest p /\ iBatch p' = iBatch p.
Proof.
  intros [Hf Hs]. unfold sqlite3RowSetInsert.
  destruct (rowSetEntryAlloc_true p) as (q & Eq & He & Ho & Hfl & Hb). rewrite Eq, He, Hfl.
  simpl. split; [|auto]. destruct (last (pEntry p)) as [y|] eqn:El.
  - destruct (Z.leb_spec x y); (split; [|intros Hsorted]); simpl in *; auto.
    + left. by destruct Hf as [-> | ->].
    + by destruct Hf as [H' | H']; rewrite H' in Hsorted.
    + eapply ascending_snoc; eauto.
  - apply last_None in El. split; simpl; [done|]. intros _. rewrite El. repeat constructor.
Qed.

Lemma insert_holds n p s x :
  holds n p s -> holds (S n) (sqlite3RowSetInsert true p x) (specStep s (OpInsert x)).2.
Proof.
  intros [Hen Hfo Hc Hp Hb Hl]. destruct (insert_entries p x Hen) as (He' & Ee & Ef & Eb).
  split; try (rewrite ?Ee, ?Ef, ?Eb); simpl; auto.
  - intros y. rewrite elem_of_app, Hc. set_solver.
  - rewrite length_app. simpl. lia.
Qed.

(** The list of a batch goes into the forest, or nowhere yet. *)
Lemma forestLoop_ok f e f' rest :
  forest_ok f -> ascending e -> forestLoop f e = (f', rest) ->
  forest_ok f' /\ ascending (default [] rest)
  /\ (forall x, x ∈ members f' \/ x ∈ default [] rest <-> x ∈ members f \/ x ∈ e).
Proof.
  intros Hf. revert e f' rest; induction Hf as [|t f Ht Hf IH]; intros e f' rest He.
  - intros [= <- <-]. split_and!; [constructor|done|done].
  - destruct t as [|l v r].
    + intros [= <- <-]. destruct (rowSetListToTree_ok e) as [Hin _]. split_and!.
      * constructor; [by rewrite Hin|done].
      * constructor.
      * intros x. unfold members. simpl. rewrite Hin. set_solver.
    + simpl. destruct (forestLoop f _) as [f1 r1] eqn:E.
      apply IH in E as (Hf1 & Hr1 & Hel); [|by apply merge_ascending].
      intros [= <- <-]. split_and!; [constructor; [constructor|done]|done|].
      intros x. unfold members in *. simpl. rewrite Hel, merge_elem. set_solver.
Qed.

Lemma hasFlag_sorted p :
  entries_ok p -> hasFlag p ROWSET_NEXT = false
  /\ hasFlag p ROWSET_SORTED = bool_decide (rsFlags p = ROWSET_SORTED).
Proof. unfold hasFlag. by intros [[-> | ->] _]. Qed.

(** What both uses do with the entries: sort them unless they are sorted. *)
Lemma sorted_entries p :
  entries_ok p -> Z.of_nat (length (pEntry p)) < 2 ^ 40 ->
  exists e, (if negb (hasFlag p ROWSET_SORTED) then rowSetEntrySort (pEntry p)
             else Some (pEntry p)) = Some e
    /\ ascending e /\ (forall x, x ∈ e <-> x ∈ pEntry p).
Proof.
  intros Hen Hlen. destruct (hasFlag_sorted p Hen) as [_ ->].
  case_bool_decide as Hs; simpl; [|by apply rowSetEntrySort_ok].
  exists (pEntry p). split_and!; [done|by apply Hen|done].
Qed.

Lemma sorted_empty_ok p : rsFlags p = ROWSET_SORTED -> pEntry p = [] -> entries_ok p.
Proof. intros Hf He. split; [auto|]. rewrite He. constructor. Qed.

Lemma newBatch_holds n p s b :
  holds n p s -> Z.of_nat n < 2 ^ 40 ->
  exists p', newBatch true p b = Some p' /\ holds n p' (mkRowids (past s ∪ cur s) ∅ b).
Proof.
  intros [Hen Hfo Hc Hp Hb Hl] Hn. unfold newBatch.
  destruct (pEntry p) as [|v l] eqn:El.
  - eexists. split; [done|]. split; simpl; auto; [|set_solver|set_solver].
    destruct Hen as [Hf Hs]. split; simpl; [done|constructor].
  - rewrite <- El in *. destruct (sorted_entries p Hen) as (e & -> & Hasc & Hel); [lia|].
    simpl. destruct (forestLoop (pForest p) e) as [f r] eqn:Ef.
    apply forestLoop_ok in Ef as (Hf & Hr & Hmem); [|done|done].
    assert (Z.lor (rsFlags p) ROWSET_SORTED = ROWSET_SORTED) as Hfl
      by (by destruct (en_flags p Hen) as [-> | ->]).
    destruct r as [e'|]; simpl in *.
    + destruct (rowSetEntryAlloc_true p) as (q & Eq & _ & _ & Hfq & _). rewrite Eq, Hfq.
      destruct (rowSetListToTree_ok e') as [Hin _].
      eexists. split; [done|]. split; simpl; [by apply sorted_empty_ok| |set_solver| |done|lia].
      * apply Forall_app. split; [done|]. constructor; [by rewrite Hin|done].
      * intros x. rewrite elem_of_union, <- Hp, <- Hc, <- Hel, <- Hmem.
        unfold members. rewrite fmap_app, concat_app. simpl. rewrite Hin. set_solver.
    + eexists. split; [done|]. split; simpl; [by apply sorted_empty_ok|done|set_solver| |done|lia].
      intros x. rewrite elem_of_union, <- Hp, <- Hc, <- Hel, <- Hmem. set_solver.
Qed.

Lemma forestTest_ok f x : forest_ok f -> forestTest f x = true <-> x ∈ members f.
Proof.
  unfold forestTest, members. induction 1 as [|t f Ht Hf IH]; simpl; [set_solver|].
  rewrite orb_true_iff, IH, treeTest_ok, elem_of_app by done. done.
Qed.

Lemma rowSetStep_ok n p s o :
  holds n p s -> Z.of_nat n < 2 ^ 40 ->
  exists p', rowSetStep p o = Some ((specStep s o).1, p') /\ holds (S n) p' (specStep s o).2.
Proof.
  intros Hh Hn. destruct o as [x|b x].
  - exists (sqlite3RowSetInsert true p x). split; [done|]. by apply insert_holds.
  - assert (exists p', (if negb (b =? iBatch p) then newBatch true p b else Some p) = Some p'
      /\ holds n p' (if decide (b = batch s) then s else mkRowids (past s ∪ cur s) ∅ b))
      as (p' & E & Hh').
    { rewrite (h_batch _ _ _ Hh). destruct (Z.eqb_spec b (batch s)) as [->|Hne].
      - rewrite decide_True by done. eauto.
      - rewrite decide_False by done. by apply newBatch_holds. }
    exists p'. cbn [rowSetStep specStep]. unfold sqlite3RowSetTest. rewrite E. simpl.
    set (s' := if decide _ then _ else _) in *.
    replace (forestTest (pForest p') x) with (bool_decide (x ∈ past s')).
    + split; [done|]. destruct Hh'. split; auto.
    + apply eq_true_iff_eq. rewrite forestTest_ok by apply Hh'.
      rewrite bool_decide_eq_true. symmetry. apply (h_past _ _ _ Hh').
Qed.

Lemma rowSetRun_ok n p s ops :
  holds n p s -> Z.of_nat n + Z.of_nat (length ops) < 2 ^ 40 ->
  rowSetRun p ops = Some (specRun s ops).
Proof.
  revert n p s; induction ops as [|o ops IH]; intros n p s Hh Hn; [done|].
  simpl in Hn |- *. destruct (rowSetStep_ok n p s o Hh) as (p' & -> & Hh'); [lia|].
  destruct (specStep s o) as [r s'] eqn:E. simpl in *.
  rewrite (IH (S n) p' s' Hh') by lia. done.
Qed.

Lemma init_holds N p :
  sqlite3RowSetInit (Some N) = Some p -> holds 0 p (mkRowids ∅ ∅ 0).
Proof.
  intros [= <-]. split; simpl; auto; [by apply sorted_empty_ok|constructor|set_solver|set_solver].
Qed.

(** ** Extraction *)

(** The rowids that successive calls of [sqlite3RowSetNext] return, until one
    returns 0. *)
Fixpoint extract (calls : nat) (p : RowSet) : option (list Z) :=
  match calls with
  | O => None
  | S n =>
      '(r, p) ← sqlite3RowSetNext p;
      match r with
      | None => Some []
      | Some v => l ← extract n p; Some (v :: l)
      end
  end.

Lemma extract_ok l p :
  pEntry p = l -> hasFlag p ROWSET_NEXT = true -> extract (S (length l)) p = Some l.
Proof.
  revert p; induction l as [|v l IH]; intros p He Hf.
  - cbn -[hasFlag]. unfold sqlite3RowSetNext. rewrite Hf. simpl. rewrite He. done.
  - simpl length. remember (S (length l)) as n. simpl. unfold sqlite3RowSetNext.
    rewrite Hf. simpl. rewrite He. simpl. destruct l as [|w l].
    + subst n. done.
    + subst n. rewrite IH by done. done.
Qed.

(** The first call sorts; the others take the entries one by one. *)
Lemma extract_first p :
  entries_ok p -> Z.of_nat (length (pEntry p)) < 2 ^ 40 ->
  exists l, extract (S (length l)) p = Some l /\ ascending l
    /\ (forall x, x ∈ l <-> x ∈ pEntry p).
Proof.
  intros Hen Hlen. destruct (sorted_entries p Hen Hlen) as (e & Ee & Hasc & Hel).
  exists e. split; [|done].
  set (q := mkRowSet (nChunk p) e (nFresh p) (pForest p)
              (Z.lor (rsFlags p) (Z.lor ROWSET_SORTED ROWSET_NEXT)) (iBatch p)).
  assert (hasFlag q ROWSET_NEXT = true) as Hq
    by (unfold q, hasFlag; simpl; by destruct (en_flags p Hen) as [-> | ->]).
  rewrite <- (extract_ok e q) by done. cbn [extract].
  assert (sqlite3RowSetNext p = sqlite3RowSetNext q) as ->; [|done].
  unfold sqlite3RowSetNext. rewrite Hq. destruct (hasFlag_sorted p Hen) as [-> _]. simpl.
  by rewrite Ee.
Qed.

Lemma inserts_ok l p :
  entries_ok p ->
  let q := foldl (sqlite3RowSetInsert true) p l in
  entries_ok q /\ pEntry q = pEntry p ++ l.
Proof.
  revert p; induction l as [|x l IH]; intros p Hen; simpl; [by rewrite app_nil_r|].
  destruct (insert_entries p x Hen) as (He & Ee & _ & _).
  destruct (IH _ He) as [H1 H2]. split; [done|]. rewrite H2, Ee. by rewrite <- app_assoc.
Qed.

(** ** Correctness *)

(** C26: for any sequence of fewer than 2^40 insertions and tests on a new
    rowset, with an allocator that does not fail, [sqlite3RowSetTest] answers
    1 exactly for the rowids that were inserted before the batch number last
    changed.  The lists, the sort buckets and the forest of trees are
    invisible from outside. *)
Theorem sqlite3RowSetTest_refines N p ops :
  sqlite3RowSetInit (Some N) = Some p -> Z.of_nat (length ops) < 2 ^ 40 ->
  rowSetRun p ops = Some (specRun (mkRowids ∅ ∅ 0) ops).
Proof.
  intros Hi Hn. apply (rowSetRun_ok 0); [by eapply init_holds|lia].
Qed.

Lemma sqlite3RowSetTest_refines_witness :
  match sqlite3RowSetInit (Some 104) with
  | Some p =>
      rowSetRun p [OpInsert 5; OpInsert 2; OpTest 1 5; OpInsert 7; OpInsert 2; OpTest 1 7;
                   OpTest 2 7; OpTest 2 3] =
      Some [None; None; Some true; None; None; Some false; Some true; Some false]
  | None => False
  end.
Proof.
  destruct (sqlite3RowSetInit (Some 104)) as [p|] eqn:E; [|discriminate E].
  rewrite (sqlite3RowSetTest_refines 104 p) by (exact E || (simpl; lia)).
  vm_compute. reflexivity.
Defined.

(** After any fewer than 2^40 insertions into a new rowset, successive
    calls of [sqlite3RowSetNext] return every inserted rowid once, in
    increasing order, and then 0. *)
Theorem sqlite3RowSetNext_ascending N p l :
  sqlite3RowSetInit (Some N) = Some p -> Z.of_nat (length l) < 2 ^ 40 ->
  exists l', extract (S (length l')) (foldl (sqlite3RowSetInsert true) p l) = Some l'
    /\ ascending l' /\ (forall x, x ∈ l' <-> x ∈ l).
Proof.
  intros Hi Hn. destruct (init_holds N p Hi) as [Hen _ _ _ _ _].
  destruct (inserts_ok l p Hen) as [H1 H2].
  assert (pEntry p = []) as He by (by injection Hi as <-). rewrite He in H2. simpl in H2.
  destruct (extract_first _ H1) as (l' & E & Hasc & Hel); [by rewrite H2|].
  exists l'. split_and!; [done|done|]. by rewrite <- H2.
Qed.

Lemma sqlite3RowSetNext_ascending_witness :
  match sqlite3RowSetInit (Some 56) with
  | Some p => exists l', ascending l' /\
      extract (S (length l')) (foldl (sqlite3RowSetInsert true) p [9; 4; 9; -1; 6]) = Some l'
  | None => False
  end.
Proof.
  destruct (sqlite3RowSetInit (Some 56)) as [p|] eqn:E; [|discriminate E].
  destruct (sqlite3RowSetNext_ascending 56 p [9; 4; 9; -1; 6] E) as (l' & H1 & H2 & H3);
    [simpl; lia|].
  exists l'. split; assumption.
Defined.

(** [rowSetListToTree] makes a search tree of a sorted list without losing
    or reordering an entry, and the tree is balanced: its height, which bounds
    the turns of the search loop of [sqlite3RowSetTest], is at most one more
    than the logarithm of the number of entries. *)
Theorem rowSetListToTree_balanced l :
  rowSetTreeToList (rowSetListToTree l) = l
  /\ (height (rowSetListToTree l) <= S (Nat.log2 (length l)))%nat.
Proof.
  destruct (rowSetListToTree_ok l) as [H1 H2]. split; [done|].
  destruct l as [|v l]; [simpl; lia|]. specialize (H2 ltac:(done)).
  apply Nat.log2_le_mono in H2. rewrite Nat.log2_pow2 in H2 by lia. lia.
Qed.
