(* ===== verification/Hash.v ===== *)
(** * src/libsql-sqlite3/src/hash.c: the hash table of names

    All elements are on one doubly-linked list; a bucket points to the first
    of its elements, which are adjacent on that list.  The memory is modelled
    as it is: a heap from addresses to elements, with 0 for NULL, in which
    the operations load, store, allocate and free; an access to an address
    that is not allocated gives [None].  A key is the string it points to, and
    [data] is an address. *)

From stdpp Require Import base list numbers option gmap sets.
From S2P Require Import Prelude Cstring Dlist.
#[local] Open Scope Z_scope.

(** ** Data *)

Record HashElem := mkElem { e_next : Z; e_prev : Z; data : Z; pKey : list Z }.

#[export] Instance linked_elem : Linked HashElem (Z * list Z).
Proof.
  refine {| next := e_next; prev := e_prev; cargo e := (data e, pKey e);
            set_next a e := mkElem a (e_prev e) (data e) (pKey e);
            set_prev a e := mkElem (e_next e) a (data e) (pKey e) |}; reflexivity.
Defined.

(** [struct _ht]: a bucket. *)
Record bucket := mkBucket { nElem : Z; chain : Z }.

(** [ht] is [None] when the pointer is 0. *)
Record Hash := mkHash { htsize : Z; count : Z; first : Z; ht : option (list bucket) }.

Abbreviation heap := (gmap Z HashElem).

Definition set_first (pH : Hash) (a : Z) : Hash := mkHash (htsize pH) (count pH) a (ht pH).
Definition set_count (pH : Hash) (n : Z) : Hash := mkHash (htsize pH) n (first pH) (ht pH).
Definition set_ht (pH : Hash) (t : option (list bucket)) : Hash :=
  mkHash (htsize pH) (count pH) (first pH) t.

(** ** The code *)

Definition sqlite3HashInit : Hash := mkHash 0 0 0 None.

(** The [while] loop that frees the elements; [fuel] is their number. *)
Fixpoint freeLoop (fuel : nat) (elem : Z) (m : heap) : option heap :=
  if elem =? 0 then Some m else
  match fuel with
  | O => None
  | S f => e ← m !! elem; freeLoop f (next e) (delete elem m)
  end.

Definition sqlite3HashClear (pH : Hash) (m : heap) : option (Hash * heap) :=
  m ← freeLoop (Z.to_nat (count pH)) (first pH) m;
  Some (mkHash 0 0 0 None, m).

(** The second half of [insertElement]: link [pNew] into the list, before
    [pHead] when there is one. *)
Definition linkElement (pH : Hash) (m : heap) (pHead pNew : Z) : option (Hash * heap) :=
  if negb (pHead =? 0) then
    m ← store (set_next pHead) pNew m;
    head ← m !! pHead;
    m ← store (set_prev (prev head)) pNew m;
    '(pH, m) ←
      (if negb (prev head =? 0) then m ← store (set_next pNew) (prev head) m; Some (pH, m)
       else Some (set_first pH pNew, m));
    m ← store (set_prev pNew) pHead m;
    Some (pH, m)
  else
    m ← store (set_next (first pH)) pNew m;
    m ← (if negb (first pH =? 0) then store (set_prev pNew) (first pH) m else Some m);
    m ← store (set_prev 0) pNew m;
    Some (set_first pH pNew, m).

(** [pEntry]: the index of the bucket, [None] for the pointer 0. *)
Definition insertElement (pH : Hash) (m : heap) (pEntry : option nat) (pNew : Z)
    : option (Hash * heap) :=
  '(pHead, pH) ←
    match pEntry with
    | None => Some (0, pH)
    | Some h =>
        t ← ht pH;
        b ← t !! h;
        Some (if nElem b =? 0 then 0 else chain b,
              set_ht pH (Some (<[h := mkBucket (u32 (nElem b + 1)) pNew]> t)))
    end;
  linkElement pH m pHead pNew.

Definition SQLITE_MALLOC_SOFT_LIMIT : Z := 1024.
Definition sizeof_ht : Z := 16.

Definition hashIndex (k : list Z) (n : Z) : nat := Z.to_nat (strHash k mod n).

(** [for(elem=pH->first, pH->first=0; elem; elem = next_elem)]. *)
Fixpoint rehashLoop (fuel : nat) (elem : Z) (pH : Hash) (m : heap) : option (Hash * heap) :=
  if elem =? 0 then Some (pH, m) else
  match fuel with
  | O => None
  | S f =>
      e ← m !! elem;
      '(pH, m) ← insertElement pH m (Some (hashIndex (pKey e) (htsize pH))) elem;
      rehashLoop f (next e) pH m
  end.

(** What [sqlite3Malloc] returns for the buckets: [None] for a failure, and
    otherwise what [sqlite3MallocSize] says of the block. *)
Definition rehash (mallocSize : Z -> option Z) (pH : Hash) (m : heap) (new_size : Z)
    : option (bool * Hash * heap) :=
  let new_size :=
    if new_size * sizeof_ht >? SQLITE_MALLOC_SOFT_LIMIT
    then SQLITE_MALLOC_SOFT_LIMIT / sizeof_ht else new_size in
  if new_size =? htsize pH then Some (false, pH, m) else
  match mallocSize (new_size * sizeof_ht) with
  | None => Some (false, pH, m)
  | Some bytes =>
      let new_size := u32 (bytes / sizeof_ht) in
      let new_ht := replicate (Z.to_nat new_size) (mkBucket 0 0) in
      '(pH, m) ← rehashLoop (Z.to_nat (count pH)) (first pH)
                            (mkHash new_size (count pH) 0 (Some new_ht)) m;
      Some (true, pH, m)
  end.

(** The [while] loop; 0 stands for [&nullElement]. *)
Fixpoint findLoop (count : nat) (elem : Z) (m : heap) (k : list Z) : option Z :=
  match count with
  | O => Some 0
  | S n =>
      e ← m !! elem;
      if sqlite3StrICmp (pKey e) k =? 0 then Some elem else findLoop n (next e) m k
  end.

(** The element and the hash. *)
Definition findElementWithHash (pH : Hash) (m : heap) (k : list Z) : option (Z * nat) :=
  '(h, elem, n) ←
    match ht pH with
    | Some t =>
        let h := hashIndex k (htsize pH) in
        b ← t !! h;
        Some (h, chain b, nElem b)
    | None => Some (0%nat, first pH, count pH)
    end;
  elem ← findLoop (Z.to_nat n) elem m k;
  Some (elem, h).

Definition removeElementGivenHash (pH : Hash) (m : heap) (elem : Z) (h : nat)
    : option (Hash * heap) :=
  e ← m !! elem;
  '(pH, m) ←
    (if negb (prev e =? 0) then m ← store (set_next (next e)) (prev e) m; Some (pH, m)
     else Some (set_first pH (next e), m));
  m ← (if negb (next e =? 0) then store (set_prev (prev e)) (next e) m else Some m);
  pH ←
    match ht pH with
    | Some t =>
        b ← t !! h;
        let chain := if chain b =? elem then next e else chain b in
        Some (set_ht pH (Some (<[h := mkBucket (u32 (nElem b - 1)) chain]> t)))
    | None => Some pH
    end;
  let m := delete elem m in
  let pH := set_count pH (u32 (count pH - 1)) in
  if count pH =? 0 then sqlite3HashClear pH m else Some (pH, m).

(** The [data] of the element found, 0 for [nullElement]. *)
Definition dataOf (m : heap) (elem : Z) : option Z :=
  if elem =? 0 then Some 0 else data <$> m !! elem.

Definition sqlite3HashFind (pH : Hash) (m : heap) (k : list Z) : option Z :=
  '(elem, _) ← findElementWithHash pH m k;
  dataOf m elem.

(** [new_elem]: the address that [sqlite3Malloc] returns for an element, 0
    when it fails. *)
Definition sqlite3HashInsert (mallocSize : Z -> option Z) (new_elem : Z)
    (pH : Hash) (m : heap) (k : list Z) (d : Z) : option (Z * Hash * heap) :=
  '(elem, h) ← findElementWithHash pH m k;
  old_data ← dataOf m elem;
  if negb (old_data =? 0) then
    if d =? 0 then
      '(pH, m) ← removeElementGivenHash pH m elem h;
      Some (old_data, pH, m)
    else
      m ← store (fun e => mkElem (next e) (prev e) d k) elem m;
      Some (old_data, pH, m)
  else if d =? 0 then Some (0, pH, m)
  else if new_elem =? 0 then Some (d, pH, m)
  else
    let m := <[new_elem := mkElem 0 0 d k]> m in
    let pH := set_count pH (u32 (count pH + 1)) in
    '(pH, m, h) ←
      (if (count pH >=? 10) && (count pH >? u32 (2 * htsize pH)) then
         '(ok, pH, m) ← rehash mallocSize pH m (u32 (count pH * 2));
         Some (pH, m, if ok : bool then hashIndex k (htsize pH) else h)
       else Some (pH, m, h));
    '(pH, m) ← insertElement pH m (match ht pH with Some _ => Some h | None => None end) new_elem;
    Some (0, pH, m).

(** ** The doubly-linked list *)

Abbreviation linked := (linkable (fun a => a =? 0)).

Lemma linked_not_0 l : 0 ∉ l -> linked l.
Proof. intros H0. apply Forall_forall. intros a Ha. apply Z.eqb_neq. by intros ->. Qed.

Lemma set_first_id pH : set_first pH (first pH) = pH.
Proof. by destruct pH. Qed.

(** The assignment to the [next] of the last element of [l1], or to
    [pH->first] when there is none. *)
Lemma linkFirst pH m2 m3 l1 x d :
  (if negb (endOf 0 l1 =? 0) then store (set_next x) (endOf 0 l1) m2 else Some m2) = Some m3 ->
  0 ∉ l1 -> first pH = hd d l1 ->
  (if negb (endOf 0 l1 =? 0) then m ← store (set_next x) (endOf 0 l1) m2; Some (pH, m)
   else Some (set_first pH x, m2)) = Some (set_first pH (hd x l1), m3).
Proof.
  intros E3 H0 Hfirst. destruct l1 as [|z l1 _] using rev_ind; [by injection E3 as ->|].
  rewrite endOf_snoc in *. rewrite (proj2 (Z.eqb_neq z 0)) in * by set_solver.
  cbn [negb] in *. rewrite E3. simpl. rewrite !hd_app in *. simpl in *.
  by rewrite <- Hfirst, set_first_id.
Qed.

(** Link [x] between [l1] and [l2]. *)
Lemma linkElement_ok pH m x e l1 l2 pHead :
  dll m 0 (l1 ++ l2) 0 -> NoDup (l1 ++ x :: l2) -> 0 ∉ l1 ++ x :: l2 -> m !! x = Some e ->
  first pH = hd 0 (l1 ++ l2) ->
  (pHead = 0 /\ l1 = [] \/ pHead = hd 0 l2 /\ l2 <> []) ->
  exists m', linkElement pH m pHead x = Some (set_first pH (hd 0 (l1 ++ x :: l2)), m')
    /\ dll m' 0 (l1 ++ x :: l2) 0 /\ relinked (l1 ++ x :: l2) m m'.
Proof.
  intros Hd Hnd H0 Hx Hfirst Hhead. unfold linkElement.
  apply dll_app in Hd as [Hd1 Hd2].
  apply NoDup_app in Hnd as (Hnd1 & Hdis & Hnd2). apply NoDup_cons in Hnd2 as [Hx2 Hnd2].
  assert (x ∉ l1) as Hx1 by (intros H; by apply (Hdis x H), elem_of_cons; left).
  apply not_elem_of_app in H0 as [H01 [H0x H02]%not_elem_of_cons].
  destruct Hhead as [[-> ->]|[-> Hne]]; simpl.
  - simpl in *. rewrite Hfirst. erewrite store_ok by done. simpl.
    pose proof (dll_insert_apart _ _ _ _ x (set_next (hd 0 l2) e) Hx2 Hd2) as Hd'.
    destruct (relink_begin (fun a => a =? 0) 0 eq_refl _ _ _ x 0 Hd') as (m1 & E1 & Hd1' & Hr);
      [done|by apply linked_not_0|]. cbv beta in E1. rewrite E1.
    assert (m1 !! x = Some (set_next (hd 0 l2) e)) as Hx'
      by (rewrite (proj2 Hr) by done; apply lookup_insert_eq).
    simpl. erewrite store_ok by done. simpl. eexists. split; [done|]. split; [split|].
    + eexists. rewrite lookup_insert_eq. done.
    + by apply dll_insert_apart.
    + eapply relinked_insert; [|by left|done|done].
      eapply relinked_trans; [|eapply relinked_mono; [|done]; intros b Hb; by right].
      eapply relinked_insert; [done|by left|done|done].
  - destruct l2 as [|y l2]; [done|]. simpl.
    apply not_elem_of_cons in Hx2 as [Hxy Hx2]. apply not_elem_of_cons in H02 as [H0y H02].
    apply NoDup_cons in Hnd2 as [Hy2 Hnd2].
    assert (y ∉ l1) as Hy1 by (intros H; apply (Hdis y H), elem_of_cons; right; by left).
    rewrite (proj2 (Z.eqb_neq y 0)) by done. simpl.
    destruct Hd2 as [(ey & Hy & Hpy & Hny) Hd2].
    erewrite store_ok by done. simpl. apart. rewrite Hy. simpl.
    erewrite store_ok by apply lookup_insert_eq. simpl. rewrite insert_insert_eq, Hpy.
    set (m2 := <[x := _]> m).
    pose proof (dll_insert_apart _ _ _ _ x _ Hx1 Hd1 : dll m2 0 l1 y) as Hd1'.
    destruct (relink_end (fun a => a =? 0) 0 eq_refl _ _ x _ Hd1') as (m3 & E3 & Hd3 & Hr3);
      [done|by apply linked_not_0|].
    rewrite hd_app in Hfirst |- *. rewrite (linkFirst pH m2 m3 l1 x _ E3 H01 Hfirst). simpl.
    assert (m3 !! y = Some ey) as Hy3 by (rewrite (proj2 Hr3) by done; unfold m2; by apart).
    erewrite store_ok by done. simpl. eexists. split; [done|]. split.
    + apply dll_app. split; [by apply dll_insert_apart|]. split.
      * eexists. apart. rewrite (proj2 Hr3) by done. unfold m2. rewrite lookup_insert_eq. done.
      * apply (dll_set_prev _ (endOf 0 l1)); [|done|done]. split; [by eexists|].
        apply (dll_frame m); [|done]. intros a Ha.
        rewrite (proj2 Hr3); [unfold m2; by apart|]. intros Ha1.
        by apply (Hdis a Ha1), elem_of_cons; right; right.
    + eapply relinked_insert; [| |done|done]; [|by apply elem_of_app; right; right; left].
      apply (relinked_trans _ _ m2); [eapply relinked_insert; [done| |done|done]|].
      * by apply elem_of_app; right; left.
      * eapply relinked_mono; [|done]. intros b Hb. apply elem_of_app. by left.
Qed.

(** Unlink [x]. *)
Lemma unlink_ok pH m x e l1 l2 :
  dll m 0 (l1 ++ x :: l2) 0 -> NoDup (l1 ++ x :: l2) -> 0 ∉ l1 ++ x :: l2 ->
  first pH = hd 0 (l1 ++ x :: l2) -> m !! x = Some e ->
  exists m1 m2,
    (if negb (prev e =? 0) then m ← store (set_next (next e)) (prev e) m; Some (pH, m)
     else Some (set_first pH (next e), m)) = Some (set_first pH (hd 0 (l1 ++ l2)), m1)
    /\ (if negb (next e =? 0) then store (set_prev (prev e)) (next e) m1 else Some m1) = Some m2
    /\ next e = hd 0 l2 /\ dll m2 0 (l1 ++ l2) 0 /\ relinked (l1 ++ l2) m m2.
Proof.
  intros Hd Hnd H0 Hfirst Hx.
  destruct (dll_elem _ _ _ _ _ _ Hd) as (e' & Hx' & Hp & Hn). simplify_eq. rewrite Hp, Hn.
  destruct (relink_around (fun a => a =? 0) 0 eq_refl _ _ _ _ Hd Hnd (linked_not_0 _ H0))
    as (m1 & m2 & E1 & E2 & Hd' & Hr).
  apply not_elem_of_app in H0 as [H01 _].
  rewrite hd_app in Hfirst |- *. rewrite (linkFirst _ _ _ _ _ _ E1 H01 Hfirst). by exists m1, m2.
Qed.

(** ** Groups

    The list is the concatenation of groups, one for each bucket that is not
    empty; [idx] gives the bucket of an element. *)
Abbreviation groups := (list (nat * list Z)).

Definition flat (gs : groups) : list Z := concat gs.*2.

Record grouped (idx : Z -> nat) (gs : groups) (t : list bucket) : Prop := {
  gr_nodup : NoDup gs.*1;
  gr_group : forall h s, (h, s) ∈ gs -> s <> [] /\ forall a, a ∈ s -> idx a = h;
  gr_full : forall h s b, (h, s) ∈ gs -> t !! h = Some b ->
            nElem b = Z.of_nat (length s) /\ chain b = hd 0 s;
  gr_empty : forall h b, h ∉ gs.*1 -> t !! h = Some b -> nElem b = 0
}.

Lemma flat_app gs gs' : flat (gs ++ gs') = flat gs ++ flat gs'.
Proof. unfold flat. by rewrite fmap_app, concat_app. Qed.

Lemma elem_flat a gs : a ∈ flat gs <-> exists h s, (h, s) ∈ gs /\ a ∈ s.
Proof.
  unfold flat. induction gs as [|[h s] gs IH]; simpl; [set_solver|].
  rewrite elem_of_app, IH. set_solver.
Qed.

(** A bucket whose group is replaced, is dropped, or appears. *)
Lemma grouped_replace idx g1 h s g2 s' t b :
  grouped idx (g1 ++ (h, s) :: g2) t -> s' <> [] -> (forall a, a ∈ s' -> idx a = h) ->
  nElem b = Z.of_nat (length s') -> chain b = hd 0 s' ->
  grouped idx (g1 ++ (h, s') :: g2) (<[h := b]> t).
Proof.
  intros [Hnd Hg Hf He] Hne Hidx Hn Hc. rewrite fmap_app in Hnd. simpl in Hnd.
  assert ((h ∉ g1.*1) /\ (h ∉ g2.*1)) as [H1 H2].
  { apply NoDup_app in Hnd as (_ & Hdis & [Hh _]%NoDup_cons). split; [|done].
    intros H. apply (Hdis h H). by left. }
  assert (forall h' u, (h', u) ∈ g1 ++ (h, s') :: g2 ->
    (h' = h /\ u = s') \/ (h' <> h /\ (h', u) ∈ g1 ++ (h, s) :: g2)) as Hcase.
  { intros h' u. rewrite !elem_of_app, !elem_of_cons.
    intros [Hin|[[= -> ->]|Hin]]; [right|by left|right]; (split; [|by auto]); intros ->;
      [apply H1|apply H2]; apply list_elem_of_fmap; by eexists (_, _). }
  split.
  - rewrite fmap_app. done.
  - intros h' u [[-> ->]|[_ Hin]]%Hcase; [done|by apply Hg].
  - intros h' u c [[-> ->]|[Hne' Hin]]%Hcase.
    + intros [(_ & <- & _)|[? _]]%list_lookup_insert_Some; [done|done].
    + rewrite list_lookup_insert_ne by done. by apply Hf.
  - intros h' c. rewrite fmap_app. simpl. intros Hh'.
    rewrite list_lookup_insert_ne by set_solver. apply He. by rewrite fmap_app.
Qed.

Lemma grouped_drop idx g1 h s g2 t b :
  grouped idx (g1 ++ (h, s) :: g2) t -> nElem b = 0 ->
  grouped idx (g1 ++ g2) (<[h := b]> t).
Proof.
  intros [Hnd Hg Hf He] Hn. rewrite fmap_app in Hnd. simpl in Hnd.
  assert ((h ∉ g1.*1) /\ (h ∉ g2.*1) /\ NoDup (g1.*1 ++ g2.*1)) as (H1 & H2 & Hnd').
  { rewrite <- Permutation_middle in Hnd. apply NoDup_cons in Hnd as [Hh Hnd]. set_solver. }
  assert (forall h' u, (h', u) ∈ g1 ++ g2 -> h' <> h /\ (h', u) ∈ g1 ++ (h, s) :: g2) as Hcase.
  { intros h' u. rewrite !elem_of_app, !elem_of_cons. intros Hin. split; [|tauto]. intros ->.
    destruct Hin as [Hin|Hin]; [apply H1|apply H2]; apply list_elem_of_fmap; by eexists (_, _). }
  split.
  - by rewrite fmap_app.
  - intros h' u [_ Hin]%Hcase. by apply Hg.
  - intros h' u c [Hne Hin]%Hcase. rewrite list_lookup_insert_ne by done. by apply Hf.
  - intros h' c Hh'. destruct (decide (h' = h)) as [->|Hne].
    + intros [(_ & <- & _)|[? _]]%list_lookup_insert_Some; done.
    + rewrite list_lookup_insert_ne by done. apply He. rewrite fmap_app in *. set_solver.
Qed.

Lemma grouped_add idx gs h x t b :
  grouped idx gs t -> h ∉ gs.*1 -> idx x = h -> nElem b = 1 -> chain b = x ->
  grouped idx ((h, [x]) :: gs) (<[h := b]> t).
Proof.
  intros [Hnd Hg Hf He] Hh Hx Hn Hc.
  assert (forall h' u, (h', u) ∈ gs -> h' <> h) as Hne.
  { intros h' u Hin ->. apply Hh, list_elem_of_fmap. by exists (h, u). }
  split.
  - by apply NoDup_cons.
  - intros h' u [[= -> ->]|Hin]%elem_of_cons; [|by apply Hg]. set_solver.
  - intros h' u c [[= -> ->]|Hin]%elem_of_cons.
    + intros [(_ & <- & _)|[? _]]%list_lookup_insert_Some; done.
    + rewrite list_lookup_insert_ne by (intros ->; by eapply Hne). by apply Hf.
  - intros h' c Hh'. simpl in Hh'. rewrite list_lookup_insert_ne by set_solver.
    apply He. set_solver.
Qed.

Lemma grouped_ext idx idx' gs t :
  (forall a, a ∈ flat gs -> idx' a = idx a) -> grouped idx gs t -> grouped idx' gs t.
Proof.
  intros Heq [Hnd Hg Hf He]. split; [done| |done|done].
  intros h s Hin. destruct (Hg h s Hin) as [Hne Ha]. split; [done|].
  intros a Has. rewrite Heq; [by apply Ha|]. apply elem_flat. eauto.
Qed.

(** ** The invariant of the table *)

Definition keyOf (m : heap) (a : Z) : list Z := default [] (snd <$> payload m a).

Definition idx (m : heap) (n : Z) (a : Z) : nat := hashIndex (keyOf m a) n.

Definition ht_ok (pH : Hash) (m : heap) (l : list Z) : Prop :=
  match ht pH with
  | None => htsize pH = 0
  | Some t => Z.of_nat (length t) = htsize pH /\ 0 < htsize pH
      /\ exists gs, l = flat gs /\ grouped (idx m (htsize pH)) gs t
  end.

(** An element of the table: its data is not NULL. *)
Definition elem_ok (m : heap) (a : Z) : Prop :=
  exists d k, payload m a = Some (d, k) /\ d <> 0 /\ cstring k.

Definition max_elems : Z := 2 ^ 31.

(** The elements at the addresses [l] are linked in this order and belong to
    their buckets. *)
Record listed (pH : Hash) (m : heap) (l : list Z) : Prop := {
  li_dll : dll m 0 l 0;
  li_nodup : NoDup l;
  li_null : 0 ∉ l;
  li_first : first pH = hd 0 l;
  li_elem : forall a, a ∈ l -> elem_ok m a;
  li_ht : ht_ok pH m l
}.

Lemma same_idx m m' n a : same m m' -> idx m' n a = idx m n a.
Proof. intros Hs. unfold idx, keyOf. by rewrite Hs. Qed.

Lemma same_elem m m' a : same m m' -> elem_ok m a -> elem_ok m' a.
Proof. intros Hs. unfold elem_ok. by rewrite Hs. Qed.

Lemma hashIndex_lt k n : 0 < n -> Z.of_nat (hashIndex k n) < n.
Proof. intros. unfold hashIndex. pose proof (Z.mod_pos_bound (strHash k) n). lia. Qed.

Lemma group_split (h : nat) (gs : groups) : h ∈ gs.*1 -> exists g1 s g2, gs = g1 ++ (h, s) :: g2.
Proof.
  intros ([h' s] & -> & Hin)%list_elem_of_fmap.
  apply list_elem_of_split in Hin as (g1 & g2 & ->). eauto.
Qed.

Lemma group_unique (h : nat) (gs : groups) s s' :
  NoDup gs.*1 -> (h, s) ∈ gs -> (h, s') ∈ gs -> s = s'.
Proof.
  assert (forall (g : groups) u, (h, u) ∈ g -> h ∈ g.*1) as Hin
    by (intros g u Hu; apply list_elem_of_fmap; by exists (h, u)).
  induction gs as [|[h0 s0] gs IH]; [set_solver|]. simpl. intros [H0 Hnd]%NoDup_cons.
  intros [E1|H1]%elem_of_cons [E2|H2]%elem_of_cons; simplify_eq; auto; destruct H0; eauto.
Qed.

Lemma elem_ok_some m a : elem_ok m a -> exists e, m !! a = Some e.
Proof. intros (d & k & Hp & _). unfold payload in Hp. destruct (m !! a); [eauto|discriminate]. Qed.

(** The bucket part of [insertElement]: the place of [x] in the list. *)
Lemma bucket_place pH m l t x k :
  listed pH m l -> ht pH = Some t -> Z.of_nat (length l) < max_elems ->
  let h := hashIndex k (htsize pH) in
  idx m (htsize pH) x = h ->
  exists b l1 l2 t', t !! h = Some b /\ l = l1 ++ l2
    /\ (let pHead := if nElem b =? 0 then 0 else chain b in
        pHead = 0 /\ l1 = [] \/ pHead = hd 0 l2 /\ l2 <> [])
    /\ t' = <[h := mkBucket (u32 (nElem b + 1)) x]> t
    /\ exists gs, l1 ++ x :: l2 = flat gs /\ grouped (idx m (htsize pH)) gs t'.
Proof.
  intros [Hd Hnd H0 Hf He Ht] Et Hlen h Hx. unfold ht_ok in Ht. rewrite Et in Ht.
  destruct Ht as (Hlt & Hpos & gs & -> & Hg).
  destruct (lookup_lt_is_Some_2 t h) as [b Hb]; [pose proof (hashIndex_lt k (htsize pH)); lia|].
  destruct (decide (h ∈ gs.*1)) as [(g1 & s & g2 & ->)%group_split|Hh].
  - destruct (gr_full _ _ _ Hg h s b) as [Hn Hc]; [set_solver|done|].
    destruct (gr_group _ _ _ Hg h s) as [Hne Hidx]; [set_solver|].
    rewrite flat_app in Hlen |- *. change (flat ((h, s) :: g2)) with (s ++ flat g2) in *.
    destruct s as [|a s]; [done|].
    assert (a <> 0) by (intros ->; apply H0; rewrite flat_app; set_solver).
    exists b, (flat g1), ((a :: s) ++ flat g2). eexists. split; [done|]. split; [done|]. split.
    { right. rewrite Hn, Hc. simpl. done. }
    split; [done|]. exists (g1 ++ (h, x :: a :: s) :: g2). split; [by rewrite flat_app|].
    eapply grouped_replace; [done|done| | |done]; simpl in *.
    + intros c [->|Hcs]%elem_of_cons; [done|by apply Hidx].
    + rewrite Hn. rewrite length_app in Hlen. simpl in Hlen. rewrite length_app in Hlen.
      unfold max_elems in Hlen. rewrite u32_small; lia.
  - pose proof (gr_empty _ _ _ Hg h b Hh Hb) as Hn.
    exists b, [], (flat gs). eexists. split; [done|]. split; [done|]. rewrite Hn. split; [by left|].
    split; [done|]. exists ((h, [x]) :: gs). split; [done|]. by apply grouped_add.
Qed.

Lemma payload_key m a d k : payload m a = Some (d, k) -> keyOf m a = k.
Proof. unfold keyOf. by intros ->. Qed.

(** A new element goes into the list and into its bucket. *)
Lemma insertElement_ok pH m l x d k h :
  listed pH m l -> Z.of_nat (length l) < max_elems ->
  x ∉ l -> x <> 0 -> payload m x = Some (d, k) -> d <> 0 -> cstring k ->
  (is_Some (ht pH) -> h = hashIndex k (htsize pH)) ->
  exists pH' m' l',
    insertElement pH m (match ht pH with Some _ => Some h | None => None end) x = Some (pH', m')
    /\ listed pH' m' l' /\ l' ≡ₚ x :: l /\ relinked (x :: l) m m'
    /\ htsize pH' = htsize pH /\ count pH' = count pH /\ (is_Some (ht pH) -> is_Some (ht pH')).
Proof.
  intros Hl Hlen Hx Hx0 Hp Hd0 Hk Hh. pose proof Hl as [Hd Hnd H0 Hf He Ht].
  destruct (m !! x) as [e|] eqn:Hm; [|unfold payload in Hp; by rewrite Hm in Hp].
  assert (exists l1 l2 pHead pH1, l = l1 ++ l2
    /\ (pHead = 0 /\ l1 = [] \/ pHead = hd 0 l2 /\ l2 <> [])
    /\ insertElement pH m (match ht pH with Some _ => Some h | None => None end) x
      = linkElement pH1 m pHead x
    /\ first pH1 = first pH /\ htsize pH1 = htsize pH /\ count pH1 = count pH
    /\ (is_Some (ht pH) -> is_Some (ht pH1)) /\ ht_ok pH1 m (l1 ++ x :: l2))
    as (l1 & l2 & pHead & pH1 & -> & Hplace & -> & Ef & Es & Ec & Eht & Hht).
  { unfold insertElement. destruct (ht pH) as [t|] eqn:Et.
    - rewrite (Hh ltac:(eauto)).
      destruct (bucket_place pH m l t x k) as (b & l1 & l2 & t' & Hb & -> & Hpl & -> & gs & Hgs & Hg);
        [done|done|done|by unfold idx; rewrite (payload_key _ _ _ _ Hp)|].
      eexists l1, l2, _, (set_ht pH (Some _)). split; [done|]. split; [exact Hpl|].
      split; [simpl; by rewrite Hb|]. split_and!; [done|done|done|by eexists|].
      unfold ht_ok in *. rewrite Et in Ht. simpl. rewrite length_insert.
      destruct Ht as (Hlt & Hpos & _). eauto.
    - eexists [], l, 0, pH. split; [done|]. split; [by left|]. split; [done|].
      split_and!; [done|done|done|done|]. unfold ht_ok in *. by rewrite Et in *. }
  assert (NoDup (l1 ++ x :: l2)) as Hnd'.
  { rewrite <- Permutation_middle. by apply NoDup_cons. }
  assert (0 ∉ l1 ++ x :: l2) as H0' by set_solver.
  destruct (linkElement_ok pH1 m x e l1 l2 pHead) as (m' & -> & Hd' & Hr);
    [done|done|done|done|congruence|done|].
  exists (set_first pH1 (hd 0 (l1 ++ x :: l2))), m', (l1 ++ x :: l2).
  assert (l1 ++ x :: l2 ≡ₚ x :: l1 ++ l2) as Hperm by (symmetry; apply Permutation_middle).
  split; [done|]. split_and!; [|done| |done|done|done].
  - split; [done|done|done|done| |].
    + intros a Ha. apply (same_elem m); [apply Hr|]. rewrite Hperm in Ha.
      apply elem_of_cons in Ha as [->|Ha]; [by exists d, k|by apply He].
    + unfold ht_ok in *. simpl. destruct (ht pH1) as [t1|]; [|done].
      destruct Hht as (H1 & H2 & gs & -> & Hg). split_and!; [done|done|]. exists gs. split; [done|].
      eapply grouped_ext; [|done]. intros a _. apply same_idx, Hr.
  - eapply relinked_mono; [|done]. by rewrite Hperm.
Qed.

(** ** Rehashing *)

(** The elements [r] of the old list go into the new one. *)
Lemma rehashLoop_ok fuel r pH m l p :
  listed pH m l -> is_Some (ht pH) -> dll m p r 0 -> NoDup (l ++ r) -> 0 ∉ r ->
  (forall a, a ∈ r -> elem_ok m a) ->
  Z.of_nat (length (l ++ r)) < max_elems -> (length r <= fuel)%nat ->
  exists pH' m' l', rehashLoop fuel (hd 0 r) pH m = Some (pH', m')
    /\ listed pH' m' l' /\ l' ≡ₚ l ++ r /\ relinked (l ++ r) m m'
    /\ htsize pH' = htsize pH /\ count pH' = count pH /\ is_Some (ht pH').
Proof.
  revert r pH m l p; induction fuel as [|f IH];
    intros r pH m l p Hl Hht Hd Hnd H0 He Hlen Hf; (destruct r as [|x r]; [|simpl in Hf; try lia]).
  1, 2: exists pH, m, l; rewrite app_nil_r; done.
  assert (x <> 0) as Hx0 by set_solver. destruct Hht as [t Et].
  destruct Hd as [(e & Hm & _ & Hn) Hd].
  destruct (He x) as (d & k & Hp & Hd0 & Hk); [by left|].
  assert (pKey e = k) as Hke by (unfold payload in Hp; rewrite Hm in Hp; by simplify_eq/=).
  assert (x ∉ l) as Hxl by (apply NoDup_app in Hnd as (_ & Hdis & _); set_solver).
  assert (l ++ x :: r ≡ₚ x :: l ++ r) as Hmid by (symmetry; apply Permutation_middle).
  rewrite Hmid in Hlen, Hnd. simpl in Hlen. apply NoDup_cons in Hnd as [Hxlr Hnd].
  destruct (insertElement_ok pH m l x d k (hashIndex k (htsize pH)))
    as (pH1 & m1 & l1 & E & Hl1 & Hperm & Hr & Es & Ec & Eht); try done.
  { rewrite length_app in Hlen. lia. }
  rewrite Et in E. cbn [rehashLoop hd]. rewrite (proj2 (Z.eqb_neq x 0)) by done.
  rewrite Hm. simpl. rewrite Hke, E, Hn. simpl.
  assert (forall a, a ∈ r -> a ∉ x :: l) as Hdis.
  { intros a Ha [->|Hal]%elem_of_cons; [set_solver|].
    apply NoDup_app in Hnd as (_ & Hdis & _). by apply (Hdis a). }
  destruct (IH r pH1 m1 l1 x) as (pH' & m' & l' & E' & Hl' & Hperm' & Hr' & Es' & Ec' & Eht').
  - done.
  - rewrite Et in Eht. eauto.
  - eapply dll_frame; [|done]. intros a Ha. by apply Hr, Hdis.
  - rewrite Hperm. simpl. by apply NoDup_cons.
  - set_solver.
  - intros a Ha. apply (same_elem m); [apply Hr|]. apply He. by right.
  - rewrite Hperm. simpl. lia.
  - lia.
  - exists pH', m', l'. split_and!; [done|done| | |congruence|congruence|done].
    + by rewrite Hperm', Hperm, Hmid.
    + eapply relinked_mono; [|eapply relinked_trans].
      * by rewrite Hmid.
      * eapply relinked_mono; [|done]. set_solver.
      * eapply relinked_mono; [|done]. by rewrite Hperm.
Qed.

(** What is known of [sqlite3Malloc] and [sqlite3MallocSize]: a block is not
    smaller than requested, and less than 64 gigabytes. *)
Definition malloc_ok (mallocSize : Z -> option Z) : Prop :=
  forall n b, mallocSize n = Some b -> n <= b < 2 ^ 36.

Lemma grouped_nil f n : grouped f [] (replicate n (mkBucket 0 0)).
Proof.
  split; [constructor|set_solver|set_solver|].
  intros h b _ [-> _]%lookup_replicate. done.
Qed.

Lemma rehash_ok mallocSize pH m l new_size :
  malloc_ok mallocSize -> listed pH m l -> 1 <= new_size ->
  Z.of_nat (length l) <= count pH -> Z.of_nat (length l) < max_elems ->
  exists ok pH' m' l', rehash mallocSize pH m new_size = Some (ok, pH', m')
    /\ listed pH' m' l' /\ l' ≡ₚ l /\ relinked l m m' /\ count pH' = count pH
    /\ (ok = true -> is_Some (ht pH')) /\ (ok = false -> pH' = pH).
Proof.
  intros Hmal Hl Hsz Hcount Hlen. unfold rehash.
  set (n := if _ >? _ then _ else new_size).
  assert (1 <= n) as Hn.
  { unfold n. destruct (_ >? _); [|done]. vm_compute. congruence. }
  destruct (n =? htsize pH); [exists false, pH, m, l; done|].
  destruct (mallocSize (n * sizeof_ht)) as [b|] eqn:Eb; [|exists false, pH, m, l; done].
  apply Hmal in Eb. unfold sizeof_ht in *.
  assert (1 <= b / 16 < 2 ^ 32) as Hb.
  { split; [apply Z.div_le_lower_bound; lia|]. apply Z.div_lt_upper_bound; lia. }
  rewrite u32_small by lia. pose proof Hl as [Hd Hnd H0 Hf He Ht].
  set (pH0 := mkHash _ _ 0 _).
  destruct (rehashLoop_ok (Z.to_nat (count pH)) l pH0 m [] 0)
    as (pH' & m' & l' & E & Hl' & Hperm & Hr & Es & Ec & Eht); try done; simpl; try lia.
  - split; simpl; [done|constructor|set_solver|done|set_solver|].
    unfold ht_ok. simpl. rewrite length_replicate. split_and!; [lia|lia|].
    exists []. split; [done|]. apply grouped_nil.
  - rewrite Hf, E. simpl. exists true, pH', m', l'. done.
Qed.

(** ** Searching *)

Definition matches (m : heap) (k : list Z) (a : Z) : Prop := fold (keyOf m a) = fold k.

Lemma hashLoop_ok m p s n k elem :
  dll m p s n -> 0 ∉ s -> (forall a, a ∈ s -> elem_ok m a) -> cstring k ->
  (s <> [] -> elem = hd 0 s) ->
  exists r, findLoop (length s) elem m k = Some r
    /\ (r = 0 /\ (forall a, a ∈ s -> ~ matches m k a) \/ r ∈ s /\ matches m k r).
Proof.
  revert p elem; induction s as [|a s IH]; intros p elem Hd H0 He Hk Helem; [exists 0; set_solver|].
  rewrite Helem by done. destruct Hd as [(e & Hm & _ & Hn) Hd]. simpl. rewrite Hm. simpl.
  destruct (He a) as (d & k' & Hp & _ & Hk'); [by left|].
  assert (pKey e = k') as -> by (unfold payload in Hp; rewrite Hm in Hp; by simplify_eq/=).
  pose proof (sqlite3StrICmp_0 k' k Hk' Hk) as Hcmp.
  assert (matches m k a <-> fold k' = fold k) as Hma
    by (unfold matches; by rewrite (payload_key _ _ _ _ Hp)).
  destruct (Z.eqb_spec (sqlite3StrICmp k' k) 0) as [E|E].
  - exists a. split; [done|]. right. split; [by left|tauto].
  - destruct (IH a (next e)) as (r & Er & Hr); [done|set_solver|set_solver|done| |].
    + intros Hs. rewrite Hn. by destruct s.
    + exists r. split; [done|]. set_solver.
Qed.

Lemma matches_idx m k n a : matches m k a -> idx m n a = hashIndex k n.
Proof. intros Hm. unfold idx, hashIndex. by rewrite (strHash_fold _ _ Hm). Qed.

Lemma findElementWithHash_ok pH m l k :
  listed pH m l -> count pH = Z.of_nat (length l) -> cstring k ->
  exists r h, findElementWithHash pH m k = Some (r, h)
    /\ (is_Some (ht pH) -> h = hashIndex k (htsize pH))
    /\ (r = 0 /\ (forall a, a ∈ l -> ~ matches m k a) \/ r ∈ l /\ matches m k r).
Proof.
  intros [Hd Hnd H0 Hf He Ht] Hc Hk. unfold findElementWithHash, ht_ok in *.
  destruct (ht pH) as [t|]; simpl.
  - destruct Ht as (Hlt & Hpos & gs & -> & Hg). set (h := hashIndex k (htsize pH)).
    destruct (lookup_lt_is_Some_2 t h) as [b Hb]; [pose proof (hashIndex_lt k (htsize pH)); lia|].
    rewrite Hb. simpl.
    assert (exists g1 s g2, flat gs = g1 ++ s ++ g2 /\ nElem b = Z.of_nat (length s)
      /\ (s <> [] -> chain b = hd 0 s)
      /\ (forall a, a ∈ flat gs -> matches m k a -> a ∈ s)) as (g1 & s & g2 & E & Hn & Hch & Hin).
    { destruct (decide (h ∈ gs.*1)) as [(g1 & s & g2 & ->)%group_split|Hh].
      - destruct (gr_full _ _ _ Hg h s b) as [Hn Hch]; [set_solver|done|].
        exists (flat g1), s, (flat g2). split_and!; [by rewrite flat_app|done|done|].
        intros a (h' & s' & Hin & Ha)%elem_flat Hm%(matches_idx _ _ (htsize pH)).
        destruct (gr_group _ _ _ Hg h' s' Hin) as [_ Hidx]. rewrite (Hidx a Ha) in Hm.
        subst h'. fold h in Hin.
        assert (s' = s) as ->; [|done].
        apply (group_unique h _ _ _ (gr_nodup _ _ _ Hg)); [done|set_solver].
      - pose proof (gr_empty _ _ _ Hg h b Hh Hb) as Hn. exists (flat gs), [], [].
        split_and!; [by rewrite app_nil_r|done|done|].
        intros a (h' & s' & Hin & Ha)%elem_flat Hm%(matches_idx _ _ (htsize pH)).
        destruct (gr_group _ _ _ Hg h' s' Hin) as [_ Hidx]. rewrite (Hidx a Ha) in Hm.
        subst h'. destruct Hh. apply list_elem_of_fmap. by exists (h, s'). }
    rewrite E in *. apply dll_app in Hd as [_ Hd]. apply dll_app in Hd as [Hd _].
    destruct (hashLoop_ok m _ s _ k (chain b) Hd) as (r & Er & Hr); [set_solver|set_solver|done|done|].
    exists r, h. rewrite Hn, Nat2Z.id, Er. split; [done|]. split; [done|].
    destruct Hr as [[-> Hr]|[Hr Hm]]; [left|right; set_solver].
    split; [done|]. intros a Ha Hm. by apply (Hr a); [apply Hin|].
  - destruct (hashLoop_ok m 0 l 0 k (first pH)) as (r & Er & Hr); [done|done|done|done|by rewrite Hf|].
    exists r, 0%nat. rewrite Hc, Nat2Z.id, Er. split; [done|]. split; [by intros [? ?]|done].
Qed.

(** ** Removing *)

(** The bucket of [x], without [x]. *)
Lemma bucket_remove m n gs t x c :
  grouped (idx m n) gs t -> x ∈ flat gs -> NoDup (flat gs) ->
  Z.of_nat (length (flat gs)) < max_elems -> t !! (idx m n x) = Some c ->
  exists l1 l2 gs', flat gs = l1 ++ x :: l2 /\ flat gs' = l1 ++ l2
    /\ grouped (idx m n) gs' (<[idx m n x :=
         mkBucket (u32 (nElem c - 1)) (if chain c =? x then hd 0 l2 else chain c)]> t).
Proof.
  intros Hg (h & s & Hin & Hx)%elem_flat Hnd Hlen Hc.
  destruct (gr_group _ _ _ Hg h s Hin) as [_ Hidx]. rewrite (Hidx x Hx) in *.
  destruct (gr_full _ _ _ Hg h s c Hin Hc) as [Hn Hch].
  apply list_elem_of_split in Hin as (g1 & g2 & ->).
  apply list_elem_of_split in Hx as (s1 & s2 & ->).
  exists (flat g1 ++ s1), (s2 ++ flat g2).
  assert (flat (g1 ++ (h, s1 ++ x :: s2) :: g2) = (flat g1 ++ s1) ++ x :: s2 ++ flat g2) as E
    by (rewrite flat_app; unfold flat; simpl; by rewrite <- !app_assoc).
  rewrite E in *. rewrite !length_app in Hlen. simpl in Hlen. rewrite length_app in Hlen.
  unfold max_elems in Hlen. rewrite length_app in Hn. simpl in Hn.
  assert (x ∉ s1) as Hx1 by (apply NoDup_app in Hnd as (_ & Hdis & _); set_solver).
  rewrite u32_small by lia. destruct (decide (s1 ++ s2 = [])) as [[-> ->]%app_eq_nil|Hne].
  - exists (g1 ++ g2). split; [done|]. split; [by rewrite flat_app, app_nil_r|].
    eapply grouped_drop; [done|]. simpl in *. lia.
  - exists (g1 ++ (h, s1 ++ s2) :: g2). split; [done|]. split.
    { rewrite flat_app. unfold flat. simpl. by rewrite <- !app_assoc. }
    eapply grouped_replace; [done|done|set_solver| |]; simpl.
    + rewrite length_app. lia.
    + rewrite Hch. destruct s1 as [|a s1]; simpl.
      * rewrite Z.eqb_refl. by destruct s2.
      * rewrite (proj2 (Z.eqb_neq a x)) by set_solver. done.
Qed.

Lemma payload_delete_ne m a b : a <> b -> payload (delete a m) b = payload m b.
Proof. intros. unfold payload. by rewrite lookup_delete_ne. Qed.

(** A table without elements is released. *)
Lemma sqlite3HashClear_ok pH m :
  first pH = 0 -> sqlite3HashClear pH m = Some (sqlite3HashInit, m).
Proof. unfold sqlite3HashClear. intros ->. by destruct (Z.to_nat (count pH)). Qed.

Lemma listed_init m : listed sqlite3HashInit m [].
Proof. split; simpl; [done|constructor|set_solver|done|set_solver|done]. Qed.

(** The place of [x], and the buckets without it. *)
Lemma remove_place pH m l x h :
  listed pH m l -> Z.of_nat (length l) < max_elems -> x ∈ l ->
  (is_Some (ht pH) -> h = idx m (htsize pH) x) ->
  exists l1 l2 t', l = l1 ++ x :: l2
    /\ match ht pH with
       | Some t => b ← t !! h;
           Some (Some (<[h := mkBucket (u32 (nElem b - 1))
                                       (if chain b =? x then hd 0 l2 else chain b)]> t))
       | None => Some None
       end = Some t'
    /\ ht_ok (set_ht pH t') m (l1 ++ l2).
Proof.
  intros [Hd Hnd H0 Hf He Ht] Hlen Hx Hh. unfold ht_ok in *.
  destruct (ht pH) as [t|] eqn:Et.
  - destruct Ht as (Hlt & Hpos & gs & -> & Hg). rewrite (Hh ltac:(eauto)).
    destruct (lookup_lt_is_Some_2 t (idx m (htsize pH) x)) as [b Hb].
    { pose proof (hashIndex_lt (keyOf m x) (htsize pH)). unfold idx. lia. }
    destruct (bucket_remove _ _ _ _ _ _ Hg Hx Hnd Hlen Hb) as (l1 & l2 & gs' & E1 & E2 & Hg').
    exists l1, l2. eexists. split; [done|]. rewrite Hb. split; [done|]. simpl.
    rewrite length_insert. eauto.
  - apply list_elem_of_split in Hx as (l1 & l2 & ->). exists l1, l2, None. done.
Qed.

Lemma removeElementGivenHash_ok pH m l x h :
  listed pH m l -> count pH = Z.of_nat (length l) -> Z.of_nat (length l) < max_elems -> x ∈ l ->
  (is_Some (ht pH) -> h = idx m (htsize pH) x) ->
  exists pH' m' l', removeElementGivenHash pH m x h = Some (pH', m')
    /\ listed pH' m' l' /\ l ≡ₚ x :: l' /\ count pH' = Z.of_nat (length l')
    /\ m' !! x = None /\ (forall a, a <> x -> payload m' a = payload m a).
Proof.
  intros Hl Hc Hlen Hx Hh. pose proof Hl as [Hd Hnd H0 Hf He Ht].
  destruct (remove_place pH m l x h Hl Hlen Hx Hh) as (l1 & l2 & t' & -> & Et & Hht).
  destruct (elem_ok_some m x (He x Hx)) as [e Hm].
  destruct (unlink_ok pH m x e l1 l2 Hd Hnd H0 Hf Hm) as (m1 & m2 & E1 & E2 & Hn & Hd2 & Hr).
  assert ((x ∉ l1 ++ l2) /\ NoDup (l1 ++ l2)) as [Hx12 Hnd12]
    by (rewrite <- Permutation_middle in Hnd; by apply NoDup_cons in Hnd).
  assert (0 ∉ l1 ++ l2) as H012 by set_solver.
  assert (removeElementGivenHash pH m x h =
    let pH := mkHash (htsize pH) (Z.of_nat (length (l1 ++ l2))) (hd 0 (l1 ++ l2)) t' in
    if count pH =? 0 then sqlite3HashClear pH (delete x m2) else Some (pH, delete x m2)) as ->.
  { unfold removeElementGivenHash. rewrite Hm. cbn [mbind option_bind]. rewrite E1. simpl.
    rewrite E2. cbn [mbind option_bind]. rewrite Hn. simpl.
    assert (u32 (count pH - 1) = Z.of_nat (length (l1 ++ l2))) as Hcnt.
    { rewrite Hc, !length_app in *. simpl in *. unfold max_elems in Hlen. rewrite u32_small; lia. }
    destruct (ht pH) as [t|] eqn:Eht.
    - destruct (t !! h) as [b|]; [|done]. simpl in Et |- *. injection Et as <-.
      unfold set_count, set_ht, set_first. simpl. by rewrite Hcnt.
    - injection Et as <-. simpl. unfold set_count, set_first. simpl. by rewrite Hcnt, Eht. }
  assert (forall a, a <> x -> payload (delete x m2) a = payload m a) as Hpay
    by (intros a Ha; rewrite payload_delete_ne by done; apply Hr).
  assert (l1 ++ x :: l2 ≡ₚ x :: l1 ++ l2) as Hperm by (symmetry; apply Permutation_middle).
  simpl. destruct (Z.eqb_spec (Z.of_nat (length (l1 ++ l2))) 0) as [Hz|Hz].
  - destruct (l1 ++ l2) as [|a l]; [|simpl in Hz; lia]. rewrite sqlite3HashClear_ok by done.
    exists sqlite3HashInit, (delete x m2), []. split; [done|].
    split; [apply listed_init|]. split_and!; [done|done|apply lookup_delete_eq|done].
  - eexists _, (delete x m2), (l1 ++ l2). split; [done|].
    split; [|split_and!; [done|done|apply lookup_delete_eq|done]].
    assert (forall a, a ∈ l1 ++ l2 -> a <> x) as Hne by (intros a Ha ->; done).
    split; simpl; [by apply dll_delete_apart|done|done|done| |].
    + intros a Ha. unfold elem_ok. rewrite Hpay by auto. apply He. set_solver.
    + unfold ht_ok in *. simpl in *. destruct t' as [t|]; [|done].
      destruct Hht as (Hlt & Hpos & gs & Hgs & Hg). split_and!; [done|done|]. exists gs. split; [done|].
      eapply grouped_ext; [|done]. intros a Ha. unfold idx, keyOf. rewrite Hpay; [done|].
      apply Hne. by rewrite Hgs.
Qed.

(** ** What the table promises: a map from names, up to case, to data *)

Abbreviation names := (gmap (list Z) Z).

(** [l] holds the elements of [M], one for each name, and nothing else is
    allocated. *)
Record holds (m : heap) (l : list Z) (M : names) : Prop := {
  ho_heap : forall a, is_Some (m !! a) <-> a ∈ l;
  ho_unique : forall a b, a ∈ l -> b ∈ l -> fold (keyOf m a) = fold (keyOf m b) -> a = b;
  ho_map : forall k v, M !! k = Some v <->
             exists a k', a ∈ l /\ payload m a = Some (v, k') /\ fold k' = k
}.

Definition represents (pH : Hash) (m : heap) (M : names) : Prop :=
  exists l, listed pH m l /\ holds m l M
    /\ count pH = Z.of_nat (length l) /\ Z.of_nat (length l) < max_elems.

(** [memOk]: whether there is memory for an element. *)
Definition insertSpec (M : names) (k : list Z) (d : Z) (memOk : bool) : Z * names :=
  match M !! fold k with
  | Some old => (old, if d =? 0 then delete (fold k) M else <[fold k := d]> M)
  | None => if d =? 0 then (0, M) else if memOk then (0, <[fold k := d]> M) else (d, M)
  end.

(** What [findElementWithHash] finds. *)
Lemma find_cases pH m l M k :
  listed pH m l -> holds m l M -> count pH = Z.of_nat (length l) -> cstring k ->
  exists r h, findElementWithHash pH m k = Some (r, h)
    /\ (is_Some (ht pH) -> h = hashIndex k (htsize pH))
    /\ (r = 0 /\ M !! fold k = None /\ (forall a, a ∈ l -> ~ matches m k a)
        \/ r ∈ l /\ r <> 0 /\ matches m k r /\ exists v k', payload m r = Some (v, k')
             /\ v <> 0 /\ M !! fold k = Some v).
Proof.
  intros Hl Hh Hc Hk. destruct (findElementWithHash_ok pH m l k Hl Hc Hk) as (r & h & E & Hi & Hr).
  exists r, h. split; [done|]. split; [done|]. destruct Hr as [[-> Hno]|[Hr Hm]]; [left|right].
  - split; [done|]. split; [|done]. apply eq_None_not_Some. intros [v Hv].
    apply (ho_map _ _ _ Hh) in Hv as (a & k' & Ha & Hp & Hf). apply (Hno a Ha).
    unfold matches. by rewrite (payload_key _ _ _ _ Hp).
  - split; [done|]. split; [intros ->; by apply (li_null _ _ _ Hl)|]. split; [done|].
    destruct (li_elem _ _ _ Hl r Hr) as (v & k' & Hp & Hv & _). exists v, k'. split; [done|].
    split; [done|]. apply (ho_map _ _ _ Hh). exists r, k'. split_and!; [done|done|].
    unfold matches in Hm. by rewrite (payload_key _ _ _ _ Hp) in Hm.
Qed.

Lemma dataOf_payload m r v k : r <> 0 -> payload m r = Some (v, k) -> dataOf m r = Some v.
Proof.
  intros Hr Hp. unfold dataOf. rewrite (proj2 (Z.eqb_neq r 0)) by done. unfold payload in Hp.
  destruct (m !! r); [|done]. by simplify_eq/=.
Qed.

(** The same elements with the same links, in another heap. *)
Lemma listed_same pH m m' l :
  (forall a, a ∈ l -> m' !! a = m !! a) -> listed pH m l -> listed pH m' l.
Proof.
  intros Heq [Hd Hnd H0 Hf He Ht].
  assert (forall a, a ∈ l -> payload m' a = payload m a) as Hp
    by (intros a Ha; unfold payload; by rewrite Heq).
  split; auto; [by eapply dll_frame| |].
  - intros a Ha. unfold elem_ok. rewrite Hp by done. by apply He.
  - unfold ht_ok in *. destruct (ht pH) as [t|]; [|done].
    destruct Ht as (H1 & H2 & gs & -> & Hg). split_and!; [done|done|]. exists gs. split; [done|].
    eapply grouped_ext; [|done]. intros a Ha. unfold idx, keyOf. by rewrite Hp.
Qed.

Lemma listed_count pH m l n : listed pH m l -> listed (set_count pH n) m l.
Proof. by intros [Hd Hnd H0 Hf He Ht]. Qed.

(** ** The branches of [sqlite3HashInsert] *)

(** The old element gets the new data and the new key. *)
Lemma replace_ok pH m l M r e v k k' d :
  listed pH m l -> holds m l M -> r ∈ l -> m !! r = Some e -> payload m r = Some (v, k') ->
  fold k' = fold k -> d <> 0 -> cstring k ->
  let m' := <[r := mkElem (next e) (prev e) d k]> m in
  listed pH m' l /\ holds m' l (<[fold k := d]> M).
Proof.
  intros Hl Hh Hr Hm Hp Hf Hd Hk m'.
  assert (payload m' r = Some (d, k)) as Hp'.
  { unfold payload, m'. by rewrite lookup_insert_eq. }
  assert (forall a, a <> r -> payload m' a = payload m a) as Hne.
  { intros a Ha. unfold payload, m'. by rewrite lookup_insert_ne. }
  assert (forall a, fold (keyOf m' a) = fold (keyOf m a)) as Hkey.
  { intros a. unfold keyOf. destruct (decide (a = r)) as [->|Ha]; [|by rewrite Hne].
    rewrite Hp', Hp. simpl. done. }
  split.
  - destruct Hl as [Hdl Hnd H0 Hfi He Ht]. split; auto.
    + clear -Hdl Hm. revert Hdl. generalize 0 at 1 3. unfold m'. clear m'.
      induction l as [|a l IH]; intros p; [done|]. simpl. intros [(ea & Ha & Hpa & Hna) Hdl].
      split; [|by apply IH]. destruct (decide (a = r)) as [->|Hne].
      * rewrite lookup_insert_eq. eexists. split; [done|]. by simplify_eq/=.
      * rewrite lookup_insert_ne by done. eauto.
    + intros a Ha. destruct (decide (a = r)) as [->|Hra]; [by exists d, k|].
      unfold elem_ok. rewrite Hne by done. by apply He.
    + unfold ht_ok in *. destruct (ht pH) as [t|]; [|done].
      destruct Ht as (H1 & H2 & gs & -> & Hg). split_and!; [done|done|]. exists gs. split; [done|].
      eapply grouped_ext; [|done]. intros a _. unfold idx, hashIndex. by rewrite (strHash_fold _ _ (Hkey a)).
  - destruct Hh as [Hhp Hu Hmap]. split.
    + intros a. rewrite <- Hhp. unfold m'. destruct (decide (a = r)) as [->|Ha].
      * rewrite lookup_insert_eq, Hm. split; eauto.
      * by rewrite lookup_insert_ne.
    + intros a b Ha Hb. rewrite !Hkey. by apply Hu.
    + intros kf w. destruct (decide (kf = fold k)) as [->|Hkf].
      * rewrite lookup_insert_eq. split; [intros [= <-]; by exists r, k|].
        intros (a & ka & Ha & Hpa & Hka). f_equal. assert (a = r) as ->; [|congruence].
        apply Hu; [done|done|]. rewrite <- !Hkey, (payload_key _ _ _ _ Hpa), (payload_key _ _ _ _ Hp').
        done.
      * rewrite lookup_insert_ne by done. rewrite Hmap.
        split; intros (a & ka & Ha & Hpa & Hka); exists a, ka; (split_and!; [done| |done]).
        -- rewrite Hne; [done|]. intros ->. congruence.
        -- rewrite <- Hne; [done|]. intros ->. congruence.
Qed.

(** The map without the name of the element that is removed. *)
Lemma holds_remove m m' l l' M r k v k' :
  holds m l M -> NoDup l -> l ≡ₚ r :: l' -> m' !! r = None ->
  (forall a, a <> r -> payload m' a = payload m a) ->
  payload m r = Some (v, k') -> fold k' = fold k -> holds m' l' (delete (fold k) M).
Proof.
  intros [Hhp Hu Hmap] Hnd Hperm Hr Hpay Hp Hf. rewrite Hperm in Hnd.
  apply NoDup_cons in Hnd as [Hrl Hnd].
  assert (forall a, a ∈ l <-> a = r \/ a ∈ l') as Hin by (intros a; by rewrite Hperm, elem_of_cons).
  assert (forall a, a ∈ l' -> a <> r) as Hne by (intros a Ha ->; done).
  assert (forall a, a ∈ l' -> keyOf m' a = keyOf m a) as Hkey
    by (intros a Ha; unfold keyOf; rewrite Hpay; auto).
  split.
  - intros a. destruct (decide (a = r)) as [->|Ha].
    + rewrite Hr. split; [by intros [? ?]|done].
    + assert (is_Some (m' !! a) <-> is_Some (m !! a)) as ->.
      { specialize (Hpay a Ha). unfold payload in Hpay. by destruct (m' !! a), (m !! a). }
      rewrite Hhp, Hin. tauto.
  - intros a b Ha Hb. rewrite !Hkey by done. apply Hu; apply Hin; auto.
  - intros kf w. destruct (decide (kf = fold k)) as [->|Hkf].
    + rewrite lookup_delete_eq. split; [done|]. intros (a & ka & Ha & Hpa & Hka).
      destruct (Hne a Ha). rewrite Hpay in Hpa by auto. apply Hu; [apply Hin; auto|apply Hin; auto|].
      rewrite (payload_key _ _ _ _ Hpa), (payload_key _ _ _ _ Hp). congruence.
    + rewrite lookup_delete_ne by done. rewrite Hmap. split; intros (a & ka & Ha & Hpa & Hka).
      * exists a, ka. apply Hin in Ha as [->|Ha].
        -- rewrite Hp in Hpa. simplify_eq.
        -- rewrite Hpay by auto. auto.
      * exists a, ka. rewrite <- Hpay by auto. rewrite Hin. auto.
Qed.

(** The map with the name of a new element. *)
Lemma holds_add m m' l l' M x k d :
  holds m l M -> x ∉ l -> (forall a, a ∈ l -> ~ matches m k a) -> l' ≡ₚ x :: l ->
  (forall a, payload m' a = if decide (a = x) then Some (d, k) else payload m a) ->
  holds m' l' (<[fold k := d]> M).
Proof.
  intros [Hhp Hu Hmap] Hx Hno Hperm Hpay.
  assert (forall a, a ∈ l' <-> a = x \/ a ∈ l) as Hin by (intros a; by rewrite Hperm, elem_of_cons).
  assert (payload m' x = Some (d, k)) as Hpx by (by rewrite Hpay, decide_True).
  assert (forall a, a ∈ l -> payload m' a = payload m a) as Hpl
    by (intros a Ha; rewrite Hpay, decide_False; [done|by intros ->]).
  assert (forall a, a ∈ l -> keyOf m' a = keyOf m a) as Hkey
    by (intros a Ha; unfold keyOf; by rewrite Hpl).
  pose proof (payload_key _ _ _ _ Hpx) as Hkx. split.
  - intros a. rewrite Hin. assert (is_Some (m' !! a) <-> is_Some (payload m' a)) as ->
      by (unfold payload; by rewrite fmap_is_Some).
    rewrite Hpay. case_decide as Ha; [split; eauto|]. unfold payload. rewrite fmap_is_Some, Hhp. tauto.
  - intros a b [->|Ha]%Hin [->|Hb]%Hin; rewrite ?Hkx, ?Hkey by done; intros Hf; [done| | |by apply Hu].
    + destruct (Hno b Hb). by symmetry.
    + by destruct (Hno a Ha).
  - intros kf w. destruct (decide (kf = fold k)) as [->|Hkf].
    + rewrite lookup_insert_eq. split; [intros [= <-]; exists x, k; rewrite Hin; auto|].
      intros (a & ka & [->|Ha]%Hin & Hpa & Hka); [congruence|].
      destruct (Hno a Ha). unfold matches. rewrite Hpl in Hpa by done.
      by rewrite (payload_key _ _ _ _ Hpa).
    + rewrite lookup_insert_ne by done. rewrite Hmap. split; intros (a & ka & Ha & Hpa & Hka).
      * exists a, ka. rewrite Hpl, Hin by done. auto.
      * apply Hin in Ha as [->|Ha]; [congruence|]. exists a, ka. rewrite <- Hpl by done. auto.
Qed.

(** Link a new element, after a rehash when the table is too full. *)
Lemma addElement_ok mallocSize pH m l x k d h :
  malloc_ok mallocSize -> listed pH m l -> count pH = Z.of_nat (length l) ->
  Z.of_nat (length l) < max_elems - 1 -> x ∉ l -> x <> 0 -> d <> 0 -> cstring k ->
  (is_Some (ht pH) -> h = hashIndex k (htsize pH)) ->
  let m0 := <[x := mkElem 0 0 d k]> m in
  let pH0 := set_count pH (u32 (count pH + 1)) in
  exists pH' m' l',
    ('(pH, m, h) ←
      (if (count pH0 >=? 10) && (count pH0 >? u32 (2 * htsize pH0)) then
         '(ok, pH, m) ← rehash mallocSize pH0 m0 (u32 (count pH0 * 2));
         Some (pH, m, if ok : bool then hashIndex k (htsize pH) else h)
       else Some (pH0, m0, h));
     '(pH, m) ← insertElement pH m (match ht pH with Some _ => Some h | None => None end) x;
     Some (0, pH, m)) = Some (0, pH', m')
    /\ listed pH' m' l' /\ l' ≡ₚ x :: l /\ count pH' = Z.of_nat (length l) + 1 /\ same m0 m'.
Proof.
  intros Hmal Hl Hc Hlen Hx Hx0 Hd Hk Hh m0 pH0. unfold max_elems in Hlen.
  assert (count pH0 = Z.of_nat (length l) + 1) as Hc0
    by (simpl; rewrite Hc; apply u32_small; lia).
  assert (listed pH0 m0 l) as Hl0.
  { apply listed_count. eapply listed_same; [|done]. intros a Ha. unfold m0. by apart. }
  assert (payload m0 x = Some (d, k)) as Hp0 by (unfold payload, m0; by rewrite lookup_insert_eq).
  assert (exists pH1 m1 l1 h1,
    (if (count pH0 >=? 10) && (count pH0 >? u32 (2 * htsize pH0)) then
       '(ok, pH, m) ← rehash mallocSize pH0 m0 (u32 (count pH0 * 2));
       Some (pH, m, if ok : bool then hashIndex k (htsize pH) else h)
     else Some (pH0, m0, h)) = Some (pH1, m1, h1)
    /\ listed pH1 m1 l1 /\ l1 ≡ₚ l /\ same m0 m1 /\ count pH1 = count pH0
    /\ (is_Some (ht pH1) -> h1 = hashIndex k (htsize pH1)))
    as (pH1 & m1 & l1 & h1 & -> & Hl1 & Hperm1 & Hs1 & Hc1 & Hh1).
  { destruct (_ && _); [|by exists pH0, m0, l, h].
    destruct (rehash_ok mallocSize pH0 m0 l (u32 (count pH0 * 2)) Hmal Hl0)
      as (ok & pH1 & m1 & l1 & -> & Hl1 & Hperm1 & [Hs1 _] & Hc1 & Hok & Hno).
    - rewrite Hc0, u32_small; lia.
    - lia.
    - unfold max_elems. lia.
    - eexists pH1, m1, l1, _. split; [done|]. split_and!; try done.
      destruct ok; [done|]. by rewrite (Hno eq_refl). }
  destruct (insertElement_ok pH1 m1 l1 x d k h1 Hl1)
    as (pH2 & m2 & l2 & E & Hl2 & Hperm2 & [Hs2 _] & _ & Hc2 & _); try done.
  - rewrite Hperm1. unfold max_elems. lia.
  - by rewrite Hperm1.
  - by rewrite Hs1.
  - simpl. rewrite E. simpl. exists pH2, m2, l2. split; [done|]. split_and!; [done| |congruence|].
    + by rewrite Hperm2, Hperm1.
    + by eapply same_trans.
Qed.

Lemma find_ok pH m M k :
  represents pH m M -> cstring k -> sqlite3HashFind pH m k = Some (default 0 (M !! fold k)).
Proof.
  intros (l & Hl & Hh & Hc & _) Hk. unfold sqlite3HashFind.
  destruct (find_cases pH m l M k Hl Hh Hc Hk) as (r & h & -> & _ & Hr). simpl.
  destruct Hr as [(-> & -> & _)|(Hr & Hr0 & _ & v & k' & Hp & _ & ->)]; [done|].
  by apply (dataOf_payload _ _ _ k').
Qed.

Lemma insert_ok mallocSize new_elem pH m M k d :
  malloc_ok mallocSize -> represents pH m M -> cstring k -> count pH < max_elems - 1 ->
  m !! new_elem = None ->
  exists r pH' m' M', sqlite3HashInsert mallocSize new_elem pH m k d = Some (r, pH', m')
    /\ insertSpec M k d (negb (new_elem =? 0)) = (r, M') /\ represents pH' m' M'.
Proof.
  intros Hmal (l & Hl & Hh & Hc & Hlen) Hk Hmax Hnew. unfold sqlite3HashInsert, insertSpec.
  destruct (find_cases pH m l M k Hl Hh Hc Hk) as (r & h & -> & Hi & Hr). simpl.
  destruct Hr as [(-> & -> & Hno)|(Hr & Hr0 & Hm & v & k' & Hp & Hv & ->)]; simpl.
  - destruct (Z.eqb_spec d 0) as [->|Hd]; [exists 0, pH, m, M; split; [done|]; split; [done|]; by exists l|].
    destruct (Z.eqb_spec new_elem 0) as [->|Hx0]; [exists d, pH, m, M; split; [done|]; split; [done|]; by exists l|].
    assert (new_elem ∉ l) as Hx.
    { intros [e He]%(ho_heap _ _ _ Hh). congruence. }
    destruct (addElement_ok mallocSize pH m l new_elem k d h) as (pH' & m' & l' & E & Hl' & Hperm & Hc' & Hs);
      try done; [lia|].
    simpl in E |- *. rewrite E. eexists 0, pH', m', _. split; [done|]. split; [done|].
    assert (Z.of_nat (length l') = Z.of_nat (length l) + 1) as Hlen' by (rewrite Hperm; simpl; lia).
    exists l'. split_and!; [done| |lia|lia].
    eapply holds_add; [done|done|done|done|]. intros a. rewrite Hs. unfold payload. case_decide as Ha.
    + subst a. by rewrite lookup_insert_eq.
    + by rewrite lookup_insert_ne.
  - rewrite (dataOf_payload _ _ _ _ Hr0 Hp). simpl. rewrite (proj2 (Z.eqb_neq v 0)) by done. simpl.
    assert (fold k' = fold k) as Hf by (unfold matches in Hm; by rewrite (payload_key _ _ _ _ Hp) in Hm).
    destruct (Z.eqb_spec d 0) as [->|Hd].
    + destruct (removeElementGivenHash_ok pH m l r h Hl Hc Hlen Hr) as
        (pH' & m' & l' & -> & Hl' & Hperm & Hc' & Hnone & Hpay).
      { intros Hht. rewrite (Hi Hht). symmetry. by apply matches_idx. }
      simpl. eexists v, pH', m', _. split; [done|]. split; [done|]. exists l'. split_and!; [done| |done|].
      * eapply (holds_remove m m' l l' M r k v k'); try done. apply Hl.
      * rewrite Hperm in Hlen. simpl in Hlen. lia.
    + destruct (elem_ok_some m r) as [e He]; [by apply Hl|].
      erewrite store_ok by done. simpl. eexists v, pH, _, _. split; [done|]. split; [done|].
      destruct (replace_ok pH m l M r e v k k' d) as [Hl' Hh']; try done. by exists l.
Qed.

Lemma init_ok : represents sqlite3HashInit ∅ ∅.
Proof.
  exists []. split_and!; [apply listed_init| |done|done]. split.
  - intros a. rewrite lookup_empty. split; [by intros [? ?]|set_solver].
  - set_solver.
  - intros k v. rewrite lookup_empty. split; [done|]. intros (a & k' & Ha & _). set_solver.
Qed.

(** ** Correctness *)

(** C23: [sqlite3HashInsert] implements a map from names to data: in any state
    that represents a map, whether the element is new, replaced or (with a
    NULL [data]) removed, and whether or not an allocation fails or the table
    is rehashed, the code accesses only allocated elements, returns the
    replaced data (or the new data when there is no memory), and leaves a
    table that represents the new map; names that differ in case only are the
    same name, and no element leaks. *)
Theorem sqlite3HashInsert_refines mallocSize new_elem pH m M k d :
  malloc_ok mallocSize -> represents pH m M -> cstring k -> count pH < max_elems - 1 ->
  m !! new_elem = None ->
  exists r pH' m' M', sqlite3HashInsert mallocSize new_elem pH m k d = Some (r, pH', m')
    /\ insertSpec M k d (negb (new_elem =? 0)) = (r, M') /\ represents pH' m' M'.
Proof. apply insert_ok. Qed.

Definition exactMalloc (n : Z) : option Z := if n <? 2 ^ 36 then Some n else None.

Lemma exactMalloc_ok : malloc_ok exactMalloc.
Proof. intros n b. unfold exactMalloc. destruct (Z.ltb_spec n (2 ^ 36)); [|done]. intros [= <-]. lia. Qed.

Lemma sqlite3HashInsert_refines_witness :
  exists r pH' m' M', sqlite3HashInsert exactMalloc 64 sqlite3HashInit ∅ [116; 49] 7 = Some (r, pH', m')
    /\ insertSpec ∅ [116; 49] 7 true = (r, M') /\ represents pH' m' M'.
Proof.
  apply (sqlite3HashInsert_refines exactMalloc 64 sqlite3HashInit ∅ ∅ [116; 49] 7).
  - apply exactMalloc_ok.
  - apply init_ok.
  - repeat constructor; discriminate.
  - reflexivity.
  - reflexivity.
Defined.

(** In any state that represents a map, [sqlite3HashFind] returns the data
    stored under the name, up to case, and NULL when there is none, whether it
    searches a bucket or the whole list. *)
Theorem sqlite3HashFind_refines pH m M k :
  represents pH m M -> cstring k -> sqlite3HashFind pH m k = Some (default 0 (M !! fold k)).
Proof. apply find_ok. Qed.

Lemma sqlite3HashFind_refines_witness :
  exists r pH' m' M', sqlite3HashInsert exactMalloc 64 sqlite3HashInit ∅ [116; 49] 7 = Some (r, pH', m')
    /\ represents pH' m' M' /\ sqlite3HashFind pH' m' [84; 49] = Some 7.
Proof.
  destruct (insert_ok exactMalloc 64 sqlite3HashInit ∅ ∅ [116; 49] 7) as (r & pH' & m' & M' & E & Es & Hr).
  - apply exactMalloc_ok.
  - apply init_ok.
  - repeat constructor; discriminate.
  - reflexivity.
  - reflexivity.
  - exists r, pH', m', M'. split; [exact E|]. split; [exact Hr|].
    rewrite (sqlite3HashFind_refines pH' m' M' [84; 49] Hr) by (repeat constructor; discriminate).
    injection Es as <- <-. reflexivity.
Defined.
