(* ===== verification/Mem5.v ===== *)
(** * src/libsql-sqlite3/src/mem5.c: the power-of-two allocator

    The pool is an array of [nBlock] atoms of [szAtom] bytes.  A block is
    2^l atoms, aligned to its size; a block that is allocated too large is
    split in halves, and a freed block is merged with its buddy when that is
    free.  [aCtrl] has one byte for each atom, of which those of the first
    atoms of blocks matter; free blocks are on one list for each size, linked
    by two integers in their first atoms.

    An atom is modelled as the two integers that its first eight bytes make
    and the bytes after them, whether it holds a link or data of the user; a
    pointer is an offset into the pool, and NULL is [None].  An access outside
    of an array and an overflow of an [int] give [None].  The statistics,
    which only exist in debugging builds, and the mutex are left out. *)

From stdpp Require Import base list numbers option gmap sets.
From S2P Require Import Prelude Dlist.
#[local] Open Scope Z_scope.

(** ** Data *)

Record Mem5Link := mkLink { l_next : Z; l_prev : Z; after : list Z }.

#[export] Instance linked_mem5 : Linked Mem5Link (list Z).
Proof.
  refine {| next := l_next; prev := l_prev; cargo := after;
            set_next a e := mkLink a (l_prev e) (after e);
            set_prev a e := mkLink (l_next e) a (after e) |}; reflexivity.
Defined.

Definition LOGMAX : Z := 30.
Definition CTRL_LOGSIZE : Z := 0x1f.
Definition CTRL_FREE : Z := 0x20.

Record Mem5Global := mkMem5 {
  szAtom : Z;
  nBlock : Z;
  zPool : gmap Z Mem5Link;
  aiFreelist : list Z;
  aCtrl : gmap Z Z
}.

Definition set_pool (g : Mem5Global) x := mkMem5 (szAtom g) (nBlock g) x (aiFreelist g) (aCtrl g).
Definition set_lists (g : Mem5Global) x := mkMem5 (szAtom g) (nBlock g) (zPool g) x (aCtrl g).
Definition set_ctrls (g : Mem5Global) x := mkMem5 (szAtom g) (nBlock g) (zPool g) (aiFreelist g) x.

(** An [int]. *)
Definition int32 (x : Z) : option Z :=
  if (- 2 ^ 31 <=? x) && (x <? 2 ^ 31) then Some x else None.

(** Assignments to [MEM5LINK(i)], [mem5.aiFreelist[l]] and [mem5.aCtrl[i]]. *)
Definition storeLink (f : Mem5Link -> Mem5Link) (i : Z) (g : Mem5Global) : option Mem5Global :=
  m ← store f i (zPool g); Some (set_pool g m).

Definition getFreelist (g : Mem5Global) (l : Z) : option Z :=
  if 0 <=? l then aiFreelist g !! Z.to_nat l else None.

Definition setFreelist (l x : Z) (g : Mem5Global) : option Mem5Global :=
  _ ← getFreelist g l; Some (set_lists g (setZ (aiFreelist g) l x)).

Definition setCtrl (i v : Z) (g : Mem5Global) : option Mem5Global :=
  m ← store (fun _ => v) i (aCtrl g); Some (set_ctrls g m).

(** ** The code *)

Definition memsys5Unlink (i iLogsize : Z) (g : Mem5Global) : option Mem5Global :=
  e ← zPool g !! i;
  g ← (if prev e <? 0 then setFreelist iLogsize (next e) g
       else storeLink (set_next (next e)) (prev e) g);
  if next e >=? 0 then storeLink (set_prev (prev e)) (next e) g else Some g.

Definition memsys5Link (i iLogsize : Z) (g : Mem5Global) : option Mem5Global :=
  x ← getFreelist g iLogsize;
  g ← storeLink (set_next x) i g;
  g ← storeLink (set_prev (-1)) i g;
  g ← (if x >=? 0 then storeLink (set_prev i) x g else Some g);
  setFreelist iLogsize i g.

Definition memsys5Size (p : Z) (g : Mem5Global) : option Z :=
  c ← aCtrl g !! (p / szAtom g);
  int32 (szAtom g * Z.shiftl 1 (Z.land c CTRL_LOGSIZE)).

(** [for(iFullSz=mem5.szAtom,iLogsize=0; iFullSz<nByte; iFullSz*=2,iLogsize++)]. *)
Fixpoint sizeLoop (fuel : nat) (iFullSz iLogsize nByte : Z) : option (Z * Z) :=
  if iFullSz <? nByte then
    match fuel with
    | O => None
    | S f => iFullSz ← int32 (iFullSz * 2); sizeLoop f iFullSz (iLogsize + 1) nByte
    end
  else Some (iFullSz, iLogsize).

(** [for(iBin=iLogsize; iBin<=LOGMAX && mem5.aiFreelist[iBin]<0; iBin++)]. *)
Fixpoint binLoop (fuel : nat) (iBin : Z) (g : Mem5Global) : option Z :=
  if iBin >? LOGMAX then Some iBin else
  x ← getFreelist g iBin;
  if x <? 0 then
    match fuel with
    | O => None
    | S f => binLoop f (iBin + 1) g
    end
  else Some iBin.

(** [while( iBin>iLogsize )]. *)
Fixpoint splitLoop (fuel : nat) (i iBin iLogsize : Z) (g : Mem5Global) : option Mem5Global :=
  if iBin >? iLogsize then
    match fuel with
    | O => None
    | S f =>
        let iBin := iBin - 1 in
        let newSize := Z.shiftl 1 iBin in
        g ← setCtrl (i + newSize) (Z.lor CTRL_FREE iBin) g;
        g ← memsys5Link (i + newSize) iBin g;
        splitLoop f i iBin iLogsize g
    end
  else Some g.

Definition memsys5MallocUnsafe (nByte : Z) (g : Mem5Global) : option (option Z * Mem5Global) :=
  if nByte >? 0x40000000 then Some (None, g) else
  '(_, iLogsize) ← sizeLoop 31 (szAtom g) 0 nByte;
  iBin ← binLoop 31 iLogsize g;
  if iBin >? LOGMAX then Some (None, g) else
  i ← getFreelist g iBin;
  g ← memsys5Unlink i iBin g;
  g ← splitLoop 31 i iBin iLogsize g;
  g ← setCtrl i iLogsize g;
  Some (Some (i * szAtom g), g).

(** [while( ALWAYS(iLogsize<LOGMAX) )]: the block and its size at the end. *)
Fixpoint mergeLoop (fuel : nat) (iBlock iLogsize size : Z) (g : Mem5Global)
    : option (Z * Z * Mem5Global) :=
  if iLogsize <? LOGMAX then
    match fuel with
    | O => None
    | S f =>
        let odd := negb (Z.land (Z.shiftr iBlock iLogsize) 1 =? 0) in
        iBuddy ← int32 (if odd then iBlock - size else iBlock + size);
        if negb odd && (iBuddy >=? nBlock g) then Some (iBlock, iLogsize, g) else
        c ← aCtrl g !! iBuddy;
        if negb (c =? Z.lor CTRL_FREE iLogsize) then Some (iBlock, iLogsize, g) else
        g ← memsys5Unlink iBuddy iLogsize g;
        let iLogsize := iLogsize + 1 in
        if iBuddy <? iBlock then
          g ← setCtrl iBuddy (Z.lor CTRL_FREE iLogsize) g;
          g ← setCtrl iBlock 0 g;
          mergeLoop f iBuddy iLogsize (u32 (size * 2)) g
        else
          g ← setCtrl iBlock (Z.lor CTRL_FREE iLogsize) g;
          g ← setCtrl iBuddy 0 g;
          mergeLoop f iBlock iLogsize (u32 (size * 2)) g
    end
  else Some (iBlock, iLogsize, g).

Definition memsys5FreeUnsafe (pOld : Z) (g : Mem5Global) : option Mem5Global :=
  let iBlock := pOld / szAtom g in
  c ← aCtrl g !! iBlock;
  let iLogsize := Z.land c CTRL_LOGSIZE in
  let size := Z.shiftl 1 iLogsize in
  g ← setCtrl iBlock (Z.lor c CTRL_FREE) g;
  c ← aCtrl g !! (iBlock + size - 1);
  g ← setCtrl (iBlock + size - 1) (Z.lor c CTRL_FREE) g;
  g ← setCtrl iBlock (Z.lor CTRL_FREE iLogsize) g;
  '(iBlock, iLogsize, g) ← mergeLoop 31 iBlock iLogsize size g;
  memsys5Link iBlock iLogsize g.

Definition memsys5Malloc (nBytes : Z) (g : Mem5Global) : option (option Z * Mem5Global) :=
  if nBytes >? 0 then memsys5MallocUnsafe nBytes g else Some (None, g).

Definition memsys5Free (pPrior : Z) (g : Mem5Global) : option Mem5Global :=
  memsys5FreeUnsafe pPrior g.

(** [memcpy] of [n] whole atoms. *)
Fixpoint copyAtoms (n : nat) (dst src : Z) (m : gmap Z Mem5Link) : option (gmap Z Mem5Link) :=
  match n with
  | O => Some m
  | S n' =>
      e ← m !! src;
      m ← store (fun _ => e) dst m;
      copyAtoms n' (dst + 1) (src + 1) m
  end.

Definition memsys5Realloc (pPrior nBytes : Z) (g : Mem5Global) : option (option Z * Mem5Global) :=
  if nBytes =? 0 then Some (None, g) else
  nOld ← memsys5Size pPrior g;
  if nBytes <=? nOld then Some (Some pPrior, g) else
  '(p, g) ← memsys5Malloc nBytes g;
  match p with
  | None => Some (None, g)
  | Some p =>
      m ← copyAtoms (Z.to_nat (nOld / szAtom g)) (p / szAtom g) (pPrior / szAtom g) (zPool g);
      g ← memsys5Free pPrior (set_pool g m);
      Some (Some p, g)
  end.

(** [for(iFullSz=mem5.szAtom*8; iFullSz<n; iFullSz *= 4)]. *)
Fixpoint roundLoop (fuel : nat) (iFullSz n : Z) : option Z :=
  if iFullSz <? n then
    match fuel with
    | O => None
    | S f => iFullSz ← int32 (iFullSz * 4); roundLoop f iFullSz n
    end
  else Some iFullSz.

Definition memsys5Roundup (n : Z) (g : Mem5Global) : option Z :=
  if n <=? szAtom g * 2 then Some (if n <=? szAtom g then szAtom g else szAtom g * 2)
  else if n >? 0x10000000 then
    Some (if n >? 0x40000000 then 0 else if n >? 0x20000000 then 0x40000000 else 0x20000000)
  else
    iFullSz ← roundLoop 16 (szAtom g * 8) n;
    Some (if iFullSz / 2 >=? n then iFullSz / 2 else iFullSz).

Fixpoint logLoop (fuel : nat) (iLog iValue : Z) : Z :=
  match fuel with
  | O => iLog
  | S f => if Z.shiftl 1 iLog <? iValue then logLoop f (iLog + 1) iValue else iLog
  end.

(** The bound on [iLog] is the fuel. *)
Definition memsys5Log (iValue : Z) : Z := logLoop 31 0 iValue.

(** [while( (int)sizeof(Mem5Link)>mem5.szAtom )]. *)
Fixpoint atomLoop (fuel : nat) (szAtom : Z) : Z :=
  match fuel with
  | O => szAtom
  | S f => if 8 >? szAtom then atomLoop f (Z.shiftl szAtom 1) else szAtom
  end.

(** [for(ii=LOGMAX; ii>=0; ii--)]; [n] is [ii + 1]. *)
Fixpoint initLoop (n : nat) (iOffset : Z) (g : Mem5Global) : option Mem5Global :=
  match n with
  | O => Some g
  | S k =>
      let ii := Z.of_nat k in
      last ← int32 (iOffset + Z.shiftl 1 ii);
      if last <=? nBlock g then
        g ← setCtrl iOffset (Z.lor ii CTRL_FREE) g;
        g ← memsys5Link iOffset ii g;
        initLoop k last g
      else initLoop k iOffset g
  end.

(** An array of [n] elements with any contents. *)
Definition arrayOf {A} (x : Z -> A) (n : Z) : gmap Z A :=
  list_to_map ((fun i => (i, x i)) <$> seqZ 0 n).

(** [nHeap], [mnReq]: fields of [sqlite3GlobalConfig]; [heap] and [ctrl] are
    what the memory at [pHeap] happens to hold. *)
Definition memsys5Init (nHeap mnReq : Z) (heap : Z -> Mem5Link) (ctrl : Z -> Z) : option Mem5Global :=
  let szAtom := atomLoop 3 (Z.shiftl 1 (memsys5Log mnReq)) in
  let nBlock := nHeap / (szAtom + 1) in
  initLoop 31 0 (mkMem5 szAtom nBlock (arrayOf heap nBlock) (replicate 31 (-1)) (arrayOf ctrl nBlock)).

(** ** Tilings

    [T] maps the first atoms of the blocks to the logarithms of their sizes. *)
Record tiling (n : Z) (T : gmap Z Z) : Prop := {
  tl_log : forall i l, T !! i = Some l -> 0 <= l;
  tl_range : forall i l, T !! i = Some l -> 0 <= i /\ i + 2 ^ l <= n;
  tl_align : forall i l, T !! i = Some l -> (2 ^ l | i);
  tl_apart : forall i l j l', T !! i = Some l -> T !! j = Some l' -> i < j -> i + 2 ^ l <= j;
  tl_cover : forall x, 0 <= x < n -> exists i l, T !! i = Some l /\ i <= x < i + 2 ^ l
}.

Definition buddy (i k : Z) : Z :=
  if negb (Z.land (Z.shiftr i k) 1 =? 0) then i - 2 ^ k else i + 2 ^ k.

(** Two blocks that are buddies are the halves of one block. *)
Lemma buddy_halves i k :
  0 <= k -> (2 ^ k | i) ->
  exists q, i = (2 * q) * 2 ^ k /\ buddy i k = (2 * q + 1) * 2 ^ k
    \/ i = (2 * q + 1) * 2 ^ k /\ buddy i k = (2 * q) * 2 ^ k.
Proof.
  intros Hk [r ->]. unfold buddy. assert (0 < 2 ^ k) by lia.
  rewrite Z.shiftr_div_pow2, Z.div_mul by lia.
  change (Z.land r 1) with (Z.land r (Z.ones 1)). rewrite Z.land_ones by lia. change (2 ^ 1) with 2.
  exists (r / 2).
  destruct (Z.eqb_spec (r mod 2) 0); simpl.
  - left. assert (r = 2 * (r / 2)) as E by (pose proof (Z.div_mod r 2); lia). set (q := r / 2) in *. clearbody q. split; [by rewrite E|rewrite E; ring].
  - right. assert (r = 2 * (r / 2) + 1) as E by (pose proof (Z.div_mod r 2); pose proof (Z.mod_pos_bound r 2); lia). set (q := r / 2) in *. clearbody q. split; [by rewrite E|rewrite E; ring].
Qed.

Lemma buddy_invol i k : 0 <= k -> (2 ^ k | i) -> buddy (buddy i k) k = i /\ (2 ^ k | buddy i k).
Proof.
  intros Hk Ha. destruct (buddy_halves i k Hk Ha) as (q & Hq).
  assert ((2 ^ k | buddy i k)) as Hb by (destruct Hq as [[_ ->]|[_ ->]]; by eexists).
  split; [|done]. destruct (buddy_halves _ k Hk Hb) as (q' & Hq').
  assert (0 < 2 ^ k) by lia.
  destruct Hq as [[-> E]|[-> E]], Hq' as [[E1 ->]|[E1 ->]]; rewrite E in E1;
    apply Z.mul_cancel_r in E1; lia.
Qed.

Lemma upper_buddy i k : 0 <= k -> (2 ^ (k + 1) | i) -> buddy (i + 2 ^ k) k = i.
Proof.
  intros Hk [r Hr]. assert (0 < 2 ^ k) by lia.
  assert (i = (2 * r) * 2 ^ k) as Hi by (rewrite Hr, Z.pow_add_r by lia; ring).
  assert (i + 2 ^ k = (2 * r + 1) * 2 ^ k) as E by (rewrite Hi; ring).
  destruct (buddy_halves (i + 2 ^ k) k Hk) as (q & [[Hq _]|[Hq ->]]); [by eexists| |];
    rewrite E in Hq; apply Z.mul_cancel_r in Hq; lia.
Qed.

(** Multiples of [M] do not lie strictly inside of an aligned [M]-block. *)
Lemma aligned_around M q j e b :
  0 < M -> (M | j) -> (M | e) -> q * M <= b < q * M + M -> j <= b < e ->
  j <= q * M /\ q * M + M <= e.
Proof.
  intros HM [x ->] [y ->] Hb Hj.
  assert (x < q + 1) by (apply (Z.mul_lt_mono_pos_r M); lia).
  assert (q < y) by (apply (Z.mul_lt_mono_pos_r M); lia). nia.
Qed.

Lemma aligned_eq M j b : 0 < M -> (M | j) -> (M | b) -> j <= b < j + M -> b = j.
Proof.
  intros HM [x ->] [y ->] Hb. assert (y < x + 1) by (apply (Z.mul_lt_mono_pos_r M); lia).
  assert (x < y + 1) by (apply (Z.mul_lt_mono_pos_r M); lia). f_equal. lia.
Qed.

Lemma pow2_divide l k : 0 <= l <= k -> (2 ^ l | 2 ^ k).
Proof. intros H. exists (2 ^ (k - l)). rewrite <- Z.pow_add_r by lia. f_equal. lia. Qed.

Lemma pow2_le l k : l <= k -> 2 ^ l <= 2 ^ k.
Proof. intros H. destruct (Z_le_gt_dec 0 l); [apply Z.pow_le_mono_r; lia|]. rewrite Z.pow_neg_r by lia. lia. Qed.

Section tiles.
Context (n : Z) (T : gmap Z Z) (HT : tiling n T).

(** No block begins inside of another one. *)
Lemma tile_head i l j l' : T !! i = Some l -> T !! j = Some l' -> j <= i < j + 2 ^ l' -> i = j.
Proof using HT.
  intros Hi Hj Hr. destruct (Z.lt_trichotomy j i) as [Hlt|[Heq|Hlt]]; [|done|lia].
  pose proof (tl_apart _ _ HT j l' i l Hj Hi Hlt). lia.
Qed.

(** The buddy of a block is the first atom of a block that is not larger. *)
Lemma tile_buddy i k :
  T !! i = Some k -> 0 <= buddy i k < n ->
  exists l, T !! buddy i k = Some l /\ l <= k.
Proof using HT.
  intros Hi Hb. pose proof (tl_log _ _ HT i k Hi) as Hk. pose proof (tl_align _ _ HT i k Hi) as Ha.
  destruct (tl_cover _ _ HT _ Hb) as (j & l & Hj & Hr).
  pose proof (tl_log _ _ HT j l Hj) as Hl. pose proof (tl_align _ _ HT j l Hj) as Haj.
  destruct (buddy_invol i k Hk Ha) as [Hinv Hab]. assert (0 < 2 ^ l) by lia.
  destruct (Z.le_gt_cases l k) as [Hlk|Hlk].
  - assert ((2 ^ l | buddy i k)) as Hdb by (etrans; [by apply pow2_divide|done]).
    assert (buddy i k = j) as E by (by apply (aligned_eq (2 ^ l))). exists l. rewrite E. done.
  - exfalso. assert ((2 ^ (k + 1) | 2 ^ l)) as Hd by (apply pow2_divide; lia).
    assert (2 ^ (k + 1) = 2 * 2 ^ k) as E2 by (rewrite Z.pow_add_r by lia; lia).
    assert (exists q, q * 2 ^ (k + 1) <= i < q * 2 ^ (k + 1) + 2 ^ (k + 1)
             /\ q * 2 ^ (k + 1) <= buddy i k < q * 2 ^ (k + 1) + 2 ^ (k + 1)) as (q & Hqi & Hqb).
    { destruct (buddy_halves i k Hk Ha) as (q & Hq). exists q. rewrite E2. assert (0 < 2 ^ k) by lia.
      destruct Hq as [[E ->]|[E ->]]; rewrite E at 1 2; nia. }
    destruct (aligned_around (2 ^ (k + 1)) q j (j + 2 ^ l) (buddy i k)) as [H1 H2];
      [lia|by etrans|apply Z.divide_add_r; [by etrans|done]|done|done|].
    assert (i = j) as -> by (apply (tile_head i k j l); [done|done|lia]). simplify_eq. lia.
Qed.

(** A block in two halves. *)
Lemma tile_split i k T' :
  T !! i = Some (k + 1) -> 0 <= k ->
  (forall j, T' !! j = if decide (j = i \/ j = i + 2 ^ k) then Some k else T !! j) ->
  tiling n T' /\ T !! (i + 2 ^ k) = None.
Proof using HT.
  intros Hi Hk HT'. assert (2 ^ (k + 1) = 2 * 2 ^ k) as E2 by (rewrite Z.pow_add_r by lia; lia).
  assert (0 < 2 ^ k) by lia. pose proof (tl_range _ _ HT i _ Hi) as Hr.
  pose proof (tl_align _ _ HT i _ Hi) as Ha.
  assert (forall j l, T' !! j = Some l ->
    (j = i \/ j = i + 2 ^ k) /\ l = k \/ T !! j = Some l /\ (j + 2 ^ l <= i \/ i + 2 ^ (k + 1) <= j)) as Hc.
  { intros j l Hj. rewrite HT' in Hj. case_decide as Hd; [left; by simplify_eq|right].
    split; [done|]. destruct (Z.lt_trichotomy i j) as [Hlt|[Heq|Hlt]]; [|by destruct Hd; left|].
    - right. by apply (tl_apart _ _ HT i (k + 1) j l).
    - left. by apply (tl_apart _ _ HT j l i (k + 1)). }
  split; [split|].
  - intros j l Hj. destruct (Hc j l Hj) as [[_ ->]|[Hj' _]]; [done|]. by apply (tl_log _ _ HT j).
  - intros j l Hj. destruct (Hc j l Hj) as [[[-> | ->] ->]|[Hj' _]]; [lia|lia|].
    by apply (tl_range _ _ HT j).
  - intros j l Hj. assert ((2 ^ k | i)) as Hki by (etrans; [apply (pow2_divide k (k + 1)); lia|done]).
    destruct (Hc j l Hj) as [[[-> | ->] ->]|[Hj' _]]; [done| |by apply (tl_align _ _ HT j)].
    apply Z.divide_add_r; [done|reflexivity].
  - intros j l j' l' Hj Hj' Hlt.
    destruct (Hc j l Hj) as [[[-> | ->] ->]|[H1 H2]], (Hc j' l' Hj') as [[[-> | ->] ->]|[H3 H4]];
      try lia; try by apply (tl_apart _ _ HT j l j' l').
  - intros x Hx. destruct (tl_cover _ _ HT x Hx) as (j & l & Hj & Hjx).
    destruct (decide (j = i)) as [->|Hne].
    + simplify_eq. destruct (decide (x < i + 2 ^ k)).
      * exists i, k. rewrite HT', decide_True by tauto. split; [done|lia].
      * exists (i + 2 ^ k), k. rewrite HT', decide_True by tauto. split; [done|]. lia.
    + exists j, l. rewrite HT', decide_False; [done|]. intros [->| ->]; [done|].
      apply Hne. by apply (tile_head _ l i (k + 1)); [| |lia].
  - destruct (T !! (i + 2 ^ k)) as [l|] eqn:E; [|done].
    assert (i + 2 ^ k = i) by (by apply (tile_head _ l i (k + 1)); [| |lia]). lia.
Qed.

(** Two halves in one block. *)
Lemma tile_merge i k T' :
  T !! i = Some k -> T !! (i + 2 ^ k) = Some k -> (2 ^ (k + 1) | i) ->
  (forall j, T' !! j = if decide (j = i) then Some (k + 1) else if decide (j = i + 2 ^ k) then None
                       else T !! j) ->
  tiling n T'.
Proof using HT.
  intros Hi Hi' Ha HT'. pose proof (tl_log _ _ HT i _ Hi) as Hk.
  assert (2 ^ (k + 1) = 2 * 2 ^ k) as E2 by (rewrite Z.pow_add_r by lia; lia).
  assert (0 < 2 ^ k) by lia. pose proof (tl_range _ _ HT i _ Hi) as Hr.
  pose proof (tl_range _ _ HT _ _ Hi') as Hr'.
  assert (forall j l, T' !! j = Some l ->
    j = i /\ l = k + 1 \/ T !! j = Some l /\ (j + 2 ^ l <= i \/ i + 2 ^ (k + 1) <= j)) as Hc.
  { intros j l Hj. rewrite HT' in Hj. case_decide as Hd; [left; by simplify_eq|right].
    case_decide as Hd'; [done|]. split; [done|].
    destruct (Z.lt_trichotomy i j) as [Hlt|[Heq|Hlt]]; [|by destruct Hd|].
    - right. pose proof (tl_apart _ _ HT i k j l Hi Hj Hlt).
      pose proof (tl_apart _ _ HT (i + 2 ^ k) k j l Hi' Hj). lia.
    - left. by apply (tl_apart _ _ HT j l i k). }
  split.
  - intros j l Hj. destruct (Hc j l Hj) as [[_ ->]|[Hj' _]]; [lia|]. by apply (tl_log _ _ HT j).
  - intros j l Hj. destruct (Hc j l Hj) as [[-> ->]|[Hj' _]]; [lia|]. by apply (tl_range _ _ HT j).
  - intros j l Hj. destruct (Hc j l Hj) as [[-> ->]|[Hj' _]]; [done|by apply (tl_align _ _ HT j)].
  - intros j l j' l' Hj Hj' Hlt.
    destruct (Hc j l Hj) as [[-> ->]|[H1 H2]], (Hc j' l' Hj') as [[-> ->]|[H3 H4]];
      try lia; by apply (tl_apart _ _ HT j l j' l').
  - intros x Hx. destruct (tl_cover _ _ HT x Hx) as (j & l & Hj & Hjx).
    destruct (decide (j = i)) as [->|Hne]; [|destruct (decide (j = i + 2 ^ k)) as [->|Hne']].
    + exists i, (k + 1). rewrite HT', decide_True by done. simplify_eq. split; [done|lia].
    + exists i, (k + 1). rewrite HT', decide_True by done. simplify_eq. split; [done|lia].
    + exists j, l. by rewrite HT', !decide_False.
Qed.

End tiles.

(** ** The free lists

    [F] maps the first atoms of the free blocks to the logarithms of their
    sizes. *)
Record listed (g : Mem5Global) (F : gmap Z Z) (L : Z -> list Z) : Prop := {
  fr_len : length (aiFreelist g) = 31%nat;
  fr_range : forall i l, F !! i = Some l -> 0 <= i /\ 0 <= l <= LOGMAX;
  fr_first : forall l, 0 <= l <= LOGMAX -> getFreelist g l = Some (hd (-1) (L l));
  fr_dll : forall l, 0 <= l <= LOGMAX -> dll (zPool g) (-1) (L l) (-1);
  fr_nodup : forall l, 0 <= l <= LOGMAX -> NoDup (L l);
  fr_elem : forall l i, 0 <= l <= LOGMAX -> i ∈ L l <-> F !! i = Some l
}.

Definition lists_ok (g : Mem5Global) (F : gmap Z Z) : Prop := exists L, listed g F L.

(** [g'] has the links of the free blocks and of [i] in another way, and
    other list heads. *)
Record moved (F : gmap Z Z) (i : Z) (g g' : Mem5Global) : Prop := {
  mv_atom : szAtom g' = szAtom g;
  mv_blocks : nBlock g' = nBlock g;
  mv_ctrl : aCtrl g' = aCtrl g;
  mv_dom : forall a, is_Some (zPool g !! a) -> is_Some (zPool g' !! a);
  mv_pool : forall a, F !! a = None -> a <> i -> zPool g' !! a = zPool g !! a
}.

Lemma setFreelist_ok g l x :
  length (aiFreelist g) = 31%nat -> 0 <= l <= LOGMAX ->
  setFreelist l x g = Some (set_lists g (setZ (aiFreelist g) l x))
  /\ (forall l', 0 <= l' <= LOGMAX ->
        getFreelist (set_lists g (setZ (aiFreelist g) l x)) l'
        = if decide (l' = l) then Some x else getFreelist g l').
Proof.
  intros Hlen Hl. unfold LOGMAX in *. unfold setFreelist, getFreelist.
  destruct (Z.leb_spec 0 l); [|lia].
  destruct (lookup_lt_is_Some_2 (aiFreelist g) (Z.to_nat l)) as [y ->]; [lia|]. split; [done|].
  intros l' Hl'. destruct (Z.leb_spec 0 l'); [|lia]. simpl. unfold setZ. case_decide as Hd.
  - subst. by rewrite list_lookup_insert_eq by lia.
  - by rewrite list_lookup_insert_ne by lia.
Qed.

Lemma listed_linkable g F L l :
  listed g F L -> 0 <= l <= LOGMAX -> linkable (fun a => a <? 0) (L l).
Proof.
  intros HL Hl. apply Forall_forall. intros a Ha%(fr_elem _ _ _ HL); [|done].
  apply Z.ltb_ge. by apply (fr_range _ _ _ HL a l).
Qed.

Lemma listed_apart g F L l l' a :
  listed g F L -> 0 <= l <= LOGMAX -> 0 <= l' <= LOGMAX -> a ∈ L l -> a ∈ L l' -> l = l'.
Proof.
  intros HL Hl Hl' H1%(fr_elem _ _ _ HL) H2%(fr_elem _ _ _ HL); [|done|done]. congruence.
Qed.

(** What the code does to the lists of size [l], with the block between [l1]
    and [l2]. *)
Lemma unlink_code g l i l1 l2 :
  length (aiFreelist g) = 31%nat -> 0 <= l <= LOGMAX ->
  getFreelist g l = Some (hd (-1) (l1 ++ i :: l2)) ->
  dll (zPool g) (-1) (l1 ++ i :: l2) (-1) -> NoDup (l1 ++ i :: l2) ->
  linkable (fun a => a <? 0) (l1 ++ i :: l2) ->
  exists m h, memsys5Unlink i l g = Some (set_lists (set_pool g m) h)
    /\ length h = 31%nat
    /\ (forall l', 0 <= l' <= LOGMAX -> getFreelist (set_lists g h) l'
         = if decide (l' = l) then Some (hd (-1) (l1 ++ l2)) else getFreelist g l')
    /\ dll m (-1) (l1 ++ l2) (-1) /\ relinked (l1 ++ l2) (zPool g) m.
Proof.
  intros Hlen Hl Hf Hd Hnd Hlk.
  destruct (dll_elem _ _ _ _ _ _ Hd) as (e & He & Hp & Hn).
  destruct (relink_around (fun a => a <? 0) (-1) eq_refl _ _ _ _ Hd Hnd Hlk)
    as (m1 & m2 & E1 & E2 & Hd2 & Hr). cbv beta in E1, E2. exists m2.
  unfold memsys5Unlink. rewrite He. simpl. rewrite Hp, Hn, Z.geb_leb, Z.leb_antisym.
  destruct (setFreelist_ok g l (hd (-1) l2) Hlen Hl) as [-> Hg].
  destruct l1 as [|z l1 _] using rev_ind.
  - exists (setZ (aiFreelist g) l (hd (-1) l2)). simpl in E1, E2 |- *. injection E1 as <-.
    split; [|by rewrite length_setZ].
    destruct (negb _); [|by injection E2 as <-]. unfold storeLink. simpl. by rewrite E2.
  - exists (aiFreelist g). rewrite endOf_snoc in *.
    apply Forall_app in Hlk as [[_ [Hz _]%Forall_cons]%Forall_app _].
    rewrite Hz in *. cbn [negb] in *. unfold storeLink. rewrite E1. simpl.
    split; [|split; [done|split; [|done]]].
    + destruct (negb _); [by rewrite E2|by injection E2 as <-].
    + intros l' Hl'. replace (set_lists g (aiFreelist g)) with g by by destruct g.
      case_decide; [subst|done]. rewrite Hf, <- !app_assoc. by destruct l1.
Qed.

Lemma memsys5Unlink_ok g F i l :
  lists_ok g F -> F !! i = Some l ->
  exists g', memsys5Unlink i l g = Some g' /\ lists_ok g' (delete i F) /\ moved F i g g'.
Proof.
  intros [L HL] Hi. destruct (fr_range _ _ _ HL i l Hi) as [Hi0 Hl].
  pose proof (proj2 (fr_elem _ _ _ HL l i Hl) Hi) as (l1 & l2 & E)%list_elem_of_split.
  pose proof (fr_dll _ _ _ HL l Hl) as Hd. pose proof (fr_nodup _ _ _ HL l Hl) as Hnd.
  pose proof (listed_linkable _ _ _ l HL Hl) as Hlk. pose proof (fr_first _ _ _ HL l Hl) as Hf.
  rewrite E in Hd, Hnd, Hlk, Hf.
  destruct (unlink_code g l i l1 l2 (fr_len _ _ _ HL) Hl Hf Hd Hnd Hlk)
    as (m & h & -> & Hh & Hg & Hd2 & Hr).
  eexists. split; [done|]. assert (forall a, a ∈ l1 ++ l2 -> F !! a = Some l) as HF.
  { intros a Ha. apply (fr_elem _ _ _ HL l a Hl). rewrite E. set_solver. }
  apply NoDup_app in Hnd as (Hn1 & Hdis & [Hn2 Hn3]%NoDup_cons).
  split.
  - exists (fun l' => if decide (l' = l) then l1 ++ l2 else L l'). split; simpl.
    + done.
    + intros j l' [_ Hj]%lookup_delete_Some. by apply (fr_range _ _ _ HL).
    + intros l' Hl'. replace (getFreelist _ _) with (getFreelist (set_lists g h) l') by done.
      rewrite Hg by done. case_decide; [done|]. by apply (fr_first _ _ _ HL).
    + intros l' Hl'. case_decide as Hd'; [done|]. eapply dll_frame; [|by apply (fr_dll _ _ _ HL)].
      intros a Ha%(fr_elem _ _ _ HL); [|done]. apply Hr. intros Ha'%HF. congruence.
    + intros l' Hl'. case_decide as Hd'; [|by apply (fr_nodup _ _ _ HL)].
      apply NoDup_app. set_solver.
    + intros l' j Hl'. rewrite lookup_delete_Some. case_decide as Hd'.
      * subst l'. rewrite <- (fr_elem _ _ _ HL l j Hl), E. specialize (Hdis j). set_solver.
      * rewrite (fr_elem _ _ _ HL l' j Hl'). split; [|tauto]. intros Hj. split; [congruence|done].
  - split; simpl; [done|done|done| |].
    + intros a Ha. by eapply relinked_some.
    + intros a Ha Hne. apply Hr. intros Ha'%HF. congruence.
Qed.

(** What the code does to the list of size [l]. *)
Lemma link_code g l i Ll :
  length (aiFreelist g) = 31%nat -> 0 <= l <= LOGMAX -> 0 <= i -> is_Some (zPool g !! i) ->
  getFreelist g l = Some (hd (-1) Ll) -> dll (zPool g) (-1) Ll (-1) -> NoDup (i :: Ll) ->
  linkable (fun a => a <? 0) Ll ->
  exists m h, memsys5Link i l g = Some (set_lists (set_pool g m) h)
    /\ length h = 31%nat
    /\ (forall l', 0 <= l' <= LOGMAX -> getFreelist (set_lists g h) l'
         = if decide (l' = l) then Some i else getFreelist g l')
    /\ dll m (-1) (i :: Ll) (-1) /\ relinked (i :: Ll) (zPool g) m.
Proof.
  intros Hlen Hl Hi [e He] Hf Hd [Hni Hnd]%NoDup_cons Hlk.
  set (e2 := set_prev (-1) (set_next (hd (-1) Ll) e)). set (m2 := <[i := e2]> (zPool g)).
  pose proof (dll_insert_apart _ _ _ _ i e2 Hni Hd : dll m2 (-1) Ll (-1)) as Hd2.
  destruct (relink_begin (fun a => a <? 0) (-1) eq_refl _ _ _ i _ Hd2 Hnd Hlk) as (m & E & Hdm & Hr).
  cbv beta in E. exists m, (setZ (aiFreelist g) l i).
  destruct (setFreelist_ok g l i Hlen Hl) as [Hset Hg].
  split; [|split; [by rewrite length_setZ|split; [done|split; [split|]]]].
  - unfold memsys5Link. rewrite Hf. unfold storeLink. simpl. rewrite (store_ok _ _ _ _ He). simpl.
    erewrite store_ok by apply lookup_insert_eq. simpl.
    rewrite insert_insert_eq. rewrite Z.geb_leb, Z.leb_antisym. fold e2 m2.
    destruct (negb _); [rewrite E|injection E as <-]; simpl;
      unfold setFreelist in *; change (getFreelist _ l) with (getFreelist g l); by rewrite Hf.
  - exists e2. rewrite (proj2 Hr) by done. unfold m2. rewrite lookup_insert_eq. unfold e2.
    by autorewrite with linked.
  - done.
  - eapply relinked_trans; [|eapply relinked_mono; [|done]; by intros a; right].
    eapply relinked_insert; [done|by left|done|]. unfold e2. by autorewrite with linked.
Qed.

Lemma memsys5Link_ok g F i l :
  lists_ok g F -> F !! i = None -> 0 <= i -> 0 <= l <= LOGMAX -> is_Some (zPool g !! i) ->
  exists g', memsys5Link i l g = Some g' /\ lists_ok g' (<[i := l]> F) /\ moved F i g g'.
Proof.
  intros [L HL] Hi Hi0 Hl Hsome.
  assert (i ∉ L l) as Hni by (intros Hin%(fr_elem _ _ _ HL); [congruence|done]).
  destruct (link_code g l i (L l)) as (m & h & -> & Hh & Hg & Hd2 & Hr);
    [by apply HL|done|done|done|by apply HL|by apply HL|apply NoDup_cons; split; [done|by apply HL]
    |by eapply listed_linkable|].
  eexists. split; [done|].
  assert (forall a, a ∈ i :: L l -> F !! a = Some l \/ a = i) as HF.
  { intros a [->|Ha%(fr_elem _ _ _ HL)]%elem_of_cons; auto. }
  split.
  - exists (fun l' => if decide (l' = l) then i :: L l else L l'). split; simpl.
    + done.
    + intros j l' [[-> ->]|[_ Hj]]%lookup_insert_Some; [done|]. by apply (fr_range _ _ _ HL).
    + intros l' Hl'. replace (getFreelist _ _) with (getFreelist (set_lists g h) l') by done.
      rewrite Hg by done. case_decide; [done|]. by apply (fr_first _ _ _ HL).
    + intros l' Hl'. case_decide as Hd'; [done|]. eapply dll_frame; [|by apply (fr_dll _ _ _ HL)].
      intros a Ha%(fr_elem _ _ _ HL); [|done]. apply Hr. intros [Ha'|Ha']%HF; congruence.
    + intros l' Hl'. case_decide as Hd'; [|by apply (fr_nodup _ _ _ HL)].
      apply NoDup_cons. split; [done|by apply (fr_nodup _ _ _ HL)].
    + intros l' j Hl'. rewrite lookup_insert_Some. case_decide as Hd'.
      * subst l'. rewrite elem_of_cons, (fr_elem _ _ _ HL l j Hl).
        destruct (decide (i = j)); naive_solver.
      * rewrite (fr_elem _ _ _ HL l' j Hl'). destruct (decide (i = j)); naive_solver.
  - split; simpl; [done|done|done| |].
    + intros a Ha. by eapply relinked_some.
    + intros a Ha Hne. apply Hr. intros [Ha'|Ha']%HF; congruence.
Qed.

(** ** The invariant

    [U] maps the first atoms of the blocks that are checked out to the
    logarithms of their sizes; [x] is a block that is neither checked out nor
    on a free list, while an operation moves it. *)
Record arena (g : Mem5Global) (U F : gmap Z Z) (x : option (Z * Z)) (T : gmap Z Z) : Prop := {
  ar_atom : exists k, 3 <= k <= 12 /\ szAtom g = 2 ^ k;
  ar_size : 0 <= nBlock g /\ nBlock g * szAtom g < 2 ^ 31;
  ar_pool : forall i, 0 <= i < nBlock g -> is_Some (zPool g !! i);
  ar_ctrls : forall i, 0 <= i < nBlock g -> is_Some (aCtrl g !! i);
  ar_tiling : tiling (nBlock g) T;
  ar_blocks : forall i l, T !! i = Some l <-> U !! i = Some l \/ F !! i = Some l \/ x = Some (i, l);
  ar_used : forall i l, U !! i = Some l -> aCtrl g !! i = Some l /\ F !! i = None /\ x <> Some (i, l);
  ar_free : forall i l, F !! i = Some l -> aCtrl g !! i = Some (CTRL_FREE + l) /\ x <> Some (i, l);
  ar_lists : lists_ok g F;
  ar_merged : forall i l, F !! i = Some l -> F !! buddy i l <> Some l
}.

(** The user data of the blocks [U] is not changed. *)
Record kept (U : gmap Z Z) (g g' : Mem5Global) : Prop := {
  kp_atom : szAtom g' = szAtom g;
  kp_blocks : nBlock g' = nBlock g;
  kp_data : forall j l a, U !! j = Some l -> j <= a < j + 2 ^ l -> zPool g' !! a = zPool g !! a
}.

Lemma kept_refl U g : kept U g g.
Proof. done. Qed.

Lemma kept_trans U g1 g2 g3 : kept U g1 g2 -> kept U g2 g3 -> kept U g1 g3.
Proof.
  intros [A1 B1 C1] [A2 B2 C2]. split; [congruence|congruence|].
  intros j l a Hj Ha. rewrite (C2 j l), (C1 j l) by done. done.
Qed.

Lemma kept_mono U U' g g' : U' ⊆ U -> kept U g g' -> kept U' g g'.
Proof.
  intros Hs [A B C]. split; [done|done|]. intros j l a Hj. apply C. by eapply lookup_weaken.
Qed.

Lemma lor_free l : 0 <= l <= LOGMAX -> Z.lor CTRL_FREE l = CTRL_FREE + l.
Proof.
  unfold LOGMAX, CTRL_FREE. intros Hl. rewrite <- Z.add_lor_land. enough (Z.land 32 l = 0) by lia.
  rewrite Z.land_comm. rewrite <- (Z.mod_small l (2 ^ 5)) by lia. rewrite <- Z.land_ones by lia.
  by rewrite <- Z.land_assoc, Z.land_0_r.
Qed.

Section arena.
Context {g : Mem5Global} {U F : gmap Z Z} {x : option (Z * Z)} {T : gmap Z Z} (HA : arena g U F x T).

Lemma arena_log i l : T !! i = Some l -> 0 <= l < 28.
Proof using HA.
  intros Hi. destruct (ar_atom _ _ _ _ _ HA) as (k & Hk & E). destruct (ar_size _ _ _ _ _ HA) as [_ Hs].
  pose proof (tl_log _ _ (ar_tiling _ _ _ _ _ HA) i l Hi) as Hl. split; [done|].
  pose proof (tl_range _ _ (ar_tiling _ _ _ _ _ HA) i l Hi) as Hr.
  destruct (Z.lt_ge_cases l 28) as [|Hge]; [done|].
  pose proof (pow2_le 28 l Hge). pose proof (pow2_le 3 k ltac:(lia)). rewrite E in Hs. nia.
Qed.

Lemma arena_apart i l : T !! i = Some l -> U !! i = None -> forall j l', U !! j = Some l' -> ~ j <= i < j + 2 ^ l'.
Proof using HA.
  intros Hi Hu j l' Hj Hr. assert (T !! j = Some l') as Hj' by (apply HA; auto).
  assert (i = j) as -> by (by apply (tile_head _ _ (ar_tiling _ _ _ _ _ HA) i l j l')). congruence.
Qed.

(** Links of free blocks are not in user data. *)
Lemma kept_moved i g' :
  (forall j l', U !! j = Some l' -> ~ j <= i < j + 2 ^ l') -> moved F i g g' -> kept U g g'.
Proof using HA.
  intros Hi [A B C D E]. split; [done|done|]. intros j l' a Hj Ha. apply E.
  - destruct (F !! a) as [la|] eqn:Ea; [|done]. destruct (arena_apart a la) with j l'; [apply HA; auto| |done|done].
    destruct (U !! a) as [lu|] eqn:Eu; [|done]. apply (ar_used _ _ _ _ _ HA) in Eu as (_ & Hf & _). congruence.
  - intros ->. by destruct (Hi j l').
Qed.

Lemma arena_pool i l : T !! i = Some l -> is_Some (zPool g !! i) /\ 0 <= i.
Proof using HA.
  intros Hi. pose proof (tl_range _ _ (ar_tiling _ _ _ _ _ HA) i l Hi).
  pose proof (arena_log i l Hi). assert (0 < 2 ^ l) by lia. split; [apply HA|]; lia.
Qed.

Lemma free_not_used i l : F !! i = Some l -> U !! i = None.
Proof using HA.
  intros Hf. destruct (U !! i) as [l'|] eqn:E; [|done].
  apply (ar_used _ _ _ _ _ HA) in E as (_ & E & _). congruence.
Qed.

End arena.

(** A free block is taken from its list. *)
Lemma take_free g U F T i l :
  arena g U F None T -> F !! i = Some l ->
  exists g', memsys5Unlink i l g = Some g' /\ arena g' U (delete i F) (Some (i, l)) T /\ kept U g g'.
Proof.
  intros HA Hi. destruct (memsys5Unlink_ok g F i l) as (g' & E & Hl & Hm); [apply HA|done|].
  assert (T !! i = Some l) as HT by (apply HA; auto).
  pose proof (free_not_used HA i l Hi) as Hu. exists g'. split; [done|].
  split; [|by eapply (kept_moved HA), Hm; apply (arena_apart HA i l)]. destruct Hm as [M1 M2 M3 M4 M5], HA.
  split; rewrite ?M1, ?M2, ?M3; auto.
  - intros j l'. rewrite ar_blocks0, lookup_delete_Some. destruct (decide (i = j)) as [->|Hne].
    + naive_solver.
    + naive_solver.
  - intros j l' Hj. destruct (ar_used0 j l' Hj) as (H1 & H2 & _).
    split; [done|]. split; [|naive_solver]. by apply lookup_delete_None; right.
  - intros j l' [Hne Hj]%lookup_delete_Some. split; [by apply ar_free0|naive_solver].
  - intros j l' [Hne Hj]%lookup_delete_Some [_ Hb]%lookup_delete_Some. by apply (ar_merged0 j l').
Qed.

Lemma lists_ctrls g F c : lists_ok g F -> lists_ok (set_ctrls g c) F.
Proof. intros [L []]. by exists L. Qed.

Lemma setCtrl_ok g j v c : aCtrl g !! j = Some c -> setCtrl j v g = Some (set_ctrls g (<[j := v]> (aCtrl g))).
Proof. intros Hj. unfold setCtrl. by rewrite (store_ok _ _ _ _ Hj). Qed.

(** The control byte of an atom that begins no block of [U] or [F]. *)
Lemma set_spare g U F x T j v :
  arena g U F x T -> U !! j = None -> F !! j = None -> 0 <= j < nBlock g ->
  let g' := set_ctrls g (<[j := v]> (aCtrl g)) in
  setCtrl j v g = Some g' /\ arena g' U F x T.
Proof.
  intros HA Hu Hf Hj. destruct (ar_ctrls _ _ _ _ _ HA j Hj) as [c Hc]. split; [by eapply setCtrl_ok|].
  destruct HA. split; simpl; auto.
  - intros i Hi. destruct (decide (j = i)) as [->|]; [rewrite lookup_insert_eq|rewrite lookup_insert_ne]; eauto.
  - intros i l Hi. rewrite lookup_insert_ne by congruence. auto.
  - intros i l Hi. rewrite lookup_insert_ne by congruence. auto.
  - by apply lists_ctrls.
Qed.

Section limbo.
Context {g : Mem5Global} {U F : gmap Z Z} {T : gmap Z Z} {i l : Z} (HA : arena g U F (Some (i, l)) T).

Lemma limbo_tile : T !! i = Some l.
Proof using HA. apply HA. auto. Qed.

Lemma limbo_used : U !! i = None.
Proof using HA.
  destruct (U !! i) as [k|] eqn:E; [|done]. assert (T !! i = Some k) by (apply HA; auto).
  pose proof limbo_tile. simplify_eq. by apply (ar_used _ _ _ _ _ HA) in E as (_ & _ & []).
Qed.

Lemma limbo_free : F !! i = None.
Proof using HA.
  destruct (F !! i) as [k|] eqn:E; [|done]. assert (T !! i = Some k) by (apply HA; auto).
  pose proof limbo_tile. simplify_eq. by apply (ar_free _ _ _ _ _ HA) in E as (_ & []).
Qed.

(** The atoms of the block that is moved begin no other block. *)
Lemma limbo_inside j : i <= j < i + 2 ^ l -> U !! j = None /\ F !! j = None /\ 0 <= j < nBlock g.
Proof using HA.
  intros Hj. pose proof limbo_tile as Hi. pose proof (ar_tiling _ _ _ _ _ HA) as HT.
  pose proof (tl_range _ _ HT i l Hi).
  assert (forall k, T !! j = Some k -> j = i) as Hk by (intros k E; by apply (tile_head _ _ HT j k i l)).
  split_and!; [| |lia|lia].
  - destruct (U !! j) as [k|] eqn:E; [|done]. rewrite (Hk k) in E by (apply HA; auto).
    by rewrite limbo_used in E.
  - destruct (F !! j) as [k|] eqn:E; [|done]. rewrite (Hk k) in E by (apply HA; auto).
    by rewrite limbo_free in E.
Qed.

Lemma limbo_apart a : i <= a < i + 2 ^ l -> forall j l', U !! j = Some l' -> ~ j <= a < j + 2 ^ l'.
Proof using HA.
  intros Ha j l' Hj Hr. pose proof limbo_tile as Hi. pose proof limbo_used as Hu.
  assert (T !! j = Some l') as Hj' by (apply HA; auto).
  pose proof (tl_apart _ _ (ar_tiling _ _ _ _ _ HA)) as Hap.
  destruct (Z.lt_trichotomy i j) as [Hlt|[->|Hlt]]; [|congruence|].
  - specialize (Hap i l j l' Hi Hj' Hlt). lia.
  - specialize (Hap j l' i l Hj' Hi Hlt). lia.
Qed.

(** The block is checked out. *)
Lemma give_used :
  exists g', setCtrl i l g = Some g' /\ arena g' (<[i := l]> U) F None T /\ kept U g g'.
Proof using HA.
  pose proof limbo_tile as Hi. pose proof (arena_log HA i l Hi) as Hl. assert (0 < 2 ^ l) by lia.
  destruct (limbo_inside i ltac:(lia)) as (Hu & Hf & Hr).
  destruct (set_spare g U F _ T i l HA Hu Hf Hr) as [-> HA']. eexists. split; [done|]. split; [|done].
  destruct HA'. split; simpl in *; auto.
  - intros j k. rewrite ar_blocks0, lookup_insert_Some. destruct (decide (i = j)) as [->|]; naive_solver.
  - intros j k [[<- <-]|[Hne Hj]]%lookup_insert_Some; [by rewrite lookup_insert_eq|].
    split_and!; [by apply ar_used0|by eapply ar_used0|done].
  - intros j k Hj. split; [by apply ar_free0|done].
Qed.

(** The block becomes free. *)
Lemma give_free :
  aCtrl g !! i = Some (CTRL_FREE + l) -> F !! buddy i l <> Some l ->
  exists g', memsys5Link i l g = Some g' /\ arena g' U (<[i := l]> F) None T /\ kept U g g'.
Proof using HA.
  intros Hc Hb. pose proof limbo_tile as Hi. pose proof (arena_log HA i l Hi) as Hl.
  destruct (arena_pool HA i l Hi) as [Hp Hi0].
  destruct (memsys5Link_ok g F i l) as (g' & E & Hls & Hm);
    [apply HA|apply limbo_free|done|unfold LOGMAX; lia|done|].
  exists g'. split; [done|]. split; [|by eapply (kept_moved HA), Hm; apply (arena_apart HA i l), limbo_used].
  pose proof limbo_used as Hu. pose proof limbo_free as Hf.
  assert ((2 ^ l | i)) as Ha by (by apply HA). pose proof (ar_tiling _ _ _ _ _ HA) as HT.
  destruct Hm as [M1 M2 M3 M4 M5], HA. split; rewrite ?M1, ?M2, ?M3; auto.
  - intros j k. rewrite ar_blocks0, lookup_insert_Some. destruct (decide (i = j)) as [->|]; naive_solver.
  - intros j k Hj. destruct (ar_used0 j k Hj) as (H1 & H2 & _). split; [done|]. split; [|done].
    rewrite lookup_insert_ne; [done|]. by intros <-; rewrite Hu in Hj.
  - intros j k [[<- <-]|[Hne Hj]]%lookup_insert_Some; [done|]. split; [by apply ar_free0|done].
  - assert (forall j k, F !! j = Some k -> (2 ^ k | j) /\ 0 <= k) as Hal.
    { intros j k Hj. assert (T !! j = Some k) by (apply ar_blocks0; auto). split; [by apply HT|by eapply HT]. }
    intros j k [[<- <-]|[Hne Hj]]%lookup_insert_Some [[Hjb Hk]|[Hne' Hj']]%lookup_insert_Some.
    + destruct (buddy_halves i l ltac:(lia) Ha) as (q & Hq). assert (0 < 2 ^ l) by lia. nia.
    + done.
    + subst k. destruct (Hal j l Hj) as [Haj _]. destruct (buddy_invol j l ltac:(lia) Haj) as [Hinv _].
      rewrite <- Hjb in Hinv. by rewrite Hinv in Hb.
    + by apply (ar_merged0 j k).
Qed.

End limbo.

(** A block that is checked out is taken back. *)
Lemma take_used g U F T i l :
  arena g U F None T -> U !! i = Some l -> arena g (delete i U) F (Some (i, l)) T.
Proof.
  intros HA Hi. pose proof HA as []. destruct (ar_used0 i l Hi) as (_ & Hf & _). split; auto.
  - intros j k. rewrite ar_blocks0, lookup_delete_Some. destruct (decide (i = j)) as [->|]; naive_solver.
  - intros j k [Hne Hj]%lookup_delete_Some. destruct (ar_used0 j k Hj) as (H1 & H2 & _).
    split_and!; [done|done|naive_solver].
  - intros j k Hj. split; [by apply ar_free0|]. intros [= -> ->]. congruence.
Qed.

(** The upper half of the block that is moved becomes free. *)
Lemma split_step g U F T i k :
  arena g U F (Some (i, k + 1)) T -> 0 <= k ->
  exists g1 g2 T', setCtrl (i + 2 ^ k) (Z.lor CTRL_FREE k) g = Some g1
    /\ memsys5Link (i + 2 ^ k) k g1 = Some g2
    /\ arena g2 U (<[i + 2 ^ k := k]> F) (Some (i, k)) T' /\ kept U g g2.
Proof.
  intros HA Hk. pose proof (limbo_tile HA) as Hi. pose proof (arena_log HA i _ Hi) as Hl.
  assert (2 ^ (k + 1) = 2 * 2 ^ k) as E2 by (rewrite Z.pow_add_r by lia; lia). assert (0 < 2 ^ k) by lia.
  destruct (limbo_inside HA (i + 2 ^ k) ltac:(lia)) as (Hu & Hf & Hr).
  rewrite lor_free by (unfold LOGMAX; lia).
  destruct (set_spare _ _ _ _ _ _ (CTRL_FREE + k) HA Hu Hf Hr) as [E1 HA1].
  set (g1 := set_ctrls g _) in *.
  pose proof (tl_range _ _ (ar_tiling _ _ _ _ _ HA) i _ Hi) as Hri.
  destruct (memsys5Link_ok g1 F (i + 2 ^ k) k) as (g2 & EL & Hls & Hm);
    [apply HA1|done|lia|unfold LOGMAX; lia|by apply HA1|].
  set (T' := <[i := k]> (<[i + 2 ^ k := k]> T)).
  assert (forall j, T' !! j = if decide (j = i \/ j = i + 2 ^ k) then Some k else T !! j) as HT'.
  { intros j. unfold T'. case_decide as Hd.
    - destruct (decide (j = i)) as [->|]; [by rewrite lookup_insert_eq|rewrite lookup_insert_ne by done].
      destruct Hd as [?| ->]; [done|by rewrite lookup_insert_eq].
    - rewrite !lookup_insert_ne; [done|naive_solver|naive_solver]. }
  destruct (tile_split _ T (ar_tiling _ _ _ _ _ HA) i k T' Hi Hk HT') as [Htile Hnone].
  exists g1, g2, T'. split; [done|]. split; [done|].
  pose proof (limbo_used HA) as Hui. pose proof (limbo_free HA) as Hfi.
  assert (aCtrl g1 !! (i + 2 ^ k) = Some (CTRL_FREE + k)) as Hc by apply lookup_insert_eq.
  split.
  - assert (buddy (i + 2 ^ k) k = i) as Hbud.
    { by apply upper_buddy; [|apply (ar_tiling _ _ _ _ _ HA)]. }
    assert (forall j k', F !! j = Some k' -> (2 ^ k' | j) /\ 0 <= k') as Hal.
    { intros j k' Hj. assert (T !! j = Some k') as Ht by (apply HA; auto).
      split; [by apply (ar_tiling _ _ _ _ _ HA)|by apply (ar_tiling _ _ _ _ _ HA) in Ht]. }
    destruct Hm as [M1 M2 M3 M4 M5], HA1. split; rewrite ?M1, ?M2, ?M3; auto.
    + intros j l. rewrite HT', lookup_insert_Some. case_decide as Hd.
      * naive_solver.
      * rewrite ar_blocks0. naive_solver.
    + intros j l Hj. destruct (ar_used0 j l Hj) as (H1 & H2 & _). split_and!; [done| |naive_solver].
      rewrite lookup_insert_ne; [done|]. by intros <-; rewrite Hu in Hj.
    + intros j l [[<- <-]|[Hne Hj]]%lookup_insert_Some; [split; [done|]; intros [= Heq]; lia|].
      split; [by apply ar_free0|]. naive_solver.
    + intros j l [[<- <-]|[Hne Hj]]%lookup_insert_Some [[Hjb Hlk]|[Hne' Hj']]%lookup_insert_Some.
      * lia.
      * rewrite Hbud in Hj'. congruence.
      * subst l. destruct (Hal j k Hj) as [Haj _]. destruct (buddy_invol j k Hk Haj) as [Hinv _].
        rewrite <- Hjb, Hbud in Hinv. congruence.
      * by apply (ar_merged0 j l).
  - apply (kept_trans _ _ g1); [done|]. eapply (kept_moved HA1), Hm. apply (limbo_apart HA). lia.
Qed.

(** The block that is moved absorbs its buddy. *)
Lemma merge_step g U F T i k :
  arena g U F (Some (i, k)) T -> F !! buddy i k = Some k ->
  exists g' T', memsys5Unlink (buddy i k) k g = Some g'
    /\ arena g' U (delete (buddy i k) F) (Some (Z.min i (buddy i k), k + 1)) T' /\ kept U g g'
    /\ aCtrl g' = aCtrl g.
Proof.
  intros HA Hb. set (b := buddy i k) in *. pose proof (limbo_tile HA) as Hi.
  assert (T !! b = Some k) as HTb by (apply HA; auto).
  pose proof (arena_log HA i k Hi) as Hk. pose proof (ar_tiling _ _ _ _ _ HA) as HT.
  pose proof (free_not_used HA b k Hb) as Hub. pose proof (limbo_free HA) as Hfi.
  pose proof (limbo_used HA) as Hui.
  destruct (memsys5Unlink_ok g F b k) as (g' & E & Hls & Hm); [apply HA|done|].
  assert (2 ^ (k + 1) = 2 * 2 ^ k) as E2 by (rewrite Z.pow_add_r by lia; lia). assert (0 < 2 ^ k) by lia.
  assert (exists q, Z.min i b = q * 2 ^ (k + 1) /\ Z.max i b = Z.min i b + 2 ^ k) as (q & Hq & Hmax).
  { destruct (buddy_halves i k ltac:(lia) (tl_align _ _ HT i k Hi)) as (q & Hq).
    fold b in Hq. exists q. rewrite E2. destruct Hq as [[-> ->]|[-> ->]]; nia. }
  set (T' := <[Z.min i b := k + 1]> (delete (Z.max i b) T)).
  assert (tiling (nBlock g) T') as Htile.
  { apply (tile_merge _ T HT (Z.min i b) k).
    - destruct (Z.min_spec i b) as [[_ ->]|[_ ->]]; done.
    - rewrite <- Hmax. destruct (Z.max_spec i b) as [[_ ->]|[_ ->]]; done.
    - by exists q.
    - intros j. unfold T'. rewrite <- Hmax. case_decide as Hd; [subst; by rewrite lookup_insert_eq|].
      rewrite lookup_insert_ne by done. case_decide as Hd'; [subst; by rewrite lookup_delete_eq|].
      by rewrite lookup_delete_ne. }
  exists g', T'. split; [done|]. split; [|split; [by eapply (kept_moved HA), Hm; apply (arena_apart HA b k)|apply Hm]].
  assert (Z.min i b = i \/ Z.min i b = b) as Hmin by lia.
  assert (Z.max i b = i \/ Z.max i b = b) as Hmx by lia.
  destruct Hm as [M1 M2 M3 M4 M5], HA. split; rewrite ?M1, ?M2, ?M3; auto.
  - intros j l. unfold T'. rewrite lookup_insert_Some, !lookup_delete_Some, ar_blocks0.
    assert (j <> i -> j <> b -> Z.min i b <> j /\ Z.max i b <> j) as Hother by lia. split.
    + intros [[<- <-]|(Hn1 & Hn2 & Hcase)]; [auto|].
      destruct Hcase as [?|[?|[= -> ->]]]; [auto| |lia]. right. left. split; [lia|done].
    + intros [Hj|[[Hne Hj]|[= <- <-]]]; [right|right|auto].
      * destruct Hother as [? ?]; [by intros ->; rewrite Hj in Hui|by intros ->; rewrite Hj in Hub|auto].
      * destruct Hother as [? ?]; [by intros ->; rewrite Hj in Hfi|done|auto].
  - intros j l Hj. destruct (ar_used0 j l Hj) as (H1 & H2 & H3). split_and!; [done| |].
    + apply lookup_delete_None. auto.
    + intros [= E3 _]. destruct Hmin; congruence.
  - intros j l [Hne Hj]%lookup_delete_Some. split; [by apply ar_free0|].
    intros [= E3 _]. destruct Hmin; congruence.
  - intros j l [Hne Hj]%lookup_delete_Some [_ Hj']%lookup_delete_Some. by apply (ar_merged0 j l).
Qed.

(** ** Allocation *)

(** Go on after an operation, without unfolding the loops that follow. *)
Lemma bind_some {A B} (f : A -> option B) a : Some a ≫= f = f a.
Proof. done. Qed.

Ltac run := rewrite bind_some; cbv beta iota zeta.

Lemma int32_ok v : 0 <= v < 2 ^ 31 -> int32 v = Some v.
Proof. intros Hv. unfold int32. destruct (Z.leb_spec (- 2 ^ 31) v), (Z.ltb_spec v (2 ^ 31)); try lia; done. Qed.

(** The least power of two that is enough. *)
Lemma sizeLoop_ok fuel k a n :
  0 <= a -> 0 <= k -> k + a <= 30 -> n <= 2 ^ 30 -> (a = 0 \/ 2 ^ (k + a - 1) < n) ->
  30 - (k + a) <= Z.of_nat fuel ->
  exists l, sizeLoop fuel (2 ^ (k + a)) a n = Some (2 ^ (k + l), l)
    /\ a <= l /\ k + l <= 30 /\ n <= 2 ^ (k + l) /\ (l = 0 \/ 2 ^ (k + l - 1) < n).
Proof.
  revert a. induction fuel as [|fuel IH]; intros a Ha Hk Hka Hn Hlow Hfuel; simpl.
  - assert (k + a = 30) as -> by lia. destruct (Z.ltb_spec (2 ^ 30) n); [lia|].
    exists a. replace (k + a) with 30 in * by lia. repeat split; [lia|lia|done|done].
  - destruct (Z.ltb_spec (2 ^ (k + a)) n) as [Hlt|Hge]; [|exists a; repeat split; [lia|done|done|done]].
    assert (k + a < 30).
    { destruct (Z.lt_ge_cases (k + a) 30) as [|H30]; [done|]. pose proof (pow2_le 30 (k + a) H30). lia. }
    assert (2 ^ (k + a) * 2 = 2 ^ (k + (a + 1))) as E by (rewrite Z.add_assoc, (Z.pow_add_r 2 (k + a) 1) by lia; lia).
    pose proof (pow2_le (k + (a + 1)) 30 ltac:(lia)). pose proof (Z.pow_nonneg 2 (k + (a + 1)) ltac:(lia)).
    rewrite int32_ok by (rewrite E; split; [done|eapply Z.le_lt_trans; [done|lia]]). simpl. rewrite E.
    destruct (IH (a + 1)) as (l & -> & Hl1 & Hl2); [lia|done|lia|done| |lia|].
    + right. by replace (k + (a + 1) - 1) with (k + a) by lia.
    + exists l. repeat split; [lia|apply Hl2..].
Qed.

(** The first size of which there is a free block. *)
Lemma binLoop_ok fuel g F a :
  lists_ok g F -> 0 <= a <= 31 -> 31 - a <= Z.of_nat fuel ->
  exists b, binLoop fuel a g = Some b /\ a <= b
    /\ (b <= LOGMAX /\ (exists i, getFreelist g b = Some i /\ F !! i = Some b)
        \/ b = 31 /\ forall i l, a <= l -> F !! i <> Some l).
Proof.
  intros [L HL]. unfold LOGMAX. revert a.
  assert (forall a, 30 < a -> forall i l, a <= l -> F !! i <> Some l) as Hbig.
  { intros a Ha i l Hl Hi%(fr_range _ _ _ HL). unfold LOGMAX in Hi. lia. }
  induction fuel as [|fuel IH]; intros a Ha Hfuel; simpl; unfold LOGMAX;
    (destruct (Z.gtb_spec a 30) as [Hgt|Hle];
      [exists a; split; [done|]; split; [lia|]; right; split; [lia|by apply Hbig]|]); [lia|].
  rewrite (fr_first _ _ _ HL) by (unfold LOGMAX; lia). simpl. destruct (L a) as [|i La] eqn:E; simpl.
  - destruct (IH (a + 1)) as (b & -> & Hab & Hb); [lia|lia|]. exists b. split; [done|]. split; [lia|].
    destruct Hb as [Hb|[-> Hb]]; [by left|]. right. split; [done|]. intros j l Hl Hj.
    destruct (decide (l = a)) as [->|]; [|by apply (Hb j l); [lia|]].
    apply (fr_elem _ _ _ HL) in Hj; [|unfold LOGMAX; lia]. rewrite E in Hj. by apply elem_of_nil in Hj.
  - assert (F !! i = Some a) as Hi by (apply (fr_elem _ _ _ HL); [unfold LOGMAX; lia|rewrite E; by left]).
    pose proof (fr_range _ _ _ HL i a Hi). destruct (Z.ltb_spec i 0); [lia|].
    exists a. split; [done|]. split; [lia|]. left. split; [lia|]. exists i. split; [|done].
    rewrite (fr_first _ _ _ HL) by (unfold LOGMAX; lia). by rewrite E.
Qed.

Lemma splitLoop_ok fuel g U F T i b l :
  arena g U F (Some (i, b)) T -> 0 <= l <= b -> b - l <= Z.of_nat fuel ->
  exists g' F' T', splitLoop fuel i b l g = Some g' /\ arena g' U F' (Some (i, l)) T' /\ kept U g g'.
Proof.
  revert g F T b. induction fuel as [|fuel IH]; intros g F T b HA Hl Hf; simpl;
    destruct (Z.gtb_spec b l) as [Hgt|Hle];
    try (assert (b = l) as -> by lia; by exists g, F, T); [lia|].
  replace b with (b - 1 + 1) in HA by lia.
  destruct (split_step g U F T i (b - 1)) as (g1 & g2 & T' & E1 & E2 & HA' & Hk); [done|lia|].
  rewrite Z.shiftl_1_l, E1. simpl. rewrite E2. simpl.
  destruct (IH _ _ _ _ HA') as (g' & F' & T'' & -> & HA'' & Hk'); [lia|lia|].
  exists g', F', T''. split; [done|]. split; [done|]. by eapply kept_trans.
Qed.

(** Without a free block of at least [2 ^ l] atoms, every aligned block of that
    size has an atom that is checked out. *)
Lemma region_cases g U F T l s :
  arena g U F None T -> 0 <= l -> (2 ^ l | s) -> 0 <= s -> s + 2 ^ l <= nBlock g ->
  (exists j l', U !! j = Some l' /\ j < s + 2 ^ l /\ s < j + 2 ^ l')
  \/ exists i l', F !! i = Some l' /\ l <= l' /\ i <= s /\ s + 2 ^ l <= i + 2 ^ l'.
Proof.
  intros HA Hl. pose proof (ar_tiling _ _ _ _ _ HA) as HT. revert s.
  pattern l. apply natlike_ind; [| |done]; clear l Hl.
  - intros s _ Hs Hn. destruct (tl_cover _ _ HT s) as (i & k & Hi & Hr); [lia|].
    pose proof (tl_log _ _ HT i k Hi). apply (ar_blocks _ _ _ _ _ HA) in Hi as [Hi|[Hi|[=]]].
    + left. exists i, k. split; [done|]. change (2 ^ 0) with 1. lia.
    + right. exists i, k. split; [done|]. change (2 ^ 0) with 1. lia.
  - intros l Hl IH s Hdiv Hs Hn. unfold Z.succ in *.
    assert (2 ^ (l + 1) = 2 * 2 ^ l) as E2 by (rewrite Z.pow_add_r by lia; lia). assert (0 < 2 ^ l) by lia.
    assert ((2 ^ l | s)) as Hd1 by (etrans; [apply (pow2_divide l (l + 1)); lia|done]).
    destruct (IH s) as [(j & k & Hj & Hr)|(i1 & l1 & Hi1 & Hl1 & Hr1)]; [done|lia|lia|left; exists j, k; split; [done|lia]|].
    destruct (IH (s + 2 ^ l)) as [(j & k & Hj & Hr)|(i2 & l2 & Hi2 & Hl2 & Hr2)];
      [by apply Z.divide_add_r|lia|lia|left; exists j, k; split; [done|lia]|].
    assert (T !! i1 = Some l1) as Ht1 by (apply HA; auto). assert (T !! i2 = Some l2) as Ht2 by (apply HA; auto).
    destruct (decide (l1 = l)) as [->|Hne1].
    + destruct (decide (l2 = l)) as [->|Hne2].
      * assert (i1 = s) as -> by lia. assert (i2 = s + 2 ^ l) as -> by lia.
        destruct (ar_merged _ _ _ _ _ HA (s + 2 ^ l) l Hi2). by rewrite upper_buddy.
      * right. exists i2, l2. destruct Hdiv as [q ->]. pose proof (tl_align _ _ HT i2 l2 Ht2) as Ha.
        assert ((2 ^ (l + 1) | 2 ^ l2)) as Hd by (apply pow2_divide; lia).
        destruct (aligned_around (2 ^ (l + 1)) q i2 (i2 + 2 ^ l2) (q * 2 ^ (l + 1) + 2 ^ l)) as [? ?];
          [lia|by etrans|apply Z.divide_add_r; [by etrans|done]|lia|lia|]. split_and!; [done|lia|lia|lia].
    + right. exists i1, l1. destruct Hdiv as [q ->]. pose proof (tl_align _ _ HT i1 l1 Ht1) as Ha.
      assert ((2 ^ (l + 1) | 2 ^ l1)) as Hd by (apply pow2_divide; lia).
      destruct (aligned_around (2 ^ (l + 1)) q i1 (i1 + 2 ^ l1) (q * 2 ^ (l + 1))) as [? ?];
        [lia|by etrans|apply Z.divide_add_r; [by etrans|done]|lia|lia|]. split_and!; [done|lia|lia|lia].
Qed.

(** The state between two calls, with the blocks [U] checked out. *)
Definition ready (g : Mem5Global) (U : gmap Z Z) : Prop := exists F T, arena g U F None T.

(** [2 ^ l] atoms are the least power of two of atoms for [n] bytes. *)
Definition fits (g : Mem5Global) (n l : Z) : Prop :=
  0 <= l /\ n <= szAtom g * 2 ^ l /\ (l = 0 \/ szAtom g * 2 ^ (l - 1) < n).

(** No block of [2 ^ l] atoms could be given out. *)
Definition exhausted (g : Mem5Global) (U : gmap Z Z) (l : Z) : Prop :=
  forall s, (2 ^ l | s) -> 0 <= s -> s + 2 ^ l <= nBlock g ->
  exists j l', U !! j = Some l' /\ j < s + 2 ^ l /\ s < j + 2 ^ l'.

Lemma malloc_ok g U n :
  ready g U -> 0 < n ->
  exists r g', memsys5Malloc n g = Some (r, g')
    /\ match r with
       | Some p => exists i l, p = i * szAtom g /\ fits g n l /\ U !! i = None
                     /\ ready g' (<[i := l]> U) /\ kept U g g'
       | None => g' = g /\ (2 ^ 30 < n \/ exists l, fits g n l /\ exhausted g U l)
       end.
Proof.
  intros (F & T & HA) Hn. unfold memsys5Malloc, memsys5MallocUnsafe.
  destruct (Z.gtb_spec n 0); [|lia]. destruct (Z.gtb_spec n 0x40000000) as [Hbig|Hbig].
  { exists None, g. split; [done|]. split; [done|]. left. lia. }
  destruct (ar_atom _ _ _ _ _ HA) as (k & Hk & Ek).
  destruct (sizeLoop_ok 31 k 0 n) as (l & El & Hl0 & Hl & Hmin & Hleast); [lia..|].
  rewrite Z.add_0_r in El. rewrite Ek, El. run.
  assert (fits g n l) as Hfits.
  { split; [done|]. rewrite Ek, <- Z.pow_add_r by lia. split; [done|].
    destruct Hleast as [|Hle]; [by left|]. right.
    destruct (Z.eq_dec l 0) as [->|]; [change (2 ^ (0 - 1)) with 0; lia|].
    rewrite <- Z.pow_add_r by lia. by replace (k + (l - 1)) with (k + l - 1) by lia. }
  destruct (binLoop_ok 31 g F l) as (b & -> & Hlb & Hb); [apply HA|lia|lia|]. run.
  destruct Hb as [(Hb & i & Hi & HF)|[-> Hnone]].
  - destruct (Z.gtb_spec b LOGMAX); [lia|]. rewrite Hi. run.
    destruct (take_free g U F T i b HA HF) as (g1 & -> & HA1 & Hk1). run.
    unfold LOGMAX in Hb. destruct (splitLoop_ok 31 g1 U _ T i b l HA1) as (g2 & F2 & T2 & E2 & HA2 & Hk2); [lia|lia|].
    rewrite E2. run.
    destruct (give_used HA2) as (g3 & -> & HA3 & Hk3). run.
    pose proof (kept_trans _ _ _ _ Hk1 (kept_trans _ _ _ _ Hk2 Hk3)) as Hkept.
    eexists _, g3. split; [done|]. exists i, l. rewrite (kp_atom _ _ _ Hkept), Ek.
    split; [done|]. split; [done|]. split; [by apply (limbo_used HA2)|]. split; [by exists F2, T2|done].
  - exists None, g. split; [done|]. split; [done|]. right. exists l. split; [done|].
    intros s Hs Hs0 Hsn. destruct (region_cases g U F T l s) as [|(i & l' & HF & Hl' & _)]; try done.
    by destruct (Hnone i l').
Qed.

(** ** Freeing *)

Lemma buddy_range g U F T i k :
  arena g U F (Some (i, k)) T ->
  0 <= buddy i k < 2 ^ 30 /\ (Z.land (Z.shiftr i k) 1 <> 0 -> buddy i k < nBlock g).
Proof.
  intros HA. pose proof (limbo_tile HA) as Hi. pose proof (arena_log HA i k Hi) as Hk.
  pose proof (tl_range _ _ (ar_tiling _ _ _ _ _ HA) i k Hi) as Hr.
  pose proof (tl_align _ _ (ar_tiling _ _ _ _ _ HA) i k Hi) as Ha.
  pose proof (pow2_le k 27 ltac:(lia)). assert (0 < 2 ^ k) by lia.
  assert (nBlock g < 2 ^ 28).
  { destruct (ar_atom _ _ _ _ _ HA) as (e & He & E). destruct (ar_size _ _ _ _ _ HA) as [Hn0 Hs].
    pose proof (pow2_le 3 e ltac:(lia)). rewrite E in Hs. nia. }
  assert (0 <= buddy i k).
  { destruct (buddy_halves i k ltac:(lia) Ha) as (q & [[E ->]|[E ->]]); [lia|].
    apply Z.mul_nonneg_nonneg; [|lia]. destruct (Z.lt_ge_cases q 0); [|lia].
    assert ((2 * q + 1) * 2 ^ k < 0) by (apply Z.mul_neg_pos; lia). lia. }
  unfold buddy in *. destruct (Z.eqb_spec (Z.land (Z.shiftr i k) 1) 0); simpl in *; lia.
Qed.

(** The control bytes of a merged block. *)
Lemma relabel g U F T lo hi k :
  arena g U F (Some (lo, k)) T -> lo < hi < lo + 2 ^ k ->
  exists g1 g2, setCtrl lo (Z.lor CTRL_FREE k) g = Some g1 /\ setCtrl hi 0 g1 = Some g2
    /\ arena g2 U F (Some (lo, k)) T /\ aCtrl g2 !! lo = Some (CTRL_FREE + k) /\ kept U g g2.
Proof.
  intros HA Hr. pose proof (arena_log HA _ _ (limbo_tile HA)) as Hk.
  rewrite lor_free by (unfold LOGMAX; lia).
  destruct (limbo_inside HA lo) as (Hu & Hf & Hlo); [lia|].
  destruct (set_spare _ _ _ _ _ lo (CTRL_FREE + k) HA Hu Hf Hlo) as [E1 HA1].
  destruct (limbo_inside HA hi) as (Hu' & Hf' & Hhi); [lia|].
  destruct (set_spare _ _ _ _ _ hi 0 HA1 Hu' Hf' Hhi) as [E2 HA2].
  eexists _, _. split; [done|]. split; [done|]. split; [done|]. split; [|done].
  simpl. rewrite lookup_insert_ne by lia. by rewrite lookup_insert_eq.
Qed.

Lemma mergeLoop_ok fuel g U F T i k :
  arena g U F (Some (i, k)) T -> aCtrl g !! i = Some (CTRL_FREE + k) -> 28 - k <= Z.of_nat fuel ->
  exists i' k' g' F' T', mergeLoop fuel i k (2 ^ k) g = Some (i', k', g')
    /\ arena g' U F' (Some (i', k')) T' /\ aCtrl g' !! i' = Some (CTRL_FREE + k')
    /\ F' !! buddy i' k' <> Some k' /\ kept U g g'.
Proof.
  revert g F T i k. induction fuel as [|fuel IH]; intros g F T i k HA Hc Hfuel;
    pose proof (limbo_tile HA) as Hi; pose proof (arena_log HA i k Hi) as Hk; [lia|]. cbn [mergeLoop].
  destruct (Z.ltb_spec k LOGMAX) as [_|]; [|unfold LOGMAX in *; lia].
  destruct (buddy_range _ _ _ _ _ _ HA) as [Hb Hodd]. 
  change (if negb (Z.land (Z.shiftr i k) 1 =? 0) then i - 2 ^ k else i + 2 ^ k) with (buddy i k).
  rewrite int32_ok by lia. run. set (b := buddy i k) in *.
  destruct (negb (negb (Z.land (Z.shiftr i k) 1 =? 0)) && (b >=? nBlock g)) eqn:Ebreak.
  { exists i, k, g, F, T. split_and!; try done. intros HF. apply andb_prop in Ebreak as [_ Hge%Z.geb_le].
    assert (T !! b = Some k) as HTb by (apply HA; auto).
    pose proof (tl_range _ _ (ar_tiling _ _ _ _ _ HA) b k HTb). assert (0 < 2 ^ k) by lia. lia. }
  assert (0 <= b < nBlock g) as Hbr.
  { split; [lia|]. apply andb_false_iff in Ebreak as [Hev|Hlt]; [|rewrite Z.geb_leb in Hlt; apply Z.leb_gt in Hlt; lia].
    apply Hodd. rewrite negb_involutive in Hev. by apply Z.eqb_neq. }
  destruct (tile_buddy _ _ (ar_tiling _ _ _ _ _ HA) i k Hi Hbr) as (l & Hl & Hlk). fold b in Hl.
  destruct (ar_ctrls _ _ _ _ _ HA b Hbr) as [c Hcb]. rewrite Hcb. run.
  rewrite lor_free by (unfold LOGMAX; lia).
  destruct (Z.eqb_spec c (CTRL_FREE + k)) as [->|Hne]; cbn [negb].
  - assert (F !! b = Some k) as HF.
    { pose proof Hl as [HU|[HF|[= Hib Hkl]]]%(ar_blocks _ _ _ _ _ HA).
      - apply (ar_used _ _ _ _ _ HA) in HU as [HU _]. unfold CTRL_FREE in *.
        assert (l = 32 + k) by congruence. lia.
      - pose proof (proj1 (ar_free _ _ _ _ _ HA b l HF)). assert (l = k) as -> by (simplify_eq; lia). done.
      - destruct (buddy_halves i k) as (q & Hq); [lia|by apply (ar_tiling _ _ _ _ _ HA)|].
        fold b in Hq. assert (0 < 2 ^ k) by lia. lia. }
    destruct (merge_step g U F T i k HA HF) as (g1 & T1 & E1 & HA1 & Hk1 & Hc1). fold b in E1, HA1.
    rewrite E1. run. destruct (buddy_halves i k) as (q & Hq); [lia|by apply (ar_tiling _ _ _ _ _ HA)|].
    fold b in Hq. assert (0 < 2 ^ k) by lia.
    assert (2 ^ (k + 1) = 2 * 2 ^ k) as E2 by (rewrite Z.pow_add_r by lia; lia).
    replace (u32 (2 ^ k * 2)) with (2 ^ (k + 1))
      by (rewrite u32_small; [lia|]; pose proof (pow2_le k 28 ltac:(lia)); lia).
    destruct (Z.ltb_spec b i) as [Hlt|Hge].
    + rewrite Z.min_r in HA1 by lia.
      destruct (relabel _ _ _ _ _ i _ HA1) as (g2 & g3 & -> & E3 & HA3 & Hc3 & Hk3); [lia|]. run.
      rewrite E3. run. destruct (IH _ _ _ _ _ HA3 Hc3) as (i' & k' & g' & F' & T' & E & HA' & Hc' & Hm & Hk'); [lia|].
      exists i', k', g', F', T'. split_and!; try done. eauto using kept_trans.
    + rewrite Z.min_l in HA1 by lia.
      destruct (relabel _ _ _ _ _ b _ HA1) as (g2 & g3 & -> & E3 & HA3 & Hc3 & Hk3); [lia|]. run.
      rewrite E3. run. destruct (IH _ _ _ _ _ HA3 Hc3) as (i' & k' & g' & F' & T' & E & HA' & Hc' & Hm & Hk'); [lia|].
      exists i', k', g', F', T'. split_and!; try done. eauto using kept_trans.
  - exists i, k, g, F, T. split_and!; try done. intros HF.
    apply (ar_free _ _ _ _ _ HA) in HF as [HF _]. fold b in HF. congruence.
Qed.

Lemma land_logsize l : 0 <= l < 28 -> Z.land l CTRL_LOGSIZE = l.
Proof. intros Hl. change CTRL_LOGSIZE with (Z.ones 5). rewrite Z.land_ones by lia. apply Z.mod_small. lia. Qed.

Lemma atom_pos g U : ready g U -> 8 <= szAtom g.
Proof.
  intros (F & T & HA). destruct (ar_atom _ _ _ _ _ HA) as (k & Hk & ->).
  pose proof (pow2_le 3 k ltac:(lia)). lia.
Qed.

Lemma free_ok g U i l :
  ready g U -> U !! i = Some l ->
  exists g', memsys5Free (i * szAtom g) g = Some g' /\ ready g' (delete i U) /\ kept (delete i U) g g'.
Proof.
  intros HR Hi. pose proof (atom_pos _ _ HR) as Hsz. destruct HR as (F & T & HA).
  pose proof (take_used g U F T i l HA Hi) as HA0. pose proof (limbo_tile HA0) as HTi.
  pose proof (arena_log HA0 i l HTi) as Hl. assert (0 < 2 ^ l) by lia.
  destruct (ar_used _ _ _ _ _ HA i l Hi) as [Hc _].
  unfold memsys5Free, memsys5FreeUnsafe. rewrite Z.div_mul by lia. rewrite Hc. run.
  rewrite (land_logsize l Hl), Z.shiftl_1_l.
  destruct (limbo_inside HA0 i) as (Hu & Hf & Hr); [lia|].
  destruct (set_spare _ _ _ _ _ i (Z.lor l CTRL_FREE) HA0 Hu Hf Hr) as [-> HA1]. run.
  destruct (limbo_inside HA1 (i + 2 ^ l - 1)) as (Hu1 & Hf1 & Hr1); [lia|].
  destruct (ar_ctrls _ _ _ _ _ HA1 _ Hr1) as [c1 ->]. run.
  destruct (set_spare _ _ _ _ _ _ (Z.lor c1 CTRL_FREE) HA1 Hu1 Hf1 Hr1) as [-> HA2]. run.
  rewrite lor_free by (unfold LOGMAX; lia).
  destruct (set_spare _ _ _ _ _ i (CTRL_FREE + l) HA2 Hu Hf Hr) as [-> HA3]. run.
  destruct (mergeLoop_ok 31 _ _ _ _ _ _ HA3) as (i' & k' & g4 & F4 & T4 & -> & HA4 & Hc4 & Hm & Hk4);
    [apply lookup_insert_eq|lia|]. run.
  destruct (give_free HA4 Hc4 Hm) as (g5 & -> & HA5 & Hk5).
  exists g5. split; [done|]. split; [by eexists _, _|].
  eapply kept_trans; [|exact (kept_trans _ _ _ _ Hk4 Hk5)]. done.
Qed.

Lemma size_ok g U i l :
  ready g U -> U !! i = Some l -> memsys5Size (i * szAtom g) g = Some (szAtom g * 2 ^ l).
Proof.
  intros HR Hi. pose proof (atom_pos _ _ HR) as Hsz. destruct HR as (F & T & HA).
  assert (T !! i = Some l) as HTi by (apply HA; auto). pose proof (arena_log HA i l HTi) as Hl.
  pose proof (tl_range _ _ (ar_tiling _ _ _ _ _ HA) i l HTi). destruct (ar_size _ _ _ _ _ HA) as [Hn0 Hn].
  unfold memsys5Size. rewrite Z.div_mul by lia. destruct (ar_used _ _ _ _ _ HA i l Hi) as [-> _]. run.
  rewrite (land_logsize l Hl), Z.shiftl_1_l. apply int32_ok. assert (0 < 2 ^ l) by lia. nia.
Qed.

(** ** Resizing *)

(** The user of a block writes into it. *)
Lemma write_ok g U i l m :
  ready g U -> U !! i = Some l -> (forall a, ~ i <= a < i + 2 ^ l -> m !! a = zPool g !! a) ->
  (forall a, is_Some (zPool g !! a) -> is_Some (m !! a)) ->
  ready (set_pool g m) U /\ kept (delete i U) g (set_pool g m).
Proof.
  intros (F & T & HA) Hi Hm Hd. assert (T !! i = Some l) as HTi by (apply HA; auto).
  pose proof (ar_tiling _ _ _ _ _ HA) as HT.
  assert (forall j k a, T !! j = Some k -> j <> i -> j <= a < j + 2 ^ k -> m !! a = zPool g !! a) as Hother.
  { intros j k a Hj Hne Ha. apply Hm. intros Hr.
    destruct (Z.lt_trichotomy i j) as [Hlt|[Heq|Hlt]]; [|done|].
    - pose proof (tl_apart _ _ HT i l j k HTi Hj Hlt). lia.
    - pose proof (tl_apart _ _ HT j k i l Hj HTi Hlt). lia. }
  split.
  - exists F, T. pose proof HA as []. split; simpl; auto. destruct ar_lists0 as [L []]. exists L.
    split; auto. intros k Hk. eapply dll_frame; [|by apply fr_dll0]. intros a Ha%fr_elem0; [|done].
    assert (T !! a = Some k) as HTa by (apply ar_blocks0; auto).
    pose proof (arena_log HA a k HTa). assert (0 < 2 ^ k) by lia. apply (Hother a k); [done| |lia].
    intros ->. destruct (ar_used0 i l Hi) as (_ & Hf & _). congruence.
  - split; [done|done|]. intros j k a [Hne Hj]%lookup_delete_Some Ha. apply (Hother j k); [apply HA; auto|done|done].
Qed.

Lemma copyAtoms_ok n dst src m :
  (forall a, 0 <= a < Z.of_nat n -> is_Some (m !! (src + a)) /\ is_Some (m !! (dst + a))) ->
  dst + Z.of_nat n <= src \/ src + Z.of_nat n <= dst ->
  exists m', copyAtoms n dst src m = Some m'
    /\ (forall a, ~ dst <= a < dst + Z.of_nat n -> m' !! a = m !! a)
    /\ (forall a, 0 <= a < Z.of_nat n -> m' !! (dst + a) = m !! (src + a)).
Proof.
  revert dst src m. induction n as [|n IH]; intros dst src m Hs Hap.
  { exists m. split; [done|]. split; [done|]. intros a Ha. lia. }
  destruct (Hs 0) as [[e He] [e' He']]; [lia|]. rewrite Z.add_0_r in *. simpl. rewrite He. simpl.
  rewrite (store_ok _ _ _ _ He'). simpl.
  destruct (IH (dst + 1) (src + 1) (<[dst := e]> m)) as (m' & -> & Hout & Hin); [|lia|].
  { intros a Ha. destruct (Hs (a + 1)) as [H1 H2]; [lia|].
    replace (src + (a + 1)) with (src + 1 + a) in H1 by lia.
    replace (dst + (a + 1)) with (dst + 1 + a) in H2 by lia. rewrite !lookup_insert_ne by lia. done. }
  exists m'. split; [done|]. split.
  - intros a Ha. rewrite Hout by lia. rewrite lookup_insert_ne by lia. done.
  - intros a Ha. destruct (decide (a = 0)) as [->|].
    + rewrite !Z.add_0_r, Hout by lia. by rewrite lookup_insert_eq.
    + replace (dst + a) with (dst + 1 + (a - 1)) by lia. rewrite Hin by lia.
      rewrite lookup_insert_ne by lia. f_equal. lia.
Qed.

Lemma ready_apart g U i l j k :
  ready g U -> U !! i = Some l -> U !! j = Some k -> i <> j -> i + 2 ^ l <= j \/ j + 2 ^ k <= i.
Proof.
  intros (F & T & HA) Hi Hj Hne. pose proof (tl_apart _ _ (ar_tiling _ _ _ _ _ HA)) as Hap.
  assert (T !! i = Some l) as Ti by (apply HA; auto). assert (T !! j = Some k) as Tj by (apply HA; auto).
  destruct (Z.lt_trichotomy i j) as [Hlt|[|Hlt]]; [left|done|right]; by eapply Hap.
Qed.

Lemma ready_range g U i l :
  ready g U -> U !! i = Some l ->
  0 <= l /\ 0 <= i /\ i + 2 ^ l <= nBlock g /\ forall a, i <= a < i + 2 ^ l -> is_Some (zPool g !! a).
Proof.
  intros (F & T & HA) Hi. assert (T !! i = Some l) as HTi by (apply HA; auto).
  pose proof (tl_range _ _ (ar_tiling _ _ _ _ _ HA) i l HTi). pose proof (arena_log HA i l HTi).
  split_and!; [lia..|]. intros a Ha. apply HA. lia.
Qed.

Lemma realloc_ok g U i l n :
  ready g U -> U !! i = Some l -> 0 <= n ->
  exists r g', memsys5Realloc (i * szAtom g) n g = Some (r, g')
    /\ match r with
       | Some p => exists j k, p = j * szAtom g /\ n <= szAtom g * 2 ^ k /\ ready g' (<[j := k]> (delete i U))
                     /\ kept (delete i U) g g'
                     /\ delete i U !! j = None
                     /\ forall a, 0 <= a < 2 ^ l -> zPool g' !! (j + a) = zPool g !! (i + a)
       | None => g' = g /\ (n = 0 \/ 2 ^ 30 < n \/ exists k, fits g n k /\ exhausted g U k)
       end.
Proof.
  intros HR Hi Hn. pose proof (atom_pos _ _ HR) as Hsz.
  destruct (ready_range _ _ _ _ HR Hi) as (Hl & Hi0 & Hin & Hia). assert (0 < 2 ^ l) by lia.
  unfold memsys5Realloc. destruct (Z.eqb_spec n 0) as [->|Hn0]; [exists None, g; auto|].
  rewrite (size_ok _ _ _ _ HR Hi). run.
  destruct (Z.leb_spec n (szAtom g * 2 ^ l)) as [Hle|Hgt].
  { eexists _, g. split; [done|]. exists i, l. rewrite insert_delete_id by done.
    split_and!; [done|done|done|done|by apply lookup_delete_eq|done]. }
  destruct (malloc_ok g U n HR) as (r & g1 & -> & Hr); [lia|]. run.
  destruct r as [p|]; [|exists None, g1; split; [done|]; destruct Hr as [-> Hr]; split; [done|tauto]].
  destruct Hr as (j & k & -> & (Hk & Hfit & _) & Hj & HR1 & Hk1).
  pose proof (kp_atom _ _ _ Hk1) as Esz. assert (2 ^ l < 2 ^ k) as Hlk by nia.
  assert (i <> j) as Hij by congruence.
  assert (<[j := k]> U !! i = Some l) as Hi1 by (by rewrite lookup_insert_ne).
  assert (<[j := k]> U !! j = Some k) as Hj1 by apply lookup_insert_eq.
  destruct (ready_range _ _ _ _ HR1 Hi1) as (_ & _ & _ & Hia1).
  destruct (ready_range _ _ _ _ HR1 Hj1) as (_ & _ & _ & Hja1).
  rewrite !Esz, !Z.div_mul by lia. rewrite (Z.mul_comm (szAtom g)), Z.div_mul by lia.
  destruct (copyAtoms_ok (Z.to_nat (2 ^ l)) j i (zPool g1)) as (m & -> & Hout & Hcopy).
  { intros a Ha. split; [apply Hia1|apply Hja1]; lia. }
  { destruct (ready_apart _ _ _ _ _ _ HR1 Hi1 Hj1 Hij); lia. }
  run. rewrite Z2Nat.id in * by lia.
  destruct (write_ok g1 _ j k m HR1 Hj1) as [HR2 Hk2].
  { intros a Ha. apply Hout. lia. }
  { intros a Ha. destruct (decide (j <= a < j + 2 ^ l)) as [Hd|Hd]; [|by rewrite Hout].
    replace a with (j + (a - j)) by lia. rewrite Hcopy by lia. apply Hia1. lia. }
  destruct (free_ok (set_pool g1 m) _ i l HR2 Hi1) as (g3 & E3 & HR3 & Hk3). simpl in E3.
  rewrite Esz in E3. rewrite E3. run. eexists _, g3. split; [done|]. exists j, k.
  rewrite delete_insert_ne in HR3, Hk3 by done.
  split_and!; [done|done|done| |by rewrite lookup_delete_ne|].
  - apply (kept_trans _ _ g1); [eapply kept_mono, Hk1; apply delete_subseteq|].
    apply (kept_trans _ _ (set_pool g1 m)).
    + eapply kept_mono, Hk2. rewrite delete_insert_id by done. apply delete_subseteq.
    + eapply kept_mono, Hk3. apply insert_subseteq. by rewrite lookup_delete_ne.
  - intros a Ha. rewrite (kp_data _ _ _ Hk3 j k); [|by rewrite lookup_insert_eq|lia]. simpl.
    rewrite Hcopy by lia. apply (kp_data _ _ _ Hk1 i l); [done|lia].
Qed.

(** ** Initialization *)

Lemma logLoop_ok fuel a v :
  0 <= a -> (a = 0 \/ 2 ^ (a - 1) < v) -> v <= 2 ^ (a + Z.of_nat fuel) ->
  let L := logLoop fuel a v in a <= L <= a + Z.of_nat fuel /\ v <= 2 ^ L /\ (L = 0 \/ 2 ^ (L - 1) < v).
Proof.
  revert a. induction fuel as [|fuel IH]; intros a Ha Hlow Hv; simpl.
  - rewrite Z.add_0_r in Hv. split; [lia|done].
  - rewrite Z.shiftl_1_l. destruct (Z.ltb_spec (2 ^ a) v) as [Hlt|Hge]; [|split; [lia|done]].
    destruct (IH (a + 1)) as (H1 & H2 & H3); [lia| |by replace (a + 1 + Z.of_nat fuel) with (a + Z.of_nat (S fuel)) by lia|].
    + right. by replace (a + 1 - 1) with a by lia.
    + split; [lia|done].
Qed.

Lemma arrayOf_some {A} (f : Z -> A) n i : 0 <= i < n -> is_Some (arrayOf f n !! i).
Proof.
  intros Hi. unfold arrayOf. apply not_eq_None_Some. intros Hn%not_elem_of_list_to_map.
  apply Hn. rewrite <- list_fmap_compose. apply list_elem_of_fmap. exists i. split; [done|].
  by apply elem_of_seqZ.
Qed.

(** The blocks made so far, of sizes from [2 ^ k] on. *)
Record made (g : Mem5Global) (F : gmap Z Z) (o k : Z) : Prop := {
  md_tiling : tiling o F;
  md_lists : lists_ok g F;
  md_align : exists q, o = q * 2 ^ k;
  md_logs : forall i l, F !! i = Some l -> k <= l;
  md_once : forall i j l, F !! i = Some l -> F !! j = Some l -> i = j;
  md_ctrl : forall i l, F !! i = Some l -> aCtrl g !! i = Some (CTRL_FREE + l)
}.

Lemma tile_extend o k F :
  0 <= k -> 0 <= o -> tiling o F -> (2 ^ k | o) -> tiling (o + 2 ^ k) (<[o := k]> F) /\ F !! o = None.
Proof.
  intros Hk Ho HT Ha. assert (0 < 2 ^ k) by lia.
  assert (forall i l, F !! i = Some l -> 0 <= l /\ 0 <= i /\ i + 2 ^ l <= o /\ i < o) as Hin.
  { intros i l Hi. pose proof (tl_log _ _ HT i l Hi). pose proof (tl_range _ _ HT i l Hi).
    assert (0 < 2 ^ l) by lia. lia. }
  split.
  - split.
    + intros i l [[<- <-]|[_ Hi]]%lookup_insert_Some; [done|by apply (tl_log _ _ HT i)].
    + intros i l [[<- <-]|[_ Hi%Hin]]%lookup_insert_Some; lia.
    + intros i l [[<- <-]|[_ Hi]]%lookup_insert_Some; [done|by apply (tl_align _ _ HT i)].
    + intros i l j l' [[<- <-]|[_ Hi]]%lookup_insert_Some [[<- <-]|[_ Hj]]%lookup_insert_Some Hlt.
      * lia.
      * apply Hin in Hj. lia.
      * apply Hin in Hi. lia.
      * by apply (tl_apart _ _ HT i l j l').
    + intros x Hx. destruct (decide (x < o)) as [Hd|Hd].
      * destruct (tl_cover _ _ HT x) as (i & l & Hi & Hr); [lia|]. exists i, l. split; [|done].
        rewrite lookup_insert_ne; [done|]. apply Hin in Hi. lia.
      * exists o, k. rewrite lookup_insert_eq. split; [done|lia].
  - destruct (F !! o) as [l|] eqn:E; [|done]. apply Hin in E. lia.
Qed.

Lemma arenaLoop_ok n g F o :
  made g F o (Z.of_nat n) -> (n <= 31)%nat -> 0 <= o <= nBlock g -> nBlock g - o < 2 ^ Z.of_nat n ->
  nBlock g < 2 ^ 28 ->
  (forall i, 0 <= i < nBlock g -> is_Some (zPool g !! i)) ->
  (forall i, 0 <= i < nBlock g -> is_Some (aCtrl g !! i)) ->
  exists g' F', initLoop n o g = Some g' /\ made g' F' (nBlock g) 0
    /\ szAtom g' = szAtom g /\ nBlock g' = nBlock g
    /\ (forall i, 0 <= i < nBlock g -> is_Some (zPool g' !! i))
    /\ (forall i, 0 <= i < nBlock g -> is_Some (aCtrl g' !! i)).
Proof.
  revert g F o. induction n as [|n IH]; intros g F o HM Hn Ho Hrest Hsz Hp Hc.
  { exists g, F. assert (o = nBlock g) as -> by (change (2 ^ Z.of_nat 0) with 1 in Hrest; lia). done. }
  cbn [initLoop]. rewrite Z.shiftl_1_l. set (k := Z.of_nat n). pose proof (pow2_le k 30 ltac:(lia)).
  assert (0 < 2 ^ k) by lia. rewrite int32_ok by lia. run.
  replace (Z.of_nat (S n)) with (k + 1) in * by lia.
  assert (2 ^ (k + 1) = 2 * 2 ^ k) as E2 by (rewrite Z.pow_add_r by lia; lia).
  destruct HM as [M1 M2 (q & M3) M4 M5 M6].
  destruct (Z.leb_spec (o + 2 ^ k) (nBlock g)) as [Hle|Hgt].
  - destruct (tile_extend o k F) as [HT' Hnone]; [lia|lia|done|exists (2 * q); rewrite M3, E2; ring|].
    destruct (Hc o ltac:(lia)) as [c Hco]. rewrite (setCtrl_ok _ _ _ _ Hco). run.
    rewrite Z.lor_comm, lor_free by (unfold LOGMAX; lia). set (g1 := set_ctrls g _).
    assert (forall i, 0 <= i < nBlock g -> is_Some (aCtrl g1 !! i)) as Hc1.
    { intros i Hi. simpl. destruct (decide (o = i)) as [->|]; [by rewrite lookup_insert_eq|].
      rewrite lookup_insert_ne by done. auto. }
    destruct (memsys5Link_ok g1 F o k) as (g2 & -> & Hls & [N1 N2 N3 N4 N5]);
      [by apply lists_ctrls|done|lia|unfold LOGMAX; lia|apply Hp; lia|]. run.
    destruct (IH g2 (<[o := k]> F) (o + 2 ^ k)) as (g' & F' & -> & HM' & R1 & R2 & R3 & R4);
      [|lia|rewrite N2; simpl; lia|rewrite N2; simpl; fold k; lia|by rewrite N2
      |rewrite N2; intros i Hi; apply N4; auto|rewrite N2, N3; auto|].
    + split; [done|done|exists (2 * q + 1); fold k; rewrite M3, E2; ring| | |].
      * intros i l [[<- <-]|[_ Hi%M4]]%lookup_insert_Some; lia.
      * intros i j l [[<- <-]|[_ Hi]]%lookup_insert_Some [[<- E]|[_ Hj]]%lookup_insert_Some; try done.
        -- apply M4 in Hj. lia.
        -- subst. apply M4 in Hi. lia.
        -- by apply (M5 i j l).
      * intros i l [[<- <-]|[Hne Hi]]%lookup_insert_Some; rewrite N3; simpl; [by rewrite lookup_insert_eq|].
        rewrite lookup_insert_ne by done. auto.
    + exists g', F'. rewrite N1, N2 in *. simpl in *. done.
  - apply (IH g F o); [|lia|done|fold k; lia|done|done|done].
    split; [done|done|exists (2 * q); fold k; rewrite M3, E2; ring| |done|done].
    intros i l Hi%M4. lia.
Qed.

Lemma made_empty g k : aiFreelist g = replicate 31 (-1) -> made g ∅ 0 k.
Proof.
  intros Hl. split; try by intros.
  - split; try by intros. intros x Hx. lia.
  - exists (fun _ => []). split; try by intros.
    + by rewrite Hl.
    + intros l Hr. unfold getFreelist. rewrite Hl. destruct (Z.leb_spec 0 l); [|lia].
      apply lookup_replicate. unfold LOGMAX in Hr. split; [done|lia].
    + intros l _. apply NoDup_nil_2.
    + intros l i _. rewrite lookup_empty. split; [by intros ?%elem_of_nil|done].
  - by exists 0.
Qed.

Lemma arena_init nHeap mnReq heap ctrl :
  0 <= nHeap < 2 ^ 31 -> 1 <= mnReq <= 2 ^ 12 ->
  exists g, memsys5Init nHeap mnReq heap ctrl = Some g /\ ready g ∅
    /\ nBlock g * (szAtom g + 1) <= nHeap /\ mnReq <= szAtom g.
Proof.
  intros Hheap Hreq. unfold memsys5Init, memsys5Log. rewrite Z.shiftl_1_l.
  destruct (logLoop_ok 31 0 mnReq) as (HL & Hge & Hleast);
    [lia|by left|pose proof (pow2_le 12 31 ltac:(lia)); simpl; lia|].
  set (L := logLoop 31 0 mnReq) in *. clearbody L.
  assert (L <= 12) as HL12.
  { destruct (Z.le_gt_cases L 12) as [|Hgt]; [done|]. pose proof (pow2_le 12 (L - 1) ltac:(lia)). lia. }
  assert (exists k, 3 <= k <= 12 /\ atomLoop 3 (2 ^ L) = 2 ^ k /\ 2 ^ L <= 2 ^ k) as (k & Hk & -> & HLk).
  { exists (Z.max L 3). split; [lia|]. split; [|apply pow2_le; lia].
    destruct (Z.le_gt_cases 3 L) as [H3|H3].
    - rewrite Z.max_l by lia. pose proof (pow2_le 3 L H3). simpl. destruct (Z.gtb_spec 8 (2 ^ L)); [lia|done].
    - rewrite Z.max_r by lia. assert (L = 0 \/ L = 1 \/ L = 2) as [->|[->| ->]] by lia; done. }
  set (n := nHeap / (2 ^ k + 1)). pose proof (pow2_le 3 k ltac:(lia)). pose proof (pow2_le k 12 ltac:(lia)).
  pose proof (Z.mul_div_le nHeap (2 ^ k + 1) ltac:(lia)) as Hmul. fold n in Hmul.
  assert (0 <= n) as Hn0 by (apply Z.div_pos; lia). assert (n < 2 ^ 28) as Hn28 by nia.
  destruct (arenaLoop_ok 31 (mkMem5 (2 ^ k) n (arrayOf heap n) (replicate 31 (-1)) (arrayOf ctrl n)) ∅ 0)
    as (g & F & -> & HM & E1 & E2 & Hp & Hc); cbn [nBlock zPool aCtrl szAtom] in *;
    [by apply made_empty|lia|lia|change (2 ^ Z.of_nat 31) with (2 ^ 31); lia|done
    |intros i Hi; by apply arrayOf_some|intros i Hi; by apply arrayOf_some|].
  exists g. rewrite E1, E2. split; [done|]. split; [|lia]. exists F, F. destruct HM as [M1 M2 M3 M4 M5 M6].
  split; rewrite ?E1, ?E2; auto.
  - by exists k.
  - split; [done|]. nia.
  - intros i l. rewrite lookup_empty. naive_solver.
  - intros i l Hi. by rewrite lookup_empty in Hi.
  - intros i l Hi Hb. pose proof (M5 _ _ _ Hi Hb) as E. pose proof (tl_log _ _ M1 i l Hi).
    destruct (buddy_halves i l) as (q & Hq); [done|by apply M1|]. assert (0 < 2 ^ l) by lia. lia.
Qed.

(** ** Rounding *)

Lemma roundLoop_ok fuel k a n :
  0 <= k -> 1 <= a -> k + a <= 30 -> n <= 2 ^ 28 -> 2 ^ (k + a - 2) < n -> 30 - (k + a) <= 2 * Z.of_nat fuel ->
  exists b, roundLoop fuel (2 ^ (k + a)) n = Some (2 ^ (k + b)) /\ a <= b /\ k + b <= 30
    /\ n <= 2 ^ (k + b) /\ 2 ^ (k + b - 2) < n.
Proof.
  revert a. induction fuel as [|fuel IH]; intros a Hk Ha Hka Hn Hlow Hfuel; simpl;
    (destruct (Z.ltb_spec (2 ^ (k + a)) n) as [Hlt|Hge]; [|exists a; repeat split; [lia|done|done|done]]).
  - replace (k + a) with 30 in Hlt by lia. lia.
  - assert (k + a < 28).
    { destruct (Z.lt_ge_cases (k + a) 28) as [|H28]; [done|]. pose proof (pow2_le 28 (k + a) H28). lia. }
    assert (2 ^ (k + a) * 4 = 2 ^ (k + (a + 2))) as E
      by (rewrite Z.add_assoc, (Z.pow_add_r 2 (k + a) 2) by lia; lia).
    pose proof (pow2_le (k + (a + 2)) 30 ltac:(lia)). pose proof (Z.pow_nonneg 2 (k + (a + 2)) ltac:(lia)).
    rewrite int32_ok by (rewrite E; split; [done|eapply Z.le_lt_trans; [done|lia]]). run. rewrite E.
    destruct (IH (a + 2)) as (b & Eb & Hb1 & Hb2); [done|lia|lia|done| |lia|].
    + by replace (k + (a + 2) - 2) with (k + a) by lia.
    + exists b. split; [done|]. split; [lia|done].
Qed.

Lemma roundup_ok g U n :
  ready g U -> 0 < n ->
  exists v, memsys5Roundup n g = Some v
    /\ (n <= 2 ^ 30 /\ (exists l, fits g n l /\ v = szAtom g * 2 ^ l) \/ 2 ^ 30 < n /\ v = 0).
Proof.
  intros (F & T & HA) Hn. destruct (ar_atom _ _ _ _ _ HA) as (k & Hk & Ek).
  unfold memsys5Roundup, fits. rewrite Ek. pose proof (pow2_le 3 k ltac:(lia)). pose proof (pow2_le k 12 ltac:(lia)).
  assert (forall a, 0 <= a -> 2 ^ k * 2 ^ a = 2 ^ (k + a)) as Epow by (intros; by rewrite Z.pow_add_r by lia).
  destruct (Z.leb_spec n (2 ^ k * 2)) as [Hsmall|Hlarge].
  { destruct (Z.leb_spec n (2 ^ k)); eexists; (split; [done|]); left; (split; [lia|]).
    - exists 0. split; [|lia]. lia.
    - exists 1. change (2 ^ 1) with 2. change (2 ^ (1 - 1)) with 1. split; [|lia]. lia. }
  destruct (Z.gtb_spec n 0x10000000) as [Hbig|Hbig].
  { eexists. split; [done|]. destruct (Z.gtb_spec n 0x40000000); [right; split; [lia|done]|left]. split; [lia|].
    destruct (Z.gtb_spec n 0x20000000); [exists (30 - k)|exists (29 - k)].
    - rewrite !Epow by lia. replace (k + (30 - k)) with 30 by lia. replace (k + (30 - k - 1)) with 29 by lia. lia.
    - rewrite !Epow by lia. replace (k + (29 - k)) with 29 by lia. replace (k + (29 - k - 1)) with 28 by lia. lia. }
  replace (2 ^ k * 8) with (2 ^ (k + 3)) by (by rewrite <- Epow by lia).
  destruct (roundLoop_ok 16 k 3 n) as (b & Eb & Hb1 & Hb2 & Hb3 & Hb4); [lia|lia|lia|lia| |lia|].
  { replace (k + 3 - 2) with (k + 1) by lia. rewrite <- Epow by lia. lia. }
  rewrite Eb. run. eexists. split; [done|]. left. split; [lia|].
  assert (2 ^ (k + b) / 2 = 2 ^ (k + (b - 1))) as ->.
  { replace (k + b) with (k + (b - 1) + 1) by lia. rewrite Z.pow_add_r by lia. change (2 ^ 1) with 2.
    by rewrite Z.div_mul by lia. }
  destruct (Z.geb_spec (2 ^ (k + (b - 1))) n) as [Hge|Hlt]; [exists (b - 1)|exists b];
    rewrite !Epow by lia; (split; [|done]); (split; [lia|]); split.
  - lia.
  - right. by replace (k + (b - 1 - 1)) with (k + b - 2) by lia.
  - done.
  - right. lia.
Qed.

(** ** Clients

    What the users of the allocator do: the calls of its methods, on pointers
    that are checked out, and writes into atoms of their allocations.  [C] maps
    the pointers that are checked out to the sizes that were asked for. *)
Inductive call : Type :=
| CMalloc (n : Z)
| CFree (p : Z)
| CRealloc (p n : Z)
| CWrite (p a : Z) (e : Mem5Link).

Definition clientStep (c : call) (s : Mem5Global * gmap Z Z) : option (Mem5Global * gmap Z Z) :=
  let '(g, C) := s in
  match c with
  | CMalloc n =>
      '(r, g) ← memsys5Malloc n g;
      Some (g, match r with Some p => <[p := n]> C | None => C end)
  | CFree p =>
      if decide (is_Some (C !! p)) then g ← memsys5Free p g; Some (g, delete p C) else Some (g, C)
  | CRealloc p n =>
      if decide (is_Some (C !! p) /\ 0 <= n) then
        '(r, g) ← memsys5Realloc p n g;
        Some (g, match r with Some q => <[q := n]> (delete p C) | None => C end)
      else Some (g, C)
  | CWrite p a e =>
      if decide (0 <= a /\ a * szAtom g < default 0 (C !! p)) then
        m ← store (fun _ => e) (p / szAtom g + a) (zPool g); Some (set_pool g m, C)
      else Some (g, C)
  end.

Fixpoint clientRun (l : list call) (s : Mem5Global * gmap Z Z) : option (Mem5Global * gmap Z Z) :=
  match l with
  | [] => Some s
  | c :: l' => s ← clientStep c s; clientRun l' s
  end.

(** The blocks that are checked out are the allocations of the client. *)
Record tracked (sz : Z) (U C : gmap Z Z) : Prop := {
  tr_block : forall p n, C !! p = Some n ->
    exists i l, p = i * sz /\ U !! i = Some l /\ 0 < n <= sz * 2 ^ l;
  tr_known : forall i l, U !! i = Some l -> is_Some (C !! (i * sz))
}.

Lemma tracked_add sz U C i l n :
  0 < sz -> tracked sz U C -> U !! i = None -> 0 < n <= sz * 2 ^ l ->
  tracked sz (<[i := l]> U) (<[i * sz := n]> C).
Proof.
  intros Hsz [Hb Hk] Hi Hn. split.
  - intros p m [[<- <-]|[Hne Hp]]%lookup_insert_Some.
    + exists i, l. by rewrite lookup_insert_eq.
    + destruct (Hb p m Hp) as (j & k & -> & Hj & Hm). exists j, k.
      rewrite lookup_insert_ne by congruence. done.
  - intros j k [[<- <-]|[Hne Hj]]%lookup_insert_Some; [by rewrite lookup_insert_eq|].
    rewrite lookup_insert_ne by nia. by apply (Hk j k).
Qed.

Lemma tracked_drop sz U C i :
  0 < sz -> tracked sz U C -> tracked sz (delete i U) (delete (i * sz) C).
Proof.
  intros Hsz [Hb Hk]. split.
  - intros p m [Hne Hp]%lookup_delete_Some. destruct (Hb p m Hp) as (j & k & -> & Hj & Hm). exists j, k.
    rewrite lookup_delete_ne by congruence. done.
  - intros j k [Hne Hj]%lookup_delete_Some. rewrite lookup_delete_ne by nia. by apply (Hk j k).
Qed.

Definition client_ok (g : Mem5Global) (C : gmap Z Z) : Prop :=
  exists U, ready g U /\ tracked (szAtom g) U C.

Lemma realloc_zero p g : memsys5Realloc p 0 g = Some (None, g).
Proof. done. Qed.

Lemma clientStep_ok c g C :
  client_ok g C -> exists g' C', clientStep c (g, C) = Some (g', C') /\ client_ok g' C'.
Proof.
  intros (U & HR & Htr). pose proof (atom_pos _ _ HR) as Hsz.
  assert (client_ok g C) as Hsame by (by exists U). destruct c; cbn [clientStep].
  - destruct (Z.gtb_spec n 0) as [Hn|Hn].
    + destruct (malloc_ok g U n HR Hn) as (r & g' & -> & Hr). run. destruct r as [p|].
      * destruct Hr as (i & l & -> & (_ & Hfit & _) & Hi & HR' & [Ea Eb _]).
        eexists g', _. split; [done|]. exists (<[i := l]> U). rewrite Ea. split; [done|].
        apply tracked_add; [lia|done|done|lia].
      * destruct Hr as [-> _]. by exists g, C.
    + unfold memsys5Malloc. destruct (Z.gtb_spec n 0); [lia|]. run. by exists g, C.
  - case_decide as Hp; [|by exists g, C]. destruct Hp as [n Hp].
    destruct (tr_block _ _ _ Htr p n Hp) as (i & l & -> & Hi & Hn).
    destruct (free_ok g U i l HR Hi) as (g' & -> & HR' & [Ea Eb _]). run.
    eexists g', _. split; [done|]. exists (delete i U). rewrite Ea. split; [done|].
    apply tracked_drop; [lia|done].
  - case_decide as Hp; [|by exists g, C]. destruct Hp as [[m Hp] Hn0].
    destruct (decide (n = 0)) as [->|]; [rewrite realloc_zero; run; by exists g, C|].
    destruct (tr_block _ _ _ Htr p m Hp) as (i & l & -> & Hi & Hm).
    destruct (realloc_ok g U i l n HR Hi Hn0) as (r & g' & -> & Hr). run. destruct r as [q|].
    + destruct Hr as (j & k & -> & Hfit & HR' & [Ea Eb _] & Hj & _).
      eexists g', _. split; [done|]. eexists. rewrite Ea. split; [done|].
      apply tracked_add; [lia|apply tracked_drop; [lia|done]|done|lia].
    + destruct Hr as [-> _]. by exists g, C.
  - case_decide as Ha; [|by exists g, C]. destruct (C !! p) as [n|] eqn:Hp; [simpl in Ha|simpl in Ha; nia].
    destruct (tr_block _ _ _ Htr p n Hp) as (i & l & -> & Hi & Hn). rewrite Z.div_mul by lia.
    destruct (ready_range _ _ _ _ HR Hi) as (Hl & Hi0 & Hin & Hia). assert (i <= i + a < i + 2 ^ l) as Hr by nia.
    destruct (Hia (i + a) Hr) as [e' He']. rewrite (store_ok _ _ _ _ He'). run.
    eexists _, _. split; [done|]. exists U. split; [|done]. apply (write_ok g U i l); [done|done| |].
    + intros b Hb. rewrite lookup_insert_ne; [done|]. lia.
    + intros b Hb. destruct (decide (i + a = b)) as [<-|]; [by rewrite lookup_insert_eq|by rewrite lookup_insert_ne].
Qed.

Lemma clientRun_ok l g C :
  client_ok g C -> exists g' C', clientRun l (g, C) = Some (g', C') /\ client_ok g' C'.
Proof.
  revert g C. induction l as [|c l IH]; intros g C H; [by exists g, C|].
  destruct (clientStep_ok c g C H) as (g' & C' & E & H'). cbn [clientRun]. rewrite E. run. by apply IH.
Qed.

Lemma client_start nHeap mnReq heap ctrl g :
  0 <= nHeap < 2 ^ 31 -> 1 <= mnReq <= 2 ^ 12 -> memsys5Init nHeap mnReq heap ctrl = Some g ->
  client_ok g ∅.
Proof.
  intros H1 H2 E. destruct (arena_init nHeap mnReq heap ctrl H1 H2) as (g' & E' & HR & _). simplify_eq.
  exists ∅. split; [done|]. split; intros ? ?; by rewrite lookup_empty.
Qed.

(** C21: memory safety of the allocator.  After [memsys5Init], with whatever is in
    the memory it is given, any sequence of allocations, resizings and
    releases of what is allocated, with writes of the users in between, runs
    without an access outside of the arrays and without overflow; the
    allocations are aligned, inside of the pool, as large as was asked for,
    and no two of them overlap. *)
Theorem memsys5_allocations_disjoint nHeap mnReq heap ctrl calls :
  0 <= nHeap < 2 ^ 31 -> 1 <= mnReq <= 2 ^ 12 ->
  exists g0 g C, memsys5Init nHeap mnReq heap ctrl = Some g0
    /\ clientRun calls (g0, ∅) = Some (g, C)
    /\ forall p n, C !! p = Some n ->
         (8 | p) /\ 0 <= p /\ p + n <= nBlock g * szAtom g
         /\ forall q m, C !! q = Some m -> p <> q -> p + n <= q \/ q + m <= p.
Proof.
  intros Hh Hr. destruct (arena_init nHeap mnReq heap ctrl Hh Hr) as (g0 & E0 & _).
  pose proof (client_start _ _ _ _ _ Hh Hr E0) as H0.
  destruct (clientRun_ok calls g0 ∅ H0) as (g & C & E & U & HR & Htr). exists g0, g, C.
  split; [done|]. split; [done|]. intros p n Hp.
  destruct (tr_block _ _ _ Htr p n Hp) as (i & l & -> & Hi & Hn).
  destruct (ready_range _ _ _ _ HR Hi) as (Hl & Hi0 & Hin & _). pose proof (atom_pos _ _ HR) as Hsz.
  split_and!; [|nia|nia|].
  - destruct HR as (F & T & HA). destruct (ar_atom _ _ _ _ _ HA) as (k & Hk & ->).
    apply Z.divide_mul_r. apply (pow2_divide 3 k). lia.
  - intros q m Hq Hne. destruct (tr_block _ _ _ Htr q m Hq) as (j & k & -> & Hj & Hm).
    destruct (ready_apart _ _ _ _ _ _ HR Hi Hj) as [H|H]; [congruence|left|right]; nia.
Qed.

(** Any contents of the memory, for the examples. *)
Definition junk (i : Z) : Mem5Link := mkLink i 7 [].

Definition exampleCalls : list call := [CMalloc 100; CMalloc 20; CFree 2560; CMalloc 33; CRealloc 2688 64].

Definition example : option (Mem5Global * gmap Z Z) :=
  g0 ← memsys5Init 3000 10 junk (fun _ => 85); clientRun exampleCalls (g0, ∅).

Lemma memsys5_allocations_disjoint_witness :
  exists g C, example = Some (g, C) /\ size C = 2%nat
    /\ forall p n, C !! p = Some n -> 0 <= p /\ p + n <= nBlock g * szAtom g.
Proof.
  destruct (memsys5_allocations_disjoint 3000 10 junk (fun _ => 85) exampleCalls)
    as (g0 & g & C & E0 & E & H); [lia|lia|].
  exists g, C. split; [|split].
  - unfold example. rewrite E0. exact E.
  - assert ((fun r => size r.2) <$> example = Some 2%nat) as Hs by (vm_compute; reflexivity).
    unfold example in Hs. rewrite E0, bind_some, E in Hs. by injection Hs.
  - intros p n Hp. destruct (H p n Hp) as (_ & H1 & H2 & _). exact (conj H1 H2).
Defined.

(** A state that a client has reached. *)
Definition reached (g : Mem5Global) (C : gmap Z Z) : Prop :=
  exists nHeap mnReq heap ctrl g0 calls, 0 <= nHeap < 2 ^ 31 /\ 1 <= mnReq <= 2 ^ 12
    /\ memsys5Init nHeap mnReq heap ctrl = Some g0 /\ clientRun calls (g0, ∅) = Some (g, C).

Lemma reached_ok g C : reached g C -> client_ok g C.
Proof.
  intros (nHeap & mnReq & heap & ctrl & g0 & calls & H1 & H2 & E0 & E).
  pose proof (client_start _ _ _ _ _ H1 H2 E0) as H0.
  destruct (clientRun_ok calls g0 ∅ H0) as (g' & C' & E' & H). simplify_eq. done.
Qed.

Lemma example_reached g C : example = Some (g, C) -> reached g C.
Proof.
  intros E. destruct (arena_init 3000 10 junk (fun _ => 85)) as (g0 & E0 & _); [lia|lia|].
  unfold example in E. rewrite E0, bind_some in E. exists 3000, 10, junk, (fun _ => 85), g0, exampleCalls.
  split; [lia|]. split; [lia|]. exact (conj E0 E).
Qed.

(** C22: the allocator fails only when it has to: after any sequence of calls, when
    an allocation of up to 2^30 bytes returns NULL, every aligned region of
    the size that the request is rounded to has a byte that is allocated.
    Freed blocks are merged completely. *)
Theorem memsys5Malloc_complete g C n g' :
  reached g C -> 0 < n <= 2 ^ 30 -> memsys5Malloc n g = Some (None, g') ->
  g' = g /\ exists l, fits g n l /\
    forall s, (2 ^ l | s) -> 0 <= s -> s + 2 ^ l <= nBlock g ->
    exists p m z, C !! p = Some m /\ memsys5Size p g = Some z
      /\ p < (s + 2 ^ l) * szAtom g /\ s * szAtom g < p + z.
Proof.
  intros (U & HR & Htr)%reached_ok Hn E. pose proof (atom_pos _ _ HR) as Hsz.
  destruct (malloc_ok g U n HR) as (r & g1 & E1 & Hr); [lia|]. rewrite E in E1. injection E1 as <- <-.
  destruct Hr as [-> [Hbig|(l & Hfit & Hex)]]; [lia|]. split; [done|]. exists l. split; [done|].
  intros s Hs Hs0 Hsn. destruct (Hex s Hs Hs0 Hsn) as (j & k & Hj & H1 & H2).
  destruct (tr_known _ _ _ Htr j k Hj) as [m Hm]. exists (j * szAtom g), m, (szAtom g * 2 ^ k).
  split; [done|]. split; [by apply (size_ok g U)|]. nia.
Qed.

Lemma memsys5Malloc_complete_witness :
  exists g C g', example = Some (g, C) /\ memsys5Malloc 4000 g = Some (None, g') /\ g' = g.
Proof.
  assert (is_Some (r ← example; x ← memsys5Malloc 4000 r.1; match x.1 with None => Some x.2 | Some _ => None end)) as H
    by (vm_compute; eauto).
  destruct example as [[g C]|] eqn:E; [|by destruct H]. rewrite bind_some in H. cbn [fst] in H.
  destruct (memsys5Malloc 4000 g) as [[[p|] g']|] eqn:Em; [by destruct H| |by destruct H].
  exists g, C, g'. split; [reflexivity|]. split; [exact Em|].
  apply (memsys5Malloc_complete g C 4000 g'); [by apply example_reached|lia|exact Em].
Defined.

(** Resizing keeps the data: when [memsys5Realloc] returns a block, in place
    or elsewhere, every atom of the old block has its content in the new one,
    and no atom of another allocation has changed. *)
Theorem memsys5Realloc_keeps g C p m n q g' :
  reached g C -> C !! p = Some m -> 0 <= n -> memsys5Realloc p n g = Some (Some q, g') ->
  exists z, memsys5Size p g = Some z
    /\ (forall a, 0 <= a -> a * szAtom g < z ->
          zPool g' !! (q / szAtom g + a) = zPool g !! (p / szAtom g + a))
    /\ (forall p' m' z' a, C !! p' = Some m' -> p' <> p -> memsys5Size p' g = Some z' ->
          0 <= a -> a * szAtom g < z' -> zPool g' !! (p' / szAtom g + a) = zPool g !! (p' / szAtom g + a)).
Proof.
  intros (U & HR & Htr)%reached_ok Hp Hn E. pose proof (atom_pos _ _ HR) as Hsz.
  destruct (tr_block _ _ _ Htr p m Hp) as (i & l & -> & Hi & Hm).
  destruct (realloc_ok g U i l n HR Hi Hn) as (r & g1 & E1 & Hr). rewrite E in E1. injection E1 as <- <-.
  destruct Hr as (j & k & -> & _ & _ & Hkept & _ & Hcopy).
  exists (szAtom g * 2 ^ l). split; [by apply (size_ok g U)|]. rewrite !Z.div_mul by lia. split.
  - intros a Ha Haz. apply Hcopy. nia.
  - intros p' m' z' a Hp' Hne Hz' Ha Haz. destruct (tr_block _ _ _ Htr p' m' Hp') as (i' & l' & -> & Hi' & _).
    rewrite (size_ok g U i' l' HR Hi') in Hz'. injection Hz' as <-. rewrite Z.div_mul by lia.
    apply (kp_data _ _ _ Hkept i' l'); [|nia]. apply lookup_delete_Some. split; [congruence|done].
Qed.

Lemma memsys5Realloc_keeps_witness :
  exists g C g' q, example = Some (g, C) /\ memsys5Realloc 2752 400 g = Some (Some q, g')
    /\ zPool g' !! (q / szAtom g + 1) = zPool g !! (2752 / szAtom g + 1).
Proof.
  assert (is_Some (r ← example; _ ← guard (is_Some (r.2 !! 2752)); z ← memsys5Size 2752 r.1;
                   _ ← guard (1 * szAtom r.1 < z);
                   x ← memsys5Realloc 2752 400 r.1; x.1)) as H by (vm_compute; eauto).
  destruct example as [[g C]|] eqn:E; [|by destruct H]. rewrite bind_some in H. cbn [fst snd] in H.
  case_guard as HC; [|by destruct H]. rewrite bind_some in H.
  destruct (memsys5Size 2752 g) as [z|] eqn:Ez; [|by destruct H]. rewrite bind_some in H.
  case_guard as Hz; [|by destruct H]. rewrite bind_some in H.
  destruct (memsys5Realloc 2752 400 g) as [[[q|] g']|] eqn:Er; [|by destruct H|by destruct H].
  exists g, C, g', q. split; [reflexivity|]. split; [exact Er|]. destruct HC as [m Hm].
  destruct (memsys5Realloc_keeps g C 2752 m 400 q g') as (z0 & Ez0 & Hcopy & _);
    [by apply example_reached|exact Hm|lia|exact Er|].
  apply Hcopy; [lia|]. rewrite Ez in Ez0. injection Ez0 as <-. exact Hz.
Defined.

Lemma fits_unique g n l l' : 0 < szAtom g -> fits g n l -> fits g n l' -> l = l'.
Proof.
  intros Hsz (H1 & H2 & H3) (G1 & G2 & G3).
  destruct (Z.lt_trichotomy l l') as [Hlt|[Heq|Hlt]]; [|done|].
  - pose proof (pow2_le l (l' - 1) ltac:(lia)). nia.
  - pose proof (pow2_le l' (l - 1) ltac:(lia)). nia.
Qed.

(** [memsys5Roundup] tells exactly the size of the block that an allocation
    of [n] bytes gets. *)
Theorem memsys5Roundup_exact g C n p g' :
  reached g C -> 0 < n <= 2 ^ 30 -> memsys5Malloc n g = Some (Some p, g') ->
  memsys5Roundup n g = memsys5Size p g'.
Proof.
  intros (U & HR & Htr)%reached_ok Hn E. pose proof (atom_pos _ _ HR) as Hsz.
  destruct (malloc_ok g U n HR) as (r & g1 & E1 & Hr); [lia|]. rewrite E in E1. injection E1 as <- <-.
  destruct Hr as (i & l & -> & Hfit & Hi & HR' & Hk).
  destruct (roundup_ok g U n HR) as (v & -> & [[_ (l' & Hfit' & ->)]|[Hbig _]]); [lia| |lia].
  assert (l' = l) as -> by (apply (fits_unique g n); [lia|done|done]). rewrite <- (kp_atom _ _ _ Hk).
  symmetry. eapply size_ok; [exact HR'|]. apply lookup_insert_eq.
Qed.

Lemma memsys5Roundup_exact_witness :
  exists g C p g', example = Some (g, C) /\ memsys5Malloc 300 g = Some (Some p, g')
    /\ memsys5Roundup 300 g = memsys5Size p g'.
Proof.
  assert (is_Some (r ← example; x ← memsys5Malloc 300 r.1; x.1)) as H by (vm_compute; eauto).
  destruct example as [[g C]|] eqn:E; [|by destruct H]. rewrite bind_some in H. cbn [fst] in H.
  destruct (memsys5Malloc 300 g) as [[[p|] g']|] eqn:Em; [|by destruct H|by destruct H].
  exists g, C, p, g'. split; [reflexivity|]. split; [exact Em|].
  apply (memsys5Roundup_exact g C 300 p g'); [by apply example_reached|lia|exact Em].
Defined.
