(* ===== verification/Btree.v ===== *)
(** * The data of the B-tree: pages and cells (btreeInt.h, btree.c)

    [MemPage] and [BtShared] with the fields that the operations on a page
    use, the flags that give the kind of a page, and the functions that parse
    a cell or compute its size.  A pointer to a cell is the list of the bytes
    from there on; bytes after the end of the list read as 0. *)

From stdpp Require Import base list numbers option.
From S2P Require Import Prelude Util.
#[local] Open Scope Z_scope.

(** ** The shared part of a B-tree *)

Definition BTS_FAST_SECURE : Z := 0x000c.

(** [cellSizeCk] is the flag SQLITE_CellSizeCk of the connection. *)
Record BtShared := mkBtShared {
  autoVacuum : bool;
  btsFlags : Z;
  cellSizeCk : bool;
  pageSize : Z;
  usableSize : Z;
  bt_maxLocal : Z;
  bt_minLocal : Z;
  maxLeaf : Z;
  minLeaf : Z;
  bt_max1bytePayload : Z
}.

(** The limits of local payload, at the end of [lockBtree]; all operands are
    unsigned 32-bit integers. *)
Definition payloadLimits (pBt : BtShared) : BtShared :=
  let usable := usableSize pBt in
  let maxLocal := u16 ((usable - 12) * 64 / 255 - 23) in
  let minLocal := u16 ((usable - 12) * 32 / 255 - 23) in
  let maxLeaf := u16 (usable - 35) in
  let minLeaf := u16 ((usable - 12) * 32 / 255 - 23) in
  let max1byte := if 127 <? maxLocal then 127 else u8 maxLocal in
  mkBtShared (autoVacuum pBt) (btsFlags pBt) (cellSizeCk pBt) (pageSize pBt) usable
    maxLocal minLocal maxLeaf minLeaf max1byte.

Definition MX_CELL (pBt : BtShared) : Z := (pageSize pBt - 8) / 6.

(** ** Pages *)

Definition PTF_INTKEY : Z := 0x01.
Definition PTF_ZERODATA : Z := 0x02.
Definition PTF_LEAFDATA : Z := 0x04.
Definition PTF_LEAF : Z := 0x08.

(** The functions that [xCellSize] and [xParseCell] point to. *)
Inductive sizeMethod := SizePtr | SizePtrIdxLeaf | SizePtrNoPayload | SizePtrTableLeaf.
Inductive parseMethod := ParsePtr | ParsePtrIndex | ParsePtrNoPayload.

(** The pointers [aDataEnd], [aCellIdx] and [aDataOfst] are offsets into
    [aData]; an overflow cell of [apOvfl] is its content. *)
Record MemPage := mkMemPage {
  isInit : bool;
  intKey : bool;
  intKeyLeaf : bool;
  pgno : Z;
  leaf : bool;
  hdrOffset : Z;
  childPtrSize : Z;
  max1bytePayload : Z;
  nOverflow : Z;
  maxLocal : Z;
  minLocal : Z;
  cellOffset : Z;
  nFree : Z;
  nCell : Z;
  maskPage : Z;
  aiOvfl : list Z;
  apOvfl : list (list Z);
  pBt : BtShared;
  aData : list Z;
  aDataEnd : Z;
  aCellIdx : Z;
  aDataOfst : Z;
  xCellSizeM : sizeMethod;
  xParseCellM : parseMethod
}.

(** Assignments to the fields. *)
Definition setData (d : list Z) (p : MemPage) : MemPage :=
  mkMemPage (isInit p) (intKey p) (intKeyLeaf p) (pgno p) (leaf p) (hdrOffset p)
    (childPtrSize p) (max1bytePayload p) (nOverflow p) (maxLocal p) (minLocal p)
    (cellOffset p) (nFree p) (nCell p) (maskPage p) (aiOvfl p) (apOvfl p) (pBt p)
    d (aDataEnd p) (aCellIdx p) (aDataOfst p) (xCellSizeM p) (xParseCellM p).

Definition setFree (n : Z) (p : MemPage) : MemPage :=
  mkMemPage (isInit p) (intKey p) (intKeyLeaf p) (pgno p) (leaf p) (hdrOffset p)
    (childPtrSize p) (max1bytePayload p) (nOverflow p) (maxLocal p) (minLocal p)
    (cellOffset p) n (nCell p) (maskPage p) (aiOvfl p) (apOvfl p) (pBt p)
    (aData p) (aDataEnd p) (aCellIdx p) (aDataOfst p) (xCellSizeM p) (xParseCellM p).

Definition setCell (n : Z) (p : MemPage) : MemPage :=
  mkMemPage (isInit p) (intKey p) (intKeyLeaf p) (pgno p) (leaf p) (hdrOffset p)
    (childPtrSize p) (max1bytePayload p) (nOverflow p) (maxLocal p) (minLocal p)
    (cellOffset p) (nFree p) n (maskPage p) (aiOvfl p) (apOvfl p) (pBt p)
    (aData p) (aDataEnd p) (aCellIdx p) (aDataOfst p) (xCellSizeM p) (xParseCellM p).

Definition setInit (b : bool) (p : MemPage) : MemPage :=
  mkMemPage b (intKey p) (intKeyLeaf p) (pgno p) (leaf p) (hdrOffset p)
    (childPtrSize p) (max1bytePayload p) (nOverflow p) (maxLocal p) (minLocal p)
    (cellOffset p) (nFree p) (nCell p) (maskPage p) (aiOvfl p) (apOvfl p) (pBt p)
    (aData p) (aDataEnd p) (aCellIdx p) (aDataOfst p) (xCellSizeM p) (xParseCellM p).

(** [nOverflow] and the two arrays of overflow cells. *)
Definition setOvfl (n : Z) (ai : list Z) (ap : list (list Z)) (p : MemPage) : MemPage :=
  mkMemPage (isInit p) (intKey p) (intKeyLeaf p) (pgno p) (leaf p) (hdrOffset p)
    (childPtrSize p) (max1bytePayload p) n (maxLocal p) (minLocal p)
    (cellOffset p) (nFree p) (nCell p) (maskPage p) ai ap (pBt p)
    (aData p) (aDataEnd p) (aCellIdx p) (aDataOfst p) (xCellSizeM p) (xParseCellM p).

(** [maskPage], [cellOffset], [aCellIdx], [aDataEnd] and [aDataOfst]. *)
Definition setOffsets (mask off idx dend ofst : Z) (p : MemPage) : MemPage :=
  mkMemPage (isInit p) (intKey p) (intKeyLeaf p) (pgno p) (leaf p) (hdrOffset p)
    (childPtrSize p) (max1bytePayload p) (nOverflow p) (maxLocal p) (minLocal p)
    off (nFree p) (nCell p) mask (aiOvfl p) (apOvfl p) (pBt p)
    (aData p) dend idx ofst (xCellSizeM p) (xParseCellM p).

(** The fields that [decodeFlags] sets; it keeps the limits of a page with
    flags that are not supported. *)
Definition setKind (lf ik ikl : bool) (child maxl minl : Z) (cs : sizeMethod)
    (pc : parseMethod) (p : MemPage) : MemPage :=
  mkMemPage (isInit p) ik ikl (pgno p) lf (hdrOffset p)
    child (bt_max1bytePayload (pBt p)) (nOverflow p) maxl minl
    (cellOffset p) (nFree p) (nCell p) (maskPage p) (aiOvfl p) (apOvfl p) (pBt p)
    (aData p) (aDataEnd p) (aCellIdx p) (aDataOfst p) cs pc.

Definition decodeFlags (pPage : MemPage) (flagByte : Z) : Z * MemPage :=
  let bt := pBt pPage in
  if Z.lor PTF_ZERODATA PTF_LEAF <=? flagByte then
    if flagByte =? Z.lor (Z.lor PTF_LEAFDATA PTF_INTKEY) PTF_LEAF then
      (SQLITE_OK, setKind true true true 0 (maxLeaf bt) (minLeaf bt)
                    SizePtrTableLeaf ParsePtr pPage)
    else if flagByte =? Z.lor PTF_ZERODATA PTF_LEAF then
      (SQLITE_OK, setKind true false false 0 (bt_maxLocal bt) (bt_minLocal bt)
                    SizePtrIdxLeaf ParsePtrIndex pPage)
    else
      (SQLITE_CORRUPT, setKind true false false 0 (maxLocal pPage) (minLocal pPage)
                         SizePtrIdxLeaf ParsePtrIndex pPage)
  else
    if flagByte =? PTF_ZERODATA then
      (SQLITE_OK, setKind false false false 4 (bt_maxLocal bt) (bt_minLocal bt)
                    SizePtr ParsePtrIndex pPage)
    else if flagByte =? Z.lor PTF_LEAFDATA PTF_INTKEY then
      (SQLITE_OK, setKind false true false 4 (maxLeaf bt) (minLeaf bt)
                    SizePtrNoPayload ParsePtrNoPayload pPage)
    else
      (SQLITE_CORRUPT, setKind false false false 4 (maxLocal pPage) (minLocal pPage)
                         SizePtr ParsePtrIndex pPage).

(** ** Parsing a cell *)

(** [pPayload] is an offset into the cell; [None] is the null pointer. *)
Record CellInfo := mkCellInfo {
  nKey : Z;
  pPayload : option Z;
  nPayload : Z;
  nLocal : Z;
  nSize : Z
}.

Definition shl64 (x k : Z) : Z := u64 (Z.shiftl x k).

(** A signed 64-bit integer with the bits of an unsigned one. *)
Definition i64 (x : Z) : Z := if x <? 2 ^ 63 then x else x - 2 ^ 64.

(** The inlined reader of the payload size, the same text in each of the
    functions below.  [payloadLoop] is its [do ... while] loop, at most
    eight turns. *)
Fixpoint payloadLoop (n : nat) (pCell : list Z) (pIter pEnd v : Z) : Z * Z :=
  let pIter := pIter + 1 in
  let v := Z.lor (shl32 v 7) (Z.land (nthZ pCell pIter) 0x7f) in
  match n with
  | O => (v, pIter)
  | S n' =>
      if (0x80 <=? nthZ pCell pIter) && (pIter <? pEnd)
      then payloadLoop n' pCell pIter pEnd v
      else (v, pIter)
  end.

(** The value and the position after it. *)
Definition getPayloadSize (pCell : list Z) (pIter : Z) : Z * Z :=
  let v := nthZ pCell pIter in
  let '(v, pIter) :=
    if 0x80 <=? v then payloadLoop 7 pCell pIter (pIter + 8) (Z.land v 0x7f)
    else (v, pIter) in
  (v, pIter + 1).

(** The unrolled reader of the key of [btreeParseCellPtr]. *)
Definition getKey (pCell : list Z) (pIter : Z) : Z * Z :=
  let b k := nthZ pCell (pIter + k) in
  let iKey := b 0 in
  if iKey <? 0x80 then (iKey, pIter + 1) else
  let iKey := Z.lxor (shl64 iKey 7) (b 1) in
  if b 1 <? 0x80 then (Z.lxor iKey 0x4000, pIter + 2) else
  let iKey := Z.lxor (shl64 iKey 7) (b 2) in
  if b 2 <? 0x80 then (Z.lxor iKey 0x204000, pIter + 3) else
  let iKey := Z.lxor (Z.lxor (shl64 iKey 7) 0x10204000) (b 3) in
  if b 3 <? 0x80 then (iKey, pIter + 4) else
  let iKey := Z.lxor (Z.lxor (shl64 iKey 7) 0x4000) (b 4) in
  if b 4 <? 0x80 then (iKey, pIter + 5) else
  let iKey := Z.lxor (Z.lxor (shl64 iKey 7) 0x4000) (b 5) in
  if b 5 <? 0x80 then (iKey, pIter + 6) else
  let iKey := Z.lxor (Z.lxor (shl64 iKey 7) 0x4000) (b 6) in
  if b 6 <? 0x80 then (iKey, pIter + 7) else
  let iKey := Z.lxor (Z.lxor (shl64 iKey 7) 0x4000) (b 7) in
  if b 7 <? 0x80 then (iKey, pIter + 8) else
  (Z.lxor (Z.lxor (shl64 iKey 8) 0x8000) (b 8), pIter + 9).

(** The fields [nLocal] and [nSize]; the payload begins at [pPayload]. *)
Definition btreeParseCellAdjustSizeForOverflow (pPage : MemPage) (nPayload pPayload : Z)
    : Z * Z :=
  let surplus := minLocal pPage
    + u32 (nPayload - minLocal pPage) mod (usableSize (pBt pPage) - 4) in
  let nLocal := if surplus <=? maxLocal pPage then u16 surplus else u16 (minLocal pPage) in
  (nLocal, u16 (u16 (pPayload + nLocal) + 4)).

Definition btreePayloadToLocal (pPage : MemPage) (nPayload : Z) : Z :=
  if nPayload <=? maxLocal pPage then nPayload
  else
    let surplus := minLocal pPage
      + (nPayload - minLocal pPage) mod (usableSize (pBt pPage) - 4) in
    if surplus <=? maxLocal pPage then surplus else minLocal pPage.

Definition btreeParseCellPtrNoPayload (pPage : MemPage) (pCell : list Z) : CellInfo :=
  let '(n, v) := sqlite3GetVarint (drop 4 pCell) in
  mkCellInfo (i64 v) None 0 0 (u16 (4 + n)).

Definition btreeParseCellPtr (pPage : MemPage) (pCell : list Z) : CellInfo :=
  let '(nPayload, pIter) := getPayloadSize pCell 0 in
  let '(iKey, pIter) := getKey pCell pIter in
  if nPayload <=? maxLocal pPage then
    let nSize := u16 (nPayload + u16 pIter) in
    mkCellInfo (i64 iKey) (Some pIter) nPayload (u16 nPayload)
      (if nSize <? 4 then 4 else nSize)
  else
    let '(nLocal, nSize) := btreeParseCellAdjustSizeForOverflow pPage nPayload pIter in
    mkCellInfo (i64 iKey) (Some pIter) nPayload nLocal nSize.

Definition btreeParseCellPtrIndex (pPage : MemPage) (pCell : list Z) : CellInfo :=
  let '(nPayload, pIter) := getPayloadSize pCell (childPtrSize pPage) in
  if nPayload <=? maxLocal pPage then
    let nSize := u16 (nPayload + u16 pIter) in
    mkCellInfo nPayload (Some pIter) nPayload (u16 nPayload)
      (if nSize <? 4 then 4 else nSize)
  else
    let '(nLocal, nSize) := btreeParseCellAdjustSizeForOverflow pPage nPayload pIter in
    mkCellInfo nPayload (Some pIter) nPayload nLocal nSize.

Definition xParseCell (pPage : MemPage) (pCell : list Z) : CellInfo :=
  match xParseCellM pPage with
  | ParsePtr => btreeParseCellPtr pPage pCell
  | ParsePtrIndex => btreeParseCellPtrIndex pPage pCell
  | ParsePtrNoPayload => btreeParseCellPtrNoPayload pPage pCell
  end.

(** ** The size of a cell *)

(** The size of the part that stays on the page when the payload overflows:
    the end of [cellSizePtr], [cellSizePtrIdxLeaf] and
    [cellSizePtrTableLeaf]. *)
Definition spilledSize (pPage : MemPage) (nSize pIter : Z) : Z :=
  let nSize := u32 (minLocal pPage
    + u32 (nSize - minLocal pPage) mod (usableSize (pBt pPage) - 4)) in
  let nSize := if maxLocal pPage <? nSize then minLocal pPage else nSize in
  u16 (nSize + (4 + u16 pIter)).

Definition cellSizePtr (pPage : MemPage) (pCell : list Z) : Z :=
  let '(nSize, pIter) := getPayloadSize pCell 4 in
  if nSize <=? maxLocal pPage then u16 (nSize + pIter)
  else spilledSize pPage nSize pIter.

Definition cellSizePtrIdxLeaf (pPage : MemPage) (pCell : list Z) : Z :=
  let '(nSize, pIter) := getPayloadSize pCell 0 in
  if nSize <=? maxLocal pPage then
    let nSize := nSize + pIter in
    u16 (if nSize <? 4 then 4 else nSize)
  else spilledSize pPage nSize pIter.

(** [while( ( *pIter++)&0x80 && pIter<pEnd )]. *)
Fixpoint skipVarint (n : nat) (pCell : list Z) (pIter pEnd : Z) : Z :=
  match n with
  | O => pIter
  | S n' =>
      let b := nthZ pCell pIter in
      let pIter := pIter + 1 in
      if negb (Z.land b 0x80 =? 0) && (pIter <? pEnd)
      then skipVarint n' pCell pIter pEnd else pIter
  end.

Definition cellSizePtrNoPayload (pPage : MemPage) (pCell : list Z) : Z :=
  u16 (skipVarint 9 pCell 4 (4 + 9)).

(** The unrolled [if( ( *pIter++)&0x80 && ... ){ pIter++; }]: [n] tests are
    left. *)
Fixpoint skipKey (n : nat) (pCell : list Z) (pIter : Z) : Z :=
  match n with
  | O => pIter + 1
  | S n' =>
      let b := nthZ pCell pIter in
      let pIter := pIter + 1 in
      if negb (Z.land b 0x80 =? 0) then skipKey n' pCell pIter else pIter
  end.

Definition cellSizePtrTableLeaf (pPage : MemPage) (pCell : list Z) : Z :=
  let '(nSize, pIter) := getPayloadSize pCell 0 in
  let pIter := skipKey 8 pCell pIter in
  if nSize <=? maxLocal pPage then
    let nSize := nSize + pIter in
    u16 (if nSize <? 4 then 4 else nSize)
  else spilledSize pPage nSize pIter.

Definition xCellSize (pPage : MemPage) (pCell : list Z) : Z :=
  match xCellSizeM pPage with
  | SizePtr => cellSizePtr pPage pCell
  | SizePtrIdxLeaf => cellSizePtrIdxLeaf pPage pCell
  | SizePtrNoPayload => cellSizePtrNoPayload pPage pCell
  | SizePtrTableLeaf => cellSizePtrTableLeaf pPage pCell
  end.
