(* ===== verification/BtVarint.v ===== *)
(** * The inlined readers of variable-length integers in btree.c

    The readers of payload sizes and keys in the functions that parse cells
    and compute their size, against the reference decoder. *)

From stdpp Require Import base list numbers option.
From S2P Require Import Prelude Util Varint Btree.
#[local] Open Scope Z_scope.

(** ** Lengths *)

Lemma nthZ_drop p i j : 0 <= i -> 0 <= j -> nthZ (drop (Z.to_nat i) p) j = nthZ p (i + j).
Proof. intros Hi Hj. unfold nthZ. rewrite lookup_drop. do 2 f_equal. lia. Qed.

(** The number of bytes of the integer at [i]. *)
Definition varintLen (p : list Z) (i : Z) : Z := (getVarintRef (drop (Z.to_nat i) p)).1.
Definition varintVal (p : list Z) (i : Z) : Z := (getVarintRef (drop (Z.to_nat i) p)).2.

Lemma varintRef_shift n p i j acc :
  0 <= i -> 0 <= j ->
  varintRef n (i + j) p acc =
  (i + (varintRef n j (drop (Z.to_nat i) p) acc).1,
   (varintRef n j (drop (Z.to_nat i) p) acc).2).
Proof.
  intros Hi. revert j acc. induction n as [|n IH]; intros j acc Hj; cbn [varintRef].
  - rewrite nthZ_drop by done. cbn [fst snd]. f_equal. lia.
  - rewrite nthZ_drop by done. destruct (_ <? 128); cbn [fst snd]; [f_equal; lia|].
    rewrite <- Z.add_assoc, IH by lia. done.
Qed.

Lemma getVarintRef_at p i :
  0 <= i -> varintRef 8 i p 0 = (i + varintLen p i, varintVal p i).
Proof.
  intros Hi. rewrite <- (Z.add_0_r i) at 1. rewrite varintRef_shift by done. done.
Qed.

(** The length does not depend on the value. *)
Lemma varintRef_len n p i acc acc' :
  (varintRef n i p acc).1 = (varintRef n i p acc').1.
Proof.
  revert i acc acc'. induction n as [|n IH]; intros; cbn [varintRef]; [done|].
  destruct (_ <? 128); [done|apply IH].
Qed.

Lemma varintRef_len_bound n p i acc :
  i + 1 <= (varintRef n i p acc).1 <= i + 1 + Z.of_nat n.
Proof.
  revert i acc. induction n as [|n IH]; intros; cbn [varintRef fst]; [lia|].
  destruct (_ <? 128); cbn [fst]; [lia|]. specialize (IH (i + 1) (Z.lor (Z.shiftl acc 7) (Z.land (nthZ p i) 0x7f))). lia.
Qed.

Lemma varintLen_bound p i : 1 <= varintLen p i <= 9.
Proof. unfold varintLen, getVarintRef. pose proof (varintRef_len_bound 8 (drop (Z.to_nat i) p) 0 0). lia. Qed.

Lemma skipKey_ref n p i acc :
  Forall is_byte p -> skipKey n p i = (varintRef n i p acc).1.
Proof.
  intros Hp. revert i acc. induction n as [|n IH]; intros; cbn [skipKey varintRef]; [done|].
  rewrite byte_high_bit by (by apply nthZ_byte). destruct (_ <? 128); [done|apply IH].
Qed.

Lemma skipVarint_ref n p i pEnd acc :
  Forall is_byte p -> pEnd = i + 1 + Z.of_nat n ->
  skipVarint (S n) p i pEnd = (varintRef n i p acc).1.
Proof.
  intros Hp. revert i acc. induction n as [|n IH]; intros i acc He.
  - cbn [skipVarint varintRef fst]. destruct (negb _ && _); done.
  - change (skipVarint (S (S n)) p i pEnd) with
      (if negb (Z.land (nthZ p i) 0x80 =? 0) && (i + 1 <? pEnd)
       then skipVarint (S n) p (i + 1) pEnd else i + 1).
    cbn [varintRef]. rewrite byte_high_bit by (by apply nthZ_byte).
    destruct (nthZ p i <? 128); cbn [negb andb fst]; [done|].
    replace (i + 1 <? pEnd) with true by (symmetry; apply Z.ltb_lt; lia).
    apply IH. lia.
Qed.

(** ** The payload size *)

Lemma group_u32 acc b :
  is_byte b -> Z.lor (shl32 (u32 acc) 7) (Z.land b 0x7f) = u32 (acc * 128 + b mod 128).
Proof.
  intros Hb. rewrite land_127. unfold shl32, u32. rewrite Z.shiftl_mul_pow2 by done.
  pose proof (Z.mod_pos_bound b 128 ltac:(lia)) as Hm.
  replace ((acc mod 2 ^ 32 * 2 ^ 7) mod 2 ^ 32) with (Z.shiftl (acc mod 2 ^ 25) 7).
  - rewrite lor_shiftl by lia.
    rewrite <- (Z.mod_unique (acc * 128 + b mod 128) (2 ^ 32) (acc / 2 ^ 25) (acc mod 2 ^ 25 * 2 ^ 7 + b mod 128)); [done| |].
    + left. pose proof (Z.mod_pos_bound acc (2 ^ 25) ltac:(lia)). lia.
    + pose proof (Z.div_mod acc (2 ^ 25) ltac:(lia)). lia.
  - rewrite Z.shiftl_mul_pow2 by done.
    change (2 ^ 32) with (2 ^ 25 * 2 ^ 7) at 2. rewrite Z.mul_mod_distr_r by lia.
    f_equal. change (2 ^ 32) with (2 ^ 25 * 2 ^ 7). rewrite Z.rem_mul_r by lia.
    rewrite Z.mul_comm, Z.mod_add by lia. by rewrite Z.mod_mod by lia.
Qed.

Lemma payloadLoop_ref n p i pEnd acc :
  Forall is_byte p -> pEnd = i + 1 + Z.of_nat n ->
  exists w, payloadLoop n p i pEnd (u32 acc) = (u32 w, (varintRef n (i + 1) p acc).1 - 1) /\
    ((varintRef n (i + 1) p acc).1 <= pEnd -> w = (varintRef n (i + 1) p acc).2).
Proof.
  intros Hp. revert i acc. induction n as [|n IH]; intros i acc He; cbn [payloadLoop varintRef].
  - rewrite group_u32 by (by apply nthZ_byte). eexists. split; [f_equal; cbn [fst]; lia|].
    cbn [fst]. lia.
  - rewrite group_u32, cont_step by (by apply nthZ_byte).
    rewrite (Z.leb_antisym (nthZ p (i + 1))). destruct (nthZ p (i + 1) <? 128) eqn:Hb; cbn [negb andb fst snd].
    + eexists. split; [f_equal; lia|done].
    + replace (i + 1 <? pEnd) with true by (symmetry; apply Z.ltb_lt; lia).
      apply IH. lia.
Qed.

(** The inlined reader agrees with the reference decoder in the length, and
    in the value modulo [2 ^ 32] unless the integer has nine bytes. *)
Lemma getPayloadSize_ref p i :
  Forall is_byte p -> 0 <= i ->
  exists w, getPayloadSize p i = (u32 w, i + varintLen p i) /\
    (varintLen p i <= 8 -> w = varintVal p i).
Proof.
  intros Hp Hi. unfold getPayloadSize.
  pose proof (nthZ_byte p i Hp) as Hb. unfold is_byte in Hb.
  pose proof (getVarintRef_at p i Hi) as Hr.
  change (varintRef 8 i p 0) with
    (if nthZ p i <? 128 then (i + 1, Z.lor (Z.shiftl 0 7) (Z.land (nthZ p i) 0x7f))
     else varintRef 7 (i + 1) p (Z.lor (Z.shiftl 0 7) (Z.land (nthZ p i) 0x7f))) in Hr.
  rewrite Z.leb_antisym.
  change (Z.lor (Z.shiftl 0 7) (Z.land (nthZ p i) 0x7f)) with (Z.land (nthZ p i) 0x7f) in Hr.
  destruct (Z.ltb_spec (nthZ p i) 128) as [Hlt|Hge]; cbn [negb].
  - assert (Z.land (nthZ p i) 0x7f = nthZ p i) as E by (rewrite land_127; apply Z.mod_small; lia).
    rewrite E in Hr. exists (nthZ p i). rewrite u32_small by lia. split; [by injection Hr as -> _|].
    by injection Hr as _ ->.
  - assert (Z.land (nthZ p i) 0x7f = u32 (Z.land (nthZ p i) 0x7f)) as E.
    { rewrite u32_small; [done|]. rewrite land_127. pose proof (Z.mod_pos_bound (nthZ p i) 128). lia. }
    destruct (payloadLoop_ref 7 p i (i + 8) (Z.land (nthZ p i) 0x7f)) as (w & Hw & Hv); [done|lia|].
    rewrite <- E in Hw. rewrite Hw, Hr. exists w. cbn [fst snd] in *. split; [f_equal; lia|].
    intros Hl. rewrite Hr in Hv. apply Hv. cbn [fst]. lia.
Qed.

Lemma getPayloadSize_len p i : Forall is_byte p -> 0 <= i -> (getPayloadSize p i).2 = i + varintLen p i.
Proof. intros Hp Hi. by destruct (getPayloadSize_ref p i Hp Hi) as (w & -> & _). Qed.

(** ** The key *)

Lemma bits_big x : is_byte x -> (x <? 128) = false ->
  exists g : Z -> bool, forall k, Z.testbit x k = (0 <=? k) && (k <? 8) && ((k =? 7) || g k).
Proof.
  intros Hx Hs. exists (Z.testbit x). intros k. destruct (Z.eqb_spec k 7) as [->|Hk].
  - apply Z.ltb_ge in Hs. unfold is_byte in Hx. rewrite Z.testbit_odd, Z.shiftr_div_pow2 by done.
    by replace (x / 2 ^ 7) with 1 by (apply Z.div_unique with (x - 128); lia).
  - cbn [orb]. destruct (Z.leb_spec 0 k); cbn [andb]; [|by apply Z.testbit_neg_r].
    destruct (Z.ltb_spec k 8); cbn [andb]; [done|]. by apply byte_testbit_high.
Qed.

Lemma bits_shl64 x k m :
  Z.testbit (shl64 x k) m = (m <? 64) && ((0 <=? m) && Z.testbit x (m - k)).
Proof. unfold shl64, u64. by rewrite Z.testbit_mod_pow2, bits_shiftl. Qed.

Lemma bits_const c m : 0 <= c < 2 ^ 64 -> Z.testbit c m = (m <? 64) && Z.testbit c m.
Proof.
  intros Hc. destruct (Z.ltb_spec m 64); [done|]. cbn [andb]. by apply bits_lt64.
Qed.

Ltac keybits n :=
  apply Z.bits_inj'; intros n Hn;
  repeat (rewrite Z.lxor_spec || rewrite Z.lor_spec || rewrite Z.land_spec
          || rewrite bits_shl64 || rewrite bits_shiftl);
  repeat match goal with
  | H : is_byte ?x, Hs : (?x <? 128) = true |- _ =>
      let g := fresh "g" in let Hg := fresh "Hg" in
      destruct (bits_small x H Hs) as [g Hg]; rewrite ?Hg; clear Hg H Hs
  end;
  repeat match goal with
  | H : is_byte ?x, Hs : (?x <? 128) = false |- _ =>
      let g := fresh "g" in let Hg := fresh "Hg" in
      destruct (bits_big x H Hs) as [g Hg]; rewrite ?Hg; clear Hg H Hs
  end;
  repeat match goal with
  | H : is_byte ?x |- _ =>
      let g := fresh "g" in let Hg := fresh "Hg" in
      destruct (bits_byte x H) as [g Hg]; rewrite ?Hg; clear Hg H
  end;
  destruct (Z.lt_ge_cases n 66) as [Hlt|Hge];
  [ revert n Hn Hlt;
    match goal with |- forall n, _ -> _ -> @?P n =>
      intros n Hn Hlt; apply (index_cases P 66); [|lia];
      intros i Hi; do 66 (destruct i as [|i];
        [clear; vm_compute; split_bits; reflexivity|]); lia
    end
  | try rewrite (bits_const 0x4000 n) by lia; try rewrite (bits_const 0x204000 n) by lia;
    try rewrite (bits_const 0x10204000 n) by lia; try rewrite (bits_const 0x8000 n) by lia;
    bits_high ].

Lemma getKey_ref p :
  Forall is_byte p -> getKey p 0 = ((getVarintRef p).2, (getVarintRef p).1).
Proof.
  intros Hp.
  pose proof (nthZ_byte p 0 Hp). pose proof (nthZ_byte p 1 Hp).
  pose proof (nthZ_byte p 2 Hp). pose proof (nthZ_byte p 3 Hp).
  pose proof (nthZ_byte p 4 Hp). pose proof (nthZ_byte p 5 Hp).
  pose proof (nthZ_byte p 6 Hp). pose proof (nthZ_byte p 7 Hp).
  pose proof (nthZ_byte p 8 Hp). clear Hp.
  unfold getVarintRef, getKey. cbn [varintRef]. rewrite !Z.add_0_l.
  change (1 + 1) with 2. change (2 + 1) with 3.
  change (3 + 1) with 4. change (4 + 1) with 5. change (5 + 1) with 6.
  change (6 + 1) with 7. change (7 + 1) with 8. change (8 + 1) with 9.
  generalize dependent (nthZ p 0). generalize dependent (nthZ p 1).
  generalize dependent (nthZ p 2). generalize dependent (nthZ p 3).
  generalize dependent (nthZ p 4). generalize dependent (nthZ p 5).
  generalize dependent (nthZ p 6). generalize dependent (nthZ p 7).
  generalize dependent (nthZ p 8). intros. cbv zeta.
  do 8 (match goal with |- context [?z <? 128] => destruct (z <? 128) eqn:? end;
        [cbn [fst snd]; f_equal; keybits n|]).
  cbn [fst snd]; f_equal; keybits n.
Qed.

Lemma getKey_at p i :
  Forall is_byte p -> 0 <= i -> getKey p i = (varintVal p i, i + varintLen p i).
Proof.
  intros Hp Hi. transitivity (let '(v, n) := getKey (drop (Z.to_nat i) p) 0 in (v, i + n)).
  - unfold getKey. rewrite !Z.add_0_l, !nthZ_drop by lia.
    repeat match goal with |- context [if ?b then _ else _] => destruct b; [done|] end. done.
  - by rewrite getKey_ref by (by apply Forall_drop).
Qed.
