(* ===== verification/BtCell.v ===== *)
(** * Cells of B-tree pages: the parsers and the size functions

    How much of a payload stays on its page, and the functions that compute
    the size of a cell against the functions that parse it. *)

From stdpp Require Import base list numbers option.
From S2P Require Import Prelude Util Varint Btree BtVarint.
#[local] Open Scope Z_scope.

(** ** The limits of local payload *)

(** A B-tree after [lockBtree], which refuses a page size that is not a power
    of two from 512 to 65536 and fewer than 480 usable bytes. *)
Record bt_ok (bt : BtShared) : Prop := {
  bo_usable : 480 <= usableSize bt <= pageSize bt;
  bo_page : pageSize bt <= 65536;
  bo_power : exists k, 0 <= k /\ pageSize bt = 2 ^ k;
  bo_limits : bt = payloadLimits bt
}.

(** The kind of a page, as [decodeFlags] sets it. *)
Definition kind_ok (p : MemPage) : Prop :=
  exists p0 flag, pBt p0 = pBt p /\ (decodeFlags p0 flag).1 = SQLITE_OK /\
    let q := (decodeFlags p0 flag).2 in
    intKey p = intKey q /\ intKeyLeaf p = intKeyLeaf q /\ leaf p = leaf q /\
    childPtrSize p = childPtrSize q /\ maxLocal p = maxLocal q /\ minLocal p = minLocal q /\
    xCellSizeM p = xCellSizeM q /\ xParseCellM p = xParseCellM q.

(** The four kinds of pages. *)
Lemma kind_cases p :
  kind_ok p ->
  let bt := pBt p in
  (xCellSizeM p = SizePtrTableLeaf /\ xParseCellM p = ParsePtr /\ childPtrSize p = 0 /\
   leaf p = true /\ intKey p = true /\ maxLocal p = maxLeaf bt /\ minLocal p = minLeaf bt) \/
  (xCellSizeM p = SizePtrIdxLeaf /\ xParseCellM p = ParsePtrIndex /\ childPtrSize p = 0 /\
   leaf p = true /\ intKey p = false /\ maxLocal p = bt_maxLocal bt /\ minLocal p = bt_minLocal bt) \/
  (xCellSizeM p = SizePtr /\ xParseCellM p = ParsePtrIndex /\ childPtrSize p = 4 /\
   leaf p = false /\ intKey p = false /\ maxLocal p = bt_maxLocal bt /\ minLocal p = bt_minLocal bt) \/
  (xCellSizeM p = SizePtrNoPayload /\ xParseCellM p = ParsePtrNoPayload /\ childPtrSize p = 4 /\
   leaf p = false /\ intKey p = true /\ maxLocal p = maxLeaf bt /\ minLocal p = minLeaf bt).
Proof.
  intros (p0 & flag & Hbt & Hrc & H). cbv zeta. rewrite <- Hbt. revert Hrc H. unfold decodeFlags.
  repeat case_match; cbn; try done;
    intros _ (-> & _ & -> & -> & -> & -> & -> & ->); auto 10.
Qed.

Lemma limits_bounds p :
  bt_ok (pBt p) -> kind_ok p ->
  0 <= minLocal p <= maxLocal p /\ maxLocal p <= usableSize (pBt p) - 35.
Proof.
  intros [Hu Hp _ Hl] Hk.
  assert (0 <= (usableSize (pBt p) - 12) * 32 / 255 - 23) as H1.
  { pose proof (Z.div_le_mono (468 * 32) ((usableSize (pBt p) - 12) * 32) 255 ltac:(lia) ltac:(lia)) as H.
    change (468 * 32 / 255) with 58 in H. lia. }
  assert ((usableSize (pBt p) - 12) * 32 / 255 <= (usableSize (pBt p) - 12) * 64 / 255) as H2
    by (apply Z.div_le_mono; lia).
  assert ((usableSize (pBt p) - 12) * 64 / 255 <= usableSize (pBt p) - 12) as H3.
  { apply Z.div_le_upper_bound; lia. }
  assert (forall x, 0 <= x <= 65536 - 35 -> u16 x = x) as Hw by (intros; apply Z.mod_small; lia).
  assert (maxLocal p = usableSize (pBt p) - 35 \/ maxLocal p = (usableSize (pBt p) - 12) * 64 / 255 - 23) as Hmax
    by (destruct (kind_cases p Hk) as [H|[H|[H|H]]]; destruct H as (_ & _ & _ & _ & _ & -> & _);
        rewrite Hl; cbn; rewrite Hw by lia; auto).
  assert (minLocal p = (usableSize (pBt p) - 12) * 32 / 255 - 23) as ->
    by (destruct (kind_cases p Hk) as [H|[H|[H|H]]]; destruct H as (_ & _ & _ & _ & _ & _ & ->);
        rewrite Hl; cbn; rewrite Hw by lia; auto).
  assert ((usableSize (pBt p) - 12) * 32 / 255 <= usableSize (pBt p) - 12) as H4
    by (apply Z.div_le_upper_bound; lia).
  split; [lia|]. destruct Hmax as [-> | ->]; lia.
Qed.

(** The bytes of payload that stay on the page. *)
Lemma toLocal_bounds p n :
  bt_ok (pBt p) -> kind_ok p -> 0 <= n ->
  0 <= btreePayloadToLocal p n <= maxLocal p /\ btreePayloadToLocal p n <= n.
Proof.
  intros Hb Hk Hn. destruct (limits_bounds p Hb Hk) as (H1 & H2). destruct Hb as [Hu _ _ _].
  unfold btreePayloadToLocal. destruct (Z.leb_spec n (maxLocal p)); [lia|].
  pose proof (Z.mod_pos_bound (n - minLocal p) (usableSize (pBt p) - 4) ltac:(lia)).
  pose proof (Z.mod_le (n - minLocal p) (usableSize (pBt p) - 4) ltac:(lia) ltac:(lia)).
  destruct (Z.leb_spec (minLocal p + (n - minLocal p) mod (usableSize (pBt p) - 4)) (maxLocal p)); lia.
Qed.

Lemma adjustSize_toLocal p n pc :
  bt_ok (pBt p) -> kind_ok p -> maxLocal p < n < 2 ^ 32 -> 0 <= pc <= 22 ->
  btreeParseCellAdjustSizeForOverflow p n pc =
    (btreePayloadToLocal p n, pc + btreePayloadToLocal p n + 4).
Proof.
  intros Hb Hk Hn Hpc. pose proof (limits_bounds p Hb Hk) as (H1 & H2).
  pose proof (toLocal_bounds p n Hb Hk ltac:(lia)) as (H3 & _). destruct Hb as [Hu Hp _ _].
  unfold btreeParseCellAdjustSizeForOverflow. unfold btreePayloadToLocal in *.
  rewrite u32_small by lia.
  destruct (Z.leb_spec n (maxLocal p)); [lia|].
  assert (forall x, 0 <= x < 65536 -> u16 x = x) as Hw by (intros; apply Z.mod_small; lia).
  destruct (Z.leb_spec (minLocal p + (n - minLocal p) mod (usableSize (pBt p) - 4)) (maxLocal p));
    rewrite !Hw; try done; try lia; rewrite ?Hw by lia; lia.
Qed.

Lemma spilledSize_toLocal p n pc :
  bt_ok (pBt p) -> kind_ok p -> maxLocal p < n < 2 ^ 32 -> 0 <= pc <= 22 ->
  spilledSize p n pc = pc + btreePayloadToLocal p n + 4.
Proof.
  intros Hb Hk Hn Hpc. pose proof (limits_bounds p Hb Hk) as (H1 & H2).
  pose proof (toLocal_bounds p n Hb Hk ltac:(lia)) as (H3 & _). destruct Hb as [Hu Hp _ _].
  unfold spilledSize. unfold btreePayloadToLocal in *.
  rewrite (u32_small (n - minLocal p)) by lia.
  pose proof (Z.mod_pos_bound (n - minLocal p) (usableSize (pBt p) - 4) ltac:(lia)).
  rewrite u32_small by lia. 
  destruct (Z.leb_spec n (maxLocal p)); [lia|].
  assert (forall x, 0 <= x < 65536 -> u16 x = x) as Hw by (intros; apply Z.mod_small; lia).
  rewrite Z.ltb_antisym.
  destruct (Z.leb_spec (minLocal p + (n - minLocal p) mod (usableSize (pBt p) - 4)) (maxLocal p));
    cbn [negb]; rewrite (Hw pc), Hw by lia; lia.
Qed.

(** ** What a parse finds *)

(** The size of a cell whose header has [pc] bytes. *)
Definition sizeWith (p : MemPage) (n pc : Z) : Z :=
  if n <=? maxLocal p then Z.max 4 (n + pc) else pc + btreePayloadToLocal p n + 4.

Lemma parse_spec p n pc key :
  bt_ok (pBt p) -> kind_ok p -> 0 <= n < 2 ^ 32 -> 0 <= pc <= 22 ->
  (if n <=? maxLocal p then
     let nSize := u16 (n + u16 pc) in
     mkCellInfo key (Some pc) n (u16 n) (if nSize <? 4 then 4 else nSize)
   else
     let '(nLocal, nSize) := btreeParseCellAdjustSizeForOverflow p n pc in
     mkCellInfo key (Some pc) n nLocal nSize)
  = mkCellInfo key (Some pc) n (btreePayloadToLocal p n) (sizeWith p n pc).
Proof.
  intros Hb Hk Hn Hpc. pose proof (limits_bounds p Hb Hk) as (H1 & H2).
  unfold sizeWith. destruct (Z.leb_spec n (maxLocal p)) as [Hle|Hgt].
  - assert (forall x, 0 <= x < 65536 -> u16 x = x) as Hw by (intros; apply Z.mod_small; lia).
    destruct Hb as [Hu Hp _ _]. cbv zeta. rewrite (Hw pc), (Hw n), Hw by lia. unfold btreePayloadToLocal.
    destruct (Z.leb_spec n (maxLocal p)); [|lia]. f_equal. destruct (Z.ltb_spec (n + pc) 4); lia.
  - rewrite adjustSize_toLocal by (done || lia). done.
Qed.

Lemma size_spec p n pc :
  bt_ok (pBt p) -> kind_ok p -> 0 <= n < 2 ^ 32 -> 0 <= pc <= 22 ->
  (if n <=? maxLocal p then
     let nSize := n + pc in u16 (if nSize <? 4 then 4 else nSize)
   else spilledSize p n pc) = sizeWith p n pc.
Proof.
  intros Hb Hk Hn Hpc. pose proof (limits_bounds p Hb Hk) as (H1 & H2).
  unfold sizeWith. destruct (Z.leb_spec n (maxLocal p)) as [Hle|Hgt].
  - destruct Hb as [Hu Hp _ _]. cbv zeta. unfold u16.
    destruct (Z.ltb_spec (n + pc) 4); rewrite Z.mod_small; lia.
  - apply spilledSize_toLocal; done || lia.
Qed.

Lemma size_parsed p cell :
  bt_ok (pBt p) -> kind_ok p -> Forall is_byte cell ->
  xCellSize p cell = nSize (xParseCell p cell).
Proof.
  intros Hb Hk Hc. unfold xCellSize, xParseCell.
  pose proof (varintLen_bound cell 0). pose proof (varintLen_bound cell 4).
  destruct (kind_cases p Hk) as [H'|[H'|[H'|H']]]; destruct H' as (-> & -> & Hch & _).
  - unfold cellSizePtrTableLeaf, btreeParseCellPtr.
    destruct (getPayloadSize_ref cell 0 Hc) as (w & -> & _); [lia|]. pose proof (u32_range w).
    rewrite (skipKey_ref 8 cell (0 + varintLen cell 0) 0) by done.
    rewrite getVarintRef_at, getKey_at by (done || lia). cbn [fst].
    pose proof (varintLen_bound cell (0 + varintLen cell 0)).
    by rewrite parse_spec, size_spec by (done || lia).
  - unfold cellSizePtrIdxLeaf, btreeParseCellPtrIndex. rewrite Hch.
    destruct (getPayloadSize_ref cell 0 Hc) as (w & -> & _); [lia|]. pose proof (u32_range w).
    by rewrite parse_spec, size_spec by (done || lia).
  - unfold cellSizePtr, btreeParseCellPtrIndex. rewrite Hch.
    destruct (getPayloadSize_ref cell 4 Hc) as (w & -> & _); [lia|]. pose proof (u32_range w).
    rewrite parse_spec by (done || lia). cbn [nSize]. rewrite <- size_spec by (done || lia).
    cbv zeta. by destruct (Z.ltb_spec (u32 w + (4 + varintLen cell 4)) 4); [lia|].
  - unfold cellSizePtrNoPayload, btreeParseCellPtrNoPayload.
    rewrite (skipVarint_ref 8 cell 4 (4 + 9) 0) by (done || lia).
    rewrite getVarintRef_at by lia. rewrite getVarint_ref by (by apply Forall_drop).
    unfold varintLen. change (Z.to_nat 4) with 4%nat.
    by destruct (getVarintRef (drop 4 cell)).
Qed.

(** C39: for every kind of page and every content of a cell, corrupt or not,
    [xCellSize] is the size that a full parse of the cell finds: the
    assertions of the debugging build in the four size functions hold. *)
Theorem xCellSize_parse p cell :
  bt_ok (pBt p) -> kind_ok p -> Forall is_byte cell ->
  xCellSize p cell = nSize (xParseCell p cell).
Proof. apply size_parsed. Qed.

(** A table leaf of a database with pages of 1024 bytes. *)
Definition leafPage : MemPage :=
  let bt := payloadLimits (mkBtShared false 0 false 1024 1024 0 0 0 0 0) in
  (decodeFlags (mkMemPage false false false 2 false 0 0 0 0 0 0 0 0 0 0 [] [] bt [] 0 0 0
                  SizePtr ParsePtr) 13).2.

Lemma leafPage_ok : bt_ok (pBt leafPage) /\ kind_ok leafPage.
Proof.
  split; [split; [vm_compute; split; congruence|vm_compute; congruence|by exists 10|done]|].
  by exists leafPage, 13.
Qed.

Lemma xCellSize_parse_witness :
  nSize (xParseCell leafPage (sqlite3PutVarint 5000 ++ sqlite3PutVarint 77 ++ repeat 1 920)) = 927.
Proof.
  rewrite <- (xCellSize_parse leafPage);
    [reflexivity|apply leafPage_ok|apply leafPage_ok|by apply (bool_decide_unpack _)].
Defined.

(** ** The payload size *)

(** The macro getVarint32. *)
Definition getVarint32 (p : list Z) : Z * Z :=
  if nthZ p 0 <? 0x80 then (1, nthZ p 0) else sqlite3GetVarint32 p.

Lemma getVarint32_min cell :
  Forall is_byte cell -> getVarint32 cell = (varintLen cell 0, Z.min (varintVal cell 0) 0xffffffff).
Proof.
  intros Hc. unfold getVarint32, varintLen, varintVal. change (Z.to_nat 0) with 0%nat. rewrite drop_0.
  pose proof (nthZ_byte cell 0 Hc) as Hb. unfold is_byte in Hb.
  destruct (Z.ltb_spec (nthZ cell 0) 0x80).
  - unfold getVarintRef. cbn [varintRef]. rewrite land_127.
    destruct (Z.ltb_spec (nthZ cell 0) 128); [|lia]. cbn [fst snd].
    rewrite Z.mod_small by lia. change (Z.lor (Z.shiftl 0 7) (nthZ cell 0)) with (nthZ cell 0).
    f_equal. lia.
  - by rewrite sqlite3GetVarint32_saturates, getVarint_ref by (done || lia).
Qed.

(** C40: on an integer of at most eight bytes, the reader of the payload size
    that is inlined in the functions that parse cells gives the value modulo
    [2 ^ 32], where the macro getVarint32, to which its comment says it is
    equivalent, saturates at [2 ^ 32 - 1]: they agree on integers below
    [2 ^ 32], and above only when the low 32 bits are all ones. *)
Theorem payload_size_truncated cell :
  Forall is_byte cell -> varintLen cell 0 <= 8 ->
  getPayloadSize cell 0 = (varintVal cell 0 mod 2 ^ 32, varintLen cell 0) /\
  (getPayloadSize cell 0 = ((getVarint32 cell).2, (getVarint32 cell).1) <->
   varintVal cell 0 < 2 ^ 32 \/ varintVal cell 0 mod 2 ^ 32 = 2 ^ 32 - 1).
Proof.
  intros Hc Hl. destruct (getPayloadSize_ref cell 0 Hc) as (w & E & Hw); [lia|].
  rewrite (Hw Hl) in E. rewrite E, getVarint32_min by done. cbn [fst snd]. split; [done|].
  assert (0 <= varintVal cell 0) as Hnn.
  { unfold varintVal, getVarintRef.
    pose proof (varintRef_range 8 0 (drop (Z.to_nat 0) cell) 0 ltac:(by apply Forall_drop) ltac:(lia)) as H.
    destruct (varintRef 8 0 (drop (Z.to_nat 0) cell) 0). cbn. lia. }
  unfold u32. change (0 + varintLen cell 0) with (varintLen cell 0).
  destruct (Z.lt_ge_cases (varintVal cell 0) (2 ^ 32)) as [Hlt|Hge].
  - rewrite Z.mod_small, Z.min_l by lia. tauto.
  - rewrite Z.min_r by lia. split; [intros [= E1]; right; lia|]. intros [?| ->]; [lia|done].
Qed.

Lemma payload_size_truncated_witness :
  let cell := sqlite3PutVarint (2 ^ 32 + 5) in
  getPayloadSize cell 0 = (5, 5) /\ getVarint32 cell = (5, 0xffffffff).
Proof.
  pose proof (payload_size_truncated (sqlite3PutVarint (2 ^ 32 + 5))) as H.
  destruct H as [-> _]; [by apply (bool_decide_unpack _)|vm_compute; congruence|].
  split; vm_compute; reflexivity.
Defined.
