(* ===== verification/BtMem.v ===== *)
(** * Access to the bytes of a page

    Operations on a [MemPage] as programs in a monad: a program changes the
    page and returns a value or a result code; an access outside of [aData]
    has no result.  [ok m Q p]: the program [m] on [p] makes no such access,
    returns no error, and its result and the page satisfy [Q]. *)

From stdpp Require Import base list numbers option.
From S2P Require Import Prelude Util Varint Btree BtVarint.
#[local] Open Scope Z_scope.

(** ** Bytes in a buffer *)

(** The bytes [bs] overwrite those from [a] on. *)
Definition store (d : list Z) (a : Z) (bs : list Z) : list Z :=
  take (Z.to_nat a) d ++ bs ++ drop (Z.to_nat a + length bs) d.

Definition slice (d : list Z) (a n : Z) : list Z := take (Z.to_nat n) (drop (Z.to_nat a) d).

(** The macros get2byte and put2byte. *)
Definition get2 (d : list Z) (a : Z) : Z := Z.lor (Z.shiftl (nthZ d a) 8) (nthZ d (a + 1)).
Definition bytes2 (v : Z) : list Z := [u8 (Z.shiftr v 8); u8 v].

Definition inside (d : list Z) (a n : Z) : bool :=
  (0 <=? a) && (0 <=? n) && (a + n <=? Z.of_nat (length d)).

(** ** Programs on a page *)

Definition PM (A : Type) : Type := MemPage -> option (result A * MemPage).

#[export] Instance PM_ret : MRet PM := fun A a p => Some (Ok a, p).
#[export] Instance PM_bind : MBind PM := fun A B f m p =>
  match m p with
  | Some (Ok a, p') => f a p'
  | Some (Err rc, p') => Some (Err rc, p')
  | None => None
  end.

Definition field {A} (f : MemPage -> A) : PM A := fun p => Some (Ok (f p), p).
Definition modify (f : MemPage -> MemPage) : PM unit := fun p => Some (Ok (), f p).
Definition fail {A} (rc : Z) : PM A := fun p => Some (Err rc, p).

(** [return SQLITE_CORRUPT_PAGE(pPage)], under a condition. *)
Definition corrupt {A} : PM A := fail SQLITE_CORRUPT.
Definition corruptIf (b : bool) : PM unit := if b then corrupt else mret ().

Definition memread (a n : Z) : PM (list Z) := fun p =>
  if inside (aData p) a n then Some (Ok (slice (aData p) a n), p) else None.
Definition memwrite (a : Z) (bs : list Z) : PM unit := fun p =>
  if inside (aData p) a (Z.of_nat (length bs))
  then Some (Ok (), setData (store (aData p) a bs) p) else None.
Definition memmove (dst src n : Z) : PM unit := bs ← memread src n; memwrite dst bs.
Definition memset (a c n : Z) : PM unit := fun p =>
  if inside (aData p) a n
  then Some (Ok (), setData (store (aData p) a (replicate (Z.to_nat n) c)) p) else None.

Definition getbyte (a : Z) : PM Z := bs ← memread a 1; mret (nthZ bs 0).
Definition putbyte (a v : Z) : PM unit := memwrite a [u8 v].
Definition get2byte (a : Z) : PM Z := bs ← memread a 2; mret (get2 bs 0).
Definition put2byte (a v : Z) : PM unit := memwrite a (bytes2 v).
Definition get2byteNotZero (a : Z) : PM Z := v ← get2byte a; mret (Z.land (v - 1) 0xffff + 1).
Definition put4byte (a v : Z) : PM unit := memwrite a (sqlite3Put4byte v).

(** ** Lemmas on buffers *)

Lemma inside_true d a n :
  0 <= a -> 0 <= n -> a + n <= Z.of_nat (length d) -> inside d a n = true.
Proof. intros. unfold inside. rewrite !andb_true_iff, !Z.leb_le. lia. Qed.

Lemma length_store d a bs :
  0 <= a -> a + Z.of_nat (length bs) <= Z.of_nat (length d) ->
  length (store d a bs) = length d.
Proof. intros. unfold store. rewrite !length_app, length_take, length_drop. lia. Qed.

Lemma nthZ_store d a bs x :
  0 <= a -> a + Z.of_nat (length bs) <= Z.of_nat (length d) -> 0 <= x ->
  nthZ (store d a bs) x =
  if decide (a <= x < a + Z.of_nat (length bs)) then nthZ bs (x - a) else nthZ d x.
Proof.
  intros Ha Hl Hx. unfold store, nthZ.
  destruct (decide _) as [Hin|Hout].
  - rewrite lookup_app_r by (rewrite length_take; lia).
    rewrite lookup_app_l by (rewrite length_take; lia).
    do 2 f_equal. rewrite length_take. lia.
  - destruct (decide (x < a)).
    + rewrite lookup_app_l by (rewrite length_take; lia).
      by rewrite lookup_take_lt by lia.
    + rewrite lookup_app_r by (rewrite length_take; lia).
      rewrite lookup_app_r by (rewrite length_take; lia).
      rewrite lookup_drop, length_take. do 2 f_equal. lia.
Qed.

Lemma nthZ_store_in d a bs x :
  0 <= a -> a + Z.of_nat (length bs) <= Z.of_nat (length d) ->
  a <= x < a + Z.of_nat (length bs) -> nthZ (store d a bs) x = nthZ bs (x - a).
Proof. intros Ha Hl Hx. rewrite nthZ_store by lia. by rewrite decide_True by lia. Qed.

Lemma nthZ_store_out d a bs x :
  0 <= a -> a + Z.of_nat (length bs) <= Z.of_nat (length d) -> 0 <= x ->
  ~ a <= x < a + Z.of_nat (length bs) -> nthZ (store d a bs) x = nthZ d x.
Proof. intros Ha Hl Hx Ho. rewrite nthZ_store by lia. by rewrite decide_False by lia. Qed.

Lemma store_bytes d a bs : Forall is_byte d -> Forall is_byte bs -> Forall is_byte (store d a bs).
Proof. intros. unfold store. rewrite !Forall_app. auto using Forall_take, Forall_drop. Qed.

Lemma nthZ_slice d a n x :
  0 <= a -> 0 <= x < n -> nthZ (slice d a n) x = nthZ d (a + x).
Proof.
  intros Ha Hx. unfold slice, nthZ. rewrite lookup_take_lt, lookup_drop by lia.
  do 2 f_equal. lia.
Qed.

Lemma length_slice d a n :
  0 <= a -> 0 <= n -> a + n <= Z.of_nat (length d) -> length (slice d a n) = Z.to_nat n.
Proof. intros. unfold slice. rewrite length_take, length_drop. lia. Qed.

Lemma slice_bytes d a n : Forall is_byte d -> Forall is_byte (slice d a n).
Proof. intros. unfold slice. auto using Forall_take, Forall_drop. Qed.

Lemma nthZ_ext l l' :
  length l = length l' -> (forall x, 0 <= x < Z.of_nat (length l) -> nthZ l x = nthZ l' x) -> l = l'.
Proof.
  intros Hl H. apply list_eq. intros i. destruct (decide (i < length l)%nat) as [Hi|Hi].
  - specialize (H (Z.of_nat i) ltac:(lia)). unfold nthZ in H. rewrite Nat2Z.id in H.
    destruct (lookup_lt_is_Some_2 l i Hi) as [x Hx].
    destruct (lookup_lt_is_Some_2 l' i ltac:(lia)) as [x' Hx'].
    rewrite Hx, Hx' in *. simpl in H. by subst.
  - by rewrite !lookup_ge_None_2 by lia.
Qed.

(** *** Two-byte integers *)

Lemma bytes2_bytes v : Forall is_byte (bytes2 v).
Proof. repeat constructor; apply u8_range. Qed.

Lemma get2_sum d a : Forall is_byte d -> get2 d a = nthZ d a * 256 + nthZ d (a + 1).
Proof.
  intros Hd. unfold get2. pose proof (nthZ_byte d (a + 1) Hd) as Hb. unfold is_byte in Hb.
  by rewrite lor_shiftl by lia.
Qed.

Lemma get2_range d a : Forall is_byte d -> 0 <= get2 d a < 65536.
Proof.
  intros Hd. rewrite get2_sum by done.
  pose proof (nthZ_byte d a Hd) as H1. pose proof (nthZ_byte d (a + 1) Hd) as H2.
  unfold is_byte in *. lia.
Qed.

Lemma get2_bytes2 v : get2 (bytes2 v) 0 = u16 v.
Proof.
  rewrite get2_sum by apply bytes2_bytes. unfold bytes2, nthZ, u8, u16. simpl.
  rewrite Z.shiftr_div_pow2 by lia. change (2 ^ 16) with (2 ^ 8 * 2 ^ 8).
  rewrite (Z.rem_mul_r v) by lia. change (Z.pow_pos 2 8) with (2 ^ 8). lia.
Qed.

Lemma get2_same d d' a :
  nthZ d' a = nthZ d a -> nthZ d' (a + 1) = nthZ d (a + 1) -> get2 d' a = get2 d a.
Proof. intros H1 H2. unfold get2. by rewrite H1, H2. Qed.

Lemma get2_store d a v :
  0 <= a -> a + 2 <= Z.of_nat (length d) -> get2 (store d a (bytes2 v)) a = u16 v.
Proof.
  intros Ha Hl. rewrite <- get2_bytes2. unfold get2.
  rewrite !nthZ_store_in by (simpl; lia). do 2 f_equal; [|lia]. do 2 f_equal. lia.
Qed.

Lemma get2_store_out d a bs x :
  0 <= a -> a + Z.of_nat (length bs) <= Z.of_nat (length d) -> 0 <= x ->
  x + 2 <= a \/ a + Z.of_nat (length bs) <= x -> get2 (store d a bs) x = get2 d x.
Proof. intros Ha Hl Hx Ho. apply get2_same; apply nthZ_store_out; lia. Qed.

(** ** Programs that succeed *)

Definition ok {A} (m : PM A) (Q : A -> MemPage -> Prop) (p : MemPage) : Prop :=
  match m p with
  | Some (Ok a, p') => Q a p'
  | _ => False
  end.

Lemma ok_run {A} (m : PM A) Q p :
  ok m Q p <-> exists a p', m p = Some (Ok a, p') /\ Q a p'.
Proof.
  unfold ok. destruct (m p) as [[[a|rc] p']|]; split; naive_solver.
Qed.

Lemma ok_bind {A B} (m : PM A) (f : A -> PM B) Q p :
  ok m (fun a => ok (f a) Q) p -> ok (m ≫= f) Q p.
Proof. unfold ok, mbind, PM_bind. by destruct (m p) as [[[a|rc] p']|]. Qed.

Lemma ok_bind_inv {A B} (m : PM A) (f : A -> PM B) Q p :
  ok (m ≫= f) Q p -> ok m (fun a => ok (f a) Q) p.
Proof. unfold ok, mbind, PM_bind. by destruct (m p) as [[[a|rc] p']|]. Qed.

Lemma ok_ret {A} (a : A) Q p : Q a p -> ok (mret a) Q p.
Proof. done. Qed.

Lemma ok_mono {A} (m : PM A) (Q R : A -> MemPage -> Prop) p :
  ok m Q p -> (forall a p', Q a p' -> R a p') -> ok m R p.
Proof. unfold ok. destruct (m p) as [[[a|rc] p']|]; auto. Qed.

Lemma ok_field {A} (f : MemPage -> A) Q p : Q (f p) p -> ok (field f) Q p.
Proof. done. Qed.

Lemma ok_modify f Q p : Q () (f p) -> ok (modify f) Q p.
Proof. done. Qed.

Lemma ok_corruptIf b (Q : unit -> MemPage -> Prop) p : b = false -> Q () p -> ok (corruptIf b) Q p.
Proof. by intros ->. Qed.

Lemma ok_memread a n Q p :
  0 <= a -> 0 <= n -> a + n <= Z.of_nat (length (aData p)) ->
  Q (slice (aData p) a n) p -> ok (memread a n) Q p.
Proof. intros Ha Hn Hl HQ. unfold ok, memread. by rewrite inside_true. Qed.

Lemma ok_memwrite a bs (Q : unit -> MemPage -> Prop) p :
  0 <= a -> a + Z.of_nat (length bs) <= Z.of_nat (length (aData p)) ->
  Q () (setData (store (aData p) a bs) p) -> ok (memwrite a bs) Q p.
Proof. intros Ha Hl HQ. unfold ok, memwrite. by rewrite inside_true by lia. Qed.

Lemma ok_memmove dst src n (Q : unit -> MemPage -> Prop) p :
  0 <= src -> 0 <= dst -> 0 <= n ->
  src + n <= Z.of_nat (length (aData p)) -> dst + n <= Z.of_nat (length (aData p)) ->
  Q () (setData (store (aData p) dst (slice (aData p) src n)) p) -> ok (memmove dst src n) Q p.
Proof.
  intros Hs Hd Hn H1 H2 HQ. unfold memmove. apply ok_bind, ok_memread; [done..|].
  apply ok_memwrite; rewrite ?length_slice by lia; [done|lia|done].
Qed.

Lemma ok_memset a c n (Q : unit -> MemPage -> Prop) p :
  0 <= a -> 0 <= n -> a + n <= Z.of_nat (length (aData p)) ->
  Q () (setData (store (aData p) a (replicate (Z.to_nat n) c)) p) -> ok (memset a c n) Q p.
Proof. intros Ha Hn Hl HQ. unfold ok, memset. by rewrite inside_true. Qed.

Lemma ok_getbyte a (Q : Z -> MemPage -> Prop) p :
  0 <= a -> a + 1 <= Z.of_nat (length (aData p)) ->
  Q (nthZ (aData p) a) p -> ok (getbyte a) Q p.
Proof.
  intros Ha Hl HQ. apply ok_bind, ok_memread; [done|done|done|]. apply ok_ret.
  rewrite nthZ_slice, Z.add_0_r by lia. done.
Qed.

Lemma ok_get2byte a (Q : Z -> MemPage -> Prop) p :
  0 <= a -> a + 2 <= Z.of_nat (length (aData p)) ->
  Q (get2 (aData p) a) p -> ok (get2byte a) Q p.
Proof.
  intros Ha Hl HQ. apply ok_bind, ok_memread; [done|done|done|]. apply ok_ret.
  unfold get2 at 1. rewrite !nthZ_slice, Z.add_0_r by lia. done.
Qed.

Lemma ok_put2byte a v (Q : unit -> MemPage -> Prop) p :
  0 <= a -> a + 2 <= Z.of_nat (length (aData p)) ->
  Q () (setData (store (aData p) a (bytes2 v)) p) -> ok (put2byte a v) Q p.
Proof. intros Ha Hl HQ. by apply ok_memwrite. Qed.

Lemma ok_putbyte a v (Q : unit -> MemPage -> Prop) p :
  0 <= a -> a + 1 <= Z.of_nat (length (aData p)) ->
  Q () (setData (store (aData p) a [u8 v]) p) -> ok (putbyte a v) Q p.
Proof. intros Ha Hl HQ. by apply ok_memwrite. Qed.

Lemma ok_put4byte a v (Q : unit -> MemPage -> Prop) p :
  0 <= a -> a + 4 <= Z.of_nat (length (aData p)) ->
  Q () (setData (store (aData p) a (sqlite3Put4byte v)) p) -> ok (put4byte a v) Q p.
Proof. intros Ha Hl HQ. by apply ok_memwrite. Qed.

(** The 16-bit integer that stands for 65536 when it is 0. *)
Lemma notZero_u16 top : 0 < top <= 65536 -> Z.land (u16 top - 1) 0xffff + 1 = top.
Proof.
  intros Ht. change 0xffff with (Z.ones 16). rewrite Z.land_ones by lia. unfold u16.
  destruct (decide (top = 65536)) as [->|]; [done|].
  rewrite (Z.mod_small top), Z.mod_small; lia.
Qed.

Lemma ok_get2byteNotZero a top (Q : Z -> MemPage -> Prop) p :
  0 <= a -> a + 2 <= Z.of_nat (length (aData p)) ->
  get2 (aData p) a = u16 top -> 0 < top <= 65536 -> Q top p -> ok (get2byteNotZero a) Q p.
Proof.
  intros Ha Hl Hv Ht HQ. apply ok_bind, ok_get2byte; [done|done|]. apply ok_ret.
  by rewrite Hv, notZero_u16.
Qed.
