(* ===== verification/BtPage.v ===== *)
(** * Operations on a B-tree page (btree.c)

    Space on a page ([defragmentPage], [pageFindSlot], [allocateSpace],
    [freeSpace]), the initialisation of a page and the checks of its header,
    and the insertion and removal of cells.  A parameter [pPage] of the C
    function is the state of the program. *)

From stdpp Require Import base list numbers option.
From S2P Require Import Prelude Util Btree BtMem.
#[local] Open Scope Z_scope.

Definition usable : PM Z := field (fun p => usableSize (pBt p)).

(** ** Defragmentation *)

(** [for(pAddr=&data[cellOffset]; pAddr<pEnd; pAddr+=2)]: [n] pointers are
    left. *)
Fixpoint shiftPointers (n : nat) (pAddr iFree iFree2 sz sz2 : Z) : PM unit :=
  match n with
  | O => mret ()
  | S n' =>
      pc ← get2byte pAddr;
      (if pc <? iFree then put2byte pAddr (pc + sz)
       else if pc <? iFree2 then put2byte pAddr (pc + sz2)
       else mret ());;
      shiftPointers n' (pAddr + 2) iFree iFree2 sz sz2
  end.

(** The case of one or two free blocks: [Some cbrk], or [None] when it does
    not apply. *)
Definition defragmentFast (usableSize : Z) : PM (option Z) :=
  hdr ← field hdrOffset;
  cellOffset ← field cellOffset;
  nCell ← field nCell;
  iFree ← get2byte (hdr + 1);
  corruptIf (usableSize - 4 <? iFree);;
  if iFree =? 0 then mret None else
  iFree2 ← get2byte iFree;
  corruptIf (usableSize - 4 <? iFree2);;
  last ← (if iFree2 =? 0 then mret true else
          b0 ← getbyte iFree2;
          if b0 =? 0 then b1 ← getbyte (iFree2 + 1); mret (b1 =? 0) else mret false);
  if negb last then mret None else
  sz ← get2byte (iFree + 2);
  top ← get2byte (hdr + 5);
  corruptIf (iFree <=? top);;
  '(sz, sz2) ←
    (if negb (iFree2 =? 0) then
       corruptIf (iFree2 <? iFree + sz);;
       sz2 ← get2byte (iFree2 + 2);
       corruptIf (usableSize <? iFree2 + sz2);;
       memmove (iFree + sz + sz2) (iFree + sz) (iFree2 - (iFree + sz));;
       mret (sz + sz2, sz2)
     else
       corruptIf (usableSize <? iFree + sz);;
       mret (sz, 0));
  let cbrk := top + sz in
  memmove cbrk top (iFree - top);;
  shiftPointers (Z.to_nat nCell) cellOffset iFree iFree2 sz sz2;;
  mret (Some cbrk).

(** [xCellSize] for the cell at offset [pc] of the page bytes [src].  The cell
    must begin inside of them.  The functions read the bytes of one or two
    varints, with a child pointer before the first; in a corrupt page these can
    be a few bytes after the end ([xCellSize_reads] in BtSafe), which count as
    zeros. *)
Definition cellSizeAt (src : list Z) (pc : Z) : PM Z := fun p =>
  if inside src pc 1 then Some (Ok (xCellSize p (drop (Z.to_nat pc) src)), p) else None.

(** [for(i=0; i<nCell; i++)]: [n] cells are left; [src] is the copy of the
    page. *)
Fixpoint packCells (n : nat) (src : list Z)
    (usableSize iCellLast iCellStart pAddr cbrk : Z) : PM Z :=
  match n with
  | O => mret cbrk
  | S n' =>
      pc ← get2byte pAddr;
      corruptIf (iCellLast <? pc);;
      size ← cellSizeAt src pc;
      let cbrk := cbrk - size in
      corruptIf ((cbrk <? iCellStart) || (usableSize <? pc + size));;
      put2byte pAddr cbrk;;
      memwrite cbrk (slice src pc size);;
      packCells n' src usableSize iCellLast iCellStart (pAddr + 2) cbrk
  end.

Definition defragmentSlow (usableSize : Z) : PM Z :=
  hdr ← field hdrOffset;
  cellOffset ← field cellOffset;
  nCell ← field nCell;
  iCellStart ← get2byte (hdr + 5);
  cbrk ← (if 0 <? nCell then
            src ← memread 0 usableSize;
            packCells (Z.to_nat nCell) src usableSize (usableSize - 4) iCellStart
              cellOffset usableSize
          else mret usableSize);
  putbyte (hdr + 7) 0;;
  mret cbrk.

Definition defragmentPage (nMaxFrag : Z) : PM unit :=
  hdr ← field hdrOffset;
  cellOffset ← field cellOffset;
  nCell ← field nCell;
  let iCellFirst := cellOffset + 2 * nCell in
  usableSize ← usable;
  frag ← getbyte (hdr + 7);
  fast ← (if frag <=? nMaxFrag then defragmentFast usableSize else mret None);
  cbrk ← match fast with
         | Some cbrk => mret cbrk
         | None => defragmentSlow usableSize
         end;
  frag ← getbyte (hdr + 7);
  nFree ← field nFree;
  corruptIf (negb (frag + cbrk - iCellFirst =? nFree));;
  put2byte (hdr + 5) cbrk;;
  putbyte (hdr + 1) 0;;
  putbyte (hdr + 2) 0;;
  memset iCellFirst 0 (cbrk - iCellFirst).

(** ** Allocation *)

(** [while( pc<=maxPC )].  The chain of free slots is increasing, so that
    it has fewer slots than the page has bytes. *)
Fixpoint findSlotLoop (fuel : nat) (nByte iAddr pc maxPC : Z) : PM (option Z) :=
  match fuel with
  | O => fun _ => None
  | S f =>
      hdr ← field hdrOffset;
      if pc <=? maxPC then
        size ← get2byte (pc + 2);
        let x := size - nByte in
        if 0 <=? x then
          if x <? 4 then
            frag ← getbyte (hdr + 7);
            if 57 <? frag then mret None else
            memmove iAddr pc 2;;
            frag ← getbyte (hdr + 7);
            putbyte (hdr + 7) (frag + u8 x);;
            mret (Some pc)
          else
            corruptIf (maxPC <? x + pc);;
            put2byte (pc + 2) x;;
            mret (Some (pc + x))
        else
          let iAddr := pc in
          pc ← get2byte iAddr;
          if pc <=? iAddr then
            corruptIf (negb (pc =? 0));;
            mret None
          else findSlotLoop f nByte iAddr pc maxPC
      else
        corruptIf (maxPC + nByte - 4 <? pc);;
        mret None
  end.

(** The address of the slot; [None] is the null pointer. *)
Definition pageFindSlot (nByte : Z) : PM (option Z) :=
  hdr ← field hdrOffset;
  let iAddr := hdr + 1 in
  pc ← get2byte iAddr;
  usableSize ← usable;
  findSlotLoop (Z.to_nat usableSize) nByte iAddr pc (usableSize - nByte).

(** The part of [allocateSpace] after the search of a free slot. *)
Definition allocateGap (nByte gap top : Z) : PM Z :=
  hdr ← field hdrOffset;
  top ← (if top <? gap + 2 + nByte then
           nFree ← field nFree;
           defragmentPage (Z.min 4 (nFree - (2 + nByte)));;
           get2byteNotZero (hdr + 5)
         else mret top);
  let top := top - nByte in
  put2byte (hdr + 5) top;;
  mret top.

Definition allocateSpace (nByte : Z) : PM Z :=
  hdr ← field hdrOffset;
  gap ← field (fun p => cellOffset p + 2 * nCell p);
  usableSize ← usable;
  top ← get2byte (hdr + 5);
  top ← (if top <? gap then
           if (top =? 0) && (usableSize =? 65536) then mret 65536 else corrupt
         else
           corruptIf (usableSize <? top);;
           mret top);
  b2 ← getbyte (hdr + 2);
  b1 ← getbyte (hdr + 1);
  pSpace ← (if (negb (b2 =? 0) || negb (b1 =? 0)) && (gap + 2 <=? top)
            then pageFindSlot nByte else mret None);
  match pSpace with
  | Some g2 =>
      corruptIf (g2 <=? gap);;
      mret g2
  | None => allocateGap nByte gap top
  end.

(** ** Release *)

(** [while( (iFreeBlk = get2byte(&data[iPtr]))<iStart )]: the values of
    [iPtr] and [iFreeBlk]. *)
Fixpoint freeSpaceLoop (fuel : nat) (iStart iPtr : Z) : PM (Z * Z) :=
  match fuel with
  | O => fun _ => None
  | S f =>
      iFreeBlk ← get2byte iPtr;
      if iFreeBlk <? iStart then
        if iFreeBlk <=? iPtr then
          corruptIf (negb (iFreeBlk =? 0));;
          mret (iPtr, iFreeBlk)
        else freeSpaceLoop f iStart iFreeBlk
      else mret (iPtr, iFreeBlk)
  end.

(** [iFreeBlk] is merged onto the end of the block: the values of [nFrag],
    [iEnd], [iSize] and [iFreeBlk]. *)
Definition coalesceNext (usableSize iStart iSize iEnd iFreeBlk : Z) : PM (Z * Z * Z * Z) :=
  if negb (iFreeBlk =? 0) && (iFreeBlk <=? iEnd + 3) then
    let nFrag := u8 (iFreeBlk - iEnd) in
    corruptIf (iFreeBlk <? iEnd);;
    size ← get2byte (iFreeBlk + 2);
    let iEnd := iFreeBlk + size in
    corruptIf (usableSize <? iEnd);;
    let iSize := u16 (iEnd - iStart) in
    iFreeBlk ← get2byte iFreeBlk;
    mret (nFrag, iEnd, iSize, iFreeBlk)
  else mret (0, iEnd, iSize, iFreeBlk).

(** The block is merged onto the end of the free block at [iPtr]: the values
    of [nFrag], [iSize] and [iStart]. *)
Definition coalescePrev (hdr iPtr nFrag iStart iSize iEnd : Z) : PM (Z * Z * Z) :=
  if hdr + 1 <? iPtr then
    size ← get2byte (iPtr + 2);
    let iPtrEnd := iPtr + size in
    if iStart <=? iPtrEnd + 3 then
      corruptIf (iStart <? iPtrEnd);;
      mret (u8 (nFrag + (iStart - iPtrEnd)), u16 (iEnd - iPtr), iPtr)
    else mret (nFrag, iSize, iStart)
  else mret (nFrag, iSize, iStart).

(** The block when the free list is not empty: the new values of [iPtr],
    [iFreeBlk], [iStart], [iSize] and [iEnd]. *)
Definition coalesce (iStart iSize iEnd : Z) : PM (Z * Z * Z * Z * Z) :=
  hdr ← field hdrOffset;
  usableSize ← usable;
  '(iPtr, iFreeBlk) ← freeSpaceLoop (Z.to_nat usableSize) iStart (hdr + 1);
  corruptIf (usableSize - 4 <? iFreeBlk);;
  '(nFrag, iEnd, iSize, iFreeBlk) ← coalesceNext usableSize iStart iSize iEnd iFreeBlk;
  '(nFrag, iSize, iStart) ← coalescePrev hdr iPtr nFrag iStart iSize iEnd;
  frag ← getbyte (hdr + 7);
  corruptIf (frag <? nFrag);;
  putbyte (hdr + 7) (frag - nFrag);;
  mret (iPtr, iFreeBlk, iStart, iSize, iEnd).

Definition freeSpace (iStart iSize : Z) : PM unit :=
  let iOrigSize := iSize in
  let iEnd := iStart + iSize in
  hdr ← field hdrOffset;
  b2 ← getbyte (hdr + 2);
  b1 ← getbyte (hdr + 1);
  '(iPtr, iFreeBlk, iStart, iSize, iEnd) ←
    (if (b2 =? 0) && (b1 =? 0) then mret (hdr + 1, 0, iStart, iSize, iEnd)
     else coalesce iStart iSize iEnd);
  x ← get2byte (hdr + 5);
  flags ← field (fun p => btsFlags (pBt p));
  (if negb (Z.land flags BTS_FAST_SECURE =? 0) then memset iStart 0 iSize else mret ());;
  (if iStart <=? x then
     corruptIf (iStart <? x);;
     corruptIf (negb (iPtr =? hdr + 1));;
     put2byte (hdr + 1) iFreeBlk;;
     put2byte (hdr + 5) iEnd
   else
     put2byte iPtr iStart;;
     put2byte iStart iFreeBlk;;
     put2byte (iStart + 2) iSize);;
  modify (fun p => setFree (nFree p + iOrigSize) p).

(** ** Initialisation *)

(** [while( 1 )] over the free blocks: the last block, its size, the value
    of [next] and the sum of the sizes. *)
Fixpoint freeBlocksLoop (fuel : nat) (iCellLast pc nFree : Z) : PM (Z * Z * Z * Z) :=
  match fuel with
  | O => fun _ => None
  | S f =>
      corruptIf (iCellLast <? pc);;
      next ← get2byte pc;
      size ← get2byte (pc + 2);
      let nFree := nFree + size in
      if next <=? pc + size + 3 then mret (pc, size, next, nFree)
      else freeBlocksLoop f iCellLast next nFree
  end.

Definition btreeComputeFreeSpace : PM unit :=
  usableSize ← usable;
  hdr ← field hdrOffset;
  top ← get2byteNotZero (hdr + 5);
  iCellFirst ← field (fun p => hdr + 8 + childPtrSize p + 2 * nCell p);
  let iCellLast := usableSize - 4 in
  pc ← get2byte (hdr + 1);
  frag ← getbyte (hdr + 7);
  let nFree := frag + top in
  nFree ← (if 0 <? pc then
             corruptIf (pc <? top);;
             '(pc, size, next, nFree) ← freeBlocksLoop (Z.to_nat usableSize) iCellLast pc nFree;
             corruptIf (0 <? next);;
             corruptIf (usableSize <? pc + size);;
             mret nFree
           else mret nFree);
  corruptIf ((usableSize <? nFree) || (nFree <? iCellFirst));;
  modify (setFree (u16 (nFree - iCellFirst))).

(** [for(i=0; i<pPage->nCell; i++)]: [n] cells are left. *)
Fixpoint sizeCheckLoop (n : nat) (usableSize iCellFirst iCellLast pAddr : Z) : PM unit :=
  match n with
  | O => mret ()
  | S n' =>
      pc ← get2byte pAddr;
      corruptIf ((pc <? iCellFirst) || (iCellLast <? pc));;
      data ← field aData;
      sz ← cellSizeAt data pc;
      corruptIf (usableSize <? pc + sz);;
      sizeCheckLoop n' usableSize iCellFirst iCellLast (pAddr + 2)
  end.

Definition btreeCellSizeCheck : PM unit :=
  iCellFirst ← field (fun p => cellOffset p + 2 * nCell p);
  usableSize ← usable;
  lf ← field leaf;
  let iCellLast := if (lf : bool) then usableSize - 4 else usableSize - 4 - 1 in
  cellOffset ← field cellOffset;
  n ← field nCell;
  sizeCheckLoop (Z.to_nat n) usableSize iCellFirst iCellLast cellOffset.

Definition btreeInitPage : PM unit :=
  data ← field hdrOffset;
  flag ← getbyte data;
  rc ← field (fun p => (decodeFlags p flag).1);
  modify (fun p => (decodeFlags p flag).2);;
  corruptIf (negb (rc =? SQLITE_OK));;
  modify (fun p =>
    setOffsets (u16 (pageSize (pBt p) - 1)) (hdrOffset p + 8 + childPtrSize p)
      (data + childPtrSize p + 8) (pageSize (pBt p)) (childPtrSize p)
      (setOvfl 0 (aiOvfl p) (apOvfl p) p));;
  n ← get2byte (data + 3);
  modify (setCell n);;
  mx ← field (fun p => MX_CELL (pBt p));
  corruptIf (mx <? n);;
  modify (fun p => setInit true (setFree (-1) p));;
  ck ← field (fun p => cellSizeCk (pBt p));
  if (ck : bool) then btreeCellSizeCheck else mret ().

Definition zeroPage (flags : Z) : PM unit :=
  hdr ← field hdrOffset;
  bt ← field pBt;
  (if negb (Z.land (btsFlags bt) BTS_FAST_SECURE =? 0)
   then memset hdr 0 (usableSize bt - hdr) else mret ());;
  putbyte hdr flags;;
  let first := u16 (hdr + (if Z.land flags PTF_LEAF =? 0 then 12 else 8)) in
  memset (hdr + 1) 0 4;;
  putbyte (hdr + 7) 0;;
  put2byte (hdr + 5) (usableSize bt);;
  modify (setFree (u16 (usableSize bt - first)));;
  modify (fun p => (decodeFlags p flags).2);;
  modify (fun p =>
    setOffsets (u16 (pageSize bt - 1)) first first (pageSize bt) (childPtrSize p)
      (setOvfl 0 (aiOvfl p) (apOvfl p) p));;
  modify (setCell 0);;
  modify (setInit true).

(** ** Cells *)

(** The macro findCell, and the functions that use it. *)
Definition findCell (I : Z) : PM Z :=
  mask ← field maskPage;
  idx ← field aCellIdx;
  v ← get2byte (idx + 2 * I);
  mret (Z.land mask v).

Definition btreeParseCell (iCell : Z) : PM CellInfo :=
  pc ← findCell iCell;
  field (fun p => xParseCell p (drop (Z.to_nat pc) (aData p))).

Definition cellSize (iCell : Z) : PM Z :=
  pc ← findCell iCell;
  data ← field aData;
  cellSizeAt data pc.

(** Called with [*pRC] equal to SQLITE_OK; the result code is the new value
    of [*pRC]. *)
Definition dropCell (idx sz : Z) : PM unit :=
  ptr ← field (fun p => aCellIdx p + 2 * idx);
  pc ← get2byte ptr;
  hdr ← field hdrOffset;
  usableSize ← usable;
  corruptIf (usableSize <? pc + sz);;
  freeSpace pc (u16 sz);;
  modify (fun p => setCell (u16 (nCell p - 1)) p);;
  n ← field nCell;
  if n =? 0 then
    memset (hdr + 1) 0 4;;
    putbyte (hdr + 7) 0;;
    put2byte (hdr + 5) usableSize;;
    modify (fun p => setFree (usableSize - hdrOffset p - childPtrSize p - 8) p)
  else
    memmove ptr (ptr + 2) (2 * (n - idx));;
    put2byte (hdr + 3) n;;
    modify (fun p => setFree (nFree p + 2) p).

(** The end of [insertCell] and [insertCellFast] on the page: the pointer to
    the content at [idx] becomes the [i]-th. *)
Definition insertPointer (i idx : Z) : PM unit :=
  pIns ← field (fun p => aCellIdx p + i * 2);
  n ← field nCell;
  memmove (pIns + 2) pIns (2 * (n - i));;
  put2byte pIns idx;;
  modify (fun p => setCell (u16 (nCell p + 1)) p);;
  hdr ← field hdrOffset;
  lo ← getbyte (hdr + 4);
  putbyte (hdr + 4) (lo + 1);;
  if u8 (lo + 1) =? 0 then
    hi ← getbyte (hdr + 3);
    putbyte (hdr + 3) (hi + 1)
  else mret ().

(** A cell that does not fit on the page. *)
Definition addOverflow (i : Z) (pCell : list Z) : PM unit := fun p =>
  let j := nOverflow p in
  if j <? 4 then
    Some (Ok (), setOvfl (u8 (j + 1)) (<[Z.to_nat j := u16 i]> (aiOvfl p))
                   (<[Z.to_nat j := pCell]> (apOvfl p)) p)
  else None.

Section insert.

(** The pager: the result code of [sqlite3PagerWrite] for this page, and of
    [ptrmapPut] for an overflow page and its parent. *)
Context (pagerWrite : Z) (ptrmapPut : Z -> Z -> Z -> Z).

Definition PTRMAP_OVERFLOW1 : Z := 3.

(** Called for a cell of the page itself ([pSrc] is [pPage]), with [*pRC]
    equal to SQLITE_OK.  [SQLITE_OVERFLOW] tests whether the cell crosses the
    end of the buffer of the page, which a cell in a buffer of its own does
    not. *)
Definition ptrmapPutOvflPtr (pCell : list Z) : PM unit :=
  info ← field (fun p => xParseCell p pCell);
  if nLocal info <? nPayload info then
    let ovfl := sqlite3Get4byte (drop (Z.to_nat (nSize info - 4)) pCell) in
    pg ← field pgno;
    let rc := ptrmapPut ovfl PTRMAP_OVERFLOW1 pg in
    if rc =? SQLITE_OK then mret () else fail rc
  else mret ().

Definition insertCellFast (i : Z) (pCell : list Z) (sz : Z) : PM unit :=
  nFree0 ← field nFree;
  if nFree0 <? sz + 2 then addOverflow i pCell
  else
    if negb (pagerWrite =? SQLITE_OK) then fail pagerWrite else
    idx ← allocateSpace sz;
    modify (fun p => setFree (nFree p - u16 (2 + sz)) p);;
    memwrite idx (slice pCell 0 sz);;
    insertPointer i idx;;
    av ← field (fun p => autoVacuum (pBt p));
    if (av : bool) then ptrmapPutOvflPtr pCell else mret ().

(** [pTemp] only tells where the content of an overflow cell is kept, and
    is left out; the first four bytes of the cell are replaced. *)
Definition insertCell (i : Z) (pCell : list Z) (sz : Z) (iChild : Z) : PM unit :=
  nOverflow0 ← field nOverflow;
  nFree0 ← field nFree;
  if negb (nOverflow0 =? 0) || (nFree0 <? sz + 2) then
    addOverflow i (store pCell 0 (sqlite3Put4byte iChild))
  else
    if negb (pagerWrite =? SQLITE_OK) then fail pagerWrite else
    idx ← allocateSpace sz;
    modify (fun p => setFree (nFree p - u16 (2 + sz)) p);;
    memwrite (idx + 4) (slice pCell 4 (sz - 4));;
    put4byte idx iChild;;
    insertPointer i idx;;
    av ← field (fun p => autoVacuum (pBt p));
    if (av : bool) then ptrmapPutOvflPtr pCell else mret ().

End insert.

Lemma ok_cellSizeAt src pc Q p :
  0 <= pc -> pc < Z.of_nat (length src) -> Q (xCellSize p (drop (Z.to_nat pc) src)) p -> ok (cellSizeAt src pc) Q p.
Proof. intros H0 Hl HQ. unfold ok, cellSizeAt. rewrite inside_true by lia. done. Qed.
