(* ===== verification/BtTile.v ===== *)
(** * The regions of a page

    The cell content area of a page is tiled by blocks (cells and free
    blocks, at least four bytes each) and fragments, single bytes that belong
    to no block.  Lemmas on tilings, and on the list of the free blocks in
    the bytes of the page. *)

From stdpp Require Import base list numbers option sets.
From S2P Require Import Prelude BtMem.
#[local] Open Scope Z_scope.

(** Permutations of appended lists: each list of the left side is brought to
    the front of the right side. *)
Ltac perm_step :=
  lazymatch goal with
  | |- ?x ++ ?a ≡ₚ ?x ++ ?b => apply Permutation_app_head
  | |- ?x ≡ₚ ?x => reflexivity
  | |- _ ≡ₚ ?y ++ ?b =>
      etransitivity; [|apply (Permutation_app_comm b y)]; rewrite <- ?(assoc_L (++))
  end.
Ltac perm := rewrite <- ?(assoc_L (++)); do 60 (try perm_step).

(** ** Tilings *)

(** A block is its address and its size. *)
Definition area (b : Z * Z) : list Z := seqZ b.1 b.2.

Fixpoint total (bs : list (Z * Z)) : Z :=
  match bs with
  | [] => 0
  | b :: bs' => b.2 + total bs'
  end.

(** The addresses from [lo] to [hi] are those of the blocks and the
    fragments, each once. *)
Definition tiles (lo hi : Z) (bs : list (Z * Z)) (fg : list Z) : Prop :=
  (bs ≫= area) ++ fg ≡ₚ seqZ lo (hi - lo).

Definition big (bs : list (Z * Z)) : Prop := Forall (fun b => 4 <= b.2) bs.

Lemma seqZ_split a m n : 0 <= m -> 0 <= n -> seqZ a (m + n) = seqZ a m ++ seqZ (a + m) n.
Proof. intros. apply seqZ_app; done. Qed.

Lemma elem_area x b : x ∈ area b <-> b.1 <= x < b.1 + b.2.
Proof. apply elem_of_seqZ. Qed.

Lemma length_area b : 0 <= b.2 -> Z.of_nat (length (area b)) = b.2.
Proof. intros. unfold area. rewrite length_seqZ. lia. Qed.

Lemma elem_blocks x bs : x ∈ bs ≫= area <-> exists b, b ∈ bs /\ b.1 <= x < b.1 + b.2.
Proof.
  rewrite list_elem_of_bind. split; intros (b & H1 & H2); exists b; rewrite ?elem_area in *; done.
Qed.

Lemma total_app bs bs' : total (bs ++ bs') = total bs + total bs'.
Proof. induction bs as [|b bs IH]; cbn; [done|]. rewrite IH. lia. Qed.

Lemma total_perm bs bs' : bs ≡ₚ bs' -> total bs = total bs'.
Proof. induction 1; cbn; lia. Qed.

Lemma total_nonneg bs : big bs -> 0 <= total bs.
Proof. induction 1; cbn; lia. Qed.

Lemma length_blocks bs : big bs -> Z.of_nat (length (bs ≫= area)) = total bs.
Proof.
  induction 1 as [|b bs Hb _ IH]; cbn; [done|]. rewrite length_app, Nat2Z.inj_add, length_area by lia.
  by rewrite <- IH.
Qed.

Lemma big_perm bs bs' : bs ≡ₚ bs' -> big bs -> big bs'.
Proof. unfold big. by intros ->. Qed.

Lemma big_app bs bs' : big (bs ++ bs') <-> big bs /\ big bs'.
Proof. apply Forall_app. Qed.

Lemma tiles_perm lo hi bs bs' fg : bs ≡ₚ bs' -> tiles lo hi bs fg -> tiles lo hi bs' fg.
Proof. unfold tiles. by intros ->. Qed.

Lemma tiles_total lo hi bs fg :
  tiles lo hi bs fg -> big bs -> lo <= hi -> total bs + Z.of_nat (length fg) = hi - lo.
Proof.
  intros H Hb Hl. apply Permutation_length in H. rewrite length_app, length_seqZ in H.
  rewrite <- length_blocks by done. lia.
Qed.

Lemma tiles_nodup lo hi bs fg : tiles lo hi bs fg -> NoDup ((bs ≫= area) ++ fg).
Proof. intros H. rewrite H. apply NoDup_seqZ. Qed.

Lemma tiles_elem lo hi bs fg x :
  tiles lo hi bs fg ->
  lo <= x < hi <-> (exists b, b ∈ bs /\ b.1 <= x < b.1 + b.2) \/ x ∈ fg.
Proof.
  intros H. rewrite <- elem_blocks, <- elem_of_app, H, elem_of_seqZ. lia.
Qed.

(** Blocks are inside of the area. *)
Lemma tiles_range lo hi bs fg b :
  tiles lo hi bs fg -> big bs -> b ∈ bs -> lo <= b.1 /\ b.1 + b.2 <= hi.
Proof.
  intros H Hb Hin. assert (4 <= b.2) by (by eapply Forall_forall in Hb).
  assert (lo <= b.1 < hi) by (apply (tiles_elem _ _ _ _ _ H); left; exists b; split; [done|lia]).
  assert (lo <= b.1 + b.2 - 1 < hi)
    by (apply (tiles_elem _ _ _ _ _ H); left; exists b; split; [done|lia]).
  lia.
Qed.

(** Two blocks are disjoint, and fragments are outside of the blocks. *)
Lemma tiles_apart lo hi b bs fg b' :
  tiles lo hi (b :: bs) fg -> big (b :: bs) -> b' ∈ bs ->
  b.1 + b.2 <= b'.1 \/ b'.1 + b'.2 <= b.1.
Proof.
  intros H Hb Hin. apply tiles_nodup in H. cbn in H. rewrite <- (assoc_L (++)) in H.
  apply NoDup_app in H as (_ & H & _).
  assert (4 <= b.2) by (by inversion Hb).
  assert (4 <= b'.2) by (eapply Forall_forall in Hb; [done|by right]).
  destruct (Z.le_gt_cases (b.1 + b.2) b'.1); [by left|].
  destruct (Z.le_gt_cases (b'.1 + b'.2) b.1); [by right|].
  exfalso. apply (H (Z.max b.1 b'.1)); [rewrite elem_area; lia|].
  apply elem_of_app. left. apply elem_blocks. exists b'. split; [done|lia].
Qed.

Lemma tiles_apart2 lo hi bs1 bs2 fg b b' :
  tiles lo hi (bs1 ++ bs2) fg -> big (bs1 ++ bs2) -> b ∈ bs1 -> b' ∈ bs2 ->
  b.1 + b.2 <= b'.1 \/ b'.1 + b'.2 <= b.1.
Proof.
  intros H Hb [l1 [l2 ->]]%list_elem_of_split Hin.
  apply (tiles_apart lo hi b (l1 ++ l2 ++ bs2) fg).
  - eapply tiles_perm; [|done]. rewrite <- !(assoc_L (++)). cbn. by rewrite <- Permutation_middle.
  - eapply big_perm; [|done]. rewrite <- !(assoc_L (++)). cbn. by rewrite <- Permutation_middle.
  - set_solver.
Qed.

(** *** Changes of a tiling *)

Lemma tiles_split lo hi a m n bs fg :
  0 <= m -> 0 <= n ->
  tiles lo hi ((a, m + n) :: bs) fg <-> tiles lo hi ((a, m) :: (a + m, n) :: bs) fg.
Proof.
  intros Hm Hn. unfold tiles. cbn. unfold area at 1 3 4. cbn.
  rewrite seqZ_split by done. by rewrite <- !(assoc_L (++)).
Qed.

Lemma tiles_frag lo hi a n bs fg :
  tiles lo hi ((a, n) :: bs) fg <-> tiles lo hi bs (seqZ a n ++ fg).
Proof.
  unfold tiles. cbn. unfold area at 1. cbn.
  by rewrite !(assoc_L (++)), (Permutation_app_comm (seqZ a n)).
Qed.

(** The first block is outside of the area, or becomes part of it. *)
Lemma tiles_top lo hi n bs fg :
  0 <= n -> lo + n <= hi ->
  tiles (lo + n) hi bs fg <-> tiles lo hi ((lo, n) :: bs) fg.
Proof.
  intros Hn Hl. unfold tiles. cbn. unfold area at 2. cbn.
  replace (hi - lo) with (n + (hi - (lo + n))) by lia. rewrite seqZ_split by lia.
  rewrite <- (assoc_L (++)). split; [by intros ->|].
  apply Permutation_app_inv_l.
Qed.

(** Fewer than four bytes between two blocks are fragments. *)
Lemma gap_frag lo hi a n f s bs fg x :
  tiles lo hi ((a, n) :: (f, s) :: bs) fg -> big ((a, n) :: (f, s) :: bs) ->
  f <= a + n + 3 -> a + n <= x < f -> x ∈ fg.
Proof.
  intros H Hb Hf Hx.
  destruct (tiles_range _ _ _ _ (a, n) H Hb) as [Ha _]; [by left|].
  destruct (tiles_range _ _ _ _ (f, s) H Hb) as [_ Hs]; [set_solver|]. cbn in *.
  assert (4 <= n /\ 4 <= s) as [Hn4 Hs4] by (inversion Hb as [|?? H1 H2]; inversion H2; done).
  destruct (tiles_elem _ _ _ _ x H) as [[[[b m] [Hin Hbx]]|?] _]; [lia| |done].
  cbn in Hbx. apply elem_of_cons in Hin as [[= -> ->]|Hin]; [lia|].
  apply elem_of_cons in Hin as [[= -> ->]|Hin]; [lia|]. exfalso.
  assert (4 <= m) by (eapply (proj1 (Forall_forall _ _)) in Hb; [|right; right; done]; done).
  destruct (tiles_apart _ _ _ _ _ (b, m) H Hb) as [H1|H1]; [by right|cbn in H1|cbn in H1; lia].
  apply (tiles_perm _ _ _ ((f, s) :: (a, n) :: bs)) in H; [|by constructor].
  apply (big_perm _ ((f, s) :: (a, n) :: bs)) in Hb; [|by constructor].
  destruct (tiles_apart _ _ _ _ _ (b, m) H Hb) as [H2|H2]; [by right|cbn in H2; lia..].
Qed.

Lemma absorb (k l : list Z) :
  NoDup k -> (forall x, x ∈ k -> x ∈ l) -> exists k', l ≡ₚ k ++ k'.
Proof.
  intros Hk Hin. apply submseteq_Permutation. by apply NoDup_submseteq.
Qed.

(** Two blocks and the fragments between them become one block. *)
Lemma tiles_merge lo hi a n f s bs fg :
  tiles lo hi ((a, n) :: (f, s) :: bs) fg -> big ((a, n) :: (f, s) :: bs) ->
  a + n <= f <= a + n + 3 ->
  exists fg', Z.of_nat (length fg') + (f - (a + n)) = Z.of_nat (length fg) /\
    tiles lo hi ((a, f + s - a) :: bs) fg'.
Proof.
  intros H Hb Hf.
  destruct (absorb (seqZ (a + n) (f - (a + n))) fg) as [fg' Hfg].
  { apply NoDup_seqZ. }
  { intros x Hx%elem_of_seqZ. eapply gap_frag; [done|done|lia|lia]. }
  assert (4 <= n /\ 4 <= s) as [Hn4 Hs4] by (inversion Hb as [|?? H1 H2]; inversion H2; done).
  exists fg'. split.
  - rewrite Hfg, length_app, length_seqZ. lia.
  - replace (f + s - a) with (n + ((f - (a + n)) + s)) by lia.
    apply tiles_split; [lia..|]. eapply tiles_perm; [apply perm_swap|].
    apply tiles_split; [lia..|]. apply tiles_frag.
    replace (a + n + (f - (a + n))) with f by lia.
    eapply tiles_perm; [apply perm_swap|]. unfold tiles in *. by rewrite <- Hfg.
Qed.

(** ** The list of the free blocks *)

(** From the pointer at [a], the free blocks [fr] are linked, and the last
    pointer is [nxt]. *)
Fixpoint links (d : list Z) (a : Z) (fr : list (Z * Z)) (nxt : Z) : Prop :=
  match fr with
  | [] => get2 d a = nxt
  | (b, s) :: fr' => get2 d a = b /\ get2 d (b + 2) = s /\ links d b fr' nxt
  end.

(** The blocks are in increasing order, at least four bytes apart. *)
Fixpoint spaced (lo : Z) (fr : list (Z * Z)) (hi : Z) : Prop :=
  match fr with
  | [] => True
  | (b, s) :: fr' => lo <= b /\ 4 <= s /\ b + s <= hi /\ spaced (b + s + 4) fr' hi
  end.

(** The address of the last pointer of a list, and the least address of a
    block that follows it. *)
Fixpoint lastAddr (a : Z) (fr : list (Z * Z)) : Z :=
  match fr with
  | [] => a
  | (b, _) :: fr' => lastAddr b fr'
  end.

Fixpoint nextLo (lo : Z) (fr : list (Z * Z)) : Z :=
  match fr with
  | [] => lo
  | (b, s) :: fr' => nextLo (b + s + 4) fr'
  end.

Lemma spaced_app lo fr1 fr2 hi :
  spaced lo (fr1 ++ fr2) hi <-> spaced lo fr1 hi /\ spaced (nextLo lo fr1) fr2 hi.
Proof.
  revert lo. induction fr1 as [|[b s] fr1 IH]; intros lo; cbn; [tauto|]. rewrite IH. tauto.
Qed.

Lemma spaced_mono lo lo' fr hi : spaced lo fr hi -> lo' <= lo -> spaced lo' fr hi.
Proof. destruct fr as [|[b s] fr]; cbn; [done|]. intros (? & ?) ?. split; [lia|done]. Qed.

Lemma spaced_elem lo fr hi b s :
  spaced lo fr hi -> (b, s) ∈ fr -> lo <= b /\ 4 <= s /\ b + s <= hi.
Proof.
  revert lo. induction fr as [|[b' s'] fr IH]; intros lo H Hin; [set_solver|].
  destruct H as (H1 & H2 & H3 & H4). apply elem_of_cons in Hin as [[= -> ->]|Hin]; [done|].
  destruct (IH _ H4 Hin) as (? & ? & ?). lia.
Qed.

Lemma spaced_big lo fr hi : spaced lo fr hi -> big fr.
Proof. intros H. apply Forall_forall. intros [b s] Hin. by eapply spaced_elem in Hin as (_ & ? & _). Qed.

Lemma spaced_length lo fr hi :
  spaced lo fr hi -> lo <= hi + 4 -> 4 * Z.of_nat (length fr) <= hi + 4 - lo.
Proof.
  revert lo. induction fr as [|[b s] fr IH]; intros lo H Hl; cbn; [lia|].
  destruct H as (H1 & H2 & H3 & H4). specialize (IH _ H4 ltac:(lia)). lia.
Qed.

Lemma nextLo_last lo fr b s : nextLo lo (fr ++ [(b, s)]) = b + s + 4.
Proof. revert lo. induction fr as [|[b' s'] fr IH]; intros; cbn; [done|apply IH]. Qed.

Lemma nextLo_ge lo fr hi : spaced lo fr hi -> lo <= nextLo lo fr.
Proof.
  revert lo. induction fr as [|[b s] fr IH]; intros lo H; cbn; [lia|].
  destruct H as (H1 & H2 & H3 & H4). specialize (IH _ H4). lia.
Qed.

Lemma spaced_before lo fr hi b s :
  spaced lo fr hi -> (b, s) ∈ fr -> b + s + 4 <= nextLo lo fr.
Proof.
  revert lo. induction fr as [|[b' s'] fr IH]; intros lo H Hin; [set_solver|].
  destruct H as (H1 & H2 & H3 & H4). apply elem_of_cons in Hin as [[= -> ->]|Hin]; cbn.
  - by eapply nextLo_ge.
  - by apply IH.
Qed.

Lemma lastAddr_app a fr1 fr2 : lastAddr a (fr1 ++ fr2) = lastAddr (lastAddr a fr1) fr2.
Proof. revert a. induction fr1 as [|[b s] fr1 IH]; intros; cbn; [done|apply IH]. Qed.

Lemma lastAddr_last a fr b s : lastAddr a (fr ++ [(b, s)]) = b.
Proof. by rewrite lastAddr_app. Qed.

(** Either the list is empty, or the last pointer is that of its last block. *)
Lemma lastAddr_cases a fr :
  (fr = [] /\ lastAddr a fr = a) \/
  (exists fr' b s, fr = fr' ++ [(b, s)] /\ lastAddr a fr = b).
Proof.
  destruct fr as [|[b s] fr'] using rev_ind; [by left|right].
  exists fr', b, s. by rewrite lastAddr_last.
Qed.

Lemma lastAddr_ge a lo fr hi : spaced lo fr hi -> a <= lo -> a <= lastAddr a fr.
Proof.
  revert a lo. induction fr as [|[b s] fr IH]; intros a lo H Hl; cbn; [lia|].
  destruct H as (H1 & H2 & H3 & H4). specialize (IH b _ H4 ltac:(lia)). lia.
Qed.

Lemma links_app d a fr1 fr2 nxt :
  links d a (fr1 ++ fr2) nxt <->
  exists m, links d a fr1 m /\ links d (lastAddr a fr1) fr2 nxt /\ m = get2 d (lastAddr a fr1).
Proof.
  revert a. induction fr1 as [|[b s] fr1 IH]; intros a; cbn.
  - naive_solver.
  - rewrite IH. naive_solver.
Qed.

Lemma links_last d a fr nxt : links d a fr nxt -> get2 d (lastAddr a fr) = nxt.
Proof. revert a. induction fr as [|[b s] fr IH]; intros a; cbn; [done|]. intros (_ & _ & H). auto. Qed.

(** The last pointer of a list is changed; the other pointers and the sizes
    are kept. *)
Lemma links_set d d' a lo fr hi x nxt :
  links d a fr x -> spaced lo fr hi -> a + 2 <= lo ->
  (forall y, a <= y < a + 2 \/ (exists b s, (b, s) ∈ fr /\ b <= y < b + 4) ->
     ~ lastAddr a fr <= y < lastAddr a fr + 2 -> nthZ d' y = nthZ d y) ->
  get2 d' (lastAddr a fr) = nxt -> links d' a fr nxt.
Proof.
  revert a lo. induction fr as [|[b s] fr IH]; intros a lo Hl Hs Ha Hd Hn; cbn in *; [done|].
  destruct Hl as (H1 & H2 & H3), Hs as (S1 & S2 & S3 & S4).
  pose proof (lastAddr_ge b _ _ _ S4 ltac:(lia)) as Hge.
  assert (lastAddr b fr = b \/ b + 4 <= lastAddr b fr) as Hb.
  { destruct fr as [|[b' s'] fr]; cbn; [by left|right]. destruct S4 as (? & ? & ? & S5).
    pose proof (lastAddr_ge b' _ _ _ S5 ltac:(lia)). lia. }
  split; [|split].
  - rewrite <- H1. apply get2_same; apply Hd; lia.
  - rewrite <- H2. apply get2_same; apply Hd; try lia; right; exists b, s; split; [by left|lia|by left|lia].
  - apply (IH b (b + s + 4)); try done; [lia|]. intros y Hy Hny. apply Hd; [|done].
    right. destruct Hy as [Hy|(b' & s' & Hin & Hy)].
    + exists b, s. split; [by left|lia].
    + exists b', s'. split; [by right|lia].
Qed.

Lemma links_same d d' a fr nxt :
  links d a fr nxt ->
  (forall y, a <= y < a + 2 \/ (exists b s, (b, s) ∈ fr /\ b <= y < b + 4) -> nthZ d' y = nthZ d y) ->
  links d' a fr nxt.
Proof.
  revert a. induction fr as [|[b s] fr IH]; intros a Hl Hd; cbn in *.
  - rewrite <- Hl. apply get2_same; apply Hd; lia.
  - destruct Hl as (H1 & H2 & H3). split; [|split].
    + rewrite <- H1. apply get2_same; apply Hd; lia.
    + rewrite <- H2. apply get2_same; apply Hd; right; exists b, s; split; [by left|lia|by left|lia].
    + apply IH; [done|]. intros y Hy. apply Hd. right. destruct Hy as [Hy|(b' & s' & Hin & Hy)].
      * exists b, s. split; [by left|lia].
      * exists b', s'. split; [by right|lia].
Qed.
