(* ===== verification/BtSpace.v ===== *)
(** * Space on a page: free blocks, allocation and release

    The invariant of the cell content area, and that [freeSpace] and
    [pageFindSlot] keep it and touch nothing else. *)

From stdpp Require Import base list numbers option sets.
From S2P Require Import Prelude Util Varint Btree BtVarint BtCell BtMem BtPage BtTile.
#[local] Open Scope Z_scope.

(** ** Writes *)

(** Only the [n] bytes at [a] differ. *)
Definition upd (d d' : list Z) (a n : Z) : Prop :=
  forall x, 0 <= x -> x < a \/ a + n <= x -> nthZ d' x = nthZ d x.

Lemma get2_upd d d' a n x :
  upd d d' a n -> 0 <= x -> x + 2 <= a \/ a + n <= x -> get2 d' x = get2 d x.
Proof. intros H Hx Ho. apply get2_same; apply H; lia. Qed.

(** A buffer of [sz] bytes. *)
Definition buf (sz : Z) (d : list Z) : Prop := Z.of_nat (length d) = sz /\ Forall is_byte d.

Lemma buf_store sz d a bs :
  buf sz d -> 0 <= a -> a + Z.of_nat (length bs) <= sz -> Forall is_byte bs -> buf sz (store d a bs).
Proof. intros [H1 H2] Ha Hl Hb. split; [by rewrite length_store by lia|by apply store_bytes]. Qed.

Lemma upd_store d a bs :
  0 <= a -> a + Z.of_nat (length bs) <= Z.of_nat (length d) ->
  upd d (store d a bs) a (Z.of_nat (length bs)).
Proof. intros Ha Hl x Hx Ho. apply nthZ_store_out; lia. Qed.

Section writes.
Context {sz : Z} (p : MemPage) (d : list Z) (Hd : buf sz d).

Lemma w_bytes a bs (Q : unit -> MemPage -> Prop) :
  0 <= a -> a + Z.of_nat (length bs) <= sz -> Forall is_byte bs ->
  (forall d', buf sz d' -> (forall i, 0 <= i < Z.of_nat (length bs) -> nthZ d' (a + i) = nthZ bs i) ->
     upd d d' a (Z.of_nat (length bs)) -> Q () (setData d' p)) ->
  ok (memwrite a bs) Q (setData d p).
Proof.
  intros Ha Hl Hb HQ. destruct Hd as [Hlen Hby]. apply ok_memwrite; cbn; [lia..|]. apply HQ.
  - by apply buf_store.
  - intros i Hi. rewrite nthZ_store_in by lia. f_equal. lia.
  - apply upd_store; lia.
Qed.

Lemma w_put2 a v (Q : unit -> MemPage -> Prop) :
  0 <= a -> a + 2 <= sz ->
  (forall d', buf sz d' -> get2 d' a = u16 v -> upd d d' a 2 -> Q () (setData d' p)) ->
  ok (put2byte a v) Q (setData d p).
Proof.
  intros Ha Hl HQ. destruct Hd as [Hlen Hby]. apply ok_put2byte; cbn; [lia..|]. apply HQ.
  - apply buf_store; cbn; [done|lia|lia|apply bytes2_bytes].
  - by rewrite get2_store by lia.
  - apply (upd_store d a (bytes2 v)); cbn; lia.
Qed.

Lemma w_put1 a v (Q : unit -> MemPage -> Prop) :
  0 <= a -> a + 1 <= sz ->
  (forall d', buf sz d' -> nthZ d' a = u8 v -> upd d d' a 1 -> Q () (setData d' p)) ->
  ok (putbyte a v) Q (setData d p).
Proof.
  intros Ha Hl HQ. apply w_bytes; cbn; [lia..| |].
  - repeat constructor; apply u8_range.
  - intros d' Hb Hv Hu. apply HQ; [done| |done].
    specialize (Hv 0 ltac:(lia)). by rewrite Z.add_0_r in Hv.
Qed.

Lemma w_move dst src n (Q : unit -> MemPage -> Prop) :
  0 <= src -> 0 <= dst -> 0 <= n -> src + n <= sz -> dst + n <= sz ->
  (forall d', buf sz d' -> (forall i, 0 <= i < n -> nthZ d' (dst + i) = nthZ d (src + i)) ->
     upd d d' dst n -> Q () (setData d' p)) ->
  ok (memmove dst src n) Q (setData d p).
Proof.
  intros Hs Hd' Hn H1 H2 HQ. destruct Hd as [Hlen Hby]. apply ok_memmove; cbn; [lia..|].
  assert (Z.of_nat (length (slice d src n)) = n) as Hls by (rewrite length_slice; lia).
  apply HQ.
  - apply buf_store; [done|lia|lia|by apply slice_bytes].
  - intros i Hi. rewrite nthZ_store_in by lia.
    replace (dst + i - dst) with i by lia. apply nthZ_slice; lia.
  - rewrite <- Hls at 2. apply upd_store; lia.
Qed.

Lemma w_set a c n (Q : unit -> MemPage -> Prop) :
  0 <= a -> 0 <= n -> a + n <= sz -> is_byte c ->
  (forall d', buf sz d' -> (forall x, a <= x < a + n -> nthZ d' x = c) ->
     upd d d' a n -> Q () (setData d' p)) ->
  ok (memset a c n) Q (setData d p).
Proof.
  intros Ha Hn Hl Hc HQ. destruct Hd as [Hlen Hby]. apply ok_memset; cbn; [lia..|].
  assert (Z.of_nat (length (replicate (Z.to_nat n) c)) = n) as Hr by (rewrite length_replicate; lia).
  apply HQ.
  - apply buf_store; [done|lia|lia|]. apply Forall_replicate. done.
  - intros x Hx. rewrite nthZ_store_in by lia. unfold nthZ.
    by rewrite lookup_replicate_2 by lia.
  - rewrite <- Hr at 2. apply upd_store; lia.
Qed.

Lemma r_get2 a (Q : Z -> MemPage -> Prop) :
  0 <= a -> a + 2 <= sz -> Q (get2 d a) (setData d p) -> ok (get2byte a) Q (setData d p).
Proof. intros Ha Hl HQ. destruct Hd as [Hlen _]. apply ok_get2byte; cbn; [lia..|done]. Qed.

Lemma r_get1 a (Q : Z -> MemPage -> Prop) :
  0 <= a -> a + 1 <= sz -> Q (nthZ d a) (setData d p) -> ok (getbyte a) Q (setData d p).
Proof. intros Ha Hl HQ. destruct Hd as [Hlen _]. apply ok_getbyte; cbn; [lia..|done]. Qed.

End writes.

(** Fields after an assignment to another field. *)
Ltac fields :=
  cbn [setData setFree setCell setOvfl hdrOffset childPtrSize leaf cellOffset nFree nCell
       maskPage pBt aData aCellIdx nOverflow aiOvfl apOvfl pgno maxLocal minLocal].

(** A field, a guard that does not hold. *)
Ltac afield := apply ok_bind, ok_field; fields.
Ltac aguard := apply ok_bind, ok_corruptIf; [|].
Ltac aget2 := apply ok_bind; eapply r_get2; [eassumption|lia|lia|].
Ltac aget1 := apply ok_bind; eapply r_get1; [eassumption|lia|lia|].

(** Reads of bytes that the last writes did not touch. *)
Ltac keep :=
  repeat match goal with
  | U : upd ?d ?d' ?a ?n |- context [get2 ?d' ?x] => rewrite (get2_upd d d' a n x U) by lia
  | U : upd ?d ?d' ?a ?n |- context [nthZ ?d' ?x] => rewrite (U x) by lia
  end.

(** ** The invariant *)

(** The first pointer of a list of free blocks. *)
Definition chain (d : list Z) (v : Z) (fr : list (Z * Z)) : Prop :=
  match fr with
  | [] => v = 0
  | (f, s) :: fr' => v = f /\ get2 d (f + 2) = s /\ links d f fr' 0
  end.

Lemma links_chain d a fr : links d a fr 0 <-> chain d (get2 d a) fr.
Proof. by destruct fr as [|[f s] fr]. Qed.

Lemma chain_same d d' v fr :
  chain d v fr ->
  (forall y, (exists b s, (b, s) ∈ fr /\ b <= y < b + 4) -> nthZ d' y = nthZ d y) ->
  chain d' v fr.
Proof.
  destruct fr as [|[f s] fr]; [done|]. intros (H1 & H2 & H3) Hd. split; [done|].
  assert (forall y, f <= y < f + 4 -> nthZ d' y = nthZ d y) as Hf
    by (intros y Hy; apply Hd; exists f, s; split; [by left|lia]).
  split; [rewrite <- H2; apply get2_same; apply Hf; lia|].
  eapply links_same; [done|]. intros y [Hy|(b & m & Hin & Hy)]; [apply Hf; lia|].
  apply Hd. exists b, m. split; [by right|done].
Qed.

Section page.
Context (hdr us : Z).

(** From [top] to [us], the bytes [d] of the page have the allocated blocks
    [bs], the free blocks [fr] and the fragments [fg]; [lo] is the end of the
    array of cell pointers. *)
Record space (d : list Z) (lo top : Z) (bs fr : list (Z * Z)) (fg : list Z) : Prop := {
  sp_top : get2 d (hdr + 5) = u16 top;
  sp_frag : nthZ d (hdr + 7) = Z.of_nat (length fg);
  sp_links : links d (hdr + 1) fr 0;
  sp_spaced : spaced (top + 1) fr us;
  sp_big : big bs;
  sp_tile : tiles top us (bs ++ fr) fg;
  sp_lo : hdr + 8 <= lo <= top /\ top <= us
}.

(** The bytes that an operation on the free space keeps: those outside of
    the page header and the cell content area, the flag, the number of
    cells, and the allocated blocks. *)
Definition kept (lo : Z) (bs : list (Z * Z)) (d d' : list Z) : Prop :=
  forall x, 0 <= x ->
    x < hdr + 1 \/ hdr + 3 <= x < hdr + 5 \/ hdr + 8 <= x < lo \/ us <= x \/
    (exists b, b ∈ bs /\ b.1 <= x < b.1 + b.2) ->
    nthZ d' x = nthZ d x.

Lemma kept_eq lo bs d : kept lo bs d d.
Proof. done. Qed.

Lemma kept_then lo bs d d' d'' : kept lo bs d d' -> kept lo bs d' d'' -> kept lo bs d d''.
Proof. intros H1 H2 x Hx Hr. by rewrite H2, H1. Qed.

(** Writes to the header, and outside of the allocated blocks. *)
Lemma kept_hdr lo bs d d' a n :
  upd d d' a n -> hdr + 8 <= lo <= us -> (forall b, b ∈ bs -> lo <= b.1) ->
  a = hdr + 1 /\ n <= 2 \/ hdr + 5 <= a /\ a + n <= hdr + 8 -> kept lo bs d d'.
Proof.
  intros Hu Hlo Hb Hr x Hx Hk. apply Hu; [done|].
  destruct Hk as [Hk|[Hk|[Hk|[Hk|(b & Hin & Hk)]]]]; [lia..|].
  specialize (Hb b Hin). lia.
Qed.

Lemma kept_area lo bs d d' a n :
  upd d d' a n -> hdr + 8 <= lo <= a -> a + n <= us ->
  (forall b, b ∈ bs -> b.1 + b.2 <= a \/ a + n <= b.1) -> kept lo bs d d'.
Proof.
  intros Hu Hlo Ha Hr x Hx Hk. apply Hu; [done|].
  destruct Hk as [Hk|[Hk|[Hk|[Hk|(b & Hin & Hk)]]]]; [lia..|].
  specialize (Hr b Hin). lia.
Qed.

Lemma sp_all_big d lo top bs fr fg : space d lo top bs fr fg -> big (bs ++ fr).
Proof. intros H. apply Forall_app. split; [apply H|]. eapply spaced_big, H. Qed.

Lemma sp_block d lo top bs fr fg b :
  space d lo top bs fr fg -> b ∈ bs -> top <= b.1 /\ b.1 + b.2 <= us /\ 4 <= b.2.
Proof.
  intros H Hin. destruct (tiles_range _ _ _ _ b (sp_tile _ _ _ _ _ _ H) (sp_all_big _ _ _ _ _ _ H)); [set_solver|].
  split_and!; [done..|]. pose proof (sp_big _ _ _ _ _ _ H) as Hb.
  by eapply Forall_forall in Hb.
Qed.

Lemma sp_free d lo top bs fr fg f s :
  space d lo top bs fr fg -> (f, s) ∈ fr -> top + 1 <= f /\ f + s <= us /\ 4 <= s.
Proof.
  intros H Hin. destruct (spaced_elem _ _ _ _ _ (sp_spaced _ _ _ _ _ _ H) Hin) as (? & ? & ?).
  done.
Qed.

Lemma sp_apart d lo top bs fr fg b f s :
  space d lo top bs fr fg -> b ∈ bs -> (f, s) ∈ fr -> b.1 + b.2 <= f \/ f + s <= b.1.
Proof.
  intros H Hb Hf.
  apply (tiles_apart2 _ _ _ _ _ b (f, s) (sp_tile _ _ _ _ _ _ H) (sp_all_big _ _ _ _ _ _ H) Hb Hf).
Qed.

(** All free bytes, by the sizes of the allocated blocks. *)
Lemma sp_total d lo top bs fr fg :
  space d lo top bs fr fg -> Z.of_nat (length fg) + total fr + top = us - total bs.
Proof.
  intros H. pose proof (tiles_total _ _ _ _ (sp_tile _ _ _ _ _ _ H) (sp_all_big _ _ _ _ _ _ H)) as Ht.
  rewrite total_app in Ht. destruct (sp_lo _ _ _ _ _ _ H). lia.
Qed.

End page.
