(* ===== verification/BtFree.v ===== *)
(** * Release of space on a page

    [freeSpace] returns an allocated block to the free space: it is merged
    with the free blocks and fragments around it, or the cell content area
    becomes smaller.  The invariant holds afterwards, without the block. *)

From stdpp Require Import base list numbers option sets.
From S2P Require Import Prelude Util Varint Btree BtVarint BtCell BtMem BtPage BtTile BtSpace.
#[local] Open Scope Z_scope.

Section free.
Context (p : MemPage) (sz : Z).
Abbreviation hdr := (hdrOffset p).
Abbreviation us := (usableSize (pBt p)).
Context (Hhdr : 0 <= hdr) (Hus : us <= sz) (Husz : us <= 65536) (Hlow : hdr + 12 <= us).

(** The search of the free blocks around an address. *)
Lemma freeSpaceLoop_ok d fuel start a fr lo :
  buf sz d -> links d a fr 0 -> spaced lo fr us -> 0 <= a -> a + 2 <= lo -> a + 2 <= sz ->
  (length fr < fuel)%nat ->
  ok (freeSpaceLoop fuel start a) (fun r p' => p' = setData d p /\
    exists fr1 fr2, fr = fr1 ++ fr2 /\ Forall (fun b => b.1 < start) fr1 /\
      r.1 = lastAddr a fr1 /\ chain d r.2 fr2 /\ r.2 = get2 d r.1 /\
      match fr2 with [] => True | b :: _ => start <= b.1 end) (setData d p).
Proof.
  intros Hd. revert fuel a lo. induction fr as [|[f s] fr IH]; intros [|fuel] a lo Hl Hs H0 Ha Hsz Hf;
    cbn in Hf; try lia; cbn [freeSpaceLoop]; aget2.
  - cbn in Hl. rewrite Hl. destruct (0 <? start) eqn:E.
    + replace (0 <=? a) with true by (symmetry; apply Z.leb_le; lia). cbn.
      split; [done|]. exists [], []. cbn. done.
    + apply ok_ret. split; [done|]. exists [], []. done.
  - destruct Hl as (H1 & H2 & H3), Hs as (S1 & S2 & S3 & S4). rewrite H1.
    destruct (Z.ltb_spec f start) as [Hlt|Hge].
    + replace (f <=? a) with false by (symmetry; apply Z.leb_gt; lia).
      eapply ok_mono; [apply (IH fuel f (f + s + 4)); [done|done|lia|lia|lia|lia]|].
      intros r p' (-> & fr1 & fr2 & -> & Hall & Hr1 & Hr2 & Hr3 & Hm). split; [done|].
      exists ((f, s) :: fr1), fr2. split_and!; [done|by constructor|done..].
    + apply ok_ret. split; [done|]. exists [], ((f, s) :: fr). done.
Qed.

(** The released block among the others: [fr1] and [fr2] are the free blocks
    before and after it, [k] is the least distance of [fr2]. *)
Definition released (k : Z) (d : list Z) (top iFreeBlk iStart iSize : Z)
    (bs fr1 fr2 : list (Z * Z)) (fg : list Z) : Prop :=
  tiles top us (((iStart, iSize) :: bs) ++ fr1 ++ fr2) fg /\ big ((iStart, iSize) :: bs) /\
  spaced (top + 1) fr1 us /\ spaced (iStart + iSize + k) fr2 us /\
  chain d iFreeBlk fr2 /\ (exists m, links d (hdr + 1) fr1 m).

(** [iFreeBlk] is merged onto the end of the block. *)
Lemma merge_next d top a n bs fr1 fr2 f s fg :
  released 0 d top f a n bs fr1 ((f, s) :: fr2) fg -> f <= a + n + 3 ->
  exists fg', Z.of_nat (length fg') + (f - (a + n)) = Z.of_nat (length fg) /\ a + n <= f /\
    f + s <= us /\ get2 d (f + 2) = s /\
    released 4 d top (get2 d f) a (f + s - a) bs fr1 fr2 fg'.
Proof.
  intros (Ht & Hb & S1 & S2 & Hc & Hl) Hf.
  cbn in S2. destruct S2 as (S2 & S3 & S4 & S5).
  assert (4 <= n) by (by inversion Hb).
  destruct (tiles_merge top us a n f s (bs ++ fr1 ++ fr2) fg) as (fg' & Hlen & Ht').
  - eapply tiles_perm; [|apply Ht]. cbn. by rewrite !(assoc_L (++)), <- Permutation_middle.
  - apply Forall_cons. split; [by inversion Hb|]. apply Forall_cons. split; [done|].
    rewrite !Forall_app. split_and!; [by inversion Hb|by eapply spaced_big|by eapply spaced_big].
  - lia.
  - exists fg'. destruct Hc as (_ & Hs & Hc).
    unfold released. split_and!; [done|lia|done|done|done|apply Forall_cons; split; [cbn; lia|by inversion Hb]
                |done| |by apply links_chain|done].
    by replace (a + (f + s - a) + 4) with (f + s + 4) by lia.
Qed.

(** The block is merged onto the end of the free block before it. *)
Lemma merge_prev k d top a n bs fr1 b s fr2 iFree fg :
  released k d top iFree a n bs (fr1 ++ [(b, s)]) fr2 fg -> b < a -> a <= b + s + 3 ->
  exists fg', Z.of_nat (length fg') + (a - (b + s)) = Z.of_nat (length fg) /\ b + s <= a /\
    a + n <= us /\
    nextLo (top + 1) fr1 <= b /\ links d (hdr + 1) fr1 b /\
    released k d top iFree b (a + n - b) bs fr1 fr2 fg'.
Proof.
  intros (Ht & Hb & S1 & S2 & Hc & m & Hlk) Hlt Ha.
  apply spaced_app in S1 as [S1 S1']. cbn in S1'. destruct S1' as (T1 & T2 & T3 & _).
  assert (tiles top us ((b, s) :: (a, n) :: bs ++ fr1 ++ fr2) fg) as Ht'.
  { eapply tiles_perm; [|apply Ht]. cbn. rewrite <- !(assoc_L (++)). cbn.
    rewrite (assoc_L (++) bs), (assoc_L (++) bs fr1), <- Permutation_middle. apply perm_swap. }
  assert (big ((b, s) :: (a, n) :: bs ++ fr1 ++ fr2)) as Hb'.
  { apply Forall_cons. split; [done|]. apply Forall_cons. split; [by inversion Hb|].
    rewrite !Forall_app. split_and!; [by inversion Hb|by eapply spaced_big|by eapply spaced_big]. }
  assert (4 <= n) by (by inversion Hb).
  assert (b + s <= a) as Hle.
  { destruct (tiles_apart _ _ _ _ _ (a, n) Ht' Hb') as [H'|H']; [by left|done|cbn in H'; lia]. }
  destruct (tiles_range _ _ _ _ (a, n) Ht' Hb') as [_ Hr]; [set_solver|]. cbn in Hr.
  destruct (tiles_merge top us b s a n (bs ++ fr1 ++ fr2) fg Ht' Hb' ltac:(lia)) as (fg' & Hlen & Ht2).
  apply links_app in Hlk as (m' & Hlk1 & Hlk2 & Hm). destruct Hlk2 as (Hlk2 & _). rewrite Hlk2 in Hm. subst m'.
  exists fg'. unfold released. split_and!; try done.
  - apply Forall_cons. split; [cbn; lia|by inversion Hb].
  - by replace (b + (a + n - b) + k) with (a + n + k) by lia.
  - by eexists.
Qed.

(** Where the block is linked to. *)
Definition placed (d : list Z) (top iPtr iStart : Z) (fr1 : list (Z * Z)) : Prop :=
  (iStart = top /\ fr1 = [] /\ iPtr = hdr + 1) \/
  (nextLo (top + 1) fr1 <= iStart /\
   (iPtr = lastAddr (hdr + 1) fr1 \/ (iPtr = iStart /\ links d (hdr + 1) fr1 iStart))).

Lemma coalesceNext_ok d top a n bs fr1 fr2 fg iFree :
  buf sz d -> hdr + 8 <= top -> top <= a -> a + n <= us ->
  released 0 d top iFree a n bs fr1 fr2 fg ->
  ok (coalesceNext us a n (a + n) iFree) (fun r p' => let '(nFrag, iEnd, iSize, iFreeBlk) := r in
    p' = setData d p /\ iEnd = a + iSize /\ iEnd <= us /\ exists fr2' fg',
      released 4 d top iFreeBlk a iSize bs fr1 fr2' fg' /\ 0 <= nFrag <= 3 /\
      Z.of_nat (length fg') + nFrag = Z.of_nat (length fg)) (setData d p).
Proof.
  intros Hd Htop Ha Han Hrel. unfold coalesceNext.
  destruct (negb (iFree =? 0) && (iFree <=? a + n + 3)) eqn:E.
  - apply andb_true_iff in E as [E1%negb_true_iff%Z.eqb_neq E2%Z.leb_le].
    destruct fr2 as [|[f s] fr2]; [by destruct Hrel as (_ & _ & _ & _ & -> & _)|].
    assert (iFree = f) as -> by (by destruct Hrel as (_ & _ & _ & _ & [-> _] & _)).
    destruct (merge_next _ _ _ _ _ _ _ _ _ _ Hrel E2) as (fg' & L1 & L2 & L3 & L4 & Hrel').
    assert (4 <= n /\ 4 <= f + s - a) as [Hn Hs'] by
      (destruct Hrel as (_ & Hb & _), Hrel' as (_ & Hb' & _); inversion Hb; inversion Hb'; done).
    assert (4 <= s) by (destruct Hrel as (_ & _ & _ & S & _); cbn in S; lia).
    aguard; [apply Z.ltb_ge; lia|]. aget2. rewrite L4. aguard; [apply Z.ltb_ge; lia|].
    aget2. apply ok_ret. unfold u8, u16. rewrite !Z.mod_small by lia.
    split_and!; [done|lia|lia|]. exists fr2, fg'. split_and!; [done|lia|lia|lia].
  - apply ok_ret. split_and!; [done|lia|lia|]. exists fr2, fg. split_and!; [|lia..].
    apply andb_false_iff in E. destruct Hrel as (H1 & H2 & H3 & H4 & H5 & H6).
    split_and!; [done..| |done|done]. destruct fr2 as [|[f s] fr2]; [done|].
    assert (4 <= n) by (by inversion H2).
    cbn in H4, H5 |- *. destruct H5 as [-> _]. split_and!; try apply H4.
    destruct E as [E%negb_false_iff%Z.eqb_eq|E%Z.leb_gt]; lia.
Qed.

Lemma coalescePrev_ok d top a n bs fr1 fr2 fg iFree nFrag :
  buf sz d -> hdr + 8 <= top -> top <= a -> a + n <= us -> 0 <= nFrag <= 3 ->
  Forall (fun b => b.1 < a) fr1 ->
  released 4 d top iFree a n bs fr1 fr2 fg ->
  ok (coalescePrev hdr (lastAddr (hdr + 1) fr1) nFrag a n (a + n)) (fun r p' =>
    let '(nFrag', iSize, iStart) := r in
    p' = setData d p /\ a + n = iStart + iSize /\ top <= iStart /\ exists fr1' fg',
      released 4 d top iFree iStart iSize bs fr1' fr2 fg' /\ nFrag <= nFrag' <= 6 /\
      Z.of_nat (length fg') + (nFrag' - nFrag) = Z.of_nat (length fg) /\
      placed d top (lastAddr (hdr + 1) fr1) iStart fr1') (setData d p).
Proof.
  intros Hd Htop Ha Han HnF Hbefore Hrel. unfold coalescePrev.
  assert (4 <= n) as Hn by (destruct Hrel as (_ & Hb & _); by inversion Hb).
  destruct (lastAddr_cases (hdr + 1) fr1) as [[-> Hl]|(fr1' & b & s & -> & Hl)]; rewrite Hl.
  - replace (hdr + 1 <? hdr + 1) with false by (symmetry; apply Z.ltb_irrefl).
    apply ok_ret. split_and!; [done..|]. exists [], fg. split_and!; [done|lia|lia|lia|].
    destruct (decide (a = top)) as [->|]; [by left|right]. cbn. split; [lia|by left].
  - assert (b < a) as Hba by (apply Forall_app in Hbefore as [_ H']; by inversion H').
    destruct Hrel as (H1 & H2 & H3 & H4 & H5 & m & H6). pose proof H3 as H3'.
    apply spaced_app in H3' as [T1 T2]. cbn in T2. destruct T2 as (T2 & T3 & T4 & _).
    assert (top + 1 <= b).
    { destruct (spaced_elem _ _ _ b s H3) as [? _]; [set_solver|done]. }
    assert (get2 d (b + 2) = s) as Hs.
    { apply links_app in H6 as (? & _ & (_ & H6 & _) & _). done. }
    replace (hdr + 1 <? b) with true by (symmetry; apply Z.ltb_lt; lia).
    aget2. rewrite Hs. destruct (Z.leb_spec a (b + s + 3)) as [Hle|Hgt].
    + destruct (merge_prev 4 d top a n bs fr1' b s fr2 iFree fg) as (fg' & L1 & L2 & L3 & L4 & L5 & Hrel');
        [by split_and!; [..|by exists m]|done|lia|].
      aguard; [apply Z.ltb_ge; lia|]. apply ok_ret. unfold u8, u16. rewrite !Z.mod_small by lia.
      split_and!; [done|lia|lia|]. exists fr1', fg'. split_and!; [done|lia|lia|lia|].
      right. split; [done|]. by right.
    + apply ok_ret. split_and!; [done..|]. exists (fr1' ++ [(b, s)]), fg.
      split_and!; [by split_and!; [..|by exists m]|lia|lia|lia|].
      right. rewrite nextLo_last. split; [lia|]. left. by rewrite Hl.
Qed.

(** Bytes of the header that the lists of free blocks do not use. *)
Lemma released_hdr k d d' top v a n bs fr1 fr2 fg :
  hdr + 8 <= top -> upd d d' (hdr + 7) 1 ->
  released k d top v a n bs fr1 fr2 fg -> released k d' top v a n bs fr1 fr2 fg.
Proof.
  intros Htop Hu (H1 & H2 & H3 & H4 & H5 & m & H6).
  split_and!; [done..| |exists m].
  - eapply chain_same; [done|]. intros y (b & s & Hin & Hy).
    destruct (tiles_range _ _ _ _ (b, s) H1) as [Hr _]; [|set_solver|cbn in Hr; apply Hu; lia].
    rewrite !big_app. split_and!; [done|by eapply spaced_big|by eapply spaced_big].
  - eapply links_same; [done|]. intros y [Hy|(b & s & Hin & Hy)]; [apply Hu; lia|].
    destruct (spaced_elem _ _ _ _ _ H3 Hin). apply Hu; lia.
Qed.

Lemma coalesce_ok d lo top a n bs fr fg :
  buf sz d -> space hdr us d lo top ((a, n) :: bs) fr fg ->
  ok (coalesce a n (a + n)) (fun r p' =>
    let '(iPtr, iFreeBlk, iStart, iSize, iEnd) := r in
    exists d' fr1 fr2 fg', p' = setData d' p /\ buf sz d' /\ upd d d' (hdr + 7) 1 /\
      nthZ d' (hdr + 7) = Z.of_nat (length fg') /\ iEnd = iStart + iSize /\
      released 4 d' top iFreeBlk iStart iSize bs fr1 fr2 fg' /\
      placed d' top iPtr iStart fr1) (setData d p).
Proof.
  intros Hd Hsp. destruct (sp_lo _ _ _ _ _ _ _ _ Hsp) as [Hlo Htop].
  destruct (sp_block _ _ _ _ _ _ _ _ (a, n) Hsp) as (Ha & Han & Hn); [by left|]. cbn in Ha, Han, Hn.
  pose proof (sp_spaced _ _ _ _ _ _ _ _ Hsp) as Hs.
  pose proof (spaced_length _ _ _ Hs ltac:(lia)) as Hlen.
  unfold coalesce, usable. afield. afield. apply ok_bind.
  eapply ok_mono; [apply (freeSpaceLoop_ok d _ a (hdr + 1) fr (top + 1));
    [done|apply Hsp|done|lia|lia|lia|lia]|].
  intros [iPtr iFree] p' (-> & fr1 & fr2 & -> & Hbefore & HPtr & Hc & HFree & Hafter). cbn [fst snd] in *.
  destruct (spaced_app (top + 1) fr1 fr2 us) as [[S1 S2] _]; [done|].
  assert (released 0 d top iFree a n bs fr1 fr2 fg) as Hrel.
  { split_and!; [apply Hsp|apply Hsp|done| |done|].
    - destruct fr2 as [|[f s] fr2]; [done|]. cbn in S2, Hafter |- *. split_and!; try apply S2.
      destruct (sp_apart _ _ _ _ _ _ _ _ (a, n) f s Hsp) as [H'|H']; [by left|set_solver|cbn in H'; lia|cbn in H'; lia].
    - pose proof (sp_links _ _ _ _ _ _ _ _ Hsp) as Hl. apply links_app in Hl as (m & Hl & _). by exists m. }
  aguard.
  { apply Z.ltb_ge. destruct fr2 as [|[f s] fr2]; cbn in Hc, S2; [lia|]. destruct Hc as [-> _]. lia. }
  apply ok_bind. eapply ok_mono; [apply (coalesceNext_ok d top a n bs fr1 fr2 fg); [done|lia|lia|lia|done]|].
  intros [[[nFrag iEnd] iSize] v] p' (-> & -> & Hend & fr2' & fg1 & Hrel1 & Hf1 & L1).
  apply ok_bind. subst iPtr. eapply ok_mono; [apply (coalescePrev_ok d top a iSize bs fr1 fr2' fg1); [done|lia|lia|lia|done|done|done]|].
  intros [[nFrag' iSize'] iStart] p' (-> & HE & Hst & fr1' & fg2 & Hrel2 & Hf2 & L2 & Hpl).
  aget1. rewrite (sp_frag _ _ _ _ _ _ _ _ Hsp). aguard; [apply Z.ltb_ge; lia|].
  apply ok_bind. eapply w_put1; [done|lia|lia|]. intros d' Hd' Hv Hu. apply ok_ret.
  exists d', fr1', fr2', fg2. split_and!; [done|done|done| |done|apply (released_hdr 4 d); [lia|done|done]|].
  - pose proof (nthZ_byte d (hdr + 7) (proj2 Hd)) as Hby. unfold is_byte in Hby.
    rewrite (sp_frag _ _ _ _ _ _ _ _ Hsp) in Hby. rewrite Hv. unfold u8. rewrite Z.mod_small; lia.
  - destruct Hpl as [Hpl|[P1 [P2|[P2 P3]]]]; [by left|right; split; [done|by left]|].
    right. split; [done|right; split; [done|]]. eapply links_same; [done|].
    destruct Hrel2 as (_ & _ & S3 & _).
    intros y [Hy|(b & s & Hin & Hy)]; [apply Hu; lia|].
    destruct (spaced_elem _ _ _ _ _ S3 Hin). apply Hu; lia.
Qed.

(** ** The block becomes free *)

Lemma links_insert d fr1 fr2 a n :
  links d (hdr + 1) fr1 a -> get2 d (a + 2) = n -> chain d (get2 d a) fr2 ->
  links d (hdr + 1) (fr1 ++ (a, n) :: fr2) 0.
Proof.
  intros H1 H2 H3. apply links_app. exists a. pose proof (links_last _ _ _ _ H1) as Hl.
  split_and!; [done| |done]. cbn. split_and!; [done..|by apply links_chain].
Qed.

(** What the released block, the blocks and the free blocks have in common. *)
Lemma released_bounds k d top v a n bs fr1 fr2 fg :
  released k d top v a n bs fr1 fr2 fg ->
  top <= a /\ a + n <= us /\ 4 <= n /\
  (forall b, b ∈ bs -> top <= b.1 /\ b.1 + b.2 <= us /\ (b.1 + b.2 <= a \/ a + n <= b.1)) /\
  (forall b s, (b, s) ∈ fr1 -> top + 1 <= b /\ b + 4 <= us /\
     forall b', b' ∈ bs -> b'.1 + b'.2 <= b \/ b + 4 <= b'.1).
Proof.
  intros (H1 & H2 & H3 & H4 & H5 & H6).
  assert (big (((a, n) :: bs) ++ fr1 ++ fr2)) as Hb.
  { rewrite !big_app. split_and!; [done|by eapply spaced_big|by eapply spaced_big]. }
  assert (4 <= n) by (by inversion H2).
  destruct (tiles_range _ _ _ _ (a, n) H1 Hb) as [Ha1 Ha2]; [by left|]. cbn in Ha1, Ha2.
  split_and!; [done..| |].
  - intros b Hin. destruct (tiles_range _ _ _ _ b H1 Hb); [set_solver|]. split_and!; [done..|].
    destruct (tiles_apart _ _ _ _ _ b H1 Hb) as [H'|H']; [set_solver|cbn in H'; lia..].
  - intros b s Hin. destruct (spaced_elem _ _ _ _ _ H3 Hin) as (E1 & E2 & E3).
    split_and!; [lia..|]. intros b' Hin'.
    destruct (tiles_apart2 _ _ _ _ _ b' (b, s) H1 Hb) as [H'|H']; [set_solver|set_solver|cbn in H'; lia..].
Qed.

(** The block is at the beginning of the cell content area. *)
Lemma release_top d lo top v n bs fr2 fg :
  buf sz d -> hdr + 8 <= lo <= top -> 
  nthZ d (hdr + 7) = Z.of_nat (length fg) ->
  released 4 d top v top n bs [] fr2 fg ->
  ok (put2byte (hdr + 1) v;; put2byte (hdr + 5) (top + n)) (fun _ p' =>
    exists d', p' = setData d' p /\ buf sz d' /\ space hdr us d' lo (top + n) bs fr2 fg /\
      kept hdr us lo bs d d') (setData d p).
Proof.
  intros Hd Hlo Hfg Hrel. pose proof (released_bounds _ _ _ _ _ _ _ _ _ _ Hrel) as (B1 & B2 & B3 & B4 & _).
  destruct Hrel as (H1 & H2 & H3 & H4 & H5 & _). cbn [app] in H1.
  assert (0 <= v < 65536) as Hv.
  { destruct fr2 as [|[f s] fr2]; cbn in H4, H5; [lia|]. destruct H5 as [-> _]. lia. }
  apply ok_bind. eapply w_put2; [done|lia|lia|]. intros d1 Hd1 E1 U1.
  eapply w_put2; [done|lia|lia|]. intros d2 Hd2 E2 U2. exists d2.
  assert (forall y, hdr + 8 <= y -> nthZ d2 y = nthZ d y) as Hkeep by (intros; by keep).
  split_and!; [done|done| |].
  - split; [done| | |eapply spaced_mono; [exact H4|lia]|by inversion H2| |lia].
    + by keep.
    + apply links_chain. keep. rewrite E1. unfold u16. rewrite Z.mod_small by lia.
      eapply chain_same; [done|]. intros y (b & s & Hin & Hy).
      destruct (spaced_elem _ _ _ _ _ H4 Hin). apply Hkeep. lia.
    + apply tiles_top; [lia|lia|done].
  - eapply kept_then; eapply kept_hdr; try done; try lia; intros b Hin; destruct (B4 b Hin); lia.
Qed.

(** The block is linked into the list. *)
Lemma release_link d lo top v a n iPtr bs fr1 fr2 fg :
  buf sz d -> hdr + 8 <= lo <= top ->
  get2 d (hdr + 5) = u16 top -> nthZ d (hdr + 7) = Z.of_nat (length fg) ->
  released 4 d top v a n bs fr1 fr2 fg -> nextLo (top + 1) fr1 <= a ->
  iPtr = lastAddr (hdr + 1) fr1 \/ (iPtr = a /\ links d (hdr + 1) fr1 a) ->
  ok (put2byte iPtr a;; put2byte a v;; put2byte (a + 2) n) (fun _ p' =>
    exists d', p' = setData d' p /\ buf sz d' /\
      space hdr us d' lo top bs (fr1 ++ (a, n) :: fr2) fg /\ kept hdr us lo bs d d') (setData d p).
Proof.
  intros Hd Hlo Htop Hfg Hrel Hnext Hptr.
  pose proof (released_bounds _ _ _ _ _ _ _ _ _ _ Hrel) as (B1 & B2 & B3 & B4 & B5).
  destruct Hrel as (H1 & H2 & H3 & H4 & H5 & m & H6).
  pose proof (nextLo_ge _ _ _ H3) as Hge.
  assert (0 <= v < 65536) as Hv.
  { destruct fr2 as [|[f s] fr2]; cbn in H4, H5; [lia|]. destruct H5 as [-> _]. lia. }
  assert (forall x, 0 <= x < 65536 -> u16 x = x) as Hw by (intros; apply Z.mod_small; lia).
  assert (forall b s, (b, s) ∈ fr1 -> b + 4 <= a) as Hleft.
  { intros b s Hin. pose proof (spaced_before _ _ _ _ _ H3 Hin). destruct (spaced_elem _ _ _ _ _ H3 Hin). lia. }
  pose proof (lastAddr_ge (hdr + 1) _ _ _ H3 ltac:(lia)) as Hlge.
  assert (lastAddr (hdr + 1) fr1 = hdr + 1 \/ exists s, (lastAddr (hdr + 1) fr1, s) ∈ fr1) as Hlast.
  { destruct (lastAddr_cases (hdr + 1) fr1) as [[_ ->]|(fr1' & b & s & -> & ->)]; [by left|right; exists s; set_solver]. }
  assert (iPtr = a \/ iPtr = hdr + 1 \/ (top <= iPtr /\ iPtr + 4 <= a /\
            forall b, b ∈ bs -> b.1 + b.2 <= iPtr \/ iPtr + 2 <= b.1)) as Hwhere.
  { destruct Hptr as [->|[-> _]]; [right|by left]. destruct Hlast as [->|[s Hin]]; [by left|right].
    destruct (B5 _ _ Hin) as (? & ? & Hap). specialize (Hleft _ _ Hin). split_and!; [lia|lia|].
    intros b Hb. specialize (Hap b Hb). lia. }
  apply ok_bind. eapply w_put2; [done|lia|lia|]. intros d1 Hd1 E1 U1.
  apply ok_bind. eapply w_put2; [done|lia|lia|]. intros d2 Hd2 E2 U2.
  eapply w_put2; [done|lia|lia|]. intros d3 Hd3 E3 U3. exists d3.
  split_and!; [done|done| |].
  - split; [by keep|by keep| |apply spaced_app; cbn; split_and!; [done..|lia|done]|by inversion H2| |lia].
    + apply links_insert; [|rewrite E3; apply Hw; lia|].
      * destruct Hptr as [Hl|[-> H6']].
        -- assert (iPtr + 4 <= a) by (destruct Hlast as [?|[s Hin]]; [lia|specialize (Hleft _ _ Hin); lia]).
           eapply (links_set d d3); [done|done|lia| |]; rewrite <- Hl; [|keep; rewrite E1; apply Hw; lia].
           intros y Hy Hny. assert (0 <= y < a); [|by keep].
           destruct Hy as [Hy|(b & s & Hin & Hy)]; [lia|].
           specialize (Hleft _ _ Hin). destruct (B5 _ _ Hin). lia.
        -- eapply links_same; [done|]. intros y Hy. assert (0 <= y < a); [|by keep].
           destruct Hy as [Hy|(b & s & Hin & Hy)]; [lia|].
           specialize (Hleft _ _ Hin). destruct (B5 _ _ Hin). lia.
      * keep. rewrite E2, Hw by lia. eapply chain_same; [done|]. intros y (b & s & Hin & Hy).
        destruct (spaced_elem _ _ _ _ _ H4 Hin). by keep.
    + eapply tiles_perm; [|apply H1]. cbn. by rewrite !(assoc_L (++)), <- Permutation_middle.
  - assert (forall b, b ∈ bs -> lo <= b.1) as Hlob by (intros b Hin; destruct (B4 b Hin); lia).
    assert (forall x, a <= x -> x + 2 <= a + 4 -> forall b, b ∈ bs -> b.1 + b.2 <= x \/ x + 2 <= b.1) as Hapart
      by (intros x X1 X2 b Hin; destruct (B4 b Hin) as (_ & _ & ?); lia).
    eapply kept_then; [|eapply kept_then].
    + destruct Hwhere as [->|[->|(W1 & W2 & W3)]].
      * eapply kept_area; [done|lia|lia|apply Hapart; lia].
      * eapply kept_hdr; [done|lia|done|lia].
      * eapply kept_area; [done|lia|lia|done].
    + eapply kept_area; [done|lia|lia|apply Hapart; lia].
    + eapply kept_area; [done|lia|lia|apply Hapart; lia].
Qed.

(** ** The whole function *)

(** The block that is released, when no other block is free. *)
Lemma released_alone d lo top a n bs fr fg :
  space hdr us d lo top ((a, n) :: bs) fr fg -> nthZ d (hdr + 2) = 0 -> nthZ d (hdr + 1) = 0 ->
  released 4 d top 0 a n bs [] [] fg /\ placed d top (hdr + 1) a [].
Proof.
  intros Hsp Z2 Z1. destruct (sp_lo _ _ _ _ _ _ _ _ Hsp).
  pose proof (sp_links _ _ _ _ _ _ _ _ Hsp) as Hl.
  assert (get2 d (hdr + 1) = 0) as Hz.
  { unfold get2. replace (hdr + 1 + 1) with (hdr + 2) by lia. by rewrite Z1, Z2. }
  destruct fr as [|[f s] fr].
  - split; [split_and!; [apply Hsp|apply Hsp|done..|by eexists]|].
    destruct (sp_block _ _ _ _ _ _ _ _ (a, n) Hsp) as (? & _); [by left|]. cbn in *.
    destruct (decide (a = top)) as [->|]; [by left|right]. cbn. split; [lia|by left].
  - destruct (sp_free _ _ _ _ _ _ _ _ f s Hsp) as (? & _); [by left|].
    destruct Hl as (Hl & _). lia.
Qed.

(** Overwriting the block changes neither the lists nor the blocks. *)
Lemma released_wipe k d d' top v a n bs fr1 fr2 fg iPtr :
  0 <= k -> hdr + 8 <= top -> upd d d' a n -> released k d top v a n bs fr1 fr2 fg ->
  placed d top iPtr a fr1 ->
  released k d' top v a n bs fr1 fr2 fg /\ placed d' top iPtr a fr1.
Proof.
  intros Hk Htop Hu Hrel Hpl.
  pose proof (released_bounds _ _ _ _ _ _ _ _ _ _ Hrel) as (B1 & B2 & B3 & B4 & B5).
  destruct Hrel as (H1 & H2 & H3 & H4 & H5 & m & H6).
  assert (forall b s, (b, s) ∈ fr1 -> b + 4 <= a) as Hleft.
  { intros b s Hin. destruct Hpl as [(-> & -> & _)|[Hn _]]; [set_solver|].
    pose proof (spaced_before _ _ _ _ _ H3 Hin). destruct (spaced_elem _ _ _ _ _ H3 Hin). lia. }
  assert (forall x, links d (hdr + 1) fr1 x -> links d' (hdr + 1) fr1 x) as Hl.
  { intros x Hx. eapply links_same; [done|]. intros y [Hy|(b & s & Hin & Hy)]; [apply Hu; lia|].
    specialize (Hleft _ _ Hin). destruct (B5 _ _ Hin). apply Hu; lia. }
  split.
  - split_and!; [done..| |exists m; by apply Hl].
    eapply chain_same; [done|]. intros y (b & s & Hin & Hy).
    destruct (spaced_elem _ _ _ _ _ H4 Hin). apply Hu; lia.
  - destruct Hpl as [?|[? [?|[? ?]]]]; [by left|right; split; [done|by left]|].
    right. split; [done|right]. split; [done|by apply Hl].
Qed.

Lemma freeSpace_ok d lo top a n bs fr fg :
  buf sz d -> space hdr us d lo top ((a, n) :: bs) fr fg ->
  ok (freeSpace a n) (fun _ p' => exists d' top' fr' fg',
    p' = setFree (nFree p + n) (setData d' p) /\ buf sz d' /\
    space hdr us d' lo top' bs fr' fg' /\ kept hdr us lo bs d d') (setData d p).
Proof.
  intros Hd Hsp. destruct (sp_lo _ _ _ _ _ _ _ _ Hsp) as [Hlo Htop].
  unfold freeSpace. afield. aget1. aget1. apply ok_bind.
  eapply (ok_mono _ (fun r p' => let '(iPtr, iFreeBlk, iStart, iSize, iEnd) := r in
    exists d' fr1 fr2 fg', p' = setData d' p /\ buf sz d' /\ upd d d' (hdr + 7) 1 /\
      nthZ d' (hdr + 7) = Z.of_nat (length fg') /\ iEnd = iStart + iSize /\
      released 4 d' top iFreeBlk iStart iSize bs fr1 fr2 fg' /\ placed d' top iPtr iStart fr1)).
  { destruct ((nthZ d (hdr + 2) =? 0) && (nthZ d (hdr + 1) =? 0)) eqn:E; [|by eapply coalesce_ok].
    apply andb_true_iff in E as [E2%Z.eqb_eq E1%Z.eqb_eq].
    destruct (released_alone _ _ _ _ _ _ _ _ Hsp E2 E1).
    apply ok_ret. exists d, [], [], fg. split_and!; [done..|apply Hsp|done|done|done]. }
  intros [[[[iPtr v] iStart] iSize] iEnd] p' (d1 & fr1 & fr2 & fg1 & -> & Hd1 & U1 & F1 & -> & Hrel & Hpl).
  pose proof (released_bounds _ _ _ _ _ _ _ _ _ _ Hrel) as (B1 & B2 & B3 & B4 & B5).
  aget2. keep. rewrite (sp_top _ _ _ _ _ _ _ _ Hsp). unfold u16 at 1 2. rewrite Z.mod_small by lia.
  afield. apply ok_bind.
  eapply (ok_mono _ (fun _ p' => exists d2, p' = setData d2 p /\ buf sz d2 /\ upd d1 d2 iStart iSize)).
  { destruct (negb _); [|by apply ok_ret; exists d1].
    eapply w_set; [done|lia|lia|lia|unfold is_byte; lia|]. intros d2 ???. by exists d2. }
  intros _ p' (d2 & -> & Hd2 & U2).
  destruct (released_wipe 4 d1 d2 top v iStart iSize bs fr1 fr2 fg1 iPtr) as [Hrel2 Hpl2];
    [lia|lia|done|done|done|].
  assert (forall b, b ∈ bs -> lo <= b.1) as Hlob by (intros b Hin; destruct (B4 b Hin); lia).
  assert (kept hdr us lo bs d d2) as Hk.
  { eapply kept_then; [eapply kept_hdr; [apply U1|lia|done|lia]|].
    eapply kept_area; [apply U2|lia|lia|]. intros b Hin. by destruct (B4 b Hin) as (_ & _ & ?). }
  apply ok_bind. eapply (ok_mono _ (fun _ p' => exists d' top' fr' fg', p' = setData d' p /\ buf sz d' /\
    space hdr us d' lo top' bs fr' fg' /\ kept hdr us lo bs d2 d')).
  - destruct (Z.leb_spec iStart top) as [Hle|Hgt].
    + assert (iStart = top) as -> by lia.
      assert (fr1 = [] /\ iPtr = hdr + 1) as [-> ->].
      { destruct Hpl2 as [?|[Hn _]]; [tauto|]. destruct Hrel2 as (_ & _ & S & _).
        pose proof (nextLo_ge _ _ _ S). lia. }
      aguard; [apply Z.ltb_irrefl|]. aguard; [by rewrite Z.eqb_refl|].
      eapply ok_mono; [apply (release_top d2 lo top v iSize bs fr2 fg1); [done|lia|by keep|done]|].
      intros _ p' (d' & -> & ? & ? & ?). by exists d', (top + iSize), fr2, fg1.
    + destruct Hpl2 as [[? _]|[Hn Hp]]; [lia|].
      eapply ok_mono; [apply (release_link d2 lo top v iStart iSize iPtr bs fr1 fr2 fg1);
        [done|lia|keep; apply Hsp|by keep|done|done|done]|].
      intros _ p' (d' & -> & ? & ? & ?). by exists d', top, (fr1 ++ (iStart, iSize) :: fr2), fg1.
  - intros _ p' (d' & top' & fr' & fg' & -> & ? & ? & ?). apply ok_modify.
    exists d', top', fr', fg'. split_and!; [done..|by eapply kept_then].
Qed.
End free.
