(* ===== verification/BtAlloc.v ===== *)
(** * Search of free space on a page

    [pageFindSlot] takes space from the first free block that is large
    enough: the whole block, when at most three bytes are left over, or its
    end.  Otherwise it changes nothing. *)

From stdpp Require Import base list numbers option sets.
From S2P Require Import Prelude Util Varint Btree BtVarint BtCell BtMem BtPage BtTile BtSpace.
#[local] Open Scope Z_scope.

Section alloc.
Context (p : MemPage) (sz : Z).
Abbreviation hdr := (hdrOffset p).
Abbreviation us := (usableSize (pBt p)).
Context (Hhdr : 0 <= hdr) (Hus : us <= sz) (Husz : us <= 65536) (Hlow : hdr + 12 <= us).

(** The space is allocated. *)
Definition slotted (d : list Z) (lo top : Z) (bs : list (Z * Z)) (n a : Z) (p' : MemPage) : Prop :=
  exists d' fr' fg', p' = setData d' p /\ buf sz d' /\
    space hdr us d' lo top ((a, n) :: bs) fr' fg' /\ kept hdr us lo bs d d'.

(** Where the pointer to a free block is. *)
Lemma pointer_place d lo top bs fr1 fr2 fg :
  space hdr us d lo top bs (fr1 ++ fr2) fg ->
  let l := lastAddr (hdr + 1) fr1 in
  l = hdr + 1 \/
  top + 1 <= l /\ l + 4 <= us /\ nextLo (top + 1) fr1 >= l + 8 /\
    forall b, b ∈ bs -> b.1 + b.2 <= l \/ l + 4 <= b.1.
Proof.
  intros Hsp l. subst l.
  destruct (lastAddr_cases (hdr + 1) fr1) as [[_ ->]|(fr1' & b & s & -> & ->)]; [by left|right].
  destruct (sp_free _ _ _ _ _ _ _ _ b s Hsp) as (? & ? & ?); [set_solver|].
  split_and!; [lia|lia|rewrite nextLo_last; lia|].
  intros b' Hin. destruct (sp_apart _ _ _ _ _ _ _ _ b' b s Hsp); [done|set_solver|lia..].
Qed.

(** A block that fits exactly, up to fragments. *)
Lemma slot_take d lo top bs fr1 f n x fr2 fg :
  buf sz d -> space hdr us d lo top bs (fr1 ++ (f, n + x) :: fr2) fg ->
  4 <= n -> 0 <= x < 4 -> Z.of_nat (length fg) <= 57 ->
  ok (memmove (lastAddr (hdr + 1) fr1) f 2;; frag ← getbyte (hdr + 7);
      putbyte (hdr + 7) (frag + u8 x);; mret (Some f))
    (fun r p' => r = Some f /\ slotted d lo top bs n f p') (setData d p).
Proof.
  intros Hd Hsp Hn Hx Hfg. destruct (sp_lo _ _ _ _ _ _ _ _ Hsp) as [Hlo Htop].
  pose proof (pointer_place _ _ _ _ _ _ _ Hsp) as Hl. cbv zeta in Hl.
  pose proof (sp_spaced _ _ _ _ _ _ _ _ Hsp) as Hs. apply spaced_app in Hs as [S1 S2].
  destruct S2 as (S2 & S3 & S4 & S5). pose proof (nextLo_ge _ _ _ S1) as Hge.
  pose proof (sp_links _ _ _ _ _ _ _ _ Hsp) as Hlk. apply links_app in Hlk as (m & L1 & (L2 & L3 & L4) & _).
  set (l := lastAddr (hdr + 1) fr1) in *.
  assert (forall b, b ∈ bs -> top <= b.1) as Htb by (intros b Hin; by destruct (sp_block _ _ _ _ _ _ _ _ b Hsp Hin)).
  apply ok_bind. eapply w_move; [done|lia..|]. intros d1 Hd1 E1 U1.
  aget1. keep. rewrite (sp_frag _ _ _ _ _ _ _ _ Hsp).
  apply ok_bind. eapply w_put1; [done|lia..|]. intros d2 Hd2 E2 U2. apply ok_ret. split; [done|].
  assert (get2 d2 l = get2 d f) as El.
  { keep. unfold get2. pose proof (E1 0 ltac:(lia)) as E10. pose proof (E1 1 ltac:(lia)) as E11.
    rewrite !Z.add_0_r in E10. by rewrite E10, E11. }
  exists d2, (fr1 ++ fr2), (seqZ (f + n) x ++ fg). split_and!; [done|done| |].
  - split; [| | | | | |done].
    + keep. apply Hsp.
    + rewrite E2, length_app, length_seqZ. unfold u8. rewrite (Z.mod_small x), Z.mod_small by lia. lia.
    + apply links_app. exists (get2 d f). split_and!; [| |done].
      * eapply (links_set d d2); [done|done|lia| |done]. intros y Hy Hny.
        assert (0 <= y /\ y <> hdr + 7) as [??]; [|by keep].
        destruct Hy as [Hy|(b & s & Hin & Hy)]; [lia|]. destruct (spaced_elem _ _ _ _ _ S1 Hin). lia.
      * apply links_chain. fold l. rewrite El. eapply chain_same; [by apply links_chain|].
        intros y (b & s & Hin & Hy). destruct (spaced_elem _ _ _ _ _ S5 Hin).
        assert (y < l \/ l + 2 <= y) by lia. by keep.
    + apply spaced_app. split; [done|]. eapply spaced_mono; [exact S5|lia].
    + apply Forall_cons. split; [done|apply Hsp].
    + pose proof (sp_tile _ _ _ _ _ _ _ _ Hsp) as Ht.
      apply (tiles_perm _ _ _ ((f, n + x) :: bs ++ fr1 ++ fr2)) in Ht;
        [|by rewrite !(assoc_L (++)), <- Permutation_middle].
      apply tiles_split in Ht; [|lia..]. apply (proj1 (tiles_frag _ _ (f + n) x _ _)).
      eapply tiles_perm; [apply perm_swap|done].
  - eapply kept_then; [|eapply kept_hdr; [apply U2|lia|intros b Hin; specialize (Htb b Hin); lia|lia]].
    destruct Hl as [Hl|(H1 & H2 & H3 & H4)].
    + rewrite Hl in U1. eapply kept_hdr; [apply U1|lia|intros b Hin; specialize (Htb b Hin); lia|lia].
    + eapply kept_area; [apply U1|lia|lia|]. intros b Hin. specialize (H4 b Hin). lia.
Qed.

(** The end of a larger block. *)
Lemma slot_split d lo top bs fr1 f n x fr2 fg :
  buf sz d -> space hdr us d lo top bs (fr1 ++ (f, n + x) :: fr2) fg -> 4 <= n -> 4 <= x ->
  ok (put2byte (f + 2) x;; mret (Some (f + x)))
    (fun r p' => r = Some (f + x) /\ slotted d lo top bs n (f + x) p') (setData d p).
Proof.
  intros Hd Hsp Hn Hx. destruct (sp_lo _ _ _ _ _ _ _ _ Hsp) as [Hlo Htop].
  pose proof (sp_spaced _ _ _ _ _ _ _ _ Hsp) as Hs. apply spaced_app in Hs as [S1 S2].
  destruct S2 as (S2 & S3 & S4 & S5). pose proof (nextLo_ge _ _ _ S1) as Hge.
  pose proof (sp_links _ _ _ _ _ _ _ _ Hsp) as Hlk. apply links_app in Hlk as (m & L1 & (L2 & L3 & L4) & Hm).
  rewrite L2 in Hm. subst m.
  apply ok_bind. eapply w_put2; [done|lia..|]. intros d1 Hd1 E1 U1. apply ok_ret. split; [done|].
  exists d1, (fr1 ++ (f, x) :: fr2), fg. split_and!; [done|done| |].
  - split; [keep; apply Hsp|keep; apply Hsp| | | | |done].
    + apply links_app. exists f.
      assert (links d1 (hdr + 1) fr1 f) as L1'.
      { eapply links_same; [done|]. intros y [Hy|(b & s & Hin & Hy)]; [by keep|].
        pose proof (spaced_before _ _ _ _ _ S1 Hin). destruct (spaced_elem _ _ _ _ _ S1 Hin). by keep. }
      pose proof (links_last _ _ _ _ L1') as Hl1.
      split_and!; [done| |done]. cbn. split_and!; [done|rewrite E1; unfold u16; rewrite Z.mod_small; lia|].
      apply links_chain. keep. eapply chain_same; [by apply links_chain|].
      intros y (b & s & Hin & Hy). destruct (spaced_elem _ _ _ _ _ S5 Hin). by keep.
    + apply spaced_app. cbn. split_and!; [done|done|lia|lia|]. eapply spaced_mono; [exact S5|lia].
    + apply Forall_cons. split; [done|apply Hsp].
    + pose proof (sp_tile _ _ _ _ _ _ _ _ Hsp) as Ht.
      apply (tiles_perm _ _ _ ((f, x + n) :: bs ++ fr1 ++ fr2)) in Ht;
        [|by rewrite !(assoc_L (++)), <- Permutation_middle, (Z.add_comm n)].
      apply tiles_split in Ht; [|lia..]. eapply tiles_perm; [|exact Ht].
      cbn. rewrite !(assoc_L (++)), <- Permutation_middle. apply perm_swap.
  - eapply kept_area; [apply U1|lia|lia|]. intros b Hin.
    destruct (sp_apart _ _ _ _ _ _ _ _ b f (n + x) Hsp Hin); [set_solver|lia..].
Qed.

Lemma findSlotLoop_ok fuel d lo top bs fr1 f s fr2 fg n :
  buf sz d -> space hdr us d lo top bs (fr1 ++ (f, s) :: fr2) fg -> 4 <= n ->
  (length fr2 < fuel)%nat ->
  ok (findSlotLoop fuel n (lastAddr (hdr + 1) fr1) f (us - n)) (fun r p' =>
    match r with None => p' = setData d p | Some a => slotted d lo top bs n a p' end) (setData d p).
Proof.
  intros Hd. revert fuel fr1 f s. induction fr2 as [|[g t] fr2 IH];
    intros [|fuel] fr1 f s Hsp Hn Hfuel; try (cbn in Hfuel; lia); cbn [findSlotLoop]; afield;
    destruct (sp_lo _ _ _ _ _ _ _ _ Hsp) as [Hlo Htop];
    destruct (sp_free _ _ _ _ _ _ _ _ f s Hsp) as (F1 & F2 & F3); [set_solver| |set_solver|];
    pose proof (sp_links _ _ _ _ _ _ _ _ Hsp) as Hlk;
    apply links_app in Hlk as (m & L1 & (L2 & L3 & L4) & _);
    (destruct (Z.leb_spec f (us - n)) as [Hle|Hgt];
      [|aguard; [apply Z.ltb_ge; lia|]; by apply ok_ret]);
    aget2; rewrite L3; cbv zeta;
    (destruct (Z.leb_spec 0 (s - n)) as [Hfit|Hsmall];
      [replace s with (n + (s - n)) in Hsp by lia;
       destruct (Z.ltb_spec (s - n) 4) as [Hx|Hx];
       [aget1; rewrite (sp_frag _ _ _ _ _ _ _ _ Hsp);
        destruct (Z.ltb_spec 57 (Z.of_nat (length fg))) as [Hf|Hf]; [by apply ok_ret|];
        eapply ok_mono; [eapply slot_take; [done|exact Hsp|lia..]|]; by intros r p' [-> H]
       |aguard; [apply Z.ltb_ge; lia|];
        eapply ok_mono; [eapply slot_split; [done|exact Hsp|lia..]|]; by intros r p' [-> H]]
      |]); aget2.
  - rewrite (L4 : get2 d f = 0). replace (0 <=? f) with true by (symmetry; apply Z.leb_le; lia).
    aguard; [done|]. by apply ok_ret.
  - destruct L4 as (L4 & _). rewrite L4.
    assert (f < g) as Hfg.
    { pose proof (sp_spaced _ _ _ _ _ _ _ _ Hsp) as S. apply spaced_app in S as [_ S]. cbn in S. lia. }
    replace (g <=? f) with false by (symmetry; apply Z.leb_gt; lia).
    replace f with (lastAddr (hdr + 1) (fr1 ++ [(f, s)])) at 1 by apply lastAddr_last.
    apply (IH fuel (fr1 ++ [(f, s)]) g t); [|done|cbn in Hfuel; lia].
    by rewrite <- (assoc_L (++)).
Qed.

Lemma pageFindSlot_ok d lo top bs fr fg n :
  buf sz d -> space hdr us d lo top bs fr fg -> fr <> [] -> 4 <= n ->
  ok (pageFindSlot n) (fun r p' =>
    match r with None => p' = setData d p | Some a => slotted d lo top bs n a p' end) (setData d p).
Proof.
  intros Hd Hsp Hne Hn. destruct (sp_lo _ _ _ _ _ _ _ _ Hsp) as [Hlo Htop].
  pose proof (spaced_length _ _ _ (sp_spaced _ _ _ _ _ _ _ _ Hsp) ltac:(lia)) as Hlen.
  destruct fr as [|[f s] fr]; [done|]. unfold pageFindSlot, usable. afield. aget2. afield.
  destruct (sp_links _ _ _ _ _ _ _ _ Hsp) as (Hf & _). rewrite Hf.
  apply (findSlotLoop_ok _ d lo top bs [] f s fr fg n); [done|done|done|]. cbn in Hlen. lia.
Qed.

End alloc.
