(* ===== verification/BtDefrag.v ===== *)
(** * Defragmentation of a page

    Both ways of [defragmentPage], the shift of the content between one or
    two free blocks and the reconstruction of the content area, keep the
    cells in their order and leave no free block. *)

From stdpp Require Import base list numbers option sets.
From S2P Require Import Prelude Util Varint Btree BtVarint BtCell BtMem BtPage BtTile BtSpace.
#[local] Open Scope Z_scope.

(** ** Cells on a page *)

(** The bytes [c] are at the address [a]. *)
Definition holds (d : list Z) (a : Z) (c : list Z) : Prop :=
  forall i, 0 <= i < Z.of_nat (length c) -> nthZ d (a + i) = nthZ c i.

(** A cell is its address and its content. *)
Definition block (k : Z * list Z) : Z * Z := (k.1, Z.of_nat (length k.2)).
Definition blocks (ks : list (Z * list Z)) : list (Z * Z) := map block ks.

(** The size function gives the length of the content, whatever follows. *)
Definition cell_ok (p : MemPage) (c : list Z) : Prop :=
  4 <= Z.of_nat (length c) /\ Forall is_byte c /\
  forall rest, Forall is_byte rest -> xCellSize p (c ++ rest) = Z.of_nat (length c).

(** The pointers at [off] and the contents of the cells. *)
Definition pointers (d : list Z) (off : Z) (ks : list (Z * list Z)) : Prop :=
  forall i k, ks !! i = Some k -> get2 d (off + 2 * Z.of_nat i) = k.1.

Definition contents (d : list Z) (ks : list (Z * list Z)) : Prop :=
  forall k, k ∈ ks -> holds d k.1 k.2.

Lemma holds_same d d' a c :
  holds d a c -> (forall x, a <= x < a + Z.of_nat (length c) -> nthZ d' x = nthZ d x) -> holds d' a c.
Proof. intros H Hs i Hi. rewrite Hs by lia. by apply H. Qed.

Lemma holds_split d a c :
  holds d a c -> 0 <= a -> a + Z.of_nat (length c) <= Z.of_nat (length d) ->
  drop (Z.to_nat a) d = c ++ drop (Z.to_nat a + length c) d.
Proof.
  intros H Ha Hl. rewrite <- (take_drop (length c) (drop (Z.to_nat a) d)) at 1.
  rewrite drop_drop. f_equal. apply nthZ_ext; [rewrite length_take, length_drop; lia|].
  intros x Hx. rewrite length_take, length_drop in Hx. rewrite <- H by lia.
  change (take (length c) (drop (Z.to_nat a) d)) with (take (length c) (drop (Z.to_nat a) d)).
  unfold nthZ. rewrite lookup_take_lt, lookup_drop by lia. do 2 f_equal. lia.
Qed.

Lemma holds_slice d a c :
  holds d a c -> 0 <= a -> a + Z.of_nat (length c) <= Z.of_nat (length d) ->
  slice d a (Z.of_nat (length c)) = c.
Proof.
  intros H Ha Hl. unfold slice. rewrite (holds_split d a c) by done. by rewrite Nat2Z.id, take_app_length.
Qed.

Lemma pointers_cons d off k ks :
  pointers d off (k :: ks) <-> get2 d off = k.1 /\ pointers d (off + 2) ks.
Proof.
  split.
  - intros H. split.
    + specialize (H 0%nat k eq_refl). by rewrite Z.add_0_r in H.
    + intros i k' Hi. specialize (H (S i) k' Hi). rewrite <- H. f_equal. lia.
  - intros [H1 H2] [|i] k' Hi.
    + injection Hi as <-. by rewrite Z.add_0_r.
    + rewrite <- (H2 i k' Hi). f_equal. lia.
Qed.

Lemma pointers_same d d' off ks :
  pointers d off ks ->
  (forall x, off <= x < off + 2 * Z.of_nat (length ks) -> nthZ d' x = nthZ d x) -> pointers d' off ks.
Proof.
  intros H Hs i k Hi. rewrite <- (H i k Hi). apply lookup_lt_Some in Hi.
  apply get2_same; apply Hs; lia.
Qed.

Lemma total_blocks_snd ks ks' : ks'.*2 = ks.*2 -> total (blocks ks') = total (blocks ks).
Proof.
  revert ks'. induction ks as [|k ks IH]; intros [|k' ks'] H; cbn in *; try done.
  injection H as H1 H2. rewrite H1. f_equal. by apply IH.
Qed.

Lemma cells_ok_snd p (ks : list (Z * list Z)) :
  Forall (fun k => cell_ok p k.2) ks <-> Forall (cell_ok p) ks.*2.
Proof. by rewrite Forall_fmap. Qed.

Lemma blocks_big p ks : Forall (fun k => cell_ok p k.2) ks -> big (blocks ks).
Proof. induction 1 as [|k ks [Hk _] _ IH]; [constructor|]. by constructor. Qed.

Lemma elem_block k ks : k ∈ ks -> block k ∈ blocks ks.
Proof. intros H. unfold blocks. rewrite list_elem_of_fmap. by exists k. Qed.

(** ** The shift of the content *)

Section shift.
Context (f s f2 s2 : Z).

(** Where a byte goes: over both free blocks, or over the second. *)
Definition shifted (a : Z) : Z :=
  if a <? f then a + (s + s2) else if a <? f2 then a + s2 else a.

Definition clear (b : Z * Z) : Prop :=
  (b.1 + b.2 <= f \/ f + s <= b.1) /\ (b.1 + b.2 <= f2 \/ f2 + s2 <= b.1).

Lemma shifted_add a i n :
  0 <= s -> 0 <= s2 -> clear (a, n) -> 0 <= i < n -> shifted (a + i) = shifted a + i.
Proof.
  intros Hs Hs2 [H1 H2] Hi. cbn in *. unfold shifted.
  destruct (Z.ltb_spec (a + i) f), (Z.ltb_spec a f); try lia;
    destruct (Z.ltb_spec (a + i) f2), (Z.ltb_spec a f2); lia.
Qed.

Lemma shifted_seqZ a n : 
  0 <= s -> 0 <= s2 -> clear (a, n) -> 0 <= n -> shifted <$> seqZ a n = seqZ (shifted a) n.
Proof.
  intros Hs Hs2 Hc Hn. apply list_eq. intros i. rewrite list_lookup_fmap.
  destruct (decide (Z.of_nat i < n)).
  - rewrite !lookup_seqZ_lt by lia. cbn. f_equal. apply (shifted_add a _ n); [done..|lia].
  - by rewrite !lookup_seqZ_ge by lia.
Qed.

Lemma shifted_blocks bs :
  0 <= s -> 0 <= s2 -> Forall (fun b => clear b /\ 0 <= b.2) bs ->
  shifted <$> (bs ≫= area) = map (fun b => (shifted b.1, b.2)) bs ≫= area.
Proof.
  intros Hs Hs2. induction 1 as [|[a n] bs [Hc Hn] _ IH]; [done|].
  cbn. rewrite fmap_app. f_equal; [|apply IH]. unfold area. cbn. by apply shifted_seqZ.
Qed.

Lemma tiles_shift top hi bs fg :
  tiles top hi ((f, s) :: (f2, s2) :: bs) fg -> Forall (fun b => clear b /\ 0 <= b.2) bs ->
  top <= f -> 0 <= s -> f + s <= f2 -> 0 <= s2 -> f2 + s2 <= hi ->
  tiles (top + (s + s2)) hi (map (fun b => (shifted b.1, b.2)) bs) (shifted <$> fg).
Proof.
  intros Ht Hbs H1 H2 H3 H4 H5. unfold tiles in *. cbn in Ht.
  assert ((bs ≫= area) ++ fg ≡ₚ
    seqZ top (f - top) ++ seqZ (f + s) (f2 - (f + s)) ++ seqZ (f2 + s2) (hi - (f2 + s2))) as Hp.
  { replace (hi - top) with ((f - top) + (s + ((f2 - (f + s)) + (s2 + (hi - (f2 + s2)))))) in Ht by lia.
    rewrite !seqZ_split in Ht by lia. unfold area at 1 2 in Ht. cbn [fst snd] in Ht.
    replace (top + (f - top)) with f in Ht by lia.
    replace (f + s + (f2 - (f + s))) with f2 in Ht by lia.
    apply (Permutation_app_inv_l (seqZ f s ++ seqZ f2 s2)).
    rewrite <- !(assoc_L (++)) in *. rewrite Ht. perm. }
  apply (fmap_Permutation shifted) in Hp. rewrite !fmap_app in Hp.
  rewrite !shifted_seqZ in Hp by (done || lia || (unfold clear; cbn; lia)).
  rewrite shifted_blocks in Hp by done. rewrite Hp.
  replace (hi - (top + (s + s2))) with ((f - top) + ((f2 - (f + s)) + (hi - (f2 + s2)))) by lia.
  rewrite !(seqZ_split (top + _)), (seqZ_split (top + _ + _)) by lia. unfold shifted.
  assert (forall a b n, (0 < n -> a = b) -> seqZ a n = seqZ b n) as Heq.
  { intros a b n H. destruct (decide (0 < n)); [by rewrite H|]. by rewrite !seqZ_nil by lia. }
  rewrite (Heq (if top <? f then _ else _) (top + (s + s2)));
    [|by intros; destruct (Z.ltb_spec top f); [|lia]].
  apply Permutation_app_head.
  rewrite (Heq (if f + s <? f then _ else _) (top + (s + s2) + (f - top)));
    [|by intros; destruct (Z.ltb_spec (f + s) f), (Z.ltb_spec (f + s) f2); lia].
  apply Permutation_app_head. f_equiv.
  destruct (Z.ltb_spec (f2 + s2) f), (Z.ltb_spec (f2 + s2) f2); lia.
Qed.
End shift.

(** ** The pointers after the shift *)

Section defrag.
Context (p : MemPage) (sz : Z).
Abbreviation hdr := (hdrOffset p).
Abbreviation us := (usableSize (pBt p)).
Context (Hhdr : 0 <= hdr) (Hus : us <= sz) (Husz : us <= 65536) (Hlow : hdr + 12 <= us).

(** The new address of a cell, as the loop computes it. *)
Definition moved (iFree iFree2 s s2 pc : Z) : Z :=
  if pc <? iFree then pc + s else if pc <? iFree2 then pc + s2 else pc.

Lemma shiftPointers_ok iFree iFree2 s s2 ks off d :
  buf sz d -> 0 <= off -> off + 2 * Z.of_nat (length ks) <= sz -> pointers d off ks ->
  Forall (fun k => 0 <= moved iFree iFree2 s s2 k.1 < 65536) ks ->
  ok (shiftPointers (length ks) off iFree iFree2 s s2) (fun _ p' => exists d', p' = setData d' p /\
    buf sz d' /\ upd d d' off (2 * Z.of_nat (length ks)) /\
    pointers d' off (map (fun k => (moved iFree iFree2 s s2 k.1, k.2)) ks)) (setData d p).
Proof.
  revert off d. induction ks as [|k ks IH]; intros off d Hd Ho Hl Hp Hm; cbn [length shiftPointers map].
  - apply ok_ret. exists d. split_and!; [done|done|done|]. by intros ? ? ?.
  - apply pointers_cons in Hp as [Hk Hp]. inversion Hm as [|?? Hk' Hm']; subst. cbn [length] in Hl.
    aget2. rewrite Hk.
    apply ok_bind, (ok_mono _ (fun _ p' => exists d1, p' = setData d1 p /\ buf sz d1 /\ upd d d1 off 2 /\
      get2 d1 off = moved iFree iFree2 s s2 k.1)).
    + unfold moved in *. destruct (k.1 <? iFree); [|destruct (k.1 <? iFree2)].
      * eapply w_put2; [done|lia|lia|]. intros d1 ? E ?. exists d1. split_and!; [done..|].
        rewrite E. apply Z.mod_small. lia.
      * eapply w_put2; [done|lia|lia|]. intros d1 ? E ?. exists d1. split_and!; [done..|].
        rewrite E. apply Z.mod_small. lia.
      * apply ok_ret. exists d. by split_and!.
    + intros _ p' (d1 & -> & Hd1 & U1 & E1).
      eapply ok_mono; [apply (IH (off + 2) d1); [done|lia|lia| |done]|].
      * eapply pointers_same; [done|]. intros x Hx. by keep.
      * intros _ p' (d2 & -> & Hd2 & U2 & Hp2). exists d2. split_and!; [done|done| |].
        -- intros x Hx Hr. by keep.
        -- apply pointers_cons. split; [|done]. keep. done.
Qed.

(** The page after the cells were moved together: no free block, the
    content area from [cbrk] on, at most [n] fragments. *)
Definition packed (d : list Z) (off lo : Z) (ks : list (Z * list Z)) (n : Z)
    (cbrk : Z) (p' : MemPage) : Prop :=
  exists d' ks' fg', p' = setData d' p /\ buf sz d' /\ ks'.*2 = ks.*2 /\
    pointers d' off ks' /\ contents d' ks' /\ tiles cbrk us (blocks ks') fg' /\
    nthZ d' (hdr + 7) = Z.of_nat (length fg') /\ Z.of_nat (length fg') <= n /\
    lo <= cbrk <= us /\
    (forall x, 0 <= x -> (x < off /\ x <> hdr + 7) \/ us <= x -> nthZ d' x = nthZ d x).

Section fast.
Context (d d1 : list Z) (off lo top f s f2 s2 iFree2 : Z) (ks : list (Z * list Z)) (fg : list Z).
Context (Hd : buf sz d) (Hd1 : buf sz d1).
Context (Hoff : hdr + 8 <= off) (Hlo : lo = off + 2 * Z.of_nat (length ks)) (Htop : lo <= top).
Context (Hf : top < f) (Hs : 4 <= s) (Hf2 : f + s <= f2) (Hs2 : 0 <= s2) (Hend : f2 + s2 <= us).
Context (Hp : pointers d off ks) (Hc : contents d ks).
Context (Htile : tiles top us ((f, s) :: (f2, s2) :: blocks ks) fg).
Context (Hblocks : Forall (fun b => clear f s f2 s2 b /\ 4 <= b.2 /\ top <= b.1 /\ b.1 + b.2 <= us) (blocks ks)).
Context (Hmoved : forall a, top <= a < us -> moved f iFree2 (s + s2) s2 a = shifted f s f2 s2 a).
Context (Hmid : forall x, f + s <= x < f2 -> nthZ d1 (x + s2) = nthZ d x).
Context (Hu1 : upd d d1 (f + s + s2) (f2 - (f + s))).

Lemma shifted_range a n : clear f s f2 s2 (a, n) -> 4 <= n -> top <= a -> a + n <= us ->
  top + (s + s2) <= shifted f s f2 s2 a /\ shifted f s f2 s2 a + n <= us.
Proof.
  intros [H1 H2] Hn Ha Hb. cbn in *. unfold shifted.
  destruct (Z.ltb_spec a f), (Z.ltb_spec a f2); lia.
Qed.

(** Each byte of a block is found at its new address. *)
Lemma shifted_byte d2 a n x :
  clear f s f2 s2 (a, n) -> top <= a -> a + n <= us -> a <= x < a + n ->
  (forall i, 0 <= i < f - top -> nthZ d2 (top + (s + s2) + i) = nthZ d1 (top + i)) ->
  upd d1 d2 (top + (s + s2)) (f - top) ->
  nthZ d2 (shifted f s f2 s2 x) = nthZ d x.
Proof.
  intros [H1 H2] Ha Hb Hx E2 U2. cbn in *. unfold shifted.
  destruct (Z.ltb_spec x f).
  - specialize (E2 (x - top) ltac:(lia)). replace (top + (x - top)) with x in E2 by lia.
    replace (x + (s + s2)) with (top + (s + s2) + (x - top)) by lia. rewrite E2. by apply Hu1; lia.
  - destruct (Z.ltb_spec x f2).
    + rewrite (U2 (x + s2)) by lia. apply Hmid. lia.
    + rewrite (U2 x), (Hu1 x) by lia. done.
Qed.

Lemma shiftContent_ok :
  ok (memmove (top + (s + s2)) top (f - top);;
      shiftPointers (length ks) off f iFree2 (s + s2) s2;; mret (Some (top + (s + s2))))
    (fun r p' => r = Some (top + (s + s2)) /\
       (nthZ d (hdr + 7) = Z.of_nat (length fg) ->
        packed d off lo ks (Z.of_nat (length fg)) (top + (s + s2)) p')) (setData d1 p).
Proof.
  apply ok_bind. eapply w_move; [done|lia..|]. intros d2 Hd2 E2 U2.
  assert (forall k, k ∈ ks -> clear f s f2 s2 (block k) /\ 4 <= (block k).2 /\ top <= k.1 /\ k.1 + (block k).2 <= us) as Hk.
  { intros k Hin. pose proof (proj1 (Forall_forall _ _) Hblocks (block k) (elem_block _ _ Hin)) as H. done. }
  apply ok_bind. eapply ok_mono; [apply (shiftPointers_ok f iFree2 (s + s2) s2 ks off d2)|].
  - done.
  - lia.
  - lia.
  - eapply pointers_same; [done|]. intros x Hx. by rewrite (U2 x), (Hu1 x) by lia.
  - apply Forall_forall. intros k Hin. destruct (Hk k Hin) as (C1 & C2 & C3 & C4).
    rewrite Hmoved by lia. destruct (shifted_range k.1 (block k).2 C1); lia.
  - intros _ p' (d3 & -> & Hd3 & U3 & Hp3). apply ok_ret. split; [done|]. intros Hfrag.
    set (ks' := map (fun k => (shifted f s f2 s2 k.1, k.2)) ks).
    assert (map (fun k => (moved f iFree2 (s + s2) s2 k.1, k.2)) ks = ks') as Hks.
    { apply map_ext_in. intros k Hin%list_elem_of_In. destruct (Hk k Hin) as (C1 & C2 & C3 & C4).
      by rewrite Hmoved by lia. }
    rewrite Hks in Hp3. exists d3, ks', (shifted f s f2 s2 <$> fg). split_and!; [done|done| |done| | | | |lia|lia|].
    + unfold ks'. rewrite <- list_fmap_compose. by apply list_fmap_ext.
    + intros k' [k [-> Hin]]%list_elem_of_fmap i Hi. cbn [fst snd] in Hi |- *.
      change (Z.of_nat (length k.2)) with (block k).2 in Hi.
      destruct (Hk k Hin) as (C1 & C2 & C3 & C4).
      destruct (shifted_range k.1 (block k).2 C1); [lia..|].
      rewrite <- (shifted_add f s f2 s2 k.1 i (block k).2) by (done || lia).
      rewrite U3; [|rewrite (shifted_add f s f2 s2 k.1 i (block k).2) by (done || lia); lia..].
      rewrite (shifted_byte d2 k.1 (block k).2) by (done || lia). by apply Hc.
    + unfold ks', blocks. rewrite map_map.
      replace (map _ ks) with (map (fun b => (shifted f s f2 s2 b.1, b.2)) (blocks ks));
        [|unfold blocks; by rewrite map_map].
      apply tiles_shift; [done| |lia..]. eapply Forall_impl; [done|]. intros b (? & ? & _). split; [done|lia].
    + rewrite length_fmap. rewrite (U3 (hdr + 7)), (U2 (hdr + 7)), (Hu1 (hdr + 7)) by lia. done.
    + by rewrite length_fmap.
    + intros x Hx Hr. rewrite (U3 x), (U2 x), (Hu1 x) by lia. done.
Qed.

End fast.

(** ** The fast way *)

Context (Hoff : hdr + 8 <= cellOffset p).

Lemma get2_zero d a : Forall is_byte d -> get2 d a = 0 <-> nthZ d a = 0 /\ nthZ d (a + 1) = 0.
Proof.
  intros Hb. rewrite get2_sum by done.
  pose proof (nthZ_byte d a Hb) as B1. pose proof (nthZ_byte d (a + 1) Hb) as B2.
  unfold is_byte in *. lia.
Qed.

(** Whether the second free block is the last. *)
Lemma lastBlock_ok d a :
  buf sz d -> 0 < a -> a + 2 <= sz ->
  ok (if a =? 0 then mret true else
      b0 ← getbyte a; if b0 =? 0 then b1 ← getbyte (a + 1); mret (b1 =? 0) else mret false)
    (fun r p' => r = (get2 d a =? 0) /\ p' = setData d p) (setData d p).
Proof.
  intros Hd Ha Hl. replace (a =? 0) with false by (symmetry; apply Z.eqb_neq; lia).
  pose proof (get2_zero d a (proj2 Hd)) as Hz. aget1.
  destruct (Z.eqb_spec (nthZ d a) 0).
  - aget1. apply ok_ret. split; [|done].
    destruct (Z.eqb_spec (nthZ d (a + 1)) 0), (Z.eqb_spec (get2 d a) 0); tauto.
  - apply ok_ret. split; [|done]. destruct (Z.eqb_spec (get2 d a) 0); tauto.
Qed.

Lemma cells_clear d lo top ks fr fg f s :
  space hdr us d lo top (blocks ks) fr fg -> (f, s) ∈ fr ->
  forall b, b ∈ blocks ks -> b.1 + b.2 <= f \/ f + s <= b.1.
Proof. intros Hsp Hin b Hb. eapply sp_apart; [exact Hsp|done|done]. Qed.

Lemma fast_one d lo top ks f s fg :
  buf sz d -> space hdr us d lo top (blocks ks) [(f, s)] fg ->
  nCell p = Z.of_nat (length ks) -> lo = cellOffset p + 2 * nCell p ->
  pointers d (cellOffset p) ks -> contents d ks ->
  ok (memmove (top + s) top (f - top);;
      shiftPointers (length ks) (cellOffset p) f 0 s 0;; mret (Some (top + s)))
    (fun r p' => r = Some (top + s) /\
       packed d (cellOffset p) lo ks (Z.of_nat (length fg)) (top + s) p') (setData d p).
Proof.
  intros Hd Hsp Hn Hlo Hp Hc. destruct (sp_lo _ _ _ _ _ _ _ _ Hsp) as [Hl Htop].
  destruct (sp_free _ _ _ _ _ _ _ _ f s Hsp) as (F1 & F2 & F3); [by left|].
  pose proof (sp_tile _ _ _ _ _ _ _ _ Hsp) as Ht.
  pose proof (shiftContent_ok d d (cellOffset p) lo top f s us 0 0 ks fg) as H.
  rewrite !Z.add_0_r in H. eapply ok_mono; [apply H; try done; try lia|].
  - eapply tiles_perm; [|apply (tiles_perm _ _ _ ((f, s) :: blocks ks)) in Ht].
    + apply perm_skip, perm_skip. done.
    + unfold tiles in *. cbn in *. unfold area at 2. cbn. rewrite seqZ_nil by lia. done.
    + cbn. by rewrite (Permutation_app_comm (blocks ks)).
  - apply Forall_forall. intros b Hb. destruct (sp_block _ _ _ _ _ _ _ _ b Hsp Hb) as (? & ? & ?).
    pose proof (cells_clear _ _ _ _ _ _ f s Hsp ltac:(by left) b Hb). unfold clear. lia.
  - intros a Ha. unfold moved, shifted. destruct (a <? f) eqn:E; [lia|].
    apply Z.ltb_ge in E. destruct (Z.ltb_spec a 0), (Z.ltb_spec a us); lia.
  - intros x Hx. by rewrite Z.add_0_r.
  - intros r p' [-> Hpk]. split; [done|]. apply Hpk, Hsp.
Qed.

Lemma fast_two d lo top ks f s f2 s2 fg :
  buf sz d -> space hdr us d lo top (blocks ks) [(f, s); (f2, s2)] fg ->
  nCell p = Z.of_nat (length ks) -> lo = cellOffset p + 2 * nCell p ->
  pointers d (cellOffset p) ks -> contents d ks ->
  ok (memmove (f + s + s2) (f + s) (f2 - (f + s));;
      memmove (top + (s + s2)) top (f - top);;
      shiftPointers (length ks) (cellOffset p) f f2 (s + s2) s2;; mret (Some (top + (s + s2))))
    (fun r p' => r = Some (top + (s + s2)) /\
       packed d (cellOffset p) lo ks (Z.of_nat (length fg)) (top + (s + s2)) p') (setData d p).
Proof.
  intros Hd Hsp Hn Hlo Hp Hc. destruct (sp_lo _ _ _ _ _ _ _ _ Hsp) as [Hl Htop].
  pose proof (sp_spaced _ _ _ _ _ _ _ _ Hsp) as S. cbn in S. destruct S as (S1 & S2 & S3 & S4 & S5 & S6 & _).
  apply ok_bind. eapply w_move; [done|lia..|]. intros d1 Hd1 E1 U1.
  eapply ok_mono; [apply (shiftContent_ok d d1 (cellOffset p) lo top f s f2 s2 f2 ks fg); try done; try lia|].
  - eapply tiles_perm; [|apply Hsp]. cbn. by rewrite (Permutation_app_comm (blocks ks)).
  - apply Forall_forall. intros b Hb. destruct (sp_block _ _ _ _ _ _ _ _ b Hsp Hb) as (? & ? & ?).
    pose proof (cells_clear _ _ _ _ _ _ f s Hsp ltac:(set_solver) b Hb).
    pose proof (cells_clear _ _ _ _ _ _ f2 s2 Hsp ltac:(set_solver) b Hb). unfold clear. lia.
  - intros x Hx. specialize (E1 (x - (f + s)) ltac:(lia)).
    replace (x + s2) with (f + s + s2 + (x - (f + s))) by lia. rewrite E1. f_equal. lia.
  - intros r p' [-> Hpk]. split; [done|]. apply Hpk, Hsp.
Qed.

Lemma defragmentFast_ok d lo top ks fr fg :
  buf sz d -> space hdr us d lo top (blocks ks) fr fg ->
  nCell p = Z.of_nat (length ks) -> lo = cellOffset p + 2 * nCell p ->
  pointers d (cellOffset p) ks -> contents d ks ->
  ok (defragmentFast us) (fun r p' =>
    match r with
    | None => p' = setData d p
    | Some cbrk => packed d (cellOffset p) lo ks (Z.of_nat (length fg)) cbrk p'
    end) (setData d p).
Proof.
  intros Hd Hsp Hn Hlo Hp Hc. destruct (sp_lo _ _ _ _ _ _ _ _ Hsp) as [Hl Htop].
  pose proof (sp_spaced _ _ _ _ _ _ _ _ Hsp) as S. pose proof (sp_links _ _ _ _ _ _ _ _ Hsp) as L.
  assert (top < 65536 -> get2 d (hdr + 5) = top) as Htop16.
  { intros. rewrite (sp_top _ _ _ _ _ _ _ _ Hsp). apply Z.mod_small. lia. }
  unfold defragmentFast. do 3 afield. aget2.
  destruct fr as [|[f s] fr]; cbn in L, S.
  { rewrite L. aguard; [apply Z.ltb_ge; lia|]. cbn. by apply ok_ret. }
  destruct S as (S1 & S2 & S3 & S4), L as (L1 & L2 & L3). rewrite L1.
  aguard; [apply Z.ltb_ge; lia|]. replace (f =? 0) with false by (symmetry; apply Z.eqb_neq; lia).
  aget2. rewrite Hn, Nat2Z.id. destruct fr as [|[f2 s2] fr]; cbn in L3, S4.
  - rewrite L3. aguard; [apply Z.ltb_ge; lia|]. apply ok_bind, ok_ret. cbn [negb].
    aget2. rewrite L2. aget2. rewrite Htop16 by lia.
    aguard; [apply Z.leb_gt; lia|]. apply ok_bind. cbn [Z.eqb negb]. aguard; [apply Z.ltb_ge; lia|]. apply ok_ret.
    eapply ok_mono; [by eapply fast_one|]. by intros r p' [-> H].
  - destruct S4 as (S4 & S5 & S6 & S7), L3 as (L3 & L4 & L5). rewrite L3.
    aguard; [apply Z.ltb_ge; lia|]. apply ok_bind. eapply ok_mono; [apply (lastBlock_ok d); [done|lia|lia]|].
    intros r p' [-> ->]. destruct fr as [|[f3 s3] fr]; cbn in L5, S7.
    + rewrite L5. cbn [Z.eqb negb]. aget2. rewrite L2. aget2. rewrite Htop16 by lia.
      aguard; [apply Z.leb_gt; lia|]. replace (f2 =? 0) with false by (symmetry; apply Z.eqb_neq; lia). cbn [negb].
      apply ok_bind. aguard; [apply Z.ltb_ge; lia|]. aget2. rewrite L4. aguard; [apply Z.ltb_ge; lia|].
      pose proof (fast_two d lo top ks f s f2 s2 fg Hd Hsp Hn Hlo Hp Hc) as H.
      apply ok_bind_inv in H. apply ok_bind. eapply ok_mono; [exact H|]. intros [] p' H'.
      apply ok_ret. eapply ok_mono; [exact H'|]. by intros r p'' [-> Hpk].
    + destruct L5 as (L5 & _). rewrite L5. replace (f3 =? 0) with false by (symmetry; apply Z.eqb_neq; lia).
      by apply ok_ret.
Qed.

(** ** The slow way *)

(** The cells [ks] from [off] on are copied from [src] to the end of the
    page, below [cbrk]. *)
Lemma packCells_ok src start ks off cbrk d :
  buf sz d -> Forall is_byte src -> Z.of_nat (length src) = us ->
  pointers d off ks -> contents src ks ->
  Forall (fun k => cell_ok p k.2 /\ 0 <= k.1 /\ k.1 + (block k).2 <= us) ks ->
  0 <= off -> off + 2 * Z.of_nat (length ks) <= start ->
  start <= cbrk - total (blocks ks) -> cbrk <= us -> cbrk <= 65536 ->
  ok (packCells (length ks) src us (us - 4) start off cbrk) (fun r p' =>
    r = cbrk - total (blocks ks) /\ exists d' ks', p' = setData d' p /\ buf sz d' /\
    ks'.*2 = ks.*2 /\ pointers d' off ks' /\ contents d' ks' /\
    blocks ks' ≫= area ≡ₚ seqZ r (cbrk - r) /\
    (forall x, 0 <= x -> (x < off \/ off + 2 * Z.of_nat (length ks) <= x) ->
       (x < r \/ cbrk <= x) -> nthZ d' x = nthZ d x)) (setData d p).
Proof.
  revert off cbrk d. induction ks as [|k ks IH]; intros off cbrk d Hd Hsb Hsl Hp Hc Hks H0 Hoffs Hst Hcb Hcb2.
  { cbn [length packCells blocks map total]. apply ok_ret. split; [cbn; lia|]. exists d, [].
    split_and!; [done|done|done|done|by intros ? ?%elem_of_nil| |done]. replace (cbrk - cbrk) with 0 by lia. done. }
  apply pointers_cons in Hp as [Hk Hp]. inversion Hks as [|?? ((C1 & C2 & C3) & C4 & C5) Hks']; subst.
  cbn [length blocks map total] in *. fold (blocks ks) in *. cbn [length packCells].
  pose proof (total_nonneg (blocks ks) ltac:(eapply blocks_big, Forall_impl; [done|]; by intros ? [??])) as Hnn.
  assert ((block k).2 = Z.of_nat (length k.2)) as Hbk by done.
  assert (holds src k.1 k.2) as Hh by (apply Hc; by left).
  aget2. rewrite Hk. aguard; [apply Z.ltb_ge; lia|]. apply ok_bind, ok_cellSizeAt; [lia|lia|].
  replace (xCellSize (setData d p) _) with (Z.of_nat (length k.2)).
  2:{ rewrite (holds_split src k.1 k.2) by (done || lia). symmetry. apply C3. by apply Forall_drop. }
  aguard; [apply orb_false_iff; rewrite !Z.ltb_ge; lia|].
  apply ok_bind. eapply w_put2; [done|lia|lia|]. intros d1 Hd1 E1 U1.
  rewrite holds_slice by (done || lia).
  apply ok_bind. eapply w_bytes; [done|lia|lia|done|]. intros d2 Hd2 E2 U2.
  eapply ok_mono; [apply (IH (off + 2) (cbrk - Z.of_nat (length k.2)) d2); try done; try lia|].
  - eapply pointers_same; [done|]. intros x Hx. by keep.
  - intros k' Hin. apply Hc. by right.
  - intros r p' (-> & d3 & ks' & -> & Hd3 & Hsnd & Hp3 & Hc3 & Ht3 & U3). split; [lia|].
    exists d3, ((cbrk - Z.of_nat (length k.2), k.2) :: ks'). split_and!; [done|done| | | | |].
    + cbn. by rewrite Hsnd.
    + apply pointers_cons. split; [|done]. cbn [fst].
      rewrite (get2_same d1 d3) by (rewrite U3, (U2 _) by lia; done).
      rewrite E1. apply Z.mod_small. lia.
    + intros k' Hin. apply elem_of_cons in Hin as [->|Hin]; [|by apply Hc3]. cbn [fst snd].
      eapply holds_same; [exact E2|]. intros x Hx. apply U3; lia.
    + cbn. unfold area at 1. cbn. rewrite Ht3.
      rewrite (Permutation_app_comm (seqZ _ _)).
      replace (cbrk - (Z.of_nat (length k.2) + total (blocks ks))) with
        (cbrk - Z.of_nat (length k.2) - total (blocks ks)) by lia.
      replace (cbrk - (cbrk - Z.of_nat (length k.2) - total (blocks ks))) with
        (total (blocks ks) + Z.of_nat (length k.2)) by lia.
      rewrite seqZ_split by lia. apply Permutation_refl'. f_equal; f_equal; lia.
    + intros x Hx X1 X2. rewrite U3, (U2 x), (U1 x) by lia. done.
Qed.

Lemma defragmentSlow_ok d lo top ks fr fg :
  buf sz d -> space hdr us d lo top (blocks ks) fr fg ->
  nCell p = Z.of_nat (length ks) -> lo = cellOffset p + 2 * nCell p ->
  pointers d (cellOffset p) ks -> contents d ks -> Forall (fun k => cell_ok p k.2) ks ->
  ok (defragmentSlow us) (packed d (cellOffset p) lo ks 0) (setData d p).
Proof.
  intros Hd Hsp Hn Hlo Hp Hc Hks. destruct (sp_lo _ _ _ _ _ _ _ _ Hsp) as [Hl Htop].
  pose proof (sp_total _ _ _ _ _ _ _ _ Hsp) as Htot.
  pose proof (total_nonneg fr (spaced_big _ _ _ (sp_spaced _ _ _ _ _ _ _ _ Hsp))) as Hfr.
  pose proof (total_nonneg _ (sp_big _ _ _ _ _ _ _ _ Hsp)) as Hbs.
  unfold defragmentSlow. do 3 afield. aget2. apply ok_bind.
  eapply (ok_mono _ (fun r p' => r = us - total (blocks ks) /\ exists d' ks', p' = setData d' p /\ buf sz d' /\
    ks'.*2 = ks.*2 /\ pointers d' (cellOffset p) ks' /\ contents d' ks' /\
    blocks ks' ≫= area ≡ₚ seqZ r (us - r) /\
    (forall x, 0 <= x -> x < cellOffset p \/ us <= x -> nthZ d' x = nthZ d x))).
  - destruct (Z.ltb_spec 0 (nCell p)) as [Hpos|Hzero].
    + assert (exists k, k ∈ ks) as [k0 Hk0] by (destruct ks as [|k0 ks']; [cbn in *; lia|exists k0; by left]).
      destruct (sp_block _ _ _ _ _ _ _ _ _ Hsp (elem_block _ _ Hk0)) as (? & ? & ?).
      replace (get2 d (hdr + 5)) with top by (rewrite (sp_top _ _ _ _ _ _ _ _ Hsp); symmetry; apply Z.mod_small; lia).
      apply ok_bind, ok_memread; [lia|lia|destruct Hd; fields; lia|]. fields. rewrite Hn, Nat2Z.id.
      assert (forall x, 0 <= x < us -> nthZ (slice d 0 us) x = nthZ d x) as Hsl
        by (intros; by rewrite nthZ_slice by lia).
      eapply ok_mono; [apply packCells_ok; try done; try lia|].
      * apply slice_bytes, Hd.
      * destruct Hd. rewrite length_slice; lia.
      * intros k Hin. destruct (sp_block _ _ _ _ _ _ _ _ _ Hsp (elem_block _ _ Hin)) as (? & ? & ?).
        eapply holds_same; [by apply Hc|]. intros x Hx. apply Hsl. cbn in *. lia.
      * apply Forall_forall. intros k Hin.
        destruct (sp_block _ _ _ _ _ _ _ _ _ Hsp (elem_block _ _ Hin)) as (? & ? & ?).
        split_and!; [by eapply Forall_forall in Hks|cbn in *; lia|done].
      * intros r p' (-> & d' & ks' & -> & ? & ? & ? & ? & ? & U). split; [done|].
        exists d', ks'. split_and!; try done. intros x Hx Hr. apply U; lia.
    + destruct ks; [|cbn in *; lia]. apply ok_ret. split; [cbn; lia|].
      exists d, []. split_and!; try done. by replace (us - us) with 0 by lia.
  - intros r p' (-> & d1 & ks' & -> & Hd1 & Hsnd & Hp1 & Hc1 & Ht1 & U1).
    apply ok_bind. eapply w_put1; [done|lia|lia|]. intros d2 Hd2 E2 U2. apply ok_ret.
    assert (forall x, cellOffset p <= x -> nthZ d2 x = nthZ d1 x) as Hkeep by (intros; by keep).
    exists d2, ks', []. split_and!; try done; try lia.
    + eapply pointers_same; [done|]. intros x Hx. apply Hkeep. lia.
    + intros k Hin. eapply holds_same; [by apply Hc1|]. intros x Hx. apply Hkeep.
      assert (exists k', k' ∈ blocks ks' /\ k'.1 <= x < k'.1 + k'.2) as Hx'
        by (exists (block k); split; [by apply elem_block|done]).
      rewrite <- elem_blocks, Ht1, elem_of_seqZ in Hx'. lia.
    + unfold tiles. by rewrite app_nil_r.
    + intros x Hx Hr. rewrite (U2 x), U1 by lia. done.
Qed.

(** ** The whole function *)

(** Bytes that an operation on the cells does not change: the page is the
    same up to the free list, the number of cells and the content area. *)
Definition untouched (off : Z) (d d' : list Z) : Prop :=
  forall x, 0 <= x -> x < hdr + 1 \/ hdr + 8 <= x < off \/ us <= x -> nthZ d' x = nthZ d x.

Lemma defragmentPage_ok nMaxFrag d lo top ks fr fg :
  buf sz d -> space hdr us d lo top (blocks ks) fr fg ->
  nCell p = Z.of_nat (length ks) -> lo = cellOffset p + 2 * nCell p ->
  pointers d (cellOffset p) ks -> contents d ks -> Forall (fun k => cell_ok p k.2) ks ->
  nFree p = us - lo - total (blocks ks) ->
  ok (defragmentPage nMaxFrag) (fun _ p' => exists d' cbrk ks' fg', p' = setData d' p /\ buf sz d' /\
    ks'.*2 = ks.*2 /\ space hdr us d' lo cbrk (blocks ks') [] fg' /\
    pointers d' (cellOffset p) ks' /\ contents d' ks' /\
    Z.of_nat (length fg') <= Z.max 0 nMaxFrag /\
    get2 d' (hdr + 3) = get2 d (hdr + 3) /\ untouched (cellOffset p) d d') (setData d p).
Proof.
  intros Hd Hsp Hn Hlo Hp Hc Hks Hfree. destruct (sp_lo _ _ _ _ _ _ _ _ Hsp) as [Hl Htop].
  unfold defragmentPage, usable. do 4 afield. aget1. rewrite (sp_frag _ _ _ _ _ _ _ _ Hsp).
  apply ok_bind. eapply (ok_mono _ (fun r p' => match r with
    | None => p' = setData d p
    | Some cbrk => packed d (cellOffset p) lo ks (Z.max 0 nMaxFrag) cbrk p' end)).
  { destruct (Z.leb_spec (Z.of_nat (length fg)) nMaxFrag); [|by apply ok_ret].
    eapply ok_mono; [by eapply defragmentFast_ok|]. intros [cbrk|] p'; [|done].
    intros (d' & ks' & fg' & H'). exists d', ks', fg'. intuition lia. }
  intros fast p' Hfast. apply ok_bind.
  eapply (ok_mono _ (packed d (cellOffset p) lo ks (Z.max 0 nMaxFrag))).
  { destruct fast as [cbrk|]; [by apply ok_ret|]. subst p'. eapply ok_mono; [by eapply defragmentSlow_ok|].
    intros cbrk p' (d' & ks' & fg' & H'). exists d', ks', fg'. intuition lia. }
  clear p' Hfast. intros cbrk p' (d1 & ks' & fg' & -> & Hd1 & Hsnd & Hp1 & Hc1 & Ht1 & Hf1 & Hm & Hcb & U1).
  assert (big (blocks ks')) as Hbig.
  { apply (blocks_big p). apply cells_ok_snd. rewrite Hsnd. by apply cells_ok_snd. }
  pose proof (tiles_total _ _ _ _ Ht1 Hbig ltac:(lia)) as Htot. rewrite (total_blocks_snd _ _ Hsnd) in Htot.
  assert (Z.of_nat (length ks') = nCell p) as Hlen.
  { rewrite Hn. f_equal. rewrite <- (length_fmap snd ks'), Hsnd. by rewrite length_fmap. }
  aget1. rewrite Hf1. afield. aguard; [apply negb_false_iff, Z.eqb_eq; lia|].
  apply ok_bind. eapply w_put2; [done|lia|lia|]. intros d2 Hd2 E2 U2.
  apply ok_bind. eapply w_put1; [done|lia|lia|]. intros d3 Hd3 E3 U3.
  apply ok_bind. eapply w_put1; [done|lia|lia|]. intros d4 Hd4 E4 U4.
  eapply w_set; [done|lia|lia|lia|unfold is_byte; lia|]. intros d5 Hd5 E5 U5.
  assert (forall x, hdr + 8 <= x -> x < lo \/ cbrk <= x -> nthZ d5 x = nthZ d1 x) as Hkeep by (intros; by keep).
  exists d5, cbrk, ks', fg'. split_and!; [done|done|done| | | |done| |].
  - split; [by keep|by keep| |done|done|by rewrite app_nil_r|lia].
    cbn. unfold get2. replace (hdr + 1 + 1) with (hdr + 2) by lia. keep. by rewrite E3, E4.
  - eapply pointers_same; [done|]. intros x Hx. apply Hkeep; lia.
  - intros k Hin. eapply holds_same; [by apply Hc1|]. intros x Hx.
    destruct (tiles_range _ _ _ _ (block k) Ht1 Hbig (elem_block _ _ Hin)) as [Hr _]. cbn in Hr.
    apply Hkeep; lia.
  - unfold get2. keep. by rewrite !U1 by lia.
  - intros x Hx Hr. keep. apply U1; lia.
Qed.
End defrag.
