(* ===== verification/BtUpdate.v ===== *)
(** * A page as a list of cells

    The invariant of a whole page, and that [allocateSpace], [insertCell],
    [insertCellFast] and [dropCell] implement the insertion and the removal
    of an element of a list. *)

From stdpp Require Import base list numbers option sets.
From S2P Require Import Prelude Util Varint Btree BtVarint BtCell BtMem BtPage BtTile BtSpace BtFree BtAlloc BtDefrag.
#[local] Open Scope Z_scope.

(** ** Allocation *)

Section allocate.
Context (p : MemPage) (sz : Z).
Abbreviation hdr := (hdrOffset p).
Abbreviation us := (usableSize (pBt p)).
Context (Hhdr : 0 <= hdr) (Hus : us <= sz) (Husz : us <= 65536) (Hlow : hdr + 12 <= us).
Context (Hoff : hdr + 8 <= cellOffset p).

(** The cells [ks] and an allocated block, at the end of the pointers. *)
Definition allocated (d : list Z) (lo : Z) (ks : list (Z * list Z)) (n idx : Z) (p' : MemPage) : Prop :=
  exists d' top ks' fr fg, p' = setData d' p /\ buf sz d' /\ ks'.*2 = ks.*2 /\
    space hdr us d' lo top ((idx, n) :: blocks ks') fr fg /\ lo + 2 <= top /\
    pointers d' (cellOffset p) ks' /\ contents d' ks' /\
    get2 d' (hdr + 3) = get2 d (hdr + 3) /\ untouched p (cellOffset p) d d'.

(** What [kept] says about the cells. *)
Lemma kept_cells d d' lo top ks bs fr fg :
  space hdr us d lo top (bs ++ blocks ks) fr fg -> lo = cellOffset p + 2 * Z.of_nat (length ks) ->
  kept hdr us lo (blocks ks) d d' -> pointers d (cellOffset p) ks -> contents d ks ->
  pointers d' (cellOffset p) ks /\ contents d' ks /\ get2 d' (hdr + 3) = get2 d (hdr + 3) /\
  untouched p (cellOffset p) d d'.
Proof.
  intros Hsp Hlo Hk Hp Hc. destruct (sp_lo _ _ _ _ _ _ _ _ Hsp). split_and!.
  - eapply pointers_same; [done|]. intros x Hx. apply Hk; lia.
  - intros k Hin. eapply holds_same; [by apply Hc|]. intros x Hx.
    destruct (sp_block _ _ _ _ _ _ _ _ (block k) Hsp) as (? & ? & ?); [apply elem_of_app; right; by apply elem_block|].
    cbn in *. apply Hk; [lia|]. do 4 right. exists (block k). split; [by apply elem_block|done].
  - apply get2_same; apply Hk; lia.
  - intros x Hx Hr. apply Hk; lia.
Qed.

(** The block below the content area. *)
Lemma takeGap_ok d lo top ks fr fg n :
  buf sz d -> space hdr us d lo top (blocks ks) fr fg ->
  lo = cellOffset p + 2 * Z.of_nat (length ks) ->
  pointers d (cellOffset p) ks -> contents d ks -> 4 <= n -> lo + 2 + n <= top ->
  ok (put2byte (hdr + 5) (top - n);; mret (top - n)) (allocated d lo ks n) (setData d p).
Proof.
  intros Hd Hsp Hlo Hp Hc Hn Hfit. destruct (sp_lo _ _ _ _ _ _ _ _ Hsp) as [Hl Htop].
  apply ok_bind. eapply w_put2; [done|lia|lia|]. intros d1 Hd1 E1 U1. apply ok_ret.
  assert (kept hdr us lo (blocks ks) d d1) as Hk.
  { eapply kept_hdr; [done|lia| |lia]. intros b Hb. destruct (sp_block _ _ _ _ _ _ _ _ b Hsp Hb). lia. }
  destruct (kept_cells d d1 lo top ks [] fr fg) as (? & ? & ? & ?); [done..|].
  exists d1, (top - n), ks, fr, fg. split_and!; [done|done|done| |lia|done..].
  split; [done|keep; apply Hsp| | |apply Forall_cons; split; [done|apply Hsp]| |lia].
  - eapply links_same; [apply Hsp|]. intros y [Hy|(b & s & Hin & Hy)]; [by keep|].
    destruct (sp_free _ _ _ _ _ _ _ _ b s Hsp Hin). by keep.
  - eapply spaced_mono; [apply Hsp|lia].
  - apply (proj1 (tiles_top (top - n) us n _ _ ltac:(lia) ltac:(lia))).
    replace (top - n + n) with top by lia. apply Hsp.
Qed.

Lemma allocateGap_ok d lo top ks fr fg n :
  buf sz d -> space hdr us d lo top (blocks ks) fr fg ->
  nCell p = Z.of_nat (length ks) -> lo = cellOffset p + 2 * nCell p ->
  pointers d (cellOffset p) ks -> contents d ks -> Forall (fun k => cell_ok p k.2) ks ->
  nFree p = us - lo - total (blocks ks) -> 4 <= n -> n + 2 <= nFree p ->
  ok (allocateGap n lo top) (allocated d lo ks n) (setData d p).
Proof.
  intros Hd Hsp Hn Hlo Hp Hc Hks Hfree Hn4 Hfit. destruct (sp_lo _ _ _ _ _ _ _ _ Hsp) as [Hl Htop].
  unfold allocateGap. afield. apply ok_bind.
  destruct (Z.ltb_spec top (lo + 2 + n)) as [Hlt|Hge];
    [|apply ok_ret; eapply takeGap_ok; try done; lia].
  afield. apply ok_bind.
  eapply ok_mono; [by eapply (defragmentPage_ok p sz Hhdr Hus Husz Hlow Hoff)|].
  intros _ p' (d1 & cbrk & ks1 & fg1 & -> & Hd1 & Hsnd & Hsp1 & Hp1 & Hc1 & Hm & H3 & Hu).
  pose proof (sp_total _ _ _ _ _ _ _ _ Hsp1) as Htot. rewrite (total_blocks_snd _ _ Hsnd) in Htot. cbn in Htot.
  destruct (sp_lo _ _ _ _ _ _ _ _ Hsp1) as [Hl1 Htop1].
  apply (ok_get2byteNotZero _ cbrk); [lia|destruct Hd1; fields; lia|apply Hsp1|lia|].
  assert (length ks1 = length ks) as Hlen by (rewrite <- (length_fmap snd ks1), Hsnd; apply length_fmap).
  eapply ok_mono; [eapply (takeGap_ok d1 lo cbrk ks1 [] fg1 n); try done; try lia; by rewrite Hlen, <- Hn|].
  intros idx p' (d2 & top2 & ks2 & fr2 & fg2 & -> & ? & Hsnd2 & ? & ? & ? & ? & H3' & Hu2).
  exists d2, top2, ks2, fr2, fg2. split_and!; try done; [by rewrite Hsnd2|by rewrite H3'|].
  intros x Hx Hr. by rewrite Hu2, Hu.
Qed.

(** The offset of the content area, where 0 stands for 65536. *)
Lemma readTop_ok d lo top ks fr fg :
  space hdr us d lo top (blocks ks) fr fg ->
  ok (if u16 top <? lo then
        if (u16 top =? 0) && (us =? 65536) then mret 65536 else corrupt
      else corruptIf (us <? u16 top);; mret (u16 top))
    (fun r p' => r = top /\ p' = setData d p) (setData d p).
Proof.
  intros Hsp. destruct (sp_lo _ _ _ _ _ _ _ _ Hsp) as [Hl Htop]. unfold u16.
  destruct (decide (top = 65536)) as [->|].
  - replace us with 65536 by lia. change (65536 mod 2 ^ 16) with 0.
    destruct (Z.ltb_spec 0 lo); [by apply ok_ret|lia].
  - rewrite Z.mod_small by lia. destruct (Z.ltb_spec top lo); [lia|].
    aguard; [apply Z.ltb_ge; lia|]. by apply ok_ret.
Qed.

Lemma allocateSpace_ok d lo top ks fr fg n :
  buf sz d -> space hdr us d lo top (blocks ks) fr fg ->
  nCell p = Z.of_nat (length ks) -> lo = cellOffset p + 2 * nCell p ->
  pointers d (cellOffset p) ks -> contents d ks -> Forall (fun k => cell_ok p k.2) ks ->
  nFree p = us - lo - total (blocks ks) -> 4 <= n -> n + 2 <= nFree p ->
  ok (allocateSpace n) (allocated d lo ks n) (setData d p).
Proof.
  intros Hd Hsp Hn Hlo Hp Hc Hks Hfree Hn4 Hfit. destruct (sp_lo _ _ _ _ _ _ _ _ Hsp) as [Hl Htop].
  unfold allocateSpace, usable. do 3 afield. rewrite <- Hlo. aget2.
  rewrite (sp_top _ _ _ _ _ _ _ _ Hsp). apply ok_bind.
  eapply ok_mono; [by eapply readTop_ok|]. intros r p' [-> ->].
  aget1. aget1. apply ok_bind.
  eapply (ok_mono _ (fun r p' => match r with
    | None => p' = setData d p
    | Some a => lo + 2 <= top /\ slotted p sz d lo top (blocks ks) n a p' end)).
  - destruct (_ && _) eqn:E; [|by apply ok_ret].
    apply andb_true_iff in E as [E1%orb_true_iff E2%Z.leb_le].
    eapply ok_mono; [eapply (pageFindSlot_ok p sz Hhdr Hus Husz Hlow d lo top (blocks ks)); try done|].
    + intros ->. pose proof (sp_links _ _ _ _ _ _ _ _ Hsp) as L. cbn in L.
      apply (get2_zero d (hdr + 1) (proj2 Hd)) in L as [L1 L2].
      replace (hdr + 1 + 1) with (hdr + 2) in L2 by lia. rewrite L1, L2 in E1. by destruct E1.
    + by intros [a|] p'.
  - intros [a|] p' Hr; [|subst; by eapply allocateGap_ok].
    destruct Hr as (Hgap & d' & fr' & fg' & -> & Hd' & Hsp' & Hk).
    destruct (sp_block _ _ _ _ _ _ _ _ (a, n) Hsp') as (Ha & _); [by left|]. cbn in Ha.
    aguard; [apply Z.leb_gt; lia|]. apply ok_ret.
    destruct (kept_cells d d' lo top ks [] fr fg) as (? & ? & ? & ?); try done; [by rewrite <- Hn|].
    exists d', top, ks, fr', fg'. split_and!; done.
Qed.

End allocate.

(** ** The array of cell pointers *)

Definition insertAt {A} (i : nat) (x : A) (l : list A) : list A := take i l ++ x :: drop i l.

Lemma insertAt_lookup {A} i (x : A) l j :
  (i <= length l)%nat ->
  insertAt i x l !! j =
    if decide (j < i)%nat then l !! j else if decide (j = i) then Some x else l !! (j - 1)%nat.
Proof.
  intros Hi. unfold insertAt. repeat case_decide.
  - rewrite lookup_app_l by (rewrite length_take; lia). by apply lookup_take_lt.
  - subst. rewrite lookup_app_r by (rewrite length_take; lia).
    by replace (i - length (take i l))%nat with 0%nat by (rewrite length_take; lia).
  - rewrite lookup_app_r by (rewrite length_take; lia). rewrite length_take.
    replace (j - i `min` length l)%nat with (S (j - i - 1)) by lia.
    change (drop i l !! (j - i - 1)%nat = l !! (j - 1)%nat). rewrite lookup_drop. f_equal. lia.
Qed.

Lemma insertAt_perm {A} i (x : A) l : insertAt i x l ≡ₚ x :: l.
Proof. unfold insertAt. by rewrite <- Permutation_middle, take_drop. Qed.

Lemma insertAt_fmap {A B} (f : A -> B) i x l : f <$> insertAt i x l = insertAt i (f x) (f <$> l).
Proof. unfold insertAt. by rewrite fmap_app, fmap_cons, fmap_take, fmap_drop. Qed.

Lemma pointers_insert d d' off ks i idx c :
  pointers d off ks -> (i <= length ks)%nat ->
  (forall j, (j < i)%nat -> get2 d' (off + 2 * Z.of_nat j) = get2 d (off + 2 * Z.of_nat j)) ->
  get2 d' (off + 2 * Z.of_nat i) = idx ->
  (forall j, (i <= j < length ks)%nat ->
     get2 d' (off + 2 * Z.of_nat (S j)) = get2 d (off + 2 * Z.of_nat j)) ->
  pointers d' off (insertAt i (idx, c) ks).
Proof.
  intros Hp Hi H1 H2 H3 j k Hj. rewrite insertAt_lookup in Hj by done. repeat case_decide.
  - rewrite H1 by done. by apply Hp.
  - injection Hj as <-. by subst j.
  - apply lookup_lt_Some in Hj as Hlt. replace j with (S (j - 1)) by lia. rewrite H3 by lia. by apply Hp.
Qed.

Lemma pointers_delete d d' off ks i :
  pointers d off ks ->
  (forall j, (j < i)%nat -> get2 d' (off + 2 * Z.of_nat j) = get2 d (off + 2 * Z.of_nat j)) ->
  (forall j, (i <= j)%nat -> (S j < length ks)%nat ->
     get2 d' (off + 2 * Z.of_nat j) = get2 d (off + 2 * Z.of_nat (S j))) ->
  pointers d' off (delete i ks).
Proof.
  intros Hp H1 H2 j k Hj. destruct (decide (j < i)%nat).
  - rewrite list_lookup_delete_lt in Hj by done. rewrite H1 by done. by apply Hp.
  - rewrite list_lookup_delete_ge in Hj by lia. apply lookup_lt_Some in Hj as Hlt.
    rewrite H2 by lia. by apply Hp.
Qed.

(** The two bytes of the number of cells are incremented with carry. *)
Lemma countUp_ok p sz d n :
  let hdr := hdrOffset p in 0 <= hdr -> buf sz d -> hdr + 8 <= sz -> get2 d (hdr + 3) = n -> n + 1 < 65536 ->
  ok (lo ← getbyte (hdr + 4); putbyte (hdr + 4) (lo + 1);;
      if u8 (lo + 1) =? 0 then hi ← getbyte (hdr + 3); putbyte (hdr + 3) (hi + 1) else mret ())
    (fun _ p' => exists d', p' = setData d' p /\ buf sz d' /\ get2 d' (hdr + 3) = n + 1 /\
       upd d d' (hdr + 3) 2) (setData d p).
Proof.
  intros hdr Hhdr Hd Hsz Hn Hlt. pose proof (get2_sum d (hdr + 3) (proj2 Hd)) as Hsum. rewrite Hn in Hsum.
  replace (hdr + 3 + 1) with (hdr + 4) in Hsum by lia.
  pose proof (nthZ_byte d (hdr + 3) (proj2 Hd)) as B3. pose proof (nthZ_byte d (hdr + 4) (proj2 Hd)) as B4.
  unfold is_byte in B3, B4.
  aget1. apply ok_bind. eapply w_put1; [done|lia|lia|]. intros d1 Hd1 E1 U1.
  unfold u8 in *. destruct (Z.eqb_spec ((nthZ d (hdr + 4) + 1) mod 2 ^ 8) 0) as [Hz|Hz].
  - assert (nthZ d (hdr + 4) = 255) as H255.
    { destruct (decide (nthZ d (hdr + 4) = 255)); [done|]. rewrite Z.mod_small in Hz; lia. }
    aget1. keep. eapply w_put1; [done|lia|lia|]. intros d2 Hd2 E2 U2. exists d2. split_and!; [done..| |].
    + rewrite get2_sum by apply Hd2. replace (hdr + 3 + 1) with (hdr + 4) by lia. keep.
      rewrite E1, E2, Hz. unfold u8. rewrite Z.mod_small; lia.
    + intros x Hx Hr. by keep.
  - apply ok_ret. exists d1. split_and!; [done..| |].
    + rewrite get2_sum by apply Hd1. replace (hdr + 3 + 1) with (hdr + 4) by lia. keep. rewrite E1.
      destruct (decide (nthZ d (hdr + 4) = 255)) as [E|]; [by rewrite E in Hz|].
      rewrite Z.mod_small; lia.
    + intros x Hx Hr. by keep.
Qed.

Section pointer.
Context (p : MemPage) (sz : Z).
Abbreviation hdr := (hdrOffset p).
Abbreviation us := (usableSize (pBt p)).
Context (Hhdr : 0 <= hdr) (Hoff : hdr + 8 <= cellOffset p) (Hidx : aCellIdx p = cellOffset p).

Lemma insertPointer_ok d ks i idx c :
  buf sz d -> nCell p = Z.of_nat (length ks) -> get2 d (hdr + 3) = nCell p ->
  pointers d (cellOffset p) ks -> (i <= length ks)%nat ->
  cellOffset p + 2 * (nCell p + 1) <= sz -> nCell p + 1 < 65536 -> 0 <= idx < 65536 ->
  ok (insertPointer (Z.of_nat i) idx) (fun _ p' => exists d',
    p' = setData d' (setCell (nCell p + 1) p) /\ buf sz d' /\ get2 d' (hdr + 3) = nCell p + 1 /\
    pointers d' (cellOffset p) (insertAt i (idx, c) ks) /\
    (forall x, 0 <= x -> x < hdr + 3 \/ hdr + 5 <= x < cellOffset p \/
       cellOffset p + 2 * (nCell p + 1) <= x -> nthZ d' x = nthZ d x)) (setData d p).
Proof.
  intros Hd Hn H3 Hp Hi Hsz Hlt Hrange. unfold insertPointer. do 2 afield. rewrite Hidx.
  apply ok_bind. eapply w_move; [done|lia..|]. intros d1 Hd1 E1 U1.
  apply ok_bind. eapply w_put2; [done|lia|lia|]. intros d2 Hd2 E2 U2.
  apply ok_bind, ok_modify. fields.
  replace (u16 (nCell p + 1)) with (nCell p + 1) by (symmetry; apply Z.mod_small; lia).
  change (setCell ?n (setData ?d ?p)) with (setData d (setCell n p)).
  apply ok_bind, ok_field. fields.
  eapply ok_mono; [apply (countUp_ok (setCell (nCell p + 1) p) sz d2 (nCell p)); fields;
    [lia|done|lia|by keep|lia]|].
  fields. intros _ p' (d3 & -> & Hd3 & E3 & U3). exists d3. split_and!; [done..| |].
  - assert (forall x, cellOffset p <= x -> x + 2 <= cellOffset p + 2 * (nCell p + 1) ->
              get2 d3 x = get2 d2 x) as Hk by (intros; by keep).
    apply (pointers_insert d); [done|done| | |].
    + intros j Hj. rewrite Hk by lia. by keep.
    + rewrite Hk by lia. replace (cellOffset p + 2 * Z.of_nat i) with (cellOffset p + Z.of_nat i * 2) by lia.
      rewrite E2. apply Z.mod_small. lia.
    + intros j Hj. rewrite Hk by lia. rewrite (get2_upd _ _ _ _ _ U2) by lia. unfold get2.
      pose proof (E1 (2 * Z.of_nat (j - i)) ltac:(lia)) as Ea.
      pose proof (E1 (2 * Z.of_nat (j - i) + 1) ltac:(lia)) as Eb.
      replace (cellOffset p + 2 * Z.of_nat (S j)) with (cellOffset p + Z.of_nat i * 2 + 2 + 2 * Z.of_nat (j - i)) by lia.
      rewrite <- (Z.add_assoc _ _ 1), Ea, Eb, Z.add_assoc.
      by replace (cellOffset p + Z.of_nat i * 2 + 2 * Z.of_nat (j - i))
        with (cellOffset p + 2 * Z.of_nat j) by lia.
  - intros x Hx Hr. by keep.
Qed.
End pointer.
