(* ===== verification/BtList.v ===== *)
(** * A B-tree page implements a list of cells

    [represents p cs]: the page [p] is well formed and its cells are [cs], in
    the order of the pointers.  The insertion and the removal of cells, the
    creation of a page, and reading a page again from its bytes, as
    operations on that list. *)

From stdpp Require Import base list numbers option sets.
From S2P Require Import Prelude Util Varint Btree BtVarint BtCell BtMem BtPage BtTile BtSpace BtFree BtAlloc BtDefrag BtUpdate.
#[local] Open Scope Z_scope.

(** ** The invariant *)

Record geometry (p : MemPage) : Prop := {
  ge_bt : bt_ok (pBt p);
  ge_hdr : hdrOffset p = 0 \/ hdrOffset p = 100;
  ge_flag : decodeFlags p (nthZ (aData p) (hdrOffset p)) = (SQLITE_OK, p);
  ge_off : cellOffset p = hdrOffset p + 8 + childPtrSize p;
  ge_idx : aCellIdx p = cellOffset p;
  ge_mask : maskPage p = u16 (pageSize (pBt p) - 1);
  ge_buf : buf (pageSize (pBt p)) (aData p)
}.

(** The cells [ks], with their addresses, and the rest of the content area. *)
Record layout (p : MemPage) (top : Z) (ks : list (Z * list Z)) (fr : list (Z * Z)) (fg : list Z)
    : Prop := {
  la_cells : Forall (fun k => cell_ok p k.2) ks;
  la_count : nCell p = Z.of_nat (length ks);
  la_head : get2 (aData p) (hdrOffset p + 3) = nCell p;
  la_space : space (hdrOffset p) (usableSize (pBt p)) (aData p) (cellOffset p + 2 * nCell p) top
               (blocks ks) fr fg;
  la_pointers : pointers (aData p) (cellOffset p) ks;
  la_contents : contents (aData p) ks;
  la_free : nFree p = usableSize (pBt p) - (cellOffset p + 2 * nCell p) - total (blocks ks)
}.

Definition represents (p : MemPage) (cs : list (list Z)) : Prop :=
  geometry p /\ nOverflow p = 0 /\ exists top ks fr fg, ks.*2 = cs /\ layout p top ks fr fg.

(** What an operation on the cells leaves alone: every field but the data,
    the number of cells and the free bytes; and in the data, all that is
    before the page header, the flag, the right child of an interior page,
    and the reserved bytes at the end. *)
Definition same_page (p p' : MemPage) : Prop :=
  p' = setData (aData p') (setCell (nCell p') (setFree (nFree p') p)) /\
  untouched p (cellOffset p) (aData p) (aData p').

Lemma setData_eta p : setData (aData p) p = p.
Proof. by destruct p. Qed.

Lemma geometry_kind p : geometry p -> kind_ok p.
Proof. intros H. exists p, (nthZ (aData p) (hdrOffset p)). rewrite (ge_flag p H). cbn. by split_and!. Qed.

Lemma decodeFlags_same p d n m f :
  decodeFlags p f = (SQLITE_OK, p) ->
  decodeFlags (setData d (setCell n (setFree m p))) f =
    (SQLITE_OK, setData d (setCell n (setFree m p))).
Proof.
  destruct p. unfold decodeFlags. cbn. repeat case_match; try done; intros [=]; by subst.
Qed.

Lemma geometry_same p p' :
  geometry p -> same_page p p' -> buf (pageSize (pBt p)) (aData p') -> geometry p'.
Proof.
  intros [H1 H2 H3 H4 H5 H6 H7] [E U] Hb. rewrite E in *. cbn in *. split; cbn; try done.
  rewrite U by (destruct H2 as [-> | ->]; lia). by apply decodeFlags_same.
Qed.

Lemma geometry_bounds p :
  geometry p ->
  0 <= hdrOffset p /\ hdrOffset p + 8 <= cellOffset p /\ cellOffset p <= hdrOffset p + 12 /\
  hdrOffset p + 12 <= usableSize (pBt p) /\
  usableSize (pBt p) <= pageSize (pBt p) /\ pageSize (pBt p) <= 65536.
Proof.
  intros Hg. pose proof (kind_cases p (geometry_kind p Hg)) as Hk. destruct Hg as [[Hu Hp _ _] Hh _ Ho _ _ _].
  cbv zeta in Hk. lia.
Qed.

(** The content area depends on few bytes outside of it. *)
Lemma space_same hdr us d d' lo lo' top bs bs' fr fg :
  space hdr us d lo top bs fr fg -> 0 <= hdr -> hdr + 8 <= lo' <= top -> bs ≡ₚ bs' ->
  (forall x, hdr + 1 <= x < hdr + 3 \/ hdr + 5 <= x < hdr + 8 \/
     (exists b s, (b, s) ∈ fr /\ b <= x < b + 4) -> nthZ d' x = nthZ d x) ->
  space hdr us d' lo' top bs' fr fg.
Proof.
  intros [H1 H2 H3 H4 H5 H6 H7] Hh Hlo Hp Hs. split; [| | |done|by eapply big_perm| |lia].
  - rewrite <- H1. apply get2_same; apply Hs; lia.
  - rewrite <- H2. apply Hs. lia.
  - eapply links_same; [done|]. intros y [Hy|Hy]; apply Hs; [lia|tauto].
  - eapply tiles_perm; [|done]. by rewrite Hp.
Qed.

Lemma blocks_perm ks ks' : ks ≡ₚ ks' -> blocks ks ≡ₚ blocks ks'.
Proof. intros H. unfold blocks. by apply Permutation_map. Qed.

(** ** Insertion *)

(** A program that writes the content [c] of a cell at an address. *)
Definition writes (sz : Z) (c : list Z) (write : Z -> PM unit) : Prop :=
  forall idx d q, 0 <= idx -> idx + Z.of_nat (length c) <= sz -> buf sz d ->
    ok (write idx) (fun _ p' => exists d', p' = setData d' q /\ buf sz d' /\ holds d' idx c /\
      upd d d' idx (Z.of_nat (length c))) (setData d q).

Lemma cellInsert_ok p cs i c write :
  represents p cs -> cell_ok p c -> (i <= length cs)%nat ->
  Z.of_nat (length c) + 2 <= nFree p -> writes (pageSize (pBt p)) c write ->
  ok (idx ← allocateSpace (Z.of_nat (length c));
      modify (fun p => setFree (nFree p - u16 (2 + Z.of_nat (length c))) p);;
      write idx;; insertPointer (Z.of_nat i) idx)
    (fun _ p' => represents p' (insertAt i c cs) /\ same_page p p') p.
Proof.
  intros (Hg & Hov & top & ks & fr & fg & <- & HL) Hc Hi Hfit Hw.
  pose proof (geometry_bounds p Hg) as (G1 & G2 & G3 & G4 & G5 & G6).
  destruct HL as [L1 L2 L3 L4 L5 L6 L7]. pose proof Hc as [Hc4 _]. rewrite length_fmap in Hi.
  pose proof (allocateSpace_ok p (pageSize (pBt p)) G1 G5 ltac:(lia) G4 G2 (aData p) _ top ks fr fg
    (Z.of_nat (length c)) (ge_buf p Hg) L4 L2 eq_refl L5 L6 L1 L7 Hc4 Hfit) as Ha.
  rewrite setData_eta in Ha. apply ok_bind. eapply ok_mono; [exact Ha|]. clear Ha.
  intros idx p' (d1 & top1 & ks1 & fr1 & fg1 & -> & Hd1 & Hsnd & Hsp1 & Hlo1 & Hp1 & Hc1 & H3 & Hu1).
  destruct (sp_lo _ _ _ _ _ _ _ _ Hsp1) as [Hl1 Htop1].
  destruct (sp_block _ _ _ _ _ _ _ _ (idx, Z.of_nat (length c)) Hsp1) as (I1 & I2 & _); [by left|]. cbn in I1, I2.
  assert (length ks1 = length ks) as Hlen by (rewrite <- (length_fmap snd ks1), Hsnd; apply length_fmap).
  pose proof (total_nonneg _ (sp_big _ _ _ _ _ _ _ _ L4)) as Htn.
  apply ok_bind, ok_modify. fields.
  replace (u16 (2 + Z.of_nat (length c))) with (2 + Z.of_nat (length c)) by (symmetry; apply Z.mod_small; lia).
  set (q := setFree (nFree p - (2 + Z.of_nat (length c))) p).
  change (setFree _ (setData d1 p)) with (setData d1 q).
  apply ok_bind. eapply ok_mono; [apply Hw; [lia|lia|done]|]. intros _ p' (d2 & -> & Hd2 & Hh2 & U2).
  eapply ok_mono; [eapply (insertPointer_ok q (pageSize (pBt p)) G1 G2 (ge_idx p Hg) d2 ks1 i idx c);
    [done|cbn; lia|cbn; rewrite (get2_upd _ _ _ _ _ U2) by lia; by rewrite H3| |lia|cbn; lia|cbn; lia|lia]|].
  { eapply pointers_same; [done|]. intros x Hx. cbn in Hx. apply U2; lia. }
  cbn [q setFree hdrOffset cellOffset nCell]. intros _ p' (d3 & -> & Hd3 & H33 & Hp3 & U3).
  assert (forall x, hdrOffset p + 5 <= x < cellOffset p \/ cellOffset p + 2 * (nCell p + 1) <= x ->
    x < idx \/ idx + Z.of_nat (length c) <= x -> nthZ d3 x = nthZ d1 x) as Hkeep.
  { intros x Hx Hr. rewrite U3, (U2 x) by lia. done. }
  assert (same_page p (setData d3 (setCell (nCell p + 1) q))) as Hsame.
  { split; [done|]. cbn. intros x Hx Hr. rewrite U3, (U2 x), (Hu1 x) by lia. done. }
  split; [|done]. split_and!; [by eapply geometry_same|done|].
  exists top1, (insertAt i (idx, c) ks1), fr1, fg1. split; [by rewrite insertAt_fmap, Hsnd|].
  split; cbn.
  - apply cells_ok_snd. rewrite insertAt_fmap, Hsnd. cbn. rewrite insertAt_perm. constructor; [done|].
    by apply cells_ok_snd.
  - rewrite (Permutation_length (insertAt_perm _ _ _)). cbn. lia.
  - done.
  - eapply space_same; [exact Hsp1|lia|lia| |].
    + symmetry. by rewrite (blocks_perm _ _ (insertAt_perm i (idx, c) ks1)).
    + intros x [Hx|[Hx|(b & s & Hin & Hx)]].
      * rewrite U3, (U2 x) by lia. done.
      * rewrite U3, (U2 x) by lia. done.
      * destruct (sp_free _ _ _ _ _ _ _ _ b s Hsp1 Hin) as (? & ? & ?).
        destruct (sp_apart _ _ _ _ _ _ _ _ (idx, Z.of_nat (length c)) b s Hsp1) as [Hap|Hap];
          [by left|done|cbn in Hap; apply Hkeep; lia..].
  - done.
  - intros k Hin. rewrite insertAt_perm in Hin. apply elem_of_cons in Hin as [->|Hin].
    + eapply holds_same; [exact Hh2|]. intros x Hx. cbn in Hx. apply U3; lia.
    + eapply holds_same; [by apply Hc1|]. intros x Hx.
      destruct (sp_block _ _ _ _ _ _ _ _ (block k) Hsp1) as (? & ? & ?); [right; by apply elem_block|].
      destruct (tiles_apart _ _ _ _ _ (block k) (sp_tile _ _ _ _ _ _ _ _ Hsp1) (sp_all_big _ _ _ _ _ _ _ _ Hsp1)) as [Hap|Hap];
        [apply elem_of_app; left; by apply elem_block|cbn in *; apply Hkeep; lia..].
  - rewrite (total_perm _ _ (blocks_perm _ _ (insertAt_perm i (idx, c) ks1))).
    change (blocks ((idx, c) :: ks1)) with ((idx, Z.of_nat (length c)) :: blocks ks1). cbn [total snd].
    rewrite (total_blocks_snd _ _ Hsnd). lia.
Qed.

Lemma writes_cell sz c sz' :
  Forall is_byte c -> sz' = Z.of_nat (length c) -> writes sz c (fun idx => memwrite idx (slice c 0 sz')).
Proof.
  intros Hc -> idx d q Hi Hl Hd. unfold slice. rewrite drop_0, Nat2Z.id, firstn_all.
  eapply w_bytes; [done|done|done|done|]. intros d' Hd' E U. by exists d'.
Qed.

(** The cell with its first four bytes replaced. *)
Definition withChild (c : list Z) (iChild : Z) : list Z := sqlite3Put4byte iChild ++ drop 4 c.

Lemma length_withChild c iChild : 4 <= Z.of_nat (length c) -> length (withChild c iChild) = length c.
Proof. intros. unfold withChild. rewrite length_app, length_drop. cbn. lia. Qed.

Lemma writes_child sz c iChild :
  Forall is_byte c -> 4 <= Z.of_nat (length c) ->
  writes sz (withChild c iChild) (fun idx =>
    memwrite (idx + 4) (slice c 4 (Z.of_nat (length c) - 4));; put4byte idx iChild).
Proof.
  intros Hc H4 idx d q Hi Hl Hd. rewrite length_withChild in Hl |- * by done.
  assert (slice c 4 (Z.of_nat (length c) - 4) = drop 4 c) as ->.
  { unfold slice. apply firstn_all2. rewrite length_drop. lia. }
  apply ok_bind. eapply w_bytes; [done|lia|rewrite length_drop; lia|by apply Forall_drop|].
  intros d1 Hd1 E1 U1. unfold put4byte.
  eapply w_bytes; [done|lia|cbn; lia|apply Put4byte_bytes|]. intros d2 Hd2 E2 U2.
  exists d2. split_and!; [done|done| |].
  - intros i Hi'. rewrite length_withChild in Hi' by done. unfold withChild, nthZ at 2.
    destruct (decide (i < 4)).
    + rewrite lookup_app_l by (cbn; lia). apply E2. cbn. lia.
    + rewrite lookup_app_r by (cbn; lia).
      rewrite (U2 (idx + i)) by (cbn; lia). specialize (E1 (i - 4)).
      rewrite length_drop in E1. replace (idx + 4 + (i - 4)) with (idx + i) in E1 by lia.
      rewrite E1 by lia. unfold nthZ. do 2 f_equal. cbn. lia.
  - intros x Hx Hr. cbn in U2. rewrite length_drop in U1. rewrite (U2 x), (U1 x) by lia. done.
Qed.

(** What the insertion of the cell [c] into page [p] has to enter into the
    pointer map of an auto-vacuum database: a cell with a payload that is not
    all on the page is the parent of its first overflow page. *)
Definition mapEntry (p : MemPage) (c : list Z) : option Z :=
  let info := xParseCell p c in
  if autoVacuum (pBt p) && (nLocal info <? nPayload info)
  then Some (sqlite3Get4byte (drop (Z.to_nat (nSize info - 4)) c)) else None.

(** The result of an operation that makes this entry, when [put] answers for
    the pointer map. *)
Definition mapResult (put : Z -> Z -> Z -> Z) (p : MemPage) (c : list Z) : result unit :=
  match mapEntry p c with
  | None => Ok ()
  | Some ovfl =>
      let rc := put ovfl PTRMAP_OVERFLOW1 (pgno p) in if rc =? SQLITE_OK then Ok () else Err rc
  end.

(** The pointer map is another page. *)
Lemma ptrmap_run put c p :
  (if autoVacuum (pBt p) then ptrmapPutOvflPtr put c else mret ()) p = Some (mapResult put p c, p).
Proof.
  unfold mapResult, mapEntry. destruct (autoVacuum (pBt p)); [|done]. cbn [andb].
  unfold ptrmapPutOvflPtr, mbind, PM_bind, field. destruct (_ <? _); [|done]. by destruct (_ =? _).
Qed.

Lemma mapResult_ok put p c : (forall a b d, put a b d = SQLITE_OK) -> mapResult put p c = Ok ().
Proof. intros H. unfold mapResult. destruct (mapEntry p c); [|done]. by rewrite H. Qed.

Lemma mapResult_same put p p' c : same_page p p' -> mapResult put p' c = mapResult put p c.
Proof. intros Hs. unfold mapResult, mapEntry, xParseCell. by destruct Hs as [-> _]. Qed.

(** The two functions up to the pointer map. *)
Lemma insertFast_ok p cs i c :
  represents p cs -> cell_ok p c -> (i <= length cs)%nat -> Z.of_nat (length c) + 2 <= nFree p ->
  ok (idx ← allocateSpace (Z.of_nat (length c));
      modify (fun p => setFree (nFree p - u16 (2 + Z.of_nat (length c))) p);;
      memwrite idx (slice c 0 (Z.of_nat (length c)));; insertPointer (Z.of_nat i) idx)
    (fun _ p' => represents p' (insertAt i c cs) /\ same_page p p') p.
Proof.
  intros Hr Hc Hi Hfit. apply cellInsert_ok; [done..|]. apply writes_cell; [apply Hc|done].
Qed.

(** A run of a program that begins with a part that succeeds. *)
Lemma ok_then {A B} (m : PM A) (f : A -> PM B) Q p :
  ok m Q p -> exists a p', Q a p' /\ (m ≫= f) p = f a p'.
Proof. intros (a & p' & E & HQ)%ok_run. exists a, p'. unfold mbind, PM_bind. by rewrite E. Qed.

(** The insertion and what follows it. *)
Lemma insert_split (A : PM Z) (B : PM unit) (W P : Z -> PM unit) (T : PM unit) p :
  (idx ← A; B;; W idx;; P idx;; T) p = ((idx ← A; B;; W idx;; P idx);; T) p.
Proof.
  unfold mbind, PM_bind. destruct (A p) as [[[a|] p1]|]; [|done..].
  destruct (B p1) as [[[[]|] p2]|]; [|done..]. by destruct (W a p2) as [[[[]|] p3]|].
Qed.

Lemma insert_split2 (A : PM Z) (B : PM unit) (W W' P : Z -> PM unit) (T : PM unit) p :
  (idx ← A; B;; W idx;; W' idx;; P idx;; T) p = ((idx ← A; B;; (W idx;; W' idx);; P idx);; T) p.
Proof.
  unfold mbind, PM_bind. destruct (A p) as [[[a|] p1]|]; [|done..].
  destruct (B p1) as [[[[]|] p2]|]; [|done..]. destruct (W a p2) as [[[[]|] p3]|]; [|done..].
  by destruct (W' a p3) as [[[[]|] p4]|].
Qed.

Lemma layout_length p top ks fr fg :
  geometry p -> layout p top ks fr fg -> 6 * Z.of_nat (length ks) <= usableSize (pBt p) - 8.
Proof.
  intros Hg HL. pose proof (geometry_bounds p Hg) as (? & ? & ? & ? & ? & ?).
  pose proof (sp_total _ _ _ _ _ _ _ _ (la_space _ _ _ _ _ HL)) as Ht.
  destruct (sp_lo _ _ _ _ _ _ _ _ (la_space _ _ _ _ _ HL)) as [Hl _].
  pose proof (total_nonneg fr (spaced_big _ _ _ (sp_spaced _ _ _ _ _ _ _ _ (la_space _ _ _ _ _ HL)))).
  assert (4 * Z.of_nat (length ks) <= total (blocks ks)) as Hfour.
  { pose proof (la_cells _ _ _ _ _ HL) as Hc. clear -Hc. induction Hc as [|k ks [Hk _] _ IH]; [done|].
    cbn [length blocks map total]. fold (blocks ks). change (block k).2 with (Z.of_nat (length k.2)). lia. }
  rewrite (la_count _ _ _ _ _ HL) in Hl. lia.
Qed.

Lemma represents_length p cs : represents p cs -> 6 * Z.of_nat (length cs) <= usableSize (pBt p) - 8.
Proof.
  intros (Hg & _ & top & ks & fr & fg & <- & HL). rewrite length_fmap. by eapply layout_length.
Qed.

Section inserts.
Context (pagerWrite : Z) (put : Z -> Z -> Z -> Z).

(** The outcome of an insertion of the cell [c], which is stored as [c']: it
    overflows, or the pager refuses the write, or it is on the page; then the
    result is the one of the pointer map. *)
Definition inserted (p : MemPage) (cs : list (list Z)) (i : nat) (c c' : list Z)
    (r : result unit) (p' : MemPage) : Prop :=
  if nFree p <? Z.of_nat (length c') + 2 then
    r = Ok () /\ p' = setOvfl 1 (<[0%nat := Z.of_nat i]> (aiOvfl p)) (<[0%nat := c']> (apOvfl p)) p
  else if negb (pagerWrite =? SQLITE_OK) then r = Err pagerWrite /\ p' = p
  else represents p' (insertAt i c' cs) /\ same_page p p' /\ r = mapResult put p c.

Lemma addOverflow_run p i c :
  nOverflow p = 0 -> Z.of_nat i < 65536 ->
  addOverflow (Z.of_nat i) c p =
    Some (Ok (), setOvfl 1 (<[0%nat := Z.of_nat i]> (aiOvfl p)) (<[0%nat := c]> (apOvfl p)) p).
Proof.
  intros Hov Hi. unfold addOverflow. rewrite Hov. cbn. unfold u16. by rewrite Z.mod_small by lia.
Qed.

Lemma insertTail_run p cs i c c' p1 :
  represents p1 (insertAt i c' cs) -> same_page p p1 ->
  exists r p', (if autoVacuum (pBt p1) then ptrmapPutOvflPtr put c else mret ()) p1 = Some (r, p') /\
    represents p' (insertAt i c' cs) /\ same_page p p' /\ r = mapResult put p c.
Proof. intros Hr Hs. eexists _, p1. split; [apply ptrmap_run|]. split_and!; [done..|]. by apply mapResult_same. Qed.

Lemma insertCellFast_run p cs i c :
  represents p cs -> cell_ok p c -> (i <= length cs)%nat ->
  exists r p', insertCellFast pagerWrite put (Z.of_nat i) c (Z.of_nat (length c)) p = Some (r, p') /\
    inserted p cs i c c r p'.
Proof.
  intros Hr Hc Hi. pose proof (represents_length _ _ Hr) as Hlen. pose proof Hr as (Hg & Hov & _).
  pose proof (geometry_bounds p Hg) as (_ & _ & _ & _ & ? & ?).
  unfold insertCellFast, inserted. unfold mbind at 1, PM_bind at 1, field at 1.
  destruct (Z.ltb_spec (nFree p) (Z.of_nat (length c) + 2)).
  { rewrite addOverflow_run by (done || lia). eauto. }
  destruct (negb _); [by eexists _, _|]. rewrite insert_split.
  destruct (ok_then _ (fun _ => av ← field (fun p => autoVacuum (pBt p));
    if (av : bool) then ptrmapPutOvflPtr put c else mret ()) _ _
    (insertFast_ok p cs i c Hr Hc Hi ltac:(lia))) as ([] & p1 & [Hr1 Hs1] & ->).
  by apply insertTail_run.
Qed.

(** With room, for a cell at the begin of a larger buffer. *)
Lemma insertBuffer_run p cs i c rest :
  pagerWrite = SQLITE_OK -> (forall a b d, put a b d = SQLITE_OK) ->
  represents p cs -> cell_ok p c -> (i <= length cs)%nat -> Z.of_nat (length c) + 2 <= nFree p ->
  exists p', insertCellFast pagerWrite put (Z.of_nat i) (c ++ rest) (Z.of_nat (length c)) p = Some (Ok (), p') /\
    represents p' (insertAt i c cs) /\ same_page p p'.
Proof.
  intros Hpw Hput Hr Hc Hi Hfree. unfold insertCellFast.
  assert (slice (c ++ rest) 0 (Z.of_nat (length c)) = slice c 0 (Z.of_nat (length c))) as ->.
  { unfold slice. rewrite Nat2Z.id, !drop_0. by rewrite take_app_le, take_ge by lia. }
  unfold mbind at 1, PM_bind at 1, field at 1.
  destruct (Z.ltb_spec (nFree p) (Z.of_nat (length c) + 2)); [lia|]. rewrite Hpw.
  change (negb (SQLITE_OK =? SQLITE_OK)) with false. cbv iota. rewrite insert_split.
  destruct (ok_then _ (fun _ => av ← field (fun p => autoVacuum (pBt p));
    if (av : bool) then ptrmapPutOvflPtr put (c ++ rest) else mret ()) _ _
    (insertFast_ok p cs i c Hr Hc Hi ltac:(lia))) as ([] & p1 & [Hr1 Hs1] & ->).
  destruct (insertTail_run p cs i (c ++ rest) c p1 Hr1 Hs1) as (r & p' & E & Hr' & Hs' & ->).
  rewrite mapResult_ok in E by done. by exists p'.
Qed.

Lemma insertCell_run p cs i c iChild :
  represents p cs -> Forall is_byte c -> 4 <= Z.of_nat (length c) -> cell_ok p (withChild c iChild) ->
  (i <= length cs)%nat ->
  exists r p', insertCell pagerWrite put (Z.of_nat i) c (Z.of_nat (length c)) iChild p = Some (r, p') /\
    inserted p cs i c (withChild c iChild) r p'.
Proof.
  intros Hr Hb H4 Hc Hi. pose proof (represents_length _ _ Hr) as Hlen. pose proof Hr as (Hg & Hov & _).
  pose proof (geometry_bounds p Hg) as (_ & _ & _ & _ & ? & ?).
  pose proof (length_withChild c iChild H4) as Hl.
  unfold insertCell, inserted. rewrite Hl. unfold mbind at 1 2, PM_bind at 1 2, field at 1 2.
  rewrite Hov. cbn [Z.eqb negb orb].
  destruct (Z.ltb_spec (nFree p) (Z.of_nat (length c) + 2)).
  { rewrite addOverflow_run by (done || lia). unfold store. cbn [Z.to_nat take app length]. 
    unfold withChild. eauto. }
  destruct (negb _); [by eexists _, _|].
  pose proof (cellInsert_ok p cs i (withChild c iChild) _ Hr Hc Hi ltac:(lia) (writes_child _ c iChild Hb H4)) as Hok.
  rewrite Hl in Hok.
  rewrite insert_split2.
  destruct (ok_then _ (fun _ => av ← field (fun p => autoVacuum (pBt p));
    if (av : bool) then ptrmapPutOvflPtr put c else mret ()) _ _ Hok) as ([] & p1 & [Hr1 Hs1] & ->).
  by apply insertTail_run.
Qed.
End inserts.

(** ** Removal *)

Lemma blocks_delete ks i k : ks !! i = Some k -> blocks ks ≡ₚ block k :: blocks (delete i ks).
Proof. intros H. by rewrite (blocks_perm _ _ (delete_Permutation ks i k H)). Qed.

Lemma delete_fmap {A B} (f : A -> B) (i : nat) (l : list A) : f <$> delete i l = delete i (f <$> l).
Proof. rewrite !delete_take_drop, fmap_app. by rewrite fmap_take, fmap_drop. Qed.

Lemma length_del {A} (l : list A) i x :
  l !! i = Some x -> Z.of_nat (length (delete i l)) = Z.of_nat (length l) - 1.
Proof. intros H. rewrite length_delete by done. apply lookup_lt_Some in H. lia. Qed.

(** The last cell: the page is empty. *)
Lemma dropLast_ok p d :
  let hdr := hdrOffset p in let us := usableSize (pBt p) in
  0 <= hdr -> hdr + 12 <= us -> us <= pageSize (pBt p) -> hdr + 8 <= cellOffset p <= us ->
  buf (pageSize (pBt p)) d ->
  ok (memset (hdr + 1) 0 4;; putbyte (hdr + 7) 0;; put2byte (hdr + 5) us;;
      modify (fun p => setFree (us - hdrOffset p - childPtrSize p - 8) p))
    (fun _ p' => exists d', p' = setData d' (setFree (us - hdr - childPtrSize p - 8) p) /\
       buf (pageSize (pBt p)) d' /\ get2 d' (hdr + 3) = 0 /\
       space hdr us d' (cellOffset p) us [] [] [] /\ upd d d' (hdr + 1) 7) (setData d p).
Proof.
  intros hdr us H0 H1 H2 H3 Hd.
  apply ok_bind. eapply w_set; [done|lia|lia|lia|unfold is_byte; lia|]. intros d1 Hd1 E1 U1.
  apply ok_bind. eapply w_put1; [done|lia|lia|]. intros d2 Hd2 E2 U2.
  apply ok_bind. eapply w_put2; [done|lia|lia|]. intros d3 Hd3 E3 U3.
  apply ok_modify. exists d3. split_and!; [done|done| | |intros x Hx Hr; by keep].
  - apply get2_zero; [apply Hd3|]. keep. by rewrite !E1 by lia.
  - split; [done|by keep| |done|constructor| |lia].
    + cbn. apply get2_zero; [apply Hd3|]. keep. by rewrite !E1 by lia.
    + unfold tiles. replace (us - us) with 0 by lia. done.
Qed.

Lemma drop_ok p cs i c :
  represents p cs -> cs !! i = Some c ->
  ok (dropCell (Z.of_nat i) (Z.of_nat (length c)))
    (fun _ p' => represents p' (delete i cs) /\ same_page p p') p.
Proof.
  intros (Hg & Hov & top & ks & fr & fg & <- & HL) Hi.
  pose proof (geometry_bounds p Hg) as (G1 & G2 & G3 & G4 & G5 & G6).
  destruct HL as [L1 L2 L3 L4 L5 L6 L7].
  rewrite list_lookup_fmap in Hi. destruct (ks !! i) as [k|] eqn:Hk; [|done]. cbn in Hi. injection Hi as <-.
  assert (k ∈ ks) as Hin by (by eapply list_elem_of_lookup_2).
  pose proof (lookup_lt_Some _ _ _ Hk) as Hlt. pose proof (length_del _ _ _ Hk) as Hdel.
  destruct (sp_block _ _ _ _ _ _ _ _ _ L4 (elem_block _ _ Hin)) as (B1 & B2 & B3). cbn in B1, B2, B3.
  destruct (sp_lo _ _ _ _ _ _ _ _ L4) as [Hl Htop].
  rewrite <- (setData_eta p). unfold dropCell, usable. afield. rewrite (ge_idx p Hg).
  pose proof (ge_buf p Hg) as Hb. aget2. rewrite (L5 i k Hk). afield. afield.
  aguard; [apply Z.ltb_ge; lia|].
  replace (u16 (Z.of_nat (length k.2))) with (Z.of_nat (length k.2)) by (symmetry; apply Z.mod_small; lia).
  apply ok_bind. eapply ok_mono; [apply (freeSpace_ok p (pageSize (pBt p)) G1 G5 ltac:(lia) G4 (aData p)
    (cellOffset p + 2 * nCell p) top k.1 (Z.of_nat (length k.2)) (blocks (delete i ks)) fr fg);
    [done|eapply space_same; [exact L4|lia|lia|apply (blocks_delete _ _ _ Hk)|done]]|].
  intros _ p' (d1 & top1 & fr1 & fg1 & -> & Hd1 & Hsp1 & Hk1).
  apply ok_bind, ok_modify. fields.
  replace (u16 (nCell p - 1)) with (nCell p - 1) by (symmetry; apply Z.mod_small; lia).
  set (q := setCell (nCell p - 1) (setFree (nFree p + Z.of_nat (length k.2)) p)).
  change (setCell _ (setFree _ (setData d1 p))) with (setData d1 q).
  afield. cbn [q setCell setFree nCell].
  assert (Forall (fun k => cell_ok p k.2) (delete i ks)) as Hcells.
  { apply Forall_forall. intros k' Hin'. eapply Forall_forall in L1; [exact L1|].
    rewrite (delete_Permutation ks i k Hk). by right. }
  assert (total (blocks ks) = Z.of_nat (length k.2) + total (blocks (delete i ks))) as Htot
    by (by rewrite (total_perm _ _ (blocks_delete _ _ _ Hk))).
  destruct (Z.eqb_spec (nCell p - 1) 0) as [Hz|Hz].
  - eapply ok_mono; [apply (dropLast_ok q d1); cbn; [lia|lia|lia|lia|done]|].
    cbn [q setCell setFree hdrOffset pBt cellOffset childPtrSize].
    intros _ p' (d2 & -> & Hd2 & H3 & Hsp2 & U2).
    assert (delete i ks = []) as Hnil by (apply length_zero_iff_nil; lia).
    assert (same_page p (setData d2 (setFree (usableSize (pBt p) - hdrOffset p - childPtrSize p - 8) q))) as Hsame.
    { split; [done|]. intros x Hx Hr. cbn. rewrite (U2 x) by lia. apply Hk1; lia. }
    split; [|done]. split_and!; [by eapply geometry_same|done|].
    exists (usableSize (pBt p)), [], [], []. split; [by rewrite <- delete_fmap, Hnil|].
    split; cbn; try done; try (rewrite Hz; done).
    + rewrite Hz, Z.mul_0_r, Z.add_0_r. done.
    + intros k' Hk'. by apply elem_of_nil in Hk'.
    + rewrite (ge_off p Hg). lia.
  - apply ok_bind. eapply w_move; [done|lia..|]. intros d2 Hd2 E2 U2.
    apply ok_bind. eapply w_put2; [done|lia|lia|]. intros d3 Hd3 E3 U3.
    apply ok_modify. cbn [nFree setData q setCell setFree].
    change (setFree ?m (setData d3 q)) with (setData d3 (setFree m q)).
    assert (forall x, hdrOffset p + 5 <= x < cellOffset p \/ cellOffset p + 2 * nCell p <= x ->
              nthZ d3 x = nthZ d1 x) as Hkeep by (intros; by keep).
    assert (same_page p (setData d3 (setFree (nFree p + Z.of_nat (length k.2) + 2) q))) as Hsame.
    { split; [done|]. intros x Hx Hr. cbn. keep. apply Hk1; lia. }
    split; [|done]. split_and!; [by eapply geometry_same|done|].
    exists top1, (delete i ks), fr1, fg1. split; [apply delete_fmap|].
    split; cbn; [done|lia| | | | |].
    + rewrite E3. apply Z.mod_small. lia.
    + destruct (sp_lo _ _ _ _ _ _ _ _ Hsp1).
      eapply space_same; [exact Hsp1|lia|lia|done|].
      intros x [Hx|[Hx|(b & s & Hin' & Hx)]]; [by keep|by keep|].
      destruct (sp_free _ _ _ _ _ _ _ _ b s Hsp1 Hin'). apply Hkeep. lia.
    + apply (pointers_delete d1).
      * eapply pointers_same; [exact L5|]. intros x Hx. apply Hk1; lia.
      * intros j Hj. rewrite (get2_upd _ _ _ _ _ U3) by lia. by keep.
      * intros j Hj Hj'. rewrite (get2_upd _ _ _ _ _ U3) by lia. unfold get2.
        pose proof (E2 (2 * Z.of_nat (j - i)) ltac:(lia)) as Ea.
        pose proof (E2 (2 * Z.of_nat (j - i) + 1) ltac:(lia)) as Eb.
        replace (cellOffset p + 2 * Z.of_nat j) with (cellOffset p + 2 * Z.of_nat i + 2 * Z.of_nat (j - i)) by lia.
        rewrite <- (Z.add_assoc _ _ 1), Ea, Eb, Z.add_assoc.
        by replace (cellOffset p + 2 * Z.of_nat i + 2 + 2 * Z.of_nat (j - i))
          with (cellOffset p + 2 * Z.of_nat (S j)) by lia.
    + intros k' Hin'. assert (block k' ∈ blocks (delete i ks)) as Hb' by (by apply elem_block).
      destruct (sp_block _ _ _ _ _ _ _ _ _ Hsp1 Hb') as (C1 & C2 & _). cbn in C1, C2.
      destruct (sp_lo _ _ _ _ _ _ _ _ Hsp1).
      eapply holds_same; [apply L6; rewrite (delete_Permutation ks i k Hk); by right|].
      intros x Hx. rewrite Hkeep by lia. apply Hk1; [lia|]. do 4 right. by exists (block k').
    + lia.
Qed.

(** ** Access to a cell *)

Lemma findCell_run p cs i c :
  represents p cs -> cs !! i = Some c ->
  exists pc rest, findCell (Z.of_nat i) p = Some (Ok pc, p) /\
    drop (Z.to_nat pc) (aData p) = c ++ rest /\ Forall is_byte rest /\ cell_ok p c /\
    8 <= pc /\ pc + Z.of_nat (length c) <= usableSize (pBt p) /\ Z.of_nat i < nCell p.
Proof.
  intros (Hg & Hov & top & ks & fr & fg & <- & HL) Hi.
  pose proof (geometry_bounds p Hg) as (G1 & G2 & G3 & G4 & G5 & G6).
  destruct HL as [L1 L2 L3 L4 L5 L6 L7].
  rewrite list_lookup_fmap in Hi. destruct (ks !! i) as [k|] eqn:Hk; [|done]. cbn in Hi. injection Hi as <-.
  assert (k ∈ ks) as Hin by (by eapply list_elem_of_lookup_2).
  pose proof (lookup_lt_Some _ _ _ Hk) as Hlt.
  destruct (sp_block _ _ _ _ _ _ _ _ _ L4 (elem_block _ _ Hin)) as (B1 & B2 & B3). cbn in B1, B2, B3.
  destruct (sp_lo _ _ _ _ _ _ _ _ L4) as [Hl Htop]. destruct (ge_buf p Hg) as [Hlen Hby].
  exists k.1, (drop (Z.to_nat k.1 + length k.2) (aData p)). split_and!.
  - assert (ok (findCell (Z.of_nat i)) (fun r p' => r = k.1 /\ p' = p) p) as Hok.
    { unfold findCell. apply ok_bind, ok_field, ok_bind, ok_field, ok_bind. rewrite (ge_idx p Hg).
      apply ok_get2byte; [lia|lia|]. apply ok_ret. split; [|done]. rewrite (L5 i k Hk), (ge_mask p Hg).
      destruct (bo_power _ (ge_bt p Hg)) as (e & He & Hpw). unfold u16. rewrite Z.mod_small by lia.
      rewrite Hpw, Z.sub_1_r, <- Z.ones_equiv, Z.land_comm, Z.land_ones, <- Hpw by lia.
      apply Z.mod_small. lia. }
    apply ok_run in Hok as (r & p' & E & -> & ->). done.
  - apply holds_split; [by apply L6|lia|lia].
  - by apply Forall_drop.
  - by eapply Forall_forall in L1.
  - lia.
  - lia.
  - lia.
Qed.

(** The cells can be read back: their size, and what a parse finds. *)
Lemma cellSize_run p cs i c :
  represents p cs -> cs !! i = Some c -> cellSize (Z.of_nat i) p = Some (Ok (Z.of_nat (length c)), p).
Proof.
  intros Hr Hi. destruct (findCell_run p cs i c Hr Hi) as (pc & rest & E & Ed & Hb & Hc & H8 & Hl & _).
  pose proof Hr as (Hg & _). destruct (ge_buf p Hg) as [Hlen _]. pose proof (geometry_bounds p Hg) as (_ & _ & _ & _ & Hu & _).
  unfold cellSize, mbind, PM_bind. rewrite E. unfold field, cellSizeAt. destruct Hc as (H4 & _ & Hc).
  rewrite inside_true, Ed, Hc by (done || lia). done.
Qed.
