(* ===== verification/BtInit.v ===== *)
(** * Creation of a page, and reading a page from its bytes

    [zeroPage] makes an empty page.  [btreeInitPage] and
    [btreeComputeFreeSpace], which trust nothing but the bytes of a page,
    accept every well-formed page and find the fields that the operations
    had kept up to date. *)

From stdpp Require Import base list numbers option sets.
From S2P Require Import Prelude Util Varint Btree BtVarint BtCell BtMem BtPage BtTile BtSpace BtFree BtAlloc BtDefrag BtUpdate BtList.
#[local] Open Scope Z_scope.

(** A page as the pager gives it: the bytes and the place in the file. *)
Record raw (p : MemPage) : Prop := {
  ra_bt : bt_ok (pBt p);
  ra_hdr : hdrOffset p = 0 \/ hdrOffset p = 100;
  ra_buf : buf (pageSize (pBt p)) (aData p)
}.

(** ** An empty page *)

Definition pageFlag (flags : Z) : Prop := flags = 2 \/ flags = 5 \/ flags = 10 \/ flags = 13.

(** What [decodeFlags] does with a supported flag. *)
Lemma decodeFlags_ok p flags :
  pageFlag flags ->
  (decodeFlags p flags).1 = SQLITE_OK /\
  let q := (decodeFlags p flags).2 in
  aData q = aData p /\ pBt q = pBt p /\ hdrOffset q = hdrOffset p /\ nOverflow q = nOverflow p /\
  childPtrSize q = (if Z.land flags PTF_LEAF =? 0 then 4 else 0).
Proof. intros [->|[->|[->| ->]]]; done. Qed.

(** It changes nothing the second time. *)
Lemma decodeFlags_again p x flags :
  pageFlag flags ->
  let q := (decodeFlags p flags).2 in
  x = mkMemPage (isInit x) (intKey q) (intKeyLeaf q) (pgno x) (leaf q) (hdrOffset x)
    (childPtrSize q) (max1bytePayload q) (nOverflow x) (maxLocal q) (minLocal q)
    (cellOffset x) (nFree x) (nCell x) (maskPage x) (aiOvfl x) (apOvfl x) (pBt q)
    (aData x) (aDataEnd x) (aCellIdx x) (aDataOfst x) (xCellSizeM q) (xParseCellM q) ->
  decodeFlags x flags = (SQLITE_OK, x).
Proof. intros [->|[->|[->| ->]]] q ->; done. Qed.

Lemma zeroPage_ok p flags :
  raw p -> pageFlag flags ->
  ok (zeroPage flags) (fun _ p' => represents p' [] /\ pBt p' = pBt p /\ hdrOffset p' = hdrOffset p /\
    nthZ (aData p') (hdrOffset p) = flags) p.
Proof.
  intros [Hbt Hh Hb] Hf. pose proof Hbt as [Hu Hps _ _]. rewrite <- (setData_eta p).
  set (hdr := hdrOffset p) in *. set (us := usableSize (pBt p)) in *.
  unfold zeroPage. afield. afield. fold hdr us. apply ok_bind.
  eapply (ok_mono _ (fun _ p' => exists d, p' = setData d p /\ buf (pageSize (pBt p)) d)).
  { destruct (negb _); [|by apply ok_ret; exists (aData p)].
    eapply w_set; [done|lia|lia|lia|unfold is_byte; lia|]. intros d ???. by exists d. }
  intros _ p' (d & -> & Hd).
  assert (0 <= flags < 256) as Hfr by (destruct Hf as [->|[->|[->| ->]]]; lia).
  apply ok_bind. eapply w_put1; [done|lia|lia|]. intros d1 Hd1 E1 U1.
  apply ok_bind. eapply w_set; [done|lia|lia|lia|unfold is_byte; lia|]. intros d2 Hd2 E2 U2.
  apply ok_bind. eapply w_put1; [done|lia|lia|]. intros d3 Hd3 E3 U3.
  apply ok_bind. eapply w_put2; [done|lia|lia|]. intros d4 Hd4 E4 U4.
  do 4 apply ok_bind, ok_modify. apply ok_modify.
  set (first := u16 (hdr + (if Z.land flags PTF_LEAF =? 0 then 12 else 8))).
  assert (first = hdr + (if Z.land flags PTF_LEAF =? 0 then 12 else 8)) as Hfirst
    by (apply Z.mod_small; destruct (_ =? 0); lia).
  assert (u16 (us - first) = us - first) as Hfree by (apply Z.mod_small; destruct (_ =? 0); lia).
  rewrite Hfree. destruct (decodeFlags_ok (setFree (us - first) (setData d4 p)) flags Hf)
    as (_ & Q1 & Q2 & Q3 & Q4 & Q5). cbn in Q1, Q2, Q3, Q4.
  set (q := (decodeFlags (setFree (us - first) (setData d4 p)) flags).2) in *.
  assert (nthZ d4 hdr = flags) as Hflag by (keep; rewrite E1; apply Z.mod_small; lia).
  assert (nFree q = us - first) as Hnf by (unfold q, decodeFlags; repeat case_match; done).
  split; [|by cbn; rewrite Q1]. split_and!; [split|done|].
  - cbn. by rewrite Q2.
  - cbn. by rewrite Q3.
  - cbn [setInit setCell setOffsets setOvfl aData hdrOffset]. rewrite Q1, Q3. fold hdr. rewrite Hflag.
    by eapply decodeFlags_again.
  - cbn. rewrite Q3, Q5. fold hdr. rewrite Hfirst. destruct (_ =? 0); lia.
  - done.
  - cbn. by rewrite Q2.
  - cbn. by rewrite Q1, Q2.
  - exists us, [], [], []. split; [done|]. split; cbn; rewrite ?Q1, ?Q2, ?Q3, ?Hnf; fold hdr us; try done; try lia.
    + apply get2_zero; [apply Hd4|]. keep. by rewrite !E2 by lia.
    + split; [done|by keep| |done|constructor| |destruct (_ =? 0); lia].
      * cbn. apply get2_zero; [apply Hd4|]. keep. by rewrite !E2 by lia.
      * unfold tiles. by replace (us - us) with 0 by lia.
    + intros k Hk. by apply elem_of_nil in Hk.
Qed.

(** ** Reading a page *)

(** A cell of an interior page has a child pointer and at least one more
    byte. *)
Lemma cell_interior p c :
  bt_ok (pBt p) -> kind_ok p -> cell_ok p c -> leaf p = false -> 5 <= Z.of_nat (length c).
Proof.
  intros Hb Hk (_ & Hc & Hs) Hl. specialize (Hs [] ltac:(constructor)). rewrite app_nil_r in Hs. rewrite <- Hs.
  unfold xCellSize. pose proof (varintLen_bound c 4).
  destruct (kind_cases p Hk) as [H'|[H'|[H'|H']]]; destruct H' as (-> & _ & Hch & Hlf & _); try congruence.
  - unfold cellSizePtr. destruct (getPayloadSize_ref c 4 Hc) as (w & -> & _); [lia|].
    pose proof (u32_range w). pose proof (limits_bounds p Hb Hk) as (Hm & Hx). pose proof Hb as [Hu Hp _ _].
    destruct (Z.leb_spec (u32 w) (maxLocal p)).
    + unfold u16. rewrite Z.mod_small; lia.
    + rewrite spilledSize_toLocal by (done || lia).
      pose proof (toLocal_bounds p (u32 w) Hb Hk ltac:(lia)). lia.
  - unfold cellSizePtrNoPayload. rewrite (skipVarint_ref 8 c 4 (4 + 9) 0) by (done || lia).
    rewrite getVarintRef_at by lia. cbn [fst]. unfold u16. rewrite Z.mod_small; lia.
Qed.

(** The loop over the free blocks adds up their sizes. *)
Lemma freeBlocksLoop_ok p sz us fuel d f s fr lo acc :
  buf sz d -> us <= sz -> 0 < lo -> spaced lo ((f, s) :: fr) us -> chain d f ((f, s) :: fr) ->
  (length fr < fuel)%nat ->
  ok (freeBlocksLoop fuel (us - 4) f acc) (fun r p' => let '(pc, size, next, n) := r in
    p' = setData d p /\ next = 0 /\ pc + size <= us /\ n = acc + total ((f, s) :: fr)) (setData d p).
Proof.
  intros Hd Hus. revert fuel f s lo acc. induction fr as [|[g t] fr IH];
    intros [|fuel] f s lo acc Hlo (S1 & S2 & S3 & S4) (_ & L1 & L2) Hfuel; cbn in Hfuel; try lia;
    cbn [freeBlocksLoop]; (aguard; [apply Z.ltb_ge; lia|]); aget2; aget2; rewrite L1.
  - cbn in L2. rewrite L2. replace (0 <=? f + s + 3) with true by (symmetry; apply Z.leb_le; lia).
    apply ok_ret. cbn. split_and!; [done|done|lia|lia].
  - destruct L2 as (L2 & L3 & L4). rewrite L2. cbn in S4. destruct S4 as (T1 & T2 & T3 & T4).
    replace (g <=? f + s + 3) with false by (symmetry; apply Z.leb_gt; lia).
    eapply ok_mono; [apply (IH fuel g t (f + s + 4)); [lia|done|done|lia]|].
    intros [[[pc size] next] n] p' (-> & -> & Hp & ->). cbn. split_and!; [done|done|done|lia].
Qed.

Lemma computeFree_ok p d top bs fr fg :
  let hdr := hdrOffset p in let us := usableSize (pBt p) in
  let lo := hdr + 8 + childPtrSize p + 2 * nCell p in
  0 <= hdr -> us <= pageSize (pBt p) -> us <= 65536 -> buf (pageSize (pBt p)) d ->
  space hdr us d lo top bs fr fg ->
  ok btreeComputeFreeSpace (fun _ p' => p' = setData d (setFree (us - lo - total bs) p)) (setData d p).
Proof.
  intros hdr us lo Hhdr Hus Husz Hd Hsp. destruct (sp_lo _ _ _ _ _ _ _ _ Hsp) as [Hl Htop].
  pose proof (sp_total _ _ _ _ _ _ _ _ Hsp) as Htot.
  pose proof (sp_spaced _ _ _ _ _ _ _ _ Hsp) as S. pose proof (spaced_length _ _ _ S ltac:(lia)) as Hlen.
  pose proof (total_nonneg _ (sp_big _ _ _ _ _ _ _ _ Hsp)).
  pose proof (total_nonneg fr (spaced_big _ _ _ S)).
  unfold btreeComputeFreeSpace, usable. afield. afield. fold hdr us.
  apply ok_bind, (ok_get2byteNotZero _ top); [lia|destruct Hd; fields; lia|apply Hsp|lia|].
  afield. fold lo. aget2. aget1. rewrite (sp_frag _ _ _ _ _ _ _ _ Hsp). apply ok_bind.
  eapply (ok_mono _ (fun n p' => p' = setData d p /\ n = us - total bs)).
  - pose proof (sp_links _ _ _ _ _ _ _ _ Hsp) as L. apply links_chain in L.
    destruct fr as [|[f s] fr].
    + cbn in L. rewrite L. apply ok_ret. split; [done|]. cbn in Htot. lia.
    + assert (get2 d (hdr + 1) = f) as Ef by (by destruct L). rewrite Ef in L |- *.
      destruct (sp_free _ _ _ _ _ _ _ _ f s Hsp) as (F1 & F2 & F3); [by left|].
      replace (0 <? f) with true by (symmetry; apply Z.ltb_lt; lia).
      aguard; [apply Z.ltb_ge; lia|]. apply ok_bind.
      eapply ok_mono; [eapply (freeBlocksLoop_ok p (pageSize (pBt p)) us _ d f s fr (top + 1)); [done|lia|lia|done|done|cbn in Hlen; lia]|].
      intros [[[pc size] next] n] p' (-> & -> & Hpc & ->).
      aguard; [done|]. aguard; [apply Z.ltb_ge; lia|]. apply ok_ret. split; [done|lia].
  - intros n p' [-> ->]. aguard; [apply orb_false_iff; rewrite !Z.ltb_ge; lia|].
    apply ok_modify. unfold u16. rewrite Z.mod_small by lia. by replace (us - total bs - lo) with (us - lo - total bs) by lia.
Qed.

Lemma pageFlag_ok p f : (decodeFlags p f).1 = SQLITE_OK -> pageFlag f.
Proof.
  unfold decodeFlags, pageFlag.
  destruct (Z.leb_spec (Z.lor PTF_ZERODATA PTF_LEAF) f);
    repeat (match goal with |- context [?a =? ?b] => destruct (Z.eqb_spec a b) end; [cbn; intros _; subst; vm_compute; tauto|]);
    done.
Qed.

(** The kind of a page depends on the flag and the limits only. *)
Lemma kind_fields p q f :
  decodeFlags p f = (SQLITE_OK, p) -> pBt q = pBt p ->
  let q1 := (decodeFlags q f).2 in
  childPtrSize q1 = childPtrSize p /\ leaf q1 = leaf p /\ maxLocal q1 = maxLocal p /\
  minLocal q1 = minLocal p /\ xCellSizeM q1 = xCellSizeM p /\ xParseCellM q1 = xParseCellM p.
Proof.
  intros Hp Hq. assert (pageFlag f) as Hf by (eapply pageFlag_ok; by rewrite Hp).
  apply (f_equal snd) in Hp. cbn [snd] in Hp.
  rewrite <- Hp. destruct Hf as [->|[->|[->| ->]]]; cbv zeta; split_and!;
    first [reflexivity | exact (f_equal bt_maxLocal Hq) | exact (f_equal bt_minLocal Hq)
          | exact (f_equal maxLeaf Hq) | exact (f_equal minLeaf Hq)].
Qed.

Lemma cell_ok_same p q c :
  pBt q = pBt p -> maxLocal q = maxLocal p -> minLocal q = minLocal p ->
  xCellSizeM q = xCellSizeM p -> cell_ok p c -> cell_ok q c.
Proof.
  intros H1 H2 H3 H4 (C1 & C2 & C3). split_and!; [done..|]. intros rest Hr. rewrite <- (C3 rest Hr).
  unfold xCellSize, cellSizePtr, cellSizePtrIdxLeaf, cellSizePtrTableLeaf, cellSizePtrNoPayload, spilledSize.
  by rewrite H1, H2, H3, H4.
Qed.

(** The additional checks of a page pass. *)
Lemma sizeCheckLoop_ok q us first last ks off :
  0 <= off -> off + 2 * Z.of_nat (length ks) <= Z.of_nat (length (aData q)) ->
  us <= Z.of_nat (length (aData q)) -> Forall is_byte (aData q) ->
  pointers (aData q) off ks -> contents (aData q) ks ->
  Forall (fun k => cell_ok q k.2 /\ 0 <= first <= k.1 /\ k.1 <= last /\ k.1 + Z.of_nat (length k.2) <= us) ks ->
  ok (sizeCheckLoop (length ks) us first last off) (fun _ p' => p' = q) q.
Proof.
  intros Ho Hl Hus Hby. revert off Ho Hl. induction ks as [|k ks IH]; intros off Ho Hl Hp Hc Hks; [by apply ok_ret|].
  apply pointers_cons in Hp as [Hk Hp]. inversion Hks as [|?? ((C1 & C2 & C3) & C4 & C5 & C6) Hks']; subst.
  cbn [length sizeCheckLoop] in *. apply ok_bind, ok_get2byte; [lia|lia|]. rewrite Hk.
  aguard; [apply orb_false_iff; rewrite !Z.ltb_ge; lia|]. apply ok_bind, ok_field, ok_bind, ok_cellSizeAt; [lia|lia|].
  rewrite (holds_split (aData q) k.1 k.2) by (try lia; apply Hc; by left).
  rewrite C3 by (by apply Forall_drop). aguard; [apply Z.ltb_ge; lia|].
  apply IH; [lia|lia|done| |done]. intros k' Hin. apply Hc. by right.
Qed.

(** The page after [btreeInitPage], from the page [q1] with its kind
    decoded and [n] cells. *)
Definition initPage (q1 : MemPage) (n : Z) : MemPage :=
  setInit true (setFree (-1) (setCell n
    (setOffsets (u16 (pageSize (pBt q1) - 1)) (hdrOffset q1 + 8 + childPtrSize q1)
       (hdrOffset q1 + childPtrSize q1 + 8) (pageSize (pBt q1)) (childPtrSize q1)
       (setOvfl 0 (aiOvfl q1) (apOvfl q1) q1)))).

(** A page in memory with the kind and the bytes of the page [p]. *)
Record decoded (p q1 : MemPage) : Prop := {
  de_bt : pBt q1 = pBt p;
  de_hdr : hdrOffset q1 = hdrOffset p;
  de_data : aData q1 = aData p;
  de_leaf : leaf q1 = leaf p;
  de_child : childPtrSize q1 = childPtrSize p;
  de_max : maxLocal q1 = maxLocal p;
  de_min : minLocal q1 = minLocal p;
  de_size : xCellSizeM q1 = xCellSizeM p;
  de_again : forall n m, decodeFlags (setFree m (initPage q1 n)) (nthZ (aData p) (hdrOffset p)) =
                         (SQLITE_OK, setFree m (initPage q1 n))
}.

Lemma decoded_ok p q :
  geometry p -> pBt q = pBt p -> hdrOffset q = hdrOffset p -> aData q = aData p ->
  decoded p (decodeFlags q (nthZ (aData p) (hdrOffset p))).2.
Proof.
  intros Hg H1 H2 H3. set (f := nthZ (aData p) (hdrOffset p)).
  assert (pageFlag f) as Hf by (eapply pageFlag_ok; unfold f; by rewrite (ge_flag p Hg)).
  destruct (decodeFlags_ok q f Hf) as (Q0 & Q1 & Q2 & Q3 & Q4 & Q5).
  destruct (kind_fields p q f (ge_flag p Hg) H1) as (K1 & K2 & K3 & K4 & K5 & K6).
  split; try congruence. intros n m. fold f. by eapply (decodeFlags_again q).
Qed.

Lemma decoded_geometry p q1 n m : geometry p -> decoded p q1 -> geometry (setFree m (initPage q1 n)).
Proof.
  intros [G1 G2 G3 G4 G5 G6 G7] [D1 D2 D3 D4 D5 D6 D7 D8 D9].
  split; [| |specialize (D9 n m)| | | |]; cbn -[decodeFlags] in *; rewrite ?D1, ?D2, ?D3, ?D5 in *; try done.
  lia.
Qed.

(** The part of [btreeInitPage] after the kind is decoded. *)
Lemma initFields_ok p top ks fr fg q1 data :
  geometry p -> layout p top ks fr fg -> decoded p q1 -> data = hdrOffset q1 ->
  ok (modify (fun p =>
        setOffsets (u16 (pageSize (pBt p) - 1)) (hdrOffset p + 8 + childPtrSize p)
          (data + childPtrSize p + 8) (pageSize (pBt p)) (childPtrSize p)
          (setOvfl 0 (aiOvfl p) (apOvfl p) p));;
      n ← get2byte (data + 3);
      modify (setCell n);;
      mx ← field (fun p => MX_CELL (pBt p));
      corruptIf (mx <? n);;
      modify (fun p => setInit true (setFree (-1) p));;
      ck ← field (fun p => cellSizeCk (pBt p));
      if (ck : bool) then btreeCellSizeCheck else mret ())
    (fun _ p' => p' = initPage q1 (nCell p)) q1.
Proof.
  intros Hg HL HD ->. pose proof (geometry_bounds p Hg) as (B1 & B2 & B3 & B4 & B5 & B6).
  pose proof (layout_length p top ks fr fg Hg HL) as Hlen.
  destruct HL as [L1 L2 L3 L4 L5 L6 L7]. destruct (ge_buf p Hg) as [Hl Hby].
  destruct (sp_lo _ _ _ _ _ _ _ _ L4) as [Hlo Htop]. pose proof HD as [D1 D2 D3 D4 D5 D6 D7 D8 _].
  rewrite <- D3 in L5, L6, Hl, Hby.
  apply ok_bind, ok_modify, ok_bind, ok_get2byte; cbn [setOffsets setOvfl aData]; [lia|lia|].
  replace (get2 (aData q1) (hdrOffset q1 + 3)) with (nCell p) by (by rewrite D2, D3).
  apply ok_bind, ok_modify, ok_bind, ok_field. aguard.
  { apply Z.ltb_ge. cbn. rewrite D1. unfold MX_CELL. apply Z.div_le_lower_bound; lia. }
  apply ok_bind, ok_modify, ok_bind, ok_field. fold (initPage q1 (nCell p)).
  destruct (cellSizeCk _); [|by apply ok_ret].
  unfold btreeCellSizeCheck, usable. do 5 (apply ok_bind, ok_field).
  cbn [initPage setInit setFree setCell setOffsets setOvfl cellOffset nCell pBt leaf].
  rewrite D1, D2, D4, D5. replace (hdrOffset p + 8 + childPtrSize p) with (cellOffset p) by (by rewrite (ge_off p Hg)).
  rewrite L2, Nat2Z.id in *. apply sizeCheckLoop_ok; try done; [cbn; lia..|].
  apply Forall_forall. intros k Hin.
  destruct (sp_block _ _ _ _ _ _ _ _ _ L4 (elem_block _ _ Hin)) as (C1 & C2 & C3). cbn in C1, C2, C3.
  assert (cell_ok p k.2) as Hck by (by eapply Forall_forall in L1).
  split_and!; [by apply (cell_ok_same p)|lia|lia| |lia]. destruct (leaf p) eqn:Elf; [lia|].
  pose proof (cell_interior p k.2 (ge_bt p Hg) (geometry_kind p Hg) Hck Elf). lia.
Qed.

(** The bytes of a well-formed page, read again. *)
Lemma initPage_ok p q cs :
  represents p cs -> pBt q = pBt p -> hdrOffset q = hdrOffset p -> aData q = aData p ->
  ok (btreeInitPage;; btreeComputeFreeSpace)
    (fun _ q' => represents q' cs /\ aData q' = aData p /\ nFree q' = nFree p) q.
Proof.
  intros (Hg & Hov & top & ks & fr & fg & <- & HL) H1 H2 H3.
  pose proof (geometry_bounds p Hg) as (B1 & B2 & B3 & B4 & B5 & B6).
  pose proof (decoded_ok p q Hg H1 H2 H3) as HD. destruct (ge_buf p Hg) as [Hl Hby].
  set (f := nthZ (aData p) (hdrOffset p)) in *.
  apply ok_bind. eapply (ok_mono _ (fun _ p' => p' = initPage (decodeFlags q f).2 (nCell p))).
  - unfold btreeInitPage. apply ok_bind, ok_field. apply ok_bind, ok_getbyte; [lia|rewrite H3; lia|].
    replace (nthZ (aData q) (hdrOffset q)) with f by (unfold f; by rewrite H2, H3).
    apply ok_bind, ok_field, ok_bind, ok_modify.
    assert (pageFlag f) as Hf by (eapply pageFlag_ok; unfold f; by rewrite (ge_flag p Hg)).
    destruct (decodeFlags_ok q f Hf) as (-> & _). aguard; [done|].
    eapply initFields_ok; [done|done|done|]. by rewrite (de_hdr _ _ HD).
  - intros _ p' ->. revert HD. generalize (decodeFlags q f).2. intros q1 HD. pose proof HD as [D1 D2 D3 D4 D5 D6 D7 D8 _].
    pose proof (decoded_geometry p q1 (nCell p) (nFree p) Hg HD) as Hgeo.
    pose proof (computeFree_ok (initPage q1 (nCell p)) (aData q1) top (blocks ks) fr fg) as Hc.
    cbn [initPage setInit setFree setCell setOffsets setOvfl hdrOffset pBt childPtrSize nCell] in Hc.
    rewrite D1, D2, D3, D5 in Hc.
    replace (hdrOffset p + 8 + childPtrSize p) with (cellOffset p) in Hc by (by rewrite (ge_off p Hg)).
    destruct HL as [L1 L2 L3 L4 L5 L6 L7].
    replace (setData (aData p) (initPage q1 (nCell p))) with (initPage q1 (nCell p)) in Hc
      by (rewrite <- D3; by destruct q1).
    eapply ok_mono; [apply Hc; [lia|lia|lia|apply Hg|done]|]. clear Hc. intros _ p' ->.
    rewrite <- L7. replace (setData (aData p) (setFree (nFree p) (initPage q1 (nCell p))))
      with (setFree (nFree p) (initPage q1 (nCell p))) by (rewrite <- D3; by destruct q1).
    split; [|split; [done|done]]. split_and!; [done|done|].
    exists top, ks, fr, fg. split; [done|].
    split; cbn [initPage setInit setFree setCell setOffsets setOvfl hdrOffset pBt childPtrSize nCell aData cellOffset nFree];
      rewrite ?D1, ?D2, ?D3, ?D5, <- ?(ge_off p Hg); try done.
    eapply Forall_impl; [exact L1|]. intros k Hk. by apply (cell_ok_same p).
Qed.
