(* ===== verification/BtHistory.v ===== *)
(** * Histories of a B-tree page

    Sequences of insertions and removals on a page, from its creation on,
    against the same operations on a list; and the theorems on the single
    operations. *)

From stdpp Require Import base list numbers option sets.
From S2P Require Import Prelude Util Varint Btree BtVarint BtCell BtMem BtPage BtTile BtSpace BtFree BtAlloc BtDefrag BtUpdate BtList BtInit.
#[local] Open Scope Z_scope.

(** ** Edits *)

Inductive edit :=
| Ins (i : nat) (c : list Z)
| Del (i : nat).

(** The calls: a removal looks up the size of the cell first. *)
Definition edit1 (e : edit) : PM unit :=
  match e with
  | Ins i c => insertCellFast SQLITE_OK (fun _ _ _ => SQLITE_OK) (Z.of_nat i) c (Z.of_nat (length c))
  | Del i => sz ← cellSize (Z.of_nat i); dropCell (Z.of_nat i) sz
  end.

Fixpoint edits (es : list edit) : PM unit :=
  match es with
  | [] => mret ()
  | e :: es' => edit1 e;; edits es'
  end.

(** The same on a list. *)
Definition spec1 (cs : list (list Z)) (e : edit) : list (list Z) :=
  match e with
  | Ins i c => insertAt i c cs
  | Del i => delete i cs
  end.

(** The bytes that the cells and their pointers need. *)
Fixpoint used (cs : list (list Z)) : Z :=
  match cs with
  | [] => 0
  | c :: cs' => Z.of_nat (length c) + 2 + used cs'
  end.

(** An insertion is of a cell of the kind of the page, and the sum of the
    sizes is within the [room] of the page; nothing is said about how the
    space is fragmented. *)
Fixpoint sensible (p : MemPage) (room : Z) (cs : list (list Z)) (es : list edit) : Prop :=
  match es with
  | [] => True
  | e :: es' =>
      match e with
      | Ins i c => (i <= length cs)%nat /\ cell_ok p c /\ used (insertAt i c cs) <= room
      | Del i => (i < length cs)%nat
      end /\ sensible p room (spec1 cs e) es'
  end.

(** The room of a page with given flags. *)
Definition room (p : MemPage) (flags : Z) : Z :=
  usableSize (pBt p) - (hdrOffset p + (if Z.land flags PTF_LEAF =? 0 then 12 else 8)).

Lemma used_perm cs cs' : cs ≡ₚ cs' -> used cs = used cs'.
Proof. induction 1; cbn; lia. Qed.

Lemma used_total ks : used ks.*2 = total (blocks ks) + 2 * Z.of_nat (length ks).
Proof.
  induction ks as [|k ks IH]; [done|]. rewrite fmap_cons. cbn [used]. rewrite IH.
  cbn [blocks map total length]. fold (blocks ks). change (block k).2 with (Z.of_nat (length k.2)). lia.
Qed.

(** The free bytes of a page. *)
Lemma represents_free p cs :
  represents p cs -> nFree p = usableSize (pBt p) - cellOffset p - used cs.
Proof.
  intros (Hg & _ & top & ks & fr & fg & <- & HL). rewrite used_total.
  rewrite (la_free _ _ _ _ _ HL), (la_count _ _ _ _ _ HL). lia.
Qed.

(** What the edits of a page keep. *)
Definition alike (p q : MemPage) : Prop :=
  pBt q = pBt p /\ hdrOffset q = hdrOffset p /\ cellOffset q = cellOffset p /\
  maxLocal q = maxLocal p /\ minLocal q = minLocal p /\ xCellSizeM q = xCellSizeM p.

Lemma same_alike p q : same_page p q -> alike p q.
Proof. intros [-> _]. done. Qed.

Lemma alike_cell p q c : alike p q -> cell_ok p c -> cell_ok q c.
Proof. intros (H1 & _ & _ & H2 & H3 & H4). by apply cell_ok_same. Qed.

Lemma edit1_ok p q cs e :
  represents q cs -> alike p q ->
  match e with
  | Ins i c => (i <= length cs)%nat /\ cell_ok p c /\
      used (insertAt i c cs) <= usableSize (pBt p) - cellOffset p
  | Del i => (i < length cs)%nat
  end ->
  ok (edit1 e) (fun _ q' => represents q' (spec1 cs e) /\ alike p q') q.
Proof.
  intros Hr Ha He. assert (forall q', same_page q q' -> alike p q') as Htrans.
  { intros q' (A1 & A2 & A3 & A4 & A5 & A6)%same_alike. destruct Ha as (B1 & B2 & B3 & B4 & B5 & B6).
    split_and!; congruence. }
  pose proof (represents_free q cs Hr) as Hfree. destruct e as [i c|i]; cbn [edit1 spec1].
  - destruct He as (Hi & Hc & Hu). apply (alike_cell _ q) in Hc; [|done].
    destruct (insertCellFast_run SQLITE_OK (fun _ _ _ => SQLITE_OK) q cs i c Hr Hc Hi) as (r & q' & E & Hin).
    unfold inserted in Hin. destruct (Z.ltb_spec (nFree q) (Z.of_nat (length c) + 2)) as [Hlt|Hge].
    { exfalso. rewrite (used_perm _ _ (insertAt_perm i c cs)) in Hu. cbn in Hu.
      destruct Ha as (A1 & _ & A3 & _). rewrite A1, A3 in Hfree. lia. }
    cbn in Hin. destruct Hin as (Hr' & Hs & Hok). apply ok_run. exists (), q'.
    split; [|split; [done|by apply Htrans]]. rewrite E. do 2 f_equal.
    rewrite Hok. by apply mapResult_ok.
  - apply lookup_lt_is_Some_2 in He as [c Hc].
    apply ok_bind, ok_run. exists (Z.of_nat (length c)), q. split; [by eapply cellSize_run|].
    eapply ok_mono; [by eapply drop_ok|]. intros _ q' [Hr' Hs]. split; [done|by apply Htrans].
Qed.

Lemma edits_ok p q cs es :
  represents q cs -> alike p q -> sensible p (usableSize (pBt p) - cellOffset p) cs es ->
  ok (edits es) (fun _ q' => represents q' (foldl spec1 cs es) /\ alike p q') q.
Proof.
  revert q cs. induction es as [|e es IH]; intros q cs Hr Ha Hs; [by apply ok_ret|].
  destruct Hs as [He Hs]. cbn [edits foldl]. apply ok_bind.
  eapply ok_mono; [by eapply (edit1_ok p)|]. intros _ q' [Hr' Ha']. by apply IH.
Qed.

(** A new page with its edits. *)
Lemma history_ok p flags es :
  raw p -> pageFlag flags -> sensible (decodeFlags p flags).2 (room p flags) [] es ->
  ok (zeroPage flags;; edits es) (fun _ q => represents q (foldl spec1 [] es) /\ pBt q = pBt p) p.
Proof.
  intros Hraw Hf Hs. apply ok_bind. eapply ok_mono; [by apply zeroPage_ok|].
  intros _ q (Hr & Hbt & Hh & Hflag). pose proof Hr as (Hg & _).
  assert (nthZ (aData q) (hdrOffset q) = flags) as Hflag' by (by rewrite Hh).
  pose proof (ge_flag q Hg) as Hdec. rewrite Hflag' in Hdec.
  destruct (kind_fields q p flags Hdec ltac:(done)) as (K1 & K2 & K3 & K4 & K5 & K6).
  destruct (decodeFlags_ok p flags Hf) as (_ & Q1 & Q2 & Q3 & Q4 & Q5).
  assert (cellOffset q = hdrOffset p + (if Z.land flags PTF_LEAF =? 0 then 12 else 8)) as Hoff.
  { rewrite (ge_off q Hg), Hh, <- K1, Q5. destruct (_ =? 0); lia. }
  eapply ok_mono; [apply (edits_ok q q [] es Hr)|].
  - done.
  - rewrite Hbt, Hoff. change (sensible q (room p flags) [] es). clear -Hs K3 K4 K5 Q2 Hbt.
    revert Hs. generalize (@nil (list Z)). induction es as [|e es IH]; intros cs; [done|].
    cbn. intros [He Hs]. split; [|by apply IH]. destruct e as [i c|i]; [|done].
    destruct He as (H1 & H2 & H3). split_and!; [done| |done].
    eapply cell_ok_same; [..|exact H2]; congruence.
  - intros _ q' (Hr' & Ha & _). split; [done|]. by rewrite Ha.
Qed.

(** ** A page of 512 bytes *)

Definition bt512 : BtShared :=
  payloadLimits (mkBtShared true BTS_FAST_SECURE true 512 512 0 0 0 0 0).

(** A page full of junk. *)
Definition rawPage (hdr : Z) : MemPage :=
  mkMemPage false false false 2 false hdr 0 0 3 0 0 0 77 88 0 [0; 0; 0; 0] [[]; []; []; []] bt512
    (replicate 512 171) 0 0 0 SizePtr ParsePtr.

Lemma bt512_ok : bt_ok bt512.
Proof. split; [vm_compute; by split|by vm_compute|by exists 9|done]. Qed.

Lemma rawPage_ok hdr : hdr = 0 \/ hdr = 100 -> raw (rawPage hdr).
Proof.
  intros Hh. split; [exact bt512_ok|done|]. split; [done|].
  apply Forall_replicate. unfold is_byte. lia.
Qed.

(** A cell of an index leaf: the length of the payload, and the payload. *)
Definition indexCell (n : nat) (b : Z) : list Z := Z.of_nat n :: replicate n b.

Lemma indexCell_ok p n b :
  xCellSizeM p = SizePtrIdxLeaf -> is_byte b -> (3 <= n < 100)%nat -> Z.of_nat n <= maxLocal p ->
  cell_ok p (indexCell n b).
Proof.
  intros Hm Hb Hn Hmax. unfold cell_ok, indexCell. cbn [length]. rewrite length_replicate. split_and!; [lia| |].
  - constructor; [unfold is_byte; lia|by apply Forall_replicate].
  - intros rest Hr. unfold xCellSize. rewrite Hm. unfold cellSizePtrIdxLeaf, getPayloadSize.
    change (nthZ ((Z.of_nat n :: replicate n b) ++ rest) 0) with (Z.of_nat n).
    destruct (Z.leb_spec 0x80 (Z.of_nat n)); [lia|]. destruct (Z.leb_spec (Z.of_nat n) (maxLocal p)); [|lia].
    cbv zeta. destruct (Z.ltb_spec (Z.of_nat n + (0 + 1)) 4); unfold u16; rewrite Z.mod_small; lia.
Qed.

(** Seven insertions fill the page; every second cell is removed; then a cell
    needs a defragmentation. *)
Definition sampleEdits : list edit :=
  [Ins 0 (indexCell 60 1); Ins 1 (indexCell 59 2); Ins 0 (indexCell 58 3); Ins 1 (indexCell 60 4);
   Ins 4 (indexCell 60 5); Ins 5 (indexCell 60 6); Ins 2 (indexCell 60 7);
   Del 1; Del 2; Del 3; Ins 2 (indexCell 90 8); Del 0; Ins 0 (indexCell 90 9); Ins 1 (indexCell 70 10)].

Lemma sample_sensible : sensible (decodeFlags (rawPage 0) 10).2 (room (rawPage 0) 10) [] sampleEdits.
Proof.
  assert (forall n b, is_byte b -> (3 <= n < 100)%nat ->
    cell_ok (decodeFlags (rawPage 0) 10).2 (indexCell n b)) as Hc.
  { intros n b Hb Hn. apply indexCell_ok; [done|done|done|]. vm_compute (maxLocal _). lia. }
  unfold sampleEdits. cbn [sensible].
  repeat (split; [repeat split; try (apply Hc; [unfold is_byte|]; lia); vm_compute; (lia || discriminate)|]).
  done.
Qed.

Definition samplePage : MemPage :=
  match (zeroPage 10;; edits sampleEdits) (rawPage 0) with
  | Some (_, p) => p
  | None => rawPage 0
  end.

Definition sampleCells : list (list Z) := foldl spec1 [] sampleEdits.

Lemma samplePage_ok : represents samplePage sampleCells.
Proof.
  assert (forall m : PM unit, ok m (fun _ q => represents q sampleCells /\ pBt q = pBt (rawPage 0)) (rawPage 0) ->
    represents (match m (rawPage 0) with Some (_, p) => p | None => rawPage 0 end) sampleCells) as H.
  { intros m H. unfold ok in H. destruct (m (rawPage 0)) as [[[[]|] q]|]; [apply H|done..]. }
  apply H, history_ok; [by apply rawPage_ok; left|unfold pageFlag; tauto|exact sample_sensible].
Qed.

Lemma drop_ok_run p cs i c :
  represents p cs -> cs !! i = Some c ->
  exists p', dropCell (Z.of_nat i) (Z.of_nat (length c)) p = Some (Ok (), p') /\
    represents p' (delete i cs).
Proof.
  intros Hr Hi. destruct (proj1 (ok_run _ _ _) (drop_ok p cs i c Hr Hi)) as ([] & p' & E & H & _). by exists p'.
Qed.

(** ** The theorems *)

(** C3: any sequence of insertions and removals of cells on a new page, of
    any kind and on top of any old content, of which the cells always fit in
    sum, succeeds, however the free space is fragmented on the way; no access
    is outside of the page, and the page has the cells of the list with the
    same insertions and removals, in order. *)
Theorem page_history_refines p flags es :
  raw p -> pageFlag flags -> sensible (decodeFlags p flags).2 (room p flags) [] es ->
  exists q, (zeroPage flags;; edits es) p = Some (Ok (), q) /\ represents q (foldl spec1 [] es).
Proof.
  intros Hraw Hf Hs. destruct (proj1 (ok_run _ _ _) (history_ok p flags es Hraw Hf Hs)) as ([] & q & E & H & _).
  by exists q.
Qed.

Lemma page_history_refines_witness :
  exists q, (zeroPage 10;; edits sampleEdits) (rawPage 0) = Some (Ok (), q) /\
    represents q [indexCell 90 9; indexCell 70 10; indexCell 60 7; indexCell 90 8; indexCell 59 2; indexCell 60 6].
Proof.
  apply (page_history_refines (rawPage 0) 10 sampleEdits).
  - apply rawPage_ok. by left.
  - unfold pageFlag. tauto.
  - exact sample_sensible.
Defined.

(** C12: [insertCellFast] inserts the cell into the list of cells of the page
    when the free bytes suffice for it and its pointer, wherever they are,
    and leaves everything else on the page alone; otherwise it records an
    overflow cell.  It fails when the pager refuses the write, with nothing
    changed, and after the insertion when the pointer map of an auto-vacuum
    database refuses the entry of the first overflow page of a cell whose
    payload is not all on the page; for any other cell there is no entry. *)
Theorem insertCellFast_refines pagerWrite put p cs i c :
  represents p cs -> cell_ok p c -> (i <= length cs)%nat ->
  exists r p', insertCellFast pagerWrite put (Z.of_nat i) c (Z.of_nat (length c)) p = Some (r, p') /\
    inserted pagerWrite put p cs i c c r p'.
Proof. apply insertCellFast_run. Qed.

Lemma insertCellFast_refines_witness :
  exists p', insertCellFast SQLITE_OK (fun _ _ _ => SQLITE_OK) 1 (indexCell 50 77) 51 samplePage = Some (Ok (), p') /\
    represents p' (insertAt 1 (indexCell 50 77) sampleCells).
Proof.
  destruct (insertCellFast_refines SQLITE_OK (fun _ _ _ => SQLITE_OK) samplePage sampleCells 1 (indexCell 50 77))
    as (r & p' & E & H).
  - exact samplePage_ok.
  - apply indexCell_ok; [vm_compute; reflexivity|unfold is_byte; lia|lia|vm_compute; congruence].
  - vm_compute. lia.
  - exists p'. unfold inserted in H.
    replace (nFree samplePage <? _) with false in H by (vm_compute; reflexivity).
    destruct H as (Hr & _ & ->). rewrite mapResult_ok in E by done. split; [exact E|exact Hr].
Defined.

(** [insertCell] does the same with the child pointer of the cell
    replaced. *)
Theorem insertCell_refines pagerWrite put p cs i c iChild :
  represents p cs -> Forall is_byte c -> 4 <= Z.of_nat (length c) -> cell_ok p (withChild c iChild) ->
  (i <= length cs)%nat ->
  exists r p', insertCell pagerWrite put (Z.of_nat i) c (Z.of_nat (length c)) iChild p = Some (r, p') /\
    inserted pagerWrite put p cs i c (withChild c iChild) r p'.
Proof. apply insertCell_run. Qed.

(** An interior page of a table with one cell. *)
Definition interiorCell : list Z := [0; 0; 0; 7; 42].

Lemma interiorCell_ok p iChild :
  xCellSizeM p = SizePtrNoPayload -> cell_ok p (withChild interiorCell iChild).
Proof.
  intros Hm. split_and!; [vm_compute; congruence| |].
  - unfold withChild. apply Forall_app. split; [apply Put4byte_bytes|]. repeat constructor; unfold is_byte; lia.
  - intros rest Hr. unfold xCellSize. rewrite Hm. reflexivity.
Qed.

Lemma insertCell_refines_witness :
  exists q p', zeroPage 5 (rawPage 100) = Some (Ok (), q) /\
    insertCell SQLITE_OK (fun _ _ _ => SQLITE_OK) 0 interiorCell 5 9 q = Some (Ok (), p') /\
    represents p' [[0; 0; 0; 9; 42]].
Proof.
  assert (ok (zeroPage 5) (fun _ q => represents q [] /\ xCellSizeM q = SizePtrNoPayload /\ nFree q = 400) (rawPage 100)) as Hz.
  { pose proof (zeroPage_ok (rawPage 100) 5 (rawPage_ok 100 (or_intror eq_refl)) ltac:(unfold pageFlag; tauto)) as H.
    apply ok_run in H as (a & q & E & Hr & _). apply ok_run. exists a, q. split; [exact E|]. split; [exact Hr|].
    vm_compute in E. injection E as <- <-. split; reflexivity. }
  apply ok_run in Hz as ([] & q & E & Hr & Hm & Hf).
  destruct (insertCell_refines SQLITE_OK (fun _ _ _ => SQLITE_OK) q [] 0 interiorCell 9)
    as (r & p' & E' & H); [exact Hr| |vm_compute; congruence|by apply interiorCell_ok|vm_compute; lia|].
  { repeat constructor; unfold is_byte; lia. }
  exists q, p'. split; [exact E|]. unfold inserted in H. rewrite Hf in H.
  destruct H as (Hr' & _ & ->). rewrite mapResult_ok in E' by done. split; [exact E'|exact Hr'].
Defined.

(** C13: [dropCell] removes the cell from the list, whatever is around it,
    and changes nothing else on the page. *)
Theorem dropCell_refines p cs i c :
  represents p cs -> cs !! i = Some c ->
  exists p', dropCell (Z.of_nat i) (Z.of_nat (length c)) p = Some (Ok (), p') /\
    represents p' (delete i cs) /\ same_page p p'.
Proof.
  intros Hr Hi. destruct (proj1 (ok_run _ _ _) (drop_ok p cs i c Hr Hi)) as ([] & p' & E & H). by exists p'.
Qed.

Lemma dropCell_refines_witness :
  exists p', dropCell 3 91 samplePage = Some (Ok (), p') /\
    represents p' (delete 3%nat sampleCells) /\ same_page samplePage p'.
Proof.
  apply (dropCell_refines samplePage sampleCells 3 (indexCell 90 8)); [exact samplePage_ok|reflexivity].
Defined.

(** C24: [defragmentPage], by moving one or two free blocks or by rebuilding
    the content area, keeps the cells and their order, the fields and the
    rest of the page; there is no free block afterwards, and at most
    [nMaxFrag] bytes of fragments. *)
Theorem defragmentPage_keeps p cs nMaxFrag :
  represents p cs ->
  exists p', defragmentPage nMaxFrag p = Some (Ok (), p') /\ represents p' cs /\
    same_page p p' /\ nFree p' = nFree p /\
    get2 (aData p') (hdrOffset p + 1) = 0 /\ nthZ (aData p') (hdrOffset p + 7) <= Z.max 0 nMaxFrag.
Proof.
  intros Hr. pose proof Hr as (Hg & Hov & top & ks & fr & fg & <- & HL).
  pose proof (geometry_bounds p Hg) as (G1 & G2 & G3 & G4 & G5 & G6). destruct HL as [L1 L2 L3 L4 L5 L6 L7].
  pose proof (defragmentPage_ok p (pageSize (pBt p)) G1 G5 ltac:(lia) G4 G2 nMaxFrag (aData p) _ top ks fr fg
    (ge_buf p Hg) L4 L2 eq_refl L5 L6 L1 L7) as H.
  rewrite setData_eta in H.
  apply ok_run in H as ([] & p' & E & d' & cbrk & ks' & fg' & -> & Hd & Hsnd & Hsp & Hp & Hc & Hm & H3 & Hu).
  assert (same_page p (setData d' p)) as Hsame by (split; [by destruct p|done]).
  assert (length ks' = length ks) as Hlen by (rewrite <- (length_fmap snd ks'), Hsnd; apply length_fmap).
  eexists. split; [exact E|]. split_and!; [|done|done|exact (sp_links _ _ _ _ _ _ _ _ Hsp)|].
  - split_and!; [by eapply geometry_same|done|]. exists cbrk, ks', [], fg'. split; [done|].
    split; fields; try done.
    + apply cells_ok_snd. rewrite Hsnd. by apply cells_ok_snd.
    + by rewrite Hlen.
    + by rewrite H3.
    + by rewrite (total_blocks_snd _ _ Hsnd).
  - fields. by rewrite (sp_frag _ _ _ _ _ _ _ _ Hsp).
Qed.

Lemma defragmentPage_keeps_witness :
  exists q p', dropCell 3 91 samplePage = Some (Ok (), q) /\ nthZ (aData q) 1 <> 0 /\
    defragmentPage 4 q = Some (Ok (), p') /\ represents p' (delete 3%nat sampleCells).
Proof.
  destruct (drop_ok_run samplePage sampleCells 3 (indexCell 90 8) samplePage_ok eq_refl) as (q & E & Hr).
  destruct (defragmentPage_keeps q (delete 3%nat sampleCells) 4 Hr) as (p' & E' & Hr' & _).
  exists q, p'. split; [exact E|]. split; [|split; [exact E'|exact Hr']].
  assert (match dropCell 3 91 samplePage with Some (_, p) => nthZ (aData p) 1 | None => 0 end <> 0) as H
    by (vm_compute; congruence).
  change (dropCell 3 91 samplePage = Some (Ok (), q)) in E. rewrite E in H. exact H.
Defined.

(** C25: a page that was written by the operations above and is read again
    from its bytes is accepted, also with the additional checks of
    [btreeCellSizeCheck], and has the same cells and free bytes. *)
Theorem btreeInitPage_reads_back p q cs :
  represents p cs -> pBt q = pBt p -> hdrOffset q = hdrOffset p -> aData q = aData p ->
  exists q', (btreeInitPage;; btreeComputeFreeSpace) q = Some (Ok (), q') /\
    represents q' cs /\ nFree q' = nFree p.
Proof.
  intros Hr H1 H2 H3. destruct (proj1 (ok_run _ _ _) (initPage_ok p q cs Hr H1 H2 H3)) as ([] & q' & E & H & _ & Hf).
  by exists q'.
Qed.

Lemma btreeInitPage_reads_back_witness :
  exists q', (btreeInitPage;; btreeComputeFreeSpace) (setData (aData samplePage) (rawPage 0)) = Some (Ok (), q') /\
    represents q' sampleCells /\ nFree q' = 57.
Proof.
  replace 57 with (nFree samplePage) by (vm_compute; reflexivity).
  apply (btreeInitPage_reads_back samplePage);
    [exact samplePage_ok|vm_compute; reflexivity|vm_compute; reflexivity|reflexivity].
Defined.
