(* ===== verification/BtSafe.v ===== *)
(** * Corrupt pages

    The operations on a page whose bytes are arbitrary: whatever a file
    contains, they end, with a result or with SQLITE_CORRUPT, and access
    nothing outside of the page.  The size of a cell is computed only for cells
    that begin inside of the page; it depends on at most 17 bytes from there,
    of which some can be after the end of the page and count as zeros. *)

From stdpp Require Import base list numbers option sets.
From S2P Require Import Prelude Util Varint Btree BtVarint BtCell BtMem BtPage BtSpace BtInit BtHistory.
#[local] Open Scope Z_scope.

(** ** Programs that stay inside *)

Definition safe {A} (m : PM A) (Q : A -> MemPage -> Prop) (p : MemPage) : Prop :=
  match m p with
  | Some (Ok a, p') => Q a p'
  | Some (Err rc, _) => rc = SQLITE_CORRUPT
  | None => False
  end.

Lemma safe_bind {A B} (m : PM A) (f : A -> PM B) Q p :
  safe m (fun a => safe (f a) Q) p -> safe (m ≫= f) Q p.
Proof. unfold safe, mbind, PM_bind. by destruct (m p) as [[[a|rc] p']|]. Qed.

Lemma safe_mono {A} (m : PM A) (Q R : A -> MemPage -> Prop) p :
  safe m Q p -> (forall a p', Q a p' -> R a p') -> safe m R p.
Proof. unfold safe. destruct (m p) as [[[a|rc] p']|]; auto. Qed.

Lemma safe_ok {A} (m : PM A) Q p : ok m Q p -> safe m Q p.
Proof. unfold ok, safe. by destruct (m p) as [[[a|rc] p']|]. Qed.

Lemma safe_guard b (Q : unit -> MemPage -> Prop) p : (b = false -> Q () p) -> safe (corruptIf b) Q p.
Proof. destruct b; cbn; auto. Qed.

Ltac sfield := apply safe_bind, safe_ok, ok_field; fields.
Ltac sguard H := apply safe_bind, safe_guard; intros H.
Ltac sget2 := apply safe_bind, safe_ok; eapply r_get2; [eassumption|lia|lia|].
Ltac sget1 := apply safe_bind, safe_ok; eapply r_get1; [eassumption|lia|lia|].
Ltac sret := apply safe_ok, ok_ret.

Section contained.
Context (p : MemPage) (sz : Z).
Abbreviation hdr := (hdrOffset p).
Abbreviation us := (usableSize (pBt p)).
Abbreviation lo := (cellOffset p + 2 * nCell p).
Context (Hhdr : 0 <= hdr) (Hus : us <= sz) (Husz : us < 65536) (Hlow : hdr + 12 <= us).
Context (Hoff : hdr + 8 <= cellOffset p) (Hn : 0 <= nCell p) (Hlo : lo <= us).

(** The data is still a buffer of the page. *)
Definition inPage {A} (R : A -> Prop) (a : A) (p' : MemPage) : Prop :=
  exists d, p' = setData d p /\ buf sz d /\ R a.

(** ** Free slots *)

(** A slot of [n] bytes; nothing is changed when there is none. *)
Definition slotIn (d : list Z) (n : Z) (r : option Z) (p' : MemPage) : Prop :=
  match r with
  | None => p' = setData d p
  | Some a => inPage (fun a => 0 <= a /\ a + n <= us) a p'
  end.

Lemma findSlotLoop_safe fuel n iAddr pc d :
  buf sz d -> 4 <= n -> 0 <= iAddr -> iAddr + 2 <= sz -> 0 <= pc ->
  us - pc <= Z.of_nat fuel -> (fuel <> 0)%nat ->
  safe (findSlotLoop fuel n iAddr pc (us - n))
    (slotIn d n) (setData d p).
Proof.
  intros Hd Hn4. revert iAddr pc. induction fuel as [|fuel IH]; intros iAddr pc Hia Hia' Hpc Hfuel Hf0; [done|].
  cbn [findSlotLoop]. sfield. pose proof (get2_range d (pc + 2) (proj2 Hd)) as Hr.
  destruct (Z.leb_spec pc (us - n)) as [Hle|Hgt].
  - sget2. destruct (Z.leb_spec 0 (get2 d (pc + 2) - n)).
    + destruct (Z.ltb_spec (get2 d (pc + 2) - n) 4).
      * sget1. destruct (57 <? _); [by sret|].
        apply safe_bind, safe_ok. eapply w_move; [done|lia..|]. intros d1 Hd1 _ _.
        sget1. apply safe_bind, safe_ok. eapply w_put1; [done|lia|lia|]. intros d2 Hd2 _ _.
        sret. exists d2. split_and!; [done|done|lia|lia].
      * sguard E. apply Z.ltb_ge in E. apply safe_bind, safe_ok. eapply w_put2; [done|lia|lia|].
        intros d1 Hd1 _ _. sret. exists d1. split_and!; [done|done|lia|lia].
    + sget2. pose proof (get2_range d pc (proj2 Hd)) as Hr'.
      destruct (Z.leb_spec (get2 d pc) pc) as [Hle'|Hgt'].
      * sguard E. by sret.
      * apply IH; lia.
  - sguard E. by sret.
Qed.

Lemma pageFindSlot_safe n d :
  buf sz d -> 4 <= n ->
  safe (pageFindSlot n)
    (slotIn d n) (setData d p).
Proof.
  intros Hd Hn4. unfold pageFindSlot, usable. sfield. sget2. sfield.
  pose proof (get2_range d (hdr + 1) (proj2 Hd)). apply findSlotLoop_safe; [done|lia..].
Qed.

(** ** Defragmentation *)

Lemma shiftPointers_safe n off f f2 s s2 d :
  buf sz d -> hdr + 8 <= off -> off + 2 * Z.of_nat n <= sz ->
  safe (shiftPointers n off f f2 s s2) (fun _ p' => exists d', p' = setData d' p /\ buf sz d' /\
    nthZ d' (hdr + 7) = nthZ d (hdr + 7)) (setData d p).
Proof.
  revert off d. induction n as [|n IH]; intros off d Hd Ho Hl; cbn [shiftPointers]; [sret; by exists d|].
  sget2. apply safe_bind. eapply (safe_mono _ (fun _ p' => exists d1, p' = setData d1 p /\ buf sz d1 /\
    nthZ d1 (hdr + 7) = nthZ d (hdr + 7))).
  - destruct (_ <? f); [|destruct (_ <? f2); [|sret; by exists d]].
    + apply safe_ok. eapply w_put2; [done|lia|lia|]. intros d1 ? _ U. exists d1. split_and!; [done..|]. by keep.
    + apply safe_ok. eapply w_put2; [done|lia|lia|]. intros d1 ? _ U. exists d1. split_and!; [done..|]. by keep.
  - intros _ p' (d1 & -> & Hd1 & E1). eapply safe_mono; [apply IH; [done|lia|lia]|].
    intros _ p' (d2 & -> & ? & E2). exists d2. split_and!; [done..|]. by rewrite E2.
Qed.

(** Moving the content above the cell pointers does not touch the header. *)
Lemma defragmentFast_safe d :
  buf sz d -> lo <= get2 d (hdr + 5) ->
  safe (defragmentFast us) (fun r p' => match r with
    | None => p' = setData d p
    | Some cbrk => exists d', p' = setData d' p /\ buf sz d' /\ cbrk <= us /\
        nthZ d' (hdr + 7) = nthZ d (hdr + 7)
    end) (setData d p).
Proof.
  intros Hd Htop. unfold defragmentFast. do 3 sfield. sget2.
  pose proof (fun a => get2_range d a (proj2 Hd)) as Hr. pose proof (Hr (hdr + 1)).
  sguard E1. apply Z.ltb_ge in E1. destruct (Z.eqb_spec (get2 d (hdr + 1)) 0); [by sret|].
  set (f := get2 d (hdr + 1)) in *. sget2. pose proof (Hr f). set (f2 := get2 d f) in *.
  sguard E2. apply Z.ltb_ge in E2. apply safe_bind.
  eapply (safe_mono _ (fun _ p' => p' = setData d p)).
  { destruct (f2 =? 0); [by sret|]. sget1. destruct (_ =? 0); [|by sret]. sget1. by sret. }
  intros last p' ->. destruct (negb last); [by sret|].
  sget2. pose proof (Hr (f + 2)). sget2. pose proof (Hr (hdr + 5)). sguard E3. apply Z.leb_gt in E3.
  apply safe_bind. eapply (safe_mono _ (fun r p' => exists d1, p' = setData d1 p /\ buf sz d1 /\
    nthZ d1 (hdr + 7) = nthZ d (hdr + 7) /\ 0 <= r.1 /\ f + r.1 <= us)).
  { destruct (f2 =? 0); cbn [negb].
    - sguard E4. apply Z.ltb_ge in E4. sret. exists d. split_and!; [done|done|done|cbn; lia..].
    - sguard E4. apply Z.ltb_ge in E4. sget2. pose proof (Hr (f2 + 2)). sguard E5. apply Z.ltb_ge in E5.
      apply safe_bind, safe_ok. eapply w_move; [done|lia..|]. intros d1 Hd1 _ U1. apply ok_ret.
      exists d1. split_and!; [done|done|by keep|cbn; lia..]. }
  intros [s s2] p' (d1 & -> & Hd1 & F1 & Hs & Hfs). cbn [fst] in *.
  apply safe_bind, safe_ok. eapply w_move; [done|lia..|]. intros d2 Hd2 _ U2.
  apply safe_bind. eapply safe_mono; [apply shiftPointers_safe; [done|lia|lia]|].
  intros _ p' (d3 & -> & Hd3 & F3). sret. exists d3. split_and!; [done|done|lia|].
  rewrite F3. keep. done.
Qed.

Lemma packCells_safe n src start off cbrk d :
  buf sz d -> Forall is_byte src -> Z.of_nat (length src) = us -> 0 <= start ->
  0 <= off -> off + 2 * Z.of_nat n <= sz -> cbrk <= us ->
  safe (packCells n src us (us - 4) start off cbrk) (inPage (fun r => r <= us)) (setData d p).
Proof.
  intros Hd Hb Hl Hst. revert off cbrk d Hd. induction n as [|n IH]; intros off cbrk d Hd Ho Hlen Hc;
    cbn [packCells]; [sret; by exists d|].
  sget2. pose proof (get2_range d off (proj2 Hd)). sguard E1. apply Z.ltb_ge in E1.
  apply safe_bind, safe_ok, ok_cellSizeAt; [lia|lia|].
  assert (0 <= xCellSize (setData d p) (drop (Z.to_nat (get2 d off)) src)) as Hs.
  { unfold xCellSize, cellSizePtr, cellSizePtrIdxLeaf, cellSizePtrNoPayload, cellSizePtrTableLeaf, spilledSize.
    repeat case_match; apply Z.mod_pos_bound; lia. }
  set (size := xCellSize _ _) in *. sguard E2. apply orb_false_iff in E2 as [E2%Z.ltb_ge E3%Z.ltb_ge].
  apply safe_bind, safe_ok. eapply w_put2; [done|lia|lia|]. intros d1 Hd1 _ _.
  apply safe_bind, safe_ok. eapply w_bytes; [done|lia|rewrite length_slice; lia|by apply slice_bytes|].
  intros d2 Hd2 _ _. apply IH; [done|lia..].
Qed.

Lemma defragmentSlow_safe d :
  buf sz d -> safe (defragmentSlow us) (fun r p' => exists d', p' = setData d' p /\ buf sz d' /\ r <= us /\
    nthZ d' (hdr + 7) = 0) (setData d p).
Proof.
  intros Hd. unfold defragmentSlow. do 3 sfield. sget2. pose proof (get2_range d (hdr + 5) (proj2 Hd)).
  apply safe_bind. eapply (safe_mono _ (inPage (fun r => r <= us))).
  - destruct (0 <? nCell p); [|sret; by exists d].
    apply safe_bind, safe_ok, ok_memread; [lia|lia|destruct Hd; fields; lia|]. fields.
    apply packCells_safe; [done|apply slice_bytes, Hd|destruct Hd; rewrite length_slice; lia|lia..].
  - intros r p' (d1 & -> & Hd1 & Hr). apply safe_bind, safe_ok. eapply w_put1; [done|lia|lia|].
    intros d2 Hd2 E2 _. apply ok_ret. by exists d2.
Qed.

(** [nMaxFrag] is less than the free bytes, so that the number of bytes to
    clear is not negative. *)
Lemma defragmentPage_safe nMaxFrag d :
  buf sz d -> lo <= get2 d (hdr + 5) -> 0 <= nFree p -> nMaxFrag <= nFree p ->
  safe (defragmentPage nMaxFrag) (fun _ p' => exists d' cbrk, p' = setData d' p /\ buf sz d' /\
    get2 d' (hdr + 5) = u16 cbrk /\ lo <= cbrk <= us /\ nFree p - Z.max 0 nMaxFrag <= cbrk - lo) (setData d p).
Proof.
  intros Hd Htop Hfree Hmax. unfold defragmentPage, usable. do 4 sfield. sget1.
  pose proof (nthZ_byte d (hdr + 7) (proj2 Hd)) as Hb. unfold is_byte in Hb.
  apply safe_bind. eapply (safe_mono _ (fun r p' => match r with
    | None => p' = setData d p
    | Some cbrk => exists d', p' = setData d' p /\ buf sz d' /\ cbrk <= us /\ nthZ d' (hdr + 7) <= nMaxFrag
    end)).
  { destruct (Z.leb_spec (nthZ d (hdr + 7)) nMaxFrag); [|by sret].
    eapply safe_mono; [by apply defragmentFast_safe|]. intros [cbrk|] p'; [|done].
    intros (d' & -> & ? & ? & E). exists d'. split_and!; [done..|lia]. }
  intros fast p' Hfast. apply safe_bind.
  eapply (safe_mono _ (fun cbrk p' => exists d', p' = setData d' p /\ buf sz d' /\ cbrk <= us /\
    nthZ d' (hdr + 7) <= Z.max 0 nMaxFrag)).
  { destruct fast as [cbrk|].
    - sret. destruct Hfast as (d' & -> & ? & ? & ?). exists d'. split_and!; [done..|lia].
    - subst p'. eapply safe_mono; [by apply defragmentSlow_safe|]. intros cbrk p' (d' & -> & ? & ? & E).
      exists d'. split_and!; [done..|lia]. }
  clear p' Hfast. intros cbrk p' (d1 & -> & Hd1 & Hc & Hf). sget1. sfield. sguard E.
  apply negb_false_iff, Z.eqb_eq in E.
  pose proof (nthZ_byte d1 (hdr + 7) (proj2 Hd1)) as Hb1. unfold is_byte in Hb1.
  apply safe_bind, safe_ok. eapply w_put2; [done|lia|lia|]. intros d2 Hd2 E2 U2.
  apply safe_bind, safe_ok. eapply w_put1; [done|lia|lia|]. intros d3 Hd3 _ U3.
  apply safe_bind, safe_ok. eapply w_put1; [done|lia|lia|]. intros d4 Hd4 _ U4.
  apply safe_ok. eapply w_set; [done|lia|lia|lia|unfold is_byte; lia|]. intros d5 Hd5 _ U5.
  exists d5, cbrk. split_and!; [done|done|by keep|lia..].
Qed.

(** ** Allocation and release *)

Lemma allocateGap_safe n d :
  buf sz d -> 4 <= n -> n + 2 <= nFree p -> lo <= get2 d (hdr + 5) <= us ->
  safe (allocateGap n lo (get2 d (hdr + 5)))
    (inPage (fun a => 0 <= a /\ a + n <= us /\ lo + 2 <= us)) (setData d p).
Proof.
  intros Hd Hn4 Hfit Htop. unfold allocateGap. sfield. apply safe_bind.
  eapply (safe_mono _ (inPage (fun top => lo + 2 + n <= top <= us))).
  - destruct (Z.ltb_spec (get2 d (hdr + 5)) (lo + 2 + n)); [|sret; exists d; split_and!; [done|done|lia..]].
    sfield. apply safe_bind. eapply safe_mono; [apply defragmentPage_safe; [done|lia|lia|lia]|].
    intros _ p' (d' & cbrk & -> & Hd' & E & Hc & Hge). apply safe_ok.
    apply (ok_get2byteNotZero _ cbrk); [lia|destruct Hd'; fields; lia|done|lia|].
    exists d'. split_and!; [done|done|lia..].
  - intros top p' (d' & -> & Hd' & Ht). apply safe_bind, safe_ok. eapply w_put2; [done|lia|lia|].
    intros d1 Hd1 _ _. apply ok_ret. exists d1. split_and!; [done|done|lia..].
Qed.

Lemma allocateSpace_safe n d :
  buf sz d -> 4 <= n -> n + 2 <= nFree p ->
  safe (allocateSpace n) (inPage (fun a => 0 <= a /\ a + n <= us /\ lo + 2 <= us)) (setData d p).
Proof.
  intros Hd Hn4 Hfit. unfold allocateSpace, usable. do 3 sfield. sget2.
  pose proof (get2_range d (hdr + 5) (proj2 Hd)) as Hr. apply safe_bind.
  eapply (safe_mono _ (fun top p' => p' = setData d p /\ lo <= top <= us /\ top = get2 d (hdr + 5))).
  { destruct (Z.ltb_spec (get2 d (hdr + 5)) lo).
    - destruct (Z.eqb_spec us 65536); [lia|]. by rewrite andb_false_r.
    - sguard E. apply Z.ltb_ge in E. sret. split_and!; [done|lia|lia|done]. }
  intros top p' (-> & Htop & ->). sget1. sget1. apply safe_bind.
  eapply (safe_mono _ (fun r p' => slotIn d n r p' /\ (r <> None -> lo + 2 <= us))).
  - destruct (_ && _) eqn:E; [|sret; split; [done|congruence]].
    apply andb_true_iff in E as [_ E%Z.leb_le].
    eapply safe_mono; [by apply pageFindSlot_safe|]. intros r p' H'. split; [done|lia].
  - intros [a|] p' [Hs Hroom].
    + destruct Hs as (d' & -> & Hd' & Ha). sguard E. sret. specialize (Hroom ltac:(done)).
      exists d'. split_and!; [done|done|lia..].
    + rewrite Hs. by apply allocateGap_safe.
Qed.

Lemma freeSpaceLoop_safe fuel start iPtr d :
  buf sz d -> 0 <= iPtr -> iPtr + 2 <= sz -> start + 2 <= sz -> 0 <= start ->
  start - iPtr < Z.of_nat fuel -> (fuel <> 0)%nat ->
  safe (freeSpaceLoop fuel start iPtr) (fun r p' => p' = setData d p /\ 0 <= r.1 /\
    (r.1 = iPtr \/ r.1 < start) /\ 0 <= r.2 < 65536) (setData d p).
Proof.
  intros Hd. revert iPtr. induction fuel as [|fuel IH]; intros iPtr H0 Hl Hst Hst0 Hfuel Hf0; [done|].
  cbn [freeSpaceLoop]. sget2. pose proof (get2_range d iPtr (proj2 Hd)) as Hr.
  destruct (Z.ltb_spec (get2 d iPtr) start) as [Hlt|Hge].
  - destruct (Z.leb_spec (get2 d iPtr) iPtr).
    + sguard E. sret. cbn. split_and!; [done|lia|by left|lia|lia].
    + eapply safe_mono; [apply (IH (get2 d iPtr)); lia|]. intros r p' (-> & ? & ? & ?).
      split_and!; [done|lia|right; lia|lia|lia].
  - sret. cbn. split_and!; [done|lia|by left|lia|lia].
Qed.

(** The values are those of 16-bit addresses on the page. *)
Lemma coalesce_safe start n d :
  buf sz d -> 0 <= start -> 4 <= n -> start + n <= us ->
  safe (coalesce start n (start + n)) (inPage (fun r => let '(iPtr, iFreeBlk, iStart, iSize, iEnd) := r in
    0 <= iPtr /\ iPtr + 2 <= sz /\ 0 <= iStart /\ iStart + 4 <= us /\ 0 <= iSize /\ iStart + iSize <= us))
    (setData d p).
Proof.
  intros Hd Hst Hn4 Hend. unfold coalesce, usable. sfield. sfield. apply safe_bind.
  pose proof (fun a => get2_range d a (proj2 Hd)) as Hr.
  eapply safe_mono; [apply (freeSpaceLoop_safe _ start (hdr + 1) d); [done|lia..]|].
  intros [iPtr iFree] p' (-> & Hp0 & Hp1 & Hf). cbn [fst snd] in *. sguard E1. apply Z.ltb_ge in E1.
  apply safe_bind. eapply (safe_mono _ (fun r p' => let '(nFrag, iEnd, iSize, iFreeBlk) := r in
    p' = setData d p /\ start + 4 <= iEnd <= us /\ 0 <= iSize /\ start + iSize <= us)).
  { unfold coalesceNext. destruct (negb _ && _) eqn:E; [|sret; split_and!; [done|lia..]].
    apply andb_true_iff in E as [_ E%Z.leb_le]. sguard E2. apply Z.ltb_ge in E2. sget2.
    pose proof (Hr (iFree + 2)). sguard E3. apply Z.ltb_ge in E3. sget2. sret.
    unfold u16. rewrite (Z.mod_small (_ - start)) by lia. split_and!; [done|lia..]. }
  intros [[[nFrag iEnd] iSize] v] p' (-> & He & Hsz0 & Hsz). apply safe_bind.
  eapply (safe_mono _ (fun r p' => let '(nFrag, iSize, iStart) := r in
    p' = setData d p /\ 0 <= iStart /\ iStart + 4 <= us /\ 0 <= iSize /\ iStart + iSize <= us)).
  { unfold coalescePrev. destruct (Z.ltb_spec (hdr + 1) iPtr); [|sret; split_and!; [done|lia..]].
    sget2. pose proof (Hr (iPtr + 2)). destruct (Z.leb_spec start (iPtr + get2 d (iPtr + 2) + 3)); [|sret; split_and!; [done|lia..]].
    sguard E2. apply Z.ltb_ge in E2. sret. unfold u16. rewrite Z.mod_small by lia. split_and!; [done|lia..]. }
  intros [[nFrag' iSize'] iStart] p' (-> & H1 & H2 & H3 & H4). sget1. sguard E2.
  apply safe_bind, safe_ok. eapply w_put1; [done|lia|lia|]. intros d1 Hd1 _ _. apply ok_ret.
  exists d1. split_and!; [done|done|lia..].
Qed.

Lemma freeSpace_safe start n d :
  buf sz d -> 0 <= start -> 4 <= n -> start + n <= us ->
  safe (freeSpace start n) (fun _ p' => exists d', p' = setFree (nFree p + n) (setData d' p) /\ buf sz d')
    (setData d p).
Proof.
  intros Hd Hst Hn4 Hend. unfold freeSpace. sfield. sget1. sget1. apply safe_bind.
  eapply (safe_mono _ (inPage (fun r => let '(iPtr, iFreeBlk, iStart, iSize, iEnd) := r in
    0 <= iPtr /\ iPtr + 2 <= sz /\ 0 <= iStart /\ iStart + 4 <= us /\ 0 <= iSize /\ iStart + iSize <= us))).
  { destruct (_ && _); [|by apply coalesce_safe]. sret. exists d. split_and!; [done|done|lia..]. }
  intros [[[[iPtr v] iStart] iSize] iEnd] p' (d1 & -> & Hd1 & H1 & H2 & H3 & H4 & H5 & H6).
  sget2. sfield. apply safe_bind. eapply (safe_mono _ (inPage (fun _ => True))).
  { destruct (negb _); [|sret; by exists d1]. apply safe_ok.
    eapply w_set; [done|lia|lia|lia|unfold is_byte; lia|]. intros d2 ? _ _. by exists d2. }
  intros _ p' (d2 & -> & Hd2 & _). apply safe_bind. eapply (safe_mono _ (inPage (fun _ => True))).
  - destruct (_ <=? _).
    + sguard E1. sguard E2. apply safe_bind, safe_ok. eapply w_put2; [done|lia|lia|]. intros d3 Hd3 _ _.
      apply safe_ok. eapply w_put2; [done|lia|lia|]. intros d4 Hd4 _ _. by exists d4.
    + apply safe_bind, safe_ok. eapply w_put2; [done|lia|lia|]. intros d3 Hd3 _ _.
      apply safe_bind, safe_ok. eapply w_put2; [done|lia|lia|]. intros d4 Hd4 _ _.
      apply safe_ok. eapply w_put2; [done|lia|lia|]. intros d5 Hd5 _ _. by exists d5.
  - intros _ p' (d3 & -> & Hd3 & _). apply safe_ok, ok_modify. by exists d3.
Qed.
End contained.

(** ** Cells *)

(** A page that passed the checks of its header, with any content. *)
Record fence (p : MemPage) : Prop := {
  fe_bt : bt_ok (pBt p);
  fe_small : usableSize (pBt p) < 65536;
  fe_hdr : hdrOffset p = 0 \/ hdrOffset p = 100;
  fe_kind : kind_ok p;
  fe_off : cellOffset p = hdrOffset p + 8 + childPtrSize p;
  fe_idx : aCellIdx p = cellOffset p;
  fe_buf : buf (pageSize (pBt p)) (aData p);
  fe_count : 0 <= nCell p;
  fe_lo : cellOffset p + 2 * nCell p <= usableSize (pBt p);
  fe_free : 0 <= nFree p;
  fe_mask : maskPage p = u16 (pageSize (pBt p) - 1)
}.

Lemma fence_bounds p :
  fence p ->
  0 <= hdrOffset p /\ hdrOffset p + 8 <= cellOffset p <= hdrOffset p + 12 /\
  hdrOffset p + 12 <= usableSize (pBt p) /\ usableSize (pBt p) <= pageSize (pBt p).
Proof.
  intros [[Hu Hp _ _] _ Hh Hk Ho _ _ _ _ _ _]. pose proof (kind_cases p Hk) as Hc. cbv zeta in Hc. lia.
Qed.

(** Assignments that keep the fence. *)
Lemma fence_set p d n m :
  fence p -> buf (pageSize (pBt p)) d -> 0 <= n -> cellOffset p + 2 * n <= usableSize (pBt p) -> 0 <= m ->
  fence (setData d (setCell n (setFree m p))).
Proof. intros [H1 H2 H3 H4 H5 H6 H7 H8 H9 H10 H11] Hb Hn Hl Hm. by split. Qed.

Lemma xCellSize_bounds p cell :
  bt_ok (pBt p) -> kind_ok p -> Forall is_byte cell -> 4 <= xCellSize p cell < 65536.
Proof.
  intros Hb Hk Hc. unfold xCellSize. pose proof Hb as [Hu Hp _ _].
  pose proof (limits_bounds p Hb Hk) as (Hm & Hx).
  pose proof (varintLen_bound cell 0). pose proof (varintLen_bound cell 4).
  pose proof (varintLen_bound cell (0 + varintLen cell 0)).
  assert (forall n pc, 0 <= n < 2 ^ 32 -> 0 <= pc <= 22 -> 4 <= sizeWith p n pc < 65536) as Hw.
  { intros n pc Hn Hpc. unfold sizeWith. pose proof (toLocal_bounds p n Hb Hk ltac:(lia)).
    destruct (Z.leb_spec n (maxLocal p)); lia. }
  destruct (kind_cases p Hk) as [H'|[H'|[H'|H']]]; destruct H' as (-> & _ & Hch & _).
  - unfold cellSizePtrTableLeaf. destruct (getPayloadSize_ref cell 0 Hc) as (w & -> & _); [lia|].
    pose proof (u32_range w). rewrite (skipKey_ref 8 cell _ 0), getVarintRef_at by (done || lia). cbn [fst].
    rewrite size_spec by (done || lia). apply Hw; lia.
  - unfold cellSizePtrIdxLeaf. destruct (getPayloadSize_ref cell 0 Hc) as (w & -> & _); [lia|].
    pose proof (u32_range w). rewrite size_spec by (done || lia). apply Hw; lia.
  - unfold cellSizePtr. destruct (getPayloadSize_ref cell 4 Hc) as (w & -> & _); [lia|].
    pose proof (u32_range w). destruct (Z.leb_spec (u32 w) (maxLocal p)).
    + unfold u16. rewrite Z.mod_small; lia.
    + rewrite spilledSize_toLocal by (done || lia). pose proof (toLocal_bounds p (u32 w) Hb Hk ltac:(lia)). lia.
  - unfold cellSizePtrNoPayload. rewrite (skipVarint_ref 8 cell 4 (4 + 9) 0) by (done || lia).
    rewrite getVarintRef_at by lia. cbn [fst]. unfold u16. rewrite Z.mod_small; lia.
Qed.

Lemma insertPointer_safe p d i idx :
  fence p -> buf (pageSize (pBt p)) d -> 0 <= i <= nCell p ->
  cellOffset p + 2 * nCell p + 2 <= usableSize (pBt p) ->
  safe (insertPointer i idx) (fun _ p' => exists d', p' = setData d' (setCell (nCell p + 1) p) /\
    buf (pageSize (pBt p)) d') (setData d p).
Proof.
  intros Hf Hd Hi Hroom. pose proof (fence_bounds p Hf) as (B1 & B2 & B3 & B4).
  pose proof (fe_small p Hf). pose proof (fe_count p Hf).
  unfold insertPointer. do 2 sfield. rewrite (fe_idx p Hf).
  apply safe_bind, safe_ok. eapply w_move; [done|lia..|]. intros d1 Hd1 _ _.
  apply safe_bind, safe_ok. eapply w_put2; [done|lia|lia|]. intros d2 Hd2 _ _.
  apply safe_bind, safe_ok, ok_modify. fields.
  replace (u16 (nCell p + 1)) with (nCell p + 1) by (symmetry; apply Z.mod_small; lia).
  change (setCell ?n (setData ?d ?p)) with (setData d (setCell n p)). sfield. sget1.
  apply safe_bind, safe_ok. eapply w_put1; [done|lia|lia|]. intros d3 Hd3 _ _.
  destruct (_ =? 0); [|sret; by exists d3].
  sget1. apply safe_ok. eapply w_put1; [done|lia|lia|]. intros d4 Hd4 _ _. by exists d4.
Qed.

Lemma insert_safe p i c :
  fence p -> Forall is_byte c -> 4 <= Z.of_nat (length c) -> Z.of_nat (length c) + 2 <= nFree p ->
  0 <= i <= nCell p ->
  safe (insertCellFast SQLITE_OK (fun _ _ _ => SQLITE_OK) i c (Z.of_nat (length c))) (fun _ => fence) p.
Proof.
  intros Hf Hc H4 Hfit Hi. pose proof (fence_bounds p Hf) as (B1 & B2 & B3 & B4).
  pose proof (fe_small p Hf). pose proof (fe_lo p Hf). pose proof (fe_count p Hf).
  unfold insertCellFast. apply safe_bind, safe_ok, ok_field.
  destruct (Z.ltb_spec (nFree p) (Z.of_nat (length c) + 2)); [lia|]. cbn [Z.eqb SQLITE_OK negb].
  pose proof (allocateSpace_safe p (pageSize (pBt p)) B1 B4 ltac:(lia) B3 ltac:(lia) ltac:(lia) ltac:(lia)
    (Z.of_nat (length c)) (aData p) (fe_buf p Hf) H4 Hfit) as Ha.
  replace (setData (aData p) p) with p in Ha by (by destruct p).
  apply safe_bind. eapply safe_mono; [exact Ha|]. clear Ha.
  intros idx p' (d1 & -> & Hd1 & Hx & Hx2 & Hroom).
  apply safe_bind, safe_ok, ok_modify. fields.
  set (m := nFree p - u16 (2 + Z.of_nat (length c))).
  assert (0 <= m) as Hm.
  { unfold m, u16. pose proof (Z.mod_le (2 + Z.of_nat (length c)) (2 ^ 16) ltac:(lia) ltac:(lia)). lia. }
  change (setFree m (setData d1 p)) with (setData d1 (setFree m p)).
  assert (fence (setFree m p)) as Hf1.
  { pose proof (fence_set p (aData p) (nCell p) m Hf (fe_buf p Hf) ltac:(lia) ltac:(lia) Hm) as H'. by destruct p. }
  unfold slice. rewrite drop_0, Nat2Z.id, firstn_all. apply safe_bind, safe_ok.
  eapply w_bytes; [done|lia|lia|done|]. intros d2 Hd2 _ _.
  apply safe_bind. eapply safe_mono; [apply (insertPointer_safe (setFree m p) d2 i idx Hf1); [done|done|done]|].
  intros _ p' (d3 & -> & Hd3). cbn [nCell setFree] in *.
  assert (fence (setData d3 (setCell (nCell p + 1) (setFree m p)))) as Hf3.
  { apply fence_set; [done|done|lia|lia|lia]. }
  sfield. destruct (autoVacuum _); [|by sret]. unfold ptrmapPutOvflPtr. sfield.
  destruct (_ <? _); [|by sret]. sfield. by sret.
Qed.

Lemma drop_safe p i sz :
  fence p -> 0 <= i < nCell p -> 4 <= sz < 65536 -> safe (dropCell i sz) (fun _ => fence) p.
Proof.
  intros Hf Hi Hsz. pose proof (fence_bounds p Hf) as (B1 & B2 & B3 & B4).
  pose proof (fe_small p Hf). pose proof (fe_lo p Hf). pose proof (fe_buf p Hf) as Hd.
  replace p with (setData (aData p) p) by (by destruct p).
  unfold dropCell, usable. sfield. rewrite (fe_idx p Hf). sget2.
  pose proof (get2_range (aData p) (cellOffset p + 2 * i) (proj2 Hd)) as Hr.
  sfield. sfield. sguard E. apply Z.ltb_ge in E.
  replace (u16 sz) with sz by (symmetry; apply Z.mod_small; lia). apply safe_bind.
  eapply safe_mono; [apply (freeSpace_safe p (pageSize (pBt p)) B1 B4 ltac:(lia) B3); [lia..|done|lia|lia|lia]|].
  intros _ p' (d1 & -> & Hd1). apply safe_bind, safe_ok, ok_modify. fields.
  replace (u16 (nCell p - 1)) with (nCell p - 1) by (symmetry; apply Z.mod_small; lia).
  set (m := nFree p + sz). pose proof (fe_free p Hf) as Hfree.
  change (setCell ?n (setFree m (setData d1 p))) with (setData d1 (setCell n (setFree m p))).
  set (q := setCell (nCell p - 1) (setFree m p)). sfield.
  change (nCell q) with (nCell p - 1). destruct (Z.eqb_spec (nCell p - 1) 0).
  - apply safe_bind, safe_ok. eapply w_set; [done|lia|lia|lia|unfold is_byte; lia|]. intros d2 Hd2 _ _.
    apply safe_bind, safe_ok. eapply w_put1; [done|lia|lia|]. intros d3 Hd3 _ _.
    apply safe_bind, safe_ok. eapply w_put2; [done|lia|lia|]. intros d4 Hd4 _ _.
    apply safe_ok, ok_modify. change (setFree ?m (setData d4 q)) with
      (setData d4 (setCell (nCell p - 1) (setFree m p))).
    apply fence_set; [done|done|lia|lia|]. cbn. pose proof (fe_off p Hf). lia.
  - apply safe_bind, safe_ok. eapply w_move; [done|lia..|]. intros d2 Hd2 _ _.
    apply safe_bind, safe_ok. eapply w_put2; [done|lia|lia|]. intros d3 Hd3 _ _.
    apply safe_ok, ok_modify. change (setFree ?m (setData d3 q)) with
      (setData d3 (setCell (nCell p - 1) (setFree m p))).
    apply fence_set; [done|done|lia|lia|]. cbn. lia.
Qed.

(** ** Initialisation *)

Lemma freeBlocksLoop_safe p sz us fuel pc acc d :
  buf sz d -> us <= sz -> 0 <= pc -> 0 <= acc -> us - pc <= Z.of_nat fuel -> (fuel <> 0)%nat ->
  safe (freeBlocksLoop fuel (us - 4) pc acc) (fun r p' => let '(pc, size, next, n) := r in
    p' = setData d p /\ 0 <= n) (setData d p).
Proof.
  intros Hd Hus. revert pc acc. induction fuel as [|fuel IH]; intros pc acc Hpc Hacc Hfuel Hf0; [done|].
  cbn [freeBlocksLoop]. sguard E. apply Z.ltb_ge in E. sget2. sget2.
  pose proof (get2_range d (pc + 2) (proj2 Hd)). pose proof (get2_range d pc (proj2 Hd)).
  destruct (Z.leb_spec (get2 d pc) (pc + get2 d (pc + 2) + 3)); [sret; split; [done|lia]|].
  apply IH; lia.
Qed.

(** The number of free bytes is found, or the page is corrupt. *)
Lemma computeFree_safe p d :
  0 <= hdrOffset p -> hdrOffset p + 12 <= usableSize (pBt p) <= pageSize (pBt p) ->
  buf (pageSize (pBt p)) d ->
  safe btreeComputeFreeSpace (fun _ p' => exists m, p' = setData d (setFree m p) /\ 0 <= m /\
    hdrOffset p + 8 + childPtrSize p + 2 * nCell p <= usableSize (pBt p)) (setData d p).
Proof.
  intros Hh Hu Hd. unfold btreeComputeFreeSpace, usable. sfield. sfield.
  apply safe_bind. unfold get2byteNotZero. apply safe_bind, safe_ok. eapply r_get2; [done|lia|lia|].
  sret. sfield. sget2. sget1. pose proof (get2_range d (hdrOffset p + 1) (proj2 Hd)).
  set (top := Z.land _ 0xffff + 1).
  assert (0 <= top) as Htop.
  { unfold top. change 0xffff with (Z.ones 16). rewrite Z.land_ones by lia.
    pose proof (Z.mod_pos_bound (get2 d (hdrOffset p + 5) - 1) (2 ^ 16) ltac:(lia)). lia. }
  pose proof (nthZ_byte d (hdrOffset p + 7) (proj2 Hd)) as Hb. unfold is_byte in Hb.
  apply safe_bind. eapply (safe_mono _ (fun n p' => p' = setData d p /\ 0 <= n)).
  - destruct (Z.ltb_spec 0 (get2 d (hdrOffset p + 1))); [|sret; split; [done|lia]].
    sguard E. apply safe_bind.
    eapply safe_mono; [apply (freeBlocksLoop_safe p (pageSize (pBt p)) (usableSize (pBt p)) _ _ _ d); [done|lia..]|].
    intros [[[pc size] next] n] p' (-> & Hn). sguard E1. sguard E2. by sret.
  - intros n p' (-> & Hn). sguard E. apply orb_false_iff in E as [E1%Z.ltb_ge E2%Z.ltb_ge].
    apply safe_ok, ok_modify. eexists. split; [reflexivity|]. split; [apply Z.mod_pos_bound; lia|lia].
Qed.

Lemma sizeCheckLoop_safe n us first last off p d :
  buf (pageSize (pBt p)) d -> last < pageSize (pBt p) -> 0 <= off -> off + 2 * Z.of_nat n <= pageSize (pBt p) ->
  safe (sizeCheckLoop n us first last off) (fun _ p' => p' = setData d p) (setData d p).
Proof.
  intros Hd Hlast. revert off. induction n as [|n IH]; intros off Ho Hl; cbn [sizeCheckLoop]; [by sret|].
  sget2. pose proof (get2_range d off (proj2 Hd)). sguard E1. apply orb_false_iff in E1 as [_ E1%Z.ltb_ge].
  sfield. apply safe_bind, safe_ok, ok_cellSizeAt; [lia|destruct Hd; lia|]. sguard E2. apply IH; lia.
Qed.

Lemma init_safe p :
  raw p -> usableSize (pBt p) < 65536 ->
  safe (btreeInitPage;; btreeComputeFreeSpace) (fun _ => fence) p.
Proof.
  intros [Hbt Hh Hd] Hsmall. pose proof Hbt as [Hu Hps Hpow _].
  replace p with (setData (aData p) p) by (by destruct p).
  apply safe_bind. unfold btreeInitPage. sfield. sget1. set (f := nthZ (aData p) (hdrOffset p)).
  sfield. apply safe_bind, safe_ok, ok_modify. sguard E. apply negb_false_iff, Z.eqb_eq in E.
  replace (setData (aData p) p) with p in * by (by destruct p).
  assert (pageFlag f) as Hf by (by eapply pageFlag_ok).
  destruct (decodeFlags_ok p f Hf) as (_ & Q1 & Q2 & Q3 & Q4 & Q5).
  assert (0 <= childPtrSize (decodeFlags p f).2 <= 4) as Hch by (rewrite Q5; destruct (_ =? 0); lia).
  assert (kind_ok (decodeFlags p f).2) as Hk by (exists p, f; by split_and!).
  revert Q1 Q2 Q3 Hch Hk. generalize (decodeFlags p f).2. clear E Q4 Q5 Hf f. intros q1 Q1 Q2 Q3 Hch Hk.
  rewrite <- Q3. apply safe_bind, safe_ok, ok_modify.
  apply safe_bind, safe_ok, ok_get2byte; cbn [setOffsets setOvfl aData]; [lia|rewrite Q1; destruct Hd; lia|].
  rewrite Q1. pose proof (get2_range (aData p) (hdrOffset q1 + 3) (proj2 Hd)) as Hn.
  set (n := get2 (aData p) (hdrOffset q1 + 3)) in *.
  apply safe_bind, safe_ok, ok_modify, safe_bind, safe_ok, ok_field. sguard E. apply Z.ltb_ge in E.
  cbn in E. unfold MX_CELL in E. rewrite Q2 in E.
  apply safe_bind, safe_ok, ok_modify, safe_bind, safe_ok, ok_field. fold (initPage q1 n).
  assert (6 * n <= pageSize (pBt p) - 8) as Hmx.
  { pose proof (Z.mul_div_le (pageSize (pBt p) - 8) 6 ltac:(lia)). lia. }
  assert (initPage q1 n = setData (aData p) (initPage q1 n)) as Heta by (rewrite <- Q1; by destruct q1).
  eapply (safe_mono _ (fun _ p' => p' = initPage q1 n)).
  - destruct (cellSizeCk _); [|by sret]. unfold btreeCellSizeCheck, usable.
    do 5 (apply safe_bind, safe_ok, ok_field).
    match goal with |- safe (sizeCheckLoop ?k ?u ?f ?l ?o) _ _ =>
      pose proof (sizeCheckLoop_safe k u f l o (initPage q1 n) (aData p)) as Hsc end.
    rewrite <- Heta in Hsc. apply Hsc; cbn; rewrite ?Q2, ?Q3; [done|destruct (leaf q1); lia|lia|lia].
  - intros _ p' ->. pose proof (computeFree_safe (initPage q1 n) (aData p)) as Hcf. rewrite <- Heta in Hcf.
    eapply safe_mono; [apply Hcf; cbn; rewrite ?Q2, ?Q3; [lia|lia|done]|].
    intros _ p' (m & -> & Hm & Hl). cbn in Hl. rewrite Q2 in Hl.
    split; cbn; rewrite ?Q2, ?Q3; try done; try lia.
Qed.

(** ** Bytes that the size of a cell depends on *)

Section reads.
Context (c1 c2 : list Z) (N : Z).
Hypothesis Hsame : forall i, 0 <= i < N -> nthZ c1 i = nthZ c2 i.

Lemma payloadLoop_reads n it e v :
  0 <= it -> it + Z.of_nat n + 2 <= N ->
  payloadLoop n c1 it e v = payloadLoop n c2 it e v /\ it < (payloadLoop n c1 it e v).2 <= it + Z.of_nat n + 1.
Proof using Hsame.
  revert it v. induction n as [|n IH]; intros it v H0 Hn; cbn [payloadLoop]; rewrite <- (Hsame (it + 1)) by lia.
  - cbn. split; [done|lia].
  - destruct (_ && _); [|cbn; split; [done|lia]]. match goal with |- context [payloadLoop n c1 ?a e ?b] => destruct (IH a b) as [<- ?]; [lia|lia|] end.
    split; [done|lia].
Qed.

Lemma getPayloadSize_reads it :
  0 <= it -> it + 9 <= N ->
  getPayloadSize c1 it = getPayloadSize c2 it /\ it < (getPayloadSize c1 it).2 <= it + 9.
Proof using Hsame.
  intros H0 Hn. unfold getPayloadSize. rewrite <- (Hsame it) by lia. destruct (_ <=? _); [|cbn; split; [done|lia]].
  destruct (payloadLoop_reads 7 it (it + 8) (Z.land (nthZ c1 it) 0x7f)) as [<- Hr]; [lia|lia|].
  destruct (payloadLoop _ _ _ _ _) as [v it']. cbn in *. split; [done|lia].
Qed.

Lemma skipVarint_reads n it e : 0 <= it -> it + Z.of_nat n <= N -> skipVarint n c1 it e = skipVarint n c2 it e.
Proof using Hsame.
  revert it. induction n as [|n IH]; intros it H0 Hn; cbn [skipVarint]; [done|]. rewrite <- (Hsame it) by lia.
  rewrite (IH (it + 1)) by lia. done.
Qed.

Lemma skipKey_reads n it : 0 <= it -> it + Z.of_nat n <= N -> skipKey n c1 it = skipKey n c2 it.
Proof using Hsame.
  revert it. induction n as [|n IH]; intros it H0 Hn; cbn [skipKey]; [done|]. rewrite <- (Hsame it) by lia.
  rewrite (IH (it + 1)) by lia. done.
Qed.

(** The size depends on at most 17 bytes from the begin of the cell. *)
Lemma xCellSize_reads p : 17 <= N -> xCellSize p c1 = xCellSize p c2.
Proof using Hsame.
  intros HN. unfold xCellSize. destruct (xCellSizeM p).
  - unfold cellSizePtr. by destruct (getPayloadSize_reads 4 ltac:(lia) ltac:(lia)) as [<- _].
  - unfold cellSizePtrIdxLeaf. by destruct (getPayloadSize_reads 0 ltac:(lia) ltac:(lia)) as [<- _].
  - unfold cellSizePtrNoPayload. by rewrite (skipVarint_reads 9 4) by lia.
  - unfold cellSizePtrTableLeaf. destruct (getPayloadSize_reads 0 ltac:(lia) ltac:(lia)) as [<- Hr].
    destruct (getPayloadSize c1 0) as [n it]. cbn in Hr. by rewrite (skipKey_reads 8 it) by lia.
Qed.
End reads.

(** ** Histories of any page *)

(** The calls of a careful client: indexes within the page, and no cell that
    does not fit. *)
Definition attempt1 (e : edit) : PM unit :=
  match e with
  | Ins i c =>
      n ← field nCell;
      m ← field nFree;
      if (Z.of_nat i <=? n) && (Z.of_nat (length c) + 2 <=? m) then edit1 (Ins i c) else mret ()
  | Del i =>
      n ← field nCell;
      if Z.of_nat i <? n then edit1 (Del i) else mret ()
  end.

Fixpoint attempts (es : list edit) : PM unit :=
  match es with
  | [] => mret ()
  | e :: es' => attempt1 e;; attempts es'
  end.

(** The cells to insert are bytes, at least four. *)
Definition bytesOnly (e : edit) : Prop :=
  match e with
  | Ins _ c => Forall is_byte c /\ 4 <= Z.of_nat (length c)
  | Del _ => True
  end.

Lemma cellSize_safe p i :
  fence p -> 0 <= i < nCell p -> safe (cellSize i) (fun r p' => p' = p /\ 4 <= r < 65536) p.
Proof.
  intros Hf Hi. pose proof (fence_bounds p Hf) as (B1 & B2 & B3 & B4). pose proof (fe_lo p Hf).
  pose proof (fe_idx p Hf) as Hidx. destruct (fe_buf p Hf) as [Hl Hb].
  unfold cellSize, findCell. apply safe_bind, safe_bind, safe_ok, ok_field, safe_bind, safe_ok, ok_field.
  apply safe_bind, safe_ok, ok_get2byte; [lia|lia|]. apply safe_ok, ok_ret.
  set (v := get2 _ _). assert (0 <= Z.land (maskPage p) v < pageSize (pBt p)) as Hmask.
  { destruct (bo_power _ (fe_bt p Hf)) as (e & He & Hpw). pose proof (bo_page _ (fe_bt p Hf)).
    rewrite (fe_mask p Hf). unfold u16. rewrite Z.mod_small by lia.
    rewrite Hpw, Z.sub_1_r, <- Z.ones_equiv, Z.land_comm, Z.land_ones by lia. apply Z.mod_pos_bound. lia. }
  apply safe_bind, safe_ok, ok_field, safe_ok, ok_cellSizeAt; [lia|lia|]. split; [done|].
  apply xCellSize_bounds; [apply Hf|apply Hf|by apply Forall_drop].
Qed.

Lemma attempts_safe p es : fence p -> Forall bytesOnly es -> safe (attempts es) (fun _ => fence) p.
Proof.
  intros Hf Hes. revert p Hf. induction Hes as [|e es He _ IH]; intros p Hf; [by sret|].
  cbn [attempts]. apply safe_bind. eapply (safe_mono _ (fun _ => fence)); [|intros _ p' Hf'; by apply IH].
  destruct e as [i c|i]; cbn [attempt1].
  - apply safe_bind, safe_ok, ok_field, safe_bind, safe_ok, ok_field.
    destruct (_ && _) eqn:E; [|by sret]. apply andb_true_iff in E as [E1%Z.leb_le E2%Z.leb_le].
    destruct He as [Hc H4]. by apply insert_safe; [..|lia].
  - apply safe_bind, safe_ok, ok_field. destruct (Z.ltb_spec (Z.of_nat i) (nCell p)); [|by sret].
    cbn [edit1]. apply safe_bind. eapply safe_mono; [apply cellSize_safe; [done|lia]|].
    intros sz p' [-> Hsz]. apply drop_safe; [done|lia|lia].
Qed.

(** C14: whatever bytes a page of less than 64 KiB has, reading its header and
    then any removals of cells and insertions of cells that fit into its free
    bytes end with success or with SQLITE_CORRUPT, without an access outside of
    the page, except that the size of a cell, which begins inside of the page,
    is computed from at most 17 bytes (by [xCellSize_reads]), where those after
    the end of the page count as zeros. *)
Theorem corrupt_page_contained p es :
  raw p -> usableSize (pBt p) < 65536 -> Forall bytesOnly es ->
  exists r q, (btreeInitPage;; btreeComputeFreeSpace;; attempts es) p = Some (r, q) /\
    (r = Ok () \/ r = Err SQLITE_CORRUPT).
Proof.
  intros Hr Hs Hes. assert (safe (btreeInitPage;; btreeComputeFreeSpace;; attempts es) (fun _ => fence) p) as H.
  { pose proof (init_safe p Hr Hs) as H. unfold safe, mbind, PM_bind in H |- *.
    destruct (btreeInitPage p) as [[[[]|rc] p1]|]; [|done..].
    destruct (btreeComputeFreeSpace p1) as [[[[]|rc] p2]|]; [|done..]. by apply attempts_safe. }
  unfold safe in H. destruct ((btreeInitPage;; btreeComputeFreeSpace;; attempts es) p) as [[[[]|rc] q]|]; [| |done].
  - exists (Ok ()), q. auto.
  - exists (Err rc), q. subst rc. auto.
Qed.

(** Bytes that look like an index leaf: one free block of 200 bytes, twelve
    cells whose pointers are all the same. *)
Definition corruptPage : MemPage :=
  setData ([10; 1; 0; 0; 12; 0; 90; 3] ++ concat (replicate 12 [0; 100]) ++ replicate 224 9 ++
           [0; 0; 0; 200] ++ replicate 252 7) (rawPage 0).

Lemma corrupt_page_contained_witness :
  exists r q, (btreeInitPage;; btreeComputeFreeSpace;;
      attempts [Del 0; Ins 3 (indexCell 40 1); Del 1; Del 2; Ins 0 (indexCell 90 2)]) corruptPage = Some (r, q) /\
    (r = Ok () \/ r = Err SQLITE_CORRUPT).
Proof.
  apply (corrupt_page_contained corruptPage).
  - split; [exact bt512_ok|by left|]. split; [reflexivity|]. by apply (bool_decide_unpack _).
  - reflexivity.
  - repeat constructor; try (apply (bool_decide_unpack _); vm_compute; reflexivity); vm_compute; congruence.
Defined.
