(* ===== verification/BtPager.v ===== *)
(** * The pages of a database (btree.c, btreeInt.h)

    [Db]: the state of btree.c that concerns several pages, and below it the
    pager, by the contract that the comments of pager.c give: pages are
    fetched and released, made writeable before they are changed, and saved
    in the rollback journal at that time, unless they were fetched without
    their content.  The pager can fail at any call, forget the content of a
    page that need not be written, and have any unreferenced page in its cache
    or not; lists of answers decide.  A program that uses a page without a
    reference to it, or changes a page that is not writeable, has no result. *)

From stdpp Require Import base numbers option gmap sets functions list.
From S2P Require Import Prelude Util Varint Bitvec Btree BtVarint BtMem.
#[local] Open Scope Z_scope.

(** ** State *)

Definition PENDING_BYTE : Z := 0x40000000.
Definition PENDING_BYTE_PAGE (bt : BtShared) : Z := u32 (PENDING_BYTE / pageSize bt + 1).

(** [faults]: the result codes of the next calls; [lookups]: whether the
    pages that are looked up next are in the cache; [dropped]: for the next
    pages that need not be written, what is read of them later. *)
Record Pager := mkPager {
  dbOrigSize : Z;
  journal : gmap Z (list Z);
  inJournal : gset Z;
  writeable : gset Z;
  faults : list Z;
  lookups : list bool;
  dropped : list (option (list Z))
}.

(** The fields of [BtShared] that change; [heap] answers for the allocator. *)
Record Db := mkDb {
  shared : BtShared;
  nPage : Z;
  bDoTruncate : bool;
  pHasContent : option Bitvec;
  heap : mallocs;
  pages : gmap Z MemPage;
  refs : gmap Z nat;
  pager : Pager
}.

Definition setPage (pg : Z) (p : MemPage) (db : Db) : Db :=
  mkDb (shared db) (nPage db) (bDoTruncate db) (pHasContent db) (heap db)
    (<[pg := p]> (pages db)) (refs db) (pager db).
Definition setRefs (pg : Z) (n : nat) (db : Db) : Db :=
  mkDb (shared db) (nPage db) (bDoTruncate db) (pHasContent db) (heap db)
    (pages db) (<[pg := n]> (refs db)) (pager db).
Definition setNPage (n : Z) (db : Db) : Db :=
  mkDb (shared db) n (bDoTruncate db) (pHasContent db) (heap db)
    (pages db) (refs db) (pager db).
Definition setHasContent (b : option Bitvec) (m : mallocs) (db : Db) : Db :=
  mkDb (shared db) (nPage db) (bDoTruncate db) b m (pages db) (refs db) (pager db).
Definition setPager (g : Pager) (db : Db) : Db :=
  mkDb (shared db) (nPage db) (bDoTruncate db) (pHasContent db) (heap db)
    (pages db) (refs db) g.

(** A page that is not in [pages] is one of zeros, of which nothing is known. *)
Definition blankPage (bt : BtShared) : MemPage :=
  mkMemPage false false false 0 false 0 0 0 0 0 0 0 0 0 0 [] [] bt
    (replicate (Z.to_nat (pageSize bt)) 0) 0 0 0 SizePtr ParsePtr.

Definition page (db : Db) (pg : Z) : MemPage := default (blankPage (shared db)) (pages db !! pg).
Definition refcount (db : Db) (pg : Z) : nat := default 0%nat (refs db !! pg).

(** ** Programs *)

Definition DM (A : Type) : Type := Db -> option (result A * Db).

#[export] Instance DM_ret : MRet DM := fun A a db => Some (Ok a, db).
#[export] Instance DM_bind : MBind DM := fun A B f m db =>
  match m db with
  | Some (Ok a, db') => f a db'
  | Some (Err rc, db') => Some (Err rc, db')
  | None => None
  end.

Definition look {A} (f : Db -> A) : DM A := fun db => Some (Ok (f db), db).
Definition change (f : Db -> Db) : DM unit := fun db => Some (Ok (), f db).
Definition throw {A} (rc : Z) : DM A := fun db => Some (Err rc, db).

(** [rc = m]: the result code as a value. *)
Definition code {A} (m : DM A) : DM Z := fun db =>
  match m db with
  | Some (Ok _, db') => Some (Ok SQLITE_OK, db')
  | Some (Err rc, db') => Some (Ok rc, db')
  | None => None
  end.

(** [return rc] *)
Definition return_code (rc : Z) : DM unit := if rc =? SQLITE_OK then mret () else throw rc.

(** A program on one page. *)
Definition on {A} (pg : Z) (m : PM A) : DM A := fun db =>
  if bool_decide (refcount db pg = 0%nat) then None else
  match m (page db pg) with
  | Some (r, p) =>
      if bool_decide (aData p = aData (page db pg)) || bool_decide (pg ∈ writeable (pager db))
      then Some (r, setPage pg p db) else None
  | None => None
  end.

Definition get4byte (a : Z) : PM Z := bs ← memread a 4; mret (sqlite3Get4byte bs).

(** ** The pager *)

Definition setPagerAnswers (f : list Z) (l : list bool) (d : list (option (list Z))) (g : Pager) : Pager :=
  mkPager (dbOrigSize g) (journal g) (inJournal g) (writeable g) f l d.

(** The next call fails or not. *)
Definition answer : DM unit := fun db =>
  let g := pager db in
  match faults g with
  | [] => Some (Ok (), db)
  | rc :: fs =>
      let db' := setPager (setPagerAnswers fs (lookups g) (dropped g) g) db in
      if rc =? SQLITE_OK then Some (Ok (), db') else Some (Err rc, db')
  end.

Definition addRef (pg : Z) (db : Db) : Db := setRefs pg (S (refcount db pg)) db.

(** PAGER_GET_NOCONTENT: the page is one of zeros, and is not saved when it
    is made writeable. *)
Definition withoutContent (pg : Z) (db : Db) : Db :=
  let g := pager db in
  let bits := if pg <=? dbOrigSize g then {[pg]} ∪ inJournal g else inJournal g in
  let zeros := replicate (Z.to_nat (pageSize (shared db))) 0 in
  setPage pg (setData zeros (page db pg))
    (setPager (mkPager (dbOrigSize g) (journal g) bits (writeable g)
                 (faults g) (lookups g) (dropped g)) db).

Definition sqlite3PagerGet (pg : Z) (noContent : bool) : DM unit :=
  if pg =? 0 then throw SQLITE_CORRUPT else
  answer;;
  bt ← look shared;
  if pg =? PENDING_BYTE_PAGE bt then throw SQLITE_CORRUPT else
  (if noContent then change (withoutContent pg) else mret ());;
  change (addRef pg).

Definition sqlite3PagerUnref (pg : Z) : DM unit := fun db =>
  match refcount db pg with
  | O => None
  | S n => Some (Ok (), setRefs pg n db)
  end.

(** Whether the page is in the cache; then there is a reference to it. *)
Definition sqlite3PagerLookup (pg : Z) : DM bool := fun db =>
  let g := pager db in
  match refcount db pg, lookups g with
  | O, b :: ls =>
      let db' := setPager (setPagerAnswers (faults g) ls (dropped g) g) db in
      Some (Ok b, if b : bool then addRef pg db' else db')
  | _, _ => Some (Ok true, addRef pg db)
  end.

Definition saved (pg : Z) (db : Db) : Db :=
  let g := pager db in
  let save := negb (bool_decide (pg ∈ inJournal g)) && (pg <=? dbOrigSize g) in
  setPager (mkPager (dbOrigSize g)
    (if save then <[pg := aData (page db pg)]> (journal g) else journal g)
    (if save then {[pg]} ∪ inJournal g else inJournal g)
    ({[pg]} ∪ writeable g) (faults g) (lookups g) (dropped g)) db.

Definition sqlite3PagerWrite (pg : Z) : DM unit := answer;; change (saved pg).

Definition sqlite3PagerDontWrite (pg : Z) : DM unit := fun db =>
  let g := pager db in
  if bool_decide (pg ∈ writeable g) then
    match dropped g with
    | [] => Some (Ok (), db)
    | None :: ds =>
        Some (Ok (), setPager (setPagerAnswers (faults g) (lookups g) ds g) db)
    | Some d :: ds =>
        Some (Ok (), setPage pg (setData d (page db pg))
          (setPager (mkPager (dbOrigSize g) (journal g) (inJournal g) (writeable g ∖ {[pg]})
                       (faults g) (lookups g) ds) db))
    end
  else Some (Ok (), db).

Definition sqlite3PagerPageRefcount (pg : Z) : DM Z := look (fun db => Z.of_nat (refcount db pg)).

(** Whether a page can be read from the file, past the cache: never when
    pages were changed. *)
Definition sqlite3PagerDirectReadOk (pg : Z) : DM bool := fun db =>
  let g := pager db in
  match lookups g with
  | [] => Some (Ok false, db)
  | b :: ls =>
      Some (Ok (b && bool_decide (writeable g = ∅)),
            setPager (setPagerAnswers (faults g) ls (dropped g) g) db)
  end.

(** [sqlite3OsRead]: the first [n] bytes of a page, from the file. *)
Definition readFile (pg n : Z) : DM (list Z) :=
  answer;;
  look (fun db => take (Z.to_nat n) (aData (page db pg))).

(** What a rollback gives: the pages of the journal. *)
Definition rolledBack (db : Db) (pg : Z) : list Z :=
  default (aData (page db pg)) (journal (pager db) !! pg).

(** ** Pages of the B-tree layer *)

Definition btreePageFromDbPage (pg : Z) (bt : BtShared) (p : MemPage) : MemPage :=
  if pg =? pgno p then p else
  mkMemPage (isInit p) (intKey p) (intKeyLeaf p) pg (leaf p) (if pg =? 1 then 100 else 0)
    (childPtrSize p) (max1bytePayload p) (nOverflow p) (maxLocal p) (minLocal p)
    (cellOffset p) (nFree p) (nCell p) (maskPage p) (aiOvfl p) (apOvfl p) bt
    (aData p) (aDataEnd p) (aCellIdx p) (aDataOfst p) (xCellSizeM p) (xParseCellM p).

Definition fromDbPage (pg : Z) : DM unit :=
  change (fun db => setPage pg (btreePageFromDbPage pg (shared db) (page db pg)) db).

Definition btreeGetPage (pg : Z) (noContent : bool) : DM unit :=
  sqlite3PagerGet pg noContent;; fromDbPage pg.

(** The page, or 0 for the null pointer. *)
Definition btreePageLookup (pg : Z) : DM Z :=
  b ← sqlite3PagerLookup pg;
  if b : bool then fromDbPage pg;; mret pg else mret 0.

Definition btreePagecount : DM Z := look nPage.

Definition releasePage (pg : Z) : DM unit :=
  if pg =? 0 then mret () else sqlite3PagerUnref pg.

Definition btreeGetUnusedPage (pg : Z) (noContent : bool) : DM unit :=
  btreeGetPage pg noContent;;
  n ← sqlite3PagerPageRefcount pg;
  if 1 <? n then releasePage pg;; throw SQLITE_CORRUPT
  else on pg (modify (setInit false)).

Definition btreeSetHasContent (pg : Z) : DM unit := fun db =>
  let '(p, m) := match pHasContent db with
                 | Some p => (Some p, heap db)
                 | None => sqlite3BitvecCreate (heap db) (nPage db)
                 end in
  match p with
  | None => Some (Err SQLITE_NOMEM, setHasContent None m db)
  | Some p =>
      if pg <=? sqlite3BitvecSize p then
        match sqlite3BitvecSet m (Some p) pg with
        | Some (rc, p', m') =>
            Some (if rc =? SQLITE_OK then Ok () else Err rc, setHasContent p' m' db)
        | None => None
        end
      else Some (Ok (), setHasContent (Some p) m db)
  end.

Definition btreeGetHasContent (pg : Z) : DM bool := fun db =>
  match pHasContent db with
  | None => Some (Ok false, db)
  | Some p =>
      if sqlite3BitvecSize p <? pg then Some (Ok true, db)
      else match sqlite3BitvecTestNotNull p pg with
           | Some b => Some (Ok b, db)
           | None => None
           end
  end.
