(* ===== verification/BtView.v ===== *)
(** * Reasoning about programs on the pages of a database

    [wp m Q E db]: the program [m] has a result; [Q] holds of the outcome when
    it succeeds and [E] when it returns an error.  [sees s v db]: [v] is what
    can be seen of [db], and the pages that the transaction, begun in [s],
    must be able to restore can be restored.  The rules for the operations of
    BtPager: each changes the view in one place, and keeps what a rollback
    restores. *)

From stdpp Require Import base numbers option gmap sets functions list.
From S2P Require Import Prelude Util Varint Bitvec Btree BtVarint BtMem BtPager.
#[local] Open Scope Z_scope.

(** ** Outcomes *)

Definition wp {A} (m : DM A) (Q : A -> Db -> Prop) (E : Z -> Db -> Prop) (db : Db) : Prop :=
  match m db with
  | Some (Ok a, db') => Q a db'
  | Some (Err rc, db') => E rc db'
  | None => False
  end.

Lemma db_bind {A B} (m : DM A) (f : A -> DM B) Q E db :
  wp m (fun a => wp (f a) Q E) E db -> wp (m ≫= f) Q E db.
Proof. unfold wp, mbind, DM_bind. by destruct (m db) as [[[a|rc] db']|]. Qed.

Lemma db_mono {A} (m : DM A) (Q Q' : A -> Db -> Prop) (E E' : Z -> Db -> Prop) db :
  wp m Q E db -> (forall a d, Q a d -> Q' a d) -> (forall rc d, E rc d -> E' rc d) -> wp m Q' E' db.
Proof. unfold wp. destruct (m db) as [[[a|rc] db']|]; auto. Qed.

Lemma db_ret {A} (a : A) (Q : A -> Db -> Prop) E db : Q a db -> wp (mret a) Q E db.
Proof. done. Qed.

Lemma db_look {A} (f : Db -> A) (Q : A -> Db -> Prop) E db : Q (f db) db -> wp (look f) Q E db.
Proof. done. Qed.

Lemma db_throw {A} rc (Q : A -> Db -> Prop) (E : Z -> Db -> Prop) db : E rc db -> wp (throw rc) Q E db.
Proof. done. Qed.

Lemma db_code {A} (m : DM A) (Q : Z -> Db -> Prop) E db :
  wp m (fun _ => Q SQLITE_OK) Q db -> wp (code m) Q E db.
Proof. unfold wp, code. by destruct (m db) as [[[a|rc] db']|]. Qed.

Lemma db_return_code rc (Q : unit -> Db -> Prop) (E : Z -> Db -> Prop) db :
  (rc = SQLITE_OK -> Q () db) -> (rc <> SQLITE_OK -> E rc db) -> wp (return_code rc) Q E db.
Proof. intros HQ HE. unfold return_code. destruct (Z.eqb_spec rc SQLITE_OK); [by apply HQ|by apply HE]. Qed.

(** ** Views *)

Record View := mkView {
  vpage : Z -> MemPage;
  vrefs : Z -> nat;
  vsize : Z;
  vhas : Z -> bool;
  vwrite : gset Z
}.

Definition putPage (pg : Z) (p : MemPage) (v : View) : View :=
  mkView (<[pg := p]> (vpage v)) (vrefs v) (vsize v) (vhas v) (vwrite v).
Definition putData (pg : Z) (d : list Z) (v : View) : View := putPage pg (setData d (vpage v pg)) v.
Definition putRefs (pg : Z) (n : nat) (v : View) : View :=
  mkView (vpage v) (<[pg := n]> (vrefs v)) (vsize v) (vhas v) (vwrite v).
Definition putSize (n : Z) (v : View) : View :=
  mkView (vpage v) (vrefs v) n (vhas v) (vwrite v).
Definition putHas (h : Z -> bool) (v : View) : View :=
  mkView (vpage v) (vrefs v) (vsize v) h (vwrite v).
Definition putWrite (w : gset Z) (v : View) : View :=
  mkView (vpage v) (vrefs v) (vsize v) (vhas v) w.

Abbreviation bytes v pg := (aData (vpage v pg)).

(** The start of a transaction: the pages that a rollback must restore with
    their bytes, and the codes that the pager may return. *)
Record Start := mkStart {
  s_bt : BtShared;
  s_truncate : bool;
  s_needed : Z -> Prop;
  s_bytes : Z -> list Z;
  s_codes : list Z
}.

Definition isPage (bt : BtShared) (d : list Z) : Prop :=
  Z.of_nat (length d) = pageSize bt /\ Forall is_byte d.

(** What [pHasContent] says. *)
Definition hasContent (b : option Bitvec) (h : Z -> bool) : Prop :=
  match b with
  | None => forall p, h p = false
  | Some b => exists S, represents b S /\
      forall p, 0 <= p < 2 ^ 32 -> h p = (iSize b <? p) || bool_decide (p ∈ S)
  end.

(** The page [p] is saved, or has not changed. *)
Definition restorable (s : Start) (g : Pager) (v : View) (p : Z) : Prop :=
  p <= dbOrigSize g /\
  (((p ∈ inJournal g) /\ journal g !! p = Some (s_bytes s p)) \/
   ((p ∉ inJournal g) /\ (journal g !! p = None) /\ (p ∉ vwrite v) /\ (bytes v p = s_bytes s p))).

Record sees (s : Start) (v : View) (db : Db) : Prop := {
  se_bt : shared db = s_bt s;
  se_truncate : bDoTruncate db = s_truncate s;
  se_size : nPage db = vsize v;
  se_page p : btreePageFromDbPage p (s_bt s) (page db p) = vpage v p;
  se_bytes p : isPage (s_bt s) (bytes v p);
  se_refs p : refcount db p = vrefs v p;
  se_write : writeable (pager db) = vwrite v;
  se_has : hasContent (pHasContent db) (vhas v);
  se_bound : 0 <= vsize v < 2 ^ 32;
  se_faults rc : rc ∈ faults (pager db) -> rc ∈ s_codes s;
  se_dropped d : Some d ∈ dropped (pager db) -> isPage (s_bt s) d;
  se_saved p : s_needed s p -> restorable s (pager db) v p
}.

(** An error of the pager. *)
Definition fault (s : Start) (rc : Z) : Prop := rc <> SQLITE_OK /\ rc ∈ s_codes s.

(** ** Lemmas *)

Lemma fromDbPage_data pg bt p : aData (btreePageFromDbPage pg bt p) = aData p.
Proof. unfold btreePageFromDbPage. by destruct (pg =? pgno p). Qed.

Lemma fromDbPage_setData pg bt d p :
  btreePageFromDbPage pg bt (setData d p) = setData d (btreePageFromDbPage pg bt p).
Proof. unfold btreePageFromDbPage. simpl. by destruct (pg =? pgno p). Qed.

Lemma fromDbPage_setInit pg bt b p :
  btreePageFromDbPage pg bt (setInit b p) = setInit b (btreePageFromDbPage pg bt p).
Proof. unfold btreePageFromDbPage. simpl. by destruct (pg =? pgno p). Qed.

Lemma fromDbPage_idem pg bt p :
  btreePageFromDbPage pg bt (btreePageFromDbPage pg bt p) = btreePageFromDbPage pg bt p.
Proof.
  unfold btreePageFromDbPage at 2 3. destruct (Z.eqb_spec pg (pgno p)) as [->|].
  - unfold btreePageFromDbPage. by rewrite Z.eqb_refl.
  - unfold btreePageFromDbPage. cbn. by rewrite Z.eqb_refl.
Qed.

Lemma page_setPage pg p db q : page (setPage pg p db) q = if decide (q = pg) then p else page db q.
Proof.
  unfold page, setPage. cbn. destruct (decide (q = pg)) as [->|].
  - by rewrite lookup_insert_eq.
  - by rewrite lookup_insert_ne.
Qed.

Lemma refcount_setRefs pg n db q :
  refcount (setRefs pg n db) q = if decide (q = pg) then n else refcount db q.
Proof.
  unfold refcount, setRefs. cbn. destruct (decide (q = pg)) as [->|].
  - by rewrite lookup_insert_eq.
  - by rewrite lookup_insert_ne.
Qed.

Section rules.
Context (s : Start).
Implicit Types (v : View) (db : Db).

Lemma sees_data v db p : sees s v db -> aData (page db p) = bytes v p.
Proof. intros H. by rewrite <- (se_page s v db H p), fromDbPage_data. Qed.

Lemma sees_length v db p : sees s v db -> Z.of_nat (length (bytes v p)) = pageSize (s_bt s).
Proof. intros H. apply (se_bytes s v db H p). Qed.

(** Views with the same pages, the same counts and the same sets. *)
Lemma sees_ext v v' db :
  (forall p, vpage v p = vpage v' p) -> (forall p, vrefs v p = vrefs v' p) ->
  (forall p, vhas v p = vhas v' p) -> vsize v = vsize v' -> vwrite v = vwrite v' ->
  sees s v db -> sees s v' db.
Proof.
  intros Hp Hr Hh Hn Hw H. destruct H as [A1 A2 A3 A4 A5 A6 A7 A8 A9 A10 A11 A12]. split; try done.
  - congruence.
  - intros p. by rewrite <- Hp.
  - intros p. by rewrite <- Hp.
  - intros p. by rewrite <- Hr.
  - congruence.
  - unfold hasContent in *. destruct (pHasContent db) as [b|].
    + destruct A8 as (S & HS & A8). exists S. split; [done|]. intros p Hb. by rewrite <- Hh, A8.
    + intros p. by rewrite <- Hh.
  - lia.
  - intros p Hnp. destruct (A12 p Hnp) as [Hl Hs]. split; [done|]. by rewrite <- Hp, <- Hw.
Qed.

Lemma db_answer v db (Q : unit -> Db -> Prop) (E : Z -> Db -> Prop) :
  sees s v db ->
  (forall db', sees s v db' -> Q () db') -> (forall db' rc, sees s v db' -> fault s rc -> E rc db') ->
  wp answer Q E db.
Proof.
  intros H HQ HE. unfold wp, answer. destruct (faults (pager db)) as [|rc fs] eqn:Hf; [by apply HQ|].
  assert (sees s v (setPager (setPagerAnswers fs (lookups (pager db)) (dropped (pager db)) (pager db)) db)) as H'.
  { destruct H as [A1 A2 A3 A4 A5 A6 A7 A8 A9 A10 A11 A12]. split; try done.
    intros rc' Hrc. apply A10. rewrite Hf. by right. }
  destruct (Z.eqb_spec rc SQLITE_OK) as [->|Hrc]; [by apply HQ|]. apply HE; [done|].
  split; [done|]. apply (se_faults _ _ _ H). rewrite Hf. by left.
Qed.

Lemma sees_addRef v db p : sees s v db -> sees s (putRefs p (S (vrefs v p)) v) (addRef p db).
Proof.
  intros H. pose proof (se_refs _ _ _ H p) as Hr.
  destruct H as [A1 A2 A3 A4 A5 A6 A7 A8 A9 A10 A11 A12]. split; try done.
  intros q. unfold addRef. rewrite refcount_setRefs, Hr. cbn. unfold insert, fn_insert.
  destruct (decide (q = p)), (decide (p = q)); subst; done.
Qed.

Lemma sees_setPage v db p x :
  sees s v db -> isPage (s_bt s) (aData x) ->
  aData x = bytes v p \/ p ∈ vwrite v \/ ~ s_needed s p ->
  sees s (putPage p (btreePageFromDbPage p (s_bt s) x) v) (setPage p x db).
Proof.
  intros H Hx Hw. destruct H as [A1 A2 A3 A4 A5 A6 A7 A8 A9 A10 A11 A12]. split; try done.
  - intros q. rewrite page_setPage. cbn. unfold insert, fn_insert.
    destruct (decide (q = p)), (decide (p = q)); subst; done.
  - intros q. cbn. unfold insert, fn_insert. destruct (decide (p = q)) as [<-|]; [|done].
    by rewrite fromDbPage_data.
  - intros q Hq. destruct (A12 q Hq) as [Hl Hs]. split; [done|].
    destruct Hs as [?|(Hj & Hm & Hv & Hd)]; [by left|right]. split_and!; [done..|]. cbn.
    unfold insert, fn_insert. destruct (decide (p = q)) as [<-|]; [|done].
    rewrite fromDbPage_data. destruct Hw as [->|[?|?]]; done.
Qed.

Lemma db_fromDbPage v db p (Q : unit -> Db -> Prop) E :
  sees s v db -> (forall db', sees s v db' -> Q () db') -> wp (fromDbPage p) Q E db.
Proof.
  intros H HQ. apply HQ. pose proof (se_page _ _ _ H p) as Hp. rewrite (se_bt _ _ _ H), Hp.
  eapply sees_ext, (sees_setPage v db p (vpage v p)); [..|done|apply (se_bytes _ _ _ H)|by left]; try done.
  intros q. cbn. unfold insert, fn_insert. destruct (decide (p = q)) as [<-|]; [|done].
  by rewrite <- Hp, fromDbPage_idem.
Qed.

Lemma sees_withoutContent v db p :
  sees s v db -> ~ s_needed s p -> 0 <= pageSize (s_bt s) ->
  sees s (putData p (replicate (Z.to_nat (pageSize (s_bt s))) 0) v) (withoutContent p db).
Proof.
  intros H Hn Hps. unfold withoutContent. set (g := mkPager _ _ _ _ _ _ _).
  assert (sees s v (setPager g db)) as H'.
  { destruct H as [A1 A2 A3 A4 A5 A6 A7 A8 A9 A10 A11 A12]. split; try done.
    intros q Hq. destruct (A12 q Hq) as [Hl Hs]. split; [done|]. subst g. cbn.
    destruct (p <=? dbOrigSize (pager db)); [|done].
    assert (q <> p) by (by intros ->). set_solver. }
  set (x := setData _ (page db p)).
  eapply sees_ext, (sees_setPage v _ p x); [..|done| |by right; right]; try done.
  - intros q. cbn. unfold insert, fn_insert. destruct (decide (p = q)) as [<-|]; [|done].
    unfold x. by rewrite fromDbPage_setData, (se_page _ _ _ H), (se_bt _ _ _ H).
  - unfold x, isPage. cbn. rewrite length_replicate, (se_bt _ _ _ H). split; [lia|].
    by apply Forall_replicate.
Qed.

Lemma db_PagerGet v db p (nc : bool) (Q : unit -> Db -> Prop) (E : Z -> Db -> Prop) :
  sees s v db -> p <> 0 -> p <> PENDING_BYTE_PAGE (s_bt s) -> (nc = true -> ~ s_needed s p) ->
  0 <= pageSize (s_bt s) ->
  (forall db', sees s (putRefs p (S (vrefs v p))
      (if nc then putData p (replicate (Z.to_nat (pageSize (s_bt s))) 0) v else v)) db' -> Q () db') ->
  (forall db' rc, sees s v db' -> fault s rc -> E rc db') ->
  wp (sqlite3PagerGet p nc) Q E db.
Proof.
  intros H H0 Hpb Hnc Hps HQ HE. unfold sqlite3PagerGet. destruct (Z.eqb_spec p 0); [done|].
  apply db_bind, (db_answer v); [done| |done]. intros d1 H1. apply db_bind, db_look.
  rewrite (se_bt _ _ _ H1). destruct (Z.eqb_spec p (PENDING_BYTE_PAGE (s_bt s))); [done|].
  apply db_bind. destruct nc.
  - apply HQ. apply (sees_addRef (putData p _ v)), sees_withoutContent; auto.
  - by apply HQ, sees_addRef.
Qed.

Lemma db_btreeGetPage v db p (nc : bool) (Q : unit -> Db -> Prop) (E : Z -> Db -> Prop) :
  sees s v db -> p <> 0 -> p <> PENDING_BYTE_PAGE (s_bt s) -> (nc = true -> ~ s_needed s p) ->
  0 <= pageSize (s_bt s) ->
  (forall db', sees s (putRefs p (S (vrefs v p))
      (if nc then putData p (replicate (Z.to_nat (pageSize (s_bt s))) 0) v else v)) db' -> Q () db') ->
  (forall db' rc, sees s v db' -> fault s rc -> E rc db') ->
  wp (btreeGetPage p nc) Q E db.
Proof.
  intros H H0 Hpb Hnc Hps HQ HE. apply db_bind, (db_PagerGet v); auto.
  intros d1 H1. eapply db_fromDbPage; [done|]. auto.
Qed.

Lemma db_Unref v db p n (Q : unit -> Db -> Prop) E :
  sees s v db -> vrefs v p = S n -> (forall db', sees s (putRefs p n v) db' -> Q () db') ->
  wp (sqlite3PagerUnref p) Q E db.
Proof.
  intros H Hr HQ. unfold wp, sqlite3PagerUnref. rewrite (se_refs _ _ _ H), Hr. apply HQ.
  destruct H as [A1 A2 A3 A4 A5 A6 A7 A8 A9 A10 A11 A12]. split; try done.
  intros q. rewrite refcount_setRefs. cbn. unfold insert, fn_insert.
  destruct (decide (q = p)), (decide (p = q)); subst; done.
Qed.

Lemma db_Lookup v db p (Q : Z -> Db -> Prop) E :
  sees s v db ->
  (forall db', sees s (putRefs p (S (vrefs v p)) v) db' -> Q p db') ->
  (forall db', sees s v db' -> vrefs v p = 0%nat -> Q 0 db') ->
  wp (btreePageLookup p) Q E db.
Proof.
  intros H HQ H0. apply db_bind. unfold wp at 1, sqlite3PagerLookup.
  pose proof (sees_addRef v db p H) as H1. pose proof (se_refs _ _ _ H p) as Hr.
  assert (forall db', sees s (putRefs p (S (vrefs v p)) v) db' ->
      wp (fromDbPage p;; mret p) Q E db') as Hp.
  { intros d Hd. apply db_bind. by eapply db_fromDbPage; [done|]. }
  destruct (refcount db p) as [|n] eqn:Hc; [|by apply Hp].
  destruct (lookups (pager db)) as [|b ls] eqn:Hl; [by apply Hp|].
  set (d := setPager _ db).
  assert (sees s v d) as H2.
  { destruct H as [A1 A2 A3 A4 A5 A6 A7 A8 A9 A10 A11 A12]. by split. }
  destruct b; [by apply Hp, sees_addRef|]. apply db_ret, H0; [done|congruence].
Qed.

Lemma sees_saved v db p : sees s v db -> sees s (putWrite ({[p]} ∪ vwrite v) v) (saved p db).
Proof.
  intros H. pose proof (sees_data v db p H) as Hd.
  destruct H as [A1 A2 A3 A4 A5 A6 A7 A8 A9 A10 A11 A12]. split; try done.
  - cbn. by rewrite A7.
  - intros q Hq. destruct (A12 q Hq) as [Hl Hs]. split; [done|]. cbn.
    destruct (bool_decide_reflect (p ∈ inJournal (pager db))) as [Hj|Hj]; cbn.
    + destruct Hs as [?|(?&?&?&?)]; [by left|right]. split_and!; [done..|set_solver|done].
    + destruct (Z.leb_spec p (dbOrigSize (pager db))).
      * destruct (decide (p = q)) as [<-|].
        -- left. destruct Hs as [[? _]|(?&?&?&Hb)]; [done|]. split; [set_solver|].
           by rewrite lookup_insert_eq, Hd, Hb.
        -- rewrite lookup_insert_ne by done.
           destruct Hs as [[? ?]|(?&?&?&?)]; [left; split; [set_solver|done]|right].
           split_and!; set_solver.
      * assert (p <> q) by lia.
        destruct Hs as [?|(?&?&?&?)]; [by left|right]. split_and!; [done..|set_solver|done].
Qed.

Lemma db_PagerWrite v db p (Q : unit -> Db -> Prop) (E : Z -> Db -> Prop) :
  sees s v db ->
  (forall db', sees s (putWrite ({[p]} ∪ vwrite v) v) db' -> Q () db') ->
  (forall db' rc, sees s v db' -> fault s rc -> E rc db') ->
  wp (sqlite3PagerWrite p) Q E db.
Proof.
  intros H HQ HE. apply db_bind, (db_answer v); [done| |done]. intros d1 H1. by apply HQ, sees_saved.
Qed.

(** After sqlite3PagerDontWrite, the page has some bytes, and the other pages
    are as before. *)
Lemma db_DontWrite v db p (Q : unit -> Db -> Prop) E :
  sees s v db ->
  (forall d w db', isPage (s_bt s) d -> vwrite v ∖ {[p]} ⊆ w -> w ⊆ vwrite v ->
     sees s (putWrite w (putData p d v)) db' -> Q () db') ->
  wp (sqlite3PagerDontWrite p) Q E db.
Proof.
  intros H HQ. unfold wp, sqlite3PagerDontWrite.
  assert (forall g, inJournal g = inJournal (pager db) -> journal g = journal (pager db) ->
    dbOrigSize g = dbOrigSize (pager db) ->
    writeable g = writeable (pager db) -> (forall rc, rc ∈ faults g -> rc ∈ faults (pager db)) ->
    (forall d, Some d ∈ dropped g -> Some d ∈ dropped (pager db)) -> sees s v (setPager g db)) as Hg.
  { intros g E1 E2 E3 E4 E5 E6. destruct H as [A1 A2 A3 A4 A5 A6 A7 A8 A9 A10 A11 A12]. split; try done; cbn.
    - congruence.
    - auto.
    - auto.
    - intros q Hq. unfold restorable. rewrite E1, E2, E3. by apply A12. }
  assert (forall db', sees s v db' -> Q () db') as HQ'.
  { intros d' H'. apply (HQ (bytes v p) (vwrite v)); [apply (se_bytes _ _ _ H)|set_solver|done|].
    eapply sees_ext, H'; try done. intros q. cbn. unfold insert, fn_insert.
    destruct (decide (p = q)) as [<-|]; [|done]. by destruct (vpage v p). }
  destruct (bool_decide_reflect (p ∈ writeable (pager db))) as [Hw|]; [|by apply HQ'].
  destruct (dropped (pager db)) as [|[d|] ds] eqn:Hd; [by apply HQ'| |].
  2: { apply HQ', Hg; try done. cbn. intros d. by right. }
  assert (isPage (s_bt s) d) as Hpd by (apply (se_dropped _ _ _ H); rewrite Hd; by left).
  apply (HQ d (vwrite v ∖ {[p]})); [done|set_solver|set_solver|].
  rewrite (se_write _ _ _ H) in *. pose proof (se_page _ _ _ H) as A4.
  pose proof H as [A1 A2 A3 _ A5 A6 A7 A8 A9 A10 A11 A12]. split; try done.
  - intros q. rewrite page_setPage. cbn. unfold insert, fn_insert.
    destruct (decide (q = p)), (decide (p = q)); subst; try done. by rewrite fromDbPage_setData, A4.
  - intros q. cbn. unfold insert, fn_insert. by destruct (decide (p = q)) as [<-|].
  - cbn. intros d'. intros. apply A11. rewrite Hd. by right.
  - intros q Hq. destruct (A12 q Hq) as [Hl Hs]. split; [done|]. cbn.
    destruct Hs as [?|(?&?&?&?)]; [by left|right]. split_and!; [done|done|set_solver|].
    unfold insert, fn_insert. by destruct (decide (p = q)) as [<-|].
Qed.

(** *** Programs on a page *)

Lemma db_on {A} v db p (m : PM A) (Q : A -> Db -> Prop) E :
  sees s v db -> vrefs v p <> 0%nat ->
  ok m (fun a x => isPage (s_bt s) (aData x) /\ (aData x = bytes v p \/ p ∈ vwrite v) /\
        forall db', sees s (putPage p (btreePageFromDbPage p (s_bt s) x) v) db' -> Q a db') (page db p) ->
  wp (on p m) Q E db.
Proof.
  intros H Hr Hm. unfold wp, on. rewrite bool_decide_eq_false_2 by (by rewrite (se_refs _ _ _ H)).
  unfold ok in Hm. destruct (m (page db p)) as [[[a|] x]|]; [|done..]. destruct Hm as (Hx & Hw & HQ).
  rewrite (sees_data v) by done. rewrite (se_write _ _ _ H).
  replace (_ || _) with true.
  - apply HQ, sees_setPage; [done..|]. destruct Hw; auto.
  - symmetry. apply orb_true_iff. rewrite !bool_decide_eq_true. tauto.
Qed.

Lemma db_setInit v db p b (Q : unit -> Db -> Prop) E :
  sees s v db -> vrefs v p <> 0%nat ->
  (forall db', sees s (putPage p (setInit b (vpage v p)) v) db' -> Q () db') ->
  wp (on p (modify (setInit b))) Q E db.
Proof.
  intros H Hr HQ. apply (db_on v); [done..|]. apply ok_modify. cbn. rewrite (sees_data v) by done.
  split_and!; [apply (se_bytes _ _ _ H)|by left|].
  intros d1 H1. apply HQ. by rewrite fromDbPage_setInit, (se_page _ _ _ H) in H1.
Qed.

Lemma sees_self v db p : sees s v db -> sees s (putPage p (vpage v p) v) db.
Proof.
  apply sees_ext; try done. intros q. cbn. unfold insert, fn_insert. by destruct (decide (p = q)) as [<-|].
Qed.

Lemma db_read v db p a n (Q : list Z -> Db -> Prop) E :
  sees s v db -> vrefs v p <> 0%nat -> 0 <= a -> 0 <= n -> a + n <= pageSize (s_bt s) ->
  (forall db', sees s v db' -> Q (slice (bytes v p) a n) db') ->
  wp (on p (memread a n)) Q E db.
Proof.
  intros H Hr Ha Hn Hl HQ. pose proof (sees_length v db p H) as Hlen. apply (db_on v); [done..|].
  rewrite <- (sees_data v db) in Hlen by done.
  apply ok_memread; [done|done|lia|]. rewrite !(sees_data v) by done.
  split_and!; [apply (se_bytes _ _ _ H)|by left|].
  intros d1 H1. apply HQ. rewrite (se_page _ _ _ H) in H1.
  eapply sees_ext, H1; try done. intros q. cbn. unfold insert, fn_insert. by destruct (decide (p = q)) as [<-|].
Qed.

Lemma db_getbyte v db p a (Q : Z -> Db -> Prop) E :
  sees s v db -> vrefs v p <> 0%nat -> 0 <= a -> a + 1 <= pageSize (s_bt s) ->
  (forall db', sees s v db' -> Q (nthZ (bytes v p) a) db') ->
  wp (on p (getbyte a)) Q E db.
Proof.
  intros H Hr Ha Hl HQ. pose proof (sees_length v db p H) as Hlen. apply (db_on v); [done..|].
  rewrite <- (sees_data v db) in Hlen by done.
  apply ok_getbyte; [done|lia|]. rewrite !(sees_data v) by done.
  split_and!; [apply (se_bytes _ _ _ H)|by left|].
  intros d1 H1. apply HQ. rewrite (se_page _ _ _ H) in H1.
  eapply sees_ext, H1; try done. intros q. cbn. unfold insert, fn_insert. by destruct (decide (p = q)) as [<-|].
Qed.

Definition get4 (d : list Z) (a : Z) : Z := sqlite3Get4byte (slice d a 4).

Lemma db_get4byte v db p a (Q : Z -> Db -> Prop) E :
  sees s v db -> vrefs v p <> 0%nat -> 0 <= a -> a + 4 <= pageSize (s_bt s) ->
  (forall db', sees s v db' -> Q (get4 (bytes v p) a) db') ->
  wp (on p (get4byte a)) Q E db.
Proof.
  intros H Hr Ha Hl HQ. pose proof (sees_length v db p H) as Hlen. apply (db_on v); [done..|].
  rewrite <- (sees_data v db) in Hlen by done.
  apply ok_bind, ok_memread; [done|lia|lia|]. apply ok_ret. rewrite !(sees_data v) by done.
  split_and!; [apply (se_bytes _ _ _ H)|by left|].
  intros d1 H1. apply HQ. rewrite (se_page _ _ _ H) in H1.
  eapply sees_ext, H1; try done. intros q. cbn. unfold insert, fn_insert. by destruct (decide (p = q)) as [<-|].
Qed.

Lemma db_write v db p a bs (Q : unit -> Db -> Prop) E :
  sees s v db -> vrefs v p <> 0%nat -> p ∈ vwrite v -> Forall is_byte bs -> 0 <= a ->
  a + Z.of_nat (length bs) <= pageSize (s_bt s) ->
  (forall db', sees s (putData p (store (bytes v p) a bs) v) db' -> Q () db') ->
  wp (on p (memwrite a bs)) Q E db.
Proof.
  intros H Hr Hw Hb Ha Hl HQ. pose proof (sees_length v db p H) as Hlen.
  pose proof (se_bytes _ _ _ H p) as [_ Hby]. apply (db_on v); [done..|].
  apply ok_memwrite; rewrite ?(sees_data v) by done; [done|lia|]. cbn. split_and!.
  - split; [rewrite length_store by lia; done|by apply store_bytes].
  - by right.
  - intros d1 H1. apply HQ. by rewrite fromDbPage_setData, (se_page _ _ _ H) in H1.
Qed.

Lemma db_memmove v db p dst src n (Q : unit -> Db -> Prop) E :
  sees s v db -> vrefs v p <> 0%nat -> p ∈ vwrite v -> 0 <= dst -> 0 <= src -> 0 <= n ->
  dst + n <= pageSize (s_bt s) -> src + n <= pageSize (s_bt s) ->
  (forall db', sees s (putData p (store (bytes v p) dst (slice (bytes v p) src n)) v) db' -> Q () db') ->
  wp (on p (memmove dst src n)) Q E db.
Proof.
  intros H Hr Hw Hd Hs Hn Hd2 Hs2 HQ. pose proof (sees_length v db p H) as Hlen.
  pose proof (se_bytes _ _ _ H p) as [_ Hby]. apply (db_on v); [done..|].
  apply ok_memmove; rewrite ?(sees_data v) by done; [done|done|done|lia|lia|]. cbn. split_and!.
  - split; [rewrite length_store; rewrite ?length_slice; lia|by apply store_bytes, slice_bytes].
  - by right.
  - intros d1 H1. apply HQ. by rewrite fromDbPage_setData, (se_page _ _ _ H) in H1.
Qed.

Lemma db_put4byte v db p a x (Q : unit -> Db -> Prop) E :
  sees s v db -> vrefs v p <> 0%nat -> p ∈ vwrite v -> 0 <= a -> a + 4 <= pageSize (s_bt s) ->
  (forall db', sees s (putData p (store (bytes v p) a (sqlite3Put4byte x)) v) db' -> Q () db') ->
  wp (on p (put4byte a x)) Q E db.
Proof. intros. apply (db_write v); auto using Put4byte_bytes. Qed.

Lemma db_setNPage v db n (Q : unit -> Db -> Prop) E :
  sees s v db -> 0 <= n < 2 ^ 32 -> (forall db', sees s (putSize n v) db' -> Q () db') ->
  wp (change (setNPage n)) Q E db.
Proof.
  intros H Hn HQ. apply HQ. destruct H as [A1 A2 A3 A4 A5 A6 A7 A8 A9 A10 A11 A12]. by split.
Qed.

Lemma db_GetHasContent v db p (Q : bool -> Db -> Prop) E :
  sees s v db -> 0 < p < 2 ^ 32 -> Q (vhas v p) db -> wp (btreeGetHasContent p) Q E db.
Proof.
  intros H Hp HQ. unfold wp, btreeGetHasContent. pose proof (se_has _ _ _ H) as Hh. unfold hasContent in Hh.
  destruct (pHasContent db) as [b|]; [|by rewrite Hh in HQ].
  destruct Hh as (S & HS & Hh). rewrite Hh in HQ by lia. unfold sqlite3BitvecSize.
  destruct (Z.ltb_spec (iSize b) p) as [|Hlt]; [done|].
  pose proof (sqlite3BitvecTest_refines b S p HS ltac:(lia)) as Ht. unfold sqlite3BitvecTest in Ht.
  assert (Ht' : sqlite3BitvecTestNotNull b p = Some (bool_decide (p ∈ S))) by exact Ht.
  by rewrite Ht'.
Qed.

Lemma db_SetHasContent v db p (Q : unit -> Db -> Prop) (E : Z -> Db -> Prop) :
  sees s v db -> 1 <= p <= vsize v ->
  (forall h db', h p = true -> (forall q, 0 <= q < 2 ^ 32 -> vhas v q = true -> h q = true) ->
     sees s (putHas h v) db' -> Q () db') ->
  (forall h db', sees s (putHas h v) db' -> E SQLITE_NOMEM db') ->
  wp (btreeSetHasContent p) Q E db.
Proof.
  intros H Hp HQ HE. unfold wp, btreeSetHasContent. pose proof (se_bound _ _ _ H) as Hb.
  pose proof (se_has _ _ _ H) as Hh. pose proof (se_size _ _ _ H) as Hn.
  assert (forall b h m, hasContent b h -> sees s (putHas h v) (setHasContent b m db)) as Hset.
  { intros b h m Hbh. destruct H as [A1 A2 A3 A4 A5 A6 A7 A8 A9 A10 A11 A12]. by split. }
  assert (forall b m S0, represents b S0 ->
      (forall q, 0 <= q < 2 ^ 32 -> vhas v q = true -> (iSize b <? q) || bool_decide (q ∈ S0) = true) ->
      match (if p <=? sqlite3BitvecSize b then
          match sqlite3BitvecSet m (Some b) p with
          | Some (rc, p', m') => Some (if rc =? SQLITE_OK then Ok () else Err rc, setHasContent p' m' db)
          | None => None
          end else Some (Ok (), setHasContent (Some b) m db)) with
      | Some (Ok a, db') => Q a db' | Some (Err rc, db') => E rc db' | None => False end) as Hmain.
  { intros b m S0 HS Hall. unfold sqlite3BitvecSize.
    assert (0 <= iSize b < 2 ^ 32) as Hsz by (apply wf_size, HS).
    destruct (Z.leb_spec p (iSize b)) as [Hle|Hgt].
    - destruct (sqlite3BitvecSet_refines m b S0 p HS ltac:(lia)) as (rc & b' & m' & -> & Hs' & Hr).
      destruct Hr as [[-> Hr]|[-> (S' & _ & Hr)]]; cbn.
      + eapply (HQ (fun q => (iSize b' <? q) || bool_decide (q ∈ {[p]} ∪ S0))), Hset.
        * apply orb_true_iff. right. apply bool_decide_eq_true. set_solver.
        * intros q Hq Hv. specialize (Hall q Hq Hv). rewrite Hs'.
          apply orb_true_iff in Hall as [->|Hin%bool_decide_eq_true]; [done|].
          apply orb_true_iff. right. apply bool_decide_eq_true. set_solver.
        * by exists ({[p]} ∪ S0).
      + eapply (HE (fun q => (iSize b' <? q) || bool_decide (q ∈ S'))), Hset. by exists S'.
    - eapply (HQ (fun q => (iSize b <? q) || bool_decide (q ∈ S0))), Hset.
      + apply orb_true_iff. left. by apply Z.ltb_lt.
      + done.
      + by exists S0. }
  unfold hasContent in Hh. destruct (pHasContent db) as [b|].
  - destruct Hh as (S & HS & Hh). apply (Hmain b _ S HS). intros q Hq Hv. by rewrite <- Hh.
  - rewrite Hn. pose proof (sqlite3BitvecCreate_refines (heap db) (vsize v) Hb) as Hc.
    destruct (sqlite3BitvecCreate (heap db) (vsize v)) as [[b|] m]; cbn in Hc.
    + destruct Hc as (_ & _ & HS). apply (Hmain b _ ∅ HS). intros q _ Hv. by rewrite Hh in Hv.
    + by apply (HE (vhas v)), Hset.
Qed.

End rules.
