(* ===== verification/BtPtrmap.v ===== *)
(** * The pointer map (btree.c)

    In an auto-vacuum database, pages of their own hold an entry of five bytes
    for each other page: its type and the page that points to it.  Entries of
    different pages are at different places, inside of the usable part of a
    page; what is written is read back. *)

From stdpp Require Import base numbers option gmap sets functions list.
From S2P Require Import Prelude Util Varint Bitvec Btree BtVarint BtCell BtMem BtPage BtPager BtView.
#[local] Open Scope Z_scope.

(** ** Operations *)

Definition PTRMAP_ROOTPAGE : Z := 1.
Definition PTRMAP_FREEPAGE : Z := 2.
Definition PTRMAP_OVERFLOW2 : Z := 4.
Definition PTRMAP_BTREE : Z := 5.

Definition ptrmapPageno (bt : BtShared) (pg : Z) : Z :=
  if pg <? 2 then 0 else
  let nPagesPerMapPage := usableSize bt / 5 + 1 in
  let iPtrMap := (pg - 2) / nPagesPerMapPage in
  let ret := u32 (iPtrMap * nPagesPerMapPage + 2) in
  if ret =? PENDING_BYTE_PAGE bt then u32 (ret + 1) else ret.

Definition PTRMAP_ISPAGE (bt : BtShared) (pg : Z) : bool := ptrmapPageno bt pg =? pg.

(** The difference is an unsigned integer, assigned to an [int]. *)
Definition PTRMAP_PTROFFSET (pgptrmap pg : Z) : Z :=
  let x := u32 (5 * (pg - pgptrmap - 1)) in
  if x <? 2 ^ 31 then x else x - 2 ^ 32.

Definition ptrmapPut (key eType parent : Z) : DM unit :=
  if key =? 0 then throw SQLITE_CORRUPT else
  bt ← look shared;
  let iPtrmap := ptrmapPageno bt key in
  sqlite3PagerGet iPtrmap false;;
  rc ← code (
    init ← on iPtrmap (field isInit);
    if init : bool then throw SQLITE_CORRUPT else
    let offset := PTRMAP_PTROFFSET iPtrmap key in
    if offset <? 0 then throw SQLITE_CORRUPT else
    e ← on iPtrmap (getbyte offset);
    p ← on iPtrmap (get4byte (offset + 1));
    if negb (eType =? e) || negb (p =? parent) then
      sqlite3PagerWrite iPtrmap;;
      on iPtrmap (putbyte offset eType);;
      on iPtrmap (put4byte (offset + 1) parent)
    else mret ());
  sqlite3PagerUnref iPtrmap;;
  return_code rc.

Definition ptrmapGet (key : Z) : DM (Z * Z) :=
  bt ← look shared;
  let iPtrmap := ptrmapPageno bt key in
  sqlite3PagerGet iPtrmap false;;
  let offset := PTRMAP_PTROFFSET iPtrmap key in
  if offset <? 0 then sqlite3PagerUnref iPtrmap;; throw SQLITE_CORRUPT else
  eType ← on iPtrmap (getbyte offset);
  pg ← on iPtrmap (get4byte (offset + 1));
  sqlite3PagerUnref iPtrmap;;
  if (eType <? 1) || (5 <? eType) then throw SQLITE_CORRUPT else mret (eType, pg).

(** ** The place of an entry *)

(** A page that the pointer map has an entry for. *)
Record mapped (bt : BtShared) (key : Z) : Prop := {
  ma_range : 2 <= key < 2 ^ 32;
  ma_pending : key <> PENDING_BYTE_PAGE bt;
  ma_data : PTRMAP_ISPAGE bt key = false
}.

Lemma pending_range bt : bt_ok bt -> 16385 <= PENDING_BYTE_PAGE bt < 2 ^ 31.
Proof.
  intros [Hu Hp _ _]. unfold PENDING_BYTE_PAGE, PENDING_BYTE.
  assert (16384 <= 0x40000000 / pageSize bt) by (apply Z.div_le_lower_bound; lia).
  assert (0x40000000 / pageSize bt <= 0x40000000) by (apply Z.div_le_upper_bound; lia).
  rewrite u32_small; lia.
Qed.

Lemma ptrmapPageno_eq bt key :
  bt_ok bt -> 2 <= key < 2 ^ 32 ->
  let per := usableSize bt / 5 + 1 in
  let base := (key - 2) / per * per + 2 in
  97 <= per /\ 5 * (per - 1) <= usableSize bt /\ 2 <= base <= key /\ key < base + per /\
  ptrmapPageno bt key = if base =? PENDING_BYTE_PAGE bt then base + 1 else base.
Proof.
  intros Hb Hk per base. pose proof (pending_range bt Hb) as Hpr. destruct Hb as [Hu Hp _ _].
  assert (97 <= per) by (unfold per; pose proof (Z.div_le_mono 480 (usableSize bt) 5 ltac:(lia) ltac:(lia)) as H;
    change (480 / 5) with 96 in H; lia).
  assert (5 * (per - 1) <= usableSize bt) by (unfold per; pose proof (Z.mul_div_le (usableSize bt) 5); lia).
  pose proof (Z.mul_div_le (key - 2) per ltac:(lia)). pose proof (Z.mul_succ_div_gt (key - 2) per ltac:(lia)).
  assert (0 <= (key - 2) / per) by (apply Z.div_pos; lia).
  assert (2 <= base <= key) by (unfold base; nia). split_and!; [done..|lia|lia|unfold base; nia|].
  unfold ptrmapPageno. destruct (Z.ltb_spec key 2); [lia|]. fold per. fold base.
  rewrite u32_small by lia. destruct (Z.eqb_spec base (PENDING_BYTE_PAGE bt)); [|done].
  rewrite u32_small; lia.
Qed.

(** The map page is a page before [key], and the entry is inside of it. *)
Lemma mapped_place bt key :
  bt_ok bt -> mapped bt key ->
  let m := ptrmapPageno bt key in
  2 <= m < key /\ m <> PENDING_BYTE_PAGE bt /\
  PTRMAP_PTROFFSET m key = 5 * (key - m - 1) /\ 5 * (key - m - 1) + 5 <= usableSize bt.
Proof.
  intros Hb [Hk Hp Hd] m. destruct (ptrmapPageno_eq bt key Hb Hk) as (H1 & H2 & H3 & H4 & H5).
  fold m in H5. unfold PTRMAP_ISPAGE in Hd. fold m in Hd. apply Z.eqb_neq in Hd.
  destruct Hb as [Hu Hs _ _]. set (base := (key - 2) / _ * _ + 2) in *.
  assert (base <= m <= base + 1 /\ m <> PENDING_BYTE_PAGE bt /\ m <= key) as (Hm1 & Hm2 & Hm3).
  { destruct (Z.eqb_spec base (PENDING_BYTE_PAGE bt)); lia. }
  split_and!; [lia|lia|done| |lia]. unfold PTRMAP_PTROFFSET. rewrite u32_small by lia.
  destruct (Z.ltb_spec (5 * (key - m - 1)) (2 ^ 31)); lia.
Qed.

(** A map page is its own map page: it has no entry. *)
Lemma ptrmapPageno_map bt key :
  bt_ok bt -> 2 <= key < 2 ^ 32 -> ptrmapPageno bt key < 2 ^ 32 ->
  PTRMAP_ISPAGE bt (ptrmapPageno bt key) = true.
Proof.
  intros Hb Hk Hm. destruct (ptrmapPageno_eq bt key Hb Hk) as (H1 & H2 & H3 & H4 & H5).
  set (per := usableSize bt / 5 + 1) in *. set (m := ptrmapPageno bt key) in *.
  assert ((m - 2) / per = (key - 2) / per) as Hq.
  { symmetry. apply Z.div_unique with (r := if (key - 2) / per * per + 2 =? PENDING_BYTE_PAGE bt then 1 else 0).
    - destruct (_ =? _); lia.
    - rewrite H5. destruct (_ =? _); lia. }
  assert (2 <= m) by (rewrite H5; destruct (_ =? _); lia).
  destruct (ptrmapPageno_eq bt m Hb ltac:(lia)) as (_ & _ & _ & _ & H6). fold per in H6.
  unfold PTRMAP_ISPAGE. rewrite H6, Hq, <- H5. apply Z.eqb_refl.
Qed.

(** ** What is seen of the pointer map *)

Definition ptrmapEntry (bt : BtShared) (v : View) (key : Z) : Z * Z :=
  let m := ptrmapPageno bt key in
  let off := 5 * (key - m - 1) in
  (nthZ (bytes v m) off, get4 (bytes v m) (off + 1)).

Definition withEntry (bt : BtShared) (key eType parent : Z) (v : View) : View :=
  let m := ptrmapPageno bt key in
  putData m (store (bytes v m) (5 * (key - m - 1)) (eType :: sqlite3Put4byte parent)) v.

Lemma store_app d a x y :
  0 <= a -> a + Z.of_nat (length x) + Z.of_nat (length y) <= Z.of_nat (length d) ->
  store (store d a x) (a + Z.of_nat (length x)) y = store d a (x ++ y).
Proof.
  intros Ha Hl. apply nthZ_ext.
  - rewrite !length_store; rewrite ?length_store, ?length_app; lia.
  - intros i Hi. rewrite !length_store in Hi by (rewrite ?length_store; lia).
    rewrite !nthZ_store by (rewrite ?length_store, ?length_app; lia). rewrite length_app.
    unfold nthZ. repeat case_decide; try lia; try done.
    + rewrite lookup_app_r by lia. do 2 f_equal. lia.
    + by rewrite lookup_app_l by lia.
Qed.

Lemma get4_sum d a :
  Forall is_byte d -> 0 <= a ->
  get4 d a = nthZ d a * 2 ^ 24 + nthZ d (a + 1) * 2 ^ 16 + nthZ d (a + 2) * 2 ^ 8 + nthZ d (a + 3).
Proof.
  intros Hd Ha. unfold get4. rewrite Get4byte_sum by (by apply slice_bytes).
  rewrite !nthZ_slice by lia. by rewrite Z.add_0_r.
Qed.

Lemma get4_range d a : Forall is_byte d -> 0 <= a -> 0 <= get4 d a < 2 ^ 32.
Proof.
  intros Hd Ha. rewrite get4_sum by done.
  pose proof (nthZ_byte d a Hd). pose proof (nthZ_byte d (a + 1) Hd).
  pose proof (nthZ_byte d (a + 2) Hd). pose proof (nthZ_byte d (a + 3) Hd). unfold is_byte in *. lia.
Qed.

Lemma get4_same d d' a :
  Forall is_byte d -> Forall is_byte d' -> 0 <= a ->
  (forall i, a <= i < a + 4 -> nthZ d' i = nthZ d i) -> get4 d' a = get4 d a.
Proof. intros Hd Hd' Ha H. rewrite !get4_sum by done. by rewrite !H by lia. Qed.

Lemma nthZ_tail b l x : 0 < x -> nthZ (b :: l) x = nthZ l (x - 1).
Proof. intros Hx. unfold nthZ. by replace (Z.to_nat x) with (S (Z.to_nat (x - 1))) by lia. Qed.

Lemma length_Put4 v : length (sqlite3Put4byte v) = 4%nat.
Proof. done. Qed.

Lemma get4_store d a x :
  0 <= a -> a + 4 <= Z.of_nat (length d) -> 0 <= x < 2 ^ 32 ->
  get4 (store d a (sqlite3Put4byte x)) a = x.
Proof.
  intros Ha Hl Hx. unfold get4.
  replace (slice _ a 4) with (sqlite3Put4byte x ++ []).
  - by apply Get4byte_Put4byte.
  - unfold slice, store. rewrite app_nil_r, drop_app_length' by (rewrite length_take; lia).
    by rewrite take_app_length'.
Qed.

Lemma get4_store_out d a bs x :
  Forall is_byte d -> Forall is_byte bs ->
  0 <= a -> a + Z.of_nat (length bs) <= Z.of_nat (length d) -> 0 <= x ->
  x + 4 <= a \/ a + Z.of_nat (length bs) <= x -> get4 (store d a bs) x = get4 d x.
Proof.
  intros Hd Hb Ha Hl Hx Ho. apply get4_same; [done|by apply store_bytes|done|].
  intros i Hi. apply nthZ_store_out; lia.
Qed.

(** The entries after an entry is written. *)
Lemma ptrmapEntry_same bt v v' k :
  bytes v' (ptrmapPageno bt k) = bytes v (ptrmapPageno bt k) -> ptrmapEntry bt v' k = ptrmapEntry bt v k.
Proof. intros H. unfold ptrmapEntry. by rewrite H. Qed.

Lemma ptrmapEntry_withEntry bt v key eType parent k :
  bt_ok bt -> mapped bt key -> mapped bt k -> is_byte eType -> 0 <= parent < 2 ^ 32 ->
  (forall q, Z.of_nat (length (bytes v q)) = pageSize bt /\ Forall is_byte (bytes v q)) ->
  ptrmapEntry bt (withEntry bt key eType parent v) k =
  if decide (k = key) then (eType, parent) else ptrmapEntry bt v k.
Proof.
  intros Hb Hk Hk' He Hpa Hv. destruct (mapped_place _ _ Hb Hk) as (H1 & _ & _ & H4).
  destruct (mapped_place _ _ Hb Hk') as (H1' & _ & _ & H4'). destruct (bo_usable _ Hb) as [_ Hup].
  unfold ptrmapEntry, withEntry. set (m := ptrmapPageno bt key) in *. set (m' := ptrmapPageno bt k) in *.
  destruct (Hv m) as [Hl Hby]. cbn. unfold insert, fn_insert. destruct (decide (m = m')) as [Em|Em].
  2: { rewrite decide_False; [done|]. intros ->. by apply Em. }
  rewrite <- Em in *. cbn. set (off := 5 * (key - m - 1)) in *.
  assert (Forall is_byte (eType :: sqlite3Put4byte parent)) as Hbs by (constructor; [done|apply Put4byte_bytes]).
  case_decide as Hkk; [subst k; f_equal|f_equal].
  - rewrite nthZ_store_in by (cbn; lia). by rewrite Z.sub_diag.
  - fold off. pose proof (store_app (bytes v m) off [eType] (sqlite3Put4byte parent)) as Hst.
    cbn [app] in Hst. rewrite <- Hst by (cbn; lia). change (Z.of_nat (length [eType])) with 1. apply get4_store; [lia| |done].
    rewrite length_store; cbn; lia.
  - apply nthZ_store_out; cbn; lia.
  - apply get4_store_out; try done; cbn; lia.
Qed.

(** Equal views. *)
Ltac vext :=
  eapply sees_ext; [..|eassumption]; intros; cbn; try done;
  unfold insert, fn_insert; repeat case_decide; subst; try done; try congruence.

Section rules.
Context (s : Start) (Hbt : bt_ok (s_bt s)).

Let Hps : 0 <= pageSize (s_bt s).
Proof. destruct Hbt as [Hu _ _ _]. lia. Qed.

Lemma db_ptrmapGet v db key (Q : Z * Z -> Db -> Prop) (E : Z -> Db -> Prop) :
  sees s v db -> mapped (s_bt s) key -> 1 <= (ptrmapEntry (s_bt s) v key).1 <= 5 ->
  (forall db', sees s v db' -> Q (ptrmapEntry (s_bt s) v key) db') ->
  (forall db' rc, sees s v db' -> fault s rc -> E rc db') ->
  wp (ptrmapGet key) Q E db.
Proof.
  intros H Hk He HQ HE. destruct (mapped_place _ key Hbt Hk) as (H1 & H2 & H3 & H4).
  unfold ptrmapGet. apply db_bind, db_look. rewrite (se_bt _ _ _ H).
  unfold ptrmapEntry in *. set (m := ptrmapPageno (s_bt s) key) in *. set (off := 5 * (key - m - 1)) in *.
  apply db_bind. apply (db_PagerGet s v); [done|lia|done|done|done| |done]. intros d1 S1. rewrite H3.
  destruct (Z.ltb_spec off 0); [lia|]. destruct Hbt as [Hu _ _ _].
  eapply db_bind, (db_getbyte s _ d1); [done|cbn; by rewrite fn_lookup_insert|lia|lia|]. intros d2 S2.
  eapply db_bind, (db_get4byte s _ d2); [done|cbn; by rewrite fn_lookup_insert|lia|lia|]. intros d3 S3.
  eapply db_bind, (db_Unref s _ d3); [done|cbn; by rewrite fn_lookup_insert|]. intros d4 S4.
  cbn in *. destruct (Z.ltb_spec (nthZ (bytes v m) off) 1); [lia|].
  destruct (Z.ltb_spec 5 (nthZ (bytes v m) off)); [lia|]. apply db_ret, HQ. vext.
Qed.

Lemma db_ptrmapPut v db key eType parent (Q : unit -> Db -> Prop) (E : Z -> Db -> Prop) :
  sees s v db -> mapped (s_bt s) key -> is_byte eType -> 0 <= parent < 2 ^ 32 ->
  isInit (vpage v (ptrmapPageno (s_bt s) key)) = false ->
  (forall w db', vwrite v ⊆ w -> sees s (putWrite w (withEntry (s_bt s) key eType parent v)) db' -> Q () db') ->
  (forall db' rc, sees s v db' -> fault s rc -> E rc db') ->
  wp (ptrmapPut key eType parent) Q E db.
Proof.
  intros H Hk He Hpa Hi HQ HE. destruct (mapped_place _ key Hbt Hk) as (H1 & H2 & H3 & H4).
  unfold ptrmapPut. destruct (Z.eqb_spec key 0); [lia|]. apply db_bind, db_look. rewrite (se_bt _ _ _ H).
  unfold withEntry in *. set (m := ptrmapPageno (s_bt s) key) in *. set (off := 5 * (key - m - 1)) in *.
  apply db_bind. apply (db_PagerGet s v); [done|lia|done|done|done| |done]. intros d1 S1.
  pose proof (proj1 (bo_usable _ Hbt)). pose proof (proj2 (bo_usable _ Hbt)).
  pose proof (sees_length s v db m H) as Hlen. pose proof (se_bytes _ _ _ H m) as [_ Hby].
  apply db_bind, db_code, db_bind. eapply (db_on s _ d1); [done|cbn; by rewrite fn_lookup_insert|].
  apply ok_field. split_and!.
  { rewrite (sees_data s _ d1 m S1). apply (se_bytes _ _ _ S1). } { left. by rewrite (sees_data s _ d1 m S1). }
  assert (isInit (page d1 m) = false) as ->.
  { rewrite <- Hi. pose proof (se_page _ _ _ S1 m) as Hpg. cbn in Hpg. rewrite <- Hpg.
    unfold btreePageFromDbPage. by destruct (m =? _). }
  intros d2 S2. rewrite (se_page _ _ _ S1) in S2.
  assert (sees s (putRefs m (S (vrefs v m)) v) d2) as S2' by vext.
  clear S1 S2 d1. rewrite H3. destruct (Z.ltb_spec off 0); [lia|].
  eapply db_bind, (db_getbyte s _ d2); [done|cbn; by rewrite fn_lookup_insert|lia|lia|]. intros d3 S3.
  eapply db_bind, (db_get4byte s _ d3); [done|cbn; by rewrite fn_lookup_insert|lia|lia|]. intros d4 S4.
  cbn [vpage putRefs] in *. clear S2' S3 d2 d3. destruct (_ || _) eqn:Hc.
  - eapply db_bind, (db_PagerWrite s _ d4); [done| |].
    2: { intros d5 rc S5 Hf. eapply db_bind, (db_Unref s _ d5); [done|cbn; by rewrite fn_lookup_insert|].
         intros d6 S6. destruct Hf as [Hf Hf2]. apply db_return_code; [done|]. intros _. apply HE; [vext|by split]. }
    intros d5 S5. assert (forall x, u8 x = x <-> is_byte x) as Hu8.
    { intros x. unfold u8, is_byte. split; [intros <-; apply Z.mod_pos_bound; lia|apply Z.mod_small]. }
    eapply db_bind, (db_write s _ d5); [done|cbn; by rewrite fn_lookup_insert|cbn; set_solver| |lia|cbn; lia|].
    { repeat constructor; apply u8_range. } intros d6 S6. rewrite (proj2 (Hu8 eType) He) in S6.
    eapply (db_put4byte s _ d6); [done|cbn; by rewrite fn_lookup_insert|cbn; set_solver|lia|lia|]. intros d7 S7.
    eapply db_bind, (db_Unref s _ d7); [done|cbn; by rewrite fn_lookup_insert|]. intros d8 S8.
    apply db_return_code; [|done]. intros _. apply (HQ ({[m]} ∪ vwrite v)); [set_solver|].
    eapply sees_ext; [..|exact S8]; intros; cbn; try done; unfold insert, fn_insert; repeat case_decide; subst; try done.
    cbn. fold off. apply (f_equal (fun d => setData d (vpage v m))), (store_app (bytes v m) off [eType] (sqlite3Put4byte parent)); cbn; lia.
  - eapply db_ret, db_bind, (db_Unref s _ d4); [done|cbn; by rewrite fn_lookup_insert|]. intros d5 S5.
    apply db_return_code; [|done]. intros _. apply (HQ (vwrite v)); [done|].
    apply orb_false_iff in Hc as [E1%negb_false_iff%Z.eqb_eq E2%negb_false_iff%Z.eqb_eq].
    eapply sees_ext; [..|exact S5]; intros; cbn; try done; unfold insert, fn_insert; repeat case_decide; subst; try done.
    replace (store (bytes v m) off (nthZ (bytes v m) off :: _)) with (bytes v m); [by destruct (vpage v m)|].
    symmetry. apply nthZ_ext; [rewrite length_store; cbn; lia|]. intros i Hin.
    rewrite length_store in Hin by (cbn; lia). rewrite nthZ_store by (cbn; lia). case_decide as Hd; [|done].
    cbn in Hd. destruct (decide (i = off)) as [->|]; [by rewrite Z.sub_diag|].
    unfold get4. rewrite Put4byte_Get4byte; [|by apply slice_bytes|rewrite length_slice; lia].
    rewrite nthZ_tail, nthZ_slice by lia. f_equal. lia.
Qed.

End rules.
