(* ===== verification/BtFreelist.v ===== *)
(** * Free pages of a database (btree.c)

    [allocateBtreePage] and [freePage2].  The free pages are in a list of
    trunk pages, each with an array of leaf pages.  A pointer to a page is its
    number, 0 for the null pointer; the labels at the ends of the functions,
    which release pages, are reached with the result code and the pointers. *)

From stdpp Require Import base numbers option gmap sets functions list.
From S2P Require Import Prelude Util Varint Bitvec Btree BtVarint BtCell BtMem BtPage BtPager BtView BtPtrmap.
#[local] Open Scope Z_scope.

Definition BTALLOC_ANY : Z := 0.
Definition BTALLOC_EXACT : Z := 1.
Definition BTALLOC_LE : Z := 2.
Definition BTS_SECURE_DELETE : Z := 0x0004.

(** ** Allocation from the list *)

(** How one turn of the loop over the trunk pages ends: at the label, or at
    the end of its body with [searchList], the result code, [*pPgno] and
    [pTrunk]. *)
Inductive turn :=
| Goto (rc pTrunk : Z)
| Next (searchList : bool) (rc pPgno pTrunk : Z).

(** [for(i=0; i<k; i++)]: the first leaf that is not after [nearby], or 0. *)
Fixpoint firstBelow (todo : nat) (pTrunk nearby i : Z) : DM Z :=
  match todo with
  | O => mret 0
  | S f =>
      iPage ← on pTrunk (get4byte (8 + i * 4));
      if iPage <=? nearby then mret i else firstBelow f pTrunk nearby (i + 1)
  end.

(** [sqlite3AbsInt32(x - nearby)]: the difference of unsigned integers is
    converted to an [int]. *)
Definition distance (x nearby : Z) : Z :=
  let d := u32 (x - nearby) in
  let d := if d <? 2 ^ 31 then d else d - 2 ^ 32 in
  sqlite3AbsInt32 d.

(** [for(i=1; i<k; i++)]: the leaf that is closest to [nearby]. *)
Fixpoint closestLeaf (todo : nat) (pTrunk nearby i closest dist : Z) : DM Z :=
  match todo with
  | O => mret closest
  | S f =>
      x ← on pTrunk (get4byte (8 + i * 4));
      let d2 := distance x nearby in
      if d2 <? dist then closestLeaf f pTrunk nearby (i + 1) i d2
      else closestLeaf f pTrunk nearby (i + 1) closest dist
  end.

Definition chooseLeaf (pTrunk k nearby eMode : Z) : DM Z :=
  if 0 <? nearby then
    if eMode =? BTALLOC_LE then firstBelow (Z.to_nat k) pTrunk nearby 0
    else
      x ← on pTrunk (get4byte 8);
      closestLeaf (Z.to_nat (k - 1)) pTrunk nearby 1 0 (distance x nearby)
  else mret 0.

(** "Extract a leaf from the trunk" *)
Definition takeLeaf (pTrunk k mxPage nearby eMode : Z) (searchList : bool) : DM turn :=
  closest ← chooseLeaf pTrunk k nearby eMode;
  iPage ← on pTrunk (get4byte (8 + closest * 4));
  if (mxPage <? iPage) || (iPage <? 2) then mret (Goto SQLITE_CORRUPT pTrunk) else
  if negb searchList || ((iPage =? nearby) || ((iPage <? nearby) && (eMode =? BTALLOC_LE))) then
    rc ← code (sqlite3PagerWrite pTrunk);
    if negb (rc =? SQLITE_OK) then mret (Goto rc pTrunk) else
    (if closest <? k - 1 then on pTrunk (memmove (8 + closest * 4) (4 + k * 4) 4) else mret ());;
    on pTrunk (put4byte 4 (k - 1));;
    has ← btreeGetHasContent iPage;
    rc ← code (btreeGetUnusedPage iPage (negb has));
    rc ← (if rc =? SQLITE_OK then
            rc ← code (sqlite3PagerWrite iPage);
            (if rc =? SQLITE_OK then mret () else releasePage iPage);;
            mret rc
          else mret rc);
    mret (Next false rc iPage pTrunk)
  else mret (Next true SQLITE_OK 0 pTrunk).

(** The pointer to [pTrunk], on page 1 or on the trunk page before, is
    replaced by [new]; the result code. *)
Definition relink (pPrevTrunk : Z) (new : list Z) : DM Z :=
  if pPrevTrunk =? 0 then on 1 (memwrite 32 new);; mret SQLITE_OK
  else
    rc ← code (sqlite3PagerWrite pPrevTrunk);
    if rc =? SQLITE_OK then on pPrevTrunk (memwrite 0 new);; mret SQLITE_OK else mret rc.

(** The first leaf of a trunk page that is taken becomes a trunk page. *)
Definition promoteLeaf (pTrunk pPrevTrunk k iNewTrunk : Z) : DM turn :=
  rc ← code (btreeGetUnusedPage iNewTrunk false);
  if negb (rc =? SQLITE_OK) then mret (Goto rc pTrunk) else
  rc ← code (sqlite3PagerWrite iNewTrunk);
  if negb (rc =? SQLITE_OK) then releasePage iNewTrunk;; mret (Goto rc pTrunk) else
  next ← on pTrunk (memread 0 4);
  on iNewTrunk (memwrite 0 next);;
  on iNewTrunk (put4byte 4 (k - 1));;
  leaves ← on pTrunk (memread 12 ((k - 1) * 4));
  on iNewTrunk (memwrite 8 leaves);;
  releasePage iNewTrunk;;
  rc ← relink pPrevTrunk (sqlite3Put4byte iNewTrunk);
  if negb (rc =? SQLITE_OK) then mret (Goto rc pTrunk) else
  mret (Next false SQLITE_OK pTrunk 0).

(** The trunk page is the page searched for. *)
Definition takeTrunk (pTrunk pPrevTrunk k mxPage : Z) : DM turn :=
  rc ← code (sqlite3PagerWrite pTrunk);
  if negb (rc =? SQLITE_OK) then mret (Goto rc pTrunk) else
  if k =? 0 then
    new ← on pTrunk (memread 0 4);
    rc ← relink pPrevTrunk new;
    if negb (rc =? SQLITE_OK) then mret (Goto rc pTrunk) else
    mret (Next false SQLITE_OK pTrunk 0)
  else
    iNewTrunk ← on pTrunk (get4byte 8);
    if mxPage <? iNewTrunk then mret (Goto SQLITE_CORRUPT pTrunk) else
    promoteLeaf pTrunk pPrevTrunk k iNewTrunk.

(** The body of the loop, after [pTrunk] is fetched. *)
Definition trunkTurn (pTrunk pPrevTrunk mxPage nearby eMode : Z) (searchList : bool) : DM turn :=
  bt ← look shared;
  k ← on pTrunk (get4byte 4);
  if (k =? 0) && negb searchList then
    rc ← code (sqlite3PagerWrite pTrunk);
    if negb (rc =? SQLITE_OK) then mret (Goto rc pTrunk) else
    next ← on pTrunk (memread 0 4);
    on 1 (memwrite 32 next);;
    mret (Next searchList SQLITE_OK pTrunk 0)
  else if usableSize bt / 4 - 2 <? k then mret (Goto SQLITE_CORRUPT pTrunk)
  else if searchList && ((nearby =? pTrunk) || ((pTrunk <? nearby) && (eMode =? BTALLOC_LE))) then
    takeTrunk pTrunk pPrevTrunk k mxPage
  else if 0 <? k then takeLeaf pTrunk k mxPage nearby eMode searchList
  else mret (Next searchList SQLITE_OK 0 pTrunk).

(** The result code, [*pPgno], and what [pTrunk] and [pPrevTrunk] are at the
    end. *)
Fixpoint trunkLoop (fuel : nat) (n mxPage nearby eMode : Z) (searchList : bool) (nSearch pTrunk : Z)
    : DM (Z * Z * Z * Z) :=
  match fuel with
  | O => fun _ => None
  | S f =>
      let pPrevTrunk := pTrunk in
      iTrunk ← (if pPrevTrunk =? 0 then on 1 (get4byte 32) else on pPrevTrunk (get4byte 0));
      rc ← (if (mxPage <? iTrunk) || (n <? nSearch) then mret SQLITE_CORRUPT
            else code (btreeGetUnusedPage iTrunk false));
      if negb (rc =? SQLITE_OK) then mret (rc, 0, 0, pPrevTrunk) else
      t ← trunkTurn iTrunk pPrevTrunk mxPage nearby eMode searchList;
      match t with
      | Goto rc pTrunk => mret (rc, 0, pTrunk, pPrevTrunk)
      | Next searchList rc pPgno pTrunk =>
          releasePage pPrevTrunk;;
          if searchList : bool
          then trunkLoop f n mxPage nearby eMode searchList (u32 (nSearch + 1)) pTrunk
          else mret (rc, pPgno, pTrunk, 0)
      end
  end.

(** ** Allocation at the end of the file *)

(** [pBt->nPage++], and again for the page that is never used. *)
Definition nextPage : DM unit :=
  bt ← look shared;
  n ← look nPage;
  change (setNPage (u32 (n + 1)));;
  if u32 (n + 1) =? PENDING_BYTE_PAGE bt then change (setNPage (u32 (u32 (n + 1) + 1))) else mret ().

Definition allocateAtEnd : DM Z :=
  bt ← look shared;
  trunc ← look bDoTruncate;
  let bNoContent := negb trunc in
  sqlite3PagerWrite 1;;
  nextPage;;
  n ← look nPage;
  (if autoVacuum bt && PTRMAP_ISPAGE bt n then
     btreeGetUnusedPage n bNoContent;;
     rc ← code (sqlite3PagerWrite n);
     releasePage n;;
     return_code rc;;
     nextPage
   else mret ());;
  n ← look nPage;
  on 1 (put4byte 28 n);;
  btreeGetUnusedPage n bNoContent;;
  rc ← code (sqlite3PagerWrite n);
  (if rc =? SQLITE_OK then mret () else releasePage n);;
  return_code rc;;
  mret n.

(** The number of the page; a reference to it is held.  The loop over the
    trunk pages makes at most [n + 2] turns. *)
Definition allocateBtreePage (nearby eMode : Z) : DM Z :=
  mxPage ← btreePagecount;
  n ← on 1 (get4byte 36);
  if mxPage <=? n then throw SQLITE_CORRUPT else
  if 0 <? n then
    searchList ← (if eMode =? BTALLOC_EXACT then
                    if nearby <=? mxPage then
                      e ← ptrmapGet nearby; mret (e.1 =? PTRMAP_FREEPAGE)
                    else mret false
                  else mret (eMode =? BTALLOC_LE));
    sqlite3PagerWrite 1;;
    on 1 (put4byte 36 (n - 1));;
    r ← trunkLoop (Z.to_nat n + 3) n mxPage nearby eMode searchList 0 0;
    let '(rc, pPgno, pTrunk, pPrevTrunk) := r in
    releasePage pTrunk;;
    releasePage pPrevTrunk;;
    return_code rc;;
    mret pPgno
  else allocateAtEnd.

(** ** Release *)

(** The page becomes a leaf of the first trunk page, when there is room;
    [None]: it does not.  The result code, [pTrunk], and the page number of
    the trunk page. *)
Definition freeAsLeaf (pPage iPage nFree : Z) : DM (option Z * Z * Z) :=
  if nFree =? 0 then mret (None, 0, 0) else
  bt ← look shared;
  iTrunk ← on 1 (get4byte 32);
  n ← btreePagecount;
  if n <? iTrunk then mret (Some SQLITE_CORRUPT, 0, iTrunk) else
  rc ← code (btreeGetPage iTrunk false);
  if negb (rc =? SQLITE_OK) then mret (Some rc, 0, iTrunk) else
  let pTrunk := iTrunk in
  nLeaf ← on pTrunk (get4byte 4);
  if usableSize bt / 4 - 2 <? nLeaf then mret (Some SQLITE_CORRUPT, pTrunk, iTrunk) else
  if nLeaf <? usableSize bt / 4 - 8 then
    rc ← code (sqlite3PagerWrite pTrunk);
    rc ← (if rc =? SQLITE_OK then
            on pTrunk (put4byte 4 (nLeaf + 1));;
            on pTrunk (put4byte (8 + nLeaf * 4) iPage);;
            (if negb (pPage =? 0) && (Z.land (btsFlags bt) BTS_SECURE_DELETE =? 0)
             then sqlite3PagerDontWrite pPage else mret ());;
            code (btreeSetHasContent iPage)
          else mret rc);
    mret (Some rc, pTrunk, iTrunk)
  else mret (None, pTrunk, iTrunk).

(** [pPage==0 && SQLITE_OK!=(rc = btreeGetPage(...))], then
    [sqlite3PagerWrite]: the result code, and [pPage]. *)
Definition writePage (pPage iPage : Z) : DM (Z * Z) :=
  rc ← (if pPage =? 0 then code (btreeGetPage iPage false) else mret SQLITE_OK);
  if negb (rc =? SQLITE_OK) then mret (rc, pPage) else
  rc ← code (sqlite3PagerWrite iPage);
  mret (rc, iPage).

(** The result code, [pPage] and [pTrunk] at the label. *)
Definition freePageBody (pPage iPage : Z) : DM (Z * Z * Z) :=
  bt ← look shared;
  rc ← code (sqlite3PagerWrite 1);
  if negb (rc =? SQLITE_OK) then mret (rc, pPage, 0) else
  nFree ← on 1 (get4byte 36);
  on 1 (put4byte 36 (nFree + 1));;
  w ← (if negb (Z.land (btsFlags bt) BTS_SECURE_DELETE =? 0) then
         w ← writePage pPage iPage;
         (if w.1 =? SQLITE_OK then on iPage (memset 0 0 (pageSize bt)) else mret ());;
         mret w
       else mret (SQLITE_OK, pPage));
  let '(rc, pPage) := w in
  if negb (rc =? SQLITE_OK) then mret (rc, pPage, 0) else
  rc ← (if autoVacuum bt then code (ptrmapPut iPage PTRMAP_FREEPAGE 0) else mret SQLITE_OK);
  if negb (rc =? SQLITE_OK) then mret (rc, pPage, 0) else
  l ← freeAsLeaf pPage iPage nFree;
  match l with
  | (Some rc, pTrunk, _) => mret (rc, pPage, pTrunk)
  | (None, pTrunk, iTrunk) =>
      w ← writePage pPage iPage;
      let '(rc, pPage) := w in
      if negb (rc =? SQLITE_OK) then mret (rc, pPage, pTrunk) else
      on iPage (put4byte 0 iTrunk);;
      on iPage (put4byte 4 0);;
      on 1 (put4byte 32 iPage);;
      mret (SQLITE_OK, pPage, pTrunk)
  end.

(** [pMemPage] is 0 or [iPage]. *)
Definition freePage2 (pMemPage iPage : Z) : DM unit :=
  n ← look nPage;
  if (iPage <? 2) || (n <? iPage) then throw SQLITE_CORRUPT else
  pPage ← (if pMemPage =? 0 then btreePageLookup iPage
           else change (addRef iPage);; mret pMemPage);
  r ← freePageBody pPage iPage;
  let '(rc, pPage, pTrunk) := r in
  (if pPage =? 0 then mret () else on pPage (modify (setInit false)));;
  releasePage pPage;;
  releasePage pTrunk;;
  return_code rc.

Definition freePage (pPage : Z) : DM unit := freePage2 pPage pPage.
