(* ===== verification/BtTrunk.v ===== *)
(** * The list of free pages, as seen in the pages of a database

    [segment v t l u]: from trunk page [t] on, the trunk pages of [l], each
    with its leaves, and then page [u].  The lemmas say what a change of a
    pointer, of a count or of an array of leaves does to it. *)

From stdpp Require Import base numbers option gmap sets functions list.
From S2P Require Import Prelude Util Varint Bitvec Btree BtVarint BtCell BtMem BtPage BtPager BtView BtPtrmap BtFreelist.
#[local] Open Scope Z_scope.

(** The leaves of the trunk page with the bytes [d]. *)
Record leaves (bt : BtShared) (d : list Z) (ls : list Z) : Prop := {
  le_count : get4 d 4 = Z.of_nat (length ls);
  le_max : Z.of_nat (length ls) <= usableSize bt / 4 - 2;
  le_at i x : ls !! i = Some x -> get4 d (8 + Z.of_nat i * 4) = x
}.

Fixpoint segment (bt : BtShared) (v : View) (t : Z) (l : list (Z * list Z)) (u : Z) : Prop :=
  match l with
  | [] => t = u
  | (x, ls) :: l => t = x /\ leaves bt (bytes v x) ls /\ segment bt v (get4 (bytes v x) 0) l u
  end.

Abbreviation trunks l := (fst <$> l).

Definition freePages (l : list (Z * list Z)) : list Z := l ≫= (fun t => t.1 :: t.2).
Definition freeLeaves (l : list (Z * list Z)) : list Z := l ≫= snd.

(** A page that can be allocated. *)
Record ordinary (bt : BtShared) (p : Z) : Prop := {
  or_range : 2 <= p < 2 ^ 32;
  or_pending : p <> PENDING_BYTE_PAGE bt;
  or_map : autoVacuum bt = true -> PTRMAP_ISPAGE bt p = false
}.

(** The list [ts] of free pages, in a view of a database in a transaction
    that began in [s]. *)
Record freelist (s : Start) (v : View) (ts : list (Z * list Z)) : Prop := {
  fl_chain : segment (s_bt s) v (get4 (bytes v 1) 32) ts 0;
  fl_count : get4 (bytes v 1) 36 = Z.of_nat (length (freePages ts));
  fl_nodup : NoDup (freePages ts);
  fl_pages p : p ∈ freePages ts -> ordinary (s_bt s) p /\ p <= vsize v;
  fl_more : Z.of_nat (length (freePages ts)) < vsize v;
  fl_has p : p ∈ freeLeaves ts -> s_needed s p -> vhas v p = true;
  fl_end p : s_truncate s = false -> s_needed s p -> p <= vsize v;
  fl_maps p : autoVacuum (s_bt s) = true -> PTRMAP_ISPAGE (s_bt s) p = true -> isInit (vpage v p) = false;
  fl_one : vrefs v 1 <> 0%nat
}.

(** ** Lemmas *)

Lemma freePages_app l1 l2 : freePages (l1 ++ l2) = freePages l1 ++ freePages l2.
Proof. apply bind_app. Qed.

Lemma freePages_cons x ls l : freePages ((x, ls) :: l) = (x :: ls) ++ freePages l.
Proof. done. Qed.

Lemma freeLeaves_app l1 l2 : freeLeaves (l1 ++ l2) = freeLeaves l1 ++ freeLeaves l2.
Proof. apply bind_app. Qed.

Lemma trunks_free l x : x ∈ trunks l -> x ∈ freePages l.
Proof.
  intros ([y ls] & -> & H)%list_elem_of_fmap. apply list_elem_of_bind. exists (y, ls). split; [by left|done].
Qed.

Lemma leaves_free l x : x ∈ freeLeaves l -> x ∈ freePages l.
Proof.
  intros ([y ls] & H1 & H2)%list_elem_of_bind. apply list_elem_of_bind. exists (y, ls). split; [by right|done].
Qed.

Lemma freePages_perm l : freePages l ≡ₚ trunks l ++ freeLeaves l.
Proof.
  induction l as [|[x ls] l IH]; [done|]. cbn. constructor. unfold freePages in IH. rewrite IH.
  rewrite (Permutation_app_comm ls), <- (assoc_L (++)). f_equiv. apply Permutation_app_comm.
Qed.

Lemma segment_app bt v t l1 l2 u :
  segment bt v t (l1 ++ l2) u <-> exists w, segment bt v t l1 w /\ segment bt v w l2 u.
Proof.
  revert t. induction l1 as [|[x ls] l1 IH]; intros t; cbn.
  - split; [by exists t|]. by intros (w & -> & ?).
  - rewrite IH. naive_solver.
Qed.

Lemma segment_same bt v v' t l u :
  (forall x, x ∈ trunks l -> bytes v' x = bytes v x) -> segment bt v t l u -> segment bt v' t l u.
Proof.
  revert t. induction l as [|[x ls] l IH]; intros t Hx; [done|]. cbn. intros (-> & Hl & Hs).
  rewrite Hx by left. split_and!; [done..|]. apply IH; [|done]. intros y Hy. apply Hx. by right.
Qed.

(** A change of other pages. *)
Lemma freelist_frame s v v' ts :
  freelist s v ts -> (forall q, q = 1 \/ q ∈ freePages ts -> bytes v' q = bytes v q) ->
  (forall q, PTRMAP_ISPAGE (s_bt s) q = true -> isInit (vpage v' q) = isInit (vpage v q)) -> vsize v' = vsize v ->
  (forall q, vhas v' q = vhas v q) -> vrefs v' 1 <> 0%nat -> freelist s v' ts.
Proof.
  intros [A1 A2 A3 A4 A5 A6 A7 A8 A9] Hb Hi Hs Hh Hr. split; rewrite ?Hs, ?(Hb 1) by auto; try done.
  - eapply segment_same, A1. intros x Hx%trunks_free. auto.
  - intros p Hp Hn. rewrite Hh. auto.
  - intros p Ha Hp. rewrite Hi by done. auto.
Qed.

Section lemmas.
Context (s : Start) (Hbt : bt_ok (s_bt s)).

Let Hu : 480 <= usableSize (s_bt s) <= pageSize (s_bt s).
Proof. apply Hbt. Qed.

Let Hp : pageSize (s_bt s) <= 65536.
Proof. apply Hbt. Qed.

Lemma leaf_inside d ls i :
  leaves (s_bt s) d ls -> (i < length ls)%nat -> 8 + Z.of_nat i * 4 + 4 <= pageSize (s_bt s).
Proof. intros [_ Hm _] Hi. pose proof (Z.mul_div_le (usableSize (s_bt s)) 4 ltac:(lia)). lia. Qed.

Lemma leaves_max d ls : leaves (s_bt s) d ls -> 8 + 4 * Z.of_nat (length ls) <= pageSize (s_bt s).
Proof. intros [_ Hm _]. pose proof (Z.mul_div_le (usableSize (s_bt s)) 4 ltac:(lia)). lia. Qed.

(** Bytes before the count do not matter. *)
Lemma leaves_next d d' ls :
  Forall is_byte d -> Forall is_byte d' -> (forall i, 4 <= i -> nthZ d' i = nthZ d i) ->
  leaves (s_bt s) d ls -> leaves (s_bt s) d' ls.
Proof.
  intros Hd Hd' He [H1 H2 H3]. split; [|done|].
  - rewrite <- H1. apply get4_same; [done|done|lia|]. intros i Hi. apply He. lia.
  - intros i x Hi. rewrite <- (H3 i x Hi). apply get4_same; [done|done|lia|]. intros j Hj. apply He. lia.
Qed.

(** The place of the pointer to what comes after [l]. *)
Definition linkPage (l : list (Z * list Z)) : Z := match last l with Some t => t.1 | None => 1 end.
Definition linkOff (l : list (Z * list Z)) : Z := match last l with Some _ => 0 | None => 32 end.

Lemma segment_relink v v' l w u :
  NoDup (1 :: trunks l) -> 0 <= u < 2 ^ 32 ->
  (forall q, isPage (s_bt s) (bytes v q)) -> (forall q, isPage (s_bt s) (bytes v' q)) ->
  (forall q, q ∈ 1 :: trunks l -> bytes v' q =
     if decide (q = linkPage l) then store (bytes v q) (linkOff l) (sqlite3Put4byte u) else bytes v q) ->
  segment (s_bt s) v (get4 (bytes v 1) 32) l w -> segment (s_bt s) v' (get4 (bytes v' 1) 32) l u.
Proof.
  intros Hn Hu32 Hv Hv' Heq Hs. destruct l as [|[x ls] l _] using rev_ind.
  - cbn in *. rewrite Heq by left. unfold linkPage, linkOff. cbn.
    apply get4_store; [lia| |lia]. destruct (Hv 1) as [-> _]. lia.
  - rewrite fmap_app in *. cbn in *. assert (linkPage (l ++ [(x, ls)]) = x) as Hlp by (unfold linkPage; by rewrite last_snoc).
    assert (linkOff (l ++ [(x, ls)]) = 0) as Hlo by (unfold linkOff; by rewrite last_snoc). rewrite Hlp, Hlo in Heq.
    apply segment_app in Hs as (w' & Hl & -> & Hls & _). apply NoDup_cons in Hn as [H1 Hn].
    assert (x ∉ trunks l) as Hxl by (apply NoDup_app in Hn as (_ & H & _); intros Hx; apply (H x Hx); left).
    assert (x <> 1) by (intros ->; apply H1, elem_of_app; right; left).
    apply segment_app. exists x. split; [|split_and!; [done| |]].
    + rewrite Heq by left. rewrite decide_False by done. eapply segment_same, Hl. intros y Hy.
      rewrite Heq by (right; apply elem_of_app; by left). rewrite decide_False; [done|]. by intros ->.
    + eapply leaves_next, Hls; [apply Hv|apply Hv'|]. intros i Hi.
      rewrite Heq by (right; apply elem_of_app; right; left). rewrite decide_True by done.
      destruct (Hv x) as [Hlen _]. apply nthZ_store_out; cbn; lia.
    + rewrite Heq by (right; apply elem_of_app; right; left). rewrite decide_True by done.
      apply get4_store; [lia| |done]. destruct (Hv x) as [-> _]. lia.
Qed.

Lemma store_get4 d a u :
  Forall is_byte d -> 0 <= a -> a + 4 <= Z.of_nat (length d) -> get4 d a = u -> store d a (sqlite3Put4byte u) = d.
Proof.
  intros Hd Ha Hl <-. unfold get4. rewrite Put4byte_Get4byte; [|by apply slice_bytes|rewrite length_slice; lia].
  apply nthZ_ext.
  - rewrite length_store; rewrite ?length_slice; lia.
  - intros i Hi. rewrite length_store in Hi by (rewrite ?length_slice; lia).
    rewrite nthZ_store by (rewrite ?length_slice; lia). case_decide as Hin; [|done].
    rewrite length_slice in Hin by lia. rewrite nthZ_slice by lia. f_equal. lia.
Qed.

(** The pointer to what comes after [l]. *)
Lemma segment_link v l w :
  segment (s_bt s) v (get4 (bytes v 1) 32) l w -> get4 (bytes v (linkPage l)) (linkOff l) = w.
Proof.
  intros H. unfold linkPage, linkOff. destruct l as [|[x ls] l _] using rev_ind; [done|].
  rewrite last_snoc. apply segment_app in H as (w' & _ & -> & _ & H). done.
Qed.

(** One leaf is replaced by the last one. *)
Definition dropLeaf (c : nat) (ls : list Z) : list Z :=
  take (length ls - 1) (match last ls with Some y => <[c := y]> ls | None => ls end).

Lemma dropLeaf_perm c ls x : ls !! c = Some x -> ls ≡ₚ x :: dropLeaf c ls.
Proof.
  intros Hc. pose proof (lookup_lt_Some _ _ _ Hc) as Hlt. unfold dropLeaf.
  destruct ls as [|y ls _] using rev_ind; [done|]. rewrite last_snoc, length_app. cbn.
  replace (length ls + 1 - 1)%nat with (length ls) by lia.
  destruct (decide (c = length ls)) as [->|Hne].
  - rewrite lookup_app_r, Nat.sub_diag in Hc by lia. injection Hc as ->.
    rewrite insert_app_r_alt, Nat.sub_diag by lia. cbn. rewrite take_app_length.
    by rewrite Permutation_app_comm.
  - rewrite length_app in Hlt. cbn in Hlt. rewrite lookup_app_l in Hc by lia.
    rewrite insert_app_l by lia. rewrite take_app_length' by (by rewrite length_insert).
    rewrite <- (take_drop_middle ls c x Hc) at 1. rewrite (insert_take_drop ls c y) by lia.
    rewrite <- (Permutation_middle (take c ls) (drop (S c) ls) x). cbn. constructor.
    rewrite <- (Permutation_middle (take c ls) (drop (S c) ls) y). by rewrite Permutation_app_comm.
Qed.

Lemma length_dropLeaf c ls : length (dropLeaf c ls) = (length ls - 1)%nat.
Proof. unfold dropLeaf. rewrite length_take. destruct (last ls); rewrite ?length_insert; lia. Qed.

Lemma leaves_dropLeaf d c ls :
  Forall is_byte d -> Z.of_nat (length d) = pageSize (s_bt s) -> leaves (s_bt s) d ls -> (c < length ls)%nat ->
  let d1 := if Z.of_nat c <? Z.of_nat (length ls) - 1
            then store d (8 + Z.of_nat c * 4) (slice d (4 + Z.of_nat (length ls) * 4) 4) else d in
  leaves (s_bt s) (store d1 4 (sqlite3Put4byte (Z.of_nat (length ls) - 1))) (dropLeaf c ls).
Proof.
  intros Hd Hlen Hl Hc d1. pose proof (leaves_max d ls Hl) as Hm. destruct Hl as [H1 H2 H3].
  assert (length (slice d (4 + Z.of_nat (length ls) * 4) 4) = 4%nat) as Hsl by (rewrite length_slice; lia).
  assert (length d1 = length d /\ Forall is_byte d1) as [Hl1 Hb1].
  { unfold d1. destruct (_ <? _); [|done]. split; [rewrite length_store; lia|].
    apply store_bytes; [done|by apply slice_bytes]. }
  pose proof (leaf_inside d ls) as Hin. split; rewrite ?length_dropLeaf.
  - rewrite get4_store by lia. lia.
  - lia.
  - intros i x Hi. unfold dropLeaf in Hi. destruct ls as [|y ls _] using rev_ind; [cbn in Hc; lia|].
    rewrite last_snoc, length_app in *. cbn [length] in *.
    replace (length ls + 1 - 1)%nat with (length ls) in Hi by lia.
    destruct (decide (i < length ls)%nat) as [Hil|]; [|by rewrite lookup_take_ge in Hi by lia].
    rewrite lookup_take_lt in Hi by done.
    rewrite get4_store_out by (auto using Put4byte_bytes; cbn; lia). unfold d1. rewrite length_app. cbn [length].
    destruct (Z.ltb_spec (Z.of_nat c) (Z.of_nat (length ls + 1) - 1)) as [Hcl|Hcl].
    + destruct (decide (i = c)) as [->|Hic].
      * rewrite list_lookup_insert_eq in Hi by (rewrite length_app; lia). injection Hi as <-.
        specialize (H3 (length ls) y ltac:(by rewrite lookup_app_r, Nat.sub_diag by lia)). rewrite <- H3.
        unfold get4. replace (slice (store d _ _) (8 + Z.of_nat c * 4) 4) with (slice d (8 + Z.of_nat (length ls) * 4) 4); [done|].
        apply nthZ_ext; [rewrite !length_slice; rewrite ?length_store; lia|].
        intros j Hj. rewrite length_slice in Hj by lia. rewrite !nthZ_slice by lia.
        rewrite nthZ_store_in by lia. rewrite nthZ_slice by lia. f_equal. lia.
      * rewrite list_lookup_insert_ne in Hi by done.
        rewrite get4_store_out by (auto using slice_bytes; lia). by apply H3.
    + rewrite list_lookup_insert_ne in Hi by lia. by apply H3.
Qed.

(** The first leaf becomes a trunk page with the other leaves. *)
Lemma leaves_promote d d' y ls :
  Forall is_byte d -> Forall is_byte d' -> Z.of_nat (length d) = pageSize (s_bt s) ->
  Z.of_nat (length d') = pageSize (s_bt s) -> leaves (s_bt s) d (y :: ls) ->
  let d1 := store (store d' 0 (slice d 0 4)) 4 (sqlite3Put4byte (Z.of_nat (length ls))) in
  let d2 := store d1 8 (slice d 12 (Z.of_nat (length ls) * 4)) in
  leaves (s_bt s) d2 ls /\ get4 d2 0 = get4 d 0.
Proof.
  intros Hd Hd' Hlen Hlen' Hl d1 d2. pose proof (leaves_max _ _ Hl) as Hm. cbn [length] in Hm.
  destruct Hl as [H1 H2 H3]. cbn [length] in *.
  assert (length (slice d 0 4) = 4%nat) as Hs0 by (rewrite length_slice; lia).
  assert (length (slice d 12 (Z.of_nat (length ls) * 4)) = Z.to_nat (Z.of_nat (length ls) * 4)) as Hsl
    by (rewrite length_slice; lia).
  assert (length (store d' 0 (slice d 0 4)) = length d') as Hl0 by (rewrite length_store; lia).
  assert (length d1 = length d') as Hl1 by (unfold d1; rewrite length_store; cbn; lia).
  assert (Forall is_byte d1) as Hb1 by (unfold d1; auto using store_bytes, slice_bytes, Put4byte_bytes).
  assert (forall x, 0 <= x -> x + 4 <= 8 -> get4 d2 x = get4 d1 x) as Hd2.
  { intros x Hx Hx8. unfold d2. apply get4_store_out; auto using slice_bytes; lia. }
  split; [split|].
  - rewrite Hd2 by lia. unfold d1. rewrite get4_store; lia.
  - lia.
  - intros i x Hi. pose proof (lookup_lt_Some _ _ _ Hi). rewrite <- (H3 (S i) x Hi).
    unfold get4. f_equal. apply nthZ_ext; [rewrite !length_slice; unfold d2; rewrite ?length_store; lia|].
    intros j Hj. rewrite length_slice in Hj by (unfold d2; rewrite ?length_store; lia).
    rewrite !nthZ_slice by lia. unfold d2. rewrite nthZ_store_in by lia. rewrite nthZ_slice by lia. f_equal. lia.
  - rewrite Hd2 by lia. unfold d1. rewrite get4_store_out; auto using store_bytes, slice_bytes, Put4byte_bytes; [|cbn; lia..].
    unfold get4. f_equal. apply nthZ_ext; [rewrite !length_slice; lia|].
    intros j Hj. rewrite length_slice in Hj by lia. rewrite !nthZ_slice by lia.
    rewrite nthZ_store_in by lia. rewrite nthZ_slice by lia. f_equal. lia.
Qed.

(** A leaf is added at the end. *)
Lemma leaves_snoc d ls y :
  Forall is_byte d -> Z.of_nat (length d) = pageSize (s_bt s) -> leaves (s_bt s) d ls -> 0 <= y < 2 ^ 32 ->
  Z.of_nat (length ls) < usableSize (s_bt s) / 4 - 8 ->
  leaves (s_bt s) (store (store d 4 (sqlite3Put4byte (Z.of_nat (length ls) + 1)))
                     (8 + Z.of_nat (length ls) * 4) (sqlite3Put4byte y)) (ls ++ [y]).
Proof.
  intros Hd Hlen [H1 H2 H3] Hy Hmax. pose proof (Z.mul_div_le (usableSize (s_bt s)) 4 ltac:(lia)).
  assert (length (store d 4 (sqlite3Put4byte (Z.of_nat (length ls) + 1))) = length d) as Hl1
    by (rewrite length_store; cbn; lia).
  assert (0 <= usableSize (s_bt s) <= 65536) by (destruct Hbt; lia).
  split; rewrite ?length_app; cbn [length].
  - rewrite get4_store_out; auto using store_bytes, Put4byte_bytes; [|cbn; lia..]. rewrite get4_store; lia.
  - lia.
  - intros i x Hi. destruct (decide (i < length ls)%nat).
    + rewrite lookup_app_l in Hi by lia.
      rewrite !get4_store_out; auto using store_bytes, Put4byte_bytes; cbn; lia.
    + rewrite lookup_app_r in Hi by lia. destruct (i - length ls)%nat as [|k] eqn:E; [|done].
      replace i with (length ls) by lia. injection Hi as ->. apply get4_store; lia.
Qed.

End lemmas.
