(* ===== verification/BtTake.v ===== *)
(** * Allocation of a page

    [allocateBtreePage] takes a page from the list of free pages, or adds one
    at the end of the file, whatever the pager answers; an error is one of the
    pager, and no reference is left behind. *)

From stdpp Require Import base numbers option gmap sets functions list.
From S2P Require Import Prelude Util Varint Bitvec Btree BtVarint BtCell BtMem BtPage BtPager BtView BtPtrmap BtFreelist BtTrunk.
#[local] Open Scope Z_scope.

(** ** References *)

(** The pages of [h] have one reference, the others as many as in [v0]. *)
Definition held (v0 : View) (h : list Z) (v : View) : Prop :=
  forall q, vrefs v q = if decide (q ∈ h) then 1%nat else vrefs v0 q.

(** A pointer that is not null. *)
Definition ptr (p : Z) : list Z := if p =? 0 then [] else [p].

Lemma ptr_eq p : p <> 0 -> ptr p = [p].
Proof. intros H. unfold ptr. by destruct (Z.eqb_spec p 0). Qed.

Lemma ptr_nonzero p q : q ∈ ptr p <-> q = p /\ p <> 0.
Proof.
  unfold ptr. destruct (Z.eqb_spec p 0).
  - split; [by intros ?%not_elem_of_nil|tauto].
  - rewrite list_elem_of_singleton. tauto.
Qed.

Lemma held_equiv v0 h h' v : (forall q, q ∈ h <-> q ∈ h') -> held v0 h v -> held v0 h' v.
Proof. intros He Hh q. rewrite (Hh q). specialize (He q). repeat case_decide; tauto. Qed.

Lemma held_cons v0 h v p :
  held v0 h v -> held v0 (p :: h) (mkView (vpage v) (<[p := 1%nat]> (vrefs v)) (vsize v) (vhas v) (vwrite v)).
Proof.
  intros Hh q. cbn. unfold insert, fn_insert. destruct (decide (p = q)) as [<-|Hne].
  - by rewrite decide_True by left.
  - rewrite (Hh q). pose proof (elem_of_cons h q p). repeat case_decide; try done; exfalso; naive_solver.
Qed.

Definition zeros (bt : BtShared) : list Z := replicate (Z.to_nat (pageSize bt)) 0.

(** A page that was fetched, with its content or without. *)
Definition fetched (bt : BtShared) (nc : bool) (p : Z) (v : View) : View :=
  putRefs p 1%nat
    (putPage p (setInit false (if nc then setData (zeros bt) (vpage v p) else vpage v p)) v).

(** Evaluates what is seen of a view. *)
Ltac vget :=
  cbn [vpage vrefs vsize vhas vwrite putPage putData putRefs putSize putHas putWrite fetched aData setData setInit] in *;
  repeat first [rewrite fn_lookup_insert in * | rewrite fn_lookup_insert_ne in * by (done || congruence || lia)].

(** Membership in the set of pages that are writeable. *)
Ltac inw := cbn; repeat first [eassumption | apply elem_of_union_l, elem_of_singleton; reflexivity
  | match goal with H : ?w ⊆ ?w' |- _ ∈ ?w' => apply H end | apply elem_of_union_r].

Definition reref (r : Z -> nat) (v : View) : View :=
  mkView (vpage v) r (vsize v) (vhas v) (vwrite v).

Section rules.
Context (s : Start) (Hbt : bt_ok (s_bt s)).

Let Hu : 480 <= usableSize (s_bt s) <= pageSize (s_bt s).
Proof. apply Hbt. Qed.

Let Hp : pageSize (s_bt s) <= 65536.
Proof. apply Hbt. Qed.

Lemma db_GetUnusedPage v db p nc (Q : unit -> Db -> Prop) (E : Z -> Db -> Prop) :
  sees s v db -> p <> 0 -> p <> PENDING_BYTE_PAGE (s_bt s) -> (nc = true -> ~ s_needed s p) ->
  vrefs v p = 0%nat ->
  (forall db', sees s (fetched (s_bt s) nc p v) db' -> Q () db') ->
  (forall db' rc, sees s v db' -> fault s rc -> E rc db') ->
  wp (btreeGetUnusedPage p nc) Q E db.
Proof.
  intros H H0 Hpb Hnc Hr HQ HE. apply db_bind, (db_btreeGetPage s v); auto; [lia|].
  intros d1 S1. apply db_bind, db_look. rewrite (se_refs _ _ _ S1). rewrite Hr in S1.
  assert (vrefs (putRefs p (S (vrefs v p))
    (if nc then putData p (replicate (Z.to_nat (pageSize (s_bt s))) 0) v else v)) p = 1%nat) as Hr1
    by (cbn; by rewrite fn_lookup_insert, Hr).
  rewrite Hr in Hr1. rewrite Hr, Hr1. cbn [Z.of_nat Z.ltb Z.compare Pos.of_succ_nat Pos.compare Pos.compare_cont].
  eapply (db_setInit s _ d1); [done|by rewrite Hr1|]. intros d2 S2. apply HQ.
  eapply sees_ext, S2; intros; destruct nc; cbn; try done; unfold insert, fn_insert; repeat case_decide; subst; done.
Qed.

(** A reference is given back. *)
Lemma db_release v0 h p v db (Q : unit -> Db -> Prop) E :
  sees s v db -> held v0 (ptr p ++ h) v -> (p <> 0 -> (p ∉ h) /\ vrefs v0 p = 0%nat) ->
  (forall r db', sees s (reref r v) db' -> held v0 h (reref r v) -> Q () db') ->
  wp (releasePage p) Q E db.
Proof.
  intros H Hh Hn HQ. unfold releasePage, ptr in *. destruct (Z.eqb_spec p 0) as [->|Hp0].
  - apply (HQ (vrefs v)); [by destruct v|by destruct v].
  - destruct (Hn Hp0) as [Hnh H0]. pose proof (Hh p) as Hr. rewrite decide_True in Hr by left.
    apply (db_Unref s v _ p 0); [done..|]. intros d S1. apply (HQ (<[p := 0%nat]> (vrefs v))); [done|].
    intros q. cbn. unfold insert, fn_insert. destruct (decide (p = q)) as [<-|].
    + by rewrite decide_False, H0.
    + rewrite Hh. pose proof (elem_of_cons h q p). repeat case_decide; try done; exfalso; naive_solver.
Qed.

(** ** The list after an allocation *)

(** Only the part of the header of the file from [a] to [b] changes. *)
Definition sameHeader (a b : Z) (v v' : View) : Prop :=
  vpage v' 1 = setData (bytes v' 1) (vpage v 1) /\
  forall i, 0 <= i -> ~ a <= i < b -> nthZ (bytes v' 1) i = nthZ (bytes v 1) i.

(** The page [p] is taken from the free pages [ts]; [ts'] are left. *)
Record taken (v0 : View) (ts : list (Z * list Z)) (p : Z) (v : View) (ts' : list (Z * list Z)) : Prop := {
  ta_list : freelist s v ts';
  ta_perm : freePages ts ≡ₚ p :: freePages ts';
  ta_page q : q <> 1 -> q ∉ freePages ts -> vpage v q = vpage v0 q;
  ta_header : sameHeader 32 40 v0 v;
  ta_size : vsize v = vsize v0;
  ta_has q : vhas v q = vhas v0 q;
  ta_write : p ∈ vwrite v;
  ta_init : isInit (vpage v p) = false
}.

Lemma free_ordinary v ts p :
  freelist s v ts -> p ∈ freePages ts ->
  2 <= p < 2 ^ 32 /\ p <= vsize v /\ p <> PENDING_BYTE_PAGE (s_bt s).
Proof. intros H Hin. destruct (fl_pages _ _ _ H p Hin) as [[H1 H2 _] H3]. auto. Qed.

Lemma taken_intro v0 ts p v ts' :
  freelist s v0 ts ->
  segment (s_bt s) v (get4 (bytes v 1) 32) ts' 0 ->
  get4 (bytes v 1) 36 = Z.of_nat (length (freePages ts)) - 1 ->
  freePages ts ≡ₚ p :: freePages ts' ->
  (forall q, q ∈ freeLeaves ts' -> q ∈ freeLeaves ts) ->
  (forall q, q <> 1 -> q ∉ freePages ts -> vpage v q = vpage v0 q) ->
  sameHeader 32 40 v0 v -> vsize v = vsize v0 -> (forall q, vhas v q = vhas v0 q) ->
  vrefs v 1 <> 0%nat -> p ∈ vwrite v -> isInit (vpage v p) = false ->
  taken v0 ts p v ts'.
Proof.
  intros H Hs Hc Hperm Hlv Hpg Hh Hsz Hhas Hr Hw Hi. split; try done.
  pose proof (Permutation_length Hperm) as Hlen. cbn in Hlen.
  assert (forall q, q ∈ freePages ts' -> q ∈ freePages ts) as Hsub.
  { intros q Hq. rewrite Hperm. by right. }
  destruct H as [A1 A2 A3 A4 A5 A6 A7 A8 A9]. split; try done.
  - lia.
  - rewrite Hperm in A3. by apply NoDup_cons in A3 as [_ A3].
  - intros q Hq. rewrite Hsz. auto.
  - lia.
  - intros q Hq Hn. rewrite Hhas. auto.
  - rewrite Hsz. auto.
  - intros q Ha Hq. rewrite Hpg; [by auto| |].
    + intros ->. unfold PTRMAP_ISPAGE, ptrmapPageno in Hq. done.
    + intros Hin. destruct (A4 q Hin) as [[_ _ Hm] _]. rewrite Hm in Hq; done.
Qed.

Lemma taken_reref v0 ts p v ts' rf :
  taken v0 ts p v ts' -> rf 1 <> 0%nat -> taken v0 ts p (reref rf v) ts'.
Proof.
  intros [T1 T2 T3 T4 T5 T6 T7 T8] H1. split; try done. destruct T1 as [A1 A2 A3 A4 A5 A6 A7 A8 A9]. split; try done.
  clear -A1. revert A1. cbn. generalize (get4 (bytes v 1) 32). induction ts' as [|[x ls] l IH]; cbn; [done|naive_solver].
Qed.

(** ** The loop over the trunk pages *)

Definition prevOf (l : list (Z * list Z)) : Z := match last l with Some t => t.1 | None => 0 end.

(** The trunk pages [l] were visited, and the count is decremented. *)
Record midway (v0 : View) (n : Z) (l : list (Z * list Z)) (v : View) : Prop := {
  mi_one : vpage v 1 = setData (store (bytes v0 1) 36 (sqlite3Put4byte (n - 1))) (vpage v0 1);
  mi_bytes q : q <> 1 -> bytes v q = bytes v0 q;
  mi_page q : q <> 1 -> q ∉ trunks l -> vpage v q = vpage v0 q;
  mi_size : vsize v = vsize v0;
  mi_has q : vhas v q = vhas v0 q;
  mi_write : 1 ∈ vwrite v
}.

Lemma db_relink v db l u (Q : Z -> Db -> Prop) E :
  sees s v db -> vrefs v (linkPage l) <> 0%nat -> 1 ∈ vwrite v -> (l <> [] -> prevOf l <> 0) ->
  (forall w db', vwrite v ⊆ w ->
     sees s (putWrite w (putData (linkPage l) (store (bytes v (linkPage l)) (linkOff l) (sqlite3Put4byte u)) v)) db' ->
     Q SQLITE_OK db') ->
  (forall rc db', fault s rc -> sees s v db' -> Q rc db') ->
  wp (relink (prevOf l) (sqlite3Put4byte u)) Q E db.
Proof.
  intros H Hr H1 Hl HQ HE. unfold relink, linkPage, linkOff, prevOf in *.
  destruct (last l) as [[x ls]|] eqn:Hlast; cbn in *.
  - destruct (Z.eqb_spec x 0) as [->|]; [by destruct (Hl ltac:(by intros ->))|].
    apply db_bind, db_code, (db_PagerWrite s v); [done| |].
    2: { intros d rc S1 Hf. destruct (Z.eqb_spec rc SQLITE_OK); [by destruct Hf|]. by apply db_ret, HE. }
    intros d S1. eapply db_bind, (db_write s _ d); [done|done|cbn; set_solver|apply Put4byte_bytes|lia|cbn; lia|].
    intros d2 S2. eapply db_ret, HQ, S2. set_solver.
  - eapply db_bind, (db_write s v db); [done|done|done|apply Put4byte_bytes|lia|cbn; lia|].
    intros d2 S2. apply db_ret, (HQ (vwrite v)); [done|]. eapply sees_ext, S2; done.
Qed.

Section turns.
Context (v0 : View) (ts : list (Z * list Z)) (nearby eMode : Z).
Hypothesis Hfl : freelist s v0 ts.
Hypothesis Hpages : forall q, isPage (s_bt s) (bytes v0 q).
Hypothesis Hfree : forall p, p ∈ freePages ts -> vrefs v0 p = 0%nat.

Abbreviation n := (Z.of_nat (length (freePages ts))).

(** The pages that a search is for. *)
Definition wanted (p : Z) : Prop := p = nearby \/ (p < nearby /\ eMode = BTALLOC_LE).

Context (l : list (Z * list Z)) (x : Z) (ls : list Z) (r : list (Z * list Z)).
Hypothesis Hts : ts = l ++ (x, ls) :: r.

(** What a turn of the loop leaves. *)
Definition after (sl : bool) (t : turn) (d : Db) : Prop :=
  match t with
  | Goto rc pT =>
      fault s rc /\ pT = x /\ exists v, sees s v d /\ held v0 (x :: ptr (prevOf l)) v
  | Next false rc p pT =>
      (pT = 0 \/ pT = x) /\
      ((rc = SQLITE_OK /\ p <> pT /\ p <> prevOf l /\ (sl = true -> wanted p) /\
        exists v ts', sees s v d /\ taken v0 ts p v ts' /\ held v0 (p :: ptr pT ++ ptr (prevOf l)) v)
       \/ (fault s rc /\ exists v, sees s v d /\ held v0 (ptr pT ++ ptr (prevOf l)) v))
  | Next true rc p pT =>
      sl = true /\ pT = x /\ (forall q, q ∈ x :: ls -> ~ wanted q) /\
      exists v, sees s v d /\ midway v0 n (l ++ [(x, ls)]) v /\ held v0 (x :: ptr (prevOf l)) v
  end.

Record parts : Prop := {
  pa_head : segment (s_bt s) v0 (get4 (bytes v0 1) 32) l x;
  pa_leaves : leaves (s_bt s) (bytes v0 x) ls;
  pa_tail : segment (s_bt s) v0 (get4 (bytes v0 x) 0) r 0;
  pa_one : 1 ∉ freePages ts;
  pa_trunks : NoDup (1 :: trunks l);
  pa_x : x ∉ 1 :: trunks l ++ trunks r;
  pa_leaf y : y ∈ ls -> y ∉ 1 :: x :: trunks l ++ trunks r;
  pa_lr y : y ∈ trunks r -> y ∉ 1 :: trunks l
}.

Lemma split_parts : parts.
Proof.
  pose proof (fl_chain _ _ _ Hfl) as Hc. rewrite Hts in Hc. apply segment_app in Hc as (w & H1 & -> & H2 & H3).
  assert (1 ∉ freePages ts) as Hone.
  { intros H. destruct (free_ordinary _ _ _ Hfl H). lia. }
  pose proof (fl_nodup _ _ _ Hfl) as Hn. rewrite Hts, freePages_app in Hn. cbn in Hn. fold (freePages r) in Hn.
  assert (forall y, y ∈ trunks l -> y ∈ freePages ts) as Hl1.
  { intros y Hy. rewrite Hts, freePages_app. apply elem_of_app. left. by apply trunks_free. }
  assert (forall y, y ∈ trunks r -> y ∈ freePages ts) as Hr1.
  { intros y Hy. rewrite Hts, freePages_app. apply elem_of_app. right. cbn. right. apply elem_of_app. right.
    by apply trunks_free. }
  assert (forall y, y ∈ x :: ls -> y ∈ freePages ts) as Hx1.
  { intros y Hy. rewrite Hts, freePages_app. apply elem_of_app. right. cbn. fold (freePages r).
    apply elem_of_cons in Hy as [->|Hy]; [by left|right]. apply elem_of_app. by left. }
  apply NoDup_app in Hn as (Hn1 & Hn2 & Hn3). apply NoDup_cons in Hn3 as [Hn3 Hn4].
  apply NoDup_app in Hn4 as (Hn4 & Hn5 & Hn6).
  assert (forall y, y ∈ trunks l -> y ∈ freePages l) as Hl2 by apply trunks_free.
  assert (forall y, y ∈ trunks r -> y ∈ freePages r) as Hr2 by apply trunks_free.
  split; try done.
  - apply NoDup_cons. split; [by intros H%Hl1|].
    rewrite freePages_perm in Hn1. by apply NoDup_app in Hn1 as (? & _).
  - rewrite not_elem_of_cons, not_elem_of_app. split_and!.
    + intros ->. by apply Hone, Hx1; left.
    + intros H%Hl2. apply (Hn2 _ H). by left.
    + intros H%Hr2. apply Hn3, elem_of_app. by right.
  - intros y Hy. rewrite !not_elem_of_cons, not_elem_of_app. split_and!.
    + intros ->. by apply Hone, Hx1; right.
    + intros ->. apply Hn3, elem_of_app. by left.
    + intros H%Hl2. apply (Hn2 _ H). right. apply elem_of_app. by left.
    + intros H%Hr2. by apply (Hn5 y).
  - intros y Hy. rewrite not_elem_of_cons. split.
    + intros ->. by apply Hone, Hr1.
    + intros H%Hl2. apply (Hn2 _ H). right. apply elem_of_app. right. by apply Hr2.
Qed.

Lemma linkPage_cases : linkPage l = 1 /\ l = [] \/ linkPage l ∈ trunks l /\ linkPage l = prevOf l.
Proof.
  unfold linkPage, prevOf. destruct (last l) as [t|] eqn:E.
  - right. split; [|done]. apply list_elem_of_fmap. exists t. split; [done|].
    apply last_Some in E as [l' ->]. apply elem_of_app. right. by left.
  - left. split; [done|]. by apply last_None.
Qed.

Lemma link_in : linkPage l ∈ 1 :: trunks l.
Proof. destruct linkPage_cases as [[-> _]|[H _]]; [left|by right]. Qed.

Lemma part_free y : y ∈ 1 :: trunks l -> y = 1 \/ y ∈ freePages ts.
Proof.
  rewrite elem_of_cons. intros [->|H]; [by left|right]. rewrite Hts, freePages_app. apply elem_of_app.
  left. by apply trunks_free.
Qed.

Lemma x_free : x ∈ freePages ts.
Proof. rewrite Hts, freePages_app. apply elem_of_app. right. by left. Qed.

Lemma leaf_free y : y ∈ ls -> y ∈ freePages ts.
Proof. intros. rewrite Hts, freePages_app. apply elem_of_app. right. right. apply elem_of_app. by left. Qed.

(** The trunk page [x] is replaced by [mid]. *)
Lemma taken_middle v v2 mid u p :
  midway v0 n (l ++ [(x, ls)]) v -> 0 <= u < 2 ^ 32 ->
  (forall q, isPage (s_bt s) (bytes v q)) -> (forall q, isPage (s_bt s) (bytes v2 q)) ->
  (forall q, q ∈ 1 :: trunks l -> bytes v2 q =
     if decide (q = linkPage l) then store (bytes v q) (linkOff l) (sqlite3Put4byte u) else bytes v q) ->
  (forall q, q ∈ trunks r -> bytes v2 q = bytes v q) ->
  (forall w, segment (s_bt s) v2 (get4 (bytes v0 x) 0) r w -> segment (s_bt s) v2 u (mid ++ r) w) ->
  x :: ls ≡ₚ p :: freePages mid -> (forall q, q ∈ freeLeaves mid -> q ∈ ls) ->
  (forall q, q <> 1 -> q ∉ freePages ts -> vpage v2 q = vpage v q) ->
  vpage v2 1 = setData (bytes v2 1) (vpage v 1) -> vsize v2 = vsize v -> (forall q, vhas v2 q = vhas v q) ->
  vrefs v2 1 <> 0%nat -> p ∈ vwrite v2 -> isInit (vpage v2 p) = false ->
  taken v0 ts p v2 (l ++ mid ++ r).
Proof.
  intros Hm Hu32 Hv Hv2 Hb Hb' Hseg Hperm Hlv Hpg H1 Hsz Hhas Hr Hw Hi.
  destruct split_parts as [P1 P2 P3 P4 P5 P6 P7 P8].
  assert (n >= 1) as Hn1 by (rewrite Hts, freePages_app, length_app; cbn; lia).
  assert (n < 2 ^ 32) as Hn2 by (rewrite <- (fl_count _ _ _ Hfl); apply get4_range; [apply Hpages|lia]).
  assert (forall q, q <> 1 -> bytes v q = bytes v0 q) as Hvb by apply Hm.
  assert (bytes v 1 = store (bytes v0 1) 36 (sqlite3Put4byte (n - 1))) as Hone by (by rewrite (mi_one _ _ _ _ Hm)).
  assert (forall q, q ∈ trunks l -> q <> 1) as Hl1.
  { intros q Hq ->. by apply NoDup_cons in P5 as [P5 _]. }
  assert (bytes v2 1 = if decide (l = []) then store (bytes v 1) 32 (sqlite3Put4byte u) else bytes v 1) as Hb1.
  { rewrite Hb by left. unfold linkOff.
    destruct linkPage_cases as [[Hlp ->]|[Hlp Hlp2]]; [by rewrite decide_True|].
    rewrite decide_False by (intros Heq; by apply Hl1 in Hlp). rewrite decide_False; [done|]. intros ->. by apply not_elem_of_nil in Hlp. }
  destruct (Hpages 1) as [Hlen1 Hby1].
  assert (Z.of_nat (length (bytes v 1)) = pageSize (s_bt s)) as Hlenv by apply Hv.
  apply taken_intro; try done.
  - apply segment_app. exists u. split.
    + eapply (segment_relink s Hbt v v2 l x); try done.
      rewrite Hone, get4_store_out; auto using Put4byte_bytes; [|cbn; lia..].
      eapply segment_same, P1. intros q Hq. apply Hvb; auto.
    + apply Hseg. eapply segment_same, P3. intros q Hq. rewrite Hb' by done. apply Hvb.
      intros ->. apply P8 in Hq. apply Hq. by left.
  - rewrite Hb1. destruct (decide _).
    + rewrite get4_store_out; [|apply Hv|apply Put4byte_bytes|cbn; lia..]. rewrite Hone. apply get4_store; lia.
    + rewrite Hone. apply get4_store; lia.
  - rewrite Hts, !freePages_app, freePages_cons, Hperm. cbn [app]. by rewrite <- Permutation_middle.
  - intros q. rewrite Hts, !freeLeaves_app, !elem_of_app. cbn. fold (freeLeaves r). rewrite elem_of_app. naive_solver.
  - intros q Hq1 Hq. rewrite Hpg by done. apply (mi_page _ _ _ _ Hm); [done|].
    intros Hin. apply Hq. rewrite fmap_app in Hin. apply elem_of_app in Hin as [Hin|Hin].
    + destruct (part_free q); [by right|done|done].
    + apply list_elem_of_singleton in Hin as ->. apply x_free.
  - split.
    + by rewrite H1, (mi_one _ _ _ _ Hm).
    + intros i Hi0 Hi1. rewrite Hb1. destruct (decide _).
      * rewrite nthZ_store_out by (cbn; lia). rewrite Hone. apply nthZ_store_out; cbn; lia.
      * rewrite Hone. apply nthZ_store_out; cbn; lia.
  - by rewrite Hsz, (mi_size _ _ _ _ Hm).
  - intros q. by rewrite Hhas, (mi_has _ _ _ _ Hm).
Qed.

Section turn.
Context (v : View) (d : Db).
Hypothesis Hv : sees s v d.
Hypothesis Hm : midway v0 n (l ++ [(x, ls)]) v.
Hypothesis Hh : held v0 (x :: ptr (prevOf l)) v.
Hypothesis Hi : isInit (vpage v x) = false.

Lemma prev_cases : (l = [] /\ prevOf l = 0) \/ (prevOf l ∈ trunks l /\ prevOf l <> 0 /\ prevOf l = linkPage l).
Proof.
  destruct linkPage_cases as [[_ ->]|[H1 H2]]; [by left|right]. rewrite H2 in *. split_and!; [done| |done].
  destruct (part_free (prevOf l)) as [->|Hf]; [by right|done|]. destruct (free_ordinary _ _ _ Hfl Hf). lia.
Qed.

Lemma x_not_link : x <> linkPage l /\ x <> 1 /\ x <> 0 /\ x <> prevOf l.
Proof.
  destruct split_parts as [_ _ _ _ _ P6 _ _]. rewrite not_elem_of_cons, not_elem_of_app in P6.
  destruct P6 as (? & Hxl & _). destruct (free_ordinary _ _ _ Hfl x_free).
  destruct prev_cases as [[-> ->]|(Hpl & _ & Hlk)].
  - unfold linkPage. cbn. split_and!; [done|done|lia|lia].
  - rewrite <- Hlk. split_and!; [by intros ->|done|lia|by intros ->].
Qed.

Lemma turn_refs :
  vrefs v x = 1%nat /\ vrefs v 1 <> 0%nat /\ vrefs v (linkPage l) <> 0%nat.
Proof.
  destruct x_not_link as (Hx1 & Hx2 & Hx3 & Hx4). rewrite !(Hh _).
  assert (1 ∉ x :: ptr (prevOf l)) as H1.
  { rewrite not_elem_of_cons. split; [done|]. unfold ptr.
    destruct prev_cases as [[_ ->]|(Hpl & Hp0 & _)]; [set_solver|].
    destruct (Z.eqb_spec (prevOf l) 0); [done|]. intros Heq%list_elem_of_singleton. rewrite <- Heq in Hpl.
    destruct split_parts as [_ _ _ _ P5 _ _ _]. by apply NoDup_cons in P5 as [P5 _]. }
  split_and!.
  - by rewrite decide_True by left.
  - rewrite decide_False by done. apply Hfl.
  - destruct prev_cases as [[El _]|(Hpl & Hp0 & <-)].
    + unfold linkPage. rewrite El. cbn. rewrite decide_False; [apply Hfl|]. by rewrite El in H1.
    + rewrite decide_True; [done|]. right. unfold ptr. destruct (Z.eqb_spec (prevOf l) 0); [done|by left].
Qed.

Lemma turn_bytes : bytes v x = bytes v0 x.
Proof. apply Hm. apply x_not_link. Qed.

Lemma turn_page q : isPage (s_bt s) (bytes v q).
Proof. apply (se_bytes _ _ _ Hv). Qed.

Lemma next_range : 0 <= get4 (bytes v0 x) 0 < 2 ^ 32.
Proof. apply get4_range; [apply Hpages|lia]. Qed.

Lemma next_slice : slice (bytes v x) 0 4 = sqlite3Put4byte (get4 (bytes v0 x) 0).
Proof.
  rewrite turn_bytes. unfold get4. destruct (Hpages x) as [Hl Hb].
  rewrite Put4byte_Get4byte; [done|by apply slice_bytes|rewrite length_slice; lia].
Qed.

(** An error of the pager ends the turn. *)
Lemma turn_fault sl rc d' v' :
  fault s rc -> sees s v' d' -> (forall q, vrefs v' q = vrefs v q) -> after sl (Goto rc x) d'.
Proof. intros Hf Hs Hr. split_and!; [done|done|]. exists v'. split; [done|]. intros q. by rewrite Hr. Qed.

(** A trunk page without leaves is taken. *)
Lemma turn_unlinked sl d' w :
  ls = [] -> (sl = true -> wanted x) -> x ∈ w ->
  sees s (putWrite w (putData (linkPage l) (store (bytes v (linkPage l)) (linkOff l)
            (sqlite3Put4byte (get4 (bytes v0 x) 0))) v)) d' ->
  after sl (Next false SQLITE_OK x 0) d'.
Proof.
  intros Hls Hw Hxw S1. destruct x_not_link as (Hx1 & Hx2 & Hx3 & Hx4). destruct turn_refs as (R1 & R2 & R3).
  split; [by left|]. left. split_and!; [done|done|done|done|]. eexists _, (l ++ [] ++ r). split; [exact S1|].
  split; [|exact Hh]. pose proof (se_bytes _ _ _ S1) as Hb2.
  apply (taken_middle v _ [] (get4 (bytes v0 x) 0) x); try done.
  - apply next_range.
  - apply turn_page.
  - intros q Hq. cbn. unfold insert, fn_insert. destruct (decide (linkPage l = q)) as [<-|].
    + by rewrite decide_True by done.
    + by rewrite decide_False by done.
  - intros q Hq. cbn. rewrite fn_lookup_insert_ne; [done|]. intros <-.
    apply (pa_lr split_parts) in Hq. by apply Hq, link_in.
  - by rewrite Hls.
  - cbn. set_solver.
  - intros q Hq1 Hq. cbn. rewrite fn_lookup_insert_ne; [done|]. intros <-.
    by destruct (part_free (linkPage l) link_in).
  - cbn. unfold insert, fn_insert. destruct (decide (linkPage l = 1)) as [->|]; [done|]. by destruct (vpage v 1).
  - cbn. by rewrite fn_lookup_insert_ne by done.
Qed.

Lemma leaf_facts y :
  y ∈ ls -> 2 <= y < 2 ^ 32 /\ y <> PENDING_BYTE_PAGE (s_bt s) /\ vrefs v y = 0%nat /\
    y <> 1 /\ y <> x /\ (y ∉ trunks l) /\ (y ∉ trunks r).
Proof.
  intros Hin. pose proof (pa_leaf split_parts y Hin) as Hy. pose proof (leaf_free y Hin) as Hyf.
  destruct (free_ordinary _ _ _ Hfl Hyf) as (Hy32 & _ & Hypend).
  rewrite !not_elem_of_cons, not_elem_of_app in Hy. destruct Hy as (Hy1 & Hyx & Hyl & Hyr).
  split_and!; try done; [lia|lia|]. rewrite (Hh y), decide_False; [by apply Hfree|]. unfold ptr.
  destruct prev_cases as [[_ ->]|(? & ? & _)]; [set_solver|]. destruct (prevOf l =? 0); set_solver.
Qed.

(** The first leaf as a trunk page. *)
Definition promoted (y : Z) (k : Z) : list Z :=
  store (store (store (bytes v y) 0 (slice (bytes v x) 0 4)) 4 (sqlite3Put4byte k)) 8
    (slice (bytes v x) 12 (k * 4)).

Lemma turn_promoted y ls' d' w :
  ls = y :: ls' -> wanted x -> x ∈ w ->
  sees s (putWrite w (putData (linkPage l) (store (bytes v (linkPage l)) (linkOff l) (sqlite3Put4byte y))
            (putPage y (setInit false (setData (promoted y (Z.of_nat (length ls'))) (vpage v y))) v))) d' ->
  after true (Next false SQLITE_OK x 0) d'.
Proof.
  intros Hls Hw Hxw S1. destruct x_not_link as (Hx1 & Hx2 & Hx3 & Hx4). destruct turn_refs as (R1 & R2 & R3).
  destruct split_parts as [P1 P2 P3 P4 P5 P6 P7 P8]. pose proof (P7 y ltac:(rewrite Hls; by left)) as Hy.
  destruct (free_ordinary _ _ _ Hfl (leaf_free y ltac:(rewrite Hls; by left))) as (Hy32 & _ & _).
  rewrite !not_elem_of_cons, not_elem_of_app in Hy. destruct Hy as (Hy1 & Hyx & Hyl & Hyr).
  assert (y <> linkPage l) as Hylk.
  { intros ->. pose proof link_in as [?|?]%elem_of_cons; done. }
  split; [by left|]. left. split_and!; [done|done|done|done|]. eexists _, (l ++ [(y, ls')] ++ r). split; [exact S1|].
  split; [|exact Hh]. pose proof (se_bytes _ _ _ S1) as Hb2.
  destruct (turn_page x) as [Hlx Hbx]. destruct (turn_page y) as [Hly Hby].
  pose proof P2 as P2'. rewrite <- turn_bytes, Hls in P2'.
  destruct (leaves_promote s Hbt (bytes v x) (bytes v y) y ls' Hbx Hby Hlx Hly P2') as [Hlv Hnx].
  fold (promoted y (Z.of_nat (length ls'))) in Hlv, Hnx.
  apply (taken_middle v _ [(y, ls')] y x); try done.
  - lia.
  - apply turn_page.
  - intros q Hq. cbn. unfold insert, fn_insert. destruct (decide (linkPage l = q)) as [<-|].
    + by rewrite (decide_True (P := linkPage l = linkPage l)) by done.
    + rewrite (decide_False (P := y = q)), (decide_False (P := q = linkPage l)); [done|done|]. intros ->.
      apply elem_of_cons in Hq as [?|?]; done.
  - intros q Hq. cbn. rewrite !fn_lookup_insert_ne; [done|by intros ->|]. intros <-.
    apply P8 in Hq. by apply Hq, link_in.
  - intros w' Hs'. cbn. rewrite fn_lookup_insert_ne, fn_lookup_insert by done. cbn. split_and!; [done|done|].
    by rewrite Hnx, turn_bytes.
  - rewrite Hls; cbn; by rewrite app_nil_r.
  - rewrite Hls. cbn. intros q. rewrite app_nil_r. by right.
  - intros q Hq1 Hq. cbn. rewrite !fn_lookup_insert_ne; [done| |].
    + intros <-. apply Hq, leaf_free. rewrite Hls. by left.
    + intros <-. by destruct (part_free (linkPage l) link_in).
  - cbn. destruct (decide (linkPage l = 1)) as [El|El].
    + by rewrite El, fn_lookup_insert, fn_lookup_insert_ne by done.
    + rewrite !fn_lookup_insert_ne by done. by destruct (vpage v 1).
  - cbn. by rewrite !fn_lookup_insert_ne by done.
Qed.

Lemma turn_promote y ls' w d2 (E : Z -> Db -> Prop) :
  ls = y :: ls' -> wanted x -> x ∈ w -> vwrite v ⊆ w -> sees s (putWrite w v) d2 ->
  wp (promoteLeaf x (prevOf l) (Z.of_nat (length ls)) y) (after true) E d2.
Proof.
  intros Hls Hw Hxw Hvw S2. destruct x_not_link as (Hx1 & Hx2 & Hx3 & Hx4). destruct turn_refs as (R1 & R2 & R3).
  assert (l <> [] -> prevOf l <> 0) as Hl0 by (destruct prev_cases as [[-> _]|(_ & ? & _)]; done).
  pose proof (mi_write _ _ _ _ Hm) as Hw1. pose proof (pa_leaves split_parts) as P2.
  destruct (leaf_facts y ltac:(rewrite Hls; by left)) as (Hy32 & Hypend & Ry & Hy1 & Hyx & Hyl & Hyr).
  eapply db_bind, db_code, (db_GetUnusedPage _ d2 y false); [done|lia|done|done|done| |].
  2: { intros d3 rc S3 Hf. destruct (Z.eqb_spec rc SQLITE_OK); [by destruct Hf|]. by eapply db_ret, turn_fault. }
  intros d3 S3. cbn [negb Z.eqb]. eapply db_bind, db_code, (db_PagerWrite s _ d3); [done| |].
  2: { intros d4 rc S4 Hf. destruct (Z.eqb_spec rc SQLITE_OK); [by destruct Hf|]. cbn [negb].
       unfold releasePage. destruct (Z.eqb_spec y 0); [lia|].
       eapply db_bind, (db_Unref s _ d4); [done|cbn; by rewrite fn_lookup_insert|]. intros d5 S5.
       eapply db_ret, turn_fault; [done|done|]. intros q. cbn. unfold insert, fn_insert.
       repeat case_decide; congruence. }
  intros d4 S4.
  assert (y <> linkPage l) as Hylk by (intros ->; pose proof link_in as [?|?]%elem_of_cons; done).
  pose proof (leaves_max s Hbt _ _ P2) as Hmax. rewrite Hls in Hmax. cbn [length] in Hmax.
  destruct (turn_page x) as [Hlx Hbx].
  assert (Z.of_nat (length ls) - 1 = Z.of_nat (length ls')) as Hk1 by (rewrite Hls; cbn [length]; lia).
  rewrite Hk1. set (V4 := putWrite _ (fetched _ _ _ _)) in S4.
  assert (vrefs V4 x <> 0%nat /\ vrefs V4 y <> 0%nat /\ y ∈ vwrite V4 /\ bytes V4 x = bytes v x) as (F1 & F2 & F3 & F4).
  { cbn. rewrite fn_lookup_insert, !fn_lookup_insert_ne by done. rewrite R1. split_and!; [done..|inw|done]. }
  eapply db_bind, (db_read s _ d4 x 0 4); [done|done|lia|lia|lia|]. intros d5 S5. rewrite F4.
  eapply db_bind, (db_write s _ d5 y 0); [done|done|done|by apply slice_bytes|lia|rewrite length_slice; lia|]. intros d6 S6.
  eapply db_bind, (db_put4byte s _ d6 y 4); [done|done|done|lia|lia|]. intros d7 S7.
  eapply db_bind, (db_read s _ d7 x 12); [done|done|lia|lia|lia|]. intros d8 S8.
  cbn [vpage putData putPage]. rewrite !(fn_lookup_insert_ne _ y x) by done. rewrite F4.
  eapply db_bind, (db_write s _ d8 y 8); [done|done|done|by apply slice_bytes|lia|rewrite length_slice; lia|]. intros d9 S9.
  apply db_bind. unfold releasePage. destruct (Z.eqb_spec y 0); [lia|].
  eapply (db_Unref s _ d9 y 0); [done|cbn; by rewrite fn_lookup_insert|]. intros d10 S10.
  apply db_bind. eapply (db_relink _ d10 l); [done| | |done| |].
  + cbn. by rewrite !fn_lookup_insert_ne by done.
  + cbn. inw.
  + intros w1 d11 Hw11 S11. cbn [negb Z.eqb]. apply db_ret. cbn in Hw11.
    apply (turn_promoted y ls' d11 w1); [done|done|apply Hw11; inw|].
    eapply sees_ext, S11; try done; intros q; cbn; unfold insert, fn_insert; repeat case_decide; subst; try done.
  + intros rc d11 Hf S11. destruct (Z.eqb_spec rc SQLITE_OK); [by destruct Hf|].
    eapply db_ret, turn_fault; [done|done|]. intros q. cbn. unfold insert, fn_insert. repeat case_decide; congruence.
Qed.

Lemma turn_takeTrunk (E : Z -> Db -> Prop) :
  wanted x -> wp (takeTrunk x (prevOf l) (Z.of_nat (length ls)) (vsize v0)) (after true) E d.
Proof.
  intros Hw. destruct x_not_link as (Hx1 & Hx2 & Hx3 & Hx4). destruct turn_refs as (R1 & R2 & R3).
  assert (l <> [] -> prevOf l <> 0) as Hl0 by (destruct prev_cases as [[-> _]|(_ & ? & _)]; done).
  pose proof (mi_write _ _ _ _ Hm) as Hw1.
  apply db_bind, db_code, (db_PagerWrite s v); [done| |].
  2: { intros d1 rc S1 Hf. destruct (Z.eqb_spec rc SQLITE_OK); [by destruct Hf|].
       by eapply db_ret, turn_fault. }
  intros d1 S1. cbn [Z.eqb negb]. destruct (Z.eqb_spec (Z.of_nat (length ls)) 0) as [Hk|Hk].
  - eapply db_bind, (db_read s _ d1); [done|cbn; by rewrite R1|lia|lia|lia|]. intros d2 S2. cbn [vpage putWrite].
    rewrite next_slice. apply db_bind. eapply (db_relink _ d2 l); [done|done|cbn; set_solver|done| |].
    + intros w d3 Hw3 S3. cbn [negb Z.eqb]. apply db_ret. cbn in Hw3.
      apply (turn_unlinked true d3 w); [by apply nil_length_inv; lia|done|set_solver|].
      eapply sees_ext, S3; done.
    + intros rc d3 Hf S3. destruct (Z.eqb_spec rc SQLITE_OK); [by destruct Hf|]. by eapply db_ret, turn_fault.
  - assert (exists y ls', ls = y :: ls') as (y & ls' & Hls) by (destruct ls; [done|eauto]).
    pose proof (pa_leaves split_parts) as P2.
    destruct (free_ordinary _ _ _ Hfl (leaf_free y ltac:(rewrite Hls; by left))) as (_ & Hysz & _).
    eapply db_bind, (db_get4byte s _ d1); [done|cbn; by rewrite R1|lia|lia|]. intros d2 S2. cbn [vpage putWrite].
    pose proof (le_at _ _ _ P2 0%nat y ltac:(by rewrite Hls)) as Hy8. rewrite <- turn_bytes in Hy8.
    change (8 + Z.of_nat 0 * 4) with 8 in Hy8. rewrite Hy8.
    destruct (Z.ltb_spec (vsize v0) y); [lia|].
    apply (turn_promote y ls' ({[x]} ∪ vwrite v) d2); try done; [inw|]. apply union_subseteq_r.
Qed.

(** *** The choice of a leaf *)

Lemma db_leafAt i y d' (Q : Z -> Db -> Prop) (E : Z -> Db -> Prop) :
  sees s v d' -> ls !! i = Some y -> (forall d'', sees s v d'' -> Q y d'') ->
  wp (on x (get4byte (8 + Z.of_nat i * 4))) Q E d'.
Proof.
  intros S1 Hi' HQ. pose proof (pa_leaves split_parts) as P2. destruct turn_refs as (R1 & _).
  pose proof (leaf_inside s Hbt _ _ i P2 (lookup_lt_Some _ _ _ Hi')).
  apply (db_get4byte s v); [done|by rewrite R1|lia|lia|]. intros d'' S2.
  rewrite turn_bytes, (le_at _ _ _ P2 i y Hi'). auto.
Qed.

Lemma leaf_pos y : y ∈ ls -> 2 <= y < 2 ^ 32.
Proof. intros H. by destruct (leaf_facts y H). Qed.

Lemma turn_firstBelow todo i d' (Q : Z -> Db -> Prop) (E : Z -> Db -> Prop) :
  sees s v d' -> eMode = BTALLOC_LE -> (todo + i = length ls)%nat -> ls <> [] ->
  (forall j q, (j < i)%nat -> ls !! j = Some q -> nearby < q) ->
  (forall c y d'', sees s v d'' -> ls !! c = Some y -> (forall q, q ∈ ls -> wanted q -> wanted y) -> Q (Z.of_nat c) d'') ->
  wp (firstBelow todo x nearby (Z.of_nat i)) Q E d'.
Proof.
  intros S1 HLE. revert i d' S1. induction todo as [|todo IH]; intros i d' S1 Hlen Hne Hj HQ.
  - destruct (lookup_lt_is_Some_2 ls 0 ltac:(destruct ls; [done|cbn; lia])) as [y Hy].
    apply (HQ 0%nat y); [done|done|]. intros q [j Hq]%list_elem_of_lookup Hw. exfalso.
    pose proof (lookup_lt_Some _ _ _ Hq). specialize (Hj j q ltac:(lia) Hq).
    destruct Hw as [->|[? _]]; lia.
  - destruct (lookup_lt_is_Some_2 ls i ltac:(lia)) as [y Hy].
    apply db_bind, (db_leafAt i y); [done|done|]. intros d2 S2.
    destruct (Z.leb_spec y nearby) as [Hle|Hgt].
    + apply db_ret, (HQ i y); [done|done|]. intros q _ _. destruct (decide (y = nearby)); [by left|right].
      split; [lia|done].
    + replace (Z.of_nat i + 1) with (Z.of_nat (S i)) by lia. apply IH; [done|lia|done| |done].
      intros j q Hji Hq. destruct (decide (j = i)) as [->|]; [congruence|]. apply (Hj j q); [lia|done].
Qed.

Lemma distance_pos a : 2 <= a < 2 ^ 32 -> 0 < nearby < 2 ^ 32 -> 0 <= distance a nearby /\ (distance a nearby = 0 <-> a = nearby).
Proof.
  intros Ha Hn. unfold distance, sqlite3AbsInt32, u32. pose proof (Z.mod_pos_bound (a - nearby) (2 ^ 32) ltac:(lia)).
  assert ((a - nearby) mod 2 ^ 32 = 0 <-> a = nearby) as Hz.
  { split; [|intros ->; by rewrite Z.sub_diag]. intros Hm0. apply Z.mod_divide in Hm0 as [k Hk]; [|lia]. nia. }
  rewrite !Z.geb_leb. destruct (Z.ltb_spec ((a - nearby) mod 2 ^ 32) (2 ^ 31));
    destruct (Z.leb_spec 0 ((a - nearby) mod 2 ^ 32)), (Z.leb_spec 0 ((a - nearby) mod 2 ^ 32 - 2 ^ 32)); try lia.
  destruct (Z.eqb_spec ((a - nearby) mod 2 ^ 32 - 2 ^ 32) (- 2 ^ 31)); lia.
Qed.

Lemma turn_closestLeaf todo i c d' (Q : Z -> Db -> Prop) (E : Z -> Db -> Prop) y :
  sees s v d' -> eMode <> BTALLOC_LE -> 0 < nearby < 2 ^ 32 -> (todo + i = length ls)%nat -> ls !! c = Some y ->
  (forall j q, (j < i)%nat -> ls !! j = Some q -> distance y nearby <= distance q nearby) ->
  (forall c y d'', sees s v d'' -> ls !! c = Some y -> (forall q, q ∈ ls -> wanted q -> wanted y) -> Q (Z.of_nat c) d'') ->
  wp (closestLeaf todo x nearby (Z.of_nat i) (Z.of_nat c) (distance y nearby)) Q E d'.
Proof.
  intros S1 HLE Hn. revert i c y d' S1. induction todo as [|todo IH]; intros i c y d' S1 Hlen Hc Hj HQ.
  - apply (HQ c y); [done|done|]. intros q Hin Hw. destruct Hw as [->|[_ ?]]; [|done]. left.
    pose proof Hin as [j Hq]%list_elem_of_lookup. pose proof (lookup_lt_Some _ _ _ Hq).
    specialize (Hj j nearby ltac:(lia) Hq).
    destruct (distance_pos nearby (leaf_pos _ Hin) Hn) as [_ H0].
    destruct (distance_pos y (leaf_pos _ (list_elem_of_lookup_2 _ _ _ Hc)) Hn) as [H1 H2]. apply H2. lia.
  - destruct (lookup_lt_is_Some_2 ls i ltac:(lia)) as [z Hz].
    apply db_bind, (db_leafAt i z); [done|done|]. intros d2 S2.
    replace (Z.of_nat i + 1) with (Z.of_nat (S i)) by lia. cbv zeta.
    destruct (Z.ltb_spec (distance z nearby) (distance y nearby)) as [Hlt|Hge].
    + apply IH; [done|lia|done| |done]. intros j q Hji Hq.
      destruct (decide (j = i)) as [->|]; [replace q with z by congruence; lia|].
      specialize (Hj j q ltac:(lia) Hq). lia.
    + apply IH; [done|lia|done| |done]. intros j q Hji Hq.
      destruct (decide (j = i)) as [->|]; [replace q with z by congruence; lia|].
      apply (Hj j q); [lia|done].
Qed.

Lemma turn_chooseLeaf d' (Q : Z -> Db -> Prop) (E : Z -> Db -> Prop) :
  sees s v d' -> 0 <= nearby < 2 ^ 32 -> ls <> [] ->
  (forall c y d'', sees s v d'' -> ls !! c = Some y -> (forall q, q ∈ ls -> wanted q -> wanted y) -> Q (Z.of_nat c) d'') ->
  wp (chooseLeaf x (Z.of_nat (length ls)) nearby eMode) Q E d'.
Proof.
  intros S1 Hn Hne HQ. unfold chooseLeaf.
  destruct (lookup_lt_is_Some_2 ls 0 ltac:(destruct ls; [done|cbn; lia])) as [y Hy].
  destruct (Z.ltb_spec 0 nearby).
  - destruct (Z.eqb_spec eMode BTALLOC_LE).
    + rewrite Nat2Z.id. apply (turn_firstBelow (length ls) 0); [done|done|lia|done| |done]. intros; lia.
    + apply db_bind, (db_leafAt 0 y); [done|done|]. intros d2 S2.
      apply (turn_closestLeaf _ 1 0 d2 Q E y); [done|done|lia| |done| |done].
      * pose proof (lookup_lt_Some _ _ _ Hy). lia.
      * intros j q Hj Hq. replace j with 0%nat in Hq by lia. replace q with y by congruence. lia.
  - apply (HQ 0%nat y); [done|done|]. intros q Hq Hw. exfalso. pose proof (leaf_pos q Hq).
    destruct Hw as [->|[? _]]; lia.
Qed.

(** *** The leaf is taken *)

Definition leafDropped (c : nat) : list Z :=
  let k := Z.of_nat (length ls) in
  store (if Z.of_nat c <? k - 1 then store (bytes v x) (8 + Z.of_nat c * 4) (slice (bytes v x) (4 + k * 4) 4)
         else bytes v x) 4 (sqlite3Put4byte (k - 1)).

Lemma turn_leafTaken sl c y (p : MemPage) d' w :
  ls !! c = Some y -> (sl = true -> wanted y) -> y ∈ w -> isInit p = false ->
  sees s (putWrite w (putRefs y 1%nat (putPage y p (putData x (leafDropped c) v)))) d' ->
  after sl (Next false SQLITE_OK y x) d'.
Proof.
  intros Hc Hw Hyw Hip S1. destruct x_not_link as (Hx1 & Hx2 & Hx3 & Hx4). destruct turn_refs as (R1 & R2 & R3).
  pose proof (list_elem_of_lookup_2 _ _ _ Hc) as Hin. pose proof (lookup_lt_Some _ _ _ Hc) as Hlt.
  destruct split_parts as [P1 P2 P3 P4 P5 P6 P7 P8].
  destruct (leaf_facts y Hin) as (Hy32 & Hypend & Ry & Hy1 & Hyx & Hyl & Hyr).
  assert (y <> linkPage l) as Hylk by (intros ->; pose proof link_in as [?|?]%elem_of_cons; done).
  assert (y <> prevOf l) as Hyp by (destruct prev_cases as [[_ ->]|(_ & _ & ->)]; [lia|done]).
  destruct (turn_page x) as [Hlx Hbx]. destruct (free_ordinary _ _ _ Hfl x_free) as (Hx32 & _ & _).
  assert (leaves (s_bt s) (leafDropped c) (dropLeaf c ls) /\ get4 (leafDropped c) 0 = get4 (bytes v0 x) 0) as [Hlv Hnx].
  { pose proof P2 as P2'. rewrite <- turn_bytes in P2'. split; [by apply leaves_dropLeaf|].
    pose proof (leaves_max s Hbt _ _ P2') as Hmax. unfold leafDropped.
    assert (length (slice (bytes v x) (4 + Z.of_nat (length ls) * 4) 4) = 4%nat) as Hsl by (rewrite length_slice; lia).
    rewrite get4_store_out; rewrite <- ?turn_bytes; [|destruct (_ <? _); [apply store_bytes; [|apply slice_bytes]|]; done|apply Put4byte_bytes|lia| |lia|lia].
    - destruct (_ <? _); [|done]. apply get4_store_out; auto using slice_bytes; lia.
    - destruct (_ <? _); rewrite ?length_store; cbn; lia. }
  split; [by right|]. left. split_and!; [done|done|done|done|].
  eexists _, (l ++ [(x, dropLeaf c ls)] ++ r). split; [exact S1|]. split.
  2: { rewrite (ptr_eq x) by done. intros q. apply (held_cons v0 _ v y Hh). }
  pose proof (se_bytes _ _ _ S1) as Hb2.
  apply (taken_middle v _ [(x, dropLeaf c ls)] x y); try done.
  - lia.
  - apply turn_page.
  - intros q Hq. cbn. rewrite !fn_lookup_insert_ne.
    + case_decide as Hql; [|done]. subst q. destruct (turn_page (linkPage l)) as [Hll Hlb].
      rewrite store_get4; [done|done|unfold linkOff; destruct (last l); lia|unfold linkOff; destruct (last l); lia|].
      apply (segment_link s). rewrite (mi_one _ _ _ _ Hm). cbn. destruct (Hpages 1) as [Hl1 Hb1].
      rewrite get4_store_out; [|done|apply Put4byte_bytes|lia|cbn; lia|lia|lia].
      eapply segment_same, P1. intros q Hq'. apply Hm. intros ->. by apply NoDup_cons in P5 as [P5 _].
    + intros ->. apply P6. apply elem_of_cons in Hq as [->|?]; [by left|right]. apply elem_of_app. by left.
    + intros ->. apply elem_of_cons in Hq as [?|?]; done.
  - intros q Hq. cbn. rewrite !fn_lookup_insert_ne; [done| |by intros ->].
    intros <-. apply P6. right. apply elem_of_app. by right.
  - intros w' Hs'. cbn. rewrite fn_lookup_insert_ne, fn_lookup_insert by done. cbn. by rewrite Hnx.
  - cbn. rewrite app_nil_r. rewrite (dropLeaf_perm c ls y Hc) at 1. apply perm_swap.
  - cbn. intros q. rewrite app_nil_r. intros Hq. rewrite (dropLeaf_perm c ls y Hc). by right.
  - intros q Hq1 Hq. cbn. rewrite !fn_lookup_insert_ne; [done| |].
    + intros <-. by apply Hq, x_free.
    + intros <-. by apply Hq, leaf_free.
  - cbn. rewrite !fn_lookup_insert_ne by done. by destruct (vpage v 1).
  - cbn. by rewrite !fn_lookup_insert_ne by done.
  - cbn. by rewrite fn_lookup_insert.
Qed.

Lemma leaf_in_list y : y ∈ ls -> y ∈ freeLeaves ts.
Proof. intros. rewrite Hts, freeLeaves_app. apply elem_of_app. right. cbn. apply elem_of_app. by left. Qed.

Lemma turn_fetchLeaf sl c y w d1 (E : Z -> Db -> Prop) :
  ls !! c = Some y -> (sl = true -> wanted y) -> vwrite v ⊆ w ->
  sees s (putWrite w (putData x (leafDropped c) v)) d1 ->
  wp (has ← btreeGetHasContent y;
      rc ← code (btreeGetUnusedPage y (negb has));
      rc ← (if rc =? SQLITE_OK then
              rc ← code (sqlite3PagerWrite y);
              (if rc =? SQLITE_OK then mret () else releasePage y);;
              mret rc
            else mret rc);
      mret (Next false rc y x)) (after sl) E d1.
Proof.
  intros Hc Hw Hvw S1. pose proof (list_elem_of_lookup_2 _ _ _ Hc) as Hin.
  destruct (leaf_facts y Hin) as (Hy32 & Hypend & Ry & Hy1 & Hyx & Hyl & Hyr).
  destruct x_not_link as (_ & _ & Hx0 & _).
  assert (forall rc d' v', fault s rc -> sees s v' d' -> (forall q, vrefs v' q = vrefs v q) ->
    after sl (Next false rc y x) d') as Hfault.
  { intros rc d' v' Hf S' Hr. split; [by right|]. right. split; [done|]. exists v'. split; [done|].
    intros q. by rewrite Hr, (Hh q), (ptr_eq x Hx0). }
  apply db_bind. eapply (db_GetHasContent s _ d1); [done|lia|]. cbn [vhas putWrite putData putPage].
  rewrite (mi_has _ _ _ _ Hm).
  eapply db_bind, db_code, (db_GetUnusedPage _ d1); [done|lia|done| |done| |].
  { intros Hnc Hneed. by rewrite (fl_has _ _ _ Hfl y (leaf_in_list y Hin) Hneed) in Hnc. }
  2: { intros d2 rc S2 Hf. destruct (Z.eqb_spec rc SQLITE_OK); [by destruct Hf|].
       eapply db_bind, db_ret, db_ret, Hfault; done. }
  intros d2 S2. cbn [Z.eqb]. eapply db_bind, db_bind, db_code, (db_PagerWrite s _ d2); [done| |].
  - intros d3 S3. cbn [Z.eqb]. eapply db_bind, db_ret, db_ret, db_ret.
    eapply (turn_leafTaken sl c y _ d3 _ Hc Hw); [..|exact S3]; [inw|reflexivity].
  - intros d3 rc S3 Hf. destruct (Z.eqb_spec rc SQLITE_OK); [by destruct Hf|]. apply db_bind.
    unfold releasePage. destruct (Z.eqb_spec y 0); [lia|].
    eapply (db_Unref s _ d3); [done|cbn; by rewrite fn_lookup_insert|]. intros d4 S4.
    eapply db_ret, db_ret, Hfault; [done|done|]. intros q. cbn. unfold insert, fn_insert.
    repeat case_decide; congruence.
Qed.

Lemma turn_takeLeaf sl (E : Z -> Db -> Prop) :
  0 <= nearby < 2 ^ 32 -> ls <> [] -> (sl = true -> ~ wanted x) ->
  wp (takeLeaf x (Z.of_nat (length ls)) (vsize v0) nearby eMode sl) (after sl) E d.
Proof.
  intros Hn Hne Hxw. destruct turn_refs as (R1 & R2 & R3). unfold takeLeaf.
  apply db_bind, turn_chooseLeaf; [done|done|done|]. intros c y d1 S1 Hc Hch.
  apply db_bind, (db_leafAt c y); [done|done|]. clear d1 S1. intros d1 S1.
  pose proof (list_elem_of_lookup_2 _ _ _ Hc) as Hin. pose proof (lookup_lt_Some _ _ _ Hc) as Hlt.
  destruct (free_ordinary _ _ _ Hfl (leaf_free y Hin)) as (Hy32 & Hysz & _).
  destruct (Z.ltb_spec (vsize v0) y); [lia|]. destruct (Z.ltb_spec y 2); [lia|]. cbn [orb].
  assert (((y =? nearby) || ((y <? nearby) && (eMode =? BTALLOC_LE))) = true <-> wanted y) as Hwb.
  { unfold wanted. by rewrite orb_true_iff, andb_true_iff, !Z.eqb_eq, Z.ltb_lt. }
  destruct (negb sl || _) eqn:Htake.
  2: { apply orb_false_iff in Htake as [Hsl%negb_false_iff Hnw]. rewrite Hnw in Hwb.
       apply db_ret. split_and!; [done|done| |by exists v].
       intros q [->|Hq]%elem_of_cons; [by apply Hxw|]. intros Hw. apply Hch in Hw; [|done]. by apply Hwb in Hw. }
  assert (sl = true -> wanted y) as Hw.
  { intros ->. by apply Hwb. }
  pose proof (pa_leaves split_parts) as P2. pose proof (leaves_max s Hbt _ _ P2) as Hmax.
  apply db_bind, db_code, (db_PagerWrite s v); [done| |].
  2: { intros d2 rc S2 Hf. destruct (Z.eqb_spec rc SQLITE_OK); [by destruct Hf|]. by eapply db_ret, turn_fault. }
  intros d2 S2. cbn [Z.eqb negb]. apply db_bind.
  assert (forall d', sees s (putWrite ({[x]} ∪ vwrite v) (putData x (if Z.of_nat c <? Z.of_nat (length ls) - 1
     then store (bytes v x) (8 + Z.of_nat c * 4) (slice (bytes v x) (4 + Z.of_nat (length ls) * 4) 4)
     else bytes v x) v)) d' ->
     wp (on x (put4byte 4 (Z.of_nat (length ls) - 1));; has ← btreeGetHasContent y;
      rc ← code (btreeGetUnusedPage y (negb has));
      rc ← (if rc =? SQLITE_OK then
              rc ← code (sqlite3PagerWrite y);
              (if rc =? SQLITE_OK then mret () else releasePage y);;
              mret rc
            else mret rc);
      mret (Next false rc y x)) (after sl) E d') as Hrest.
  { intros d3 S3. eapply db_bind, (db_put4byte s _ d3); [done|cbn; by rewrite R1|inw|lia|lia|].
    intros d4 S4. apply (turn_fetchLeaf sl c y ({[x]} ∪ vwrite v)); [done|done|apply union_subseteq_r|].
    eapply sees_ext, S4; try done. intros q. cbn. unfold insert, fn_insert. repeat case_decide; subst; done. }
  destruct (Z.of_nat c <? Z.of_nat (length ls) - 1).
  - eapply (db_memmove s _ d2); [done|cbn; by rewrite R1|inw|lia|lia|lia|lia|lia|]. intros d3 S3.
    apply Hrest. eapply sees_ext, S3; done.
  - apply db_ret, Hrest. eapply sees_ext, S2; try done. intros q. cbn. unfold insert, fn_insert.
    case_decide; [subst|done]. by destruct (vpage v x).
Qed.

End turn.

(** *** One turn *)

Lemma db_trunkTurn v d sl (E : Z -> Db -> Prop) :
  sees s v d -> midway v0 n (l ++ [(x, ls)]) v -> held v0 (x :: ptr (prevOf l)) v ->
  isInit (vpage v x) = false -> 0 <= nearby < 2 ^ 32 -> (sl = false -> l = []) ->
  wp (trunkTurn x (prevOf l) (vsize v0) nearby eMode sl) (after sl) E d.
Proof.
  intros Hv Hm Hh Hi Hn Hsl. destruct (turn_refs v d Hv Hm Hh Hi) as (R1 & R2 & R3). unfold trunkTurn. apply db_bind, db_look.
  rewrite (se_bt _ _ _ Hv). pose proof (pa_leaves split_parts) as P2.
  apply db_bind, (db_get4byte s v); [done|by rewrite R1|lia|lia|]. intros d1 S1.
  rewrite (turn_bytes v Hm Hh Hi), (le_count _ _ _ P2). destruct (_ && negb sl) eqn:Hk.
  - apply andb_true_iff in Hk as [Hk%Z.eqb_eq Hs%negb_true_iff]. specialize (Hsl Hs).
    apply db_bind, db_code, (db_PagerWrite s v); [done| |].
    2: { intros d2 rc S2 Hf. destruct (Z.eqb_spec rc SQLITE_OK); [by destruct Hf|]. by eapply db_ret, (turn_fault v Hh). }
    intros d2 S2. cbn [Z.eqb negb].
    eapply db_bind, (db_read s _ d2); [done|cbn; by rewrite R1|lia|lia|lia|]. intros d3 S3.
    cbn [vpage putWrite]. rewrite (next_slice v Hm Hh Hi). pose proof (mi_write _ _ _ _ Hm) as Hw1.
    eapply db_bind, (db_write s _ d3); [done|done|inw|apply Put4byte_bytes|lia|cbn; lia|].
    intros d4 S4. apply db_ret. rewrite Hs. eapply (turn_unlinked v d1 S1 Hm Hh Hi false d4 ({[x]} ∪ vwrite v)); [|done|inw|].
    + by apply nil_length_inv; lia.
    + unfold linkPage, linkOff. rewrite Hsl. cbn. by eapply sees_ext, S4.
  - pose proof (le_max _ _ _ P2). destruct (Z.ltb_spec (usableSize (s_bt s) / 4 - 2) (Z.of_nat (length ls))); [lia|].
    assert (((nearby =? x) || ((x <? nearby) && (eMode =? BTALLOC_LE))) = true <-> wanted x) as Hwb.
    { unfold wanted. rewrite orb_true_iff, andb_true_iff, !Z.eqb_eq, Z.ltb_lt. split; intros [?|?]; auto. }
    destruct (sl && _) eqn:Htake.
    + apply andb_true_iff in Htake as [Hs Hw%Hwb]. rewrite Hs. by apply (turn_takeTrunk v d1).
    + assert (sl = true -> ~ wanted x) as Hnw by (intros -> Hw%Hwb; cbn in Htake; congruence).
      destruct (Z.ltb_spec 0 (Z.of_nat (length ls))) as [Hpos|Hzero].
      * apply (turn_takeLeaf v d1); try done. intros ->. cbn in Hpos. lia.
      * assert (ls = []) as Hls by (apply nil_length_inv; lia). rewrite Hls in Hk. cbn in Hk.
        apply negb_false_iff in Hk. rewrite Hk. apply db_ret. split_and!; [done|done| |by exists v].
        rewrite Hls. intros q ->%list_elem_of_singleton. by apply Hnw.
Qed.
End turns.

(** *** The loop *)

Section loop.
Context (v0 : View) (ts : list (Z * list Z)) (nearby eMode : Z).
Hypothesis Hfl : freelist s v0 ts.
Hypothesis Hpages : forall q, isPage (s_bt s) (bytes v0 q).
Hypothesis Hfree : forall p, p ∈ freePages ts -> vrefs v0 p = 0%nat.
Hypothesis Hnearby : 0 <= nearby < 2 ^ 32.

Abbreviation n := (Z.of_nat (length (freePages ts))).

Definition looped (sl : bool) (o : Z * Z * Z * Z) (d : Db) : Prop :=
  let '(rc, p, pT, pP) := o in
  (rc = SQLITE_OK /\ pP = 0 /\ (pT <> 0 -> pT ∈ freePages ts) /\ p <> pT /\ (sl = true -> wanted nearby eMode p) /\
    exists v ts', sees s v d /\ taken v0 ts p v ts' /\ held v0 (p :: ptr pT) v)
  \/ (fault s rc /\ (pT <> 0 -> pT ∈ freePages ts) /\ (pP <> 0 -> pP ∈ freePages ts /\ pP <> pT) /\
    exists v, sees s v d /\ held v0 (ptr pT ++ ptr pP) v).

Lemma prevOf_snoc l t : prevOf (l ++ [t]) = t.1.
Proof. unfold prevOf. by rewrite last_snoc. Qed.

Lemma prev_free l r : ts = l ++ r -> prevOf l <> 0 -> prevOf l ∈ freePages ts /\ prevOf l ∈ trunks l.
Proof.
  intros -> Hp0. unfold prevOf in *. destruct (last l) as [t|] eqn:El; [|done].
  assert (t.1 ∈ trunks l) as Hin.
  { apply list_elem_of_fmap. exists t. split; [done|]. apply last_Some in El as [l' ->]. apply elem_of_app. right. by left. }
  split; [|done]. rewrite freePages_app. apply elem_of_app. left. by apply trunks_free.
Qed.

Lemma length_trunks l : (length l <= length (freePages l))%nat.
Proof.
  induction l as [|[x ls] l IH]; [done|]. rewrite freePages_cons, length_app. cbn [length]. lia.
Qed.

(** The trunk page after [l] is fetched. *)
Lemma db_nextTrunk l x ls r v d sl fuel :
  ts = l ++ (x, ls) :: r -> sees s v d -> midway v0 n l v -> held v0 (ptr (prevOf l)) v ->
  (forall v' d', sees s v' d' -> midway v0 n (l ++ [(x, ls)]) v' -> held v0 (x :: ptr (prevOf l)) v' ->
     isInit (vpage v' x) = false ->
     wp (t ← trunkTurn x (prevOf l) (vsize v0) nearby eMode sl;
         match t with
         | Goto rc pTrunk => mret (rc, 0, pTrunk, prevOf l)
         | Next searchList rc pPgno pTrunk =>
             releasePage (prevOf l);;
             if searchList : bool
             then trunkLoop fuel n (vsize v0) nearby eMode searchList (u32 (Z.of_nat (length l) + 1)) pTrunk
             else mret (rc, pPgno, pTrunk, 0)
         end) (looped sl) (fun _ _ => False) d') ->
  wp (trunkLoop (S fuel) n (vsize v0) nearby eMode sl (Z.of_nat (length l)) (prevOf l)) (looped sl) (fun _ _ => False) d.
Proof.
  intros Hts Hs Hm Hh Hnext. cbn [trunkLoop].
  pose proof (split_parts v0 ts Hfl l x ls r Hts) as [P1 P2 P3 P4 P5 P6 P7 P8].
  pose proof (x_free ts l x ls r Hts) as Hx. destruct (free_ordinary _ _ _ Hfl Hx) as (Hx32 & Hxs & Hxp).
  rewrite not_elem_of_cons, not_elem_of_app in P6. destruct P6 as (Hx1 & Hxl & Hxr).
  assert (prevOf l <> x) as Hpx.
  { intros E. destruct (prev_free l _ Hts) as [_ Hin]; [lia|]. congruence. }
  assert (get4 (bytes v (linkPage l)) (linkOff l) = x) as Hlink.
  { apply (segment_link s). rewrite (mi_one _ _ _ _ Hm). cbn. destruct (Hpages 1) as [Hl1 Hb1].
    rewrite get4_store_out; [|done|apply Put4byte_bytes|lia|cbn; lia|lia|lia].
    eapply segment_same, P1. intros q Hq. apply Hm. intros ->. by apply NoDup_cons in P5 as [P5 _]. }
  assert (wp (if prevOf l =? 0 then on 1 (get4byte 32) else on (prevOf l) (get4byte 0))
    (fun i d' => i = x /\ sees s v d') (fun _ _ => False) d) as Hread.
  { assert (vrefs v 1 <> 0%nat) as Hr1.
    { rewrite (Hh 1). case_decide; [done|apply Hfl]. }
    unfold linkPage, linkOff, prevOf in *. destruct (last l) as [[p ?]|] eqn:El; cbn in *.
    - destruct (Z.eqb_spec p 0) as [->|].
      + exfalso. destruct (free_ordinary v0 ts 0 Hfl); [|lia]. rewrite Hts, freePages_app. apply elem_of_app. left.
        apply trunks_free, list_elem_of_fmap. eexists. split; [|apply last_Some in El as [l' ->]; apply elem_of_app; right; by left]. done.
      + apply (db_get4byte s v); [done| |lia|lia|done]. rewrite (Hh p), decide_True; [done|]. by apply ptr_nonzero.
    - by apply (db_get4byte s v); [done|done|lia|lia|]. }
  apply db_bind. eapply db_mono; [exact Hread| |done]. intros i d1 [-> S1]. clear Hread.
  destruct (Z.ltb_spec (vsize v0) x); [lia|].
  assert (Z.of_nat (length l) <= n) as Hln.
  { rewrite Hts, freePages_app, length_app. pose proof (length_trunks l). lia. }
  destruct (Z.ltb_spec n (Z.of_nat (length l))); [lia|]. cbn [orb].
  eapply db_bind, db_code, (db_GetUnusedPage v d1); [done|lia|done|done| | |].
  { rewrite (Hh x), decide_False; [by apply Hfree|]. by rewrite ptr_nonzero; intros [? _]. }
  - intros d2 S2. cbn [Z.eqb negb]. eapply Hnext; [exact S2| | |].
    + destruct Hm as [M1 M2 M3 M4 M5 M6]. split; cbn; try done.
      * by rewrite fn_lookup_insert_ne.
      * intros q Hq. unfold insert, fn_insert. case_decide; [subst|]; by apply M2.
      * intros q Hq Hq'. rewrite fmap_app, not_elem_of_app in Hq'. destruct Hq' as [Hq1 Hq2].
        rewrite fn_lookup_insert_ne; [by apply M3|]. intros ->. apply Hq2. by left.
    + intros q. apply (held_cons v0 _ v x Hh).
    + cbn. by rewrite fn_lookup_insert.
  - intros d2 rc S2 Hf. destruct (Z.eqb_spec rc SQLITE_OK); [by destruct Hf|]. cbn [negb]. apply db_ret.
    right. split_and!; [done|done| |].
    + intros Hp0. by destruct (prev_free l _ Hts Hp0).
    + exists v. split; [done|]. exact Hh.
Qed.

Lemma db_trunkLoop fuel l r v d sl :
  ts = l ++ r -> r <> [] -> sees s v d -> midway v0 n l v -> held v0 (ptr (prevOf l)) v ->
  (sl = false -> l = []) -> (sl = true -> exists q, q ∈ freePages r /\ wanted nearby eMode q) ->
  (length r <= fuel)%nat ->
  wp (trunkLoop fuel n (vsize v0) nearby eMode sl (Z.of_nat (length l)) (prevOf l)) (looped sl) (fun _ _ => False) d.
Proof.
  revert l r v d sl. induction fuel as [|fuel IH]; intros l r v d sl Hts Hr Hs Hm Hh Hsl Hw Hf.
  { destruct r; [done|cbn in Hf; lia]. }
  destruct r as [|[x ls] r]; [done|]. eapply (db_nextTrunk l x ls r); [done..|].
  pose proof (x_free ts l x ls r Hts) as Hx. destruct (free_ordinary _ _ _ Hfl Hx) as (Hx32 & _ & _).
  clear v d Hs Hm Hh. intros v d Hs Hm Hh Hi. apply db_bind.
  eapply db_mono; [by eapply (db_trunkTurn v0 ts nearby eMode Hfl Hpages Hfree l x ls r Hts v d sl (fun _ _ => False))| |done].
  assert (prevOf l <> 0 -> prevOf l <> x) as Hpx.
  { intros Hp0 Hpx. destruct (prev_free l _ Hts Hp0) as [_ Hin]. rewrite Hpx in Hin.
    apply (pa_x _ _ _ _ _ _ (split_parts v0 ts Hfl l x ls r Hts)). right. apply elem_of_app. by left. }
  intros [rc pT|[] rc p pT] d1 Ha.
  - destruct Ha as (Hfa & -> & v1 & S1 & H1). apply db_ret. right. split_and!; [done|done| |].
    + intros Hp0. split; [by apply (prev_free l _ Hts)|by apply Hpx].
    + exists v1. split; [done|]. intros q. by rewrite (H1 q), (ptr_eq x) by lia.
  - destruct Ha as (-> & -> & Hnw & v1 & S1 & M1 & H1).
    apply db_bind. eapply (db_release v0 [x] (prevOf l) v1); [done| | |].
    { eapply held_equiv, H1. intros q. rewrite elem_of_app, elem_of_cons, list_elem_of_singleton. tauto. }
    { intros Hp0. split; [|by apply Hfree, (prev_free l _ Hts)]. intros Heq%list_elem_of_singleton. by apply Hpx. }
    intros rf d2 S2 H2. pose proof (fl_count _ _ _ Hfl) as Hct. pose proof (get4_range (bytes v0 1) 36 (proj2 (Hpages 1)) ltac:(lia)).
    assert (Z.of_nat (length l) + 1 <= n) as Hln.
    { rewrite Hts, freePages_app, freePages_cons, !length_app. pose proof (length_trunks l). cbn [length]. lia. }
    rewrite u32_small by lia.
    replace (Z.of_nat (length l) + 1) with (Z.of_nat (length (l ++ [(x, ls)]))) by (rewrite length_app; cbn; lia).
    destruct (Hw eq_refl) as (q & Hq & Hwq). cbn in Hq. fold (freePages r) in Hq.
    assert (q ∈ freePages r) as Hqr.
    { apply elem_of_cons in Hq as [->|[Hq|Hq]%elem_of_app]; [|by apply Hnw in Hwq; [|by right]|done].
      by apply Hnw in Hwq; [|by left]. }
    pose proof (IH (l ++ [(x, ls)]) r (reref rf v1) d2 true) as Hgo. rewrite prevOf_snoc in Hgo.
    apply Hgo; clear Hgo IH; [by rewrite <- (assoc_L (++))| |done| | |done|by eauto|cbn in Hf; lia].
    + intros ->. by apply not_elem_of_nil in Hqr.
    + destruct M1. by split.
    + cbn. intros q'. by rewrite (H2 q'), (ptr_eq x) by lia.
  - destruct Ha as (HpT & Ha). apply db_bind.
    assert (forall h v1, sees s v1 d1 -> held v0 (ptr (prevOf l) ++ h) v1 -> (prevOf l <> 0 -> prevOf l ∉ h) ->
      (forall rf d2, sees s (reref rf v1) d2 -> held v0 h (reref rf v1) -> looped sl (rc, p, pT, 0) d2) ->
      wp (releasePage (prevOf l)) (fun _ => wp (mret (rc, p, pT, 0)) (looped sl) (fun _ _ => False)) (fun _ _ => False) d1) as Hrel.
    { intros h v1 S1 H1 Hnh Hlo. eapply (db_release v0 h (prevOf l) v1); [done|done| |].
      - intros Hp0. split; [by apply Hnh|by apply Hfree, (prev_free l _ Hts)].
      - intros rf d2 S2 H2. by apply db_ret, (Hlo rf). }
    assert (pT <> 0 -> pT ∈ freePages ts) as HpTf by (destruct HpT as [->| ->]; done).
    assert (prevOf l <> 0 -> prevOf l ∉ ptr pT) as HpTp.
    { intros Hp0. rewrite ptr_nonzero. intros [? ?]. specialize (Hpx Hp0). destruct HpT; congruence. }
    destruct Ha as [(-> & Hpp & Hpl & Hwp & v1 & ts' & S1 & T1 & H1)|(Hfa & v1 & S1 & H1)].
    + apply (Hrel (p :: ptr pT) v1); [done| | |].
      * eapply held_equiv, H1. intros q. rewrite elem_of_cons, !elem_of_app, elem_of_cons. clear. tauto.
      * intros Hp0. rewrite elem_of_cons. intros [?|?]; [congruence|by apply HpTp].
      * intros rf d2 S2 H2. left. split_and!; try done. exists (reref rf v1), ts'. split_and!; [done| |done].
        apply taken_reref; [done|]. change (rf 1) with (vrefs (reref rf v1) 1). rewrite (H2 1). case_decide; [done|]. apply Hfl.
    + apply (Hrel (ptr pT) v1); [done| |done|].
      * eapply held_equiv, H1. intros q. rewrite !elem_of_app. clear. tauto.
      * intros rf d2 S2 H2. right. split_and!; try done. exists (reref rf v1). split; [done|].
        intros q. rewrite (H2 q). by rewrite app_nil_r.
Qed.
End loop.
End rules.
