(* ===== verification/BtAllocate.v ===== *)
(** * What allocateBtreePage does

    The page comes from the list of free pages when there are any, and is the
    one asked for when there is such a free page; otherwise the file grows by
    one page, and by a page of the pointer map where one is due. *)

From stdpp Require Import base numbers option gmap sets functions list.
From S2P Require Import Prelude Util Varint Bitvec Btree BtVarint BtCell BtMem BtPage BtPager BtView BtPtrmap BtFreelist BtTrunk BtTake.
#[local] Open Scope Z_scope.

(** The page after the last one. *)
Definition stepPage (bt : BtShared) (n : Z) : Z :=
  if n + 1 =? PENDING_BYTE_PAGE bt then n + 2 else n + 1.
Definition endPage (bt : BtShared) (n : Z) : Z :=
  let m := stepPage bt n in
  if autoVacuum bt && PTRMAP_ISPAGE bt m then stepPage bt m else m.

Lemma map_pages_apart bt a b :
  bt_ok bt -> 2 <= a -> a < b < a + 96 -> b < 2 ^ 32 -> PTRMAP_ISPAGE bt a = true -> PTRMAP_ISPAGE bt b = false.
Proof.
  intros Hb Ha Hab Hb32 Hpa. apply not_true_is_false. intros Hpb.
  apply Z.eqb_eq in Hpa, Hpb.
  destruct (ptrmapPageno_eq bt a Hb ltac:(lia)) as (A1 & A2 & A3 & A4 & A5).
  destruct (ptrmapPageno_eq bt b Hb ltac:(lia)) as (B1 & B2 & B3 & B4 & B5).
  set (per := usableSize bt / 5 + 1) in *. rewrite Hpa in A5. rewrite Hpb in B5.
  assert ((a - 2) / per <= (b - 2) / per) as Hq by (apply Z.div_le_mono; lia).
  destruct (decide ((a - 2) / per = (b - 2) / per)) as [Heq|Hne]; [rewrite Heq in A5; lia|].
  assert ((a - 2) / per * per + per <= (b - 2) / per * per) by nia.
  assert (a <= (a - 2) / per * per + 2 + 1) by (rewrite A5 at 1; destruct (_ =? _); lia). lia.
Qed.

Lemma stepPage_bounds bt n : n < stepPage bt n <= n + 2 /\ stepPage bt n <> PENDING_BYTE_PAGE bt.
Proof. unfold stepPage. destruct (Z.eqb_spec (n + 1) (PENDING_BYTE_PAGE bt)); lia. Qed.

Lemma endPage_bounds bt n :
  bt_ok bt -> 1 <= n < 2 ^ 32 - 8 -> n < endPage bt n <= n + 4 /\ ordinary bt (endPage bt n).
Proof.
  intros Hb Hn. pose proof (stepPage_bounds bt n) as [H1 H2].
  pose proof (stepPage_bounds bt (stepPage bt n)) as [H3 H4]. unfold endPage.
  destruct (autoVacuum bt) eqn:Ha; cbn.
  - destruct (PTRMAP_ISPAGE bt (stepPage bt n)) eqn:Hp.
    + split; [lia|]. split; [lia|done|]. intros _. eapply map_pages_apart, Hp; [done|lia|lia|lia].
    + split; [lia|]. by split; [lia|..].
  - split; [lia|]. split; [lia|done|congruence].
Qed.

Lemma endPage_first bt n q : n < q < endPage bt n -> ~ ordinary bt q.
Proof.
  assert (forall k, k < q < stepPage bt k -> ~ ordinary bt q) as Hstep.
  { intros k Hk [_ Hp _]. unfold stepPage in Hk.
    destruct (Z.eqb_spec (k + 1) (PENDING_BYTE_PAGE bt)); [|lia]. apply Hp. lia. }
  intros Hq. unfold endPage in Hq. destruct (autoVacuum bt) eqn:Ha; cbn in Hq; [|by apply (Hstep n)].
  destruct (PTRMAP_ISPAGE bt (stepPage bt n)) eqn:Hp; [|by apply (Hstep n)].
  destruct (Z.lt_trichotomy q (stepPage bt n)) as [?|[->|?]]; [apply (Hstep n); lia| |apply (Hstep (stepPage bt n)); lia].
  intros [_ _ Hm]. rewrite Hm in Hp; done.
Qed.

Section allocate.
Context (s : Start) (Hbt : bt_ok (s_bt s)).

Let Hu : 480 <= usableSize (s_bt s) <= pageSize (s_bt s).
Proof. apply Hbt. Qed.

(** An error, and no reference is left. *)
Definition failed (v0 : View) (rc : Z) (d : Db) : Prop :=
  fault s rc /\ exists v, sees s v d /\ forall q, vrefs v q = vrefs v0 q.

(** The page [p] was allocated; [ts'] are the free pages after that. *)
Record allocated (v0 : View) (ts : list (Z * list Z)) (p : Z) (v : View) (ts' : list (Z * list Z)) : Prop := {
  at_list : freelist s v ts';
  at_which : (freePages ts ≡ₚ p :: freePages ts' /\ vsize v = vsize v0) \/
             (ts = [] /\ ts' = [] /\ p = endPage (s_bt s) (vsize v0) /\ vsize v = p);
  at_page q : q <> 1 -> q ∉ freePages ts -> q <= vsize v0 -> vpage v q = vpage v0 q;
  at_header : sameHeader 28 40 v0 v;
  at_has q : vhas v q = vhas v0 q;
  at_write : p ∈ vwrite v;
  at_init : isInit (vpage v p) = false;
  at_refs : held v0 [p] v
}.

Context (v0 : View) (ts : list (Z * list Z)).
Hypothesis Hfl : freelist s v0 ts.
Hypothesis Hfree : forall p, p ∈ freePages ts -> vrefs v0 p = 0%nat.
Hypothesis Hbeyond : forall p, vsize v0 < p -> vrefs v0 p = 0%nat.

(** ** At the end of the file *)

Lemma db_nextPage v d (Q : unit -> Db -> Prop) E :
  sees s v d -> vsize v < 2 ^ 32 - 3 ->
  (forall d', sees s (putSize (stepPage (s_bt s) (vsize v)) v) d' -> Q () d') -> wp nextPage Q E d.
Proof.
  intros S1 Hsz HQ. pose proof (se_bound _ _ _ S1). unfold nextPage. apply db_bind, db_look, db_bind, db_look.
  rewrite (se_bt _ _ _ S1), (se_size _ _ _ S1), !(u32_small (vsize v + 1)) by lia.
  apply db_bind, (db_setNPage s v); [done|lia|]. intros d1 S2. unfold stepPage in HQ.
  destruct (Z.eqb_spec (vsize v + 1) (PENDING_BYTE_PAGE (s_bt s))).
  - rewrite u32_small by lia. eapply (db_setNPage s _ d1); [done|lia|]. intros d2 S3. apply HQ.
    replace (vsize v + 2) with (vsize v + 1 + 1) by lia. by eapply sees_ext, S3.
  - by apply db_ret, HQ.
Qed.

(** The page of the pointer map that comes first. *)
Lemma db_mapPage v d (Q : unit -> Db -> Prop) (E : Z -> Db -> Prop) :
  sees s v d -> vsize v < 2 ^ 32 - 3 -> vrefs v (vsize v) = 0%nat -> 2 <= vsize v ->
  vsize v <> PENDING_BYTE_PAGE (s_bt s) -> (s_truncate s = false -> ~ s_needed s (vsize v)) ->
  (forall p w d', vwrite v ⊆ w -> isInit p = false ->
     sees s (putSize (stepPage (s_bt s) (vsize v)) (putWrite w (putPage (vsize v) p v))) d' -> Q () d') ->
  (forall rc d', fault s rc -> (exists v', sees s v' d' /\ forall q, vrefs v' q = vrefs v q) -> E rc d') ->
  wp (btreeGetUnusedPage (vsize v) (negb (s_truncate s));;
      rc ← code (sqlite3PagerWrite (vsize v));
      releasePage (vsize v);;
      return_code rc;;
      nextPage) Q E d.
Proof.
  intros S1 Hsz Hr H2 Hpend Hneed HQ HE.
  assert (forall rc v1 d1, sees s v1 d1 -> vrefs v1 (vsize v) = 1%nat -> (forall q, q <> vsize v -> vrefs v1 q = vrefs v q) ->
    vsize v1 = vsize v -> (rc = SQLITE_OK \/ fault s rc) ->
    (forall d2, rc = SQLITE_OK -> sees s (putSize (stepPage (s_bt s) (vsize v)) (putRefs (vsize v) 0%nat v1)) d2 -> Q () d2) ->
    wp (releasePage (vsize v);; return_code rc;; nextPage) Q E d1) as Hrel.
  { intros rc v1 d1 S2 Hr1 Hr2 Hs1 Hrc HQ'. apply db_bind. unfold releasePage. destruct (Z.eqb_spec (vsize v) 0); [lia|].
    apply (db_Unref s v1 _ _ 0); [done|done|]. intros d2 S3. apply db_bind, db_return_code.
    - intros ->. eapply (db_nextPage _ d2); [done|cbn; lia|]. intros d3 S4. apply HQ'; [done|]. cbn in S4. by rewrite Hs1 in S4.
    - intros Hne. destruct Hrc as [?|Hf]; [done|]. apply HE; [done|]. eexists. split; [exact S3|].
      intros q. cbn. unfold insert, fn_insert. case_decide; [by subst|by apply Hr2]. }
  apply db_bind, (db_GetUnusedPage s Hbt v); [done|lia|done| |done| |].
  { intros Hnc. apply Hneed. by destruct (s_truncate s). }
  2: { intros d1 rc S2 Hf. apply HE; [done|]. by exists v. }
  intros d1 S2. eapply db_bind, db_code, (db_PagerWrite s _ d1); [done| |].
  - intros d2 S3. eapply Hrel; [exact S3|cbn; by rewrite fn_lookup_insert| |done|by left|].
    + intros q Hq. cbn. by rewrite fn_lookup_insert_ne.
    + intros d3 _ S4.
      apply (HQ (setInit false (if negb (s_truncate s) then setData (zeros (s_bt s)) (vpage v (vsize v))
                                else vpage v (vsize v))) ({[vsize v]} ∪ vwrite v)); [apply union_subseteq_r|done|].
      eapply sees_ext, S4; try done. intros q. cbn. unfold insert, fn_insert. case_decide; [by subst|done].
  - intros d2 rc S3 Hf. eapply Hrel; [exact S3|cbn; by rewrite fn_lookup_insert| |done|by right|].
    + intros q Hq. cbn. by rewrite fn_lookup_insert_ne.
    + intros d3 -> _. by destruct Hf.
Qed.

(** Pages were added after the last page of [v0]. *)
Record growing (v : View) : Prop := {
  gr_page q : q <= vsize v0 -> vpage v q = vpage v0 q;
  gr_refs q : vrefs v q = vrefs v0 q;
  gr_has q : vhas v q = vhas v0 q;
  gr_write : 1 ∈ vwrite v;
  gr_maps p : autoVacuum (s_bt s) = true -> PTRMAP_ISPAGE (s_bt s) p = true -> isInit (vpage v p) = false
}.

Lemma growing_failed v rc d : growing v -> fault s rc -> (exists v', sees s v' d /\ forall q, vrefs v' q = vrefs v q) -> failed v0 rc d.
Proof. intros Hg Hf (v' & S1 & Hr). split; [done|]. exists v'. split; [done|]. intros q. by rewrite Hr, (gr_refs _ Hg). Qed.

Lemma grown v p w :
  ts = [] -> growing v -> 1 <= vsize v0 < 2 ^ 32 - 8 -> vsize v = endPage (s_bt s) (vsize v0) -> isInit p = false ->
  vsize v ∈ w -> (forall q, isPage (s_bt s) (bytes v q)) ->
  allocated v0 ts (vsize v)
    (putWrite w (putRefs (vsize v) 1%nat (putPage (vsize v) p
       (putData 1 (store (bytes v 1) 28 (sqlite3Put4byte (vsize v))) v)))) [].
Proof.
  intros Hts [G1 G2 G3 G4 G5] Hsz Hv Hi Hw Hpg.
  destruct (endPage_bounds (s_bt s) (vsize v0) Hbt Hsz) as [Hb Ho]. rewrite <- Hv in Hb, Ho.
  destruct (Hpg 1) as [Hl1 Hb1]. assert (vsize v <> 1) by lia.
  assert (vpage v 1 = vpage v0 1) as Hone by (apply G1; lia).
  split; try done.
  - destruct Hfl as [A1 A2 A3 A4 A5 A6 A7 A8 A9]. rewrite Hts in *. cbn in A1, A2. split; cbn; try done.
    + rewrite fn_lookup_insert_ne, fn_lookup_insert by done. cbn.
      rewrite get4_store_out; [by rewrite Hone|done|apply Put4byte_bytes|lia|cbn; lia|lia|right; cbn; lia].
    + rewrite fn_lookup_insert_ne, fn_lookup_insert by done. cbn.
      rewrite get4_store_out; [by rewrite Hone|done|apply Put4byte_bytes|lia|cbn; lia|lia|right; cbn; lia].
    + by intros q ?%not_elem_of_nil.
    + lia.
    + by intros q ?%not_elem_of_nil.
    + intros q Ht Hn. specialize (A7 q Ht Hn). lia.
    + intros q Ha Hq. unfold insert, fn_insert. repeat case_decide; [done| |by apply G5]. by apply (G5 1); subst q.
    + rewrite fn_lookup_insert_ne by done. by rewrite G2.
  - right. by rewrite Hts, <- Hv.
  - intros q Hq1 _ Hq. cbn. rewrite !fn_lookup_insert_ne by lia. by apply G1.
  - split; cbn; rewrite !(fn_lookup_insert_ne _ (vsize v) 1) by done; rewrite !fn_lookup_insert; cbn.
    + by rewrite Hone.
    + intros i Hi0 Hi1. rewrite nthZ_store_out by (cbn; lia). by rewrite Hone.
  - cbn. by rewrite fn_lookup_insert.
  - intros q. cbn. unfold insert, fn_insert. pose proof (list_elem_of_singleton q (vsize v)) as Hq.
    destruct (decide (vsize v = q)) as [<-|Hne].
    + by rewrite decide_True by (by apply Hq).
    + rewrite decide_False; [apply G2|]. intros ?%Hq. congruence.
Qed.

Lemma db_lastPage v d :
  sees s v d -> ts = [] -> growing v -> 1 <= vsize v0 < 2 ^ 32 - 8 -> vsize v = endPage (s_bt s) (vsize v0) ->
  wp (n ← look nPage;
      on 1 (put4byte 28 n);;
      btreeGetUnusedPage n (negb (s_truncate s));;
      rc ← code (sqlite3PagerWrite n);
      (if rc =? SQLITE_OK then mret () else releasePage n);;
      return_code rc;;
      mret n)
    (fun p d' => exists v', sees s v' d' /\ allocated v0 ts p v' []) (failed v0) d.
Proof.
  intros S1 Hts Hg Hsz Hv. destruct (endPage_bounds (s_bt s) (vsize v0) Hbt Hsz) as [Hb [Ho1 Ho2 _]].
  rewrite <- Hv in *. pose proof Hg as [G1 G2 G3 G4 G5]. pose proof (fl_one _ _ _ Hfl) as H1.
  apply db_bind, db_look. rewrite (se_size _ _ _ S1).
  apply db_bind, (db_put4byte s v); [done|by rewrite G2|done|lia|lia|]. intros d1 S2.
  eapply db_bind, (db_GetUnusedPage s Hbt _ d1); [done|lia|done| |cbn; rewrite G2; apply Hbeyond; lia| |].
  { intros Hnc Hn. pose proof (fl_end _ _ _ Hfl (vsize v)) as He. destruct (s_truncate s); [done|].
    specialize (He eq_refl Hn). lia. }
  2: { intros d2 rc S3 Hf. eapply growing_failed; [done|done|]. by eexists. }
  intros d2 S3. eapply db_bind, db_code, (db_PagerWrite s _ d2); [done| |].
  - intros d3 S4. cbn [Z.eqb]. eapply db_bind, db_ret, db_bind, db_return_code; [|done]. intros _. apply db_ret.
    eexists. split; [exact S4|]. apply grown; try done; [inw|apply (se_bytes _ _ _ S1)].
  - intros d3 rc S4 Hf. destruct (Z.eqb_spec rc SQLITE_OK); [by destruct Hf|].
    apply db_bind. unfold releasePage. destruct (Z.eqb_spec (vsize v) 0); [lia|].
    eapply (db_Unref s _ d3 _ 0); [done|cbn; by rewrite fn_lookup_insert|]. intros d4 S5.
    apply db_bind, db_return_code; [done|]. intros _. eapply growing_failed; [done|done|]. eexists. split; [exact S5|].
    intros q. cbn. unfold insert, fn_insert. case_decide; [|done]. subst q. rewrite G2. symmetry. apply Hbeyond. lia.
Qed.

Lemma db_allocateAtEnd d :
  sees s v0 d -> ts = [] -> 1 <= vsize v0 < 2 ^ 32 - 8 ->
  wp allocateAtEnd (fun p d' => exists v', sees s v' d' /\ allocated v0 ts p v' []) (failed v0) d.
Proof.
  intros S0 Hts Hsz. unfold allocateAtEnd. apply db_bind, db_look, db_bind, db_look.
  rewrite (se_bt _ _ _ S0), (se_truncate _ _ _ S0).
  apply db_bind, (db_PagerWrite s v0); [done| |].
  2: { intros d1 rc S1 Hf. split; [done|]. by exists v0. }
  intros d1 S1. set (v1 := putWrite _ v0) in S1.
  eapply db_bind, (db_nextPage _ d1); [done|cbn; lia|]. intros d2 S2. set (v2 := putSize _ v1) in S2.
  assert (growing v2) as Hg2 by (split; try done; [inw|apply Hfl]).
  apply db_bind, db_look. rewrite (se_size _ _ _ S2).
  pose proof (stepPage_bounds (s_bt s) (vsize v0)) as [Hb1 Hb2].
  assert (vsize v2 = stepPage (s_bt s) (vsize v0)) as Hv2 by done.
  destruct (autoVacuum (s_bt s) && PTRMAP_ISPAGE (s_bt s) (vsize v2)) eqn:Hmap.
  - apply db_bind, (db_mapPage v2); [done|rewrite Hv2; lia| |rewrite Hv2; lia|by rewrite Hv2| | |].
    + apply Hbeyond. rewrite Hv2. lia.
    + intros Ht Hn. pose proof (fl_end _ _ _ Hfl _ Ht Hn). rewrite Hv2 in *. lia.
    + intros p w d3 Hw Hi S3. eapply (db_lastPage _ d3); [exact S3|done| |done|].
      * split; cbn; try done.
        -- intros q Hq. by rewrite fn_lookup_insert_ne by lia.
        -- apply Hw. inw.
        -- intros q Ha Hq. unfold insert, fn_insert. case_decide; [done|]. by apply Hfl.
      * cbn [vsize putSize]. unfold endPage. rewrite <- Hv2, Hmap. done.
    + intros rc d3 Hf (v' & S3 & Hr). split; [done|]. by exists v'.
  - apply db_bind, db_ret, (db_lastPage v2); try done. unfold endPage. cbv zeta. rewrite Hv2 in Hmap. by rewrite Hmap.
Qed.

(** ** From the list *)

(** A search finds a page: in mode EXACT, the pointer map says the truth about
    [nearby]; in mode LE, there is a free page that is not after it. *)
Definition searchable (nearby eMode : Z) : Prop :=
  eMode = BTALLOC_ANY \/
  (eMode = BTALLOC_EXACT /\ (nearby <= vsize v0 -> mapped (s_bt s) nearby /\
     1 <= (ptrmapEntry (s_bt s) v0 nearby).1 <= 5 /\
     ((ptrmapEntry (s_bt s) v0 nearby).1 = PTRMAP_FREEPAGE -> nearby ∈ freePages ts))) \/
  (eMode = BTALLOC_LE /\ exists q, q ∈ freePages ts /\ q <= nearby).

(** The page is the one searched for. *)
Definition found (nearby eMode p : Z) : Prop :=
  (eMode = BTALLOC_EXACT -> nearby <= vsize v0 ->
     (ptrmapEntry (s_bt s) v0 nearby).1 = PTRMAP_FREEPAGE -> p = nearby) /\
  (eMode = BTALLOC_LE -> p <= nearby).

Lemma db_searchList d nearby eMode (Q : bool -> Db -> Prop) (E : Z -> Db -> Prop) :
  sees s v0 d -> searchable nearby eMode ->
  (forall sl d', sees s v0 d' -> (sl = true -> exists q, q ∈ freePages ts /\ wanted nearby eMode q) ->
     (forall p, (sl = true -> wanted nearby eMode p) -> found nearby eMode p) -> Q sl d') ->
  (forall d' rc, sees s v0 d' -> fault s rc -> E rc d') ->
  wp (if eMode =? BTALLOC_EXACT then
        if nearby <=? vsize v0 then e ← ptrmapGet nearby; mret (e.1 =? PTRMAP_FREEPAGE) else mret false
      else mret (eMode =? BTALLOC_LE)) Q E d.
Proof.
  intros S0 Hs HQ HE. destruct Hs as [->|[[-> Hs]|[-> (q & Hq & Hle)]]]; cbn [Z.eqb].
  - apply db_ret, HQ; [done|done|]. intros p _. split; done.
  - cbn. destruct (Z.leb_spec nearby (vsize v0)) as [Hle|Hgt].
    + destruct (Hs Hle) as (Hm & Hr & Hf). apply db_bind, (db_ptrmapGet s Hbt v0); [done|done|done| |done].
      intros d1 S1. apply db_ret, HQ; [done| |].
      * intros He%Z.eqb_eq. exists nearby. split; [by apply Hf|by left].
      * intros p Hw. split; [|done]. intros _ _ He. rewrite He in Hw.
        destruct (Hw eq_refl) as [?|[_ ?]]; done.
    + apply db_ret, HQ; [done|done|]. intros p _. split; [lia|done].
  - apply db_ret, HQ; [done| |].
    + intros _. exists q. split; [done|]. destruct (decide (q = nearby)); [by left|right]. split; [lia|done].
    + intros p Hw. split; [done|]. intros _. destruct (Hw eq_refl) as [->|[? _]]; lia.
Qed.

Lemma taken_allocated p v ts' :
  taken s v0 ts p v ts' -> held v0 [p] v -> allocated v0 ts p v ts'.
Proof.
  intros [T1 T2 T3 [T4 T4'] T5 T6 T7 T8] Hh. split; try done; [by left|by intros; apply T3|].
  split; [done|]. intros i Hi Hn. apply T4'; lia.
Qed.

Lemma db_allocateBtreePage d nearby eMode :
  sees s v0 d -> searchable nearby eMode -> 0 <= nearby < 2 ^ 32 -> 1 <= vsize v0 < 2 ^ 32 - 8 ->
  wp (allocateBtreePage nearby eMode)
    (fun p d' => exists v ts', sees s v d' /\ allocated v0 ts p v ts' /\ (ts <> [] -> found nearby eMode p))
    (failed v0) d.
Proof.
  intros S0 Hs Hn Hsz. pose proof (se_bytes _ _ _ S0) as Hpages. pose proof (fl_one _ _ _ Hfl) as H1.
  assert (forall d' rc, sees s v0 d' -> fault s rc -> failed v0 rc d') as Hfail.
  { intros d' rc S1 Hf. split; [done|]. by exists v0. }
  unfold allocateBtreePage. apply db_bind, db_look. rewrite (se_size _ _ _ S0).
  apply db_bind, (db_get4byte s v0); [done|done|lia|lia|]. intros d1 S1. rewrite (fl_count _ _ _ Hfl).
  pose proof (fl_more _ _ _ Hfl) as Hmore.
  destruct (Z.leb_spec (vsize v0) (Z.of_nat (length (freePages ts)))); [lia|].
  destruct (Z.ltb_spec 0 (Z.of_nat (length (freePages ts)))) as [Hpos|Hzero].
  2: { assert (ts = []) as Hts.
       { destruct ts as [|[x ls] l]; [done|]. rewrite freePages_cons in Hzero. cbn in Hzero. lia. }
       eapply db_mono; [by apply db_allocateAtEnd| |done]. intros p d2 (v & S2 & Ha). exists v, []. by rewrite Hts in *. }
  apply db_bind, (db_searchList d1 nearby eMode); [done|done| |done]. clear d1 S1. intros sl d1 S1 Hsl Hfo.
  apply db_bind, (db_PagerWrite s v0); [done| |done]. intros d2 S2.
  eapply db_bind, (db_put4byte s _ d2); [done|done|inw|lia|lia|]. intros d3 S3.
  apply db_bind. eapply db_mono; [eapply (db_trunkLoop s Hbt v0 ts nearby eMode Hfl Hpages Hfree Hn _ [] ts _ d3 sl); [done| |exact S3| | |done|done|]| |done].
  - intros ->. cbn in Hpos. lia.
  - split; cbn; try done.
    + intros q Hq. by rewrite fn_lookup_insert_ne.
    + intros q Hq _. by rewrite fn_lookup_insert_ne.
    + inw.
  - intros q. cbn. rewrite decide_False; [done|]. by apply not_elem_of_nil.
  - pose proof (length_trunks ts). lia.
  - intros [[[rc p] pT] pP] d4 Hl. clear d1 d2 d3 S1 S2 S3. destruct Hl as [(-> & -> & HpT & Hne & Hw & v & ts' & S4 & T4 & H4)|(Hf & HpT & HpP & v & S4 & H4)].
    + apply db_bind. apply (db_release s Hbt v0 [p] pT v); [done| | |].
      { eapply held_equiv, H4. intros q. rewrite elem_of_app, elem_of_cons, list_elem_of_singleton. clear. tauto. }
      { intros H0. split; [|by apply Hfree, HpT]. intros ?%list_elem_of_singleton. congruence. }
      intros rf d5 S5 H5. apply db_bind, db_ret, db_bind, db_return_code; [|done]. intros _. apply db_ret.
      exists (reref rf v), ts'. split_and!; [done| |by intros _; apply Hfo].
      apply taken_allocated; [|done]. apply taken_reref; [done|].
      change (rf 1) with (vrefs (reref rf v) 1). rewrite (H5 1). by case_decide.
    + apply db_bind. apply (db_release s Hbt v0 (ptr pP) pT v); [done|done| |].
      { intros H0. split; [|by apply Hfree, HpT]. rewrite ptr_nonzero. intros [-> HpP0]. by destruct (HpP HpP0). }
      intros rf d5 S5 H5. apply db_bind. eapply (db_release s Hbt v0 [] pP _); [done|by rewrite app_nil_r| |].
      { intros H0. split; [by apply not_elem_of_nil|by apply Hfree, HpP]. }
      intros rf' d6 S6 H6. apply db_bind, db_return_code; [by intros ->; destruct Hf|]. intros _. split; [done|].
      eexists. split; [exact S6|]. intros q. rewrite (H6 q). by rewrite decide_False by apply not_elem_of_nil.
Qed.
End allocate.
