(* ===== verification/BtRelease.v ===== *)
(** * What freePage2 does

    The page is added to the list of free pages, as a leaf of the first trunk
    page or as a new trunk page, and, in an auto-vacuum database, the pointer
    map says so; nothing else changes, whatever the pager answers. *)

From stdpp Require Import base numbers option gmap sets functions list.
From S2P Require Import Prelude Util Varint Bitvec Btree BtVarint BtCell BtMem BtPage BtPager BtView BtPtrmap BtFreelist BtTrunk BtTake.
#[local] Open Scope Z_scope.

(** ** References *)

(** How many references to [q] are in the list [h]. *)
Definition among (h : list Z) (q : Z) : nat := length (filter (fun p => p = q) h).

Definition counted (v0 : View) (h : list Z) (v : View) : Prop :=
  forall q, vrefs v q = (vrefs v0 q + among h q)%nat.

Lemma among_cons p h q : among (p :: h) q = if decide (p = q) then S (among h q) else among h q.
Proof. unfold among. rewrite filter_cons. by case_decide. Qed.

Lemma among_app h1 h2 q : among (h1 ++ h2) q = (among h1 q + among h2 q)%nat.
Proof. unfold among. by rewrite filter_app, length_app. Qed.

Lemma counted_more v0 h v p :
  counted v0 h v ->
  counted v0 (p :: h) (mkView (vpage v) (<[p := S (vrefs v p)]> (vrefs v)) (vsize v) (vhas v) (vwrite v)).
Proof.
  intros Hc q. rewrite among_cons. cbn [vrefs]. unfold insert, fn_insert. destruct (decide (p = q)) as [<-|].
  - rewrite (Hc p). lia.
  - apply Hc.
Qed.

Lemma counted_nil v0 v : (forall q, vrefs v q = vrefs v0 q) -> counted v0 [] v.
Proof. intros H q. rewrite H. cbn. lia. Qed.

(** ** The pages of a list *)

Lemma NoDup_bound (l : list Z) (n : Z) :
  NoDup l -> (forall x, x ∈ l -> 2 <= x <= n) -> 1 <= n -> Z.of_nat (length l) <= n - 1.
Proof.
  intros Hn Hl H1. assert (l ⊆+ seqZ 2 (n - 1)) as Hs.
  { apply NoDup_submseteq; [done|]. intros x Hx. apply elem_of_seqZ. specialize (Hl x Hx). lia. }
  apply submseteq_length in Hs. rewrite length_seqZ in Hs. lia.
Qed.

Section release.
Context (s : Start) (Hbt : bt_ok (s_bt s)).

Let Hu : 480 <= usableSize (s_bt s) <= pageSize (s_bt s).
Proof. apply Hbt. Qed.

Lemma db_giveBack v0 h p v db (Q : unit -> Db -> Prop) E :
  sees s v db -> counted v0 (ptr p ++ h) v ->
  (forall r db', sees s (reref r v) db' -> counted v0 h (reref r v) -> Q () db') ->
  wp (releasePage p) Q E db.
Proof.
  intros H Hc HQ. unfold releasePage. destruct (Z.eqb_spec p 0) as [->|Hp0].
  - apply (HQ (vrefs v)); [by destruct v|by destruct v].
  - rewrite ptr_eq in Hc by done. pose proof (Hc p) as Hr. cbn [app] in *. rewrite among_cons, decide_True in Hr by done.
    apply (db_Unref s v _ p (vrefs v0 p + among h p)); [done|lia|]. intros d S1.
    apply (HQ (<[p := (vrefs v0 p + among h p)%nat]> (vrefs v))); [done|].
    intros q. cbn. unfold insert, fn_insert. destruct (decide (p = q)) as [<-|]; [done|].
    by rewrite (Hc q), among_cons, decide_False.
Qed.

Section body.
Context (v0 : View) (ts : list (Z * list Z)) (p : Z).
Hypothesis Hfl : freelist s v0 ts.
Hypothesis Hpages : forall q, isPage (s_bt s) (bytes v0 q).
Hypothesis Hord : ordinary (s_bt s) p.
Hypothesis Hsize : p <= vsize v0.
Hypothesis Hnot : p ∉ freePages ts.
Hypothesis Hsize32 : vsize v0 < 2 ^ 32.

Abbreviation n := (Z.of_nat (length (freePages ts))).

(** The pointer map with the entry of the page. *)
Definition marked : View :=
  if autoVacuum (s_bt s) then withEntry (s_bt s) p PTRMAP_FREEPAGE 0 v0 else v0.

Record released (v : View) (ts' : list (Z * list Z)) : Prop := {
  re_list : freelist s v ts';
  re_perm : freePages ts' ≡ₚ p :: freePages ts;
  re_page q : q <> 1 -> q <> p -> q ∉ freePages ts -> vpage v q = vpage marked q;
  re_header : sameHeader 32 40 v0 v;
  re_size : vsize v = vsize v0;
  re_has q : 0 <= q < 2 ^ 32 -> vhas v0 q = true -> vhas v q = true
}.

(** The count is incremented, and the pointer map is updated. *)
Record prepared (v : View) : Prop := {
  pr_one : vpage v 1 = setData (store (bytes v0 1) 36 (sqlite3Put4byte (n + 1))) (vpage v0 1);
  pr_page q : q <> 1 -> q <> p -> vpage v q = vpage marked q;
  pr_size : vsize v = vsize v0;
  pr_has q : vhas v q = vhas v0 q;
  pr_write : 1 ∈ vwrite v
}.

(** An error: of the pager, or of the allocator. *)
Definition faulty (rc : Z) : Prop := fault s rc \/ rc = SQLITE_NOMEM.

Lemma faulty_not_ok rc : faulty rc -> rc <> SQLITE_OK.
Proof. intros [[? _]| ->]; done. Qed.

Lemma p_range : 2 <= p < 2 ^ 32 /\ p <> PENDING_BYTE_PAGE (s_bt s).
Proof. destruct Hord. split; [lia|done]. Qed.

Lemma map_page : autoVacuum (s_bt s) = true ->
  mapped (s_bt s) p /\ ptrmapPageno (s_bt s) p <> 1 /\ ptrmapPageno (s_bt s) p <> p /\
  (ptrmapPageno (s_bt s) p ∉ freePages ts) /\ PTRMAP_ISPAGE (s_bt s) (ptrmapPageno (s_bt s) p) = true.
Proof.
  intros Ha. destruct Hord as [H1 H2 H3]. assert (mapped (s_bt s) p) as Hm by (split; auto).
  destruct (mapped_place _ _ Hbt Hm) as (Hm1 & _).
  assert (PTRMAP_ISPAGE (s_bt s) (ptrmapPageno (s_bt s) p) = true) as Hi by (apply ptrmapPageno_map; [done|lia|lia]).
  split_and!; [done|lia|lia| |done]. intros Hin. destruct (fl_pages _ _ _ Hfl _ Hin) as [[_ _ Hx] _].
  rewrite Hx in Hi; done.
Qed.

Lemma marked_same q : (autoVacuum (s_bt s) = true -> q <> ptrmapPageno (s_bt s) p) -> vpage marked q = vpage v0 q.
Proof.
  intros Hq. unfold marked. destruct (autoVacuum (s_bt s)); [|done]. cbn. rewrite fn_lookup_insert_ne; [done|].
  intros Heq. by apply Hq.
Qed.

Lemma marked_free q : q ∈ freePages ts -> vpage marked q = vpage v0 q.
Proof. intros Hq. apply marked_same. intros Ha ->. by destruct (map_page Ha) as (_ & _ & _ & ? & _). Qed.

Lemma marked_init q : isInit (vpage marked q) = isInit (vpage v0 q).
Proof.
  unfold marked. destruct (autoVacuum (s_bt s)); [|done]. cbn. unfold insert, fn_insert. case_decide; [by subst|done].
Qed.

Lemma released_intro v ts' :
  segment (s_bt s) v (get4 (bytes v 1) 32) ts' 0 -> get4 (bytes v 1) 36 = n + 1 ->
  freePages ts' ≡ₚ p :: freePages ts ->
  (forall q, q ∈ freeLeaves ts' -> q ∈ freeLeaves ts \/ (q = p /\ vhas v p = true)) ->
  (forall q, q <> 1 -> q <> p -> q ∉ freePages ts -> vpage v q = vpage marked q) ->
  sameHeader 32 40 v0 v -> vsize v = vsize v0 ->
  (forall q, 0 <= q < 2 ^ 32 -> vhas v0 q = true -> vhas v q = true) -> vrefs v 1 <> 0%nat -> released v ts'.
Proof.
  intros Hs Hc Hperm Hlv Hpg Hh Hsz Hhas Hr. split; try done.
  assert (forall q, q ∈ freePages ts' -> q = p \/ q ∈ freePages ts) as Hin.
  { intros q Hq. rewrite Hperm in Hq. by apply elem_of_cons in Hq. }
  assert (forall q, q ∈ freePages ts' -> ordinary (s_bt s) q /\ q <= vsize v0) as Hord'.
  { intros q [->|Hq]%Hin; [done|]. by apply Hfl. }
  assert (NoDup (freePages ts')) as Hnd by (rewrite Hperm; apply NoDup_cons; split; [done|apply Hfl]).
  pose proof (Permutation_length Hperm) as Hlen. cbn in Hlen. pose proof (fl_more _ _ _ Hfl).
  pose proof (NoDup_bound (freePages ts') (vsize v0) Hnd
    ltac:(intros q Hq; destruct (Hord' q Hq) as [[? _ _] ?]; lia) ltac:(lia)).
  split; try done.
  - lia.
  - by rewrite Hsz.
  - lia.
  - intros q Hq Hn. destruct (Hlv q Hq) as [Hq'|[-> ?]]; [|done]. apply Hhas.
    + destruct (Hord' q (leaves_free _ _ Hq)) as [[? _ _] _]. lia.
    + by apply Hfl.
  - rewrite Hsz. apply Hfl.
  - intros q Ha Hq. destruct (decide (q = 1)) as [->|]; [by unfold PTRMAP_ISPAGE, ptrmapPageno in Hq|].
    rewrite Hpg; [|done| |].
    + rewrite marked_init. by apply Hfl.
    + intros ->. destruct Hord as [_ _ Ho]. rewrite Ho in Hq; done.
    + intros Hf. destruct (fl_pages _ _ _ Hfl q Hf) as [[_ _ Ho] _]. rewrite Ho in Hq; done.
Qed.

Lemma released_touch v v' ts' :
  released v ts' -> (forall q, bytes v' q = bytes v q) -> (forall q, q <> p -> vpage v' q = vpage v q) ->
  vsize v' = vsize v -> (forall q, vhas v' q = vhas v q) -> vrefs v' 1 <> 0%nat -> released v' ts'.
Proof.
  intros [R1 R2 R3 [R4 R4'] R5 R6] Hb Hpg Hsz Hh Hr. destruct p_range as [Hp2 _].
  destruct R1 as [A1 A2 A3 A4 A5 A6 A7 A8 A9]. split; try done.
  - split; rewrite ?Hsz, ?Hb; try done.
    + eapply segment_same, A1. auto.
    + intros q Hq Hn. rewrite Hh. auto.
    + intros q Ha Hq. rewrite Hpg; [auto|]. intros ->. destruct Hord as [_ _ Ho]. rewrite Ho in Hq; done.
  - intros q Hq1 Hqp Hq. by rewrite Hpg, R3.
  - split; [by rewrite Hb, Hpg by lia|]. intros i Hi Hn. rewrite Hb. auto.
  - by rewrite Hsz.
  - intros q Hq Hv. rewrite Hh. auto.
Qed.

(** What the body leaves at the label. *)
Definition atLabel (o : Z * Z * Z) (d : Db) : Prop :=
  let '(rc, pP, pT) := o in
  (pP = 0 \/ pP = p) /\
  exists v, sees s v d /\ counted v0 (ptr pP ++ ptr pT) v /\
    (rc = SQLITE_OK -> exists ts', released v ts') /\ (rc <> SQLITE_OK -> faulty rc).

Lemma label_fault rc pP pT v d :
  pP = 0 \/ pP = p -> sees s v d -> counted v0 (ptr pP ++ ptr pT) v -> faulty rc -> atLabel (rc, pP, pT) d.
Proof. intros Hp S1 Hc Hf. split; [done|]. exists v. split_and!; try done. intros ->. by apply faulty_not_ok in Hf. Qed.

(** The page is fetched, if it is not yet, and made writeable. *)
Lemma db_writePage v d pP h (Q : Z * Z -> Db -> Prop) E :
  sees s v d -> pP = 0 \/ pP = p -> counted v0 (ptr pP ++ h) v ->
  (forall r w d', vwrite v ⊆ w -> p ∈ w -> let v' := mkView (vpage v) r (vsize v) (vhas v) w in
     sees s v' d' -> counted v0 (p :: h) v' -> Q (SQLITE_OK, p) d') ->
  (forall rc pP' r d', fault s rc -> pP' = 0 \/ pP' = p -> let v' := mkView (vpage v) r (vsize v) (vhas v) (vwrite v) in
     sees s v' d' -> counted v0 (ptr pP' ++ h) v' -> Q (rc, pP') d') ->
  wp (writePage pP p) Q E d.
Proof.
  intros S1 Hp Hc HQ HE. destruct p_range as [Hp2 Hpp]. unfold writePage.
  assert (forall r d1, let v' := mkView (vpage v) r (vsize v) (vhas v) (vwrite v) in
    sees s v' d1 -> counted v0 (p :: h) v' ->
    wp (rc ← code (sqlite3PagerWrite p); mret (rc, p)) Q E d1) as Hw.
  { intros r d1 v' S2 H2. apply db_bind, db_code, (db_PagerWrite s v'); [done| |].
    - intros d2 S3. apply db_ret, (HQ r ({[p]} ∪ vwrite v)); [apply union_subseteq_r|inw|done|done].
    - intros d2 rc S3 Hf. apply db_ret, (HE rc p r); [done|by right|done|]. by rewrite ptr_eq by lia. }
  destruct Hp as [->| ->].
  - cbn [Z.eqb]. apply db_bind, db_code, (db_btreeGetPage s v); [done|lia|done|done|lia| |].
    + intros d1 S2. cbn [Z.eqb negb]. eapply Hw; [exact S2|]. by apply counted_more.
    + intros d1 rc S2 Hf. destruct (Z.eqb_spec rc SQLITE_OK); [by destruct Hf|].
      apply db_ret, (HE rc 0 (vrefs v)); [done|by left|by destruct v|by destruct v].
  - destruct (Z.eqb_spec p 0); [lia|]. apply db_bind, db_ret. cbn [Z.eqb negb].
    apply (Hw (vrefs v)); [by destruct v|]. rewrite ptr_eq in Hc by lia. by destruct v.
Qed.

(** *** As a leaf *)

Lemma prepared_header v : prepared v -> get4 (bytes v 1) 32 = get4 (bytes v0 1) 32 /\ get4 (bytes v 1) 36 = n + 1.
Proof.
  intros Hp. rewrite (pr_one _ Hp). cbn [aData setData]. destruct (Hpages 1) as [Hl Hb].
  pose proof (fl_more _ _ _ Hfl). split.
  - apply get4_store_out; [done|apply Put4byte_bytes|lia|cbn; lia|lia|lia].
  - apply get4_store; lia.
Qed.

Lemma one_not_free : 1 ∉ freePages ts.
Proof. intros H. destruct (fl_pages _ _ _ Hfl 1 H) as [[H1 _ _] _]. lia. Qed.

Lemma released_leaf v v' x ls r :
  ts = (x, ls) :: r -> prepared v -> Z.of_nat (length ls) < usableSize (s_bt s) / 4 - 8 ->
  bytes v' x = store (store (bytes v0 x) 4 (sqlite3Put4byte (Z.of_nat (length ls) + 1)))
                 (8 + Z.of_nat (length ls) * 4) (sqlite3Put4byte p) ->
  (forall q, q <> x -> q <> p -> vpage v' q = vpage v q) -> vsize v' = vsize v ->
  vhas v' p = true -> (forall q, 0 <= q < 2 ^ 32 -> vhas v q = true -> vhas v' q = true) ->
  vrefs v' 1 <> 0%nat -> released v' ((x, ls ++ [p]) :: r).
Proof.
  intros Hts Hp Hlen Hx Hpg Hsz Hhp Hh Hr. destruct p_range as [Hp2 _]. destruct (prepared_header v Hp) as [Hh32 Hh36].
  pose proof one_not_free as H1. pose proof (fl_chain _ _ _ Hfl) as Hc. rewrite Hts in Hc. destruct Hc as (Ht & Hl & Hc).
  pose proof (fl_nodup _ _ _ Hfl) as Hnd. pose proof Hnot as Hn'. rewrite Hts, freePages_cons in Hnd, Hn', H1.
  cbn in Hnd, Hn', H1. apply NoDup_cons in Hnd as [Hnd _].
  rewrite not_elem_of_cons, not_elem_of_app in Hn', H1. rewrite not_elem_of_app in Hnd.
  destruct (Hpages x) as [Hlx Hbx]. assert (x <> 1 /\ x <> p) as [Hx1 Hxp] by naive_solver.
  assert (vpage v' 1 = vpage v 1) as Hone by (apply Hpg; lia).
  apply released_intro; try done.
  - rewrite Hone, Hh32. cbn. split_and!; [done|rewrite Hx; apply (leaves_snoc s Hbt); try done; lia|].
    assert (get4 (bytes v' x) 0 = get4 (bytes v0 x) 0) as ->.
    { rewrite Hx. pose proof (Z.mul_div_le (usableSize (s_bt s)) 4 ltac:(lia)).
      assert (length (store (bytes v0 x) 4 (sqlite3Put4byte (Z.of_nat (length ls) + 1))) = length (bytes v0 x)) as Hls
        by (rewrite length_store; cbn; lia).
      rewrite !get4_store_out; auto using store_bytes, Put4byte_bytes; cbn; lia. }
    eapply segment_same, Hc. intros y Hy%trunks_free.
    rewrite Hpg, (pr_page _ Hp), marked_free; [done|rewrite Hts, freePages_cons; right; apply elem_of_app; by right|..]; intros ->; naive_solver.
  - by rewrite Hone.
  - rewrite Hts, !freePages_cons. cbn [app]. trans (x :: p :: ls ++ freePages r); [|apply perm_swap].
    constructor. rewrite <- (assoc_L (++)). symmetry. apply Permutation_middle.
  - intros q. rewrite Hts. cbn. rewrite !elem_of_app, list_elem_of_singleton. intros [[?| ->]|?]; [left; by left|by right|left; by right].
  - intros q Hq1 Hqp Hq. rewrite Hpg, (pr_page _ Hp); try done. intros ->. apply Hq. rewrite Hts. by left.
  - split; rewrite Hone, (pr_one _ Hp); cbn; [done|]. intros i Hi0 Hi1. destruct (Hpages 1) as [Hl1 _].
    apply nthZ_store_out; cbn; lia.
  - by rewrite Hsz, (pr_size _ Hp).
  - intros q Hq Hv. apply Hh; [done|]. by rewrite (pr_has _ Hp).
Qed.

(** *** As a trunk page *)

(** The pointer to the first trunk page, 0 when there is none. *)
Definition firstTrunk : Z := match ts with [] => 0 | t :: _ => t.1 end.

Lemma firstTrunk_segment : segment (s_bt s) v0 firstTrunk ts 0.
Proof.
  unfold firstTrunk. pose proof (fl_chain _ _ _ Hfl) as Hc. destruct ts as [|[x ls] r]; [done|]. by destruct Hc as (_ & Hc).
Qed.

Lemma firstTrunk_range : 0 <= firstTrunk < 2 ^ 32.
Proof.
  unfold firstTrunk. pose proof (fl_pages _ _ _ Hfl) as Hp. destruct ts as [|[x ls] r]; [lia|].
  destruct (Hp x) as [[? _ _] _]; [by left|]. cbn. lia.
Qed.

Lemma released_trunk v v' b :
  prepared v -> isPage (s_bt s) b ->
  bytes v' p = store (store b 0 (sqlite3Put4byte firstTrunk)) 4 (sqlite3Put4byte 0) ->
  vpage v' 1 = setData (store (bytes v 1) 32 (sqlite3Put4byte p)) (vpage v 1) ->
  (forall q, q <> 1 -> q <> p -> vpage v' q = vpage v q) -> vsize v' = vsize v ->
  (forall q, vhas v' q = vhas v q) -> (forall q, isPage (s_bt s) (bytes v q)) -> vrefs v' 1 <> 0%nat ->
  released v' ((p, []) :: ts).
Proof.
  intros Hp [Hlb Hbb] Hbp Hone Hpg Hsz Hh Hpv Hr. destruct p_range as [Hp2 _]. destruct (prepared_header v Hp) as [Hh32 Hh36].
  pose proof firstTrunk_range as Hft. destruct (Hpv 1) as [Hl1 Hb1].
  assert (length (store b 0 (sqlite3Put4byte firstTrunk)) = length b) as Hlb1 by (rewrite length_store; cbn; lia).
  apply released_intro; try done.
  - rewrite Hone. cbn [aData setData]. rewrite get4_store by lia. cbn. split_and!; [done| |].
    + rewrite Hbp. split.
      * rewrite get4_store; [done|lia|lia|lia].
      * cbn. assert (120 <= usableSize (s_bt s) / 4) by (apply Z.div_le_lower_bound; lia). lia.
      * done.
    + rewrite Hbp, get4_store_out, get4_store; auto using store_bytes, Put4byte_bytes; [|cbn; lia..].
      eapply segment_same, firstTrunk_segment. intros y Hy%trunks_free.
      assert (y <> 1) by (intros ->; by apply one_not_free).
      assert (y <> p) by (by intros ->). by rewrite Hpg, (pr_page _ Hp), marked_free.
  - rewrite Hone. cbn [aData setData]. rewrite get4_store_out; auto using Put4byte_bytes; cbn; lia.
  - intros q. cbn. auto.
  - intros q Hq1 Hqp Hq. by rewrite Hpg, (pr_page _ Hp).
  - split; rewrite Hone; cbn [aData setData].
    + by rewrite (pr_one _ Hp).
    + intros i Hi0 Hi1. rewrite nthZ_store_out by (cbn; lia). rewrite (pr_one _ Hp). cbn [aData setData].
      destruct (Hpages 1) as [Hl0 _]. apply nthZ_store_out; cbn; lia.
  - by rewrite Hsz, (pr_size _ Hp).
  - intros q Hq Hv. by rewrite Hh, (pr_has _ Hp).
Qed.

(** *** The programs *)

Lemma db_addLeaf v v3 d pP x ls r (E : Z -> Db -> Prop) :
  prepared v -> ts = (x, ls) :: r -> Z.of_nat (length ls) < usableSize (s_bt s) / 4 - 8 -> pP = 0 \/ pP = p ->
  v3 = mkView (vpage v) (vrefs v3) (vsize v) (vhas v) (vwrite v) -> sees s v3 d -> counted v0 (ptr pP ++ [x]) v3 ->
  wp (rc ← code (sqlite3PagerWrite x);
      rc ← (if rc =? SQLITE_OK then
              on x (put4byte 4 (Z.of_nat (length ls) + 1));;
              on x (put4byte (8 + Z.of_nat (length ls) * 4) p);;
              (if negb (pP =? 0) && (Z.land (btsFlags (s_bt s)) BTS_SECURE_DELETE =? 0)
               then sqlite3PagerDontWrite pP else mret ());;
              code (btreeSetHasContent p)
            else mret rc);
      mret (Some rc, x, x))
    (fun o d' => match o with
       | (Some rc, pT, _) => atLabel (rc, pP, pT) d'
       | (None, pT, iT) => iT = firstTrunk /\ exists r,
           let v' := mkView (vpage v) r (vsize v) (vhas v) (vwrite v) in
           sees s v' d' /\ counted v0 (ptr pP ++ ptr pT) v'
       end) E d.
Proof.
  intros Hp Hts Hroom HpP Ev S1 Hc. destruct p_range as [Hp2 Hpp].
  assert (x ∈ freePages ts) as Hxf by (rewrite Hts; by left).
  destruct (fl_pages _ _ _ Hfl x Hxf) as [[Hx2 Hxp _] Hxs].
  assert (x <> 1) as Hx1 by (intros ->; by apply one_not_free). assert (x <> p) as Hxp' by (by intros ->).
  assert (vrefs v3 x <> 0%nat) as Hrx by (rewrite (Hc x), among_app, among_cons, decide_True by done; lia).
  assert (vrefs v3 1 <> 0%nat) as Hr1 by (rewrite (Hc 1); pose proof (fl_one _ _ _ Hfl); lia).
  assert (vpage v3 = vpage v) as Evp by (by rewrite Ev). assert (vpage v x = vpage v0 x) as Hvx by (by rewrite (pr_page _ Hp), marked_free).
  rewrite <- (ptr_eq x) in Hc by lia. pose proof (Z.mul_div_le (usableSize (s_bt s)) 4 ltac:(lia)).
  apply db_bind, db_code, (db_PagerWrite s v3); [done| |].
  2: { intros d2 rc S2 Hf. destruct (Z.eqb_spec rc SQLITE_OK); [by destruct Hf|]. apply db_bind, db_ret, db_ret.
       apply (label_fault rc pP x v3); [done|done|done|by left]. }
  intros d2 S2. cbn [Z.eqb]. apply db_bind.
  eapply db_bind, (db_put4byte s _ d2); [done|done|inw|lia|lia|]. intros d3 S3.
  eapply db_bind, (db_put4byte s _ d3); [done|done|inw|lia|lia|]. intros d4 S4.
  set (v4 := putData x _ (putData x _ _)) in S4.
  assert (bytes v4 x = store (store (bytes v0 x) 4 (sqlite3Put4byte (Z.of_nat (length ls) + 1)))
    (8 + Z.of_nat (length ls) * 4) (sqlite3Put4byte p) /\ forall q, q <> x -> vpage v4 q = vpage v q) as [Hx4 Hq4].
  { unfold v4. cbn. rewrite !fn_lookup_insert. cbn. rewrite Evp, Hvx. split; [done|].
    intros q Hq. by rewrite !fn_lookup_insert_ne by done. }
  assert (forall v5 d5, sees s v5 d5 -> bytes v5 x = bytes v4 x -> (forall q, q <> p -> vpage v5 q = vpage v4 q) ->
     vrefs v5 = vrefs v3 -> vsize v5 = vsize v3 -> vhas v5 = vhas v3 ->
     wp (code (btreeSetHasContent p)) (fun rc => wp (mret (Some rc, x, x)) (fun o d' => match o with
       | (Some rc, pT, _) => atLabel (rc, pP, pT) d'
       | (None, pT, iT) => iT = firstTrunk /\ exists r,
           let v' := mkView (vpage v) r (vsize v) (vhas v) (vwrite v) in
           sees s v' d' /\ counted v0 (ptr pP ++ ptr pT) v'
       end) E) E d5) as Hset.
  { intros v5 d5 S5 Hb5 Hq5 Hr5 Hz5 Hh5. rewrite Ev in Hz5, Hh5. cbn in Hz5, Hh5.
    apply db_code, (db_SetHasContent s v5); [done|rewrite Hz5, (pr_size _ Hp); lia| |].
    - intros h d6 Hhp Hmon S6. apply db_ret. split; [done|]. exists (putHas h v5). split_and!; [done| | |done].
      + intros q. cbn. rewrite Hr5. apply Hc.
      + intros _. eexists. apply (released_leaf v (putHas h v5) x ls r); try done.
        * cbn. by rewrite Hb5, Hx4.
        * intros q Hqx Hqp. cbn. by rewrite Hq5, Hq4.
        * intros q Hq Hv. apply Hmon; [done|]. by rewrite Hh5.
        * cbn. by rewrite Hr5.
    - intros h d6 S6. apply db_ret, (label_fault SQLITE_NOMEM pP x (putHas h v5)); [done|done| |by right].
      intros q. cbn. rewrite Hr5. apply Hc. }
  apply db_bind. destruct (negb (pP =? 0) && _) eqn:Hdw.
  - assert (pP = p) as -> by (destruct HpP as [->|]; done).
    eapply (db_DontWrite s _ d4); [done|]. intros b w d5 Hb _ _ S5.
    eapply (Hset _ d5 S5); try done; cbn.
    + by rewrite fn_lookup_insert_ne by done.
    + intros q Hq. by rewrite fn_lookup_insert_ne by done.
  - by apply db_ret, (Hset v4).
Qed.

Lemma db_freeAsLeaf v d pP (E : Z -> Db -> Prop) :
  sees s v d -> prepared v -> pP = 0 \/ pP = p -> counted v0 (ptr pP) v ->
  wp (freeAsLeaf pP p n)
    (fun o d' => match o with
       | (Some rc, pT, _) => atLabel (rc, pP, pT) d'
       | (None, pT, iT) => iT = firstTrunk /\ exists r,
           let v' := mkView (vpage v) r (vsize v) (vhas v) (vwrite v) in
           sees s v' d' /\ counted v0 (ptr pP ++ ptr pT) v'
       end) E d.
Proof.
  intros S1 Hp HpP Hc. destruct p_range as [Hp2 Hpp]. destruct (prepared_header v Hp) as [Hh32 Hh36].
  unfold freeAsLeaf. pose proof firstTrunk_segment as Hft. unfold firstTrunk in *.
  destruct (Z.eqb_spec n 0) as [Hn0|Hn0].
  { assert (ts = []) as Hts.
    { destruct ts as [|[x ls] r]; [done|]. rewrite freePages_cons in Hn0. cbn in Hn0. lia. }
    apply db_ret. rewrite Hts. split; [done|]. exists (vrefs v). rewrite app_nil_r. by destruct v. }
  assert (exists x ls r, ts = (x, ls) :: r) as (x & ls & r & Hts).
  { destruct ts as [|[x ls] r]; [done|eauto]. }
  pose proof (fl_chain _ _ _ Hfl) as Hch. rewrite Hts in Hch. destruct Hch as (Hhd & Hl & _).
  assert (x ∈ freePages ts) as Hxf by (rewrite Hts; by left).
  destruct (fl_pages _ _ _ Hfl x Hxf) as [[Hx2 Hxp _] Hxs].
  assert (x <> 1) as Hx1 by (intros ->; by apply one_not_free). assert (x <> p) as Hxp' by (by intros ->).
  assert (vpage v x = vpage v0 x) as Hvx by (by rewrite (pr_page _ Hp), marked_free).
  apply db_bind, db_look. rewrite (se_bt _ _ _ S1).
  apply db_bind, (db_get4byte s v); [done| |lia|lia|].
  { rewrite (Hc 1). pose proof (fl_one _ _ _ Hfl). lia. }
  intros d1 S2. rewrite Hh32, Hhd. apply db_bind, db_look. rewrite (se_size _ _ _ S2). pose proof (pr_size _ Hp).
  destruct (Z.ltb_spec (vsize v) x); [lia|].
  apply db_bind, db_code, (db_btreeGetPage s v); [done|lia|done|done|lia| |].
  2: { intros d2 rc S3 Hf. destruct (Z.eqb_spec rc SQLITE_OK); [by destruct Hf|]. apply db_ret.
       apply (label_fault rc pP 0 v); [done|done|by rewrite app_nil_r|by left]. }
  intros d2 S3. cbn [Z.eqb negb]. set (v3 := putRefs x _ v) in S3.
  assert (counted v0 (ptr pP ++ [x]) v3) as Hc3.
  { intros q. rewrite among_app. change (among [x] q) with (among ([x] ++ []) q). rewrite Nat.add_comm, <- Nat.add_comm.
    pose proof (counted_more v0 (ptr pP) v x Hc q) as Hq. rewrite among_cons in Hq. cbn [app]. rewrite among_cons.
    cbn in Hq |- *. rewrite Hq. case_decide; cbn; lia. }
  assert (vrefs v3 x <> 0%nat) as Hr3 by (cbn; by rewrite fn_lookup_insert).
  eapply db_bind, (db_get4byte s _ d2); [done|done|lia|lia|]. intros d3 S4. cbn [vpage v3 putRefs]. rewrite Hvx, (le_count _ _ _ Hl).
  pose proof (le_max _ _ _ Hl). destruct (Z.ltb_spec (usableSize (s_bt s) / 4 - 2) (Z.of_nat (length ls))); [lia|].
  destruct (Z.ltb_spec (Z.of_nat (length ls)) (usableSize (s_bt s) / 4 - 8)) as [Hroom|Hfull].
  2: { apply db_ret. rewrite Hts. split; [done|]. exists (vrefs v3). rewrite (ptr_eq x) by lia. split; [exact S4|exact Hc3]. }
  by apply (db_addLeaf v v3 d3 pP x ls r).
Qed.

Lemma db_freeRest v d pP (E : Z -> Db -> Prop) :
  sees s v d -> prepared v -> pP = 0 \/ pP = p -> counted v0 (ptr pP) v ->
  wp (l ← freeAsLeaf pP p n;
      match l with
      | (Some rc, pTrunk, _) => mret (rc, pP, pTrunk)
      | (None, pTrunk, iTrunk) =>
          w ← writePage pP p;
          let '(rc, pPage) := w in
          if negb (rc =? SQLITE_OK) then mret (rc, pPage, pTrunk) else
          on p (put4byte 0 iTrunk);;
          on p (put4byte 4 0);;
          on 1 (put4byte 32 p);;
          mret (SQLITE_OK, pPage, pTrunk)
      end) atLabel E d.
Proof.
  intros S1 Hp HpP Hc. destruct p_range as [Hp2 Hpp].
  apply db_bind. eapply db_mono; [by apply db_freeAsLeaf| |done].
  intros [[[rc|] pT] iT] d1; [intros Ha; by apply db_ret|]. intros (-> & r & S2 & Hc2).
  apply db_bind. eapply (db_writePage _ d1 pP (ptr pT)); [exact S2|done|done| |].
  2: { intros rc pP' r' d2 Hf HpP' v' S3 Hc3. destruct (Z.eqb_spec rc SQLITE_OK); [by destruct Hf|].
       apply db_ret, (label_fault rc pP' pT v'); [done|done|done|by left]. }
  intros r' w d2 Hw Hpw v' S3 Hc3. cbn [Z.eqb negb].
  assert (vrefs v' p <> 0%nat) as Hrp by (rewrite (Hc3 p), among_cons, decide_True by done; lia).
  assert (vrefs v' 1 <> 0%nat) as Hr1 by (rewrite (Hc3 1); pose proof (fl_one _ _ _ Hfl); lia).
  assert (1 ∈ vwrite v') as H1w by (apply Hw, Hp).
  eapply db_bind, (db_put4byte s v' d2); [done|done|done|lia|lia|]. intros d3 S4.
  eapply db_bind, (db_put4byte s _ d3); [done|done|done|lia|lia|]. intros d4 S5.
  eapply db_bind, (db_put4byte s _ d4); [done|done|done|lia|lia|]. intros d5 S6. apply db_ret.
  split; [by right|]. eexists. split; [exact S6|]. split_and!; [by rewrite ptr_eq by lia| |done].
  intros _. eexists. apply (released_trunk v _ (bytes v p)); try done; cbn.
  - apply (se_bytes _ _ _ S1).
  - rewrite (fn_lookup_insert_ne _ 1 p), !fn_lookup_insert by lia. done.
  - rewrite fn_lookup_insert, !(fn_lookup_insert_ne _ p 1) by lia. done.
  - intros q Hq1 Hqp. by rewrite !fn_lookup_insert_ne by done.
  - apply (se_bytes _ _ _ S1).
Qed.

(** Before the list: the count, the bytes of the page, the pointer map. *)

Record started (v : View) : Prop := {
  st_one : vpage v 1 = setData (store (bytes v0 1) 36 (sqlite3Put4byte (n + 1))) (vpage v0 1);
  st_page q : q <> 1 -> q <> p -> vpage v q = vpage v0 q;
  st_size : vsize v = vsize v0;
  st_has q : vhas v q = vhas v0 q;
  st_write : 1 ∈ vwrite v
}.

Lemma db_secure v d pP (Q : Z * Z -> Db -> Prop) E :
  sees s v d -> started v -> pP = 0 \/ pP = p -> counted v0 (ptr pP) v ->
  (forall v' pP' d', sees s v' d' -> started v' -> pP' = 0 \/ pP' = p -> counted v0 (ptr pP') v' -> Q (SQLITE_OK, pP') d') ->
  (forall v' pP' rc d', sees s v' d' -> pP' = 0 \/ pP' = p -> counted v0 (ptr pP') v' -> fault s rc -> Q (rc, pP') d') ->
  wp (if negb (Z.land (btsFlags (s_bt s)) BTS_SECURE_DELETE =? 0) then
        w ← writePage pP p;
        (if w.1 =? SQLITE_OK then on p (memset 0 0 (pageSize (s_bt s))) else mret ());;
        mret w
      else mret (SQLITE_OK, pP)) Q E d.
Proof.
  intros S1 Hst HpP Hc HQ HE. destruct p_range as [Hp2 Hpp]. destruct (negb _); [|by apply db_ret, (HQ v)].
  apply db_bind, (db_writePage v d pP []); [done|done|by rewrite app_nil_r| |].
  2: { intros rc pP' r d1 Hf HpP' v' S2 Hc2. cbn [fst]. destruct (Z.eqb_spec rc SQLITE_OK); [by destruct Hf|].
       apply db_bind, db_ret, db_ret, (HE v'); [done|done|by rewrite app_nil_r in Hc2|done]. }
  intros r w d1 Hw Hpw v' S2 Hc2. cbn [fst Z.eqb].
  assert (vrefs v' p <> 0%nat) as Hrp by (rewrite (Hc2 p), among_cons, decide_True by done; lia).
  pose proof (sees_length s v' d1 p S2) as Hlen. pose proof (se_bytes _ _ _ S2 p) as [_ Hby].
  apply db_bind, (db_on s v'); [done|done|].
  apply ok_memset; [lia|lia|rewrite (sees_data s v') by done; lia|].
  rewrite (sees_data s v') by done. cbn [aData setData]. split_and!.
  - split; [rewrite length_store; rewrite ?length_replicate; lia|]. apply store_bytes; [done|by apply Forall_replicate].
  - by right.
  - intros d2 S3. rewrite fromDbPage_setData, (se_page _ _ _ S2) in S3. eapply db_ret, HQ; [exact S3| |by right|by rewrite ptr_eq by lia].
    destruct Hst as [T1 T2 T3 T4 T5]. split; cbn; try done.
    + by rewrite fn_lookup_insert_ne by lia.
    + intros q Hq1 Hqp. rewrite fn_lookup_insert_ne by done. by apply T2.
    + by apply Hw.
Qed.

Lemma db_mark v d (Q : Z -> Db -> Prop) E :
  sees s v d -> started v ->
  (forall v' d', sees s v' d' -> prepared v' -> vrefs v' = vrefs v -> Q SQLITE_OK d') ->
  (forall rc d', sees s v d' -> fault s rc -> Q rc d') ->
  wp (if autoVacuum (s_bt s) then code (ptrmapPut p PTRMAP_FREEPAGE 0) else mret SQLITE_OK) Q E d.
Proof.
  intros S1 [T1 T2 T3 T4 T5] HQ HE. destruct (autoVacuum (s_bt s)) eqn:Ha.
  - destruct (map_page Ha) as (Hm & Hm1 & Hmp & Hmf & Hmi).
    apply db_code, (db_ptrmapPut s Hbt v); [done|done|split; done|lia| | |by intros; apply HE].
    + rewrite T2 by done. by apply Hfl.
    + intros w d1 Hw S2. eapply HQ; [exact S2| |done]. unfold withEntry. split; cbn; try done.
      * by rewrite fn_lookup_insert_ne.
      * intros q Hq1 Hqp. unfold marked. rewrite Ha. cbn. unfold insert, fn_insert.
        case_decide as Hq; [by rewrite T2 by done|by apply T2].
      * by apply Hw.
  - apply db_ret, (HQ v); [done| |done]. split; try done. unfold marked. by rewrite Ha.
Qed.

Lemma db_freePageBody v d pP (E : Z -> Db -> Prop) :
  sees s v d -> pP = 0 \/ pP = p -> (forall q, vpage v q = vpage v0 q) -> vsize v = vsize v0 ->
  (forall q, vhas v q = vhas v0 q) -> counted v0 (ptr pP) v ->
  wp (freePageBody pP p) atLabel E d.
Proof.
  intros S1 HpP Hpg Hsz Hh Hc. pose proof (fl_one _ _ _ Hfl) as H1. destruct p_range as [Hp2 _].
  unfold freePageBody. apply db_bind, db_look. rewrite (se_bt _ _ _ S1).
  assert (forall rc pP' v' d', fault s rc -> pP' = 0 \/ pP' = p -> sees s v' d' -> counted v0 (ptr pP') v' ->
    atLabel (rc, pP', 0) d') as Hlab.
  { intros rc pP' v' d' Hf HpP' S' Hc'. apply (label_fault rc pP' 0 v'); [done|done|by rewrite app_nil_r|by left]. }
  apply db_bind, db_code, (db_PagerWrite s v); [done| |].
  2: { intros d1 rc S2 Hf. destruct (Z.eqb_spec rc SQLITE_OK); [by destruct Hf|]. by apply db_ret, (Hlab _ _ v). }
  intros d1 S2. cbn [Z.eqb negb]. assert (vrefs v 1 <> 0%nat) as Hr1 by (rewrite (Hc 1); lia).
  eapply db_bind, (db_get4byte s _ d1); [done|done|lia|lia|]. intros d2 S3. cbn [vpage putWrite].
  rewrite Hpg, (fl_count _ _ _ Hfl).
  eapply db_bind, (db_put4byte s _ d2); [done|done|inw|lia|lia|]. intros d3 S4. cbn [vpage putWrite] in S4.
  rewrite Hpg in S4. apply db_bind. eapply (db_secure _ d3 pP); [exact S4| |done|exact Hc| |].
  { split; cbn; try done.
    - rewrite fn_lookup_insert. by rewrite Hpg.
    - intros q Hq1 Hqp. rewrite fn_lookup_insert_ne by done. apply Hpg.
    - inw. }
  2: { intros v' pP' rc d4 S5 HpP' Hc' Hf. destruct (Z.eqb_spec rc SQLITE_OK); [by destruct Hf|]. by apply db_ret, (Hlab _ _ v'). }
  intros v' pP' d4 S5 Hst HpP' Hc'. cbn [Z.eqb negb]. apply db_bind, (db_mark v'); [done|done| |].
  2: { intros rc d5 S6 Hf. destruct (Z.eqb_spec rc SQLITE_OK); [by destruct Hf|]. by apply db_ret, (Hlab _ _ v'). }
  intros v'' d5 S6 Hpr Hr. cbn [Z.eqb negb]. apply (db_freeRest v''); [done..|]. intros q. rewrite Hr. apply Hc'.
Qed.

(** ** freePage2 *)

Lemma db_freePage2 d pMemPage :
  sees s v0 d -> pMemPage = 0 \/ pMemPage = p ->
  wp (freePage2 pMemPage p)
    (fun _ d' => exists v ts', sees s v d' /\ released v ts' /\ forall q, vrefs v q = vrefs v0 q)
    (fun rc d' => faulty rc /\ exists v, sees s v d' /\ forall q, vrefs v q = vrefs v0 q) d.
Proof.
  intros S0 Hm. destruct p_range as [Hp2 _]. unfold freePage2. apply db_bind, db_look. rewrite (se_size _ _ _ S0).
  destruct (Z.ltb_spec p 2); [lia|]. destruct (Z.ltb_spec (vsize v0) p); [lia|]. cbn [orb].
  apply db_bind. set (Qend := fun (_ : unit) (d' : Db) => exists v ts', _). set (Eend := fun (rc : Z) (d' : Db) => faulty rc /\ _).
  assert (forall v pP d1, sees s v d1 -> pP = 0 \/ pP = p -> (forall q, vpage v q = vpage v0 q) -> vsize v = vsize v0 ->
    (forall q, vhas v q = vhas v0 q) -> counted v0 (ptr pP) v ->
    wp (r ← freePageBody pP p;
        let '(rc, pPage, pTrunk) := r in
        (if pPage =? 0 then mret () else on pPage (modify (setInit false)));;
        releasePage pPage;; releasePage pTrunk;; return_code rc) Qend Eend d1) as Hmain.
  { intros v pP d1 S1 HpP Hpg Hsz Hh Hc. apply db_bind. eapply db_mono; [by apply (db_freePageBody v)| |done].
    clear v pP d1 S1 HpP Hpg Hsz Hh Hc. intros [[rc pP] pT] d1 (HpP & v & S1 & Hc & Hok & Herr).
    assert (forall v' d2, sees s v' d2 -> (forall q, bytes v' q = bytes v q) -> (forall q, q <> p -> vpage v' q = vpage v q) ->
      vsize v' = vsize v -> (forall q, vhas v' q = vhas v q) -> vrefs v' = vrefs v ->
      wp (releasePage pP;; releasePage pT;; return_code rc) Qend Eend d2) as Hrel.
    { intros v' d2 S2 Hb Hq Hsz Hh Hr. apply db_bind. eapply (db_giveBack v0 (ptr pT) pP v'); [done|intros q; rewrite Hr; apply Hc|].
      intros r1 d3 S3 H3. apply db_bind. eapply (db_giveBack v0 [] pT); [exact S3|by rewrite app_nil_r|].
      intros r2 d4 S4 H4. assert (forall q, vrefs (reref r2 (reref r1 v')) q = vrefs v0 q) as H5 by (intros q; rewrite (H4 q); cbn; lia).
      apply db_return_code; intros Hrc.
      - destruct (Hok Hrc) as [ts' Hre]. exists (reref r2 (reref r1 v')), ts'. split_and!; [done| |done].
        apply (released_touch v); try done. rewrite H5. apply Hfl.
      - split; [by apply Herr|]. eexists. split; [exact S4|done]. }
    destruct (Z.eqb_spec pP 0) as [->|Hp0].
    - by apply db_bind, db_ret, (Hrel v).
    - assert (pP = p) as -> by (destruct HpP; done). apply db_bind, (db_setInit s v); [done| |].
      { rewrite (Hc p), ptr_eq, among_app, among_cons, decide_True by done. lia. }
      intros d2 S2. eapply Hrel; [exact S2|..]; try done.
      + intros q. cbn. unfold insert, fn_insert. case_decide; [by subst|done].
      + intros q Hq. cbn. by rewrite fn_lookup_insert_ne by done. }
  destruct Hm as [->| ->].
  - cbn [Z.eqb]. apply (db_Lookup s v0); [done| |].
    + intros d1 S1. eapply Hmain; [exact S1|by right|done..|]. rewrite ptr_eq by lia.
      apply counted_more, counted_nil. done.
    + intros d1 S1 _. eapply Hmain; [exact S1|by left|done..|]. by apply counted_nil.
  - destruct (Z.eqb_spec p 0); [lia|]. apply db_bind.
    eapply (Hmain _ p); [apply (sees_addRef s v0 d p S0)|by right|done..|]. rewrite ptr_eq by lia.
    apply counted_more, counted_nil. done.
Qed.
End body.
End release.
