(* ===== verification/BtBalance.v ===== *)
(** * Pages in use and free pages

    [balanced s x v ts mine]: every page that can be allocated is in the list
    [ts] of free pages or among the pages [mine] that are in use, which have
    the bytes given there; in an auto-vacuum database the entries of the
    pointer map say which pages are free, except for the entry of page [x],
    which has just been allocated.  The lemmas say how allocation, release
    and change of pages keep it. *)

From stdpp Require Import base numbers option gmap sets functions list.
From S2P Require Import Prelude Util Varint Bitvec Btree BtVarint BtCell BtMem BtPage BtPager BtView BtPtrmap BtFreelist BtTrunk BtTake BtAllocate BtRelease.
#[local] Open Scope Z_scope.

Record partition (bt : BtShared) (size : Z) (free mine : list Z) : Prop := {
  pt_nodup : NoDup (free ++ mine);
  pt_all p : p ∈ free ++ mine <-> ordinary bt p /\ p <= size
}.

Record balanced (s : Start) (x : Z) (v : View) (ts mine : list (Z * list Z)) : Prop := {
  ba_list : freelist s v ts;
  ba_pages : partition (s_bt s) (vsize v) (freePages ts) (fst <$> mine);
  ba_bytes p bs : (p, bs) ∈ mine -> bytes v p = bs;
  ba_map p : autoVacuum (s_bt s) = true -> p ∈ freePages ts ++ (fst <$> mine) -> p <> x ->
    1 <= (ptrmapEntry (s_bt s) v p).1 <= 5 /\
    ((ptrmapEntry (s_bt s) v p).1 = PTRMAP_FREEPAGE <-> p ∈ freePages ts)
}.

(** No page that can be allocated is referenced. *)
Definition idle (v : View) (ts : list (Z * list Z)) : Prop :=
  forall p, (p ∈ freePages ts) \/ vsize v < p -> vrefs v p = 0%nat.

(** What [allocateBtreePage] may be asked for when [free] are the free pages. *)
Definition request (bt : BtShared) (free : list Z) (nearby eMode : Z) : Prop :=
  0 <= nearby < 2 ^ 32 /\
  (eMode = BTALLOC_ANY \/ (eMode = BTALLOC_EXACT /\ autoVacuum bt = true /\ mapped bt nearby) \/
   (eMode = BTALLOC_LE /\ exists q, q ∈ free /\ q <= nearby)).

Lemma store_all d bs : length bs = length d -> store d 0 bs = bs.
Proof.
  intros Hl. unfold store. change (Z.to_nat 0) with 0%nat. cbn [take app Nat.add].
  rewrite drop_ge by lia. apply app_nil_r.
Qed.

(** ** Pages stay writeable, and keep their numbers *)

#[local] Hint Extern 0 (_ ⊆ _) => reflexivity : core.

(** Only the data and [isInit] differ. *)
Definition sameFields (p p' : MemPage) : Prop := p' = setInit (isInit p') (setData (aData p') p).

#[global] Instance sameFields_preorder : PreOrder sameFields.
Proof.
  split; [by intros []|]. intros p1 p2 p3 H1 H2. unfold sameFields in *. rewrite H2, H1. done.
Qed.

Lemma sameFields_pgno p p' : sameFields p p' -> pgno p' = pgno p.
Proof. by intros ->. Qed.

#[local] Hint Extern 0 (sameFields _ _) => reflexivity : core.

Definition keeps {A} (m : PM A) : Prop := forall p,
  match m p with Some (_, p') => sameFields p p' | None => True end.

Lemma keeps_bind {A B} (m : PM A) (f : A -> PM B) : keeps m -> (forall a, keeps (f a)) -> keeps (m ≫= f).
Proof.
  intros Hm Hf p. specialize (Hm p). unfold mbind, PM_bind. destruct (m p) as [[[a|rc] d]|]; [|done|done].
  specialize (Hf a d). destruct (f a d) as [[r d']|]; [|done]. by etrans.
Qed.

Lemma keeps_ret {A} (a : A) : keeps (mret a).
Proof. intros p. change (sameFields p p). reflexivity. Qed.
Lemma keeps_field {A} (f : MemPage -> A) : keeps (field f).
Proof. intros p. change (sameFields p p). reflexivity. Qed.
Lemma keeps_read a n : keeps (memread a n).
Proof. intros p. unfold memread. destruct (inside _ _ _); [reflexivity|done]. Qed.
Lemma keeps_write a bs : keeps (memwrite a bs).
Proof. intros p. unfold memwrite. by destruct (inside _ _ _). Qed.
Lemma keeps_setInit b : keeps (modify (setInit b)).
Proof. by intros p. Qed.

Create HintDb keeps.
#[export] Hint Resolve keeps_ret keeps_field keeps_read keeps_write keeps_setInit : keeps.

Ltac keeps :=
  repeat match goal with
  | |- keeps (_ ≫= _) => apply keeps_bind; [|intros ?]
  | |- keeps _ => solve [eauto 1 with keeps nocore]
  end.

Lemma keeps_get4byte a : keeps (get4byte a).
Proof. unfold get4byte. keeps. Qed.
Lemma keeps_put4byte a x : keeps (put4byte a x).
Proof. unfold put4byte. keeps. Qed.
Lemma keeps_getbyte a : keeps (getbyte a).
Proof. unfold getbyte. keeps. Qed.
Lemma keeps_putbyte a x : keeps (putbyte a x).
Proof. unfold putbyte. keeps. Qed.
Lemma keeps_memmove a b n : keeps (memmove a b n).
Proof. unfold memmove. keeps. Qed.
#[export] Hint Resolve keeps_get4byte keeps_put4byte keeps_getbyte keeps_putbyte keeps_memmove : keeps.

Definition later (db db' : Db) : Prop :=
  writeable (pager db) ⊆ writeable (pager db') /\
  forall q, pgno (page db q) = q -> sameFields (page db q) (page db' q).

#[global] Instance later_preorder : PreOrder later.
Proof.
  split; [by intros db; split|]. intros d1 d2 d3 [H1 H2] [H3 H4]. split; [by etrans|].
  intros q Hq. transitivity (page d2 q); [auto|]. apply H4. rewrite (sameFields_pgno (page d1 q)); auto.
Qed.

#[local] Hint Extern 0 (later _ _) => reflexivity : core.

Definition grows {A} (m : DM A) : Prop := forall db,
  match m db with Some (_, db') => later db db' | None => True end.

Lemma later_page db p x : (pgno (page db p) = p -> sameFields (page db p) x) -> later db (setPage p x db).
Proof. intros H. split; [done|]. intros q Hq. rewrite page_setPage. case_decide; [subst; auto|done]. Qed.

Lemma grows_bind {A B} (m : DM A) (f : A -> DM B) : grows m -> (forall a, grows (f a)) -> grows (m ≫= f).
Proof.
  intros Hm Hf db. specialize (Hm db). unfold mbind, DM_bind. destruct (m db) as [[[a|rc] d]|]; [|done|done].
  specialize (Hf a d). destruct (f a d) as [[r d']|]; [|done]. by etrans.
Qed.

Lemma grows_ret {A} (a : A) : grows (mret a).
Proof. by intros db. Qed.

Lemma grows_throw {A} rc : grows (@throw A rc).
Proof. by intros db. Qed.

Lemma grows_look {A} (f : Db -> A) : grows (look f).
Proof. by intros db. Qed.

Lemma grows_change f : (forall db, later db (f db)) -> grows (change f).
Proof. intros Hf db. apply Hf. Qed.

Lemma grows_code {A} (m : DM A) : grows m -> grows (code m).
Proof. intros Hm db. specialize (Hm db). unfold code. by destruct (m db) as [[[a|rc] d]|]. Qed.

Lemma grows_return rc : grows (return_code rc).
Proof. unfold return_code. destruct (rc =? SQLITE_OK); [apply grows_ret|apply grows_throw]. Qed.

Lemma grows_on {A} p (m : PM A) : keeps m -> grows (on p m).
Proof.
  intros Hm db. unfold on. case_bool_decide; [done|]. specialize (Hm (page db p)).
  destruct (m (page db p)) as [[r x]|]; [|done]. destruct (_ || _); [|done]. by apply later_page.
Qed.

Lemma grows_answer : grows answer.
Proof.
  intros db. unfold answer. destruct (faults (pager db)) as [|rc l]; [done|]. by destruct (rc =? SQLITE_OK).
Qed.

Lemma grows_write p : grows (sqlite3PagerWrite p).
Proof.
  apply grows_bind; [apply grows_answer|]. intros _. apply grows_change. intros db. split; [apply union_subseteq_r|done].
Qed.

Lemma grows_unref p : grows (sqlite3PagerUnref p).
Proof. intros db. unfold sqlite3PagerUnref. by destruct (refcount db p). Qed.

Lemma grows_has p : grows (btreeGetHasContent p).
Proof.
  intros db. unfold btreeGetHasContent. destruct (pHasContent db) as [b|]; [|done].
  destruct (sqlite3BitvecSize b <? p); [done|]. by destruct (sqlite3BitvecTestNotNull b p).
Qed.

Lemma grows_without p : grows (change (withoutContent p)).
Proof.
  apply grows_change. intros db. unfold withoutContent. set (g := mkPager _ _ _ _ _ _ _).
  transitivity (setPager g db); [by split|]. by apply later_page.
Qed.

Lemma grows_fromDbPage p : grows (fromDbPage p).
Proof.
  apply grows_change. intros db. apply later_page. intros H. unfold btreePageFromDbPage. by rewrite H, Z.eqb_refl.
Qed.

Create HintDb grows.
#[export] Hint Resolve grows_ret grows_throw grows_look grows_return grows_answer grows_write grows_unref grows_has
  grows_without grows_fromDbPage : grows.

Ltac grows :=
  repeat match goal with
  | |- grows (let _ := _ in _) => cbv zeta
  | |- grows (if ?b then _ else _) => destruct b
  | |- grows (match ?x with _ => _ end) => destruct x
  | |- grows (_ ≫= _) => apply grows_bind; [|intros ?]
  | |- grows (code _) => apply grows_code
  | |- grows (on _ _) => apply grows_on; keeps
  | |- grows _ => solve [eauto 1 with grows nocore]
  | |- grows (change _) => apply grows_change; intros ?; by split
  end.

Lemma grows_PagerGet p nc : grows (sqlite3PagerGet p nc).
Proof. unfold sqlite3PagerGet. grows. Qed.
#[export] Hint Resolve grows_PagerGet : grows.

Lemma grows_get p nc : grows (btreeGetPage p nc).
Proof. unfold btreeGetPage. grows. Qed.
#[export] Hint Resolve grows_get : grows.

Lemma grows_release p : grows (releasePage p).
Proof. unfold releasePage. grows. Qed.
#[export] Hint Resolve grows_release : grows.

Lemma grows_unused p nc : grows (btreeGetUnusedPage p nc).
Proof. unfold btreeGetUnusedPage, sqlite3PagerPageRefcount. grows. Qed.
#[export] Hint Resolve grows_unused : grows.

Lemma grows_ptrmapGet p : grows (ptrmapGet p).
Proof. unfold ptrmapGet. grows. Qed.
#[export] Hint Resolve grows_ptrmapGet : grows.

Lemma grows_firstBelow f a b c : grows (firstBelow f a b c).
Proof. revert c. induction f; intros; cbn; grows. Qed.
#[export] Hint Resolve grows_firstBelow : grows.

Lemma grows_closestLeaf f a b c d e : grows (closestLeaf f a b c d e).
Proof. revert c d e. induction f; intros; cbn; grows. Qed.
#[export] Hint Resolve grows_closestLeaf : grows.

Lemma grows_turn a b c d e f : grows (trunkTurn a b c d e f).
Proof. unfold trunkTurn, takeTrunk, promoteLeaf, takeLeaf, chooseLeaf, relink. grows. Qed.
#[export] Hint Resolve grows_turn : grows.

Lemma grows_trunkLoop fuel n a b c d e f : grows (trunkLoop fuel n a b c d e f).
Proof. revert d e f. induction fuel; intros; cbn; [by intros db|]. grows. Qed.
#[export] Hint Resolve grows_trunkLoop : grows.

Lemma grows_allocateBtreePage nearby eMode : grows (allocateBtreePage nearby eMode).
Proof. unfold allocateBtreePage, allocateAtEnd, nextPage, btreePagecount. grows. Qed.

Lemma wp_grows {A} (m : DM A) Q E db :
  grows m -> wp m Q E db ->
  wp m (fun a db' => Q a db' /\ later db db') (fun rc db' => E rc db' /\ later db db') db.
Proof. intros Hg. specialize (Hg db). unfold wp. by destruct (m db) as [[[a|rc] db']|]. Qed.

(** ** The invariant *)

Section balance.
Context (s : Start) (Hbt : bt_ok (s_bt s)).

Let Hu : 480 <= usableSize (s_bt s) <= pageSize (s_bt s).
Proof. apply Hbt. Qed.

Lemma ordinary_mapped p : autoVacuum (s_bt s) = true -> ordinary (s_bt s) p -> mapped (s_bt s) p.
Proof. intros Ha [H1 H2 H3]. split; auto. Qed.

(** The map page of a page is another page, before it. *)
Lemma map_before p :
  autoVacuum (s_bt s) = true -> ordinary (s_bt s) p ->
  let m := ptrmapPageno (s_bt s) p in 2 <= m < p /\ PTRMAP_ISPAGE (s_bt s) m = true /\ ~ ordinary (s_bt s) m.
Proof.
  intros Ha Ho m. destruct (mapped_place _ _ Hbt (ordinary_mapped p Ha Ho)) as (H1 & _). fold m in H1.
  assert (PTRMAP_ISPAGE (s_bt s) m = true) as Hi by (destruct Ho; apply ptrmapPageno_map; [done|lia|fold m; lia]).
  split_and!; [lia|lia|done|]. intros [_ _ H3]. rewrite H3 in Hi; done.
Qed.

Lemma balanced_searchable v ts mine nearby eMode :
  balanced s 0 v ts mine -> request (s_bt s) (freePages ts) nearby eMode -> searchable s v ts nearby eMode.
Proof.
  intros [B1 B3 B4 B5] [Hn [->|[(-> & Hav & Hmp)|Hle]]]; [by left| |by right; right].
  right; left. split; [done|]. intros Hle. split; [done|].
  assert (ordinary (s_bt s) nearby) as Ho by (destruct Hmp; by split).
  destruct (B5 nearby Hav) as (H1 & H2 & _); [by apply B3|destruct Ho; lia|done].
Qed.

Lemma mine_page x v ts mine p bs :
  balanced s x v ts mine -> (p, bs) ∈ mine ->
  ordinary (s_bt s) p /\ p <= vsize v /\ (p ∉ freePages ts).
Proof.
  intros [B1 [P1 P2] B4 B5] Hin. assert (p ∈ fst <$> mine) as Hp by (apply list_elem_of_fmap; by exists (p, bs)).
  destruct (proj1 (P2 p)) as [Ho Hs]; [apply elem_of_app; by right|]. split_and!; [done|done|].
  apply NoDup_app in P1 as (_ & P1 & _). intros Hf. by apply (P1 p).
Qed.

Lemma balanced_perm x v ts mine mine' : mine ≡ₚ mine' -> balanced s x v ts mine -> balanced s x v ts mine'.
Proof.
  intros Hp [B1 [P1 P2] B4 B5]. split; [done| | |].
  - split; [by rewrite <- Hp|]. intros p. by rewrite <- Hp.
  - intros p bs. rewrite <- Hp. apply B4.
  - intros p. rewrite <- Hp. apply B5.
Qed.

Lemma balanced_head x v ts mine p b :
  balanced s x v ts ((p, b) :: mine) -> (p ∉ fst <$> mine) /\ bytes v p = b.
Proof.
  intros [B1 [P1 _] B4 B5]. apply NoDup_app in P1 as (_ & _ & P1). apply NoDup_cons in P1 as [P1 _].
  split; [done|]. apply B4. by left.
Qed.

(** A change of references, and of what is writeable. *)
Lemma balanced_frame x v v' ts mine :
  balanced s x v ts mine -> (forall q, vpage v' q = vpage v q) -> vsize v' = vsize v ->
  (forall q, vhas v' q = vhas v q) -> vrefs v' 1 <> 0%nat -> balanced s x v' ts mine.
Proof.
  intros [B1 B3 B4 B5] Hp Hs Hh Hr. split; [|by rewrite Hs| |].
  - eapply freelist_frame; [exact B1|..]; try done; intros; by rewrite Hp.
  - intros p bs. rewrite Hp. apply B4.
  - intros p. rewrite (ptrmapEntry_same _ v v'); [apply B5|]. by rewrite Hp.
Qed.

Lemma balanced_refs x v ts mine p n :
  balanced s x v ts mine -> (p = 1 -> n <> 0%nat) -> balanced s x (putRefs p n v) ts mine.
Proof.
  intros Hb Hn. eapply balanced_frame; [exact Hb|done..|]. cbn. unfold insert, fn_insert.
  case_decide; [auto|apply Hb].
Qed.

(** Entries are not in ordinary pages. *)
Lemma entry_put v p d q :
  autoVacuum (s_bt s) = true -> ordinary (s_bt s) p -> ordinary (s_bt s) q ->
  ptrmapEntry (s_bt s) (putData p d v) q = ptrmapEntry (s_bt s) v q.
Proof.
  intros Hav Hp Hq. apply ptrmapEntry_same. cbn. rewrite fn_lookup_insert_ne; [done|].
  intros Heq. destruct (map_before q Hav Hq) as (_ & _ & Hm). by rewrite <- Heq in Hm.
Qed.

Lemma balanced_put x v ts mine p b b' :
  balanced s x v ts ((p, b) :: mine) -> balanced s x (putData p b' v) ts ((p, b') :: mine).
Proof.
  intros Hb. pose proof Hb as [B1 B3 B4 B5]. destruct (balanced_head _ _ _ _ _ _ Hb) as [Hnm Hpb].
  destruct (mine_page _ _ _ _ p b Hb ltac:(by left)) as (Ho & Hps & Hnf).
  split; [|done| |].
  - eapply freelist_frame; [exact B1|..]; try done; cbn.
    + intros q Hq. rewrite fn_lookup_insert_ne; [done|]. intros <-. destruct Ho. destruct Hq; [lia|done].
    + intros q _. unfold insert, fn_insert. by case_decide; [subst|].
    + apply B1.
  - intros q c [[= -> ->]|Hq]%elem_of_cons; [cbn; by rewrite fn_lookup_insert|]. cbn.
    rewrite fn_lookup_insert_ne; [apply B4; by right|]. intros <-. apply Hnm, list_elem_of_fmap. by exists (p, c).
  - intros q Hav Hq. rewrite entry_put; [by apply B5|done|done|]. by apply B3.
Qed.

(** *** Allocation *)

Lemma allocated_partition v ts mine p v1 ts' :
  balanced s 0 v ts mine -> 1 <= vsize v < 2 ^ 32 - 8 -> allocated s v ts p v1 ts' ->
  partition (s_bt s) (vsize v1) (freePages ts') (p :: (fst <$> mine)) /\ ordinary (s_bt s) p /\
  vsize v <= vsize v1 <= vsize v + 4 /\ (p ∉ fst <$> mine) /\ ((p ∈ freePages ts) \/ vsize v < p).
Proof.
  intros [B1 [P1 P2] B4 B5] Hsz [A1 A2 A3 A4 A5 A6 A7 A8].
  destruct A2 as [[Hperm Hs]|(-> & -> & -> & Hs)].
  - assert (p ∈ freePages ts) as Hp by (rewrite Hperm; by left).
    split_and!; [|by apply B1|lia|lia| |by left].
    + split.
      * rewrite <- Permutation_middle. change (p :: freePages ts' ++ (fst <$> mine)) with ((p :: freePages ts') ++ (fst <$> mine)).
        by rewrite <- Hperm.
      * intros q. rewrite Hs, <- P2. rewrite Hperm, !elem_of_app, !elem_of_cons. tauto.
    + apply NoDup_app in P1 as (_ & P1 & _). by apply P1.
  - destruct (endPage_bounds (s_bt s) (vsize v) Hbt Hsz) as [He Ho]. cbn in P1, P2. rewrite Hs.
    assert (endPage (s_bt s) (vsize v) ∉ fst <$> mine) as Hn.
    { intros Hin%P2. lia. }
    split_and!; [|done|lia|lia|done|right; lia]. split; cbn; [by apply NoDup_cons|].
    intros q. rewrite elem_of_cons, P2. split.
    + intros [->|[? ?]]; [done|]. split; [done|lia].
    + intros [Hq Hle]. destruct (decide (q <= vsize v)); [by right|left].
      destruct (decide (q = endPage (s_bt s) (vsize v))); [done|].
      exfalso. apply (endPage_first (s_bt s) (vsize v) q); [lia|done].
Qed.

Lemma allocated_entry v ts p v1 ts' q :
  freelist s v ts -> allocated s v ts p v1 ts' -> autoVacuum (s_bt s) = true -> ordinary (s_bt s) q -> q <= vsize v ->
  ptrmapEntry (s_bt s) v1 q = ptrmapEntry (s_bt s) v q.
Proof.
  intros B1 Ha Hav Hq Hqs. destruct (map_before q Hav Hq) as (Hm1 & Hm2 & Hm3). apply ptrmapEntry_same.
  rewrite (at_page _ _ _ _ _ _ Ha); [done|lia| |lia]. intros Hf. apply Hm3. by apply B1.
Qed.

Lemma balanced_allocated v ts mine p v1 ts' :
  balanced s 0 v ts mine -> 1 <= vsize v < 2 ^ 32 - 8 -> allocated s v ts p v1 ts' ->
  balanced s p v1 ts' ((p, bytes v1 p) :: mine).
Proof.
  intros Hb Hsz Ha. destruct (allocated_partition v ts mine p v1 ts' Hb Hsz Ha) as (Hpt & Ho & Hs1 & Hnm & Hnew).
  pose proof Ha as [A1 A2 A3 A4 A5 A6 A7 A8]. split; [done|done| |].
  - intros q b [[= -> ->]|Hin]%elem_of_cons; [done|]. destruct (mine_page _ _ _ _ _ _ Hb Hin) as (Hoq & Hsq & Hfq).
    rewrite A3; [by eapply ba_bytes|destruct Hoq; lia|done|done].
  - intros q Hav Hin Hqp. assert (ordinary (s_bt s) q) as Hoq by (by apply Hpt).
    assert (q ∈ freePages ts ++ (fst <$> mine)) as Hin0.
    { destruct A2 as [[Hperm _]|(-> & -> & _)].
      - rewrite Hperm. cbn in Hin |- *. rewrite elem_of_app, elem_of_cons in Hin. rewrite elem_of_cons, elem_of_app. tauto.
      - cbn in Hin |- *. apply elem_of_cons in Hin as [?|?]; done. }
    rewrite (allocated_entry v ts p v1 ts' q); [|apply Hb|done|done|done|by apply (ba_pages _ _ _ _ _ Hb)].
    destruct (ba_map _ _ _ _ _ Hb q Hav Hin0) as [H1 H2]; [destruct Hoq; lia|]. split; [done|]. rewrite H2.
    destruct A2 as [[Hperm _]|(-> & -> & _)]; [|done]. rewrite Hperm, elem_of_cons. tauto.
Qed.

(** The page [p] was allocated; nothing is known of its entry. *)
Record acquired (v : View) (ts mine : list (Z * list Z)) (p : Z) (v' : View) (ts' : list (Z * list Z)) : Prop := {
  aq_balanced : balanced s p v' ts' ((p, bytes v' p) :: mine);
  aq_new : (p ∈ freePages ts) \/ vsize v < p;
  aq_free q : q ∈ freePages ts' -> q ∈ freePages ts;
  aq_refs : held v [p] v';
  aq_write : {[p]} ∪ vwrite v ⊆ vwrite v';
  aq_init : isInit (vpage v' p) = false;
  aq_size : vsize v <= vsize v' <= vsize v + 4;
  aq_entry q : autoVacuum (s_bt s) = true -> ordinary (s_bt s) q -> q <= vsize v ->
    ptrmapEntry (s_bt s) v' q = ptrmapEntry (s_bt s) v q
}.

Lemma db_allocate v ts mine d nearby eMode :
  sees s v d -> balanced s 0 v ts mine -> idle v ts -> request (s_bt s) (freePages ts) nearby eMode ->
  1 <= vsize v < 2 ^ 32 - 8 ->
  wp (allocateBtreePage nearby eMode)
    (fun p d' => exists v' ts', sees s v' d' /\ acquired v ts mine p v' ts') (failed s v) d.
Proof.
  intros S0 Hb Hidle Hreq Hsz. pose proof (ba_list _ _ _ _ _ Hb) as B1.
  eapply db_mono; [apply wp_grows; [apply grows_allocateBtreePage|]| |].
  - apply (db_allocateBtreePage s Hbt v ts B1); [intros; apply Hidle; auto..|done| |apply Hreq|done].
    by apply (balanced_searchable _ _ mine).
  - intros p d1 [(v1 & ts' & S1 & Ha & _) [Hw _]]. exists v1, ts'. split; [done|].
    destruct (allocated_partition v ts mine p v1 ts' Hb Hsz Ha) as (Hpt & Ho & Hs1 & Hnm & Hnew).
    split; [by apply (balanced_allocated v ts)|done| |apply (at_refs _ _ _ _ _ _ Ha)| |apply (at_init _ _ _ _ _ _ Ha)|done|].
    + intros q Hq. destruct (at_which _ _ _ _ _ _ Ha) as [[-> _]|(_ & -> & _)]; [by right|by apply not_elem_of_nil in Hq].
    + rewrite (se_write _ _ _ S0), (se_write _ _ _ S1) in Hw. pose proof (at_write _ _ _ _ _ _ Ha) as Hp.
      apply union_subseteq. split; [by apply singleton_subseteq_l|done].
    + intros q. by apply (allocated_entry v ts p v1 ts').
  - intros rc d1 [Hf _]. done.
Qed.

Lemma acquired_idle v ts mine p v' ts' : idle v ts -> acquired v ts mine p v' ts' -> idle v' ts'.
Proof.
  intros Hi Ha q Hq. destruct (mine_page _ _ _ _ p _ (aq_balanced _ _ _ _ _ _ Ha) ltac:(by left)) as (_ & Hps & Hnf).
  pose proof (aq_size _ _ _ _ _ _ Ha). rewrite (aq_refs _ _ _ _ _ _ Ha q), decide_False.
  - apply Hi. destruct Hq as [Hq|Hq]; [left; by apply (aq_free _ _ _ _ _ _ Ha)|right; lia].
  - intros ->%list_elem_of_singleton. destruct Hq; [done|lia].
Qed.

(** *** The entry of a page in use *)

(** The entries of the pages of the pointer map after [key] has got one. *)
Definition entered (v : View) (key eType parent : Z) (v' : View) : Prop :=
  autoVacuum (s_bt s) = true -> forall q, ordinary (s_bt s) q ->
  ptrmapEntry (s_bt s) v' q = if decide (q = key) then (eType, parent) else ptrmapEntry (s_bt s) v q.

Lemma withEntry_other v key eType parent q :
  autoVacuum (s_bt s) = true -> ordinary (s_bt s) key -> q = 1 \/ ordinary (s_bt s) q ->
  vpage (withEntry (s_bt s) key eType parent v) q = vpage v q.
Proof.
  intros Hav Hk Hq. destruct (map_before key Hav Hk) as (H1 & _ & H3). cbn. rewrite fn_lookup_insert_ne; [done|].
  intros Heq. destruct Hq as [Hq|Hq]; [lia|]. by rewrite Heq in H3.
Qed.

Lemma balanced_entry v ts mine p b eType parent w :
  balanced s p v ts ((p, b) :: mine) -> autoVacuum (s_bt s) = true -> (forall x, isPage (s_bt s) (bytes v x)) ->
  1 <= eType <= 5 -> eType <> PTRMAP_FREEPAGE -> 0 <= parent < 2 ^ 32 ->
  balanced s 0 (putWrite w (withEntry (s_bt s) p eType parent v)) ts ((p, b) :: mine) /\
  entered v p eType parent (putWrite w (withEntry (s_bt s) p eType parent v)).
Proof.
  intros Hb Hav Hpg He1 He2 Hpa. pose proof Hb as [B1 B3 B4 B5].
  destruct (mine_page _ _ _ _ p b Hb ltac:(by left)) as (Ho & Hps & Hnf).
  pose proof (withEntry_other v p eType parent) as Hother. set (v' := putWrite w _).
  assert (entered v p eType parent v') as Hent.
  { intros _ q Hq. apply ptrmapEntry_withEntry; try done; [by apply ordinary_mapped..|split; lia]. }
  split; [|done]. split; [|done| |].
  - eapply freelist_frame; [exact B1|..]; try done.
    + intros q Hq. cbn. rewrite <- (Hother q Hav Ho); [done|]. destruct Hq as [?|Hq]; [by left|right; by apply B1].
    + intros q _. cbn. unfold insert, fn_insert. by case_decide; [subst|].
    + apply B1.
  - intros q c Hq. destruct (mine_page _ _ _ _ q c Hb Hq) as (Hoq & _ & _). rewrite <- (B4 q c Hq).
    cbn. rewrite <- (Hother q Hav Ho); [done|by right].
  - intros q _ Hq _. rewrite Hent by (try done; by apply B3). case_decide as Hqp.
    + rewrite Hqp. cbn. split; [done|]. tauto.
    + by apply B5.
Qed.

Lemma db_entry v ts mine d p b eType parent (Q : unit -> Db -> Prop) (E : Z -> Db -> Prop) :
  sees s v d -> balanced s p v ts ((p, b) :: mine) -> autoVacuum (s_bt s) = true ->
  1 <= eType <= 5 -> eType <> PTRMAP_FREEPAGE -> 0 <= parent < 2 ^ 32 ->
  (forall v' d', sees s v' d' -> balanced s 0 v' ts ((p, b) :: mine) -> entered v p eType parent v' ->
     vsize v' = vsize v -> (forall q, vrefs v' q = vrefs v q) -> vwrite v ⊆ vwrite v' -> Q () d') ->
  (forall rc d', sees s v d' -> fault s rc -> E rc d') ->
  wp (ptrmapPut p eType parent) Q E d.
Proof.
  intros S0 Hb Hav He1 He2 Hpa HQ HE. destruct (mine_page _ _ _ _ p b Hb ltac:(by left)) as (Ho & Hps & Hnf).
  destruct (map_before p Hav Ho) as (_ & Hm & _).
  eapply (db_ptrmapPut s Hbt v d); [done|by apply ordinary_mapped|split; lia|done|by apply Hb| |auto].
  intros w d' Hw S1. destruct (balanced_entry v ts mine p b eType parent w) as [H1 H2]; try done.
  { apply (se_bytes _ _ _ S0). }
  by eapply HQ.
Qed.

(** *** Release *)

Lemma marked_entry v p q :
  autoVacuum (s_bt s) = true -> mapped (s_bt s) p -> mapped (s_bt s) q -> (forall x, isPage (s_bt s) (bytes v x)) ->
  ptrmapEntry (s_bt s) (marked s v p) q =
  if decide (q = p) then (PTRMAP_FREEPAGE, 0) else ptrmapEntry (s_bt s) v q.
Proof.
  intros Hav Hp Hq Hv. unfold marked. rewrite Hav. apply ptrmapEntry_withEntry; try done; lia.
Qed.

Lemma balanced_free v ts mine p b v' ts' :
  balanced s 0 v ts ((p, b) :: mine) -> (forall x, isPage (s_bt s) (bytes v x)) ->
  released s v ts p v' ts' -> balanced s 0 v' ts' mine /\ entered v p PTRMAP_FREEPAGE 0 v'.
Proof.
  intros Hb Hpg [R1 R2 R3 R4 R5 R6]. pose proof Hb as [B1 [P1 P2] B4 B5].
  destruct (mine_page _ _ _ _ p b Hb ltac:(by left)) as (Ho & Hsz & Hnf).
  destruct (balanced_head _ _ _ _ _ _ Hb) as [Hnm _].
  assert (freePages ts' ++ (fst <$> mine) ≡ₚ freePages ts ++ (fst <$> (p, b) :: mine)) as Hall.
  { rewrite R2. cbn. by rewrite <- Permutation_middle. }
  assert (entered v p PTRMAP_FREEPAGE 0 v') as Hent.
  { intros Hav q Hoq. rewrite <- marked_entry by (try done; by apply ordinary_mapped).
    destruct (map_before q Hav Hoq) as (Hm1 & _ & Hm3). apply ptrmapEntry_same.
    rewrite R3; [done|lia|intros Heq; apply Hm3; by rewrite Heq|]. intros Hf. apply Hm3. by apply B1. }
  split; [|done]. split; [done| | |].
  - split; [by rewrite Hall|]. intros q. by rewrite Hall, R5.
  - intros q c Hq. destruct (mine_page _ _ _ _ q c Hb ltac:(by right)) as (Hoq & Hsq & Hfq).
    assert (q <> p) as Hqp by (intros ->; apply Hnm, list_elem_of_fmap; by exists (p, c)).
    rewrite R3; [|destruct Hoq; lia|done|done]. rewrite (marked_same s v p); [apply B4; by right|].
    intros Hav ->. by destruct (map_before p Hav Ho) as (_ & _ & ?).
  - intros q Hav Hq _. rewrite Hall in Hq. rewrite Hent by (try done; by apply P2). case_decide as Hqp.
    + split; [done|]. rewrite R2, Hqp, elem_of_cons. tauto.
    + destruct (B5 q Hav Hq) as [H1 H2]; [apply P2 in Hq as [[? _ _] _]; lia|]. split; [done|]. rewrite H2, R2, elem_of_cons. tauto.
Qed.

Lemma db_free v ts mine d p b pMemPage :
  sees s v d -> balanced s 0 v ts ((p, b) :: mine) -> pMemPage = 0 \/ pMemPage = p ->
  wp (freePage2 pMemPage p)
    (fun _ d' => exists v' ts', sees s v' d' /\ balanced s 0 v' ts' mine /\ entered v p PTRMAP_FREEPAGE 0 v' /\
       freePages ts' ≡ₚ p :: freePages ts /\ vsize v' = vsize v /\ forall q, vrefs v' q = vrefs v q)
    (fun rc d' => faulty s rc /\ exists v', sees s v' d' /\ forall q, vrefs v' q = vrefs v q) d.
Proof.
  intros S0 Hb Hm. pose proof (se_bytes _ _ _ S0) as Hpg.
  destruct (mine_page _ _ _ _ p b Hb ltac:(by left)) as (Ho & Hps & Hnf).
  eapply db_mono; [by apply (db_freePage2 s Hbt v ts p (ba_list _ _ _ _ _ Hb) Hpg Ho Hps Hnf (proj2 (se_bound _ _ _ S0)) d pMemPage S0)| |done].
  intros _ d' (v' & ts' & S1 & R & Hr). exists v', ts'. destruct (balanced_free v ts mine p b v' ts' Hb Hpg R) as [H1 H2].
  split_and!; try done; apply R.
Qed.

(** *** Change of a page *)

Lemma db_put v ts mine d x p b a bs (Q : unit -> Db -> Prop) E :
  sees s v d -> balanced s x v ts ((p, b) :: mine) -> vrefs v p <> 0%nat -> p ∈ vwrite v -> Forall is_byte bs ->
  0 <= a -> a + Z.of_nat (length bs) <= pageSize (s_bt s) ->
  (forall d', sees s (putData p (store b a bs) v) d' ->
     balanced s x (putData p (store b a bs) v) ts ((p, store b a bs) :: mine) -> Q () d') ->
  wp (on p (memwrite a bs)) Q E d.
Proof.
  intros S0 Hb Hr Hw Hbs Ha Hl HQ. destruct (balanced_head _ _ _ _ _ _ Hb) as [_ Hpb].
  apply (db_write s v d); try done. rewrite Hpb. intros d' S1. apply HQ; [done|]. by apply balanced_put with b.
Qed.
End balance.
