(* ===== verification/BtPages.v ===== *)
(** * Histories of allocations and releases

    A client of the free list allocates pages, fills them, and frees pages
    that it has.  Whatever it does and whatever the pager answers, every page
    is either free or the client's, never both; the client's pages keep their
    bytes; and a rollback restores every page that was in use when the
    transaction began. *)

From stdpp Require Import base numbers option gmap sets functions list.
From S2P Require Import Prelude Util Varint Bitvec Btree BtVarint BtCell BtMem BtPage BtPager BtView BtPtrmap BtFreelist BtTrunk BtTake BtAllocate BtRelease BtBalance.
#[local] Open Scope Z_scope.

(** ** A client *)

(** Allocation, with the entry of the pointer map and the bytes of the new
    page; release and change of the [i]-th page of the client. *)
Inductive pageOp :=
| OpAlloc (nearby eMode eType parent : Z) (bs : list Z)
| OpFree (i : nat) (fetch : bool)
| OpWrite (i : nat) (bs : list Z).

Definition thenRelease (p : Z) (m : DM unit) : DM unit :=
  rc ← code m; releasePage p;; return_code rc.

Definition allocOp (nearby eMode eType parent : Z) (bs : list Z) : DM Z :=
  bt ← look shared;
  p ← allocateBtreePage nearby eMode;
  thenRelease p ((if autoVacuum bt then ptrmapPut p eType parent else mret ());; on p (memwrite 0 bs));;
  mret p.

Definition freeOp (p : Z) (fetch : bool) : DM unit :=
  if fetch then btreeGetPage p false;; thenRelease p (freePage p) else freePage2 0 p.

Definition writeOp (p : Z) (bs : list Z) : DM unit :=
  btreeGetPage p false;; thenRelease p (sqlite3PagerWrite p;; on p (memwrite 0 bs)).

(** [mine]: the client's pages with their bytes. *)
Fixpoint client (ops : list pageOp) (mine : list (Z * list Z)) : DM (list (Z * list Z)) :=
  match ops with
  | [] => mret mine
  | OpAlloc nearby eMode eType parent bs :: ops =>
      p ← allocOp nearby eMode eType parent bs; client ops ((p, bs) :: mine)
  | OpFree i fetch :: ops =>
      match mine !! i with
      | Some (p, _) => freeOp p fetch;; client ops (delete i mine)
      | None => client ops mine
      end
  | OpWrite i bs :: ops =>
      match mine !! i with
      | Some (p, _) => writeOp p bs;; client ops (<[i := (p, bs)]> mine)
      | None => client ops mine
      end
  end.

(** A page is asked for by its number only in an auto-vacuum database. *)
Definition op_ok (bt : BtShared) (op : pageOp) : Prop :=
  match op with
  | OpAlloc nearby eMode eType parent bs =>
      0 <= nearby < 2 ^ 32 /\ (eMode = BTALLOC_ANY \/
        (eMode = BTALLOC_EXACT /\ autoVacuum bt = true /\ mapped bt nearby)) /\
      1 <= eType <= 5 /\ eType <> PTRMAP_FREEPAGE /\ 0 <= parent < 2 ^ 32 /\ isPage bt bs
  | OpFree _ _ => True
  | OpWrite _ bs => isPage bt bs
  end.

(** ** The operations *)

Section history.
Context (s : Start) (Hbt : bt_ok (s_bt s)).

Let Hu : 480 <= usableSize (s_bt s) <= pageSize (s_bt s).
Proof. apply Hbt. Qed.

Definition broken (rc : Z) (d : Db) : Prop := faulty s rc /\ exists v, sees s v d.

(** Only page 1 is referenced. *)
Definition alone (v : View) : Prop := forall p, p <> 1 -> vrefs v p = 0%nat.

Lemma alone_idle x v ts mine : balanced s x v ts mine -> alone v -> 1 <= vsize v -> idle v ts.
Proof.
  intros Hb Ha Hs p [Hp|Hp]; apply Ha; [|lia]. destruct (fl_pages _ _ _ (ba_list _ _ _ _ _ Hb) p Hp) as [[? _ _] _]. lia.
Qed.

Lemma db_thenRelease p (m : DM unit) v d (Q : unit -> Db -> Prop) (E : Z -> Db -> Prop) :
  p <> 0 -> sees s v d ->
  wp m (fun _ d' => exists v', sees s v' d' /\ vrefs v' p = 1%nat /\
         (forall d'', sees s (putRefs p 0%nat v') d'' -> Q () d''))
       (fun rc d' => rc <> SQLITE_OK /\ exists v', sees s v' d' /\ vrefs v' p = 1%nat /\
         (forall d'', sees s (putRefs p 0%nat v') d'' -> E rc d'')) d ->
  wp (thenRelease p m) Q E d.
Proof.
  intros Hp0 S1 Hm. unfold thenRelease. apply db_bind, db_code. eapply db_mono; [exact Hm| |].
  - intros _ d1 (v' & S2 & Hr & HQ). apply db_bind. unfold releasePage. destruct (Z.eqb_spec p 0); [done|].
    apply (db_Unref s v' _ p 0); [done|done|]. intros d2 S3. apply db_return_code; [|done]. auto.
  - intros rc d1 (Hne & v' & S2 & Hr & HE). apply db_bind. unfold releasePage. destruct (Z.eqb_spec p 0); [done|].
    apply (db_Unref s v' _ p 0); [done|done|]. intros d2 S3. apply db_return_code; [done|]. auto.
Qed.

(** The entry of the new page [p], and its bytes. *)
Lemma db_fill v ts mine d p b eType parent bs (Q : unit -> Db -> Prop) (E : Z -> Db -> Prop) :
  sees s v d -> balanced s p v ts ((p, b) :: mine) -> vrefs v p <> 0%nat -> p ∈ vwrite v -> isPage (s_bt s) bs ->
  1 <= eType <= 5 -> eType <> PTRMAP_FREEPAGE -> 0 <= parent < 2 ^ 32 ->
  (forall v' d', sees s v' d' -> balanced s 0 v' ts ((p, bs) :: mine) ->
     vsize v' = vsize v -> (forall q, vrefs v' q = vrefs v q) -> Q () d') ->
  (forall rc d', sees s v d' -> fault s rc -> E rc d') ->
  wp ((if autoVacuum (s_bt s) then ptrmapPut p eType parent else mret ());; on p (memwrite 0 bs)) Q E d.
Proof.
  intros S0 Hb Hr Hw [Hlb Hbb] He1 He2 Hpa HQ HE. apply db_bind.
  assert (forall v' d', sees s v' d' -> balanced s 0 v' ts ((p, b) :: mine) -> vsize v' = vsize v ->
    (forall q, vrefs v' q = vrefs v q) -> vwrite v ⊆ vwrite v' -> wp (on p (memwrite 0 bs)) Q E d') as Hput.
  { intros v' d' S1 B1 Hs1 Hr1 Hw1. destruct (balanced_head _ _ _ _ _ _ _ B1) as [_ Hpb].
    apply (db_put s Hbt v' ts mine d' 0 p b); [done|done|by rewrite Hr1|by apply Hw1|done|lia|lia|].
    pose proof (se_bytes _ _ _ S1 p) as [Hl _]. rewrite store_all by (rewrite <- Hpb; lia). intros d2 S2 B2. by eapply HQ. }
  destruct (autoVacuum (s_bt s)) eqn:Hav.
  - apply (db_entry s Hbt v ts mine d p b); auto. intros v' d' S1 B1 _ Hs1 Hr1 Hw1. by apply (Hput v').
  - apply db_ret, (Hput v); try done. destruct Hb as [B1 B3 B4 B5]. split; [done..|]. intros q Hav'. congruence.
Qed.

Lemma db_allocOp v ts mine d nearby eMode eType parent bs :
  sees s v d -> balanced s 0 v ts mine -> alone v -> op_ok (s_bt s) (OpAlloc nearby eMode eType parent bs) ->
  1 <= vsize v < 2 ^ 32 - 8 ->
  wp (allocOp nearby eMode eType parent bs)
    (fun p d' => exists v' ts', sees s v' d' /\ balanced s 0 v' ts' ((p, bs) :: mine) /\ alone v' /\
       vsize v <= vsize v' <= vsize v + 4) broken d.
Proof.
  intros S0 Hb Hal (Hn & Hmode & He1 & He2 & Hpa & Hbs) Hsz.
  unfold allocOp. apply db_bind, db_look. rewrite (se_bt _ _ _ S0). apply db_bind.
  eapply db_mono; [apply (db_allocate s Hbt v ts mine d nearby eMode S0 Hb)| |].
  { apply (alone_idle 0 v ts mine Hb Hal). lia. } { split; [done|]. destruct Hmode; auto. } { done. }
  2: { intros rc d1 (Hf & v' & S1 & _). split; [by left|]. by exists v'. }
  intros p d1 (v1 & ts' & S1 & [A1 A2 _ A3 A4 A5 A6 A7]).
  destruct (mine_page s _ _ _ _ p _ A1 ltac:(by left)) as (Ho & _ & _). assert (p <> 0 /\ p <> 1) as [Hp0 Hp1] by (destruct Ho; lia).
  assert (vrefs v1 p = 1%nat) as Hrp by (rewrite (A3 p), decide_True; [done|by left]).
  assert (forall w, (forall q, vrefs w q = vrefs v1 q) -> alone (putRefs p 0%nat w)) as Hal'.
  { intros w Hw q Hq1. cbn. unfold insert, fn_insert. case_decide as Hqp; [done|].
    rewrite Hw, (A3 q), decide_False; [by apply Hal|]. intros ->%list_elem_of_singleton. done. }
  apply db_bind, (db_thenRelease p _ v1); [done|done|].
  apply (db_fill v1 ts' mine d1 p _ eType parent bs _ _ S1 A1); try done.
  { by rewrite Hrp. } { apply A4, elem_of_union_l, elem_of_singleton; done. }
  - intros v4 d2 S2 B2 Hs4 Hr4. exists v4. split_and!; [done|by rewrite Hr4|].
    intros d3 S3. apply db_ret. exists (putRefs p 0%nat v4), ts'. split_and!; [done| |by apply Hal'|cbn; lia|cbn; lia].
    by apply balanced_refs.
  - intros rc d2 S2 Hf. split; [by destruct Hf|]. exists v1. split_and!; [done|done|].
    intros d3 S3. split; [by left|]. by eexists.
Qed.

Lemma db_freeOp v ts mine d p b fetch :
  sees s v d -> balanced s 0 v ts ((p, b) :: mine) -> alone v ->
  wp (freeOp p fetch)
    (fun _ d' => exists v' ts', sees s v' d' /\ balanced s 0 v' ts' mine /\ alone v' /\ vsize v' = vsize v) broken d.
Proof.
  intros S0 Hb Hal. destruct (mine_page s _ _ _ _ p b Hb ltac:(by left)) as (Ho & Hps & Hnf).
  assert (p <> 0 /\ p <> 1 /\ p <> PENDING_BYTE_PAGE (s_bt s)) as (Hp0 & Hp1 & Hpp) by (destruct Ho; repeat split; (lia || done)).
  unfold freeOp. destruct fetch.
  - apply db_bind, (db_btreeGetPage s v); [done|done|done|done|lia| |].
    2: { intros d1 rc S1 Hf. split; [by left|]. by exists v. }
    rewrite (Hal p Hp1). intros d1 S1. eapply (db_thenRelease p); [done|done|].
    eapply db_mono; [apply (db_free s Hbt _ ts mine d1 p b p S1); [by apply balanced_refs|by right]| |].
    + intros _ d2 (v2 & ts2 & S2 & B2 & _ & _ & Hs2 & Hr). exists v2. split_and!; [done|rewrite Hr; cbn; by rewrite fn_lookup_insert|].
      intros d3 S3. exists (putRefs p 0%nat v2), ts2. split_and!; [done|by apply balanced_refs| |done].
      intros q Hq. cbn. unfold insert, fn_insert. case_decide; [done|]. rewrite Hr. cbn.
      rewrite fn_lookup_insert_ne by done. by apply Hal.
    + intros rc d2 (Hf & v2 & S2 & Hr). split; [by apply (faulty_not_ok s)|]. exists v2.
      split_and!; [done|rewrite Hr; cbn; by rewrite fn_lookup_insert|]. intros d3 S3. split; [done|]. by eexists.
  - eapply db_mono; [apply (db_free s Hbt v ts mine d p b 0 S0 Hb); by left| |].
    + intros _ d2 (v2 & ts2 & S2 & B2 & _ & _ & Hs2 & Hr). exists v2, ts2. split_and!; [done|done| |done].
      intros q Hq. rewrite Hr. by apply Hal.
    + intros rc d2 (Hf & v2 & S2 & _). split; [done|]. by exists v2.
Qed.

Lemma db_writeOp v ts mine d p b bs :
  sees s v d -> balanced s 0 v ts ((p, b) :: mine) -> alone v -> isPage (s_bt s) bs ->
  wp (writeOp p bs)
    (fun _ d' => exists v', sees s v' d' /\ balanced s 0 v' ts ((p, bs) :: mine) /\ alone v' /\ vsize v' = vsize v) broken d.
Proof.
  intros S0 Hb Hal [Hlb Hbb]. destruct (mine_page s _ _ _ _ p b Hb ltac:(by left)) as (Ho & Hps & Hnf).
  assert (p <> 0 /\ p <> 1 /\ p <> PENDING_BYTE_PAGE (s_bt s)) as (Hp0 & Hp1 & Hpp) by (destruct Ho; repeat split; (lia || done)).
  pose proof (se_bytes _ _ _ S0 p) as [Hl _]. destruct (balanced_head _ _ _ _ _ _ _ Hb) as [_ Hpb]. rewrite Hpb in Hl.
  unfold writeOp. apply db_bind, (db_btreeGetPage s v); [done|done|done|done|lia| |].
  2: { intros d1 rc S1 Hf. split; [by left|]. by exists v. }
  rewrite (Hal p Hp1). intros d1 S1. eapply (db_thenRelease p); [done|done|].
  eapply db_bind, (db_PagerWrite s _ d1); [done| |].
  2: { intros d2 rc S2 Hf. split; [by destruct Hf|]. eexists. split_and!; [exact S2|cbn; by rewrite fn_lookup_insert|].
       intros d3 S3. split; [by left|]. by eexists. }
  intros d2 S2. eapply (db_put s Hbt _ ts mine d2 0 p b); [exact S2| |cbn; by rewrite fn_lookup_insert|inw|done|lia|lia|].
  { eapply balanced_frame; [exact Hb|done..|]. cbn. rewrite fn_lookup_insert_ne by done. apply Hb. }
  rewrite store_all by lia. intros d3 S3 B3. eexists. split_and!; [exact S3|cbn; by rewrite fn_lookup_insert|].
  intros d4 S4. eexists. split_and!; [exact S4|by apply balanced_refs| |done].
  intros q Hq. cbn. unfold insert, fn_insert. repeat case_decide; try done. by apply Hal.
Qed.

Lemma insert_perm {A} (l : list A) i x y : l !! i = Some x -> y :: delete i l ≡ₚ <[i := y]> l.
Proof.
  intros Hi. rewrite (delete_Permutation (<[i := y]> l) i y).
  - apply reflexive_eq. f_equal. apply list_eq. intros j. destruct (decide (j < i)%nat).
    + rewrite !list_lookup_delete_lt by done. by rewrite list_lookup_insert_ne by lia.
    + rewrite !list_lookup_delete_ge by lia. by rewrite list_lookup_insert_ne by lia.
  - apply list_lookup_insert_eq. by eapply lookup_lt_Some.
Qed.

Lemma db_client ops v ts mine d :
  sees s v d -> balanced s 0 v ts mine -> alone v -> Forall (op_ok (s_bt s)) ops ->
  1 <= vsize v -> vsize v + 4 * Z.of_nat (length ops) < 2 ^ 32 - 8 ->
  wp (client ops mine)
    (fun mine' d' => exists v' ts', sees s v' d' /\ balanced s 0 v' ts' mine' /\ alone v' /\ 1 <= vsize v' < 2 ^ 32 - 8)
    broken d.
Proof.
  intros S0 Hb Hal Hops. revert v ts mine d S0 Hb Hal.
  induction Hops as [|op ops Hop Hops IH]; intros v ts mine d S0 Hb Hal H1 Hsz.
  { apply db_ret. exists v, ts. split_and!; (done || lia). }
  cbn [length] in Hsz. destruct op as [nearby eMode eType parent bs|i fetch|i bs]; cbn [client].
  - apply db_bind. eapply db_mono; [by apply (db_allocOp v ts mine); [..|lia]| |done].
    intros p d1 (v1 & ts1 & S1 & Hb1 & Hal1 & Hs1). apply (IH v1 ts1); (done || lia).
  - destruct (mine !! i) as [[p b]|] eqn:Hi; [|apply (IH v ts); (done || lia)].
    apply (balanced_perm s _ _ _ _ _ (delete_Permutation _ _ _ Hi)) in Hb.
    apply db_bind. eapply db_mono; [by apply (db_freeOp v ts (delete i mine) d p b)| |done].
    intros _ d1 (v1 & ts1 & S1 & Hb1 & Hal1 & Hs1). apply (IH v1 ts1); (done || lia).
  - destruct (mine !! i) as [[p b]|] eqn:Hi; [|apply (IH v ts); (done || lia)].
    apply (balanced_perm s _ _ _ _ _ (delete_Permutation _ _ _ Hi)) in Hb.
    apply db_bind. eapply db_mono; [by apply (db_writeOp v ts (delete i mine) d p b)| |done].
    intros _ d1 (v1 & S1 & Hb1 & Hal1 & Hs1). apply (IH v1 ts); try (done || lia).
    eapply balanced_perm, Hb1. by eapply insert_perm.
Qed.
End history.

(** ** Databases *)

Definition viewOf (db : Db) : View :=
  mkView (fun p => btreePageFromDbPage p (shared db) (page db p)) (refcount db) (nPage db)
    (fun _ => false) (writeable (pager db)).

(** [ts]: the free pages; [mine]: the pages in use, with their bytes. *)
Record owned (db : Db) (ts mine : list (Z * list Z)) : Prop := {
  ow_chain : segment (shared db) (viewOf db) (get4 (aData (page db 1)) 32) ts 0;
  ow_count : get4 (aData (page db 1)) 36 = Z.of_nat (length (freePages ts));
  ow_pages : partition (shared db) (nPage db) (freePages ts) (fst <$> mine);
  ow_bytes p bs : (p, bs) ∈ mine -> aData (page db p) = bs;
  ow_refs p : p <> 1 -> refcount db p = 0%nat;
  ow_one : refcount db 1 <> 0%nat;
  ow_map p : autoVacuum (shared db) = true -> p ∈ freePages ts ++ (fst <$> mine) ->
    1 <= (ptrmapEntry (shared db) (viewOf db) p).1 <= 5 /\
    ((ptrmapEntry (shared db) (viewOf db) p).1 = PTRMAP_FREEPAGE <-> p ∈ freePages ts);
  ow_init p : autoVacuum (shared db) = true -> PTRMAP_ISPAGE (shared db) p = true -> isInit (page db p) = false
}.

(** The beginning of a transaction. *)
Record fresh (db : Db) (ts mine : list (Z * list Z)) : Prop := {
  fr_bt : bt_ok (shared db);
  fr_size : 1 <= nPage db < 2 ^ 32;
  fr_orig : dbOrigSize (pager db) = nPage db;
  fr_pages p : isPage (shared db) (aData (page db p));
  fr_has : pHasContent db = None;
  fr_journal : journal (pager db) = ∅;
  fr_bits : inJournal (pager db) = ∅;
  fr_write : writeable (pager db) = ∅;
  fr_dropped d : Some d ∈ dropped (pager db) -> isPage (shared db) d;
  fr_owned : owned db ts mine
}.

(** Every page but the leaves of the free list must be restored. *)
Definition startOf (db : Db) (ts : list (Z * list Z)) : Start :=
  mkStart (shared db) (bDoTruncate db) (fun p => 1 <= p <= nPage db /\ p ∉ freeLeaves ts)
    (fun p => aData (page db p)) (faults (pager db)).

Lemma fromDbPage_init pg bt p : isInit (btreePageFromDbPage pg bt p) = isInit p.
Proof. unfold btreePageFromDbPage. by destruct (pg =? pgno p). Qed.

Lemma segment_bytes bt v v' t l u :
  (forall q, bytes v' q = bytes v q) -> segment bt v t l u -> segment bt v' t l u.
Proof. intros H. apply segment_same. auto. Qed.

Lemma fresh_sees db ts mine : fresh db ts mine -> sees (startOf db ts) (viewOf db) db.
Proof.
  intros [F1 F2 F3 F4 F5 F6 F7 F8 F9 F10]. split; try done; cbn.
  - intros p. by rewrite fromDbPage_data.
  - by rewrite F5.
  - lia.
  - intros p [Hp _]. split; [lia|]. right. rewrite F6, F7. cbn. rewrite F8, fromDbPage_data.
    split_and!; [apply not_elem_of_empty|apply lookup_empty|apply not_elem_of_empty|done].
Qed.

Lemma fresh_balanced db ts mine : fresh db ts mine -> balanced (startOf db ts) 0 (viewOf db) ts mine.
Proof.
  intros [F1 F2 F3 F4 F5 F6 F7 F8 F9 [O1 O2 O3 O4 O5 O6 O7 O8]]. pose proof O3 as [P1 P2].
  assert (forall p, p ∈ freePages ts -> ordinary (shared db) p /\ p <= nPage db) as Hfree.
  { intros p Hp. apply P2, elem_of_app. by left. }
  assert (NoDup (freePages ts)) as Hnd by (by apply NoDup_app in P1 as (? & _)).
  split; [|done|intros p bs; cbn; rewrite fromDbPage_data; apply O4|intros p Ha Hp _; by apply O7].
  split; try done; cbn.
  - by rewrite fromDbPage_data.
  - by rewrite fromDbPage_data.
  - cut (Z.of_nat (length (freePages ts)) <= nPage db - 1); [lia|]. apply NoDup_bound; [done| |lia].
    intros p Hp. destruct (Hfree p Hp) as [[? _ _] ?]. lia.
  - by intros p Hp [_ ?].
  - intros p _ ?. lia.
  - intros p Ha Hp. rewrite fromDbPage_init. auto.
Qed.

Lemma balanced_owned s v db ts mine :
  sees s v db -> balanced s 0 v ts mine -> alone v -> owned db ts mine.
Proof.
  intros S0 [B1 B3 B4 B5] Hal. pose proof (se_bt _ _ _ S0) as Hbt.
  assert (forall p, vpage (viewOf db) p = vpage v p) as Hp.
  { intros p. cbn. rewrite Hbt. apply (se_page _ _ _ S0). }
  assert (forall p, aData (page db p) = bytes v p) as Hb.
  { intros p. rewrite <- Hp. cbn. by rewrite fromDbPage_data. }
  assert (forall p, ptrmapEntry (s_bt s) (viewOf db) p = ptrmapEntry (s_bt s) v p) as He.
  { intros p. apply ptrmapEntry_same. by rewrite Hp. }
  split; rewrite ?Hbt, ?Hb, ?(se_size _ _ _ S0); try done.
  - eapply segment_bytes, B1. intros q. by rewrite Hp.
  - apply B1.
  - intros p bs. rewrite Hb. apply B4.
  - intros p. rewrite (se_refs _ _ _ S0). apply Hal.
  - rewrite (se_refs _ _ _ S0). apply B1.
  - intros p Ha Hin. rewrite He. apply B5; [done|done|]. apply B3 in Hin as [[? _ _] _]. lia.
  - intros p Ha Hi. rewrite <- (fl_maps _ _ _ B1 p Ha Hi), <- Hp. cbn. by rewrite fromDbPage_init.
Qed.

Lemma db_history db ts mine ops :
  fresh db ts mine -> Forall (op_ok (shared db)) ops ->
  nPage db + 4 * Z.of_nat (length ops) < 2 ^ 32 - 8 ->
  wp (client ops mine)
    (fun mine' d' => exists v ts', sees (startOf db ts) v d' /\ balanced (startOf db ts) 0 v ts' mine' /\ alone v /\
       1 <= vsize v < 2 ^ 32 - 8) (broken (startOf db ts)) db.
Proof.
  intros F Hops Hsz. apply (db_client (startOf db ts) (fr_bt _ _ _ F) ops (viewOf db) ts);
    [by eapply fresh_sees|by apply fresh_balanced|exact (ow_refs _ _ _ (fr_owned _ _ _ F))|done|apply F|done].
Qed.

(** C4: whatever pages are allocated (any page, or in an auto-vacuum database
    the page of a given number), freed and changed, and whatever the pager
    answers, no page is used without a reference to it or changed without
    being writeable.  As long as neither the pager nor the allocator of memory
    fails, every page is in the list of free pages or in use and never both,
    the list and its count are well-formed, and the pages in use have the
    bytes last written to them; a failure ends the history with its code. *)
Theorem page_allocation_history db ts mine ops :
  fresh db ts mine -> Forall (op_ok (shared db)) ops ->
  nPage db + 4 * Z.of_nat (length ops) < 2 ^ 32 - 8 ->
  match client ops mine db with
  | Some (Ok mine', db') => exists ts', owned db' ts' mine'
  | Some (Err rc, _) => rc <> SQLITE_OK /\ (rc ∈ faults (pager db) \/ rc = SQLITE_NOMEM)
  | None => False
  end.
Proof.
  intros F Hops Hsz. pose proof (db_history db ts mine ops F Hops Hsz) as Hw. unfold wp in Hw.
  destruct (client ops mine db) as [[[mine'|rc] d']|]; [| |done].
  - destruct Hw as (v & ts' & S1 & B & Hal & _). exists ts'. by eapply balanced_owned.
  - destruct Hw as [Hf _]. split; [by eapply faulty_not_ok|]. destruct Hf as [[_ ?]|]; auto.
Qed.

(** C5: after any such history, also one that ends in an error, a rollback
    gives every page that was in use when the transaction began, and every
    trunk page of the list of free pages, the bytes that it had. *)
Theorem rollback_restores_pages db ts mine ops :
  fresh db ts mine -> Forall (op_ok (shared db)) ops ->
  nPage db + 4 * Z.of_nat (length ops) < 2 ^ 32 - 8 ->
  match client ops mine db with
  | Some (_, db') =>
      forall p, 1 <= p <= nPage db -> p ∉ freeLeaves ts -> rolledBack db' p = aData (page db p)
  | None => False
  end.
Proof.
  intros F Hops Hsz. pose proof (db_history db ts mine ops F Hops Hsz) as Hw. unfold wp in Hw.
  assert (forall v d', sees (startOf db ts) v d' ->
    forall p, 1 <= p <= nPage db -> p ∉ freeLeaves ts -> rolledBack d' p = aData (page db p)) as Hr.
  { intros v d' S1 p Hp Hl. unfold rolledBack.
    destruct (se_saved _ _ _ S1 p) as [_ [[_ ->]|(_ & -> & _ & He)]]; [done|done|].
    rewrite <- (se_page _ _ _ S1 p), fromDbPage_data in He. done. }
  destruct (client ops mine db) as [[[mine'|rc] d']|]; [| |done].
  - destruct Hw as (v & ts' & S1 & _). by apply (Hr v).
  - destruct Hw as (_ & v & S1). by apply (Hr v).
Qed.

(** C18: after any such history, an allocation takes a page of the list of
    free pages, and the page after the last one, other than the page of the
    lock bytes and the pages of the pointer map, only when there is none.  The
    page that was asked for is the one allocated, if it is free; with
    BTALLOC_LE the page is not after [nearby].  The page is returned
    writeable, with one reference, and is no longer free. *)
Theorem allocateBtreePage_page db ts mine ops mine' db' :
  fresh db ts mine -> Forall (op_ok (shared db)) ops ->
  nPage db + 4 * Z.of_nat (length ops) < 2 ^ 32 - 8 -> client ops mine db = Some (Ok mine', db') ->
  exists ts', owned db' ts' mine' /\
  forall nearby eMode, request (shared db) (freePages ts') nearby eMode ->
  match allocateBtreePage nearby eMode db' with
  | Some (Ok p, db'') => exists ts'',
      get4 (aData (page db'' 1)) 36 = Z.of_nat (length (freePages ts'')) /\
      segment (shared db'') (viewOf db'') (get4 (aData (page db'' 1)) 32) ts'' 0 /\
      ((freePages ts' ≡ₚ p :: freePages ts'' /\ nPage db'' = nPage db') \/
       (ts' = [] /\ ts'' = [] /\ p = endPage (shared db) (nPage db') /\ nPage db'' = p)) /\
      (eMode = BTALLOC_EXACT -> nearby ∈ freePages ts' -> p = nearby) /\
      (eMode = BTALLOC_LE -> p <= nearby) /\
      refcount db'' p = 1%nat /\ p ∈ writeable (pager db'')
  | Some (Err rc, db'') => rc ∈ faults (pager db) /\ forall q, refcount db'' q = refcount db' q
  | None => False
  end.
Proof.
  intros F Hops Hsz Hc. pose proof (db_history db ts mine ops F Hops Hsz) as Hw. unfold wp in Hw. rewrite Hc in Hw.
  destruct Hw as (v & ts' & S1 & B & Hal & Hv). exists ts'. split; [by eapply balanced_owned|]. intros nearby eMode Hr.
  pose proof B as [B1 B3 B4 B5]. pose proof (alone_idle _ _ _ _ _ B Hal (proj1 Hv)) as Hidle.
  pose proof (db_allocateBtreePage (startOf db ts) (fr_bt _ _ _ F) v ts' B1 ltac:(intros; apply Hidle; auto)
    ltac:(intros; apply Hidle; auto) db' nearby eMode S1 (balanced_searchable _ _ _ _ _ _ B Hr) (proj1 Hr) Hv) as Hw.
  unfold wp in Hw.
  destruct (allocateBtreePage nearby eMode db') as [[[p|rc] db'']|]; [| |done].
  2: { destruct Hw as ([_ Hf] & v2 & S2 & Href). split; [done|]. intros q.
       by rewrite (se_refs _ _ _ S2), (se_refs _ _ _ S1), Href. }
  destruct Hw as (v2 & ts'' & S2 & [A1 A2 A3 A4 A5 A6 A7 A8] & Hfd). exists ts''.
  assert (forall q, vpage (viewOf db'') q = vpage v2 q) as Hp.
  { intros q. cbn. rewrite (se_bt _ _ _ S2). apply (se_page _ _ _ S2). }
  assert (aData (page db'' 1) = bytes v2 1) as H1 by (rewrite <- Hp; cbn; by rewrite fromDbPage_data).
  rewrite H1, (se_size _ _ _ S2), (se_size _ _ _ S1), (se_refs _ _ _ S2), (se_write _ _ _ S2), (se_bt _ _ _ S2).
  assert (forall q, q ∈ freePages ts' -> ts' <> []) as Hne by (by intros q Hq ->; apply not_elem_of_nil in Hq).
  split_and!; [apply A1| |done| | |by rewrite (A8 p), decide_True by (by left)|done].
  - eapply segment_bytes, A1. intros q. by rewrite Hp.
  - intros -> Hin. apply (proj1 (Hfd (Hne _ Hin))); [done|..].
    + by destruct (fl_pages _ _ _ B1 _ Hin).
    + destruct Hr as [_ [[=]|[(_ & Hav & _)|([=] & _)]]]. apply B5; [done|apply elem_of_app; by left| |done].
      destruct (fl_pages _ _ _ B1 _ Hin) as [[? _ _] _]. lia.
  - intros ->. destruct Hr as [_ [[=]|[([=] & _)|(_ & q & Hq & _)]]]. by apply (proj2 (Hfd (Hne _ Hq))).
Qed.

(** An entry of the pointer map is read back as it was written, and the
    entries of the other pages are as before. *)
Theorem ptrmapGet_ptrmapPut s v db key eType parent k :
  bt_ok (s_bt s) -> sees s v db -> mapped (s_bt s) key -> mapped (s_bt s) k ->
  1 <= eType <= 5 -> 0 <= parent < 2 ^ 32 -> isInit (vpage v (ptrmapPageno (s_bt s) key)) = false ->
  (k <> key -> 1 <= (ptrmapEntry (s_bt s) v k).1 <= 5) ->
  wp (ptrmapPut key eType parent;; ptrmapGet k)
    (fun e _ => e = if decide (k = key) then (eType, parent) else ptrmapEntry (s_bt s) v k)
    (fun rc _ => fault s rc) db.
Proof.
  intros Hbt S0 Hkey Hk He Hpa Hi Hek. pose proof (se_bytes _ _ _ S0) as Hpg.
  apply db_bind, (db_ptrmapPut s Hbt v); [done|done|split; lia|done|done| |done].
  intros w d1 Hw S1.
  pose proof (ptrmapEntry_withEntry _ v key eType parent k Hbt Hkey Hk ltac:(split; lia) Hpa Hpg) as Hent.
  rewrite <- Hent. apply (db_ptrmapGet s Hbt _ d1 k _ _ S1 Hk); [|done|done].
  change (1 <= (ptrmapEntry (s_bt s) (withEntry (s_bt s) key eType parent v) k).1 <= 5). rewrite Hent.
  case_decide; [done|auto].
Qed.

(** ** An example *)

(** An auto-vacuum database of five pages: page 2 is of the pointer map, page
    3 is a trunk page with the leaf 4, and page 5 is in use. *)
Module Example.
Definition bt : BtShared := payloadLimits (mkBtShared true 0 false 512 512 0 0 0 0 0).

Definition bytesOf (parts : list (Z * list Z)) : list Z :=
  foldl (fun d part => store d part.1 part.2) (replicate 512%nat 0) parts.
Definition content (p : Z) : list Z :=
  if p =? 1 then bytesOf [(32, sqlite3Put4byte 3); (36, sqlite3Put4byte 2)]
  else if p =? 2 then bytesOf [(0, [2]); (5, [2]); (10, [5]); (11, sqlite3Put4byte 1)]
  else if p =? 3 then bytesOf [(4, sqlite3Put4byte 1); (8, sqlite3Put4byte 4)]
  else bytesOf [(0, [p])].

Definition db : Db :=
  mkDb bt 5 false None []
    (list_to_map ((fun p => (p, setData (content p) (blankPage bt))) <$> [1; 2; 3; 4; 5]))
    {[1 := 1%nat]} (mkPager 5 ∅ ∅ ∅ [] [] []).

Definition ts : list (Z * list Z) := [(3, [4])].
Definition mine : list (Z * list Z) := [(5, content 5)].
Definition ops : list pageOp :=
  [OpAlloc 4 BTALLOC_EXACT PTRMAP_BTREE 5 (content 7); OpFree 1 true;
   OpAlloc 0 BTALLOC_ANY PTRMAP_BTREE 5 (content 8); OpWrite 0 (content 9); OpFree 1 false;
   OpAlloc 0 BTALLOC_ANY PTRMAP_BTREE 5 (content 6); OpAlloc 0 BTALLOC_ANY PTRMAP_BTREE 5 (content 5);
   OpAlloc 0 BTALLOC_ANY PTRMAP_BTREE 5 (content 5)].

Ltac evaluate := cbv beta; refine (bool_decide_unpack _ _); vm_compute; exact I.

Lemma bt_fine : bt_ok bt.
Proof. split; [done|done|by exists 9|done]. Qed.

Lemma page_cases (P : MemPage -> Prop) p :
  P (blankPage bt) -> map_Forall (fun _ => P) (pages db) -> P (page db p).
Proof.
  intros Hb Hp. unfold page. destruct (pages db !! p) as [m|] eqn:E; [|done]. by apply (Hp p).
Qed.

#[local] Instance isPage_dec b d : Decision (isPage b d).
Proof. apply and_dec; [apply _|]. apply Forall_dec. intros x. unfold is_byte. apply _. Defined.

Lemma pages_fine p : isPage bt (aData (page db p)).
Proof.
  apply (page_cases (fun m => isPage bt (aData m))).
  - evaluate.
  - evaluate.
Qed.

Lemma pages_partition : partition bt 5 (freePages ts) (fst <$> mine).
Proof.
  split; [evaluate|]. intros p.
  change (freePages ts ++ (fst <$> mine)) with [3; 4; 5]. rewrite !elem_of_cons. split.
  - assert (PENDING_BYTE_PAGE bt = 2097153) as Hpp by done.
    intros [->|[->|[->|[]%not_elem_of_nil]]]; (split; [|lia]); (split; [lia|rewrite Hpp; lia|done]).
  - intros [[H1 _ H2] H3]. assert (p <> 2) by (intros ->; by specialize (H2 eq_refl)). lia.
Qed.

Lemma db_owned : owned db ts mine.
Proof.
  split.
  - cbn [segment ts]. split_and!; [by vm_compute| |by vm_compute]. split; [by vm_compute|by vm_compute|].
    intros [|i] x Hi; [injection Hi as <-; by vm_compute|done].
  - by vm_compute.
  - apply pages_partition.
  - intros p bs [[= -> ->]|[]%not_elem_of_nil]%elem_of_cons. by vm_compute.
  - intros p Hp. unfold refcount. cbn. by rewrite lookup_singleton_ne.
  - by vm_compute.
  - intros p _. change (freePages ts ++ (fst <$> mine)) with [3; 4; 5]. change (freePages ts) with [3; 4].
    rewrite !elem_of_cons. intros [->|[->|[->|[]%not_elem_of_nil]]].
    all: match goal with |- context [ptrmapEntry ?a ?b ?c] =>
           let e := eval vm_compute in (ptrmapEntry a b c) in replace (ptrmapEntry a b c) with e by (by vm_compute) end.
    all: cbn [fst]; split; [lia|]. 1,2: split; [auto|done].
    split; [done|]. intros [?|[?|[]%not_elem_of_nil]]; lia.
  - intros p _ _. apply (page_cases (fun m => isInit m = false)); [done|]. evaluate.
Qed.

Lemma db_fresh : fresh db ts mine.
Proof.
  split; try done.
  - apply bt_fine.
  - apply pages_fine.
  - intros d []%not_elem_of_nil.
  - apply db_owned.
Qed.

Lemma mapped4 : mapped bt 4.
Proof. split; evaluate. Qed.

Lemma mapped5 : mapped bt 5.
Proof. split; evaluate. Qed.

Lemma ops_fine : Forall (op_ok bt) ops.
Proof.
  pose proof mapped4.
  repeat apply Forall_cons_2; try apply Forall_nil_2; unfold op_ok; split_and?;
    first [lia | done | evaluate | by left | by right].
Qed.

Definition outcome (r : option (result (list (Z * list Z)) * Db)) : option (list Z) :=
  match r with Some (Ok m, _) => Some (fst <$> m) | _ => None end.

Lemma outcome_eq : outcome (client ops mine db) = Some [6; 3; 4; 5].
Proof. vm_compute. reflexivity. Qed.

Lemma outcome_ok r l : outcome r = Some l -> exists m d, r = Some (Ok m, d) /\ fst <$> m = l.
Proof. destruct r as [[[m|] d]|]; [|done|done]. intros [= H]. by exists m, d. Qed.

Lemma ops_few : nPage db + 4 * Z.of_nat (length ops) < 2 ^ 32 - 8.
Proof. vm_compute. reflexivity. Qed.

Lemma page_allocation_history_witness :
  exists mine' db' ts', client ops mine db = Some (Ok mine', db') /\ fst <$> mine' = [6; 3; 4; 5] /\ owned db' ts' mine'.
Proof.
  pose proof (page_allocation_history db ts mine ops db_fresh ops_fine ops_few) as H.
  destruct (outcome_ok _ _ outcome_eq) as (m & d & E & Hm). rewrite E in H. destruct H as [ts' H].
  exact (ex_intro _ m (ex_intro _ d (ex_intro _ ts' (conj E (conj Hm H))))).
Defined.

Lemma rollback_restores_pages_witness :
  exists mine' db', client ops mine db = Some (Ok mine', db') /\
    rolledBack db' 3 = aData (page db 3) /\ rolledBack db' 5 = aData (page db 5).
Proof.
  pose proof (rollback_restores_pages db ts mine ops db_fresh ops_fine ops_few) as H.
  destruct (outcome_ok _ _ outcome_eq) as (m & d & E & Hm). rewrite E in H.
  exists m, d. split; [exact E|]. split; [apply (H 3)|apply (H 5)]; evaluate.
Defined.

Lemma allocateBtreePage_page_witness :
  exists mine' db' ts', client ops mine db = Some (Ok mine', db') /\ owned db' ts' mine' /\
    request bt (freePages ts') 0 BTALLOC_ANY.
Proof.
  destruct (outcome_ok _ _ outcome_eq) as (m & d & E & Hm).
  destruct (allocateBtreePage_page db ts mine ops m d db_fresh ops_fine ops_few E) as (ts' & H & _).
  exists m, d, ts'. split; [exact E|]. split; [exact H|]. split; [lia|by left].
Defined.

Lemma ptrmapGet_ptrmapPut_witness :
  wp (ptrmapPut 5 PTRMAP_BTREE 4;; ptrmapGet 4)
    (fun e _ => e = ptrmapEntry bt (viewOf db) 4) (fun rc _ => fault (startOf db ts) rc) db.
Proof.
  apply (ptrmapGet_ptrmapPut (startOf db ts) (viewOf db) db 5 PTRMAP_BTREE 4 4 bt_fine
    (fresh_sees _ _ _ db_fresh) mapped5 mapped4); [done|done|done|].
  intros _. vm_compute. done.
Defined.
End Example.
