(* ===== verification/BtPayload.v ===== *)
(** * Payloads of cells (btree.c, btreeInt.h)

    [fillInCell] writes a cell with its payload, of which the part that does
    not fit on the page goes to a chain of overflow pages; [accessPayload]
    reads and overwrites parts of a payload; [clearCellOverflow] frees the
    chain.  The cell that [fillInCell] writes is in a buffer of its own, as in
    its caller. *)

From stdpp Require Import base numbers option gmap sets functions list.
From S2P Require Import Prelude Util Varint Bitvec Btree BtVarint BtCell BtMem BtPage BtPager BtView BtPtrmap BtFreelist.
#[local] Open Scope Z_scope.

(** A payload that is to be inserted; [aMem] and [nMem] are not used here. *)
Record BtreePayload := mkBtreePayload {
  px_pKey : list Z;
  px_nKey : Z;
  px_pData : list Z;
  px_nData : Z;
  px_nZero : Z
}.

(** ** Writing a cell *)

(** A pointer to the buffer of the cell, or into a page. *)
Inductive place := AtCell (a : Z) | AtPage (pg a : Z).

Definition advance (p : place) (n : Z) : place :=
  match p with AtCell a => AtCell (a + n) | AtPage pg a => AtPage pg (a + n) end.

(** The buffer after [memcpy(p, bs)]. *)
Definition copyTo (cell : list Z) (p : place) (bs : list Z) : DM (list Z) :=
  match p with
  | AtCell a => fun db => if inside cell a (Z.of_nat (length bs)) then Some (Ok (store cell a bs), db) else None
  | AtPage pg a => on pg (memwrite a bs);; mret cell
  end.

(** The first [n] bytes at [pSrc]. *)
Definition source (pSrc : list Z) (n : Z) : DM (list Z) := fun db =>
  if inside pSrc 0 n then Some (Ok (take (Z.to_nat n) pSrc), db) else None.

Definition putVarint32 (v : Z) : list Z := if u32 v <? 0x80 then [u8 v] else sqlite3PutVarint (u64 v).

(** A conversion to [int]. *)
Definition toInt (x : Z) : Z := let y := u32 x in if y <? 2 ^ 31 then y else y - 2 ^ 32.

(** The next page that is neither the one of the lock bytes nor of the
    pointer map; at most two are. *)
Fixpoint nextOvfl (fuel : nat) (bt : BtShared) (p : Z) : DM Z :=
  match fuel with
  | O => fun _ => None
  | S f =>
      let p := u32 (p + 1) in
      if PTRMAP_ISPAGE bt p || (p =? PENDING_BYTE_PAGE bt) then nextOvfl f bt p else mret p
  end.

(** The handler [h] runs before an error is returned. *)
Definition onError {A} (m : DM A) (h : DM unit) : DM A := fun db =>
  match m db with
  | Some (Err rc, db') => (h;; throw rc) db'
  | r => r
  end.

(** A new overflow page after the page [pgnoPtrmap], or the first one, and its
    entry in the pointer map. *)
Definition newOverflow (bt : BtShared) (pgnoPtrmap : Z) : DM Z :=
  nearby ← (if autoVacuum bt then nextOvfl 3 bt pgnoPtrmap else mret pgnoPtrmap);
  pgnoOvfl ← allocateBtreePage nearby BTALLOC_ANY;
  (if autoVacuum bt then
     let eType := if pgnoPtrmap =? 0 then PTRMAP_OVERFLOW1 else PTRMAP_OVERFLOW2 in
     onError (ptrmapPut pgnoOvfl eType pgnoPtrmap) (releasePage pgnoOvfl)
   else mret ());;
  mret pgnoOvfl.

(** The [while( 1 )] loop; every turn writes at least one byte of payload. *)
Fixpoint fillLoop (fuel : nat) (bt : BtShared) (cell : list Z) (pPayload pPrior : place)
    (pSrc : list Z) (nSrc nPayload spaceLeft pgnoOvfl pToRelease : Z) : DM (list Z) :=
  match fuel with
  | O => fun _ => None
  | S f =>
      let n := if spaceLeft <? nPayload then spaceLeft else nPayload in
      let n := if n <=? nSrc then n else if 0 <? nSrc then nSrc else n in
      bs ← (if 0 <? nSrc then source pSrc n else mret (replicate (Z.to_nat n) 0));
      cell ← copyTo cell pPayload bs;
      let nPayload := nPayload - n in
      if nPayload <=? 0 then releasePage pToRelease;; mret cell else
      let pSrc := drop (Z.to_nat n) pSrc in
      let nSrc := nSrc - n in
      let spaceLeft := spaceLeft - n in
      if spaceLeft =? 0 then
        p ← onError (newOverflow bt pgnoOvfl) (releasePage pToRelease);
        cell ← copyTo cell pPrior (sqlite3Put4byte p);
        releasePage pToRelease;;
        on p (put4byte 0 0);;
        fillLoop f bt cell (AtPage p 4) (AtPage p 0) pSrc nSrc nPayload (usableSize bt - 4) p p
      else fillLoop f bt cell (advance pPayload n) pPrior pSrc nSrc nPayload spaceLeft pgnoOvfl pToRelease
  end.

(** The cell in the buffer [pCell], and its size. *)
Definition fillInCell (pPage : MemPage) (pCell : list Z) (pX : BtreePayload) : DM (list Z * Z) :=
  let nPayload := if intKey pPage then px_nData pX + px_nZero pX else toInt (px_nKey pX) in
  let pSrc := if intKey pPage then px_pData pX else px_pKey pX in
  let nSrc := if intKey pPage then px_nData pX else toInt (px_nKey pX) in
  let header := putVarint32 nPayload ++ (if intKey pPage then sqlite3PutVarint (u64 (px_nKey pX)) else []) in
  cell ← copyTo pCell (AtCell (childPtrSize pPage)) header;
  let nHeader := childPtrSize pPage + Z.of_nat (length header) in
  if nPayload <=? maxLocal pPage then
    let n := nHeader + nPayload in
    cell ← (if n <? 4 then copyTo cell (AtCell (nHeader + nPayload)) [0] else mret cell);
    bs ← source pSrc nSrc;
    cell ← copyTo cell (AtCell nHeader) bs;
    cell ← copyTo cell (AtCell (nHeader + nSrc)) (replicate (Z.to_nat (nPayload - nSrc)) 0);
    mret (cell, if n <? 4 then 4 else n)
  else
    let bt := pBt pPage in
    let mn := minLocal pPage in
    let n := mn + u32 (nPayload - mn) mod (usableSize bt - 4) in
    let n := if maxLocal pPage <? n then mn else n in
    cell ← fillLoop (Z.to_nat nPayload) bt cell (AtCell nHeader) (AtCell (nHeader + n))
             pSrc nSrc nPayload n 0 0;
    mret (cell, n + nHeader + 4).

(** ** The chain of overflow pages *)

(** The page after [ovfl], and [*ppPage] when [keep]. *)
Definition getOverflowPage (ovfl : Z) (keep : bool) : DM (Z * Z) :=
  bt ← look shared;
  next ← (if autoVacuum bt then
            iGuess ← nextOvfl 3 bt ovfl;
            n ← btreePagecount;
            if iGuess <=? n then
              e ← ptrmapGet iGuess;
              mret (if (e.1 =? PTRMAP_OVERFLOW2) && (e.2 =? ovfl) then iGuess else 0)
            else mret 0
          else mret 0);
  if negb (next =? 0) then mret (next, 0) else
  btreeGetPage ovfl false;;
  next ← on ovfl (get4byte 0);
  if keep then mret (next, ovfl) else releasePage ovfl;; mret (next, 0).

(** [while( nOvfl-- )] *)
Fixpoint clearLoop (nOvfl : nat) (ovflPgno : Z) : DM unit :=
  match nOvfl with
  | O => mret ()
  | S nOvfl =>
      n ← btreePagecount;
      if (ovflPgno <? 2) || (n <? ovflPgno) then throw SQLITE_CORRUPT else
      o ← (match nOvfl with O => mret (0, 0) | S _ => getOverflowPage ovflPgno true end);
      let '(iNext, pOvfl) := o in
      pOvfl ← (if pOvfl =? 0 then btreePageLookup ovflPgno else mret pOvfl);
      c ← (if pOvfl =? 0 then mret 1 else sqlite3PagerPageRefcount pOvfl);
      rc ← (if negb (c =? 1) then mret SQLITE_CORRUPT else code (freePage2 pOvfl ovflPgno));
      (if pOvfl =? 0 then mret () else sqlite3PagerUnref pOvfl);;
      return_code rc;;
      clearLoop nOvfl iNext
  end.

(** The cell is at [pCell] on the page [pPage]. *)
Definition clearCellOverflow (pPage pCell : Z) (pInfo : CellInfo) : DM unit :=
  bt ← look shared;
  dataEnd ← on pPage (field aDataEnd);
  if dataEnd <? pCell + nSize pInfo then throw SQLITE_CORRUPT else
  ovflPgno ← on pPage (get4byte (pCell + nSize pInfo - 4));
  let ovflPageSize := usableSize bt - 4 in
  let nOvfl := toInt (u32 (nPayload pInfo - nLocal pInfo + ovflPageSize - 1) / ovflPageSize) in
  clearLoop (Z.to_nat nOvfl) ovflPgno.

Definition BTREE_CLEAR_CELL (pPage pCell : Z) : DM CellInfo :=
  sInfo ← on pPage (field (fun p => xParseCell p (drop (Z.to_nat pCell) (aData p))));
  (if negb (nLocal sInfo =? nPayload sInfo) then clearCellOverflow pPage pCell sInfo else mret ());;
  mret sInfo.

(** ** Reading and overwriting a payload *)

Definition BTCF_ValidNKey : Z := 0x02.
Definition BTCF_ValidOvfl : Z := 0x04.

(** The fields of a cursor that are used: [cu_pPage] is the number of the
    page, the pointer [pPayload] of [cu_info] is an offset into its bytes,
    and [cu_aOverflow] has the elements that are allocated, [None] for those
    that were not set. *)
Record BtCursor := mkBtCursor {
  cu_curFlags : Z;
  cu_aOverflow : option (list (option Z));
  cu_info : CellInfo;
  cu_ix : Z;
  cu_pPage : Z
}.

Definition setInfo (i : CellInfo) (c : BtCursor) : BtCursor :=
  mkBtCursor (Z.lor (cu_curFlags c) BTCF_ValidNKey) (cu_aOverflow c) i (cu_ix c) (cu_pPage c).
Definition setOverflow (a : list (option Z)) (c : BtCursor) : BtCursor :=
  mkBtCursor (cu_curFlags c) (Some a) (cu_info c) (cu_ix c) (cu_pPage c).
Definition setValidOvfl (c : BtCursor) : BtCursor :=
  mkBtCursor (Z.lor (cu_curFlags c) BTCF_ValidOvfl) (cu_aOverflow c) (cu_info c) (cu_ix c) (cu_pPage c).

(** [btreeParseCell], with the pointer as an offset into the page. *)
Definition cellInfo (ix : Z) : PM CellInfo :=
  pc ← findCell ix;
  i ← btreeParseCell ix;
  mret (mkCellInfo (nKey i) (Z.add pc <$> pPayload i) (nPayload i) (nLocal i) (nSize i)).

Definition getCellInfo (pCur : BtCursor) : DM BtCursor :=
  if nSize (cu_info pCur) =? 0 then
    i ← on (cu_pPage pCur) (cellInfo (cu_ix pCur));
    mret (setInfo i pCur)
  else mret pCur.

(** [pBuf] is the whole buffer and [pos] the place in it; the result is the
    buffer. *)
Definition copyPayload (pDbPage pPayload : Z) (pBuf : list Z) (pos nByte : Z) (eOp : bool) : DM (list Z) :=
  if inside pBuf pos nByte then
    if eOp then
      sqlite3PagerWrite pDbPage;;
      on pDbPage (memwrite pPayload (slice pBuf pos nByte));;
      mret pBuf
    else
      bs ← on pDbPage (memread pPayload nByte);
      mret (store pBuf pos bs)
  else fun _ => None.

(** An element of [aOverflow]. *)
Definition cached (pCur : BtCursor) (i : Z) : DM Z := fun db =>
  match cu_aOverflow pCur with
  | Some l => match l !! Z.to_nat i with Some (Some x) => Some (Ok x, db) | _ => None end
  | None => None
  end.

Definition remember (pCur : BtCursor) (i x : Z) : DM BtCursor := fun db =>
  match cu_aOverflow pCur with
  | Some l => if (Z.to_nat i <? length l)%nat then Some (Ok (setOverflow (<[Z.to_nat i := Some x]> l) pCur), db) else None
  | None => None
  end.

(** The result code as a value, with a default for the other results. *)
Definition attempt {A} (a : A) (m : DM A) : DM (Z * A) := fun db =>
  match m db with
  | Some (Ok b, db') => Some (Ok (SQLITE_OK, b), db')
  | Some (Err rc, db') => Some (Ok (rc, a), db')
  | None => None
  end.

(** The array has at least [nOvfl] elements, and these are 0; or the
    allocation of memory failed. *)
Definition clearCache (pCur : BtCursor) (nOvfl : Z) : DM (option BtCursor) := fun db =>
  let n := Z.to_nat nOvfl in
  let zeros := replicate n (Some 0) in
  let cache rest := Some (setValidOvfl (setOverflow (zeros ++ rest) pCur)) in
  let grow := match cu_aOverflow pCur with Some l => (length l <? n)%nat | None => true end in
  if grow then
    let '(ok, m) := alloc (heap db) in
    Some (Ok (if ok : bool then cache (replicate n None) else None), setHasContent (pHasContent db) m db)
  else Some (Ok (cache (drop n (default [] (cu_aOverflow pCur)))), db).

(** One overflow page, of which [a] bytes from [offset] on are copied: the
    result code, and the next page and the buffer. *)
Definition copyPage (nextPage : Z) (pBuf : list Z) (pos offset a : Z) (eOp : bool) : DM (Z * (Z * list Z)) :=
  direct ← (if negb eOp && (offset =? 0) then
              d ← sqlite3PagerDirectReadOk nextPage;
              mret (d && (4 <=? pos))
            else mret false);
  if direct : bool then
    attempt (nextPage, pBuf)
      (bs ← readFile nextPage (a + 4);
       mret (get4 bs 0, store pBuf pos (drop 4 bs)))
  else
    rc ← code (sqlite3PagerGet nextPage false);
    if negb (rc =? SQLITE_OK) then mret (rc, (nextPage, pBuf)) else
    next ← on nextPage (get4byte 0);
    r ← attempt pBuf (copyPayload nextPage (offset + 4) pBuf pos a eOp);
    sqlite3PagerUnref nextPage;;
    mret (r.1, (next, r.2)).

(** [while( nextPage )]: the result code, [amt], the buffer and the cursor. *)
Fixpoint payloadPages (fuel : nat) (pCur : BtCursor) (pBuf : list Z) (pos offset amt iIdx nextPage : Z)
    (eOp : bool) : DM (Z * Z * list Z * BtCursor) :=
  if nextPage =? 0 then mret (SQLITE_OK, amt, pBuf, pCur) else
  match fuel with
  | O => fun _ => None
  | S f =>
      bt ← look shared;
      n ← look nPage;
      let ovflSize := usableSize bt - 4 in
      if n <? nextPage then mret (SQLITE_CORRUPT, amt, pBuf, pCur) else
      pCur ← remember pCur iIdx nextPage;
      if ovflSize <=? offset then
        x ← cached pCur (iIdx + 1);
        r ← (if negb (x =? 0) then mret (SQLITE_OK, x)
             else attempt nextPage (o ← getOverflowPage nextPage false; mret o.1));
        if negb (r.1 =? SQLITE_OK) then mret (r.1, amt, pBuf, pCur) else
        payloadPages f pCur pBuf pos (offset - ovflSize) amt (iIdx + 1) r.2 eOp
      else
        let a := if ovflSize <? u32 (amt + offset) then ovflSize - offset else amt in
        r ← copyPage nextPage pBuf pos offset a eOp;
        let '(rc, (nextPage, pBuf)) := r in
        let amt := amt - a in
        if amt =? 0 then mret (rc, amt, pBuf, pCur) else
        if negb (rc =? SQLITE_OK) then mret (rc, amt, pBuf, pCur) else
        payloadPages f pCur pBuf (pos + a) 0 amt (iIdx + 1) nextPage eOp
  end.

(** The part on overflow pages. *)
Definition accessOverflow (pCur : BtCursor) (pBuf : list Z) (pos offset amt : Z) (eOp : bool)
    : DM (Z * Z * list Z * BtCursor) :=
  bt ← look shared;
  let i := cu_info pCur in
  let ovflSize := usableSize bt - 4 in
  nextPage ← on (cu_pPage pCur) (get4byte (default 0 (pPayload i) + nLocal i));
  start ← (if Z.land (cu_curFlags pCur) BTCF_ValidOvfl =? 0 then
             let nOvfl := toInt (u32 (nPayload i - nLocal i + ovflSize - 1) / ovflSize) in
             c ← clearCache pCur nOvfl;
             mret ((fun c => (c, 0, nextPage, offset)) <$> c)
           else
             x ← cached pCur (offset / ovflSize);
             mret (Some (if negb (x =? 0) then (pCur, offset / ovflSize, x, offset mod ovflSize)
                         else (pCur, 0, nextPage, offset))));
  match start with
  | None => mret (SQLITE_NOMEM, amt, pBuf, pCur)
  | Some (pCur, iIdx, nextPage, offset) =>
      r ← payloadPages (Z.to_nat ((offset + amt) / ovflSize) + 2) pCur pBuf pos offset amt iIdx nextPage eOp;
      let '(rc, amt, pBuf, pCur) := r in
      mret (if (rc =? SQLITE_OK) && (0 <? amt) then SQLITE_CORRUPT else rc, amt, pBuf, pCur)
  end.

(** The result code, the buffer and the cursor. *)
Definition accessPayload (pCur : BtCursor) (offset amt : Z) (pBuf : list Z) (eOp : bool)
    : DM (Z * list Z * BtCursor) :=
  bt ← look shared;
  n ← on (cu_pPage pCur) (field nCell);
  if n <=? cu_ix pCur then mret (SQLITE_CORRUPT, pBuf, pCur) else
  pCur ← getCellInfo pCur;
  let i := cu_info pCur in
  match pPayload i with
  | None => fun _ => None
  | Some aPayload =>
      if u32 (usableSize bt - nLocal i) <? aPayload then mret (SQLITE_CORRUPT, pBuf, pCur) else
      r ← (if offset <? nLocal i then
             let a := if nLocal i <? u32 (amt + offset) then nLocal i - offset else amt in
             r ← attempt pBuf (copyPayload (cu_pPage pCur) (aPayload + offset) pBuf 0 a eOp);
             mret (r.1, r.2, a, 0, amt - a)
           else mret (SQLITE_OK, pBuf, 0, offset - nLocal i, amt));
      let '(rc, pBuf, pos, offset, amt) := r in
      if (rc =? SQLITE_OK) && (0 <? amt) then
        r ← accessOverflow pCur pBuf pos offset amt eOp;
        let '(rc, _, pBuf, pCur) := r in
        mret (rc, pBuf, pCur)
      else mret (rc, pBuf, pCur)
  end.

Definition sqlite3BtreePayload (pCur : BtCursor) (offset amt : Z) (pBuf : list Z) : DM (Z * list Z * BtCursor) :=
  accessPayload pCur offset amt pBuf false.
