(* ===== verification/BtChain.v ===== *)
(** * Chains of overflow pages

    [chain bt v first ps data]: from page [first] on, the pages [ps] have the
    bytes [data], and the last one points to no page.  [linked]: the entries
    of the pointer map that [getOverflowPage] relies on agree with the
    pointers. *)

From stdpp Require Import base numbers option gmap sets functions list.
From S2P Require Import Prelude Util Varint Bitvec Btree BtVarint BtCell BtMem BtPage BtPager BtView BtPtrmap BtFreelist BtTrunk BtTake BtAllocate BtRelease BtBalance BtPayload.
#[local] Open Scope Z_scope.

Definition ovflSize (bt : BtShared) : nat := Z.to_nat (usableSize bt - 4).

Fixpoint chain (bt : BtShared) (v : View) (first : Z) (ps : list Z) (data : list Z) : Prop :=
  match ps with
  | [] => first = 0 /\ data = []
  | p :: ps =>
      first = p /\ data <> [] /\
      take (length (take (ovflSize bt) data)) (drop 4 (bytes v p)) = take (ovflSize bt) data /\
      chain bt v (get4 (bytes v p) 0) ps (drop (ovflSize bt) data)
  end.

Lemma ovflChain_same bt v v' first ps data :
  (forall p, p ∈ ps -> bytes v' p = bytes v p) -> chain bt v first ps data -> chain bt v' first ps data.
Proof.
  revert first data. induction ps as [|p ps IH]; intros first data Hp; [done|]. cbn. rewrite Hp by left.
  intros (H1 & H2 & H3 & H4). split_and!; [done..|]. apply IH; [|done]. intros q Hq. apply Hp. by right.
Qed.

(** The page that an entry of type PTRMAP_OVERFLOW2 names points to the page
    of the entry. *)
Definition linked (s : Start) (v : View) (mine : list (Z * list Z)) : Prop :=
  autoVacuum (s_bt s) = true -> forall q o, q ∈ fst <$> mine ->
  ptrmapEntry (s_bt s) v q = (PTRMAP_OVERFLOW2, o) -> (o ∈ fst <$> mine) /\ get4 (bytes v o) 0 = q.

(** The same, except for the entry of [x]. *)
Definition linkedBut (s : Start) (x : Z) (v : View) (mine : list (Z * list Z)) : Prop :=
  autoVacuum (s_bt s) = true -> forall q o, q ∈ fst <$> mine -> q <> x ->
  ptrmapEntry (s_bt s) v q = (PTRMAP_OVERFLOW2, o) -> (o ∈ fst <$> mine) /\ get4 (bytes v o) 0 = q.

Lemma linked_but s x v mine : linked s v mine -> linkedBut s x v mine.
Proof. intros Hl Ha q o Hq _. by apply Hl. Qed.

Lemma but_linked s v mine : linkedBut s 0 v mine -> (0 ∉ fst <$> mine) -> linked s v mine.
Proof. intros Hl H0 Ha q o Hq. apply Hl; [done|done|]. by intros ->. Qed.

Lemma linked_perm s v mine mine' : mine ≡ₚ mine' -> linked s v mine -> linked s v mine'.
Proof. intros Hp Hl Ha q o. rewrite <- Hp. by apply Hl. Qed.

Lemma linked_frame s v v' mine : (forall q, vpage v' q = vpage v q) -> linked s v mine -> linked s v' mine.
Proof.
  intros Hp Hl Ha q o Hq He. rewrite Hp. apply Hl; [done|done|]. rewrite <- He. symmetry. apply ptrmapEntry_same. by rewrite Hp.
Qed.

(** The page [x], which is not an overflow page, is named by no such entry. *)
Definition unnamed (s : Start) (x : Z) (v : View) (mine : list (Z * list Z)) : Prop :=
  autoVacuum (s_bt s) = true -> forall q, q ∈ fst <$> mine -> ptrmapEntry (s_bt s) v q <> (PTRMAP_OVERFLOW2, x).

Lemma unnamed_same s x v v' mine mine' :
  (forall q, q ∈ fst <$> mine' -> q ∈ fst <$> mine) ->
  (autoVacuum (s_bt s) = true -> forall q, q ∈ fst <$> mine -> ptrmapEntry (s_bt s) v' q = ptrmapEntry (s_bt s) v q) ->
  unnamed s x v mine -> unnamed s x v' mine'.
Proof. intros Hm He Hu Ha q Hq. rewrite He by auto. auto. Qed.

(** ** The next page *)

Lemma nextOvfl_eq bt p :
  bt_ok bt -> 0 <= p < 2 ^ 32 - 8 ->
  exists q, (forall d, nextOvfl 3 bt p d = Some (Ok q, d)) /\ p < q <= p + 3 /\
    PTRMAP_ISPAGE bt q = false /\ q <> PENDING_BYTE_PAGE bt.
Proof.
  intros Hb Hp. pose proof (pending_range bt Hb) as Hpr.
  assert (forall k, 0 <= k <= 4 -> u32 (p + k) = p + k) as Hw by (intros; apply u32_small; lia).
  assert (forall f k, 0 <= k <= 3 ->
    nextOvfl (S f) bt (p + k) = if PTRMAP_ISPAGE bt (p + (k + 1)) || (p + (k + 1) =? PENDING_BYTE_PAGE bt)
      then nextOvfl f bt (p + (k + 1)) else mret (p + (k + 1))) as Hs.
  { intros f k Hk. cbn [nextOvfl]. rewrite <- Z.add_assoc, Hw by lia. done. }
  assert (nextOvfl 3 bt p = nextOvfl 3 bt (p + 0)) as -> by (by rewrite Z.add_0_r). rewrite Hs by lia.
  assert (forall k, 1 <= k <= 3 -> PTRMAP_ISPAGE bt (p + k) || (p + k =? PENDING_BYTE_PAGE bt) = false ->
    exists q, (forall d, (mret (p + k) : DM Z) d = Some (Ok q, d)) /\ p < q <= p + 3 /\
      PTRMAP_ISPAGE bt q = false /\ q <> PENDING_BYTE_PAGE bt) as Hdone.
  { intros k Hk [H1 H2%Z.eqb_neq]%orb_false_iff. exists (p + k). split_and!; (done || lia). }
  destruct (_ || _) eqn:E1; [|by apply (Hdone (0 + 1)); [lia|]]. rewrite Hs by lia.
  destruct (PTRMAP_ISPAGE bt (p + (0 + 1 + 1)) || _) eqn:E2; [|by apply (Hdone (0 + 1 + 1)); [lia|]].
  rewrite Hs by lia.
  destruct (PTRMAP_ISPAGE bt (p + (0 + 1 + 1 + 1)) || _) eqn:E3; [|by apply (Hdone (0 + 1 + 1 + 1)); [lia|]].
  exfalso. assert (forall i j, 1 <= i -> i < j <= 3 -> ~ (PTRMAP_ISPAGE bt (p + i) = true /\ PTRMAP_ISPAGE bt (p + j) = true)) as Hap.
  { intros i j Hi Hj [H1 H2]. destruct (decide (p + i = 1)) as [He|].
    - rewrite He in H1. unfold PTRMAP_ISPAGE, ptrmapPageno in H1. discriminate H1.
    - rewrite (map_pages_apart bt (p + i) (p + j)) in H2; (done || lia). }
  rewrite !orb_true_iff, !Z.eqb_eq in *. cbn in E1, E2, E3.
  pose proof (Hap 1 2 ltac:(lia) ltac:(lia)). pose proof (Hap 1 3 ltac:(lia) ltac:(lia)). pose proof (Hap 2 3 ltac:(lia) ltac:(lia)).
  destruct E1, E2, E3; try tauto; lia.
Qed.

Section chains.
Context (s : Start) (Hbt : bt_ok (s_bt s)).

Let Hu : 480 <= usableSize (s_bt s) <= pageSize (s_bt s).
Proof. apply Hbt. Qed.

(** A page in use is an ordinary page. *)
Lemma in_use x v ts mine p :
  balanced s x v ts mine -> p ∈ fst <$> mine ->
  ordinary (s_bt s) p /\ p <= vsize v /\ (p ∉ freePages ts) /\ 2 <= p /\ p <> PENDING_BYTE_PAGE (s_bt s).
Proof.
  intros Hb ([q b] & -> & Hq)%list_elem_of_fmap. destruct (mine_page _ _ _ _ _ _ _ Hb Hq) as (Ho & Hs & Hf).
  split_and!; [done|done|done|destruct Ho; cbn; lia|by destruct Ho].
Qed.

(** [getOverflowPage] finds the page that the pointer names, whether it
    follows the pointer or guesses. *)
Lemma db_getOverflowPage v ts mine d p keep (Q : Z * Z -> Db -> Prop) (E : Z -> Db -> Prop) :
  sees s v d -> balanced s 0 v ts mine -> linkedBut s p v mine -> p ∈ fst <$> mine -> vsize v < 2 ^ 32 - 8 ->
  (forall d', sees s v d' -> Q (get4 (bytes v p) 0, 0) d') ->
  (forall d', keep = true -> sees s (putRefs p (S (vrefs v p)) v) d' -> Q (get4 (bytes v p) 0, p) d') ->
  (forall rc d', sees s v d' -> fault s rc -> E rc d') ->
  wp (getOverflowPage p keep) Q E d.
Proof.
  intros S0 Hb Hl Hp Hsz HQ HK HE. destruct (in_use _ _ _ _ _ Hb Hp) as (Ho & Hps & Hnf & Hp2 & Hpp).
  unfold getOverflowPage. apply db_bind, db_look. rewrite (se_bt _ _ _ S0).
  assert (forall d1, sees s v d1 ->
    wp (btreeGetPage p false;; next ← on p (get4byte 0);
        if keep then mret (next, p) else releasePage p;; mret (next, 0)) Q E d1) as Hread.
  { intros d1 S1. apply db_bind, (db_btreeGetPage s v); [done|lia|done|done|lia| |auto].
    intros d2 S2. eapply db_bind, (db_get4byte s _ d2); [exact S2|cbn; by rewrite fn_lookup_insert|lia|lia|].
    intros d3 S3. cbn [vpage putRefs]. destruct keep; [by apply db_ret, HK|].
    apply db_bind. unfold releasePage. destruct (Z.eqb_spec p 0); [lia|].
    eapply (db_Unref s _ d3 p (vrefs v p)); [exact S3|cbn; by rewrite fn_lookup_insert|].
    intros d4 S4. apply db_ret, HQ. eapply sees_ext, S4; try done.
    intros q. cbn. unfold insert, fn_insert. by case_decide; [subst|]. }
  apply db_bind. destruct (autoVacuum (s_bt s)) eqn:Hav; [|apply db_ret; cbn; by apply Hread].
  destruct (nextOvfl_eq (s_bt s) p Hbt ltac:(lia)) as (g & Hg & Hgr & Hgm & Hgp).
  apply db_bind. unfold wp at 1. rewrite Hg. apply db_bind, db_look. rewrite (se_size _ _ _ S0).
  destruct (Z.leb_spec g (vsize v)); [|apply db_ret; cbn; by apply Hread].
  assert (ordinary (s_bt s) g) as Hog by (split; [lia|done|done]).
  assert (g ∈ freePages ts ++ (fst <$> mine)) as Hin by (by apply (ba_pages _ _ _ _ _ Hb)).
  destruct (ba_map _ _ _ _ _ Hb g Hav Hin) as [He1 He2]; [lia|].
  apply db_bind, (db_ptrmapGet s Hbt v); [done|by split; [lia|..]|done| |auto].
  intros d1 S1. apply db_ret.
  destruct (ptrmapEntry (s_bt s) v g) as [eType o] eqn:He. cbn [fst snd] in *.
  destruct (Z.eqb_spec eType PTRMAP_OVERFLOW2) as [->|]; [|by apply Hread].
  destruct (Z.eqb_spec o p) as [->|]; [|by apply Hread]. cbn [andb].
  apply elem_of_app in Hin as [Hin|Hin]; [by apply He2 in Hin|].
  destruct (Hl Hav g p Hin ltac:(lia) He) as [_ <-]. destruct (Z.eqb_spec (get4 (bytes v p) 0) 0); [by apply Hread|].
  by apply db_ret, HQ.
Qed.

(** ** A new page *)

Lemma db_onError {A} (m : DM A) h (Q : A -> Db -> Prop) (E : Z -> Db -> Prop) d :
  wp m Q (fun rc => wp h (fun _ => E rc) E) d -> wp (onError m h) Q E d.
Proof.
  unfold wp, onError. destruct (m d) as [[[a|rc] d']|]; [done| |done].
  unfold mbind, DM_bind. by destruct (h d') as [[[[]|] d'']|].
Qed.

Lemma db_releaseHeld v d p n (Q : unit -> Db -> Prop) E :
  sees s v d -> p <> 0 -> vrefs v p = S n -> (forall d', sees s (putRefs p n v) d' -> Q () d') ->
  wp (releasePage p) Q E d.
Proof. intros S0 Hp Hr HQ. unfold releasePage. destruct (Z.eqb_spec p 0); [done|]. by apply (db_Unref s v d p n). Qed.

Record grown (v : View) (ts mine : list (Z * list Z)) (prev p : Z) (v' : View) (ts' : list (Z * list Z)) : Prop := {
  gr_balanced : balanced s 0 v' ts' ((p, bytes v' p) :: mine);
  gr_refs : held v [p] v';
  gr_before : vrefs v p = 0%nat;
  gr_idle : idle v' ts';
  gr_write : {[p]} ∪ vwrite v ⊆ vwrite v';
  gr_size : vsize v <= vsize v' <= vsize v + 4;
  gr_entry : autoVacuum (s_bt s) = true -> forall q, ordinary (s_bt s) q -> q <= vsize v \/ q = p ->
    ptrmapEntry (s_bt s) v' q =
      if decide (q = p) then (if prev =? 0 then PTRMAP_OVERFLOW1 else PTRMAP_OVERFLOW2, prev)
      else ptrmapEntry (s_bt s) v q
}.

Lemma acquired_grown v ts mine prev p v' ts' :
  acquired s v ts mine p v' ts' -> idle v ts -> autoVacuum (s_bt s) = false -> grown v ts mine prev p v' ts'.
Proof.
  intros Ha Hi Hav. pose proof (acquired_idle s v ts mine p v' ts' Hi Ha) as Hi'. destruct Ha as [A1 A2 A3 A4 A5 A6 A7 A8].
  split; try done; [|by apply Hi|intros Hav'; congruence].
  destruct A1 as [B1 B2 B3 B4]. split; [done..|]. intros q Hav'. congruence.
Qed.

Lemma db_newOverflow v ts mine d prev (Q : Z -> Db -> Prop) (E : Z -> Db -> Prop) :
  sees s v d -> balanced s 0 v ts mine -> idle v ts -> 1 <= vsize v < 2 ^ 32 - 8 -> prev = 0 \/ prev ∈ fst <$> mine ->
  (forall p v' ts' d', sees s v' d' -> grown v ts mine prev p v' ts' -> Q p d') ->
  (forall rc v' d', fault s rc -> sees s v' d' -> (forall q, vrefs v' q = vrefs v q) -> E rc d') ->
  wp (newOverflow (s_bt s) prev) Q E d.
Proof.
  intros S0 Hb Hi Hsz Hprev HQ HE.
  assert (0 <= prev < 2 ^ 32 - 8) as Hpr.
  { destruct Hprev as [->|Hin]; [lia|]. destruct (in_use _ _ _ _ _ Hb Hin) as (_ & ? & _ & ? & _). lia. }
  assert (forall nearby, 0 <= nearby < 2 ^ 32 -> request (s_bt s) (freePages ts) nearby BTALLOC_ANY) as Hreq.
  { intros nearby Hn. split; [done|by left]. }
  unfold newOverflow. apply db_bind. destruct (autoVacuum (s_bt s)) eqn:Hav.
  - destruct (nextOvfl_eq (s_bt s) prev Hbt Hpr) as (g & Hg & Hgr & _). unfold wp at 1. rewrite Hg.
    apply db_bind. eapply db_mono; [by apply (db_allocate s Hbt v ts mine d g BTALLOC_ANY S0 Hb Hi); [apply Hreq; lia|]| |].
    2: { intros rc d1 (Hf & v1 & S1 & Hr). by eapply HE. }
    intros p d1 (v1 & ts1 & S1 & Ha). pose proof (acquired_idle s v ts mine p v1 ts1 Hi Ha) as Hi'.
    destruct Ha as [A1 A2 A3 A4 A5 A6 A7 A8].
    destruct (mine_page s _ _ _ _ p _ A1 ltac:(by left)) as (Ho & Hps & Hnf).
    assert (vrefs v1 p = 1%nat) as Hrp by (rewrite (A4 p), decide_True; [done|by left]).
    assert (vrefs v p = 0%nat) as Hr0 by (by apply Hi).
    assert (1 <= (if prev =? 0 then PTRMAP_OVERFLOW1 else PTRMAP_OVERFLOW2) <= 5 /\
      (if prev =? 0 then PTRMAP_OVERFLOW1 else PTRMAP_OVERFLOW2) <> PTRMAP_FREEPAGE) as [] by (by destruct (prev =? 0)).
    apply db_bind, db_onError. apply (db_entry s Hbt v1 ts1 mine d1 p (bytes v1 p)); try done; try lia.
    + intros v2 d2 S2 B2 He Hs2 Hr2 Hw2. apply db_ret. eapply HQ; [exact S2|].
      destruct (balanced_head _ _ _ _ _ _ _ B2) as [_ Hp2].
      split; [by rewrite Hp2|intros q; rewrite Hr2; apply A4|done| |by etrans|lia|].
      * intros q. rewrite Hr2, Hs2. apply Hi'.
      * intros _ q Hq Hqs. rewrite He by done. case_decide; [done|]. apply A8; [done|done|]. destruct Hqs; [done|congruence].
    + intros rc d2 S2 Hf. eapply db_releaseHeld; [exact S2|destruct Ho; lia|exact Hrp|].
      intros d3 S3. eapply HE; [done|exact S3|]. intros q. cbn. unfold insert, fn_insert. case_decide; [by subst|].
      rewrite (A4 q), decide_False; [done|]. by intros ?%list_elem_of_singleton.
  - apply db_ret, db_bind. eapply db_mono; [by apply (db_allocate s Hbt v ts mine d prev BTALLOC_ANY S0 Hb Hi); [apply Hreq; lia|]| |].
    2: { intros rc d1 (Hf & v1 & S1 & Hr). by eapply HE. }
    intros p d1 (v1 & ts1 & S1 & Ha). apply db_bind, db_ret, db_ret. eapply HQ; [exact S1|]. by apply acquired_grown.
Qed.
End chains.
