(* ===== verification/BtStore.v ===== *)
(** * What fillInCell writes

    The cell has the local part of the payload, and the pages of the chain the
    rest; the pages are taken from the free ones, and nothing else changes. *)

From stdpp Require Import base numbers option gmap sets functions list.
From S2P Require Import Prelude Util Varint Bitvec Btree BtVarint BtCell BtMem BtPage BtPager BtView BtPtrmap BtFreelist BtTrunk BtTake BtAllocate BtRelease BtBalance BtPayload BtChain.
#[local] Open Scope Z_scope.

(** ** The source *)

(** [R]: what is left to write, the first [nSrc] bytes at [pSrc] and zeros. *)
Record remains (R pSrc : list Z) (nSrc : Z) : Prop := {
  rm_payload : nSrc <= Z.of_nat (length R);
  rm_source : nSrc <= Z.of_nat (length pSrc);
  rm_eq : R = take (Z.to_nat nSrc) pSrc ++ replicate (length R - Z.to_nat nSrc) 0
}.

(** The bytes that one turn of the loop writes. *)
Definition portion (nSrc nPayload spaceLeft : Z) : Z :=
  let n := if spaceLeft <? nPayload then spaceLeft else nPayload in
  if n <=? nSrc then n else if 0 <? nSrc then nSrc else n.

Lemma remains_zeros R pSrc nSrc : remains R pSrc nSrc -> nSrc <= 0 -> R = replicate (length R) 0.
Proof.
  intros [_ _ He] Hn. replace (Z.to_nat nSrc) with 0%nat in He by lia. by rewrite Nat.sub_0_r in He.
Qed.

Lemma portion_spec R pSrc nSrc spaceLeft :
  remains R pSrc nSrc -> R <> [] -> 0 < spaceLeft ->
  let n := portion nSrc (Z.of_nat (length R)) spaceLeft in
  1 <= n <= Z.of_nat (length R) /\ n <= spaceLeft /\
  (forall (Q : list Z -> Db -> Prop) E d, Q (take (Z.to_nat n) R) d ->
     wp (if 0 <? nSrc then source pSrc n else mret (replicate (Z.to_nat n) 0)) Q E d) /\
  remains (drop (Z.to_nat n) R) (drop (Z.to_nat n) pSrc) (nSrc - n).
Proof.
  intros Hr HR Hs n. pose proof Hr as [H1 H2 He]. assert (length R <> 0)%nat as HR' by (by destruct R).
  assert (1 <= n <= Z.of_nat (length R) /\ n <= spaceLeft /\ (0 < nSrc -> n <= nSrc)) as (Hn1 & Hn2 & Hn3).
  { unfold n, portion. destruct (Z.ltb_spec spaceLeft (Z.of_nat (length R))).
    - destruct (Z.leb_spec spaceLeft nSrc); [lia|]. destruct (Z.ltb_spec 0 nSrc); lia.
    - destruct (Z.leb_spec (Z.of_nat (length R)) nSrc); [lia|]. destruct (Z.ltb_spec 0 nSrc); lia. }
  split_and!; [lia|lia|lia| |].
  - intros Q E d HQ. destruct (Z.ltb_spec 0 nSrc).
    + unfold wp, source. rewrite inside_true by lia. rewrite He in HQ.
      rewrite take_app_le, take_take, Nat.min_l in HQ; [done|lia|rewrite length_take; lia].
    + apply db_ret. rewrite (remains_zeros R pSrc nSrc Hr) in HQ by lia. by rewrite take_replicate, Nat.min_l in HQ by lia.
  - split; rewrite ?length_drop; [lia|lia|]. destruct (decide (0 < nSrc)).
    + rewrite He at 1. rewrite drop_app_le by (rewrite length_take; lia). f_equal.
      * rewrite take_drop_commute. do 2 f_equal. lia.
      * f_equal. lia.
    + rewrite (remains_zeros R pSrc nSrc Hr) at 1 by lia. rewrite drop_replicate.
      replace (Z.to_nat (nSrc - n)) with 0%nat by lia. by rewrite Nat.sub_0_r.
Qed.

(** ** Bytes of a page *)

Lemma store_content b k bs :
  (4 + k + length bs <= length b)%nat ->
  take (k + length bs) (drop 4 (store b (4 + Z.of_nat k) bs)) = take k (drop 4 b) ++ bs.
Proof.
  intros Hl. unfold store. replace (Z.to_nat (4 + Z.of_nat k)) with (4 + k)%nat by lia.
  rewrite drop_app_le by (rewrite length_take; lia). rewrite <- take_drop_commute.
  rewrite (assoc_L (++)). rewrite take_app_le by (rewrite length_app, length_take, length_drop; lia).
  rewrite take_ge; [done|]. rewrite length_app, length_take, length_drop. lia.
Qed.

Lemma store_tail b bs : (length bs = 4)%nat -> (4 <= length b)%nat -> drop 4 (store b 0 bs) = drop 4 b.
Proof.
  intros Hl Hb. unfold store. change (Z.to_nat 0) with 0%nat. cbn [take app Nat.add]. rewrite Hl.
  rewrite take_0. cbn [app]. rewrite drop_app_ge, Hl by lia. by rewrite Nat.sub_diag.
Qed.

(** ** The loop *)

Section store.
Context (s : Start) (Hbt : bt_ok (s_bt s)).

Let Hu : 480 <= usableSize (s_bt s) <= pageSize (s_bt s).
Proof. apply Hbt. Qed.

Lemma linked_put x v ts mine p b b' :
  balanced s x v ts ((p, b) :: mine) -> linked s v ((p, b) :: mine) -> get4 b' 0 = get4 b 0 ->
  linked s (putData p b' v) ((p, b') :: mine).
Proof.
  intros Hb Hl Hg Hav q o Hq He. destruct (balanced_head _ _ _ _ _ _ _ Hb) as [_ Hpb].
  destruct (in_use s _ _ _ _ p Hb ltac:(by left)) as (Hop & _). destruct (in_use s _ _ _ _ q Hb Hq) as (Hoq & _).
  rewrite (entry_put s Hbt) in He by done. destruct (Hl Hav q o Hq He) as [H1 H2]. split; [done|].
  cbn. destruct (decide (p = o)) as [<-|Hne].
  - rewrite fn_lookup_insert. cbn. by rewrite Hg, <- H2, Hpb.
  - by rewrite fn_lookup_insert_ne.
Qed.

Lemma unnamed_put x v ts mine p b b' y :
  balanced s x v ts ((p, b) :: mine) -> unnamed s y v ((p, b) :: mine) -> unnamed s y (putData p b' v) ((p, b') :: mine).
Proof.
  intros Hb. apply unnamed_same; [done|]. intros Hav q Hq. apply (entry_put s Hbt); [done| |].
  - by destruct (in_use s _ _ _ _ p Hb ltac:(by left)) as (? & _).
  - by destruct (in_use s _ _ _ _ q Hb Hq) as (? & _).
Qed.

(** The entries of the pages [ps] in the pointer map are as they were. *)
Definition sameEntries (v v' : View) (ps : list Z) : Prop :=
  autoVacuum (s_bt s) = true -> forall q, q ∈ ps -> ptrmapEntry (s_bt s) v' q = ptrmapEntry (s_bt s) v q.

(** The entries of the overflow pages [ps], of which the first comes after the
    page [prev], or begins the chain of a cell when [prev] is 0. *)
Fixpoint chainEntries (v : View) (prev : Z) (ps : list Z) : Prop :=
  match ps with
  | [] => True
  | p :: ps' =>
      (autoVacuum (s_bt s) = true ->
       ptrmapEntry (s_bt s) v p = (if prev =? 0 then PTRMAP_OVERFLOW1 else PTRMAP_OVERFLOW2, prev)) /\
      chainEntries v p ps'
  end.

Lemma sameEntries_put x v ts mine p b b' :
  balanced s x v ts ((p, b) :: mine) -> sameEntries v (putData p b' v) (p :: (fst <$> mine)).
Proof.
  intros Hb Hav q Hq. apply (entry_put s Hbt); [done| |].
  - by destruct (in_use s _ _ _ _ p Hb ltac:(by left)) as (? & _).
  - by destruct (in_use s _ _ _ _ q Hb Hq) as (? & _).
Qed.

Lemma sameEntries_trans v1 v2 v3 ps : sameEntries v1 v2 ps -> sameEntries v2 v3 ps -> sameEntries v1 v3 ps.
Proof. intros H1 H2 Hav q Hq. by rewrite H2, H1. Qed.

(** The page [p] had [k] bytes; [R] was written behind them, and to the pages
    [new]. *)
Record filled (v : View) (mine : list (Z * list Z)) (p : Z) (b : list Z) (k : nat) (R : list Z)
    (v' : View) (ts' : list (Z * list Z)) (b' : list Z) (new : list (Z * list Z)) : Prop := {
  fi_balanced : balanced s 0 v' ts' ((p, b') :: new ++ mine);
  fi_linked : linked s v' ((p, b') :: new ++ mine);
  fi_idle : idle v' ts';
  fi_refs q : vrefs v' q = if decide (q = p) then 0%nat else vrefs v q;
  fi_data : take (k + length (take (ovflSize (s_bt s) - k) R)) (drop 4 b') =
    take k (drop 4 b) ++ take (ovflSize (s_bt s) - k) R;
  fi_chain : chain (s_bt s) v' (get4 b' 0) (fst <$> new) (drop (ovflSize (s_bt s) - k) R);
  fi_size : vsize v <= vsize v' <= vsize v + 4 * Z.of_nat (length R);
  fi_unnamed x : x ∈ fst <$> mine -> unnamed s x v ((p, b) :: mine) -> unnamed s x v' ((p, b') :: new ++ mine);
  fi_same : sameEntries v v' (p :: (fst <$> mine));
  fi_entries : chainEntries v' p (fst <$> new)
}.

(** Of the pages [ps], the new one [p2] has the entry of a page after [prev]. *)
Definition grownEntries (v v' : View) (prev p2 : Z) (ps : list Z) : Prop :=
  autoVacuum (s_bt s) = true -> forall q, q ∈ ps ->
  ptrmapEntry (s_bt s) v' q =
    if decide (q = p2) then (if prev =? 0 then PTRMAP_OVERFLOW1 else PTRMAP_OVERFLOW2, prev)
    else ptrmapEntry (s_bt s) v q.

(** The page is full: the next one, with the rest, is [p2]. *)
Lemma filled_next v mine p b k R v3 v' ts' p2 c3 c' b2 new :
  filled v3 ((p, b2) :: mine) p2 c3 0 (drop (ovflSize (s_bt s) - k) R) v' ts' c' new ->
  (ovflSize (s_bt s) - k < length R)%nat -> (k < ovflSize (s_bt s))%nat -> get4 b2 0 = p2 ->
  take (ovflSize (s_bt s)) (drop 4 b2) = take k (drop 4 b) ++ take (ovflSize (s_bt s) - k) R ->
  (forall q, vrefs v3 q = if decide (q = p) then 0%nat else if decide (q = p2) then 1%nat else vrefs v q) ->
  vrefs v p2 = 0%nat -> p2 <> p -> vsize v <= vsize v3 <= vsize v + 4 ->
  (forall x, x ∈ fst <$> mine -> unnamed s x v ((p, b) :: mine) -> unnamed s x v3 ((p2, c3) :: (p, b2) :: mine)) ->
  p2 ∉ p :: (fst <$> mine) -> grownEntries v v3 p p2 (p2 :: p :: (fst <$> mine)) ->
  filled v mine p b k R v' ts' b2 ((p2, c') :: new).
Proof.
  intros [F1 F2 F3 F4 F5 F6 F7 F8 F9 F10] HR Hk Hg Hd Hr Hr2 Hne Hs Hun Hni He3. rewrite length_drop in F7.
  assert ((p2, c') :: new ++ (p, b2) :: mine ≡ₚ (p, b2) :: ((p2, c') :: new) ++ mine) as Hperm.
  { cbn. rewrite <- Permutation_middle. apply perm_swap. }
  split; [by eapply balanced_perm|by eapply linked_perm|done| | | |lia| | |].
  4: { intros x Hx Hux. eapply unnamed_same, (F8 x); [|done|by right|by apply Hun]. intros q. by rewrite Hperm. }
  4: { intros Hav q Hq. rewrite (F9 Hav q), (He3 Hav q) by (by right). rewrite decide_False; [done|]. by intros ->. }
  4: { cbn [fmap list_fmap chainEntries fst]. split; [|done]. intros Hav. rewrite (F9 Hav p2), (He3 Hav p2) by (by left). by rewrite decide_True. }
  - intros q. rewrite F4, Hr. repeat case_decide; congruence.
  - rewrite length_take, Nat.min_l by lia. replace (k + (ovflSize (s_bt s) - k))%nat with (ovflSize (s_bt s)) by lia. done.
  - cbn [fmap list_fmap chain fst]. pose proof (ba_bytes _ _ _ _ _ F1 p2 c' ltac:(by left)) as Hc'.
    rewrite Hc'. cbn in F5. rewrite Nat.sub_0_r in F5, F6. split_and!; [done| |done|done].
    intros He. apply (f_equal length) in He. rewrite length_drop in He. cbn in He. lia.
Qed.

(** *** The next page of the chain *)

Lemma linked_grow v mine v3 mine3 p2 prev :
  linked s v mine -> (forall q, q ∈ fst <$> mine3 <-> q = p2 \/ q ∈ fst <$> mine) -> (0 ∉ fst <$> mine) ->
  grownEntries v v3 prev p2 (fst <$> mine3) ->
  (forall o, o ∈ fst <$> mine -> o <> prev -> bytes v3 o = bytes v o) ->
  (prev <> 0 -> (prev ∈ fst <$> mine) /\ get4 (bytes v3 prev) 0 = p2 /\ get4 (bytes v prev) 0 = 0) ->
  linked s v3 mine3.
Proof.
  intros Hl Hm H0 He Hb Hp Hav q o Hq Ho. rewrite He in Ho by done. rewrite (Hm o). case_decide as Hqp.
  - destruct (Z.eqb_spec prev 0) as [|Hne]; [discriminate Ho|]. injection Ho as <-.
    destruct (Hp Hne) as (H1 & H2 & _). split; [by right|]. congruence.
  - apply Hm in Hq as [?|Hq]; [done|]. destruct (Hl Hav q o Hq Ho) as [H1 H2]. split; [by right|].
    destruct (decide (o = prev)) as [->|Hne]; [|by rewrite Hb].
    exfalso. destruct (Hp ltac:(by intros ->)) as (_ & _ & H3). apply H0. congruence.
Qed.

Lemma not_zero x v ts mine : balanced s x v ts mine -> 0 ∉ fst <$> mine.
Proof. intros Hb Hin. destruct (in_use s _ _ _ _ 0 Hb Hin) as (_ & _ & _ & ? & _). lia. Qed.

(** The page [p2] was added; [prev] points to it. *)
Record linkedTo (v : View) (mine : list (Z * list Z)) (prev p2 : Z) (v3 : View) (ts3 : list (Z * list Z)) (c3 : list Z)
    (mine3 : list (Z * list Z)) : Prop := {
  lt_balanced : balanced s 0 v3 ts3 ((p2, c3) :: mine3);
  lt_linked : linked s v3 ((p2, c3) :: mine3);
  lt_idle : idle v3 ts3;
  lt_held : vrefs v3 p2 = 1%nat;
  lt_before : vrefs v p2 = 0%nat;
  lt_write : p2 ∈ vwrite v3;
  lt_end : get4 c3 0 = 0;
  lt_length : Z.of_nat (length c3) = pageSize (s_bt s);
  lt_bytes : Forall is_byte c3;
  lt_new : p2 ∉ fst <$> mine;
  lt_range : 2 <= p2 < 2 ^ 32;
  lt_size : vsize v <= vsize v3 <= vsize v + 4;
  lt_unnamed x : x <> prev -> unnamed s x v mine -> unnamed s x v3 ((p2, c3) :: mine3);
  lt_entries : grownEntries v v3 prev p2 (p2 :: (fst <$> mine3))
}.

(** The entry of the new page names [prev], the others are as they were. *)
Lemma unnamed_grow v mine v3 mine3 p2 prev x :
  (forall q, q ∈ fst <$> mine3 -> q = p2 \/ q ∈ fst <$> mine) ->
  grownEntries v v3 prev p2 (fst <$> mine3) ->
  x <> prev -> unnamed s x v mine -> unnamed s x v3 mine3.
Proof.
  intros Hm He Hx Hun Hav q Hq. rewrite He by done. destruct (Hm q Hq) as [->|Hin].
  - rewrite decide_True by done. congruence.
  - case_decide; [congruence|auto].
Qed.

Lemma zero_pointer c :
  4 <= Z.of_nat (length c) -> get4 (store c 0 (sqlite3Put4byte 0)) 0 = 0.
Proof. intros. apply get4_store; lia. Qed.

Lemma db_growChain v ts mine d p b cell (K : Z -> list Z -> DM (list Z)) (Q : list Z -> Db -> Prop) (E : Z -> Db -> Prop) :
  sees s v d -> balanced s 0 v ts ((p, b) :: mine) -> linked s v ((p, b) :: mine) -> idle v ts ->
  vrefs v p = 1%nat -> p ∈ vwrite v -> get4 b 0 = 0 -> 1 <= vsize v < 2 ^ 32 - 8 ->
  (forall p2 v3 ts3 c3 d', sees s v3 d' ->
     linkedTo v ((p, b) :: mine) p p2 v3 ts3 c3 ((p, store b 0 (sqlite3Put4byte p2)) :: mine) ->
     (forall q, vrefs v3 q = if decide (q = p) then 0%nat else if decide (q = p2) then 1%nat else vrefs v q) ->
     wp (K p2 cell) Q E d') ->
  (forall rc v' d', fault s rc -> sees s v' d' ->
     (forall q, vrefs v' q = if decide (q = p) then 0%nat else vrefs v q) -> E rc d') ->
  wp (p2 ← onError (newOverflow (s_bt s) p) (releasePage p);
      cell ← copyTo cell (AtPage p 0) (sqlite3Put4byte p2);
      releasePage p;; on p2 (put4byte 0 0);; K p2 cell) Q E d.
Proof.
  intros S0 Hb Hl Hi Hr Hw Hg Hsz HQ HE. destruct (in_use s _ _ _ _ p Hb ltac:(by left)) as (Hop & _ & _ & Hp2 & _).
  pose proof (balanced_head _ _ _ _ _ _ _ Hb) as [_ Hpb]. pose proof (se_bytes _ _ _ S0 p) as [Hlen Hby]. rewrite Hpb in Hlen, Hby.
  apply db_bind, db_onError. apply (db_newOverflow s Hbt v ts ((p, b) :: mine) d p); [done..|right; by left| |].
  2: { intros rc v' d' Hf S1 Hr1. eapply db_releaseHeld; [exact S1|lia|by rewrite Hr1|]. intros d2 S2.
       eapply HE; [done|exact S2|]. intros q. cbn. unfold insert, fn_insert. repeat case_decide; congruence. }
  intros p2 v1 ts1 d1 S1 [G1 G2 G3 G4 G5 G6 G7].
  pose proof (balanced_head _ _ _ _ _ _ _ G1) as [Hnew _]. assert (p2 <> p) as Hne by (intros ->; apply Hnew; by left).
  destruct (in_use s _ _ _ _ p2 G1 ltac:(by left)) as (Ho2 & _ & _ & Hp22 & _).
  assert (0 <= p2 < 2 ^ 32) as Hp32 by (destruct Ho2; lia).
  assert (vrefs v1 p = 1%nat) as Hr1 by (rewrite (G2 p), decide_False; [done|by intros ?%list_elem_of_singleton]).
  assert (vrefs v1 p2 = 1%nat) as Hr2 by (rewrite (G2 p2), decide_True; [done|by left]).
  apply (balanced_perm s _ _ _ _ _ (perm_swap _ _ _)) in G1.
  pose proof (se_bytes _ _ _ S1 p2) as [Hlen2 Hby2].
  apply db_bind, db_bind. eapply (db_put s Hbt v1 ts1 _ d1 0 p b); [done|exact G1|by rewrite Hr1|apply G5; inw|apply Put4byte_bytes|lia|cbn; lia|].
  intros d2 S2 B2. apply db_ret, db_bind.
  eapply db_releaseHeld; [exact S2|lia|exact Hr1|]. intros d3 S3. apply db_bind.
  apply (balanced_perm s _ _ _ _ _ (perm_swap _ _ _)) in B2. apply (balanced_refs s _ _ _ _ p 0) in B2; [|lia].
  eapply (db_put s Hbt _ ts1 _ d3 0 p2); [exact S3|exact B2|cbn; rewrite fn_lookup_insert_ne by done; by rewrite Hr2|apply G5; inw|apply Put4byte_bytes|lia|cbn; lia|].
  intros d4 S4 B4. eapply HQ; [exact S4| |].
  - match type of B4 with balanced _ _ ?v3 _ ?mine3 => set (v4 := v3) in *; set (mine4 := mine3) in * end.
    assert (grownEntries v v4 p p2 (fst <$> mine4)) as Hent.
    { intros Hav q Hq. destruct (in_use s _ _ _ _ q B4 Hq) as (Hoq & Hqs & _).
      unfold v4. rewrite (entry_put s Hbt) by done. transitivity (ptrmapEntry (s_bt s) v1 q).
      { apply (entry_put s Hbt v1 p); done. }
      apply G7; [done|done|]. cbn in Hq. apply elem_of_cons in Hq as [?|Hq]; [by right|left].
      by destruct (in_use s _ _ _ _ q Hb Hq) as (_ & ? & _). }
    split; [exact B4| | | |done| |apply zero_pointer; lia|rewrite length_store by (cbn; lia); done|apply store_bytes; [done|apply Put4byte_bytes]|done|lia|done| |exact Hent].
    5: { intros x Hx. apply (unnamed_grow v ((p, b) :: mine) v4 mine4 p2 p); [|exact Hent|done]. intros q. cbn. by rewrite !elem_of_cons. }
    + eapply (linked_grow v ((p, b) :: mine) _ _ p2 p Hl); [|by eapply not_zero|exact Hent|..].
      * intros q. cbn. by rewrite !elem_of_cons.
      * intros o Ho Hop'. cbn. rewrite !fn_lookup_insert_ne; [|done|by intros <-].
        apply list_elem_of_fmap in Ho as ([q c] & -> & Hin). cbn [fst]. rewrite (ba_bytes _ _ _ _ _ Hb q c Hin).
        apply (ba_bytes _ _ _ _ _ G1). apply elem_of_cons in Hin as [[= -> ->]|Hin]; [by left|by do 2 right].
      * intros _. split_and!; [by left| |by rewrite Hpb].
        cbn. rewrite fn_lookup_insert_ne, fn_lookup_insert by done. cbn. apply get4_store; [lia|lia|done].
    + intros q Hq. cbn. unfold insert, fn_insert. case_decide; [done|]. by apply G4.
    + cbn. by rewrite fn_lookup_insert_ne.
    + apply G5. inw.
  - intros q. cbn. unfold insert, fn_insert. repeat case_decide; try congruence.
    rewrite (G2 q), decide_False; [done|]. by intros ?%list_elem_of_singleton.
Qed.

(** *** Pages of the chain *)

Lemma content_more (b' b1 b : list Z) (k n : nat) (R : list Z) :
  (n <= length R)%nat -> (n <= ovflSize (s_bt s) - k)%nat ->
  take (k + n) (drop 4 b1) = take k (drop 4 b) ++ take n R ->
  take (k + n + length (take (ovflSize (s_bt s) - (k + n)) (drop n R))) (drop 4 b') =
    take (k + n) (drop 4 b1) ++ take (ovflSize (s_bt s) - (k + n)) (drop n R) ->
  take (k + length (take (ovflSize (s_bt s) - k) R)) (drop 4 b') = take k (drop 4 b) ++ take (ovflSize (s_bt s) - k) R.
Proof.
  intros Hn1 Hn2 H1 H2. rewrite H1, <- (assoc_L (++)) in H2.
  assert (take n R ++ take (ovflSize (s_bt s) - (k + n)) (drop n R) = take (ovflSize (s_bt s) - k) R) as Hc.
  { rewrite <- (take_drop n R) at 3. rewrite take_app_ge by (rewrite length_take; lia). f_equal. f_equal.
    rewrite length_take. lia. }
  rewrite Hc in H2. rewrite <- H2. f_equal. rewrite <- Hc, length_app, (length_take R n). lia.
Qed.

(** The bytes of one turn, in the page [p]. *)
Lemma db_portion v ts mine d p b k bs (Q : unit -> Db -> Prop) E :
  sees s v d -> balanced s 0 v ts ((p, b) :: mine) -> linked s v ((p, b) :: mine) ->
  vrefs v p = 1%nat -> p ∈ vwrite v -> get4 b 0 = 0 -> Forall is_byte bs ->
  (k + length bs <= ovflSize (s_bt s))%nat ->
  (forall b1 d', sees s (putData p b1 v) d' -> balanced s 0 (putData p b1 v) ts ((p, b1) :: mine) ->
     linked s (putData p b1 v) ((p, b1) :: mine) -> get4 b1 0 = 0 ->
     take (k + length bs) (drop 4 b1) = take k (drop 4 b) ++ bs -> Z.of_nat (length b1) = pageSize (s_bt s) ->
     Forall is_byte b1 -> Q () d') ->
  wp (on p (memwrite (4 + Z.of_nat k) bs)) Q E d.
Proof.
  intros S0 Hb Hl Hr Hw Hg Hbs Hk HQ. pose proof (balanced_head _ _ _ _ _ _ _ Hb) as [_ Hpb].
  pose proof (se_bytes _ _ _ S0 p) as [Hlen Hby]. rewrite Hpb in Hlen, Hby. unfold ovflSize in Hk.
  eapply (db_put s Hbt v ts mine d 0 p b); [done|done|by rewrite Hr|done|done|lia|lia|]. intros d' S1 B1.
  assert (get4 (store b (4 + Z.of_nat k) bs) 0 = 0) as Hg1 by (rewrite get4_store_out by (done || lia); done).
  apply (HQ (store b (4 + Z.of_nat k) bs)); try done.
  - eapply linked_put; [exact Hb|done|congruence].
  - apply store_content. lia.
  - rewrite length_store by lia. done.
  - by apply store_bytes.
Qed.

Lemma db_fillPage f : forall v ts mine d p b k R pSrc nSrc cell (Q : list Z -> Db -> Prop) (E : Z -> Db -> Prop),
  sees s v d -> balanced s 0 v ts ((p, b) :: mine) -> linked s v ((p, b) :: mine) -> idle v ts ->
  vrefs v p = 1%nat -> p ∈ vwrite v -> get4 b 0 = 0 -> (k < ovflSize (s_bt s))%nat ->
  R <> [] -> remains R pSrc nSrc -> Forall is_byte R -> (length R <= f)%nat ->
  1 <= vsize v -> vsize v + 4 * Z.of_nat (length R) < 2 ^ 32 - 8 ->
  (forall v' ts' b' new d', sees s v' d' -> filled v mine p b k R v' ts' b' new -> Q cell d') ->
  (forall rc v' d', fault s rc -> sees s v' d' ->
     (forall q, vrefs v' q = if decide (q = p) then 0%nat else vrefs v q) -> E rc d') ->
  wp (fillLoop f (s_bt s) cell (AtPage p (4 + Z.of_nat k)) (AtPage p 0) pSrc nSrc (Z.of_nat (length R))
        (usableSize (s_bt s) - 4 - Z.of_nat k) p p) Q E d.
Proof.
  induction f as [|f IH]; intros v ts mine d p b k R pSrc nSrc cell Q E S0 Hb Hl Hi Hr Hw Hg Hk HR Hrem HRb Hf H1 Hsz HQ HE.
  { destruct R; [done|cbn in Hf; lia]. }
  cbn [fillLoop]. destruct (in_use s _ _ _ _ p Hb ltac:(by left)) as (_ & _ & _ & Hp2 & _).
  set (w := usableSize (s_bt s) - 4 - Z.of_nat k).
  assert (Z.to_nat w = ovflSize (s_bt s) - k)%nat as Hw' by (unfold w, ovflSize; lia).
  destruct (portion_spec R pSrc nSrc w Hrem HR ltac:(unfold w, ovflSize in *; lia)) as (Hn1 & Hn2 & Hsrc & Hrem').
  fold (portion nSrc (Z.of_nat (length R)) w). set (n := portion nSrc (Z.of_nat (length R)) w) in *. cbv zeta.
  apply db_bind, Hsrc, db_bind, db_bind.
  assert (length (take (Z.to_nat n) R) = Z.to_nat n) as Hlt by (rewrite length_take; lia).
  eapply (db_portion v ts mine d p b k); [done..|by apply Forall_take|lia|]. rewrite Hlt.
  intros b1 d1 S1 B1 L1 Hg1 Hc1 Hlb1 Hby1. apply db_ret.
  destruct (Z.leb_spec (Z.of_nat (length R) - n) 0) as [Hend|Hmore].
  { apply db_bind. eapply db_releaseHeld; [exact S1|lia|exact Hr|]. intros d2 S2. apply db_ret.
    eapply (HQ _ ts b1 []); [exact S2|]. rewrite (take_ge R) in Hc1 by lia.
    split; [apply balanced_refs; [done|lia]|by eapply linked_frame, L1| | | | |cbn; lia| |by eapply sameEntries_put|done].
    5: { intros x _ Hux. eapply (unnamed_put _ _ _ _ _ _ b1) in Hux; [|exact Hb]. exact Hux. }
    - intros q Hq. cbn. unfold insert, fn_insert. case_decide; [done|]. by apply Hi.
    - intros q. cbn. unfold insert, fn_insert. repeat case_decide; congruence.
    - rewrite (take_ge R) by lia. replace (length R) with (Z.to_nat n) by lia. done.
    - cbn. split; [done|]. apply drop_ge. lia. }
  pose proof (length_drop R (Z.to_nat n)) as Hld. assert (drop (Z.to_nat n) R <> []) as HR'.
  { intros He. rewrite He in Hld. cbn in Hld. lia. }
  replace (Z.of_nat (length R) - n) with (Z.of_nat (length (drop (Z.to_nat n) R))) by lia.
  destruct (Z.eqb_spec (w - n) 0) as [Hfull|Hroom].
  - assert (Z.to_nat n = ovflSize (s_bt s) - k)%nat as Hnk by lia. rewrite Hnk in *.
    eapply (db_growChain _ ts mine d1 p b1 cell); [exact S1|done|done|done|done|done|done|cbn; lia| |exact HE].
    intros p2 v3 ts3 c3 d3 S3 [T1 T2 T3 T4 T5 T6 T7 T8 T9 T10 T11 T12 T13 T14] Hr3. cbn [vsize putData putPage] in T12.
    replace (usableSize (s_bt s) - 4) with (usableSize (s_bt s) - 4 - Z.of_nat 0) by lia.
    change 4 with (4 + Z.of_nat 0) at 1.
    eapply (IH v3 ts3 _ d3 p2 c3 0%nat (drop (ovflSize (s_bt s) - k) R)); try done; [unfold ovflSize; lia|by apply Forall_drop|lia|lia|lia| |].
    + intros v' ts' b' new d' S4 F4. eapply HQ; [exact S4|]. eapply filled_next; [exact F4|lia|done| | |exact Hr3|exact T5| |done| |exact T10|].
      5: { intros Hav q Hq. rewrite (T14 Hav q) by done. case_decide as Hqp; [done|].
           apply (sameEntries_put 0 v ts mine p b b1 Hb Hav). by apply elem_of_cons in Hq as [?|?]. }
      4: { intros x Hx Hux. apply T13.
           - intros ->. destruct (balanced_head _ _ _ _ _ _ _ Hb) as [Hnp _]. done.
           - by eapply unnamed_put. }
      * apply get4_store; lia.
      * rewrite store_tail by (done || lia). rewrite <- Hc1. f_equal. lia.
      * intros ->. apply T10. by left.
    + intros rc v' d' Hfa S4 Hr4. eapply HE; [done|exact S4|]. intros q. rewrite Hr4, Hr3. cbn in T5 |- *. repeat case_decide; congruence.
  - replace (w - n) with (usableSize (s_bt s) - 4 - Z.of_nat (k + Z.to_nat n)) by (unfold w; lia).
    cbn [advance]. replace (4 + Z.of_nat k + n) with (4 + Z.of_nat (k + Z.to_nat n)) by lia.
    eapply (IH _ ts mine d1 p b1 (k + Z.to_nat n)%nat (drop (Z.to_nat n) R));
      [exact S1|exact B1|exact L1|done|done|done|done|lia|done|done|by apply Forall_drop|lia|done|cbn; lia| |].
    + intros v' ts' b' new d' S4 [F1 F2 F3 F4 F5 F6 F7 F8 F9 F10]. eapply HQ; [exact S4|].
      split; [done|done|done|done| | |cbn in F7; lia| |eapply sameEntries_trans; [by eapply sameEntries_put|exact F9]|done].
      3: { intros x Hx Hux. apply (F8 x Hx). by eapply unnamed_put. }
      * apply (content_more b' b1 b k (Z.to_nat n)); [lia|lia|exact Hc1|exact F5].
      * rewrite drop_drop in F6. replace (Z.to_nat n + (ovflSize (s_bt s) - (k + Z.to_nat n)))%nat with (ovflSize (s_bt s) - k)%nat in F6 by lia. done.
    + exact HE.
Qed.

(** *** The cell *)

Lemma db_firstPage v ts mine d cell a (K : Z -> list Z -> DM (list Z)) (Q : list Z -> Db -> Prop) (E : Z -> Db -> Prop) :
  sees s v d -> balanced s 0 v ts mine -> linked s v mine -> idle v ts -> 1 <= vsize v < 2 ^ 32 - 8 ->
  0 <= a -> a + 4 <= Z.of_nat (length cell) ->
  (forall p v3 ts3 c3 d', sees s v3 d' -> linkedTo v mine 0 p v3 ts3 c3 mine ->
     (forall q, vrefs v3 q = if decide (q = p) then 1%nat else vrefs v q) ->
     wp (K p (store cell a (sqlite3Put4byte p))) Q E d') ->
  (forall rc v' d', fault s rc -> sees s v' d' -> (forall q, vrefs v' q = vrefs v q) -> E rc d') ->
  wp (p ← onError (newOverflow (s_bt s) 0) (releasePage 0);
      cell ← copyTo cell (AtCell a) (sqlite3Put4byte p);
      releasePage 0;; on p (put4byte 0 0);; K p cell) Q E d.
Proof.
  intros S0 Hb Hl Hi Hsz Ha Hal HQ HE. apply db_bind, db_onError.
  apply (db_newOverflow s Hbt v ts mine d 0); [done..|by left| |].
  2: { intros rc v' d' Hf S1 Hr1. apply db_ret. by eapply HE. }
  intros p v1 ts1 d1 S1 [G1 G2 G3 G4 G5 G6 G7].
  pose proof (balanced_head _ _ _ _ _ _ _ G1) as [Hnew _].
  destruct (in_use s _ _ _ _ p G1 ltac:(by left)) as (Ho & _ & _ & Hp2 & _).
  assert (vrefs v1 p = 1%nat) as Hr1 by (rewrite (G2 p), decide_True; [done|by left]).
  pose proof (se_bytes _ _ _ S1 p) as [Hlen Hby].
  apply db_bind. unfold wp at 1, copyTo. rewrite inside_true by (cbn; lia). apply db_bind, db_ret, db_bind.
  eapply (db_put s Hbt v1 ts1 mine d1 0 p); [done|exact G1|by rewrite Hr1|apply G5; inw|apply Put4byte_bytes|lia|cbn; lia|].
  intros d2 S2 B2. eapply HQ; [exact S2| |].
  - match type of B2 with balanced _ _ ?v3 _ ?mine3 => set (v4 := v3) in *; set (mine4 := mine3) in * end.
    assert (grownEntries v v4 0 p (fst <$> mine4)) as Hent.
    { intros Hav q Hq. destruct (in_use s _ _ _ _ q B2 Hq) as (Hoq & Hqs & _). unfold v4. rewrite (entry_put s Hbt) by done.
      apply G7; [done|done|]. cbn in Hq. apply elem_of_cons in Hq as [?|Hq]; [by right|left].
      by destruct (in_use s _ _ _ _ q Hb Hq) as (_ & ? & _). }
    split; [exact B2| |exact G4|done|done|apply G5; inw|apply zero_pointer; lia|rewrite length_store by (cbn; lia); done|apply store_bytes; [done|apply Put4byte_bytes]|done|destruct Ho; lia|done| |exact Hent].
    2: { intros x Hx. apply (unnamed_grow v mine v4 mine4 p 0); [|exact Hent|done]. intros q. cbn. by rewrite elem_of_cons. }
    eapply (linked_grow v mine _ _ p 0 Hl); [|by eapply not_zero|exact Hent|..|done].
    + intros q. cbn. by rewrite elem_of_cons.
    + intros o Hin _. cbn. rewrite fn_lookup_insert_ne by (by intros <-).
      apply list_elem_of_fmap in Hin as ([q c] & -> & Hin). cbn [fst]. rewrite (ba_bytes _ _ _ _ _ Hb q c Hin).
      apply (ba_bytes _ _ _ _ _ G1). by right.
  - intros q. cbn. rewrite (G2 q). apply decide_ext. by rewrite list_elem_of_singleton.
Qed.

(** The buffer [cell] had [k] bytes of payload at [base], of [nl]; [R] was
    written behind them, and to the pages [new]. *)
Record spilled (v : View) (mine : list (Z * list Z)) (cell : list Z) (base nl k : nat) (R : list Z)
    (v' : View) (ts' : list (Z * list Z)) (new : list (Z * list Z)) (cell' : list Z) : Prop := {
  sp_balanced : balanced s 0 v' ts' (new ++ mine);
  sp_linked : linked s v' (new ++ mine);
  sp_idle : idle v' ts';
  sp_refs q : vrefs v' q = vrefs v q;
  sp_length : length cell' = length cell;
  sp_before : take base cell' = take base cell;
  sp_local : take nl (drop base cell') = take k (drop base cell) ++ take (nl - k) R;
  sp_bytes : Forall is_byte cell -> Forall is_byte cell';
  sp_chain : chain (s_bt s) v' (get4 cell' (Z.of_nat (base + nl))) (fst <$> new) (drop (nl - k) R);
  sp_size : vsize v <= vsize v' <= vsize v + 4 * Z.of_nat (length R);
  sp_unnamed x : x ∈ fst <$> mine -> unnamed s x v mine -> unnamed s x v' (new ++ mine);
  sp_same : sameEntries v v' (fst <$> mine);
  sp_entries : chainEntries v' 0 (fst <$> new)
}.

Lemma store_before (cell bs : list Z) (a base : nat) :
  (base <= a)%nat -> (a + length bs <= length cell)%nat -> take base (store cell (Z.of_nat a) bs) = take base cell.
Proof.
  intros Hb Hl. unfold store. rewrite Nat2Z.id. rewrite take_app_le by (rewrite length_take; lia).
  by rewrite take_take, Nat.min_l.
Qed.

Lemma store_behind (cell bs : list Z) (base k : nat) :
  (base + k + length bs <= length cell)%nat ->
  take (k + length bs) (drop base (store cell (Z.of_nat (base + k)) bs)) = take k (drop base cell) ++ bs.
Proof.
  intros Hl. unfold store. rewrite Nat2Z.id. rewrite drop_app_le by (rewrite length_take; lia).
  rewrite <- take_drop_commute. rewrite (assoc_L (++)).
  rewrite take_app_le by (rewrite length_app, length_take, length_drop; lia).
  rewrite take_ge; [done|]. rewrite length_app, length_take, length_drop. lia.
Qed.

(** The first page of the chain, when the cell is full. *)
Lemma spilled_first v mine cell base nl k R v3 ts3 c3 p v' ts' b' new :
  linkedTo v mine 0 p v3 ts3 c3 mine ->
  (forall q, vrefs v3 q = if decide (q = p) then 1%nat else vrefs v q) ->
  filled v3 mine p c3 0 (drop (nl - k) R) v' ts' b' new ->
  (base + nl + 4 <= length cell)%nat -> (k <= nl)%nat -> (nl - k < length R)%nat -> (k < nl)%nat -> Forall is_byte R ->
  spilled v mine cell base nl k R v' ts' ((p, b') :: new)
    (store (store cell (Z.of_nat (base + k)) (take (nl - k) R)) (Z.of_nat (base + nl)) (sqlite3Put4byte p)).
Proof.
  intros [T1 T2 T3 T4 T5 T6 T7 T8 T9 T10 T11 T12 T13 T14] Hr3 [F1 F2 F3 F4 F5 F6 F7 F8 F9 F10] Hlen Hk HR Hk' HRb.
  assert (length (take (nl - k) R) = nl - k)%nat as Hlt by (rewrite length_take; lia).
  rewrite length_drop in F7. set (c1 := store cell _ (take (nl - k) R)).
  assert (length c1 = length cell) as Hl1 by (unfold c1; rewrite length_store; lia).
  split; [done|done|done| | | | | | |lia| | |].
  8: { intros Hav q Hq. rewrite (F9 Hav q), (T14 Hav q) by (by right). rewrite decide_False; [done|]. by intros ->. }
  8: { cbn [fmap list_fmap chainEntries fst]. split; [|done]. intros Hav. rewrite (F9 Hav p), (T14 Hav p) by (by left). by rewrite decide_True. }
  7: { intros x Hx Hux. apply (F8 x Hx), T13; [|done]. intros ->. eapply not_zero; [exact T1|]. by right. }
  - intros q. rewrite F4, Hr3. repeat case_decide; congruence.
  - rewrite length_store by (cbn; lia). done.
  - rewrite store_before by (cbn; lia). unfold c1. apply store_before; lia.
  - rewrite !take_drop_commute, store_before, <- take_drop_commute by (cbn; lia).
    replace nl with (k + length (take (nl - k) R))%nat at 1 by lia. unfold c1. rewrite store_behind by lia.
    by rewrite take_drop_commute.
  - intros Hc. apply store_bytes; [|apply Put4byte_bytes]. apply store_bytes; [done|by apply Forall_take].
  - rewrite get4_store by lia. cbn [fmap list_fmap chain fst].
    rewrite (ba_bytes _ _ _ _ _ F1 p b' ltac:(by left)). cbn in F5. rewrite Nat.sub_0_r in F5, F6.
    split_and!; [done| |done|done]. intros He. apply (f_equal length) in He. rewrite length_drop in He. cbn in He. lia.
Qed.

(** A turn that ends with the source. *)
Lemma spilled_more v mine cell base nl k n R v' ts' new cell' :
  (base + nl + 4 <= length cell)%nat -> (k + n <= nl)%nat -> (n <= length R)%nat -> Forall is_byte R ->
  spilled v mine (store cell (Z.of_nat (base + k)) (take n R)) base nl (k + n) (drop n R) v' ts' new cell' ->
  spilled v mine cell base nl k R v' ts' new cell'.
Proof.
  intros Hlen Hk Hn HRb [F1 F2 F3 F4 F5 F6 F7 F8 F9 F10 F11 F12 F13].
  assert (length (take n R) = n) as Hlt by (rewrite length_take; lia).
  rewrite length_store in F5 by lia. rewrite length_drop in F10. rewrite store_before in F6 by lia.
  split; try done; [| | |lia].
  - rewrite F7. pose proof (store_behind cell (take n R) base k ltac:(lia)) as Hs. rewrite Hlt in Hs. rewrite Hs.
    rewrite <- (assoc_L (++)). f_equal. rewrite <- (take_drop n R) at 3. rewrite take_app_ge by lia.
    f_equal. f_equal. lia.
  - intros Hc. apply F8. apply store_bytes; [done|by apply Forall_take].
  - rewrite drop_drop in F9. by replace (n + (nl - (k + n)))%nat with (nl - k)%nat in F9 by lia.
Qed.

Lemma db_fillCell v ts mine base nl f : forall d cell k R pSrc nSrc (Q : list Z -> Db -> Prop) (E : Z -> Db -> Prop),
  sees s v d -> balanced s 0 v ts mine -> linked s v mine -> idle v ts ->
  (base + nl + 4 <= length cell)%nat -> (k < nl)%nat -> (nl - k < length R)%nat ->
  remains R pSrc nSrc -> Forall is_byte R -> (length R <= f)%nat ->
  1 <= vsize v -> vsize v + 4 * Z.of_nat (length R) < 2 ^ 32 - 8 ->
  (forall v' ts' new cell' d', sees s v' d' -> spilled v mine cell base nl k R v' ts' new cell' -> Q cell' d') ->
  (forall rc v' d', fault s rc -> sees s v' d' -> (forall q, vrefs v' q = vrefs v q) -> E rc d') ->
  wp (fillLoop f (s_bt s) cell (AtCell (Z.of_nat (base + k))) (AtCell (Z.of_nat (base + nl))) pSrc nSrc
        (Z.of_nat (length R)) (Z.of_nat (nl - k)) 0 0) Q E d.
Proof.
  induction f as [|f IH]; intros d cell k R pSrc nSrc Q E S0 Hb Hl Hi Hlen Hk HR Hrem HRb Hf H1 Hsz HQ HE; [lia|].
  cbn [fillLoop]. assert (R <> []) as HR0 by (by intros ->; cbn in HR; lia).
  destruct (portion_spec R pSrc nSrc (Z.of_nat (nl - k)) Hrem HR0 ltac:(lia)) as (Hn1 & Hn2 & Hsrc & Hrem').
  fold (portion nSrc (Z.of_nat (length R)) (Z.of_nat (nl - k))).
  set (n := portion nSrc (Z.of_nat (length R)) (Z.of_nat (nl - k))) in *. cbv zeta.
  assert (length (take (Z.to_nat n) R) = Z.to_nat n) as Hlt by (rewrite length_take; lia).
  apply db_bind, Hsrc, db_bind. unfold wp at 1, copyTo. rewrite inside_true by lia.
  destruct (Z.leb_spec (Z.of_nat (length R) - n) 0); [lia|].
  pose proof (length_drop R (Z.to_nat n)) as Hld.
  replace (Z.of_nat (length R) - n) with (Z.of_nat (length (drop (Z.to_nat n) R))) by lia.
  set (c1 := store cell (Z.of_nat (base + k)) (take (Z.to_nat n) R)).
  assert (length c1 = length cell) as Hl1 by (unfold c1; rewrite length_store; lia).
  destruct (Z.eqb_spec (Z.of_nat (nl - k) - n) 0) as [Hfull|Hroom].
  - assert (Z.to_nat n = nl - k)%nat as Hnk by lia. unfold c1 in *. rewrite Hnk in *.
    apply (db_firstPage v ts mine d); [done..|lia|lia|lia| |done].
    intros p v3 ts3 c3 d3 S3 T3 Hr3. pose proof T3 as [T1 T2 T4 T5 T6 T7 T8 T9 T10 T11 T12 T13 _ _].
    replace (usableSize (s_bt s) - 4) with (usableSize (s_bt s) - 4 - Z.of_nat 0) by lia. change 4 with (4 + Z.of_nat 0) at 1.
    eapply (db_fillPage f v3 ts3 mine d3 p c3 0%nat (drop (nl - k) R));
      [done..|unfold ovflSize; lia| |done|by apply Forall_drop|lia|lia|lia| |].
    + intros He. rewrite He in Hld. cbn in Hld. lia.
    + intros v' ts' b' new d' S4 F4. eapply HQ; [exact S4|]. eapply spilled_first; [exact T3|exact Hr3|exact F4|lia..|done].
    + intros rc v' d' Hfa S4 Hr4. eapply HE; [done|exact S4|]. intros q. rewrite Hr4, Hr3. repeat case_decide; congruence.
  - cbn [advance]. replace (Z.of_nat (nl - k) - n) with (Z.of_nat (nl - (k + Z.to_nat n))) by lia.
    replace (Z.of_nat (base + k) + n) with (Z.of_nat (base + (k + Z.to_nat n))) by lia.
    eapply (IH d c1 (k + Z.to_nat n)%nat (drop (Z.to_nat n) R)); [done..|lia|lia|lia|done|by apply Forall_drop|lia|lia|lia| |exact HE].
    intros v' ts' new cell' d' S4 F4. eapply HQ; [exact S4|]. by eapply spilled_more; [lia|..|exact F4]; [lia|lia|].
Qed.
End store.
