(* ===== verification/BtFill.v ===== *)
(** * The cell that fillInCell writes

    The header is read back by the functions that parse cells, with the size
    that [fillInCell] returns; the payload is on the cell and on the chain. *)

From stdpp Require Import base numbers option gmap sets functions list.
From S2P Require Import Prelude Util Varint Bitvec Btree BtVarint BtCell BtMem BtPage BtPager BtView BtPtrmap BtFreelist BtTrunk BtTake BtAllocate BtRelease BtBalance BtPayload BtChain BtStore.
#[local] Open Scope Z_scope.

(** ** The header *)

Lemma putVarint32_encodes n : 0 <= n < 2 ^ 31 -> encodes n (putVarint32 n).
Proof.
  intros Hn. unfold putVarint32. rewrite u32_small by lia. destruct (Z.ltb_spec n 0x80).
  - exists [], n. split; [unfold u8; by rewrite Z.mod_small by lia|]. split; [done|]. left. cbn. split_and!; auto; lia.
  - unfold u64. rewrite Z.mod_small by lia. apply putVarint_encodes. lia.
Qed.

Lemma encodes_short v p : encodes v p -> v < 2 ^ 56 -> (length p <= 8)%nat.
Proof.
  intros (l & b & -> & _ & [(Hl & _)|(_ & _ & _ & Hv)]) H; [|lia]. rewrite length_app. cbn. lia.
Qed.

Lemma encodes_length v p : encodes v p -> (1 <= length p <= 9)%nat.
Proof. intros (l & b & -> & _ & [(Hl & _)|(Hl & _)]); rewrite length_app; cbn; lia. Qed.

Lemma varint_at pre h rest v :
  encodes v h -> varintLen (pre ++ h ++ rest) (Z.of_nat (length pre)) = Z.of_nat (length h) /\
    varintVal (pre ++ h ++ rest) (Z.of_nat (length pre)) = v.
Proof.
  intros He. unfold varintLen, varintVal. rewrite Nat2Z.id, drop_app_length, (encodes_decodes v) by done. done.
Qed.

Lemma getPayloadSize_at pre h rest n :
  encodes n h -> 0 <= n < 2 ^ 31 -> Forall is_byte (pre ++ h ++ rest) ->
  getPayloadSize (pre ++ h ++ rest) (Z.of_nat (length pre)) = (n, Z.of_nat (length pre + length h)).
Proof.
  intros He Hn Hb. destruct (varint_at pre h rest n He) as [Hl Hv].
  destruct (getPayloadSize_ref _ (Z.of_nat (length pre)) Hb ltac:(lia)) as (w & -> & Hw).
  rewrite Hl in *. rewrite Hw, Hv, u32_small; [f_equal; lia|lia|].
  pose proof (encodes_short n h He ltac:(lia)). lia.
Qed.

(** The bytes before the payload, after those of the child pointer. *)
Definition header (pPage : MemPage) (pX : BtreePayload) (nPayload : Z) : list Z :=
  putVarint32 nPayload ++ (if intKey pPage then sqlite3PutVarint (u64 (px_nKey pX)) else []).

Definition keyOf (pPage : MemPage) (pX : BtreePayload) (nPayload : Z) : Z :=
  if intKey pPage then px_nKey pX else nPayload.

Lemma u64_i64 x : - 2 ^ 63 <= x < 2 ^ 63 -> i64 (u64 x) = x.
Proof.
  intros Hx. unfold i64, u64. destruct (decide (0 <= x)).
  - rewrite Z.mod_small by lia. destruct (Z.ltb_spec x (2 ^ 63)); lia.
  - rewrite <- (Z.mod_unique x (2 ^ 64) (-1) (x + 2 ^ 64)) by lia. destruct (Z.ltb_spec (x + 2 ^ 64) (2 ^ 63)); lia.
Qed.

Lemma u64_range x : 0 <= u64 x < 2 ^ 64.
Proof. apply Z.mod_pos_bound. lia. Qed.

Lemma header_parse p pX n pre rest :
  bt_ok (pBt p) -> kind_ok p -> (intKey p = true -> leaf p = true) -> 0 <= n < 2 ^ 31 ->
  - 2 ^ 63 <= px_nKey pX < 2 ^ 63 -> Z.of_nat (length pre) = childPtrSize p -> Forall is_byte pre -> Forall is_byte rest ->
  let h := header p pX n in let pc := childPtrSize p + Z.of_nat (length h) in
  Forall is_byte h /\ (1 <= length h)%nat /\ 1 <= pc <= 17 /\
  xParseCell p (pre ++ h ++ rest) = mkCellInfo (keyOf p pX n) (Some pc) n (btreePayloadToLocal p n) (sizeWith p n pc).
Proof.
  intros Hb Hk Hlf Hn Hkey Hpre Hpb Hrb h pc. pose proof (putVarint32_encodes n Hn) as He.
  pose proof (encodes_short _ _ He ltac:(lia)) as Hs. pose proof (encodes_length _ _ He) as Hl1.
  pose proof (encodes_bytes _ _ He) as Hhb. pose proof (putVarint_encodes _ (u64_range (px_nKey pX))) as He2.
  pose proof (encodes_length _ _ He2) as Hl2. pose proof (encodes_bytes _ _ He2) as Hkb.
  subst pc h. unfold header, keyOf, xParseCell in *.
  destruct (kind_cases p Hk) as [Hc|[Hc|[Hc|Hc]]]; destruct Hc as (_ & -> & Hch & Hle & Hik & _);
    rewrite Hik in *; [| | |by rewrite Hlf in Hle].
  - assert (pre = []) as -> by (destruct pre; [done|cbn in Hpre; lia]). clear Hpre Hpb.
    assert (Forall is_byte ((putVarint32 n ++ sqlite3PutVarint (u64 (px_nKey pX))) ++ rest)) as Hall by (by rewrite !Forall_app).
    rewrite length_app, Hch. split_and!; [by rewrite Forall_app|lia|lia|lia|]. cbn [app]. unfold btreeParseCellPtr.
    rewrite <- (assoc_L (++)) in Hall |- *. pose proof (getPayloadSize_at [] _ _ n He Hn Hall) as Hg. change (Z.of_nat (length [])) with 0 in Hg. cbn [app length Nat.add] in Hg. rewrite Hg.
    rewrite getKey_at by (done || lia).
    destruct (varint_at (putVarint32 n) (sqlite3PutVarint (u64 (px_nKey pX))) rest _ He2) as [-> ->].
    rewrite u64_i64 by done. rewrite <- (parse_spec p n _ (px_nKey pX) Hb Hk) by lia. f_equal.
    all: rewrite ?Nat2Z.inj_add; done.
  - assert (pre = []) as -> by (destruct pre; [done|cbn in Hpre; lia]). clear Hpre Hpb.
    assert (Forall is_byte (putVarint32 n ++ rest)) as Hall by (by rewrite !Forall_app).
    rewrite app_nil_r, Hch. split_and!; [done|lia|lia|lia|]. cbn [app]. unfold btreeParseCellPtrIndex.
    rewrite Hch. pose proof (getPayloadSize_at [] _ _ n He Hn Hall) as Hg. change (Z.of_nat (length [])) with 0 in Hg. cbn [app length Nat.add] in Hg. rewrite Hg.
    rewrite <- (parse_spec p n _ n Hb Hk) by lia. done.
  - assert (Forall is_byte (pre ++ putVarint32 n ++ rest)) as Hall by (by rewrite !Forall_app).
    rewrite app_nil_r. rewrite Hch in *. split_and!; [done|lia|lia|lia|]. unfold btreeParseCellPtrIndex.
    rewrite Hch. pose proof (getPayloadSize_at pre _ _ n He Hn Hall) as Hg. rewrite Hpre in Hg. rewrite Hg.
    rewrite <- (parse_spec p n _ n Hb Hk) by lia. by rewrite Nat2Z.inj_add, Hpre.
Qed.

(** ** The cell *)

(** The payload [P] of [pX], on a page like [p]. *)
Record insertable (p : MemPage) (pX : BtreePayload) (P : list Z) : Prop := {
  is_bt : bt_ok (pBt p);
  is_kind : kind_ok p;
  is_leaf : intKey p = true -> leaf p = true;
  is_key : - 2 ^ 63 <= px_nKey pX < 2 ^ 63;
  is_payload : P = if intKey p then px_pData pX ++ replicate (Z.to_nat (px_nZero pX)) 0 else px_pKey pX;
  is_source : if intKey p then px_nData pX = Z.of_nat (length (px_pData pX)) /\ 0 <= px_nZero pX
              else px_nKey pX = Z.of_nat (length (px_pKey pX));
  is_length : Z.of_nat (length P) < 2 ^ 31;
  is_bytes : Forall is_byte P
}.

(** The header of the cell. *)
Abbreviation headerOf p pX P := (header p pX (Z.of_nat (length P))).
Abbreviation payloadAt p pX P := (Z.to_nat (childPtrSize p) + length (headerOf p pX P))%nat.
Abbreviation localOf p P := (Z.to_nat (btreePayloadToLocal p (Z.of_nat (length P)))).

(** The buffer [cell] has a cell of [n] bytes with the payload [P]. *)
Record cellWith (p : MemPage) (pX : BtreePayload) (P : list Z) (cell : list Z) (n : Z) : Prop := {
  cw_size : 0 <= n <= Z.of_nat (length cell);
  cw_is : n = sizeWith p (Z.of_nat (length P)) (Z.of_nat (payloadAt p pX P));
  cw_parse rest : Forall is_byte rest ->
    xParseCell p (take (Z.to_nat n) cell ++ rest) =
    mkCellInfo (keyOf p pX (Z.of_nat (length P))) (Some (Z.of_nat (payloadAt p pX P)))
      (Z.of_nat (length P)) (Z.of_nat (localOf p P)) n;
  cw_local : take (localOf p P) (drop (payloadAt p pX P) cell) = take (localOf p P) P;
  cw_bytes : Forall is_byte cell
}.

Lemma childPtrSize_cases p : kind_ok p -> childPtrSize p = 0 \/ childPtrSize p = 4.
Proof. intros Hk. destruct (kind_cases p Hk) as [H|[H|[H|H]]]; destruct H as (_ & _ & -> & _); auto. Qed.

(** A buffer that begins with the header and has the local part behind it. *)
Lemma cellWith_intro p pX P cell n :
  insertable p pX P -> n = sizeWith p (Z.of_nat (length P)) (Z.of_nat (payloadAt p pX P)) ->
  n <= Z.of_nat (length cell) -> Forall is_byte cell ->
  take (length (headerOf p pX P)) (drop (Z.to_nat (childPtrSize p)) cell) = headerOf p pX P ->
  take (localOf p P) (drop (payloadAt p pX P) cell) = take (localOf p P) P -> cellWith p pX P cell n.
Proof.
  intros [I1 I2 I3 I4 I5 I6 I7 I8] Hn Hlen Hb Hh Hl. pose proof (childPtrSize_cases p I2) as Hc.
  destruct (toLocal_bounds p (Z.of_nat (length P)) I1 I2 ltac:(lia)) as [Hl1 Hl2].
  assert (Z.of_nat (payloadAt p pX P) <= n) as Hpc.
  { rewrite Hn. unfold sizeWith. destruct (_ <=? _); lia. }
  split; [lia|done| |done|done]. intros rest Hr.
  assert (take (Z.to_nat n) cell ++ rest = take (Z.to_nat (childPtrSize p)) cell ++ headerOf p pX P ++
    (drop (payloadAt p pX P) (take (Z.to_nat n) cell) ++ rest)) as He.
  { pose proof (take_take_drop cell (Z.to_nat (childPtrSize p)) (length (headerOf p pX P))) as Ht. rewrite Hh in Ht.
    rewrite !(assoc_L (++)), Ht. f_equal. pose proof (take_drop (payloadAt p pX P) (take (Z.to_nat n) cell)) as Hd.
    rewrite take_take, Nat.min_l in Hd by lia. done. }
  rewrite He.
  destruct (header_parse p pX (Z.of_nat (length P)) (take (Z.to_nat (childPtrSize p)) cell)
    (drop (payloadAt p pX P) (take (Z.to_nat n) cell) ++ rest)) as (_ & _ & _ & Hp); try done; try lia.
  - rewrite length_take. lia.
  - by apply Forall_take.
  - apply Forall_app. split; [by apply Forall_drop, Forall_take|done].
  - rewrite Hp. replace (childPtrSize p + Z.of_nat (length (headerOf p pX P))) with (Z.of_nat (payloadAt p pX P)) by lia.
    f_equal; [lia|done].
Qed.

Lemma minLocal_positive p : bt_ok (pBt p) -> kind_ok p -> 1 <= minLocal p.
Proof.
  intros [Hu Hp _ Hl] Hk.
  assert (58 <= (usableSize (pBt p) - 12) * 32 / 255).
  { pose proof (Z.div_le_mono (468 * 32) ((usableSize (pBt p) - 12) * 32) 255 ltac:(lia) ltac:(lia)) as H.
    change (468 * 32 / 255) with 58 in H. lia. }
  assert ((usableSize (pBt p) - 12) * 32 / 255 <= 65536) by (apply Z.div_le_upper_bound; lia).
  assert (minLocal p = u16 ((usableSize (pBt p) - 12) * 32 / 255 - 23)) as ->.
  { destruct (kind_cases p Hk) as [H1|[H1|[H1|H1]]]; destruct H1 as (_ & _ & _ & _ & _ & _ & ->); by rewrite Hl. }
  unfold u16. rewrite Z.mod_small; lia.
Qed.

Lemma fill_local p n :
  bt_ok (pBt p) -> kind_ok p -> maxLocal p < n < 2 ^ 31 ->
  (let l := minLocal p + u32 (n - minLocal p) mod (usableSize (pBt p) - 4) in if maxLocal p <? l then minLocal p else l)
  = btreePayloadToLocal p n /\ 1 <= btreePayloadToLocal p n <= maxLocal p.
Proof.
  intros Hb Hk Hn. pose proof (minLocal_positive p Hb Hk). destruct (limits_bounds p Hb Hk) as [H1 H2].
  pose proof (bo_usable _ Hb). cbv zeta. rewrite u32_small by lia. unfold btreePayloadToLocal.
  destruct (Z.leb_spec n (maxLocal p)); [lia|].
  pose proof (Z.mod_pos_bound (n - minLocal p) (usableSize (pBt p) - 4) ltac:(lia)).
  rewrite Z.ltb_antisym. destruct (Z.leb_spec (minLocal p + (n - minLocal p) mod (usableSize (pBt p) - 4)) (maxLocal p)); cbn; lia.
Qed.

Lemma insertable_remains p pX P :
  insertable p pX P ->
  remains P (if intKey p then px_pData pX else px_pKey pX) (if intKey p then px_nData pX else toInt (px_nKey pX)) /\
  (if intKey p then px_nData pX + px_nZero pX else toInt (px_nKey pX)) = Z.of_nat (length P) /\
  0 <= (if intKey p then px_nData pX else toInt (px_nKey pX)).
Proof.
  intros [I1 I2 I3 I4 I5 I6 I7 I8]. destruct (intKey p).
  - destruct I6 as [-> Hz]. assert (Z.of_nat (length P) = Z.of_nat (length (px_pData pX)) + px_nZero pX) as Hl.
    { rewrite I5, length_app, length_replicate. lia. }
    split_and!; [|lia|lia]. split; [lia|lia|]. rewrite Nat2Z.id, take_ge by lia. rewrite I5 at 1. do 2 f_equal. lia.
  - subst P. assert (toInt (px_nKey pX) = Z.of_nat (length (px_pKey pX))) as ->.
    { unfold toInt. rewrite u32_small by lia. destruct (Z.ltb_spec (px_nKey pX) (2 ^ 31)); lia. }
    split_and!; [|lia|lia]. split; [lia|lia|]. rewrite Nat2Z.id, take_ge, Nat.sub_diag by lia. by rewrite app_nil_r.
Qed.

Section fill.
Context (s : Start) (Hbt : bt_ok (s_bt s)).

Record inserted (v : View) (mine : list (Z * list Z)) (p : MemPage) (pX : BtreePayload) (P pCell : list Z)
    (v' : View) (ts' new : list (Z * list Z)) (cell : list Z) (n : Z) : Prop := {
  ir_balanced : balanced s 0 v' ts' (new ++ mine);
  ir_linked : linked s v' (new ++ mine);
  ir_idle : idle v' ts';
  ir_refs q : vrefs v' q = vrefs v q;
  ir_size : vsize v <= vsize v' <= vsize v + 4 * Z.of_nat (length P);
  ir_cell : cellWith p pX P cell n;
  ir_length : length cell = length pCell;
  ir_child : take (Z.to_nat (childPtrSize p)) cell = take (Z.to_nat (childPtrSize p)) pCell;
  ir_chain : if decide (localOf p P = length P) then new = [] else
    chain (s_bt s) v' (get4 cell (Z.of_nat (payloadAt p pX P + localOf p P))) (fst <$> new) (drop (localOf p P) P);
  ir_unnamed x : x ∈ fst <$> mine -> unnamed s x v mine -> unnamed s x v' (new ++ mine);
  ir_same : sameEntries s v v' (fst <$> mine);
  ir_entries : chainEntries s v' 0 (fst <$> new)
}.

(** What the buffer keeps behind the header. *)
Lemma cellHeader_kept (pCell h cell : list Z) (c : nat) :
  (c + length h <= length pCell)%nat -> take (c + length h) cell = take (c + length h) (store pCell (Z.of_nat c) h) ->
  take (length h) (drop c cell) = h /\ take c cell = take c pCell.
Proof.
  intros Hl Ht. split.
  - rewrite take_drop_commute, Ht, <- take_drop_commute.
    pose proof (store_behind pCell h c 0 ltac:(lia)) as Hs. rewrite Nat.add_0_r in Hs. exact Hs.
  - pose proof (f_equal (take c) Ht) as Hc. rewrite !take_take, !Nat.min_l in Hc by lia. rewrite Hc. apply store_before; lia.
Qed.

Lemma db_copyCell d cell a bs (Q : list Z -> Db -> Prop) E :
  0 <= a -> a + Z.of_nat (length bs) <= Z.of_nat (length cell) -> Q (store cell a bs) d ->
  wp (copyTo cell (AtCell a) bs) Q E d.
Proof. intros Ha Hl HQ. unfold wp, copyTo. by rewrite inside_true by lia. Qed.

(** The payload, behind the header. *)
Lemma db_fillRest d p pX P pCell c1 (Q : list Z * Z -> Db -> Prop) E :
  insertable p pX P -> Z.of_nat (length P) <= maxLocal p -> Forall is_byte c1 ->
  (payloadAt p pX P + length P + 1 <= length pCell)%nat -> (4 <= length pCell)%nat -> length c1 = length pCell ->
  take (payloadAt p pX P) c1 = take (payloadAt p pX P) (store pCell (Z.of_nat (Z.to_nat (childPtrSize p))) (headerOf p pX P)) ->
  (forall cell n, cellWith p pX P cell n -> length cell = length pCell ->
     take (Z.to_nat (childPtrSize p)) cell = take (Z.to_nat (childPtrSize p)) pCell -> Q (cell, n) d) ->
  let pSrc := if intKey p then px_pData pX else px_pKey pX in
  let nSrc := if intKey p then px_nData pX else toInt (px_nKey pX) in
  let nHeader := Z.of_nat (payloadAt p pX P) in
  wp (bs ← source pSrc nSrc; cell ← copyTo c1 (AtCell nHeader) bs;
      cell ← copyTo cell (AtCell (nHeader + nSrc)) (replicate (Z.to_nat (Z.of_nat (length P) - nSrc)) 0);
      mret (cell, if nHeader + Z.of_nat (length P) <? 4 then 4 else nHeader + Z.of_nat (length P))) Q E d.
Proof.
  intros HI Hm Hb1 Hlen H4 Hl1 Ht1 HQ pSrc nSrc nHeader. pose proof HI as [I1 I2 I3 I4 I5 I6 I7 I8].
  destruct (insertable_remains p pX P HI) as ([R1 R2 R3] & _ & Hns). fold pSrc nSrc in R1, R2, R3, Hns.
  subst nHeader. clearbody pSrc nSrc. set (h := headerOf p pX P) in *. set (c := Z.to_nat (childPtrSize p)) in *.
  assert (length (take (Z.to_nat nSrc) pSrc) = Z.to_nat nSrc) as Hlt by (rewrite length_take; lia).
  apply db_bind. unfold wp at 1, source. rewrite inside_true by lia.
  apply db_bind, db_copyCell; [lia|lia|]. set (c2 := store c1 _ _).
  assert (length c2 = length pCell) as Hl2 by (unfold c2; rewrite length_store; lia).
  apply db_bind, db_copyCell; [lia|rewrite length_replicate; lia|].
  replace (Z.of_nat (c + length h) + nSrc) with (Z.of_nat (c + length h + Z.to_nat nSrc)) by lia.
  replace (Z.to_nat (Z.of_nat (length P) - nSrc)) with (length P - Z.to_nat nSrc)%nat by lia.
  set (zs := replicate (length P - Z.to_nat nSrc) 0) in *. assert (length zs = length P - Z.to_nat nSrc)%nat as Hlz by apply length_replicate.
  set (c3 := store c2 _ zs).
  assert (take (c + length h) c3 = take (c + length h) (store pCell (Z.of_nat c) h)) as Ht3.
  { unfold c3. rewrite store_before by lia. unfold c2. by rewrite store_before by lia. }
  destruct (cellHeader_kept pCell h c3 c ltac:(lia) Ht3) as [Hk1 Hk2].
  assert (length c3 = length pCell) as Hl3 by (unfold c3; rewrite length_store; lia).
  apply db_ret, HQ; [|done|done].
  apply cellWith_intro; [done| |destruct (Z.ltb_spec (Z.of_nat (c + length h) + Z.of_nat (length P)) 4); lia| |done|].
  - unfold sizeWith. fold c h. destruct (Z.leb_spec (Z.of_nat (length P)) (maxLocal p)); [|lia].
    destruct (Z.ltb_spec (Z.of_nat (c + length h) + Z.of_nat (length P)) 4); lia.
  - apply store_bytes; [apply store_bytes; [done|]|by apply Forall_replicate]. rewrite R3, Forall_app in I8. apply I8.
  - assert (localOf p P = length P) as ->.
    { unfold btreePayloadToLocal. destruct (Z.leb_spec (Z.of_nat (length P)) (maxLocal p)); lia. }
    fold c h. rewrite (take_ge P) by lia. pose proof (store_behind c2 zs (c + length h) (Z.to_nat nSrc) ltac:(lia)) as Hs.
    fold c3 in Hs. pose proof (store_behind c1 (take (Z.to_nat nSrc) pSrc) (c + length h) 0 ltac:(lia)) as Hs0.
    rewrite Nat.add_0_r, Hlt, take_0 in Hs0. fold c2 in Hs0. cbn [app Nat.add] in Hs0. rewrite Hs0, Hlz in Hs.
    rewrite <- R3 in Hs. etransitivity; [|exact Hs]. f_equal. lia.
Qed.

(** Bounds of the header. *)
Lemma header_bounds p pX P :
  insertable p pX P -> Forall is_byte (headerOf p pX P) /\ Z.of_nat (payloadAt p pX P) <= 17 /\
  maxLocal p <= usableSize (pBt p) - 35 /\ 0 <= childPtrSize p /\ 480 <= usableSize (pBt p).
Proof.
  intros [I1 I2 I3 I4 I5 I6 I7 I8]. pose proof (childPtrSize_cases p I2). destruct (limits_bounds p I1 I2) as [_ Hml].
  destruct (header_parse p pX (Z.of_nat (length P)) (replicate (Z.to_nat (childPtrSize p)) 0) [])
    as (Hhb & _ & Hpc & _); try done; try lia; [rewrite length_replicate; lia|by apply Forall_replicate|].
  pose proof (bo_usable _ I1). split_and!; (done || lia).
Qed.

(** All of the payload is on the cell. *)
Lemma db_fillLocal d p pX P pCell (Q : list Z * Z -> Db -> Prop) E :
  insertable p pX P -> Z.of_nat (length P) <= maxLocal p -> Forall is_byte pCell ->
  usableSize (pBt p) - 9 <= Z.of_nat (length pCell) ->
  (forall cell n, cellWith p pX P cell n -> length cell = length pCell ->
     take (Z.to_nat (childPtrSize p)) cell = take (Z.to_nat (childPtrSize p)) pCell -> Q (cell, n) d) ->
  wp (fillInCell p pCell pX) Q E d.
Proof.
  intros HI Hm Hb Hlen HQ. destruct (insertable_remains p pX P HI) as (_ & Hnp & _).
  destruct (header_bounds p pX P HI) as (Hhb & Hpc & Hml & Hc & H4).
  unfold fillInCell. cbv zeta. rewrite Hnp. fold (headerOf p pX P).
  assert (childPtrSize p + Z.of_nat (length (headerOf p pX P)) = Z.of_nat (payloadAt p pX P)) as -> by lia.
  apply db_bind, db_copyCell; [lia|lia|]. set (c0 := store pCell _ _).
  assert (length c0 = length pCell) as Hl0 by (unfold c0; rewrite length_store; lia).
  assert (Forall is_byte c0) as Hb0 by (by apply store_bytes).
  destruct (Z.leb_spec (Z.of_nat (length P)) (maxLocal p)); [|lia]. apply db_bind.
  destruct (Z.ltb_spec (Z.of_nat (payloadAt p pX P) + Z.of_nat (length P)) 4) as [Hlt|Hge].
  - replace (Z.of_nat (payloadAt p pX P) + Z.of_nat (length P)) with (Z.of_nat (payloadAt p pX P + length P)) at 1 by lia.
    apply db_copyCell; [lia|cbn; lia|]. set (c1 := store c0 _ [0]).
    assert (length c1 = length pCell) as Hl1 by (unfold c1; rewrite length_store; cbn; lia).
    assert (Forall is_byte c1) as Hb1 by (apply store_bytes; [done|by repeat constructor]).
    assert (take (payloadAt p pX P) c1 = take (payloadAt p pX P) c0) as Ht1 by (apply store_before; cbn; lia).
    unfold c0 in Ht1. rewrite <- (Z2Nat.id (childPtrSize p)) in Ht1 at 3 by done.
    pose proof (db_fillRest d p pX P pCell c1 Q E HI Hm Hb1 ltac:(lia) ltac:(lia) Hl1 Ht1 HQ) as Hrest.
    cbv zeta in Hrest. rewrite (proj2 (Z.ltb_lt _ _) Hlt) in Hrest. exact Hrest.
  - apply db_ret.
    assert (take (payloadAt p pX P) c0 = take (payloadAt p pX P) c0) as Ht1 by done.
    unfold c0 in Ht1 at 2. rewrite <- (Z2Nat.id (childPtrSize p)) in Ht1 at 3 by done.
    pose proof (db_fillRest d p pX P pCell c0 Q E HI Hm Hb0 ltac:(lia) ltac:(lia) Hl0 Ht1 HQ) as Hrest.
    cbv zeta in Hrest. rewrite (proj2 (Z.ltb_ge _ _) Hge) in Hrest. exact Hrest.
Qed.

Lemma db_fillInCell v ts mine d p pX P pCell (Q : list Z * Z -> Db -> Prop) (E : Z -> Db -> Prop) :
  insertable p pX P -> pBt p = s_bt s -> Forall is_byte pCell -> usableSize (pBt p) - 9 <= Z.of_nat (length pCell) ->
  sees s v d -> balanced s 0 v ts mine -> linked s v mine -> idle v ts ->
  1 <= vsize v -> vsize v + 4 * Z.of_nat (length P) < 2 ^ 32 - 8 ->
  (forall v' ts' new cell n d', sees s v' d' -> inserted v mine p pX P pCell v' ts' new cell n -> Q (cell, n) d') ->
  (forall rc v' d', fault s rc -> sees s v' d' -> (forall q, vrefs v' q = vrefs v q) -> E rc d') ->
  wp (fillInCell p pCell pX) Q E d.
Proof.
  intros HI Hpb Hb Hlen S0 B0 L0 Hi H1 Hsz HQ HE. destruct (decide (Z.of_nat (length P) <= maxLocal p)) as [Hm|Hm].
  { apply (db_fillLocal d p pX P); try done. intros cell n Hc Hl Ht. eapply (HQ v ts []); [done|]. split; try done; [lia|].
    rewrite decide_True; [done|]. unfold btreePayloadToLocal. destruct (Z.leb_spec (Z.of_nat (length P)) (maxLocal p)); lia. }
  destruct (insertable_remains p pX P HI) as (Hrem & Hnp & _). pose proof HI as [I1 I2 I3 I4 I5 I6 I7 I8].
  destruct (header_bounds p pX P HI) as (Hhb & Hpc & Hml & Hc & H4).
  destruct (fill_local p (Z.of_nat (length P)) I1 I2 ltac:(lia)) as [Hloc Hlb].
  unfold fillInCell. cbv zeta. rewrite Hnp. fold (headerOf p pX P).
  assert (childPtrSize p + Z.of_nat (length (headerOf p pX P)) = Z.of_nat (payloadAt p pX P)) as -> by lia.
  apply db_bind, db_copyCell; [lia|lia|]. set (c0 := store pCell _ _).
  assert (length c0 = length pCell) as Hl0 by (unfold c0; rewrite length_store; lia).
  assert (Forall is_byte c0) as Hb0 by (by apply store_bytes).
  destruct (Z.leb_spec (Z.of_nat (length P)) (maxLocal p)); [lia|]. cbv zeta in Hloc. rewrite Hloc. clear Hloc.
  set (nl := btreePayloadToLocal p (Z.of_nat (length P))) in *. rewrite Hpb, Nat2Z.id. apply db_bind.
  pose proof (db_fillCell s Hbt v ts mine (payloadAt p pX P) (Z.to_nat nl) (length P) d c0 0 P _ _
    (fun cell' d' => Q (cell', nl + Z.of_nat (payloadAt p pX P) + 4) d') E S0 B0 L0 Hi ltac:(lia) ltac:(lia) ltac:(lia) Hrem I8
    ltac:(lia) H1 ltac:(lia)) as Hloop.
  rewrite Nat.add_0_r, Nat.sub_0_r, (Nat2Z.inj_add (payloadAt p pX P) (Z.to_nat nl)), (Z2Nat.id nl) in Hloop by lia.
  eapply db_mono; [apply Hloop; [|exact HE]|intros cell d' HQ'; by apply db_ret|done].
  intros v' ts' new cell' d' S1 [P1 P2 P3 P4 P5 P6 P7 P8 P9 P10 P11 P12 P13]. eapply HQ; [exact S1|].
  unfold c0 in P6. rewrite <- (Z2Nat.id (childPtrSize p)) in P6 at 3 by done.
  destruct (cellHeader_kept pCell (headerOf p pX P) cell' (Z.to_nat (childPtrSize p)) ltac:(lia) P6) as [Hk1 Hk2].
  rewrite Nat.sub_0_r, take_0 in P7. rewrite Nat.sub_0_r in P9. split; try done; [|congruence|].
  - apply cellWith_intro; [done| |lia|by apply P8|done|done].
    unfold sizeWith. destruct (Z.leb_spec (Z.of_nat (length P)) (maxLocal p)); [lia|]. fold nl. lia.
  - fold nl. by rewrite decide_False by lia.
Qed.
End fill.
