(* ===== verification/BtClear.v ===== *)
(** * What clearCellOverflow frees

    The pages of the chain become free, and no others. *)

From stdpp Require Import base numbers option gmap sets functions list.
From S2P Require Import Prelude Util Varint Bitvec Btree BtVarint BtCell BtMem BtPage BtPager BtView BtPtrmap BtFreelist BtTrunk BtTake BtAllocate BtRelease BtBalance BtPayload BtChain BtStore.
#[local] Open Scope Z_scope.

Lemma chain_length bt v first ps data :
  (0 < ovflSize bt)%nat -> chain bt v first ps data ->
  Z.of_nat (length ps) = (Z.of_nat (length data) + Z.of_nat (ovflSize bt) - 1) / Z.of_nat (ovflSize bt).
Proof.
  intros Hs. revert first data. induction ps as [|p ps IH]; intros first data.
  - intros [_ ->]. cbn [length]. symmetry. apply Z.div_small. lia.
  - intros (-> & Hne & _ & Hc). apply IH in Hc. rewrite length_drop in Hc. cbn [length]. rewrite Nat2Z.inj_succ, Hc.
    assert (0 < length data)%nat by (destruct data; [done|cbn; lia]).
    destruct (decide (length data <= ovflSize bt)%nat).
    + rewrite (Z.div_small (Z.of_nat (length data - ovflSize bt) + _ - 1)) by lia.
      apply Z.div_unique with (Z.of_nat (length data) - 1); lia.
    + replace (Z.of_nat (length data) + Z.of_nat (ovflSize bt) - 1)
        with (Z.of_nat (length data - ovflSize bt) + Z.of_nat (ovflSize bt) - 1 + 1 * Z.of_nat (ovflSize bt)) by lia.
      rewrite Z.div_add by lia. lia.
Qed.

Section clear.
Context (s : Start) (Hbt : bt_ok (s_bt s)).

Let Hu : 480 <= usableSize (s_bt s) <= pageSize (s_bt s).
Proof. apply Hbt. Qed.

(** The pages [ps] are free now. *)
Record cleared (v : View) (ts : list (Z * list Z)) (mine : list (Z * list Z)) (ps : list Z)
    (v' : View) (ts' : list (Z * list Z)) : Prop := {
  cl_balanced : balanced s 0 v' ts' mine;
  cl_linked : linked s v' mine;
  cl_free : freePages ts' ≡ₚ ps ++ freePages ts;
  cl_size : vsize v' = vsize v;
  cl_refs q : vrefs v' q = vrefs v q
}.

Definition notCleared (v : View) (rc : Z) (d : Db) : Prop :=
  faulty s rc /\ exists v', sees s v' d /\ forall q, vrefs v' q = vrefs v q.

(** One page, [pOvfl] when there is a reference to it. *)
Lemma db_freeOverflow {A} v ts mine d p b pOvfl (K : DM A) (Q : A -> Db -> Prop) :
  sees s (if pOvfl =? 0 then v else putRefs p 1%nat v) d -> balanced s 0 v ts ((p, b) :: mine) ->
  vrefs v p = 0%nat -> pOvfl = 0 \/ pOvfl = p ->
  (forall v' ts' d', sees s v' d' -> balanced s 0 v' ts' mine -> entered s v p PTRMAP_FREEPAGE 0 v' ->
     freePages ts' ≡ₚ p :: freePages ts -> vsize v' = vsize v -> (forall q, vrefs v' q = vrefs v q) ->
     wp K Q (notCleared v) d') ->
  wp (c ← (if pOvfl =? 0 then mret 1 else sqlite3PagerPageRefcount pOvfl);
      rc ← (if negb (c =? 1) then mret SQLITE_CORRUPT else code (freePage2 pOvfl p));
      (if pOvfl =? 0 then mret () else sqlite3PagerUnref pOvfl);;
      return_code rc;; K) Q (notCleared v) d.
Proof.
  intros S0 Hb Hr Hp HQ. destruct (in_use s _ _ _ _ p Hb ltac:(by left)) as (_ & _ & _ & Hp2 & _).
  assert (balanced s 0 (putRefs p 1%nat v) ts ((p, b) :: mine)) as Hb1 by (by apply balanced_refs).
  apply db_bind. destruct Hp as [->| ->].
  - change (0 =? 0) with true in *. cbv iota in S0 |- *. apply db_ret, db_bind. change (negb (1 =? 1)) with false. cbv iota. apply db_code.
    eapply db_mono; [apply (db_free s Hbt v ts mine d p b 0 S0 Hb); by left| |].
    + intros _ d1 (v' & ts' & S1 & B1 & He & Hf & Hs & Hrf). apply db_bind, db_ret, db_bind, db_return_code; [|done].
      intros _. by apply (HQ v' ts').
    + intros rc d1 (Hf & v' & S1 & Hrf). apply db_bind, db_ret, db_bind, db_return_code.
      { intros ->. by apply (faulty_not_ok s) in Hf. } intros _. split; [done|]. by exists v'.
  - destruct (Z.eqb_spec p 0); [lia|]. apply db_look. rewrite (se_refs _ _ _ S0). cbn [vrefs putRefs].
    rewrite fn_lookup_insert. apply db_bind. change (negb (Z.of_nat 1 =? 1)) with false. cbv iota. apply db_code.
    assert (forall v' q, (forall q, vrefs v' q = (<[p := 1%nat]> (vrefs v)) q) -> vrefs (putRefs p 0%nat v') q = vrefs v q) as Href.
    { intros v' q Hv. cbn. unfold insert, fn_insert in *. case_decide; [by subst|]. rewrite Hv. by case_decide. }
    eapply db_mono; [apply (db_free s Hbt _ ts mine d p b p S0 Hb1); by right| |].
    + intros _ d1 (v' & ts' & S1 & B1 & He & Hf & Hs & Hrf). apply db_bind.
      apply (db_Unref s v' d1 p 0); [done|rewrite Hrf; cbn; by rewrite fn_lookup_insert|]. intros d2 S2.
      apply db_bind, db_return_code; [|done]. intros _. eapply HQ; [exact S2| | |exact Hf|done|exact (fun q => Href v' q Hrf)].
      * by apply balanced_refs; [|lia].
      * intros Hav q Hq. exact (He Hav q Hq).
    + intros rc d1 (Hf & v' & S1 & Hrf). apply db_bind.
      apply (db_Unref s v' d1 p 0); [done|rewrite Hrf; cbn; by rewrite fn_lookup_insert|]. intros d2 S2.
      apply db_bind, db_return_code. { intros ->. by apply (faulty_not_ok s) in Hf. }
      intros _. split; [done|]. eexists. split; [exact S2|exact (fun q => Href v' q Hrf)].
Qed.

(** After the first page of a chain is free, the entry of the next one names
    a page that is not in use. *)
Lemma linked_next v mine p b v' next :
  linkedBut s p v ((p, b) :: mine) -> balanced s 0 v' next mine ->
  entered s v p PTRMAP_FREEPAGE 0 v' -> (p ∉ fst <$> mine) -> (forall q c, (q, c) ∈ mine -> bytes v q = c) ->
  linkedBut s (get4 (bytes v p) 0) v' mine.
Proof.
  intros Hl B1 He Hp Hc Hav q o Hq Hne Ho. destruct (in_use s _ _ _ _ q B1 Hq) as (Hoq & _).
  rewrite (He Hav q Hoq) in Ho. case_decide as Hqp; [by subst|].
  destruct (Hl Hav q o ltac:(by right) Hqp Ho) as [H1 H2]. apply elem_of_cons in H1 as [->|H1]; [done|].
  split; [done|]. apply list_elem_of_fmap in H1 as ([o' c] & -> & Hin). cbn [fst] in *.
  by rewrite (ba_bytes _ _ _ _ _ B1 _ _ Hin), <- (Hc _ _ Hin).
Qed.

Lemma db_clearLoop ps : forall v ts cs mine d first data,
  sees s v d -> fst <$> cs = ps -> balanced s 0 v ts (cs ++ mine) -> chain (s_bt s) v first ps data ->
  linkedBut s first v (cs ++ mine) -> (forall p, p ∈ ps -> vrefs v p = 0%nat) -> vsize v < 2 ^ 32 - 8 ->
  wp (clearLoop (length ps) first)
    (fun _ d' => exists v' ts', sees s v' d' /\ cleared v ts mine ps v' ts') (notCleared v) d.
Proof.
  induction ps as [|p ps IH]; intros v ts cs mine d first data S0 Hcs Hb Hc Hl Hr Hsz.
  { destruct cs; [|done]. destruct Hc as [-> _]. cbn [length clearLoop app] in *. apply db_ret. exists v, ts. split; [done|].
    split; try done. by eapply but_linked, not_zero. }
  destruct cs as [|[p' b] cs]; [done|]. injection Hcs as -> Hcs. destruct Hc as (-> & _ & _ & Hc). cbn [app] in *.
  destruct (in_use s _ _ _ _ p Hb ltac:(by left)) as (_ & Hps & _ & Hp2 & _).
  pose proof (balanced_head _ _ _ _ _ _ _ Hb) as [Hnp Hpb].
  cbn [length clearLoop]. apply db_bind, db_look. rewrite (se_size _ _ _ S0).
  destruct (Z.ltb_spec p 2); [lia|]. destruct (Z.ltb_spec (vsize v) p); [lia|]. cbn [orb]. apply db_bind.
  assert (forall pOvfl d1, sees s (if pOvfl =? 0 then v else putRefs p 1%nat v) d1 -> pOvfl = 0 \/ pOvfl = p ->
    wp (c ← (if pOvfl =? 0 then mret 1 else sqlite3PagerPageRefcount pOvfl);
        rc ← (if negb (c =? 1) then mret SQLITE_CORRUPT else code (freePage2 pOvfl p));
        (if pOvfl =? 0 then mret () else sqlite3PagerUnref pOvfl);;
        return_code rc;; clearLoop (length ps) (get4 (bytes v p) 0))
      (fun _ d' => exists v' ts', sees s v' d' /\ cleared v ts mine (p :: ps) v' ts') (notCleared v) d1) as Hfree.
  { intros pOvfl d1 S1 Ho. apply (db_freeOverflow v ts (cs ++ mine) d1 p b pOvfl); [done|done|apply Hr; by left|done|].
    intros v' ts' d' S2 B2 He Hf Hs Hrf.
    eapply db_mono; [eapply (IH v' ts' cs mine d' _ _ S2 Hcs B2)| |].
    - eapply ovflChain_same, Hc. intros q Hq. rewrite <- Hcs in Hq. apply list_elem_of_fmap in Hq as ([q' c] & -> & Hin). cbn.
      rewrite (ba_bytes _ _ _ _ _ B2 q' c) by (apply elem_of_app; by left).
      symmetry. apply (ba_bytes _ _ _ _ _ Hb). right. apply elem_of_app. by left.
    - eapply linked_next; [exact Hl|done|done|done|]. intros q c Hin. apply (ba_bytes _ _ _ _ _ Hb). by right.
    - intros q Hq. rewrite Hrf. apply Hr. by right.
    - lia.
    - intros _ d2 (v2 & ts2 & S3 & [C1 C2 C3 C4 C5]). exists v2, ts2. split; [done|]. split; [done|done| |congruence|].
      + rewrite C3, Hf. cbn. by rewrite <- Permutation_middle.
      + intros q. by rewrite C5, Hrf.
    - intros rc d2 (Hfa & v2 & S3 & Hr2). split; [done|]. exists v2. split; [done|]. intros q. by rewrite Hr2, Hrf. }
  assert (forall d1, sees s v d1 ->
    wp (pOvfl ← (if 0 =? 0 then btreePageLookup p else mret 0);
        c ← (if pOvfl =? 0 then mret 1 else sqlite3PagerPageRefcount pOvfl);
        rc ← (if negb (c =? 1) then mret SQLITE_CORRUPT else code (freePage2 pOvfl p));
        (if pOvfl =? 0 then mret () else sqlite3PagerUnref pOvfl);;
        return_code rc;; clearLoop (length ps) (get4 (bytes v p) 0))
      (fun _ d' => exists v' ts', sees s v' d' /\ cleared v ts mine (p :: ps) v' ts') (notCleared v) d1) as Hlook.
  { intros d1 S1. apply db_bind. change (0 =? 0) with true. cbv iota. apply (db_Lookup s v); [done| |].
    - rewrite (Hr p) by (by left). intros d2 S2. apply Hfree; [|by right]. by destruct (Z.eqb_spec p 0); [lia|].
    - intros d2 S2 _. apply Hfree; [done|by left]. }
  destruct ps as [|p2 ps'].
  - destruct Hc as [Hc _]. apply db_ret. rewrite Hc in Hlook. by apply Hlook.
  - cbn [length]. apply (db_getOverflowPage s Hbt v ts ((p, b) :: cs ++ mine) d p true); [done|done|done|by left|done| | |].
    + intros d1 S1. by apply Hlook.
    + intros d1 _ S1. rewrite (Hr p) in S1 by (by left). destruct (Z.eqb_spec p 0); [lia|]. apply db_bind, db_ret.
      apply Hfree; [|by right]. by destruct (Z.eqb_spec p 0).
    + intros rc d1 S1 Hf. split; [by left|]. by exists v.
Qed.
End clear.
