(* ===== verification/BtAccess.v ===== *)
(** * What accessPayload reads and writes

    Any part of a payload, on the page of the cell and on the overflow pages,
    with or without the cache of the page numbers. *)

From stdpp Require Import base numbers option gmap sets functions list.
From S2P Require Import Prelude Util Varint Bitvec Btree BtVarint BtCell BtMem BtPage BtPager BtView BtPtrmap BtFreelist BtTrunk BtTake BtAllocate BtRelease BtBalance BtPayload BtChain BtStore BtClear.
#[local] Open Scope Z_scope.

(** ** The cache of page numbers *)

(** The elements for the pages [ps] are right, or 0. *)
Definition cacheOk (ps : list Z) (cur : BtCursor) : Prop :=
  exists l, cu_aOverflow cur = Some l /\ (length ps <= length l)%nat /\
    forall i p, ps !! i = Some p -> l !! i = Some (Some 0) \/ l !! i = Some (Some p).

Definition sameCursor (c c' : BtCursor) : Prop :=
  cu_info c' = cu_info c /\ cu_ix c' = cu_ix c /\ cu_pPage c' = cu_pPage c /\ cu_curFlags c' = cu_curFlags c.

Lemma db_cached ps cur (i : nat) p (Q : Z -> Db -> Prop) E d :
  cacheOk ps cur -> ps !! i = Some p -> (forall x, x = 0 \/ x = p -> Q x d) ->
  wp (cached cur (Z.of_nat i)) Q E d.
Proof.
  intros (l & Hl & _ & Hc) Hi HQ. unfold wp, cached. rewrite Hl, Nat2Z.id. destruct (Hc i p Hi) as [-> | ->]; auto.
Qed.

Lemma db_remember ps cur (i : nat) p (Q : BtCursor -> Db -> Prop) E d :
  cacheOk ps cur -> ps !! i = Some p ->
  (forall cur', cacheOk ps cur' -> sameCursor cur cur' -> Q cur' d) ->
  wp (remember cur (Z.of_nat i) p) Q E d.
Proof.
  intros (l & Hl & Hn & Hc) Hi HQ. unfold wp, remember. rewrite Hl, Nat2Z.id. pose proof (lookup_lt_Some _ _ _ Hi).
  destruct (Nat.ltb_spec i (length l)); [|lia]. apply HQ; [|done]. eexists. split_and!; [done|by rewrite length_insert|].
  intros j q Hj. destruct (decide (j = i)) as [->|Hne].
  - right. rewrite list_lookup_insert_eq by done. congruence.
  - rewrite list_lookup_insert_ne by done. by apply Hc.
Qed.

Lemma db_clearCache s v ps cur (Q : option BtCursor -> Db -> Prop) E d :
  sees s v d -> (forall d', sees s v d' -> Q None d') ->
  (forall cur' d', sees s v d' -> cacheOk ps cur' -> Z.land (cu_curFlags cur') BTCF_ValidOvfl <> 0 ->
     cu_info cur' = cu_info cur -> cu_ix cur' = cu_ix cur -> cu_pPage cur' = cu_pPage cur -> Q (Some cur') d') ->
  wp (clearCache cur (Z.of_nat (length ps))) Q E d.
Proof.
  intros S0 HN HQ. unfold wp, clearCache. rewrite Nat2Z.id.
  assert (forall m, sees s v (setHasContent (pHasContent d) m d)) as Hm.
  { intros m. by destruct S0 as [A1 A2 A3 A4 A5 A6 A7 A8 A9 A10 A11 A12]; split. }
  assert (forall rest, let cur' := setValidOvfl (setOverflow (replicate (length ps) (Some 0) ++ rest) cur) in
    cacheOk ps cur' /\ Z.land (cu_curFlags cur') BTCF_ValidOvfl <> 0) as Hc.
  { intros rest cur'. split.
    - eexists. split; [done|]. rewrite length_app, length_replicate. split; [lia|].
      intros i p Hi. left. apply lookup_lt_Some in Hi. rewrite lookup_app_l by (by rewrite length_replicate).
      by apply lookup_replicate_2.
    - cbn. intros H. apply (f_equal (fun x => Z.testbit x 2)) in H.
      rewrite Z.land_spec, Z.lor_spec in H. cbn in H. by rewrite orb_true_r in H. }
  destruct (match cu_aOverflow cur with Some l => _ | None => true end).
  - destruct (alloc (heap d)) as [[] m]; [|by apply HN]. by destruct (Hc (replicate (length ps) None)); apply HQ.
  - by destruct (Hc (drop (length ps) (default [] (cu_aOverflow cur)))); apply HQ.
Qed.

(** ** Bytes *)

(** [bs] overwrites the bytes of [D] from [o] on. *)
Definition splice (D : list Z) (o : nat) (bs : list Z) : list Z := take o D ++ bs ++ drop (o + length bs) D.

Lemma store_splice D o bs : store D (Z.of_nat o) bs = splice D o bs.
Proof. unfold store, splice. by rewrite Nat2Z.id. Qed.

Lemma splice_length D o bs : (o + length bs <= length D)%nat -> length (splice D o bs) = length D.
Proof. intros H. unfold splice. rewrite !length_app, length_take, length_drop. lia. Qed.

Lemma splice_later D w o bs :
  (w <= o)%nat -> (o + length bs <= length D)%nat -> splice D o bs = take w D ++ splice (drop w D) (o - w) bs.
Proof.
  intros Hw Hl. unfold splice. rewrite drop_drop. pose proof (take_take_drop D w (o - w)) as Ht.
  replace (w + (o - w))%nat with o in Ht by lia. rewrite <- Ht, <- !(assoc_L (++)). do 3 f_equal. f_equal. lia.
Qed.

(** What is overwritten in the first [w] bytes, and behind them. *)
Lemma splice_across D w o a bs :
  (o + a = w)%nat -> (a <= length bs)%nat -> (o + length bs <= length D)%nat ->
  splice D o bs = splice (take w D) o (take a bs) ++ splice (drop w D) 0 (drop a bs).
Proof.
  intros Ho Ha Hl. unfold splice. rewrite take_0. cbn [app Nat.add].
  rewrite take_take, Nat.min_l by lia. rewrite length_take, length_drop, drop_drop, Nat.min_l by lia.
  rewrite (drop_ge (take w D)) by (rewrite length_take; lia). rewrite app_nil_r, <- !(assoc_L (++)). f_equal.
  rewrite (assoc_L (++)), take_drop. do 2 f_equal. lia.
Qed.

Lemma splice_within D w o bs :
  (o + length bs <= w)%nat -> (o + length bs <= length D)%nat ->
  splice D o bs = splice (take w D) o bs ++ drop w D.
Proof.
  intros Ho Hl. unfold splice. rewrite take_take, Nat.min_l, <- !(assoc_L (++)) by lia. do 2 f_equal.
  destruct (decide (w <= length D)%nat).
  - rewrite <- (take_drop w D) at 1. rewrite drop_app_le by (rewrite length_take; lia). done.
  - rewrite take_ge, (drop_ge D w) by lia. by rewrite app_nil_r.
Qed.

(** The bytes of an overflow page behind the pointer. *)
Lemma page_splice (b bs : list Z) (o n : nat) :
  (o + length bs <= n)%nat -> (4 + n <= length b)%nat ->
  take n (drop 4 (store b (4 + Z.of_nat o) bs)) = splice (take n (drop 4 b)) o bs.
Proof.
  intros Ho Hn. replace (4 + Z.of_nat o) with (Z.of_nat (4 + o)) by lia. rewrite store_splice. unfold splice.
  rewrite drop_app_le by (rewrite length_take; lia). rewrite <- (take_drop_commute b o 4).
  rewrite take_app_ge by (rewrite length_take, length_drop; lia). rewrite length_take, length_drop, Nat.min_l by lia.
  rewrite take_app_ge by lia. rewrite take_take, Nat.min_l by lia. do 2 f_equal.
  transitivity (take (n - (o + length bs)) (drop (o + length bs) (drop 4 b))).
  - rewrite drop_drop. f_equal. lia.
  - rewrite take_drop_commute. do 2 f_equal. lia.
Qed.

Lemma page_slice (b D : list Z) (w o a : nat) :
  take (length (take w D)) (drop 4 b) = take w D -> (o + a <= length (take w D))%nat ->
  slice b (Z.of_nat o + 4) (Z.of_nat a) = take a (drop o D).
Proof.
  intros Hc Ho. unfold slice. rewrite Nat2Z.id. replace (Z.to_nat (Z.of_nat o + 4)) with (4 + o)%nat by lia.
  rewrite <- drop_drop. pose proof (f_equal (fun l => take a (drop o l)) Hc) as H. cbn beta in H.
  rewrite !take_drop_commute, !take_take in H. rewrite length_take in Ho.
  rewrite !Nat.min_l, <- !take_drop_commute in H by (rewrite ?length_take; lia). done.
Qed.

Section access.
Context (s : Start) (Hbt : bt_ok (s_bt s)).

Let Hu : 480 <= usableSize (s_bt s) <= pageSize (s_bt s).
Proof. apply Hbt. Qed.

(** ** One overflow page *)

Lemma db_attempt {A} (a : A) (m : DM A) (Q : Z * A -> Db -> Prop) E d :
  wp m (fun b d' => Q (SQLITE_OK, b) d') (fun rc d' => Q (rc, a) d') d -> wp (attempt a m) Q E d.
Proof. unfold wp, attempt. by destruct (m d) as [[[b|rc] d']|]. Qed.

Lemma db_directReadOk v d p (Q : bool -> Db -> Prop) E :
  sees s v d -> (forall b d', sees s v d' -> Q b d') -> wp (sqlite3PagerDirectReadOk p) Q E d.
Proof.
  intros S0 HQ. unfold wp, sqlite3PagerDirectReadOk. destruct (lookups (pager d)) as [|b ls]; [by apply HQ|].
  apply HQ. by destruct S0 as [A1 A2 A3 A4 A5 A6 A7 A8 A9 A10 A11 A12]; split.
Qed.

Lemma db_readFile v d p n (Q : list Z -> Db -> Prop) (E : Z -> Db -> Prop) :
  sees s v d -> (forall d', sees s v d' -> Q (take (Z.to_nat n) (bytes v p)) d') ->
  (forall d' rc, sees s v d' -> fault s rc -> E rc d') -> wp (readFile p n) Q E d.
Proof.
  intros S0 HQ HE. apply db_bind, (db_answer s v); [done| |done]. intros d1 S1. apply db_look.
  rewrite (sees_data s v d1 p S1). by apply HQ.
Qed.

Lemma db_copyPayload v d p a pBuf pos n (eOp : bool) (Q : list Z -> Db -> Prop) (E : Z -> Db -> Prop) :
  sees s v d -> vrefs v p <> 0%nat -> 0 <= a -> 0 <= pos -> 0 <= n -> a + n <= pageSize (s_bt s) ->
  pos + n <= Z.of_nat (length pBuf) -> Forall is_byte pBuf ->
  (forall w d', p ∈ w -> vwrite v ⊆ w ->
     sees s (if eOp then putData p (store (bytes v p) a (slice pBuf pos n)) (putWrite w v) else v) d' ->
     Q (if eOp then pBuf else store pBuf pos (slice (bytes v p) a n)) d') ->
  (forall rc d', fault s rc -> sees s v d' -> E rc d') ->
  wp (copyPayload p a pBuf pos n eOp) Q E d.
Proof.
  intros S0 Hr Ha Hp Hn Hl Hb Hby HQ HE. unfold copyPayload. rewrite inside_true by lia. destruct eOp.
  - apply db_bind, (db_PagerWrite s v); [done| |auto]. intros d1 S1.
    apply db_bind. eapply (db_write s _ d1); [exact S1|done|inw|by apply slice_bytes|done|rewrite length_slice; lia|].
    intros d2 S2. apply db_ret. eapply HQ; [|apply union_subseteq_r|exact S2]. inw.
  - apply db_bind, (db_read s v); [done|done|done|done|done|]. intros d1 S1. apply db_ret.
    by apply (HQ ({[p]} ∪ vwrite v)); [inw|apply union_subseteq_r|].
Qed.

Lemma putRefs_back v p : forall q, vrefs (putRefs p (vrefs v p) (putRefs p (S (vrefs v p)) v)) q = vrefs v q.
Proof. intros q. cbn. unfold insert, fn_insert. by case_decide; [subst|]. Qed.

Lemma db_copyPage v d p pBuf (pos o a : nat) (eOp : bool) (Q : Z * (Z * list Z) -> Db -> Prop) E :
  sees s v d -> 2 <= p -> p <> PENDING_BYTE_PAGE (s_bt s) -> (4 + o + a <= Z.to_nat (pageSize (s_bt s)))%nat ->
  (pos + a <= length pBuf)%nat -> Forall is_byte pBuf ->
  (forall w d', vwrite v ⊆ w ->
     sees s (if eOp then putData p (store (bytes v p) (4 + Z.of_nat o) (take a (drop pos pBuf))) (putWrite w v) else v) d' ->
     Q (SQLITE_OK, (get4 (bytes v p) 0,
          if eOp then pBuf else splice pBuf pos (slice (bytes v p) (Z.of_nat o + 4) (Z.of_nat a)))) d') ->
  (forall rc x d', fault s rc -> sees s v d' -> Q (rc, x) d') ->
  wp (copyPage p pBuf (Z.of_nat pos) (Z.of_nat o) (Z.of_nat a) eOp) Q E d.
Proof.
  intros S0 Hp2 Hpp Hl Hb Hby HQ HE. unfold copyPage. apply db_bind.
  assert (forall d1, sees s v d1 ->
    wp (rc ← code (sqlite3PagerGet p false);
        if negb (rc =? SQLITE_OK) then mret (rc, (p, pBuf)) else
        next ← on p (get4byte 0);
        r ← attempt pBuf (copyPayload p (Z.of_nat o + 4) pBuf (Z.of_nat pos) (Z.of_nat a) eOp);
        sqlite3PagerUnref p;; mret (r.1, (next, r.2))) Q E d1) as Hpage.
  { intros d1 S1. apply db_bind, db_code, (db_PagerGet s v); [done|lia|done|done|lia| |].
    2: { intros d2 rc S2 Hf. destruct (Z.eqb_spec rc SQLITE_OK); [by destruct Hf|]. by apply db_ret, HE. }
    intros d2 S2. cbn [Z.eqb negb]. change (negb (SQLITE_OK =? SQLITE_OK)) with false. cbv iota. apply db_bind.
    eapply (db_get4byte s _ d2); [exact S2|cbn; by rewrite fn_lookup_insert|lia|lia|]. intros d3 S3.
    apply db_bind, db_attempt. eapply (db_copyPayload _ d3 p);
      [exact S3|cbn; by rewrite fn_lookup_insert|lia|lia|lia|lia|lia|done| |].
    - intros w d4 _ Hw S4. apply db_bind. cbn [vpage putRefs vwrite] in *. destruct eOp.
      + eapply (db_Unref s _ d4 p (vrefs v p)); [exact S4|cbn; by rewrite fn_lookup_insert|]. intros d5 S5. apply db_ret.
        eapply HQ; [exact Hw|]. unfold slice in S5. rewrite !Nat2Z.id, (Z.add_comm (Z.of_nat o)) in S5.
        eapply sees_ext, S5; try done. exact (putRefs_back v p).
      + eapply (db_Unref s _ d4 p (vrefs v p)); [exact S4|cbn; by rewrite fn_lookup_insert|]. intros d5 S5. apply db_ret.
        rewrite store_splice. eapply HQ; [done|]. eapply sees_ext, S5; try done. exact (putRefs_back v p).
    - intros rc d4 Hf S4. apply db_bind.
      eapply (db_Unref s _ d4 p (vrefs v p)); [exact S4|cbn; by rewrite fn_lookup_insert|]. intros d5 S5.
      apply db_ret, HE; [done|]. eapply sees_ext, S5; try done. exact (putRefs_back v p). }
  destruct (negb eOp && (Z.of_nat o =? 0)) eqn:Hd; [|by apply db_ret, Hpage].
  apply andb_true_iff in Hd as [->%negb_true_iff Ho%Z.eqb_eq]. apply db_bind, (db_directReadOk v); [done|].
  intros b d1 S1. apply db_ret. destruct (b && (4 <=? Z.of_nat pos)); [|by apply Hpage].
  apply db_attempt, db_bind, (db_readFile v); [done| |auto]. intros d2 S2. apply db_ret.
  assert (o = 0%nat) as -> by lia. destruct (se_bytes _ _ _ S0 p) as [Hlb _].
  replace (Z.to_nat (Z.of_nat a + 4)) with (4 + a)%nat by lia. rewrite store_splice.
  replace (get4 (take (4 + a) (bytes v p)) 0) with (get4 (bytes v p) 0).
  2: { unfold get4, slice. cbn [Z.to_nat]. rewrite !drop_0, take_take. done. }
  replace (drop 4 (take (4 + a) (bytes v p))) with (slice (bytes v p) (Z.of_nat 0 + 4) (Z.of_nat a)).
  2: { unfold slice. rewrite Nat2Z.id. change (Z.to_nat (Z.of_nat 0 + 4)) with 4%nat. by rewrite take_drop_commute. }
  by apply (HQ (vwrite v)).
Qed.

(** ** The overflow pages *)

(** The bytes [bs] were written into [D], the content of the pages [cs], from
    [o] on; or nothing changed. *)
Record touched (eOp : bool) (v : View) (ts mine cs : list (Z * list Z)) (first : Z) (D : list Z) (o : nat) (bs : list Z)
    (v' : View) (cs' : list (Z * list Z)) : Prop := {
  to_balanced : balanced s 0 v' ts (cs' ++ mine);
  to_linked : linked s v' (cs' ++ mine);
  to_pages : fst <$> cs' = fst <$> cs;
  to_refs q : vrefs v' q = vrefs v q;
  to_size : vsize v' = vsize v;
  to_other q : q ∉ fst <$> cs -> vpage v' q = vpage v q;
  to_chain : chain (s_bt s) v' first (fst <$> cs) (if eOp then splice D o bs else D);
  to_read : eOp = false -> v' = v
}.

(** A page, written or not, before pages that were. *)
Lemma touched_page eOp v1 v ts mine cs p b b1 D o bs v' cs' D1 o1 bs1 :
  touched eOp v1 ts ((p, b1) :: mine) cs (get4 b 0) D1 o1 bs1 v' cs' ->
  (forall q, vrefs v1 q = vrefs v q) -> vsize v1 = vsize v -> (forall q, q <> p -> vpage v1 q = vpage v q) ->
  get4 b1 0 = get4 b 0 -> (eOp = false -> v1 = v) ->
  let D' := if eOp then splice D o bs else D in
  D' <> [] -> take (length (take (ovflSize (s_bt s)) D')) (drop 4 b1) = take (ovflSize (s_bt s)) D' ->
  drop (ovflSize (s_bt s)) D' = (if eOp then splice D1 o1 bs1 else D1) ->
  touched eOp v ts mine ((p, b) :: cs) p D o bs v' ((p, b1) :: cs').
Proof.
  intros [T1 T2 T3 T4 T5 T6 T7 T8] Hr Hs Hp Hg Hv D' HD Hd Hd1.
  apply (balanced_perm s _ _ _ _ ((p, b1) :: cs' ++ mine)) in T1; [|by rewrite Permutation_middle].
  split; [done| | |by intros; rewrite T4|congruence| | |by intros He; rewrite T8, Hv].
  - eapply linked_perm, T2. symmetry. apply Permutation_middle.
  - cbn. by rewrite T3.
  - intros q Hq. cbn in Hq. apply not_elem_of_cons in Hq as [H1 H2]. rewrite T6, Hp; done.
  - cbn [fmap list_fmap fst chain]. rewrite (ba_bytes _ _ _ _ _ T1 p b1 ltac:(by left)). split_and!; [done|done|done|].
    rewrite Hg. fold D'. by rewrite Hd1.
Qed.

Lemma touched_none v ts mine cs first D o bs :
  balanced s 0 v ts (cs ++ mine) -> linked s v (cs ++ mine) -> chain (s_bt s) v first (fst <$> cs) D ->
  touched false v ts mine cs first D o bs v cs.
Proof. intros. by split. Qed.

(** Nothing is written behind the page. *)
Lemma touched_rest eOp v ts mine cs first D :
  balanced s 0 v ts (cs ++ mine) -> linked s v (cs ++ mine) -> chain (s_bt s) v first (fst <$> cs) D ->
  touched eOp v ts mine cs first D 0 [] v cs.
Proof.
  intros. split; try done. destruct eOp; [|done]. unfold splice. cbn [app length Nat.add]. by rewrite take_0, drop_0.
Qed.

Definition accessed (eOp : bool) (v : View) (ts mine cs : list (Z * list Z)) (first : Z) (D ps pBuf : list Z)
    (pos o amt : nat) (cur : BtCursor) (r : Z * Z * list Z * BtCursor) (d : Db) : Prop :=
  let '(rc, amt', pBuf', cur') := r in
  cacheOk ps cur' /\ sameCursor cur cur' /\
  ((rc = SQLITE_OK /\ amt' = 0 /\ pBuf' = (if eOp then pBuf else splice pBuf pos (take amt (drop o D))) /\
    exists v' cs', sees s v' d /\ touched eOp v ts mine cs first D o (take amt (drop pos pBuf)) v' cs') \/
   (fault s rc /\ exists v', sees s v' d /\ forall q, vrefs v' q = vrefs v q)).

Lemma splice_splice (B x y : list Z) (p : nat) :
  (p + length x + length y <= length B)%nat -> splice (splice B p x) (p + length x) y = splice B p (x ++ y).
Proof.
  intros H. unfold splice. rewrite length_app.
  rewrite take_app_ge by (rewrite length_take; lia). rewrite length_take, Nat.min_l by lia.
  replace (p + length x - p)%nat with (length x) by lia. rewrite take_app_length, <- !(assoc_L (++)). do 3 f_equal.
  rewrite drop_app_ge by (rewrite length_take; lia). rewrite length_take, Nat.min_l by lia.
  rewrite drop_app_ge by lia. rewrite drop_drop. f_equal. lia.
Qed.

(** The page [p] after its bytes were copied. *)
Lemma copied_view (eOp : bool) v ts rest p b (o : nat) x w :
  balanced s 0 v ts ((p, b) :: rest) -> linked s v ((p, b) :: rest) -> isPage (s_bt s) b -> Forall is_byte x ->
  4 + Z.of_nat o + Z.of_nat (length x) <= pageSize (s_bt s) ->
  let b1 := if eOp then store b (4 + Z.of_nat o) x else b in
  let v1 := if eOp then putData p b1 (putWrite w v) else v in
  balanced s 0 v1 ts ((p, b1) :: rest) /\ linked s v1 ((p, b1) :: rest) /\ get4 b1 0 = get4 b 0 /\
  (forall q, vrefs v1 q = vrefs v q) /\ vsize v1 = vsize v /\ (forall q, q <> p -> vpage v1 q = vpage v q).
Proof.
  intros Hb Hl [Hlen Hby] Hx Ho b1 v1. destruct eOp; [|done].
  assert (balanced s 0 (putWrite w v) ts ((p, b) :: rest)) as Hb' by (eapply balanced_frame; [exact Hb|done..|apply Hb]).
  assert (linked s (putWrite w v) ((p, b) :: rest)) as Hl' by (by eapply linked_frame, Hl).
  assert (get4 b1 0 = get4 b 0) as Hg by (apply get4_store_out; try done; lia).
  split_and!; [by apply balanced_put with b|by eapply linked_put|done|done|done|].
  intros q Hq. unfold v1, putData, putPage. cbn [vpage]. by rewrite fn_lookup_insert_ne.
Qed.

(** What the page has then. *)
Lemma copied_content (eOp : bool) b D (o n : nat) x :
  take (length (take (ovflSize (s_bt s)) D)) (drop 4 b) = take (ovflSize (s_bt s)) D -> isPage (s_bt s) b ->
  (o + length x <= length (take (ovflSize (s_bt s)) D))%nat ->
  let b1 := if eOp then store b (4 + Z.of_nat o) x else b in
  take (length (take (ovflSize (s_bt s)) D)) (drop 4 b1) =
    if eOp then splice (take (ovflSize (s_bt s)) D) o x else take (ovflSize (s_bt s)) D.
Proof.
  intros Hc [Hlen _] Ho b1. subst b1. destruct eOp; [|done]. rewrite page_splice; [by rewrite Hc|done|].
  rewrite length_take. unfold ovflSize. lia.
Qed.

Lemma sameCursor_trans c c1 c2 : sameCursor c c1 -> sameCursor c1 c2 -> sameCursor c c2.
Proof. unfold sameCursor. intuition congruence. Qed.

(** The first page is passed over. *)
Lemma accessed_skip eOp v ts mine cs p b D ps pBuf (pos o amt : nat) cur cur1 r d :
  let w := ovflSize (s_bt s) in
  accessed eOp v ts ((p, b) :: mine) cs (get4 b 0) (drop w D) ps pBuf pos (o - w) amt cur1 r d ->
  sameCursor cur cur1 -> (w <= o)%nat -> (0 < amt)%nat -> (o + amt <= length D)%nat -> (pos + amt <= length pBuf)%nat ->
  take (length (take w D)) (drop 4 b) = take w D ->
  accessed eOp v ts mine ((p, b) :: cs) p D ps pBuf pos o amt cur r d.
Proof.
  intros w Hacc Hsc Hw Ha Hl Hp Hd. destruct r as [[[rc amt'] pBuf'] cur']. destruct Hacc as (A1 & A2 & A3).
  split; [done|]. split; [by eapply sameCursor_trans|]. destruct A3 as [(-> & -> & HB & v' & cs' & S1 & T)|A3]; [left|by right].
  split_and!; [done|done|rewrite HB, drop_drop; by replace (w + (o - w))%nat with o by lia|].
  exists v', ((p, b) :: cs'). split; [done|]. set (bs := take amt (drop pos pBuf)) in *.
  assert (length bs = amt) as Hbs by (unfold bs; rewrite length_take, length_drop; lia).
  assert (length (take w D) = w) as Hlw by (rewrite length_take; lia).
  assert (splice D o bs = take w D ++ splice (drop w D) (o - w) bs) as Hsp by (apply splice_later; lia).
  eapply touched_page; [exact T|done..| | |]; fold w; destruct eOp; try done; rewrite ?Hsp.
  - intros He. apply (f_equal length) in He. rewrite length_app, Hlw in He. unfold splice in He. rewrite !length_app in He. cbn in He. lia.
  - intros ->. cbn in Hl. lia.
  - rewrite take_app_le, (take_ge (take w D)) by lia. done.
  - rewrite drop_app_ge, Hlw, Nat.sub_diag by lia. done.
Qed.

(** The first page is copied to its end. *)
Lemma accessed_copy eOp v v1 ts mine cs p b b1 D ps pBuf (pos o a amt : nat) cur cur1 r d :
  let w := ovflSize (s_bt s) in
  accessed eOp v1 ts ((p, b1) :: mine) cs (get4 b 0) (drop w D) ps
    (if eOp then pBuf else splice pBuf pos (take a (drop o D))) (pos + a) 0 (amt - a) cur1 r d ->
  sameCursor cur cur1 -> (o + a = w)%nat -> (a <= amt)%nat -> (o + amt <= length D)%nat -> (pos + amt <= length pBuf)%nat ->
  (0 < amt)%nat -> take (length (take w D)) (drop 4 b1) = (if eOp then splice (take w D) o (take a (drop pos pBuf)) else take w D) ->
  (forall q, vrefs v1 q = vrefs v q) -> vsize v1 = vsize v -> (forall q, q <> p -> vpage v1 q = vpage v q) ->
  get4 b1 0 = get4 b 0 -> (eOp = false -> v1 = v) ->
  accessed eOp v ts mine ((p, b) :: cs) p D ps pBuf pos o amt cur r d.
Proof.
  intros w Hacc Hsc Hw Ha Hl Hp Hamt Hd Hr Hs Hpg Hg Hv. destruct r as [[[rc amt'] pBuf'] cur']. destruct Hacc as (A1 & A2 & A3).
  split; [done|]. split; [by eapply sameCursor_trans|].
  destruct A3 as [(-> & -> & HB & v' & cs' & S1 & T)|(Hf & v' & S1 & Hr')].
  2: { right. split; [done|]. exists v'. split; [done|]. intros q. by rewrite Hr', Hr. }
  assert (length (take w D) = w) as Hlw by (rewrite length_take; lia).
  left. split_and!; [done|done| |].
  { rewrite HB. destruct eOp; [done|]. rewrite drop_0. assert (length (take a (drop o D)) = a) as Hla by (rewrite length_take, length_drop; lia).
    rewrite <- Hla at 2. rewrite splice_splice by (rewrite Hla, length_take, length_drop; lia). f_equal.
    replace (drop w D) with (drop a (drop o D)) by (rewrite drop_drop; f_equal; lia).
    rewrite take_take_drop. f_equal. lia. }
  exists v', ((p, b1) :: cs'). split; [done|]. set (bs := take amt (drop pos pBuf)).
  assert (length bs = amt) as Hbs by (unfold bs; rewrite length_take, length_drop; lia).
  assert (take a bs = take a (drop pos pBuf)) as Hta by (unfold bs; rewrite take_take; f_equal; lia).
  assert (eOp = true -> take (amt - a) (drop (pos + a) (if eOp then pBuf else splice pBuf pos (take a (drop o D)))) = drop a bs) as Hda.
  { intros ->. unfold bs. rewrite <- drop_drop, take_drop_commute. do 2 f_equal. lia. }
  assert (splice D o bs = splice (take w D) o (take a bs) ++ splice (drop w D) 0 (drop a bs)) as Hsp by (apply splice_across; lia).
  assert (length (splice (take w D) o (take a bs)) = w) as Hl1 by (rewrite splice_length; rewrite ?length_take; lia).
  eapply touched_page; [exact T|done..| | |]; fold w; destruct eOp; try done; rewrite ?Hsp.
  - intros He. apply (f_equal length) in He. rewrite length_app, Hl1 in He. cbn in He.
    assert (length D <> 0)%nat by lia. unfold splice in He. rewrite !length_app, !length_drop in He. lia.
  - intros ->. cbn in Hl. lia.
  - rewrite take_app_le, (take_ge (splice _ _ _)) by lia. rewrite Hl1, <- Hlw at 1. by rewrite Hd, Hta.
  - rewrite drop_app_ge, Hl1, Nat.sub_diag, drop_0 by lia. by rewrite Hda.
Qed.

(** The last page that is copied. *)
Lemma accessed_last (eOp : bool) v v1 ts mine cs p b b1 D ps pBuf (pos o amt : nat) cur cur1 d :
  let w := ovflSize (s_bt s) in
  sees s v1 d -> cacheOk ps cur1 -> sameCursor cur cur1 ->
  balanced s 0 v1 ts (cs ++ (p, b1) :: mine) -> linked s v1 (cs ++ (p, b1) :: mine) ->
  chain (s_bt s) v1 (get4 b 0) (fst <$> cs) (drop w D) ->
  (0 < amt)%nat -> (o + amt <= w)%nat -> (o + amt <= length D)%nat -> (pos + amt <= length pBuf)%nat ->
  take (length (take w D)) (drop 4 b1) = (if eOp then splice (take w D) o (take amt (drop pos pBuf)) else take w D) ->
  (forall q, vrefs v1 q = vrefs v q) -> vsize v1 = vsize v -> (forall q, q <> p -> vpage v1 q = vpage v q) ->
  get4 b1 0 = get4 b 0 -> (eOp = false -> v1 = v) ->
  accessed eOp v ts mine ((p, b) :: cs) p D ps pBuf pos o amt cur
    (SQLITE_OK, 0, (if eOp then pBuf else splice pBuf pos (take amt (drop o D))), cur1) d.
Proof.
  intros w S0 Hca Hsc Hb Hl Hc Ha Hw HD Hp Hd Hr Hs Hpg Hg Hv. split; [done|]. split; [done|]. left. split_and!; [done..|].
  exists v1, ((p, b1) :: cs). split; [done|]. set (bs := take amt (drop pos pBuf)) in *.
  assert (length bs = amt) as Hbs by (unfold bs; rewrite length_take, length_drop; lia).
  assert (splice D o bs = splice (take w D) o bs ++ drop w D) as Hsp by (apply splice_within; lia).
  assert (length (splice (take w D) o bs) = length (take w D)) as Hl1 by (rewrite splice_length; rewrite ?length_take; lia).
  rewrite length_take in Hl1. assert (length D <> 0)%nat by lia.
  eapply touched_page; [by apply touched_rest|done..| | |]; fold w; destruct eOp; try done.
  - intros He. apply (f_equal length) in He. rewrite splice_length in He by lia. cbn in He. lia.
  - intros ->. cbn in HD. lia.
  - rewrite Hsp. destruct (decide (length D <= w)%nat).
    + rewrite (drop_ge D), app_nil_r, (take_ge (splice _ _ _)), Hl1 by lia. rewrite length_take in Hd. done.
    + rewrite take_app_le, (take_ge (splice _ _ _)), Hl1 by lia. rewrite length_take in Hd. done.
  - rewrite Hsp. unfold splice at 2. cbn [app length Nat.add]. rewrite take_0, drop_0. cbn [app].
    destruct (decide (length D <= w)%nat).
    + rewrite (drop_ge D), app_nil_r by lia. apply drop_ge. lia.
    + rewrite drop_app_ge by lia. by replace (w - length (splice (take w D) o bs))%nat with 0%nat by lia.
Qed.

(** The pages [cs] have the part [D] of the payload, and the part of the
    loop's work that is left is in it. *)
Record reach (v : View) (ts mine cs : list (Z * list Z)) (first : Z) (D ps pBuf : list Z) (pos o amt i : nat) (cur : BtCursor)
    : Prop := {
  re_balanced : balanced s 0 v ts (cs ++ mine);
  re_linked : linked s v (cs ++ mine);
  re_size : vsize v < 2 ^ 32 - 8;
  re_chain : chain (s_bt s) v first (fst <$> cs) D;
  re_index : drop i ps = fst <$> cs;
  re_cache : cacheOk ps cur;
  re_amt : (0 < amt)%nat;
  re_data : (o + amt <= length D)%nat;
  re_width : Z.of_nat (length D) < 2 ^ 32;
  re_buf : (pos + amt <= length pBuf)%nat;
  re_bytes : Forall is_byte pBuf
}.

Definition pagesSpec (f : nat) : Prop :=
  forall v ts mine cs d first D ps pBuf (pos o amt i : nat) cur eOp,
  sees s v d -> reach v ts mine cs first D ps pBuf pos o amt i cur -> (o + amt <= f * ovflSize (s_bt s))%nat ->
  wp (payloadPages f cur pBuf (Z.of_nat pos) (Z.of_nat o) (Z.of_nat amt) (Z.of_nat i) first eOp)
    (accessed eOp v ts mine cs first D ps pBuf pos o amt cur) (fun _ _ => False) d.

Lemma drop_index {A} (l : list A) i x k : drop i l = x :: k -> l !! i = Some x /\ drop (S i) l = k.
Proof.
  intros H. split.
  - rewrite <- (Nat.add_0_r i), <- lookup_drop, H. done.
  - replace (S i) with (i + 1)%nat by lia. rewrite <- drop_drop, H. cbn. by rewrite drop_0.
Qed.

(** The page behind one that does not have all the rest. *)
Lemma chain_more bt v first ps D : chain bt v first ps D -> D <> [] -> exists ps', ps = first :: ps'.
Proof. destruct ps as [|p ps]; [by intros [_ ->]|]. intros [-> _] _. by exists ps. Qed.

Lemma db_skipPage f v ts mine cs p b d D ps pBuf (pos o amt i : nat) cur cur1 eOp :
  let w := ovflSize (s_bt s) in
  pagesSpec f -> sees s v d -> reach v ts mine ((p, b) :: cs) p D ps pBuf pos o amt i cur1 -> sameCursor cur cur1 ->
  (w <= o)%nat -> (o + amt <= S f * w)%nat ->
  wp (x ← cached cur1 (Z.of_nat i + 1);
      r ← (if negb (x =? 0) then mret (SQLITE_OK, x)
           else attempt p (o ← getOverflowPage p false; mret o.1));
      if negb (r.1 =? SQLITE_OK) then mret (r.1, Z.of_nat amt, pBuf, cur1) else
      payloadPages f cur1 pBuf (Z.of_nat pos) (Z.of_nat o - (usableSize (s_bt s) - 4)) (Z.of_nat amt) (Z.of_nat i + 1) r.2 eOp)
    (accessed eOp v ts mine ((p, b) :: cs) p D ps pBuf pos o amt cur) (fun _ _ => False) d.
Proof.
  intros w IH S0 [Hb Hl Hsz Hc Hi Hca Ha HD HD2 HB Hby] Hsc Hw Hf.
  pose proof (balanced_head _ _ _ _ _ _ _ Hb) as [_ Hpb].
  change (fst <$> (p, b) :: cs) with (p :: (fst <$> cs)) in Hc, Hi. destruct Hc as (_ & _ & Hcp & Hc). rewrite Hpb in Hcp, Hc.
  destruct (chain_more _ _ _ _ _ Hc) as [ps' Hps'].
  { intros He. apply (f_equal length) in He. rewrite length_drop in He. cbn in He. subst w. lia. }
  apply drop_index in Hi as [_ Hi]. pose proof Hi as Hi2. rewrite Hps' in Hi2. apply drop_index in Hi2 as [Hi2 _].
  replace (Z.of_nat i + 1) with (Z.of_nat (S i)) by lia. apply db_bind. eapply db_cached; [exact Hca|exact Hi2|].
  assert (forall d1, sees s v d1 ->
    wp (payloadPages f cur1 pBuf (Z.of_nat pos) (Z.of_nat o - (usableSize (s_bt s) - 4)) (Z.of_nat amt) (Z.of_nat (S i)) (get4 b 0) eOp)
      (accessed eOp v ts mine ((p, b) :: cs) p D ps pBuf pos o amt cur) (fun _ _ => False) d1) as Hnext.
  { intros d1 S1. replace (Z.of_nat o - (usableSize (s_bt s) - 4)) with (Z.of_nat (o - w)) by (unfold w, ovflSize in *; lia).
    eapply db_mono; [apply (IH v ts ((p, b) :: mine) cs d1 _ (drop w D) ps pBuf pos (o - w)%nat amt (S i) cur1 eOp S1)| |done].
    - split; try done; rewrite ?length_drop; try lia.
      + eapply balanced_perm, Hb. apply Permutation_middle.
      + eapply linked_perm, Hl. apply Permutation_middle.
    - cbn [Nat.mul] in Hf. lia.
    - intros r d2 Hr. by eapply accessed_skip. }
  intros x Hx. apply db_bind. destruct (Z.eqb_spec x 0) as [->|Hx0]; cbn [negb].
  2: { apply db_ret. destruct Hx as [->| ->]; [done|]. by apply Hnext. }
  apply db_attempt, db_bind. apply (db_getOverflowPage s Hbt v ts ((p, b) :: cs ++ mine) d p false); try done; [by apply linked_but|by left| |].
  - intros d1 S1. apply db_ret. cbn [fst snd]. rewrite Hpb. by apply Hnext.
  - intros rc d1 S1 Hfa. cbn [fst snd]. destruct (Z.eqb_spec rc SQLITE_OK) as [->|]; [by destruct Hfa|]. apply db_ret.
    split; [done|]. split; [done|]. right. split; [done|]. by exists v.
Qed.

(** A fault on the page leaves it as it is. *)
Lemma accessed_fault eOp v ts mine cs first D ps pBuf (pos o amt : nat) cur cur1 rc amt' pBuf' d :
  sees s v d -> fault s rc -> cacheOk ps cur1 -> sameCursor cur cur1 ->
  accessed eOp v ts mine cs first D ps pBuf pos o amt cur (rc, amt', pBuf', cur1) d.
Proof. intros S0 Hf Hc Hs. split; [done|]. split; [done|]. right. split; [done|]. by exists v. Qed.

Lemma db_takePage f v ts mine cs p b d D ps pBuf (pos o amt i : nat) cur cur1 (eOp : bool) :
  let w := ovflSize (s_bt s) in
  let a := if decide (w < amt + o)%nat then (w - o)%nat else amt in
  pagesSpec f -> sees s v d -> reach v ts mine ((p, b) :: cs) p D ps pBuf pos o amt i cur1 -> sameCursor cur cur1 ->
  (o < w)%nat -> (o + amt <= S f * w)%nat ->
  wp (r ← copyPage p pBuf (Z.of_nat pos) (Z.of_nat o) (Z.of_nat a) eOp;
      let '(rc, (nextPage, pBuf)) := r in
      let amt := Z.of_nat amt - Z.of_nat a in
      if amt =? 0 then mret (rc, amt, pBuf, cur1) else
      if negb (rc =? SQLITE_OK) then mret (rc, amt, pBuf, cur1) else
      payloadPages f cur1 pBuf (Z.of_nat pos + Z.of_nat a) 0 amt (Z.of_nat i + 1) nextPage eOp)
    (accessed eOp v ts mine ((p, b) :: cs) p D ps pBuf pos o amt cur) (fun _ _ => False) d.
Proof.
  intros w a IH S0 [Hb Hl Hsz Hc Hi Hca Ha HD HD2 HB Hby] Hsc Hw Hf.
  pose proof (balanced_head _ _ _ _ _ _ _ Hb) as [Hnp Hpb]. change (p ∉ fst <$> cs ++ mine) in Hnp.
  change (fst <$> (p, b) :: cs) with (p :: (fst <$> cs)) in Hc, Hi. destruct Hc as (_ & _ & Hcp & Hc). rewrite Hpb in Hcp, Hc.
  destruct (in_use s _ _ _ _ p Hb ltac:(by left)) as (_ & _ & _ & Hp2 & Hpp). apply drop_index in Hi as [_ Hi].
  assert (Z.of_nat w = usableSize (s_bt s) - 4) as Hwz by (unfold w, ovflSize; lia).
  assert (a <= amt /\ o + a <= w /\ (a < amt -> o + a = w))%nat as (Ha1 & Ha2 & Ha3) by (unfold a; case_decide; lia).
  pose proof (se_bytes _ _ _ S0 p) as Hpage. rewrite Hpb in Hpage.
  set (x := take a (drop pos pBuf)).
  assert (length x = a) as Hx by (unfold x; rewrite length_take, length_drop; lia).
  assert (Forall is_byte x) as Hxb by (by apply Forall_take, Forall_drop).
  assert (slice b (Z.of_nat o + 4) (Z.of_nat a) = take a (drop o D)) as Hsl.
  { apply (page_slice b D w); [done|]. rewrite length_take. lia. }
  apply db_bind. apply (db_copyPage v d p pBuf pos o a eOp); try done; [lia|lia| |].
  2: { intros rc [nx pb] d1 Hfa S1. cbv beta iota zeta. destruct (Z.of_nat amt - Z.of_nat a =? 0); [apply db_ret; by eapply accessed_fault|].
       destruct (Z.eqb_spec rc SQLITE_OK) as [->|]; [by destruct Hfa|]. apply db_ret. by eapply accessed_fault. }
  intros wr d1 Hwr S1. cbv beta iota zeta. rewrite Hpb in S1 |- *. fold x in S1. rewrite Hsl.
  destruct (copied_view eOp v ts (cs ++ mine) p b o x wr Hb Hl Hpage Hxb ltac:(lia)) as (B1 & L1 & G1 & R1 & Z1 & P1).
  pose proof (copied_content eOp b D o a x Hcp Hpage ltac:(rewrite length_take; fold w; lia)) as C1.
  cbn zeta in B1, L1, G1, R1, Z1, P1, C1. fold w in C1.
  set (b1 := if eOp then store b (4 + Z.of_nat o) x else b) in *.
  set (v1 := if eOp then putData p b1 (putWrite wr v) else v) in *.
  assert (sees s v1 d1) as S1' by (unfold v1, b1; by destruct eOp).
  assert (eOp = false -> v1 = v) as Hv1 by (unfold v1; by intros ->).
  assert (chain (s_bt s) v1 (get4 b 0) (fst <$> cs) (drop w D)) as Hc1.
  { eapply ovflChain_same, Hc. intros q Hq. rewrite P1; [done|]. intros ->. apply Hnp. rewrite fmap_app. apply elem_of_app. by left. }
  assert (cs ++ (p, b1) :: mine ≡ₚ (p, b1) :: cs ++ mine) as Hpm by (symmetry; apply Permutation_middle).
  apply (balanced_perm s _ _ _ _ (cs ++ (p, b1) :: mine)) in B1; [|done].
  apply (linked_perm s _ _ (cs ++ (p, b1) :: mine)) in L1; [|done].
  destruct (Z.eqb_spec (Z.of_nat amt - Z.of_nat a) 0) as [Heq|Hne].
  - assert (a = amt) as Haa by lia. rewrite Heq, Haa. apply db_ret. eapply accessed_last; try done; [fold w; lia|fold w].
    rewrite C1. unfold x. by rewrite Haa.
  - change (negb (SQLITE_OK =? SQLITE_OK)) with false. cbv iota.
    replace (Z.of_nat pos + Z.of_nat a) with (Z.of_nat (pos + a)) by lia. change 0 with (Z.of_nat 0).
    replace (Z.of_nat amt - Z.of_nat a) with (Z.of_nat (amt - a)) by lia. replace (Z.of_nat i + 1) with (Z.of_nat (S i)) by lia.
    eapply db_mono; [apply (IH v1 ts ((p, b1) :: mine) cs d1 _ (drop w D) ps _ (pos + a)%nat 0%nat (amt - a)%nat (S i) cur1 eOp S1')| |done].
    + split; try done; rewrite ?length_drop; try lia.
      * destruct eOp; [lia|]. rewrite splice_length; rewrite ?length_take, ?length_drop; lia.
      * destruct eOp; [done|]. rewrite <- Hsl. unfold splice. repeat apply Forall_app_2;
          [by apply Forall_take|apply slice_bytes, Hpage|by apply Forall_drop].
    + cbn [Nat.mul] in Hf. lia.
    + intros r d2 Hr. eapply accessed_copy; [exact Hr|done|fold w; lia|lia|lia|lia|lia|exact C1|done..].
Qed.

Lemma db_payloadPages f : pagesSpec f.
Proof.
  induction f as [|f IH]; intros v ts mine cs d first D ps pBuf pos o amt i cur eOp S0 Hre Hf.
  { destruct Hre. cbn in Hf. lia. }
  pose proof Hre as [Hb Hl Hsz Hc Hi Hca Ha HD HD2 HB Hby].
  destruct (chain_more _ _ _ _ _ Hc) as [ps' Hps']; [intros ->; cbn in HD; lia|].
  destruct cs as [|[p b] cs]; [done|]. change (fst <$> (p, b) :: cs) with (p :: (fst <$> cs)) in Hps', Hi.
  injection Hps' as -> _.
  destruct (in_use s _ _ _ _ first Hb ltac:(by left)) as (_ & Hps & _ & Hp2 & _). apply drop_index in Hi as [Hi _].
  cbn [payloadPages]. destruct (Z.eqb_spec first 0); [lia|].
  apply db_bind, db_look. rewrite (se_bt _ _ _ S0). apply db_bind, db_look. rewrite (se_size _ _ _ S0).
  destruct (Z.ltb_spec (vsize v) first); [lia|]. apply db_bind. eapply db_remember; [exact Hca|done|].
  intros cur1 Hca1 Hsc. assert (reach v ts mine ((first, b) :: cs) first D ps pBuf pos o amt i cur1) as Hre1 by (destruct Hre; by split).
  destruct (Z.leb_spec (usableSize (s_bt s) - 4) (Z.of_nat o)).
  - eapply db_skipPage; try done. unfold ovflSize. lia.
  - assert (o < ovflSize (s_bt s))%nat as Hw by (unfold ovflSize; lia).
    pose proof (db_takePage f v ts mine cs first b d D ps pBuf pos o amt i cur cur1 eOp IH S0 Hre1 Hsc Hw Hf) as Ht.
    cbn zeta in Ht. rewrite u32_small by lia.
    replace (if usableSize (s_bt s) - 4 <? Z.of_nat amt + Z.of_nat o then usableSize (s_bt s) - 4 - Z.of_nat o else Z.of_nat amt)
      with (Z.of_nat (if decide (ovflSize (s_bt s) < amt + o)%nat then (ovflSize (s_bt s) - o)%nat else amt)); [done|].
    clear Ht. unfold ovflSize. destruct (Z.ltb_spec (usableSize (s_bt s) - 4) (Z.of_nat amt + Z.of_nat o)); case_decide; lia.
Qed.
End access.
