(* ===== verification/BtServe.v ===== *)
(** * What accessPayload does at a cursor

    The payload of the cell that a cursor points to, from the cell on the page
    and from the overflow pages, and the start of [accessPayload] in the middle
    of the chain by the cache of page numbers. *)

From stdpp Require Import base numbers option gmap sets functions list.
From S2P Require Import Prelude Util Varint Bitvec Btree BtVarint BtCell BtMem BtPage BtTile BtSpace BtFree BtAlloc BtDefrag BtUpdate BtList BtPager BtView BtPtrmap BtFreelist BtTrunk BtTake BtAllocate BtRelease BtBalance BtPayload BtChain BtStore BtClear BtAccess.
#[local] Open Scope Z_scope.

(** ** The middle of a chain *)

Lemma chain_at bt v (k : nat) : forall first ps D,
  BtChain.chain bt v first ps D -> (k * ovflSize bt < length D)%nat ->
  exists p, ps !! k = Some p /\ BtChain.chain bt v p (drop k ps) (drop (k * ovflSize bt) D).
Proof.
  induction k as [|k IH]; intros first ps D Hc Hk.
  - destruct ps as [|p ps]; [destruct Hc as [_ ->]; cbn in Hk; lia|]. exists p. destruct Hc as [-> Hc]. by rewrite !drop_0.
  - destruct ps as [|p ps]; [destruct Hc as [_ ->]; cbn in Hk; lia|]. destruct Hc as (_ & _ & _ & Hc). cbn [Nat.mul] in Hk.
    destruct (IH _ _ _ Hc) as (q & Hq & Hcq); [rewrite length_drop; lia|]. exists q. split; [done|].
    cbn [drop]. rewrite drop_drop in Hcq. done.
Qed.

Section cursor.
Context (s : Start) (Hbt : bt_ok (s_bt s)).

Let Hu : 480 <= usableSize (s_bt s) <= pageSize (s_bt s).
Proof. apply Hbt. Qed.

(** The pages before the one that the cache has. *)
Lemma accessed_from eOp v ts cs1 : forall mine cs2 first p D ps pBuf (pos o amt : nat) cur r d,
  let w := ovflSize (s_bt s) in let k := length cs1 in
  BtChain.chain (s_bt s) v first (fst <$> cs1 ++ cs2) D -> (forall q b, (q, b) ∈ cs1 -> bytes v q = b) ->
  BtChain.chain (s_bt s) v p (fst <$> cs2) (drop (k * w) D) ->
  accessed s eOp v ts (rev_append cs1 mine) cs2 p (drop (k * w) D) ps pBuf pos (o - k * w) amt cur r d ->
  (k * w <= o)%nat -> (0 < amt)%nat -> (o + amt <= length D)%nat -> (pos + amt <= length pBuf)%nat ->
  accessed s eOp v ts mine (cs1 ++ cs2) first D ps pBuf pos o amt cur r d.
Proof.
  induction cs1 as [|[q b] cs1 IH]; intros mine cs2 first p D ps pBuf pos o amt cur r d w k Hc Hb Hc2 Ha Hk Hamt HD HB.
  - subst k. cbn [length Nat.mul rev_append app] in *. rewrite drop_0 in *. rewrite Nat.sub_0_r in Ha.
    assert (first = p) as ->; [|done].
    destruct cs2 as [|[p' b'] cs2]; [destruct Hc as [_ ->]; cbn in HD; lia|]. destruct Hc as [-> _], Hc2 as [-> _]. done.
  - change (fst <$> ((q, b) :: cs1) ++ cs2) with (q :: (fst <$> cs1 ++ cs2)) in Hc. destruct Hc as (-> & _ & Hq & Hc).
    rewrite (Hb q b) in Hq, Hc by (by left). subst k. cbn [length Nat.mul rev_append app] in *. fold w in Hk, Hc2, Ha.
    eapply (accessed_skip s Hbt) with (cur1 := cur); [|by repeat split|fold w; lia|done|done|done|done]. fold w.
    eapply (IH _ _ _ p); [done| | | | |done|rewrite length_drop; lia|done]; fold w.
    + intros q' b' Hin. apply Hb. by right.
    + by rewrite drop_drop.
    + rewrite drop_drop. by replace (o - w - length cs1 * w)%nat with (o - (w + length cs1 * w))%nat by lia.
    + lia.
Qed.

(** ** The overflow pages from the cell on *)

(** The cache is used only when it is right. *)
Definition follows (ps : list Z) (cur : BtCursor) : Prop :=
  Z.land (cu_curFlags cur) BTCF_ValidOvfl <> 0 -> cacheOk ps cur.

Definition sameCell (c c' : BtCursor) : Prop :=
  cu_info c' = cu_info c /\ cu_ix c' = cu_ix c /\ cu_pPage c' = cu_pPage c.

Definition overflowDone (eOp : bool) (v : View) (ts mine cs : list (Z * list Z)) (first : Z) (D ps pBuf : list Z)
    (pos o amt : nat) (cur : BtCursor) (r : Z * Z * list Z * BtCursor) (d : Db) : Prop :=
  let '(rc, _, pBuf', cur') := r in
  follows ps cur' /\ sameCell cur cur' /\
  ((rc = SQLITE_OK /\ pBuf' = (if eOp then pBuf else splice pBuf pos (take amt (drop o D))) /\
    exists v' cs', sees s v' d /\ touched s eOp v ts mine cs first D o (take amt (drop pos pBuf)) v' cs') \/
   (faulty s rc /\ exists v', sees s v' d /\ forall q, vrefs v' q = vrefs v q)).

(** The loop, from the page [p] on. *)
Lemma db_pagesFrom v ts mine cs1 cs2 d first p D ps pBuf (pos o amt : nat) cur cur1 eOp :
  let w := ovflSize (s_bt s) in let k := length cs1 in
  sees s v d -> balanced s 0 v ts ((cs1 ++ cs2) ++ mine) -> linked s v ((cs1 ++ cs2) ++ mine) -> vsize v < 2 ^ 32 - 8 ->
  BtChain.chain (s_bt s) v first (fst <$> cs1 ++ cs2) D -> BtChain.chain (s_bt s) v p (fst <$> cs2) (drop (k * w) D) ->
  ps = fst <$> cs1 ++ cs2 -> cacheOk ps cur1 -> sameCell cur cur1 -> (k * w <= o)%nat -> (0 < amt)%nat ->
  (o + amt <= length D)%nat -> Z.of_nat (length D) < 2 ^ 32 -> (pos + amt <= length pBuf)%nat -> Forall is_byte pBuf ->
  wp (r ← payloadPages (Z.to_nat ((Z.of_nat (o - k * w) + Z.of_nat amt) / (usableSize (s_bt s) - 4)) + 2) cur1 pBuf (Z.of_nat pos)
            (Z.of_nat (o - k * w)) (Z.of_nat amt) (Z.of_nat k) p eOp;
      let '(rc, amt, pBuf, pCur) := r in
      mret (if (rc =? SQLITE_OK) && (0 <? amt) then SQLITE_CORRUPT else rc, amt, pBuf, pCur))
    (overflowDone eOp v ts mine (cs1 ++ cs2) first D ps pBuf pos o amt cur) (fun _ _ => False) d.
Proof.
  intros w k S0 Hb Hl Hsz Hc Hc2 Hps Hca Hsc Hk Hamt HD HD2 HB Hby. apply db_bind.
  assert (rev_append cs1 mine ≡ₚ cs1 ++ mine) as Hrev.
  { rewrite rev_append_rev, <- Permutation_rev. done. }
  assert (cs2 ++ rev_append cs1 mine ≡ₚ (cs1 ++ cs2) ++ mine) as Hpm.
  { rewrite Hrev, !(assoc_L (++)). by rewrite (comm (++) cs2 cs1). }
  eapply db_mono; [eapply (db_payloadPages s Hbt _ v ts (rev_append cs1 mine) cs2 d p (drop (k * w) D) ps pBuf pos (o - k * w)%nat amt k cur1 eOp S0)| |done].
  - split; try done; [| | |by rewrite length_drop; lia..].
    + by eapply balanced_perm, Hb.
    + by eapply linked_perm, Hl.
    + rewrite Hps, fmap_app. apply drop_app_length'. by rewrite length_fmap.
  - fold w. assert (Z.of_nat w = usableSize (s_bt s) - 4) as Hwz by (unfold w, ovflSize; lia).
    rewrite <- Hwz, <- Nat2Z.inj_add. set (n := (o - k * w + amt)%nat).
    pose proof (Z.div_mod (Z.of_nat n) (Z.of_nat w) ltac:(lia)) as Hdm.
    pose proof (Z.mod_pos_bound (Z.of_nat n) (Z.of_nat w) ltac:(lia)). pose proof (Z.div_pos (Z.of_nat n) (Z.of_nat w) ltac:(lia) ltac:(lia)). nia.
  - intros r d1 Hr. assert (accessed s eOp v ts mine (cs1 ++ cs2) first D ps pBuf pos o amt cur1 r d1) as Hacc.
    { eapply accessed_from; try done. intros q b Hin. apply (ba_bytes _ _ _ _ _ Hb). do 2 (apply elem_of_app; left). done. }
    destruct r as [[[rc amt'] pBuf'] cur']. destruct Hacc as (A1 & A2 & A3). apply db_ret. split; [by intros _|].
    split; [unfold sameCell, sameCursor in *; intuition congruence|].
    destruct A3 as [(-> & -> & HBuf & HT)|(Hf & Hr')]; [left; done|right].
    destruct (Z.eqb_spec rc SQLITE_OK) as [->|]; [by destruct Hf|]. cbn [andb]. split; [by left|done].
Qed.

(** The page [pg] has [l] bytes of the payload [P] at [a], and the pages [cs]
    have the others. *)
Record payloadOn (v : View) (cs : list (Z * list Z)) (pg : Z) (info : CellInfo) (a l : nat) (P : list Z) : Prop := {
  pl_pointer : pPayload info = Some (Z.of_nat a);
  pl_local : nLocal info = Z.of_nat l;
  pl_length : nPayload info = Z.of_nat (length P);
  pl_width : Z.of_nat (length P) < 2 ^ 31;
  pl_inside : (l <= length P)%nat /\ (4 <= a)%nat /\ Z.of_nat (a + l) <= usableSize (s_bt s);
  pl_bytes : take l (drop a (bytes v pg)) = take l P;
  pl_chain : if decide (l = length P) then cs = [] else
    Z.of_nat (a + l + 4) <= usableSize (s_bt s) /\
    BtChain.chain (s_bt s) v (get4 (bytes v pg) (Z.of_nat (a + l))) (fst <$> cs) (drop l P)
}.

Lemma toInt_small x : 0 <= x < 2 ^ 31 -> toInt x = x.
Proof. intros Hx. unfold toInt. rewrite u32_small by lia. destruct (Z.ltb_spec x (2 ^ 31)); lia. Qed.

(** The number of overflow pages, as the code computes it. *)
Lemma chain_nOvfl v first ps l P :
  Z.of_nat (length P) < 2 ^ 31 -> (l <= length P)%nat -> BtChain.chain (s_bt s) v first ps (drop l P) ->
  toInt (u32 (Z.of_nat (length P) - Z.of_nat l + (usableSize (s_bt s) - 4) - 1) / (usableSize (s_bt s) - 4)) =
  Z.of_nat (length ps).
Proof.
  intros HP Hl Hc. assert (Z.of_nat (ovflSize (s_bt s)) = usableSize (s_bt s) - 4) as Hwz by (unfold ovflSize; lia).
  rewrite (chain_length (s_bt s) v first ps (drop l P) ltac:(lia) Hc).
  rewrite length_drop, Hwz, u32_small by (pose proof (bo_page _ Hbt); lia).
  replace (Z.of_nat (length P - l)) with (Z.of_nat (length P) - Z.of_nat l) by lia. apply toInt_small.
  split; [apply Z.div_pos; lia|]. apply Z.div_lt_upper_bound; nia.
Qed.

(** A part [o .. o + amt] of what is on the overflow pages. *)
Lemma db_accessOverflow v ts mine cs d cur pBuf a l P (pos o amt : nat) eOp :
  let first := get4 (bytes v (cu_pPage cur)) (Z.of_nat (a + l)) in
  sees s v d -> balanced s 0 v ts (cs ++ mine) -> linked s v (cs ++ mine) -> vsize v < 2 ^ 32 - 8 ->
  vrefs v (cu_pPage cur) <> 0%nat -> payloadOn v cs (cu_pPage cur) (cu_info cur) a l P -> follows (fst <$> cs) cur ->
  (0 < amt)%nat -> (l + o + amt <= length P)%nat -> (pos + amt <= length pBuf)%nat -> Forall is_byte pBuf ->
  wp (accessOverflow cur pBuf (Z.of_nat pos) (Z.of_nat o) (Z.of_nat amt) eOp)
    (overflowDone eOp v ts mine cs first (drop l P) (fst <$> cs) pBuf pos o amt cur) (fun _ _ => False) d.
Proof.
  intros first S0 Hb Hl Hsz Hr [P1 P2 P3 P4 (P5 & _ & P5') _ P7] Hfo Hamt Ho HB Hby. rewrite decide_False in P7 by lia. destruct P7 as [P7 Hc].
  fold first in Hc. set (w := ovflSize (s_bt s)) in *.
  assert (Z.of_nat w = usableSize (s_bt s) - 4) as Hwz by (unfold w, ovflSize; lia).
  unfold accessOverflow. apply db_bind, db_look. rewrite (se_bt _ _ _ S0), P1, P2, P3. change (default 0 (Some (Z.of_nat a))) with (Z.of_nat a).
  replace (Z.of_nat a + Z.of_nat l) with (Z.of_nat (a + l)) by lia.
  apply db_bind, (db_get4byte s v); [done|done|lia|lia|]. intros d1 S1. fold first. apply db_bind.
  assert (forall cur1 d2, sees s v d2 -> cacheOk (fst <$> cs) cur1 -> sameCell cur cur1 ->
    wp (r ← payloadPages (Z.to_nat ((Z.of_nat o + Z.of_nat amt) / (usableSize (s_bt s) - 4)) + 2) cur1 pBuf (Z.of_nat pos)
            (Z.of_nat o) (Z.of_nat amt) 0 first eOp;
      let '(rc, amt, pBuf, pCur) := r in
      mret (if (rc =? SQLITE_OK) && (0 <? amt) then SQLITE_CORRUPT else rc, amt, pBuf, pCur))
    (overflowDone eOp v ts mine cs first (drop l P) (fst <$> cs) pBuf pos o amt cur) (fun _ _ => False) d2) as Hstart.
  { intros cur1 d2 S2 Hca Hsc.
    pose proof (db_pagesFrom v ts mine [] cs d2 first first (drop l P) (fst <$> cs) pBuf pos o amt cur cur1 eOp) as Hp.
    cbn [length Nat.mul app] in Hp. rewrite Nat.sub_0_r in Hp. rewrite drop_0 in Hp.
    apply Hp; rewrite ?length_drop; (done || lia). }
  destruct (Z.eqb_spec (Z.land (cu_curFlags cur) BTCF_ValidOvfl) 0) as [Hz|Hnz].
  - rewrite (chain_nOvfl v first (fst <$> cs)) by done.
    apply db_bind. apply (db_clearCache s v (fst <$> cs)); [done| |].
    + intros d2 S2. apply db_ret, db_ret. split; [done|]. split; [done|]. right. split; [by right|]. by exists v.
    + intros cur1 d2 S2 Hca _ H1 H2 H3. apply db_ret. by apply Hstart.
  - pose proof (Hfo Hnz) as Hca. rewrite <- Hwz, <- Nat2Z.inj_div. set (k := (o / w)%nat).
    pose proof (Nat.div_mod o w ltac:(lia)) as Hdm. pose proof (Nat.mod_upper_bound o w ltac:(lia)). fold k in Hdm.
    destruct (chain_at (s_bt s) v k _ _ _ Hc) as (p & Hp & Hcp); [fold w; rewrite length_drop; nia|].
    apply db_bind. eapply db_cached; [exact Hca|exact Hp|]. intros x Hx. apply db_ret.
    destruct (Z.eqb_spec x 0) as [->|Hx0]; cbn [negb]; [rewrite Hwz; by apply Hstart|].
    destruct Hx as [->| ->]; [done|]. rewrite <- Nat2Z.inj_mod.
    pose proof (lookup_lt_Some _ _ _ Hp) as Hlt. rewrite length_fmap in Hlt.
    pose proof (db_pagesFrom v ts mine (take k cs) (drop k cs) d1 first p (drop l P) (fst <$> cs) pBuf pos o amt cur cur eOp) as Hpf.
    cbn zeta in Hpf. rewrite take_drop, length_take, Nat.min_l, fmap_drop in Hpf by lia. fold w in Hcp, Hpf.
    replace (o mod w)%nat with (o - k * w)%nat by lia. rewrite Hwz.
    apply Hpf; rewrite ?length_drop; (done || lia).
Qed.

(** ** The part on the page *)

Lemma splice_nil (D : list Z) o : splice D o [] = D.
Proof. unfold splice. cbn [app length]. by rewrite Nat.add_0_r, take_drop. Qed.

(** What is overwritten in the first [l] bytes, and behind them. *)
Lemma splice_parts P l off bs n :
  n = Nat.min (length bs) (l - off) -> (l <= length P)%nat -> (off + length bs <= length P)%nat ->
  splice P off bs = splice (take l P) off (take n bs) ++ splice (drop l P) (off - l) (drop n bs) /\
  length (splice (take l P) off (take n bs)) = l.
Proof.
  intros -> Hl Ho. destruct (decide (l <= off)%nat) as [Hlo|Hlo].
  - replace (Nat.min (length bs) (l - off)) with 0%nat by lia. rewrite take_0, drop_0, splice_nil.
    split; [by apply splice_later|rewrite length_take; lia].
  - split; [|rewrite splice_length; rewrite ?length_take; lia]. replace (off - l)%nat with 0%nat by lia.
    destruct (decide (off + length bs <= l)%nat).
    + rewrite Nat.min_l, (take_ge bs), (drop_ge bs), splice_nil by lia. by apply splice_within.
    + rewrite Nat.min_r by lia. apply splice_across; lia.
Qed.

Lemma part_taken (P : list Z) l off n : (off + n <= l)%nat -> take n (drop off (take l P)) = take n (drop off P).
Proof. intros H. rewrite take_drop_commute, take_take, Nat.min_l by lia. by rewrite <- take_drop_commute. Qed.

Lemma taken_parts (P : list Z) l off amt n :
  n = Nat.min amt (l - off) -> (l <= length P)%nat -> (off + amt <= length P)%nat ->
  take amt (drop off P) = take n (drop off P) ++ take (amt - n) (drop (off - l) (drop l P)).
Proof.
  intros -> Hl Ho. rewrite drop_drop. destruct (decide (l <= off)%nat) as [Hlo|Hlo].
  - replace (Nat.min amt (l - off)) with 0%nat by lia. rewrite take_0, Nat.sub_0_r. cbn [app]. do 2 f_equal. lia.
  - destruct (decide (off + amt <= l)%nat).
    + rewrite Nat.min_l, Nat.sub_diag, take_0 by lia. by rewrite app_nil_r.
    + rewrite Nat.min_r by lia. replace (l + (off - l))%nat with (off + (l - off))%nat by lia.
      rewrite <- drop_drop, take_take_drop. f_equal. lia.
Qed.

(** The page [pg] of [mine], with other bytes. *)
Lemma mine_split (mine : list (Z * list Z)) pg b b1 :
  (pg, b) ∈ mine -> exists mine', mine ≡ₚ (pg, b) :: mine' /\
    exists mine1, mine1 ≡ₚ (pg, b1) :: mine' /\ fst <$> mine1 = fst <$> mine.
Proof.
  intros (m1 & m2 & ->)%list_elem_of_split. exists (m1 ++ m2). split; [by rewrite Permutation_middle|].
  exists (m1 ++ (pg, b1) :: m2). split; [by rewrite Permutation_middle|]. by rewrite !fmap_app.
Qed.

(** The state after [bs] was written at [o] on the page [pg]. *)
Record wrote (v : View) (ts mine cs : list (Z * list Z)) (pg : Z) (o : nat) (bs : list Z) (v1 : View) (mine1 : list (Z * list Z))
    : Prop := {
  wr_balanced : balanced s 0 v1 ts (cs ++ mine1);
  wr_linked : linked s v1 (cs ++ mine1);
  wr_mine : fst <$> mine1 = fst <$> mine;
  wr_refs q : vrefs v1 q = vrefs v q;
  wr_size : vsize v1 = vsize v;
  wr_bytes : bytes v1 pg = splice (bytes v pg) o bs;
  wr_other q : q <> pg -> vpage v1 q = vpage v q
}.

Lemma wrote_none v ts mine cs pg o :
  balanced s 0 v ts (cs ++ mine) -> linked s v (cs ++ mine) -> wrote v ts mine cs pg o [] v mine.
Proof. intros. split; try done. by rewrite splice_nil. Qed.

Lemma wrote_page v ts mine cs pg (o : nat) bs w :
  balanced s 0 v ts (cs ++ mine) -> linked s v (cs ++ mine) -> (pg, bytes v pg) ∈ mine -> isPage (s_bt s) (bytes v pg) ->
  Forall is_byte bs -> (4 <= o)%nat -> Z.of_nat (o + length bs) <= pageSize (s_bt s) ->
  exists mine1, wrote v ts mine cs pg o bs (putData pg (splice (bytes v pg) o bs) (putWrite w v)) mine1.
Proof.
  intros Hb Hl Hin Hpage Hbs Ho Hlen.
  destruct (mine_split mine pg (bytes v pg) (splice (bytes v pg) o bs) Hin) as (rest & Hm & mine1 & Hm1 & Hf). exists mine1.
  assert (forall b mine, mine ≡ₚ (pg, b) :: rest -> cs ++ mine ≡ₚ (pg, b) :: cs ++ rest) as Hperm.
  { intros b m ->. symmetry. apply Permutation_middle. }
  apply (balanced_perm s _ _ _ _ _ (Hperm _ _ Hm)) in Hb. apply (linked_perm s _ _ _ (Hperm _ _ Hm)) in Hl.
  pose proof (copied_view s Hbt true v ts (cs ++ rest) pg (bytes v pg) (o - 4) bs w Hb Hl Hpage Hbs ltac:(lia)) as (B1 & L1 & G1 & R1 & Z1 & V1).
  cbn zeta iota in B1, L1, G1, R1, Z1, V1. replace (4 + Z.of_nat (o - 4)) with (Z.of_nat o) in * by lia. rewrite store_splice in *.
  split; [|by eapply linked_perm, L1; symmetry; apply Hperm|done|done|done| |done].
  - eapply balanced_perm, B1. symmetry. by apply Hperm.
  - cbn. by rewrite fn_lookup_insert.
Qed.

Lemma db_localPart v ts mine cs d pg info a l P pBuf (off amt : nat) (eOp : bool)
    (Q : Z * list Z * Z * Z * Z -> Db -> Prop) E :
  let n := Nat.min amt (l - off) in
  sees s v d -> balanced s 0 v ts (cs ++ mine) -> linked s v (cs ++ mine) -> vrefs v pg <> 0%nat ->
  payloadOn v cs pg info a l P -> (eOp = true -> (pg, bytes v pg) ∈ mine) ->
  (off + amt <= length P)%nat -> (amt <= length pBuf)%nat -> Forall is_byte pBuf ->
  (forall v1 mine1 d1, sees s v1 d1 -> wrote v ts mine cs pg (a + off) (if eOp then take n pBuf else []) v1 mine1 ->
     (eOp = false -> v1 = v) ->
     Q (SQLITE_OK, (if eOp then pBuf else splice pBuf 0 (take n (drop off P))), Z.of_nat n, Z.of_nat (off - l), Z.of_nat (amt - n)) d1) ->
  (forall rc pb x y z d1, fault s rc -> sees s v d1 -> Q (rc, pb, x, y, z) d1) ->
  wp (if Z.of_nat off <? nLocal info then
        let a1 := if nLocal info <? u32 (Z.of_nat amt + Z.of_nat off) then nLocal info - Z.of_nat off else Z.of_nat amt in
        r ← attempt pBuf (copyPayload pg (Z.of_nat a + Z.of_nat off) pBuf 0 a1 eOp);
        mret (r.1, r.2, a1, 0, Z.of_nat amt - a1)
      else mret (SQLITE_OK, pBuf, 0, Z.of_nat off - nLocal info, Z.of_nat amt)) Q E d.
Proof.
  intros n S0 Hb Hl Hr [P1 P2 P3 P4 (P5 & P5' & P5'') P6 P7] Hin Ho HB Hby HQ HE. rewrite P2.
  destruct (Z.ltb_spec (Z.of_nat off) (Z.of_nat l)) as [Hlt|Hge].
  - cbv zeta. rewrite u32_small by lia.
    replace (if Z.of_nat l <? Z.of_nat amt + Z.of_nat off then Z.of_nat l - Z.of_nat off else Z.of_nat amt) with (Z.of_nat n).
    2: { unfold n. destruct (Z.ltb_spec (Z.of_nat l) (Z.of_nat amt + Z.of_nat off)); lia. }
    replace (Z.of_nat a + Z.of_nat off) with (Z.of_nat (a + off)) by lia.
    apply db_bind, db_attempt. apply (db_copyPayload s v); [done|done|lia|lia|lia|lia|lia|done| |].
    + intros w d1 _ _ S1. apply db_ret. cbn [fst snd].
      replace (Z.of_nat amt - Z.of_nat n) with (Z.of_nat (amt - n)) by lia. replace 0 with (Z.of_nat (off - l)) at 2 by lia.
      unfold slice in *. rewrite !Nat2Z.id in *. change (Z.to_nat 0) with 0%nat in *. rewrite drop_0, store_splice in *.
      destruct eOp.
      * destruct (wrote_page v ts mine cs pg (a + off) (take n pBuf) w) as [mine1 Hw]; try done; [by apply Hin|apply (se_bytes _ _ _ S0)|by apply Forall_take|lia|rewrite length_take; lia|].
        by eapply HQ.
      * change 0 with (Z.of_nat 0) at 1. rewrite store_splice, <- drop_drop.
        replace (take n (drop off (drop a (bytes v pg)))) with (take n (drop off P)); [by eapply HQ; [|apply wrote_none|]|].
        rewrite <- (part_taken P l), <- P6 by lia. apply part_taken. lia.
    + intros rc d1 Hf S1. apply db_ret. by apply HE.
  - apply db_ret. replace n with 0%nat in * by lia. rewrite Nat.sub_0_r in HQ. rewrite !take_0, splice_nil in HQ.
    replace (Z.of_nat off - Z.of_nat l) with (Z.of_nat (off - l)) by lia.
    specialize (HQ v mine d S0). replace (if eOp then [] else []) with ([] : list Z) in HQ by (by destruct eOp).
    replace (if eOp then pBuf else pBuf) with pBuf in HQ by (by destruct eOp). apply HQ; [by apply wrote_none|done].
Qed.

(** ** The cell *)

(** The cell [c] of a page like [x] has the payload [P], of which [l] bytes
    are at [pc]. *)
Record carries (v : View) (cs : list (Z * list Z)) (x : MemPage) (c : list Z) (pc l : nat) (P : list Z) : Prop := {
  ca_parse : exists k, forall rest, Forall is_byte rest ->
    xParseCell x (c ++ rest) = mkCellInfo k (Some (Z.of_nat pc)) (Z.of_nat (length P)) (Z.of_nat l) (Z.of_nat (length c));
  ca_width : Z.of_nat (length P) < 2 ^ 31;
  ca_inside : (l <= length P /\ pc + l <= length c)%nat;
  ca_bytes : take l (drop pc c) = take l P;
  ca_chain : if decide (l = length P) then cs = [] else
    (pc + l + 4 = length c)%nat /\ BtChain.chain (s_bt s) v (get4 c (Z.of_nat (pc + l))) (fst <$> cs) (drop l P)
}.

Lemma get4_at (d c rest : list Z) a (o : nat) :
  drop a d = c ++ rest -> (o + 4 <= length c)%nat -> get4 d (Z.of_nat (a + o)) = get4 c (Z.of_nat o).
Proof.
  intros Hd Ho. unfold get4, slice. rewrite !Nat2Z.id, <- drop_drop, Hd.
  rewrite drop_app_le, take_app_le by (rewrite ?length_drop; lia). done.
Qed.

(** The information that a cursor on the cell [i] of the page [x] has. *)
Lemma cellInfo_payload v cs pg cells (i : nat) c pc l P :
  let x := vpage v pg in
  represents x cells -> pBt x = s_bt s -> cells !! i = Some c -> carries v cs x c pc l P ->
  exists info a, cellInfo (Z.of_nat i) x = Some (Ok info, x) /\ payloadOn v cs pg info (a + pc) l P /\
    Z.of_nat i < nCell x /\ drop a (aData x) = c ++ drop (a + length c) (aData x).
Proof.
  intros x Hr Hpb Hi [(k & Hparse) C2 [C3 C4] C5 C6].
  destruct (findCell_run x cells i c Hr Hi) as (a & rest & E & Ed & Hrest & Hc & Ha & Hac & Hn). rewrite Hpb in Hac.
  assert (rest = drop (Z.to_nat a + length c) (aData x)) as Hreq by (by rewrite <- drop_drop, Ed, drop_app_length).
  exists (mkCellInfo k (Some (Z.of_nat (Z.to_nat a + pc))) (Z.of_nat (length P)) (Z.of_nat l) (Z.of_nat (length c))), (Z.to_nat a).
  split_and!; [| |done|by rewrite <- Hreq].
  - unfold cellInfo, btreeParseCell, mbind, PM_bind. rewrite E. cbv beta iota. rewrite E. unfold field. rewrite Ed, (Hparse rest Hrest). cbn.
    do 4 f_equal. rewrite Nat2Z.inj_add, Z2Nat.id by lia. done.
  - split; [done|done|done|done|split_and!; [done|lia|lia]| |].
    + rewrite <- drop_drop. fold x. rewrite Ed, drop_app_le, take_app_le by (rewrite ?length_drop; lia). done.
    + case_decide; [done|]. destruct C6 as [C6 C7]. split; [lia|]. fold x. rewrite <- Nat.add_assoc.
      rewrite (get4_at (aData x) c rest (Z.to_nat a) (pc + l)) by (done || lia). done.
Qed.

Lemma db_peek {A} v d pg (m : PM A) a (Q : A -> Db -> Prop) E :
  sees s v d -> vrefs v pg <> 0%nat -> page d pg = vpage v pg -> m (vpage v pg) = Some (Ok a, vpage v pg) ->
  (forall d', sees s v d' -> page d' pg = vpage v pg -> Q a d') -> wp (on pg m) Q E d.
Proof.
  intros S0 Hr Hp Hm HQ. unfold wp, on. rewrite bool_decide_eq_false_2 by (by rewrite (se_refs _ _ _ S0)).
  rewrite Hp, Hm, bool_decide_eq_true_2 by done. cbn [orb].
  assert (sees s (putPage pg (btreePageFromDbPage pg (s_bt s) (vpage v pg)) v) (setPage pg (vpage v pg) d)) as S1.
  { apply sees_setPage; [done|apply (se_bytes _ _ _ S0)|by left]. }
  apply HQ; [|by rewrite page_setPage, decide_True].
  pose proof (se_page _ _ _ S0 pg) as Hs. rewrite Hp in Hs. rewrite Hs in S1.
  eapply sees_ext, S1; try done. intros q. cbn. unfold insert, fn_insert. by destruct (decide (pg = q)) as [<-|].
Qed.

(** The cursor has no information on the cell, or has it right. *)
Definition onCell (x : MemPage) (cur : BtCursor) : Prop :=
  nSize (cu_info cur) = 0 \/ cellInfo (cu_ix cur) x = Some (Ok (cu_info cur), x).

Lemma db_getCellInfo v d cur info ps (Q : BtCursor -> Db -> Prop) E :
  let x := vpage v (cu_pPage cur) in
  sees s v d -> vrefs v (cu_pPage cur) <> 0%nat -> page d (cu_pPage cur) = x -> onCell x cur ->
  cellInfo (cu_ix cur) x = Some (Ok info, x) -> follows ps cur ->
  (forall cur' d', sees s v d' -> cu_info cur' = info -> cu_ix cur' = cu_ix cur -> cu_pPage cur' = cu_pPage cur -> follows ps cur' -> Q cur' d') ->
  wp (getCellInfo cur) Q E d.
Proof.
  intros x S0 Hr Hp Hon Hi Hfo HQ. unfold getCellInfo. destruct (Z.eqb_spec (nSize (cu_info cur)) 0) as [Hz|Hnz].
  - eapply db_bind, (db_peek v d _ _ info); [done|done|done|exact Hi|]. intros d1 S1 _. apply db_ret. apply HQ; try done.
    intros Hf. destruct Hfo as (l & Hl); [|by exists l]. intros H0. apply Hf. cbn.
    rewrite Z.land_comm, Z.land_lor_distr_r, Z.land_comm, H0. done.
  - apply db_ret. destruct Hon as [Hon|Hon]; [done|]. apply HQ; try done. fold x in Hon. congruence.
Qed.

(** ** The whole payload *)

Lemma drop_splice (b x : list Z) a o n :
  (o + length x <= n)%nat -> (a + n <= length b)%nat -> take n (drop a (splice b (a + o) x)) = splice (take n (drop a b)) o x.
Proof.
  intros Ho Hn. unfold splice.
  rewrite drop_app_le by (rewrite length_take; lia). rewrite <- (take_drop_commute b o a).
  rewrite take_app_ge by (rewrite length_take, length_drop; lia). rewrite length_take, length_drop, Nat.min_l by lia.
  rewrite take_app_ge by lia. rewrite take_take, Nat.min_l by lia. do 2 f_equal.
  transitivity (take (n - (o + length x)) (drop (o + length x) (drop a b))).
  - rewrite drop_drop. f_equal; [lia|]. f_equal. lia.
  - rewrite take_drop_commute. do 2 f_equal. lia.
Qed.

Lemma splice_outside (b x : list Z) o j :
  (o + length x <= length b)%nat -> (j < o \/ o + length x <= j)%nat -> splice b o x !! j = b !! j.
Proof.
  intros Hl Hj. unfold splice. destruct Hj as [Hj|Hj].
  - rewrite lookup_app_l by (rewrite length_take; lia). by apply lookup_take_lt.
  - rewrite lookup_app_r by (rewrite length_take; lia). rewrite lookup_app_r by (rewrite length_take; lia).
    rewrite length_take, lookup_drop. f_equal. lia.
Qed.

(** The payload after bytes of its part on the page were written. *)
Lemma wrote_payload v ts mine cs pg info a l P (off : nat) x v1 mine1 :
  payloadOn v cs pg info a l P -> wrote v ts mine cs pg (a + off) x v1 mine1 -> isPage (s_bt s) (bytes v pg) ->
  x = [] \/ (off + length x <= l)%nat -> (pg ∉ fst <$> cs) \/ v1 = v ->
  let P1 := splice (take l P) off x ++ drop l P in
  payloadOn v1 cs pg info a l P1 /\ length P1 = length P /\ drop l P1 = drop l P /\
  forall j, (j < a \/ a + l <= j)%nat -> bytes v1 pg !! j = bytes v pg !! j.
Proof.
  intros [P1 P2 P3 P4 (P5 & P5' & P5'') P6 P7] Hw [Hlen _] Hx Hpg P'.
  assert (length (splice (take l P) off x) = l) as Hl1.
  { destruct Hx as [->|Hx]; [rewrite splice_nil, length_take; lia|]. rewrite splice_length; rewrite ?length_take; lia. }
  assert (length P' = length P) as HlP by (unfold P'; rewrite length_app, Hl1, length_drop; lia).
  assert (drop l P' = drop l P) as Hd by (unfold P'; by rewrite drop_app_ge, Hl1, Nat.sub_diag by lia).
  assert (take l P' = splice (take l P) off x) as Ht by (unfold P'; by rewrite take_app_le, take_ge by lia).
  assert (forall j, (j < a \/ a + l <= j)%nat -> bytes v1 pg !! j = bytes v pg !! j) as Hout.
  { intros j Hj. rewrite (wr_bytes _ _ _ _ _ _ _ _ _ Hw). destruct Hx as [->|Hx]; [by rewrite splice_nil|].
    apply splice_outside; lia. }
  split_and!; [|done|done|done]. split; [done|done|congruence|lia|split_and!; (done || lia)| |].
  - rewrite (wr_bytes _ _ _ _ _ _ _ _ _ Hw), Ht. destruct Hx as [->|Hx]; [by rewrite !splice_nil|].
    rewrite drop_splice, P6 by lia. done.
  - rewrite HlP. case_decide; [done|]. destruct P7 as [P7 Hc]. split; [done|]. rewrite Hd.
    assert (get4 (bytes v1 pg) (Z.of_nat (a + l)) = get4 (bytes v pg) (Z.of_nat (a + l))) as ->.
    { unfold get4, slice. do 2 f_equal. apply list_eq. intros j. rewrite !lookup_drop, Nat2Z.id. apply Hout. lia. }
    destruct Hpg as [Hpg| ->]; [|done]. eapply ovflChain_same, Hc. intros q Hq. rewrite (wr_other _ _ _ _ _ _ _ _ _ Hw); [done|].
    by intros ->.
Qed.

(** And after bytes on the overflow pages were. *)
Lemma touched_payload eOp v ts mine cs pg info a l P o bs v' cs' :
  payloadOn v cs pg info a l P -> (l < length P)%nat ->
  touched s eOp v ts mine cs (get4 (bytes v pg) (Z.of_nat (a + l))) (drop l P) o bs v' cs' ->
  (pg ∉ fst <$> cs) \/ eOp = false -> (o + length bs <= length (drop l P))%nat ->
  payloadOn v' cs' pg info a l (take l P ++ (if eOp then splice (drop l P) o bs else drop l P)) /\ bytes v' pg = bytes v pg.
Proof.
  intros [P1 P2 P3 P4 (P5 & P5' & P5'') P6 P7] Hl [T1 T2 T3 T4 T5 T6 T7 T8] Hpg Ho. rewrite decide_False in P7 by lia.
  assert (length (if eOp then splice (drop l P) o bs else drop l P) = length (drop l P)) as Hl1.
  { destruct eOp; [by apply splice_length|done]. }
  set (Y := if eOp then _ else _) in *. rewrite length_drop in Hl1.
  assert (length (take l P) = l) as Hlt by (rewrite length_take; lia).
  assert (bytes v' pg = bytes v pg) as Hb.
  { destruct Hpg as [Hpg|He]; [by rewrite T6|by rewrite T8]. }
  split; [|done]. assert (length (take l P ++ Y) = length P) as HlP by (rewrite length_app; lia).
  split; [done|done|congruence|lia|split_and!; (done || lia)| |].
  - rewrite Hb, P6, take_app_le, (take_ge (take l P)) by lia. done.
  - rewrite HlP, decide_False by lia. destruct P7 as [P7 _]. split; [done|]. rewrite T3, Hb.
    by rewrite drop_app_ge, Hlt, Nat.sub_diag, drop_0 by lia.
Qed.

(** The payload was read, or [bs] was written into it at [off]; nothing else
    changed. *)
Record served (eOp : bool) (v : View) (ts mine cs : list (Z * list Z)) (pg : Z) (info : CellInfo) (a l : nat) (P : list Z)
    (off : nat) (bs : list Z) (v' : View) (mine' cs' : list (Z * list Z)) : Prop := {
  sv_balanced : balanced s 0 v' ts (cs' ++ mine');
  sv_linked : linked s v' (cs' ++ mine');
  sv_chain : fst <$> cs' = fst <$> cs;
  sv_mine : fst <$> mine' = fst <$> mine;
  sv_payload : payloadOn v' cs' pg info a l (if eOp then splice P off bs else P);
  sv_refs q : vrefs v' q = vrefs v q;
  sv_size : vsize v' = vsize v;
  sv_other q : q <> pg -> (q ∉ fst <$> cs) -> vpage v' q = vpage v q;
  sv_page j : (j < a \/ a + l <= j)%nat -> bytes v' pg !! j = bytes v pg !! j;
  sv_read : eOp = false -> v' = v
}.

Definition paid (eOp : bool) (v : View) (ts mine cs : list (Z * list Z)) (info : CellInfo) (a l : nat) (P pBuf : list Z)
    (off amt : nat) (cur : BtCursor) (r : Z * list Z * BtCursor) (d : Db) : Prop :=
  let '(rc, pBuf', cur') := r in
  follows (fst <$> cs) cur' /\ cu_info cur' = info /\ cu_ix cur' = cu_ix cur /\ cu_pPage cur' = cu_pPage cur /\
  ((rc = SQLITE_OK /\ pBuf' = (if eOp then pBuf else splice pBuf 0 (take amt (drop off P))) /\
    exists v' mine' cs', sees s v' d /\ served eOp v ts mine cs (cu_pPage cur) info a l P off (take amt pBuf) v' mine' cs') \/
   (faulty s rc /\ exists v', sees s v' d /\ forall q, vrefs v' q = vrefs v q)).

(** All of the rest is on the page. *)
Lemma served_local (eOp : bool) v ts mine cs pg info a l P pBuf (off amt : nat) v1 mine1 :
  let n := Nat.min amt (l - off) in
  payloadOn v cs pg info a l P -> isPage (s_bt s) (bytes v pg) ->
  wrote v ts mine cs pg (a + off) (if eOp then take n pBuf else []) v1 mine1 -> (eOp = false -> v1 = v) ->
  (pg ∉ fst <$> cs) \/ eOp = false -> (off + amt <= length P)%nat -> (amt <= length pBuf)%nat -> amt = n ->
  served eOp v ts mine cs pg info a l P off (take amt pBuf) v1 mine1 cs.
Proof.
  intros n HP Hpage Hw Hv Hpg Ho HB Hn.
  destruct (wrote_payload v ts mine cs pg info a l P off _ v1 mine1 HP Hw Hpage) as (HP1 & Hl1 & Hd1 & Hout).
  { destruct eOp; [|by left]. rewrite length_take. destruct (decide (amt = 0%nat)); [left|right; lia]. replace n with 0%nat by lia. by rewrite take_0. }
  { destruct Hpg; [by left|right; auto]. }
  destruct Hw as [W1 W2 W3 W4 W5 W6 W7]. split; try done; [|by intros q Hq _; apply W7].
  destruct eOp; [|by rewrite splice_nil, take_drop in HP1].
  destruct (splice_parts P l off (take amt pBuf) n) as [Hs _]; [rewrite length_take; lia|by destruct HP as [_ _ _ _ [? _] _ _]|rewrite length_take; lia|].
  rewrite Hs, take_take, Nat.min_l by lia. rewrite (drop_ge (take amt pBuf)), splice_nil by (rewrite length_take; lia). done.
Qed.

(** And when bytes on the overflow pages follow. *)
Lemma served_overflow (eOp : bool) v ts mine cs pg info a l P pBuf (off amt : nat) v1 mine1 pBuf1 v' cs' :
  let n := Nat.min amt (l - off) in
  payloadOn v cs pg info a l P -> isPage (s_bt s) (bytes v pg) ->
  wrote v ts mine cs pg (a + off) (if eOp then take n pBuf else []) v1 mine1 -> (eOp = false -> v1 = v) ->
  (pg ∉ fst <$> cs) \/ eOp = false -> (off + amt <= length P)%nat -> (amt <= length pBuf)%nat -> (n < amt)%nat ->
  (eOp = true -> pBuf1 = pBuf) ->
  touched s eOp v1 ts mine1 cs (get4 (bytes v1 pg) (Z.of_nat (a + l))) (drop l P) (off - l) (take (amt - n) (drop n pBuf1)) v' cs' ->
  served eOp v ts mine cs pg info a l P off (take amt pBuf) v' mine1 cs'.
Proof.
  intros n HP Hpage Hw Hv Hpg Ho HB Hn Hb1 HT. assert (l <= length P)%nat as HlP by (by destruct HP as [_ _ _ _ [? _] _ _]).
  destruct (wrote_payload v ts mine cs pg info a l P off _ v1 mine1 HP Hw Hpage) as (HP1 & Hl1 & Hd1 & Hout).
  { destruct eOp; [|by left]. rewrite length_take. destruct (decide (l <= off)%nat); [left|right; lia]. replace n with 0%nat by lia. by rewrite take_0. }
  { destruct Hpg; [by left|right; auto]. }
  rewrite <- Hd1 in HT.
  destruct (touched_payload eOp v1 ts mine1 cs pg info a l (splice (take l P) off (if eOp then take n pBuf else []) ++ drop l P) _ _ v' cs' HP1 ltac:(lia) HT Hpg) as [HP2 Hbv].
  { rewrite Hd1, length_take, !length_drop. lia. }
  destruct (splice_parts P l off (take amt pBuf) n) as [Hs Hsl]; [rewrite length_take; lia|done|rewrite length_take; lia|].
  destruct Hw as [W1 W2 W3 W4 W5 W6 W7], HT as [T1 T2 T3 T4 T5 T6 T7 T8].
  split; try done; [|by intros q; rewrite T4|congruence|by intros q Hq Hq'; rewrite T6, W7|by intros j Hj; rewrite Hbv, Hout|].
  - rewrite Hd1 in HP2. destruct eOp; [|by rewrite splice_nil, take_drop, take_drop in HP2]. rewrite take_take, Nat.min_l in Hs, Hsl by lia.
    rewrite take_app_le, (take_ge (splice (take l P) off (take n pBuf))), Hb1 in HP2 by (done || lia).
    rewrite Hs. rewrite take_drop_commute in HP2. replace (n + (amt - n))%nat with amt in HP2 by lia. exact HP2.
  - intros He. rewrite T8, Hv; done.
Qed.

Lemma db_accessPayload v ts mine cs d cur cells (i : nat) c pc l P pBuf (off amt : nat) (eOp : bool) :
  let x := vpage v (cu_pPage cur) in
  sees s v d -> balanced s 0 v ts (cs ++ mine) -> linked s v (cs ++ mine) -> vsize v < 2 ^ 32 - 8 ->
  vrefs v (cu_pPage cur) <> 0%nat -> page d (cu_pPage cur) = x -> represents x cells -> pBt x = s_bt s ->
  cells !! i = Some c -> cu_ix cur = Z.of_nat i -> carries v cs x c pc l P -> onCell x cur -> follows (fst <$> cs) cur ->
  (eOp = true -> (cu_pPage cur, aData x) ∈ mine) ->
  (off + amt <= length P)%nat -> (amt <= length pBuf)%nat -> Forall is_byte pBuf ->
  exists info a, cellInfo (Z.of_nat i) x = Some (Ok info, x) /\ payloadOn v cs (cu_pPage cur) info (a + pc) l P /\
    drop a (aData x) = c ++ drop (a + length c) (aData x) /\
  wp (accessPayload cur (Z.of_nat off) (Z.of_nat amt) pBuf eOp)
    (paid eOp v ts mine cs info (a + pc) l P pBuf off amt cur) (fun _ _ => False) d.
Proof.
  intros x S0 Hb Hl Hsz Hr Hpg Hrep Hpb Hi Hix Hca Hon Hfo Hin Ho HB Hby.
  destruct (cellInfo_payload v cs (cu_pPage cur) cells i c pc l P Hrep Hpb Hi Hca) as (info & a & Hci & HP & Hn & Hdr).
  exists info, a. split_and!; [done|done|done|]. fold x in Hci, Hn. set (pg := cu_pPage cur) in *.
  assert ((pg ∉ fst <$> cs) \/ eOp = false) as Hnot.
  { destruct eOp; [left|by right]. specialize (Hin eq_refl). destruct (list_elem_of_split _ _ Hin) as (m1 & m2 & ->).
    apply (balanced_perm s _ _ _ _ ((pg, aData x) :: cs ++ m1 ++ m2)) in Hb.
    - apply balanced_head in Hb as [Hnp _]. rewrite fmap_app in Hnp. intros Hc. apply Hnp, elem_of_app. by left.
    - by rewrite !(assoc_L (++)), Permutation_middle. }
  unfold accessPayload. apply db_bind, db_look. rewrite (se_bt _ _ _ S0). fold pg.
  apply db_bind, (db_peek v d pg _ (nCell x)); [done..|]. intros d1 S1 Hp1.
  destruct (Z.leb_spec (nCell x) (cu_ix cur)); [lia|].
  apply db_bind, (db_getCellInfo v d1 cur info (fst <$> cs)); try done; [fold pg; fold x; congruence|].
  intros cur1 d2 S2 I1 I2 I3 Hfo1. fold pg in I3. pose proof HP as [P1 P2 P3 P4 (P5 & P5' & P5'') P6 P7].
  pose proof (bo_page _ Hbt). rewrite I1, P1, P2, u32_small by lia. destruct (Z.ltb_spec (usableSize (s_bt s) - Z.of_nat l) (Z.of_nat (a + pc))); [lia|].
  apply db_bind. rewrite <- P2, I3. pose proof (se_bytes _ _ _ S0 pg) as Hpage.
  assert (forall rc pb d3, fault s rc -> sees s v d3 -> wp (mret (rc, pb, cur1)) (paid eOp v ts mine cs info (a + pc) l P pBuf off amt cur)
    (fun _ _ => False) d3) as Hfault.
  { intros rc pb d3 Hf S3. apply db_ret. split_and!; try done. right. split; [by left|]. by exists v. }
  apply (db_localPart v ts mine cs d2 pg info (a + pc) l P pBuf off amt eOp); try done.
  2: { intros rc pb y z w d3 Hf S3. cbv beta iota. destruct (Z.eqb_spec rc SQLITE_OK) as [->|]; [by destruct Hf|]. by apply Hfault. }
  intros v1 mine1 d3 S3 Hw Hv. cbv beta iota. change (SQLITE_OK =? SQLITE_OK) with true. cbn [andb].
  set (n := Nat.min amt (l - off)) in *. destruct (Z.ltb_spec 0 (Z.of_nat (amt - n))) as [Hmore|Hdone].
  2: { apply db_ret. split_and!; try done. left. split; [done|]. assert (n = amt) as Hna by lia. rewrite Hna at 1. split; [done|].
       exists v1, mine1, cs. split; [done|]. eapply served_local; (done || lia). }
  set (pBuf1 := if eOp then pBuf else splice pBuf 0 (take n (drop off P))).
  assert (length pBuf1 = length pBuf) as Hlb.
  { unfold pBuf1. destruct eOp; [done|]. apply splice_length. rewrite length_take. lia. }
  assert (Forall is_byte pBuf1) as Hbb.
  { unfold pBuf1. destruct eOp; [done|]. destruct (decide (l <= off)%nat); [replace n with 0%nat by lia; by rewrite take_0, splice_nil|]. rewrite <- (part_taken P l), <- P6 by lia.
    unfold splice. repeat apply Forall_app_2; [by apply Forall_take|apply Forall_take, Forall_drop, Forall_take, Forall_drop, Hpage|by apply Forall_drop]. }
  destruct (wrote_payload v ts mine cs pg info (a + pc) l P off _ v1 mine1 HP Hw Hpage) as (HP1 & Hl1 & Hd1 & _).
  { destruct eOp; [|by left]. rewrite length_take. destruct (decide (l <= off)%nat); [left|right; lia]. replace n with 0%nat by lia. by rewrite take_0. }
  { destruct Hnot; [by left|right; auto]. }
  apply db_bind. rewrite <- I3 in HP1 at 1.
  pose proof (db_accessOverflow v1 ts mine1 cs d3 cur1 pBuf1 (a + pc) l (splice (take l P) off (if eOp then take n pBuf else []) ++ drop l P) n (off - l) (amt - n) eOp S3
    (wr_balanced _ _ _ _ _ _ _ _ _ Hw) (wr_linked _ _ _ _ _ _ _ _ _ Hw)) as Hov.
  rewrite I1 in Hov. cbn zeta in Hov. eapply db_mono; [apply Hov; [|..|exact HP1|done|lia|lia|lia|done]| |done].
  { rewrite (wr_size _ _ _ _ _ _ _ _ _ Hw). done. } { rewrite (wr_refs _ _ _ _ _ _ _ _ _ Hw), I3. done. }
  intros [[[rc amt'] pBuf'] cur'] d4 (F1 & (F2 & F3 & F4) & F5). apply db_ret. rewrite I3, Hd1 in *.
  split_and!; try (done || congruence). destruct F5 as [(-> & -> & v' & cs' & S4 & HT)|(Hf & v' & S4 & Hr4)].
  - left. split; [done|]. split.
    + unfold pBuf1. destruct eOp; [done|]. rewrite (taken_parts P l off amt n) by (done || lia).
      assert (length (take n (drop off P)) = n) as Hln by (rewrite length_take, length_drop; lia).
      rewrite <- Hln at 2. rewrite splice_splice; [done|]. rewrite Hln, length_take, !length_drop. lia.
    + exists v', mine1, cs'. split; [done|]. eapply (served_overflow eOp v ts mine cs pg info (a + pc) l P pBuf off amt v1 mine1 pBuf1); try done; [fold n; lia|]. unfold pBuf1. by destruct eOp.
  - right. split; [done|]. exists v'. split; [done|]. intros q. rewrite Hr4. apply (wr_refs _ _ _ _ _ _ _ _ _ Hw).
Qed.

(** ** The overflow pages of a cell become free *)

Lemma db_clearCell v ts mine cs d pg cells (i : nat) c pc l P :
  let x := vpage v pg in
  sees s v d -> balanced s 0 v ts (cs ++ mine) -> linked s v (cs ++ mine) -> vsize v < 2 ^ 32 - 8 ->
  vrefs v pg <> 0%nat -> (forall p, p ∈ fst <$> cs -> vrefs v p = 0%nat) -> page d pg = x -> pageSize (s_bt s) <= aDataEnd x ->
  represents x cells -> pBt x = s_bt s -> cells !! i = Some c -> carries v cs x c pc l P ->
  exists a, findCell (Z.of_nat i) x = Some (Ok a, x) /\
  wp (BTREE_CLEAR_CELL pg a)
    (fun info d' => nPayload info = Z.of_nat (length P) /\ nSize info = Z.of_nat (length c) /\
       exists v' ts', sees s v' d' /\ cleared s v ts mine (fst <$> cs) v' ts') (notCleared s v) d.
Proof.
  intros x S0 Hb Hl Hsz Hr Hrs Hpg Hend Hrep Hpb Hi [(k & Hparse) C2 [C3 C4] C5 C6].
  destruct (findCell_run x cells i c Hrep Hi) as (a & rest & E & Ed & Hrest & Hc & Ha & Hac & Hn). rewrite Hpb in Hac.
  exists a. split; [done|]. unfold BTREE_CLEAR_CELL. apply db_bind.
  eapply (db_peek v d pg _ (xParseCell x (drop (Z.to_nat a) (aData x)))); [done|done|done|done|]. intros d1 S1 Hp1.
  rewrite Ed, (Hparse rest Hrest). cbn [nLocal nPayload]. apply db_bind.
  case_decide as Hlp.
  - rewrite Hlp, Z.eqb_refl. cbn [negb]. apply db_ret, db_ret. split_and!; [done|done|]. exists v, ts. subst cs. by split.
  - destruct (Z.eqb_spec (Z.of_nat l) (Z.of_nat (length P))); [lia|]. cbn [negb]. destruct C6 as [C6 C7].
    unfold clearCellOverflow. apply db_bind, db_look. rewrite (se_bt _ _ _ S1). apply db_bind.
    eapply (db_peek v d1 pg _ (aDataEnd x)); [done..|]. intros d2 S2 Hp2. cbn [nSize nPayload nLocal].
    destruct (Z.ltb_spec (aDataEnd x) (a + Z.of_nat (length c))); [lia|].
    apply db_bind, (db_get4byte s v); [done|done|lia|lia|]. intros d3 S3. fold x.
    replace (a + Z.of_nat (length c) - 4) with (Z.of_nat (Z.to_nat a + (pc + l))) by lia.
    rewrite (get4_at (aData x) c rest (Z.to_nat a) (pc + l)) by (done || lia).
    rewrite (chain_nOvfl v _ _ _ _ C2 C3 C7), Nat2Z.id by done.
    eapply db_mono; [apply (db_clearLoop s Hbt (fst <$> cs) v ts cs mine d3 _ (drop l P)); (done || by apply linked_but)| |done].
    intros _ d4 (v' & ts' & S4 & Hcl). apply db_ret. split_and!; [done|done|]. by exists v', ts'.
Qed.
End cursor.
