(* ===== verification/BtInsert.v ===== *)
(** * A row: written, put on a page, and read back (btree.c)

    [sqlite3BtreeInsert] writes the cell with [fillInCell] and puts it on the
    page with [insertCellFast]; [accessPayload] then finds the payload.  The
    functions of BtPage.v that insert cells take the results of the pager as
    parameters; here they run on the pages of the database. *)

From stdpp Require Import base numbers option gmap sets functions list.
From S2P Require Import Prelude Util Varint Bitvec Btree BtVarint BtCell BtMem BtPage BtTile BtSpace BtFree BtAlloc BtDefrag BtUpdate BtList BtPager BtView BtPtrmap BtFreelist BtTrunk BtTake BtAllocate BtRelease BtBalance BtPayload BtChain BtStore BtFill BtClear BtAccess BtServe.
#[local] Open Scope Z_scope.

(** ** The operations *)

(** The entry of the first overflow page of the cell, with the pointer map of
    the database. *)
Definition ptrmapPutOvflPtr_db (pg : Z) (pCell : list Z) : DM unit :=
  info ← on pg (field (fun p => xParseCell p pCell));
  if nLocal info <? nPayload info then
    ptrmapPut (sqlite3Get4byte (drop (Z.to_nat (nSize info - 4)) pCell)) PTRMAP_OVERFLOW1 pg
  else mret ().

(** [insertCellFast] on the page [pg]: the calls of the pager, around the
    changes of the page. *)
Definition insertCellFast_db (pg i : Z) (pCell : list Z) (sz : Z) : DM unit :=
  let onPage := on pg (insertCellFast SQLITE_OK (fun _ _ _ => SQLITE_OK) i pCell sz) in
  nFree0 ← on pg (field nFree);
  if nFree0 <? sz + 2 then onPage
  else
    sqlite3PagerWrite pg;;
    onPage;;
    bt ← look shared;
    if autoVacuum bt then ptrmapPutOvflPtr_db pg pCell else mret ().

Definition invalidateOverflowCache (c : BtCursor) : BtCursor :=
  mkBtCursor (Z.land (cu_curFlags c) (Z.lnot BTCF_ValidOvfl)) (cu_aOverflow c) (cu_info c) (cu_ix c) (cu_pPage c).

(** [pCur->info.nSize = 0] *)
Definition forgetInfo (c : BtCursor) : BtCursor :=
  let i := cu_info c in
  mkBtCursor (cu_curFlags c) (cu_aOverflow c) (mkCellInfo (nKey i) (pPayload i) (nPayload i) (nLocal i) 0) (cu_ix c) (cu_pPage c).

(** [idx = ++pCur->ix], and the flags that are cleared with it. *)
Definition nextIndex (c : BtCursor) : BtCursor :=
  mkBtCursor (Z.land (cu_curFlags c) (Z.lnot (Z.lor BTCF_ValidNKey BTCF_ValidOvfl))) (cu_aOverflow c) (cu_info c)
    (cu_ix c + 1) (cu_pPage c).

(** The end of [sqlite3BtreeInsert], up to the balancing of the pages: the
    cursor points to the entry to be replaced when [loc] is 0, and next to the
    place of the new one otherwise; [newCell] is the buffer [pTmpSpace], and
    [flags] do not have BTREE_PREFORMAT.  The cursor is the result. *)
Definition insertRow (pCur : BtCursor) (newCell : list Z) (pX : BtreePayload) (loc : Z) : DM BtCursor :=
  let pg := cu_pPage pCur in
  pPage ← on pg (field (fun p => p));
  r ← fillInCell pPage newCell pX;
  let '(newCell, szNew) := r in
  let idx := cu_ix pCur in
  let pCur := forgetInfo pCur in
  n ← on pg (field nCell);
  if loc =? 0 then
    if n <=? idx then throw SQLITE_CORRUPT else
    sqlite3PagerWrite pg;;
    oldCell ← on pg (findCell idx);
    newCell ← (if leaf pPage then mret newCell
               else child ← on pg (memread oldCell 4); copyTo newCell (AtCell 0) child);
    info ← BTREE_CLEAR_CELL pg oldCell;
    let pCur := invalidateOverflowCache pCur in
    bt ← look shared;
    if (nSize info =? szNew) && (nLocal info =? nPayload info) && (negb (autoVacuum bt) || (szNew <? minLocal pPage)) then
      if oldCell <? hdrOffset pPage + 10 then throw SQLITE_CORRUPT else
      if aDataEnd pPage <? oldCell + szNew then throw SQLITE_CORRUPT else
      on pg (memwrite oldCell (slice newCell 0 szNew));;
      mret pCur
    else
      on pg (dropCell idx (nSize info));;
      insertCellFast_db pg idx newCell szNew;;
      mret pCur
  else
    let pCur := if (loc <? 0) && (0 <? n) then nextIndex pCur else pCur in
    insertCellFast_db pg (cu_ix pCur) newCell szNew;;
    mret pCur.

(** ** Numbers of pages are kept *)

Lemma grows_onError {A} (m : DM A) h : grows m -> grows h -> grows (onError m h).
Proof.
  intros Hm Hh db. specialize (Hm db). unfold onError. destruct (m db) as [[[a|rc] d]|]; [done| |done].
  specialize (grows_bind h (fun _ => throw rc) Hh (fun _ => grows_throw (A:=A) rc) d) as H.
  destruct ((h;; throw rc) d) as [[r d']|]; [|done]. by etrans.
Qed.

Lemma grows_next f bt p : grows (nextOvfl f bt p).
Proof. revert p. induction f; intros; cbn [nextOvfl]; [by intros db|]. cbv zeta. destruct (_ || _); [auto|apply grows_ret]. Qed.

Lemma grows_ptrmapPut k e p : grows (ptrmapPut k e p).
Proof. unfold ptrmapPut. grows. Qed.
#[export] Hint Resolve grows_allocateBtreePage grows_next grows_ptrmapPut : grows.

Lemma grows_newOverflow bt p : grows (newOverflow bt p).
Proof. unfold newOverflow. grows. apply grows_onError; grows. Qed.

Lemma grows_copyTo cell p bs : grows (copyTo cell p bs).
Proof. unfold copyTo. destruct p; [|grows]. intros db. by destruct (inside _ _ _). Qed.

Lemma grows_source l n : grows (source l n).
Proof. intros db. unfold source. by destruct (inside _ _ _). Qed.
#[export] Hint Resolve grows_newOverflow grows_copyTo grows_source : grows.

Lemma grows_fillLoop f bt cell a b l n m w p q : grows (fillLoop f bt cell a b l n m w p q).
Proof.
  revert cell a b l n m w p q. induction f; intros; cbn [fillLoop]; [by intros db|]. cbv zeta. grows; auto.
  apply grows_onError; grows.
Qed.
#[export] Hint Resolve grows_fillLoop : grows.

Lemma grows_fillInCell p cell pX : grows (fillInCell p cell pX).
Proof. unfold fillInCell. cbv zeta. grows. Qed.

(** ** A page that is held *)

Lemma represents_init b x cells : represents x cells -> represents (setInit b x) cells.
Proof.
  intros ([G1 G2 G3 G4 G5 G6 G7] & Hov & top & ks & fr & fg & Hks & [L1 L2 L3 L4 L5 L6 L7]).
  split; [|split; [done|]]; [split; try done|exists top, ks, fr, fg; split; [done|split; try done]].
  clear - G3. revert G3. destruct x. unfold decodeFlags. cbn. repeat case_match; try done; intros [=]; by subst.
Qed.

Lemma parse_init b x c : xParseCell (setInit b x) c = xParseCell x c.
Proof. done. Qed.

Section insert.
Context (s : Start) (Hbt : bt_ok (s_bt s)).

Let Hu : 480 <= usableSize (s_bt s) <= pageSize (s_bt s).
Proof. apply Hbt. Qed.

Lemma held_page v d pg : sees s v d -> pgno (page d pg) = pg -> page d pg = vpage v pg.
Proof. intros S0 Hp. rewrite <- (se_page _ _ _ S0 pg). unfold btreePageFromDbPage. by rewrite Hp, Z.eqb_refl. Qed.

Lemma page_held v d pg : sees s v d -> page d pg = vpage v pg -> pgno (page d pg) = pg.
Proof.
  intros S0 Hp. pose proof (se_page _ _ _ S0 pg) as Hs. rewrite <- Hp in Hs. rewrite <- Hs.
  unfold btreePageFromDbPage. destruct (Z.eqb_spec pg (pgno (page d pg))); [congruence|done].
Qed.

(** What a call leaves of a page whose bytes it leaves. *)
Lemma later_view v d v' d' pg :
  sees s v d -> sees s v' d' -> later d d' -> pgno (page d pg) = pg -> bytes v' pg = bytes v pg ->
  pgno (page d' pg) = pg /\ vpage v' pg = setInit (isInit (vpage v' pg)) (vpage v pg).
Proof.
  intros S0 S1 [_ Hl] Hp Hb. specialize (Hl pg Hp). assert (pgno (page d' pg) = pg) as Hp' by (by rewrite (sameFields_pgno _ _ Hl)).
  split; [done|]. rewrite (held_page v d pg S0 Hp), (held_page v' d' pg S1 Hp') in Hl. unfold sameFields in Hl.
  rewrite Hb in Hl. by destruct (vpage v pg).
Qed.

(** A page in use is another one now. *)
Lemma balanced_page x v ts mine p b y :
  balanced s x v ts ((p, b) :: mine) -> isInit y = isInit (vpage v p) ->
  balanced s x (putPage p y v) ts ((p, aData y) :: mine).
Proof.
  intros Hb Hi. pose proof (balanced_put s Hbt x v ts mine p b (aData y) Hb) as [B1 B3 B4 B5].
  assert (forall q, bytes (putPage p y v) q = bytes (putData p (aData y) v) q) as He.
  { intros q. cbn. unfold insert, fn_insert. by case_decide. }
  split; [|done| |].
  - eapply freelist_frame; [exact B1|..]; try done.
    + intros q _. cbn. unfold insert, fn_insert. by case_decide; [subst|].
    + apply B1.
  - intros q c Hq. rewrite He. by apply B4.
  - intros q. rewrite (ptrmapEntry_same _ (putData p (aData y) v)); [apply B5|]. apply He.
Qed.

Lemma linked_page x v ts mine p b y :
  balanced s x v ts ((p, b) :: mine) -> linked s v ((p, b) :: mine) -> unnamed s p v ((p, b) :: mine) ->
  linked s (putPage p y v) ((p, aData y) :: mine).
Proof.
  intros Hb Hl Hun Hav q o Hq He. destruct (in_use s _ _ _ _ p Hb ltac:(by left)) as (Hop & _).
  destruct (in_use s _ _ _ _ q Hb Hq) as (Hoq & _).
  assert (ptrmapEntry (s_bt s) (putPage p y v) q = ptrmapEntry (s_bt s) v q) as Hsame.
  { rewrite <- (entry_put s Hbt v p (aData y) q) by done. apply ptrmapEntry_same. cbn. unfold insert, fn_insert. by case_decide. }
  rewrite Hsame in He. destruct (Hl Hav q o Hq He) as [H1 H2]. split; [done|].
  cbn. rewrite fn_lookup_insert_ne; [done|]. intros <-. by apply (Hun Hav q Hq).
Qed.

Lemma balanced_any x v ts mine : balanced s 0 v ts mine -> balanced s x v ts mine.
Proof.
  intros [B1 B2 B3 B4]. split; [done..|]. intros p Hav Hp _. apply B4; [done|done|].
  apply (pt_all _ _ _ _ B2) in Hp as [[? _ _] _]. lia.
Qed.

(** A change of the page [pg]. *)
Lemma db_onPage {A} v d pg (m : PM A) a y (Q : A -> Db -> Prop) E :
  sees s v d -> vrefs v pg <> 0%nat -> pgno (page d pg) = pg -> m (vpage v pg) = Some (Ok a, y) ->
  pgno y = pg -> isPage (s_bt s) (aData y) -> pg ∈ vwrite v ->
  (forall d', sees s (putPage pg y v) d' -> pgno (page d' pg) = pg -> Q a d') -> wp (on pg m) Q E d.
Proof.
  intros S0 Hr Hp Hm Hy Hpage Hw HQ. unfold wp, on. rewrite bool_decide_eq_false_2 by (by rewrite (se_refs _ _ _ S0)).
  rewrite (held_page v d pg S0 Hp), Hm, (se_write _ _ _ S0), (bool_decide_eq_true_2 (pg ∈ _)), orb_true_r by done.
  pose proof (sees_setPage s v d pg y S0 Hpage ltac:(by right; left)) as S1.
  unfold btreePageFromDbPage in S1. rewrite Hy, Z.eqb_refl in S1.
  apply HQ; [done|]. by rewrite page_setPage, decide_True.
Qed.

(** ** The insertion of a cell *)

Lemma pointer_at (c rest : list Z) k :
  (k + 4 = length c)%nat -> sqlite3Get4byte (drop (Z.to_nat (Z.of_nat (length c) - 4)) (c ++ rest)) = get4 c (Z.of_nat k).
Proof.
  intros Hk. replace (Z.to_nat (Z.of_nat (length c) - 4)) with k by lia. unfold get4, slice. rewrite Nat2Z.id.
  rewrite drop_app_le by lia. pose proof (length_drop c k) as Hl.
  destruct (drop k c) as [|b0 [|b1 [|b2 [|b3 [|]]]]]; cbn in Hl; try lia. done.
Qed.

(** The cell that carries the payload is the same on pages that differ in the
    data and in the number of cells. *)
Lemma carries_same v v' cs x x' c pc l P :
  carries s v cs x c pc l P -> (forall d, xParseCell x' d = xParseCell x d) ->
  (forall q, q ∈ fst <$> cs -> bytes v' q = bytes v q) -> carries s v' cs x' c pc l P.
Proof.
  intros [(k & C1) C2 C3 C4 C5] Hx Hq. split; try done.
  - exists k. intros rest Hr. by rewrite Hx, C1.
  - case_decide; [done|]. destruct C5 as [C5 C6]. split; [done|]. by eapply ovflChain_same, C6.
Qed.

(** The state after the cell [c] became the cell [i] of the page [pg]. *)
Record cellOn (v : View) (ts mine cs : list (Z * list Z)) (pg : Z) (cells : list (list Z)) (i : nat) (c : list Z) (pc l : nat) (P : list Z)
    (v' : View) (mine' : list (Z * list Z)) : Prop := {
  co_balanced : balanced s 0 v' ts (cs ++ mine');
  co_linked : linked s v' (cs ++ mine');
  co_mine : fst <$> mine' = fst <$> mine;
  co_cells : represents (vpage v' pg) (insertAt i c cells);
  co_bt : pBt (vpage v' pg) = s_bt s;
  co_carries : carries s v' cs (vpage v' pg) c pc l P;
  co_refs q : vrefs v' q = vrefs v q;
  co_size : vsize v' = vsize v
}.

(** The page with the cell, before the pointer map. *)
Lemma cellOn_page v ts mine cs pg cells i c pc l P y w :
  let x := vpage v pg in
  balanced s 0 v ts (cs ++ mine) -> linked s v (cs ++ mine) -> (pg, aData x) ∈ mine -> unnamed s pg v (cs ++ mine) ->
  pBt x = s_bt s -> carries s v cs x c pc l P -> represents y (insertAt i c cells) -> same_page x y ->
  exists mine', cellOn v ts mine cs pg cells i c pc l P (putPage pg y (putWrite w v)) mine'.
Proof.
  intros x Hb Hl Hin Hun Hpb Hca Hr [Hy _]. destruct (mine_split mine pg (aData x) (aData y) Hin) as (rest & Hm & mine' & Hm' & Hf).
  exists mine'. assert (forall b m, m ≡ₚ (pg, b) :: rest -> cs ++ m ≡ₚ (pg, b) :: cs ++ rest) as Hperm.
  { intros b m ->. symmetry. apply Permutation_middle. }
  apply (balanced_perm s _ _ _ _ _ (Hperm _ _ Hm)) in Hb. apply (linked_perm s _ _ _ (Hperm _ _ Hm)) in Hl.
  assert (unnamed s pg v ((pg, aData x) :: cs ++ rest)) as Hun'.
  { eapply unnamed_same, Hun; [|done]. intros q. by rewrite (Hperm _ _ Hm). }
  assert (balanced s 0 (putWrite w v) ts ((pg, aData x) :: cs ++ rest)) as Hb' by (eapply balanced_frame; [exact Hb|done..|apply Hb]).
  assert (linked s (putWrite w v) ((pg, aData x) :: cs ++ rest)) as Hl' by (by eapply linked_frame, Hl).
  assert (vpage (putPage pg y (putWrite w v)) pg = y) as Hpg by (cbn; by rewrite fn_lookup_insert).
  destruct (balanced_head _ _ _ _ _ _ _ Hb) as [Hnp _].
  split; rewrite ?Hpg; try done.
  - eapply balanced_perm; [symmetry; by apply Hperm|]. eapply balanced_page; [exact Hb'|]. by rewrite Hy.
  - eapply linked_perm; [symmetry; by apply Hperm|]. by eapply linked_page.
  - by rewrite Hy.
  - eapply carries_same; [exact Hca|intros d; by rewrite Hy|]. intros q Hq. cbn. rewrite fn_lookup_insert_ne; [done|].
    intros <-. apply Hnp. rewrite fmap_app. apply elem_of_app. by left.
Qed.

Lemma same_bytes v v' ts ts' x x' mine q :
  balanced s x v ts mine -> balanced s x' v' ts' mine -> q ∈ fst <$> mine -> bytes v' q = bytes v q.
Proof.
  intros Hb Hb' ([q' b] & -> & Hin)%list_elem_of_fmap. cbn [fst].
  by rewrite (ba_bytes _ _ _ _ _ Hb q' b Hin), (ba_bytes _ _ _ _ _ Hb' q' b Hin).
Qed.

(** And after the entry of the first overflow page. *)
Lemma cellOn_entry v ts mine cs pg cells i c pc l P v2 mine2 v3 first b b0 :
  cellOn v ts mine cs pg cells i c pc l P v2 mine2 -> balanced s 0 v3 ts (cs ++ mine2) ->
  entered s v2 first PTRMAP_OVERFLOW1 pg v3 -> vpage v3 pg = setInit b (vpage v2 pg) -> (first, b0) ∈ cs ++ mine2 ->
  (forall q, vrefs v3 q = vrefs v2 q) -> vsize v3 = vsize v2 ->
  cellOn v ts mine cs pg cells i c pc l P v3 mine2.
Proof.
  intros [O1 O2 O3 O4 O5 O6 O7 O8] B3 He Hpg Hin Hr Hs. split; rewrite ?Hpg; try done; [| | |by intros; rewrite Hr|congruence].
  - intros Hav q o Hq Ho. destruct (in_use s _ _ _ _ q O1 Hq) as (Hoq & _). rewrite (He Hav q Hoq) in Ho.
    case_decide; [discriminate Ho|]. destruct (O2 Hav q o Hq Ho) as [H1 H2]. split; [done|].
    by rewrite (same_bytes _ _ _ _ _ _ _ o O1 B3 H1).
  - by apply represents_init.
  - eapply carries_same; [exact O6|done|]. intros q Hq. eapply same_bytes; [exact O1|exact B3|].
    rewrite fmap_app. apply elem_of_app. by left.
Qed.

Definition unplaced (v : View) (rc : Z) (d : Db) : Prop :=
  fault s rc /\ exists v', sees s v' d /\ forall q, vrefs v' q = vrefs v q.

Lemma db_putOvflPtr v ts mine cs d pg cells i c rest pc l P v2 mine2 :
  let x := vpage v pg in
  sees s v2 d -> cellOn v ts mine cs pg cells i c pc l P v2 mine2 -> pgno (page d pg) = pg -> vrefs v2 pg <> 0%nat ->
  pg ∈ fst <$> mine2 -> autoVacuum (s_bt s) = true -> Forall is_byte rest ->
  wp (ptrmapPutOvflPtr_db pg (c ++ rest))
    (fun _ d' => exists v', sees s v' d' /\ pgno (page d' pg) = pg /\ cellOn v ts mine cs pg cells i c pc l P v' mine2)
    (unplaced v) d.
Proof.
  intros x S2 Ho Hp Hr Hin Hav Hrest. pose proof Ho as [O1 O2 O3 O4 O5 O6 O7 O8]. pose proof O6 as [(k & C1) C2 [C3 C4] C5 C6].
  unfold ptrmapPutOvflPtr_db. apply db_bind.
  eapply (db_peek s v2 d pg _ (xParseCell (vpage v2 pg) (c ++ rest))); [done|done|by apply held_page|done|]. intros d1 S3 Hp1.
  rewrite (C1 rest Hrest). cbn [nLocal nPayload nSize]. pose proof (page_held v2 d1 pg S3 Hp1) as Hpg1.
  destruct (Z.ltb_spec (Z.of_nat l) (Z.of_nat (length P))) as [Hlt|]; [|apply db_ret; by exists v2].
  rewrite decide_False in C6 by lia. destruct C6 as [C6 C7]. rewrite (pointer_at c rest (pc + l)) by lia.
  set (first := get4 c (Z.of_nat (pc + l))) in *.
  destruct cs as [|[p b] cs]; [destruct C7 as [_ C7]; apply (f_equal length) in C7; rewrite length_drop in C7; cbn in C7; lia|].
  destruct C7 as [Hf _]. change (first = p) in Hf.
  assert (0 <= pg < 2 ^ 32) as Hpr.
  { destruct (in_use s _ _ _ _ pg O1) as ([? _ _] & _); [rewrite fmap_app; apply elem_of_app; by right|]. lia. }
  eapply db_mono; [apply (wp_grows _ (fun _ d' => exists v', sees s v' d' /\ balanced s 0 v' ts ((p, b) :: cs ++ mine2) /\
    entered s v2 p PTRMAP_OVERFLOW1 pg v' /\ vsize v' = vsize v2 /\ (forall q, vrefs v' q = vrefs v2 q)) (unplaced v)); [apply grows_ptrmapPut|]| |].
  - rewrite Hf. eapply (db_entry s Hbt v2 ts (cs ++ mine2) d1 p b PTRMAP_OVERFLOW1 pg); [done|by apply balanced_any|done|vm_compute; split; congruence|done|done| |].
    + intros v' d' S4 B4 He Hs Hr4 _. by exists v'.
    + intros rc d' S4 Hfa. split; [done|]. by exists v2.
  - intros _ d' [(v' & S4 & B4 & He & Hs & Hr4) Hlat].
    destruct (later_view v2 d1 v' d' pg S3 S4 Hlat Hpg1) as [Hpg2 Hpage].
    { eapply same_bytes; [exact O1|exact B4|]. rewrite fmap_app. apply elem_of_app. by right. }
    exists v'. split_and!; [done|done|]. eapply cellOn_entry; [exact Ho|exact B4|exact He|exact Hpage|by left|done|done].
  - by intros rc d' [? _].
Qed.

Lemma db_insertCell v ts mine cs d pg cells i c rest pc l P :
  let x := vpage v pg in
  sees s v d -> balanced s 0 v ts (cs ++ mine) -> linked s v (cs ++ mine) -> (pg, aData x) ∈ mine -> unnamed s pg v (cs ++ mine) ->
  vrefs v pg <> 0%nat -> pgno (page d pg) = pg -> represents x cells -> pBt x = s_bt s -> cell_ok x c -> Forall is_byte rest ->
  (i <= length cells)%nat -> Z.of_nat (length c) + 2 <= nFree x -> carries s v cs x c pc l P ->
  wp (insertCellFast_db pg (Z.of_nat i) (c ++ rest) (Z.of_nat (length c)))
    (fun _ d' => exists v' mine', sees s v' d' /\ pgno (page d' pg) = pg /\ cellOn v ts mine cs pg cells i c pc l P v' mine')
    (unplaced v) d.
Proof.
  intros x S0 Hb Hl Hin Hun Hr Hp Hrep Hpb Hc Hrest Hi Hfree Hca. unfold insertCellFast_db. cbv zeta. apply db_bind.
  eapply (db_peek s v d pg _ (nFree x)); [done|done|by apply held_page|done|]. intros d1 S1 Hp1.
  destruct (Z.ltb_spec (nFree x) (Z.of_nat (length c) + 2)); [lia|]. pose proof (page_held v d1 pg S1 Hp1) as Hpg1.
  apply db_bind. set (w := {[pg]} ∪ vwrite v).
  eapply db_mono; [apply (wp_grows _ (fun _ d' => sees s (putWrite w v) d') (unplaced v)); [apply grows_write|]| |by intros rc d' [? _]].
  { apply (db_PagerWrite s v); [done|done|]. intros d' rc S2 Hf. split; [done|]. by exists v. }
  intros _ d2 [S2 Hlat]. destruct (later_view v d1 (putWrite w v) d2 pg S1 S2 Hlat Hpg1 eq_refl) as [Hpg2 _].
  destruct (insertBuffer_run SQLITE_OK (fun _ _ _ => SQLITE_OK) x cells i c rest) as (y & Hrun & Hry & Hsame); try done.
  destruct (cellOn_page v ts mine cs pg cells i c pc l P y w Hb Hl Hin Hun Hpb Hca Hry Hsame) as [mine' Ho].
  pose proof Hsame as [Hy _]. apply db_bind.
  eapply (db_onPage (putWrite w v) d2 pg _ () y); [done|done|done|exact Hrun| | |unfold w; cbn; inw|].
  { transitivity (pgno x); [by rewrite Hy|]. unfold x. by rewrite <- (held_page v d pg S0 Hp). }
  { destruct Hry as (Hg & _). destruct (ge_buf y Hg) as [H1 H2]. assert (pBt y = s_bt s) as Hby by (rewrite Hy; done). rewrite Hby in H1. by split. }
  intros d3 S3 Hpg3. apply db_bind, db_look. rewrite (se_bt _ _ _ S3). destruct (autoVacuum (s_bt s)) eqn:Hav.
  - eapply db_mono; [eapply (db_putOvflPtr v ts mine cs d3 pg cells i c rest pc l P _ mine' S3 Ho)| |done]; try done.
    + rewrite (co_mine _ _ _ _ _ _ _ _ _ _ _ _ _ Ho). apply list_elem_of_fmap. by exists (pg, aData x).
    + intros _ d4 (v' & S4 & Hpg4 & Ho4). by exists v', mine'.
  - apply db_ret. by exists (putPage pg y (putWrite w v)), mine'.
Qed.

(** ** The row *)

(** The cell of the buffer that [fillInCell] wrote. *)
Lemma inserted_carries v mine x pX P newCell v' ts' new cell n x' :
  insertable x pX P -> BtFill.inserted s v mine x pX P newCell v' ts' new cell n ->
  (forall d, xParseCell x' d = xParseCell x d) -> pBt x' = pBt x -> kind_ok x' ->
  let c := take (Z.to_nat n) cell in
  carries s v' new x' c (payloadAt x pX P) (localOf x P) P /\ cell_ok x' c /\ Z.of_nat (length c) = n /\
  cell = c ++ drop (Z.to_nat n) cell /\ Forall is_byte (drop (Z.to_nat n) cell).
Proof.
  intros HI [R1 R2 R3 R4 R5 [W1 W2 W3 W4 W5] R7 R8 R9 R10 _ _] Hx Hpb Hk c. pose proof HI as [I1 I2 I3 I4 I5 I6 I7 I8].
  assert (length c = Z.to_nat n) as Hlc by (unfold c; rewrite length_take; lia).
  destruct (toLocal_bounds x (Z.of_nat (length P)) I1 I2 ltac:(lia)) as [Hl1 Hl2].
  assert ((localOf x P = length P /\ n = Z.max 4 (Z.of_nat (length P + payloadAt x pX P))) \/
    ((localOf x P < length P)%nat /\ n = Z.of_nat (payloadAt x pX P + localOf x P + 4))) as Hn.
  { rewrite W2. unfold sizeWith, btreePayloadToLocal in *.
    destruct (Z.leb_spec (Z.of_nat (length P)) (maxLocal x)); [left; lia|right; lia]. }
  assert (payloadAt x pX P + localOf x P <= Z.to_nat n)%nat as Hpl by lia.
  assert (Forall is_byte (drop (Z.to_nat n) cell)) as Hdb by (by apply Forall_drop).
  split_and!; [|split_and!; [|by apply Forall_take|]|lia|symmetry; apply take_drop|done].
  - split; [|done|split; lia| |].
    + exists (keyOf x pX (Z.of_nat (length P))). intros rest Hr. rewrite Hx. unfold c at 1. rewrite (W3 rest Hr). f_equal. lia.
    + unfold c. rewrite <- W4, take_drop_commute, take_take, Nat.min_l by lia. by rewrite take_drop_commute.
    + case_decide as Hd; [done|]. split; [lia|].
      replace (get4 c (Z.of_nat (payloadAt x pX P + localOf x P))) with (get4 cell (Z.of_nat (payloadAt x pX P + localOf x P))); [done|].
      apply (get4_at cell c (drop (Z.to_nat n) cell) 0); [unfold c; by rewrite drop_0, take_drop|]. lia.
  - lia.
  - intros rest Hr. rewrite size_parsed; [|by rewrite Hpb|done|apply Forall_app; split; [by apply Forall_take|done]].
    rewrite Hx, W3 by done. cbn [nSize]. lia.
Qed.

(** The state in which the row is the cell [i] of the page [pg], with the new
    overflow pages [new]. *)
Record rowOn (v : View) (mine : list (Z * list Z)) (pg : Z) (cells : list (list Z)) (i : nat) (pX : BtreePayload) (P : list Z)
    (v' : View) (ts' new mine' : list (Z * list Z)) (c : list Z) : Prop := {
  ro_balanced : balanced s 0 v' ts' (new ++ mine');
  ro_linked : linked s v' (new ++ mine');
  ro_mine : fst <$> mine' = fst <$> mine;
  ro_cells : represents (vpage v' pg) (insertAt i c cells);
  ro_bt : pBt (vpage v' pg) = s_bt s;
  ro_carries : carries s v' new (vpage v' pg) c (payloadAt (vpage v pg) pX P) (localOf (vpage v pg) P) P;
  ro_key rest : Forall is_byte rest -> nKey (xParseCell (vpage v pg) (c ++ rest)) = keyOf (vpage v pg) pX (Z.of_nat (length P));
  ro_refs q : vrefs v' q = vrefs v q;
  ro_size : vsize v <= vsize v' <= vsize v + 4 * Z.of_nat (length P)
}.

(** What [insertRow] needs: a page with room, a payload, a buffer. *)
Record insertion (v : View) (ts mine : list (Z * list Z)) (d : Db) (pg : Z) (cells : list (list Z)) (i : nat) (newCell : list Z)
    (pX : BtreePayload) (P : list Z) : Prop := {
  in_sees : sees s v d;
  in_balanced : balanced s 0 v ts mine;
  in_linked : linked s v mine;
  in_idle : idle v ts;
  in_mine : (pg, bytes v pg) ∈ mine;
  in_unnamed : unnamed s pg v mine;
  in_refs : vrefs v pg <> 0%nat;
  in_held : pgno (page d pg) = pg;
  in_cells : represents (vpage v pg) cells;
  in_bt : pBt (vpage v pg) = s_bt s;
  in_index : (i <= length cells)%nat;
  in_payload : insertable (vpage v pg) pX P;
  in_buffer : Forall is_byte newCell /\ usableSize (s_bt s) - 9 <= Z.of_nat (length newCell);
  in_room : sizeWith (vpage v pg) (Z.of_nat (length P)) (Z.of_nat (payloadAt (vpage v pg) pX P)) + 2 <= nFree (vpage v pg);
  in_size : 1 <= vsize v /\ vsize v + 4 * Z.of_nat (length P) < 2 ^ 32 - 8
}.

(** Where the new entry goes. *)
Definition placed (cur : BtCursor) (loc n : Z) : BtCursor :=
  if (loc <? 0) && (0 <? n) then nextIndex (forgetInfo cur) else forgetInfo cur.

Lemma placed_page cur loc n : cu_pPage (placed cur loc n) = cu_pPage cur.
Proof. unfold placed. by destruct (_ && _). Qed.

Lemma placed_ix cur loc n : cu_ix (placed cur loc n) = cu_ix cur + (if (loc <? 0) && (0 <? n) then 1 else 0).
Proof. unfold placed. destruct (_ && _); [done|]. cbn. lia. Qed.

Lemma placed_info cur loc n : nSize (cu_info (placed cur loc n)) = 0.
Proof. unfold placed. by destruct (_ && _). Qed.

Lemma placed_flags cur loc n :
  Z.land (cu_curFlags cur) BTCF_ValidOvfl = 0 -> Z.land (cu_curFlags (placed cur loc n)) BTCF_ValidOvfl = 0.
Proof.
  intros Hf. unfold placed. destruct (_ && _); [|done]. cbn [nextIndex forgetInfo cu_curFlags].
  rewrite <- Z.land_assoc. change (Z.land (Z.lnot (Z.lor BTCF_ValidNKey BTCF_ValidOvfl)) BTCF_ValidOvfl) with 0. apply Z.land_0_r.
Qed.

Lemma db_insertRow v ts mine d cur loc cells i newCell pX P :
  let pg := cu_pPage cur in let cur' := placed cur loc (nCell (vpage v pg)) in
  insertion v ts mine d pg cells i newCell pX P -> loc <> 0 -> cu_ix cur' = Z.of_nat i ->
  wp (insertRow cur newCell pX loc)
    (fun r d' => r = cur' /\
      exists v' ts' new mine' c, sees s v' d' /\ pgno (page d' pg) = pg /\ rowOn v mine pg cells i pX P v' ts' new mine' c)
    (unplaced v) d.
Proof.
  intros pg cur' [S0 Hb Hl Hi Hin Hun Hr Hp Hrep Hpb Hix HI [Hnb Hnl] Hroom [H1 Hsz]] Hloc Hidx.
  set (x := vpage v pg) in *. unfold insertRow. fold pg. apply db_bind.
  eapply (db_peek s v d pg _ x); [done|done|by apply held_page|done|]. intros d1 S1 Hp1.
  pose proof (page_held v d1 pg S1 Hp1) as Hpg1. apply db_bind.
  eapply db_mono; [apply (wp_grows _ (fun r d' => exists v' ts' new, sees s v' d' /\
    BtFill.inserted s v mine x pX P newCell v' ts' new r.1 r.2) (unplaced v)); [apply grows_fillInCell|]| |by intros rc d' [? _]].
  { eapply (db_fillInCell s Hbt v ts mine d1 x pX P newCell); try done; [by rewrite Hpb| |].
    - intros v' ts' new cell n d' S2 HR. by exists v', ts', new.
    - intros rc v' d' Hf S2 Hr2. split; [done|]. by exists v'. }
  intros [cell n] d2 [(v2 & ts2 & new & S2 & HR) Hlat]. cbn [fst snd] in *.
  pose proof HR as [R1 R2 R3 R4 R5 R6 R7 R8 R9 R10 _ _].
  assert (bytes v2 pg = bytes v pg) as Hbytes.
  { rewrite (ba_bytes _ _ _ _ _ R1 pg (bytes v pg)); [done|]. apply elem_of_app. by right. }
  destruct (later_view v d1 v2 d2 pg S1 S2 Hlat Hpg1 Hbytes) as [Hpg2 Hpage]. set (b := isInit (vpage v2 pg)) in *. fold x in Hpage.
  destruct (inserted_carries v mine x pX P newCell v2 ts2 new cell n (vpage v2 pg) HI HR) as (Hca & Hok & Hlc & Hcell & Hrest).
  { intros e. by rewrite Hpage. } { by rewrite Hpage. } { rewrite Hpage. by apply (is_kind _ _ _ HI). }
  set (c := take (Z.to_nat n) cell) in *. apply db_bind.
  eapply (db_peek s v2 d2 pg _ (nCell x)); [done|by rewrite R4|by apply held_page|by rewrite Hpage|]. intros d3 S3 Hp3.
  pose proof (page_held v2 d3 pg S3 Hp3) as Hpg3. destruct (Z.eqb_spec loc 0); [done|]. cbv zeta.
  fold (placed cur loc (nCell x)). fold cur'. rewrite Hidx, Hcell, <- Hlc. apply db_bind.
  eapply db_mono; [eapply (db_insertCell v2 ts2 mine new d3 pg cells i c _ _ _ P S3 R1 R2)| |]; try done.
  - by rewrite Hbytes.
  - apply R10; [|done]. apply list_elem_of_fmap. by exists (pg, bytes v pg).
  - by rewrite R4.
  - rewrite Hpage. by apply represents_init.
  - by rewrite Hpage.
  - by rewrite Hlc.
  - rewrite Hpage. change (nFree (setInit b x)) with (nFree x). rewrite Hlc, (cw_is _ _ _ _ _ R6). done.
  - intros _ d4 (v' & mine' & S4 & Hpg4 & [O1 O2 O3 O4 O5 O6 O7 O8]). apply db_ret. split; [done|].
    exists v', ts2, new, mine', c. split_and!; [done|done|].
    split; try done; [|by intros q; rewrite O7|lia]. intros rest Hrs. fold x. unfold c. by rewrite (cw_parse _ _ _ _ _ R6 rest Hrs).
  - intros rc d4 (Hf & v' & S4 & Hr4). split; [done|]. exists v'. split; [done|]. intros q. by rewrite Hr4.
Qed.
End insert.
