(* ===== verification/BtRows.v ===== *)
(** * Rows and their payloads

    What [fillInCell], [insertCellFast], [accessPayload] and
    BTREE_CLEAR_CELL promise together: the payload of a row that was inserted
    is read back, any part of it can be overwritten, and its overflow pages
    are free when the row is removed. *)

From stdpp Require Import base numbers option gmap sets functions list.
From S2P Require Import Prelude Util Varint Bitvec Btree BtVarint BtCell BtMem BtPage BtTile BtSpace BtFree BtAlloc BtDefrag BtUpdate BtList BtInit BtPager BtView BtPtrmap BtFreelist BtTrunk BtTake BtAllocate BtRelease BtBalance BtPages BtPayload BtChain BtStore BtFill BtClear BtAccess BtServe BtInsert.
#[local] Open Scope Z_scope.

(** C16: [fillInCell] writes a cell that the functions that parse cells read
    back, with the key, the length of the payload and the size that
    [fillInCell] returns; the part of the payload that stays on the page is
    behind the header and the rest is on a chain of new overflow pages, which
    are taken from the free pages or from the end of the file.  In an
    auto-vacuum database the first of them has an entry of type OVERFLOW1
    without a parent in the pointer map, every other one an entry of type
    OVERFLOW2 with the page before it, and the entries of the other pages in
    use are kept.  All other pages in use keep their bytes.  Only an error of
    the pager makes it fail. *)
Theorem fillInCell_stores s v ts mine d p pX P pCell :
  bt_ok (s_bt s) -> insertable p pX P -> pBt p = s_bt s ->
  Forall is_byte pCell -> usableSize (s_bt s) - 9 <= Z.of_nat (length pCell) ->
  sees s v d -> balanced s 0 v ts mine -> linked s v mine -> idle v ts ->
  1 <= vsize v -> vsize v + 4 * Z.of_nat (length P) < 2 ^ 32 - 8 ->
  wp (fillInCell p pCell pX)
    (fun r d' => exists v' ts' new, sees s v' d' /\ BtFill.inserted s v mine p pX P pCell v' ts' new r.1 r.2)
    (fun rc d' => fault s rc /\ exists v', sees s v' d' /\ forall q, vrefs v' q = vrefs v q) d.
Proof.
  intros Hbt HI Hpb Hb Hl S0 B0 L0 Hi H1 Hsz.
  apply (db_fillInCell s Hbt v ts mine d p pX P); try done; [by rewrite Hpb| |].
  - intros v' ts' new cell n d' S1 HR. by exists v', ts', new.
  - intros rc v' d' Hf S1 Hr. split; [done|]. by exists v'.
Qed.

(** C15: [accessPayload] at a cursor on a cell of a page reads exactly the bytes
    of the payload that are asked for, or replaces exactly these bytes and
    leaves the rest of the payload, of its page and all other pages as they
    are, whether the bytes are on the page, on overflow pages or on both, and
    whether the cursor has the cell's information and the cache of page
    numbers or not; the cache is right afterwards.  Only an error of the pager
    or of the allocator of memory makes it fail. *)
Theorem accessPayload_serves s v ts mine cs d cur cells i c pc l P pBuf off amt eOp :
  bt_ok (s_bt s) -> sees s v d -> balanced s 0 v ts (cs ++ mine) -> linked s v (cs ++ mine) -> vsize v < 2 ^ 32 - 8 ->
  let x := vpage v (cu_pPage cur) in
  vrefs v (cu_pPage cur) <> 0%nat -> page d (cu_pPage cur) = x -> represents x cells -> pBt x = s_bt s ->
  cells !! i = Some c -> cu_ix cur = Z.of_nat i -> carries s v cs x c pc l P -> onCell x cur -> follows (fst <$> cs) cur ->
  (eOp = true -> (cu_pPage cur, aData x) ∈ mine) ->
  (off + amt <= length P)%nat -> (amt <= length pBuf)%nat -> Forall is_byte pBuf ->
  exists info a, cellInfo (Z.of_nat i) x = Some (Ok info, x) /\ payloadOn s v cs (cu_pPage cur) info (a + pc) l P /\
    drop a (aData x) = c ++ drop (a + length c) (aData x) /\
  wp (accessPayload cur (Z.of_nat off) (Z.of_nat amt) pBuf eOp)
    (paid s eOp v ts mine cs info (a + pc) l P pBuf off amt cur) (fun _ _ => False) d.
Proof. intros Hbt S0 Hb Hl Hsz x Hr. by apply db_accessPayload. Qed.

(** C17: BTREE_CLEAR_CELL frees the overflow pages of the cell, all of them and
    no others, and finds the size of the cell; the other pages in use keep
    their bytes. *)
Theorem BTREE_CLEAR_CELL_frees s v ts mine cs d pg cells i c pc l P :
  bt_ok (s_bt s) -> sees s v d -> balanced s 0 v ts (cs ++ mine) -> linked s v (cs ++ mine) -> vsize v < 2 ^ 32 - 8 ->
  let x := vpage v pg in
  vrefs v pg <> 0%nat -> (forall p, p ∈ fst <$> cs -> vrefs v p = 0%nat) -> page d pg = x -> pageSize (s_bt s) <= aDataEnd x ->
  represents x cells -> pBt x = s_bt s -> cells !! i = Some c -> carries s v cs x c pc l P ->
  exists a, findCell (Z.of_nat i) x = Some (Ok a, x) /\
  wp (BTREE_CLEAR_CELL pg a)
    (fun info d' => nPayload info = Z.of_nat (length P) /\ nSize info = Z.of_nat (length c) /\
       exists v' ts', sees s v' d' /\ cleared s v ts mine (fst <$> cs) v' ts') (notCleared s v) d.
Proof. intros Hbt S0 Hb Hl Hsz x Hr. by apply db_clearCell. Qed.

(** C6: a row is inserted next to a cursor, as [sqlite3BtreeInsert] does it, and
    any part of its payload is read back by [accessPayload] at the cursor as
    the insertion leaves it: unless the pager or the allocator of memory fails,
    the bytes are those of the row, whatever the length of the payload and
    wherever its parts are. *)
Theorem insertRow_accessPayload s v ts mine d cur loc cells i newCell pX P off amt pBuf :
  bt_ok (s_bt s) -> insertion s v ts mine d (cu_pPage cur) cells i newCell pX P -> loc <> 0 ->
  Z.of_nat i = cu_ix cur + (if (loc <? 0) && (0 <? nCell (vpage v (cu_pPage cur))) then 1 else 0) ->
  Z.land (cu_curFlags cur) BTCF_ValidOvfl = 0 ->
  (off + amt <= length P)%nat -> (amt <= length pBuf)%nat -> Forall is_byte pBuf ->
  match (pCur ← insertRow cur newCell pX loc; accessPayload pCur (Z.of_nat off) (Z.of_nat amt) pBuf false) d with
  | Some (Ok (rc, pBuf', _), _) => (rc = SQLITE_OK /\ pBuf' = take amt (drop off P) ++ drop amt pBuf) \/ faulty s rc
  | Some (Err rc, _) => fault s rc
  | None => False
  end.
Proof.
  intros Hbt HI Hloc Hix Hfl Ho HB Hby. set (pg := cu_pPage cur) in *. set (n := nCell (vpage v pg)) in *.
  assert (wp (pCur ← insertRow cur newCell pX loc; accessPayload pCur (Z.of_nat off) (Z.of_nat amt) pBuf false)
    (fun r _ => (r.1.1 = SQLITE_OK /\ r.1.2 = take amt (drop off P) ++ drop amt pBuf) \/ faulty s r.1.1) (fun rc _ => fault s rc) d) as Hw.
  2: { unfold wp in Hw. by destruct ((_ ← insertRow _ _ _ _; _) d) as [[[[[rc pb] c']|rc] d']|]. }
  assert (cu_ix (placed cur loc n) = Z.of_nat i) as Hidx by (by rewrite placed_ix).
  apply db_bind. eapply db_mono; [by apply (db_insertRow s Hbt v ts mine d cur loc cells i newCell pX P)| |by intros rc d' [? _]].
  intros cur' d1 (-> & v' & ts' & new & mine' & c & S1 & Hp1 & [R1 R2 R3 R4 R5 R6 R7 R8 R9]). fold pg in Hp1, R3, R4, R5, R6, R7 |- *. fold n.
  pose proof HI as [S0 _ _ _ Hin _ Hr _ _ _ Hix' _ _ _ [_ Hsz]].
  destruct (db_accessPayload s Hbt v' ts' mine' new d1 (placed cur loc n) (insertAt i c cells) i c (payloadAt (vpage v pg) pX P) (localOf (vpage v pg) P) P pBuf
    off amt false S1 R1 R2) as (info & a & _ & _ & _ & Hw);
    rewrite ?placed_page; fold pg; try done.
  - lia.
  - by rewrite R8.
  - by apply (held_page s).
  - rewrite insertAt_lookup by done. repeat case_decide; (done || lia).
  - left. apply placed_info.
  - intros Hf. by rewrite placed_flags in Hf.
  - eapply db_mono; [exact Hw| |done]. intros [[rc pBuf'] cur'] d2 (_ & _ & _ & _ & [(-> & -> & _)|[Hf _]]); [left|by right].
    split; [done|]. cbn [fst snd]. unfold splice. rewrite take_0. cbn [app Nat.add].
    rewrite length_take, length_drop, Nat.min_l by lia. done.
Qed.

(** ** An example *)

(** The database of the example in BtPages.v, with an empty leaf of a table as
    page 5, which is referenced.  A row of 1000 bytes, the last ten of them
    zero, has overflow pages. *)
Module Example.
Import BtPages.Example.

Definition rawLeaf : MemPage :=
  mkMemPage false false false 5 false 0 0 0 0 0 0 0 0 0 0 [] [] bt (replicate 512 0) 512 0 0 SizePtr ParsePtr.
Definition leaf5 : MemPage := match zeroPage 13 rawLeaf with Some (_, p) => p | None => rawLeaf end.

Definition db0 : Db := setPage 5 leaf5 db.
Definition db1 : Db := addRef 5 db0.
Definition mine1 : list (Z * list Z) := [(5, aData leaf5)].
Definition s1 : Start := startOf db0 ts.
Definition v1 : View := putRefs 5 1 (viewOf db0).

Definition row : BtreePayload := mkBtreePayload [] 77 (replicate 495 7 ++ replicate 495 9) 990 10.
Definition payload : list Z := replicate 495 7 ++ replicate 495 9 ++ replicate 10 0.
Definition buffer : list Z := replicate 512 0.
Definition cursor : BtCursor := mkBtCursor 0 None (mkCellInfo 0 None 0 0 0) 0 5.

Lemma leaf5_cells : represents leaf5 [].
Proof.
  assert (raw rawLeaf) as Hraw.
  { split; [exact bt_fine|by left|]. split; [done|]. apply Forall_replicate. unfold is_byte. lia. }
  pose proof (zeroPage_ok rawLeaf 13 Hraw ltac:(unfold pageFlag; tauto)) as H. apply ok_run in H as (a & q & E & Hr & _).
  assert (leaf5 = q) as -> by (unfold leaf5; by rewrite E). exact Hr.
Qed.

Lemma page_cases0 (P : Z -> MemPage -> Prop) p :
  P p (blankPage bt) -> map_Forall P (pages db0) -> P p (page db0 p).
Proof. intros Hb Hp. unfold page. destruct (pages db0 !! p) as [m|] eqn:E; [|done]. by apply (Hp p). Qed.

#[local] Instance page_dec b d : Decision (isPage b d).
Proof. apply and_dec; [apply _|]. apply Forall_dec. intros x. unfold is_byte. apply _. Defined.

Lemma pages_fine0 p : isPage bt (aData (page db0 p)).
Proof. apply (page_cases0 (fun _ m => isPage bt (aData m))); evaluate. Qed.

Lemma db0_owned : owned db0 ts mine1.
Proof.
  split.
  - cbn [segment ts]. split_and!; [by vm_compute| |by vm_compute]. split; [by vm_compute|by vm_compute|].
    intros [|i] x Hi; [injection Hi as <-; by vm_compute|done].
  - by vm_compute.
  - apply pages_partition.
  - intros p bs [[= -> ->]|[]%not_elem_of_nil]%elem_of_cons. by vm_compute.
  - intros p Hp. unfold refcount. cbn. by rewrite lookup_singleton_ne.
  - by vm_compute.
  - intros p _. change (freePages ts ++ (fst <$> mine1)) with [3; 4; 5]. change (freePages ts) with [3; 4].
    rewrite !elem_of_cons. intros [->|[->|[->|[]%not_elem_of_nil]]].
    all: match goal with |- context [ptrmapEntry ?a ?b ?c] =>
           let e := eval vm_compute in (ptrmapEntry a b c) in replace (ptrmapEntry a b c) with e by (by vm_compute) end.
    all: cbn [fst]; split; [lia|]. 1,2: split; [auto|done].
    split; [done|]. intros [?|[?|[]%not_elem_of_nil]]; lia.
  - intros p _. apply (page_cases0 (fun p m => PTRMAP_ISPAGE bt p = true -> isInit m = false)); [done|]. evaluate.
Qed.

Lemma db0_fresh : fresh db0 ts mine1.
Proof.
  split; try done; [apply bt_fine|apply pages_fine0|intros d []%not_elem_of_nil|apply db0_owned].
Qed.

Lemma sees1 : sees s1 v1 db1.
Proof. exact (sees_addRef s1 (viewOf db0) db0 5 (fresh_sees _ _ _ db0_fresh)). Qed.

Lemma balanced1 : balanced s1 0 v1 ts mine1.
Proof. apply balanced_refs; [exact (fresh_balanced _ _ _ db0_fresh)|done]. Qed.

Lemma entry5 : ptrmapEntry bt v1 5 = (5, 1).
Proof. by vm_compute. Qed.

Lemma linked1 : linked s1 v1 mine1.
Proof.
  intros _ q o [->|[]%not_elem_of_nil]%elem_of_cons. change (ptrmapEntry (s_bt s1) v1 _) with (ptrmapEntry bt v1 5).
  rewrite entry5. discriminate.
Qed.

Lemma unnamed1 : unnamed s1 5 v1 mine1.
Proof.
  intros _ q [->|[]%not_elem_of_nil]%elem_of_cons. change (ptrmapEntry (s_bt s1) v1 _) with (ptrmapEntry bt v1 5).
  rewrite entry5. discriminate.
Qed.

Lemma refs1 p : p <> 1 -> p <> 5 -> vrefs v1 p = 0%nat.
Proof.
  intros H1 H5. cbn. rewrite fn_lookup_insert_ne by congruence. unfold refcount. cbn. by rewrite lookup_singleton_ne.
Qed.

Lemma idle1 : idle v1 ts.
Proof.
  intros p Hp. change (freePages ts) with [3; 4] in Hp. change (vsize v1) with 5 in Hp.
  rewrite !elem_of_cons in Hp. apply refs1; intros ->; destruct Hp as [[?|[?|[]%not_elem_of_nil]]|?]; lia.
Qed.

Lemma page5 : vpage v1 5 = leaf5.
Proof. by vm_compute. Qed.

Lemma payload_bytes : Forall is_byte payload.
Proof. unfold payload. repeat apply Forall_app_2; apply Forall_replicate; unfold is_byte; lia. Qed.

Lemma buffer_bytes : Forall is_byte buffer.
Proof. apply Forall_replicate. unfold is_byte. lia. Qed.

Lemma row_insertable : insertable leaf5 row payload.
Proof.
  split; [exact bt_fine|apply geometry_kind, leaf5_cells|by vm_compute|cbn; lia|by vm_compute|by vm_compute|by vm_compute|exact payload_bytes].
Qed.

Lemma row_insertion : insertion s1 v1 ts mine1 db1 5 [] 0 buffer row payload.
Proof.
  split.
  - exact sees1.
  - exact balanced1.
  - exact linked1.
  - exact idle1.
  - rewrite page5. by left.
  - exact unnamed1.
  - vm_compute. discriminate.
  - vm_compute. reflexivity.
  - rewrite page5. exact leaf5_cells.
  - rewrite page5. vm_compute. reflexivity.
  - exact (Nat.le_0_l _).
  - rewrite page5. exact row_insertable.
  - split; [exact buffer_bytes|vm_compute; discriminate].
  - rewrite page5. vm_compute. discriminate.
  - split; vm_compute; [discriminate|reflexivity].
Qed.

Lemma fillInCell_stores_witness :
  wp (fillInCell leaf5 buffer row)
    (fun r d' => exists v' ts' new, sees s1 v' d' /\ BtFill.inserted s1 v1 mine1 leaf5 row payload buffer v' ts' new r.1 r.2)
    (fun rc d' => fault s1 rc /\ exists v', sees s1 v' d' /\ forall q, vrefs v' q = vrefs v1 q) db1.
Proof.
  apply (fillInCell_stores s1 v1 ts mine1 db1 leaf5 row payload buffer bt_fine row_insertable);
    [done|exact buffer_bytes|by vm_compute|exact sees1|exact balanced1|exact linked1|exact idle1|by vm_compute|by vm_compute].
Defined.

Definition outcome1 (r : option (result (Z * list Z * BtCursor) * Db)) : option (Z * list Z) :=
  match r with Some (Ok (rc, b, _), _) => Some (rc, b) | _ => None end.

(** The bytes 490 to 499, of which the first five are on one overflow page. *)
Lemma read_back :
  outcome1 ((pCur ← insertRow cursor buffer row (-1); accessPayload pCur 490 10 (replicate 10 0) false) db1) =
    Some (SQLITE_OK, replicate 5 7 ++ replicate 5 9).
Proof. vm_compute. reflexivity. Qed.

Lemma insertRow_accessPayload_witness :
  match (pCur ← insertRow cursor buffer row (-1); accessPayload pCur 490 10 (replicate 10 0) false) db1 with
  | Some (Ok (rc, b, _), _) => (rc = SQLITE_OK /\ b = replicate 5 7 ++ replicate 5 9) \/ faulty s1 rc
  | Some (Err rc, _) => fault s1 rc
  | None => False
  end.
Proof.
  apply (insertRow_accessPayload s1 v1 ts mine1 db1 cursor (-1) [] 0 buffer row payload 490 10 (replicate 10 0) bt_fine row_insertion);
    try reflexivity; [discriminate|apply Nat.leb_le; vm_compute; reflexivity|].
  apply Forall_replicate. split; [apply Z.le_refl|reflexivity].
Defined.

(** The row on its page. *)
Lemma row_end :
  match insertRow cursor buffer row (-1) db1 with Some (Ok _, d) => aDataEnd (page d 5) | _ => 0 end = 512.
Proof. vm_compute. reflexivity. Qed.

Lemma row_there :
  exists v' ts' new mine' c d', insertRow cursor buffer row (-1) db1 = Some (Ok cursor, d') /\ sees s1 v' d' /\ page d' 5 = vpage v' 5 /\
    aDataEnd (vpage v' 5) = 512 /\ rowOn s1 v1 mine1 5 [] 0 row payload v' ts' new mine' c.
Proof.
  pose proof (db_insertRow s1 bt_fine v1 ts mine1 db1 cursor (-1) [] 0 buffer row payload row_insertion) as Hw.
  assert (placed cursor (-1) (nCell (vpage v1 (cu_pPage cursor))) = cursor) as Hc by (vm_compute; reflexivity).
  cbv zeta in Hw. rewrite Hc in Hw. specialize (Hw ltac:(discriminate) eq_refl). unfold wp in Hw. pose proof row_end as He.
  destruct (insertRow cursor buffer row (-1) db1) as [[[r|rc] d']|]; [|done|done].
  destruct Hw as (-> & v' & ts' & new & mine' & c & S1 & Hp & HR). exists v', ts', new, mine', c, d'.
  pose proof (held_page s1 v' d' 5 S1 Hp) as Hpg. rewrite Hpg in He. done.
Qed.

Lemma accessPayload_serves_witness :
  exists v' ts' mine' new d' info a, insertRow cursor buffer row (-1) db1 = Some (Ok cursor, d') /\
    wp (accessPayload cursor 490 10 (replicate 10 3) true)
      (paid s1 true v' ts' mine' new info a (localOf leaf5 payload) payload (replicate 10 3) 490 10 cursor) (fun _ _ => False) d'.
Proof.
  destruct row_there as (v' & ts' & new & mine' & c & d' & E & S1 & Hp & _ & [R1 R2 R3 R4 R5 R6 R7 R8 R9]).
  destruct (accessPayload_serves s1 v' ts' mine' new d' cursor [c] 0 c (payloadAt (vpage v1 5) row payload) (localOf (vpage v1 5) payload) payload (replicate 10 3) 490 10 true
    bt_fine S1 R1 R2) as (info & a & _ & _ & _ & Hw).
  - destruct R9 as [_ R9]. eapply Z.le_lt_trans; [exact R9|]. vm_compute. reflexivity.
  - rewrite R8. vm_compute. discriminate.
  - exact Hp.
  - exact R4.
  - exact R5.
  - reflexivity.
  - reflexivity.
  - exact R6.
  - left. reflexivity.
  - intros Hf. by destruct Hf.
  - intros _. destruct mine' as [|[p b] [|]]; [discriminate R3| |discriminate R3]. injection R3 as ->.
    change (cu_pPage cursor) with 5. rewrite (ba_bytes _ _ _ _ _ R1 5 b); [by left|]. apply elem_of_app. right. by left.
  - apply Nat.leb_le. vm_compute. reflexivity.
  - reflexivity.
  - apply Forall_replicate. split; [discriminate|reflexivity].
  - exists v', ts', mine', new, d', info, (a + payloadAt (vpage v1 5) row payload)%nat. split; [exact E|]. rewrite <- page5. exact Hw.
Defined.

Lemma BTREE_CLEAR_CELL_frees_witness :
  exists v' ts' mine' (new : list (Z * list Z)) d' a, insertRow cursor buffer row (-1) db1 = Some (Ok cursor, d') /\
    wp (BTREE_CLEAR_CELL 5 a)
      (fun info d2 => nPayload info = 1000 /\ exists v2 ts2, sees s1 v2 d2 /\ cleared s1 v' ts' mine' (fst <$> new) v2 ts2)
      (notCleared s1 v') d'.
Proof.
  destruct row_there as (v' & ts' & new & mine' & c & d' & E & S1 & Hp & Hend & [R1 R2 R3 R4 R5 R6 R7 R8 R9]).
  destruct (BTREE_CLEAR_CELL_frees s1 v' ts' mine' new d' 5 [c] 0 c (payloadAt (vpage v1 5) row payload) (localOf (vpage v1 5) payload) payload bt_fine S1 R1 R2) as (a & _ & Hw).
  - destruct R9 as [_ R9]. eapply Z.le_lt_trans; [exact R9|]. vm_compute. reflexivity.
  - rewrite R8. vm_compute. discriminate.
  - intros p Hin. rewrite R8. destruct (in_use s1 _ _ _ _ p R1) as (_ & _ & _ & H2 & _).
    { rewrite fmap_app. apply elem_of_app. by left. }
    apply refs1; [lia|]. intros ->. destruct (ba_pages _ _ _ _ _ R1) as [Hnd _].
    rewrite fmap_app, R3, (assoc_L (++)) in Hnd. apply NoDup_app in Hnd as (_ & Hnd & _).
    apply (Hnd 5); [apply elem_of_app; by right|by left].
  - exact Hp.
  - rewrite Hend. vm_compute. discriminate.
  - exact R4.
  - exact R5.
  - reflexivity.
  - exact R6.
  - exists v', ts', mine', new, d', a. split; [exact E|]. eapply db_mono; [exact Hw| |done].
    intros info d2 (H1 & _ & H2). split; [exact H1|exact H2].
Defined.
End Example.
