(* ===== verification/Wal.v ===== *)
(** * src/libsql-sqlite3/src/wal.c and wal.h: data

    The wal-index header, the pages of the wal-index and the connection
    object, with the sizes that fix the format. *)

From stdpp Require Import base list numbers option gmap.
From S2P Require Import Prelude.
#[local] Open Scope Z_scope.

Definition WALINDEX_MAX_VERSION : Z := 3007000.
Definition WAL_MAX_VERSION : Z := 3007000.
Definition WAL_NREADER : Z := 5.
Definition READMARK_NOT_USED : Z := 0xffffffff.

Definition WALINDEX_HDR_SIZE : Z := 136.
Definition WAL_FRAME_HDRSIZE : Z := 24.
Definition WAL_HDRSIZE : Z := 32.
Definition WAL_MAGIC : Z := 0x377f0682.

Definition HASHTABLE_NPAGE : Z := 4096.
Definition HASHTABLE_HASH_1 : Z := 383.
Definition HASHTABLE_NSLOT : Z := HASHTABLE_NPAGE * 2.
Definition HASHTABLE_NPAGE_ONE : Z := HASHTABLE_NPAGE - WALINDEX_HDR_SIZE / 4.

(** [aSalt] is kept as its eight bytes, since the code copies, compares and
    reads it bytewise. *)
Record WalIndexHdr := mkHdr {
  iVersion : Z;
  unused : Z;
  iChange : Z;
  isInit : Z;
  bigEndCksum : Z;
  hszPage : Z;
  mxFrame : Z;
  nPage : Z;
  aFrameCksum : Z * Z;
  aSalt : list Z;
  aCksum : Z * Z
}.

Definition zeroHdr : WalIndexHdr :=
  mkHdr 0 0 0 0 0 0 0 0 (0, 0) (replicate 8 0) (0, 0).

(** One 32KB page of the wal-index: the page numbers of the frames it
    covers, and the hash table over them. *)
Record WalPage := mkPage {
  aPgno : list Z;
  aHash : list Z
}.

(** Number of frames covered by wal-index page [iHash], and the number of
    frames covered by the pages before it. *)
Definition pageCap (iHash : Z) : Z :=
  if iHash =? 0 then HASHTABLE_NPAGE_ONE else HASHTABLE_NPAGE.

Definition zeroPage (iHash : Z) : WalPage :=
  mkPage (replicate (Z.to_nat (pageCap iHash)) 0)
         (replicate (Z.to_nat HASHTABLE_NSLOT) 0).

(** The checkpoint information that follows the two headers in the
    wal-index. *)
Record WalCkptInfo := mkInfo {
  nBackfill : Z;
  aReadMark : list Z;
  nBackfillAttempted : Z
}.

(** The fields of the connection object that the modelled functions use.
    The first three are the shared memory: the pages of the wal-index, the
    two copies of its header, and the checkpoint information. *)
Record Wal := mkWal {
  apWiData : gmap Z WalPage;
  aHdr : WalIndexHdr * WalIndexHdr;
  ckptInfo : WalCkptInfo;
  szPage : Z;
  readLock : Z;
  writeLock : bool;
  ckptLock : bool;
  readOnly : Z;
  bShmUnreliable : bool;
  hdr : WalIndexHdr;
  minFrame : Z;
  iReCksum : Z;
  nCkpt : Z;
  truncateOnCommit : bool;
  syncHeader : bool;
  padToSectorBoundary : bool;
  mxWalSize : Z;
  iCallback : Z
}.

Definition set_apWiData (w : Wal) (x : gmap Z WalPage) : Wal :=
  mkWal x (aHdr w) (ckptInfo w) (szPage w) (readLock w) (writeLock w)
    (ckptLock w) (readOnly w) (bShmUnreliable w) (hdr w) (minFrame w) (iReCksum w)
    (nCkpt w) (truncateOnCommit w) (syncHeader w) (padToSectorBoundary w) (mxWalSize w) (iCallback w).
Definition set_aHdr (w : Wal) (x : WalIndexHdr * WalIndexHdr) : Wal :=
  mkWal (apWiData w) x (ckptInfo w) (szPage w) (readLock w) (writeLock w)
    (ckptLock w) (readOnly w) (bShmUnreliable w) (hdr w) (minFrame w) (iReCksum w)
    (nCkpt w) (truncateOnCommit w) (syncHeader w) (padToSectorBoundary w) (mxWalSize w) (iCallback w).
Definition set_ckptInfo (w : Wal) (x : WalCkptInfo) : Wal :=
  mkWal (apWiData w) (aHdr w) x (szPage w) (readLock w) (writeLock w)
    (ckptLock w) (readOnly w) (bShmUnreliable w) (hdr w) (minFrame w) (iReCksum w)
    (nCkpt w) (truncateOnCommit w) (syncHeader w) (padToSectorBoundary w) (mxWalSize w) (iCallback w).
Definition set_szPage (w : Wal) (x : Z) : Wal :=
  mkWal (apWiData w) (aHdr w) (ckptInfo w) x (readLock w) (writeLock w)
    (ckptLock w) (readOnly w) (bShmUnreliable w) (hdr w) (minFrame w) (iReCksum w)
    (nCkpt w) (truncateOnCommit w) (syncHeader w) (padToSectorBoundary w) (mxWalSize w) (iCallback w).
Definition set_readLock (w : Wal) (x : Z) : Wal :=
  mkWal (apWiData w) (aHdr w) (ckptInfo w) (szPage w) x (writeLock w)
    (ckptLock w) (readOnly w) (bShmUnreliable w) (hdr w) (minFrame w) (iReCksum w)
    (nCkpt w) (truncateOnCommit w) (syncHeader w) (padToSectorBoundary w) (mxWalSize w) (iCallback w).
Definition set_writeLock (w : Wal) (x : bool) : Wal :=
  mkWal (apWiData w) (aHdr w) (ckptInfo w) (szPage w) (readLock w) x
    (ckptLock w) (readOnly w) (bShmUnreliable w) (hdr w) (minFrame w) (iReCksum w)
    (nCkpt w) (truncateOnCommit w) (syncHeader w) (padToSectorBoundary w) (mxWalSize w) (iCallback w).
Definition set_ckptLock (w : Wal) (x : bool) : Wal :=
  mkWal (apWiData w) (aHdr w) (ckptInfo w) (szPage w) (readLock w) (writeLock w)
    x (readOnly w) (bShmUnreliable w) (hdr w) (minFrame w) (iReCksum w)
    (nCkpt w) (truncateOnCommit w) (syncHeader w) (padToSectorBoundary w) (mxWalSize w) (iCallback w).
Definition set_readOnly (w : Wal) (x : Z) : Wal :=
  mkWal (apWiData w) (aHdr w) (ckptInfo w) (szPage w) (readLock w) (writeLock w)
    (ckptLock w) x (bShmUnreliable w) (hdr w) (minFrame w) (iReCksum w)
    (nCkpt w) (truncateOnCommit w) (syncHeader w) (padToSectorBoundary w) (mxWalSize w) (iCallback w).
Definition set_bShmUnreliable (w : Wal) (x : bool) : Wal :=
  mkWal (apWiData w) (aHdr w) (ckptInfo w) (szPage w) (readLock w) (writeLock w)
    (ckptLock w) (readOnly w) x (hdr w) (minFrame w) (iReCksum w)
    (nCkpt w) (truncateOnCommit w) (syncHeader w) (padToSectorBoundary w) (mxWalSize w) (iCallback w).
Definition set_hdr (w : Wal) (x : WalIndexHdr) : Wal :=
  mkWal (apWiData w) (aHdr w) (ckptInfo w) (szPage w) (readLock w) (writeLock w)
    (ckptLock w) (readOnly w) (bShmUnreliable w) x (minFrame w) (iReCksum w)
    (nCkpt w) (truncateOnCommit w) (syncHeader w) (padToSectorBoundary w) (mxWalSize w) (iCallback w).
Definition set_minFrame (w : Wal) (x : Z) : Wal :=
  mkWal (apWiData w) (aHdr w) (ckptInfo w) (szPage w) (readLock w) (writeLock w)
    (ckptLock w) (readOnly w) (bShmUnreliable w) (hdr w) x (iReCksum w)
    (nCkpt w) (truncateOnCommit w) (syncHeader w) (padToSectorBoundary w) (mxWalSize w) (iCallback w).
Definition set_iReCksum (w : Wal) (x : Z) : Wal :=
  mkWal (apWiData w) (aHdr w) (ckptInfo w) (szPage w) (readLock w) (writeLock w)
    (ckptLock w) (readOnly w) (bShmUnreliable w) (hdr w) (minFrame w) x
    (nCkpt w) (truncateOnCommit w) (syncHeader w) (padToSectorBoundary w) (mxWalSize w) (iCallback w).
Definition set_nCkpt (w : Wal) (x : Z) : Wal :=
  mkWal (apWiData w) (aHdr w) (ckptInfo w) (szPage w) (readLock w) (writeLock w)
    (ckptLock w) (readOnly w) (bShmUnreliable w) (hdr w) (minFrame w) (iReCksum w)
    x (truncateOnCommit w) (syncHeader w) (padToSectorBoundary w) (mxWalSize w) (iCallback w).
Definition set_truncateOnCommit (w : Wal) (x : bool) : Wal :=
  mkWal (apWiData w) (aHdr w) (ckptInfo w) (szPage w) (readLock w) (writeLock w)
    (ckptLock w) (readOnly w) (bShmUnreliable w) (hdr w) (minFrame w) (iReCksum w)
    (nCkpt w) x (syncHeader w) (padToSectorBoundary w) (mxWalSize w) (iCallback w).
Definition set_syncHeader (w : Wal) (x : bool) : Wal :=
  mkWal (apWiData w) (aHdr w) (ckptInfo w) (szPage w) (readLock w) (writeLock w)
    (ckptLock w) (readOnly w) (bShmUnreliable w) (hdr w) (minFrame w) (iReCksum w)
    (nCkpt w) (truncateOnCommit w) x (padToSectorBoundary w) (mxWalSize w) (iCallback w).
Definition set_padToSectorBoundary (w : Wal) (x : bool) : Wal :=
  mkWal (apWiData w) (aHdr w) (ckptInfo w) (szPage w) (readLock w) (writeLock w)
    (ckptLock w) (readOnly w) (bShmUnreliable w) (hdr w) (minFrame w) (iReCksum w)
    (nCkpt w) (truncateOnCommit w) (syncHeader w) x (mxWalSize w) (iCallback w).
Definition set_mxWalSize (w : Wal) (x : Z) : Wal :=
  mkWal (apWiData w) (aHdr w) (ckptInfo w) (szPage w) (readLock w) (writeLock w)
    (ckptLock w) (readOnly w) (bShmUnreliable w) (hdr w) (minFrame w) (iReCksum w)
    (nCkpt w) (truncateOnCommit w) (syncHeader w) (padToSectorBoundary w) x (iCallback w).
Definition set_iCallback (w : Wal) (x : Z) : Wal :=
  mkWal (apWiData w) (aHdr w) (ckptInfo w) (szPage w) (readLock w) (writeLock w)
    (ckptLock w) (readOnly w) (bShmUnreliable w) (hdr w) (minFrame w) (iReCksum w)
    (nCkpt w) (truncateOnCommit w) (syncHeader w) (padToSectorBoundary w) (mxWalSize w) x.

Definition set_iVersion (h : WalIndexHdr) (x : Z) : WalIndexHdr :=
  mkHdr x (unused h) (iChange h) (isInit h) (bigEndCksum h) (hszPage h)
    (mxFrame h) (nPage h) (aFrameCksum h) (aSalt h) (aCksum h).
Definition set_iChange (h : WalIndexHdr) (x : Z) : WalIndexHdr :=
  mkHdr (iVersion h) (unused h) x (isInit h) (bigEndCksum h) (hszPage h)
    (mxFrame h) (nPage h) (aFrameCksum h) (aSalt h) (aCksum h).
Definition set_isInit (h : WalIndexHdr) (x : Z) : WalIndexHdr :=
  mkHdr (iVersion h) (unused h) (iChange h) x (bigEndCksum h) (hszPage h)
    (mxFrame h) (nPage h) (aFrameCksum h) (aSalt h) (aCksum h).
Definition set_bigEndCksum (h : WalIndexHdr) (x : Z) : WalIndexHdr :=
  mkHdr (iVersion h) (unused h) (iChange h) (isInit h) x (hszPage h)
    (mxFrame h) (nPage h) (aFrameCksum h) (aSalt h) (aCksum h).
Definition set_hszPage (h : WalIndexHdr) (x : Z) : WalIndexHdr :=
  mkHdr (iVersion h) (unused h) (iChange h) (isInit h) (bigEndCksum h) x
    (mxFrame h) (nPage h) (aFrameCksum h) (aSalt h) (aCksum h).
Definition set_mxFrame (h : WalIndexHdr) (x : Z) : WalIndexHdr :=
  mkHdr (iVersion h) (unused h) (iChange h) (isInit h) (bigEndCksum h) (hszPage h)
    x (nPage h) (aFrameCksum h) (aSalt h) (aCksum h).
Definition set_nPage (h : WalIndexHdr) (x : Z) : WalIndexHdr :=
  mkHdr (iVersion h) (unused h) (iChange h) (isInit h) (bigEndCksum h) (hszPage h)
    (mxFrame h) x (aFrameCksum h) (aSalt h) (aCksum h).
Definition set_aFrameCksum (h : WalIndexHdr) (x : Z * Z) : WalIndexHdr :=
  mkHdr (iVersion h) (unused h) (iChange h) (isInit h) (bigEndCksum h) (hszPage h)
    (mxFrame h) (nPage h) x (aSalt h) (aCksum h).
Definition set_aSalt (h : WalIndexHdr) (x : list Z) : WalIndexHdr :=
  mkHdr (iVersion h) (unused h) (iChange h) (isInit h) (bigEndCksum h) (hszPage h)
    (mxFrame h) (nPage h) (aFrameCksum h) x (aCksum h).
Definition set_aCksum (h : WalIndexHdr) (x : Z * Z) : WalIndexHdr :=
  mkHdr (iVersion h) (unused h) (iChange h) (isInit h) (bigEndCksum h) (hszPage h)
    (mxFrame h) (nPage h) (aFrameCksum h) (aSalt h) x.

(** The contents of a wal-index page; a page that was never written is zero. *)
Definition pageOf (w : Wal) (iHash : Z) : WalPage :=
  default (zeroPage iHash) (apWiData w !! iHash).

Definition setPage (w : Wal) (iHash : Z) (pg : WalPage) : Wal :=
  set_apWiData w (<[iHash := pg]> (apWiData w)).

Lemma pageOf_setPage w i pg : pageOf (setPage w i pg) i = pg.
Proof. unfold pageOf, setPage. simpl. by rewrite lookup_insert_eq. Qed.

Lemma pageOf_setPage_ne w i j pg : i <> j -> pageOf (setPage w i pg) j = pageOf w j.
Proof. intros. unfold pageOf, setPage. simpl. by rewrite lookup_insert_ne. Qed.

Lemma pageCap_range i : 0 < pageCap i <= HASHTABLE_NPAGE.
Proof.
  unfold pageCap. destruct (i =? 0); [|unfold HASHTABLE_NPAGE; lia].
  split; [done|]. intros H. discriminate H.
Qed.

Arguments zeroPage : simpl never.
Arguments pageCap : simpl never.
Arguments pageOf : simpl never.
