(* ===== verification/WalIndex.v ===== *)
(** * src/libsql-sqlite3/src/wal.c: the wal-index hash tables

    [walIndexAppend] and [walCleanupHash] maintain, and [walFindFrame]
    searches, one linear-probing hash table per 32KB page of the wal-index.
    The abstract state is the log: the list of the page numbers of the frames
    written since the last reset, frame 1 first. *)

From stdpp Require Import base list numbers option gmap.
From S2P Require Import Prelude Wal.
#[local] Open Scope Z_scope.

(** ** Operations *)

Definition walHash (iPage : Z) : Z :=
  Z.land (u32 (iPage * HASHTABLE_HASH_1)) (HASHTABLE_NSLOT - 1).

Definition walNextHash (iPriorHash : Z) : Z :=
  Z.land (iPriorHash + 1) (HASHTABLE_NSLOT - 1).

Definition walFramePage (iFrame : Z) : Z :=
  u64 (u32 (iFrame + HASHTABLE_NPAGE) - HASHTABLE_NPAGE_ONE - 1) / HASHTABLE_NPAGE.

(** [loc] stands for the pointers [aHash] and [aPgno]: both are determined
    by the number of the page they point into. *)
Record WalHashLoc := mkLoc { loc : Z; iZero : Z }.

Section Index.
(** Result code of mapping page [iPage] of the wal-index (the VFS method
    xShmMap or the allocator, behind [walIndexPage]). *)
Context (walIndexPage : Z -> Z).

Definition walHashGet (iHash : Z) : result WalHashLoc :=
  let rc := walIndexPage iHash in
  if rc =? SQLITE_OK then
    if iHash =? 0 then Ok (mkLoc iHash 0)
    else Ok (mkLoc iHash (HASHTABLE_NPAGE_ONE + (iHash - 1) * HASHTABLE_NPAGE))
  else Err rc.

Definition walFramePgno (w : Wal) (iFrame : Z) : Z :=
  let iHash := walFramePage iFrame in
  if iHash =? 0 then nthZ (aPgno (pageOf w 0)) (iFrame - 1)
  else if negb (walIndexPage iHash =? SQLITE_OK) then 0
  else nthZ (aPgno (pageOf w iHash))
            (u64 (u32 (iFrame - 1) - HASHTABLE_NPAGE_ONE) mod HASHTABLE_NPAGE).

Definition walCleanupHash (w : Wal) : Wal :=
  if mxFrame (hdr w) =? 0 then w else
  match walHashGet (walFramePage (mxFrame (hdr w))) with
  | Err _ => w
  | Ok sLoc =>
      let iLimit := mxFrame (hdr w) - iZero sLoc in
      let pg := pageOf w (loc sLoc) in
      setPage w (loc sLoc)
        (mkPage (take (Z.to_nat iLimit) (aPgno pg)
                 ++ replicate (length (aPgno pg) - Z.to_nat iLimit) 0)
                (map (fun v => if v >? iLimit then 0 else v) (aHash pg)))
  end.

(** The [for] loop of [walIndexAppend] that looks for an empty slot; [None]
    is the return of SQLITE_CORRUPT. *)
Fixpoint appendProbe (nCollide : nat) (h : list Z) (iKey : Z) : option Z :=
  if nthZ h iKey =? 0 then Some iKey
  else match nCollide with
       | O => None
       | S n => appendProbe n h (walNextHash iKey)
       end.

(** Zero a page that gets its first entry; remove the remnants of a writer
    that exited in the middle of a transaction. *)
Definition appendPrepare (w : Wal) (sLoc : WalHashLoc) (idx : Z) : Wal :=
  let w := if idx =? 1 then setPage w (loc sLoc) (zeroPage (loc sLoc)) else w in
  if negb (nthZ (aPgno (pageOf w (loc sLoc))) (idx - 1) =? 0)
  then walCleanupHash w else w.

Definition walIndexAppend (w : Wal) (iFrame iPage : Z) : Z * Wal :=
  match walHashGet (walFramePage iFrame) with
  | Err rc => (rc, w)
  | Ok sLoc =>
      let idx := iFrame - iZero sLoc in
      let w := appendPrepare w sLoc idx in
      let pg := pageOf w (loc sLoc) in
      match appendProbe (Z.to_nat idx) (aHash pg) (walHash iPage) with
      | None => (SQLITE_CORRUPT, w)
      | Some iKey =>
          (SQLITE_OK, setPage w (loc sLoc)
             (mkPage (setZ (aPgno pg) (idx - 1) iPage) (setZ (aHash pg) iKey (u16 idx))))
      end
  end.

(** The [while] loop of [walFindFrame] over one hash table: the new value of
    [iRead], or [None] for SQLITE_CORRUPT. *)
Fixpoint findProbe (nCollide : nat) (w : Wal) (sLoc : WalHashLoc) (pgno iLast : Z)
    (iKey iRead : Z) : option Z :=
  let iH := nthZ (aHash (pageOf w (loc sLoc))) iKey in
  if iH =? 0 then Some iRead else
  let iFrame := u32 (iH + iZero sLoc) in
  let iRead :=
    if (iFrame <=? iLast) && (minFrame w <=? iFrame)
       && (nthZ (aPgno (pageOf w (loc sLoc))) (iH - 1) =? pgno)
    then iFrame else iRead in
  match nCollide with
  | O => None
  | S n => findProbe n w sLoc pgno iLast (walNextHash iKey) iRead
  end.

(** The [for] loop over the hash tables, from [iHash] down, [n] of them. *)
Fixpoint findLoop (n : nat) (w : Wal) (pgno iLast iHash : Z) : result Z :=
  match n with
  | O => Ok 0
  | S n' =>
      match walHashGet iHash with
      | Err rc => Err rc
      | Ok sLoc =>
          match findProbe (Z.to_nat HASHTABLE_NSLOT) w sLoc pgno iLast (walHash pgno) 0 with
          | None => Err SQLITE_CORRUPT
          | Some iRead =>
              if iRead =? 0 then findLoop n' w pgno iLast (iHash - 1) else Ok iRead
          end
      end
  end.

(** [*piRead], or the result code. *)
Definition walFindFrame (w : Wal) (pgno iLast : Z) : result Z :=
  if (iLast =? 0) || ((readLock w =? 0) && negb (bShmUnreliable w)) then Ok 0
  else
    let iMinHash := walFramePage (minFrame w) in
    findLoop (Z.to_nat (walFramePage iLast - iMinHash + 1)) w pgno iLast (walFramePage iLast).

End Index.

(** ** Arithmetic of slots and frames *)

Lemma NSLOT_pos : 0 < HASHTABLE_NSLOT.
Proof. done. Qed.
#[local] Hint Resolve NSLOT_pos : core.

Lemma walHash_range p : 0 <= walHash p < HASHTABLE_NSLOT.
Proof.
  unfold walHash. change (HASHTABLE_NSLOT - 1) with (Z.ones 13).
  rewrite Z.land_ones by lia. apply Z.mod_pos_bound. done.
Qed.

Lemma walNextHash_slot h d :
  walNextHash (slot HASHTABLE_NSLOT h d) = slot HASHTABLE_NSLOT h (d + 1).
Proof.
  unfold walNextHash. change (HASHTABLE_NSLOT - 1) with (Z.ones 13).
  rewrite Z.land_ones by lia. apply (slot_succ HASHTABLE_NSLOT). done.
Qed.

Definition iZeroOf (iHash : Z) : Z :=
  if iHash =? 0 then 0 else HASHTABLE_NPAGE_ONE + (iHash - 1) * HASHTABLE_NPAGE.

Definition max_frame : Z := 2 ^ 31.

Lemma walFramePage_spec f i :
  1 <= f < max_frame ->
  walFramePage f = i <-> 0 <= i /\ iZeroOf i < f <= iZeroOf i + pageCap i.
Proof.
  unfold max_frame. intros Hf. unfold walFramePage, u32, u64, iZeroOf, pageCap.
  change HASHTABLE_NPAGE_ONE with 4062. change HASHTABLE_NPAGE with 4096.
  rewrite (Z.mod_small (f + 4096)) by lia. rewrite Z.mod_small by lia.
  pose proof (Z.div_mod (f + 4096 - 4062 - 1) 4096 ltac:(lia)).
  pose proof (Z.mod_pos_bound (f + 4096 - 4062 - 1) 4096 ltac:(lia)).
  generalize dependent ((f + 4096 - 4062 - 1) / 4096). intros q Hq.
  destruct (Z.eqb_spec i 0) as [->|Hi]; split; intros; lia.
Qed.

Lemma walFramePage_nonneg f : 0 <= walFramePage f.
Proof.
  unfold walFramePage. apply Z.div_pos; [|done]. unfold u64. apply Z.mod_pos_bound. done.
Qed.

Lemma walFramePage_0 : walFramePage 0 = 0.
Proof. done. Qed.

Lemma iZeroOf_succ i : 0 <= i -> iZeroOf (i + 1) = iZeroOf i + pageCap i.
Proof.
  intros Hi. unfold iZeroOf, pageCap. destruct (Z.eqb_spec (i + 1) 0); [lia|].
  destruct (Z.eqb_spec i 0); lia.
Qed.

Lemma iZeroOf_nonneg i : 0 <= i -> 0 <= iZeroOf i.
Proof.
  intros Hi. unfold iZeroOf. change HASHTABLE_NPAGE_ONE with 4062.
  change HASHTABLE_NPAGE with 4096. destruct (Z.eqb_spec i 0); lia.
Qed.

(** ** One hash table

    [seg] lists the page numbers of the frames it covers; [t] gives the
    contents of each slot. *)
Record table_ok (seg : list Z) (t : Z -> Z) : Prop := {
  table_range : forall k, 0 <= k < HASHTABLE_NSLOT -> 0 <= t k <= Z.of_nat (length seg);
  table_inj : forall k k', 0 <= k < HASHTABLE_NSLOT -> 0 <= k' < HASHTABLE_NSLOT ->
    t k = t k' -> t k <> 0 -> k = k';
  table_surj : forall j, 1 <= j <= Z.of_nat (length seg) ->
    exists k, 0 <= k < HASHTABLE_NSLOT /\ t k = j;
  (** from its home slot to its own slot, an entry has only older entries *)
  table_chain : forall k c, 0 <= k < HASHTABLE_NSLOT -> t k <> 0 ->
    0 <= c < dist HASHTABLE_NSLOT (walHash (nthZ seg (t k - 1))) k ->
    0 < t (slot HASHTABLE_NSLOT (walHash (nthZ seg (t k - 1))) c) < t k
}.

Lemma table_ok_ext seg t t' :
  (forall k, 0 <= k < HASHTABLE_NSLOT -> t k = t' k) -> table_ok seg t -> table_ok seg t'.
Proof.
  intros Heq [Hr Hi Hs Hc]. split.
  - intros k Hk. rewrite <- Heq by done. auto.
  - intros k k' Hk Hk'. rewrite <- !Heq by done. auto.
  - intros j Hj. destruct (Hs j Hj) as (k & Hk & <-). exists k. by rewrite <- Heq.
  - intros k c Hk. rewrite <- !Heq by (done || apply slot_range; done). auto.
Qed.

Lemma table_ok_empty : table_ok [] (fun _ => 0).
Proof. split; simpl; intros; lia. Qed.

(** The distance to the first empty slot is at most the number of entries. *)
Lemma table_first_empty seg t h :
  table_ok seg t -> 0 <= h < HASHTABLE_NSLOT ->
  Z.of_nat (length seg) < HASHTABLE_NSLOT ->
  exists d, 0 <= d <= Z.of_nat (length seg) /\ t (slot HASHTABLE_NSLOT h d) = 0
    /\ (forall c, 0 <= c < d -> t (slot HASHTABLE_NSLOT h c) <> 0).
Proof.
  intros Hok Hh Hlen.
  destruct (decide (Exists (fun k => t k = 0) (seqZ 0 HASHTABLE_NSLOT))) as [Hex|Hno].
  - apply Exists_exists in Hex as (z & Hz%elem_of_seqZ & H0).
    destruct (walk_total HASHTABLE_NSLOT NSLOT_pos t (fun _ => false) h z)
      as (d & Hd & _ & Hend & Hb); [lia|lia|done|].
    exists d. assert (t (slot HASHTABLE_NSLOT h d) = 0) by (by destruct Hend).
    split; [|split; [done|]; intros c Hc; by apply Hb]. split; [lia|].
    apply (pigeonhole (fun c => t (slot HASHTABLE_NSLOT h c))); [lia| |].
    + intros c Hc. destruct (Hb c Hc) as [Hnz _].
      pose proof (table_range _ _ Hok (slot HASHTABLE_NSLOT h c) (slot_range _ NSLOT_pos _ _)). lia.
    + intros c c' Hc Hc' Heq. destruct (Hb c Hc) as [Hnz _].
      apply (table_inj _ _ Hok) in Heq; [|by apply slot_range..|done].
      rewrite <- (dist_slot HASHTABLE_NSLOT NSLOT_pos h c), Heq, dist_slot by (done || lia). done.
  - exfalso. apply not_Exists_Forall in Hno; [|apply _]. rewrite Forall_forall in Hno.
    enough (HASHTABLE_NSLOT <= Z.of_nat (length seg)) by lia.
    apply (pigeonhole t); [lia| |].
    + intros c Hc. specialize (Hno c). rewrite elem_of_seqZ in Hno.
      pose proof (table_range _ _ Hok c Hc). specialize (Hno ltac:(lia)). simpl in Hno. lia.
    + intros c c' Hc Hc' Heq. apply (table_inj _ _ Hok); try done.
      specialize (Hno c). rewrite elem_of_seqZ in Hno. apply Hno. lia.
Qed.

Lemma nthZ_app_l l l' k : 0 <= k < Z.of_nat (length l) -> nthZ (l ++ l') k = nthZ l k.
Proof. intros. unfold nthZ. rewrite lookup_app_l by lia. done. Qed.

Lemma nthZ_app_r l l' k :
  Z.of_nat (length l) <= k -> nthZ (l ++ l') k = nthZ l' (k - Z.of_nat (length l)).
Proof.
  intros. unfold nthZ. rewrite lookup_app_r by lia. do 2 f_equal. lia.
Qed.

(** Adding an entry in the first empty slot from its home. *)
Lemma table_ok_insert seg t t' p d :
  table_ok seg t -> 0 <= d < HASHTABLE_NSLOT ->
  t (slot HASHTABLE_NSLOT (walHash p) d) = 0 ->
  (forall c, 0 <= c < d -> t (slot HASHTABLE_NSLOT (walHash p) c) <> 0) ->
  t' (slot HASHTABLE_NSLOT (walHash p) d) = Z.of_nat (length seg) + 1 ->
  (forall k, 0 <= k < HASHTABLE_NSLOT -> k <> slot HASHTABLE_NSLOT (walHash p) d -> t' k = t k) ->
  table_ok (seg ++ [p]) t'.
Proof.
  intros [Hr Hi Hs Hc] Hd H0 Hb Hnew Hold.
  set (s := slot HASHTABLE_NSLOT (walHash p) d) in *.
  assert (0 <= s < HASHTABLE_NSLOT) as Hsr by (by apply slot_range).
  assert (forall k, 0 <= k < HASHTABLE_NSLOT ->
    (k = s /\ t' k = Z.of_nat (length seg) + 1)
    \/ (k <> s /\ t' k = t k /\ 0 <= t k <= Z.of_nat (length seg))) as Hcase.
  { intros k Hk. destruct (decide (k = s)) as [->|Hne]; [by left|right].
    split; [done|]. split; [by apply Hold|by apply Hr]. }
  split; rewrite ?length_app; simpl length.
  - intros k Hk. destruct (Hcase k Hk) as [[_ ->]|(_ & -> & ?)]; lia.
  - intros k k' Hk Hk' Heq Hnz.
    destruct (Hcase k Hk) as [[-> E]|(? & E & ?)], (Hcase k' Hk') as [[-> E']|(? & E' & ?)];
      try done; try lia. apply Hi; congruence.
  - intros j Hj. destruct (decide (j = Z.of_nat (length seg) + 1)) as [->|]; [by exists s|].
    destruct (Hs j) as (k & Hk & Htk); [lia|]. exists k. split; [done|].
    rewrite Hold; [done|done|]. intros ->. lia.
  - intros k c Hk Hnz. destruct (Hcase k Hk) as [[-> E]|(Hne & E & Hrange)]; rewrite E.
    + replace (Z.of_nat (length seg) + 1 - 1) with (Z.of_nat (length seg)) by lia.
      rewrite nthZ_app_r, Z.sub_diag by lia. change (nthZ [p] 0) with p. unfold s.
      rewrite dist_slot by done. intros Hcd. specialize (Hb c Hcd).
      pose proof (Hr _ (slot_range HASHTABLE_NSLOT NSLOT_pos (walHash p) c)).
      rewrite Hold; [lia|by apply slot_range|]. intros Heq. by rewrite Heq in Hb.
    + rewrite nthZ_app_l by lia. intros Hcd. rewrite E in Hnz.
      specialize (Hc k c Hk Hnz Hcd). rewrite Hold; [lia|by apply slot_range|].
      intros Heq. rewrite Heq in Hc. lia.
Qed.

Lemma nthZ_take l n k : 0 <= k < Z.of_nat n -> nthZ (take n l) k = nthZ l k.
Proof. intros. unfold nthZ. rewrite lookup_take_lt by lia. done. Qed.

(** Dropping the entries above [L]. *)
Lemma table_ok_cut seg t L :
  table_ok seg t -> 0 <= L <= Z.of_nat (length seg) ->
  table_ok (take (Z.to_nat L) seg) (fun k => if t k >? L then 0 else t k).
Proof.
  intros [Hr Hi Hs Hc] HL.
  split; rewrite ?length_take_le by lia.
  - intros k Hk. specialize (Hr k Hk). rewrite Z.gtb_ltb. destruct (Z.ltb_spec L (t k)); lia.
  - intros k k' Hk Hk'. rewrite !Z.gtb_ltb.
    destruct (Z.ltb_spec L (t k)), (Z.ltb_spec L (t k')); try done; intros; try lia; auto.
  - intros j Hj. destruct (Hs j) as (k & Hk & Htk); [lia|]. exists k. split; [done|].
    rewrite Z.gtb_ltb, Htk. destruct (Z.ltb_spec L j); lia.
  - intros k c Hk. rewrite !Z.gtb_ltb. destruct (Z.ltb_spec L (t k)); [done|].
    intros Hnz. specialize (Hr k Hk). rewrite nthZ_take by lia. intros Hcd.
    specialize (Hc k c Hk Hnz Hcd). destruct (Z.ltb_spec L (t (slot HASHTABLE_NSLOT
      (walHash (nthZ seg (t k - 1))) c))); lia.
Qed.

(** ** One page of the wal-index *)

Record page_ok (iHash : Z) (seg : list Z) (pg : WalPage) : Prop := {
  page_len : Z.of_nat (length seg) <= pageCap iHash;
  page_pgno : aPgno pg = seg ++ replicate (Z.to_nat (pageCap iHash) - length seg) 0;
  page_hash : length (aHash pg) = Z.to_nat HASHTABLE_NSLOT;
  page_table : table_ok seg (nthZ (aHash pg))
}.

Lemma page_ok_zero iHash : page_ok iHash [] (zeroPage iHash).
Proof.
  pose proof (pageCap_range iHash). unfold zeroPage. split; cbn [aPgno aHash length app].
  - lia.
  - f_equal. lia.
  - apply length_replicate.
  - eapply table_ok_ext, table_ok_empty. intros k _. symmetry. apply nthZ_replicate.
Qed.

Lemma page_length iHash seg pg :
  page_ok iHash seg pg -> length (aPgno pg) = Z.to_nat (pageCap iHash).
Proof.
  intros Hok. rewrite (page_pgno _ _ _ Hok), length_app, length_replicate.
  pose proof (page_len _ _ _ Hok). lia.
Qed.

Lemma page_len_slots iHash seg pg :
  page_ok iHash seg pg -> Z.of_nat (length seg) < HASHTABLE_NSLOT.
Proof.
  intros Hok. pose proof (page_len _ _ _ Hok). pose proof (pageCap_range iHash).
  unfold HASHTABLE_NSLOT, HASHTABLE_NPAGE in *. lia.
Qed.

Lemma page_pgno_nth iHash seg pg j :
  page_ok iHash seg pg -> 0 <= j ->
  nthZ (aPgno pg) j = if j <? Z.of_nat (length seg) then nthZ seg j else 0.
Proof.
  intros Hok Hj. rewrite (page_pgno _ _ _ Hok).
  destruct (Z.ltb_spec j (Z.of_nat (length seg))).
  - by apply nthZ_app_l.
  - rewrite nthZ_app_r by lia. apply nthZ_replicate.
Qed.

Lemma appendProbe_finds n l h c d :
  0 <= c <= d -> d - c <= Z.of_nat n -> nthZ l (slot HASHTABLE_NSLOT h d) = 0 ->
  (forall c', c <= c' < d -> nthZ l (slot HASHTABLE_NSLOT h c') <> 0) ->
  appendProbe n l (slot HASHTABLE_NSLOT h c) = Some (slot HASHTABLE_NSLOT h d).
Proof.
  revert c. induction n as [|n IH]; intros c Hcd Hn H0 Hb; simpl.
  - assert (c = d) as -> by lia. by rewrite H0.
  - destruct (decide (c = d)) as [->|Hne]; [by rewrite H0|].
    destruct (Z.eqb_spec (nthZ l (slot HASHTABLE_NSLOT h c)) 0) as [E|E].
    + by apply Hb in E; [|lia].
    + rewrite walNextHash_slot. apply IH; try done; try lia. intros c' Hc'. apply Hb. lia.
Qed.

(** The slot where [walIndexAppend] writes exists, and writing there keeps
    the page well formed. *)
Lemma page_ok_append iHash seg pg p :
  page_ok iHash seg pg -> Z.of_nat (length seg) < pageCap iHash ->
  exists iKey,
    appendProbe (S (length seg)) (aHash pg) (walHash p) = Some iKey
    /\ page_ok iHash (seg ++ [p])
         (mkPage (setZ (aPgno pg) (Z.of_nat (length seg)) p)
                 (setZ (aHash pg) iKey (u16 (Z.of_nat (length seg) + 1)))).
Proof.
  intros Hok Hlt. pose proof (page_len_slots _ _ _ Hok) as Hslots.
  pose proof (pageCap_range iHash) as Hcap.
  destruct (table_first_empty _ _ (walHash p) (page_table _ _ _ Hok) (walHash_range p) Hslots)
    as (d & Hd & H0 & Hb).
  exists (slot HASHTABLE_NSLOT (walHash p) d). split.
  - rewrite <- (slot_0 HASHTABLE_NSLOT NSLOT_pos (walHash p)) at 1 by apply walHash_range.
    apply appendProbe_finds; auto; lia.
  - pose proof (slot_range HASHTABLE_NSLOT NSLOT_pos (walHash p) d) as Hs.
    assert (u16 (Z.of_nat (length seg) + 1) = Z.of_nat (length seg) + 1) as ->.
    { unfold u16. apply Z.mod_small. unfold HASHTABLE_NPAGE in *. lia. }
    split; simpl.
    + rewrite length_app. simpl. lia.
    + rewrite (page_pgno _ _ _ Hok). unfold setZ. rewrite Nat2Z.id.
      rewrite insert_app_r_alt, Nat.sub_diag, length_app by lia.
      destruct (Z.to_nat (pageCap iHash) - length seg)%nat as [|m] eqn:E; [lia|].
      simpl. rewrite <- app_assoc. simpl. do 3 f_equal. lia.
    + rewrite length_setZ. apply Hok.
    + apply (table_ok_insert seg (nthZ (aHash pg)) _ p d); auto.
      * apply Hok.
      * lia.
      * rewrite nthZ_setZ_eq; [done|]. rewrite (page_hash _ _ _ Hok). lia.
      * intros k Hk Hne. apply nthZ_setZ_ne; lia.
Qed.

(** What [walCleanupHash] writes for the limit [L]. *)
Lemma page_ok_cut iHash seg pg L :
  page_ok iHash seg pg -> 0 <= L <= Z.of_nat (length seg) ->
  page_ok iHash (take (Z.to_nat L) seg)
    (mkPage (take (Z.to_nat L) (aPgno pg) ++ replicate (length (aPgno pg) - Z.to_nat L) 0)
            (map (fun v => if v >? L then 0 else v) (aHash pg))).
Proof.
  intros Hok HL. pose proof (page_len _ _ _ Hok). split; simpl.
  - rewrite length_take. lia.
  - rewrite (page_length _ _ _ Hok), (page_pgno _ _ _ Hok), take_app_le by lia.
    f_equal. f_equal. rewrite length_take. lia.
  - rewrite length_map. apply Hok.
  - eapply table_ok_ext, table_ok_cut; [|apply (page_table _ _ _ Hok)|done].
    intros k Hk. unfold nthZ. change (map ?f (aHash pg)) with (f <$> aHash pg).
    rewrite list_lookup_fmap.
    destruct (aHash pg !! Z.to_nat k); simpl; [done|]. by destruct (0 >? L).
Qed.

(** ** The whole wal-index *)

(** The frames covered by page [iHash]. *)
Definition segOf (log : list Z) (iHash : Z) : list Z :=
  take (Z.to_nat (pageCap iHash)) (drop (Z.to_nat (iZeroOf iHash)) log).

(** Pages without frames are not constrained: they may hold the remnants of
    an earlier use of the log. *)
Definition index_ok (w : Wal) (log : list Z) : Prop :=
  Forall (fun p => 0 < p) log /\ Z.of_nat (length log) < max_frame
  /\ forall iHash, 0 <= iHash -> segOf log iHash <> [] ->
     page_ok iHash (segOf log iHash) (pageOf w iHash).

Lemma length_segOf log i :
  0 <= i ->
  Z.of_nat (length (segOf log i))
  = Z.max 0 (Z.min (pageCap i) (Z.of_nat (length log) - iZeroOf i)).
Proof.
  intros Hi. pose proof (iZeroOf_nonneg i Hi). pose proof (pageCap_range i).
  unfold segOf. rewrite length_take, length_drop. lia.
Qed.

Lemma nthZ_segOf log i j :
  0 <= i -> 0 <= j < pageCap i -> nthZ (segOf log i) j = nthZ log (iZeroOf i + j).
Proof.
  intros Hi Hj. pose proof (iZeroOf_nonneg i Hi). unfold segOf.
  rewrite nthZ_take by lia. unfold nthZ. rewrite lookup_drop. do 2 f_equal. lia.
Qed.

Lemma segOf_take log i m :
  segOf (take m log) i = take (m - Z.to_nat (iZeroOf i)) (segOf log i).
Proof. unfold segOf. rewrite skipn_firstn_comm, !take_take. f_equal. lia. Qed.

Lemma iZeroOf_mono i j : 0 <= i < j -> iZeroOf i + pageCap i <= iZeroOf j.
Proof.
  intros Hij. rewrite <- iZeroOf_succ by lia. unfold iZeroOf.
  change HASHTABLE_NPAGE_ONE with 4062. change HASHTABLE_NPAGE with 4096.
  destruct (Z.eqb_spec (i + 1) 0), (Z.eqb_spec j 0); lia.
Qed.

(** Cutting the log inside page [i] keeps the pages before it. *)
Lemma segOf_take_before log i j m :
  0 <= j < i -> iZeroOf i <= m -> segOf (take (Z.to_nat m) log) j = segOf log j.
Proof.
  intros Hj Hm. rewrite segOf_take. apply take_ge.
  pose proof (iZeroOf_mono j i Hj). pose proof (length_segOf log j ltac:(lia)).
  pose proof (iZeroOf_nonneg j ltac:(lia)). lia.
Qed.

Lemma segOf_after log i : 0 <= i -> Z.of_nat (length log) <= iZeroOf i -> segOf log i = [].
Proof.
  intros Hi Hlen. apply nil_length_inv. pose proof (length_segOf log i Hi).
  pose proof (pageCap_range i). lia.
Qed.

Lemma segOf_snoc log i p :
  0 <= i -> iZeroOf i <= Z.of_nat (length log) < iZeroOf i + pageCap i ->
  segOf (log ++ [p]) i = segOf log i ++ [p].
Proof.
  intros Hi Hlen. pose proof (iZeroOf_nonneg i Hi). unfold segOf.
  rewrite drop_app_le by lia. rewrite !take_ge; [done| |].
  - rewrite length_drop. lia.
  - rewrite length_app, length_drop. simpl. lia.
Qed.

(** [index_ok] for the frames outside page [i]. *)
Definition others_ok (w : Wal) (log : list Z) (i : Z) : Prop :=
  forall j, 0 <= j -> j <> i -> segOf log j <> [] -> page_ok j (segOf log j) (pageOf w j).

Lemma others_ok_take w w' log i m :
  index_ok w log -> 0 <= i -> iZeroOf i <= m <= iZeroOf i + pageCap i ->
  (forall j, 0 <= j -> j <> i -> pageOf w' j = pageOf w j) ->
  others_ok w' (take (Z.to_nat m) log) i.
Proof.
  intros (_ & _ & Hpages) Hi Hm Hsame j Hj Hne Hseg. rewrite Hsame by done.
  destruct (decide (j < i)).
  - rewrite (segOf_take_before log i) in * by lia. by apply Hpages.
  - exfalso. apply Hseg, segOf_after; [done|]. rewrite length_take.
    pose proof (iZeroOf_mono i j). pose proof (iZeroOf_nonneg i Hi). lia.
Qed.

Lemma index_ok_intro w log i :
  Forall (fun p => 0 < p) log -> Z.of_nat (length log) < max_frame ->
  others_ok w log i -> (segOf log i <> [] -> page_ok i (segOf log i) (pageOf w i)) ->
  index_ok w log.
Proof.
  intros Hpos Hlen Hothers Hi. split; [done|]. split; [done|].
  intros j Hj. destruct (decide (j = i)) as [->|Hne]; [done|]. by apply Hothers.
Qed.

Section Operations.
Context (walIndexPage : Z -> Z).

Lemma walHashGet_ok i :
  walIndexPage i = SQLITE_OK -> walHashGet walIndexPage i = Ok (mkLoc i (iZeroOf i)).
Proof.
  intros Hrc. unfold walHashGet, iZeroOf. rewrite Hrc. simpl. by destruct (i =? 0).
Qed.

Lemma walCleanupHash_ok w log :
  index_ok w log -> 0 <= mxFrame (hdr w) <= Z.of_nat (length log) ->
  walIndexPage (walFramePage (mxFrame (hdr w))) = SQLITE_OK ->
  index_ok (walCleanupHash walIndexPage w) (take (Z.to_nat (mxFrame (hdr w))) log).
Proof.
  intros Hok Hm Hrc. pose proof Hok as (Hpos & Hlen & Hpages). unfold walCleanupHash.
  destruct (Z.eqb_spec (mxFrame (hdr w)) 0) as [->|Hnz].
  { simpl. split; [by apply Forall_nil|]. split; [done|]. intros i Hi Hseg.
    exfalso. apply Hseg, segOf_after; [done|]. by apply iZeroOf_nonneg. }
  rewrite walHashGet_ok by done. cbn [loc iZero].
  set (m := mxFrame (hdr w)) in *. set (i := walFramePage m) in *.
  destruct (proj1 (walFramePage_spec m i ltac:(lia)) eq_refl) as [Hi Hrange].
  pose proof (length_segOf log i Hi) as Hseg. pose proof (iZeroOf_nonneg i Hi).
  apply (index_ok_intro _ _ i).
  - by apply Forall_take.
  - rewrite length_take. lia.
  - apply (others_ok_take w); auto; [lia|]. intros j Hj Hne. by apply pageOf_setPage_ne.
  - intros _. rewrite pageOf_setPage, segOf_take.
    replace (Z.to_nat m - Z.to_nat (iZeroOf i))%nat with (Z.to_nat (m - iZeroOf i)) by lia.
    apply page_ok_cut; [|lia]. apply Hpages; [done|].
    intros Hnil. rewrite Hnil in Hseg. simpl in Hseg. lia.
Qed.

(** Everything but the wal-index pages is as in [w]. *)
Definition same_conn (w w' : Wal) : Prop := w' = set_apWiData w (apWiData w').

Lemma same_conn_refl w : same_conn w w.
Proof. by destruct w. Qed.

Lemma same_conn_setPage w w' i pg : same_conn w w' -> same_conn w (setPage w' i pg).
Proof. unfold same_conn. intros ->. by destruct w. Qed.

Lemma same_conn_cleanup w w' : same_conn w w' -> same_conn w (walCleanupHash walIndexPage w').
Proof.
  intros H. unfold walCleanupHash. case_match; [done|]. case_match; [|done].
  by apply same_conn_setPage.
Qed.

Lemma same_conn_hdr w w' : same_conn w w' -> hdr w' = hdr w.
Proof. by intros ->. Qed.

Lemma same_conn_prepare w sLoc idx : same_conn w (appendPrepare walIndexPage w sLoc idx).
Proof.
  unfold appendPrepare. set (w1 := if idx =? 1 then _ else _).
  assert (same_conn w w1).
  { unfold w1. destruct (idx =? 1); [apply same_conn_setPage|]; apply same_conn_refl. }
  case_match; [by apply same_conn_cleanup|done].
Qed.

(** Before the new entry is written, the page of frame [iFrame] holds exactly
    the frames that precede it. *)
Lemma appendPrepare_ok w log iFrame i :
  index_ok w log -> 1 <= iFrame <= Z.of_nat (length log) + 1 -> iFrame < max_frame ->
  (iFrame = Z.of_nat (length log) + 1 \/ mxFrame (hdr w) = iFrame - 1) ->
  i = walFramePage iFrame -> walIndexPage i = SQLITE_OK ->
  let w' := appendPrepare walIndexPage w (mkLoc i (iZeroOf i)) (iFrame - iZeroOf i) in
  let log' := take (Z.to_nat (iFrame - 1)) log in
  others_ok w' log' i /\ page_ok i (segOf log' i) (pageOf w' i).
Proof.
  intros Hok Hf Hmax Hcase Hi0 Hrc. pose proof Hok as (Hpos & Hlen & Hpages).
  destruct (proj1 (walFramePage_spec iFrame i ltac:(lia)) ltac:(done)) as [Hi Hrange].
  pose proof (iZeroOf_nonneg i Hi) as Hz. pose proof (length_segOf log i Hi) as Hseg.
  unfold appendPrepare. cbn [loc iZero]. destruct (Z.eqb_spec (iFrame - iZeroOf i) 1) as [E|E].
  - rewrite pageOf_setPage, E.
    rewrite (nthZ_replicate _ _ : nthZ (aPgno (zeroPage i)) (1 - 1) = 0).
    simpl negb. cbv iota. split.
    + apply (others_ok_take w); auto; [lia|]. intros. by apply pageOf_setPage_ne.
    + rewrite pageOf_setPage, segOf_after; [apply page_ok_zero|done|].
      rewrite length_take. lia.
  - assert (page_ok i (segOf log i) (pageOf w i)) as Hpg.
    { apply Hpages; [done|]. intros Hnil. rewrite Hnil in Hseg. simpl in Hseg. lia. }
    rewrite (page_pgno_nth _ _ _ _ Hpg) by lia.
    destruct (Z.ltb_spec (iFrame - iZeroOf i - 1) (Z.of_nat (length (segOf log i)))) as [Hlt|Hge].
    + rewrite nthZ_segOf by lia.
      replace (iZeroOf i + (iFrame - iZeroOf i - 1)) with (iFrame - 1) by lia.
      assert (0 < nthZ log (iFrame - 1)) as Hp.
      { rewrite Forall_forall in Hpos. unfold nthZ.
        destruct (log !! Z.to_nat (iFrame - 1)) as [x|] eqn:Ex; simpl.
        - apply Hpos. by eapply list_elem_of_lookup_2.
        - apply lookup_ge_None in Ex. lia. }
      destruct (Z.eqb_spec (nthZ log (iFrame - 1)) 0); [lia|]. simpl negb. cbv iota.
      destruct Hcase as [|Hm]; [lia|].
      assert (walFramePage (iFrame - 1) = i) as Hfp.
      { apply walFramePage_spec; lia. }
      destruct (walCleanupHash_ok w log Hok) as (_ & _ & Hpages');
        [lia|by rewrite Hm, Hfp|]. rewrite Hm in Hpages'. split.
      * intros j Hj Hne. apply Hpages'. done.
      * apply Hpages'; [done|]. intros Hnil. pose proof (length_segOf
          (take (Z.to_nat (iFrame - 1)) log) i Hi) as Hseg'.
        rewrite Hnil, length_take in Hseg'. simpl in Hseg'. lia.
    + rewrite Z.eqb_refl. simpl negb. cbv iota.
      assert (iFrame - 1 = Z.of_nat (length log)) as -> by lia.
      rewrite Nat2Z.id, take_ge by lia. split; [|done].
      intros j Hj Hne. by apply Hpages.
Qed.

Lemma walIndexAppend_ok w log iFrame iPage :
  index_ok w log -> 0 < iPage -> 1 <= iFrame <= Z.of_nat (length log) + 1 ->
  iFrame < max_frame ->
  (iFrame = Z.of_nat (length log) + 1 \/ mxFrame (hdr w) = iFrame - 1) ->
  walIndexPage (walFramePage iFrame) = SQLITE_OK ->
  exists w', walIndexAppend walIndexPage w iFrame iPage = (SQLITE_OK, w')
    /\ same_conn w w' /\ index_ok w' (take (Z.to_nat (iFrame - 1)) log ++ [iPage]).
Proof.
  intros Hok Hp Hf Hmax Hcase Hrc. unfold walIndexAppend.
  set (i := walFramePage iFrame) in *. rewrite walHashGet_ok by done. cbn [loc iZero].
  destruct (proj1 (walFramePage_spec iFrame i ltac:(lia)) eq_refl) as [Hi Hrange].
  destruct (appendPrepare_ok w log iFrame i) as [Hothers Hpg]; auto.
  pose proof (same_conn_prepare w (mkLoc i (iZeroOf i)) (iFrame - iZeroOf i)) as Hsame.
  revert Hothers Hpg Hsame. generalize (appendPrepare walIndexPage w (mkLoc i (iZeroOf i))
    (iFrame - iZeroOf i)) as w1. intros w1 Hothers Hpg Hsame.
  set (log' := take (Z.to_nat (iFrame - 1)) log) in *.
  assert (length log' = Z.to_nat (iFrame - 1)) as Hlen'.
  { unfold log'. rewrite length_take. lia. }
  pose proof (length_segOf log' i Hi) as Hseg. pose proof (iZeroOf_nonneg i Hi).
  destruct (page_ok_append i _ _ iPage Hpg) as (iKey & Hkey & Hpg'); [lia|].
  replace (Z.to_nat (iFrame - iZeroOf i)) with (S (length (segOf log' i))) by lia.
  rewrite Hkey. eexists. split; [done|]. split; [by apply same_conn_setPage|].
  replace (iFrame - iZeroOf i - 1) with (Z.of_nat (length (segOf log' i))) by lia.
  replace (iFrame - iZeroOf i) with (Z.of_nat (length (segOf log' i)) + 1) by lia.
  destruct Hok as (Hpos & _ & _). apply (index_ok_intro _ _ i).
  - apply Forall_app_2; [by apply Forall_take|by apply Forall_singleton].
  - rewrite length_app. simpl. lia.
  - intros j Hj Hne Hnil. rewrite pageOf_setPage_ne by done.
    destruct (decide (j < i)).
    + replace log' with (take (Z.to_nat (iFrame - 1)) (log' ++ [iPage])) in Hothers
        by (rewrite take_app_le by lia; apply take_ge; lia).
      pose proof (Hothers j Hj Hne) as Hj'.
      rewrite (segOf_take_before _ i) in Hj' by lia. by apply Hj'.
    + exfalso. apply Hnil, segOf_after; [done|]. rewrite length_app. simpl.
      pose proof (iZeroOf_mono i j). lia.
  - intros _. rewrite pageOf_setPage, segOf_snoc by lia. done.
Qed.

End Operations.

(** ** Lookup *)

(** The linear search that walFindFrame asserts equal to its result under
    SQLITE_ENABLE_EXPENSIVE_ASSERT: the newest frame of page [pgno] among
    frames [lo..n]. *)
Fixpoint lookBack (log : list Z) (pgno lo : Z) (n : nat) : Z :=
  match n with
  | O => 0
  | S n' =>
      if Z.of_nat n <? lo then 0
      else if nthZ log (Z.of_nat n') =? pgno then Z.of_nat n
      else lookBack log pgno lo n'
  end.

Lemma lookBack_none log pgno lo n :
  (forall f, 1 <= f <= Z.of_nat n -> lo <= f -> nthZ log (f - 1) <> pgno) ->
  lookBack log pgno lo n = 0.
Proof.
  induction n as [|n IH]; intros H; cbn [lookBack]; [done|].
  destruct (Z.ltb_spec (Z.of_nat (S n)) lo); [done|].
  destruct (Z.eqb_spec (nthZ log (Z.of_nat n)) pgno) as [E|_].
  - exfalso. apply (H (Z.of_nat (S n))); [lia|lia|]. rewrite <- E. f_equal. lia.
  - apply IH. intros f Hf. apply H. lia.
Qed.

Lemma lookBack_some log pgno lo n f :
  1 <= f <= Z.of_nat n -> lo <= f -> nthZ log (f - 1) = pgno ->
  (forall f', f < f' <= Z.of_nat n -> nthZ log (f' - 1) <> pgno) ->
  lookBack log pgno lo n = f.
Proof.
  intros Hf Hlo Hp. induction n as [|n IH]; intros Hlast; cbn [lookBack]; [lia|].
  destruct (Z.ltb_spec (Z.of_nat (S n)) lo); [lia|].
  destruct (Z.eqb_spec (nthZ log (Z.of_nat n)) pgno) as [E|E].
  - destruct (decide (f = Z.of_nat (S n))) as [->|]; [done|].
    exfalso. apply (Hlast (Z.of_nat (S n))); [lia|]. rewrite <- E. f_equal. lia.
  - apply IH.
    + split; [lia|]. destruct (decide (f = Z.of_nat (S n))) as [->|]; [|lia].
      exfalso. apply E. rewrite <- Hp. f_equal. lia.
    + intros f' Hf'. apply Hlast. lia.
Qed.

Lemma lookBack_inv log p lo n f :
  lookBack log p lo n = f -> f <> 0 ->
  1 <= f <= Z.of_nat n /\ nthZ log (f - 1) = p
  /\ forall f', f < f' <= Z.of_nat n -> nthZ log (f' - 1) <> p.
Proof.
  intros <-. induction n as [|n IH]; cbn [lookBack]; [done|].
  destruct (Z.ltb_spec (Z.of_nat (S n)) lo); [done|].
  destruct (Z.eqb_spec (nthZ log (Z.of_nat n)) p) as [E|E].
  - intros _. split; [lia|]. split; [rewrite <- E; f_equal; lia|]. intros f' Hf. lia.
  - intros Hne. destruct (IH Hne) as (H1 & H2 & H3). split; [lia|]. split; [done|].
    intros f' Hf. destruct (decide (f' = Z.of_nat (S n))) as [->|]; [|apply H3; lia].
    by replace (Z.of_nat (S n) - 1) with (Z.of_nat n) by lia.
Qed.

(** Only the frames up to [n] matter. *)
Lemma lookBack_prefix log log' pgno lo n :
  take n log = take n log' -> lookBack log pgno lo n = lookBack log' pgno lo n.
Proof.
  intros Heq. assert (forall f, 1 <= f <= Z.of_nat n -> nthZ log (f - 1) = nthZ log' (f - 1)) as H.
  { intros f Hf. rewrite <- (nthZ_take log n), <- (nthZ_take log' n), Heq by lia. done. }
  clear Heq. induction n as [|n IH]; cbn [lookBack]; [done|].
  destruct (Z.of_nat (S n) <? lo); [done|].
  specialize (H (Z.of_nat (S n)) ltac:(lia)) as Hn.
  replace (Z.of_nat (S n) - 1) with (Z.of_nat n) in Hn by lia. rewrite Hn, IH; [done|].
  intros f Hf. apply H. lia.
Qed.

(** Frames above [m] and up to [n] that do not match can be skipped. *)
Lemma lookBack_skip log pgno lo m n :
  (m <= n)%nat ->
  (forall f, Z.of_nat m < f <= Z.of_nat n -> lo <= f -> nthZ log (f - 1) <> pgno) ->
  lookBack log pgno lo n = lookBack log pgno lo m.
Proof.
  intros Hmn H. induction n as [|n IH]; [by replace m with 0%nat by lia|].
  destruct (decide (m = S n)) as [->|]; [done|]. cbn [lookBack].
  destruct (Z.ltb_spec (Z.of_nat (S n)) lo).
  - symmetry. apply lookBack_none. intros f Hf Hlo. lia.
  - destruct (Z.eqb_spec (nthZ log (Z.of_nat n)) pgno) as [E|_].
    + exfalso. apply (H (Z.of_nat (S n))); [lia|lia|]. rewrite <- E. f_equal. lia.
    + apply IH; [lia|]. intros f Hf. apply H. lia.
Qed.

Section Find.
Context (w : Wal) (pgno iLast i : Z) (seg : list Z).
Hypothesis Hpage : page_ok i seg (pageOf w i).
Hypothesis Hi : 0 <= i.
Hypothesis Hmax : iZeroOf i + Z.of_nat (length seg) < max_frame.

Local Abbreviation t := (nthZ (aHash (pageOf w i))).
Local Abbreviation visit c := (t (slot HASHTABLE_NSLOT (walHash pgno) c)).

(** Entry [v] of the table is a frame that the reader may use. *)
Definition hit (v : Z) : Prop :=
  iZeroOf i + v <= iLast /\ minFrame w <= iZeroOf i + v /\ nthZ seg (v - 1) = pgno.

(** [iRead] after the first [d] slots. *)
Definition found (d iRead : Z) : Prop :=
  (iRead = 0 /\ forall c, 0 <= c < d -> ~ hit (visit c))
  \/ exists c, 0 <= c < d /\ hit (visit c) /\ iRead = iZeroOf i + visit c
       /\ forall c', 0 <= c' < d -> hit (visit c') -> visit c' <= visit c.

Lemma found_step d iRead :
  found d iRead -> 0 <= d < HASHTABLE_NSLOT -> visit d <> 0 ->
  let iFrame := u32 (visit d + iZeroOf i) in
  found (d + 1)
    (if (iFrame <=? iLast) && (minFrame w <=? iFrame)
        && (nthZ (aPgno (pageOf w i)) (visit d - 1) =? pgno)
     then iFrame else iRead).
Proof using Hpage Hi Hmax.
  intros Hf Hd Hnz iFrame. pose proof (page_table _ _ _ Hpage) as Htab.
  pose proof (slot_range HASHTABLE_NSLOT NSLOT_pos (walHash pgno) d) as Hs.
  pose proof (table_range _ _ Htab _ Hs) as Hv. pose proof (iZeroOf_nonneg i Hi).
  assert (iFrame = iZeroOf i + visit d) as ->.
  { unfold iFrame, max_frame in *. rewrite u32_small; lia. }
  rewrite (page_pgno_nth _ _ _ _ Hpage) by lia.
  destruct (Z.ltb_spec (visit d - 1) (Z.of_nat (length seg))); [|lia].
  destruct (_ && _) eqn:Ehit.
  - apply andb_true_iff in Ehit as [[H1%Z.leb_le H2%Z.leb_le]%andb_true_iff H3%Z.eqb_eq].
    right. exists d. split; [lia|]. split; [by split|]. split; [done|]. intros c' Hc' _.
    destruct (decide (c' = d)) as [->|]; [lia|].
    pose proof (table_chain _ _ Htab (slot HASHTABLE_NSLOT (walHash pgno) d) c' Hs Hnz) as Hch.
    rewrite H3, dist_slot in Hch by done. lia.
  - assert (~ hit (visit d)) as Hno.
    { intros (H1%Z.leb_le & H2%Z.leb_le & H3%Z.eqb_eq). by rewrite H1, H2, H3 in Ehit. }
    destruct Hf as [[-> Hf]|(c & Hc & Hhit & -> & Hle)]; [left|right].
    + split; [done|]. intros c Hc. destruct (decide (c = d)) as [->|]; [done|]. apply Hf. lia.
    + exists c. split; [lia|]. split; [done|]. split; [done|]. intros c' Hc' Hhit'.
      destruct (decide (c' = d)) as [->|]; [done|]. apply Hle; [lia|done].
Qed.

Lemma findProbe_found n d e iRead :
  0 <= d <= e -> e < HASHTABLE_NSLOT -> e - d <= Z.of_nat n -> visit e = 0 ->
  (forall c, d <= c < e -> visit c <> 0) -> found d iRead ->
  exists r, findProbe n w (mkLoc i (iZeroOf i)) pgno iLast
              (slot HASHTABLE_NSLOT (walHash pgno) d) iRead = Some r /\ found e r.
Proof using Hpage Hi Hmax.
  revert d iRead. induction n as [|n IH]; intros d iRead Hde He Hn H0 Hb Hf;
    cbn [findProbe loc iZero].
  - assert (d = e) as -> by lia. rewrite H0, Z.eqb_refl. by exists iRead.
  - destruct (decide (d = e)) as [->|Hne]; [rewrite H0, Z.eqb_refl; by exists iRead|].
    specialize (Hb d ltac:(lia)) as Hnz.
    destruct (Z.eqb_spec (visit d) 0); [done|]. rewrite walNextHash_slot.
    apply IH; try done; try lia.
    + intros c Hc. apply Hb. lia.
    + apply found_step; [done|lia|done].
Qed.

(** The walk of the table visits every usable entry. *)
Lemma hit_visited e j :
  visit e = 0 -> 0 <= e < HASHTABLE_NSLOT -> 1 <= j <= Z.of_nat (length seg) -> hit j ->
  exists c, 0 <= c < e /\ visit c = j.
Proof using Hpage Hi.
  intros H0 He Hj Hhit. pose proof (page_table _ _ _ Hpage) as Htab.
  destruct (table_surj _ _ Htab j Hj) as (k & Hk & Htk).
  pose proof (dist_range HASHTABLE_NSLOT NSLOT_pos (walHash pgno) k) as Hd.
  exists (dist HASHTABLE_NSLOT (walHash pgno) k). rewrite slot_dist by done.
  split; [|done]. split; [lia|].
  destruct (Z.lt_trichotomy (dist HASHTABLE_NSLOT (walHash pgno) k) e) as [|[Heq|Hgt]]; [done| |].
  - rewrite <- Heq, slot_dist in H0 by done. lia.
  - destruct Hhit as (_ & _ & Hp).
    pose proof (table_chain _ _ Htab k e Hk ltac:(lia)) as Hch. rewrite Htk, Hp in Hch. lia.
Qed.

Lemma findProbe_page :
  exists r, findProbe (Z.to_nat HASHTABLE_NSLOT) w (mkLoc i (iZeroOf i)) pgno iLast
              (walHash pgno) 0 = Some r
    /\ ((r = 0 /\ forall j, 1 <= j <= Z.of_nat (length seg) -> ~ hit j)
        \/ exists j, 1 <= j <= Z.of_nat (length seg) /\ hit j /\ r = iZeroOf i + j
             /\ forall j', 1 <= j' <= Z.of_nat (length seg) -> hit j' -> j' <= j).
Proof using Hpage Hi Hmax.
  pose proof (page_table _ _ _ Hpage) as Htab. pose proof (page_len_slots _ _ _ Hpage) as Hlen.
  destruct (table_first_empty _ _ (walHash pgno) Htab (walHash_range pgno) Hlen)
    as (e & He & H0 & Hb).
  destruct (findProbe_found (Z.to_nat HASHTABLE_NSLOT) 0 e 0) as (r & Hr & Hfound);
    [lia|lia|lia|done|intros; apply Hb; lia|left; split; [done|lia]|].
  rewrite slot_0 in Hr by (done || apply walHash_range). exists r. split; [done|].
  destruct Hfound as [[-> Hno]|(c & Hc & Hhit & -> & Hle)]; [left|right].
  - split; [done|]. intros j Hj Hhit.
    destruct (hit_visited e j H0 ltac:(lia) Hj Hhit) as (c & Hc & <-). by apply (Hno c).
  - pose proof (table_range _ _ Htab _ (slot_range HASHTABLE_NSLOT NSLOT_pos (walHash pgno) c)).
    specialize (Hb c Hc). exists (visit c). split; [lia|]. split; [done|]. split; [done|].
    intros j' Hj' Hhit'.
    destruct (hit_visited e j' H0 ltac:(lia) Hj' Hhit') as (c' & Hc' & <-). by apply Hle.
Qed.
End Find.

Section Lookup.
Context (walIndexPage : Z -> Z).

Lemma findLoop_ok n w log pgno iLast iHash :
  index_ok w log -> 0 <= iLast <= Z.of_nat (length log) -> 0 <= minFrame w < max_frame ->
  (forall i, 0 <= i <= walFramePage iLast -> walIndexPage i = SQLITE_OK) ->
  n = Z.to_nat (iHash - walFramePage (minFrame w) + 1) ->
  walFramePage (minFrame w) - 1 <= iHash -> -1 <= iHash -> iHash <= walFramePage iLast ->
  0 < iLast ->
  findLoop walIndexPage n w pgno iLast iHash
  = Ok (lookBack log pgno (minFrame w) (Z.to_nat (Z.min iLast (iZeroOf (iHash + 1))))).
Proof.
  intros Hok HiLast Hmin Hmap. revert iHash.
  pose proof Hok as (Hpos & Hlen & Hpages). pose proof (walFramePage_nonneg (minFrame w)) as Hm0.
  induction n as [|n IH]; intros iHash Hn Hlow Hneg Hhigh Hl; cbn [findLoop].
  - rewrite lookBack_none; [done|]. intros f Hf Hlo _.
    assert (iHash + 1 = walFramePage (minFrame w)) as E by lia.
    destruct (decide (minFrame w = 0)) as [Hz|Hz].
    + rewrite Hz, walFramePage_0 in E. rewrite E in Hf. change (iZeroOf 0) with 0 in Hf. lia.
    + pose proof (proj1 (walFramePage_spec (minFrame w) _ ltac:(lia)) eq_refl). rewrite E in Hf. lia.
  - assert (0 <= iHash) as Hi by lia. rewrite walHashGet_ok by (apply Hmap; lia).
    pose proof (proj1 (walFramePage_spec iLast _ ltac:(lia)) eq_refl) as [Hi0 HLrange].
    pose proof (length_segOf log iHash Hi) as Hseg. pose proof (iZeroOf_nonneg iHash Hi).
    assert (iZeroOf iHash < iLast) as HZ.
    { destruct (decide (iHash = walFramePage iLast)) as [->|]; [lia|].
      pose proof (iZeroOf_mono iHash (walFramePage iLast)). pose proof (pageCap_range iHash). lia. }
    pose proof (pageCap_range iHash) as Hcap. rewrite iZeroOf_succ by done.
    assert (page_ok iHash (segOf log iHash) (pageOf w iHash)) as Hpg.
    { apply Hpages; [done|]. intros Hnil. rewrite Hnil in Hseg. simpl in Hseg. lia. }
    destruct (findProbe_page w pgno iLast iHash (segOf log iHash) Hpg Hi ltac:(lia))
      as (r & -> & Hr).
    assert (forall f, iZeroOf iHash < f <= Z.min iLast (iZeroOf iHash + pageCap iHash) ->
      1 <= f - iZeroOf iHash <= Z.of_nat (length (segOf log iHash))
      /\ nthZ (segOf log iHash) (f - iZeroOf iHash - 1) = nthZ log (f - 1)) as Hframe.
    { intros f Hf. split; [lia|]. rewrite nthZ_segOf by lia. f_equal. lia. }
    destruct Hr as [[-> Hno]|(j & Hj & (H1 & H2 & H3) & -> & Hmax)].
    + simpl. rewrite IH; try lia. replace (iHash - 1 + 1) with iHash by lia. f_equal.
      rewrite (Z.min_r iLast (iZeroOf iHash)) by lia. symmetry. apply lookBack_skip; [lia|].
      intros f Hf Hlo Hp. destruct (Hframe f) as [Hr Hs]; [lia|].
      apply (Hno (f - iZeroOf iHash) Hr). unfold hit. rewrite Hs. repeat split; try lia; done.
    + destruct (Z.eqb_spec (iZeroOf iHash + j) 0); [lia|]. f_equal. symmetry.
      destruct (Hframe (iZeroOf iHash + j)) as [_ Hs]; [lia|].
      replace (iZeroOf iHash + j - iZeroOf iHash) with j in Hs by lia.
      apply lookBack_some; [lia|lia|congruence|].
      intros f' Hf' Hp. destruct (Hframe f') as [Hr' Hs']; [lia|].
      specialize (Hmax (f' - iZeroOf iHash) Hr'). unfold hit in Hmax. rewrite Hs' in Hmax.
      lia.
Qed.

Lemma walFindFrame_ok w log pgno iLast :
  index_ok w log -> 0 <= iLast <= Z.of_nat (length log) -> 0 <= minFrame w < max_frame ->
  (readLock w <> 0 \/ bShmUnreliable w = true) ->
  (forall i, 0 <= i <= walFramePage iLast -> walIndexPage i = SQLITE_OK) ->
  walFindFrame walIndexPage w pgno iLast
  = Ok (lookBack log pgno (minFrame w) (Z.to_nat iLast)).
Proof.
  intros Hok HiLast Hmin Hlock Hmap. unfold walFindFrame.
  destruct (Z.eqb_spec iLast 0) as [->|Hnz]; [done|].
  replace ((readLock w =? 0) && negb (bShmUnreliable w)) with false.
  2:{ destruct Hlock as [H%Z.eqb_neq|H]; rewrite H; [done|]. by destruct (_ =? _). }
  cbn [orb]. pose proof Hok as (_ & Hlen & _).
  pose proof (proj1 (walFramePage_spec iLast _ ltac:(lia)) eq_refl) as [Hi0 HLrange].
  destruct (Z.le_gt_cases (walFramePage (minFrame w)) (walFramePage iLast)) as [Hle|Hgt].
  - rewrite (findLoop_ok _ w log); try done; try lia.
    rewrite iZeroOf_succ, Z.min_l by lia. done.
  - replace (Z.to_nat _) with 0%nat by lia. cbn [findLoop]. f_equal. symmetry.
    apply lookBack_none. intros f Hf Hlo _.
    pose proof (walFramePage_nonneg (minFrame w)).
    destruct (decide (minFrame w = 0)) as [Hz|Hz]; [rewrite Hz, walFramePage_0 in Hgt; lia|].
    pose proof (proj1 (walFramePage_spec (minFrame w) _ ltac:(lia)) eq_refl).
    pose proof (iZeroOf_mono (walFramePage iLast) (walFramePage (minFrame w))). lia.
Qed.

End Lookup.

(** The invariant is about the shared pages only. *)
Lemma index_ok_pages w w' log : apWiData w' = apWiData w -> index_ok w log -> index_ok w' log.
Proof.
  intros Heq (Hpos & Hlen & Hpages). split; [done|]. split; [done|].
  intros i Hi Hseg. unfold pageOf. rewrite Heq. by apply Hpages.
Qed.

Lemma index_ok_empty w : index_ok w [].
Proof.
  split; [by apply Forall_nil|]. split; [done|]. intros i Hi Hseg. exfalso.
  apply Hseg, segOf_after; [done|]. by apply iZeroOf_nonneg.
Qed.

(** ** Writers and readers

    A writer appends frames, rolls back to an earlier frame and publishes a
    new header; [keep] is a number of frames that it never goes below. *)
Section Steps.
Context (walIndexPage : Z -> Z) (keep : Z).

Inductive index_step : Wal * list Z -> Wal * list Z -> Prop :=
| step_append w w' log iFrame iPage :
    0 < iPage -> keep < iFrame <= Z.of_nat (length log) + 1 -> iFrame < max_frame ->
    (iFrame = Z.of_nat (length log) + 1 \/ mxFrame (hdr w) = iFrame - 1) ->
    walIndexPage (walFramePage iFrame) = SQLITE_OK ->
    walIndexAppend walIndexPage w iFrame iPage = (SQLITE_OK, w') ->
    index_step (w, log) (w', take (Z.to_nat (iFrame - 1)) log ++ [iPage])
| step_cleanup w log :
    keep <= mxFrame (hdr w) <= Z.of_nat (length log) ->
    walIndexPage (walFramePage (mxFrame (hdr w))) = SQLITE_OK ->
    index_step (w, log)
      (walCleanupHash walIndexPage w, take (Z.to_nat (mxFrame (hdr w))) log)
| step_header w log h : index_step (w, log) (set_hdr w h, log).

Lemma index_step_ok s s' :
  0 <= keep -> index_step s s' -> index_ok s.1 s.2 -> keep <= Z.of_nat (length s.2) ->
  index_ok s'.1 s'.2 /\ keep <= Z.of_nat (length s'.2)
  /\ take (Z.to_nat keep) s'.2 = take (Z.to_nat keep) s.2.
Proof.
  intros Hkeep Hstep. destruct Hstep as [w w' log iFrame iPage Hp Hf Hmax Hcase Hrc Happ
    |w log Hm Hrc|w log h]; cbn [fst snd]; intros Hok Hlen.
  - destruct (walIndexAppend_ok walIndexPage w log iFrame iPage) as (w1 & E & _ & Hok');
      auto; [lia|].
    rewrite Happ in E. injection E as <-. split; [done|]. rewrite length_app, length_take. simpl.
    split; [lia|]. rewrite take_app_le by (rewrite length_take; lia).
    rewrite take_take. f_equal. lia.
  - split; [apply walCleanupHash_ok; auto; lia|]. rewrite length_take. split; [lia|].
    rewrite take_take. f_equal. lia.
  - split; [by eapply index_ok_pages; [|exact Hok]|]. done.
Qed.

Lemma index_steps_ok s s' :
  0 <= keep -> rtc index_step s s' -> index_ok s.1 s.2 -> keep <= Z.of_nat (length s.2) ->
  index_ok s'.1 s'.2 /\ keep <= Z.of_nat (length s'.2)
  /\ take (Z.to_nat keep) s'.2 = take (Z.to_nat keep) s.2.
Proof.
  intros Hkeep Hsteps. induction Hsteps as [s|s s1 s2 Hstep _ IH]; intros Hok Hlen; [done|].
  destruct (index_step_ok s s1 Hkeep Hstep Hok Hlen) as (Hok1 & Hlen1 & Heq1).
  destruct (IH Hok1 Hlen1) as (Hok2 & Hlen2 & Heq2). by rewrite Heq2.
Qed.
End Steps.

(** A wal-index with no page written, all of whose pages can be mapped. *)
Definition emptyWal : Wal :=
  mkWal ∅ (zeroHdr, zeroHdr) (mkInfo 0 (replicate 5 0) 0) 4096 1 true false 0 false
    zeroHdr 1 0 0 false false false (-1) 0.
Definition mapped (_ : Z) : Z := SQLITE_OK.

(** ** Properties *)

(** C19: appending frame [iFrame] for page [iPage] never reports corruption
    and leaves an index of exactly the frames before [iFrame] followed by the
    new one, also when a writer that died left later frames in the index. *)
Theorem walIndexAppend_refines walIndexPage w log iFrame iPage :
  index_ok w log -> 0 < iPage -> 1 <= iFrame <= Z.of_nat (length log) + 1 ->
  iFrame < max_frame ->
  (iFrame = Z.of_nat (length log) + 1 \/ mxFrame (hdr w) = iFrame - 1) ->
  walIndexPage (walFramePage iFrame) = SQLITE_OK ->
  exists w', walIndexAppend walIndexPage w iFrame iPage = (SQLITE_OK, w')
    /\ same_conn w w' /\ index_ok w' (take (Z.to_nat (iFrame - 1)) log ++ [iPage]).
Proof. apply walIndexAppend_ok. Qed.

Lemma walIndexAppend_refines_witness :
  exists w', walIndexAppend mapped emptyWal 1 5 = (SQLITE_OK, w') /\ index_ok w' [5].
Proof.
  destruct (walIndexAppend_refines mapped emptyWal [] 1 5) as (w' & H & _ & Hok);
    [apply index_ok_empty|lia|simpl; lia|done|by left|done|].
  exists w'. split; [exact H|exact Hok].
Defined.

(** After a rollback, [walCleanupHash] leaves an index of exactly the
    frames up to [mxFrame]; every one of them is still found. *)
Theorem walCleanupHash_refines walIndexPage w log :
  index_ok w log -> 0 <= mxFrame (hdr w) <= Z.of_nat (length log) ->
  walIndexPage (walFramePage (mxFrame (hdr w))) = SQLITE_OK ->
  same_conn w (walCleanupHash walIndexPage w)
  /\ index_ok (walCleanupHash walIndexPage w) (take (Z.to_nat (mxFrame (hdr w))) log).
Proof.
  intros. split; [apply same_conn_cleanup, same_conn_refl|by apply walCleanupHash_ok].
Qed.

Lemma walCleanupHash_refines_witness :
  exists w, index_ok w [5; 7] /\ mxFrame (hdr w) = 1
    /\ index_ok (walCleanupHash mapped w) [5].
Proof.
  destruct (walIndexAppend_ok mapped emptyWal [] 1 5) as (w1 & _ & S1 & Hok1);
    [apply index_ok_empty|lia|simpl; lia|done|by left|done|].
  destruct (walIndexAppend_ok mapped w1 [5] 2 7) as (w2 & _ & _ & Hok2);
    [exact Hok1|lia|simpl; lia|done|by left|done|].
  exists (set_hdr w2 (set_mxFrame zeroHdr 1)).
  assert (index_ok (set_hdr w2 (set_mxFrame zeroHdr 1)) [5; 7]) as Hok
    by (by apply (index_ok_pages w2)).
  split; [exact Hok|]. split; [reflexivity|].
  exact (proj2 (walCleanupHash_refines mapped _ [5; 7] Hok ltac:(simpl; lia) eq_refl)).
Defined.

(** C11: [walFindFrame] returns the newest frame of page [pgno] among the
    frames [minFrame..iLast], or 0 when there is none: the result of the
    linear search that the code asserts under SQLITE_ENABLE_EXPENSIVE_ASSERT.
    It never reports corruption. *)
Theorem walFindFrame_refines walIndexPage w log pgno iLast :
  index_ok w log -> 0 <= iLast <= Z.of_nat (length log) -> 0 <= minFrame w < max_frame ->
  (readLock w <> 0 \/ bShmUnreliable w = true) ->
  (forall i, 0 <= i <= walFramePage iLast -> walIndexPage i = SQLITE_OK) ->
  walFindFrame walIndexPage w pgno iLast
  = Ok (lookBack log pgno (minFrame w) (Z.to_nat iLast)).
Proof. apply walFindFrame_ok. Qed.

Lemma walFindFrame_refines_witness :
  exists w, index_ok w [5; 7; 5] /\ walFindFrame mapped w 5 3 = Ok 3
    /\ walFindFrame mapped w 5 2 = Ok 1.
Proof.
  destruct (walIndexAppend_ok mapped emptyWal [] 1 5) as (w1 & _ & S1 & Hok1);
    [apply index_ok_empty|lia|simpl; lia|done|by left|done|].
  destruct (walIndexAppend_ok mapped w1 [5] 2 7) as (w2 & _ & S2 & Hok2);
    [exact Hok1|lia|simpl; lia|done|by left|done|].
  destruct (walIndexAppend_ok mapped w2 [5; 7] 3 5) as (w3 & _ & S3 & Hok3);
    [exact Hok2|lia|simpl; lia|done|by left|done|].
  assert (minFrame w3 = 1 /\ readLock w3 = 1) as [Hm Hr]
    by (rewrite S3, S2, S1; split; reflexivity).
  exists w3. split; [exact Hok3|]. split.
  - rewrite (walFindFrame_refines mapped w3 [5; 7; 5] 5 3 Hok3);
      [rewrite Hm; reflexivity|simpl; lia|rewrite Hm; done|left; rewrite Hr; done|done].
  - rewrite (walFindFrame_refines mapped w3 [5; 7; 5] 5 2 Hok3);
      [rewrite Hm; reflexivity|simpl; lia|rewrite Hm; done|left; rewrite Hr; done|done].
Defined.

(** C35: snapshot isolation of lookups: whatever a writer appends, rolls back
    or publishes above the last frame [iLast] of a reader's snapshot, the
    reader finds the same frame for every page. *)
Theorem snapshot_stable walIndexPage w log w' log' r pgno iLast :
  rtc (index_step walIndexPage iLast) (w, log) (w', log') ->
  index_ok w log -> 0 <= iLast <= Z.of_nat (length log) -> 0 <= minFrame r < max_frame ->
  (forall i, 0 <= i <= walFramePage iLast -> walIndexPage i = SQLITE_OK) ->
  walFindFrame walIndexPage (set_apWiData r (apWiData w')) pgno iLast
  = walFindFrame walIndexPage (set_apWiData r (apWiData w)) pgno iLast.
Proof.
  intros Hsteps Hok HiLast Hmin Hmap.
  destruct (index_steps_ok walIndexPage iLast _ _ ltac:(lia) Hsteps Hok ltac:(simpl; lia))
    as (Hok' & Hlen' & Htake). simpl in Hok', Hlen', Htake.
  destruct (decide (readLock r <> 0 \/ bShmUnreliable r = true)) as [Hlock|Hlock].
  - rewrite (walFindFrame_ok _ _ log'), (walFindFrame_ok _ _ log); try done; try (simpl; lia).
    f_equal. simpl. by apply lookBack_prefix.
  - unfold walFindFrame. simpl. destruct (Z.eqb_spec (readLock r) 0); [|tauto].
    destruct (bShmUnreliable r); [tauto|]. by rewrite orb_true_r.
Qed.

Lemma snapshot_stable_witness :
  exists w1 w2, walFindFrame mapped (set_apWiData emptyWal (apWiData w1)) 5 1 = Ok 1
    /\ walIndexAppend mapped w1 2 5 = (SQLITE_OK, w2)
    /\ walFindFrame mapped (set_apWiData emptyWal (apWiData w2)) 5 1 = Ok 1.
Proof.
  destruct (walIndexAppend_ok mapped emptyWal [] 1 5) as (w1 & _ & S1 & Hok1);
    [apply index_ok_empty|lia|simpl; lia|done|by left|done|].
  destruct (walIndexAppend_ok mapped w1 [5] 2 5) as (w2 & E2 & S2 & Hok2);
    [exact Hok1|lia|simpl; lia|done|by left|done|].
  assert (walFindFrame mapped (set_apWiData emptyWal (apWiData w1)) 5 1 = Ok 1) as H1.
  { rewrite (walFindFrame_ok mapped _ [5]); try done; by left. }
  exists w1, w2. split; [exact H1|]. split; [exact E2|].
  rewrite (snapshot_stable mapped w1 [5] w2 [5; 5] emptyWal 5 1); try done.
  apply rtc_once. apply (step_append mapped 1 w1 w2 [5] 2 5); try done; by left.
Defined.
