(* ===== verification/WalSort.v ===== *)
(** * src/libsql-sqlite3/src/wal.c: sorting the frames of a wal-index page

    [walMergesort] sorts, in place and without recursion, the indices of the
    frames of one wal-index page by page number, keeping for each page number
    the largest index only.  The array is modelled as it is in memory: the
    sublists are slices (offset and length) of one array, and a merge
    overwrites the left slice. *)

From stdpp Require Import base list numbers option sets sorting.
From S2P Require Import Prelude.
#[local] Open Scope Z_scope.

(** ** Slices of an array *)

Definition slice (a : list Z) (off n : nat) : list Z := take n (drop off a).

(** [memcpy] of [d] at offset [off]. *)
Definition splice (a : list Z) (off : nat) (d : list Z) : list Z :=
  take off a ++ d ++ drop (off + length d) a.

(** ** The code *)

Section Sort.
Context (aContent : list Z).

(** The [while] loop of [walMerge], on the parts of [aLeft] and [aRight] not
    yet consumed; the result is the content of [aTmp]. *)
Fixpoint mergeLoop (fuel : nat) (aLeft aRight : list Z) : list Z :=
  match fuel with
  | O => []
  | S f =>
      let emit logpage aLeft aRight :=
        let dbpage := nthZ aContent logpage in
        let aLeft :=
          match aLeft with
          | l :: aLeft' => if nthZ aContent l =? dbpage then aLeft' else aLeft
          | [] => []
          end in
        logpage :: mergeLoop f aLeft aRight in
      match aLeft, aRight with
      | [], [] => []
      | l :: aLeft', [] => emit l aLeft' []
      | [], r :: aRight' => emit r [] aRight'
      | l :: aLeft', r :: aRight' =>
          if nthZ aContent l <? nthZ aContent r then emit l aLeft' aRight
          else emit r aLeft aRight'
      end
  end.

(** A sublist: the offset of [aList] in the array, and [nList]. *)
Abbreviation Sublist := (nat * nat)%type.

(** New array and new right-hand sublist. *)
Definition walMerge (a : list Z) (aLeft aRight : Sublist) : list Z * Sublist :=
  let aTmp := mergeLoop (aLeft.2 + aRight.2) (slice a aLeft.1 aLeft.2) (slice a aRight.1 aRight.2) in
  (splice a aLeft.1 aTmp, (aLeft.1, length aTmp)).

(** [for(iSub=0; iList & (1<<iSub); iSub++)]; at most [n] of the 13 sublists
    remain. *)
Fixpoint subLoop (n : nat) (iSub : nat) (iList : Z) (a : list Z) (aSub : list Sublist)
    (aMerge : Sublist) : list Z * Sublist * nat :=
  match n with
  | O => (a, aMerge, iSub)
  | S n' =>
      if Z.testbit iList (Z.of_nat iSub) then
        let '(a, aMerge) := walMerge a (aSub !!! iSub) aMerge in
        subLoop n' (S iSub) iList a aSub aMerge
      else (a, aMerge, iSub)
  end.

(** The [for] loop over [iList], [n] iterations from [iList]. *)
Fixpoint listLoop (n : nat) (iList : nat) (a : list Z) (aSub : list Sublist)
    (aMerge : Sublist) (iSub : nat) : list Z * list Sublist * Sublist * nat :=
  match n with
  | O => (a, aSub, aMerge, iSub)
  | S n' =>
      let '(a, aMerge, iSub) := subLoop 13 0 (Z.of_nat iList) a aSub (iList, 1%nat) in
      listLoop n' (S iList) a (<[iSub := aMerge]> aSub) aMerge iSub
  end.

(** The last loop, for the [n] sublists from [iSub]. *)
Fixpoint lastLoop (n : nat) (iSub : nat) (nList : Z) (a : list Z) (aSub : list Sublist)
    (aMerge : Sublist) : list Z * Sublist :=
  match n with
  | O => (a, aMerge)
  | S n' =>
      let '(a, aMerge) :=
        if Z.testbit nList (Z.of_nat iSub) then walMerge a (aSub !!! iSub) aMerge
        else (a, aMerge) in
      lastLoop n' (S iSub) nList a aSub aMerge
  end.

(** The array after the sort, and [*pnList]. *)
Definition walMergesort (aList : list Z) (nList : nat) : list Z * nat :=
  let '(a, aSub, aMerge, iSub) :=
    listLoop nList 0 aList (replicate 13 (0, 0)%nat) (0, 0)%nat 0 in
  let '(a, aMerge) := lastLoop (13 - S iSub) (S iSub) (Z.of_nat nList) a aSub aMerge in
  (a, aMerge.2).

(** ** What a sorted sublist is

    [sorted_range lo hi l]: [l] holds, by increasing page number, the largest
    index of each page number among the indices [lo..hi-1]. *)
Record sorted_range (lo hi : Z) (l : list Z) : Prop := {
  sr_sorted : StronglySorted (fun x y => nthZ aContent x < nthZ aContent y) l;
  sr_newest : forall x, x ∈ l -> lo <= x < hi
    /\ forall j, lo <= j < hi -> nthZ aContent j = nthZ aContent x -> j <= x;
  sr_all : forall j, lo <= j < hi -> exists x, x ∈ l /\ nthZ aContent x = nthZ aContent j
}.

Local Abbreviation key := (nthZ aContent).
Local Abbreviation ssorted := (StronglySorted (fun x y => key x < key y)).

(** What the loop produces: both lists, without the left entries whose page
    number the right list has. *)
Definition merges (L R out : list Z) : Prop :=
  ssorted out /\ (length out <= length L + length R)%nat
  /\ forall x, x ∈ out <-> x ∈ R \/ (x ∈ L /\ forall r, r ∈ R -> key r <> key x).

Lemma ssorted_cons x l : ssorted (x :: l) <-> ssorted l /\ forall y, y ∈ l -> key x < key y.
Proof.
  split.
  - intros H. inversion H as [|? ? Hs Hf]. subst. split; [done|].
    rewrite Forall_forall in Hf. done.
  - intros [Hs Hf]. constructor; [done|]. by apply Forall_forall.
Qed.

(** A left entry is emitted when it is smaller than all that remains. *)
Lemma merges_left l L R out :
  ssorted (l :: L) -> (forall r, r ∈ R -> key l < key r) -> merges L R out ->
  merges (l :: L) R (l :: out).
Proof.
  rewrite ssorted_cons. intros [HL Hl] HR (Hs & Hlen & Hin). split; [|split].
  - apply ssorted_cons. split; [done|]. intros y [Hy|[Hy _]]%Hin; auto.
  - simpl. lia.
  - intros x. rewrite !elem_of_cons, Hin. split.
    + intros [->|[Hx|[Hx Hn]]]; auto. right. split; [auto|].
      intros r Hr. specialize (HR r Hr). lia.
    + intros [Hx|[[->|Hx] Hn]]; auto.
Qed.

(** A right entry is emitted when it is not larger than all that remains;
    a left entry with the same page number is dropped. *)
Lemma merges_right r L L' R out :
  ssorted (r :: R) -> (forall l, l ∈ L -> key r <= key l) ->
  (forall l, l ∈ L' <-> l ∈ L /\ key l <> key r) -> (length L' <= length L)%nat ->
  merges L' R out -> merges L (r :: R) (r :: out).
Proof.
  rewrite ssorted_cons. intros [HR Hr] HL HL' Hlen' (Hs & Hlen & Hin). split; [|split].
  - apply ssorted_cons. split; [done|]. intros y [Hy|[Hy _]]%Hin; [auto|].
    apply HL' in Hy as [Hy Hne]. specialize (HL y Hy). lia.
  - simpl. lia.
  - intros x. rewrite elem_of_cons, Hin, elem_of_cons. split.
    + intros [->|[Hx|[Hx Hn]]]; auto. apply HL' in Hx as [Hx Hne]. right.
      split; [done|]. intros r' [->|Hr']%elem_of_cons; [done|auto].
    + intros [[->|Hx]|[Hx Hn]]; auto. right. right. split.
      * apply HL'. split; [done|]. intros Heq. by apply (Hn r); [left|].
      * intros r' Hr'. apply Hn. by right.
Qed.

Lemma merges_nil : merges [] [] [].
Proof. split; [constructor|]. split; [done|]. set_solver. Qed.

Lemma mergeLoop_merges f L R :
  ssorted L -> ssorted R -> (length L + length R <= f)%nat -> merges L R (mergeLoop f L R).
Proof.
  revert L R. induction f as [|f IH]; intros L R HL HR Hf.
  { destruct L, R; simpl in *; try lia. apply merges_nil. }
  assert (forall l L', ssorted (l :: L') ->
    match L' with l' :: L'' => if key l' =? key l then L'' else L' | [] => [] end = L') as Hkeep.
  { intros l [|l' L'] H; [done|]. apply ssorted_cons in H as [_ H].
    specialize (H l' ltac:(by left)). destruct (Z.eqb_spec (key l') (key l)); [lia|done]. }
  cbn [mergeLoop]. destruct L as [|l L], R as [|r R]; simpl in Hf.
  - apply merges_nil.
  - apply ssorted_cons in HR as [HR Hr].
    apply (merges_right r [] []); [by apply ssorted_cons|set_solver|set_solver|done|].
    apply IH; [constructor|done|simpl; lia].
  - rewrite Hkeep by done. apply merges_left; [done|set_solver|].
    apply ssorted_cons in HL as [HL _]. apply IH; [done|constructor|simpl; lia].
  - destruct (Z.ltb_spec (key l) (key r)) as [Hlt|Hge].
    + rewrite Hkeep by done. apply merges_left; [done| |].
      * apply ssorted_cons in HR as [_ Hr]. intros r' [->|Hr']%elem_of_cons; [done|].
        specialize (Hr r' Hr'). lia.
      * apply ssorted_cons in HL as [HL _]. apply IH; [done|done|simpl; lia].
    + pose proof HL as [HL' Hl]%ssorted_cons. pose proof HR as [HR' _]%ssorted_cons.
      destruct (Z.eqb_spec (key l) (key r)) as [Heq|Hne].
      * apply (merges_right r _ L); [done| | |simpl; lia|apply IH; auto; lia].
        -- intros x [->|Hx]%elem_of_cons; [lia|]. specialize (Hl x Hx). lia.
        -- intros x. rewrite elem_of_cons. split.
           ++ intros Hx. split; [auto|]. specialize (Hl x Hx). lia.
           ++ intros [[->|Hx] Hnk]; [done|done].
      * apply (merges_right r _ (l :: L)); [done| | |done|apply IH; simpl; auto; lia].
        -- intros x [->|Hx]%elem_of_cons; [lia|]. specialize (Hl x Hx). lia.
        -- intros x. split; [|tauto]. intros Hx. split; [done|].
           apply elem_of_cons in Hx as [->|Hx]; [done|]. specialize (Hl x Hx). lia.
Qed.

(** Merging two adjacent ranges. *)
Lemma sorted_range_merge lo mid hi L R f :
  sorted_range lo mid L -> sorted_range mid hi R -> lo <= mid <= hi ->
  (length L + length R <= f)%nat ->
  sorted_range lo hi (mergeLoop f L R)
  /\ (length (mergeLoop f L R) <= length L + length R)%nat.
Proof.
  intros [HL HLn HLa] [HR HRn HRa] Hmid Hf.
  destruct (mergeLoop_merges f L R HL HR Hf) as (Hs & Hlen & Hin). split; [|done].
  split; [done| |].
  - intros x [Hx|[Hx Hn]]%Hin.
    + destruct (HRn x Hx) as [Hr Hmax]. split; [lia|]. intros j Hj Heq.
      destruct (Z.lt_ge_cases j mid); [lia|]. apply Hmax; [lia|done].
    + destruct (HLn x Hx) as [Hr Hmax]. split; [lia|]. intros j Hj Heq.
      destruct (Z.lt_ge_cases j mid); [apply Hmax; [lia|done]|]. exfalso.
      destruct (HRa j ltac:(lia)) as (r & Hr' & Hk). apply (Hn r Hr'). congruence.
  - intros j Hj. destruct (Z.lt_ge_cases j mid) as [Hlt|Hge].
    + destruct (HLa j ltac:(lia)) as (x & Hx & Hk).
      destruct (decide (Exists (fun r => key r = key x) R)) as [Hex|Hno].
      * apply Exists_exists in Hex as (r & Hr & Hkr). exists r. split; [|congruence].
        apply Hin. auto.
      * exists x. split; [|done]. apply Hin. right. split; [done|]. intros r Hr Hkr.
        apply Hno, Exists_exists. by exists r.
    + destruct (HRa j ltac:(lia)) as (x & Hx & Hk). exists x. split; [|done]. apply Hin. auto.
Qed.

Lemma sorted_range_one i : sorted_range i (i + 1) [i].
Proof.
  split.
  - constructor; [constructor|apply Forall_nil_2].
  - intros x ->%list_elem_of_singleton. split; [lia|]. intros. lia.
  - intros j Hj. exists i. split; [by left|]. f_equal. lia.
Qed.

(** ** The array *)

Lemma length_splice a off d :
  (off + length d <= length a)%nat -> length (splice a off d) = length a.
Proof. intros. unfold splice. rewrite !length_app, length_take, length_drop. lia. Qed.

Lemma slice_splice_same a off d :
  (off <= length a)%nat -> slice (splice a off d) off (length d) = d.
Proof.
  intros H. unfold slice, splice. rewrite drop_app_ge by (rewrite length_take; lia).
  rewrite length_take_le, Nat.sub_diag, drop_0 by lia. by rewrite take_app_length.
Qed.

Lemma slice_splice_other a off d off' n :
  (off + length d <= length a)%nat ->
  (off' + n <= off \/ off + length d <= off')%nat ->
  slice (splice a off d) off' n = slice a off' n.
Proof.
  intros Hlen Hdis. apply list_eq. intros k. unfold slice, splice.
  destruct (decide (k < n)%nat) as [Hk|Hk]; [|by rewrite !lookup_take_ge by lia].
  rewrite !lookup_take_lt, !lookup_drop by lia. destruct Hdis as [Hdis|Hdis].
  - rewrite lookup_app_l by (rewrite length_take; lia). rewrite lookup_take_lt by lia. done.
  - rewrite lookup_app_r by (rewrite length_take; lia). rewrite length_take_le by lia.
    rewrite lookup_app_r, lookup_drop by lia. f_equal. lia.
Qed.

(** Sublist [s] of [a] is the sort of the indices [lo..hi-1] and lies in
    that part of the array. *)
Record sub_ok (a : list Z) (s : Sublist) (lo hi : Z) : Prop := {
  so_lo : 0 <= lo;
  so_off : s.1 = Z.to_nat lo;
  so_len : Z.of_nat s.2 <= hi - lo;
  so_slice : length (slice a s.1 s.2) = s.2;
  so_sorted : sorted_range lo hi (slice a s.1 s.2)
}.

(** [a'] differs from [a] only inside [lo..hi-1]. *)
Definition frame (lo hi : Z) (a a' : list Z) : Prop :=
  length a' = length a
  /\ forall off n, Z.of_nat (off + n) <= lo \/ hi <= Z.of_nat off -> slice a' off n = slice a off n.

Lemma frame_refl lo hi a : frame lo hi a a.
Proof. done. Qed.

Lemma frame_trans lo lo' hi a a' a'' :
  lo' <= lo -> frame lo hi a a' -> frame lo' hi a' a'' -> frame lo' hi a a''.
Proof.
  intros Hlo [Hl H] [Hl' H']. split; [congruence|]. intros off n Hd.
  rewrite H' by done. apply H. lia.
Qed.

Lemma frame_weaken lo lo' hi a a' : lo' <= lo -> frame lo hi a a' -> frame lo' hi a a'.
Proof. intros Hlo [Hl H]. split; [done|]. intros off n Hd. apply H. lia. Qed.

Lemma sub_ok_frame a a' s lo hi lo' hi' :
  sub_ok a s lo hi -> frame lo' hi' a a' -> hi <= lo' \/ hi' <= lo -> sub_ok a' s lo hi.
Proof.
  intros [H0 Ho Hl Hs Hr] [_ Hf] Hd.
  assert (slice a' s.1 s.2 = slice a s.1 s.2) as E by (apply Hf; lia).
  split; rewrite ?E; done.
Qed.

Lemma walMerge_ok a l r lo mid hi :
  sub_ok a l lo mid -> sub_ok a r mid hi -> lo <= mid <= hi -> hi <= Z.of_nat (length a) ->
  sub_ok (walMerge a l r).1 (walMerge a l r).2 lo hi /\ frame lo hi a (walMerge a l r).1.
Proof.
  intros Hl Hr Hmid Hhi. unfold walMerge. cbn [fst snd].
  destruct (sorted_range_merge lo mid hi (slice a l.1 l.2) (slice a r.1 r.2) (l.2 + r.2)%nat)
    as [Hs Hlen]; [apply Hl|apply Hr|done|rewrite (so_slice _ _ _ _ Hl), (so_slice _ _ _ _ Hr); lia|].
  revert Hs Hlen. generalize (mergeLoop (l.2 + r.2) (slice a l.1 l.2) (slice a r.1 r.2)).
  intros out Hs Hlen. rewrite (so_slice _ _ _ _ Hl), (so_slice _ _ _ _ Hr) in Hlen.
  pose proof (so_len _ _ _ _ Hl). pose proof (so_len _ _ _ _ Hr).
  pose proof (so_off _ _ _ _ Hl) as Hoff. pose proof (so_lo _ _ _ _ Hl). split.
  - assert (slice (splice a l.1 out) l.1 (length out) = out) as E
      by (apply slice_splice_same; lia).
    split; cbn [fst snd]; rewrite ?E; auto. lia.
  - split; [apply length_splice; lia|]. intros off n Hd. apply slice_splice_other; lia.
Qed.

(** ** The loops *)

(** Sublist [b] when [i] indices have been sorted: the last [2^b] indices
    below the largest multiple of [2^b]. *)
Definition subs_ok (from : Z) (i : Z) (a : list Z) (aSub : list Sublist) : Prop :=
  forall b, from <= Z.of_nat b -> Z.testbit i (Z.of_nat b) = true ->
    let p := 2 ^ Z.of_nat b in
    sub_ok a (aSub !!! b) ((i / p - 1) * p) (i / p * p).

Lemma testbit_odd_div i b : 0 <= b -> Z.testbit i b = Z.odd (i / 2 ^ b).
Proof. intros. rewrite Z.testbit_odd, Z.shiftr_div_pow2 by done. done. Qed.

Lemma odd_half q : Z.odd q = true -> q = 2 * (q / 2) + 1.
Proof. intros H. rewrite (Z.div_mod q 2) at 1 by lia. rewrite Zmod_odd, H. lia. Qed.

Lemma even_half q : Z.odd q = false -> q = 2 * (q / 2).
Proof. intros H. rewrite (Z.div_mod q 2) at 1 by lia. rewrite Zmod_odd, H. lia. Qed.

Lemma pow2_succ b : 2 ^ Z.of_nat (S b) = 2 * 2 ^ Z.of_nat b.
Proof. rewrite Nat2Z.inj_succ, Z.pow_succ_r by lia. done. Qed.

Lemma div_pow2_succ i b : i / 2 ^ Z.of_nat (S b) = i / 2 ^ Z.of_nat b / 2.
Proof. rewrite pow2_succ, Z.mul_comm, Z.div_div by lia. done. Qed.

(** Regions of higher sublists lie before the region of a lower one. *)
Lemma higher_region i b b' :
  0 <= i -> (b < b')%nat ->
  i / 2 ^ Z.of_nat b' * 2 ^ Z.of_nat b' <= i / 2 ^ Z.of_nat b * 2 ^ Z.of_nat b.
Proof.
  intros Hi Hb. replace (Z.of_nat b') with (Z.of_nat b + Z.of_nat (b' - b)) by lia.
  rewrite Z.pow_add_r by lia.
  assert (0 < 2 ^ Z.of_nat b) by lia. assert (0 < 2 ^ Z.of_nat (b' - b)) by lia.
  rewrite <- Z.div_div by lia.
  pose proof (Z.mul_div_le (i / 2 ^ Z.of_nat b) (2 ^ Z.of_nat (b' - b)) ltac:(lia)). nia.
Qed.

Lemma subLoop_ok n b i a aSub aMerge q :
  0 <= i < Z.of_nat (length a) -> (n + b = 13)%nat -> i < 2 ^ 12 ->
  i + 1 = (q + 1) * 2 ^ Z.of_nat b -> 0 <= q ->
  subs_ok (Z.of_nat b) i a aSub -> sub_ok a aMerge (i + 1 - 2 ^ Z.of_nat b) (i + 1) ->
  let '(a', m', b') := subLoop n b i a aSub aMerge in
  (b <= b' < 13)%nat
  /\ (exists q', i + 1 = (q' + 1) * 2 ^ Z.of_nat b' /\ 0 <= q' /\ Z.odd q' = false)
  /\ sub_ok a' m' (i + 1 - 2 ^ Z.of_nat b') (i + 1)
  /\ frame (i + 1 - 2 ^ Z.of_nat b') (i + 1) a a'.
Proof.
  revert b a aMerge q. induction n as [|n IH]; intros b a aMerge q Hi Hn Hmax Hq Hq0 Hsubs Hm.
  { exfalso. replace b with 13%nat in Hq by lia. change (2 ^ Z.of_nat 13) with 8192 in Hq. lia. }
  assert (0 < 2 ^ Z.of_nat b) as Hpos by lia.
  cbn [subLoop]. assert (i / 2 ^ Z.of_nat b = q) as Hdiv.
  { symmetry. apply Z.div_unique with (2 ^ Z.of_nat b - 1); lia. }
  destruct (Z.testbit i (Z.of_nat b)) eqn:Hbit;
    [|rewrite testbit_odd_div, Hdiv in Hbit by lia; split; [lia|]; split; [by exists q|];
      split; [done|apply frame_refl]].
  pose proof (Hsubs b ltac:(lia) Hbit) as Hsub. cbv zeta in Hsub. rewrite Hdiv in Hsub.
  rewrite testbit_odd_div, Hdiv in Hbit by lia. apply odd_half in Hbit as Hodd.
  pose proof (pow2_succ b) as Hp.
  replace (q * 2 ^ Z.of_nat b) with (i + 1 - 2 ^ Z.of_nat b) in Hsub by lia.
  replace ((q - 1) * 2 ^ Z.of_nat b) with (i + 1 - 2 ^ Z.of_nat (S b)) in Hsub by lia.
  destruct (walMerge_ok a (aSub !!! b) aMerge _ _ (i + 1) Hsub Hm) as [Hm' Hf']; [lia|lia|].
  destruct (walMerge a (aSub !!! b) aMerge) as [a1 m1]. cbn [fst snd] in Hm', Hf'.
  assert (i + 1 = (q / 2 + 1) * 2 ^ Z.of_nat (S b)) as Hq1 by (rewrite Hp; nia).
  assert (subs_ok (Z.of_nat (S b)) i a1 aSub) as Hsubs1.
  { intros b' Hb' Hbit'. eapply sub_ok_frame; [apply Hsubs; [lia|done]|exact Hf'|].
    left. assert (i / 2 ^ Z.of_nat b' * 2 ^ Z.of_nat b'
      <= i / 2 ^ Z.of_nat (S b) * 2 ^ Z.of_nat (S b)) as Hle.
    { destruct (decide (b' = S b)) as [->|]; [done|]. apply higher_region; lia. }
    rewrite div_pow2_succ, Hdiv in Hle. lia. }
  specialize (IH (S b) a1 m1 (q / 2)).
  destruct (subLoop n (S b) i a1 aSub m1) as [[a2 m2] b2].
  destruct IH as (Hb2 & Hex & Hm2 & Hf2); auto; try lia.
  { destruct Hf' as [Hl _]. lia. }
  split; [lia|]. split; [done|]. split; [done|].
  eapply frame_trans; [|exact Hf'|exact Hf2].
  assert (2 ^ Z.of_nat (S b) <= 2 ^ Z.of_nat b2) by (apply Z.pow_le_mono_r; lia). lia.
Qed.

Lemma even_div_step q k : Z.odd q = false -> 0 < k -> (q + 1) / 2 ^ k = q / 2 ^ k.
Proof.
  intros Hev Hk. replace k with (1 + (k - 1)) by lia.
  rewrite Z.pow_add_r, <- !Z.div_div by lia. f_equal. change (2 ^ 1) with 2.
  rewrite (even_half q Hev) at 1. rewrite Z.add_comm, Z.mul_comm, Z.div_add by lia. done.
Qed.

(** Recording the merged sublist establishes the invariant for [i + 1]. *)
Lemma subs_ok_next i a a' aSub m b q :
  0 <= i -> length aSub = 13%nat -> (b < 13)%nat ->
  i + 1 = (q + 1) * 2 ^ Z.of_nat b -> 0 <= q -> Z.odd q = false ->
  subs_ok 0 i a aSub -> sub_ok a' m (i + 1 - 2 ^ Z.of_nat b) (i + 1) ->
  frame (i + 1 - 2 ^ Z.of_nat b) (i + 1) a a' ->
  subs_ok 0 (i + 1) a' (<[b := m]> aSub).
Proof.
  intros Hi Hlen Hb Hq Hq0 Hev Hsubs Hm Hf b' _ Hbit p.
  assert (0 < 2 ^ Z.of_nat b) as Hpos by lia.
  assert (i / 2 ^ Z.of_nat b = q) as Hdiv.
  { symmetry. apply Z.div_unique with (2 ^ Z.of_nat b - 1); lia. }
  assert ((i + 1) / 2 ^ Z.of_nat b = q + 1) as Hdiv1 by (rewrite Hq; apply Z.div_mul; lia).
  destruct (decide (b' < b)%nat) as [Hlt|Hge].
  { exfalso. rewrite testbit_odd_div in Hbit by lia.
    replace (Z.of_nat b) with (Z.of_nat b' + (Z.of_nat (b - b' - 1) + 1)) in Hq by lia.
    rewrite !Z.pow_add_r in Hq by lia.
    rewrite Hq in Hbit.
    replace ((q + 1) * (2 ^ Z.of_nat b' * (2 ^ Z.of_nat (b - b' - 1) * 2 ^ 1)))
      with (2 * ((q + 1) * 2 ^ Z.of_nat (b - b' - 1)) * 2 ^ Z.of_nat b') in Hbit by lia.
    rewrite Z.div_mul, Z.odd_mul in Hbit by lia. done. }
  destruct (decide (b' = b)) as [->|Hne].
  - rewrite list_lookup_total_insert_eq by lia. unfold p. rewrite Hdiv1.
    replace ((q + 1 - 1) * 2 ^ Z.of_nat b) with (i + 1 - 2 ^ Z.of_nat b) by lia.
    by replace ((q + 1) * 2 ^ Z.of_nat b) with (i + 1) by lia.
  - rewrite list_lookup_total_insert_ne by lia.
    assert ((i + 1) / p = i / p) as Hsame.
    { unfold p. replace (Z.of_nat b') with (Z.of_nat b + Z.of_nat (b' - b)) by lia.
      rewrite Z.pow_add_r, <- !Z.div_div, Hdiv, Hdiv1 by lia. apply even_div_step; [done|lia]. }
    rewrite Hsame. eapply sub_ok_frame; [apply Hsubs; [lia|]|exact Hf|].
    + unfold p in Hsame. rewrite testbit_odd_div in * by lia. by rewrite <- Hsame.
    + left. pose proof (higher_region i b b' Hi ltac:(lia)) as Hle. fold p in Hle.
      rewrite Hdiv in Hle. lia.
Qed.

Definition tail_ok (i : nat) (a : list Z) : Prop :=
  forall j, (i <= j < length a)%nat -> slice a j 1 = [Z.of_nat j].

Lemma listLoop_ok n i a aSub m0 s0 :
  (i + S n <= length a)%nat -> (length a <= 4096)%nat -> length aSub = 13%nat ->
  subs_ok 0 (Z.of_nat i) a aSub -> tail_ok i a ->
  let '(a', aSub', m, s) := listLoop (S n) i a aSub m0 s0 in
  let t := Z.of_nat (i + S n) in
  (s < 13)%nat /\ length a' = length a /\ subs_ok 0 t a' aSub'
  /\ (exists q, t = (q + 1) * 2 ^ Z.of_nat s /\ 0 <= q /\ Z.odd q = false)
  /\ sub_ok a' m (t - 2 ^ Z.of_nat s) t.
Proof.
  revert i a aSub m0 s0. induction n as [|n IH]; intros i a aSub m0 s0 Hi Hmax Hlen Hsubs Htail;
    change (listLoop (S ?k) i a aSub m0 s0) with
      (let '(a, aMerge, iSub) := subLoop 13 0 (Z.of_nat i) a aSub (i, 1%nat) in
       listLoop k (S i) a (<[iSub := aMerge]> aSub) aMerge iSub);
    pose proof (subLoop_ok 13 0 (Z.of_nat i) a aSub (i, 1%nat) (Z.of_nat i)) as Hloop;
    destruct (subLoop 13 0 (Z.of_nat i) a aSub (i, 1%nat)) as [[a1 m1] b1];
    (destruct Hloop as (Hb1 & (q & Hq & Hq0 & Hev) & Hm1 & Hf1);
      [lia|lia|lia|simpl; lia|lia|done|
       change (2 ^ Z.of_nat 0) with 1; replace (Z.of_nat i + 1 - 1) with (Z.of_nat i) by lia;
       split; cbn [fst snd]; rewrite ?(Htail i) by lia; try done; try lia; apply sorted_range_one|]);
    pose proof (subs_ok_next (Z.of_nat i) a a1 aSub m1 b1 q ltac:(lia) Hlen ltac:(lia) Hq Hq0 Hev
      Hsubs Hm1 Hf1) as Hsubs1;
    destruct Hf1 as [Hlen1 Hf1].
  - cbn [listLoop]. replace (Z.of_nat (i + 1)) with (Z.of_nat i + 1) by lia.
    split; [lia|]. split; [done|]. split; [done|]. split; [by exists q|done].
  - specialize (IH (S i) a1 (<[b1 := m1]> aSub) m1 b1).
    destruct (listLoop (S n) (S i) a1 (<[b1 := m1]> aSub) m1 b1) as [[[a2 aSub2] m2] s2].
    rewrite Hlen1 in IH. replace (S i + S n)%nat with (i + S (S n))%nat in IH by lia.
    apply IH; clear IH; try lia.
    + by rewrite length_insert.
    + by replace (Z.of_nat (S i)) with (Z.of_nat i + 1) by lia.
    + intros j Hj. rewrite Hf1 by lia. apply Htail. lia.
Qed.

Lemma lastLoop_ok n s t a aSub m :
  (n + s = 13)%nat -> 0 <= t <= 4096 -> t <= Z.of_nat (length a) ->
  subs_ok (Z.of_nat s) t a aSub -> sub_ok a m (t / 2 ^ Z.of_nat s * 2 ^ Z.of_nat s) t ->
  sub_ok (lastLoop n s t a aSub m).1 (lastLoop n s t a aSub m).2 0 t.
Proof.
  revert s a m. induction n as [|n IH]; intros s a m Hn Ht Hlen Hsubs Hm; cbn [lastLoop].
  { replace s with 13%nat in Hm by lia. rewrite Z.div_small in Hm by (simpl; lia). done. }
  assert (0 < 2 ^ Z.of_nat s) as Hpos by lia. pose proof (pow2_succ s) as Hp.
  set (q := t / 2 ^ Z.of_nat s) in *.
  assert (t / 2 ^ Z.of_nat (S s) = q / 2) as Hdiv by apply div_pow2_succ.
  destruct (Z.testbit t (Z.of_nat s)) eqn:Hbit.
  - pose proof (Hsubs s ltac:(lia) Hbit) as Hsub. cbv zeta in Hsub. fold q in Hsub.
    rewrite testbit_odd_div in Hbit by lia. apply odd_half in Hbit as Hodd. fold q in Hodd.
    pose proof (Z.mul_div_le t (2 ^ Z.of_nat s) Hpos) as Hle. fold q in Hle.
    destruct (walMerge_ok a (aSub !!! s) m _ _ t Hsub Hm) as [Hm' Hf']; [lia|lia|].
    destruct (walMerge a (aSub !!! s) m) as [a1 m1]. cbn [fst snd] in Hm', Hf'.
    apply IH; try lia.
    + destruct Hf' as [-> _]. done.
    + intros b' Hb' Hbit'. eapply sub_ok_frame; [apply Hsubs; [lia|done]|exact Hf'|].
      left. assert (t / 2 ^ Z.of_nat b' * 2 ^ Z.of_nat b'
        <= t / 2 ^ Z.of_nat (S s) * 2 ^ Z.of_nat (S s)) as Hle'.
      { destruct (decide (b' = S s)) as [->|]; [done|]. apply higher_region; lia. }
      rewrite Hdiv in Hle'. lia.
    + rewrite Hdiv. by replace (q / 2 * 2 ^ Z.of_nat (S s)) with ((q - 1) * 2 ^ Z.of_nat s) by nia.
  - rewrite testbit_odd_div in Hbit by lia. apply even_half in Hbit as Hev. fold q in Hev.
    apply IH; try lia; try done.
    + intros b' Hb'. apply Hsubs. lia.
    + rewrite Hdiv. by replace (q / 2 * 2 ^ Z.of_nat (S s)) with (q * 2 ^ Z.of_nat s) by nia.
Qed.

Lemma walMergesort_ok aList nList :
  (0 < nList <= 4096)%nat -> length aList = nList -> tail_ok 0 aList ->
  let '(a, n) := walMergesort aList nList in
  length (take n a) = n /\ sorted_range 0 (Z.of_nat nList) (take n a).
Proof.
  intros Hn Hlen Htail. unfold walMergesort. destruct nList as [|n]; [lia|].
  pose proof (listLoop_ok n 0 aList (replicate 13 (0, 0)%nat) (0, 0)%nat 0) as H.
  destruct (listLoop (S n) 0 aList (replicate 13 (0, 0)%nat) (0, 0)%nat 0) as [[[a aSub] m] s].
  destruct H as (Hs & Hl & Hsubs & (q & Hq & Hq0 & Hev) & Hm); auto; try lia.
  { intros b _ Hbit. by rewrite Z.testbit_0_l in Hbit. }
  replace (0 + S n)%nat with (S n) in * by lia.
  pose proof (lastLoop_ok (13 - S s) (S s) (Z.of_nat (S n)) a aSub m) as Hlast.
  destruct (lastLoop (13 - S s) (S s) (Z.of_nat (S n)) a aSub m) as [a' m'].
  destruct Hlast as [_ Hoff _ Hsl Hsorted]; try lia.
  - intros b Hb. apply Hsubs. lia.
  - rewrite div_pow2_succ, Hq, Z.div_mul by lia. rewrite <- Hq.
    pose proof (even_div_step q 1 Hev ltac:(lia)) as He. change (2 ^ 1) with 2 in He. rewrite He.
    replace (q / 2 * 2 ^ Z.of_nat (S s)) with (Z.of_nat (S n) - 2 ^ Z.of_nat s); [done|].
    rewrite pow2_succ. apply even_half in Hev. nia.
  - cbn [fst snd] in *. rewrite Hoff in Hsl, Hsorted. unfold slice in Hsl, Hsorted.
    change (Z.to_nat 0) with 0%nat in *. rewrite drop_0 in *. done.
Qed.
End Sort.

(** ** Property *)

Lemma tail_ok_seqZ n : tail_ok 0 (seqZ 0 (Z.of_nat n)).
Proof.
  intros j Hj. rewrite length_seqZ, Nat2Z.id in Hj. unfold slice.
  destruct (drop j (seqZ 0 (Z.of_nat n))) as [|x l] eqn:E.
  - apply (f_equal length) in E. rewrite length_drop, length_seqZ in E. simpl in E. lia.
  - simpl. f_equal. assert (drop j (seqZ 0 (Z.of_nat n)) !! 0%nat = Some x) as H by by rewrite E.
    rewrite lookup_drop, lookup_seqZ in H. lia.
Qed.

Lemma walMergesort_identity aContent nList :
  (0 < nList <= 4096)%nat ->
  let '(a, n) := walMergesort aContent (seqZ 0 (Z.of_nat nList)) nList in
  length (take n a) = n /\ sorted_range aContent 0 (Z.of_nat nList) (take n a).
Proof.
  intros Hn. apply walMergesort_ok; [done| |apply tail_ok_seqZ].
  rewrite length_seqZ. lia.
Qed.

(** On the identity array of up to HASHTABLE_NPAGE indices,
    [walMergesort] leaves, in the first [*pnList] cells, one index for each
    page number that occurs, the largest, by strictly increasing page
    number. *)
Theorem walMergesort_sorts aContent nList :
  (0 < nList <= 4096)%nat ->
  let '(a, n) := walMergesort aContent (seqZ 0 (Z.of_nat nList)) nList in
  length (take n a) = n /\ sorted_range aContent 0 (Z.of_nat nList) (take n a).
Proof. apply walMergesort_identity. Qed.

Lemma walMergesort_sorts_witness :
  take 3 (walMergesort [7; 3; 7; 9; 3] (seqZ 0 5) 5).1 = [4; 2; 3]
  /\ sorted_range [7; 3; 7; 9; 3] 0 5 [4; 2; 3].
Proof.
  split; [reflexivity|].
  exact (proj2 (walMergesort_sorts [7; 3; 7; 9; 3] 5 ltac:(lia))).
Defined.
