(* ===== verification/WalIter.v ===== *)
(** * src/libsql-sqlite3/src/wal.c: iterators over the frames of the log

    [WalIterator] visits the pages of the log by increasing page number, with
    the newest frame of each; [WalIteratorRev], which the checkpoint uses,
    visits the same frames from the newest to the oldest. *)

From stdpp Require Import base list numbers option gmap sorting.
From S2P Require Import Prelude Wal WalIndex WalSort.
#[local] Open Scope Z_scope.

(** ** Data *)

Record WalSegment := mkSegment {
  iNext : nat;
  aIndex : list Z;
  sPgno : list Z;
  nEntry : nat;
  sZero : Z
}.

Record WalIterator := mkIterator { iPrior : Z; aSegment : list WalSegment }.

(** A segment that [memset] left zero. *)
Definition noSegment : WalSegment := mkSegment 0 [] [] 0 0.

Record WalIteratorRev := mkRev { current : Z; frames : list Z }.

(** ** walIteratorNext *)

Definition segPgno (s : WalSegment) : Z := nthZ (sPgno s) (nthZ (aIndex s) (Z.of_nat (iNext s))).

(** The [while] loop over one segment: skip the pages already returned. *)
Fixpoint segSkip (fuel : nat) (s : WalSegment) (iMin : Z) : WalSegment :=
  match fuel with
  | O => s
  | S f =>
      if segPgno s >? iMin then s
      else segSkip f (mkSegment (S (iNext s)) (aIndex s) (sPgno s) (nEntry s) (sZero s)) iMin
  end.

(** The [for] loop, last segment first; the segments are given in the order
    of the loop. *)
Fixpoint nextLoop (segs : list WalSegment) (iMin iRet piFrame : Z)
    : list WalSegment * Z * Z :=
  match segs with
  | [] => ([], iRet, piFrame)
  | s :: segs' =>
      let s := segSkip (nEntry s - iNext s) s iMin in
      let '(iRet, piFrame) :=
        if (iNext s <? nEntry s)%nat && (segPgno s <? iRet)
        then (segPgno s, u32 (sZero s + nthZ (aIndex s) (Z.of_nat (iNext s))))
        else (iRet, piFrame) in
      let '(segs', iRet, piFrame) := nextLoop segs' iMin iRet piFrame in
      (s :: segs', iRet, piFrame)
  end.

(** [(rc, page, frame, iterator)]; the frame is meaningful when [rc = 0]. *)
Definition walIteratorNext (p : WalIterator) : Z * Z * Z * WalIterator :=
  let '(segs, iRet, piFrame) := nextLoop (rev (aSegment p)) (iPrior p) 0xFFFFFFFF 0 in
  (if iRet =? 0xFFFFFFFF then 1 else 0, iRet, piFrame, mkIterator iRet (rev segs)).

(** ** walIteratorInit *)

Section Init.
Context (walIndexPage : Z -> Z).

Definition initSegment (w : Wal) (iLast nSegment i : Z) : result WalSegment :=
  match walHashGet walIndexPage i with
  | Err rc => Err rc
  | Ok sLoc =>
      let pgno := aPgno (pageOf w (loc sLoc)) in
      let nEntry := if i + 1 =? nSegment then iLast - iZero sLoc
                    else Z.of_nat (length pgno) in
      let '(aIndex, n) := walMergesort pgno (seqZ 0 nEntry) (Z.to_nat nEntry) in
      Ok (mkSegment 0 aIndex pgno n (iZero sLoc + 1))
  end.

(** The segments from [i], [n] of them. *)
Fixpoint initLoop (n : nat) (w : Wal) (iLast nSegment i : Z) : result (list WalSegment) :=
  match n with
  | O => Ok []
  | S n' =>
      match initSegment w iLast nSegment i with
      | Err rc => Err rc
      | Ok s =>
          match initLoop n' w iLast nSegment (i + 1) with
          | Err rc => Err rc
          | Ok l => Ok (s :: l)
          end
      end
  end.

(** [mallocOk]: whether the allocation of the iterator succeeds. *)
Definition walIteratorInit (mallocOk : bool) (w : Wal) (nBackfill : Z) : result WalIterator :=
  let iLast := mxFrame (hdr w) in
  let nSegment := walFramePage iLast + 1 in
  if negb mallocOk then Err SQLITE_NOMEM else
  let first := walFramePage (u32 (nBackfill + 1)) in
  match initLoop (Z.to_nat (nSegment - first)) w iLast nSegment first with
  | Err rc => Err rc
  | Ok l => Ok (mkIterator 0 (replicate (Z.to_nat (Z.min first nSegment)) noSegment ++ l))
  end.

(** ** walIteratorRevInit *)

(** The [while] loop that fills [frames]; [n] bounds the number of calls of
    [walIteratorNext]. *)
Fixpoint revLoop (n : nat) (w : Wal) (it : WalIterator) (mxSafeFrame : Z)
    (ignoreFrameIfNewerExist : bool) (fr : list Z) : option (result (list Z)) :=
  match n with
  | O => None
  | S n' =>
      let '(rc, iPageno, iFrame, it) := walIteratorNext it in
      if negb (rc =? 0) then Some (Ok fr)
      else if (iFrame >? mxSafeFrame) && negb ignoreFrameIfNewerExist then
        match walFindFrame walIndexPage w iPageno mxSafeFrame with
        | Err rc => Some (Err rc)
        | Ok iFrame =>
            if iFrame =? 0 then revLoop n' w it mxSafeFrame ignoreFrameIfNewerExist fr
            else revLoop n' w it mxSafeFrame ignoreFrameIfNewerExist (setZ fr iFrame iPageno)
        end
      else revLoop n' w it mxSafeFrame ignoreFrameIfNewerExist (setZ fr iFrame iPageno)
  end.

(** The iterator returns at most one page for each frame. *)
Definition walIteratorRevInit (mallocOk mallocOk' : bool) (w : Wal) (nBackfill mxSafeFrame : Z)
    (ignoreFrameIfNewerExist : bool) : option (result WalIteratorRev) :=
  if negb mallocOk then Some (Err SQLITE_NOMEM) else
  let mx := mxFrame (hdr w) in
  let fr := replicate (Z.to_nat (mx + 1)) 0 in
  match walIteratorInit mallocOk' w nBackfill with
  | Err rc => Some (Err rc)
  | Ok it =>
      match revLoop (S (Z.to_nat mx)) w it mxSafeFrame ignoreFrameIfNewerExist fr with
      | None => None
      | Some (Err rc) => Some (Err rc)
      | Some (Ok fr) => Some (Ok (mkRev mx fr))
      end
  end.
End Init.

(** ** walIteratorRevNext *)

Fixpoint revSkip (fuel : nat) (p : WalIteratorRev) : WalIteratorRev :=
  match fuel with
  | O => p
  | S f =>
      if (current p >? 0) && (nthZ (frames p) (current p) =? 0)
      then revSkip f (mkRev (current p - 1) (frames p))
      else p
  end.

(** [(rc, page, frame, iterator)] *)
Definition walIteratorRevNext (p : WalIteratorRev) : Z * Z * Z * WalIteratorRev :=
  let p := revSkip (Z.to_nat (current p)) p in
  if current p =? 0 then (1, 0, 0, p)
  else (0, nthZ (frames p) (current p), current p, mkRev (current p - 1) (frames p)).

(** ** What one segment gives

    The frames of wal-index page [k] are [z+1..z+n], [z = iZeroOf k]; frame
    [f] holds page [pageAt log f]. *)
Definition pageAt (log : list Z) (f : Z) : Z := nthZ log (f - 1).

Definition segLen (hi k : Z) : Z := Z.min (pageCap k) (hi - iZeroOf k).

Record seg_ok (log : list Z) (hi k iMin : Z) (s : WalSegment) : Prop := {
  sg_len : 0 < segLen hi k;
  sg_zero : sZero s = iZeroOf k + 1;
  sg_size : length (take (nEntry s) (aIndex s)) = nEntry s;
  sg_sorted : sorted_range (sPgno s) 0 (segLen hi k) (take (nEntry s) (aIndex s));
  sg_pgno : forall j, 0 <= j < segLen hi k -> nthZ (sPgno s) j = nthZ log (iZeroOf k + j);
  sg_next : (iNext s <= nEntry s)%nat;
  sg_done : forall m, (m < iNext s)%nat -> nthZ (sPgno s) (nthZ (aIndex s) (Z.of_nat m)) <= iMin
}.

Lemma seg_ok_mono log hi k iMin iMin' s :
  iMin <= iMin' -> seg_ok log hi k iMin s -> seg_ok log hi k iMin' s.
Proof. intros Hle []. split; auto. intros m Hm. etransitivity; [eauto|done]. Qed.

Lemma ssorted_lookup (R : Z -> Z -> Prop) l i j x y :
  StronglySorted R l -> l !! i = Some x -> l !! j = Some y -> (i < j)%nat -> R x y.
Proof.
  intros Hs. revert i j. induction Hs as [|z l Hs IH Hf]; intros [|i] [|j] Hi Hj Hij;
    simpl in *; try done; try lia.
  - injection Hi as ->. rewrite Forall_forall in Hf. apply Hf. by eapply list_elem_of_lookup_2.
  - eapply IH; eauto. lia.
Qed.

Lemma take_nth (l : list Z) n i : length (take n l) = n -> (i < n)%nat ->
  take n l !! i = Some (nthZ l (Z.of_nat i)).
Proof.
  intros Hlen Hi. destruct (lookup_lt_is_Some_2 (take n l) i) as [x Hx]; [lia|].
  rewrite Hx. f_equal. rewrite lookup_take_lt in Hx by lia. unfold nthZ. by rewrite Nat2Z.id, Hx.
Qed.

Section Segment.
Context (log : list Z) (hi k iMin : Z).
Local Abbreviation ok := (seg_ok log hi k iMin).
Local Abbreviation entryPg s m := (nthZ (sPgno s) (nthZ (aIndex s) (Z.of_nat m))).

(** No page number above [iMin] in the segment. *)
Definition segDone (lo top : Z) : Prop := forall f, lo < f <= top -> pageAt log f <= iMin.

(** [pg] is the smallest page number above [iMin] among frames
    [lo+1..top], and [fr] its newest frame. *)
Definition segBest (lo top pg fr : Z) : Prop :=
  iMin < pg /\ lo < fr <= top /\ pageAt log fr = pg
  /\ (forall f, lo < f <= top -> pageAt log f = pg -> f <= fr)
  /\ (forall f, lo < f <= top -> iMin < pageAt log f -> pg <= pageAt log f).

(** Every frame of the segment has the page number of an entry. *)
Lemma seg_entry s f :
  ok s -> iZeroOf k < f <= iZeroOf k + segLen hi k ->
  exists m, (m < nEntry s)%nat /\ entryPg s m = pageAt log f.
Proof.
  intros Hok Hf. destruct (sr_all _ _ _ _ (sg_sorted _ _ _ _ _ Hok) (f - iZeroOf k - 1))
    as (x & Hx & Hk); [lia|].
  apply list_elem_of_lookup_1 in Hx as [m Hm]. apply lookup_lt_Some in Hm as Hlt.
  rewrite (sg_size _ _ _ _ _ Hok) in Hlt. exists m. split; [done|].
  rewrite take_nth in Hm by (done || apply Hok). injection Hm as ->.
  rewrite Hk, (sg_pgno _ _ _ _ _ Hok) by lia. unfold pageAt. f_equal. lia.
Qed.

Lemma seg_done s : ok s -> iNext s = nEntry s -> segDone (iZeroOf k) (iZeroOf k + segLen hi k).
Proof.
  intros Hok Hn f Hf. destruct (seg_entry s f Hok Hf) as (m & Hm & <-).
  apply (sg_done _ _ _ _ _ Hok). lia.
Qed.

Lemma seg_best s :
  ok s -> (iNext s < nEntry s)%nat -> iMin < segPgno s ->
  segBest (iZeroOf k) (iZeroOf k + segLen hi k) (segPgno s)
    (sZero s + nthZ (aIndex s) (Z.of_nat (iNext s))).
Proof.
  intros Hok Hn Hmin. set (x := nthZ (aIndex s) (Z.of_nat (iNext s))).
  assert (x ∈ take (nEntry s) (aIndex s)) as Hx.
  { eapply list_elem_of_lookup_2, take_nth; [apply Hok|done]. }
  destruct (sr_newest _ _ _ _ (sg_sorted _ _ _ _ _ Hok) x Hx) as [Hr Hmax].
  rewrite (sg_zero _ _ _ _ _ Hok).
  assert (pageAt log (iZeroOf k + 1 + x) = segPgno s) as Hpg.
  { unfold segPgno. fold x. rewrite (sg_pgno _ _ _ _ _ Hok) by done. unfold pageAt. f_equal. lia. }
  split; [done|]. split; [lia|]. split; [done|]. split.
  - intros f Hf Heq. specialize (Hmax (f - iZeroOf k - 1) ltac:(lia)).
    rewrite (sg_pgno _ _ _ _ _ Hok) in Hmax by lia. fold (segPgno s) in Hmax.
    enough (f - iZeroOf k - 1 <= x) by lia. apply Hmax. change (nthZ (sPgno s) x) with (segPgno s).
    rewrite <- Heq. unfold pageAt. f_equal. lia.
  - intros f Hf Hgt. destruct (seg_entry s f Hok Hf) as (m & Hm & Hmp). rewrite <- Hmp in *.
    destruct (decide (m < iNext s)%nat) as [Hlt|Hge].
    { pose proof (sg_done _ _ _ _ _ Hok m Hlt). lia. }
    destruct (decide (m = iNext s)) as [->|]; [done|]. apply Z.lt_le_incl. unfold segPgno.
    apply (ssorted_lookup (fun x y => nthZ (sPgno s) x < nthZ (sPgno s) y)
      (take (nEntry s) (aIndex s)) (iNext s) m); [apply Hok| | |lia];
      apply take_nth; [apply Hok|lia|apply Hok|lia].
Qed.

Lemma segSkip_ok n s :
  ok s -> (n = nEntry s - iNext s)%nat ->
  let s' := segSkip n s iMin in
  ok s' /\ (iNext s' = nEntry s' \/ ((iNext s' < nEntry s')%nat /\ iMin < segPgno s')).
Proof.
  revert s. induction n as [|n IH]; intros s Hok Hn; simpl;
    pose proof (sg_next _ _ _ _ _ Hok) as Hle.
  - split; [done|]. left. lia.
  - rewrite Z.gtb_ltb. destruct (Z.ltb_spec iMin (segPgno s)) as [Hlt|Hge].
    + split; [done|]. right. split; [lia|done].
    + apply IH; [|simpl; lia]. destruct Hok. split; simpl; auto; [lia|].
      intros m Hm. destruct (decide (m = iNext s)) as [->|]; [done|].
      match goal with H : forall m, _ -> _ <= iMin |- _ => apply H; lia end.
Qed.
End Segment.

(** ** walIteratorNext *)

Definition no_page : Z := 0xFFFFFFFF.

(** The best result among frames [lo+1..hi], or none. *)
Definition best (log : list Z) (iMin lo hi pg fr : Z) : Prop :=
  (pg = no_page /\ segDone log iMin lo hi) \/ (pg < no_page /\ segBest log iMin lo hi pg fr).

(** Older frames are looked at after newer ones: they matter only for a
    smaller page number. *)
Lemma best_done log iMin lo mid hi pg fr :
  lo <= mid <= hi ->
  best log iMin mid hi pg fr -> segDone log iMin lo mid -> best log iMin lo hi pg fr.
Proof.
  intros Hm [[-> Hd]|[Hpg (H1 & H2 & H3 & H4 & H5)]] Hs; [left|right]; (split; [done|]).
  - intros f Hf. destruct (Z.lt_ge_cases mid f); [apply Hd|apply Hs]; lia.
  - split; [done|]. split; [lia|]. split; [done|].
    split; intros f Hf Hp; (destruct (Z.lt_ge_cases mid f); [auto with lia|]);
      specialize (Hs f ltac:(lia)); lia.
Qed.

Lemma best_better log iMin lo mid hi pg fr pg' fr' :
  lo <= mid <= hi -> pg' < no_page ->
  best log iMin mid hi pg fr -> segBest log iMin lo mid pg' fr' -> pg' < pg ->
  best log iMin lo hi pg' fr'.
Proof.
  intros Hm Hn Hb (H1 & H2 & H3 & H4 & H5) Hlt. right. split; [done|].
  split; [done|]. split; [lia|]. split; [done|].
  assert (forall f, mid < f <= hi -> iMin < pageAt log f -> pg' < pageAt log f) as Hup.
  { intros f Hf Hgt. destruct Hb as [[_ Hd]|[_ (_ & _ & _ & _ & H5')]].
    - specialize (Hd f Hf). lia.
    - specialize (H5' f Hf Hgt). lia. }
  split; intros f Hf Hp; (destruct (Z.lt_ge_cases mid f) as [Hgt|]; [|auto with lia]).
  - specialize (Hup f ltac:(lia)). lia.
  - specialize (Hup f ltac:(lia) Hp). lia.
Qed.

Lemma best_worse log iMin lo mid hi pg fr pg' fr' :
  lo <= mid <= hi -> pg' < no_page ->
  best log iMin mid hi pg fr -> segBest log iMin lo mid pg' fr' -> pg <= pg' ->
  best log iMin lo hi pg fr.
Proof.
  intros Hm Hn [[-> _]|[Hpg (H1' & H2' & H3' & H4' & H5')]] (H1 & H2 & H3 & H4 & H5) Hle; [lia|].
  right. split; [done|]. split; [done|]. split; [lia|]. split; [done|].
  split; intros f Hf Hp; (destruct (Z.lt_ge_cases mid f) as [Hgt|]; [auto with lia|]).
  - lia.
  - specialize (H5 f ltac:(lia) Hp). lia.
Qed.

(** The segments of the iterator in the order of the loop: wal-index pages
    [k], [k-1], ..., 0, those below [first] being empty. *)
Fixpoint segs_ok (log : list Z) (first hi iMin k : Z) (segs : list WalSegment) : Prop :=
  match segs with
  | [] => k = -1
  | s :: segs' =>
      0 <= k
      /\ (if first <=? k then seg_ok log hi k iMin s else nEntry s = 0%nat)
      /\ segs_ok log first hi iMin (k - 1) segs'
  end.

Lemma segs_ok_mono log first hi iMin iMin' k segs :
  iMin <= iMin' -> segs_ok log first hi iMin k segs -> segs_ok log first hi iMin' k segs.
Proof.
  intros Hle. revert k. induction segs as [|s segs IH]; intros k; simpl; [done|].
  intros (Hk & Hs & Hrest). split; [done|]. split; [|auto].
  destruct (first <=? k); [by eapply seg_ok_mono|done].
Qed.

(** The frames above [looked] are those of the pages above [k]. *)
Definition looked (first hi k : Z) : Z := Z.max (iZeroOf first) (Z.min hi (iZeroOf (k + 1))).

Definition pages_ok (log : list Z) : Prop := Forall (fun p => 0 < p < no_page) log.

Lemma pageAt_range log f :
  pages_ok log -> 1 <= f <= Z.of_nat (length log) -> 0 < pageAt log f < no_page.
Proof.
  intros Hp Hf. unfold pageAt, nthZ. destruct (log !! Z.to_nat (f - 1)) as [x|] eqn:E; simpl.
  - unfold pages_ok in Hp. rewrite Forall_forall in Hp. apply Hp. by eapply list_elem_of_lookup_2.
  - apply lookup_ge_None in E. lia.
Qed.

Lemma nextLoop_ok log first hi iMin k segs iRet fr :
  pages_ok log -> 0 <= first -> iZeroOf first <= hi <= Z.of_nat (length log) -> hi < max_frame ->
  segs_ok log first hi iMin k segs ->
  best log iMin (looked first hi k) hi iRet fr ->
  let '(segs', pg, fr') := nextLoop segs iMin iRet fr in
  segs_ok log first hi iMin k segs' /\ best log iMin (iZeroOf first) hi pg fr'.
Proof.
  intros Hp Hfirst Hhi Hmax. revert k iRet fr.
  induction segs as [|s segs IH]; intros k iRet fr Hsegs Hbest; simpl in Hsegs.
  { subst k. simpl. split; [done|]. unfold looked in Hbest.
    change (iZeroOf (-1 + 1)) with 0 in Hbest. pose proof (iZeroOf_nonneg first Hfirst).
    replace (Z.max _ _) with (iZeroOf first) in Hbest by lia. done. }
  destruct Hsegs as (Hk & Hs & Hrest). cbn [nextLoop].
  pose proof (iZeroOf_succ k Hk) as Hsucc. pose proof (pageCap_range k) as Hcap.
  destruct (Z.leb_spec first k) as [Hle|Hgt].
  - destruct (segSkip_ok log hi k iMin (nEntry s - iNext s) s Hs eq_refl) as [Hs' Hcase].
    revert Hs' Hcase. generalize (segSkip (nEntry s - iNext s) s iMin) as s'. intros s' Hs' Hcase.
    pose proof (sg_len _ _ _ _ _ Hs') as Hlen. unfold segLen in Hlen.
    assert (iZeroOf first <= iZeroOf k) as Hz.
    { destruct (decide (first = k)) as [->|]; [lia|].
      pose proof (iZeroOf_mono first k). pose proof (pageCap_range first). lia. }
    assert (looked first hi k = iZeroOf k + segLen hi k) as Hlk
      by (unfold looked, segLen; lia).
    assert (looked first hi (k - 1) = iZeroOf k) as Hlk'.
    { unfold looked. replace (k - 1 + 1) with k by lia. lia. }
    assert (iZeroOf k <= iZeroOf k + segLen hi k <= hi) as Hmid by (unfold segLen; lia).
    rewrite Hlk in Hbest. rewrite <- Hlk' in *.
    set (upd := if (iNext s' <? nEntry s')%nat && _ then _ else _).
    assert (best log iMin (looked first hi (k - 1)) hi upd.1 upd.2) as Hbest'.
    { rewrite Hlk' in *. unfold upd. destruct Hcase as [Hend|[Hlt Hmin]].
      - rewrite Hend, Nat.ltb_irrefl. simpl. eapply best_done; [exact Hmid|exact Hbest|].
        by eapply seg_done.
      - apply Nat.ltb_lt in Hlt as Hltb. rewrite Hltb. cbn [andb].
        pose proof (seg_best log hi k iMin s' Hs' Hlt Hmin) as Hsb.
        assert (segPgno s' < no_page) as Hno.
        { destruct Hsb as (_ & Hr & <- & _). pose proof (iZeroOf_nonneg k Hk).
          apply pageAt_range; [done|lia]. }
        destruct (Z.ltb_spec (segPgno s') iRet); cbn [fst snd].
        + rewrite u32_small; [by eapply best_better|].
          destruct Hsb as (_ & Hr & _). pose proof (iZeroOf_nonneg k Hk).
          unfold max_frame in Hmax. lia.
        + by eapply best_worse. }
    destruct upd as [iRet' fr']. cbn [fst snd] in Hbest'.
    specialize (IH (k - 1) iRet' fr' Hrest Hbest').
    destruct (nextLoop segs iMin iRet' fr') as [[segs' pg] fr2]. destruct IH as [Hsegs' Hb'].
    split; [|done]. simpl. rewrite (proj2 (Z.leb_le first k) Hle). done.
  - replace (nEntry s - iNext s)%nat with 0%nat by lia. cbn [segSkip].
    replace (iNext s <? nEntry s)%nat with false by (symmetry; apply Nat.ltb_ge; lia).
    cbn [andb].
    assert (looked first hi (k - 1) = looked first hi k) as Hlk.
    { unfold looked. replace (k - 1 + 1) with k by lia.
      pose proof (iZeroOf_mono k first). lia. }
    rewrite <- Hlk in Hbest. specialize (IH (k - 1) iRet fr Hrest Hbest).
    destruct (nextLoop segs iMin iRet fr) as [[segs' pg] fr2]. destruct IH as [Hsegs' Hb'].
    split; [|done]. simpl. destruct (Z.leb_spec first k); [lia|]. done.
Qed.

(** ** The iterator as a whole *)

Section Iterate.
Context (walIndexPage : Z -> Z) (w : Wal) (log : list Z) (first : Z).
Local Abbreviation hi := (mxFrame (hdr w)).
Hypothesis Hindex : index_ok w log.
Hypothesis Hpages : pages_ok log.
Hypothesis Hhi : 1 <= hi <= Z.of_nat (length log).
Hypothesis Hfirst : 0 <= first.
Hypothesis Hlo : iZeroOf first <= hi.
Hypothesis Hmap : forall i, 0 <= i <= walFramePage hi -> walIndexPage i = SQLITE_OK.

Definition iter_ok (it : WalIterator) : Prop :=
  segs_ok log first hi (iPrior it) (walFramePage hi) (rev (aSegment it)).

Lemma hi_page :
  0 <= walFramePage hi /\ iZeroOf (walFramePage hi) < hi <= iZeroOf (walFramePage hi + 1).
Proof using Hindex Hhi.
  destruct Hindex as (_ & Hlen & _).
  destruct (proj1 (walFramePage_spec hi _ ltac:(lia)) eq_refl) as [Hk Hr].
  rewrite iZeroOf_succ by done. lia.
Qed.

(** The next page and its newest frame, among the frames after
    [iZeroOf first]. *)
Lemma walIteratorNext_ok it :
  iter_ok it ->
  let '(rc, pg, fr, it') := walIteratorNext it in
  (rc = 1 /\ segDone log (iPrior it) (iZeroOf first) hi)
  \/ (rc = 0 /\ pg < no_page /\ segBest log (iPrior it) (iZeroOf first) hi pg fr
      /\ iPrior it' = pg /\ iter_ok it').
Proof using Hindex Hpages Hhi Hfirst Hlo.
  intros Hit. unfold walIteratorNext. destruct hi_page as [Hk Hr].
  pose proof Hindex as (_ & Hlen & _).
  pose proof (nextLoop_ok log first hi (iPrior it) (walFramePage hi) (rev (aSegment it))
    no_page 0 Hpages Hfirst ltac:(lia) ltac:(lia) Hit) as H.
  fold no_page. destruct (nextLoop (rev (aSegment it)) (iPrior it) no_page 0) as [[segs pg] fr].
  destruct H as [Hsegs Hbest].
  { left. split; [done|]. intros f Hf. unfold looked in Hf. lia. }
  destruct Hbest as [[-> Hd]|[Hpg Hb]]; [left|right].
  - rewrite Z.eqb_refl. done.
  - destruct (Z.eqb_spec pg no_page); [lia|]. split; [done|]. split; [done|]. split; [done|].
    split; [done|]. unfold iter_ok. simpl. rewrite rev_involutive.
    eapply segs_ok_mono; [|exact Hsegs]. destruct Hb. lia.
Qed.

Lemma initSegment_ok k :
  0 <= k <= walFramePage hi ->
  exists s, initSegment walIndexPage w hi (walFramePage hi + 1) k = Ok s
    /\ seg_ok log hi k 0 s.
Proof using Hindex Hhi Hmap.
  intros Hk. destruct hi_page as [HK Hr]. destruct Hindex as (_ & Hlen & Hpg).
  pose proof (iZeroOf_nonneg k ltac:(lia)) as Hz. pose proof (pageCap_range k) as Hcap.
  pose proof (iZeroOf_succ k ltac:(lia)) as Hsucc.
  assert (iZeroOf k < hi) as Hlt.
  { destruct (decide (k = walFramePage hi)) as [->|]; [lia|].
    pose proof (iZeroOf_mono k (walFramePage hi) ltac:(lia)). lia. }
  pose proof (length_segOf log k ltac:(lia)) as Hseg.
  assert (page_ok k (segOf log k) (pageOf w k)) as Hpage.
  { apply Hpg; [lia|]. intros Hnil. rewrite Hnil in Hseg. simpl in Hseg. lia. }
  unfold initSegment. rewrite walHashGet_ok by (apply Hmap; lia). cbn [loc iZero].
  rewrite (page_length _ _ _ Hpage).
  assert ((if k + 1 =? walFramePage hi + 1 then hi - iZeroOf k
           else Z.of_nat (Z.to_nat (pageCap k))) = segLen hi k) as ->.
  { unfold segLen. destruct (Z.eqb_spec (k + 1) (walFramePage hi + 1)) as [E|E].
    - replace k with (walFramePage hi) in * by lia. lia.
    - pose proof (iZeroOf_mono k (walFramePage hi) ltac:(lia)). lia. }
  assert (0 < segLen hi k <= pageCap k) as Hn by (unfold segLen; lia).
  pose proof (walMergesort_identity (aPgno (pageOf w k)) (Z.to_nat (segLen hi k))) as Hsort.
  rewrite Z2Nat.id in Hsort by lia.
  destruct (walMergesort (aPgno (pageOf w k)) (seqZ 0 (segLen hi k)) (Z.to_nat (segLen hi k)))
    as [a n]. unfold HASHTABLE_NPAGE in Hcap.
  destruct Hsort as [Hsize Hsorted]; [lia|].
  eexists. split; [done|]. split; simpl; auto; try lia.
  intros j Hj. rewrite (page_pgno_nth _ _ _ _ Hpage) by lia.
  destruct (Z.ltb_spec j (Z.of_nat (length (segOf log k)))).
  - rewrite nthZ_segOf by lia. done.
  - unfold segLen in Hj. lia.
Qed.

Lemma initLoop_ok n i bs :
  first <= i -> i + Z.of_nat n = walFramePage hi + 1 ->
  segs_ok log first hi 0 (i - 1) (rev bs) ->
  exists l, initLoop walIndexPage n w hi (walFramePage hi + 1) i = Ok l
    /\ segs_ok log first hi 0 (walFramePage hi) (rev (bs ++ l)).
Proof using Hindex Hhi Hmap Hfirst.
  revert i bs. induction n as [|n IH]; intros i bs Hi Hn Hbs; cbn [initLoop].
  - exists []. split; [done|]. rewrite app_nil_r.
    by replace (walFramePage hi) with (i - 1) by lia.
  - destruct (initSegment_ok i) as (s & -> & Hs); [lia|].
    destruct (IH (i + 1) (bs ++ [s])) as (l & -> & Hl); [lia|lia| |].
    + rewrite rev_app_distr. simpl. replace (i + 1 - 1) with i by lia.
      split; [lia|]. rewrite (proj2 (Z.leb_le first i)) by lia. done.
    + exists (s :: l). split; [done|]. by rewrite <- app_assoc in Hl.
Qed.

Lemma segs_ok_none n :
  Z.of_nat n <= first ->
  segs_ok log first hi 0 (Z.of_nat n - 1) (rev (replicate n noSegment)).
Proof using.
  induction n as [|n IH]; intros Hn; [done|].
  rewrite replicate_S_end, rev_app_distr. cbn [rev app segs_ok].
  replace (Z.of_nat (S n) - 1) with (Z.of_nat n) by lia.
  split; [lia|]. rewrite (proj2 (Z.leb_gt first (Z.of_nat n))) by lia.
  split; [done|]. apply IH. lia.
Qed.

Lemma walIteratorInit_ok nBackfill :
  0 <= nBackfill <= hi -> nBackfill + 1 < max_frame ->
  first = walFramePage (nBackfill + 1) ->
  exists it, walIteratorInit walIndexPage true w nBackfill = Ok it
    /\ iPrior it = 0 /\ iter_ok it.
Proof using Hindex Hhi Hmap Hfirst Hlo.
  intros Hn Hmax Hf. unfold walIteratorInit. cbn [negb].
  rewrite u32_small by (unfold max_frame in *; lia). rewrite <- Hf.
  destruct hi_page as [HK Hr].
  destruct (proj1 (walFramePage_spec (nBackfill + 1) first ltac:(lia)) ltac:(done)) as [_ Hfr].
  assert (first <= walFramePage hi + 1) as Hle.
  { destruct (Z.le_gt_cases first (walFramePage hi + 1)) as [|Hgt]; [done|].
    pose proof (iZeroOf_mono (walFramePage hi + 1) first ltac:(lia)).
    pose proof (pageCap_range (walFramePage hi + 1)). lia. }
  rewrite (Z.min_l first) by lia.
  destruct (initLoop_ok (Z.to_nat (walFramePage hi + 1 - first)) first
    (replicate (Z.to_nat first) noSegment)) as (l & -> & Hl); [lia|lia| |].
  - pose proof (segs_ok_none (Z.to_nat first) ltac:(lia)) as H. by rewrite Z2Nat.id in H by lia.
  - eexists. split; [done|]. split; [done|]. exact Hl.
Qed.

(** ** The reverse iterator *)

(** The frame written to [frames] for page [p], 0 for none. *)
Definition pick (mxSafeFrame : Z) (ignoreFrameIfNewerExist : bool) (p : Z) : Z :=
  let newest := lookBack log p (iZeroOf first + 1) (Z.to_nat hi) in
  if (newest >? mxSafeFrame) && negb ignoreFrameIfNewerExist
  then lookBack log p (minFrame w) (Z.to_nat mxSafeFrame)
  else newest.

Definition pickZ (mxSafeFrame : Z) (ignore : bool) (p : Z) : Z :=
  if lookBack log p (iZeroOf first + 1) (Z.to_nat hi) =? 0 then 0
  else pick mxSafeFrame ignore p.

Lemma lookBack_cases p lo n :
  lookBack log p lo n = 0
  \/ (1 <= lookBack log p lo n <= Z.of_nat n /\ lo <= lookBack log p lo n
      /\ pageAt log (lookBack log p lo n) = p).
Proof using.
  induction n as [|n IH]; cbn [lookBack]; [by left|].
  destruct (Z.ltb_spec (Z.of_nat (S n)) lo); [by left|].
  destruct (Z.eqb_spec (nthZ log (Z.of_nat n)) p) as [E|E].
  - right. split; [lia|]. split; [lia|]. unfold pageAt. rewrite <- E. f_equal. lia.
  - destruct IH as [IH|(H1 & H2 & H3)]; [by left|right]. split; [lia|done].
Qed.

Lemma segBest_lookBack iMin pg fr :
  segBest log iMin (iZeroOf first) hi pg fr ->
  lookBack log pg (iZeroOf first + 1) (Z.to_nat hi) = fr.
Proof using Hfirst Hhi.
  intros (_ & Hr & Hp & Hmax & _). pose proof (iZeroOf_nonneg first Hfirst).
  apply lookBack_some; [lia|lia|done|]. intros f' Hf' Heq.
  specialize (Hmax f' ltac:(lia) Heq). lia.
Qed.

(** The frames array after the pages up to [iMin] have been visited. *)
Definition filled (mxSafeFrame : Z) (ignore : bool) (iMin : Z) (fr : list Z) : Prop :=
  Z.of_nat (length fr) = hi + 1
  /\ forall f, 1 <= f <= hi ->
     nthZ fr f = if (pageAt log f <=? iMin) && (pickZ mxSafeFrame ignore (pageAt log f) =? f)
                 then pageAt log f else 0.

Lemma pickZ_frame mx ignore p :
  0 <= mx <= hi -> pickZ mx ignore p <> 0 ->
  1 <= pickZ mx ignore p <= hi /\ pageAt log (pickZ mx ignore p) = p
  /\ exists f, iZeroOf first < f <= hi /\ pageAt log f = p.
Proof using Hhi Hfirst.
  intros Hmx Hnz. unfold pickZ in *.
  destruct (Z.eqb_spec (lookBack log p (iZeroOf first + 1) (Z.to_nat hi)) 0) as [|Hne]; [done|].
  destruct (lookBack_cases p (iZeroOf first + 1) (Z.to_nat hi)) as [|(H1 & H2 & H3)]; [done|].
  assert (exists f, iZeroOf first < f <= hi /\ pageAt log f = p) as Hex by (eexists; split; [|done]; lia).
  unfold pick in *. destruct (_ && _).
  - destruct (lookBack_cases p (minFrame w) (Z.to_nat mx)) as [|(H1' & H2' & H3')]; [done|].
    split; [lia|done].
  - split; [lia|done].
Qed.

(** One page more. *)
Lemma filled_step mx ignore iMin fr pg newest :
  0 <= mx <= hi -> filled mx ignore iMin fr ->
  segBest log iMin (iZeroOf first) hi pg newest ->
  filled mx ignore pg
    (if pickZ mx ignore pg =? 0 then fr else setZ fr (pickZ mx ignore pg) pg).
Proof using Hhi Hfirst.
  intros Hmx [Hlen Hf] (Hgt & _ & _ & _ & Hmin).
  pose proof (pickZ_frame mx ignore pg Hmx) as Hpick. set (x := pickZ mx ignore pg) in *.
  split; [destruct (x =? 0); rewrite ?length_setZ; done|].
  intros f Hr. destruct (Z.eqb_spec (pickZ mx ignore (pageAt log f)) f) as [Hsel|Hnsel].
  - destruct (pickZ_frame mx ignore (pageAt log f) Hmx ltac:(lia)) as (_ & _ & g & Hg & Hgp).
    destruct (Z.lt_trichotomy (pageAt log f) pg) as [Hlt|[Heq|Hlarge]].
    + assert (pageAt log f <= iMin) as Hle.
      { destruct (Z.le_gt_cases (pageAt log f) iMin); [done|].
        specialize (Hmin g Hg ltac:(lia)). lia. }
      assert (nthZ (if x =? 0 then fr else setZ fr x pg) f = nthZ fr f) as ->.
      { destruct (Z.eqb_spec x 0) as [|Hx]; [done|]. destruct (Hpick Hx) as (Hxr & Hxp & _).
        apply nthZ_setZ_ne; [lia|lia|]. intros ->. lia. }
      rewrite Hf by done. destruct (Z.leb_spec (pageAt log f) iMin); [|lia].
      destruct (Z.leb_spec (pageAt log f) pg); [|lia]. by rewrite Hsel, Z.eqb_refl.
    + rewrite Heq in Hsel. fold x in Hsel. destruct (Z.eqb_spec x 0); [lia|].
      rewrite Hsel, nthZ_setZ_eq, Heq, Z.leb_refl by lia. done.
    + destruct (Z.leb_spec (pageAt log f) pg); [lia|]. cbn [andb].
      assert (nthZ fr f = 0) as H0.
      { rewrite Hf by done. destruct (Z.leb_spec (pageAt log f) iMin); [lia|done]. }
      destruct (Z.eqb_spec x 0) as [|Hx]; [done|]. destruct (Hpick Hx) as (Hxr & Hxp & _).
      rewrite nthZ_setZ_ne; [done|lia|lia|]. intros ->. lia.
  - rewrite andb_false_r.
    assert (nthZ fr f = 0) as H0.
    { rewrite Hf by done. destruct (Z.eqb_spec (pickZ mx ignore (pageAt log f)) f); [done|].
      by rewrite andb_false_r. }
    destruct (Z.eqb_spec x 0) as [|Hx]; [done|]. destruct (Hpick Hx) as (Hxr & Hxp & _).
    rewrite nthZ_setZ_ne; [done|lia|lia|]. intros Heq. apply Hnsel. rewrite <- Heq, Hxp. done.
Qed.

(** Number of frames whose page is still to be visited. *)
Definition todo (iMin : Z) : nat := length (filter (fun p => iMin < p) (take (Z.to_nat hi) log)).

Lemma todo_lt iMin pg : iMin < pg -> pg ∈ take (Z.to_nat hi) log -> (todo pg < todo iMin)%nat.
Proof using.
  intros Hlt. unfold todo. induction (take (Z.to_nat hi) log) as [|p l IH]; [by intros ?%elem_of_nil|].
  assert (length (filter (fun p => (pg < p)%Z) l) <= length (filter (fun p => (iMin < p)%Z) l))%nat as Hle.
  { clear IH. induction l as [|q l IH]; [done|]. rewrite !filter_cons.
    repeat case_decide; simpl; lia. }
  rewrite !filter_cons. intros [->|Hin]%elem_of_cons.
  - repeat case_decide; simpl; lia.
  - specialize (IH Hin). repeat case_decide; simpl; lia.
Qed.

Lemma todo_le iMin : (todo iMin <= Z.to_nat hi)%nat.
Proof using Hhi.
  unfold todo. etransitivity; [apply length_filter|]. rewrite length_take. lia.
Qed.

Lemma revLoop_ok n mx ignore it fr :
  0 <= mx <= hi -> 0 <= minFrame w < max_frame ->
  (readLock w <> 0 \/ bShmUnreliable w = true) ->
  iter_ok it -> 0 <= iPrior it -> filled mx ignore (iPrior it) fr -> (todo (iPrior it) < n)%nat ->
  exists fr', revLoop walIndexPage n w it mx ignore fr = Some (Ok fr')
    /\ filled mx ignore no_page fr'.
Proof using Hindex Hpages Hhi Hfirst Hlo Hmap.
  intros Hmx Hmin Hlock. revert it fr. induction n as [|n IH]; intros it fr Hit Hpr Hfill Hn; [lia|].
  cbn [revLoop]. pose proof (walIteratorNext_ok it Hit) as Hnext.
  destruct (walIteratorNext it) as [[[rc pg] newest] it']. destruct Hnext as
    [[-> Hdone]|(-> & Hpg & Hbest & Hpr' & Hit')].
  - exists fr. split; [done|]. destruct Hfill as [Hlen Hf]. split; [done|]. intros f Hr.
    rewrite Hf by done. destruct (Z.eqb_spec (pickZ mx ignore (pageAt log f)) f) as [Hsel|];
      [|by rewrite !andb_false_r].
    destruct (pickZ_frame mx ignore (pageAt log f) Hmx ltac:(lia)) as (_ & _ & g & Hg & Hgp).
    specialize (Hdone g Hg). rewrite Hgp in Hdone.
    pose proof (pageAt_range log f Hpages ltac:(lia)).
    destruct (Z.leb_spec (pageAt log f) (iPrior it)); [|lia].
    destruct (Z.leb_spec (pageAt log f) no_page); [done|lia].
  - cbn [negb Z.eqb]. pose proof (segBest_lookBack _ _ _ Hbest) as Hnew.
    pose proof (filled_step mx ignore _ fr pg newest Hmx Hfill Hbest) as Hstep.
    rewrite <- Hpr' in Hstep at 1.
    pose proof Hbest as (Hgt & Hr & Hp & _).
    assert (pickZ mx ignore pg
      = if (newest >? mx) && negb ignore then lookBack log pg (minFrame w) (Z.to_nat mx) else newest)
      as Hpick.
    { unfold pickZ, pick. rewrite Hnew. pose proof (iZeroOf_nonneg first Hfirst).
      destruct (Z.eqb_spec newest 0); [lia|done]. }
    assert (todo (iPrior it') < n)%nat as Hn'.
    { rewrite Hpr'. enough (todo pg < todo (iPrior it))%nat by lia. apply todo_lt; [done|].
      pose proof (iZeroOf_nonneg first Hfirst). unfold pageAt in Hp.
      rewrite <- (nthZ_take log (Z.to_nat hi)) in Hp by lia. rewrite <- Hp.
      apply nthZ_elem. rewrite Hp. lia. }
    assert (0 <= iPrior it') as Hpr0 by lia.
    destruct ((newest >? mx) && negb ignore).
    + rewrite (walFindFrame_ok walIndexPage w log); auto; [|lia|].
      2:{ intros i Hi. apply Hmap. split; [lia|]. destruct (decide (mx = 0)) as [->|].
          - rewrite walFramePage_0 in Hi. pose proof (proj1 hi_page). lia.
          - destruct Hindex as (_ & Hlen & _).
            pose proof (proj1 (walFramePage_spec mx _ ltac:(lia)) eq_refl).
            pose proof hi_page. destruct (Z.le_gt_cases (walFramePage mx) (walFramePage hi)); [lia|].
            pose proof (iZeroOf_mono (walFramePage hi) (walFramePage mx) ltac:(lia)).
            rewrite (iZeroOf_succ (walFramePage hi)) in * by lia. lia. }
      rewrite Hpick in Hstep. destruct (lookBack log pg (minFrame w) (Z.to_nat mx) =? 0);
        apply IH; auto.
    + rewrite Hpick in Hstep. pose proof (iZeroOf_nonneg first Hfirst).
      destruct (Z.eqb_spec newest 0); [lia|]. apply IH; auto.
Qed.

Lemma walIteratorRevInit_ok nBackfill mx ignore :
  0 <= nBackfill <= hi -> nBackfill + 1 < max_frame -> first = walFramePage (nBackfill + 1) ->
  0 <= mx <= hi -> 0 <= minFrame w < max_frame ->
  (readLock w <> 0 \/ bShmUnreliable w = true) ->
  exists fr, walIteratorRevInit walIndexPage true true w nBackfill mx ignore
               = Some (Ok (mkRev hi fr))
    /\ filled mx ignore no_page fr.
Proof using Hindex Hpages Hhi Hfirst Hlo Hmap.
  intros Hn Hmax Hf Hmx Hmin Hlock. unfold walIteratorRevInit. cbn [negb].
  destruct (walIteratorInit_ok nBackfill) as (it & -> & Hpr & Hit); auto.
  destruct (revLoop_ok (S (Z.to_nat hi)) mx ignore it (replicate (Z.to_nat (hi + 1)) 0))
    as (fr & -> & Hfill); auto.
  - lia.
  - split; [rewrite length_replicate; lia|]. intros f Hr. rewrite nthZ_replicate, Hpr.
    pose proof (pageAt_range log f Hpages ltac:(lia)).
    destruct (Z.leb_spec (pageAt log f) 0); [lia|done].
  - pose proof (todo_le (iPrior it)). lia.
  - by exists fr.
Qed.
End Iterate.

(** ** Draining the reverse iterator *)

(** The pairs (page, frame) that the checkpoint loop gets, in order. *)
Fixpoint drain (n : nat) (p : WalIteratorRev) : list (Z * Z) :=
  match n with
  | O => []
  | S n' =>
      let '(rc, pg, fr, p) := walIteratorRevNext p in
      if negb (rc =? 0) then [] else (pg, fr) :: drain n' p
  end.

Lemma RevNext_skip c fr :
  nthZ fr (Z.of_nat (S c)) = 0 ->
  walIteratorRevNext (mkRev (Z.of_nat (S c)) fr) = walIteratorRevNext (mkRev (Z.of_nat c) fr).
Proof.
  intros H0. unfold walIteratorRevNext. cbn [current]. rewrite !Nat2Z.id.
  cbn [revSkip current frames]. rewrite H0, Z.eqb_refl, andb_true_r.
  rewrite Z.gtb_ltb, (proj2 (Z.ltb_lt 0 (Z.of_nat (S c)))) by lia.
  by replace (Z.of_nat (S c) - 1) with (Z.of_nat c) by lia.
Qed.

Lemma RevNext_hit c fr :
  nthZ fr (Z.of_nat (S c)) <> 0 ->
  walIteratorRevNext (mkRev (Z.of_nat (S c)) fr)
  = (0, nthZ fr (Z.of_nat (S c)), Z.of_nat (S c), mkRev (Z.of_nat c) fr).
Proof.
  intros Hnz%Z.eqb_neq. unfold walIteratorRevNext. cbn [current]. rewrite Nat2Z.id.
  cbn [revSkip current frames]. rewrite Hnz, andb_false_r. cbn [current frames].
  destruct (Z.eqb_spec (Z.of_nat (S c)) 0); [lia|].
  by replace (Z.of_nat (S c) - 1) with (Z.of_nat c) by lia.
Qed.

Fixpoint countdown (n : nat) : list Z :=
  match n with O => [] | S n' => Z.of_nat n :: countdown n' end.

Lemma drain_ok c n fr :
  (c < n)%nat ->
  drain n (mkRev (Z.of_nat c) fr)
  = (fun f => (nthZ fr f, f)) <$> filter (fun f => nthZ fr f <> 0) (countdown c).
Proof.
  revert n. induction c as [|c IH]; intros [|n] Hn; try lia; [done|].
  cbn [countdown]. rewrite filter_cons. case_decide as Hnz.
  - cbn [drain]. rewrite RevNext_hit by done. cbn [negb Z.eqb]. rewrite IH by lia. done.
  - cbn [drain]. rewrite RevNext_skip by lia. specialize (IH (S n) ltac:(lia)). done.
Qed.

(** ** Properties *)

(** [walIteratorNext] returns the smallest page number not returned
    before and the newest frame of that page, among the frames that the
    iterator covers, and says so when there is none. *)
Theorem walIteratorNext_refines w log first it :
  index_ok w log -> pages_ok log -> 1 <= mxFrame (hdr w) <= Z.of_nat (length log) ->
  0 <= first -> iZeroOf first <= mxFrame (hdr w) -> iter_ok w log first it ->
  let '(rc, pg, fr, it') := walIteratorNext it in
  let hi := mxFrame (hdr w) in
  (rc = 1 /\ forall f, iZeroOf first < f <= hi -> pageAt log f <= iPrior it)
  \/ (rc = 0 /\ iPrior it < pg
      /\ fr = lookBack log pg (iZeroOf first + 1) (Z.to_nat hi) /\ pageAt log fr = pg
      /\ (forall f, iZeroOf first < f <= hi -> iPrior it < pageAt log f -> pg <= pageAt log f)
      /\ iPrior it' = pg /\ iter_ok w log first it').
Proof.
  intros Hindex Hpages Hhi Hfirst Hlo Hit.
  pose proof (walIteratorNext_ok w log first Hindex Hpages Hhi Hfirst Hlo it Hit) as H.
  destruct (walIteratorNext it) as [[[rc pg] fr] it'].
  destruct H as [H|(Hrc & _ & Hbest & Hpr & Hit')]; [by left|right].
  rewrite (segBest_lookBack w log first Hhi Hfirst _ _ _ Hbest).
  destruct Hbest as (Hgt & Hr & Hp & _ & Hmin). done.
Qed.

(** A log of two versions of page 5, and page 7 between them. *)
Definition threeFrames : Wal :=
  let w := (walIndexAppend mapped emptyWal 1 5).2 in
  let w := (walIndexAppend mapped w 2 7).2 in
  let w := (walIndexAppend mapped w 3 5).2 in
  set_hdr w (set_mxFrame zeroHdr 3).

Lemma threeFrames_ok : index_ok threeFrames [5; 7; 5].
Proof.
  destruct (walIndexAppend_ok mapped emptyWal [] 1 5) as (w1 & E1 & S1 & Hok1);
    [apply index_ok_empty|lia|simpl; lia|done|by left|done|].
  destruct (walIndexAppend_ok mapped w1 [5] 2 7) as (w2 & E2 & S2 & Hok2);
    [exact Hok1|lia|simpl; lia|done|by left|done|].
  destruct (walIndexAppend_ok mapped w2 [5; 7] 3 5) as (w3 & E3 & S3 & Hok3);
    [exact Hok2|lia|simpl; lia|done|by left|done|].
  unfold threeFrames. rewrite E1. cbn [snd]. rewrite E2. cbn [snd]. rewrite E3. cbn [snd].
  by apply (index_ok_pages w3).
Qed.

Lemma pages_ok_575 : pages_ok [5; 7; 5].
Proof. repeat (apply Forall_cons_2; [done|]). by apply Forall_nil. Qed.

Lemma walIteratorNext_refines_witness :
  exists it, walIteratorInit mapped true threeFrames 0 = Ok it
    /\ (walIteratorNext it).1 = (0, 5, 3).
Proof.
  destruct (walIteratorInit_ok mapped threeFrames [5; 7; 5] 0 threeFrames_ok
    ltac:(vm_compute; split; congruence) ltac:(lia) ltac:(vm_compute; congruence)
    ltac:(done) 0) as (it & E & Hpr & Hit);
    [vm_compute; split; congruence|done|reflexivity|].
  exists it. split; [exact E|].
  pose proof (walIteratorNext_refines threeFrames [5; 7; 5] 0 it threeFrames_ok pages_ok_575
    ltac:(vm_compute; split; congruence) ltac:(lia) ltac:(vm_compute; congruence) Hit) as H.
  destruct (walIteratorNext it) as [[[rc pg] fr] it']. cbn [fst].
  change (mxFrame (hdr threeFrames)) with 3 in H. change (iZeroOf 0) with 0 in H.
  rewrite Hpr in H. destruct H as [[_ H]|(-> & Hgt & Hfr & Hp & Hmin & _)].
  - exfalso. specialize (H 1 ltac:(lia)). vm_compute in H. congruence.
  - pose proof (Hmin 1 ltac:(lia) ltac:(done)) as Hle. change (pageAt [5; 7; 5] 1) with 5 in Hle.
    assert (pg = 5) as ->; [|by rewrite Hfr].
    assert (fr = 0 \/ fr = 1 \/ fr = 2 \/ fr = 3) as Hcases.
    { destruct (lookBack_cases [5; 7; 5] pg (0 + 1) 3) as [E'|[E' _]];
        change (Z.to_nat 3) with 3%nat in Hfr; lia. }
    destruct Hcases as [->|[->|[->| ->]]]; vm_compute in Hp; lia.
Defined.

(** The iterator of the checkpoint, drained, gives exactly the frames
    [pickZ] selects, newest first: for each page with a frame after the
    backfilled wal-index pages, its newest frame, replaced when it is beyond
    [mxSafeFrame] by the frame that [walFindFrame] finds (unless such pages
    are to be ignored, which leaves the frame beyond [mxSafeFrame]). *)
Theorem walIteratorRev_refines walIndexPage w log nBackfill mxSafeFrame ignore :
  let hi := mxFrame (hdr w) in
  let first := walFramePage (nBackfill + 1) in
  index_ok w log -> pages_ok log -> 1 <= hi <= Z.of_nat (length log) ->
  0 <= nBackfill <= hi -> nBackfill + 1 < max_frame -> 0 <= mxSafeFrame <= hi ->
  0 <= minFrame w < max_frame -> (readLock w <> 0 \/ bShmUnreliable w = true) ->
  (forall i, 0 <= i <= walFramePage hi -> walIndexPage i = SQLITE_OK) ->
  exists it,
    walIteratorRevInit walIndexPage true true w nBackfill mxSafeFrame ignore = Some (Ok it)
    /\ drain (S (Z.to_nat hi)) it
       = (fun f => (pageAt log f, f)) <$>
         filter (fun f => pickZ w log first mxSafeFrame ignore (pageAt log f) = f)
                (countdown (Z.to_nat hi)).
Proof.
  intros hi first Hindex Hpages Hhi Hn Hmax Hmx Hmin Hlock Hmap.
  destruct (proj1 (walFramePage_spec (nBackfill + 1) first ltac:(lia)) eq_refl) as [Hfirst Hfr].
  destruct (walIteratorRevInit_ok walIndexPage w log first Hindex Hpages Hhi Hfirst ltac:(lia) Hmap
    nBackfill mxSafeFrame ignore) as (fr & E & Hlen & Hfill); auto.
  exists (mkRev hi fr). split; [exact E|].
  rewrite <- (Z2Nat.id hi) at 2 by lia. rewrite drain_ok by lia.
  assert (forall f, 1 <= f <= hi -> nthZ fr f
    = if decide (pickZ w log first mxSafeFrame ignore (pageAt log f) = f)
      then pageAt log f else 0) as Hfr'.
  { intros f Hf. rewrite Hfill by done. pose proof (pageAt_range log f Hpages ltac:(lia)).
    destruct (Z.leb_spec (pageAt log f) no_page); [|lia].
    destruct (Z.eqb_spec (pickZ w log first mxSafeFrame ignore (pageAt log f)) f);
      by case_decide. }
  assert (Z.to_nat hi <= Z.to_nat hi)%nat as Hle by lia. revert Hle.
  generalize (Z.to_nat hi) at 1 3 4 as n. induction n as [|n IH]; intros Hle; [done|].
  cbn [countdown]. rewrite !filter_cons.
  pose proof (Hfr' (Z.of_nat (S n)) ltac:(lia)) as Hv.
  pose proof (pageAt_range log (Z.of_nat (S n)) Hpages ltac:(lia)).
  destruct (decide (pickZ w log first mxSafeFrame ignore (pageAt log (Z.of_nat (S n)))
    = Z.of_nat (S n))); rewrite Hv; case_decide; try lia;
    rewrite ?fmap_cons, ?Hv, IH by lia; done.
Qed.

Lemma walIteratorRev_refines_witness :
  exists it, walIteratorRevInit mapped true true threeFrames 0 2 false = Some (Ok it)
    /\ drain 4 it = [(7, 2); (5, 1)].
Proof.
  destruct (walIteratorRev_refines mapped threeFrames [5; 7; 5] 0 2 false) as (it & E & Hd);
    [apply threeFrames_ok|apply pages_ok_575|vm_compute; split; congruence
    |vm_compute; split; congruence|done|vm_compute; split; congruence
    |vm_compute; split; congruence|left; vm_compute; congruence|done|].
  exists it. split; [exact E|]. etransitivity; [exact Hd|]. vm_compute. reflexivity.
Defined.

(** A page whose only versions up to [mxSafeFrame] are before [minFrame]. *)
Lemma lookBack_below log p lo n : lookBack log p 1 n < lo -> lookBack log p lo n = 0.
Proof.
  intros H. destruct (lookBack_cases log p lo n) as [|(H1 & H2 & H3)]; [done|].
  set (f := lookBack log p lo n) in *. enough (f <= lookBack log p 1 n) by lia. clear -H1 H3. clearbody f.
  induction n as [|n IH]; [lia|]. cbn [lookBack]. destruct (Z.ltb_spec (Z.of_nat (S n)) 1); [lia|].
  destruct (Z.eqb_spec (nthZ log (Z.of_nat n)) p) as [E|E]; [lia|]. apply IH.
  enough (f <> Z.of_nat (S n)) by lia. intros ->. apply E. rewrite <- H3. unfold pageAt. f_equal. lia.
Qed.

(** C36: [walIteratorRevInit] searches with the [minFrame] of the last read
    transaction of its connection.  Every page that has a frame beyond
    [mxSafeFrame] and whose newest version up to [mxSafeFrame] is before this
    [minFrame] is left out by the iterator: it gives no frame for the page,
    although the log has a safe one. *)
Theorem stale_minFrame_drops_page walIndexPage w log nBackfill mxSafeFrame p :
  let hi := mxFrame (hdr w) in
  index_ok w log -> pages_ok log -> 1 <= hi <= Z.of_nat (length log) ->
  0 <= nBackfill <= hi -> nBackfill + 1 < max_frame -> 0 <= mxSafeFrame <= hi ->
  0 <= minFrame w < max_frame -> (readLock w <> 0 \/ bShmUnreliable w = true) ->
  (forall i, 0 <= i <= walFramePage hi -> walIndexPage i = SQLITE_OK) ->
  mxSafeFrame < lookBack log p 1 (Z.to_nat hi) ->
  0 < lookBack log p 1 (Z.to_nat mxSafeFrame) < minFrame w ->
  exists it, walIteratorRevInit walIndexPage true true w nBackfill mxSafeFrame false = Some (Ok it)
    /\ forall f, (p, f) ∉ drain (S (Z.to_nat hi)) it.
Proof.
  intros hi Hindex Hpages Hhi Hn Hmax Hmx Hmin Hlock Hmap Hnew Hold.
  destruct (walIteratorRev_refines walIndexPage w log nBackfill mxSafeFrame false) as (it & E & Hd); auto.
  exists it. split; [exact E|]. intros f. fold hi in Hd. rewrite Hd. intros (g & [= Hp ->] & Hg)%list_elem_of_fmap.
  apply list_elem_of_filter in Hg as [Hsel Hg]. rewrite <- Hp in Hsel.
  unfold pickZ, pick in Hsel. fold hi in Hsel. set (newest := lookBack log p (_ + 1) (Z.to_nat hi)) in Hsel.
  assert (1 <= g) as Hg1 by (revert Hg; clear; induction (Z.to_nat hi) as [|n IH]; [by intros ?%elem_of_nil|];
    intros [->|?]%elem_of_cons; [lia|auto]).
  destruct (Z.eqb_spec newest 0) as [|Hz]; [lia|].
  destruct (lookBack_inv log p _ _ newest eq_refl Hz) as (_ & _ & Hlast).
  destruct (lookBack_inv log p 1 (Z.to_nat hi) _ eq_refl ltac:(lia)) as (Hr & Hpg & _).
  assert (lookBack log p 1 (Z.to_nat hi) <= newest) as Hle
    by (apply Z.le_ngt; intros Hlt; by apply (Hlast (lookBack log p 1 (Z.to_nat hi)) ltac:(lia))).
  rewrite Z.gtb_ltb, (proj2 (Z.ltb_lt _ _)) in Hsel by lia. cbn [negb andb] in Hsel.
  rewrite lookBack_below in Hsel by lia. lia.
Qed.

(** Page 5 with a version that is safe and one that is not. *)
Lemma stale_minFrame_drops_page_witness :
  exists it, walIteratorRevInit mapped true true (set_minFrame (set_readLock threeFrames (-1)) 2) 0 2 false = Some (Ok it)
    /\ forall f, (5, f) ∉ drain 4 it.
Proof.
  apply (stale_minFrame_drops_page mapped (set_minFrame (set_readLock threeFrames (-1)) 2) [5; 7; 5] 0 2 5).
  - exact threeFrames_ok.
  - exact pages_ok_575.
  - vm_compute. split; congruence.
  - vm_compute. split; congruence.
  - done.
  - vm_compute. split; congruence.
  - vm_compute. split; congruence.
  - left. vm_compute. congruence.
  - done.
  - done.
  - done.
Defined.
