(* ===== verification/WalFormat.v ===== *)
(** * src/libsql-sqlite3/src/wal.c: checksums, frame headers, header copies

    The bytes of the WAL file and of the wal-index header.  [be] is
    SQLITE_BIGENDIAN, the byte order of the host; the format of the WAL file
    does not depend on it. *)

From stdpp Require Import base list numbers option.
From S2P Require Import Prelude Util Varint Wal.
#[local] Open Scope Z_scope.

(** ** Words in memory *)

Definition word_be (b0 b1 b2 b3 : Z) : Z := b0 * 2 ^ 24 + b1 * 2 ^ 16 + b2 * 2 ^ 8 + b3.

Definition word (big : bool) (b0 b1 b2 b3 : Z) : Z :=
  if big then word_be b0 b1 b2 b3 else word_be b3 b2 b1 b0.

(** The array of 32-bit words that a cast of a byte array gives. *)
Fixpoint words (big : bool) (a : list Z) : list Z :=
  match a with
  | b0 :: b1 :: b2 :: b3 :: a' => word big b0 b1 b2 b3 :: words big a'
  | _ => []
  end.

Definition store32 (big : bool) (v : Z) : list Z :=
  if big then sqlite3Put4byte v else rev (sqlite3Put4byte v).

Definition store16 (big : bool) (v : Z) : list Z :=
  let l := [u8 (Z.shiftr v 8); u8 v] in if big then l else rev l.

Section Host.
Context (be : bool).

(** ** Checksums *)

Definition BYTESWAP32 (x : Z) : Z :=
  u32 (Z.shiftl (Z.land x 0x000000FF) 24 + Z.shiftl (Z.land x 0x0000FF00) 8
       + Z.shiftr (Z.land x 0x00FF0000) 8 + Z.shiftr (Z.land x 0xFF000000) 24).

(** One [s1 += w0 + s2; s2 += w1 + s1]. *)
Definition cksumStep (w0 w1 : Z) (s : Z * Z) : Z * Z :=
  let s1 := u32 (s.1 + u32 (w0 + s.2)) in
  let s2 := u32 (s.2 + u32 (w1 + s1)) in
  (s1, s2).

(** The loop of two words for each iteration, [f] being applied to each. *)
Fixpoint cksumLoop (f : Z -> Z) (aData : list Z) (s : Z * Z) : Z * Z :=
  match aData with
  | w0 :: w1 :: aData' => cksumLoop f aData' (cksumStep (f w0) (f w1) s)
  | _ => s
  end.

(** The loop of sixteen words for each iteration. *)
Fixpoint cksumLoop64 (aData : list Z) (s : Z * Z) : Z * Z :=
  match aData with
  | w0 :: w1 :: w2 :: w3 :: w4 :: w5 :: w6 :: w7
    :: w8 :: w9 :: w10 :: w11 :: w12 :: w13 :: w14 :: w15 :: aData' =>
      let s := cksumStep w0 w1 s in
      let s := cksumStep w2 w3 s in
      let s := cksumStep w4 w5 s in
      let s := cksumStep w6 w7 s in
      let s := cksumStep w8 w9 s in
      let s := cksumStep w10 w11 s in
      let s := cksumStep w12 w13 s in
      let s := cksumStep w14 w15 s in
      cksumLoop64 aData' s
  | _ => s
  end.

(** [a] holds the [nByte] bytes; [aIn] is [(0, 0)] when the pointer is null. *)
Definition walChecksumBytes (nativeCksum : bool) (a : list Z) (aIn : Z * Z) : Z * Z :=
  let aData := words be a in
  if negb nativeCksum then cksumLoop BYTESWAP32 aData aIn
  else if Z.of_nat (length a) mod 64 =? 0 then cksumLoop64 aData aIn
  else cksumLoop (fun w => w) aData aIn.

Definition bigendian : Z := if be then 1 else 0.

(** ** Frame headers *)

(** The header written for a frame and the running checksum after it. *)
Definition walEncodeFrame (w : Wal) (iPage nTruncate : Z) (aData : list Z) : list Z * (Z * Z) :=
  let aCksum := aFrameCksum (hdr w) in
  let aFrame := sqlite3Put4byte iPage ++ sqlite3Put4byte nTruncate in
  if iReCksum w =? 0 then
    let nativeCksum := bigEndCksum (hdr w) =? bigendian in
    let aCksum := walChecksumBytes nativeCksum aFrame aCksum in
    let aCksum := walChecksumBytes nativeCksum aData aCksum in
    (aFrame ++ aSalt (hdr w) ++ sqlite3Put4byte aCksum.1 ++ sqlite3Put4byte aCksum.2, aCksum)
  else (aFrame ++ replicate 16 0, aCksum).

Definition bytesAt (a : list Z) (off n : nat) : list Z := take n (drop off a).

(** [*piPage] and [*pnTruncate] of a valid frame, and the running checksum,
    which an invalid one may have advanced too. *)
Definition walDecodeFrame (w : Wal) (aData aFrame : list Z) : option (Z * Z) * (Z * Z) :=
  let aCksum := aFrameCksum (hdr w) in
  if negb (bool_decide (aSalt (hdr w) = bytesAt aFrame 8 8)) then (None, aCksum) else
  let pgno := sqlite3Get4byte (bytesAt aFrame 0 4) in
  if pgno =? 0 then (None, aCksum) else
  let nativeCksum := bigEndCksum (hdr w) =? bigendian in
  let aCksum := walChecksumBytes nativeCksum (bytesAt aFrame 0 8) aCksum in
  let aCksum := walChecksumBytes nativeCksum aData aCksum in
  if negb (aCksum.1 =? sqlite3Get4byte (bytesAt aFrame 16 4))
     || negb (aCksum.2 =? sqlite3Get4byte (bytesAt aFrame 20 4))
  then (None, aCksum)
  else (Some (pgno, sqlite3Get4byte (bytesAt aFrame 4 4)), aCksum).

(** ** The wal-index header *)

(** The bytes of the structure before [aCksum]. *)
Definition hdrBytes (h : WalIndexHdr) : list Z :=
  store32 be (iVersion h) ++ store32 be (unused h) ++ store32 be (iChange h)
  ++ [u8 (isInit h); u8 (bigEndCksum h)] ++ store16 be (hszPage h)
  ++ store32 be (mxFrame h) ++ store32 be (nPage h)
  ++ store32 be (aFrameCksum h).1 ++ store32 be (aFrameCksum h).2 ++ aSalt h.

Definition walIndexWriteHdr (w : Wal) : Wal :=
  let h := set_iVersion (set_isInit (hdr w) 1) WALINDEX_MAX_VERSION in
  let h := set_aCksum h (walChecksumBytes true (hdrBytes h) (0, 0)) in
  set_aHdr (set_hdr w h) (h, h).

#[export] Instance WalIndexHdr_eq_dec : EqDecision WalIndexHdr.
Proof. solve_decision. Defined.

Definition walPagesize (w : Wal) : Z :=
  Z.land (hszPage (hdr w)) 0xfe00 + Z.shiftl (Z.land (hszPage (hdr w)) 0x0001) 16.

(** The return value, [*pChanged] and the connection; [h1] and [h2] are what
    the two reads of the header copies give. *)
Definition walIndexTryHdr (w : Wal) (h1 h2 : WalIndexHdr) (pChanged : bool) : Z * bool * Wal :=
  if negb (bool_decide (h1 = h2)) then (1, pChanged, w)
  else if isInit h1 =? 0 then (1, pChanged, w)
  else if negb (bool_decide (walChecksumBytes true (hdrBytes h1) (0, 0) = aCksum h1))
  then (1, pChanged, w)
  else if negb (bool_decide (hdr w = h1)) then
    let w := set_hdr w h1 in
    (0, true, set_szPage w (walPagesize w))
  else (0, pChanged, w).

(** [salt1] is the random value. *)
Definition walRestartHdr (w : Wal) (salt1 : list Z) : Wal :=
  let w := set_nCkpt w (u32 (nCkpt w + 1)) in
  let aSalt0 := sqlite3Put4byte (u32 (1 + sqlite3Get4byte (bytesAt (aSalt (hdr w)) 0 4))) in
  let w := set_hdr w (set_aSalt (set_mxFrame (hdr w) 0) (aSalt0 ++ salt1)) in
  let w := walIndexWriteHdr w in
  set_ckptInfo w
    (mkInfo 0 (setZ (setZ (setZ (setZ (aReadMark (ckptInfo w)) 1 0)
        2 READMARK_NOT_USED) 3 READMARK_NOT_USED) 4 READMARK_NOT_USED) 0).

End Host.

Definition walFrameOffset (iFrame szPage : Z) : Z :=
  WAL_HDRSIZE + (iFrame - 1) * (szPage + WAL_FRAME_HDRSIZE).

(** ** Checksums do not depend on the host *)

(** The checksum of the format: [big] tells the order of the bytes in the
    words. *)
Definition cksum (big : bool) (a : list Z) (s : Z * Z) : Z * Z :=
  cksumLoop (fun w => w) (words big a) s.

Lemma word_be_range b0 b1 b2 b3 :
  is_byte b0 -> is_byte b1 -> is_byte b2 -> is_byte b3 -> 0 <= word_be b0 b1 b2 b3 < 2 ^ 32.
Proof. unfold is_byte, word_be. lia. Qed.

Lemma land_byte_field x k :
  0 <= k -> Z.land x (Z.shiftl 0xFF k) = x / 2 ^ k mod 2 ^ 8 * 2 ^ k.
Proof.
  intros Hk. apply Z.bits_inj'. intros n Hn. change 0xFF with (Z.ones 8).
  rewrite Z.land_spec, Z.shiftl_spec, Z.mul_pow2_bits by done.
  destruct (decide (n < k)) as [Hlt|Hge].
  - rewrite !(Z.testbit_neg_r _ (n - k)), andb_false_r by lia. done.
  - rewrite Z.testbit_mod_pow2, Z.div_pow2_bits by lia. replace (n - k + k) with n by lia.
    rewrite andb_comm. f_equal. destruct (Z.ltb_spec (n - k) 8).
    + apply Z.ones_spec_low. lia.
    + apply Z.ones_spec_high. lia.
Qed.

Lemma BYTESWAP32_word_be b0 b1 b2 b3 :
  is_byte b0 -> is_byte b1 -> is_byte b2 -> is_byte b3 ->
  BYTESWAP32 (word_be b0 b1 b2 b3) = word_be b3 b2 b1 b0.
Proof.
  intros H0 H1 H2 H3. unfold BYTESWAP32, is_byte in *. set (x := word_be b0 b1 b2 b3).
  change 0x000000FF with (Z.shiftl 0xFF 0) at 1. change 0x0000FF00 with (Z.shiftl 0xFF 8).
  change 0x00FF0000 with (Z.shiftl 0xFF 16). change 0xFF000000 with (Z.shiftl 0xFF 24).
  rewrite !land_byte_field by lia.
  assert (x / 2 ^ 0 mod 2 ^ 8 = b3) as ->.
  { rewrite Z.div_1_r. symmetry. apply Z.mod_unique with (b0 * 2 ^ 16 + b1 * 2 ^ 8 + b2);
      unfold x, word_be; lia. }
  assert (x / 2 ^ 8 = b0 * 2 ^ 16 + b1 * 2 ^ 8 + b2) as ->.
  { symmetry. apply Z.div_unique with b3; unfold x, word_be; lia. }
  assert (x / 2 ^ 16 = b0 * 2 ^ 8 + b1) as ->.
  { symmetry. apply Z.div_unique with (b2 * 2 ^ 8 + b3); unfold x, word_be; lia. }
  assert (x / 2 ^ 24 = b0) as ->.
  { symmetry. apply Z.div_unique with (b1 * 2 ^ 16 + b2 * 2 ^ 8 + b3); unfold x, word_be; lia. }
  replace ((b0 * 2 ^ 16 + b1 * 2 ^ 8 + b2) mod 2 ^ 8) with b2
    by (apply Z.mod_unique with (b0 * 2 ^ 8 + b1); lia).
  replace ((b0 * 2 ^ 8 + b1) mod 2 ^ 8) with b1 by (apply Z.mod_unique with b0; lia).
  rewrite (Z.mod_small b0), !Z.shiftl_mul_pow2, !Z.shiftr_div_pow2 by lia.
  replace (b1 * 2 ^ 16 / 2 ^ 8) with (b1 * 2 ^ 8) by (apply Z.div_unique with 0; lia).
  rewrite Z.div_mul by lia. unfold u32, word_be. rewrite Z.mod_small by lia. lia.
Qed.

Lemma BYTESWAP32_word big b0 b1 b2 b3 :
  is_byte b0 -> is_byte b1 -> is_byte b2 -> is_byte b3 ->
  BYTESWAP32 (word big b0 b1 b2 b3) = word (negb big) b0 b1 b2 b3.
Proof. intros. destruct big; simpl; by apply BYTESWAP32_word_be. Qed.

(** Induction over a list taken four elements at a time. *)
Lemma list_ind4 (P : list Z -> Prop) :
  (forall l, (length l < 4)%nat -> P l) ->
  (forall a b c d l, P l -> P (a :: b :: c :: d :: l)) -> forall l, P l.
Proof.
  intros Hs Hc l. remember (length l) as n eqn:E. revert l E.
  induction (lt_wf n) as [n _ IH]. intros l ->.
  destruct l as [|a [|b [|c [|d l]]]]; try (apply Hs; simpl; lia).
  apply Hc. apply (IH (length l)); [simpl; lia|done].
Qed.

Lemma words_swap big a :
  Forall is_byte a -> map BYTESWAP32 (words big a) = words (negb big) a.
Proof.
  revert a. apply (list_ind4 (fun a => Forall is_byte a -> _)).
  - intros [|a [|b [|c [|d l]]]] Hl; simpl in Hl; try lia; done.
  - intros a b c d l IH Hf. apply Forall_cons_1 in Hf as [Ha Hf].
    apply Forall_cons_1 in Hf as [Hb Hf]. apply Forall_cons_1 in Hf as [Hc Hf].
    apply Forall_cons_1 in Hf as [Hd Hf]. cbn [words map]. rewrite IH by done.
    f_equal. by apply BYTESWAP32_word.
Qed.

Lemma cksumLoop_map f ws s : cksumLoop f ws s = cksumLoop (fun w => w) (map f ws) s.
Proof.
  remember (length ws) as n eqn:E. revert ws s E.
  induction (lt_wf n) as [n _ IH]. intros [|w0 [|w1 ws]] s ->; try done.
  simpl. apply (IH (length ws)); [simpl; lia|done].
Qed.

Lemma length_words big a : length (words big a) = (length a / 4)%nat.
Proof.
  revert a. apply list_ind4.
  - intros [|a [|b [|c [|d l]]]] Hl; simpl in Hl; try lia; done.
  - intros a b c d l IH. cbn [words length]. rewrite IH.
    replace (S (S (S (S (length l))))) with (length l + 1 * 4)%nat by lia.
    rewrite Nat.div_add by lia. lia.
Qed.

(** The unrolled loop is the simple one. *)
Lemma cksumLoop64_simple n ws s :
  length ws = (n * 16)%nat -> cksumLoop64 ws s = cksumLoop (fun w => w) ws s.
Proof.
  revert ws s. induction n as [|n IH]; intros ws s Hl; [by destruct ws|].
  do 16 (destruct ws as [|? ws]; [simpl in Hl; lia|]).
  cbn [cksumLoop64 cksumLoop]. apply IH. simpl in Hl. lia.
Qed.

Lemma walChecksumBytes_native be a s :
  walChecksumBytes be true a s = cksum be a s.
Proof.
  unfold walChecksumBytes, cksum. cbn [negb].
  destruct (Z.eqb_spec (Z.of_nat (length a) mod 64) 0) as [E|]; [|done].
  apply (cksumLoop64_simple (length a / 64)). rewrite length_words.
  apply Z.mod_divide in E as [q Hq]; [|lia].
  replace (length a) with (Z.to_nat q * 64)%nat by lia.
  rewrite Nat.div_mul by lia. replace (Z.to_nat q * 64)%nat with (Z.to_nat q * 16 * 4)%nat by lia.
  by rewrite Nat.div_mul by lia.
Qed.

(** Word order [big] of the file, on a host of order [be]. *)
Lemma walChecksumBytes_ok be big a s :
  Forall is_byte a -> walChecksumBytes be (eqb big be) a s = cksum big a s.
Proof.
  intros Ha. destruct (eqb big be) eqn:E.
  - apply eqb_prop in E as ->. apply walChecksumBytes_native.
  - apply eqb_false_iff in E. unfold walChecksumBytes. cbn [negb].
    rewrite cksumLoop_map, words_swap by done. unfold cksum.
    by replace big with (negb be) by (destruct big, be; done).
Qed.

(** ** Frames *)

Definition is_u32 (x : Z) : Prop := 0 <= x < 2 ^ 32.
Definition pair_u32 (s : Z * Z) : Prop := is_u32 s.1 /\ is_u32 s.2.

Lemma cksumLoop_u32 f ws s : pair_u32 s -> pair_u32 (cksumLoop f ws s).
Proof.
  remember (length ws) as n eqn:E. revert ws s E.
  induction (lt_wf n) as [n _ IH]. intros [|w0 [|w1 ws]] s -> Hs; try done.
  simpl. apply (IH (length ws)); [simpl; lia|done|].
  split; apply Z.mod_pos_bound; done.
Qed.

Lemma cksum_u32 big a s : pair_u32 s -> pair_u32 (cksum big a s).
Proof. apply cksumLoop_u32. Qed.

Lemma bytesAt_app_l a b n : length a = n -> bytesAt (a ++ b) 0 n = a.
Proof. intros <-. unfold bytesAt. rewrite drop_0. apply take_app_length. Qed.

Lemma bytesAt_app_r a b off n :
  (length a <= off)%nat -> bytesAt (a ++ b) off n = bytesAt b (off - length a) n.
Proof. intros. unfold bytesAt. by rewrite drop_app_ge. Qed.

Lemma length_Put4byte v : length (sqlite3Put4byte v) = 4%nat.
Proof. done. Qed.

Lemma Get4byte_Put4byte_exact v : is_u32 v -> sqlite3Get4byte (sqlite3Put4byte v) = v.
Proof.
  intros Hv. rewrite <- (Get4byte_Put4byte v []) at 2 by (done || by apply Forall_nil).
  by rewrite app_nil_r.
Qed.

(** The part of the connection that frames depend on. *)
Record chain := mkChain { c_big : bool; c_salt : list Z; c_cksum : Z * Z }.

Definition chain_of (w : Wal) (c : chain) : Prop :=
  bigEndCksum (hdr w) = (if c_big c then 1 else 0) /\ aSalt (hdr w) = c_salt c
  /\ aFrameCksum (hdr w) = c_cksum c.

Definition chain_ok (c : chain) : Prop :=
  length (c_salt c) = 8%nat /\ Forall is_byte (c_salt c) /\ pair_u32 (c_cksum c).

Definition chain_next (c : chain) (s : Z * Z) : chain := mkChain (c_big c) (c_salt c) s.

(** The frame header of the format, and the checksum after the frame. *)
Definition frameCksum (c : chain) (iPage nTruncate : Z) (aData : list Z) : Z * Z :=
  cksum (c_big c) aData
    (cksum (c_big c) (sqlite3Put4byte iPage ++ sqlite3Put4byte nTruncate) (c_cksum c)).

Definition frameHdr (c : chain) (iPage nTruncate : Z) (aData : list Z) : list Z :=
  let s := frameCksum c iPage nTruncate aData in
  sqlite3Put4byte iPage ++ sqlite3Put4byte nTruncate ++ c_salt c
  ++ sqlite3Put4byte s.1 ++ sqlite3Put4byte s.2.

Lemma native_flag be big : ((if big : bool then 1 else 0) =? bigendian be) = eqb big be.
Proof. by destruct big, be. Qed.

Lemma put_pair_bytes a b : Forall is_byte (sqlite3Put4byte a ++ sqlite3Put4byte b).
Proof. apply Forall_app_2; apply Put4byte_bytes. Qed.

Lemma walEncodeFrame_ok be w c iPage nTruncate aData :
  chain_of w c -> iReCksum w = 0 -> Forall is_byte aData ->
  walEncodeFrame be w iPage nTruncate aData
  = (frameHdr c iPage nTruncate aData, frameCksum c iPage nTruncate aData).
Proof.
  intros (Hbig & Hsalt & Hck) Hre Hdata. unfold walEncodeFrame.
  rewrite Hre, Hbig, Hsalt, Hck, native_flag.
  rewrite !walChecksumBytes_ok by (done || apply put_pair_bytes).
  unfold frameHdr. by rewrite <- app_assoc.
Qed.

Lemma length_frameHdr c iPage nTruncate aData :
  chain_ok c -> length (frameHdr c iPage nTruncate aData) = 24%nat.
Proof. intros (Hs & _). unfold frameHdr. rewrite !length_app, !length_Put4byte, Hs. done. Qed.

(** The fields of a header of the right length. *)
Lemma frameHdr_fields c iPage nTruncate aData :
  chain_ok c ->
  let h := frameHdr c iPage nTruncate aData in
  let s := frameCksum c iPage nTruncate aData in
  bytesAt h 0 4 = sqlite3Put4byte iPage /\ bytesAt h 4 4 = sqlite3Put4byte nTruncate
  /\ bytesAt h 0 8 = sqlite3Put4byte iPage ++ sqlite3Put4byte nTruncate
  /\ bytesAt h 8 8 = c_salt c
  /\ bytesAt h 16 4 = sqlite3Put4byte s.1 /\ bytesAt h 20 4 = sqlite3Put4byte s.2.
Proof.
  intros (Hs & _) h s. unfold h, frameHdr. fold s. repeat split.
  - rewrite bytesAt_app_r by (simpl; lia). simpl length.
    rewrite bytesAt_app_r by (simpl; lia). rewrite bytesAt_app_l; [done|]. simpl. lia.
  - do 2 (rewrite bytesAt_app_r by (simpl; lia)). simpl length.
    rewrite bytesAt_app_r by lia. rewrite Hs. done.
  - do 2 (rewrite bytesAt_app_r by (simpl; lia)). simpl length.
    rewrite bytesAt_app_r by lia. rewrite Hs. done.
Qed.

(** What the decoder accepts. *)
Definition decodes (c : chain) (aData aFrame : list Z) (pgno nTruncate : Z) (s : Z * Z) : Prop :=
  pgno <> 0 /\ is_u32 pgno /\ is_u32 nTruncate /\ s = frameCksum c pgno nTruncate aData
  /\ aFrame = frameHdr c pgno nTruncate aData.

Lemma walDecodeFrame_valid be w c aData pgno nTruncate :
  chain_of w c -> chain_ok c -> Forall is_byte aData -> pgno <> 0 -> is_u32 pgno ->
  is_u32 nTruncate ->
  walDecodeFrame be w aData (frameHdr c pgno nTruncate aData)
  = (Some (pgno, nTruncate), frameCksum c pgno nTruncate aData).
Proof.
  intros (Hbig & Hsalt & Hck) Hc Hdata Hnz Hp Ht. unfold walDecodeFrame.
  destruct (frameHdr_fields c pgno nTruncate aData Hc) as (-> & -> & -> & -> & -> & ->).
  rewrite Hsalt, bool_decide_true by done. cbn [negb].
  rewrite !Get4byte_Put4byte_exact by done. destruct (Z.eqb_spec pgno 0); [done|].
  rewrite Hbig, Hck, native_flag, !walChecksumBytes_ok by (done || apply put_pair_bytes).
  fold (frameCksum c pgno nTruncate aData).
  destruct Hc as (_ & _ & Hu).
  destruct (cksum_u32 (c_big c) aData _ (cksum_u32 (c_big c)
    (sqlite3Put4byte pgno ++ sqlite3Put4byte nTruncate) _ Hu)) as [Hu1 Hu2].
  fold (frameCksum c pgno nTruncate aData) in Hu1, Hu2.
  by rewrite !Get4byte_Put4byte_exact, !Z.eqb_refl by done.
Qed.

Lemma bytesAt_split a off n m :
  (off + n + m <= length a)%nat -> bytesAt a off (n + m) = bytesAt a off n ++ bytesAt a (off + n) m.
Proof.
  intros H. unfold bytesAt. rewrite <- (take_drop n (drop off a)) at 1.
  rewrite take_app_ge by (rewrite length_take, length_drop; lia).
  rewrite length_take, length_drop, drop_drop. f_equal. f_equal. lia.
Qed.

Lemma length_bytesAt a off n : (off + n <= length a)%nat -> length (bytesAt a off n) = n.
Proof. intros. unfold bytesAt. rewrite length_take, length_drop. lia. Qed.

Lemma bytesAt_Forall a off n : Forall is_byte a -> Forall is_byte (bytesAt a off n).
Proof. intros. by apply Forall_take, Forall_drop. Qed.

Lemma header_split a :
  length a = 24%nat ->
  a = bytesAt a 0 4 ++ bytesAt a 4 4 ++ bytesAt a 8 8 ++ bytesAt a 16 4 ++ bytesAt a 20 4.
Proof.
  intros H.
  assert (bytesAt a 16 8 = bytesAt a 16 4 ++ bytesAt a 20 4) as <-
    by (apply (bytesAt_split a 16 4 4); lia).
  assert (bytesAt a 8 16 = bytesAt a 8 8 ++ bytesAt a 16 8) as <-
    by (apply (bytesAt_split a 8 8 8); lia).
  assert (bytesAt a 4 20 = bytesAt a 4 4 ++ bytesAt a 8 16) as <-
    by (apply (bytesAt_split a 4 4 16); lia).
  assert (bytesAt a 0 24 = bytesAt a 0 4 ++ bytesAt a 4 20) as <-
    by (apply (bytesAt_split a 0 4 20); lia).
  unfold bytesAt. rewrite drop_0, take_ge by lia. done.
Qed.

Lemma Get4byte_u32 p : Forall is_byte p -> is_u32 (sqlite3Get4byte p).
Proof.
  intros Hp. rewrite Get4byte_sum by done.
  pose proof (nthZ_byte p 0 Hp). pose proof (nthZ_byte p 1 Hp).
  pose proof (nthZ_byte p 2 Hp). pose proof (nthZ_byte p 3 Hp).
  unfold is_byte, is_u32 in *. lia.
Qed.

Lemma walDecodeFrame_sound be w c aData aFrame pgno nTruncate s :
  chain_of w c -> Forall is_byte aData -> Forall is_byte aFrame -> length aFrame = 24%nat ->
  walDecodeFrame be w aData aFrame = (Some (pgno, nTruncate), s) ->
  decodes c aData aFrame pgno nTruncate s.
Proof.
  intros (Hbig & Hsalt & Hck) Hdata Hbytes Hlen. unfold walDecodeFrame.
  rewrite Hsalt, Hbig, Hck, native_flag, !walChecksumBytes_ok by (done || by apply bytesAt_Forall).
  case_bool_decide as Hs; cbn [negb]; [|done].
  destruct (Z.eqb_spec (sqlite3Get4byte (bytesAt aFrame 0 4)) 0) as [|Hnz]; [done|].
  destruct (_ || _) eqn:E; [done|]. intros [= <- <- <-].
  apply orb_false_iff in E as [E1%negb_false_iff%Z.eqb_eq E2%negb_false_iff%Z.eqb_eq].
  assert (forall off, (off + 4 <= 24)%nat ->
    sqlite3Put4byte (sqlite3Get4byte (bytesAt aFrame off 4)) = bytesAt aFrame off 4) as Hput.
  { intros off Hoff. apply Put4byte_Get4byte; [by apply bytesAt_Forall|].
    apply length_bytesAt. lia. }
  assert (bytesAt aFrame 0 8 = bytesAt aFrame 0 4 ++ bytesAt aFrame 4 4) as H8
    by (apply (bytesAt_split aFrame 0 4 4); lia).
  split; [done|]. split; [by apply Get4byte_u32, bytesAt_Forall|].
  split; [by apply Get4byte_u32, bytesAt_Forall|]. unfold frameCksum, frameHdr.
  rewrite !Hput, <- H8 by lia. split; [done|].
  unfold frameCksum. rewrite !Hput, <- H8, E1, E2, !Hput, Hs by lia. by apply header_split.
Qed.

(** ** The two copies of the wal-index header *)

Lemma walIndexTryHdr_written be w r ch :
  let w' := walIndexWriteHdr be w in
  exists ch' r', walIndexTryHdr be r (aHdr w').1 (aHdr w').2 ch = (0, ch', r')
    /\ hdr r' = hdr w' /\ (ch' = true \/ (ch' = ch /\ r' = r)).
Proof.
  intros w'. unfold walIndexTryHdr. simpl aHdr. cbn [fst snd].
  rewrite bool_decide_true by done. cbn [negb]. cbn [isInit set_aCksum set_iVersion set_isInit].
  rewrite bool_decide_true by done. cbn [negb Z.eqb].
  case_bool_decide as Heq; cbn [negb].
  - exists ch, r. split; [done|]. split; [exact Heq|]. by right.
  - eexists true, _. split; [done|]. split; [done|]. by left.
Qed.

(** ** Properties *)

(** The checksum of the WAL format is a function of the bytes and of the
    byte order recorded in the file: it does not depend on the byte order of
    the host, nor on the unrolling of the loop. *)
Theorem walChecksumBytes_portable be big a s :
  Forall is_byte a ->
  walChecksumBytes be (eqb big be) a s = cksumLoop (fun w => w) (words big a) s.
Proof. apply walChecksumBytes_ok. Qed.

Lemma walChecksumBytes_portable_witness :
  walChecksumBytes false false [0; 0; 0; 1; 0; 0; 0; 2] (0, 0) = (1, 3)
  /\ walChecksumBytes true true [0; 0; 0; 1; 0; 0; 0; 2] (0, 0) = (1, 3).
Proof.
  assert (Forall is_byte [0; 0; 0; 1; 0; 0; 0; 2]) as H
    by (apply (bool_decide_unpack _); vm_compute; exact I).
  split; [exact (walChecksumBytes_portable false true _ (0, 0) H)
         |exact (walChecksumBytes_portable true true _ (0, 0) H)].
Defined.

(** C34: a frame header written by [walEncodeFrame] on any host is accepted by
    [walDecodeFrame] on any host with the same running checksum and salts; it
    gives back the page number and the commit size, and both sides end with
    the same checksum.  This is the frame with a checksum, with [iReCksum]
    equal to 0; otherwise the checksums are written later. *)
Theorem frame_roundtrip be be' w r c iPage nTruncate aData :
  chain_of w c -> chain_of r c -> chain_ok c -> iReCksum w = 0 -> Forall is_byte aData ->
  iPage <> 0 -> is_u32 iPage -> is_u32 nTruncate ->
  let '(aFrame, s) := walEncodeFrame be w iPage nTruncate aData in
  length aFrame = 24%nat /\ walDecodeFrame be' r aData aFrame = (Some (iPage, nTruncate), s).
Proof.
  intros Hw Hr Hc Hre Hd Hnz Hp Ht. rewrite (walEncodeFrame_ok be w c) by done.
  split; [by apply length_frameHdr|]. by apply walDecodeFrame_valid.
Qed.

Definition someChain : chain := mkChain true [1; 2; 3; 4; 5; 6; 7; 8] (10, 20).
Definition someHdr : WalIndexHdr := mkHdr 0 0 0 1 1 512 0 0 (10, 20) [1; 2; 3; 4; 5; 6; 7; 8] (0, 0).
Definition someWal : Wal :=
  mkWal ∅ (zeroHdr, zeroHdr) (mkInfo 0 (replicate 5 0) 0) 512 1 true false 0 false
    someHdr 1 0 0 false false false (-1) 0.

Lemma frame_roundtrip_witness :
  walDecodeFrame true someWal [1; 1; 1; 1; 2; 2; 2; 2]
    (walEncodeFrame false someWal 7 9 [1; 1; 1; 1; 2; 2; 2; 2]).1
  = (Some (7, 9), (walEncodeFrame false someWal 7 9 [1; 1; 1; 1; 2; 2; 2; 2]).2).
Proof.
  assert (chain_of someWal someChain) as Hw by (repeat split).
  assert (chain_ok someChain) as Hc.
  { split; [reflexivity|]. split; [apply (bool_decide_unpack _); vm_compute; exact I|].
    repeat split; vm_compute; congruence. }
  pose proof (frame_roundtrip false true someWal someWal someChain 7 9 [1; 1; 1; 1; 2; 2; 2; 2]
    Hw Hw Hc eq_refl ltac:(apply (bool_decide_unpack _); vm_compute; exact I)
    ltac:(lia) ltac:(split; lia) ltac:(split; lia)) as H.
  destruct (walEncodeFrame false someWal 7 9 [1; 1; 1; 1; 2; 2; 2; 2]) as [f s].
  exact (proj2 H).
Defined.

(** [walDecodeFrame] accepts nothing else: an accepted frame header is,
    byte for byte, the one the format prescribes for its page number, commit
    size, data, salts and running checksum. *)
Theorem walDecodeFrame_exact be w c aData aFrame pgno nTruncate s :
  chain_of w c -> Forall is_byte aData -> Forall is_byte aFrame -> length aFrame = 24%nat ->
  walDecodeFrame be w aData aFrame = (Some (pgno, nTruncate), s) ->
  pgno <> 0 /\ s = frameCksum c pgno nTruncate aData
  /\ aFrame = frameHdr c pgno nTruncate aData.
Proof.
  intros Hw Hd Hf Hl He.
  destruct (walDecodeFrame_sound be w c aData aFrame pgno nTruncate s Hw Hd Hf Hl He)
    as (H1 & _ & _ & H4 & H5). done.
Qed.

Lemma walDecodeFrame_exact_witness :
  frameHdr someChain 7 9 [1; 1; 1; 1; 2; 2; 2; 2]
  = (walEncodeFrame false someWal 7 9 [1; 1; 1; 1; 2; 2; 2; 2]).1.
Proof.
  set (a := (walEncodeFrame false someWal 7 9 [1; 1; 1; 1; 2; 2; 2; 2]).1).
  destruct (walDecodeFrame_exact false someWal someChain [1; 1; 1; 1; 2; 2; 2; 2] a 7 9
    (walEncodeFrame false someWal 7 9 [1; 1; 1; 1; 2; 2; 2; 2]).2) as (_ & _ & H).
  - repeat split.
  - apply (bool_decide_unpack _). vm_compute. exact I.
  - apply (bool_decide_unpack _). vm_compute. exact I.
  - reflexivity.
  - vm_compute. reflexivity.
  - exact (eq_sym H).
Defined.

(** A header published by [walIndexWriteHdr] is read by every connection
    on the same host: [walIndexTryHdr] succeeds, gets that header, and reports
    a change unless the connection already had it. *)
Theorem wal_index_header_published be w r ch :
  let w' := walIndexWriteHdr be w in
  exists ch' r', walIndexTryHdr be r (aHdr w').1 (aHdr w').2 ch = (0, ch', r')
    /\ hdr r' = hdr w' /\ (ch' = true \/ (ch' = ch /\ r' = r)).
Proof. apply walIndexTryHdr_written. Qed.
