(* ===== verification/WalShare.v ===== *)
(** * src/libsql-sqlite3/src/wal.c: connections that share a WAL

    The read, write and checkpoint operations of wal.c as programs of
    individual accesses to what the connections share: the locks, the copies
    of the wal-index header, the checkpoint information, the log file and the
    database file.  The accesses of different connections interleave freely,
    so that a program is a tree: an access, and what to do with its result.

    A copy of the header is read or written in one step: torn copies, which
    its checksum detects, are the subject of WalFormat.  The first page of the
    wal-index is mapped when [walIndexPage] succeeds.

    The fields of [Wal] that stand for shared memory in the other files are
    not used here: a program only reads and writes the fields of its own
    connection.  A page image is an abstract value; a frame of the log is a
    page number and an image.  The locking mode is NORMAL and the shared
    memory can be written. *)

From stdpp Require Import base list numbers option gmap.
From S2P Require Import Prelude Util Wal WalIndex WalFormat WalSort WalIter.
#[local] Open Scope Z_scope.

Definition WAL_WRITE_LOCK : Z := 0.
Definition WAL_CKPT_LOCK : Z := 1.
Definition WAL_RECOVER_LOCK : Z := 2.
Definition WAL_READ_LOCK (i : Z) : Z := 3 + i.

Definition SQLITE_READONLY : Z := 8.
Definition SQLITE_PROTOCOL : Z := 15.
Definition SQLITE_BUSY_RECOVERY : Z := 261.
Definition SQLITE_BUSY_SNAPSHOT : Z := 517.
Definition SQLITE_READONLY_RECOVERY : Z := 264.
Definition SQLITE_READONLY_CANTINIT : Z := 1288.
Definition WAL_RETRY : Z := -1.
Definition WAL_RETRY_PROTOCOL_LIMIT : Z := 100.
Definition WAL_SHM_RDONLY : Z := 2.

Definition SQLITE_CHECKPOINT_PASSIVE : Z := 0.
Definition SQLITE_CHECKPOINT_FULL : Z := 1.
Definition SQLITE_CHECKPOINT_RESTART : Z := 2.
Definition SQLITE_CHECKPOINT_TRUNCATE : Z := 3.

(** ** Accesses *)

(** What a program can do in one indivisible step, with the type of the
    answer.  A header copy is [false] for [aHdr[0]] and [true] for
    [aHdr[1]].  [Validate] is the comparison of [aHdr[0]] with the header of
    a connection that holds a read lock.  [Outside] stands for what is not
    part of this file: recovery, and the heap memory that replaces a shared
    memory which cannot be written. *)
Inductive event : Type -> Type :=
| LockShared (lockIdx : Z) : event Z
| UnlockShared (lockIdx : Z) : event unit
| LockExclusive (lockIdx n : Z) : event Z
| UnlockExclusive (lockIdx n : Z) : event unit
| IndexPage : event Z
| IndexMapped : event bool
| ReadHdr (copy : bool) : event WalIndexHdr
| WriteHdr (copy : bool) (h : WalIndexHdr) : event unit
| Validate (lock : Z) (h : WalIndexHdr) (minFrame : Z) : event bool
| LoadMark (i : Z) : event Z
| StoreMark (i v : Z) : event unit
| LoadBackfill : event Z
| StoreBackfill (v : Z) : event unit
| StoreAttempted (v : Z) : event unit
| Iterate (w : Wal) (nBackfill mxSafeFrame : Z) (ignore : bool) : event (result (list (Z * Z)))
| ReadFrame (iFrame : Z) : event (result Z)
| Append (iFrame : Z) (frames : list (Z * Z)) : event unit
| SyncWal : event Z
| TruncateWal : event Z
| DbSize : event (result Z)
| WriteDb (pgno image : Z) : event Z
| TruncateDb (nPage : Z) : event Z
| SyncDb : event Z
| Interrupted : event Z
| Callback : event Z
| Busy : event bool
| Randomness : event (list Z)
| Outside : event Z.

Inductive prog (A : Type) : Type :=
| Ret (a : A)
| Act {B : Type} (e : event B) (k : B -> prog A).
Arguments Ret {A} a.
Arguments Act {A B} e k.

Fixpoint prog_bind {A B} (f : A -> prog B) (p : prog A) : prog B :=
  match p with
  | Ret a => f a
  | Act e k => Act e (fun b => prog_bind f (k b))
  end.

#[export] Instance prog_ret : MRet prog := @Ret.
#[export] Instance prog_mbind : MBind prog := @prog_bind.

Definition act {B} (e : event B) : prog B := Act e Ret.

(** ** Locks *)

Definition walLockShared (lockIdx : Z) : prog Z := act (LockShared lockIdx).
Definition walUnlockShared (lockIdx : Z) : prog unit := act (UnlockShared lockIdx).
Definition walLockExclusive (lockIdx n : Z) : prog Z := act (LockExclusive lockIdx n).
Definition walUnlockExclusive (lockIdx n : Z) : prog unit := act (UnlockExclusive lockIdx n).

(** The busy handler gives up after at most [retries] calls. *)
Fixpoint busyLoop (retries : nat) (lockIdx n : Z) : prog Z :=
  rc ← walLockExclusive lockIdx n;
  match retries with
  | O => Ret rc
  | S r =>
      if rc =? SQLITE_BUSY then
        again ← act Busy;
        if again : bool then busyLoop r lockIdx n else Ret rc
      else Ret rc
  end.

(** [xBusy] is [None] when the pointer is 0. *)
Definition walBusyLock (xBusy : option nat) (lockIdx n : Z) : prog Z :=
  match xBusy with
  | None => walLockExclusive lockIdx n
  | Some r => busyLoop r lockIdx n
  end.

Section Share.
Context (be : bool).

(** ** The wal-index header *)

(** Two stores of the new header, the second copy first. *)
Definition walIndexWriteHdr (w : Wal) : prog Wal :=
  let w := WalFormat.walIndexWriteHdr be w in
  _ ← act (WriteHdr true (hdr w));
  _ ← act (WriteHdr false (hdr w));
  Ret w.

Definition walIndexTryHdr (w : Wal) (pChanged : bool) : prog (Z * bool * Wal) :=
  h1 ← act (ReadHdr false);
  h2 ← act (ReadHdr true);
  Ret (WalFormat.walIndexTryHdr be w h1 h2 pChanged).

(** The attempt to read the header with the WRITE lock: the result code,
    [badHdr], [*pChanged] and the connection. *)
Definition retryHdr (w : Wal) (pChanged : bool) : prog (Z * Z * bool * Wal) :=
  rc ← act IndexPage;
  if rc =? SQLITE_OK then
    '(badHdr, pChanged, w) ← walIndexTryHdr w pChanged;
    if negb (badHdr =? 0) then
      rc ← act Outside;
      Ret (rc, badHdr, true, w)
    else Ret (rc, badHdr, pChanged, w)
  else Ret (rc, 1, pChanged, w).

Definition walIndexReadHdr (w : Wal) (pChanged : bool) : prog (Z * bool * Wal) :=
  rc ← act IndexPage;
  if negb (rc =? SQLITE_OK) then
    if rc =? SQLITE_READONLY_CANTINIT then
      rc ← act Outside; Ret (rc, true, w)
    else Ret (rc, pChanged, w)
  else
  '(badHdr, pChanged, w) ← walIndexTryHdr w pChanged;
  '(rc, badHdr, pChanged, w) ←
    (if negb (badHdr =? 0) then
       if negb (bShmUnreliable w) && negb (Z.land (readOnly w) WAL_SHM_RDONLY =? 0) then
         rc ← walLockShared WAL_WRITE_LOCK;
         if rc =? SQLITE_OK then
           _ ← walUnlockShared WAL_WRITE_LOCK;
           Ret (SQLITE_READONLY_RECOVERY, badHdr, pChanged, w)
         else Ret (rc, badHdr, pChanged, w)
       else
         let bWriteLock := writeLock w in
         rc ← (if bWriteLock : bool then Ret SQLITE_OK else walLockExclusive WAL_WRITE_LOCK 1);
         if rc =? SQLITE_OK then
           let w := set_writeLock w true in
           '(rc, badHdr, pChanged, w) ← retryHdr w pChanged;
           if negb bWriteLock then
             let w := set_writeLock w false in
             _ ← walUnlockExclusive WAL_WRITE_LOCK 1;
             Ret (rc, badHdr, pChanged, w)
           else Ret (rc, badHdr, pChanged, w)
         else Ret (rc, badHdr, pChanged, w)
     else Ret (rc, badHdr, pChanged, w));
  let rc :=
    if (badHdr =? 0) && negb (iVersion (hdr w) =? WALINDEX_MAX_VERSION)
    then SQLITE_CANTOPEN else rc in
  Ret (rc, pChanged, w).

(** The result code that replaces a SQLITE_BUSY of [walIndexReadHdr]. *)
Definition busyReadHdr : prog Z :=
  isMapped ← act IndexMapped;
  if negb isMapped then Ret WAL_RETRY
  else
    rc ← walLockShared WAL_RECOVER_LOCK;
    if rc =? SQLITE_OK then
      _ ← walUnlockShared WAL_RECOVER_LOCK; Ret WAL_RETRY
    else if rc =? SQLITE_BUSY then Ret SQLITE_BUSY_RECOVERY
    else Ret rc.

(** ** Read transactions *)

(** The largest mark that does not exceed [mxFrame], of [n] marks from [i]:
    [mxReadMark] and [mxI]. *)
Fixpoint scanMarks (n : nat) (i mxFrame mxReadMark mxI : Z) : prog (Z * Z) :=
  match n with
  | O => Ret (mxReadMark, mxI)
  | S n' =>
      thisMark ← act (LoadMark i);
      if (mxReadMark <=? thisMark) && (thisMark <=? mxFrame)
      then scanMarks n' (i + 1) mxFrame thisMark i
      else scanMarks n' (i + 1) mxFrame mxReadMark mxI
  end.

(** Set a mark that nobody uses to [mxFrame], of [n] marks from [i]: the last
    result code, and the mark. *)
Fixpoint takeMark (n : nat) (i mxFrame rc : Z) : prog (Z * option Z) :=
  match n with
  | O => Ret (rc, None)
  | S n' =>
      rc ← walLockExclusive (WAL_READ_LOCK i) 1;
      if rc =? SQLITE_OK then
        _ ← act (StoreMark i mxFrame);
        _ ← walUnlockExclusive (WAL_READ_LOCK i) 1;
        Ret (rc, Some i)
      else if negb (rc =? SQLITE_BUSY) then Ret (rc, None)
      else takeMark n' (i + 1) mxFrame rc
  end.

(** The branch that ignores the log: the code returns, or goes on with a
    result code. *)
Definition readDatabase (w : Wal) : prog (Z + Z * Wal) :=
  rc ← walLockShared (WAL_READ_LOCK 0);
  if rc =? SQLITE_OK then
    same ← act (Validate 0 (hdr w) (minFrame w));
    if negb same then
      _ ← walUnlockShared (WAL_READ_LOCK 0);
      Ret (inr (WAL_RETRY, w))
    else Ret (inr (SQLITE_OK, set_readLock w 0))
  else if negb (rc =? SQLITE_BUSY) then Ret (inr (rc, w))
  else Ret (inl rc).

(** The end of [walTryBeginRead], on the mark [mxI]. *)
Definition lockMark (w : Wal) (mxI mxReadMark : Z) : prog (Z * Wal) :=
  rc ← walLockShared (WAL_READ_LOCK mxI);
  if negb (rc =? SQLITE_OK) then
    Ret (if Z.land rc 0xff =? SQLITE_BUSY then WAL_RETRY else rc, w)
  else
  nBackfill ← act LoadBackfill;
  let w := set_minFrame w (nBackfill + 1) in
  mark ← act (LoadMark mxI);
  same ← (if negb (mark =? mxReadMark) then Ret false
          else act (Validate mxI (hdr w) (minFrame w)));
  if negb same then
    _ ← walUnlockShared (WAL_READ_LOCK mxI);
    Ret (WAL_RETRY, w)
  else Ret (rc, set_readLock w mxI).

(** From the selection of a mark on. *)
Definition readLog (w : Wal) (rc : Z) : prog (Z * Wal) :=
  let mxFrame := mxFrame (hdr w) in
  '(mxReadMark, mxI) ← scanMarks (Z.to_nat (WAL_NREADER - 1)) 1 mxFrame 0 0;
  if (Z.land (readOnly w) WAL_SHM_RDONLY =? 0) && ((mxReadMark <? mxFrame) || (mxI =? 0)) then
    '(rc, taken) ← takeMark (Z.to_nat (WAL_NREADER - 1)) 1 mxFrame rc;
    match taken with
    | Some i => lockMark w i mxFrame
    | None =>
        if negb (rc =? SQLITE_BUSY) then Ret (rc, w)
        else if mxI =? 0 then Ret (WAL_RETRY, w)
        else lockMark w mxI mxReadMark
    end
  else if mxI =? 0 then
    Ret (if rc =? SQLITE_BUSY then WAL_RETRY else SQLITE_READONLY_CANTINIT, w)
  else lockMark w mxI mxReadMark.

(** The result code, [*pChanged], [*pCnt] and the connection. *)
Definition walTryBeginRead (w : Wal) (pChanged useWal : bool) (cnt : Z)
    : prog (Z * bool * Z * Wal) :=
  let cnt := cnt + 1 in
  if (cnt >? 5) && (cnt >? WAL_RETRY_PROTOCOL_LIMIT)
  then Ret (SQLITE_PROTOCOL, pChanged, cnt, w)
  else
  '(rc, pChanged, w) ←
    (if negb useWal && negb (bShmUnreliable w) then
       '(rc, pChanged, w) ← walIndexReadHdr w pChanged;
       rc ← (if rc =? SQLITE_BUSY then busyReadHdr else Ret rc);
       Ret (rc, pChanged, w)
     else Ret (SQLITE_OK, pChanged, w));
  if negb (rc =? SQLITE_OK) then Ret (rc, pChanged, cnt, w)
  else if negb useWal && bShmUnreliable w then
    rc ← act Outside; Ret (rc, pChanged, cnt, w)
  else
  r ← (if useWal then Ret (inl rc)
       else
         nBackfill ← act LoadBackfill;
         if nBackfill =? mxFrame (hdr w) then readDatabase w else Ret (inl rc));
  match r with
  | inr (rc, w) => Ret (rc, pChanged, cnt, w)
  | inl rc =>
      '(rc, w) ← readLog w rc;
      Ret (rc, pChanged, cnt, w)
  end.

(** [do ... while( rc==WAL_RETRY )]. *)
Fixpoint beginLoop (turns : nat) (w : Wal) (pChanged useWal : bool) (cnt : Z)
    : prog (Z * bool * Wal) :=
  match turns with
  | O => rc ← act Outside; Ret (rc, pChanged, w)
  | S n =>
      '(rc, pChanged, cnt, w) ← walTryBeginRead w pChanged useWal cnt;
      if rc =? WAL_RETRY then beginLoop n w pChanged useWal cnt
      else Ret (rc, pChanged, w)
  end.

(** No loop takes more turns: then [cnt] is beyond the limit. *)
Definition maxTurns : nat := Z.to_nat (WAL_RETRY_PROTOCOL_LIMIT + 1).

Definition sqlite3WalBeginReadTransaction (w : Wal) (pChanged : bool) : prog (Z * bool * Wal) :=
  beginLoop maxTurns w pChanged false 0.

Definition sqlite3WalEndWriteTransaction (w : Wal) : prog Wal :=
  if writeLock w then
    _ ← walUnlockExclusive WAL_WRITE_LOCK 1;
    Ret (set_truncateOnCommit (set_iReCksum (set_writeLock w false) 0) false)
  else Ret w.

Definition sqlite3WalEndReadTransaction (w : Wal) : prog Wal :=
  w ← sqlite3WalEndWriteTransaction w;
  if readLock w >=? 0 then
    _ ← walUnlockShared (WAL_READ_LOCK (readLock w));
    Ret (set_readLock w (-1))
  else Ret w.

(** ** Write transactions *)

Definition sqlite3WalBeginWriteTransaction (w : Wal) : prog (Z * Wal) :=
  if negb (readOnly w =? 0) then Ret (SQLITE_READONLY, w)
  else
  rc ← walLockExclusive WAL_WRITE_LOCK 1;
  if negb (rc =? SQLITE_OK) then Ret (rc, w)
  else
  let w := set_writeLock w true in
  live ← act (ReadHdr false);
  if negb (bool_decide (hdr w = live)) then
    _ ← walUnlockExclusive WAL_WRITE_LOCK 1;
    Ret (SQLITE_BUSY_SNAPSHOT, set_writeLock w false)
  else Ret (rc, w).

(** The header of a log that starts again. *)
Definition restartedHdr (h : WalIndexHdr) (salt1 : list Z) : WalIndexHdr :=
  set_aSalt (set_mxFrame h 0)
    (sqlite3Put4byte (u32 (1 + sqlite3Get4byte (bytesAt (aSalt h) 0 4))) ++ salt1).

(** The header first, then the checkpoint information. *)
Definition walRestartHdr (w : Wal) (salt1 : list Z) : prog Wal :=
  let w := set_nCkpt w (u32 (nCkpt w + 1)) in
  let w := set_hdr w (restartedHdr (hdr w) salt1) in
  w ← walIndexWriteHdr w;
  _ ← act (StoreBackfill 0);
  _ ← act (StoreAttempted 0);
  _ ← act (StoreMark 1 0);
  _ ← act (StoreMark 2 READMARK_NOT_USED);
  _ ← act (StoreMark 3 READMARK_NOT_USED);
  _ ← act (StoreMark 4 READMARK_NOT_USED);
  Ret w.

(** The result code, [*pRestarted] and the connection. *)
Definition walRestartLog (w : Wal) : prog (Z * bool * Wal) :=
  if readLock w =? 0 then
    nBackfill ← act LoadBackfill;
    '(rc, restarted, w) ←
      (if nBackfill >? 0 then
         salt1 ← act Randomness;
         rc ← walLockExclusive (WAL_READ_LOCK 1) (WAL_NREADER - 1);
         if rc =? SQLITE_OK then
           w ← walRestartHdr w salt1;
           _ ← walUnlockExclusive (WAL_READ_LOCK 1) (WAL_NREADER - 1);
           Ret (rc, true, w)
         else Ret (rc, false, w)
       else Ret (SQLITE_OK, false, w));
    if negb (rc =? SQLITE_OK) && negb (rc =? SQLITE_BUSY) then Ret (rc, restarted, w)
    else
    _ ← walUnlockShared (WAL_READ_LOCK 0);
    let w := set_readLock w (-1) in
    '(rc, _, w) ← beginLoop maxTurns w false true 0;
    Ret (rc, restarted, w)
  else Ret (SQLITE_OK, false, w).

(** What the other connections can see of [walFrames]: the restart of the log,
    the frames after the last committed one, which are written here in one
    step, and the header of a commit.  The bytes of the file, the wal-index
    and frames that a transaction writes before it commits are the subject of
    WalLog; here frames that are not committed are rolled back at once. *)
Definition walWriteTxn (w : Wal) (frames : list (Z * Z)) (nTruncate : Z) (isCommit : bool)
    : prog (Z * Wal) :=
  '(rc, _, w) ← walRestartLog w;
  if negb (rc =? SQLITE_OK) then Ret (rc, w)
  else
  h ← (if (mxFrame (hdr w) =? 0) && (nCkpt w =? 0) then
         salt ← act Randomness; Ret (set_aSalt (hdr w) salt)
       else Ret (hdr w));
  _ ← act (Append (mxFrame h) frames);
  if isCommit then
    let h := set_mxFrame h (mxFrame h + Z.of_nat (length frames)) in
    let h := set_nPage (set_iChange h (u32 (iChange h + 1))) nTruncate in
    w ← walIndexWriteHdr (set_hdr w h);
    Ret (SQLITE_OK, w)
  else Ret (SQLITE_OK, w).

(** ** Checkpoints *)

(** The loop that computes [mxSafeFrame], for [n] marks from [i]: the last
    result code, [mxSafeFrame] and [xBusy]; [inr rc] for the jump to
    [walcheckpoint_out]. *)
Fixpoint safeLoop (n : nat) (i rc mxSafeFrame : Z) (xBusy : option nat)
    : prog (Z * Z * option nat + Z) :=
  match n with
  | O => Ret (inl (rc, mxSafeFrame, xBusy))
  | S n' =>
      y ← act (LoadMark i);
      if mxSafeFrame >? y then
        rc ← walBusyLock xBusy (WAL_READ_LOCK i) 1;
        if rc =? SQLITE_OK then
          _ ← act (StoreMark i (if i =? 1 then mxSafeFrame else READMARK_NOT_USED));
          _ ← walUnlockExclusive (WAL_READ_LOCK i) 1;
          safeLoop n' (i + 1) rc mxSafeFrame xBusy
        else if rc =? SQLITE_BUSY then safeLoop n' (i + 1) rc y None
        else Ret (inr rc)
      else safeLoop n' (i + 1) rc mxSafeFrame xBusy
  end.

(** The [while] loop that copies frames; [xCb] tells whether there is a
    callback, [todo] is what the iterator still has to give. *)
Fixpoint copyLoop (todo : list (Z * Z)) (nBackfill mxSafeFrame mxPage : Z) (xCb : bool) : prog Z :=
  match todo with
  | [] => Ret SQLITE_OK
  | (iDbpage, iFrame) :: todo =>
      rc ← act Interrupted;
      if negb (rc =? SQLITE_OK) then Ret rc
      else if (iFrame <=? nBackfill) || (iFrame >? mxSafeFrame) || (iDbpage >? mxPage)
      then copyLoop todo nBackfill mxSafeFrame mxPage xCb
      else
      zBuf ← act (ReadFrame iFrame);
      match zBuf with
      | Err rc => Ret rc
      | Ok zBuf =>
          rc ← act (WriteDb iDbpage zBuf);
          if negb (rc =? SQLITE_OK) then Ret rc
          else
          rc ← (if xCb then act Callback else Ret SQLITE_OK);
          if negb (rc =? SQLITE_OK) then Ret rc
          else copyLoop todo nBackfill mxSafeFrame mxPage xCb
      end
  end.

(** Continue with [p] unless there is an error. *)
Definition andThen (rc : Z) (p : prog Z) : prog Z :=
  if rc =? SQLITE_OK then p else Ret rc.

(** The part that runs with the lock on the database. *)
Definition backfillPages (w : Wal) (todo : list (Z * Z)) (mxSafeFrame mxPage : Z) (xCb : bool)
    : prog Z :=
  let szPage := walPagesize w in
  nBackfill ← act LoadBackfill;
  _ ← act (StoreAttempted mxSafeFrame);
  rc ← act SyncWal;
  rc ← andThen rc (
    let nReq := mxPage * szPage in
    nSize ← act DbSize;
    match nSize with
    | Err rc => Ret rc
    | Ok nSize =>
        Ret (if (nSize <? nReq) && (nSize + 65536 + mxFrame (hdr w) * szPage <? nReq)
             then SQLITE_CORRUPT else SQLITE_OK)
    end);
  rc ← andThen rc (copyLoop todo nBackfill mxSafeFrame mxPage xCb);
  andThen rc (
    live ← act (ReadHdr false);
    rc ←
      (if mxSafeFrame =? mxFrame live then
         rc ← (if xCb then act Callback else Ret SQLITE_OK);
         rc ← andThen rc (act (TruncateDb (nPage (hdr w))));
         andThen rc (act SyncDb)
       else Ret SQLITE_OK);
    andThen rc (_ ← act (StoreBackfill mxSafeFrame); Ret SQLITE_OK)).

(** The part for RESTART and TRUNCATE. *)
Definition restartReaders (w : Wal) (eMode : Z) (xBusy : option nat) : prog (Z * Wal) :=
  nBackfill ← act LoadBackfill;
  if nBackfill <? mxFrame (hdr w) then Ret (SQLITE_BUSY, w)
  else if eMode >=? SQLITE_CHECKPOINT_RESTART then
    salt1 ← act Randomness;
    rc ← walBusyLock xBusy (WAL_READ_LOCK 1) (WAL_NREADER - 1);
    if rc =? SQLITE_OK then
      '(rc, w) ←
        (if eMode =? SQLITE_CHECKPOINT_TRUNCATE then
           w ← walRestartHdr w salt1;
           rc ← act TruncateWal;
           Ret (rc, w)
         else Ret (rc, w));
      _ ← walUnlockExclusive (WAL_READ_LOCK 1) (WAL_NREADER - 1);
      Ret (rc, w)
    else Ret (rc, w)
  else Ret (SQLITE_OK, w).

(** What [walCheckpoint] does when there are frames to copy: the result code
    and [xBusy]; [inr rc] for the jump to [walcheckpoint_out]. *)
Definition copyFrames (w : Wal) (xBusy : option nat) (xCb : bool) : prog (Z * option nat + Z) :=
  let mxPage := nPage (hdr w) in
  s ← safeLoop (Z.to_nat (WAL_NREADER - 1)) 1 SQLITE_OK (mxFrame (hdr w)) xBusy;
  match s with
  | inr rc => Ret (inr rc)
  | inl (rc, mxSafeFrame, xBusy) =>
      nBackfill ← act LoadBackfill;
      rc ←
        (if nBackfill <? mxSafeFrame then
           nBackfill ← act LoadBackfill;
           pIter ← act (Iterate w nBackfill mxSafeFrame (negb xCb));
           match pIter with
           | Err rc => Ret rc
           | Ok todo =>
               rc ← walBusyLock xBusy (WAL_READ_LOCK 0) 1;
               if rc =? SQLITE_OK then
                 rc ← backfillPages w todo mxSafeFrame mxPage xCb;
                 _ ← walUnlockExclusive (WAL_READ_LOCK 0) 1;
                 Ret rc
               else Ret rc
           end
         else Ret rc);
      Ret (inl (if rc =? SQLITE_BUSY then SQLITE_OK else rc, xBusy))
  end.

Definition walCheckpoint (w : Wal) (eMode : Z) (xBusy : option nat) (xCb : bool) : prog (Z * Wal) :=
  nBackfill ← act LoadBackfill;
  r ← (if nBackfill <? mxFrame (hdr w) then copyFrames w xBusy xCb
       else Ret (inl (SQLITE_OK, xBusy)));
  match r with
  | inr rc => Ret (rc, w)
  | inl (rc, xBusy) =>
      if (rc =? SQLITE_OK) && negb (eMode =? SQLITE_CHECKPOINT_PASSIVE)
      then restartReaders w eMode xBusy
      else Ret (rc, w)
  end.

(** The result code, [*pnLog] and [*pnCkpt] when they are set, and the
    connection. *)
Definition sqlite3WalCheckpoint (w : Wal) (eMode : Z) (xBusy : option nat) (nBuf : Z) (xCb : bool)
    : prog (Z * option (Z * Z) * Wal) :=
  if negb (readOnly w =? 0) then Ret (SQLITE_READONLY, None, w)
  else
  rc ← walLockExclusive WAL_CKPT_LOCK 1;
  '(rc, eMode2, xBusy2, w) ←
    (if rc =? SQLITE_OK then
       let w := set_ckptLock w true in
       if negb (eMode =? SQLITE_CHECKPOINT_PASSIVE) then
         rc ← walBusyLock xBusy WAL_WRITE_LOCK 1;
         if rc =? SQLITE_OK then Ret (rc, eMode, xBusy, set_writeLock w true)
         else if rc =? SQLITE_BUSY then Ret (SQLITE_OK, SQLITE_CHECKPOINT_PASSIVE, None, w)
         else Ret (rc, eMode, xBusy, w)
       else Ret (rc, eMode, xBusy, w)
     else Ret (rc, eMode, xBusy, w));
  '(rc, isChanged, w) ←
    (if rc =? SQLITE_OK then walIndexReadHdr w false else Ret (rc, false, w));
  '(rc, out, w) ←
    (if rc =? SQLITE_OK then
       '(rc, w) ←
         (if negb (mxFrame (hdr w) =? 0) && negb (walPagesize w =? nBuf)
          then Ret (SQLITE_CORRUPT, w)
          else walCheckpoint w eMode2 xBusy2 xCb);
       if (rc =? SQLITE_OK) || (rc =? SQLITE_BUSY) then
         nCkpt ← act LoadBackfill;
         Ret (rc, Some (mxFrame (hdr w), nCkpt), w)
       else Ret (rc, None, w)
     else Ret (rc, None, w));
  let w := if isChanged : bool then set_hdr w zeroHdr else w in
  w ← sqlite3WalEndWriteTransaction w;
  w ← (if ckptLock w then
         _ ← walUnlockExclusive WAL_CKPT_LOCK 1; Ret (set_ckptLock w false)
       else Ret w);
  Ret (if (rc =? SQLITE_OK) && negb (eMode =? eMode2) then SQLITE_BUSY else rc, out, w).

(** ** The length of an operation *)

(** [p] ends after at most [n] accesses, whatever their answers. *)
Fixpoint within {A} (n : nat) (p : prog A) {struct p} : Prop :=
  match p with
  | Ret _ => True
  | Act e k => match n with O => False | S n' => forall b, within n' (k b) end
  end.

Lemma within_mono {A} n m (p : prog A) : (n <= m)%nat -> within n p -> within m p.
Proof.
  revert n m; induction p as [a|B e k IH]; intros n m Hle H; [exact I|].
  destruct n as [|n]; [destruct H|]. destruct m as [|m]; [lia|]. intros b. eapply IH; [|apply H]. lia.
Qed.

Lemma within_bind {A B} n m (p : prog A) (f : A -> prog B) :
  within n p -> (forall a, within m (f a)) -> within (n + m) (p ≫= f).
Proof.
  intros Hp Hf. revert n Hp; induction p as [a|C e k IH]; intros n Hp; simpl.
  - eapply within_mono; [|apply Hf]. lia.
  - destruct n as [|n]; [destruct Hp|]. intros b. by apply IH.
Qed.

Lemma within_act {B A} n (e : event B) (f : B -> prog A) :
  (forall b, within n (f b)) -> within (S n) (act e ≫= f).
Proof. intros H b. apply H. Qed.

Lemma within_ret {A} n (a : A) : within n (Ret a).
Proof. exact I. Qed.

(** Every result of [p] has [P]. *)
Fixpoint leaves {A} (P : A -> Prop) (p : prog A) : Prop :=
  match p with
  | Ret a => P a
  | Act e k => forall b, leaves P (k b)
  end.

Lemma leaves_bind {A B} (P : B -> Prop) (p : prog A) (f : A -> prog B) :
  leaves (fun a => leaves P (f a)) p -> leaves P (p ≫= f).
Proof. induction p as [a|C e k IH]; simpl; [done|]. intros H b. apply IH, H. Qed.

Lemma leaves_any {A} (P : A -> Prop) (p : prog A) : (forall a, P a) -> leaves P p.
Proof. intros H. induction p as [a|C e k IH]; simpl; auto. Qed.

(** The run of a program whose k-th access has the answer [answer k]: its
    result, and the number of the next access. *)
Fixpoint consult {A} (answer : nat -> forall B, event B -> B) (k : nat) (p : prog A) : A * nat :=
  match p with
  | Ret a => (a, k)
  | Act e c => consult answer (S k) (c (answer k _ e))
  end.

Lemma consult_bind {A B} answer k (p : prog A) (f : A -> prog B) :
  consult answer k (p ≫= f) = consult answer (consult answer k p).2 (f (consult answer k p).1).
Proof. revert k; induction p as [a|C e c IH]; intros k; [done|]. apply IH. Qed.

Lemma consult_leaves {A} answer (P : A -> Prop) (p : prog A) k : leaves P p -> P (consult answer k p).1.
Proof. revert k; induction p as [a|C e c IH]; intros k H; [done|]. apply IH, H. Qed.

Lemma consult_within {A} answer n (p : prog A) k : within n p -> ((consult answer k p).2 <= k + n)%nat.
Proof.
  revert n k; induction p as [a|C e c IH]; intros n k H; cbn [consult snd]; [lia|].
  destruct n as [|n]; [destruct H|]. specialize (IH (answer k _ e) n (S k) (H _)). lia.
Qed.

(** Programs without loops. *)
Ltac bounded :=
  repeat first [ apply within_ret | apply within_act; intros | case_match | apply (within_act 0) ].

Lemma within_scanMarks n i mxFrame rm mi : within n (scanMarks n i mxFrame rm mi).
Proof.
  revert i rm mi; induction n as [|n IH]; intros i rm mi; cbn [scanMarks]; [apply within_ret|].
  apply within_act. intros b. destruct (_ && _); apply IH.
Qed.

Lemma within_takeMark n i mxFrame rc : within (n + 2) (takeMark n i mxFrame rc).
Proof.
  revert i rc; induction n as [|n IH]; intros i rc; cbn [takeMark]; [apply within_ret|].
  change (S n + 2)%nat with (S (n + 2)). apply within_act. intros b. destruct (b =? SQLITE_OK).
  - apply (within_mono 2); [lia|]. bounded.
  - destruct (negb _); [apply within_ret|apply IH].
Qed.

Lemma within_TryHdr w ch : within 2 (walIndexTryHdr w ch).
Proof. unfold walIndexTryHdr. bounded. Qed.

Lemma within_retryHdr w ch : within 4 (retryHdr w ch).
Proof.
  unfold retryHdr. apply within_act. intros rc. destruct (_ =? _); [|apply within_ret].
  apply (within_bind 2 1); [apply within_TryHdr|]. intros [[bad ch'] w']. bounded.
Qed.

Lemma within_ReadHdr w ch : within 9 (walIndexReadHdr w ch).
Proof.
  unfold walIndexReadHdr. apply within_act. intros rc. destruct (negb _); [bounded|].
  apply (within_bind 2 6); [apply within_TryHdr|]. intros [[bad ch'] w'].
  apply (within_bind 6 0); [|intros [[[? ?] ?] ?]; apply within_ret].
  destruct (negb (bad =? 0)); [|apply within_ret]. destruct (_ && _); [apply (within_mono 2); [lia|]; bounded|].
  apply (within_bind 1 5); [destruct (writeLock w'); bounded|]. intros rc'.
  destruct (rc' =? SQLITE_OK); [|apply within_ret].
  apply (within_bind 4 1); [apply within_retryHdr|]. intros [[[? ?] ?] ?]. bounded.
Qed.

Lemma within_lockMark w mxI mxReadMark : within 5 (lockMark w mxI mxReadMark).
Proof.
  unfold lockMark. apply within_act. intros rc. destruct (negb _); [apply within_ret|].
  apply within_act. intros nb. apply within_act. intros mark.
  apply (within_bind 1 1); [destruct (negb _); bounded|]. intros b. bounded.
Qed.

Lemma within_readLog w rc : within 15 (readLog w rc).
Proof.
  unfold readLog. apply (within_bind 4 11); [apply (within_scanMarks 4)|]. intros [rm mi].
  destruct (_ && _).
  - apply (within_bind 6 5); [apply (within_takeMark 4)|]. intros [rc' [t|]]; [apply within_lockMark|].
    destruct (negb _); [apply within_ret|]. destruct (mi =? 0); [apply within_ret|apply within_lockMark].
  - destruct (mi =? 0); [apply within_ret|]. apply (within_mono 5); [lia|apply within_lockMark].
Qed.

(** A turn of the loop. *)
Definition turnAccesses : nat := 31.

Lemma within_TryBeginRead w ch useWal cnt : within turnAccesses (walTryBeginRead w ch useWal cnt).
Proof.
  unfold walTryBeginRead. destruct (_ && _); [apply within_ret|].
  apply (within_bind 12 19).
  { destruct (_ && _); [|apply within_ret].
    apply (within_bind 9 3); [apply within_ReadHdr|]. intros [[rc ch'] w'].
    apply (within_bind 3 0); [|intros; apply within_ret].
    destruct (_ =? _); [|apply within_ret]. unfold busyReadHdr. bounded. }
  intros [[rc ch'] w']. destruct (negb _); [apply within_ret|].
  destruct (_ && _); [apply (within_mono 1); [lia|]; bounded|].
  apply (within_bind 4 15).
  - destruct useWal; [apply within_ret|]. apply within_act. intros nb.
    destruct (_ =? _); [|apply within_ret]. unfold readDatabase. bounded.
  - intros [rc'|[rc' w1]]; [|apply within_ret].
    apply (within_bind 15 0); [apply within_readLog|]. intros [? ?]. apply within_ret.
Qed.

(** ** The end of the retries *)

(** A turn counts itself in [*pCnt], and gives up beyond the limit. *)
Lemma leaves_TryBeginRead w ch useWal cnt :
  leaves (fun r => r.1.2 = cnt + 1) (walTryBeginRead w ch useWal cnt).
Proof.
  unfold walTryBeginRead. destruct (_ && _); [done|].
  apply leaves_bind, leaves_any. intros [[rc ch'] w']. destruct (negb _); [done|]. destruct (_ && _); [by intros rc'|].
  apply leaves_bind, leaves_any. intros [rc'|[rc' w1]]; [|done]. apply leaves_bind, leaves_any. by intros [rc1 w1].
Qed.

Lemma TryBeginRead_limit w ch useWal cnt :
  WAL_RETRY_PROTOCOL_LIMIT <= cnt -> walTryBeginRead w ch useWal cnt = Ret (SQLITE_PROTOCOL, ch, cnt + 1, w).
Proof.
  unfold WAL_RETRY_PROTOCOL_LIMIT. intros H. unfold walTryBeginRead, WAL_RETRY_PROTOCOL_LIMIT.
  by rewrite (proj2 (Z.gtb_lt (cnt + 1) 5)), (proj2 (Z.gtb_lt (cnt + 1) 100)) by lia.
Qed.

(** Turns that are enough from [cnt] on; more of them do not change the run,
    which makes at most [turnAccesses] accesses per turn before the limit. *)
Lemma beginLoop_turns answer n m k w ch useWal cnt :
  0 <= cnt <= WAL_RETRY_PROTOCOL_LIMIT -> WAL_RETRY_PROTOCOL_LIMIT < cnt + Z.of_nat n -> (n <= m)%nat ->
  consult answer k (beginLoop m w ch useWal cnt) = consult answer k (beginLoop n w ch useWal cnt)
  /\ ((consult answer k (beginLoop n w ch useWal cnt)).2
      <= k + Z.to_nat (WAL_RETRY_PROTOCOL_LIMIT - cnt) * turnAccesses)%nat.
Proof.
  unfold WAL_RETRY_PROTOCOL_LIMIT. change turnAccesses with 31%nat. revert m k w ch cnt.
  induction n as [|n IH]; intros m k w ch cnt Hc Hn Hm; [lia|]. destruct m as [|m]; [lia|].
  cbn [beginLoop]. rewrite !consult_bind.
  destruct (decide (cnt = WAL_RETRY_PROTOCOL_LIMIT)) as [E|E]; unfold WAL_RETRY_PROTOCOL_LIMIT in E.
  { rewrite TryBeginRead_limit by (unfold WAL_RETRY_PROTOCOL_LIMIT; lia). cbn. split; [done|lia]. }
  pose proof (consult_leaves answer _ _ k (leaves_TryBeginRead w ch useWal cnt)) as Hcnt.
  pose proof (consult_within answer _ _ k (within_TryBeginRead w ch useWal cnt)) as Hacc.
  change turnAccesses with 31%nat in Hacc.
  destruct (consult answer k (walTryBeginRead w ch useWal cnt)) as [[[[rc ch'] cnt'] w'] k1]. cbn [fst snd] in *. subst cnt'.
  replace (Z.to_nat (100 - cnt)) with (S (Z.to_nat (100 - (cnt + 1)))) by lia.
  destruct (rc =? WAL_RETRY); [|cbn; split; [done|lia]].
  destruct (IH m k1 w' ch' (cnt + 1)) as [-> Hk]; [lia|lia|lia|]. split; [done|]. lia.
Qed.
End Share.

(** C28: the retries of [sqlite3WalBeginReadTransaction] end, whatever the locks,
    the shared memory and the file system answer: the loop around
    [walTryBeginRead] gives up by its own limit, so that a model with more
    turns than [maxTurns] has the same run, of at most 3100 accesses to what
    the connections share. *)
Theorem begin_read_bounded be answer w pChanged turns :
  (maxTurns <= turns)%nat ->
  consult answer 0 (beginLoop be turns w pChanged false 0)
  = consult answer 0 (sqlite3WalBeginReadTransaction be w pChanged)
  /\ ((consult answer 0 (sqlite3WalBeginReadTransaction be w pChanged)).2 <= 3100)%nat.
Proof.
  intros Ht. destruct (beginLoop_turns be answer maxTurns turns 0 w pChanged false 0) as [H1 H2]; [done|done|done|].
  split; [exact H1|]. etrans; [exact H2|]. apply Nat.leb_le. vm_compute. reflexivity.
Qed.

(** Locks that are never granted. *)
Definition refused (k : nat) (B : Type) (e : event B) : B :=
  match e in event B return B with
  | UnlockShared _ | UnlockExclusive _ _ | WriteHdr _ _ | StoreMark _ _ | StoreBackfill _
  | StoreAttempted _ | Append _ _ => tt
  | IndexMapped => true
  | Validate _ _ _ | Busy => false
  | ReadHdr _ => zeroHdr
  | Iterate _ _ _ _ => Err SQLITE_NOMEM
  | ReadFrame _ | DbSize => Err SQLITE_NOMEM
  | Randomness => []
  | LockExclusive _ _ => SQLITE_BUSY
  | LockShared _ | IndexPage | LoadMark _ | LoadBackfill | SyncWal | TruncateWal
  | WriteDb _ _ | TruncateDb _ | SyncDb | Interrupted | Callback | Outside => SQLITE_OK
  end.

Definition aConnection : Wal :=
  mkWal ∅ (zeroHdr, zeroHdr) (mkInfo 0 [] 0) 4096 (-1) false false 0 false zeroHdr 0 0 0 false false false (-1) 0.

(** A header that cannot be read, and a WRITE lock that is held by another
    connection for ever. *)
Lemma begin_read_bounded_witness :
  (consult refused 0 (beginLoop false 1000 aConnection false false 0)).1.1.1 = SQLITE_PROTOCOL
  /\ ((consult refused 0 (beginLoop false 1000 aConnection false false 0)).2 <= 3100)%nat.
Proof.
  destruct (begin_read_bounded false refused aConnection false 1000) as [E H].
  - apply Nat.leb_le. vm_compute. reflexivity.
  - rewrite E. split; [vm_compute; reflexivity|exact H].
Defined.
