(* ===== verification/WalLog.v ===== *)
(** * src/libsql-sqlite3/src/wal.c: writing and recovering the WAL file

    [walFrames] writes the frames of a transaction, [walRewriteChecksums]
    repairs the checksums of frames written twice, the savepoint functions
    move the write position back, and [walIndexRecover] rebuilds the wal-index
    from the file.

    The file is its bytes.  The VFS is an oracle: the list of the outcomes of
    the next calls, a result code and, for a failed write, the number of bytes
    written before the failure; an exhausted list means that every further
    call succeeds.

    [walRestartLog], which shares locks and checkpoint information with other
    connections, is the program of WalShare; here it runs on the shared memory
    that the connection sees. *)

From stdpp Require Import base list numbers option gmap.
From S2P Require Import Prelude Util Varint Wal WalIndex WalFormat WalShare.
#[local] Open Scope Z_scope.

(** ** Files *)

Definition SQLITE_IOERR_SHORT_READ : Z := 522.

Record Io := mkIo { bytes : list Z; faults : list (Z * nat) }.

Definition nextFault (io : Io) : Z * nat * Io :=
  match faults io with
  | [] => (SQLITE_OK, 0%nat, io)
  | (rc, k) :: l => (rc, k, mkIo (bytes io) l)
  end.

(** Bytes [d] at offset [off]; a gap after the end of the file reads zero. *)
Definition file_write (b : list Z) (off : nat) (d : list Z) : list Z :=
  take off (b ++ replicate (off - length b) 0) ++ d ++ drop (off + length d) b.

Definition osWrite (io : Io) (d : list Z) (off : Z) : Z * Io :=
  let '(rc, k, io) := nextFault io in
  let d := if rc =? SQLITE_OK then d else take k d in
  (rc, mkIo (file_write (bytes io) (Z.to_nat off) d) (faults io)).

Definition osSync (io : Io) : Z * Io :=
  let '(rc, _, io) := nextFault io in (rc, io).

Definition osFileSize (io : Io) : Z * Z * Io :=
  let '(rc, _, io) := nextFault io in (rc, Z.of_nat (length (bytes io)), io).

Definition osTruncate (io : Io) (sz : Z) : Z * Io :=
  let '(rc, _, io) := nextFault io in
  if rc =? SQLITE_OK then (rc, mkIo (take (Z.to_nat sz) (bytes io)) (faults io)) else (rc, io).

(** A short read fills the rest of the buffer with zeros. *)
Definition osRead (io : Io) (n off : Z) : Z * list Z * Io :=
  let '(rc, _, io) := nextFault io in
  let d := bytesAt (bytes io) (Z.to_nat off) (Z.to_nat n) in
  let pad := d ++ replicate (Z.to_nat n - length d) 0 in
  if negb (rc =? SQLITE_OK) then (rc, pad, io)
  else if Z.of_nat (length (bytes io)) <? off + n then (SQLITE_IOERR_SHORT_READ, pad, io)
  else (SQLITE_OK, d, io).

(** ** State and errors

    The functions below change the connection and the file and stop at the
    first error. *)
Definition M (A : Type) : Type := Wal * Io -> result A * (Wal * Io).

#[export] Instance M_ret : MRet M := fun A a s => (Ok a, s).
#[export] Instance M_bind : MBind M := fun A B f m s =>
  match m s with
  | (Ok a, s') => f a s'
  | (Err rc, s') => (Err rc, s')
  end.

Definition fail {A} (rc : Z) : M A := fun s => (Err rc, s).
Definition get : M Wal := fun s => (Ok s.1, s).
Definition modify (f : Wal -> Wal) : M unit := fun s => (Ok tt, (f s.1, s.2)).

(** A call of the VFS that gives a result code, or also a value. *)
Definition io_call (f : Io -> Z * Io) : M unit := fun s =>
  let '(rc, io) := f s.2 in
  if rc =? SQLITE_OK then (Ok tt, (s.1, io)) else (Err rc, (s.1, io)).
Definition io_rc (f : Io -> Z * Io) : M Z := fun s =>
  let '(rc, io) := f s.2 in (Ok rc, (s.1, io)).
Definition io_read (n off : Z) : M (list Z) := fun s =>
  let '(rc, d, io) := osRead s.2 n off in
  if rc =? SQLITE_OK then (Ok d, (s.1, io)) else (Err rc, (s.1, io)).

Definition WAL_SYNC_FLAGS (x : Z) : Z := Z.land x 3.
Definition CKPT_SYNC_FLAGS (x : Z) : Z := Z.land (Z.shiftr x 2) 3.

(** A dirty page: the page number and the data that the pager codec returns
    (the data itself in a build without LIBSQL_CUSTOM_PAGER_CODEC). *)
Record PgHdr := mkPg { pgno : Z; pData : list Z }.

(** ** Running a program of WalShare

    The shared memory as it is seen by a connection that holds the WRITE lock:
    nobody else writes the headers, but before every access the other
    connections can change the checkpoint information. *)
Record Shm := mkShm {
  sh_step : nat;
  sh_hdr : WalIndexHdr * WalIndexHdr;
  sh_info : WalCkptInfo
}.

Section Perform.
(** What the others do before the k-th access, and the answer of an access
    that is not one to the shared memory. *)
Context (others : nat -> WalCkptInfo -> WalCkptInfo) (answer : nat -> forall B, event B -> B).

Definition setInfo (s : Shm) (i : WalCkptInfo) : Shm := mkShm (sh_step s) (sh_hdr s) i.

Definition access {B} (e : event B) (s : Shm) : B * Shm :=
  let i := sh_info s in
  match e in event B return B * Shm with
  | ReadHdr copy => (if copy then (sh_hdr s).2 else (sh_hdr s).1, s)
  | WriteHdr copy h =>
      (tt, mkShm (sh_step s) (if copy then ((sh_hdr s).1, h) else (h, (sh_hdr s).2)) i)
  | Validate _ h _ => (bool_decide ((sh_hdr s).1 = h), s)
  | LoadMark j => (nthZ (aReadMark i) j, s)
  | StoreMark j v => (tt, setInfo s (mkInfo (nBackfill i) (setZ (aReadMark i) j v) (nBackfillAttempted i)))
  | LoadBackfill => (nBackfill i, s)
  | StoreBackfill v => (tt, setInfo s (mkInfo v (aReadMark i) (nBackfillAttempted i)))
  | StoreAttempted v => (tt, setInfo s (mkInfo (nBackfill i) (aReadMark i) v))
  | e => (answer (sh_step s) _ e, s)
  end.

Fixpoint perform {A} (p : prog A) (s : Shm) : A * Shm :=
  match p with
  | Ret a => (a, s)
  | Act e k =>
      let s := setInfo s (others (sh_step s) (sh_info s)) in
      let '(b, s) := access e s in
      perform (k b) (mkShm (S (sh_step s)) (sh_hdr s) (sh_info s))
  end.

(** The connection, with the shared memory in its fields. *)
Definition runShared {A} (f : Wal -> prog (Z * A * Wal)) : M A := fun s =>
  let '(rc, a, w, sh) := perform (f s.1) (mkShm 0 (aHdr s.1) (ckptInfo s.1)) in
  let w := set_ckptInfo (set_aHdr w (sh_hdr sh)) (sh_info sh) in
  (if rc =? SQLITE_OK then Ok a else Err rc, (w, s.2)).
End Perform.

(** An environment for examples: nobody else, and every call succeeds. *)
Definition alone (k : nat) (i : WalCkptInfo) : WalCkptInfo := i.

Definition granted (k : nat) (B : Type) (e : event B) : B :=
  match e in event B return B with
  | UnlockShared _ | UnlockExclusive _ _ | WriteHdr _ _ | StoreMark _ _ | StoreBackfill _
  | StoreAttempted _ | Append _ _ => tt
  | IndexMapped | Validate _ _ _ | Busy => true
  | ReadHdr _ => zeroHdr
  | Iterate _ _ _ _ => Ok []
  | ReadFrame _ | DbSize => Ok 0
  | Randomness => [1; 2; 3; 4]
  | LockShared _ | LockExclusive _ _ | IndexPage | LoadMark _ | LoadBackfill | SyncWal | TruncateWal
  | WriteDb _ _ | TruncateDb _ | SyncDb | Interrupted | Callback | Outside => SQLITE_OK
  end.

Section Log.
Context (be : bool) (walIndexPage : Z -> Z).

(** ** Writing *)

Definition walWriteToLog (iSyncPoint : Z) (pContent : list Z) (iOffset : Z) : M unit :=
  let iAmt := Z.of_nat (length pContent) in
  if (iOffset <? iSyncPoint) && (iSyncPoint <=? iOffset + iAmt) then
    let iFirstAmt := iSyncPoint - iOffset in
    _ ← io_call (fun io => osWrite io (take (Z.to_nat iFirstAmt) pContent) iOffset);
    let iOffset := iOffset + iFirstAmt in
    let iAmt := iAmt - iFirstAmt in
    _ ← io_call osSync;
    if iAmt =? 0 then mret tt
    else io_call (fun io => osWrite io (drop (Z.to_nat iFirstAmt) pContent) iOffset)
  else io_call (fun io => osWrite io pContent iOffset).

Definition setFrameCksum (s : Z * Z) (w : Wal) : Wal :=
  set_hdr w (set_aFrameCksum (hdr w) s).

Definition walWriteOneFrame (iSyncPoint : Z) (pPage : PgHdr) (nTruncate iOffset : Z) : M unit :=
  w ← get;
  let '(aFrame, aCksum) := walEncodeFrame be w (pgno pPage) nTruncate (pData pPage) in
  _ ← modify (setFrameCksum aCksum);
  _ ← walWriteToLog iSyncPoint aFrame iOffset;
  walWriteToLog iSyncPoint (pData pPage) (iOffset + WAL_FRAME_HDRSIZE).

(** The [for] loop of [walRewriteChecksums], [n] frames from [iRead]. *)
Fixpoint rewriteLoop (n : nat) (iRead szPage : Z) : M unit :=
  match n with
  | O => mret tt
  | S n' =>
      let iOff := walFrameOffset iRead szPage in
      aBuf ← io_read (szPage + WAL_FRAME_HDRSIZE) iOff;
      let iPgno := sqlite3Get4byte (bytesAt aBuf 0 4) in
      let nDbSize := sqlite3Get4byte (bytesAt aBuf 4 4) in
      w ← get;
      let '(aFrame, aCksum) := walEncodeFrame be w iPgno nDbSize (drop 24 aBuf) in
      _ ← modify (setFrameCksum aCksum);
      _ ← io_call (fun io => osWrite io aFrame iOff);
      rewriteLoop n' (iRead + 1) szPage
  end.

(** [mallocOk]: whether the buffer can be allocated. *)
Definition walRewriteChecksums (mallocOk : bool) (iLast : Z) : M unit :=
  if negb mallocOk then fail SQLITE_NOMEM else
  w ← get;
  let szPage := szPage w in
  let iCksumOff := if iReCksum w =? 1 then 24
                   else walFrameOffset (iReCksum w - 1) szPage + 16 in
  (fun s =>
    let '(rc, aBuf, io) := osRead s.2 8 iCksumOff in
    let w := setFrameCksum (sqlite3Get4byte (bytesAt aBuf 0 4),
                            sqlite3Get4byte (bytesAt aBuf 4 4)) s.1 in
    let iRead := iReCksum w in
    let w := set_iReCksum w 0 in
    if rc =? SQLITE_OK then
      rewriteLoop (Z.to_nat (iLast - iRead + 1)) iRead szPage (w, io)
    else (Err rc, (w, io))) : M unit.

(** The main loop of [walFrames]: the new [iFrame], [iOffset] and [pLast], and
    for each page whether PGHDR_WAL_APPEND is set. *)
Fixpoint writeLoop (pList : list PgHdr) (szPage nTruncate : Z) (isCommit : bool)
    (iFirst iFrame iOffset : Z) (pLast : option PgHdr)
    : M (Z * Z * option PgHdr * list bool) :=
  match pList with
  | [] => mret (iFrame, iOffset, pLast, [])
  | p :: rest =>
      let more := match rest with [] => false | _ => true end in
      w ← get;
      let iWrite :=
        if negb (iFirst =? 0) && (more || negb isCommit) then
          match walFindFrame walIndexPage w (pgno p) (mxFrame (hdr w)) with
          | Ok f => f
          | Err _ => 0
          end
        else 0 in
      if negb (iFirst =? 0) && (more || negb isCommit) && (iFirst <=? iWrite) then
        let iOff := walFrameOffset iWrite szPage + WAL_FRAME_HDRSIZE in
        _ ← modify (fun w =>
          if (iReCksum w =? 0) || (iWrite <? iReCksum w) then set_iReCksum w iWrite else w);
        _ ← io_call (fun io => osWrite io (pData p) iOff);
        '(iFrame, iOffset, pLast, flags) ←
          writeLoop rest szPage nTruncate isCommit iFirst iFrame iOffset pLast;
        mret (iFrame, iOffset, pLast, false :: flags)
      else
        let iFrame := iFrame + 1 in
        let nDbSize := if isCommit && negb more then nTruncate else 0 in
        _ ← walWriteOneFrame 0 p nDbSize iOffset;
        '(iFrame, iOffset, pLast, flags) ←
          writeLoop rest szPage nTruncate isCommit iFirst iFrame
            (iOffset + (szPage + WAL_FRAME_HDRSIZE)) (Some p);
        mret (iFrame, iOffset, pLast, true :: flags)
  end.

(** The padding loop: copies of the last frame until [iSyncPoint]; [n] bounds
    their number.  Gives [nExtra]. *)
Fixpoint padLoop (n : nat) (iSyncPoint : Z) (pLast : PgHdr) (nTruncate iOffset szFrame : Z)
    (nExtra : nat) : M nat :=
  match n with
  | O => mret nExtra
  | S n' =>
      if iOffset <? iSyncPoint then
        _ ← walWriteOneFrame iSyncPoint pLast nTruncate iOffset;
        padLoop n' iSyncPoint pLast nTruncate (iOffset + szFrame) szFrame (S nExtra)
      else mret nExtra
  end.

Definition walLimitSize (nMax : Z) : M unit := fun s =>
  let '(rx, sz, io) := osFileSize s.2 in
  if (rx =? SQLITE_OK) && (sz >? nMax) then
    let '(_, io) := osTruncate io nMax in (Ok tt, (s.1, io))
  else (Ok tt, (s.1, io)).

Definition indexAppend (iFrame iPage : Z) : M unit := fun s =>
  let '(rc, w) := walIndexAppend walIndexPage s.1 iFrame iPage in
  if rc =? SQLITE_OK then (Ok tt, (w, s.2)) else (Err rc, (w, s.2)).

(** The two loops that append to the wal-index; the last frame number. *)
Fixpoint appendLoop (pages : list Z) (iFrame : Z) : M Z :=
  match pages with
  | [] => mret iFrame
  | p :: rest => _ ← indexAppend (iFrame + 1) p; appendLoop rest (iFrame + 1)
  end.

Definition appendedPages (pList : list PgHdr) (flags : list bool) : list Z :=
  pgno <$> (fst <$> filter (fun x => x.2 = true) (zip pList flags)).

(** The bytes of the WAL header. *)
Definition walHeader (szPage nCkpt : Z) (salt : list Z) : list Z * (Z * Z) :=
  let a := sqlite3Put4byte (Z.lor WAL_MAGIC (bigendian be)) ++ sqlite3Put4byte WAL_MAX_VERSION
           ++ sqlite3Put4byte szPage ++ sqlite3Put4byte nCkpt ++ salt in
  let aCksum := walChecksumBytes be true a (0, 0) in
  (a ++ sqlite3Put4byte aCksum.1 ++ sqlite3Put4byte aCksum.2, aCksum).

(** Environment of a write: the other connections and the answers of locks
    and random values in [walRestartLog], the random salt of a new log, the
    sector size, and whether [walRewriteChecksums] can allocate. *)
Context (others : nat -> WalCkptInfo -> WalCkptInfo) (answer : nat -> forall B, event B -> B).
Context (randomSalt : list Z) (sectorSize : Z) (mallocOk : bool).

(** [*pRestarted] is the result. *)
Definition walRestartLog : M bool := runShared others answer (WalShare.walRestartLog be).

(** Write the WAL header if this is the first frame of the log. *)
Definition writeHeader (szPage sync_flags : Z) : M unit :=
  w ← get;
  if mxFrame (hdr w) =? 0 then
    _ ← modify (fun w =>
      if nCkpt w =? 0 then set_hdr w (set_aSalt (hdr w) randomSalt) else w);
    w ← get;
    let '(aWalHdr, aCksum) := walHeader szPage (nCkpt w) (aSalt (hdr w)) in
    _ ← modify (fun w =>
      let w := set_szPage w szPage in
      let w := set_hdr w (set_aFrameCksum (set_bigEndCksum (hdr w) (bigendian be)) aCksum) in
      set_truncateOnCommit w true);
    _ ← io_call (fun io => osWrite io aWalHdr 0);
    if syncHeader w then io_call osSync else mret tt
  else mret tt.

(** Pad to a sector boundary and sync; the number of extra frames, and the
    result code of the sync, which is looked at later. *)
Definition padAndSync (szPage nTruncate sync_flags iOffset : Z) (isCommit : bool)
    (pLast : option PgHdr) : M (nat * Z) :=
  if isCommit && negb (WAL_SYNC_FLAGS sync_flags =? 0) then
    w ← get;
    if padToSectorBoundary w then
      let iSyncPoint := (iOffset + sectorSize - 1) / sectorSize * sectorSize in
      nExtra ←
        match pLast with
        | Some p => padLoop (Z.to_nat sectorSize) iSyncPoint p nTruncate iOffset
                      (szPage + WAL_FRAME_HDRSIZE) 0
        | None => mret 0%nat
        end;
      rc ← (if iSyncPoint =? iOffset then io_rc osSync else mret SQLITE_OK);
      mret (nExtra, rc)
    else (rc ← io_rc osSync; mret (0%nat, rc))
  else mret (0%nat, SQLITE_OK).

(** Truncate the file to the journal size limit. *)
Definition limitOnCommit (szPage iFrame : Z) (nExtra : nat) (isCommit : bool) : M unit :=
  w ← get;
  if isCommit && truncateOnCommit w && (0 <=? mxWalSize w) then
    let end_ := walFrameOffset (iFrame + Z.of_nat nExtra + 1) szPage in
    let sz := if end_ >? mxWalSize w then end_ else mxWalSize w in
    _ ← walLimitSize sz;
    modify (fun w => set_truncateOnCommit w false)
  else mret tt.

(** Update the private header, and the shared one on commit. *)
Definition publish (szPage nTruncate iFrame : Z) (isCommit : bool) : M unit :=
  modify (fun w =>
    let h := set_hszPage (hdr w) (u16 (Z.lor (Z.land szPage 0xff00) (Z.shiftr szPage 16))) in
    let h := set_mxFrame h iFrame in
    if isCommit then
      let h := set_nPage (set_iChange h (u32 (iChange h + 1))) nTruncate in
      set_iCallback (WalFormat.walIndexWriteHdr be (set_hdr w h)) iFrame
    else set_hdr w h).

(** [walFrames] from its main loop to its end; [*pnFrames] is the result. *)
Definition writeFrames (szPg : Z) (pList : list PgHdr) (nTruncate : Z) (isCommit : bool)
    (sync_flags iFirst iFrame : Z) (walRestarted : bool) : M Z :=
  '(iFrame, iOffset, pLast, flags) ←
    writeLoop pList szPg nTruncate isCommit iFirst iFrame (walFrameOffset (iFrame + 1) szPg) None;
  w ← get;
  _ ← (if isCommit && negb (iReCksum w =? 0) then walRewriteChecksums mallocOk iFrame
       else mret tt);
  '(nExtra, rc) ← padAndSync szPg nTruncate sync_flags iOffset isCommit pLast;
  _ ← limitOnCommit szPg iFrame nExtra isCommit;
  if negb (rc =? SQLITE_OK) then fail rc else
  w ← get;
  let extra := match pLast with Some p => replicate nExtra (pgno p) | None => [] end in
  iFrame ← appendLoop (appendedPages pList flags ++ extra) (mxFrame (hdr w));
  let pnFrames :=
    if isCommit then if walRestarted then iFrame else iFrame - mxFrame (hdr w) else 0 in
  _ ← publish szPg nTruncate iFrame isCommit;
  mret pnFrames.

Definition walFrames (szPg : Z) (pList : list PgHdr) (nTruncate : Z) (isCommit : bool)
    (sync_flags : Z) : M Z :=
  w ← get;
  let pLive := (aHdr w).1 in
  let iFirst := if bool_decide (hdr w = pLive) then 0 else u32 (mxFrame pLive + 1) in
  walRestarted ← walRestartLog;
  w ← get;
  let iFrame := mxFrame (hdr w) in
  _ ← writeHeader szPg sync_flags;
  w ← get;
  if negb (szPage w =? szPg) then fail SQLITE_CORRUPT
  else writeFrames szPg pList nTruncate isCommit sync_flags iFirst iFrame walRestarted.

(** ** Moving the write position back *)

Record SavepointData := mkSave { sv_mxFrame : Z; sv_cksum : Z * Z; sv_nCkpt : Z }.

Definition sqlite3WalSavepoint (w : Wal) : SavepointData :=
  mkSave (mxFrame (hdr w)) (aFrameCksum (hdr w)) (nCkpt w).

Definition sqlite3WalSavepointUndo (w : Wal) (aWalData : SavepointData) : Wal * SavepointData :=
  let aWalData :=
    if negb (sv_nCkpt aWalData =? nCkpt w) then mkSave 0 (sv_cksum aWalData) (nCkpt w)
    else aWalData in
  let w :=
    if sv_mxFrame aWalData <? mxFrame (hdr w) then
      walCleanupHash walIndexPage
        (set_hdr w (set_aFrameCksum (set_mxFrame (hdr w) (sv_mxFrame aWalData))
                      (sv_cksum aWalData)))
    else w in
  (w, aWalData).

(** The pages for which [xUndo] is called, until it fails. *)
Definition sqlite3WalUndo (xUndo : Z -> Z) (w : Wal) : Z * Wal :=
  if writeLock w then
    let iMax := mxFrame (hdr w) in
    let w := set_hdr w (aHdr w).1 in
    let calls := walFramePgno walIndexPage w <$>
                 seqZ (mxFrame (hdr w) + 1) (iMax - mxFrame (hdr w)) in
    let rc := foldl (fun rc p => if rc =? SQLITE_OK then xUndo p else rc) SQLITE_OK calls in
    (rc, if negb (iMax =? mxFrame (hdr w)) then walCleanupHash walIndexPage w else w)
  else (SQLITE_OK, w).

End Log.
