(* ===== verification/WalRestart.v ===== *)
(** * src/libsql-sqlite3/src/wal.c: [walRestartLog] before a write

    [walFrames] begins with [walRestartLog], which starts the log again when
    the transaction reads only the database and no reader needs the log, and
    which takes a read mark in any case.  Whatever the other connections do to
    the locks and to the checkpoint information meanwhile, its result is one of
    three states. *)

From stdpp Require Import base list numbers option gmap.
From S2P Require Import Prelude Util Varint Wal WalIndex WalFormat WalShare WalLog.
#[local] Open Scope Z_scope.

(** ** Programs that run with the WRITE lock *)

(** A number of frames, as in [nBackfill]. *)
Definition frames_ok (n : Z) : Prop := 0 <= n < max_frame - 1.

Definition info_ok (i : WalCkptInfo) : Prop := frames_ok (nBackfill i).

(** A random salt of four bytes. *)
Definition salt_ok (l : list Z) : Prop := length l = 4%nat /\ Forall is_byte l.

(** What a program must not do, and the possible answers of an access, with
    the headers before and after it. *)
Definition demands {B} (e : event B) : Prop :=
  match e with StoreBackfill v => frames_ok v | _ => True end.

Definition possible {B} (e : event B) (h : WalIndexHdr * WalIndexHdr) (b : B) (h' : WalIndexHdr * WalIndexHdr) : Prop :=
  match e in event B return B -> Prop with
  | ReadHdr copy => fun b => b = (if copy then h.2 else h.1) /\ h' = h
  | WriteHdr copy x => fun _ => h' = (if copy then (h.1, x) else (x, h.2))
  | Validate _ x _ => fun b => b = bool_decide (h.1 = x) /\ h' = h
  | LoadBackfill => fun b => frames_ok b /\ h' = h
  | Randomness => fun b => salt_ok b /\ h' = h
  | _ => fun _ => h' = h
  end b.

(** [p] ends with [Q], whatever the answers are. *)
Fixpoint ends {A} (p : prog A) (Q : A -> WalIndexHdr * WalIndexHdr -> Prop) (h : WalIndexHdr * WalIndexHdr) : Prop :=
  match p with
  | Ret a => Q a h
  | Act e k => demands e /\ forall b h', possible e h b h' -> ends (k b) Q h'
  end.

Lemma ends_bind {A B} (p : prog A) (f : A -> prog B) Q h :
  ends p (fun a => ends (f a) Q) h -> ends (p ≫= f) Q h.
Proof.
  revert h; induction p as [a|C e k IH]; intros h; simpl; [done|]. intros [H1 H2]. split; [done|]. intros b h' Hp.
  by apply IH, H2.
Qed.

Lemma ends_mono {A} (p : prog A) (Q R : A -> WalIndexHdr * WalIndexHdr -> Prop) h :
  (forall a h, Q a h -> R a h) -> ends p Q h -> ends p R h.
Proof.
  intros HQ. revert h; induction p as [a|C e k IH]; intros h; simpl; [apply HQ|]. intros [H1 H2]. split; [done|]. auto.
Qed.

Lemma ends_act {A B} (e : event B) (f : B -> prog A) Q h :
  demands e -> (forall b h', possible e h b h' -> ends (f b) Q h') -> ends (act e ≫= f) Q h.
Proof. by split. Qed.

Section Perform.
Context (others : nat -> WalCkptInfo -> WalCkptInfo) (answer : nat -> forall B, event B -> B).
Hypothesis Hothers : forall k i, info_ok i -> info_ok (others k i).
Hypothesis Hrandom : forall k, salt_ok (answer k _ Randomness).

Lemma perform_ends {A} (p : prog A) Q s :
  info_ok (sh_info s) -> ends p Q (sh_hdr s) ->
  Q (perform others answer p s).1 (sh_hdr (perform others answer p s).2)
  /\ info_ok (sh_info (perform others answer p s).2).
Proof using Hothers Hrandom.
  revert s; induction p as [a|B e k IH]; intros s Hi; [done|]. intros [Hd H].
  cbn [perform]. set (s1 := setInfo s _).
  assert (info_ok (sh_info s1)) as Hi1 by by apply Hothers.
  assert (possible e (sh_hdr s1) (access answer e s1).1 (sh_hdr (access answer e s1).2)
    /\ info_ok (sh_info (access answer e s1).2)) as [Hp Hi2].
  { destruct e; cbn; (split; [|done]) || idtac; try done; try (by split); auto. }
  destruct (access answer e s1) as [b s2]. by apply IH; [|apply H].
Qed.
End Perform.

(** ** The read mark *)

(** The connection [w] on a read mark. *)
Definition rejoined (w w' : Wal) : Prop :=
  exists m i, 0 <= m < max_frame /\ 1 <= i < WAL_NREADER /\ w' = set_readLock (set_minFrame w m) i.

(** The connection after attempts that failed. *)
Definition waiting (w w' : Wal) : Prop := w' = w \/ exists m, w' = set_minFrame w m.

Lemma waiting_min w w1 m : waiting w w1 -> set_minFrame w1 m = set_minFrame w m.
Proof. by intros [->|[m' ->]]. Qed.

Section Restart.
Context (be : bool).

Lemma ends_scanMarks n i mx rm mi h Q :
  1 <= i -> i + Z.of_nat n = WAL_NREADER -> (mi = 0 \/ 1 <= mi < WAL_NREADER) ->
  (forall rm' mi', mi' = 0 \/ 1 <= mi' < WAL_NREADER -> Q (rm', mi') h) -> ends (scanMarks n i mx rm mi) Q h.
Proof.
  intros Hi Hn Hm HQ. revert i rm mi Hi Hn Hm; induction n as [|n IH]; intros i rm mi Hi Hn Hm; cbn [scanMarks]; [by apply HQ|].
  apply ends_act; [done|]. intros b h' ->. unfold WAL_NREADER in *. destruct (_ && _); apply IH; lia.
Qed.

Lemma ends_takeMark n i mx rc h (Q : Z * option Z -> WalIndexHdr * WalIndexHdr -> Prop) :
  1 <= i -> i + Z.of_nat n = WAL_NREADER -> rc <> SQLITE_OK \/ (n <> 0)%nat ->
  (forall j, 1 <= j < WAL_NREADER -> Q (SQLITE_OK, Some j) h) ->
  (forall rc, rc <> SQLITE_OK -> Q (rc, None) h) -> ends (takeMark n i mx rc) Q h.
Proof.
  intros Hi Hn Hrc HS HN. revert i rc Hi Hn Hrc; induction n as [|n IH]; intros i rc Hi Hn Hrc; cbn [takeMark].
  { apply HN. by destruct Hrc. }
  apply ends_act; [done|]. intros rc' h' ->. unfold WAL_NREADER in *.
  destruct (Z.eqb_spec rc' SQLITE_OK) as [->|Hne].
  - apply ends_act; [done|]. intros [] h' ->. apply ends_act; [done|]. intros [] h' ->. apply HS. lia.
  - destruct (Z.eqb_spec rc' SQLITE_BUSY); cbn [negb]; [|by apply HN]. apply IH; [lia|lia|by left].
Qed.

Lemma ends_lockMark w0 w mxI rm h (Q : Z * Wal -> WalIndexHdr * WalIndexHdr -> Prop) :
  waiting w0 w -> 1 <= mxI < WAL_NREADER ->
  (forall w', rejoined w0 w' -> Q (SQLITE_OK, w') h) ->
  (forall rc w', rc <> SQLITE_OK -> waiting w0 w' -> Q (rc, w') h) -> ends (lockMark w mxI rm) Q h.
Proof.
  intros Hw Hi HS HN. unfold lockMark. apply ends_act; [done|]. intros rc h' ->.
  destruct (Z.eqb_spec rc SQLITE_OK) as [->|Hne]; cbn [negb].
  2:{ apply HN; [|done]. by destruct (_ =? _). }
  apply ends_act; [done|]. intros nb h' [Hnb ->]. apply ends_act; [done|]. intros mark h' ->.
  apply ends_bind. destruct (Z.eqb_spec mark rm); cbn [negb ends].
  - split; [done|]. intros same h' [_ ->]. destruct same; cbn [negb].
    + apply HS. exists (nb + 1), mxI. split; [unfold frames_ok in Hnb; lia|]. split; [done|].
      by rewrite (waiting_min w0 w).
    + apply ends_act; [done|]. intros [] h' ->. apply HN; [done|]. right. eexists. by apply waiting_min.
  - apply ends_act; [done|]. intros [] h' ->. apply HN; [done|]. right. eexists. by apply waiting_min.
Qed.

Lemma ends_readLog w0 w h (Q : Z * Wal -> WalIndexHdr * WalIndexHdr -> Prop) :
  waiting w0 w -> (forall w', rejoined w0 w' -> Q (SQLITE_OK, w') h) ->
  (forall rc w', rc <> SQLITE_OK -> waiting w0 w' -> Q (rc, w') h) -> ends (readLog w SQLITE_OK) Q h.
Proof.
  intros Hw HS HN. unfold readLog. apply ends_bind, ends_scanMarks; [lia|done|by left|]. intros rm mi Hmi.
  assert (mi <> 0 -> forall rm, ends (lockMark w mi rm) Q h) as Hlock.
  { intros Hnz rm'. apply (ends_lockMark w0); try done. lia. }
  destruct (_ && _) eqn:E.
  - apply ends_bind, ends_takeMark; [lia|done|by right| |].
    + intros j Hj. by apply (ends_lockMark w0).
    + intros rc Hrc. destruct (Z.eqb_spec rc SQLITE_BUSY) as [->|]; cbn [negb]; [|by apply HN].
      destruct (Z.eqb_spec mi 0); [by apply HN|by apply Hlock].
  - destruct (Z.eqb_spec mi 0); [|by apply Hlock]. by apply HN.
Qed.

(** The loop around [walTryBeginRead], with the WRITE lock; its turns are
    enough. *)
Lemma ends_beginLoop turns w0 w ch cnt h :
  waiting w0 w -> 0 <= cnt <= WAL_RETRY_PROTOCOL_LIMIT -> WAL_RETRY_PROTOCOL_LIMIT < cnt + Z.of_nat turns ->
  ends (beginLoop be turns w ch true cnt) (fun r h' => h' = h /\ (r.1.1 = SQLITE_OK -> rejoined w0 r.2)) h.
Proof.
  unfold WAL_RETRY_PROTOCOL_LIMIT. revert w ch cnt; induction turns as [|n IH]; intros w ch cnt Hw Hc Hn; [lia|].
  cbn [beginLoop]. apply ends_bind. destruct (decide (cnt = 100)) as [->|Hne].
  { rewrite TryBeginRead_limit by (unfold WAL_RETRY_PROTOCOL_LIMIT; lia). by split. }
  unfold walTryBeginRead, WAL_RETRY_PROTOCOL_LIMIT.
  replace ((cnt + 1 >? 5) && (cnt + 1 >? 100)) with false
    by (symmetry; apply andb_false_iff; right; rewrite Z.gtb_ltb; apply Z.ltb_ge; lia).
  cbn [negb andb]. change (Ret ?x ≫= ?f) with (f x). cbv beta iota. cbn [negb Z.eqb SQLITE_OK].
  apply ends_bind. apply ends_bind, (ends_readLog w0); [done| |].
  - intros w' Hr. cbn. by split.
  - intros rc w' Hrc Hw'. cbn [ends]. destruct (Z.eqb_spec rc WAL_RETRY); [|by split]. apply IH; [done|lia|lia].
Qed.

(** ** The restart *)

(** The connection after the restart of the log with a random [salt1]. *)
Definition restartedWal (w : Wal) (salt1 : list Z) : Wal :=
  WalFormat.walIndexWriteHdr be (set_hdr (set_nCkpt w (u32 (nCkpt w + 1))) (restartedHdr (hdr w) salt1)).

(** The outcomes of [walRestartLog] without an error. *)
Definition restarting (w : Wal) (h : WalIndexHdr * WalIndexHdr) (r : Z * bool * Wal) (h' : WalIndexHdr * WalIndexHdr) : Prop :=
  r.1.1 = SQLITE_OK ->
  (r.1.2 = false /\ h' = h /\ (readLock w <> 0 /\ r.2 = w \/ readLock w = 0 /\ rejoined w r.2))
  \/ (r.1.2 = true /\ readLock w = 0 /\ exists salt1, salt_ok salt1 /\ rejoined (restartedWal w salt1) r.2
      /\ h' = (hdr r.2, hdr r.2)).

Lemma rejoined_lock w x w' : rejoined (set_readLock w x) w' -> rejoined w w'.
Proof. intros (m & i & H1 & H2 & ->). by exists m, i. Qed.

Lemma ends_walRestartLog w h : ends (WalShare.walRestartLog be w) (restarting w h) h.
Proof.
  unfold WalShare.walRestartLog. destruct (Z.eqb_spec (readLock w) 0) as [Hl|Hl].
  2:{ intros _. left. split; [done|]. split; [done|]. by left. }
  apply ends_act; [done|]. intros nb h' [Hnb ->].
  (* the loop, after the restart or without it *)
  assert (forall (restarted : bool) w1 h1,
    (forall w2, rejoined w1 w2 -> restarting w h (SQLITE_OK, restarted, w2) h1) ->
    ends (_ ← walUnlockShared (WAL_READ_LOCK 0);
          '(rc, _, w) ← beginLoop be maxTurns (set_readLock w1 (-1)) false true 0;
          Ret (rc, restarted, w)) (restarting w h) h1) as Hloop.
  { intros restarted w1 h1 H. apply ends_act; [done|]. intros [] h' ->. apply ends_bind.
    eapply ends_mono; [|apply (ends_beginLoop maxTurns (set_readLock w1 (-1))); [by left|done|done]].
    intros [[rc ch] w2] h' [-> Hr] Hok. cbn [fst snd] in *. subst rc.
    apply H; [|done]. by apply (rejoined_lock _ (-1)), Hr. }
  apply ends_bind. destruct (nb >? 0).
  - apply ends_act; [done|]. intros salt1 h' [Hs ->]. apply ends_act; [done|]. intros rc h' ->.
    destruct (Z.eqb_spec rc SQLITE_OK) as [->|Hne].
    + apply ends_bind. unfold WalShare.walRestartHdr. apply ends_bind.
      unfold WalShare.walIndexWriteHdr. fold (restartedWal w salt1).
      apply ends_act; [done|]. intros [] h1 ->. apply ends_act; [done|]. intros [] h2 ->. cbn [ends].
      apply ends_act; [split; unfold max_frame; lia|]. intros [] h' ->.
      do 5 (apply ends_act; [done|]; intros [] h' ->). cbn [ends]. apply ends_act; [done|]. intros [] h' ->.
      cbn [negb andb Z.eqb SQLITE_OK]. apply Hloop. intros w2 Hr _. right. split; [done|]. split; [done|].
      exists salt1. split; [done|]. split; [done|]. by destruct Hr as (m & i & _ & _ & ->).
    + cbn [ends]. rewrite (proj2 (Z.eqb_neq _ _) Hne). cbn [negb andb].
      destruct (Z.eqb_spec rc SQLITE_BUSY); cbn [negb]; [|by intros ?].
      apply Hloop. intros w2 Hr _. left. split; [done|]. split; [done|]. by right.
  - cbn [ends]. apply Hloop. intros w2 Hr _. left. split; [done|]. split; [done|]. by right.
Qed.
End Restart.

(** ** The call in [walFrames] *)

Section Call.
Context (be : bool) (others : nat -> WalCkptInfo -> WalCkptInfo) (answer : nat -> forall B, event B -> B).
Hypothesis Hothers : forall k i, info_ok i -> info_ok (others k i).
Hypothesis Hrandom : forall k, salt_ok (answer k _ Randomness).

(** The connection with other shared memory. *)
Definition reshared (w w' : Wal) : Prop := exists h i, w' = set_ckptInfo (set_aHdr w h) i.

(** The states after [walRestartLog]: the log goes on, or it starts again. *)
Inductive restart_result (w : Wal) : bool -> Wal -> Prop :=
| log_continues w1 w' :
    (readLock w <> 0 /\ w1 = w \/ readLock w = 0 /\ rejoined w w1) -> reshared w1 w' -> aHdr w' = aHdr w ->
    restart_result w false w'
| log_restarted salt1 w1 w' :
    readLock w = 0 -> salt_ok salt1 -> rejoined (restartedWal be w salt1) w1 -> reshared w1 w' ->
    aHdr w' = (hdr w', hdr w') -> restart_result w true w'.

Lemma walRestartLog_ok w io :
  info_ok (ckptInfo w) ->
  exists r w', walRestartLog be others answer (w, io) = (r, (w', io)) /\ info_ok (ckptInfo w')
    /\ match r with Ok restarted => restart_result w restarted w' | Err rc => rc <> SQLITE_OK end.
Proof using Hothers Hrandom.
  intros Hi. unfold walRestartLog, runShared. cbn [fst snd].
  pose proof (perform_ends others answer Hothers Hrandom (WalShare.walRestartLog be w) (restarting be w (aHdr w))
    (mkShm 0 (aHdr w) (ckptInfo w)) Hi (ends_walRestartLog be w (aHdr w))) as [HQ Hi'].
  destruct (perform others answer _ _) as [[[rc restarted] w1] sh]. cbn [fst snd] in HQ, Hi'.
  eexists _, _. split; [reflexivity|]. split; [done|]. destruct (Z.eqb_spec rc SQLITE_OK) as [->|Hne]; [|done].
  destruct (HQ eq_refl) as [(E1 & E2 & H)|(E1 & Hl & salt1 & Hs & Hr & E2)]; cbn [fst snd] in *; subst restarted.
  - apply (log_continues w w1); [done|by eexists _, _|done].
  - apply (log_restarted w salt1 w1); try done. by eexists _, _.
Qed.
End Call.
