(* ===== verification/WalRecover.v ===== *)
(** * src/libsql-sqlite3/src/wal.c: recovery

    [walIndexRecover] rebuilds the wal-index from the bytes of the WAL file.
    The specification is the list of the valid frames of the file. *)

From stdpp Require Import base list numbers option gmap.
From S2P Require Import Prelude Util Varint Wal WalIndex WalFormat WalLog.
#[local] Open Scope Z_scope.

Definition SQLITE_MAX_PAGE_SIZE : Z := 65536.

Section Recover.
Context (be : bool) (walIndexPage : Z -> Z).
(** What the buffer [aPrivate] holds when wal-index page [iPg] is started, the
    result of locking a range of lock bytes, and whether malloc succeeds. *)
Context (aPrivate : Z -> WalPage) (lockExclusive : Z -> Z) (mallocOk : bool).

(** ** The code *)

(** The inner [for] loop, [n] frames from [iFrame]; [ck] is the local array
    [aFrameCksum].  Gives [rc] and the value of [iFrame] after the loop. *)
Fixpoint recoverFrames (n : nat) (iFrame szPg : Z) (w : Wal) (io : Io) (ck : Z * Z)
    : Z * Z * Wal * Io * (Z * Z) :=
  match n with
  | O => (SQLITE_OK, iFrame, w, io, ck)
  | S n' =>
      let '(rc, aFrame, io) :=
        osRead io (szPg + WAL_FRAME_HDRSIZE) (walFrameOffset iFrame szPg) in
      if negb (rc =? SQLITE_OK) then (rc, iFrame, w, io, ck) else
      let '(isValid, aCksum) := walDecodeFrame be w (drop 24 aFrame) (take 24 aFrame) in
      let w := setFrameCksum aCksum w in
      match isValid with
      | None => (SQLITE_OK, iFrame, w, io, ck)
      | Some (pgno, nTruncate) =>
          let '(rc, w) := walIndexAppend walIndexPage w iFrame pgno in
          if negb (rc =? SQLITE_OK) then (rc, iFrame, w, io, ck) else
          let '(w, ck) :=
            if negb (nTruncate =? 0) then
              let h := set_hszPage (set_nPage (set_mxFrame (hdr w) iFrame) nTruncate)
                         (u16 (Z.lor (Z.land szPg 0xff00) (Z.shiftr szPg 16))) in
              (set_hdr w h, aFrameCksum (hdr w))
            else (w, ck) in
          recoverFrames n' (iFrame + 1) szPg w io ck
      end
  end.

(** The outer [for] loop, [n] wal-index pages from [iPg]. *)
Fixpoint recoverPages (n : nat) (iPg iLastFrame szPg : Z) (w : Wal) (io : Io) (ck : Z * Z)
    : Z * Wal * Io * (Z * Z) :=
  match n with
  | O => (SQLITE_OK, w, io, ck)
  | S n' =>
      let iLast := Z.min iLastFrame (HASHTABLE_NPAGE_ONE + iPg * HASHTABLE_NPAGE) in
      let iFirst := 1 + (if iPg =? 0 then 0
                         else HASHTABLE_NPAGE_ONE + (iPg - 1) * HASHTABLE_NPAGE) in
      let rc := walIndexPage iPg in
      if negb (rc =? SQLITE_OK) then (rc, w, io, ck) else
      let w := setPage w iPg (aPrivate iPg) in
      let '(rc, iFrame, w, io, ck) :=
        recoverFrames (Z.to_nat (iLast - iFirst + 1)) iFirst szPg w io ck in
      if iFrame <=? iLast then (rc, w, io, ck)
      else recoverPages n' (iPg + 1) iLastFrame szPg w io ck
  end.

(** The label [finished]. *)
Fixpoint resetMarks (i : Z) (n : nat) (w : Wal) : Z * Wal :=
  match n with
  | O => (SQLITE_OK, w)
  | S n' =>
      let rc := lockExclusive (3 + i) in
      if rc =? SQLITE_OK then
        let mark := if (i =? 1) && negb (mxFrame (hdr w) =? 0) then mxFrame (hdr w)
                    else READMARK_NOT_USED in
        let info := ckptInfo w in
        resetMarks (i + 1) n'
          (set_ckptInfo w (mkInfo (nBackfill info) (setZ (aReadMark info) i mark)
                                  (nBackfillAttempted info)))
      else if rc =? SQLITE_BUSY then
        match n' with O => (rc, w) | S _ => resetMarks (i + 1) n' w end
      else (rc, w)
  end.

Definition finished (w : Wal) (ck : Z * Z) : Z * Wal :=
  let w := walIndexWriteHdr be (setFrameCksum ck w) in
  let info := ckptInfo w in
  let w := set_ckptInfo w (mkInfo 0 (setZ (aReadMark info) 0 0) (mxFrame (hdr w))) in
  resetMarks 1 (Z.to_nat (WAL_NREADER - 1)) w.

Definition walIndexRecover (w : Wal) (io : Io) : Z * Wal * Io :=
  let iLock := 1 + (if ckptLock w then 1 else 0) in
  let rc := lockExclusive iLock in
  if negb (rc =? SQLITE_OK) then (rc, w, io) else
  let w := set_hdr w zeroHdr in
  let '(rc, nSize, io) := osFileSize io in
  if negb (rc =? SQLITE_OK) then (rc, w, io) else
  if nSize >? WAL_HDRSIZE then
    let '(rc, aBuf, io) := osRead io WAL_HDRSIZE 0 in
    if negb (rc =? SQLITE_OK) then (rc, w, io) else
    let magic := sqlite3Get4byte (bytesAt aBuf 0 4) in
    let szPg := sqlite3Get4byte (bytesAt aBuf 8 4) in
    if negb (Z.land magic 0xFFFFFFFE =? WAL_MAGIC)
       || negb (Z.land szPg (szPg - 1) =? 0)
       || (szPg >? SQLITE_MAX_PAGE_SIZE) || (szPg <? 512)
    then let '(rc, w) := finished w (0, 0) in (rc, w, io)
    else
    let w := set_hdr w (set_bigEndCksum (hdr w) (u8 (Z.land magic 1))) in
    let w := set_nCkpt (set_szPage w szPg) (sqlite3Get4byte (bytesAt aBuf 12 4)) in
    let w := set_hdr w (set_aSalt (hdr w) (bytesAt aBuf 16 8)) in
    let aCksum := walChecksumBytes be (bigEndCksum (hdr w) =? bigendian be) (bytesAt aBuf 0 24) (0, 0) in
    let w := setFrameCksum aCksum w in
    if negb (aCksum.1 =? sqlite3Get4byte (bytesAt aBuf 24 4))
       || negb (aCksum.2 =? sqlite3Get4byte (bytesAt aBuf 28 4))
    then let '(rc, w) := finished w (0, 0) in (rc, w, io)
    else if negb (sqlite3Get4byte (bytesAt aBuf 4 4) =? WAL_MAX_VERSION)
    then (SQLITE_CANTOPEN, w, io)
    else if negb mallocOk then (SQLITE_NOMEM, w, io)
    else
      let szFrame := szPg + WAL_FRAME_HDRSIZE in
      let iLastFrame := u32 ((nSize - WAL_HDRSIZE) / szFrame) in
      let '(rc, w, io, ck) :=
        recoverPages (Z.to_nat (walFramePage iLastFrame + 1)) 0 iLastFrame szPg w io (0, 0) in
      if negb (rc =? SQLITE_OK) then (rc, w, io)
      else let '(rc, w) := finished w ck in (rc, w, io)
  else let '(rc, w) := finished w (0, 0) in (rc, w, io).

End Recover.

(** ** Specification: the valid frames of a file *)

(** A frame that continues chain [c]: page number, commit size, checksum. *)
Definition decodeFrame (c : chain) (aData aFrame : list Z) : option (Z * Z * (Z * Z)) :=
  let p := sqlite3Get4byte (bytesAt aFrame 0 4) in
  let t := sqlite3Get4byte (bytesAt aFrame 4 4) in
  if bool_decide (p <> 0 /\ aFrame = frameHdr c p t aData)
  then Some (p, t, frameCksum c p t aData) else None.

Definition frameOff (szPg i : Z) : nat := Z.to_nat (walFrameOffset i szPg).

(** The valid frames from frame [i], at most [n]. *)
Fixpoint scan (b : list Z) (szPg : Z) (n : nat) (i : Z) (c : chain) : list (Z * Z * (Z * Z)) :=
  match n with
  | O => []
  | S n' =>
      match decodeFrame c (bytesAt b (frameOff szPg i + 24) (Z.to_nat szPg))
                          (bytesAt b (frameOff szPg i) 24) with
      | Some (p, t, s) => (p, t, s) :: scan b szPg n' (i + 1) (chain_next c s)
      | None => []
      end
  end.

(** The last commit frame of [l], whose first frame has number [f]: frame
    number, database size and checksum. *)
Fixpoint lastCommit (f : Z) (l : list (Z * Z * (Z * Z))) (acc : Z * Z * (Z * Z))
    : Z * Z * (Z * Z) :=
  match l with
  | [] => acc
  | (p, t, s) :: l' => lastCommit (f + 1) l' (if t =? 0 then acc else (f, t, s))
  end.

Fixpoint chainAfter (c : chain) (l : list (Z * Z * (Z * Z))) : chain :=
  match l with
  | [] => c
  | (p, t, s) :: l' => chainAfter (chain_next c s) l'
  end.

Lemma walDecodeFrame_decode be w c aData aFrame :
  chain_of w c -> chain_ok c -> Forall is_byte aData -> Forall is_byte aFrame ->
  length aFrame = 24%nat ->
  match decodeFrame c aData aFrame with
  | Some (p, t, s) => walDecodeFrame be w aData aFrame = (Some (p, t), s)
      /\ 0 < p /\ is_u32 t /\ pair_u32 s
  | None => (walDecodeFrame be w aData aFrame).1 = None
  end.
Proof.
  intros Hw Hc Hd Hf Hl. unfold decodeFrame. case_bool_decide as Hdec.
  - destruct Hdec as [Hnz Heq].
    pose proof (Get4byte_u32 _ (bytesAt_Forall aFrame 0 4 Hf)) as Hp.
    pose proof (Get4byte_u32 _ (bytesAt_Forall aFrame 4 4 Hf)) as Ht.
    revert Hnz Heq Hp Ht. generalize (sqlite3Get4byte (bytesAt aFrame 0 4)) as p.
    generalize (sqlite3Get4byte (bytesAt aFrame 4 4)) as t. intros t p Hnz -> Hp Ht.
    split; [by apply walDecodeFrame_valid|]. split; [unfold is_u32 in Hp; lia|].
    split; [done|]. apply cksum_u32, cksum_u32, Hc.
  - destruct (walDecodeFrame be w aData aFrame) as [[[p t]|] s] eqn:E; [|done].
    exfalso. apply Hdec.
    destruct (walDecodeFrame_sound be w c aData aFrame p t s Hw Hd Hf Hl E)
      as (Hnz & Hp & Ht & _ & ->).
    assert (chain_ok c) as Hc' by done.
    destruct (frameHdr_fields c p t aData Hc) as (-> & -> & _).
    rewrite !Get4byte_Put4byte_exact by done. done.
Qed.

Lemma scan_app b szPg n m i c :
  scan b szPg (n + m) i c
  = scan b szPg n i c
    ++ (if bool_decide (length (scan b szPg n i c) = n)
        then scan b szPg m (i + Z.of_nat n) (chainAfter c (scan b szPg n i c)) else []).
Proof.
  revert i c. induction n as [|n IH]; intros i c; cbn [scan Nat.add].
  - rewrite bool_decide_true by done. simpl. by rewrite Z.add_0_r.
  - destruct (decodeFrame c _ _) as [[[p t] s]|]; [|by rewrite bool_decide_false].
    rewrite IH. cbn [length app chainAfter]. f_equal. f_equal.
    destruct (decide (length (scan b szPg n (i + 1) (chain_next c s)) = n)) as [E|E].
    + rewrite !bool_decide_true by congruence. f_equal. lia.
    + rewrite !bool_decide_false by congruence. done.
Qed.

Lemma length_scan b szPg n i c : (length (scan b szPg n i c) <= n)%nat.
Proof.
  revert i c. induction n as [|n IH]; intros i c; cbn [scan]; [done|].
  destruct (decodeFrame c _ _) as [[[p t] s]|]; simpl; [|lia]. specialize (IH (i + 1) (chain_next c s)). lia.
Qed.

Lemma lastCommit_app f l l' acc :
  lastCommit f (l ++ l') acc = lastCommit (f + Z.of_nat (length l)) l' (lastCommit f l acc).
Proof.
  revert f acc. induction l as [|[[p t] s] l IH]; intros f acc; cbn [lastCommit app length].
  - by rewrite Z.add_0_r.
  - rewrite IH. f_equal. lia.
Qed.

(** ** The code computes the specification *)

Lemma take_bytesAt b off n m : (m <= n)%nat -> take m (bytesAt b off n) = bytesAt b off m.
Proof. intros. unfold bytesAt. rewrite take_take. f_equal. lia. Qed.

Lemma drop_bytesAt b off n m : drop m (bytesAt b off n) = bytesAt b (off + m) (n - m).
Proof. unfold bytesAt. rewrite skipn_firstn_comm, drop_drop. done. Qed.

(** A read of a file either fails or gives the bytes; without faults it does
    not fail. *)
Lemma osRead_frame io szPg i :
  0 <= szPg -> 1 <= i -> walFrameOffset (i + 1) szPg <= Z.of_nat (length (bytes io)) ->
  exists rc d io', osRead io (szPg + WAL_FRAME_HDRSIZE) (walFrameOffset i szPg) = (rc, d, io')
    /\ bytes io' = bytes io /\ (faults io = [] -> rc = SQLITE_OK /\ io' = io)
    /\ (rc = SQLITE_OK -> take 24 d = bytesAt (bytes io) (frameOff szPg i) 24
          /\ drop 24 d = bytesAt (bytes io) (frameOff szPg i + 24) (Z.to_nat szPg)).
Proof.
  intros Hs Hi Hlen. destruct io as [b fl]. cbn [bytes faults] in *. unfold osRead.
  assert (exists rc k io', nextFault (mkIo b fl) = (rc, k, io') /\ bytes io' = b
    /\ (fl = [] -> rc = SQLITE_OK /\ io' = mkIo b fl)) as (rc & k & io' & -> & Hb & Hz).
  { destruct fl as [|[rc k] fl]; [by exists SQLITE_OK, 0%nat, (mkIo b [])|by exists rc, k, (mkIo b fl)]. }
  rewrite Hb.
  destruct (Z.eqb_spec rc SQLITE_OK) as [->|Hne]; cbn [negb].
  2:{ eexists rc, _, io'. split; [done|]. split; [done|]. split; [done|]. by intros ->. }
  unfold walFrameOffset, WAL_HDRSIZE, WAL_FRAME_HDRSIZE in *.
  destruct (Z.ltb_spec (Z.of_nat (length b)) (32 + (i - 1) * (szPg + 24) + (szPg + 24))); [lia|].
  eexists SQLITE_OK, _, io'. split; [done|]. split; [done|]. split; [done|]. intros _. split.
  - by apply take_bytesAt; lia.
  - rewrite drop_bytesAt. unfold frameOff, walFrameOffset. f_equal. lia.
Qed.

(** What the other connections see is unchanged. *)
Definition unpublished (w w' : Wal) : Prop := aHdr w' = aHdr w /\ ckptInfo w' = ckptInfo w.

Definition encPage (szPg : Z) : Z := u16 (Z.lor (Z.land szPg 0xff00) (Z.shiftr szPg 16)).

(** The header fields and the local checksum after the commits seen. *)
Definition committed (szPg : Z) (w : Wal) (ck : Z * Z) (acc : Z * Z * (Z * Z)) : Prop :=
  mxFrame (hdr w) = acc.1.1 /\ nPage (hdr w) = acc.1.2 /\ ck = acc.2
  /\ (acc.1.1 <> 0 -> hszPage (hdr w) = encPage szPg).

Definition pgnos (l : list (Z * Z * (Z * Z))) : list Z := (fun x => x.1.1) <$> l.

Section Code.
Context (be : bool) (walIndexPage : Z -> Z) (b : list Z) (szPg : Z).
Hypothesis Hbytes : Forall is_byte b.
Hypothesis Hsz : 0 <= szPg.

(** What recovery knows before frame [iFrame]. *)
Record before (iFrame : Z) (w : Wal) (ck : Z * Z) (log : list Z) (c : chain)
    (acc : Z * Z * (Z * Z)) : Prop := {
  bf_index : index_ok w log;
  bf_len : Z.of_nat (length log) = iFrame - 1;
  bf_chain : chain_of w c;
  bf_chain_ok : chain_ok c;
  bf_acc : committed szPg w ck acc
}.

Lemma chain_next_ok c s : chain_ok c -> pair_u32 s -> chain_ok (chain_next c s).
Proof. intros (H1 & H2 & _) Hs. done. Qed.

Lemma committed_append w w' ck acc :
  hdr w' = hdr w -> committed szPg w ck acc -> committed szPg w' ck acc.
Proof. unfold committed. by intros ->. Qed.

(** One valid frame. *)
Lemma before_step iFrame w ck log c acc p t s :
  before iFrame w ck log c acc -> 0 < p -> pair_u32 s -> 1 <= iFrame < max_frame ->
  walIndexPage (walFramePage iFrame) = SQLITE_OK ->
  exists w1 w2 ck2,
    walIndexAppend walIndexPage (setFrameCksum s w) iFrame p = (SQLITE_OK, w1)
    /\ (if negb (t =? 0) then
          (set_hdr w1 (set_hszPage (set_nPage (set_mxFrame (hdr w1) iFrame) t) (encPage szPg)),
           aFrameCksum (hdr w1))
        else (w1, ck)) = (w2, ck2)
    /\ before (iFrame + 1) w2 ck2 (log ++ [p]) (chain_next c s)
         (if t =? 0 then acc else (iFrame, t, s))
    /\ unpublished w w2.
Proof.
  intros [Hidx Hlen (Hbig & Hsalt & Hck) Hcok Hacc] Hp Hs Hf Hmap.
  destruct (walIndexAppend_ok walIndexPage (setFrameCksum s w) log iFrame p)
    as (w1 & Happ & Hsame & Hidx1); [exact Hidx|done|lia|lia|left; lia|done|].
  apply same_conn_hdr in Hsame as Hh. cbn [hdr setFrameCksum set_hdr] in Hh.
  replace (Z.to_nat (iFrame - 1)) with (length log) in Hidx1 by lia.
  rewrite take_ge in Hidx1 by done.
  assert (Z.of_nat (length (log ++ [p])) = iFrame + 1 - 1) as Hlen1
    by (rewrite length_app; simpl; lia).
  exists w1. destruct (Z.eqb_spec t 0) as [->|Hnz]; cbn [negb]; eexists _, _;
    (split; [done|]); (split; [done|]); (split; [|by rewrite Hsame; split]);
    split; auto using chain_next_ok.
  - unfold chain_of. by rewrite Hh.
  - eapply (committed_append (setFrameCksum s w)); [by rewrite Hh|].
    destruct Hacc as (? & ? & ? & ?). done.
  - unfold chain_of. simpl. by rewrite Hh.
  - split; [done|]. split; [done|]. split; [by rewrite Hh|done].
Qed.

(** A loop over frames ends with an error before frame [j], or with [Q]. *)
Definition outcome (io io' : Io) (w w' : Wal) (rc : Z) (Q : Prop) : Prop :=
  bytes io' = b /\ unpublished w w' /\ (faults io = [] -> rc = SQLITE_OK /\ io' = io) /\ (rc = SQLITE_OK -> Q).

Lemma recoverFrames_ok n iFrame w io ck log c acc :
  before iFrame w ck log c acc -> bytes io = b -> 1 <= iFrame -> iFrame + Z.of_nat n <= max_frame ->
  walFrameOffset (iFrame + Z.of_nat n) szPg <= Z.of_nat (length b) ->
  (forall f, iFrame <= f < iFrame + Z.of_nat n -> walIndexPage (walFramePage f) = SQLITE_OK) ->
  let l := scan b szPg n iFrame c in
  exists rc i w' io' ck',
    recoverFrames be walIndexPage n iFrame szPg w io ck = (rc, i, w', io', ck')
    /\ (rc <> SQLITE_OK -> i < iFrame + Z.of_nat n)
    /\ outcome io io' w w' rc (i = iFrame + Z.of_nat (length l)
         /\ index_ok w' (log ++ pgnos l) /\ committed szPg w' ck' (lastCommit iFrame l acc)
         /\ (length l = n -> before (iFrame + Z.of_nat n) w' ck' (log ++ pgnos l) (chainAfter c l)
                               (lastCommit iFrame l acc))).
Proof using Hbytes Hsz.
  revert iFrame w io ck log c acc. induction n as [|n IH];
    intros iFrame w io ck log c acc Hbf Hio Hf Hmax Hlen Hmap; cbn [recoverFrames scan].
  - eexists _, _, w, io, ck. split; [done|]. split; [done|]. cbn [length lastCommit chainAfter pgnos fmap list_fmap].
    split; [done|]. split; [done|]. split; [done|]. rewrite !Z.add_0_r, app_nil_r. pose proof Hbf as [? ? ? ? ?]. done.
  - assert (walFrameOffset (iFrame + 1) szPg <= Z.of_nat (length b)) as Hlen1.
    { unfold walFrameOffset, WAL_FRAME_HDRSIZE in *. nia. }
    destruct (osRead_frame io szPg iFrame Hsz Hf ltac:(by rewrite Hio)) as (rc & d & io1 & -> & Hb1 & Hz & Hd).
    rewrite Hio in Hb1, Hd. destruct (Z.eqb_spec rc SQLITE_OK) as [->|Hne]; cbn [negb].
    2:{ eexists rc, _, w, io1, ck. split; [done|]. split; [lia|]. split; [done|]. split; [done|]. split; [done|].
        by intros ->. }
    destruct (Hd eq_refl) as [Ht Hd']. rewrite Ht, Hd'. pose proof Hbf as [Hidx Hll Hch Hcok Hacc].
    pose proof (walDecodeFrame_decode be w c (bytesAt b (frameOff szPg iFrame + 24) (Z.to_nat szPg))
      (bytesAt b (frameOff szPg iFrame) 24) Hch Hcok (bytesAt_Forall _ _ _ Hbytes)
      (bytesAt_Forall _ _ _ Hbytes)) as Hdec.
    assert (faults io = [] -> io1 = io) as Hz1 by (by intros H; apply Hz).
    destruct (decodeFrame c _ _) as [[[p t] s]|].
    + destruct Hdec as (-> & Hp & Hu & Hs).
      { apply length_bytesAt. unfold frameOff, walFrameOffset, WAL_HDRSIZE, WAL_FRAME_HDRSIZE in *. nia. }
      destruct (before_step iFrame w ck log c acc p t s Hbf Hp Hs ltac:(lia))
        as (w1 & w2 & ck2 & -> & Hupd & Hbf2 & Hinfo2); [apply Hmap; lia|].
      cbn [negb Z.eqb SQLITE_OK]. unfold encPage in Hupd. rewrite Hupd.
      destruct (IH (iFrame + 1) w2 io1 ck2 (log ++ [p]) (chain_next c s)
        (if t =? 0 then acc else (iFrame, t, s)) Hbf2 Hb1)
        as (rc & i & w' & io' & ck' & -> & Hstop & Hb' & Hun & Hz' & Hok);
        [lia|lia|by replace (iFrame + 1 + Z.of_nat n) with (iFrame + Z.of_nat (S n)) by lia
        |intros f Hff; apply Hmap; lia|].
      cbn [length lastCommit pgnos fmap list_fmap chainAfter].
      eexists rc, i, w', io', ck'. split; [done|]. split; [intros; lia|]. split; [done|].
      split; [destruct Hun, Hinfo2; split; congruence|]. split.
      { intros H. pose proof (Hz1 H) as ->. by apply Hz'. }
      intros H. destruct (Hok H) as (-> & Hi & Hc & Hfull). rewrite <- app_assoc in Hi.
      split; [lia|]. split; [exact Hi|]. split; [exact Hc|]. intros [= Hn]. specialize (Hfull Hn).
      rewrite <- app_assoc in Hfull.
      by replace (iFrame + 1 + Z.of_nat n) with (iFrame + Z.of_nat (S n)) in Hfull by lia.
    + destruct (walDecodeFrame be w _ _) as [dd s]. cbn [fst] in Hdec. rewrite Hdec.
      2:{ apply length_bytesAt. unfold frameOff, walFrameOffset, WAL_HDRSIZE, WAL_FRAME_HDRSIZE in *. nia. }
      eexists _, _, (setFrameCksum s w), io1, ck. cbn [length lastCommit pgnos fmap list_fmap].
      split; [done|]. split; [done|]. split; [done|]. split; [done|]. split; [by intros H; split; [|apply Hz1]|].
      rewrite Z.add_0_r, app_nil_r.
      split; [done|]. split; [exact Hidx|]. split; [exact Hacc|]. done.
Qed.

(** A page without frames may be overwritten with anything. *)
Lemma before_setPage iPg w ck log c acc pg :
  before (iZeroOf iPg + 1) w ck log c acc -> 0 <= iPg ->
  before (iZeroOf iPg + 1) (setPage w iPg pg) ck log c acc.
Proof.
  intros [(Hpos & Hmax & Hpages) Hlen Hch Hcok Hacc] Hi. split; auto.
  split; [done|]. split; [done|]. intros j Hj Hseg.
  destruct (decide (j = iPg)) as [->|Hne].
  - exfalso. apply Hseg, segOf_after; [done|lia].
  - rewrite pageOf_setPage_ne by done. by apply Hpages.
Qed.

Lemma recoverPages_ok aPrivate n iPg iLastFrame w io ck log c acc :
  before (iZeroOf iPg + 1) w ck log c acc -> bytes io = b -> 0 <= iPg -> 0 <= iLastFrame < max_frame ->
  iPg + Z.of_nat n = walFramePage iLastFrame + 1 ->
  walFrameOffset (iLastFrame + 1) szPg <= Z.of_nat (length b) ->
  let l := scan b szPg (Z.to_nat (iLastFrame - iZeroOf iPg)) (iZeroOf iPg + 1) c in
  exists rc w' io' ck',
    recoverPages be walIndexPage aPrivate n iPg iLastFrame szPg w io ck = (rc, w', io', ck')
    /\ bytes io' = b /\ unpublished w w'
    /\ (faults io = [] -> io' = io)
    /\ (faults io = [] -> (forall i, 0 <= i -> walIndexPage i = SQLITE_OK) -> rc = SQLITE_OK)
    /\ (rc = SQLITE_OK -> index_ok w' (log ++ pgnos l)
         /\ committed szPg w' ck' (lastCommit (iZeroOf iPg + 1) l acc)).
Proof using Hbytes Hsz.
  revert iPg w io ck log c acc. induction n as [|n IH];
    intros iPg w io ck log c acc Hbf Hio Hi Hlast Hn Hlen; cbn [recoverPages].
  - assert (iLastFrame <= iZeroOf iPg) as Hle.
    { replace iPg with (walFramePage iLastFrame + 1) by lia.
      destruct (decide (iLastFrame = 0)) as [->|]; [rewrite walFramePage_0; apply iZeroOf_nonneg; lia|].
      destruct (proj1 (walFramePage_spec iLastFrame _ ltac:(lia)) eq_refl) as [Hk Hr].
      rewrite iZeroOf_succ by done. lia. }
    replace (Z.to_nat (iLastFrame - iZeroOf iPg)) with 0%nat by lia.
    eexists _, w, io, ck. cbn [scan lastCommit pgnos fmap list_fmap]. rewrite app_nil_r.
    destruct Hbf. done.
  - destruct (Z.eqb_spec (walIndexPage iPg) SQLITE_OK) as [Hmap|Hmap]; cbn [negb].
    2:{ eexists _, w, io, ck. split; [done|]. split; [done|]. split; [done|]. split; [done|].
        split; [|done]. intros _ Hall. by destruct Hmap; apply Hall. }
    assert (HASHTABLE_NPAGE_ONE + iPg * HASHTABLE_NPAGE = iZeroOf (iPg + 1)) as ->.
    { unfold iZeroOf. destruct (Z.eqb_spec (iPg + 1) 0); lia. }
    fold (iZeroOf iPg). rewrite (Z.add_comm 1 (iZeroOf iPg)).
    apply (before_setPage iPg w ck log c acc (aPrivate iPg)) in Hbf; [|done].
    pose proof (iZeroOf_succ iPg Hi) as Hsucc. pose proof (pageCap_range iPg) as Hcap.
    pose proof (iZeroOf_nonneg iPg Hi) as Hz.
    set (last := Z.min iLastFrame (iZeroOf (iPg + 1))).
    assert (iZeroOf iPg <= last \/ iLastFrame < iZeroOf iPg) as Hrange by lia.
    assert (iZeroOf iPg <= last) as Hge.
    { destruct Hrange as [|Hbad]; [done|]. exfalso.
      destruct (decide (iLastFrame = 0)) as [E|]; [subst iLastFrame; rewrite walFramePage_0 in Hn;
        replace iPg with 0 in Hbad by lia; change (iZeroOf 0) with 0 in Hbad; lia|].
      destruct (proj1 (walFramePage_spec iLastFrame _ ltac:(lia)) eq_refl) as [Hk Hr].
      destruct (decide (iPg = walFramePage iLastFrame)) as [->|]; [lia|].
      pose proof (iZeroOf_mono iPg (walFramePage iLastFrame) ltac:(lia)). lia. }
    set (nf := Z.to_nat (last - (iZeroOf iPg + 1) + 1)).
    assert (Z.of_nat nf = last - iZeroOf iPg) as Hnf by lia.
    destruct (recoverFrames_ok nf (iZeroOf iPg + 1) (setPage w iPg (aPrivate iPg)) io ck log c acc Hbf Hio)
      as (rc & iF & w1 & io1 & ck1 & -> & Hstop & Hb1 & Hun & Hzf & Hok); [lia|lia| | |].
    { replace (iZeroOf iPg + 1 + Z.of_nat nf) with (last + 1) by lia.
      unfold walFrameOffset, WAL_FRAME_HDRSIZE in *. nia. }
    { intros f Hff. rewrite <- Hmap. f_equal. apply walFramePage_spec; lia. }
    destruct (decide (rc = SQLITE_OK)) as [->|Hne].
    2:{ destruct (Z.leb_spec iF last); [|lia]. eexists rc, w1, io1, ck1. split; [done|]. split; [done|].
        split; [done|]. split; [by intros Hf; apply Hzf|]. split; [by intros Hf _; apply Hzf|done]. }
    destruct (Hok eq_refl) as (-> & Hidx & Hacc & Hfull). clear Hok Hstop.
    assert (faults io = [] -> io1 = io) as Hz1 by (by intros Hf; apply Hzf).
    replace (Z.to_nat (iLastFrame - iZeroOf iPg)) with (nf + Z.to_nat (iLastFrame - last))%nat by lia.
    rewrite scan_app. pose proof (length_scan b szPg nf (iZeroOf iPg + 1) c) as Hls.
    set (l1 := scan b szPg nf (iZeroOf iPg + 1) c) in *.
    destruct (Z.leb_spec (iZeroOf iPg + 1 + Z.of_nat (length l1)) last) as [Hstop|Hcont].
    + rewrite bool_decide_false by lia. rewrite app_nil_r. eexists _, w1, io1, ck1.
      split; [done|]. split; [done|]. split; [done|]. by split.
    + assert (length l1 = nf) as Hfl by lia. rewrite bool_decide_true by done.
      specialize (Hfull Hfl). destruct (decide (iLastFrame <= iZeroOf (iPg + 1))) as [Hend|Hmore].
      * replace (Z.to_nat (iLastFrame - last)) with 0%nat by lia. cbn [scan]. rewrite app_nil_r.
        assert (n = 0%nat) as ->.
        { enough (walFramePage iLastFrame <= iPg) by lia. destruct (decide (iLastFrame = 0)) as [->|].
          - rewrite walFramePage_0. lia.
          - destruct (proj1 (walFramePage_spec iLastFrame _ ltac:(lia)) eq_refl) as [Hk Hr].
            destruct (Z.le_gt_cases (walFramePage iLastFrame) iPg); [done|].
            pose proof (iZeroOf_mono iPg (walFramePage iLastFrame) ltac:(lia)). lia. }
        cbn [recoverPages]. eexists _, w1, io1, ck1.
        split; [done|]. split; [done|]. split; [done|]. by split.
      * assert (last = iZeroOf (iPg + 1)) as Hlast1 by lia.
        replace (iZeroOf iPg + 1 + Z.of_nat nf) with (iZeroOf (iPg + 1) + 1) in * by lia.
        destruct (IH (iPg + 1) w1 io1 ck1 (log ++ pgnos l1) (chainAfter c l1)
          (lastCommit (iZeroOf iPg + 1) l1 acc) Hfull Hb1)
          as (rc & w' & io' & ck' & -> & Hb' & Hun' & Hz2 & Hz' & Hok'); [lia|lia|lia|done|].
        eexists rc, w', io', ck'. split; [done|]. split; [done|].
        split; [destruct Hun as [U1 U2], Hun' as [U3 U4]; split; [by rewrite U3|by rewrite U4]|].
        split; [intros Hf; pose proof (Hz1 Hf) as ->; by apply Hz2|].
        split; [intros Hf Hall; pose proof (Hz1 Hf) as ->; by apply Hz'|].
        intros Hrc. destruct (Hok' Hrc) as [Hidx' Hacc']. rewrite Hlast1.
        unfold pgnos. rewrite fmap_app, app_assoc. split; [done|].
        rewrite lastCommit_app, Hfl.
        by replace (iZeroOf iPg + 1 + Z.of_nat nf) with (iZeroOf (iPg + 1) + 1) by lia.
Qed.
End Code.

(** ** The whole recovery *)

(** Page size and initial chain of a file with a valid header. *)
Definition parseHeader (b : list Z) : option (Z * chain) :=
  if Z.of_nat (length b) <=? WAL_HDRSIZE then None else
  let magic := sqlite3Get4byte (bytesAt b 0 4) in
  let szPg := sqlite3Get4byte (bytesAt b 8 4) in
  if negb (Z.land magic 0xFFFFFFFE =? WAL_MAGIC) || negb (Z.land szPg (szPg - 1) =? 0)
     || (szPg >? SQLITE_MAX_PAGE_SIZE) || (szPg <? 512)
  then None else
  let big := Z.odd magic in
  let s := cksum big (bytesAt b 0 24) (0, 0) in
  if negb (s.1 =? sqlite3Get4byte (bytesAt b 24 4)) || negb (s.2 =? sqlite3Get4byte (bytesAt b 28 4))
  then None
  else Some (szPg, mkChain big (bytesAt b 16 8) s).

(** The frames that recovery accepts. *)
Definition fileFrames (b : list Z) : list (Z * Z * (Z * Z)) :=
  match parseHeader b with
  | None => []
  | Some (szPg, c) =>
      scan b szPg (Z.to_nat ((Z.of_nat (length b) - WAL_HDRSIZE) / (szPg + WAL_FRAME_HDRSIZE))) 1 c
  end.

(** A file of another version of the format. *)
Definition foreign (b : list Z) : bool :=
  match parseHeader b with
  | Some _ => negb (sqlite3Get4byte (bytesAt b 4 4) =? WAL_MAX_VERSION)
  | None => false
  end.

Definition freshMark (mxFrame i : Z) : Z :=
  if (i =? 1) && negb (mxFrame =? 0) then mxFrame else READMARK_NOT_USED.

(** The read marks from [i] on after recovery: a mark that is locked by a
    reader is kept; the others are reset, up to the first lock that fails. *)
Definition marksReset (lock : Z -> Z) (mxFrame i : Z) (marks marks' : list Z) : Prop :=
  length marks' = length marks
  /\ (forall j, 0 <= j < i -> nthZ marks' j = nthZ marks j)
  /\ (forall j, i <= j < WAL_NREADER ->
       (lock (3 + j) <> SQLITE_OK -> nthZ marks' j = nthZ marks j)
       /\ (lock (3 + j) = SQLITE_OK ->
           (forall k, i <= k < j -> lock (3 + k) = SQLITE_OK \/ lock (3 + k) = SQLITE_BUSY) ->
           nthZ marks' j = freshMark mxFrame j)).

(** A result code of the locks from [i] on. *)
Definition lockResult (lock : Z -> Z) (i rc : Z) : Prop :=
  (rc = SQLITE_OK \/ exists j, i <= j < WAL_NREADER /\ rc = lock (3 + j))
  /\ ((forall j, i <= j < WAL_NREADER -> lock (3 + j) = SQLITE_OK) -> rc = SQLITE_OK).

Lemma resetMarks_ok lock n i w :
  0 <= i -> i + Z.of_nat n = WAL_NREADER -> Z.of_nat (length (aReadMark (ckptInfo w))) = WAL_NREADER ->
  exists rc marks', resetMarks lock i n w
      = (rc, set_ckptInfo w (mkInfo (nBackfill (ckptInfo w)) marks' (nBackfillAttempted (ckptInfo w))))
    /\ marksReset lock (mxFrame (hdr w)) i (aReadMark (ckptInfo w)) marks' /\ lockResult lock i rc.
Proof.
  unfold WAL_NREADER. revert i w. induction n as [|n IH]; intros i w Hi Hn Hl; cbn [resetMarks].
  { exists SQLITE_OK, (aReadMark (ckptInfo w)). split; [by destruct w as [? ? []]|]. split; [|by split; [left|]].
    split; [done|]. split; [done|]. unfold WAL_NREADER. intros; lia. }
  set (m := aReadMark (ckptInfo w)) in *.
  destruct (Z.eqb_spec (lock (3 + i)) SQLITE_OK) as [El|El].
  - fold (freshMark (mxFrame (hdr w)) i). set (x := freshMark (mxFrame (hdr w)) i).
    destruct (IH (i + 1) (set_ckptInfo w (mkInfo (nBackfill (ckptInfo w)) (setZ m i x)
      (nBackfillAttempted (ckptInfo w))))) as (rc & m' & -> & (H1 & H2 & H3) & H4 & H5);
      [lia|lia|by cbn; rewrite length_setZ|].
    cbn [ckptInfo set_ckptInfo aReadMark hdr nBackfill nBackfillAttempted] in *. rewrite length_setZ in H1.
    eexists rc, m'. split; [done|]. split; [split; [done|]; split|].
    + intros j Hj. rewrite H2 by lia. apply nthZ_setZ_ne; lia.
    + intros j Hj. destruct (decide (j = i)) as [->|Hne].
      * split; [done|]. intros _ _. rewrite H2 by lia. apply nthZ_setZ_eq; lia.
      * destruct (H3 j ltac:(unfold WAL_NREADER in *; lia)) as [K1 K2]. split.
        -- intros K. rewrite K1 by done. apply nthZ_setZ_ne; lia.
        -- intros K Kall. apply K2; [done|]. intros k Hk. apply Kall. lia.
    + split; [|intros Hall; apply H5; intros; apply Hall; lia].
      destruct H4 as [|(j & Hj & ->)]; [by left|right]. exists j. split; [lia|done].
  - destruct (Z.eqb_spec (lock (3 + i)) SQLITE_BUSY) as [Eb|Eb].
    + assert (exists rc marks', match n with O => (lock (3 + i), w) | S _ => resetMarks lock (i + 1) n w end
        = (rc, set_ckptInfo w (mkInfo (nBackfill (ckptInfo w)) marks' (nBackfillAttempted (ckptInfo w))))
        /\ marksReset lock (mxFrame (hdr w)) (i + 1) m marks'
        /\ (rc = SQLITE_OK \/ exists j, i <= j < WAL_NREADER /\ rc = lock (3 + j)))
        as (rc & m' & -> & (H1 & H2 & H3) & H4).
      { unfold WAL_NREADER. destruct n as [|n].
        - exists (lock (3 + i)), m. split; [unfold m; by destruct w as [? ? []]|]. split; [|right; exists i; split; [lia|done]].
          split; [done|]. split; [done|]. unfold WAL_NREADER. intros; lia.
        - destruct (IH (i + 1) w) as (rc & m' & -> & H1 & H2 & _); [lia|lia|done|].
          eexists rc, m'. split; [done|]. split; [done|].
          destruct H2 as [|(j & Hj & ->)]; [by left|right]. exists j. split; [unfold WAL_NREADER in Hj; lia|done]. }
      eexists rc, m'. split; [done|]. split; [split; [done|]; split|split; [done|]].
      * intros j Hj. apply H2. lia.
      * intros j Hj. destruct (decide (j = i)) as [->|Hne]; [split; [|done]; intros _; apply H2; lia|].
        destruct (H3 j ltac:(unfold WAL_NREADER in *; lia)) as [K1 K2]. split; [done|].
        intros K Kall. apply K2; [done|]. intros k Hk. apply Kall. lia.
      * intros Hall. destruct El. apply Hall. unfold WAL_NREADER. lia.
    + exists (lock (3 + i)), m. split; [unfold m; by destruct w as [? ? []]|]. split; [split; [done|]; split; [done|]|split].
      * intros j Hj. destruct (decide (j = i)) as [->|Hne]; [done|]. split; [done|].
        intros _ Kall. destruct (Kall i ltac:(lia)); done.
      * right. exists i. split; [unfold WAL_NREADER; lia|done].
      * intros Hall. destruct El. apply Hall. unfold WAL_NREADER. lia.
Qed.

(** What recovery publishes for the last commit [acc]. *)
Record published (lock : Z -> Z) (w w' : Wal) (acc : Z * Z * (Z * Z)) : Prop := {
  pb_mxFrame : mxFrame (hdr w') = acc.1.1;
  pb_nPage : nPage (hdr w') = acc.1.2;
  pb_cksum : aFrameCksum (hdr w') = acc.2;
  pb_isInit : isInit (hdr w') = 1;
  pb_copies : aHdr w' = (hdr w', hdr w');
  pb_backfill : nBackfill (ckptInfo w') = 0;
  pb_attempted : nBackfillAttempted (ckptInfo w') = acc.1.1;
  pb_marks : marksReset lock acc.1.1 1 (setZ (aReadMark (ckptInfo w)) 0 0) (aReadMark (ckptInfo w'))
}.

Lemma finished_ok be lock w ck acc szPg :
  length (aReadMark (ckptInfo w)) = 5%nat -> committed szPg w ck acc ->
  exists rc w', finished be lock w ck = (rc, w') /\ published lock w w' acc /\ lockResult lock 1 rc
    /\ apWiData w' = apWiData w.
Proof.
  intros Hlen (Hmx & Hn & -> & _). unfold finished.
  set (w1 := WalFormat.walIndexWriteHdr be (setFrameCksum acc.2 w)).
  assert (mxFrame (hdr w1) = acc.1.1 /\ nPage (hdr w1) = acc.1.2 /\ aFrameCksum (hdr w1) = acc.2
    /\ isInit (hdr w1) = 1 /\ aHdr w1 = (hdr w1, hdr w1) /\ ckptInfo w1 = ckptInfo w
    /\ apWiData w1 = apWiData w) as (H1 & H2 & H3 & H4 & H5 & H6 & H7).
  { rewrite <- Hmx, <- Hn. by repeat split. }
  clearbody w1. change (Z.to_nat (WAL_NREADER - 1)) with 4%nat.
  destruct (resetMarks_ok lock 4 1 (set_ckptInfo w1 (mkInfo 0 (setZ (aReadMark (ckptInfo w1)) 0 0) (mxFrame (hdr w1)))))
    as (rc & m & -> & Hm & Hr); [lia|done|by cbn; rewrite length_setZ, H6, Hlen|].
  cbn [ckptInfo set_ckptInfo aReadMark hdr nBackfill nBackfillAttempted] in *. rewrite H6, H1 in Hm.
  eexists rc, _. split; [done|]. split; [|done]. by split.
Qed.

Lemma magic_bit magic : 0 <= magic -> u8 (Z.land magic 1) = (if Z.odd magic then 1 else 0).
Proof.
  intros Hm. change 1 with (Z.ones 1) at 1. rewrite Z.land_ones by lia.
  change (2 ^ 1) with 2. rewrite Zmod_odd. by destruct (Z.odd magic).
Qed.

Section Whole.
Context (be : bool) (walIndexPage : Z -> Z) (aPrivate : Z -> WalPage) (lock : Z -> Z) (mallocOk : bool).
Context (b : list Z) (w : Wal).
Hypothesis Hbytes : Forall is_byte b.
Hypothesis Hlen : Z.of_nat (length b) < 2 ^ 40.
Hypothesis Hmarks : length (aReadMark (ckptInfo w)) = 5%nat.

Local Abbreviation recover io := (walIndexRecover be walIndexPage aPrivate lock mallocOk w io).

(** No call of the environment fails, the locks of the readers apart. *)
Definition undisturbed (io : Io) : Prop :=
  faults io = [] /\ mallocOk = true /\ lock (1 + (if ckptLock w then 1 else 0)) = SQLITE_OK
  /\ (forall i, 0 <= i -> walIndexPage i = SQLITE_OK).

(** The outcomes of recovery: an error, and nothing is published; or the valid
    frames of the file are. *)
Definition recovery (io io' : Io) (rc : Z) (w' : Wal) : Prop :=
  bytes io' = b /\ (faults io = [] -> io' = io)
  /\ ((rc <> SQLITE_OK /\ unpublished w w' /\ (undisturbed io -> foreign b = true /\ rc = SQLITE_CANTOPEN))
      \/ (foreign b = false /\ index_ok w' (pgnos (fileFrames b))
          /\ published lock w w' (lastCommit 1 (fileFrames b) (0, 0, (0, 0))) /\ lockResult lock 1 rc)).

Lemma recover_fails io io' rc w' :
  bytes io' = b -> (faults io = [] -> io' = io) -> rc <> SQLITE_OK -> unpublished w w' -> (undisturbed io -> foreign b = true /\ rc = SQLITE_CANTOPEN) ->
  recovery io io' rc w'.
Proof. intros. split; [done|]. split; [done|]. by left. Qed.

Lemma recover_nothing io io' w1 :
  bytes io' = b -> (faults io = [] -> io' = io) -> parseHeader b = None -> ckptInfo w1 = ckptInfo w ->
  mxFrame (hdr w1) = 0 -> nPage (hdr w1) = 0 ->
  exists rc w', (let '(rc, w2) := finished be lock w1 (0, 0) in (rc, w2, io')) = (rc, w', io')
    /\ recovery io io' rc w'.
Proof using Hmarks.
  intros Hb Hz Hp Hi H1 H2.
  destruct (finished_ok be lock w1 (0, 0) (0, 0, (0, 0)) 0) as (rc & w' & -> & Hpub & Hr & _).
  { by rewrite Hi. } { by repeat split. }
  exists rc, w'. split; [done|]. split; [done|]. split; [done|]. right. unfold foreign, fileFrames. rewrite Hp. split; [done|].
  split; [apply index_ok_empty|]. split; [|done]. destruct Hpub as [P1 P2 P3 P4 P5 P6 P7 P8]. rewrite Hi in P8. by split.
Qed.

(** Number of frames that fit in the file. *)
Lemma frame_count szPg :
  512 <= szPg -> 32 < Z.of_nat (length b) ->
  let n := (Z.of_nat (length b) - WAL_HDRSIZE) / (szPg + WAL_FRAME_HDRSIZE) in
  u32 n = n /\ 0 <= n < max_frame /\ walFrameOffset (n + 1) szPg <= Z.of_nat (length b).
Proof using Hlen.
  intros Hs Hl n. clear Hmarks. unfold WAL_HDRSIZE, WAL_FRAME_HDRSIZE in *.
  assert (0 <= n) by (apply Z.div_pos; lia).
  assert (n < max_frame) by (apply Z.div_lt_upper_bound; unfold max_frame; lia).
  split; [apply u32_small; unfold max_frame in *; lia|]. split; [done|].
  unfold walFrameOffset, WAL_HDRSIZE, WAL_FRAME_HDRSIZE.
  pose proof (Z.mul_div_le (Z.of_nat (length b) - 32) (szPg + 24) ltac:(lia)). fold n in H1. lia.
Qed.

Lemma nextFault_cases io : exists rc k io', nextFault io = (rc, k, io') /\ bytes io' = bytes io
  /\ (faults io = [] -> rc = SQLITE_OK /\ io' = io).
Proof. destruct io as [b0 [|[rc k] fl]]; eexists _, _, _; done. Qed.

(** From the frames on. *)
Lemma recover_frames io0 io w1 szPg c :
  bytes io = b -> (faults io0 = [] -> io = io0) -> parseHeader b = Some (szPg, c) -> foreign b = false -> 512 <= szPg -> 32 < Z.of_nat (length b) ->
  chain_of w1 c -> chain_ok c -> unpublished w w1 -> mxFrame (hdr w1) = 0 -> nPage (hdr w1) = 0 ->
  exists rc w' io',
    (let '(rc, w2, io2, ck) :=
       recoverPages be walIndexPage aPrivate
         (Z.to_nat (walFramePage (u32 ((Z.of_nat (length b) - WAL_HDRSIZE) / (szPg + WAL_FRAME_HDRSIZE))) + 1)) 0
         (u32 ((Z.of_nat (length b) - WAL_HDRSIZE) / (szPg + WAL_FRAME_HDRSIZE))) szPg w1 io (0, 0) in
     if negb (rc =? SQLITE_OK) then (rc, w2, io2)
     else let '(rc, w3) := finished be lock w2 ck in (rc, w3, io2)) = (rc, w', io')
    /\ recovery io0 io' rc w'.
Proof using Hbytes Hlen Hmarks.
  intros Hio Hz0 Hp Hf Hsz Hl Hch Hcok Hun H1 H2.
  destruct (frame_count szPg Hsz Hl) as (Hu & Hn & Hoff). rewrite Hu.
  set (n := (Z.of_nat (length b) - WAL_HDRSIZE) / (szPg + WAL_FRAME_HDRSIZE)) in *.
  assert (before szPg (iZeroOf 0 + 1) w1 (0, 0) [] c (0, 0, (0, 0))) as Hbf.
  { split; [apply index_ok_empty|done|done|done|]. by repeat split. }
  destruct (recoverPages_ok be walIndexPage b szPg Hbytes ltac:(lia) aPrivate
    (Z.to_nat (walFramePage n + 1)) 0 n w1 io (0, 0) [] c (0, 0, (0, 0)) Hbf Hio)
    as (rc & w2 & io2 & ck & -> & Hb2 & Hun2 & Hz2 & Hz & Hok); [lia|lia|pose proof (walFramePage_nonneg n); lia|done|].
  assert (faults io0 = [] -> io2 = io0) as Hz3 by (intros E; pose proof (Hz0 E) as ->; by apply Hz2).
  change (iZeroOf 0) with 0 in *. rewrite Z.sub_0_r in *. change (0 + 1) with 1 in *. rewrite app_nil_l in Hok.
  assert (unpublished w w2) as [Hun3 Hi3] by (destruct Hun, Hun2; split; congruence).
  destruct (Z.eqb_spec rc SQLITE_OK) as [->|Hne]; cbn [negb].
  2:{ eexists _, _, _. split; [done|]. apply recover_fails; try done. intros (D1 & _ & _ & D2). exfalso.
      rewrite (Hz0 D1) in Hz. by destruct Hne; apply Hz. }
  destruct (Hok eq_refl) as [Hidx Hacc].
  destruct (finished_ok be lock w2 ck _ szPg ltac:(by rewrite Hi3) Hacc) as (rc & w' & -> & Hpub & Hr & Hpages).
  exists rc, w', io2. split; [done|]. split; [done|]. split; [done|]. right. split; [done|].
  unfold fileFrames. rewrite Hp. fold n. split; [by eapply index_ok_pages|]. split; [|done].
  destruct Hpub as [P1 P2 P3 P4 P5 P6 P7 P8]. rewrite Hi3 in P8. by split.
Qed.

Lemma walIndexRecover_any io :
  bytes io = b -> exists rc w' io', recover io = (rc, w', io') /\ recovery io io' rc w'.
Proof using Hbytes Hlen Hmarks.
  intros Hio. unfold walIndexRecover.
  destruct (Z.eqb_spec (lock (1 + (if ckptLock w then 1 else 0))) SQLITE_OK) as [El|El]; cbn [negb].
  2:{ eexists _, _, _. split; [done|]. apply recover_fails; try done. by intros (_ & _ & ? & _). }
  unfold osFileSize, osRead. destruct (nextFault_cases io) as (rc1 & k1 & io1 & -> & Hb1 & Hz1). rewrite Hio in Hb1.
  assert (faults io = [] -> io1 = io) as Hy1 by (by intros Hf; apply Hz1).
  destruct (Z.eqb_spec rc1 SQLITE_OK) as [->|E1]; cbn [negb].
  2:{ eexists _, _, _. split; [done|]. apply recover_fails; try done. intros (H & _). by destruct (Hz1 H). }
  rewrite Hb1, Z.gtb_ltb. destruct (Z.ltb_spec WAL_HDRSIZE (Z.of_nat (length b))) as [Hbig|Hsmall].
  2:{ destruct (recover_nothing io io1 (set_hdr w zeroHdr)) as (rc & w' & -> & Hp); try done; [|by eexists _, _, _].
      unfold parseHeader. by destruct (Z.leb_spec (Z.of_nat (length b)) WAL_HDRSIZE); [|lia]. }
  destruct (nextFault_cases io1) as (rc2 & k2 & io2 & -> & Hb2 & Hz2). rewrite Hb1 in Hb2. rewrite Hb2.
  assert (faults io = [] -> io2 = io) as Hy2 by (intros Hf; pose proof (Hy1 Hf) as ->; by apply Hz2).
  destruct (Z.eqb_spec rc2 SQLITE_OK) as [->|E2]; cbn [negb].
  2:{ eexists _, _, _. rewrite (proj2 (Z.eqb_neq _ _) E2). split; [done|]. apply recover_fails; try done.
      intros (H & _). destruct (Hz1 H) as [_ ->]. by destruct (Hz2 H). }
  unfold WAL_HDRSIZE in Hbig. destruct (Z.ltb_spec (Z.of_nat (length b)) (0 + WAL_HDRSIZE)); [unfold WAL_HDRSIZE in *; lia|].
  cbn [negb Z.eqb SQLITE_OK]. change (Z.to_nat 0) with 0%nat. change (Z.to_nat WAL_HDRSIZE) with 32%nat.
  assert (forall off n, (off + n <= 32)%nat -> bytesAt (bytesAt b 0 32) off n = bytesAt b off n) as Hsub.
  { intros off n Ho. unfold bytesAt. rewrite drop_0, skipn_firstn_comm, take_take. f_equal. lia. }
  rewrite !Hsub by lia.
  set (magic := sqlite3Get4byte (bytesAt b 0 4)). set (szPg := sqlite3Get4byte (bytesAt b 8 4)).
  assert (parseHeader b = if negb (Z.land magic 0xFFFFFFFE =? WAL_MAGIC) || negb (Z.land szPg (szPg - 1) =? 0)
     || (szPg >? SQLITE_MAX_PAGE_SIZE) || (szPg <? 512) then None
     else let s := cksum (Z.odd magic) (bytesAt b 0 24) (0, 0) in
     if negb (s.1 =? sqlite3Get4byte (bytesAt b 24 4)) || negb (s.2 =? sqlite3Get4byte (bytesAt b 28 4)) then None
     else Some (szPg, mkChain (Z.odd magic) (bytesAt b 16 8) s)) as Hph.
  { unfold parseHeader. by destruct (Z.leb_spec (Z.of_nat (length b)) WAL_HDRSIZE); [unfold WAL_HDRSIZE in *; lia|]. }
  destruct (_ || _ || _ || _) eqn:Ebad.
  { destruct (recover_nothing io io2 (set_hdr w zeroHdr)) as (rc & w' & -> & Hp); try done. by eexists _, _, _. }
  assert (512 <= szPg) as Hsz by (rewrite !orb_false_iff in Ebad; destruct Ebad as [_ E]; lia).
  pose proof (Get4byte_u32 (bytesAt b 0 4) (bytesAt_Forall _ _ _ Hbytes)) as Hm. fold magic in Hm.
  unfold is_u32 in Hm. rewrite magic_bit by lia. cbn [hdr set_hdr set_bigEndCksum bigEndCksum
    set_aSalt set_nCkpt set_szPage setFrameCksum]. rewrite native_flag.
  rewrite walChecksumBytes_ok by by apply bytesAt_Forall. cbv zeta in Hph.
  set (s := cksum (Z.odd magic) (bytesAt b 0 24) (0, 0)) in *.
  destruct (negb (s.1 =? sqlite3Get4byte (bytesAt b 24 4))
    || negb (s.2 =? sqlite3Get4byte (bytesAt b 28 4))) eqn:Ecksum.
  { edestruct (recover_nothing io io2) as (rc & w' & -> & Hp); [..|by eexists _, _, _]; done. }
  assert (foreign b = negb (sqlite3Get4byte (bytesAt b 4 4) =? WAL_MAX_VERSION)) as Hfor by (unfold foreign; by rewrite Hph).
  destruct (Z.eqb_spec (sqlite3Get4byte (bytesAt b 4 4)) WAL_MAX_VERSION) as [Ev|Ev]; cbn [negb] in Hfor |- *.
  2:{ eexists _, _, _. split; [done|]. by apply recover_fails. }
  destruct (bool_dec mallocOk true) as [->|Em%not_true_iff_false]; cbn [negb].
  2:{ rewrite Em. eexists _, _, _. split; [done|]. apply recover_fails; try done. intros (_ & ? & _). congruence. }
  eapply recover_frames; try done.
  split; [apply length_bytesAt; lia|]. split; [by apply bytesAt_Forall|]. apply cksum_u32. by repeat split.
Qed.
End Whole.

(** A file that can be read, and locks that are granted. *)
Lemma walIndexRecover_ok be walIndexPage aPrivate b w :
  Forall is_byte b -> Z.of_nat (length b) < 2 ^ 40 -> length (aReadMark (ckptInfo w)) = 5%nat ->
  (forall i, 0 <= i -> walIndexPage i = SQLITE_OK) -> foreign b = false ->
  exists w', walIndexRecover be walIndexPage aPrivate (fun _ => SQLITE_OK) true w (mkIo b []) = (SQLITE_OK, w', mkIo b [])
    /\ index_ok w' (pgnos (fileFrames b))
    /\ published (fun _ => SQLITE_OK) w w' (lastCommit 1 (fileFrames b) (0, 0, (0, 0))).
Proof.
  intros Hb Hl Hm Hmap Hf.
  destruct (walIndexRecover_any be walIndexPage aPrivate (fun _ => SQLITE_OK) true b w Hb Hl Hm (mkIo b []) eq_refl)
    as (rc & w' & io' & E & _ & Hz & [(_ & _ & H)|(_ & H1 & H2 & _ & H3)]).
  { destruct H as [? _]; [by repeat split|]. congruence. }
  exists w'. by rewrite E, H3, Hz by done.
Qed.

(** ** Property *)

(** C8: recovery of any file of less than 2^40 bytes, whatever the answers of
    the file system, of the locks, of the allocator and of the shared memory.
    Either [walIndexRecover] fails and publishes nothing, and without a
    disturbance it does so only for a file of another version of the format,
    with SQLITE_CANTOPEN; or the wal-index holds exactly the valid frames of
    the file, a chain that starts at the header and ends at the first frame
    that does not continue it, none if the header is not valid, the published
    header is the last commit among them, and the read marks are reset, those
    excepted that a reader has locked.  The file is not changed. *)
Theorem walIndexRecover_refines be walIndexPage aPrivate lock mallocOk w io :
  Forall is_byte (bytes io) -> Z.of_nat (length (bytes io)) < 2 ^ 40 -> length (aReadMark (ckptInfo w)) = 5%nat ->
  exists rc w' io', walIndexRecover be walIndexPage aPrivate lock mallocOk w io = (rc, w', io')
    /\ bytes io' = bytes io
    /\ ((rc <> SQLITE_OK /\ unpublished w w'
         /\ (undisturbed walIndexPage lock mallocOk w io -> foreign (bytes io) = true /\ rc = SQLITE_CANTOPEN))
        \/ (foreign (bytes io) = false /\ index_ok w' (pgnos (fileFrames (bytes io)))
            /\ published lock w w' (lastCommit 1 (fileFrames (bytes io)) (0, 0, (0, 0))) /\ lockResult lock 1 rc)).
Proof.
  intros Hb Hl Hm. destruct (walIndexRecover_any be walIndexPage aPrivate lock mallocOk _ w Hb Hl Hm io eq_refl)
    as (rc & w' & io' & E & Hb' & _ & H). by exists rc, w', io'.
Qed.

(** A file with a header and one frame, a commit of page 7. *)
Definition oneFrame : Io :=
  (walFrames false mapped alone granted [1; 2; 3; 4; 5; 6; 7; 8] 512 true
     512 [mkPg 7 (replicate 512 3)] 9 true 0 (emptyWal, mkIo [] [])).2.2.

Lemma oneFrame_file :
  faults oneFrame = [] /\ foreign (bytes oneFrame) = false
  /\ fileFrames (bytes oneFrame) = [(7, 9, nth 0 (snd <$> fileFrames (bytes oneFrame)) (0, 0))].
Proof. split_and!; vm_compute; reflexivity. Qed.

(** The locks of the readers 2 and 3 are held by others. *)
Definition readersLocked (i : Z) : Z := if (i =? 5) || (i =? 6) then SQLITE_BUSY else SQLITE_OK.

Lemma walIndexRecover_refines_witness :
  exists rc w' io', walIndexRecover true mapped zeroPage readersLocked true emptyWal oneFrame = (rc, w', io')
    /\ index_ok w' [7] /\ mxFrame (hdr w') = 1 /\ nPage (hdr w') = 9
    /\ nthZ (aReadMark (ckptInfo w')) 1 = 1 /\ nthZ (aReadMark (ckptInfo w')) 2 = nthZ (aReadMark (ckptInfo emptyWal)) 2.
Proof.
  destruct oneFrame_file as (F1 & F2 & F3).
  destruct (walIndexRecover_refines true mapped zeroPage readersLocked true emptyWal oneFrame)
    as (rc & w' & io' & E & _ & [(_ & _ & H)|(_ & H1 & H2 & _)]).
  - apply (bool_decide_unpack _). vm_compute. exact I.
  - vm_compute. reflexivity.
  - reflexivity.
  - destruct H as [H _]; [split; [exact F1|]; split; [reflexivity|]; split; reflexivity|].
    rewrite F2 in H. discriminate H.
  - rewrite F3 in H1, H2. destruct H2 as [P1 P2 _ _ _ _ _ (_ & _ & Hm)].
    exists rc, w', io'. split; [exact E|]. split; [exact H1|]. split; [exact P1|]. split; [exact P2|].
    split.
    + apply (Hm 1); [split; vm_compute; congruence|reflexivity|]. intros k Hk. exfalso. lia.
    + apply (Hm 2); [split; vm_compute; congruence|]. vm_compute. discriminate.
Defined.
