(* ===== verification/WalFrames.v ===== *)
(** * src/libsql-sqlite3/src/wal.c: the frames of a WAL file

    Which frames a file holds, which of their headers continue the checksum
    chain, and what a write inside one frame leaves alone. *)

From stdpp Require Import base list numbers option gmap.
From S2P Require Import Prelude Util Varint Wal WalIndex WalFormat WalLog WalRecover.
#[local] Open Scope Z_scope.

(** ** Files *)

Lemma length_file_write b off d :
  length (file_write b off d) = Nat.max (length b) (off + length d).
Proof.
  unfold file_write. rewrite !length_app, length_take, length_app, length_replicate, length_drop. lia.
Qed.

Lemma take_file_write b off d k :
  (k <= off)%nat -> (k <= length b)%nat -> take k (file_write b off d) = take k b.
Proof.
  intros H1 H2. unfold file_write. rewrite take_app_le by (rewrite length_take, length_app, length_replicate; lia).
  rewrite take_take, Nat.min_l, take_app_le by lia. done.
Qed.

Lemma bytesAt_prefix b b' k off n :
  take k b = take k b' -> (off + n <= k)%nat -> bytesAt b off n = bytesAt b' off n.
Proof.
  intros Heq Hk. unfold bytesAt. apply list_eq. intros j.
  destruct (decide (j < n)%nat) as [Hj|Hj]; [|by rewrite !lookup_take_ge by lia].
  rewrite !lookup_take_lt, !lookup_drop by done.
  rewrite <- (lookup_take_lt b k), <- (lookup_take_lt b' k) by lia. by rewrite Heq.
Qed.

Lemma bytesAt_write_same b off d : bytesAt (file_write b off d) off (length d) = d.
Proof.
  unfold bytesAt, file_write.
  rewrite drop_app_ge by (rewrite length_take, length_app, length_replicate; lia).
  rewrite length_take, length_app, length_replicate.
  replace (off - (off `min` (length b + (off - length b))))%nat with 0%nat by lia.
  rewrite drop_0. apply take_app_length.
Qed.

Lemma bytesAt_write_before b off d off' n :
  (off' + n <= off)%nat -> (off' + n <= length b)%nat ->
  bytesAt (file_write b off d) off' n = bytesAt b off' n.
Proof. intros H1 H2. apply (bytesAt_prefix _ _ (off' + n)); [|done]. by apply take_file_write. Qed.

Lemma bytesAt_write_after b off d off' n :
  (off + length d <= off')%nat -> (off <= length b)%nat ->
  bytesAt (file_write b off d) off' n = bytesAt b off' n.
Proof.
  intros H1 H2. unfold bytesAt, file_write. f_equal.
  replace (off - length b)%nat with 0%nat by lia. simpl. rewrite app_nil_r.
  rewrite drop_app_ge by (rewrite length_take; lia). rewrite length_take_le by done.
  rewrite drop_app_ge by lia. rewrite drop_drop. f_equal. lia.
Qed.

(** Two writes in a row are one. *)
Lemma file_write_app b off d1 d2 :
  file_write (file_write b off d1) (off + length d1) d2 = file_write b off (d1 ++ d2).
Proof.
  unfold file_write at 1. rewrite length_file_write.
  replace (off + length d1 - Nat.max (length b) (off + length d1))%nat with 0%nat by lia.
  simpl. rewrite app_nil_r. unfold file_write. rewrite length_app, <- !app_assoc.
  set (hd := take off (b ++ replicate (off - length b) 0)).
  assert (length hd = off) as Hhd.
  { unfold hd. rewrite length_take, length_app, length_replicate. lia. }
  rewrite !app_assoc. rewrite take_app_le by (rewrite length_app; lia).
  rewrite take_ge by (rewrite length_app; lia). rewrite <- !app_assoc. do 3 f_equal.
  rewrite !drop_app_ge by (rewrite ?length_app; lia). rewrite drop_drop. f_equal. lia.
Qed.

Lemma file_write_bytes b off d :
  Forall is_byte b -> Forall is_byte d -> Forall is_byte (file_write b off d).
Proof.
  intros Hb Hd. unfold file_write. repeat apply Forall_app_2; auto using Forall_drop.
  apply Forall_take, Forall_app_2; [done|]. apply Forall_replicate. split; done.
Qed.

(** ** Frames in a file *)

Abbreviation frame := (Z * Z * list Z)%type.

Section Frames.
Context (szPg : Z).
Hypothesis Hsz : 512 <= szPg.

Local Abbreviation off i := (frameOff szPg i).

Definition frame_ok (fr : frame) : Prop :=
  0 < fr.1.1 < 2 ^ 32 /\ is_u32 fr.1.2 /\ length fr.2 = Z.to_nat szPg /\ Forall is_byte fr.2.

(** Page number, commit size and data of frame [i]. *)
Definition content (b : list Z) (i : Z) (fr : frame) : Prop :=
  bytesAt b (off i) 8 = sqlite3Put4byte fr.1.1 ++ sqlite3Put4byte fr.1.2
  /\ bytesAt b (off i + 24) (Z.to_nat szPg) = fr.2.

Definition contents (b : list Z) (fs : list frame) : Prop :=
  forall k fr, fs !! k = Some fr -> content b (Z.of_nat k + 1) fr /\ frame_ok fr.

Fixpoint chainFs (c : chain) (fs : list frame) : chain :=
  match fs with
  | [] => c
  | (p, t, D) :: fs' => chainFs (chain_next c (frameCksum c p t D)) fs'
  end.

(** The headers of the first [n] frames continue the chain. *)
Definition valid (b : list Z) (c : chain) (fs : list frame) (n : nat) : Prop :=
  forall k p t D, (k < n)%nat -> fs !! k = Some (p, t, D) ->
    bytesAt b (off (Z.of_nat k + 1)) 24 = frameHdr (chainFs c (take k fs)) p t D.

Lemma chainFs_app c fs fs' : chainFs c (fs ++ fs') = chainFs (chainFs c fs) fs'.
Proof. revert c. induction fs as [|[[p t] D] fs IH]; intros c; simpl; [done|apply IH]. Qed.

Lemma frameCksum_u32 c p t D : chain_ok c -> pair_u32 (frameCksum c p t D).
Proof. intros (_ & _ & H). by apply cksum_u32, cksum_u32. Qed.

Lemma chainFs_ok c fs : chain_ok c -> chain_ok (chainFs c fs).
Proof.
  revert c. induction fs as [|[[p t] D] fs IH]; intros c Hc; simpl; [done|].
  apply IH, chain_next_ok; [done|by apply frameCksum_u32].
Qed.

Lemma chainFs_same c fs : c_big (chainFs c fs) = c_big c /\ c_salt (chainFs c fs) = c_salt c.
Proof.
  revert c. induction fs as [|[[p t] D] fs IH]; intros c; simpl; [done|]. by rewrite !(proj1 (IH _)), !(proj2 (IH _)).
Qed.

Lemma off_1 : off 1 = 32%nat.
Proof. unfold frameOff, walFrameOffset, WAL_HDRSIZE. simpl. lia. Qed.

Lemma off_succ i : 1 <= i -> off (i + 1) = (off i + 24 + Z.to_nat szPg)%nat.
Proof using Hsz.
  intros Hi. unfold frameOff, walFrameOffset, WAL_HDRSIZE, WAL_FRAME_HDRSIZE. nia.
Qed.

Lemma off_le i j : 1 <= i -> i < j -> (off i + 24 + Z.to_nat szPg <= off j)%nat.
Proof using Hsz.
  intros Hi Hj. unfold frameOff, walFrameOffset, WAL_HDRSIZE, WAL_FRAME_HDRSIZE.
  assert ((i - 1) * (szPg + 24) + (szPg + 24) <= (j - 1) * (szPg + 24)) by nia.
  assert (0 <= (i - 1) * (szPg + 24)) by nia. lia.
Qed.

Lemma off_mono i j : 1 <= i -> i <= j -> (off i <= off j)%nat.
Proof using Hsz.
  intros Hi Hj. destruct (decide (i = j)) as [->|]; [done|].
  pose proof (off_le i j Hi ltac:(lia)). lia.
Qed.

Lemma off_ge i : 1 <= i -> (32 <= off i)%nat.
Proof using Hsz. intros Hi. rewrite <- off_1. by apply off_mono. Qed.

(** A write inside frame [i] does not touch frame [j]. *)
Lemma frame_untouched b i j o d n o' :
  1 <= i -> 1 <= j -> i <> j -> (off i <= o)%nat -> (o + length d <= off i + 24 + Z.to_nat szPg)%nat ->
  (o <= length b)%nat -> (j < i -> (off i <= length b)%nat) ->
  (o' + n <= 24 + Z.to_nat szPg)%nat ->
  bytesAt (file_write b o d) (off j + o') n = bytesAt b (off j + o') n.
Proof using Hsz.
  intros Hi Hj Hne H1 H2 H3 H4 H5. destruct (Z.lt_ge_cases j i) as [Hlt|Hge].
  - pose proof (off_le j i Hj Hlt). specialize (H4 Hlt). apply bytesAt_write_before; lia.
  - pose proof (off_le i j Hi ltac:(lia)). apply bytesAt_write_after; lia.
Qed.

Lemma contents_app b fs fr :
  contents b fs -> content b (Z.of_nat (length fs) + 1) fr -> frame_ok fr -> contents b (fs ++ [fr]).
Proof.
  intros Hc H Hok k fr' Hk. apply lookup_app_Some in Hk as [Hk|[Hk1 Hk2]]; [by apply Hc|].
  destruct (k - length fs)%nat eqn:E; [|done]. injection Hk2 as <-.
  replace k with (length fs) by lia. done.
Qed.

(** Appending a frame whose header starts with [p] and [t]. *)
Lemma append_frame b fs p t D rest :
  contents b fs -> (off (Z.of_nat (length fs) + 1) <= length b)%nat -> frame_ok (p, t, D) ->
  length rest = 16%nat ->
  let i := Z.of_nat (length fs) + 1 in
  let h := sqlite3Put4byte p ++ sqlite3Put4byte t ++ rest in
  let b' := file_write (file_write b (off i) h) (off i + 24) D in
  contents b' (fs ++ [(p, t, D)]) /\ bytesAt b' (off i) 24 = h
  /\ (off (i + 1) <= length b')%nat /\ take (off i) b' = take (off i) b.
Proof using Hsz.
  intros Hc Hlen Hok Hrest i h b'. fold i in Hlen. assert (length h = 24%nat) as Hh.
  { unfold h. rewrite !length_app, !length_Put4byte, Hrest. done. }
  assert (b' = file_write b (off i) (h ++ D)) as Hb'.
  { unfold b'. rewrite <- file_write_app, Hh. done. }
  destruct Hok as (Hp & Ht & HD & HDb). cbn [fst snd] in Hp, Ht, HD, HDb.
  assert (bytesAt b' (off i) 24 = h) as Hhd.
  { unfold b'. rewrite bytesAt_write_before by (rewrite ?length_file_write; lia).
    rewrite <- Hh at 1. apply bytesAt_write_same. }
  assert (take (off i) b' = take (off i) b) as Htake.
  { rewrite Hb'. apply take_file_write; lia. }
  split; [|split; [done|split; [|done]]].
  - apply contents_app.
    + intros k fr Hk. destruct (Hc k fr Hk) as [[H1 H2] H3]. split; [|done].
      apply lookup_lt_Some in Hk. pose proof (off_le (Z.of_nat k + 1) i ltac:(lia) ltac:(lia)).
      split; [rewrite <- H1|rewrite <- H2]; apply (bytesAt_prefix _ _ (off i)); done || lia.
    + split; cbn [fst snd].
      * rewrite <- (take_bytesAt _ _ 24 8) by lia. fold i. rewrite Hhd. unfold h.
        rewrite app_assoc. by rewrite take_app_le, take_ge by (rewrite ?length_app, ?length_Put4byte; lia).
      * fold i. unfold b'. rewrite <- HD. apply bytesAt_write_same.
    + done.
  - rewrite Hb', length_file_write, length_app, off_succ by lia. lia.
Qed.

(** Overwriting the data of frame [k + 1]. *)
Lemma overwrite_frame b fs k p t D D' :
  contents b fs -> (off (Z.of_nat (length fs) + 1) <= length b)%nat ->
  fs !! k = Some (p, t, D) -> frame_ok (p, t, D') ->
  let b' := file_write b (off (Z.of_nat k + 1) + 24) D' in
  contents b' (<[k := (p, t, D')]> fs) /\ length b' = length b
  /\ take (off (Z.of_nat k + 1)) b' = take (off (Z.of_nat k + 1)) b.
Proof using Hsz.
  intros Hc Hlen Hk Hok b'. pose proof (lookup_lt_Some _ _ _ Hk) as Hlt.
  destruct Hok as (Hp & Ht & HD & HDb). cbn [fst snd] in Hp, Ht, HD, HDb.
  pose proof (off_le (Z.of_nat k + 1) (Z.of_nat (length fs) + 1) ltac:(lia) ltac:(lia)) as Hoff.
  split; [|split].
  - intros j fr Hj. destruct (decide (j = k)) as [->|Hne].
    + rewrite list_lookup_insert_eq in Hj by done. injection Hj as <-. split; [|done].
      destruct (Hc k _ Hk) as [[H1 H2] _]. split; cbn [fst snd] in *.
      * rewrite <- H1. apply bytesAt_write_before; lia.
      * unfold b'. rewrite <- HD. apply bytesAt_write_same.
    + rewrite list_lookup_insert_ne in Hj by done. destruct (Hc j fr Hj) as [[H1 H2] H3].
      split; [|done]. split; [rewrite <- H1|rewrite <- H2].
      * rewrite <- (Nat.add_0_r (off (Z.of_nat j + 1))).
        apply (frame_untouched b (Z.of_nat k + 1)); lia.
      * apply (frame_untouched b (Z.of_nat k + 1)); lia.
  - unfold b'. rewrite length_file_write. lia.
  - apply take_file_write; lia.
Qed.

(** Rewriting the header of frame [k + 1], same page and commit size. *)
Lemma reheader_frame b fs k p t D rest :
  contents b fs -> (off (Z.of_nat (length fs) + 1) <= length b)%nat ->
  fs !! k = Some (p, t, D) -> length rest = 16%nat ->
  let h := sqlite3Put4byte p ++ sqlite3Put4byte t ++ rest in
  let b' := file_write b (off (Z.of_nat k + 1)) h in
  contents b' fs /\ bytesAt b' (off (Z.of_nat k + 1)) 24 = h /\ length b' = length b
  /\ take (off (Z.of_nat k + 1)) b' = take (off (Z.of_nat k + 1)) b.
Proof using Hsz.
  intros Hc Hlen Hk Hrest h b'. pose proof (lookup_lt_Some _ _ _ Hk) as Hlt.
  assert (length h = 24%nat) as Hh.
  { unfold h. rewrite !length_app, !length_Put4byte, Hrest. done. }
  pose proof (off_le (Z.of_nat k + 1) (Z.of_nat (length fs) + 1) ltac:(lia) ltac:(lia)) as Hoff.
  assert (bytesAt b' (off (Z.of_nat k + 1)) 24 = h) as Hhd.
  { rewrite <- Hh at 1. apply bytesAt_write_same. }
  split; [|split; [done|split]].
  - intros j fr Hj. destruct (Hc j fr Hj) as [[H1 H2] H3]. split; [|done].
    destruct (decide (j = k)) as [->|Hne].
    + rewrite Hk in Hj. injection Hj as <-. split; cbn [fst snd] in *.
      * rewrite <- (take_bytesAt _ _ 24 8) by lia. rewrite Hhd. unfold h.
        rewrite app_assoc. by rewrite take_app_le, take_ge by (rewrite ?length_app, ?length_Put4byte; lia).
      * rewrite <- H2. unfold b'. apply bytesAt_write_after; lia.
    + split; [rewrite <- H1|rewrite <- H2].
      * rewrite <- (Nat.add_0_r (off (Z.of_nat j + 1))).
        apply (frame_untouched b (Z.of_nat k + 1)); lia.
      * apply (frame_untouched b (Z.of_nat k + 1)); lia.
  - unfold b'. rewrite length_file_write. lia.
  - apply take_file_write; lia.
Qed.

(** Validity of [n] frames depends on the bytes before frame [n + 1]. *)
Lemma valid_prefix b b' c fs fs' n :
  valid b c fs n -> take n fs' = take n fs ->
  take (off (Z.of_nat n + 1)) b' = take (off (Z.of_nat n + 1)) b -> valid b' c fs' n.
Proof using Hsz.
  intros Hv Hfs Hb k p t D Hk Hl.
  assert (fs !! k = Some (p, t, D)) as Hl0.
  { rewrite <- (lookup_take_lt _ n), <- Hfs, lookup_take_lt by done. done. }
  assert (take k fs' = take k fs) as ->.
  { replace k with (Nat.min k n) by lia. by rewrite <- !take_take, Hfs. }
  rewrite <- (Hv k p t D Hk Hl0).
  pose proof (off_le (Z.of_nat k + 1) (Z.of_nat n + 1) ltac:(lia) ltac:(lia)).
  apply (bytesAt_prefix _ _ (off (Z.of_nat n + 1))); [done|lia].
Qed.

Lemma valid_le b c fs n m : (m <= n)%nat -> valid b c fs n -> valid b c fs m.
Proof. intros Hm Hv k p t D Hk. apply Hv. lia. Qed.

Lemma valid_S b c fs n :
  valid b c fs n ->
  (forall p t D, fs !! n = Some (p, t, D) ->
     bytesAt b (off (Z.of_nat n + 1)) 24 = frameHdr (chainFs c (take n fs)) p t D) ->
  valid b c fs (S n).
Proof.
  intros Hv Hn k p t D Hk Hl. destruct (decide (k = n)) as [->|]; [by apply Hn|apply Hv; done || lia].
Qed.

(** What recovery decodes from valid frames. *)
Fixpoint decoded (c : chain) (fs : list frame) : list (Z * Z * (Z * Z)) :=
  match fs with
  | [] => []
  | (p, t, D) :: fs' => let s := frameCksum c p t D in (p, t, s) :: decoded (chain_next c s) fs'
  end.

Lemma decodeFrame_hdr c p t D :
  chain_ok c -> 0 < p < 2 ^ 32 -> is_u32 t ->
  decodeFrame c D (frameHdr c p t D) = Some (p, t, frameCksum c p t D).
Proof.
  intros Hc Hp Ht. unfold decodeFrame.
  destruct (frameHdr_fields c p t D Hc) as (-> & -> & _).
  rewrite !Get4byte_Put4byte_exact by (done || unfold is_u32; lia).
  rewrite bool_decide_true by (split; [lia|done]). done.
Qed.

Lemma scan_valid b c pre rest m :
  chain_ok c -> contents b (pre ++ rest) -> valid b c (pre ++ rest) (length (pre ++ rest)) ->
  scan b szPg (length rest + m) (Z.of_nat (length pre) + 1) (chainFs c pre)
  = decoded (chainFs c pre) rest
    ++ scan b szPg m (Z.of_nat (length (pre ++ rest)) + 1) (chainFs c (pre ++ rest)).
Proof.
  intros Hc. revert pre. induction rest as [|[[p t] D] rest IH]; intros pre Hcont Hv.
  - cbn [decoded app length Nat.add]. by rewrite app_nil_r.
  - cbn [length Nat.add scan decoded].
    assert ((pre ++ (p, t, D) :: rest) !! length pre = Some (p, t, D)) as Hk
      by (by rewrite lookup_app_r, Nat.sub_diag by done).
    destruct (Hcont _ _ Hk) as [[H1 H2] (Hp & Ht & HD & HDb)]. cbn [fst snd] in *.
    rewrite (Hv (length pre) p t D), H2 by (done || (rewrite length_app; simpl; lia)).
    rewrite take_app_length, decodeFrame_hdr by (done || by apply chainFs_ok).
    specialize (IH (pre ++ [(p, t, D)])).
    rewrite <- !app_assoc, (chainFs_app c pre [_]) in IH. cbn [app chainFs] in IH.
    specialize (IH Hcont Hv). rewrite (length_app pre [_]) in IH. cbn [length] in IH.
    rewrite <- app_comm_cons, <- IH. f_equal. f_equal; lia.
Qed.

End Frames.

(** ** What the frames say of each page *)

Definition pgs (fs : list frame) : list Z := (fun fr : frame => fr.1.1) <$> fs.

(** The data of the last frame of page [q]. *)
Definition readStep (q : Z) (acc : option (list Z)) (fr : frame) : option (list Z) :=
  if fr.1.1 =? q then Some fr.2 else acc.
Definition readPage (fs : list frame) (q : Z) : option (list Z) := foldl (readStep q) None fs.

Lemma readPage_app fs fr q :
  readPage (fs ++ [fr]) q = if fr.1.1 =? q then Some fr.2 else readPage fs q.
Proof. unfold readPage. by rewrite foldl_app. Qed.

Lemma readStep_none q fs acc : Forall (fun fr : frame => fr.1.1 <> q) fs -> foldl (readStep q) acc fs = acc.
Proof.
  induction 1 as [|fr fs Hne _ IH]; [done|]. cbn [foldl].
  unfold readStep at 2. by rewrite (proj2 (Z.eqb_neq _ _) Hne).
Qed.

(** Overwriting the last frame of a page. *)
Lemma readPage_insert fs k p t D D' q :
  fs !! k = Some (p, t, D) -> Forall (fun fr : frame => fr.1.1 <> p) (drop (S k) fs) ->
  readPage (<[k := (p, t, D')]> fs) q = if p =? q then Some D' else readPage fs q.
Proof.
  intros Hk Hlast. pose proof (lookup_lt_Some _ _ _ Hk) as Hlt. unfold readPage.
  rewrite insert_take_drop by done. rewrite <- (take_drop_middle fs k _ Hk) at 3.
  rewrite !foldl_app. cbn [foldl]. unfold readStep at 2 5. cbn [fst snd].
  destruct (Z.eqb_spec p q) as [->|]; [|done]. by apply readStep_none.
Qed.

(** The frame that [lookBack] finds in a log that starts [fs] is the last
    frame of the page in [fs] when no later frame has the page. *)
Lemma lookBack_frame fs log p lo f :
  log = take (length log) (pgs fs) -> lookBack log p lo (length log) = f -> f <> 0 ->
  Forall (fun fr : frame => fr.1.1 <> p) (drop (length log) fs) ->
  exists k t D, f = Z.of_nat k + 1 /\ fs !! k = Some (p, t, D) /\ (k < length log)%nat
    /\ Forall (fun fr : frame => fr.1.1 <> p) (drop (S k) fs).
Proof.
  intros Hlog Hf Hnz Hnew. destruct (lookBack_inv _ _ _ _ _ Hf Hnz) as (Hr & Hp & Hlater).
  assert (length log <= length fs)%nat as Hle.
  { apply (f_equal length) in Hlog. rewrite length_take in Hlog. unfold pgs in Hlog. rewrite length_fmap in Hlog. lia. }
  assert (forall j fr, fs !! j = Some fr -> (j < length log)%nat -> nthZ log (Z.of_nat j) = fr.1.1) as Hnth.
  { intros j fr Hj Hlt. unfold nthZ. rewrite Nat2Z.id, Hlog, lookup_take_lt by done.
    unfold pgs. by rewrite list_lookup_fmap, Hj. }
  set (k := Z.to_nat (f - 1)). assert (f = Z.of_nat k + 1) as Hk by lia.
  destruct (lookup_lt_is_Some_2 fs k) as [[[p' t] D] Hkf]; [lia|].
  assert (p' = p) as ->.
  { rewrite <- Hp. replace (f - 1) with (Z.of_nat k) by lia. by rewrite (Hnth _ _ Hkf) by lia. }
  exists k, t, D. split; [done|]. split; [done|]. split; [lia|].
  apply Forall_lookup. intros j fr Hj. rewrite lookup_drop in Hj.
  destruct (decide (S k + j < length log)%nat) as [Hin|Hout].
  - rewrite <- (Hnth _ _ Hj Hin). specialize (Hlater (Z.of_nat (S k + j) + 1) ltac:(lia)).
    by replace (Z.of_nat (S k + j) + 1 - 1) with (Z.of_nat (S k + j)) in Hlater by lia.
  - rewrite Forall_lookup in Hnew. apply (Hnew (S k + j - length log)%nat).
    rewrite lookup_drop. rewrite <- Hj. f_equal. lia.
Qed.

Lemma pgs_insert fs k p t D D' :
  fs !! k = Some (p, t, D) -> pgs (<[k := (p, t, D')]> fs) = pgs fs.
Proof.
  intros Hk. unfold pgs. rewrite list_fmap_insert. apply list_insert_id.
  by rewrite list_lookup_fmap, Hk.
Qed.

Lemma pgs_app fs fs' : pgs (fs ++ fs') = pgs fs ++ pgs fs'.
Proof. apply fmap_app. Qed.

Lemma length_pgs fs : length (pgs fs) = length fs.
Proof. apply length_fmap. Qed.
