(* ===== verification/WalDurable.v ===== *)
(** * src/libsql-sqlite3/src/wal.c: a committed transaction survives

    What [walFrames] writes is what [walIndexRecover] reads: the frames of a
    transaction, spilled in any number of calls, overwritten in place and
    finally committed, are all valid in the file; and no failed or torn write
    touches the frames committed before. *)

From stdpp Require Import base list numbers option gmap.
From S2P Require Import Prelude Util Varint Wal WalIndex WalFormat WalLog WalRecover WalFrames.
#[local] Open Scope Z_scope.

(** ** Weakest preconditions

    [wp m Q]: if [m] succeeds then [Q] holds of its result; if it fails, the
    first [n0] bytes of the file are still those of [b0]. *)
Section Wp.
Context (n0 : nat) (b0 : list Z).

Definition kept (s : Wal * Io) : Prop :=
  take n0 (bytes s.2) = take n0 b0 /\ (n0 <= length (bytes s.2))%nat /\ Forall is_byte (bytes s.2).

Definition wp {A} (m : M A) (Q : A -> Wal * Io -> Prop) (s : Wal * Io) : Prop :=
  match m s with
  | (Ok a, s') => Q a s'
  | (Err _, s') => kept s'
  end.

Lemma wp_io_bind {A B} (m : M A) (f : A -> M B) Q s :
  wp m (fun a => wp (f a) Q) s -> wp (x ← m; f x) Q s.
Proof. unfold wp, mbind, M_bind. by destruct (m s) as [[a|rc] s']. Qed.

Lemma wp_io_mono {A} (m : M A) (Q R : A -> Wal * Io -> Prop) s :
  wp m Q s -> (forall a s', Q a s' -> R a s') -> wp m R s.
Proof. unfold wp. destruct (m s) as [[a|rc] s']; auto. Qed.

Lemma wp_io_ret {A} (a : A) (Q : A -> Wal * Io -> Prop) s : Q a s -> wp (mret a) Q s.
Proof. done. Qed.

Lemma wp_get (Q : Wal -> Wal * Io -> Prop) w io : Q w (w, io) -> wp get Q (w, io).
Proof. done. Qed.

Lemma wp_modify f (Q : unit -> Wal * Io -> Prop) w io : Q tt (f w, io) -> wp (modify f) Q (w, io).
Proof. done. Qed.

Lemma wp_fail {A} rc (Q : A -> Wal * Io -> Prop) s : kept s -> wp (fail rc) Q s.
Proof. done. Qed.

Lemma kept_bytes w w' io io' : bytes io' = bytes io -> kept (w, io) -> kept (w', io').
Proof. unfold kept. cbn [snd]. by intros ->. Qed.

Lemma kept_write w w' io io' off d :
  kept (w, io) -> (n0 <= off)%nat -> Forall is_byte d ->
  bytes io' = file_write (bytes io) off d -> kept (w', io').
Proof.
  unfold kept. cbn [snd]. intros (H1 & H2 & H3) Hoff Hd ->. split; [|split].
  - rewrite <- H1. by apply take_file_write.
  - rewrite length_file_write. lia.
  - by apply file_write_bytes.
Qed.

Lemma wp_write d off Q w io :
  kept (w, io) -> (n0 <= Z.to_nat off)%nat -> Forall is_byte d ->
  (forall io', bytes io' = file_write (bytes io) (Z.to_nat off) d -> Q tt (w, io')) ->
  wp (io_call (fun io => osWrite io d off)) Q (w, io).
Proof.
  intros Hk Hoff Hd HQ. unfold wp, io_call, osWrite, nextFault. cbn [fst snd].
  destruct (faults io) as [|[rc k] l]; cbn [Z.eqb SQLITE_OK]; [by apply HQ|].
  destruct (Z.eqb_spec rc SQLITE_OK) as [->|]; [by apply HQ|].
  eapply kept_write; [exact Hk|exact Hoff|by apply Forall_take|reflexivity].
Qed.

Lemma wp_sync Q w io :
  kept (w, io) -> (forall io', bytes io' = bytes io -> Q tt (w, io')) -> wp (io_call osSync) Q (w, io).
Proof.
  intros Hk HQ. unfold wp, io_call, osSync, nextFault. cbn [fst snd].
  destruct (faults io) as [|[rc k] l]; cbn [Z.eqb SQLITE_OK]; [by apply HQ|].
  destruct (rc =? SQLITE_OK); [by apply HQ|]. by apply (kept_bytes w w io).
Qed.

Lemma osRead_cases io n off :
  exists rc d io', osRead io n off = (rc, d, io') /\ bytes io' = bytes io
    /\ (rc = SQLITE_OK -> d = bytesAt (bytes io) (Z.to_nat off) (Z.to_nat n)).
Proof.
  unfold osRead, nextFault.
  destruct (faults io) as [|[rc k] l]; cbn [bytes faults Z.eqb SQLITE_OK negb].
  - case_match; eexists _, _, _; done.
  - destruct (Z.eqb_spec rc SQLITE_OK) as [->|Hne]; cbn [negb];
      [case_match|]; eexists _, _, _; done.
Qed.

Lemma wp_read n off Q w io :
  kept (w, io) ->
  (forall io', bytes io' = bytes io ->
     Q (bytesAt (bytes io) (Z.to_nat off) (Z.to_nat n)) (w, io')) ->
  wp (io_read n off) Q (w, io).
Proof.
  intros Hk HQ. unfold wp, io_read. cbn [fst snd].
  destruct (osRead_cases io n off) as (rc & d & io1 & -> & Hb & Hd).
  destruct (Z.eqb_spec rc SQLITE_OK) as [E|_]; [rewrite (Hd E); by apply HQ|].
  by apply (kept_bytes w w io).
Qed.

(** Writing through the sync point writes the same bytes. *)
Lemma wp_walWriteToLog sp d off Q w io :
  kept (w, io) -> 0 <= off -> (n0 <= Z.to_nat off)%nat -> Forall is_byte d ->
  (forall io', bytes io' = file_write (bytes io) (Z.to_nat off) d -> Q tt (w, io')) ->
  wp (walWriteToLog sp d off) Q (w, io).
Proof.
  intros Hk Hoff Hn Hd HQ. unfold walWriteToLog.
  destruct ((off <? sp) && (sp <=? off + Z.of_nat (length d))) eqn:E; [|by apply wp_write].
  apply andb_true_iff in E as [E1%Z.ltb_lt E2%Z.leb_le].
  assert (length (take (Z.to_nat (sp - off)) d) = Z.to_nat (sp - off)) as Hlen
    by (rewrite length_take; lia).
  apply wp_io_bind, wp_write; [done..|by apply Forall_take|]. intros io1 Hb1.
  assert (kept (w, io1)) as Hk1
    by (eapply kept_write; [done|done| |exact Hb1]; by apply Forall_take).
  apply wp_io_bind, wp_sync; [done|]. intros io2 Hb2.
  destruct (Z.eqb_spec (Z.of_nat (length d) - (sp - off)) 0) as [E0|_].
  - apply wp_io_ret, HQ. rewrite Hb2, Hb1. f_equal. apply take_ge. lia.
  - apply wp_write; [by apply (kept_bytes w w io1)|lia|by apply Forall_drop|]. intros io3 Hb3. apply HQ.
    rewrite Hb3, Hb2, Hb1.
    replace (Z.to_nat (off + (sp - off))) with
      (Z.to_nat off + length (take (Z.to_nat (sp - off)) d))%nat by lia.
    by rewrite file_write_app, take_drop.
Qed.

End Wp.

(** ** The frames of a connection

    [logged w b fs]: the file [b] holds the frames [fs] that the connection
    knows of, and their headers are valid up to the first frame that was
    written twice. *)

(** Only the running checksum and [iReCksum] differ. *)
Definition log_same (w w' : Wal) : Prop :=
  w' = set_iReCksum (setFrameCksum (aFrameCksum (hdr w')) w) (iReCksum w').

Lemma log_same_refl w : log_same w w.
Proof. by destruct w as [? ? ? ? ? ? ? ? ? []]. Qed.

Lemma log_same_trans w1 w2 w3 : log_same w1 w2 -> log_same w2 w3 -> log_same w1 w3.
Proof.
  unfold log_same. intros -> ->. destruct w1 as [? ? ? ? ? ? ? ? ? []]. done.
Qed.

Definition ck_same (w w' : Wal) : Prop := log_same w w' /\ iReCksum w' = iReCksum w.

Lemma ck_same_refl w : ck_same w w.
Proof. split; [apply log_same_refl|done]. Qed.

Lemma ck_same_trans w1 w2 w3 : ck_same w1 w2 -> ck_same w2 w3 -> ck_same w1 w3.
Proof. intros [H1 E1] [H2 E2]. split; [by eapply log_same_trans|congruence]. Qed.

Section Logged.
Context (be : bool) (szPg : Z) (c0 : chain) (walHdr : list Z) (n0 : nat) (b0 : list Z).
Hypothesis Hsz : 512 <= szPg.
Hypothesis Hc0 : chain_ok c0.
(** The header of the file ends with the checksum that starts the chain. *)
Hypothesis Hhdr :
  bytesAt walHdr 24 8 = sqlite3Put4byte (c_cksum c0).1 ++ sqlite3Put4byte (c_cksum c0).2.

Local Abbreviation off i := (frameOff szPg i).

Definition validUpTo (w : Wal) (fs : list frame) : nat :=
  if iReCksum w =? 0 then length fs else Z.to_nat (iReCksum w - 1).

Record logged (w : Wal) (b : list Z) (fs : list frame) : Prop := {
  lg_bytes : Forall is_byte b;
  lg_len : (off (Z.of_nat (length fs) + 1) <= length b)%nat;
  lg_contents : contents szPg b fs;
  lg_re : 0 <= iReCksum w <= Z.of_nat (length fs);
  lg_valid : valid szPg b c0 fs (validUpTo w fs);
  lg_start : take 32 b = walHdr;
  lg_big : bigEndCksum (hdr w) = (if c_big c0 then 1 else 0);
  lg_salt : aSalt (hdr w) = c_salt c0;
  lg_cksum : iReCksum w = 0 -> aFrameCksum (hdr w) = c_cksum (chainFs c0 fs)
}.

Lemma logged_chain w b fs : logged w b fs -> iReCksum w = 0 -> chain_of w (chainFs c0 fs).
Proof.
  intros H Hre. destruct (chainFs_same c0 fs) as [E1 E2]. unfold chain_of. rewrite E1, E2.
  split; [apply H|]. split; [apply H|]. by apply H.
Qed.

(** The encoded header of the next frame. *)
Lemma encode_next w b fs p t D :
  logged w b fs -> Forall is_byte D ->
  exists rest ck, walEncodeFrame be w p t D = (sqlite3Put4byte p ++ sqlite3Put4byte t ++ rest, ck)
    /\ length rest = 16%nat /\ Forall is_byte rest
    /\ (iReCksum w = 0 -> sqlite3Put4byte p ++ sqlite3Put4byte t ++ rest = frameHdr (chainFs c0 fs) p t D
                          /\ ck = frameCksum (chainFs c0 fs) p t D).
Proof using Hc0.
  intros H HD. destruct (decide (iReCksum w = 0)) as [Hre|Hre].
  - pose proof (logged_chain w b fs H Hre) as Hch. pose proof (chainFs_ok c0 fs Hc0) as (Hs & Hsb & _).
    rewrite (walEncodeFrame_ok be w _ p t D Hch Hre HD). unfold frameHdr.
    eexists _, _. split; [done|]. split; [by rewrite !length_app, !length_Put4byte, Hs|].
    split; [|done]. apply Forall_app_2; [done|apply put_pair_bytes].
  - unfold walEncodeFrame. rewrite (proj2 (Z.eqb_neq _ _) Hre), <- app_assoc.
    eexists _, _. split; [done|]. split; [done|]. split; [|done].
    apply Forall_replicate. done.
Qed.

(** Appending one frame. *)
Lemma logged_append w b fs p t D rest ck :
  logged w b fs -> frame_ok szPg (p, t, D) ->
  walEncodeFrame be w p t D = (sqlite3Put4byte p ++ sqlite3Put4byte t ++ rest, ck) ->
  let o := off (Z.of_nat (length fs) + 1) in
  logged (setFrameCksum ck w)
    (file_write (file_write b o (sqlite3Put4byte p ++ sqlite3Put4byte t ++ rest)) (o + 24) D)
    (fs ++ [(p, t, D)]).
Proof using Hsz Hc0.
  intros H Hok Henc o. pose proof Hok as (_ & _ & _ & HDb). cbn [snd] in HDb.
  destruct (encode_next w b fs p t D H HDb) as (rest' & ck' & Henc' & Hrl & Hrb & Hre).
  rewrite Henc in Henc'. injection Henc' as <- <-.
  destruct (append_frame szPg Hsz b fs p t D rest (lg_contents _ _ _ H) (lg_len _ _ _ H) Hok Hrl)
    as (A1 & A2 & A3 & A4). fold o in A1, A2, A3, A4.
  set (b' := file_write _ (o + 24) D) in *.
  assert (32 <= o)%nat as Ho by (apply off_ge; lia).
  split.
  - repeat apply file_write_bytes; [apply H| |done]. repeat apply Forall_app_2; auto using Put4byte_bytes.
  - rewrite length_app. cbn [length]. rewrite Nat2Z.inj_add. exact A3.
  - exact A1.
  - cbn [iReCksum setFrameCksum set_hdr]. pose proof (lg_re _ _ _ H). rewrite length_app. simpl. lia.
  - unfold validUpTo. cbn [iReCksum setFrameCksum set_hdr]. pose proof (lg_valid _ _ _ H) as Hv.
    unfold validUpTo in Hv. destruct (Z.eqb_spec (iReCksum w) 0) as [E|E].
    + rewrite length_app, Nat.add_1_r. apply valid_S.
      * eapply (valid_prefix szPg Hsz b); [exact Hv|by rewrite take_app_length, take_ge|exact A4].
      * intros p' t' D' Hl. rewrite lookup_app_r, Nat.sub_diag in Hl by done. injection Hl as <- <- <-.
        rewrite take_app_length. fold o. rewrite A2. by apply Hre.
    + pose proof (lg_re _ _ _ H). eapply (valid_prefix szPg Hsz b); [exact Hv|rewrite take_app_le by lia; done|].
      eapply take_eq_le; [exact A4|]. apply off_mono; lia.
  - rewrite <- (lg_start _ _ _ H). by apply (take_eq_le _ _ o).
  - apply H.
  - apply H.
  - cbn [iReCksum setFrameCksum set_hdr hdr aFrameCksum set_aFrameCksum]. intros E.
    destruct (Hre E) as [_ ->]. by rewrite chainFs_app.
Qed.

(** Overwriting the data of a frame. *)
Definition markRewrite (iWrite : Z) (w : Wal) : Wal :=
  if (iReCksum w =? 0) || (iWrite <? iReCksum w) then set_iReCksum w iWrite else w.

Lemma markRewrite_re iWrite w :
  1 <= iWrite -> 0 <= iReCksum w ->
  1 <= iReCksum (markRewrite iWrite w) <= iWrite
  /\ (iReCksum w = 0 \/ iReCksum (markRewrite iWrite w) <= iReCksum w)
  /\ (iReCksum (markRewrite iWrite w) = iWrite \/ iReCksum (markRewrite iWrite w) = iReCksum w)
  /\ hdr (markRewrite iWrite w) = hdr w /\ log_same w (markRewrite iWrite w).
Proof.
  intros H1 H2. unfold markRewrite.
  destruct (Z.eqb_spec (iReCksum w) 0); [|destruct (Z.ltb_spec iWrite (iReCksum w))]; cbn [orb];
    cbn [iReCksum set_iReCksum]; repeat split; try lia; auto using log_same_refl; try done.
  all: by destruct w as [? ? ? ? ? ? ? ? ? []].
Qed.

Lemma logged_overwrite w b fs k p t D D' :
  logged w b fs -> fs !! k = Some (p, t, D) -> frame_ok szPg (p, t, D') ->
  logged (markRewrite (Z.of_nat k + 1) w) (file_write b (off (Z.of_nat k + 1) + 24) D')
    (<[k := (p, t, D')]> fs).
Proof using Hsz.
  intros H Hk Hok. pose proof (lookup_lt_Some _ _ _ Hk) as Hlt. pose proof (lg_re _ _ _ H) as Hre0.
  destruct (markRewrite_re (Z.of_nat k + 1) w) as (Hre & Hold & Hcase & Hh & _); [lia|lia|].
  set (w' := markRewrite _ w) in *. clearbody w'.
  destruct (overwrite_frame szPg Hsz b fs k p t D D' (lg_contents _ _ _ H) (lg_len _ _ _ H) Hk Hok)
    as (A1 & A2 & A3).
  pose proof (off_ge szPg Hsz (Z.of_nat k + 1) ltac:(lia)).
  split; rewrite ?length_insert, ?Hh, ?A2; try apply H.
  - apply file_write_bytes; [apply H|apply Hok].
  - exact A1.
  - lia.
  - unfold validUpTo. destruct (Z.eqb_spec (iReCksum w') 0); [lia|].
    eapply (valid_prefix szPg Hsz b).
    + eapply valid_le; [|exact (lg_valid _ _ _ H)]. unfold validUpTo.
      destruct (Z.eqb_spec (iReCksum w) 0); lia.
    + rewrite take_insert_ge by lia. done.
    + eapply take_eq_le; [exact A3|]. apply off_mono; lia.
  - rewrite <- (lg_start _ _ _ H). apply (take_eq_le _ _ (off (Z.of_nat k + 1))); [done|lia].
  - lia.
Qed.

(** ** [walRewriteChecksums] *)

(** Frames up to [k] are valid and the running checksum is theirs. *)
Record rewriting (w : Wal) (b : list Z) (fs : list frame) (k : nat) : Prop := {
  rw_bytes : Forall is_byte b;
  rw_len : (off (Z.of_nat (length fs) + 1) <= length b)%nat;
  rw_contents : contents szPg b fs;
  rw_re : iReCksum w = 0;
  rw_valid : valid szPg b c0 fs k;
  rw_start : take 32 b = walHdr;
  rw_chain : chain_of w (chainFs c0 (take k fs))
}.

Lemma rewriting_done w b fs : rewriting w b fs (length fs) -> logged w b fs.
Proof.
  intros [H1 H2 H3 H4 H5 H6 (H7 & H8 & H9)]. rewrite take_ge in * by done.
  destruct (chainFs_same c0 fs) as [E1 E2]. rewrite E1 in H7. rewrite E2 in H8.
  split; try done; [rewrite H4; lia|]. unfold validUpTo. by rewrite H4.
Qed.

(** What the loop reads of frame [k + 1]. *)
Lemma read_frame b fs k p t D :
  contents szPg b fs -> (off (Z.of_nat (length fs) + 1) <= length b)%nat -> fs !! k = Some (p, t, D) ->
  let a := bytesAt b (Z.to_nat (walFrameOffset (Z.of_nat k + 1) szPg)) (Z.to_nat (szPg + WAL_FRAME_HDRSIZE)) in
  sqlite3Get4byte (bytesAt a 0 4) = p /\ sqlite3Get4byte (bytesAt a 4 4) = t /\ drop 24 a = D.
Proof using Hsz.
  intros Hc Hlen Hk a. destruct (Hc k _ Hk) as [[H1 H2] (Hp & Ht & _)]. cbn [fst snd] in *.
  fold (off (Z.of_nat k + 1)) in a. unfold WAL_FRAME_HDRSIZE in a.
  assert (take 8 a = sqlite3Put4byte p ++ sqlite3Put4byte t) as H8
    by (unfold a; rewrite take_bytesAt by lia; done).
  assert (bytesAt a 0 4 = take 4 (take 8 a)) as -> by (unfold bytesAt; by rewrite take_take, drop_0).
  assert (bytesAt a 4 4 = drop 4 (take 8 a)) as -> by (unfold bytesAt; by rewrite skipn_firstn_comm).
  rewrite H8, take_app_length', drop_app_length' by by rewrite length_Put4byte.
  rewrite !Get4byte_Put4byte_exact by (done || unfold is_u32; lia).
  split; [done|]. split; [done|]. unfold a. rewrite drop_bytesAt, <- H2. f_equal. lia.
Qed.

Lemma rewriting_step w b fs k p t D :
  rewriting w b fs k -> fs !! k = Some (p, t, D) ->
  exists h ck, walEncodeFrame be w p t D = (h, ck) /\ Forall is_byte h
    /\ rewriting (setFrameCksum ck w) (file_write b (off (Z.of_nat k + 1)) h) fs (S k).
Proof using Hsz Hc0.
  intros H Hk. pose proof (rw_chain _ _ _ _ H) as Hch.
  destruct (rw_contents _ _ _ _ H k _ Hk) as [_ Hok]. pose proof Hok as (_ & _ & _ & HDb). cbn [snd] in HDb.
  pose proof (chainFs_ok c0 (take k fs) Hc0) as Hck. pose proof Hck as (Hs & Hsb & _).
  exists (frameHdr (chainFs c0 (take k fs)) p t D), (frameCksum (chainFs c0 (take k fs)) p t D).
  split; [apply walEncodeFrame_ok; [done|apply H|done]|].
  assert (Forall is_byte (frameHdr (chainFs c0 (take k fs)) p t D)) as Hhb
    by (unfold frameHdr; repeat apply Forall_app_2; auto using Put4byte_bytes).
  split; [done|].
  destruct (reheader_frame szPg Hsz b fs k p t D (c_salt (chainFs c0 (take k fs))
      ++ sqlite3Put4byte (frameCksum (chainFs c0 (take k fs)) p t D).1
      ++ sqlite3Put4byte (frameCksum (chainFs c0 (take k fs)) p t D).2)
    (rw_contents _ _ _ _ H) (rw_len _ _ _ _ H) Hk) as (A1 & A2 & A3 & A4).
  { by rewrite !length_app, !length_Put4byte, Hs. }
  fold (frameHdr (chainFs c0 (take k fs)) p t D) in *.
  set (b' := file_write b _ _) in *.
  pose proof (off_ge szPg Hsz (Z.of_nat k + 1) ltac:(lia)).
  split; rewrite ?A3; try apply H; try done.
  - apply file_write_bytes; [apply H|done].
  - apply valid_S.
    + eapply (valid_prefix szPg Hsz b); [apply H|done|done].
    + intros p' t' D' Hl. rewrite Hk in Hl. by injection Hl as <- <- <-.
  - rewrite <- (rw_start _ _ _ _ H). by apply (take_eq_le _ _ (off (Z.of_nat k + 1))).
  - destruct Hch as (C1 & C2 & C3). rewrite (take_S_r _ _ _ Hk), chainFs_app. by split.
Qed.

Local Abbreviation wp := (wp n0 b0).
Local Abbreviation kept := (kept n0 b0).

Lemma wp_rewriteLoop fs n k w io :
  rewriting w (bytes io) fs k -> kept (w, io) -> (k + n = length fs)%nat ->
  (n0 <= off (Z.of_nat k + 1))%nat ->
  wp (rewriteLoop be n (Z.of_nat k + 1) szPg)
    (fun _ s => logged s.1 (bytes s.2) fs /\ iReCksum s.1 = 0 /\ kept s /\ log_same w s.1) (w, io).
Proof using Hsz Hc0.
  revert k w io. induction n as [|n IH]; intros k w io Hrw Hk Hn Hoff; cbn [rewriteLoop].
  - apply wp_io_ret. cbn [fst snd]. replace k with (length fs) in Hrw by lia.
    split; [by apply rewriting_done|]. split; [apply Hrw|]. auto using log_same_refl.
  - apply wp_io_bind, wp_read; [done|]. intros io1 Hb1. cbn beta zeta.
    destruct (lookup_lt_is_Some_2 fs k) as [[[p t] D] Hkf]; [lia|].
    destruct (read_frame (bytes io) fs k p t D (rw_contents _ _ _ _ Hrw) (rw_len _ _ _ _ Hrw) Hkf)
      as (-> & -> & ->).
    apply wp_io_bind, wp_get.
    destruct (rewriting_step w (bytes io) fs k p t D Hrw Hkf) as (h & ck & -> & Hhb & Hrw').
    apply wp_io_bind, wp_modify. apply wp_io_bind, wp_write; [by apply (kept_bytes _ _ w _ io)|done|done|].
    intros io2 Hb2. rewrite Hb1 in Hb2. fold (off (Z.of_nat k + 1)) in Hb2. rewrite <- Hb2 in Hrw'.
    replace (Z.of_nat k + 1 + 1) with (Z.of_nat (S k) + 1) by lia.
    eapply wp_io_mono; [apply (IH (S k)); [exact Hrw'| |lia|]|].
    + eapply kept_write; [exact Hk|exact Hoff|exact Hhb|exact Hb2].
    + pose proof (off_mono szPg Hsz (Z.of_nat k + 1) (Z.of_nat (S k) + 1)). lia.
    + intros [] s (H1 & H2 & H3 & H4). repeat (split; [done|]).
      eapply log_same_trans; [|exact H4]. by destruct w as [? ? ? ? ? ? ? ? ? []].
Qed.

(** The checksum stored before frame [k + 1]: in the WAL header or in frame [k]. *)
Lemma stored_cksum b fs k :
  valid szPg b c0 fs k -> (k <= length fs)%nat ->
  take 32 b = walHdr ->
  let o := if Z.of_nat k + 1 =? 1 then 24 else walFrameOffset (Z.of_nat k + 1 - 1) szPg + 16 in
  bytesAt b (Z.to_nat o) 8 = sqlite3Put4byte (c_cksum (chainFs c0 (take k fs))).1
                             ++ sqlite3Put4byte (c_cksum (chainFs c0 (take k fs))).2.
Proof using Hc0 Hhdr Hsz.
  intros Hv Hk Hst o. destruct k as [|k].
  { rewrite take_0. cbn [chainFs]. rewrite <- Hhdr, <- Hst. unfold bytesAt. by rewrite skipn_firstn_comm, take_take. }
  destruct (lookup_lt_is_Some_2 fs k) as [[[p t] D] Hkf]; [lia|].
  unfold o. destruct (Z.eqb_spec (Z.of_nat (S k) + 1) 1); [lia|].
  replace (Z.of_nat (S k) + 1 - 1) with (Z.of_nat k + 1) by lia.
  assert (0 <= walFrameOffset (Z.of_nat k + 1) szPg) as Hnn
    by (unfold walFrameOffset, WAL_HDRSIZE, WAL_FRAME_HDRSIZE; nia).
  rewrite Z2Nat.inj_add by lia. change (Z.to_nat 16) with 16%nat. fold (off (Z.of_nat k + 1)).
  pose proof (Hv k p t D ltac:(lia) Hkf) as Hh.
  replace (bytesAt b (off (Z.of_nat k + 1) + 16) 8)
    with (drop 16 (bytesAt b (off (Z.of_nat k + 1)) 24)) by apply drop_bytesAt.
  rewrite Hh.
  rewrite (take_S_r _ _ _ Hkf), chainFs_app. cbn [chainFs chain_next c_cksum]. unfold frameHdr.
  pose proof (chainFs_ok c0 (take k fs) Hc0) as (Hs & _).
  rewrite !app_assoc, <- app_assoc. apply drop_app_length'.
  by rewrite !length_app, !length_Put4byte, Hs.
Qed.

Lemma Get4byte_pair b o v1 v2 :
  bytesAt b o 8 = sqlite3Put4byte v1 ++ sqlite3Put4byte v2 -> pair_u32 (v1, v2) ->
  (sqlite3Get4byte (bytesAt (bytesAt b o 8) 0 4), sqlite3Get4byte (bytesAt (bytesAt b o 8) 4 4)) = (v1, v2).
Proof.
  intros -> [H1 H2]. cbn [fst snd] in *.
  rewrite bytesAt_app_l, bytesAt_app_r by (rewrite ?length_Put4byte; lia).
  rewrite length_Put4byte. unfold bytesAt. rewrite take_ge by (rewrite length_drop, length_Put4byte; lia).
  rewrite drop_0, !Get4byte_Put4byte_exact by done. done.
Qed.

Lemma wp_walRewriteChecksums mallocOk fs w io :
  logged w (bytes io) fs -> iReCksum w <> 0 -> szPage w = szPg -> kept (w, io) ->
  (n0 <= off (iReCksum w))%nat ->
  wp (walRewriteChecksums be mallocOk (Z.of_nat (length fs)))
    (fun _ s => logged s.1 (bytes s.2) fs /\ iReCksum s.1 = 0 /\ kept s /\ log_same w s.1) (w, io).
Proof using Hc0 Hhdr Hsz.
  intros H Hre Hszw Hk Hoff. unfold walRewriteChecksums. destruct mallocOk; cbn [negb]; [|done].
  pose proof (lg_re _ _ _ H) as Hrange. apply wp_io_bind, wp_get. rewrite Hszw.
  set (k := Z.to_nat (iReCksum w - 1)). assert (iReCksum w = Z.of_nat k + 1) as Hrk by lia.
  rewrite Hrk in *. pose proof (lg_valid _ _ _ H) as Hv. unfold validUpTo in Hv.
  rewrite Hrk in Hv. destruct (Z.eqb_spec (Z.of_nat k + 1) 0); [lia|].
  replace (Z.to_nat (Z.of_nat k + 1 - 1)) with k in Hv by lia.
  pose proof (stored_cksum (bytes io) fs k Hv ltac:(lia) (lg_start _ _ _ H)) as Hst. cbn zeta in Hst.
  set (o := if Z.of_nat k + 1 =? 1 then 24 else _) in *.
  pose proof (chainFs_ok c0 (take k fs) Hc0) as (_ & _ & Hu).
  set (ck := c_cksum (chainFs c0 (take k fs))) in *.
  destruct (osRead_cases io 8 o) as (rc & d & io1 & Hrd & Hb1 & Hd).
  assert (rewriting (set_iReCksum (setFrameCksum ck w) 0) (bytes io1) fs k) as Hrw.
  { destruct (chainFs_same c0 (take k fs)) as [E1 E2]. rewrite Hb1.
    split; try apply H; try done. unfold chain_of. rewrite E1, E2.
    split; [apply H|]. split; [apply H|done]. }
  assert (kept (set_iReCksum (setFrameCksum ck w) 0, io1)) as Hk1 by by apply (kept_bytes _ _ w _ io).
  unfold WalDurable.wp. cbn [fst snd]. rewrite Hrd.
  destruct (Z.eqb_spec rc SQLITE_OK) as [Erc|_]; [|by apply (kept_bytes _ _ w _ io)].
  rewrite (Hd Erc). change (Z.to_nat 8) with 8%nat. rewrite (Get4byte_pair _ _ ck.1 ck.2 Hst Hu).
  cbn [iReCksum setFrameCksum set_hdr]. rewrite Hrk.
  pose proof (wp_rewriteLoop fs (Z.to_nat (Z.of_nat (length fs) - (Z.of_nat k + 1) + 1)) k _ io1 Hrw Hk1
    ltac:(lia) Hoff) as Hloop.
  replace (ck.1, ck.2) with ck by by destruct ck.
  eapply (wp_io_mono _ _ _ _ _ _ Hloop). intros _ s (H1 & H2 & H3 & H4). repeat (split; [done|]).
  eapply log_same_trans; [|exact H4]. by destruct w as [? ? ? ? ? ? ? ? ? []].
Qed.

(** ** [walFrames] *)

Lemma wp_walWriteOneFrame sp p t fs w io iOffset :
  logged w (bytes io) fs -> frame_ok szPg (pgno p, t, pData p) -> kept (w, io) ->
  (n0 <= off (Z.of_nat (length fs) + 1))%nat ->
  iOffset = walFrameOffset (Z.of_nat (length fs) + 1) szPg ->
  wp (walWriteOneFrame be sp p t iOffset)
    (fun _ s => logged s.1 (bytes s.2) (fs ++ [(pgno p, t, pData p)]) /\ iReCksum s.1 = iReCksum w
                /\ kept s /\ log_same w s.1) (w, io).
Proof using Hsz Hc0.
  intros H Hok Hk Hoff ->. pose proof Hok as (_ & _ & _ & HDb). cbn [snd] in HDb.
  assert (0 <= walFrameOffset (Z.of_nat (length fs) + 1) szPg) as Hnn
    by (unfold walFrameOffset, WAL_HDRSIZE, WAL_FRAME_HDRSIZE; nia).
  unfold walWriteOneFrame. apply wp_io_bind, wp_get.
  destruct (encode_next w (bytes io) fs (pgno p) t (pData p) H HDb) as (rest & ck & Henc & _ & Hrb & _).
  rewrite Henc. apply wp_io_bind, wp_modify.
  assert (Forall is_byte (sqlite3Put4byte (pgno p) ++ sqlite3Put4byte t ++ rest)) as Hhb
    by (repeat apply Forall_app_2; auto using Put4byte_bytes).
  apply wp_io_bind, wp_walWriteToLog; [by apply (kept_bytes _ _ w _ io)|done|done|done|]. intros io1 Hb1.
  fold (off (Z.of_nat (length fs) + 1)) in Hb1.
  apply wp_walWriteToLog; unfold WAL_FRAME_HDRSIZE.
  - eapply kept_write; [exact Hk|exact Hoff|exact Hhb|exact Hb1].
  - lia.
  - unfold frameOff in Hoff. lia.
  - done.
  - intros io2 Hb2. rewrite Z2Nat.inj_add in Hb2 by lia. change (Z.to_nat 24) with 24%nat in Hb2.
    fold (off (Z.of_nat (length fs) + 1)) in Hb2. cbn [fst snd].
    assert (kept (setFrameCksum ck w, io1)) as Hk1 by (eapply kept_write; eauto).
    split; [rewrite Hb2, Hb1; by apply logged_append|]. split; [done|]. split.
    + eapply kept_write; [exact Hk1| |exact HDb|exact Hb2]. lia.
    + by destruct w as [? ? ? ? ? ? ? ? ? []].
Qed.

Definition page_wf (p : PgHdr) : Prop :=
  0 < pgno p < 2 ^ 32 /\ length (pData p) = Z.to_nat szPg /\ Forall is_byte (pData p).

(** The rewritten checksums do not reach the kept bytes. *)
Definition re_kept (w : Wal) : Prop := iReCksum w = 0 \/ (n0 <= off (iReCksum w))%nat.

(** A writer whose wal-index holds [log], the frames up to its [mxFrame]. *)
Record writer (walIndexPage : Z -> Z) (w : Wal) (log : list Z) : Prop := {
  wr_index : index_ok w log;
  wr_mx : mxFrame (hdr w) = Z.of_nat (length log);
  wr_min : 0 <= minFrame w < max_frame;
  wr_map : forall i, 0 <= i -> walIndexPage i = SQLITE_OK
}.

Lemma writer_same walIndexPage w w' log :
  log_same w w' -> writer walIndexPage w log -> writer walIndexPage w' log.
Proof.
  unfold log_same. intros ->. intros [H1 H2 H3 H4]. split; done.
Qed.

Definition writeStep (q : Z) (acc : option (list Z)) (p : PgHdr) : option (list Z) :=
  if pgno p =? q then Some (pData p) else acc.

(** What the main loop does to the frames. *)
Record wrote (iFirst nTruncate : Z) (isCommit : bool) (pList : list PgHdr) (w : Wal)
    (fs : list frame) (pLast0 : option PgHdr) (r : Z * Z * option PgHdr * list bool)
    (s : Wal * Io) (fs' : list frame) : Prop := {
  wt_logged : logged s.1 (bytes s.2) fs';
  wt_kept : kept s;
  wt_re : re_kept s.1;
  wt_same : log_same w s.1;
  wt_iFrame : r.1.1.1 = Z.of_nat (length fs');
  wt_iOffset : r.1.1.2 = walFrameOffset (r.1.1.1 + 1) szPg;
  wt_flags : length r.2 = length pList;
  wt_pgs : pgs fs' = pgs fs ++ appendedPages pList r.2;
  wt_view : forall q, readPage fs' q = foldl (writeStep q) (readPage fs q) pList;
  wt_prefix : forall m, (Z.of_nat m < iFirst \/ iFirst = 0) -> (m <= length fs)%nat ->
    take m fs' = take m fs;
  wt_last : match r.1.2 with
            | Some p => p ∈ pList \/ pLast0 = Some p
            | None => pLast0 = None
            end;
  wt_nil : pList = [] -> fs' = fs /\ r.1.2 = pLast0;
  wt_commit : isCommit = true -> forall p, last pList = Some p ->
    r.1.2 = Some p /\ last fs' = Some (pgno p, nTruncate, pData p)
}.

Lemma appendedPages_cons p rest b flags :
  appendedPages (p :: rest) (b :: flags)
  = (if b : bool then [pgno p] else []) ++ appendedPages rest flags.
Proof.
  unfold appendedPages. cbn [zip zip_with]. destruct b.
  - by rewrite filter_cons_True.
  - by rewrite filter_cons_False.
Qed.

Lemma length_appendedPages pList flags : (length (appendedPages pList flags) <= length pList)%nat.
Proof.
  unfold appendedPages. rewrite !length_fmap.
  etrans; [apply length_filter|]. rewrite length_zip. lia.
Qed.

Lemma last_cons_ne {A} (x : A) l : l <> [] -> last (x :: l) = last l.
Proof. by destruct l. Qed.

(** What the loop does to the frames for one page; [isLast]: no page follows. *)
Record stepped (iFirst nTruncate : Z) (isCommit isLast flag : bool) (p : PgHdr) (log : list Z)
    (w : Wal) (fs : list frame) (s : Wal * Io) (fs1 : list frame) : Prop := {
  st_logged : logged s.1 (bytes s.2) fs1;
  st_kept : kept s;
  st_re : re_kept s.1;
  st_same : log_same w s.1;
  st_len : length fs1 = (length fs + if flag then 1 else 0)%nat;
  st_pgs : pgs fs1 = pgs fs ++ (if flag then [pgno p] else []);
  st_view : forall q, readPage fs1 q = writeStep q (readPage fs q) p;
  st_prefix : forall m, (Z.of_nat m < iFirst \/ iFirst = 0) -> (m <= length fs)%nat ->
    take m fs1 = take m fs;
  st_new : forall P : frame -> Prop, Forall P (drop (length log) fs) ->
    (forall t D, P (pgno p, t, D)) -> Forall P (drop (length log) fs1);
  st_commit : isCommit = true -> isLast = true ->
    flag = true /\ last fs1 = Some (pgno p, nTruncate, pData p)
}.

(** Composition of one page and the rest of the list. *)
Lemma wrote_cons iFirst nTruncate isCommit p rest log w fs s1 fs1 pl (flag : bool) r s fs' :
  stepped iFirst nTruncate isCommit (bool_decide (rest = [])) flag p log w fs s1 fs1 ->
  wrote iFirst nTruncate isCommit rest s1.1 fs1 (if flag then Some p else pl) r s fs' ->
  wrote iFirst nTruncate isCommit (p :: rest) w fs pl (r.1, flag :: r.2) s fs'.
Proof.
  intros [S1 S2 S3 Hs Hlen Hp Hv Hpre _ Hc] [H1 H2 H3 H4 H5 H6 H7 H8 H9 H10 H11 Hnil H12].
  split; cbn [fst snd]; try done.
  - by eapply log_same_trans.
  - cbn [length]. by rewrite H7.
  - by rewrite H8, Hp, appendedPages_cons, app_assoc.
  - intros q. rewrite H9, Hv. done.
  - intros m Hm Hle. rewrite H10 by (done || lia). by apply Hpre.
  - destruct r.1.2 as [p'|]; destruct flag; try done.
    + left. destruct H11 as [H11|[= ->]]; set_unfold; auto.
    + destruct H11 as [H11|H11]; [left|right; done]. set_unfold. auto.
  - intros E p' Hlast. destruct (decide (rest = [])) as [->|Hne].
    + injection Hlast as <-. destruct (Hnil eq_refl) as [-> ->].
      by destruct (Hc E (bool_decide_eq_true_2 _ eq_refl)) as [-> ?].
    + rewrite last_cons_ne in Hlast by done. by apply H12.
Qed.

(** The frame that the loop overwrites, if any. *)
Lemma find_target walIndexPage w log fs p :
  writer walIndexPage w log -> log = take (length log) (pgs fs) ->
  Forall (fun fr : frame => fr.1.1 <> p) (drop (length log) fs) ->
  let iWrite := match walFindFrame walIndexPage w p (mxFrame (hdr w)) with Ok f => f | Err _ => 0 end in
  iWrite <> 0 -> exists k t D, iWrite = Z.of_nat k + 1 /\ fs !! k = Some (p, t, D)
    /\ (k < length log)%nat /\ Forall (fun fr : frame => fr.1.1 <> p) (drop (S k) fs).
Proof using.
  intros [H1 H2 H3 H5] Hlog Hnew. rewrite H2.
  destruct ((readLock w =? 0) && negb (bShmUnreliable w)) eqn:El.
  { unfold walFindFrame. by rewrite El, orb_true_r. }
  assert (readLock w <> 0 \/ bShmUnreliable w = true) as H4.
  { destruct (Z.eqb_spec (readLock w) 0); [right|by left]. by destruct (bShmUnreliable w). }
  rewrite (walFindFrame_ok walIndexPage w log p) by (done || lia || auto || (intros; apply H5; lia)).
  rewrite Nat2Z.id. intros iWrite Hnz. by apply (lookBack_frame fs log p (minFrame w)).
Qed.

Section Page.
Context (walIndexPage : Z -> Z) (iFirst nTruncate : Z) (isCommit : bool).
Context (log : list Z) (fs : list frame) (w : Wal) (io : Io) (p : PgHdr).
Hypothesis Hwr : writer walIndexPage w log.
Hypothesis Hlg : logged w (bytes io) fs.
Hypothesis Hlog : log = take (length log) (pgs fs).
Hypothesis Hk : kept (w, io).
Hypothesis Hre : re_kept w.
Hypothesis Hwf : page_wf p.
Hypothesis Ht : is_u32 nTruncate.

Lemma wp_overwrite isLast :
  isCommit && isLast = false ->
  Forall (fun fr : frame => fr.1.1 <> pgno p) (drop (length log) fs) ->
  1 <= iFirst -> (n0 <= off iFirst)%nat ->
  let iWrite := match walFindFrame walIndexPage w (pgno p) (mxFrame (hdr w)) with
                | Ok f => f | Err _ => 0 end in
  iFirst <= iWrite ->
  wp (io_call (fun io => osWrite io (pData p) (walFrameOffset iWrite szPg + WAL_FRAME_HDRSIZE)))
    (fun _ s => exists fs1, stepped iFirst nTruncate isCommit isLast false p log w fs s fs1)
    (markRewrite iWrite w, io).
Proof using Hsz Hwr Hlg Hlog Hk Hre Hwf.
  intros Hnl Hnewp Hf1 Hf2 iWrite Hge. destruct Hwf as (Hp & HD & HDb).
  destruct (find_target walIndexPage w log fs (pgno p) Hwr Hlog Hnewp) as (k & t & D & Hw & Hkf & Hkl & Hlast);
    [fold iWrite; lia|]. fold iWrite in Hw. rewrite Hw in *. clearbody iWrite.
  pose proof (lookup_lt_Some _ _ _ Hkf) as Hlt.
  destruct (lg_contents _ _ _ Hlg _ _ Hkf) as [_ (_ & Htu & _)]. cbn [fst snd] in Htu.
  pose proof (off_mono szPg Hsz iFirst (Z.of_nat k + 1) Hf1 Hge) as Hmono.
  destruct (markRewrite_re (Z.of_nat k + 1) w) as (M1 & M2 & M3 & _ & M4);
    [lia|apply (lg_re _ _ _ Hlg)|].
  assert (Z.to_nat (walFrameOffset (Z.of_nat k + 1) szPg + WAL_FRAME_HDRSIZE) = off (Z.of_nat k + 1) + 24)%nat
    as Ho by (unfold frameOff, walFrameOffset, WAL_HDRSIZE, WAL_FRAME_HDRSIZE; nia).
  apply wp_write; [by apply (kept_bytes _ _ w _ io)|lia|done|]. intros io1 Hb1. rewrite Ho in Hb1.
  exists (<[k := (pgno p, t, pData p)]> fs). split; cbn [fst snd]; try done.
  - rewrite Hb1. by eapply logged_overwrite.
  - eapply kept_write; [exact Hk| |exact HDb|exact Hb1]. lia.
  - unfold re_kept. destruct M3 as [->| ->]; [right; lia|done].
  - rewrite length_insert. lia.
  - by rewrite (pgs_insert _ _ _ _ D), app_nil_r.
  - intros q. by apply (readPage_insert _ _ _ _ D).
  - intros m [Hm|Hm] Hle; [|lia]. by rewrite take_insert_ge by lia.
  - intros P HP _. by rewrite drop_insert_lt by lia.
  - intros -> ->. done.
Qed.

Lemma wp_append isLast :
  (n0 <= off (Z.of_nat (length fs) + 1))%nat -> (length log <= length fs)%nat ->
  wp (walWriteOneFrame be 0 p (if isCommit && isLast then nTruncate else 0)
        (walFrameOffset (Z.of_nat (length fs) + 1) szPg))
    (fun _ s => exists fs1, stepped iFirst nTruncate isCommit isLast true p log w fs s fs1) (w, io).
Proof using Hsz Hc0 Hlg Hk Hre Hwf Ht.
  intros Hoff Hll. destruct Hwf as (Hp & HD & HDb).
  set (t := if isCommit && isLast then nTruncate else 0).
  assert (frame_ok szPg (pgno p, t, pData p)) as Hok.
  { split; [done|]. split; [|done]. cbn [fst snd]. unfold t. case_match; [done|]. unfold is_u32. lia. }
  eapply wp_io_mono; [by apply (wp_walWriteOneFrame 0 p t fs w io)|].
  intros [] s (H1 & H2 & H3 & H4). exists (fs ++ [(pgno p, t, pData p)]). split; try done.
  - unfold re_kept. by rewrite H2.
  - by rewrite length_app.
  - apply pgs_app.
  - intros q. by rewrite readPage_app.
  - intros m _ Hle. by rewrite take_app_le.
  - intros P HP HPp. rewrite drop_app_le by lia. apply Forall_app_2; [done|]. by apply Forall_singleton.
  - intros E1 E2. split; [done|]. unfold t. by rewrite last_snoc, E1, E2.
Qed.

End Page.

(** The main loop, by induction on the dirty pages. *)
Lemma wp_writeLoop walIndexPage nTruncate isCommit iFirst log pList fs w io pLast :
  writer walIndexPage w log -> logged w (bytes io) fs -> log = take (length log) (pgs fs) ->
  kept (w, io) -> re_kept w -> is_u32 nTruncate ->
  Forall page_wf pList -> NoDup (pgno <$> pList) ->
  Forall (fun fr : frame => fr.1.1 ∉ pgno <$> pList) (drop (length log) fs) ->
  (iFirst = 0 \/ (1 <= iFirst /\ (n0 <= off iFirst)%nat)) ->
  (n0 <= off (Z.of_nat (length fs) + 1))%nat ->
  wp (writeLoop be walIndexPage pList szPg nTruncate isCommit iFirst (Z.of_nat (length fs))
        (walFrameOffset (Z.of_nat (length fs) + 1) szPg) pLast)
    (fun r s => exists fs', wrote iFirst nTruncate isCommit pList w fs pLast r s fs') (w, io).
Proof using Hc0 Hhdr Hsz.
  revert fs w io pLast. induction pList as [|p rest IH];
    intros fs w io pLast Hwr Hlg Hlog Hk Hre Ht Hwf Hnd Hnew Hfirst Hoff; cbn [writeLoop].
  { apply wp_io_ret. exists fs. split; cbn [fst snd]; try done; [apply log_same_refl|by rewrite app_nil_r|].
    destruct pLast; auto. }
  apply Forall_cons_1 in Hwf as [Hp Hwf]. cbn [fmap list_fmap] in Hnd, Hnew.
  apply NoDup_cons in Hnd as [Hnotin Hnd].
  assert (Forall (fun fr : frame => fr.1.1 <> pgno p) (drop (length log) fs)
    /\ Forall (fun fr : frame => fr.1.1 ∉ pgno <$> rest) (drop (length log) fs)) as [Hnewp Hnewr]
    by (split; eapply Forall_impl; try exact Hnew; by intros ? [? ?]%not_elem_of_cons).
  assert (length log <= length fs)%nat as Hll.
  { apply (f_equal length) in Hlog. rewrite length_take, length_pgs in Hlog. lia. }
  (* the rest of the loop after one page *)
  assert (forall flag s1 fs1, stepped iFirst nTruncate isCommit (bool_decide (rest = [])) flag p log w fs s1 fs1 ->
    wp (writeLoop be walIndexPage rest szPg nTruncate isCommit iFirst (Z.of_nat (length fs1))
          (walFrameOffset (Z.of_nat (length fs1) + 1) szPg) (if flag then Some p else pLast))
      (fun r s => exists fs', wrote iFirst nTruncate isCommit (p :: rest) w fs pLast (r.1, flag :: r.2) s fs') s1)
    as Hrest.
  { intros flag [w1 io1] fs1 Hst. pose proof Hst as [S1 S2 S3 S4 S5 S6 S7 S8 S9 S10]. cbn [fst snd] in *.
    eapply wp_io_mono; [apply (IH fs1 w1 io1)|].
    - by eapply writer_same.
    - done.
    - rewrite S6, take_app_le by (rewrite length_pgs; lia). done.
    - done.
    - done.
    - done.
    - done.
    - done.
    - by apply S9.
    - done.
    - pose proof (off_mono szPg Hsz (Z.of_nat (length fs) + 1) (Z.of_nat (length fs1) + 1)). lia.
    - intros r s [fs' Hwrote]. exists fs'. by eapply wrote_cons. }
  apply wp_io_bind, wp_get. cbn beta.
  set (more := match rest with [] => false | _ => true end).
  assert (bool_decide (rest = []) = negb more) as Hmore by by destruct rest.
  rewrite Hmore in Hrest. clearbody more.
  set (guard := negb (iFirst =? 0) && (more || negb isCommit)).
  set (iWrite := if guard then _ else 0). destruct (guard && (iFirst <=? iWrite)) eqn:Eg.
  - apply andb_true_iff in Eg as [Eg1 Eg2%Z.leb_le]. unfold iWrite in *. rewrite Eg1 in *. clear iWrite.
    apply andb_true_iff in Eg1 as [Ef0%negb_true_iff%Z.eqb_neq Emore].
    destruct Hfirst as [|[Hf1 Hf2]]; [done|].
    apply wp_io_bind, wp_modify, wp_io_bind.
    eapply wp_io_mono; [apply (wp_overwrite walIndexPage iFirst nTruncate isCommit log fs w io p
      Hwr Hlg Hlog Hk Hre Hp (negb more)); try done; by destruct isCommit, more|].
    intros [] s1 [fs1 Hst]. specialize (Hrest _ _ _ Hst).
    rewrite (st_len _ _ _ _ _ _ _ _ _ _ _ Hst), Nat.add_0_r in Hrest.
    apply wp_io_bind. eapply wp_io_mono; [exact Hrest|]. by intros [[[? ?] ?] ?] ? ?.
  - apply wp_io_bind.
    eapply wp_io_mono; [by apply (wp_append iFirst nTruncate isCommit log fs w io p)|].
    intros [] s1 [fs1 Hst]. specialize (Hrest _ _ _ Hst).
    rewrite (st_len _ _ _ _ _ _ _ _ _ _ _ Hst), Nat2Z.inj_add in Hrest.
    replace (walFrameOffset (Z.of_nat (length fs) + 1) szPg + (szPg + WAL_FRAME_HDRSIZE))
      with (walFrameOffset (Z.of_nat (length fs) + Z.of_nat 1 + 1) szPg)
      by (unfold walFrameOffset, WAL_HDRSIZE, WAL_FRAME_HDRSIZE; lia).
    apply wp_io_bind. eapply wp_io_mono; [exact Hrest|]. by intros [[[? ?] ?] ?] ? ?.
Qed.

(** ** Padding, truncation and the wal-index *)

Lemma wp_padLoop sp p t n fs w io nExtra :
  logged w (bytes io) fs -> frame_ok szPg (pgno p, t, pData p) -> kept (w, io) ->
  (n0 <= off (Z.of_nat (length fs) + 1))%nat ->
  wp (padLoop be n sp p t (walFrameOffset (Z.of_nat (length fs) + 1) szPg) (szPg + WAL_FRAME_HDRSIZE) nExtra)
    (fun r s => exists k, r = (nExtra + k)%nat /\ (k <= n)%nat
       /\ logged s.1 (bytes s.2) (fs ++ replicate k (pgno p, t, pData p))
       /\ kept s /\ ck_same w s.1) (w, io).
Proof using Hsz Hc0.
  revert fs w io nExtra. induction n as [|n IH]; intros fs w io nExtra H Hok Hk Hoff; cbn [padLoop].
  { apply wp_io_ret. exists 0%nat. rewrite Nat.add_0_r, app_nil_r. auto using ck_same_refl, Nat.le_0_l. }
  destruct (_ <? sp).
  2:{ apply wp_io_ret. exists 0%nat. rewrite Nat.add_0_r, app_nil_r. auto using ck_same_refl, Nat.le_0_l. }
  apply wp_io_bind. eapply wp_io_mono; [by apply (wp_walWriteOneFrame sp p t fs w io)|].
  intros [] [w1 io1] (H1 & H2 & H3 & H4). cbn [fst snd] in *.
  assert (ck_same w w1) as Hck by done.
  set (fs1 := fs ++ [(pgno p, t, pData p)]) in *.
  assert (Z.of_nat (length fs1) = Z.of_nat (length fs) + 1) as Hl1
    by (unfold fs1; rewrite length_app; simpl; lia).
  replace (walFrameOffset (Z.of_nat (length fs) + 1) szPg + (szPg + WAL_FRAME_HDRSIZE))
    with (walFrameOffset (Z.of_nat (length fs1) + 1) szPg)
    by (rewrite Hl1; unfold walFrameOffset, WAL_HDRSIZE, WAL_FRAME_HDRSIZE; lia).
  eapply wp_io_mono; [apply (IH fs1 w1 io1); try done|].
  - pose proof (off_mono szPg Hsz (Z.of_nat (length fs) + 1) (Z.of_nat (length fs1) + 1)). lia.
  - intros r s (k & -> & Hkn & G1 & G2 & G3). exists (S k). split; [lia|]. split; [lia|].
    unfold fs1 in G1. rewrite <- app_assoc in G1. split; [exact G1|]. split; [done|].
    by eapply ck_same_trans.
Qed.

Lemma wp_sync_rc (Q : Z -> Wal * Io -> Prop) w io :
  (forall rc io', bytes io' = bytes io -> Q rc (w, io')) -> wp (io_rc osSync) Q (w, io).
Proof.
  intros HQ. unfold WalDurable.wp, io_rc, osSync, nextFault. cbn [fst snd].
  destruct (faults io) as [|[rc k] l]; by apply HQ.
Qed.

(** The frames written as padding. *)
Definition padding (pLast : option PgHdr) (t : Z) (k : nat) : list frame :=
  match pLast with Some p => replicate k (pgno p, t, pData p) | None => [] end.

Lemma wp_padAndSync sectorSize t sync_flags isCommit pLast fs w io :
  logged w (bytes io) fs -> is_u32 t -> kept (w, io) -> (n0 <= off (Z.of_nat (length fs) + 1))%nat ->
  (forall p, pLast = Some p -> page_wf p) ->
  wp (padAndSync be sectorSize szPg t sync_flags (walFrameOffset (Z.of_nat (length fs) + 1) szPg) isCommit pLast)
    (fun r s => logged s.1 (bytes s.2) (fs ++ padding pLast t r.1)
       /\ kept s /\ ck_same w s.1
       /\ (isCommit = false -> r.1 = 0%nat) /\ (r.1 <= Z.to_nat sectorSize)%nat) (w, io).
Proof using Hsz Hc0.
  intros H Ht Hk Hoff Hwf. unfold padAndSync.
  assert (forall k, padding pLast t 0 = [] /\ (k = 0%nat -> padding pLast t k = [])) as Hz.
  { intros k. split; [by destruct pLast|]. intros ->. by destruct pLast. }
  assert (forall io', bytes io' = bytes io -> forall rc : Z,
    logged w (bytes io') (fs ++ padding pLast t 0) /\ kept (w, io') /\ ck_same w w
    /\ (isCommit = false -> 0%nat = 0%nat) /\ (0 <= Z.to_nat sectorSize)%nat) as Hnone.
  { intros io' Hb rc. rewrite (proj1 (Hz 0%nat)), app_nil_r, Hb.
    split; [done|]. split; [by apply (kept_bytes _ _ w _ io)|]. auto using ck_same_refl, Nat.le_0_l. }
  destruct isCommit; cbn [andb]; [|apply wp_io_ret; by apply (Hnone io)].
  destruct (negb _); [|apply wp_io_ret; by apply (Hnone io)].
  apply wp_io_bind, wp_get. destruct (padToSectorBoundary w).
  2:{ apply wp_io_bind, wp_sync_rc. intros rc io' Hb. apply wp_io_ret. by apply (Hnone io'). }
  set (sp := _ / _ * _). clear Hnone. apply wp_io_bind.
  assert (forall (nExtra : nat) s, logged s.1 (bytes s.2) (fs ++ padding pLast t nExtra) /\ kept s
      /\ ck_same w s.1 /\ (nExtra <= Z.to_nat sectorSize)%nat ->
    wp (rc ← (if sp =? walFrameOffset (Z.of_nat (length fs) + 1) szPg then io_rc osSync else mret SQLITE_OK);
        mret (nExtra, rc))
      (fun r s => logged s.1 (bytes s.2) (fs ++ padding pLast t r.1) /\ kept s /\ ck_same w s.1
         /\ (true = false -> r.1 = 0%nat) /\ (r.1 <= Z.to_nat sectorSize)%nat) s) as Hend.
  { intros nExtra [w1 io1] (G1 & G2 & G3 & G4). cbn [fst snd] in *. apply wp_io_bind. destruct (_ =? _).
    - apply wp_sync_rc. intros rc io' Hb. apply wp_io_ret. cbn [fst snd]. rewrite Hb.
      split; [done|]. split; [by apply (kept_bytes _ _ w1 _ io1)|]. done.
    - apply wp_io_ret, wp_io_ret. done. }
  destruct pLast as [p|].
  - eapply wp_io_mono; [apply (wp_padLoop sp p t (Z.to_nat sectorSize) fs w io 0); try done|].
    + destruct (Hwf p eq_refl) as (? & ? & ?). done.
    + intros r s (k & -> & Hkn & G1 & G2 & G3). apply Hend. cbn [Nat.add padding]. done.
  - apply wp_io_ret, Hend. cbn [padding fst snd]. rewrite app_nil_r. auto using ck_same_refl, Nat.le_0_l.
Qed.

(** The invariant depends on the header, on [iReCksum] and on the bytes of
    the frames. *)
Lemma logged_prefix w w' b b' fs :
  logged w b fs -> hdr w' = hdr w -> iReCksum w' = iReCksum w -> Forall is_byte b' ->
  take (off (Z.of_nat (length fs) + 1)) b' = take (off (Z.of_nat (length fs) + 1)) b ->
  (off (Z.of_nat (length fs) + 1) <= length b')%nat -> logged w' b' fs.
Proof using Hsz.
  intros H Hh Hr Hb' Heq Hlen. pose proof (lg_re _ _ _ H) as Hre.
  split; rewrite ?Hh, ?Hr; try apply H; try done.
  - intros k fr Hk. destruct (lg_contents _ _ _ H k fr Hk) as [[H1 H2] H3]. split; [|done].
    apply lookup_lt_Some in Hk.
    pose proof (off_le szPg Hsz (Z.of_nat k + 1) (Z.of_nat (length fs) + 1) ltac:(lia) ltac:(lia)).
    split; [rewrite <- H1|rewrite <- H2]; eapply bytesAt_prefix; try exact Heq; lia.
  - unfold validUpTo. rewrite Hr. eapply (valid_prefix szPg Hsz b); [apply H|done|].
    eapply take_eq_le; [exact Heq|]. unfold validUpTo. apply off_mono; [done|lia|].
    destruct (Z.eqb_spec (iReCksum w) 0); lia.
  - rewrite <- (lg_start _ _ _ H). eapply take_eq_le; [exact Heq|]. apply off_ge; [done|lia].
Qed.

Lemma walLimitSize_cases nMax w io :
  exists io', walLimitSize nMax (w, io) = (Ok tt, (w, io'))
    /\ (bytes io' = bytes io \/ bytes io' = take (Z.to_nat nMax) (bytes io)).
Proof.
  unfold walLimitSize, osFileSize, osTruncate, nextFault. cbn [fst snd].
  destruct (faults io) as [|[rx k] l] eqn:E; cbn [fst snd bytes faults].
  - rewrite E. destruct (_ && _); eexists; (split; [done|]); cbn [bytes]; auto.
  - destruct (_ && _); [|eexists; (split; [done|]); by left].
    destruct l as [|[rt kt] l]; [eexists; (split; [done|]); by right|].
    cbn [bytes faults]. destruct (rt =? SQLITE_OK); eexists; (split; [done|]); cbn [bytes]; auto.
Qed.

Lemma wp_limitOnCommit iFrame nExtra isCommit fs w io :
  logged w (bytes io) fs -> kept (w, io) -> (n0 <= off (Z.of_nat (length fs) + 1))%nat ->
  iFrame + Z.of_nat nExtra = Z.of_nat (length fs) ->
  wp (limitOnCommit szPg iFrame nExtra isCommit)
    (fun _ s => logged s.1 (bytes s.2) fs /\ kept s
       /\ s.1 = set_truncateOnCommit w (truncateOnCommit s.1)) (w, io).
Proof using Hsz.
  intros H Hk Hoff Hn. unfold limitOnCommit. apply wp_io_bind, wp_get.
  destruct (isCommit && truncateOnCommit w && (0 <=? mxWalSize w)).
  2:{ apply wp_io_ret. split; [done|]. split; [done|]. by destruct w. }
  rewrite Hn. set (sz := if _ >? _ then _ else _).
  assert (off (Z.of_nat (length fs) + 1) <= Z.to_nat sz)%nat as Hszle.
  { unfold sz, frameOff. rewrite Z.gtb_ltb. destruct (Z.ltb_spec (mxWalSize w)
      (walFrameOffset (Z.of_nat (length fs) + 1) szPg)); lia. }
  clearbody sz. pose proof (lg_len _ _ _ H) as Hlen.
  assert (forall io1, bytes io1 = bytes io \/ bytes io1 = take (Z.to_nat sz) (bytes io) ->
    logged (set_truncateOnCommit w false) (bytes io1) fs /\ kept (set_truncateOnCommit w false, io1)) as Hcut.
  { intros io1 [Hb|Hb].
    - rewrite Hb. split; [|by apply (kept_bytes _ _ w _ io)]. by apply (logged_prefix w _ (bytes io)); try apply H.
    - rewrite Hb. split.
      + apply (logged_prefix w _ (bytes io)); try done.
        * apply Forall_take, H.
        * rewrite take_take. f_equal. lia.
        * rewrite length_take. lia.
      + destruct Hk as (K1 & K2 & K3). split_and!; cbn [snd] in *; rewrite Hb.
        * rewrite take_take, <- K1. f_equal. lia.
        * rewrite length_take. lia.
        * by apply Forall_take. }
  apply wp_io_bind. destruct (walLimitSize_cases sz w io) as (io1 & Hl & Hb). unfold WalDurable.wp at 1.
  rewrite Hl. apply wp_modify. destruct (Hcut io1 Hb). done.
Qed.

Lemma wp_appendLoop walIndexPage ps log w io :
  index_ok w log -> Forall (fun p => 0 < p) ps ->
  Z.of_nat (length log) + Z.of_nat (length ps) < max_frame ->
  (forall i, 0 <= i -> walIndexPage i = SQLITE_OK) ->
  wp (appendLoop walIndexPage ps (Z.of_nat (length log)))
    (fun r s => r = Z.of_nat (length (log ++ ps)) /\ s.2 = io /\ same_conn w s.1
                /\ index_ok s.1 (log ++ ps)) (w, io).
Proof.
  revert log w. induction ps as [|p ps IH]; intros log w Hidx Hpos Hmax Hmap; cbn [appendLoop].
  { apply wp_io_ret. rewrite app_nil_r. auto using same_conn_refl. }
  apply Forall_cons_1 in Hpos as [Hp Hpos]. cbn [length] in Hmax.
  destruct (walIndexAppend_ok walIndexPage w log (Z.of_nat (length log) + 1) p) as (w1 & Happ & Hs & Hidx1);
    [done|done|lia|lia|by left|apply Hmap, walFramePage_nonneg; lia|].
  rewrite take_ge in Hidx1 by lia.
  apply wp_io_bind. unfold WalDurable.wp at 1, indexAppend. cbn [fst snd]. rewrite Happ. cbn [Z.eqb SQLITE_OK].
  replace (Z.of_nat (length log) + 1) with (Z.of_nat (length (log ++ [p]))) by (rewrite length_app; simpl; lia).
  eapply wp_io_mono; [apply (IH (log ++ [p]) w1); try done; rewrite length_app; simpl; lia|].
  intros r s (-> & H2 & H3 & H4). rewrite <- app_assoc in *. repeat (split; [done|]).
  split; [|done]. unfold same_conn in *. rewrite H3, Hs. by destruct w.
Qed.

Lemma logged_hdr w w' b fs :
  logged w b fs -> iReCksum w' = iReCksum w -> bigEndCksum (hdr w') = bigEndCksum (hdr w) ->
  aSalt (hdr w') = aSalt (hdr w) -> aFrameCksum (hdr w') = aFrameCksum (hdr w) -> logged w' b fs.
Proof.
  intros [H1 H2 H3 H4 H5 H6 H7 H8 H9] Er Eb Es Ec.
  split; rewrite ?Er, ?Eb, ?Es, ?Ec; try done. unfold validUpTo. by rewrite Er.
Qed.

(** ** A writing session

    The connection, its wal-index and the file agree on the frames [fs]. *)
Record session (walIndexPage : Z -> Z) (w : Wal) (b : list Z) (fs : list frame) : Prop := {
  ss_writer : writer walIndexPage w (pgs fs);
  ss_logged : logged w b fs;
  ss_szPage : szPage w = szPg
}.

(** The fields of the connection that writing frames does not change. *)
Definition conn_same (w w' : Wal) : Prop :=
  ckptInfo w' = ckptInfo w /\ readLock w' = readLock w /\ nCkpt w' = nCkpt w.

(** The page contents after [pList] is written over [v]. *)
Definition overwrite (v : Z -> option (list Z)) (pList : list PgHdr) (q : Z) : option (list Z) :=
  foldl (writeStep q) (v q) pList.

Record framed (walIndexPage : Z -> Z) (iFirst nTruncate : Z) (isCommit : bool)
    (pList : list PgHdr) (w : Wal) (fs : list frame) (s : Wal * Io) (fs' : list frame) : Prop := {
  fr_session : session walIndexPage s.1 (bytes s.2) fs';
  fr_kept : kept s;
  fr_re : re_kept s.1;
  fr_view : forall q, readPage fs' q = overwrite (readPage fs) pList q;
  fr_prefix : forall m, (Z.of_nat m < iFirst \/ iFirst = 0) -> (m <= length fs)%nat ->
    take m fs' = take m fs;
  fr_len : (length fs <= length fs')%nat;
  fr_commit : isCommit = true ->
    iReCksum s.1 = 0 /\ aHdr s.1 = (hdr s.1, hdr s.1) /\ nPage (hdr s.1) = nTruncate
    /\ exists p D, last fs' = Some (p, nTruncate, D);
  fr_spill : isCommit = false -> aHdr s.1 = aHdr w;
  fr_conn : conn_same w s.1
}.

Lemma publish_facts w nTruncate iFrame isCommit io :
  exists w', publish be szPg nTruncate iFrame isCommit (w, io) = (Ok tt, (w', io))
    /\ mxFrame (hdr w') = iFrame /\ iReCksum w' = iReCksum w
    /\ bigEndCksum (hdr w') = bigEndCksum (hdr w) /\ aSalt (hdr w') = aSalt (hdr w)
    /\ aFrameCksum (hdr w') = aFrameCksum (hdr w) /\ apWiData w' = apWiData w
    /\ minFrame w' = minFrame w /\ conn_same w w' /\ szPage w' = szPage w
    /\ (if isCommit then aHdr w' = (hdr w', hdr w') /\ nPage (hdr w') = nTruncate
        else aHdr w' = aHdr w).
Proof. destruct isCommit; eexists; (split; [reflexivity|]); done. Qed.

(** Padding does not change what is read. *)
Lemma readPage_padding fs pLast t k q :
  (forall p, pLast = Some p -> last fs = Some (pgno p, t, pData p)) ->
  readPage (fs ++ padding pLast t k) q = readPage fs q.
Proof.
  intros Hlast. destruct pLast as [p|]; cbn [padding]; [|by rewrite app_nil_r].
  specialize (Hlast p eq_refl). apply last_Some in Hlast as [fs0 ->].
  induction k as [|k IH]; [by rewrite app_nil_r|].
  rewrite replicate_S_end, app_assoc, readPage_app, IH. cbn [fst snd].
  rewrite readPage_app. cbn [fst snd]. by destruct (pgno p =? q).
Qed.

Lemma last_padding fs pLast t k :
  (forall p, pLast = Some p -> last fs = Some (pgno p, t, pData p)) ->
  last (fs ++ padding pLast t k) = last fs.
Proof.
  intros Hlast. destruct pLast as [p|]; cbn [padding]; [|by rewrite app_nil_r].
  destruct k as [|k]; [by rewrite app_nil_r|].
  rewrite replicate_S_end, app_assoc, last_snoc. by rewrite (Hlast p eq_refl).
Qed.

Lemma pgs_padding pLast t k :
  pgs (padding pLast t k) = match pLast with Some p => replicate k (pgno p) | None => [] end.
Proof. destruct pLast; [|done]. unfold pgs. cbn [padding]. by rewrite fmap_replicate. Qed.

Lemma length_padding pLast t k : (length (padding pLast t k) <= k)%nat.
Proof. destruct pLast; cbn [padding length]; [by rewrite length_replicate|lia]. Qed.

Lemma wp_repair mallocOk isCommit fs w io :
  logged w (bytes io) fs -> szPage w = szPg -> kept (w, io) -> re_kept w ->
  wp (if isCommit && negb (iReCksum w =? 0) then walRewriteChecksums be mallocOk (Z.of_nat (length fs))
      else mret tt)
    (fun _ s => logged s.1 (bytes s.2) fs /\ kept s /\ log_same w s.1 /\ re_kept s.1
                /\ (isCommit = true -> iReCksum s.1 = 0)) (w, io).
Proof using Hsz Hc0 Hhdr.
  intros H Hszw Hk Hre. destruct isCommit; cbn [andb];
    [|apply wp_io_ret; split_and!; by auto using log_same_refl].
  destruct (Z.eqb_spec (iReCksum w) 0) as [E|E]; cbn [negb].
  - apply wp_io_ret. split_and!; by auto using log_same_refl.
  - eapply wp_io_mono; [apply (wp_walRewriteChecksums mallocOk fs w io); try done; by destruct Hre|].
    intros _ s (H1 & H2 & H3 & H4). unfold re_kept. split_and!; auto.
Qed.

(** From the wal-index to the end. *)
Lemma wp_finish walIndexPage iFirst nTruncate (isCommit walRestarted : bool) pList fs fs' ps w0 w io :
  writer walIndexPage w (pgs fs) -> logged w (bytes io) fs' -> szPage w = szPg -> kept (w, io) ->
  re_kept w -> pgs fs' = pgs fs ++ ps -> Z.of_nat (length fs') < max_frame ->
  (forall q, readPage fs' q = overwrite (readPage fs) pList q) ->
  (forall m, (Z.of_nat m < iFirst \/ iFirst = 0) -> (m <= length fs)%nat -> take m fs' = take m fs) ->
  (isCommit = true -> iReCksum w = 0 /\ exists p D, last fs' = Some (p, nTruncate, D)) ->
  aHdr w = aHdr w0 -> conn_same w0 w ->
  wp (iFrame ← appendLoop walIndexPage ps (mxFrame (hdr w));
      _ ← publish be szPg nTruncate iFrame isCommit;
      mret (if isCommit then if walRestarted then iFrame else iFrame - mxFrame (hdr w) else 0))
    (fun _ s => framed walIndexPage iFirst nTruncate isCommit pList w0 fs s fs') (w, io).
Proof using Hsz.
  intros [I1 I2 I3 I5] H Hszw Hk Hre Hpgs Hmax Hview Hpre Hcommit Haw Hconn.
  assert (length (pgs fs ++ ps) = length fs') as Hlen by (by rewrite <- Hpgs, length_pgs).
  assert (Forall (fun p => 0 < p) ps) as Hpos.
  { assert (Forall (fun p => 0 < p) (pgs fs')) as Hall.
    { apply Forall_fmap, Forall_lookup. intros k fr Hkf.
      destruct (lg_contents _ _ _ H k fr Hkf) as [_ (Hp & _)]. simpl. lia. }
    rewrite Hpgs in Hall. by apply Forall_app in Hall as [_ ?]. }
  apply wp_io_bind. rewrite I2. eapply wp_io_mono.
  { apply wp_appendLoop; try done. rewrite length_app in Hlen. rewrite length_pgs in *. lia. }
  intros r [w1 io1] (Er & Eio & Hsame & Hidx). cbn [fst snd] in *. subst io1 r.
  apply wp_io_bind. unfold WalDurable.wp at 1.
  destruct (publish_facts w1 nTruncate (Z.of_nat (length (pgs fs ++ ps))) isCommit io)
    as (w2 & -> & P1 & P2 & P3 & P4 & P5 & P6 & P7 & P8 & P9 & P10).
  rewrite Hsame in P2, P3, P4, P5, P7, P8, P9, P10.
  cbn [iReCksum hdr minFrame szPage aHdr set_apWiData] in *.
  apply wp_io_ret. rewrite Hlen in P1. split; cbn [fst snd]; try done.
  - split; [|eapply logged_hdr; eauto|congruence].
    split; [rewrite Hpgs; by apply (index_ok_pages w1)|by rewrite length_pgs|by rewrite P7|done].
  - unfold re_kept. by rewrite P2.
  - rewrite <- Hlen, length_app, length_pgs. lia.
  - intros ->. destruct (Hcommit eq_refl) as [Hz Hlast]. rewrite P2. destruct P10 as [? ?]. done.
  - intros ->. congruence.
  - destruct Hconn as (C1 & C2 & C3), P8 as (C4 & C5 & C6). by repeat split; etrans; eauto.
Qed.

Lemma padded fs pLast t nExtra (isCommit : bool) :
  (isCommit = false -> nExtra = 0%nat) ->
  (isCommit = true -> exists p, pLast = Some p /\ last fs = Some (pgno p, t, pData p)) ->
  let fs' := fs ++ padding pLast t nExtra in
  (forall q, readPage fs' q = readPage fs q) /\ length fs' = (length fs + nExtra)%nat
  /\ (isCommit = true -> exists p D, last fs' = Some (p, t, D)).
Proof.
  intros Hz Hlast fs'. unfold fs'. destruct isCommit.
  - destruct (Hlast eq_refl) as (p & -> & Hl).
    split; [intros q; apply readPage_padding; by intros ? [= <-]|].
    split; [cbn [padding]; by rewrite length_app, length_replicate|].
    intros _. rewrite last_padding by (by intros ? [= <-]). eauto.
  - rewrite Hz by done. replace (padding pLast t 0) with (@nil frame) by by destruct pLast.
    rewrite app_nil_r. split; [done|]. split; [lia|done].
Qed.

Lemma wp_writeFrames walIndexPage sectorSize mallocOk iFirst nTruncate isCommit pList sync_flags
    walRestarted fs w io :
  session walIndexPage w (bytes io) fs -> kept (w, io) -> re_kept w -> is_u32 nTruncate ->
  Forall page_wf pList -> NoDup (pgno <$> pList) -> pList <> [] ->
  (iFirst = 0 \/ (1 <= iFirst /\ (n0 <= off iFirst)%nat)) ->
  (n0 <= off (Z.of_nat (length fs) + 1))%nat ->
  Z.of_nat (length fs) + Z.of_nat (length pList) + Z.max 0 sectorSize < max_frame ->
  wp (writeFrames be walIndexPage sectorSize mallocOk szPg pList nTruncate isCommit sync_flags
        iFirst (mxFrame (hdr w)) walRestarted)
    (fun _ s => exists fs', framed walIndexPage iFirst nTruncate isCommit pList w fs s fs') (w, io).
Proof using Hsz Hc0 Hhdr.
  intros [Hwr Hlg Hszw] Hk Hre Ht Hwf Hnd Hne Hfirst Hoff Hroom. unfold writeFrames.
  pose proof (wr_mx _ _ _ Hwr) as Hmx. rewrite length_pgs in Hmx. rewrite Hmx.
  apply wp_io_bind. eapply wp_io_mono.
  { apply (wp_writeLoop walIndexPage nTruncate isCommit iFirst (pgs fs)); try done.
    - by rewrite take_ge.
    - by rewrite drop_ge by by rewrite length_pgs. }
  intros [[[iFrame iOffset] pLast] flags] [w1 io1] [fs1 Hwt].
  pose proof Hwt as [W1 W2 W3 W4 W5 W6 W7 W8 W9 W10 W11 _ W12]. cbn [fst snd] in *.
  subst iFrame iOffset. apply wp_io_bind, wp_get, wp_io_bind.
  assert (szPage w1 = szPg /\ aHdr w1 = aHdr w) as [Hsz1 Ha1] by (by rewrite W4).
  eapply wp_io_mono; [by apply (wp_repair mallocOk isCommit fs1 w1 io1)|].
  intros [] [w2 io2] (R1 & R2 & R3 & R4 & R5). cbn [fst snd] in *.
  assert (length fs1 = length fs + length (appendedPages pList flags))%nat as Hl1
    by (rewrite <- length_pgs, W8, length_app, length_pgs; done).
  pose proof (length_appendedPages pList flags) as Hla.
  assert (n0 <= off (Z.of_nat (length fs1) + 1))%nat as Hoff1
    by (pose proof (off_mono szPg Hsz (Z.of_nat (length fs) + 1) (Z.of_nat (length fs1) + 1)); lia).
  apply wp_io_bind. eapply wp_io_mono.
  { apply (wp_padAndSync sectorSize nTruncate sync_flags isCommit pLast fs1 w2 io2); try done.
    intros p ->. destruct W11 as [Hin|]; [|done]. by eapply Forall_forall. }
  intros [nExtra rc] [w3 io3] (Q1 & Q2 & [Q3 Q3'] & Q4 & Q5). cbn [fst snd] in *.
  set (fs2 := fs1 ++ padding pLast nTruncate nExtra) in *.
  destruct (padded fs1 pLast nTruncate nExtra isCommit Q4) as (D1 & D2 & D3).
  { intros E. destruct (last pList) as [p|] eqn:El; [|by apply last_None in El].
    exists p. by apply W12. }
  fold fs2 in D1, D2, D3.
  apply wp_io_bind. eapply wp_io_mono.
  { apply (wp_limitOnCommit (Z.of_nat (length fs1)) nExtra isCommit fs2 w3 io3); try done; [|lia].
    pose proof (off_mono szPg Hsz (Z.of_nat (length fs1) + 1) (Z.of_nat (length fs2) + 1)). lia. }
  intros [] [w4 io4] (L1 & L2 & L3). cbn [fst snd] in *.
  assert (iReCksum w4 = iReCksum w2 /\ szPage w4 = szPg /\ aHdr w4 = aHdr w /\ conn_same w w4) as (E1 & E2 & E3 & E4).
  { rewrite L3. unfold conn_same. cbn [iReCksum szPage aHdr ckptInfo readLock nCkpt set_truncateOnCommit]. split; [done|].
    rewrite Q3. cbn [szPage aHdr ckptInfo readLock nCkpt set_iReCksum setFrameCksum set_hdr]. by rewrite R3, W4. }
  assert (writer walIndexPage w4 (pgs fs)) as Hwr4.
  { apply (writer_same _ _ _ _ W4), (writer_same _ _ _ _ R3), (writer_same _ _ _ _ Q3) in Hwr.
    rewrite L3. destruct Hwr. by split. }
  destruct (negb _); [done|]. apply wp_io_bind, wp_get.
  eapply wp_io_mono; [apply (wp_finish walIndexPage iFirst nTruncate isCommit walRestarted pList fs fs2 _ w w4 io4);
    try done|intros ? ? ?; by exists fs2].
  - unfold re_kept. by rewrite E1.
  - unfold fs2. by rewrite pgs_app, W8, pgs_padding, <- app_assoc.
  - rewrite D2. lia.
  - intros q. rewrite D1. apply W9.
  - intros m Hm Hle. unfold fs2. rewrite take_app_le by lia. by apply W10.
  - intros E. rewrite E1. auto.
Qed.

End Logged.

(** ** Recovery of what was written *)

Lemma bytesAt_take b n o m : (o + m <= n)%nat -> bytesAt (take n b) o m = bytesAt b o m.
Proof. intros H. unfold bytesAt. rewrite skipn_firstn_comm, take_take. f_equal. lia. Qed.

Lemma parseHeader_prefix b b' :
  take 32 b' = take 32 b -> (32 < length b)%nat -> (32 < length b')%nat -> parseHeader b' = parseHeader b.
Proof.
  intros H Hl Hl'. unfold parseHeader.
  assert (forall o n, (o + n <= 32)%nat -> bytesAt b' o n = bytesAt b o n) as Heq
    by (intros; by apply (bytesAt_prefix _ _ 32)).
  rewrite !Heq by lia. unfold WAL_HDRSIZE.
  destruct (Z.leb_spec (Z.of_nat (length b)) 32), (Z.leb_spec (Z.of_nat (length b')) 32); done || lia.
Qed.

Lemma parseHeader_facts b szPg c0 :
  Forall is_byte b -> parseHeader b = Some (szPg, c0) ->
  512 <= szPg /\ chain_ok c0 /\ (32 < length b)%nat
  /\ bytesAt (take 32 b) 24 8 = sqlite3Put4byte (c_cksum c0).1 ++ sqlite3Put4byte (c_cksum c0).2.
Proof.
  intros Hb. unfold parseHeader, WAL_HDRSIZE.
  destruct (Z.leb_spec (Z.of_nat (length b)) 32); [done|].
  destruct (_ || _ || _ || _) eqn:Ebad; [done|].
  set (s := cksum _ _ _).
  destruct (negb (s.1 =? sqlite3Get4byte (bytesAt b 24 4)) || _) eqn:Eck; [done|]. intros [= <- <-].
  rewrite !orb_false_iff in Ebad. destruct Ebad as [_ Esz].
  apply orb_false_iff in Eck as [E1%negb_false_iff%Z.eqb_eq E2%negb_false_iff%Z.eqb_eq].
  assert (pair_u32 s) as Hs by (by apply cksum_u32).
  split; [lia|]. split; [|split; [lia|]].
  - split; [by apply length_bytesAt; lia|]. split; [by apply bytesAt_Forall|done].
  - cbn [c_cksum]. rewrite bytesAt_take by lia. rewrite E1, E2.
    rewrite !Put4byte_Get4byte by (by apply bytesAt_Forall || by apply length_bytesAt; lia).
    apply (bytesAt_split b 24 4 4). lia.
Qed.

(** Frames written and valid are recovered first. *)
Lemma fileFrames_valid b szPg c0 fs :
  Forall is_byte b -> parseHeader b = Some (szPg, c0) -> contents szPg b fs ->
  valid szPg b c0 fs (length fs) -> (frameOff szPg (Z.of_nat (length fs) + 1) <= length b)%nat ->
  exists rest, fileFrames b = decoded c0 fs ++ rest.
Proof.
  intros Hb Hp Hc Hv Hlen. unfold fileFrames. rewrite Hp.
  destruct (parseHeader_facts b szPg c0 Hb Hp) as (Hsz & Hc0 & Hl & _).
  set (n := Z.to_nat _).
  assert (length fs <= n)%nat as Hn.
  { assert (Z.of_nat (length fs) <= (Z.of_nat (length b) - WAL_HDRSIZE) / (szPg + WAL_FRAME_HDRSIZE)); [|lia].
    apply Z.div_le_lower_bound; unfold frameOff, walFrameOffset, WAL_HDRSIZE, WAL_FRAME_HDRSIZE in *; nia. }
  replace n with (length fs + (n - length fs))%nat by lia.
  rewrite (scan_valid szPg b c0 [] fs) by done. by eexists.
Qed.

Lemma pgnos_decoded c fs : pgnos (decoded c fs) = pgs fs.
Proof.
  revert c. induction fs as [|[[p t] D] fs IH]; intros c; [done|].
  cbn [decoded pgs pgnos fmap list_fmap]. f_equal. apply IH.
Qed.

Lemma decoded_app c fs fs' : decoded c (fs ++ fs') = decoded c fs ++ decoded (chainFs c fs) fs'.
Proof.
  revert c. induction fs as [|[[p t] D] fs IH]; intros c; [done|]. cbn [decoded app chainFs].
  f_equal. apply IH.
Qed.

Lemma length_decoded c fs : length (decoded c fs) = length fs.
Proof. rewrite <- (length_pgs fs), <- (pgnos_decoded c fs). unfold pgnos. by rewrite length_fmap. Qed.

Lemma lastCommit_ge f l acc : acc.1.1 <= f -> acc.1.1 <= (lastCommit f l acc).1.1.
Proof.
  revert f acc. induction l as [|[[p t] s] l IH]; intros f acc Hf; cbn [lastCommit]; [lia|].
  destruct (t =? 0); [apply IH; lia|]. etrans; [|apply IH]; simpl; lia.
Qed.

(** A log that ends with a commit frame. *)
Lemma lastCommit_decoded c fs t rest :
  (exists p D, last fs = Some (p, t, D)) -> t <> 0 ->
  let m := lastCommit 1 (decoded c fs ++ rest) (0, 0, (0, 0)) in
  Z.of_nat (length fs) <= m.1.1 /\ (rest = [] -> m.1.1 = Z.of_nat (length fs) /\ m.1.2 = t).
Proof.
  intros (p & D & [fs0 ->]%last_Some) Ht m. unfold m. rewrite decoded_app. cbn [decoded].
  rewrite !lastCommit_app. cbn [lastCommit]. destruct (Z.eqb_spec t 0); [done|].
  rewrite !length_app, !length_decoded. cbn [length].
  split; [|intros ->; cbn [lastCommit fst snd]; split; [lia|done]].
  etrans; [|apply lastCommit_ge]; cbn [fst snd]; lia.
Qed.

(** The frame found for a page holds the data last written to it. *)
Lemma readPage_find szPg b fs q D :
  contents szPg b fs -> readPage fs q = Some D ->
  let f := lookBack (pgs fs) q 1 (length fs) in
  1 <= f <= Z.of_nat (length fs) /\ bytesAt b (frameOff szPg f + 24) (Z.to_nat szPg) = D.
Proof.
  intros Hc. induction fs as [|[[p t] D'] fs IH] using rev_ind; [done|].
  rewrite readPage_app. cbn [fst snd]. intros Hq. rewrite length_app, pgs_app, Nat.add_1_r.
  cbn [lookBack]. destruct (Z.ltb_spec (Z.of_nat (S (length fs))) 1); [lia|].
  replace (nthZ (pgs fs ++ pgs [(p, t, D')]) (Z.of_nat (length fs))) with p
    by (rewrite <- length_pgs; symmetry; apply nthZ_app_length).
  destruct (Z.eqb_spec p q) as [->|Hne].
  - injection Hq as <-. split; [lia|].
    destruct (Hc (length fs) (q, t, D')) as [[_ H2] _]; [by rewrite lookup_app_r, Nat.sub_diag by done|].
    cbn [fst snd] in H2. by replace (Z.of_nat (S (length fs))) with (Z.of_nat (length fs) + 1) by lia.
  - rewrite (lookBack_prefix _ (pgs fs)) by (rewrite take_app_le, take_ge by (rewrite length_pgs; lia); done).
    destruct IH as [H1 H2]; [|done|split; [lia|exact H2]].
    intros k fr Hk. apply Hc. rewrite lookup_app_l; [done|]. by eapply lookup_lt_Some.
Qed.
