(* ===== verification/WalCrash.v ===== *)
(** * src/libsql-sqlite3/src/wal.c: crashes and recovery

    [walFrames] followed, on any host and at any later time, by
    [walIndexRecover].  A fault of the VFS ends the call with the file in the
    state a crash at that point would leave, so a statement about every outcome
    of a call is also one about crashes during it.

    [walFrames] continues the log, or starts it again when [walRestartLog] could
    do so; both are covered. *)

From stdpp Require Import base list numbers option gmap.
From S2P Require Import Prelude Util Varint Wal WalIndex WalFormat WalShare WalLog WalRestart WalRecover WalFrames WalDurable.
#[local] Open Scope Z_scope.

(** The state between two calls of [walFrames]: the frames [fs] are in the log,
    those up to the [mxFrame] of the shared header are committed.  The first
    frame that was written twice, [iReCksum], is one of them
    ([sqlite3WalSavepointUndo] can violate this, see WalLost); there is none in
    a transaction that has not written. *)
Record transaction (walIndexPage : Z -> Z) (szPg : Z) (c0 : chain) (w : Wal) (b : list Z)
    (fs : list frame) : Prop := {
  tx_session : session szPg c0 (take 32 b) walIndexPage w b fs;
  tx_header : parseHeader b = Some (szPg, c0);
  tx_version : sqlite3Get4byte (bytesAt b 4 4) = WAL_MAX_VERSION;
  tx_live : 0 <= mxFrame (aHdr w).1 <= Z.of_nat (length fs);
  tx_re : iReCksum w = 0 \/ mxFrame (aHdr w).1 < iReCksum w;
  tx_start : readLock w = 0 -> iReCksum w = 0;
  tx_info : info_ok (ckptInfo w)
}.

Definition committedFrames (w : Wal) (fs : list frame) : list frame :=
  take (Z.to_nat (mxFrame (aHdr w).1)) fs.

(** A page list that [walFrames] accepts. *)
Definition dirty_ok (szPg : Z) (pList : list PgHdr) : Prop :=
  pList <> [] /\ Forall (page_wf szPg) pList /\ NoDup (pgno <$> pList).

(** The reader that takes read lock 1 after a recovery. *)
Definition readerOf (r : Wal) : Wal := set_minFrame (set_readLock r 1) 1.

(** What a recovery of file [b] gives: the frames [fs] come first, the last
    commit is not before them, and for every page the newest of them is found
    and holds the data. *)
Definition recovers (walIndexPage : Z -> Z) (szPg : Z) (b : list Z) (fs : list frame) : Prop :=
  forall be aPrivate r, length (aReadMark (ckptInfo r)) = 5%nat -> Z.of_nat (length b) < 2 ^ 40 ->
  exists r', walIndexRecover be walIndexPage aPrivate (fun _ => SQLITE_OK) true r (mkIo b [])
             = (SQLITE_OK, r', mkIo b [])
    /\ Z.of_nat (length fs) <= mxFrame (hdr r')
    /\ (length (fileFrames b) = length fs ->
        mxFrame (hdr r') = Z.of_nat (length fs) /\ Some (nPage (hdr r')) = (fun fr : frame => fr.1.2) <$> last fs)
    /\ forall q D, readPage fs q = Some D ->
       exists f, walFindFrame walIndexPage (readerOf r') q (Z.of_nat (length fs)) = Ok f
         /\ bytesAt b (frameOff szPg f + 24) (Z.to_nat szPg) = D.

(** ** The WAL header *)

Definition pagesize_ok (szPg : Z) : Prop := Z.land szPg (szPg - 1) = 0 /\ 512 <= szPg <= SQLITE_MAX_PAGE_SIZE.

(** The chain that a header written on host [be] starts. *)
Definition headerChain (be : bool) (szPg nCkpt : Z) (salt : list Z) : chain :=
  mkChain be salt (walHeader be szPg nCkpt salt).2.

Section Header.
Context (be : bool) (szPg nCkpt : Z) (salt : list Z).
Hypothesis Hpage : pagesize_ok szPg.
Hypothesis Hsalt : length salt = 8%nat.
Hypothesis Hsaltb : Forall is_byte salt.

Local Abbreviation h := (walHeader be szPg nCkpt salt).1.

Lemma walHeader_bytes : length h = 32%nat /\ Forall is_byte h.
Proof using Hsalt Hsaltb.
  unfold walHeader. cbn [fst]. split.
  - by rewrite !length_app, !length_Put4byte, Hsalt.
  - repeat apply Forall_app_2; auto using Put4byte_bytes.
Qed.

Lemma walHeader_cksum :
  (walHeader be szPg nCkpt salt).2 = cksum be (bytesAt h 0 24) (0, 0)
  /\ bytesAt h 24 8 = sqlite3Put4byte (walHeader be szPg nCkpt salt).2.1
                      ++ sqlite3Put4byte (walHeader be szPg nCkpt salt).2.2.
Proof using Hsalt Hsaltb.
  unfold walHeader. cbn [fst snd]. set (a := _ ++ _).
  assert (length a = 24%nat) as Hl by (unfold a; by rewrite !length_app, !length_Put4byte, Hsalt).
  assert (Forall is_byte a) as Hb.
  { unfold a. repeat apply Forall_app_2; auto using Put4byte_bytes. }
  rewrite <- (walChecksumBytes_ok be be), eqb_reflx by (by apply bytesAt_Forall, Forall_app_2; [|apply put_pair_bytes]).
  rewrite bytesAt_app_l by done. split; [done|]. rewrite bytesAt_app_r by lia.
  rewrite Hl, Nat.sub_diag. unfold bytesAt. rewrite drop_0, take_ge by done. done.
Qed.

Lemma headerChain_ok : chain_ok (headerChain be szPg nCkpt salt).
Proof using Hsalt Hsaltb.
  split; [done|]. split; [done|]. cbn [headerChain c_cksum]. rewrite (proj1 walHeader_cksum).
  by apply cksum_u32.
Qed.

(** Recovery reads back what was written. *)
Lemma parseHeader_walHeader b :
  take 32 b = h -> (32 < length b)%nat ->
  parseHeader b = Some (szPg, headerChain be szPg nCkpt salt)
  /\ sqlite3Get4byte (bytesAt b 4 4) = WAL_MAX_VERSION.
Proof using Hpage Hsalt Hsaltb.
  intros H32 Hl. destruct Hpage as [Hpow Hrange]. unfold SQLITE_MAX_PAGE_SIZE in Hrange.
  assert (forall o n, (o + n <= 32)%nat -> bytesAt b o n = bytesAt h o n) as Heq.
  { intros o n Ho. by rewrite <- H32, bytesAt_take. }
  destruct walHeader_cksum as [Hck Htail]. pose proof headerChain_ok as (_ & _ & Hu).
  cbn [headerChain c_cksum] in Hu.
  assert (bytesAt h 24 4 = sqlite3Put4byte (walHeader be szPg nCkpt salt).2.1
    /\ bytesAt h 28 4 = sqlite3Put4byte (walHeader be szPg nCkpt salt).2.2) as [H24 H28].
  { split; [rewrite <- (take_bytesAt _ _ 8 4) by lia|
      replace (bytesAt h 28 4) with (drop 4 (bytesAt h 24 8)) by apply drop_bytesAt]; by rewrite Htail. }
  assert (bytesAt h 0 4 = sqlite3Put4byte (Z.lor WAL_MAGIC (bigendian be))
    /\ bytesAt h 4 4 = sqlite3Put4byte WAL_MAX_VERSION /\ bytesAt h 8 4 = sqlite3Put4byte szPg
    /\ bytesAt h 16 8 = salt) as (H0 & H4 & H8 & H16).
  { unfold walHeader. cbn [fst]. rewrite <- !app_assoc. split; [done|]. split; [done|]. split; [done|].
    do 4 (rewrite bytesAt_app_r by (rewrite !length_Put4byte; lia)). rewrite !length_Put4byte.
    by apply bytesAt_app_l. }
  rewrite !Heq by lia. split; [|rewrite H4; done].
  unfold parseHeader, WAL_HDRSIZE. destruct (Z.leb_spec (Z.of_nat (length b)) 32); [lia|].
  rewrite !Heq by lia. rewrite H0, H8, H24, H28, H16. destruct Hu as [Hu1 Hu2].
  rewrite !Get4byte_Put4byte_exact by (done || (unfold is_u32; lia) || (destruct be; split; done)).
  replace (Z.land (Z.lor WAL_MAGIC (bigendian be)) 0xFFFFFFFE =? WAL_MAGIC) with true by by destruct be.
  replace (Z.odd (Z.lor WAL_MAGIC (bigendian be))) with be by by destruct be.
  rewrite Hpow. cbn [negb Z.eqb orb].
  destruct (Z.gtb_spec szPg SQLITE_MAX_PAGE_SIZE) as [?|_]; [unfold SQLITE_MAX_PAGE_SIZE in *; lia|].
  destruct (Z.ltb_spec szPg 512); [lia|]. cbn [orb].
  rewrite <- Hck, !Z.eqb_refl. done.
Qed.

End Header.

Section Crash.
Context (walIndexPage : Z -> Z) (szPg : Z) (c0 : chain).
Hypothesis Hmap : forall i, 0 <= i -> walIndexPage i = SQLITE_OK.

Lemma native_foreign b h : parseHeader b = Some h -> sqlite3Get4byte (bytesAt b 4 4) = WAL_MAX_VERSION -> foreign b = false.
Proof. intros Hp Hv. unfold foreign. by rewrite Hp, Hv. Qed.

Lemma recovers_valid b fs t :
  Forall is_byte b -> parseHeader b = Some (szPg, c0) ->
  sqlite3Get4byte (bytesAt b 4 4) = WAL_MAX_VERSION -> contents szPg b fs ->
  valid szPg b c0 fs (length fs) -> (frameOff szPg (Z.of_nat (length fs) + 1) <= length b)%nat ->
  (exists p D, last fs = Some (p, t, D)) -> t <> 0 ->
  recovers walIndexPage szPg b fs.
Proof using Hmap.
  intros Hb Hp Hver Hc Hv Hlen Hlast Ht be aPrivate r Hmarks Hlb.
  destruct (fileFrames_valid b szPg c0 fs Hb Hp Hc Hv Hlen) as [rest Hff].
  destruct (walIndexRecover_ok be walIndexPage aPrivate b r Hb Hlb Hmarks Hmap (native_foreign b _ Hp Hver))
    as (r' & Hrec & Hidx & [P1 P2 _ _ _ _ _ _]).
  destruct (lastCommit_decoded c0 fs t rest Hlast Ht) as [Hge Heq]. rewrite <- Hff in Hge, Heq.
  exists r'. split; [done|]. split; [lia|]. split.
  - intros Hl. rewrite Hff, length_app, length_decoded in Hl.
    destruct Heq as [E1 E2]; [apply nil_length_inv; lia|]. destruct Hlast as (p & D & ->).
    split; [lia|]. cbn. congruence.
  - intros q D Hq. destruct (readPage_find szPg b fs q D Hc Hq) as [Hf HD].
    exists (lookBack (pgs fs) q 1 (length fs)). split; [|done].
    rewrite Hff in Hidx. unfold pgnos in Hidx. rewrite fmap_app in Hidx.
    fold (pgnos (decoded c0 fs)) in Hidx. rewrite pgnos_decoded in Hidx.
    erewrite (walFindFrame_ok walIndexPage (readerOf r') _ q (Z.of_nat (length fs)));
      [|exact Hidx|rewrite length_app, length_pgs; lia|done|by left|intros; apply Hmap; lia].
    rewrite Nat2Z.id. f_equal. apply lookBack_prefix.
    rewrite take_app_le, !take_ge by (rewrite length_pgs; lia). done.
Qed.

(** A session whose checksums need no repair is valid in the file. *)
Lemma session_recovers w b fs t :
  session szPg c0 (take 32 b) walIndexPage w b fs -> parseHeader b = Some (szPg, c0) ->
  sqlite3Get4byte (bytesAt b 4 4) = WAL_MAX_VERSION -> iReCksum w = 0 ->
  (exists p D, last fs = Some (p, t, D)) -> t <> 0 -> recovers walIndexPage szPg b fs.
Proof using Hmap.
  intros [_ Hlg _] Hp Hver Hre Hlast Ht.
  pose proof Hlg as [H1 H2 H3 _ H5 _ _ _ _]. unfold validUpTo in H5. rewrite Hre in H5.
  by apply (recovers_valid b fs t).
Qed.

(** The bytes before the first uncommitted frame. *)
Definition committedEnd (w : Wal) : nat := frameOff szPg (mxFrame (aHdr w).1 + 1).

Lemma header_kept w b b' fs :
  transaction walIndexPage szPg c0 w b fs -> take (committedEnd w) b' = take (committedEnd w) b ->
  (32 < length b')%nat ->
  take 32 b' = take 32 b /\ parseHeader b' = Some (szPg, c0)
  /\ sqlite3Get4byte (bytesAt b' 4 4) = WAL_MAX_VERSION.
Proof using.
  intros [Hs Hph Hver Hlive Hre _ _] Heq Hlen. pose proof Hs as [_ Hlg _].
  destruct (parseHeader_facts _ _ _ (lg_bytes _ _ _ _ _ _ Hlg) Hph) as (Hsz & Hc0 & Hl & _).
  assert (take 32 b' = take 32 b) as H32
    by (eapply take_eq_le; [exact Heq|]; unfold committedEnd; apply off_ge; lia).
  split; [done|]. split.
  - rewrite <- Hph. apply parseHeader_prefix; [done|done|lia].
  - rewrite <- Hver. f_equal. apply (bytesAt_prefix _ _ 32); [done|lia].
Qed.

(** The state after a call that succeeds. *)
Lemma framed_transaction w io fs iFirst nTruncate isCommit pList s fs' :
  transaction walIndexPage szPg c0 w (bytes io) fs -> fs <> [] -> readLock w <> 0 ->
  framed szPg c0 (take 32 (bytes io)) (committedEnd w) (bytes io)
    walIndexPage iFirst nTruncate isCommit pList w fs s fs' ->
  transaction walIndexPage szPg c0 s.1 (bytes s.2) fs'
  /\ take (committedEnd w) (bytes s.2) = take (committedEnd w) (bytes io).
Proof using.
  intros Htx Hne Hlock [F1 (F2 & F2' & _) F3 F4 F5 F6 F7 F8 (F9 & F10 & _)]. pose proof F1 as [_ Hlg _].
  pose proof Htx as [Hs Hph _ Hlive Hre _ Hinfo]. pose proof Hs as [_ Hlg0 _].
  destruct (parseHeader_facts _ _ _ (lg_bytes _ _ _ _ _ _ Hlg0) Hph) as (Hsz & Hc0 & _ & _).
  destruct (header_kept w (bytes io) (bytes s.2) fs Htx F2) as (H32 & Hp & Hv).
  { pose proof (off_le szPg Hsz 1 (Z.of_nat (length fs') + 1) ltac:(lia)) as Ho.
    assert (length fs <> 0)%nat by by destruct fs.
    pose proof (lg_len _ _ _ _ _ _ Hlg). rewrite off_1 in Ho. lia. }
  split; [|done]. split; try done; [by rewrite H32| | |by rewrite F10|by rewrite F9].
  - destruct isCommit; [|rewrite F8 by done; lia]. destruct (F7 eq_refl) as (_ & -> & _).
    destruct F1 as [[_ Hmx _ _] _ _]. rewrite length_pgs in Hmx. cbn [fst]. lia.
  - destruct isCommit; [left; by apply F7|]. rewrite F8 by done. destruct F3 as [|F3]; [by left|].
    pose proof (lg_re _ _ _ _ _ _ Hlg) as Hr. destruct (decide (iReCksum s.1 = 0)) as [|Hnz]; [by left|right].
    destruct (Z.lt_ge_cases (mxFrame (aHdr w).1) (iReCksum s.1)) as [|Hle]; [done|].
    pose proof (off_le szPg Hsz (iReCksum s.1) (mxFrame (aHdr w).1 + 1) ltac:(lia) ltac:(lia)).
    unfold committedEnd in F3. lia.
Qed.

(** The committed frames depend on the committed bytes. *)
Lemma committed_valid w b b' fs :
  transaction walIndexPage szPg c0 w b fs -> take (committedEnd w) b' = take (committedEnd w) b ->
  contents szPg b' (committedFrames w fs)
  /\ valid szPg b' c0 (committedFrames w fs) (length (committedFrames w fs))
  /\ committedEnd w = frameOff szPg (Z.of_nat (length (committedFrames w fs)) + 1).
Proof using.
  intros [Hs Hph _ Hlive Hre _ _] Heq. pose proof Hs as [_ Hlg _].
  destruct (parseHeader_facts _ _ _ (lg_bytes _ _ _ _ _ _ Hlg) Hph) as (Hsz & _).
  unfold committedFrames. set (n := Z.to_nat (mxFrame (aHdr w).1)) in *.
  assert (length (take n fs) = n) as Hn by (rewrite length_take; lia).
  assert (committedEnd w = frameOff szPg (Z.of_nat n + 1)) as He by (unfold committedEnd; f_equal; lia).
  rewrite Hn, He in *. split; [|split; [|done]].
  - intros k fr Hk. pose proof (lookup_lt_Some _ _ _ Hk) as Hlt. rewrite lookup_take_lt in Hk by lia.
    destruct (lg_contents _ _ _ _ _ _ Hlg k fr Hk) as [[H1 H2] H3]. split; [|done].
    pose proof (off_le szPg Hsz (Z.of_nat k + 1) (Z.of_nat n + 1) ltac:(lia) ltac:(lia)).
    split; [rewrite <- H1|rewrite <- H2]; eapply bytesAt_prefix; try exact Heq; lia.
  - eapply (valid_prefix szPg Hsz b); [|by rewrite take_take, Nat.min_id|exact Heq].
    eapply valid_le; [|apply Hlg]. unfold validUpTo. destruct (Z.eqb_spec (iReCksum w) 0); lia.
Qed.

(** Recovery after anything that keeps the committed bytes. *)
Lemma crash_kept w w' io io' fs t :
  transaction walIndexPage szPg c0 w (bytes io) fs -> (exists p D, last (committedFrames w fs) = Some (p, t, D)) -> t <> 0 ->
  bytes io' = bytes io \/ kept (committedEnd w) (bytes io) (w', io') ->
  take (committedEnd w) (bytes io') = take (committedEnd w) (bytes io)
  /\ recovers walIndexPage szPg (bytes io') (committedFrames w fs).
Proof using Hmap.
  intros Htx Hlast Hnz HK. pose proof Htx as [Hs Hph _ Hlive _ _ _]. pose proof Hs as [_ Hlg _].
  destruct (parseHeader_facts _ _ _ (lg_bytes _ _ _ _ _ _ Hlg) Hph) as (Hsz & _).
  assert (kept (committedEnd w) (bytes io) (w', io')) as (K1 & K2 & K3).
  { destruct HK as [E|HK]; [|done]. split; cbn [snd]; rewrite E; [done|]. split; [|apply Hlg].
    pose proof (lg_len _ _ _ _ _ _ Hlg). unfold committedEnd.
    pose proof (off_mono szPg Hsz (mxFrame (aHdr w).1 + 1) (Z.of_nat (length fs) + 1)). lia. }
  cbn [snd] in *. split; [done|].
  destruct (committed_valid w (bytes io) (bytes io') fs Htx K1) as (Hc & Hv & He). rewrite He in K2.
  destruct (header_kept w (bytes io) (bytes io') fs Htx K1) as (_ & Hp' & Hver').
  { assert (length (committedFrames w fs) <> 0)%nat by (destruct Hlast as (? & ? & Hl); by destruct (committedFrames w fs)).
    pose proof (off_le szPg Hsz 1 (Z.of_nat (length (committedFrames w fs)) + 1) ltac:(lia) ltac:(lia)) as Ho.
    rewrite off_1 in Ho. lia. }
  by apply (recovers_valid (bytes io') (committedFrames w fs) t).
Qed.

End Crash.

Lemma parseHeader_pagesize b szPg c : parseHeader b = Some (szPg, c) -> pagesize_ok szPg.
Proof.
  unfold parseHeader, pagesize_ok. destruct (_ <=? _); [done|]. destruct (_ || _ || _ || _) eqn:E; [done|].
  match goal with |- (if ?x then _ else _) = _ -> _ => destruct x; [done|] end. intros [= <- _]. rewrite !orb_false_iff in E. destruct E as [[[_ H1] H2] H3].
  apply negb_false_iff, Z.eqb_eq in H1. rewrite Z.gtb_ltb in H2. apply Z.ltb_ge in H2, H3. done.
Qed.

(** ** One call *)

Section Frames.
Context (walIndexPage : Z -> Z) (szPg : Z).
Hypothesis Hmap : forall i, 0 <= i -> walIndexPage i = SQLITE_OK.
Context (be : bool) (others : nat -> WalCkptInfo -> WalCkptInfo) (answer : nat -> forall B, event B -> B).
Context (randomSalt : list Z) (sectorSize : Z) (mallocOk : bool).
Hypothesis Hothers : forall k i, info_ok i -> info_ok (others k i).
Hypothesis Hrandom : forall k, salt_ok (answer k _ Randomness).

Definition salt8 (l : list Z) : Prop := length l = 8%nat /\ Forall is_byte l.
Hypothesis Hsalt : salt8 randomSalt.

Local Abbreviation walFrames := (walFrames be walIndexPage others answer randomSalt sectorSize mallocOk).

Definition room (fs : list frame) (pList : list PgHdr) : Prop :=
  Z.of_nat (length fs) + Z.of_nat (length pList) + Z.max 0 sectorSize < max_frame.

(** [walFrames] after [walRestartLog]. *)
Definition afterRestart (pList : list PgHdr) (nTruncate : Z) (isCommit : bool) (sync_flags iFirst : Z)
    (walRestarted : bool) : M Z :=
  w ← get;
  let iFrame := mxFrame (hdr w) in
  _ ← writeHeader be randomSalt szPg sync_flags;
  w ← get;
  if negb (szPage w =? szPg) then fail SQLITE_CORRUPT
  else writeFrames be walIndexPage sectorSize mallocOk szPg pList nTruncate isCommit sync_flags iFirst iFrame walRestarted.

Definition firstFrame (w : Wal) : Z :=
  if bool_decide (hdr w = (aHdr w).1) then 0 else u32 (mxFrame (aHdr w).1 + 1).

Lemma walFrames_split w io pList nTruncate isCommit sync_flags :
  walFrames szPg pList nTruncate isCommit sync_flags (w, io)
  = match walRestartLog be others answer (w, io) with
    | (Ok r, s) => afterRestart pList nTruncate isCommit sync_flags (firstFrame w) r s
    | (Err rc, s) => (Err rc, s)
    end.
Proof. reflexivity. Qed.

Lemma firstFrame_range w n :
  0 <= mxFrame (aHdr w).1 <= Z.of_nat n -> Z.of_nat n < max_frame ->
  firstFrame w = 0 \/ firstFrame w = mxFrame (aHdr w).1 + 1.
Proof. unfold firstFrame, max_frame. intros. case_bool_decide; [by left|right]. apply u32_small. lia. Qed.

(** *** The log goes on *)

Lemma wp_continue c0 w io fs pList nTruncate isCommit sync_flags r :
  transaction walIndexPage szPg c0 w (bytes io) fs -> fs <> [] -> dirty_ok szPg pList ->
  is_u32 nTruncate -> room fs pList ->
  wp (committedEnd szPg w) (bytes io) (afterRestart pList nTruncate isCommit sync_flags (firstFrame w) r)
    (fun _ s => exists fs',
       framed szPg c0 (take 32 (bytes io)) (committedEnd szPg w) (bytes io)
         walIndexPage (firstFrame w) nTruncate isCommit pList w fs s fs') (w, io).
Proof using.
  intros [Hs Hph _ Hlive Hre _ _] Hne (Hpl & Hwf & Hnd) Ht Hroom.
  pose proof Hs as [Hwr Hlg Hszw]. pose proof Hwr as [_ Hmx _ _].
  destruct (parseHeader_facts _ _ _ (lg_bytes _ _ _ _ _ _ Hlg) Hph) as (Hsz & Hc0 & Hl & Hhdr).
  rewrite length_pgs in Hmx. assert (length fs <> 0)%nat as Hnil by by destruct fs.
  unfold afterRestart, writeHeader. apply wp_io_bind, wp_get, wp_io_bind, wp_io_bind, wp_get.
  destruct (Z.eqb_spec (mxFrame (hdr w)) 0) as [E|_]; [lia|]. apply wp_io_ret, wp_io_bind, wp_get.
  rewrite Hszw, Z.eqb_refl. cbn [negb]. unfold room in Hroom.
  pose proof (firstFrame_range w (length fs) Hlive ltac:(lia)) as Hfirst.
  assert (committedEnd szPg w <= frameOff szPg (Z.of_nat (length fs) + 1))%nat as Hoff
    by (unfold committedEnd; apply off_mono; lia).
  pose proof (lg_len _ _ _ _ _ _ Hlg) as Hlen.
  apply (wp_writeFrames be szPg c0 (take 32 (bytes io)) (committedEnd szPg w) (bytes io) Hsz Hc0
    Hhdr walIndexPage sectorSize mallocOk (firstFrame w) nTruncate isCommit pList sync_flags r fs w io); try done.
  - split; [done|]. split; [cbn [snd]; lia|apply Hlg].
  - unfold re_kept, committedEnd. destruct Hre as [|Hre]; [by left|right]. apply off_mono; lia.
  - destruct Hfirst as [|Hf]; [by left|right]. rewrite Hf. unfold committedEnd. split; [lia|done].
Qed.

(** Another read mark does not change what the connection knows of the log. *)
Lemma session_rejoined c0 h b fs w w' :
  session szPg c0 h walIndexPage w b fs -> rejoined w w' -> session szPg c0 h walIndexPage w' b fs.
Proof.
  intros [[H1 H2 H3 H4] H5 H6] (m & i & Hm & Hi & ->). split; [by split|by eapply logged_hdr|done].
Qed.

Lemma session_reshared c0 h b fs w w' :
  session szPg c0 h walIndexPage w b fs -> reshared w w' -> session szPg c0 h walIndexPage w' b fs.
Proof. intros [[H1 H2 H3 H4] H5 H6] (x & i & ->). split; [by split|by eapply logged_hdr|done]. Qed.

Lemma transaction_continues c0 w w' b fs :
  transaction walIndexPage szPg c0 w b fs -> info_ok (ckptInfo w') -> restart_result be w false w' ->
  transaction walIndexPage szPg c0 w' b fs /\ readLock w' <> 0 /\ hdr w' = hdr w /\ aHdr w' = aHdr w /\ nCkpt w' = nCkpt w.
Proof.
  intros [Hs Hp Hv Hl Hre Hst _] Hi Hr. inversion Hr as [w1 w2 H1 H2 H3|]. subst w2.
  assert (session szPg c0 (take 32 b) walIndexPage w1 b fs /\ readLock w1 <> 0 /\ hdr w1 = hdr w
    /\ nCkpt w1 = nCkpt w /\ iReCksum w1 = iReCksum w) as (S1 & L1 & E1 & E2 & E3).
  { destruct H1 as [[? ->]|[_ H1]]; [done|]. split; [by eapply session_rejoined|].
    destruct H1 as (m & i & _ & ? & ->). cbn. split_and!; [lia|done|done|done]. }
  assert (session szPg c0 (take 32 b) walIndexPage w' b fs) as S2 by by eapply session_reshared.
  assert (readLock w' = readLock w1 /\ hdr w' = hdr w1 /\ nCkpt w' = nCkpt w1 /\ iReCksum w' = iReCksum w1)
    as (-> & -> & -> & Er) by (by destruct H2 as (x & i & ->)).
  split; [|by rewrite E1, E2, H3]. split; rewrite ?H3, ?Er, ?E3; try done.
  intros E. by destruct L1; rewrite <- E; destruct H2 as (x & i & ->).
Qed.

(** *** The log starts *)

(** A connection about to write the first frame of an empty or restarted log. *)
Record fresh (w : Wal) (b : list Z) : Prop := {
  fh_mx : mxFrame (hdr w) = 0;
  fh_live : mxFrame (aHdr w).1 = 0;
  fh_re : iReCksum w = 0;
  fh_min : 0 <= minFrame w < max_frame;
  fh_bytes : Forall is_byte b;
  fh_salt : nCkpt w = 0 \/ salt8 (aSalt (hdr w));
  fh_info : info_ok (ckptInfo w)
}.

Definition newSalt (w : Wal) : list Z := if nCkpt w =? 0 then randomSalt else aSalt (hdr w).

Lemma newSalt_ok w b : fresh w b -> salt8 (newSalt w).
Proof using Hsalt. intros [_ _ _ _ _ H _]. unfold newSalt. destruct (Z.eqb_spec (nCkpt w) 0); [done|]. by destruct H. Qed.

Lemma fresh_session w b :
  fresh w b -> pagesize_ok szPg ->
  let h := walHeader be szPg (nCkpt w) (newSalt w) in
  let w1 := if nCkpt w =? 0 then set_hdr w (set_aSalt (hdr w) randomSalt) else w in
  let w2 := set_szPage w1 szPg in
  let w3 := set_hdr w2 (set_aFrameCksum (set_bigEndCksum (hdr w2) (bigendian be)) h.2) in
  session szPg (headerChain be szPg (nCkpt w) (newSalt w)) h.1 walIndexPage
    (set_truncateOnCommit w3 true) (file_write b 0 h.1) [].
Proof using Hmap Hsalt.
  intros Hf Hpage h w1 w2 w3. destruct (newSalt_ok w b Hf) as [H7 H8]. destruct Hf as [H1 H2 H3 H4 H6 _ _].
  destruct (walHeader_bytes be szPg (nCkpt w) (newSalt w) H7 H8) as [Hl Hb]. fold h in Hl, Hb.
  assert (aSalt (hdr w1) = newSalt w /\ mxFrame (hdr w1) = 0 /\ iReCksum w1 = 0 /\ minFrame w1 = minFrame w)
    as (E1 & E2 & E3 & E4).
  { unfold w1, newSalt. by destruct (nCkpt w =? 0). }
  split; [|split|done].
  - split; [apply index_ok_empty|exact E2|by rewrite <- E4 in H4|done].
  - by apply file_write_bytes.
  - change (Z.of_nat (length []) + 1) with 1. rewrite off_1, length_file_write, Hl. lia.
  - intros k fr Hk. by rewrite lookup_nil in Hk.
  - change (0 <= iReCksum w1 <= 0). lia.
  - intros k p t D _ Hk. by rewrite lookup_nil in Hk.
  - unfold file_write. rewrite take_0. cbn [app]. by rewrite take_app_le, take_ge by lia.
  - by destruct be.
  - exact E1.
  - done.
Qed.

Lemma kept_any s : Forall is_byte (bytes s.2) -> kept 0 [] s.
Proof. intros H. split; [done|]. split; [lia|done]. Qed.

Lemma wp_writeHeader w io sync_flags :
  fresh w (bytes io) -> pagesize_ok szPg ->
  wp 0 [] (writeHeader be randomSalt szPg sync_flags)
    (fun _ s => session szPg (headerChain be szPg (nCkpt w) (newSalt w))
        (walHeader be szPg (nCkpt w) (newSalt w)).1 walIndexPage s.1 (bytes s.2) []
        /\ conn_same w s.1 /\ aHdr s.1 = aHdr w) (w, io).
Proof using Hmap Hsalt.
  intros Hf Hpage. pose proof (fresh_session w (bytes io) Hf Hpage) as Hs. cbn zeta in Hs.
  destruct (newSalt_ok w _ Hf) as [Hs8 Hsb]. pose proof Hf as [H1 _ _ _ Hb _ _].
  destruct (walHeader_bytes be szPg (nCkpt w) (newSalt w) Hs8 Hsb) as [_ Hhb].
  unfold writeHeader. apply wp_io_bind, wp_get. rewrite H1. cbn [Z.eqb].
  apply wp_io_bind, wp_modify, wp_io_bind, wp_get. cbn beta.
  set (w1 := if nCkpt w =? 0 then _ else w) in *.
  assert (nCkpt w1 = nCkpt w /\ aSalt (hdr w1) = newSalt w /\ conn_same w w1 /\ aHdr w1 = aHdr w) as (-> & -> & Hc & Ha).
  { unfold w1, newSalt. by destruct (nCkpt w =? 0). }
  destruct (walHeader be szPg (nCkpt w) (newSalt w)) as [h ck] eqn:Eh. cbn [fst snd] in *.
  apply wp_io_bind, wp_modify, wp_io_bind, wp_write; [by apply kept_any|lia|done|].
  intros io1 Hb1. change (Z.to_nat 0) with 0%nat in Hb1. rewrite <- Hb1 in Hs.
  destruct (syncHeader w1).
  - apply wp_sync; [apply kept_any, Hs|]. intros io2 Hb2. cbn [fst snd]. rewrite Hb2. by split.
  - apply wp_io_ret. by split.
Qed.

Lemma wp_start w io pList nTruncate isCommit sync_flags iFirst r :
  fresh w (bytes io) -> pagesize_ok szPg -> dirty_ok szPg pList -> is_u32 nTruncate -> room [] pList ->
  iFirst = 0 \/ 1 <= iFirst ->
  wp 0 [] (afterRestart pList nTruncate isCommit sync_flags iFirst r)
    (fun _ s => exists w0 fs', conn_same w w0 /\ aHdr w0 = aHdr w /\
       framed szPg (headerChain be szPg (nCkpt w) (newSalt w))
         (walHeader be szPg (nCkpt w) (newSalt w)).1 0 [] walIndexPage iFirst nTruncate isCommit pList
         w0 [] s fs') (w, io).
Proof using Hmap Hsalt.
  intros Hf Hpage (Hpl & Hwf & Hnd) Ht Hroom Hfirst. destruct (newSalt_ok w _ Hf) as [Hs8 Hsb]. pose proof Hf as [H1 H2 _ _ _ _ _].
  unfold afterRestart. apply wp_io_bind, wp_get, wp_io_bind.
  eapply wp_io_mono; [by apply wp_writeHeader|]. intros [] [w1 io1] (Hs & Hc & Ha). cbn [fst snd] in Hs, Hc, Ha.
  apply wp_io_bind, wp_get. pose proof Hs as [Hwr Hlg ->]. rewrite Z.eqb_refl. cbn [negb].
  pose proof (wr_mx _ _ _ Hwr) as Hmx.
  replace (mxFrame (hdr w)) with (mxFrame (hdr w1)) by by rewrite H1, Hmx.
  destruct Hpage as [_ [Hsz _]].
  eapply wp_io_mono; [apply (wp_writeFrames be szPg _ _ 0 [] Hsz (headerChain_ok be szPg (nCkpt w) (newSalt w) Hs8 Hsb)
    (proj2 (walHeader_cksum be szPg (nCkpt w) (newSalt w) Hs8 Hsb)) walIndexPage sectorSize mallocOk
    iFirst nTruncate isCommit pList sync_flags r [] w1 io1); try done|].
  - apply kept_any, Hlg.
  - right. lia.
  - destruct Hfirst; [by left|right]. split; [done|lia].
  - lia.
  - intros x s [fs' Hfr]. by exists w1, fs'.
Qed.

(** A restart of the log, or none, leaves an empty log ready. *)
Lemma fresh_restarted w w' b :
  Forall is_byte b -> iReCksum w = 0 -> info_ok (ckptInfo w') -> restart_result be w true w' ->
  fresh w' b /\ readLock w' <> 0 /\ nCkpt w' = u32 (nCkpt w + 1).
Proof.
  intros Hb Hre Hi Hr. inversion Hr as [|salt1 w1 w2 H1 [Hs1 Hs2] H3 H4 H5]. subst w2.
  destruct H3 as (m & i & Hm & Hii & ->), H4 as (x & j & ->). split; [|cbn in *; split; [lia|done]].
  split; try done; [by rewrite H5|]. right. cbn [hdr]. split; [cbn; by rewrite Hs1|].
  apply Forall_app_2; [apply Put4byte_bytes|done].
Qed.

Lemma fresh_continues w w' b :
  fresh w b -> info_ok (ckptInfo w') -> restart_result be w false w' ->
  fresh w' b /\ readLock w' <> 0 /\ nCkpt w' = nCkpt w.
Proof.
  intros [F1 F2 F3 F4 F5 F6 _] Hi Hr. inversion Hr as [w1 w2 H1 H2 H3|]. subst w2.
  destruct H1 as [[? ->]|[_ (m & i & Hm & Hii & ->)]], H2 as (x & j & ->); cbn [aHdr set_ckptInfo set_aHdr] in H3; subst x.
  - by split.
  - split; [by split|]. cbn. split; [lia|done].
Qed.

(** *** The outcome of a call that succeeds *)

(** The frames [fs'] are in the log, for the content [view] overwritten by
    [pList]; a commit is published and can be recovered. *)
Record written (pList : list PgHdr) (nTruncate : Z) (isCommit : bool) (view : Z -> option (list Z))
    (w' : Wal) (b' : list Z) (c : chain) (fs' : list frame) : Prop := {
  wn_transaction : transaction walIndexPage szPg c w' b' fs';
  wn_frames : fs' <> [];
  wn_view : forall q, readPage fs' q = overwrite view pList q;
  wn_published : isCommit = true ->
    aHdr w' = (hdr w', hdr w') /\ mxFrame (hdr w') = Z.of_nat (length fs') /\ nPage (hdr w') = nTruncate
    /\ (exists p D, last fs' = Some (p, nTruncate, D));
  wn_recovers : isCommit = true -> nTruncate <> 0 -> recovers walIndexPage szPg b' fs'
}.

Lemma framed_published c h n0 b0 iFirst nTruncate pList w fs s fs' :
  framed szPg c h n0 b0 walIndexPage iFirst nTruncate true pList w fs s fs' ->
  aHdr s.1 = (hdr s.1, hdr s.1) /\ mxFrame (hdr s.1) = Z.of_nat (length fs') /\ nPage (hdr s.1) = nTruncate
    /\ (exists p D, last fs' = Some (p, nTruncate, D)).
Proof.
  intros [[[_ Hmx _ _] _ _] _ _ _ _ _ F7 _ _]. destruct (F7 eq_refl) as (_ & E2 & E3 & E4). by rewrite length_pgs in Hmx.
Qed.

Lemma continue_written c0 w io fs pList nTruncate isCommit s fs' :
  transaction walIndexPage szPg c0 w (bytes io) fs -> fs <> [] -> readLock w <> 0 ->
  framed szPg c0 (take 32 (bytes io)) (committedEnd szPg w) (bytes io)
    walIndexPage (firstFrame w) nTruncate isCommit pList w fs s fs' ->
  written pList nTruncate isCommit (readPage fs) s.1 (bytes s.2) c0 fs' /\ nCkpt s.1 = nCkpt w
  /\ (isCommit = false -> aHdr s.1 = aHdr w /\ committedFrames s.1 fs' = committedFrames w fs).
Proof using Hmap.
  intros Htx Hne Hl Hfr. destruct (framed_transaction walIndexPage szPg c0 _ _ _ _ _ _ _ _ _ Htx Hne Hl Hfr) as [Htx' _].
  pose proof Hfr as [F1 _ _ F4 F5 F6 F7 F8 (_ & _ & F9)]. split; [split; try done|split; [done|]].
  - intros ->. by destruct fs; [|cbn in F6; lia].
  - intros ->. by apply (framed_published _ _ _ _ _ _ _ _ _ _ _ Hfr).
  - intros -> Hnz. destruct (F7 eq_refl) as (E1 & _ & _ & E4). pose proof Htx' as [Hs Hp Hv _ _ _ _].
    by apply (session_recovers walIndexPage szPg c0 Hmap s.1 (bytes s.2) fs' nTruncate).
  - intros ->. specialize (F8 eq_refl). split; [done|]. unfold committedFrames. rewrite F8.
    pose proof (tx_live _ _ _ _ _ _ Htx) as Hlv. apply F5; [|lia].
    unfold firstFrame. case_bool_decide; [by right|left].
    destruct F1 as [[I1 I2 _ _] _ _]. destruct I1 as (_ & Hmax & _). rewrite length_pgs in Hmax. unfold max_frame in Hmax.
    rewrite u32_small; lia.
Qed.

Lemma start_written w pList nTruncate isCommit iFirst w0 s fs' :
  fresh w [] -> pagesize_ok szPg -> pList <> [] -> readLock w <> 0 -> conn_same w w0 -> aHdr w0 = aHdr w ->
  framed szPg (headerChain be szPg (nCkpt w) (newSalt w)) (walHeader be szPg (nCkpt w) (newSalt w)).1 0 []
    walIndexPage iFirst nTruncate isCommit pList w0 [] s fs' ->
  written pList nTruncate isCommit (fun _ => None) s.1 (bytes s.2) (headerChain be szPg (nCkpt s.1) (aSalt (hdr s.1))) fs'
  /\ nCkpt s.1 = nCkpt w.
Proof using Hmap Hsalt.
  intros Hf Hpage Hpl Hl (C1 & C2 & C3) Ha Hfr. pose proof Hfr as [F1 _ _ F4 _ _ F7 F8 (D1 & D2 & D3)].
  destruct (newSalt_ok w _ Hf) as [Hs8 Hsb]. pose proof Hpage as [_ [Hsz _]].
  pose proof F1 as [[_ Hmx _ _] Hlg _]. rewrite length_pgs in Hmx.
  pose proof (lg_start _ _ _ _ _ _ Hlg) as H32. pose proof (lg_salt _ _ _ _ _ _ Hlg) as Hsl. cbn in Hsl.
  rewrite Hsl, D3, C3. split; [|done].
  assert (fs' <> []) as Hne.
  { intros ->. destruct (last pList) as [p|] eqn:El; [|by apply last_None in El].
    specialize (F4 (pgno p)). cbn in F4. unfold overwrite in F4. apply last_Some in El as [l ->].
    rewrite foldl_app in F4. cbn in F4. unfold writeStep in F4 at 1. by rewrite Z.eqb_refl in F4. }
  destruct (parseHeader_walHeader be szPg (nCkpt w) (newSalt w) Hpage Hs8 Hsb (bytes s.2) H32) as [Hp Hv].
  { assert (length fs' <> 0)%nat by by destruct fs'.
    pose proof (off_le szPg Hsz 1 (Z.of_nat (length fs') + 1) ltac:(lia) ltac:(lia)) as Ho.
    pose proof (lg_len _ _ _ _ _ _ Hlg). rewrite off_1 in Ho. lia. }
  rewrite <- H32 in F1.
  assert (transaction walIndexPage szPg (headerChain be szPg (nCkpt w) (newSalt w)) s.1 (bytes s.2) fs') as Htx.
  { split; try done.
    - destruct isCommit; [destruct (F7 eq_refl) as (_ & -> & _); cbn [fst]; lia|].
      rewrite F8, Ha, (fh_live _ _ Hf) by done. lia.
    - destruct isCommit; [left; by apply F7|]. rewrite F8, Ha, (fh_live _ _ Hf) by done.
      pose proof (lg_re _ _ _ _ _ _ Hlg). lia.
    - by rewrite D2, C2.
    - rewrite D1, C1. apply Hf. }
  split; try done.
  - intros ->. by apply (framed_published _ _ _ _ _ _ _ _ _ _ _ Hfr).
  - intros -> Hnz. destruct (F7 eq_refl) as (E1 & _ & _ & E4).
    by apply (session_recovers walIndexPage szPg (headerChain be szPg (nCkpt w) (newSalt w)) Hmap s.1 (bytes s.2) fs' nTruncate).
Qed.

Lemma fresh_any w b b' : fresh w b -> Forall is_byte b' -> fresh w b'.
Proof. intros [? ? ? ? ? ? ?]. by split. Qed.

(** From a log with frames. *)
Lemma frames_written c0 w io fs pList nTruncate isCommit sync_flags n w' io' :
  transaction walIndexPage szPg c0 w (bytes io) fs -> fs <> [] -> dirty_ok szPg pList ->
  is_u32 nTruncate -> room fs pList ->
  walFrames szPg pList nTruncate isCommit sync_flags (w, io) = (Ok n, (w', io')) ->
  exists c fs', (nCkpt w' = nCkpt w /\ c = c0 /\ written pList nTruncate isCommit (readPage fs) w' (bytes io') c fs'
     /\ (isCommit = false -> aHdr w' = aHdr w /\ committedFrames w' fs' = committedFrames w fs))
  \/ (readLock w = 0 /\ nCkpt w' = u32 (nCkpt w + 1) /\ c = headerChain be szPg (nCkpt w') (aSalt (hdr w'))
      /\ written pList nTruncate isCommit (fun _ => None) w' (bytes io') c fs').
Proof using Hmap Hothers Hrandom Hsalt.
  intros Htx Hne Hd Ht Hroom. rewrite walFrames_split.
  destruct (walRestartLog_ok be others answer Hothers Hrandom w io (tx_info _ _ _ _ _ _ Htx))
    as (r & w1 & -> & Hi & Hr). destruct r as [[|]|]; [| |done]; intros Hrun.
  - pose proof Htx as [Hs Hp _ Hlv _ Hst _]. assert (readLock w = 0) as Hl by by inversion Hr.
    pose proof (lg_bytes _ _ _ _ _ _ (ss_logged _ _ _ _ _ _ _ Hs)) as Hb.
    destruct (fresh_restarted w w1 (bytes io) Hb (Hst Hl) Hi Hr) as (Hf & Hl1 & Hn).
    pose proof (parseHeader_pagesize _ _ _ Hp) as Hpage. unfold room in Hroom.
    pose proof (wp_start w1 io pList nTruncate isCommit sync_flags (firstFrame w) true Hf Hpage Hd Ht) as Hwp.
    unfold wp in Hwp. rewrite Hrun in Hwp. destruct Hwp as (w0 & fs' & Hc & Ha & Hfr).
    { unfold room. cbn [length]. lia. }
    { destruct (firstFrame_range w (length fs) Hlv) as [->| ->]; [lia|by left|right; lia]. }
    destruct (start_written w1 pList nTruncate isCommit (firstFrame w) w0 (w', io') fs'
      (fresh_any _ _ _ Hf (Forall_nil_2 _)) Hpage (proj1 Hd) Hl1 Hc Ha Hfr) as [H1 H2]. cbn [fst snd] in *.
    eexists _, fs'. right. split; [done|]. split; [congruence|]. done.
  - destruct (transaction_continues c0 w w1 (bytes io) fs Htx Hi Hr) as (Htx1 & Hl1 & E1 & E2 & E3).
    assert (firstFrame w = firstFrame w1) as Ef by (unfold firstFrame; by rewrite E1, E2). rewrite Ef in Hrun.
    pose proof (wp_continue c0 w1 io fs pList nTruncate isCommit sync_flags false Htx1 Hne Hd Ht Hroom) as Hwp.
    unfold wp in Hwp. rewrite Hrun in Hwp. destruct Hwp as [fs' Hfr].
    destruct (continue_written c0 w1 io fs pList nTruncate isCommit (w', io') fs' Htx1 Hne Hl1 Hfr) as (H1 & H2 & H3).
    cbn [fst snd] in *. exists c0, fs'. left. split; [congruence|]. split; [done|]. split; [done|].
    intros E. destruct (H3 E) as [H4 H5]. unfold committedFrames in *. by rewrite H4, E2 in *.
Qed.

(** From an empty log. *)
Lemma first_written w io pList nTruncate isCommit sync_flags n w' io' :
  fresh w (bytes io) -> pagesize_ok szPg -> dirty_ok szPg pList -> is_u32 nTruncate -> room [] pList ->
  walFrames szPg pList nTruncate isCommit sync_flags (w, io) = (Ok n, (w', io')) ->
  exists fs', written pList nTruncate isCommit (fun _ => None) w' (bytes io')
    (headerChain be szPg (nCkpt w') (aSalt (hdr w'))) fs'.
Proof using Hmap Hothers Hrandom Hsalt.
  intros Hf Hpage Hd Ht Hroom. rewrite walFrames_split.
  destruct (walRestartLog_ok be others answer Hothers Hrandom w io (fh_info _ _ Hf)) as (r & w1 & -> & Hi & Hr).
  destruct r as [restarted|]; [|done]. intros Hrun.
  assert (fresh w1 (bytes io) /\ readLock w1 <> 0) as [Hf1 Hl1].
  { destruct restarted.
    - destruct (fresh_restarted w w1 (bytes io) (fh_bytes _ _ Hf) (fh_re _ _ Hf) Hi Hr) as (? & ? & _). done.
    - destruct (fresh_continues w w1 (bytes io) Hf Hi Hr) as (? & ? & _). done. }
  pose proof (wp_start w1 io pList nTruncate isCommit sync_flags (firstFrame w) restarted Hf1 Hpage Hd Ht Hroom) as Hwp.
  unfold wp in Hwp. rewrite Hrun in Hwp. destruct Hwp as (w0 & fs' & Hc & Ha & Hfr).
  { unfold firstFrame. rewrite (fh_live _ _ Hf). case_bool_decide; [by left|by right]. }
  destruct (start_written w1 pList nTruncate isCommit (firstFrame w) w0 (w', io') fs'
    (fresh_any _ _ _ Hf1 (Forall_nil_2 _)) Hpage (proj1 Hd) Hl1 Hc Ha Hfr) as [H1 H2]. by exists fs'.
Qed.

(** C2: durability.  When [walFrames] commits and returns success, whatever
    faults the VFS reported before and whatever the other connections did to
    the locks and the checkpoint information, then recovery on any host
    rebuilds a wal-index that reaches the commit and finds, for every page of
    the log, the data last written: the pages of the transaction, those
    spilled by earlier calls and overwritten in place included.  The log goes
    on, with the frames it had, or, for a transaction that reads only the
    database, it starts again with a new header.  The first frame written
    twice must be in the log ([transaction]), which holds unless a savepoint
    was rolled back to a point before it (see WalLost). *)
Theorem walFrames_commit_durable c0 w io fs pList nTruncate sync_flags n w' io' :
  transaction walIndexPage szPg c0 w (bytes io) fs -> fs <> [] -> dirty_ok szPg pList ->
  is_u32 nTruncate -> nTruncate <> 0 -> room fs pList ->
  walFrames szPg pList nTruncate true sync_flags (w, io) = (Ok n, (w', io')) ->
  exists c fs', transaction walIndexPage szPg c w' (bytes io') fs'
    /\ aHdr w' = (hdr w', hdr w') /\ mxFrame (hdr w') = Z.of_nat (length fs') /\ nPage (hdr w') = nTruncate
    /\ (exists p D, last fs' = Some (p, nTruncate, D))
    /\ recovers walIndexPage szPg (bytes io') fs'
    /\ ((nCkpt w' = nCkpt w /\ c = c0 /\ forall q, readPage fs' q = overwrite (readPage fs) pList q)
        \/ (readLock w = 0 /\ nCkpt w' = u32 (nCkpt w + 1) /\ c = headerChain be szPg (nCkpt w') (aSalt (hdr w'))
            /\ forall q, readPage fs' q = overwrite (fun _ => None) pList q)).
Proof using Hmap Hothers Hrandom Hsalt.
  intros Htx Hne Hd Ht Hnz Hroom Hrun.
  destruct (frames_written c0 w io fs pList nTruncate true sync_flags n w' io' Htx Hne Hd Ht Hroom Hrun)
    as (c & fs' & [(H1 & H2 & [W1 W2 W3 W4 W5] & _)|(H1 & H2 & H3 & [W1 W2 W3 W4 W5])]); exists c, fs';
    destruct (W4 eq_refl) as (E1 & E2 & E3 & E4); split_and!; auto.
Qed.

(** A call that does not commit (a cache spill) and does not start the log
    again leaves a state from which the transaction continues: the frames in
    the log hold the pages written so far and the committed frames are
    unchanged. *)
Lemma spill_ok c0 w io fs pList nTruncate sync_flags n w' io' :
  transaction walIndexPage szPg c0 w (bytes io) fs -> fs <> [] -> readLock w <> 0 -> dirty_ok szPg pList ->
  is_u32 nTruncate -> room fs pList ->
  walFrames szPg pList nTruncate false sync_flags (w, io) = (Ok n, (w', io')) ->
  exists fs', transaction walIndexPage szPg c0 w' (bytes io') fs'
    /\ aHdr w' = aHdr w /\ committedFrames w' fs' = committedFrames w fs
    /\ (forall q, readPage fs' q = overwrite (readPage fs) pList q).
Proof using Hmap Hothers Hrandom Hsalt.
  intros Htx Hne Hl Hd Ht Hroom Hrun.
  destruct (frames_written c0 w io fs pList nTruncate false sync_flags n w' io' Htx Hne Hd Ht Hroom Hrun)
    as (c & fs' & [(H1 & -> & [W1 W2 W3 W4 W5] & H4)|(H1 & _)]); [|done].
  destruct (H4 eq_refl). by exists fs'.
Qed.

(** C7: crash safety.  Whatever [walFrames] does before it stops, at success,
    at an error or in the middle of a torn write, and whatever the other
    connections did to the locks and the checkpoint information, the committed
    part of the log is unchanged byte for byte, and recovery still finds the
    last commit and every committed page; the only exception is a log that was
    started again, which needs a transaction that reads only the database. *)
Theorem walFrames_crash_safe c0 w io fs pList nTruncate isCommit sync_flags res w' io' t :
  transaction walIndexPage szPg c0 w (bytes io) fs -> dirty_ok szPg pList ->
  is_u32 nTruncate -> room fs pList ->
  (exists p D, last (committedFrames w fs) = Some (p, t, D)) -> t <> 0 ->
  walFrames szPg pList nTruncate isCommit sync_flags (w, io) = (res, (w', io')) ->
  (take (committedEnd szPg w) (bytes io') = take (committedEnd szPg w) (bytes io)
   /\ recovers walIndexPage szPg (bytes io') (committedFrames w fs))
  \/ (readLock w = 0 /\ exists w1, walRestartLog be others answer (w, io) = (Ok true, (w1, io))).
Proof using Hmap Hothers Hrandom.
  intros Htx Hd Ht Hroom Hlast Hnz. rewrite walFrames_split.
  destruct (walRestartLog_ok be others answer Hothers Hrandom w io (tx_info _ _ _ _ _ _ Htx)) as (r & w1 & -> & Hi & Hr).
  assert (fs <> []) as Hne.
  { intros ->. destruct Hlast as (p & D & Hl). unfold committedFrames in Hl. by rewrite take_nil in Hl. }
  assert (bytes io' = bytes io \/ kept (committedEnd szPg w) (bytes io) (w', io') ->
    take (committedEnd szPg w) (bytes io') = take (committedEnd szPg w) (bytes io)
    /\ recovers walIndexPage szPg (bytes io') (committedFrames w fs)) as Hk.
  { intros HK. by eapply crash_kept. }
  destruct r as [[|]|rc]; intros Hrun.
  - right. split; [by inversion Hr|]. by exists w1.
  - left. apply Hk. right.
    destruct (transaction_continues c0 w w1 (bytes io) fs Htx Hi Hr) as (Htx1 & Hl1 & E1 & E2 & E3).
    assert (firstFrame w = firstFrame w1) as Ef by (unfold firstFrame; by rewrite E1, E2). rewrite Ef in Hrun.
    pose proof (wp_continue c0 w1 io fs pList nTruncate isCommit sync_flags false Htx1 Hne Hd Ht Hroom) as Hwp.
    unfold committedEnd in *. rewrite E2 in Hwp.
    unfold wp in Hwp. rewrite Hrun in Hwp. destruct res; [|done]. destruct Hwp as [fs' Hfr]. apply Hfr.
  - left. apply Hk. left. by injection Hrun as _ _ <-.
Qed.

(** C30: durability of the first frames of a log, new or emptied by a
    checkpoint, also when [walRestartLog] runs before them: the header written
    with them is the one recovery reads; the state is that of a transaction,
    which can go on; and when the call commits, recovery finds every page. *)
Theorem walFrames_first_commit_durable w io pList nTruncate isCommit sync_flags n w' io' :
  fresh w (bytes io) -> pagesize_ok szPg -> dirty_ok szPg pList -> is_u32 nTruncate -> room [] pList ->
  walFrames szPg pList nTruncate isCommit sync_flags (w, io) = (Ok n, (w', io')) ->
  exists fs', transaction walIndexPage szPg (headerChain be szPg (nCkpt w') (aSalt (hdr w'))) w' (bytes io') fs'
    /\ fs' <> [] /\ (forall q, readPage fs' q = overwrite (fun _ => None) pList q)
    /\ (isCommit = true ->
        aHdr w' = (hdr w', hdr w') /\ mxFrame (hdr w') = Z.of_nat (length fs') /\ nPage (hdr w') = nTruncate
        /\ (exists p D, last fs' = Some (p, nTruncate, D)))
    /\ (isCommit = true -> nTruncate <> 0 -> recovers walIndexPage szPg (bytes io') fs').
Proof using Hmap Hothers Hrandom Hsalt.
  intros Hf Hpage Hd Ht Hroom Hrun.
  destruct (first_written w io pList nTruncate isCommit sync_flags n w' io' Hf Hpage Hd Ht Hroom Hrun)
    as (fs' & [W1 W2 W3 W4 W5]). by exists fs'.
Qed.

End Frames.

(** ** Concrete runs *)

Definition pg (n k : Z) : PgHdr := mkPg n (replicate 512 k).
Definition aSalt8 : list Z := [1; 2; 3; 4; 5; 6; 7; 8].
Abbreviation run pList nTruncate isCommit :=
  (walFrames false mapped alone granted aSalt8 512 true 512 pList nTruncate isCommit 0).

Lemma alone_ok k i : info_ok i -> info_ok (alone k i).
Proof. done. Qed.

Lemma granted_salt k : salt_ok (granted k _ Randomness).
Proof. split; [done|]. apply (bool_decide_unpack _). vm_compute. exact I. Qed.

Lemma aSalt8_ok : salt8 aSalt8.
Proof. split; [done|]. apply (bool_decide_unpack _). vm_compute. exact I. Qed.

Lemma page512_ok : pagesize_ok 512.
Proof. split; [reflexivity|split; vm_compute; congruence]. Qed.

(** Two pages committed to an empty log. *)
Definition run1 : result Z * (Wal * Io) := run [pg 1 1; pg 2 1] 2 true (emptyWal, mkIo [] []).

Lemma run1_ok :
  run [pg 1 1; pg 2 1] 2 true (emptyWal, mkIo [] []) = (Ok 2, (run1.2.1, run1.2.2)).
Proof. vm_compute. reflexivity. Qed.

Lemma emptyWal_fresh : fresh emptyWal [].
Proof. split; try done. by left. Qed.

Lemma dirty_one n k : 0 < n < 2 ^ 32 -> is_byte k -> dirty_ok 512 [pg n k].
Proof.
  intros Hn Hk. split; [done|]. split; [|apply NoDup_singleton].
  apply Forall_singleton. split; [done|]. split; [done|]. by apply Forall_replicate.
Qed.

Lemma dirty_run1 : dirty_ok 512 [pg 1 1; pg 2 1].
Proof.
  split; [done|]. split; [|apply (bool_decide_unpack _); vm_compute; exact I].
  apply Forall_cons. split; [|apply Forall_singleton];
    (split; [done|]; split; [done|]; by apply Forall_replicate).
Qed.

Lemma walFrames_first_commit_durable_witness :
  exists fs', mxFrame (hdr run1.2.1) = Z.of_nat (length fs') /\ readPage fs' 2 = Some (replicate 512 1)
    /\ recovers mapped 512 (bytes run1.2.2) fs'.
Proof.
  destruct (walFrames_first_commit_durable mapped 512 (fun _ _ => eq_refl) false alone granted aSalt8 512 true
    alone_ok granted_salt aSalt8_ok emptyWal (mkIo [] []) [pg 1 1; pg 2 1] 2 true 0 2
    run1.2.1 run1.2.2 emptyWal_fresh page512_ok dirty_run1 ltac:(split; lia) ltac:(reflexivity) run1_ok)
    as (fs' & _ & _ & H2 & H1 & H3).
  exists fs'. split; [apply H1; reflexivity|]. split; [|apply H3; [reflexivity|discriminate]]. rewrite H2. reflexivity.
Defined.

(** The state after it. *)
Lemma run1_fields : mxFrame (hdr run1.2.1) = 2 /\ mxFrame (aHdr run1.2.1).1 = 2 /\ readLock run1.2.1 = 1.
Proof. split_and!; vm_compute; reflexivity. Qed.

Lemma run1_transaction :
  exists fs c, transaction mapped 512 c run1.2.1 (bytes run1.2.2) fs /\ length fs = 2%nat
    /\ committedFrames run1.2.1 fs = fs
    /\ (exists p D, last fs = Some (p, 2, D)) /\ readPage fs 1 = Some (replicate 512 1).
Proof.
  destruct (first_written mapped 512 (fun _ _ => eq_refl) false alone granted aSalt8 512 true
    alone_ok granted_salt aSalt8_ok emptyWal (mkIo [] []) [pg 1 1; pg 2 1] 2 true 0 2
    run1.2.1 run1.2.2 emptyWal_fresh page512_ok dirty_run1 ltac:(split; lia) ltac:(reflexivity) run1_ok)
    as (fs & [H1 _ H3 H4 _]).
  destruct (H4 eq_refl) as (_ & H2 & _ & H5). destruct run1_fields as (E1 & E2 & _).
  rewrite E1 in H2. assert (length fs = 2%nat) as Hl by lia.
  eexists fs, _. split; [exact H1|]. split; [exact Hl|]. split.
  - unfold committedFrames. rewrite E2. apply take_ge. rewrite Hl. done.
  - split; [exact H5|]. rewrite H3. reflexivity.
Qed.

(** A second transaction, a spill, and a commit whose second write is torn. *)
Definition run2 : result Z * (Wal * Io) := run [pg 2 5] 3 true (run1.2.1, run1.2.2).
Definition run3 : result Z * (Wal * Io) := run [pg 3 7] 0 false (run1.2.1, run1.2.2).
Definition torn (io : Io) : Io := mkIo (bytes io) [(SQLITE_OK, 0%nat); (10, 100%nat)].
Definition run4 : result Z * (Wal * Io) := run [pg 2 5] 3 true (run1.2.1, (torn run1.2.2)).

Lemma run2_ok : run [pg 2 5] 3 true (run1.2.1, run1.2.2) = (Ok 1, (run2.2.1, run2.2.2)).
Proof. vm_compute. reflexivity. Qed.
Lemma run3_ok : run [pg 3 7] 0 false (run1.2.1, run1.2.2) = (Ok 0, (run3.2.1, run3.2.2)).
Proof. vm_compute. reflexivity. Qed.
Lemma run4_err : run [pg 2 5] 3 true (run1.2.1, (torn run1.2.2)) = (Err 10, (run4.2.1, run4.2.2)).
Proof. vm_compute. reflexivity. Qed.

Lemma torn_bytes io : bytes (torn io) = bytes io.
Proof. reflexivity. Qed.

(** The log of [run1] is in the database, and the next transaction reads only
    the database: its commit starts the log again. *)
Definition backfilled (w : Wal) : Wal :=
  set_readLock (set_ckptInfo w (mkInfo 2 (aReadMark (ckptInfo w)) 2)) 0.
Definition run5 : result Z * (Wal * Io) := run [pg 2 5] 3 true (backfilled run1.2.1, run1.2.2).

Lemma run5_ok : run [pg 2 5] 3 true (backfilled run1.2.1, run1.2.2) = (Ok 1, (run5.2.1, run5.2.2)).
Proof. vm_compute. reflexivity. Qed.

Lemma run5_fields : nCkpt run5.2.1 = 1 /\ nCkpt (backfilled run1.2.1) = 0 /\ iReCksum run1.2.1 = 0.
Proof. split_and!; vm_compute; reflexivity. Qed.

Lemma backfilled_transaction c w b fs :
  transaction mapped 512 c w b fs -> iReCksum w = 0 -> transaction mapped 512 c (backfilled w) b fs.
Proof.
  intros [[[H1 H2 H3 H4] H5 H6] H7 H8 H9 H10 _ _] Hre. split; try done.
  split; [by split|by eapply logged_hdr|done].
Qed.

Lemma walFrames_commit_durable_witness :
  (exists fs', mxFrame (hdr run2.2.1) = Z.of_nat (length fs') /\ recovers mapped 512 (bytes run2.2.2) fs')
  /\ exists fs', mxFrame (hdr run5.2.1) = Z.of_nat (length fs') /\ readPage fs' 1 = None
     /\ readPage fs' 2 = Some (replicate 512 5) /\ recovers mapped 512 (bytes run5.2.2) fs'.
Proof.
  destruct run1_transaction as (fs & c & Htx & Hl & _ & _ & H1). destruct run5_fields as (N1 & N2 & N3).
  assert (fs <> []) as Hne by (intros E; rewrite E in Hl; discriminate Hl).
  assert (room 512 fs [pg 2 5]) as Hroom by (unfold room; rewrite Hl; reflexivity).
  split.
  - destruct (walFrames_commit_durable mapped 512 (fun _ _ => eq_refl) false alone granted aSalt8 512 true
      alone_ok granted_salt aSalt8_ok c run1.2.1 run1.2.2 fs [pg 2 5] 3 0 1 run2.2.1 run2.2.2
      Htx Hne (dirty_one 2 5 ltac:(lia) ltac:(split; lia)) ltac:(split; lia) ltac:(lia) Hroom run2_ok)
      as (c' & fs' & _ & _ & H2 & _ & _ & H3 & _).
    exists fs'. split; [exact H2|exact H3].
  - destruct (walFrames_commit_durable mapped 512 (fun _ _ => eq_refl) false alone granted aSalt8 512 true
      alone_ok granted_salt aSalt8_ok c (backfilled run1.2.1) run1.2.2 fs [pg 2 5] 3 0 1 run5.2.1 run5.2.2
      (backfilled_transaction _ _ _ _ Htx N3) Hne (dirty_one 2 5 ltac:(lia) ltac:(split; lia)) ltac:(split; lia) ltac:(lia)
      Hroom run5_ok)
      as (c' & fs' & _ & _ & H2 & _ & _ & H3 & [(H4 & _)|(_ & _ & _ & H4)]).
    { rewrite N1, N2 in H4. discriminate H4. }
    exists fs'. split; [exact H2|]. split; [rewrite H4; reflexivity|]. split; [rewrite H4; reflexivity|exact H3].
Defined.

Lemma walFrames_crash_safe_witness :
  run4.1 = Err 10 /\ exists fs, readPage fs 1 = Some (replicate 512 1)
    /\ recovers mapped 512 (bytes run4.2.2) fs.
Proof.
  split; [vm_compute; reflexivity|].
  destruct run1_transaction as (fs & c & Htx & Hl & Hc & Hlast & H1). destruct run1_fields as (_ & _ & Hlock).
  rewrite <- Hc in Hlast. rewrite <- torn_bytes in Htx.
  destruct (walFrames_crash_safe mapped 512 (fun _ _ => eq_refl) false alone granted aSalt8 512 true
    alone_ok granted_salt c run1.2.1 (torn run1.2.2) fs [pg 2 5] 3 true 0 (Err 10)
    run4.2.1 run4.2.2 2 Htx (dirty_one 2 5 ltac:(lia) ltac:(split; lia)) ltac:(split; lia)
    ltac:(unfold room; rewrite Hl; reflexivity) Hlast ltac:(lia) run4_err) as [[_ H2]|[H2 _]].
  - rewrite Hc in H2. exists fs. split; [exact H1|exact H2].
  - rewrite Hlock in H2. discriminate H2.
Defined.
