(* ===== verification/WalUndo.v ===== *)
(** * src/libsql-sqlite3/src/wal.c: rollback and savepoints

    [sqlite3WalUndo] returns to the committed state, [sqlite3WalSavepointUndo]
    to an earlier point of the transaction. *)

From stdpp Require Import base list numbers option gmap.
From S2P Require Import Prelude Util Varint Wal WalIndex WalFormat WalShare WalLog WalRestart WalRecover WalFrames WalDurable WalCrash.
#[local] Open Scope Z_scope.

Section Undo.
Context (walIndexPage : Z -> Z).
Hypothesis Hmap : forall i, 0 <= i -> walIndexPage i = SQLITE_OK.

(** The page number stored for a frame. *)
Lemma walFramePgno_ok w log f :
  index_ok w log -> 1 <= f <= Z.of_nat (length log) ->
  walFramePgno walIndexPage w f = nthZ log (f - 1).
Proof using Hmap.
  intros (Hpos & Hmax & Hpages) Hf. unfold walFramePgno. set (i := walFramePage f).
  destruct (proj1 (walFramePage_spec f i ltac:(lia)) eq_refl) as [Hi Hrange].
  pose proof (length_segOf log i Hi) as Hseg. pose proof (iZeroOf_nonneg i Hi) as Hz.
  assert (segOf log i <> []) as Hne.
  { intros E. rewrite E in Hseg. cbn in Hseg. lia. }
  pose proof (Hpages i Hi Hne) as Hpg.
  assert (nthZ (aPgno (pageOf w i)) (f - iZeroOf i - 1) = nthZ log (f - 1)) as Hnth.
  { rewrite (page_pgno _ _ _ Hpg), nthZ_app_l by lia. rewrite nthZ_segOf; [f_equal; lia|done|lia]. }
  rewrite <- Hnth. destruct (Z.eqb_spec i 0) as [E|E].
  - rewrite E in *. change (iZeroOf 0) with 0. f_equal. lia.
  - rewrite Hmap by done. cbn [negb Z.eqb SQLITE_OK]. f_equal.
    unfold iZeroOf in *. rewrite (proj2 (Z.eqb_neq _ _) E) in *.
    pose proof (pageCap_range i). change HASHTABLE_NPAGE_ONE with 4062 in *.
    change HASHTABLE_NPAGE with 4096 in *. unfold max_frame in Hmax.
    rewrite u32_small by lia. unfold u64. rewrite (Z.mod_small _ (2 ^ 64)) by lia.
    symmetry. apply (Z.mod_unique _ _ (i - 1)); lia.
Qed.

(** The result code of a sequence of [xUndo] calls. *)
Definition undoCalls (xUndo : Z -> Z) (pages : list Z) : Z :=
  foldl (fun rc p => if rc =? SQLITE_OK then xUndo p else rc) SQLITE_OK pages.

(** C33: [sqlite3WalUndo] passes to [xUndo] the pages of the uncommitted frames
    in frame order, and leaves the connection with the committed header and a
    wal-index of the committed frames. *)
Theorem sqlite3WalUndo_restores xUndo w log :
  index_ok w log -> mxFrame (hdr w) = Z.of_nat (length log) -> writeLock w = true ->
  0 <= mxFrame (aHdr w).1 <= Z.of_nat (length log) ->
  let live := Z.to_nat (mxFrame (aHdr w).1) in
  exists w', sqlite3WalUndo walIndexPage xUndo w = (undoCalls xUndo (drop live log), w')
    /\ hdr w' = (aHdr w).1 /\ aHdr w' = aHdr w /\ index_ok w' (take live log).
Proof using Hmap.
  intros Hidx Hmx Hlock Hlive live. unfold sqlite3WalUndo. rewrite Hlock, Hmx.
  set (w0 := set_hdr w (aHdr w).1). cbn [hdr w0 set_hdr].
  assert (index_ok w0 log) as Hidx0 by done.
  assert (walFramePgno walIndexPage w0 <$>
    seqZ (mxFrame (aHdr w).1 + 1) (Z.of_nat (length log) - mxFrame (aHdr w).1) = drop live log) as ->.
  { apply list_eq. intros k. rewrite list_lookup_fmap, lookup_drop.
    destruct (decide (k < length log - live)%nat) as [Hk|Hk].
    - rewrite lookup_seqZ_lt by lia. cbn [fmap option_fmap option_map].
      rewrite (walFramePgno_ok w0 log) by (done || lia). unfold nthZ.
      replace (Z.to_nat (mxFrame (aHdr w).1 + 1 + Z.of_nat k - 1)) with (live + k)%nat by lia.
      destruct (lookup_lt_is_Some_2 log (live + k)) as [x ->]; [lia|done].
    - rewrite lookup_seqZ_ge by lia. rewrite lookup_ge_None_2 by lia. done. }
  eexists. split; [reflexivity|].
  destruct (Z.eqb_spec (Z.of_nat (length log)) (mxFrame (aHdr w).1)) as [E|E]; cbn [negb].
  - rewrite take_ge by lia. done.
  - pose proof (same_conn_cleanup walIndexPage w0 w0 (same_conn_refl w0)) as Hsame.
    split; [by rewrite (same_conn_hdr _ _ Hsame)|]. split; [by rewrite Hsame|].
    apply (walCleanupHash_ok walIndexPage w0 log); [done|done|]. apply Hmap, walFramePage_nonneg.
Qed.

End Undo.

(** Three frames, of which one is committed. *)
Definition undoWal : Wal :=
  let w := (walIndexAppend mapped emptyWal 1 7).2 in
  let w := (walIndexAppend mapped w 2 8).2 in
  let w := (walIndexAppend mapped w 3 9).2 in
  let live := set_mxFrame zeroHdr 1 in
  mkWal (apWiData w) (live, live) (ckptInfo w) 4096 1 true false 0 false
    (set_mxFrame zeroHdr 3) 1 0 0 false false false (-1) 0.

Lemma undoWal_index : index_ok undoWal [7; 8; 9].
Proof.
  destruct (walIndexAppend_ok mapped emptyWal [] 1 7) as (w1 & E1 & _ & H1);
    [apply index_ok_empty|done|done|done|by left|done|].
  destruct (walIndexAppend_ok mapped w1 [7] 2 8) as (w2 & E2 & _ & H2);
    [exact H1|done|done|done|by left|done|].
  destruct (walIndexAppend_ok mapped w2 [7; 8] 3 9) as (w3 & E3 & _ & H3);
    [exact H2|done|done|done|by left|done|].
  apply (index_ok_pages w3); [|exact H3].
  unfold undoWal. rewrite E1. cbn [snd]. rewrite E2. cbn [snd]. rewrite E3. done.
Qed.

Lemma sqlite3WalUndo_restores_witness :
  exists w', sqlite3WalUndo mapped (fun p => if p =? 9 then 10 else SQLITE_OK) undoWal = (10, w')
    /\ mxFrame (hdr w') = 1 /\ index_ok w' [7].
Proof.
  destruct (sqlite3WalUndo_restores mapped (fun _ _ => eq_refl)
    (fun p => if p =? 9 then 10 else SQLITE_OK) undoWal [7; 8; 9] undoWal_index
    ltac:(reflexivity) ltac:(reflexivity) ltac:(split; vm_compute; congruence)) as (w' & H1 & H2 & _ & H3).
  exists w'. split; [exact H1|]. split; [rewrite H2; reflexivity|exact H3].
Defined.

(** ** Savepoints *)

Section Savepoint.
Context (walIndexPage : Z -> Z) (szPg : Z) (c0 : chain).

(** Forgetting the frames after [k], none of which is the first rewritten one. *)
Lemma logged_take walHdr w b fs k :
  512 <= szPg -> logged szPg c0 walHdr w b fs -> (k <= length fs)%nat -> iReCksum w <= Z.of_nat k ->
  forall w', bigEndCksum (hdr w') = bigEndCksum (hdr w) -> aSalt (hdr w') = aSalt (hdr w) ->
  iReCksum w' = iReCksum w ->
  (iReCksum w = 0 -> aFrameCksum (hdr w') = c_cksum (chainFs c0 (take k fs))) ->
  logged szPg c0 walHdr w' b (take k fs).
Proof.
  intros Hsz [H1 H2 H3 H4 H5 H6 H7 H8 H9] Hk Hre w' Eb Es Er Ec.
  assert (length (take k fs) = k) as Hl by (rewrite length_take; lia).
  split; rewrite ?Hl, ?Eb, ?Es, ?Er; try done.
  - pose proof (off_mono szPg Hsz (Z.of_nat k + 1) (Z.of_nat (length fs) + 1)). lia.
  - intros j fr Hj. apply H3. by apply lookup_take_Some in Hj as [? _].
  - lia.
  - unfold validUpTo in *. rewrite Er, Hl.
    eapply (valid_prefix szPg Hsz b); [eapply valid_le; [|exact H5]|rewrite take_take|done].
    + destruct (Z.eqb_spec (iReCksum w) 0); lia.
    + f_equal. destruct (Z.eqb_spec (iReCksum w) 0); lia.
Qed.

(** C32: rolling back to a savepoint taken in the same transaction restores the
    state of the log at that point, provided that no frame up to the savepoint
    but one after it is the first that was written twice. *)
Theorem sqlite3WalSavepointUndo_restores w b fs (sv : SavepointData) :
  transaction walIndexPage szPg c0 w b fs -> sv_nCkpt sv = nCkpt w ->
  mxFrame (aHdr w).1 <= sv_mxFrame sv <= Z.of_nat (length fs) ->
  (iReCksum w = 0 -> sv_cksum sv = c_cksum (chainFs c0 (take (Z.to_nat (sv_mxFrame sv)) fs))) ->
  iReCksum w <= sv_mxFrame sv ->
  exists w', sqlite3WalSavepointUndo walIndexPage w sv = (w', sv)
    /\ transaction walIndexPage szPg c0 w' b (take (Z.to_nat (sv_mxFrame sv)) fs).
Proof.
  intros [Hs Hp Hv Hlive Hre Hst Hin] Hn Hm Hck Hr. pose proof Hs as [[I1 I2 I3 I5] Hlg Hszw].
  destruct (parseHeader_facts _ _ _ (lg_bytes _ _ _ _ _ _ Hlg) Hp) as (Hsz & _).
  unfold sqlite3WalSavepointUndo. rewrite Hn, Z.eqb_refl. cbn [negb].
  rewrite length_pgs in I2. rewrite I2. set (k := Z.to_nat (sv_mxFrame sv)) in *.
  assert (length (take k fs) = k) as Hl by (rewrite length_take; lia).
  destruct (Z.ltb_spec (sv_mxFrame sv) (Z.of_nat (length fs))) as [Hlt|Hge].
  2:{ exists w. split; [done|]. rewrite take_ge by lia. done. }
  set (w0 := set_hdr w _).
  pose proof (same_conn_cleanup walIndexPage w0 w0 (same_conn_refl w0)) as Hsame.
  assert (index_ok (walCleanupHash walIndexPage w0) (take k (pgs fs))) as Hidx.
  { apply (walCleanupHash_ok walIndexPage w0 (pgs fs)); [exact I1|rewrite length_pgs; cbn; lia|].
    apply I5, walFramePage_nonneg. }
  eexists. split; [reflexivity|]. rewrite Hsame in Hidx |- *.
  assert (pgs (take k fs) = take k (pgs fs)) as Hpk by apply fmap_take.
  split; try done; [split; [split|eapply (logged_take _ w); try done|done]|].
  - by rewrite Hpk.
  - rewrite length_pgs, Hl. cbn. lia.
  - done.
  - done.
  - lia.
  - lia.
  - rewrite Hl. cbn. lia.
Qed.

End Savepoint.

Lemma savepoint_fields w :
  sv_mxFrame (sqlite3WalSavepoint w) = mxFrame (hdr w)
  /\ sv_cksum (sqlite3WalSavepoint w) = aFrameCksum (hdr w) /\ sv_nCkpt (sqlite3WalSavepoint w) = nCkpt w.
Proof. done. Qed.

Lemma committedFrames_take w fs : committedFrames w fs = take (Z.to_nat (mxFrame (aHdr w).1)) fs.
Proof. done. Qed.

Lemma run3_fields :
  mxFrame (aHdr run3.2.1).1 = 2 /\ mxFrame (hdr run1.2.1) = 2 /\ nCkpt run1.2.1 = nCkpt run3.2.1
  /\ iReCksum run1.2.1 = 0 /\ iReCksum run3.2.1 = 0.
Proof. split_and!; vm_compute; reflexivity. Qed.

(** The savepoint taken after the first transaction, used after the spill. *)
Lemma sqlite3WalSavepointUndo_restores_witness :
  exists fs c, transaction mapped 512 c
    (sqlite3WalSavepointUndo mapped run3.2.1 (sqlite3WalSavepoint run1.2.1)).1 (bytes run3.2.2) fs
    /\ length fs = 2%nat.
Proof.
  destruct run1_transaction as (fs & c & Htx & Hl & Hc & _).
  assert (fs <> []) as Hne by (intros E; rewrite E in Hl; discriminate Hl).
  destruct run1_fields as (_ & _ & Hlock).
  destruct (spill_ok mapped 512 (fun _ _ => eq_refl) false alone granted aSalt8 512 true alone_ok granted_salt aSalt8_ok
    c run1.2.1 run1.2.2 fs [pg 3 7] 0 0 0 run3.2.1 run3.2.2
    Htx Hne ltac:(rewrite Hlock; discriminate) (dirty_one 3 7 ltac:(lia) ltac:(split; lia)) ltac:(split; lia)
    ltac:(unfold room; rewrite Hl; reflexivity) run3_ok) as (fs' & Htx' & _ & H2 & _).
  destruct run3_fields as (E1 & E2 & E3 & E4 & E5).
  pose proof (tx_live _ _ _ _ _ _ Htx') as Hlive. rewrite E1 in Hlive.
  rewrite Hc, committedFrames_take, E1 in H2.
  destruct (savepoint_fields run1.2.1) as (S1 & S2 & S3).
  destruct (sqlite3WalSavepointUndo_restores mapped 512 c run3.2.1 (bytes run3.2.2) fs'
    (sqlite3WalSavepoint run1.2.1) Htx') as (w' & Hrun & Htx2).
  - rewrite S3. exact E3.
  - rewrite S1, E1, E2. lia.
  - intros _. rewrite S1, S2, E2, H2.
    apply (lg_cksum _ _ _ _ _ _ (ss_logged _ _ _ _ _ _ _ (tx_session _ _ _ _ _ _ Htx)) E4).
  - rewrite S1, E2, E5. lia.
  - rewrite S1, E2, H2 in Htx2. exists fs, c. rewrite Hrun. split; [exact Htx2|exact Hl].
Defined.
