(* ===== verification/WalLost.v ===== *)
(** * src/libsql-sqlite3/src/wal.c: a commit that is lost

    [sqlite3WalSavepointUndo] moves [mxFrame] back and leaves [iReCksum].  When
    the first frame that was written twice is behind the savepoint, the frames
    of the next commit are written without salts and checksums, and
    [walRewriteChecksums] repairs only those from [iReCksum] on. *)

From stdpp Require Import base list numbers option gmap.
From S2P Require Import Prelude Util Varint Wal WalIndex WalFormat WalShare WalLog WalRestart WalRecover WalFrames WalDurable WalCrash WalUndo.
#[local] Open Scope Z_scope.

(** ** Recovery stops at a frame without a salt *)

Lemma scan_stops b szPg n i c k :
  (forall c', c_salt c' = c_salt c -> chain_ok c' ->
     decodeFrame c' (bytesAt b (frameOff szPg (i + Z.of_nat k) + 24) (Z.to_nat szPg))
       (bytesAt b (frameOff szPg (i + Z.of_nat k)) 24) = None) ->
  chain_ok c -> (length (scan b szPg n i c) <= k)%nat.
Proof.
  revert n i c; induction k as [|k IH]; intros n i c Hd Hc; destruct n as [|n]; cbn [scan length]; try lia.
  - rewrite Z.add_0_r in Hd. rewrite Hd by done. done.
  - destruct (decodeFrame c _ _) as [[[p t] s]|] eqn:E; cbn [length]; [|lia].
    assert (chain_ok (chain_next c s)) as Hc'.
    { unfold decodeFrame in E. case_bool_decide; [|done]. injection E as <- <- <-.
      apply chain_next_ok; [done|]. by apply frameCksum_u32. }
    apply le_n_S, IH; [|done]. intros c' Hs. replace (i + 1 + Z.of_nat k) with (i + Z.of_nat (S k)) by lia. by apply Hd.
Qed.

Lemma decodeFrame_salt c D a : chain_ok c -> bytesAt a 8 8 <> c_salt c -> decodeFrame c D a = None.
Proof.
  intros Hc Hs. unfold decodeFrame. case_bool_decide as H; [|done]. destruct H as [_ E]. destruct Hs. rewrite E.
  by destruct (frameHdr_fields c (sqlite3Get4byte (bytesAt a 0 4)) (sqlite3Get4byte (bytesAt a 4 4)) D Hc) as (_ & _ & _ & ? & _).
Qed.

Lemma lastCommit_le f l acc : acc.1.1 < f + Z.of_nat (length l) -> (lastCommit f l acc).1.1 < f + Z.of_nat (length l).
Proof.
  revert f acc; induction l as [|[[p t] s] l IH]; intros f acc Ha; cbn [lastCommit length] in *; [done|].
  replace (f + Z.of_nat (S (length l))) with (f + 1 + Z.of_nat (length l)) in * by lia. apply IH.
  destruct (t =? 0); [done|]. cbn. lia.
Qed.

Lemma length_appendedPages_all pList : length (appendedPages pList (replicate (length pList) true)) = length pList.
Proof. induction pList as [|p pList IH]; [done|]. cbn [length replicate]. rewrite appendedPages_cons, length_app, IH. done. Qed.

(** ** Writing behind a frame *)

Section Behind.
Context (be : bool) (szPg : Z) (h : list Z) (k : nat).
Hypothesis Hsz : 512 <= szPg.

Local Abbreviation off i := (frameOff szPg i).

(** The file has the header [h], and its frame [k + 1] has no salt. *)
Record unsalted (b : list Z) : Prop := {
  us_bytes : Forall is_byte b;
  us_len : (off (Z.of_nat k + 2) <= length b)%nat;
  us_start : take 32 b = h;
  us_salt : bytesAt b (off (Z.of_nat k + 1) + 8) 8 = replicate 8 0
}.

Lemma off_next : off (Z.of_nat k + 2) = (off (Z.of_nat k + 1) + 24 + Z.to_nat szPg)%nat.
Proof using Hsz. replace (Z.of_nat k + 2) with (Z.of_nat k + 1 + 1) by lia. apply off_succ; [done|lia]. Qed.

Lemma unsalted_write b o d : unsalted b -> (off (Z.of_nat k + 2) <= o)%nat -> Forall is_byte d -> unsalted (file_write b o d).
Proof using Hsz.
  intros [H1 H2 H3 H4] Ho Hd. pose proof (off_ge szPg Hsz (Z.of_nat k + 1) ltac:(lia)). pose proof off_next. split.
  - by apply file_write_bytes.
  - rewrite length_file_write. lia.
  - rewrite <- H3. apply take_file_write; lia.
  - rewrite bytesAt_write_before by lia. done.
Qed.

Lemma unsalted_take b n : unsalted b -> (off (Z.of_nat k + 2) <= n)%nat -> unsalted (take n b).
Proof using Hsz.
  intros [H1 H2 H3 H4] Hn. pose proof (off_ge szPg Hsz (Z.of_nat k + 1) ltac:(lia)). pose proof off_next. split.
  - by apply Forall_take.
  - rewrite length_take. lia.
  - rewrite take_take, Nat.min_l by lia. done.
  - rewrite bytesAt_take by lia. done.
Qed.

(** A connection with a salt of bytes, in such a state. *)
Definition behind (w : Wal) (s : Wal * Io) : Prop := unsalted (bytes s.2) /\ log_same w s.1.

Definition salted (w : Wal) : Prop := Forall is_byte (aSalt (hdr w)).

Lemma salted_same w w' : log_same w w' -> salted w -> salted w'.
Proof. unfold log_same, salted. by intros ->. Qed.

Lemma log_same_cksum ck w : log_same w (setFrameCksum ck w).
Proof. unfold log_same. by destruct w as [? ? ? ? ? ? ? ? ? []]. Qed.

Lemma log_same_re w n : log_same w (set_iReCksum w n).
Proof. unfold log_same. by destruct w as [? ? ? ? ? ? ? ? ? []]. Qed.

Lemma encode_bytes w p t D : salted w -> Forall is_byte (walEncodeFrame be w p t D).1.
Proof.
  intros Hs. unfold walEncodeFrame. destruct (_ =? _); cbn [fst].
  - repeat apply Forall_app_2; auto using Put4byte_bytes.
  - repeat apply Forall_app_2; auto using Put4byte_bytes. apply Forall_replicate. split; [lia|done].
Qed.

Lemma any_kept w io : Forall is_byte (bytes io) -> kept 0 [] (w, io).
Proof. intros H. split; [done|]. split; [lia|done]. Qed.

(** One frame anywhere. *)
Lemma wp_oneFrame sp p t o w io :
  salted w -> Forall is_byte (bytes io) -> 0 <= o -> page_wf szPg p ->
  let a := (walEncodeFrame be w (pgno p) t (pData p)).1 in
  wp 0 [] (walWriteOneFrame be sp p t o)
    (fun _ s => log_same w s.1 /\ iReCksum s.1 = iReCksum w
       /\ bytes s.2 = file_write (file_write (bytes io) (Z.to_nat o) a) (Z.to_nat o + 24) (pData p)) (w, io).
Proof using Hsz.
  intros Hs Hb Ho (_ & _ & Hd) a. unfold walWriteOneFrame. apply wp_io_bind, wp_get.
  pose proof (encode_bytes w (pgno p) t (pData p) Hs) as Ha. fold a in Ha.
  destruct (walEncodeFrame be w (pgno p) t (pData p)) as [a' ck] eqn:E. cbn [fst] in a. subst a.
  apply wp_io_bind, wp_modify, wp_io_bind, wp_walWriteToLog; [by apply any_kept|done|lia|done|].
  intros io1 Hb1. apply wp_walWriteToLog; [apply any_kept; rewrite Hb1; by apply file_write_bytes|unfold WAL_FRAME_HDRSIZE; lia|lia|done|].
  intros io2 Hb2. cbn [fst snd]. split; [apply log_same_cksum|]. split; [done|]. rewrite Hb2, Hb1. f_equal.
  unfold WAL_FRAME_HDRSIZE. lia.
Qed.

Lemma wp_frame_behind w0 sp p t o w io :
  salted w0 -> behind w0 (w, io) -> (off (Z.of_nat k + 2) <= Z.to_nat o)%nat -> page_wf szPg p ->
  wp 0 [] (walWriteOneFrame be sp p t o) (fun _ s => behind w0 s /\ iReCksum s.1 = iReCksum w) (w, io).
Proof using Hsz.
  intros Hs [Hu Hw] Ho Hp. pose proof (salted_same _ _ Hw Hs) as Hs'. cbn [fst snd] in *.
  pose proof (off_ge szPg Hsz (Z.of_nat k + 2) ltac:(lia)).
  eapply wp_io_mono; [apply wp_oneFrame; [done|apply Hu|lia|done]|].
  intros [] [w1 io1] (H1 & H2 & H3). cbn [fst snd] in *. split; [|done]. split; [|by eapply log_same_trans].
  cbn [snd]. rewrite H3. destruct Hp as (_ & _ & Hd).
  apply unsalted_write; [|lia|done]. apply unsalted_write; [done|lia|]. by apply encode_bytes.
Qed.

(** Pages that are not in the log are appended. *)
Lemma wp_writeLoop_behind walIndexPage w0 nTruncate isCommit iFirst pList w io iFrame iOffset pLast :
  salted w0 -> behind w0 (w, io) -> (off (Z.of_nat k + 2) <= Z.to_nat iOffset)%nat -> Forall (page_wf szPg) pList ->
  (forall w p, log_same w0 w -> p ∈ pList -> iFirst = 0 \/
     match walFindFrame walIndexPage w (pgno p) (mxFrame (hdr w)) with Ok f => f | Err _ => 0 end < iFirst) ->
  (forall p, pLast = Some p -> page_wf szPg p) ->
  wp 0 [] (writeLoop be walIndexPage pList szPg nTruncate isCommit iFirst iFrame iOffset pLast)
    (fun r s => behind w0 s /\ iReCksum s.1 = iReCksum w /\ r.1.1.1 = iFrame + Z.of_nat (length pList)
       /\ r.1.1.2 = iOffset + Z.of_nat (length pList) * (szPg + WAL_FRAME_HDRSIZE)
       /\ (forall p, r.1.2 = Some p -> page_wf szPg p)
       /\ r.2 = replicate (length pList) true) (w, io).
Proof using Hsz.
  intros Hs. revert w io iFrame iOffset pLast.
  induction pList as [|p rest IH]; intros w io iFrame iOffset pLast Hb Ho Hwf Hnf Hl; cbn [writeLoop].
  { apply wp_io_ret. cbn [fst snd length replicate]. split_and!; try done; lia. }
  apply Forall_cons_1 in Hwf as [Hp Hwf]. apply wp_io_bind, wp_get.
  set (more := match rest with [] => false | _ => true end).
  match goal with |- wp _ _ (if ?g then _ else _) _ _ => assert (g = false) as -> end.
  { destruct (Hnf w p (proj2 Hb) (list_elem_of_here _ _)) as [->|Hlt]; [done|].
    destruct (negb (iFirst =? 0) && (more || negb isCommit)); [|done]. apply Z.leb_gt. done. }
  apply wp_io_bind. eapply wp_io_mono; [by apply (wp_frame_behind w0)|].
  intros [] [w1 io1] [Hb1 Hr1]. cbn [fst snd] in *. apply wp_io_bind.
  eapply wp_io_mono; [apply (IH w1 io1)|].
  - done.
  - unfold WAL_FRAME_HDRSIZE. lia.
  - done.
  - intros w2 p2 Hw2 Hp2. apply Hnf; [done|]. by apply list_elem_of_further.
  - by intros p' [= <-].
  - intros [[[f o] l] fl] s (H1 & H2 & H3 & H4 & H5 & H6). cbn [fst snd] in *. apply wp_io_ret. cbn [fst snd length replicate].
    split_and!; try done; [congruence|lia|lia|by rewrite H6].
Qed.

Lemma wp_rewriteLoop_behind w0 n iRead w io :
  salted w0 -> behind w0 (w, io) -> Z.of_nat k + 2 <= iRead ->
  wp 0 [] (rewriteLoop be n iRead szPg) (fun _ s => behind w0 s /\ iReCksum s.1 = iReCksum w) (w, io).
Proof using Hsz.
  intros Hs. revert iRead w io; induction n as [|n IH]; intros iRead w io Hb Hi; cbn [rewriteLoop]; [by apply wp_io_ret|].
  pose proof Hb as [Hu Hw]. pose proof (salted_same _ _ Hw Hs) as Hs'. cbn [fst snd] in *.
  apply wp_io_bind, wp_read; [by apply any_kept, Hu|]. intros io1 Hb1. apply wp_io_bind, wp_get.
  match goal with |- context [walEncodeFrame be w ?x ?y ?z] =>
    pose proof (encode_bytes w x y z Hs') as Ha; destruct (walEncodeFrame be w x y z) as [a ck] end. cbn [fst] in Ha.
  pose proof (off_mono szPg Hsz (Z.of_nat k + 2) iRead ltac:(lia) ltac:(lia)) as Hoff.
  apply wp_io_bind, wp_modify, wp_io_bind, wp_write; [apply any_kept; rewrite Hb1; apply Hu|lia|done|].
  intros io2 Hb2. eapply wp_io_mono; [apply IH; [|lia]|done].
  split; [|eapply log_same_trans; [done|apply log_same_cksum]]. cbn [snd]. rewrite Hb2, Hb1. by apply unsalted_write.
Qed.

Lemma wp_rewrite_behind mallocOk w0 iLast w io :
  salted w0 -> behind w0 (w, io) -> Z.of_nat k + 2 <= iReCksum w -> szPage w = szPg ->
  wp 0 [] (walRewriteChecksums be mallocOk iLast) (fun _ s => behind w0 s) (w, io).
Proof using Hsz.
  intros Hs [Hu Hw] Hi Hz. unfold walRewriteChecksums. destruct mallocOk; cbn [negb]; [|by apply any_kept, Hu].
  apply wp_io_bind, wp_get. rewrite Hz. unfold wp. cbn [fst snd].
  destruct (osRead_cases io 8 (if iReCksum w =? 1 then 24 else walFrameOffset (iReCksum w - 1) szPg + 16))
    as (rc & d & io1 & -> & Hb1 & _).
  set (w1 := set_iReCksum _ 0).
  assert (log_same w w1) as Hw1 by (eapply log_same_trans; [apply log_same_cksum|apply log_same_re]).
  assert (behind w0 (w1, io1)) as Hb by (split; cbn [fst snd]; [by rewrite Hb1|by eapply log_same_trans]).
  destruct (rc =? SQLITE_OK); [|apply any_kept; rewrite Hb1; apply Hu].
  pose proof (wp_rewriteLoop_behind w0 (Z.to_nat (iLast - iReCksum w + 1)) (iReCksum w) w1 io1 Hs Hb Hi) as H.
  unfold wp in H. cbn [iReCksum setFrameCksum set_hdr] in *. by destruct (rewriteLoop _ _ _ _ _) as [[?|?] ?]; [destruct H|].
Qed.

Lemma wp_padLoop_behind sp p t n w0 w io iOffset nExtra :
  salted w0 -> behind w0 (w, io) -> (off (Z.of_nat k + 2) <= Z.to_nat iOffset)%nat -> page_wf szPg p ->
  wp 0 [] (padLoop be n sp p t iOffset (szPg + WAL_FRAME_HDRSIZE) nExtra)
    (fun r s => behind w0 s /\ exists m, r = (nExtra + m)%nat) (w, io).
Proof using Hsz.
  intros Hs. revert w io iOffset nExtra; induction n as [|n IH]; intros w io iOffset nExtra Hb Ho Hp; cbn [padLoop].
  { apply wp_io_ret. split; [done|]. exists 0%nat. lia. }
  destruct (_ <? sp); [|apply wp_io_ret; split; [done|exists 0%nat; lia]].
  apply wp_io_bind. eapply wp_io_mono; [by apply (wp_frame_behind w0)|]. intros [] [w1 io1] [Hb1 _].
  eapply wp_io_mono; [apply IH; [done|unfold WAL_FRAME_HDRSIZE; lia|done]|].
  intros r s [H (m & ->)]. split; [done|]. exists (S m). lia.
Qed.

Lemma behind_bytes w0 w io io' : behind w0 (w, io) -> bytes io' = bytes io -> behind w0 (w, io').
Proof. unfold behind. cbn [fst snd]. by intros ? ->. Qed.

Lemma wp_padAndSync_behind sectorSize t sync_flags iOffset isCommit pLast w0 w io :
  salted w0 -> behind w0 (w, io) -> (off (Z.of_nat k + 2) <= Z.to_nat iOffset)%nat ->
  (forall p, pLast = Some p -> page_wf szPg p) ->
  wp 0 [] (padAndSync be sectorSize szPg t sync_flags iOffset isCommit pLast) (fun _ s => behind w0 s) (w, io).
Proof using Hsz.
  intros Hs Hb Ho Hp. unfold padAndSync. destruct (_ && _); [|by apply wp_io_ret].
  apply wp_io_bind, wp_get. destruct (padToSectorBoundary w).
  2:{ apply wp_io_bind, wp_sync_rc. intros rc io' E. apply wp_io_ret. by eapply behind_bytes. }
  apply wp_io_bind. apply (wp_io_mono _ _ _ (fun _ s => behind w0 s)).
  - destruct pLast as [p|]; [|by apply wp_io_ret]. eapply wp_io_mono; [apply (wp_padLoop_behind _ _ _ _ w0); auto|]. by intros r s [? _].
  - intros nExtra [w1 io1] Hb1. apply wp_io_bind. destruct (_ =? iOffset); [|by apply wp_io_ret, wp_io_ret].
    apply wp_sync_rc. intros rc io' E. apply wp_io_ret. by eapply behind_bytes.
Qed.

(** The connection after the last steps: the header announces the frames. *)
Definition announced (w0 : Wal) (n : Z) (s : Wal * Io) : Prop :=
  unsalted (bytes s.2) /\ aHdr s.1 = (hdr s.1, hdr s.1) /\ n <= mxFrame (hdr s.1).

Lemma wp_limit_behind iFrame nExtra isCommit w0 w io :
  behind w0 (w, io) -> Z.of_nat k + 1 <= iFrame ->
  wp 0 [] (limitOnCommit szPg iFrame nExtra isCommit)
    (fun _ s => unsalted (bytes s.2) /\ mxFrame (hdr s.1) = mxFrame (hdr w0)) (w, io).
Proof using Hsz.
  intros [Hu Hw] Hi. assert (mxFrame (hdr w) = mxFrame (hdr w0)) as Hmx by (cbn [fst] in Hw; by rewrite Hw).
  unfold limitOnCommit. apply wp_io_bind, wp_get. destruct (_ && _); [|by apply wp_io_ret].
  set (sz := if _ >? _ then _ else _).
  assert (off (Z.of_nat k + 2) <= Z.to_nat sz)%nat as Hle.
  { pose proof (off_mono szPg Hsz (Z.of_nat k + 2) (iFrame + Z.of_nat nExtra + 1) ltac:(lia) ltac:(lia)) as Ho.
    unfold sz, frameOff in *. rewrite Z.gtb_ltb. destruct (Z.ltb_spec (mxWalSize w) (walFrameOffset (iFrame + Z.of_nat nExtra + 1) szPg)); lia. }
  clearbody sz. apply wp_io_bind. destruct (walLimitSize_cases sz w io) as (io1 & E & Hb). unfold wp at 1. rewrite E.
  apply wp_modify. cbn [fst snd] in *. split; [|done]. destruct Hb as [->| ->]; [done|by apply unsalted_take].
Qed.

Lemma wp_appendLoop_io walIndexPage ps i w io :
  Forall is_byte (bytes io) ->
  wp 0 [] (appendLoop walIndexPage ps i) (fun r s => r = i + Z.of_nat (length ps) /\ s.2 = io) (w, io).
Proof.
  intros Hb. revert i w; induction ps as [|p ps IH]; intros i w; cbn [appendLoop length]; [apply wp_io_ret; split; [lia|done]|].
  apply wp_io_bind. unfold wp at 1, indexAppend. cbn [fst snd].
  destruct (walIndexAppend walIndexPage w (i + 1) p) as [rc w1]. destruct (rc =? SQLITE_OK); [|by apply any_kept].
  eapply wp_io_mono; [apply IH|]. intros r s [-> E]. split; [lia|done].
Qed.

(** The first frame has no salt, the others are behind it. *)
Lemma wp_writeLoop_first walIndexPage nTruncate iFirst p rest w io :
  salted w -> Forall is_byte (bytes io) -> take 32 (bytes io) = h -> (off (Z.of_nat k + 1) <= length (bytes io))%nat ->
  Z.of_nat k + 2 <= iReCksum w -> Forall (page_wf szPg) (p :: rest) ->
  (forall w' p', log_same w w' -> p' ∈ p :: rest -> iFirst = 0 \/
     match walFindFrame walIndexPage w' (pgno p') (mxFrame (hdr w')) with Ok f => f | Err _ => 0 end < iFirst) ->
  wp 0 [] (writeLoop be walIndexPage (p :: rest) szPg nTruncate true iFirst (Z.of_nat k)
      (walFrameOffset (Z.of_nat k + 1) szPg) None)
    (fun r s => behind w s /\ iReCksum s.1 = iReCksum w /\ r.1.1.1 = Z.of_nat k + 1 + Z.of_nat (length rest)
       /\ (off (Z.of_nat k + 2) <= Z.to_nat r.1.1.2)%nat /\ (forall p', r.1.2 = Some p' -> page_wf szPg p')
       /\ r.2 = replicate (S (length rest)) true) (w, io).
Proof using Hsz.
  intros Hs Hby H32 Hlen Hre Hwf Hnf. pose proof (Forall_cons_1 _ _ _ Hwf) as [Hp Hwf'].
  pose proof (off_ge szPg Hsz (Z.of_nat k + 1) ltac:(lia)) as H32'. pose proof off_next as Hnext.
  cbn [writeLoop]. apply wp_io_bind, wp_get. set (more := match rest with [] => false | _ => true end).
  match goal with |- wp _ _ (if ?g then _ else _) _ _ => assert (g = false) as -> end.
  { destruct (Hnf w p (log_same_refl w) (list_elem_of_here _ _)) as [->|Hlt]; [done|].
    destruct (negb (iFirst =? 0) && (more || negb true)); [|done]. apply Z.leb_gt. done. }
  apply wp_io_bind. eapply wp_io_mono; [apply (wp_oneFrame 0 p); [done|done|unfold walFrameOffset, WAL_HDRSIZE, WAL_FRAME_HDRSIZE; nia|done]|].
  intros [] [w1 io1] (L1 & R1 & B1). cbn [fst snd] in *.
  set (a := (walEncodeFrame be w (pgno p) _ (pData p)).1) in *. fold (off (Z.of_nat k + 1)) in B1.
  assert (Forall is_byte a /\ length a = 24%nat /\ bytesAt a 8 8 = replicate 8 0) as (Ha & Hla & Hsa).
  { split; [by apply encode_bytes|]. unfold a, walEncodeFrame. destruct (Z.eqb_spec (iReCksum w) 0); [lia|]. cbn [fst].
    split; [by rewrite !length_app, !length_Put4byte, length_replicate|done]. }
  pose proof Hp as (_ & Hd1 & Hd2).
  assert (behind w (w1, io1)) as Hb1.
  { split; [|done]. cbn [snd]. rewrite B1. split.
    - by apply file_write_bytes; [apply file_write_bytes|].
    - rewrite !length_file_write. lia.
    - rewrite <- H32, !take_file_write; rewrite ?length_file_write; done || lia.
    - rewrite bytesAt_write_before by (rewrite ?length_file_write; lia).
      rewrite <- Hsa. replace (bytesAt a 8 8) with (bytesAt (bytesAt (file_write (bytes io) (off (Z.of_nat k + 1)) a)
        (off (Z.of_nat k + 1)) (length a)) 8 8) by by rewrite bytesAt_write_same.
      unfold bytesAt. rewrite skipn_firstn_comm, take_take, drop_drop, Hla. done. }
  apply wp_io_bind. eapply wp_io_mono; [apply (wp_writeLoop_behind walIndexPage w); try done|].
  - replace (walFrameOffset (Z.of_nat k + 1) szPg + (szPg + WAL_FRAME_HDRSIZE)) with (walFrameOffset (Z.of_nat k + 2) szPg)
      by (unfold walFrameOffset, WAL_FRAME_HDRSIZE; lia). done.
  - intros w2 p2 Hw2 Hp2. apply Hnf; [done|]. by apply list_elem_of_further.
  - by intros p' [= <-].
  - intros [[[f o] l] fl] s (G1 & G2 & G3 & G4 & G5 & G6). cbn [fst snd] in *. apply wp_io_ret. cbn [fst snd replicate].
    split_and!; try done; [congruence| |by rewrite G6]. rewrite G4.
    assert (0 <= Z.of_nat (length rest) * (szPg + 24)) by nia. unfold frameOff, walFrameOffset, WAL_FRAME_HDRSIZE, WAL_HDRSIZE in *. lia.
Qed.

Lemma wp_writeFrames_behind walIndexPage sectorSize mallocOk nTruncate sync_flags iFirst p rest w io :
  salted w -> Forall is_byte (bytes io) -> take 32 (bytes io) = h -> (off (Z.of_nat k + 1) <= length (bytes io))%nat ->
  szPage w = szPg -> mxFrame (hdr w) = Z.of_nat k -> Z.of_nat k + 2 <= iReCksum w -> Forall (page_wf szPg) (p :: rest) ->
  (forall w' p', log_same w w' -> p' ∈ p :: rest -> iFirst = 0 \/
     match walFindFrame walIndexPage w' (pgno p') (mxFrame (hdr w')) with Ok f => f | Err _ => 0 end < iFirst) ->
  wp 0 [] (writeFrames be walIndexPage sectorSize mallocOk szPg (p :: rest) nTruncate true sync_flags iFirst (Z.of_nat k) false)
    (fun _ s => announced w (Z.of_nat k + 1 + Z.of_nat (length rest)) s) (w, io).
Proof using Hsz.
  intros Hs Hby H32 Hlen Hz Hmx Hre Hwf Hnf. unfold writeFrames.
  apply wp_io_bind. eapply wp_io_mono; [by apply wp_writeLoop_first|].
  intros [[[iFrame iOffset] pLast] flags] [w1 io1] (L1 & L2 & L3 & L4 & L5 & L6). cbn [fst snd] in *. subst iFrame flags.
  apply wp_io_bind, wp_get, wp_io_bind. pose proof L1 as [_ Lw]. cbn [fst] in Lw.
  assert (szPage w1 = szPg) as Hz1 by by rewrite Lw.
  destruct (Z.eqb_spec (iReCksum w1) 0) as [E0|_]; [lia|]. cbn [negb andb].
  eapply wp_io_mono; [apply (wp_rewrite_behind mallocOk w); try done; lia|]. intros [] [w2 io2] L7.
  apply wp_io_bind. eapply wp_io_mono; [by apply (wp_padAndSync_behind _ _ _ _ _ _ w)|].
  intros [nExtra rc] [w3 io3] L8. apply wp_io_bind.
  eapply wp_io_mono; [apply (wp_limit_behind _ _ _ w); [done|lia]|]. intros [] [w4 io4] [L9 L10]. cbn [fst snd] in *.
  destruct (negb _); [by apply any_kept, L9|]. apply wp_io_bind, wp_get, wp_io_bind.
  eapply wp_io_mono; [by apply wp_appendLoop_io, L9|]. intros r [w5 io5] [-> E5]. cbn [snd] in E5. subst io5.
  rewrite length_app. change (S (length rest)) with (length (p :: rest)). rewrite length_appendedPages_all, L10, Hmx.
  apply wp_io_bind, wp_modify. apply wp_io_ret. cbn [fst snd]. split; [done|]. split; [done|]. cbn. lia.
Qed.
End Behind.

(** ** The rollback to the savepoint *)

(** The file of such a log: recovery finds no commit after frame [k]. *)
Lemma unsalted_recovers walIndexPage szPg c h k b :
  (forall i, 0 <= i -> walIndexPage i = SQLITE_OK) -> unsalted szPg h k b -> c_salt c <> replicate 8 0 ->
  parseHeader b = Some (szPg, c) -> sqlite3Get4byte (bytesAt b 4 4) = WAL_MAX_VERSION ->
  forall be aPrivate r, length (aReadMark (ckptInfo r)) = 5%nat -> Z.of_nat (length b) < 2 ^ 40 ->
  exists r', walIndexRecover be walIndexPage aPrivate (fun _ => SQLITE_OK) true r (mkIo b []) = (SQLITE_OK, r', mkIo b [])
    /\ mxFrame (hdr r') <= Z.of_nat k.
Proof.
  intros Hmap [H1 H2 H3 H4] Hs Hpb Hv be aPrivate r Hm Hl.
  destruct (parseHeader_facts _ _ _ H1 Hpb) as (Hsz & Hc & _).
  destruct (walIndexRecover_ok be walIndexPage aPrivate b r H1 Hl Hm Hmap (native_foreign b _ Hpb Hv))
    as (r' & -> & _ & Hpub).
  exists r'. split; [done|]. rewrite (pb_mxFrame _ _ _ _ Hpub). unfold fileFrames. rewrite Hpb.
  match goal with |- context [scan b szPg ?n 1 c] => pose proof (scan_stops b szPg n 1 c k) as Hk; set (l := scan b szPg n 1 c) in * end.
  assert (length l <= k)%nat as Hle.
  { apply Hk; [|done]. intros c' Es Hc'. apply decodeFrame_salt; [done|]. rewrite Es.
    replace (1 + Z.of_nat k) with (Z.of_nat k + 1) by lia. intros E. apply Hs. rewrite <- E, <- H4.
    unfold bytesAt. rewrite skipn_firstn_comm, take_take, drop_drop. done. }
  pose proof (lastCommit_le 1 l (0, 0, (0, 0)) ltac:(cbn; lia)). lia.
Qed.

Section Lost.
Context (walIndexPage : Z -> Z) (szPg : Z).
Hypothesis Hmap : forall i, 0 <= i -> walIndexPage i = SQLITE_OK.
Context (be : bool) (others : nat -> WalCkptInfo -> WalCkptInfo) (answer : nat -> forall B, event B -> B).
Context (randomSalt : list Z) (sectorSize : Z) (mallocOk : bool).
Hypothesis Hothers : forall k i, info_ok i -> info_ok (others k i).
Hypothesis Hrandom : forall k, salt_ok (answer k _ Randomness).

Local Abbreviation walFrames := (walFrames be walIndexPage others answer randomSalt sectorSize mallocOk).

(** The connection after the rollback. *)
Record undone (c0 : chain) (w0 w : Wal) (b : list Z) (log : list Z) : Prop := {
  un_writer : writer walIndexPage w log;
  un_salt : aSalt (hdr w) = c_salt c0;
  un_page : szPage w = szPg;
  un_live : aHdr w = aHdr w0;
  un_re : iReCksum w = iReCksum w0;
  un_lock : readLock w <> 0;
  un_info : info_ok (ckptInfo w)
}.

Lemma savepoint_undone c0 w b fs sv :
  transaction walIndexPage szPg c0 w b fs -> sv_nCkpt sv = nCkpt w ->
  0 < sv_mxFrame sv -> sv_mxFrame sv + 1 < iReCksum w ->
  undone c0 w (sqlite3WalSavepointUndo walIndexPage w sv).1 b (take (Z.to_nat (sv_mxFrame sv)) (pgs fs)).
Proof.
  intros [[[I1 I2 I3 I5] Hlg Hszw] Hp Hv Hlive Hre Hst Hin] Hn Hpos Hr.
  pose proof (lg_re _ _ _ _ _ _ Hlg) as Hrange. rewrite length_pgs in I2.
  unfold sqlite3WalSavepointUndo. rewrite Hn, Z.eqb_refl. cbn [negb].
  rewrite I2, (proj2 (Z.ltb_lt _ _)) by lia. cbn [fst].
  set (w0 := set_hdr w _). pose proof (same_conn_cleanup walIndexPage w0 w0 (same_conn_refl w0)) as Hsame.
  assert (index_ok (walCleanupHash walIndexPage w0) (take (Z.to_nat (sv_mxFrame sv)) (pgs fs))) as Hidx.
  { apply (walCleanupHash_ok walIndexPage w0 (pgs fs)); [exact I1|rewrite length_pgs; cbn; lia|].
    apply I5, walFramePage_nonneg. }
  rewrite Hsame in Hidx |- *. split; try done; [split; try done| |].
  - rewrite length_take, length_pgs. cbn. lia.
  - apply Hlg.
  - cbn. intros E. specialize (Hst E). lia.
Qed.

Lemma undone_continues c0 w0 w w' b log :
  undone c0 w0 w b log -> info_ok (ckptInfo w') -> restart_result be w false w' ->
  undone c0 w0 w' b log /\ hdr w' = hdr w.
Proof.
  intros [[H1 H2 H3 H4] H5 H6 H7 H8 H9 _] Hi Hr. inversion Hr as [w1 w2 E1 E2 E3|]. subst w2.
  destruct E1 as [[_ ->]|[E _]]; [|done]. destruct E2 as (x & i & ->). cbn in E3.
  split; [|done]. split; try done. cbn. congruence.
Qed.

(** A page that no frame after the first [m] holds. *)
Lemma writer_target w log p m :
  writer walIndexPage w log -> p ∉ drop m log ->
  match walFindFrame walIndexPage w p (mxFrame (hdr w)) with Ok f => f | Err _ => 0 end <= Z.of_nat m.
Proof using.
  intros Hw Hn.
  set (fs := (fun q => (q, 0, @nil Z)) <$> log : list frame).
  assert (pgs fs = log) as Hpgs.
  { unfold pgs, fs. rewrite <- list_fmap_compose. rewrite <- (list_fmap_id log) at 2. by apply list_fmap_ext. }
  pose proof (find_target walIndexPage w log fs p Hw) as Ht.
  assert (length fs = length log) as Hlen by apply length_fmap.
  rewrite Hpgs, !take_ge, drop_ge in Ht by lia. specialize (Ht eq_refl (Forall_nil_2 _)).
  set (iWrite := match walFindFrame _ _ _ _ with Ok f => f | Err _ => 0 end) in *.
  destruct (Z.eq_dec iWrite 0) as [->|Hne]; [lia|]. destruct (Ht Hne) as (k & t & D & -> & Hk & _).
  destruct (decide (k < m)%nat) as [|Hge]; [lia|]. destruct Hn.
  apply list_elem_of_lookup. exists (k - m)%nat. rewrite lookup_drop. replace (m + _)%nat with k by lia.
  unfold fs in Hk. rewrite list_lookup_fmap in Hk. destruct (log !! k) as [q|]; [|done]. cbn in Hk. congruence.
Qed.

(** The commit after the rollback. *)
Lemma wp_undone c0 w w1 b io log p rest nTruncate sync_flags :
  512 <= szPg -> chain_ok c0 -> undone c0 w w1 b log -> Forall is_byte (bytes io) ->
  (frameOff szPg (Z.of_nat (length log) + 1) <= length (bytes io))%nat ->
  (0 < length log)%nat -> 0 <= mxFrame (aHdr w).1 <= Z.of_nat (length log) -> Z.of_nat (length log) < max_frame ->
  Z.of_nat (length log) + 1 < iReCksum w -> Forall (page_wf szPg) (p :: rest) ->
  (forall p', p' ∈ p :: rest -> pgno p' ∉ drop (Z.to_nat (mxFrame (aHdr w).1)) log) ->
  wp 0 [] (afterRestart walIndexPage szPg be randomSalt sectorSize mallocOk (p :: rest) nTruncate true sync_flags (firstFrame w1) false)
    (fun _ s => announced szPg (take 32 (bytes io)) (length log) w1 (Z.of_nat (length log) + 1 + Z.of_nat (length rest)) s) (w1, io).
Proof using.
  intros Hsz Hc Hu Hb Hlen Hpos Hlive Hmax Hre Hwf Hnew. pose proof Hu as [Hw U5 U6 U7 U8 U9 U10]. pose proof (wr_mx _ _ _ Hw) as Hmx.
  unfold afterRestart, writeHeader. apply wp_io_bind, wp_get, wp_io_bind, wp_io_bind, wp_get. rewrite Hmx.
  destruct (Z.eqb_spec (Z.of_nat (length log)) 0) as [|_]; [lia|]. apply wp_io_ret, wp_io_bind, wp_get.
  rewrite U6, Z.eqb_refl. cbn [negb]. apply wp_writeFrames_behind; try done.
  - unfold salted. rewrite U5. apply Hc.
  - lia.
  - intros w2 p2 Hw2 Hp2. pose proof (writer_target w2 log (pgno p2) _ (writer_same _ _ _ _ Hw2 Hw) (Hnew p2 Hp2)).
    rewrite <- U7 in Hlive. destruct (firstFrame_range w1 (length log) Hlive Hmax) as [|Ef]; [by left|right].
    rewrite Ef. rewrite U7 in *. lia.
Qed.

(** C31: [sqlite3WalSavepointUndo] leaves [iReCksum].  In a transaction whose
    first frame written twice is not the next frame after the savepoint but a
    later one, every rollback to the savepoint that is followed by a commit of
    pages not written between the last commit and the savepoint loses this
    commit: [walFrames] reports success and announces the frames in the shared
    header, and a recovery of the file finds no commit after the savepoint. *)
Theorem savepoint_undo_loses_commit c0 w io fs sv pList nTruncate sync_flags n w' io' :
  transaction walIndexPage szPg c0 w (bytes io) fs -> c_salt c0 <> replicate 8 0 ->
  sv_nCkpt sv = nCkpt w -> mxFrame (aHdr w).1 <= sv_mxFrame sv -> 0 < sv_mxFrame sv -> sv_mxFrame sv + 1 < iReCksum w ->
  pList <> [] -> Forall (page_wf szPg) pList ->
  (forall p, p ∈ pList -> pgno p ∉ drop (Z.to_nat (mxFrame (aHdr w).1)) (take (Z.to_nat (sv_mxFrame sv)) (pgs fs))) ->
  walFrames szPg pList nTruncate true sync_flags ((sqlite3WalSavepointUndo walIndexPage w sv).1, io) = (Ok n, (w', io')) ->
  aHdr w' = (hdr w', hdr w') /\ sv_mxFrame sv + Z.of_nat (length pList) <= mxFrame (hdr w')
  /\ forall be' aPrivate r, length (aReadMark (ckptInfo r)) = 5%nat -> Z.of_nat (length (bytes io')) < 2 ^ 40 ->
     exists r', walIndexRecover be' walIndexPage aPrivate (fun _ => SQLITE_OK) true r (mkIo (bytes io') [])
                = (SQLITE_OK, r', mkIo (bytes io') [])
       /\ mxFrame (hdr r') <= sv_mxFrame sv.
Proof using Hmap Hothers Hrandom.
  intros Htx Hsalt Hn Hge Hpos Hre Hne Hwf Hnew Hrun.
  pose proof (savepoint_undone c0 w (bytes io) fs sv Htx Hn Hpos Hre) as Hu.
  set (w0 := (sqlite3WalSavepointUndo walIndexPage w sv).1) in *. set (k := Z.to_nat (sv_mxFrame sv)) in *.
  pose proof Htx as [[[I1 I2 _ _] Hlg _] Hp Hv Hlive _ _ _]. pose proof (lg_re _ _ _ _ _ _ Hlg) as Hrange.
  destruct (parseHeader_facts _ _ _ (lg_bytes _ _ _ _ _ _ Hlg) Hp) as (Hsz & Hc & Hl & _).
  rewrite walFrames_split in Hrun.
  destruct (walRestartLog_ok be others answer Hothers Hrandom w0 io (un_info _ _ _ _ _ Hu)) as (r & w1 & E & Hi & Hr).
  rewrite E in Hrun. destruct r as [[|]|]; [|destruct (undone_continues _ _ _ _ _ _ Hu Hi Hr) as [Hu1 Eh]|done].
  { inversion Hr. by destruct (un_lock _ _ _ _ _ Hu). }
  assert (firstFrame w0 = firstFrame w1) as Ef
    by (unfold firstFrame; by rewrite Eh, (un_live _ _ _ _ _ Hu), (un_live _ _ _ _ _ Hu1)).
  rewrite Ef in Hrun. clear Hr E Hi Hu Eh Ef.
  assert (exists p rest, pList = p :: rest) as (p & rest & ->) by (destruct pList; [done|eauto]).
  assert (length (take k (pgs fs)) = k) as Hlk by (rewrite length_take, length_pgs; lia).
  pose proof (off_mono szPg Hsz (Z.of_nat k + 1) (Z.of_nat (length fs) + 1) ltac:(lia) ltac:(lia)) as Hoff.
  pose proof (lg_len _ _ _ _ _ _ Hlg) as Hlen. pose proof (proj1 (proj2 I1)) as Hmax. rewrite length_pgs in Hmax.
  pose proof (wp_undone c0 w w1 (bytes io) io (take k (pgs fs)) p rest nTruncate sync_flags Hsz Hc Hu1) as Hwp.
  unfold wp in Hwp. rewrite Hrun, Hlk in Hwp.
  destruct Hwp as (A1 & A2 & A3); try done; try lia; [apply Hlg|].
  cbn [fst snd length] in *. split; [done|]. split; [lia|].
  replace (sv_mxFrame sv) with (Z.of_nat k) by lia.
  assert (32 < length (bytes io'))%nat as Hl'.
  { pose proof (us_len _ _ _ _ A1). pose proof (off_ge szPg Hsz (Z.of_nat k + 1) ltac:(lia)).
    pose proof (off_next szPg k Hsz). lia. }
  apply (unsalted_recovers walIndexPage szPg c0 (take 32 (bytes io)) k (bytes io') Hmap A1 Hsalt).
  - rewrite <- Hp. apply parseHeader_prefix; [apply A1|done|done].
  - rewrite <- Hv. f_equal. apply (bytesAt_prefix _ _ 32); [apply A1|lia].
Qed.
End Lost.

(** ** An example

    After two committed frames, frame 3 is written before the savepoint and
    frames 4 and 5 after it; frame 5 is written twice. *)
Definition lost1 : result Z * (Wal * Io) := run [pg 3 1] 0 false (run1.2.1, run1.2.2).
Definition lost2 : result Z * (Wal * Io) := run [pg 4 1; pg 5 1] 0 false (lost1.2.1, lost1.2.2).
Definition lost3 : result Z * (Wal * Io) := run [pg 5 2] 0 false (lost2.2.1, lost2.2.2).
Definition lost4 : result Z * (Wal * Io) :=
  run [pg 6 1; pg 1 1] 6 true ((sqlite3WalSavepointUndo mapped lost3.2.1 (sqlite3WalSavepoint lost1.2.1)).1, lost3.2.2).

Lemma lost1_ok : run [pg 3 1] 0 false (run1.2.1, run1.2.2) = (Ok 0, (lost1.2.1, lost1.2.2)).
Proof. vm_compute. reflexivity. Qed.
Lemma lost2_ok : run [pg 4 1; pg 5 1] 0 false (lost1.2.1, lost1.2.2) = (Ok 0, (lost2.2.1, lost2.2.2)).
Proof. vm_compute. reflexivity. Qed.
Lemma lost3_ok : run [pg 5 2] 0 false (lost2.2.1, lost2.2.2) = (Ok 0, (lost3.2.1, lost3.2.2)).
Proof. vm_compute. reflexivity. Qed.
Lemma lost4_ok :
  run [pg 6 1; pg 1 1] 6 true ((sqlite3WalSavepointUndo mapped lost3.2.1 (sqlite3WalSavepoint lost1.2.1)).1, lost3.2.2)
  = (Ok 2, (lost4.2.1, lost4.2.2)).
Proof. vm_compute. reflexivity. Qed.

Lemma lost4_result : lost4.1 = Ok 2.
Proof. vm_compute. reflexivity. Qed.

Lemma lost_fields :
  mxFrame (hdr lost1.2.1) = 3 /\ mxFrame (aHdr lost3.2.1).1 = 2 /\ iReCksum lost3.2.1 = 5
  /\ nCkpt lost1.2.1 = nCkpt lost3.2.1 /\ readLock lost1.2.1 = 1 /\ readLock lost2.2.1 = 1
  /\ mxFrame (hdr lost2.2.1) = 5 /\ mxFrame (hdr lost3.2.1) = 5
  /\ aSalt (hdr lost3.2.1) = aSalt8 /\ walFramePgno mapped lost3.2.1 3 = 3
  /\ mxFrame (hdr lost4.2.1) = 5 /\ (length (bytes lost4.2.2) < 4000)%nat.
Proof. split_and!; vm_compute; (reflexivity || lia). Qed.

Lemma dirty_lost : dirty_ok 512 [pg 4 1; pg 5 1].
Proof.
  split; [done|]. split; [|by apply (bool_decide_unpack _); vm_compute].
  repeat constructor; cbn [pg pgno pData]; try done; apply Forall_replicate; split; lia.
Qed.

Lemma mapped_spill c w io fs pList n w' io' :
  transaction mapped 512 c w (bytes io) fs -> (0 < mxFrame (hdr w) <= 100) -> readLock w = 1 -> dirty_ok 512 pList ->
  Z.of_nat (length pList) <= 100 -> run pList 0 false (w, io) = (Ok n, (w', io')) ->
  exists fs', transaction mapped 512 c w' (bytes io') fs'.
Proof.
  intros Htx Hmx Hl Hd Hp Hrun. pose proof (wr_mx _ _ _ (ss_writer _ _ _ _ _ _ _ (tx_session _ _ _ _ _ _ Htx))) as E.
  rewrite length_pgs in E.
  destruct (spill_ok mapped 512 (fun _ _ => eq_refl) false alone granted aSalt8 512 true alone_ok granted_salt aSalt8_ok
    c w io fs pList 0 0 n w' io' Htx) as (fs' & H & _); try done.
  - by intros ->; cbn in E; lia.
  - by rewrite Hl.
  - unfold room, max_frame. lia.
  - by exists fs'.
Qed.

Lemma lost3_transaction :
  exists fs c, transaction mapped 512 c lost3.2.1 (bytes lost3.2.2) fs /\ c_salt c = aSalt8
    /\ drop 2 (take 3 (pgs fs)) = [3].
Proof.
  destruct run1_transaction as (fs & c & Htx & _). destruct run1_fields as (R1 & _ & R2).
  destruct lost_fields as (E1 & E2 & E3 & E4 & E5 & E6 & E7 & E8 & E9 & E10 & _).
  destruct (mapped_spill c _ _ _ _ _ _ _ Htx ltac:(rewrite R1; lia) R2 (dirty_one 3 1 ltac:(lia) ltac:(split; lia)) ltac:(cbn; lia) lost1_ok) as [fs1 H1].
  destruct (mapped_spill c _ _ _ _ _ _ _ H1 ltac:(rewrite E1; lia) E5 dirty_lost ltac:(cbn; lia) lost2_ok) as [fs2 H2].
  destruct (mapped_spill c _ _ _ _ _ _ _ H2 ltac:(rewrite E7; lia) E6 (dirty_one 5 2 ltac:(lia) ltac:(split; lia)) ltac:(cbn; lia) lost3_ok) as [fs3 H3].
  exists fs3, c. split; [done|]. pose proof (tx_session _ _ _ _ _ _ H3) as [[I1 I2 _ _] Hlg _].
  split; [by rewrite <- (lg_salt _ _ _ _ _ _ Hlg)|]. rewrite E8 in I2.
  pose proof (walFramePgno_ok mapped (fun _ _ => eq_refl) _ _ 3 I1 ltac:(lia)) as Hp. rewrite E10 in Hp.
  assert (length (pgs fs3) = 5)%nat as Hl by lia. destruct (pgs fs3) as [|a [|b' [|d [|e l]]]]; try (cbn in Hl; lia).
  assert (3 = d) as <- by exact Hp. done.
Qed.

Lemma lost_pages : Forall (page_wf 512) [pg 6 1; pg 1 1].
Proof. repeat constructor; cbn [pg pgno pData]; try done; apply Forall_replicate; split; lia. Qed.

Lemma lost_new p : p ∈ [pg 6 1; pg 1 1] -> pgno p ∉ [3].
Proof. revert p. apply Forall_forall. repeat constructor; cbn [pg pgno]; set_solver. Qed.

Lemma savepoint_undo_loses_commit_witness :
  lost4.1 = Ok 2 /\ mxFrame (hdr lost4.2.1) = 5
  /\ exists r', walIndexRecover false mapped zeroPage (fun _ => SQLITE_OK) true emptyWal (mkIo (bytes lost4.2.2) [])
                = (SQLITE_OK, r', mkIo (bytes lost4.2.2) [])
       /\ mxFrame (hdr r') <= 3.
Proof.
  destruct lost3_transaction as (fs & c & Htx & Hs & Hd).
  destruct lost_fields as (E1 & E2 & E3 & E4 & _ & _ & _ & _ & _ & _ & E5 & E6).
  destruct (savepoint_fields lost1.2.1) as (S1 & _ & S3).
  split; [exact lost4_result|]. split; [exact E5|].
  destruct (savepoint_undo_loses_commit mapped 512 (fun _ _ => eq_refl) false alone granted aSalt8 512 true
    alone_ok granted_salt c lost3.2.1 lost3.2.2 fs (sqlite3WalSavepoint lost1.2.1) [pg 6 1; pg 1 1] 6 0 2 lost4.2.1 lost4.2.2 Htx)
    as (_ & _ & H).
  - rewrite Hs. discriminate.
  - rewrite S3. exact E4.
  - rewrite S1, E1, E2. lia.
  - rewrite S1, E1. lia.
  - rewrite S1, E1, E3. lia.
  - discriminate.
  - exact lost_pages.
  - intros p Hp. rewrite S1, E1, E2. change (Z.to_nat 2) with 2%nat. change (Z.to_nat 3) with 3%nat. rewrite Hd. exact (lost_new p Hp).
  - exact lost4_ok.
  - destruct (H false zeroPage emptyWal eq_refl ltac:(lia)) as (r' & Hr & Hm). exists r'. split; [exact Hr|].
    rewrite S1, E1 in Hm. exact Hm.
Defined.
