(* ===== verification/WalSystem.v ===== *)
(** * Connections on one WAL: the shared state and its transitions

    The state that connections of src/libsql-sqlite3/src/wal.c share, what
    each access of WalShare does to it, and the transition system of any
    number of connections whose accesses interleave.

    Besides the locks, the wal-index, the log and the database, the state has
    three components that no program reads, for the statements: the database
    as it was when the log last started ([base]), the salts that were used,
    and the snapshots that connections have opened and not yet closed. *)

From stdpp Require Import base list numbers option gmap functions relations.
From S2P Require Import Prelude Util Wal WalIndex WalFormat WalSort WalIter WalShare.
#[local] Open Scope Z_scope.

(** ** State *)

(** An open snapshot: the index of the read lock, the frames from [c_min] to
    [c_mx] that the connection uses, and the content of the database at the
    time the snapshot was opened. *)
Record claim := mkClaim {
  c_lock : Z;
  c_mx : Z;
  c_min : Z;
  c_snap : Z -> Z
}.

(** A lock that connection [c] holds is the entry [(c, lockIdx)], true when it
    is exclusive. *)
Record shm := mkShm {
  locks : gmap (nat * Z) bool;
  hdr0 : WalIndexHdr;
  hdr1 : WalIndexHdr;
  backfill : Z;
  attempted : Z;
  marks : list Z;
  log : list (Z * Z);
  db : Z -> Z;
  base : Z -> Z;
  used : list (list Z);
  claims : gmap nat claim
}.

Definition set_locks (s : shm) x :=
  mkShm x (hdr0 s) (hdr1 s) (backfill s) (attempted s) (marks s) (log s) (db s) (base s) (used s) (claims s).
Definition set_hdr0 (s : shm) x :=
  mkShm (locks s) x (hdr1 s) (backfill s) (attempted s) (marks s) (log s) (db s) (base s) (used s) (claims s).
Definition set_hdr1 (s : shm) x :=
  mkShm (locks s) (hdr0 s) x (backfill s) (attempted s) (marks s) (log s) (db s) (base s) (used s) (claims s).
Definition set_backfill (s : shm) x :=
  mkShm (locks s) (hdr0 s) (hdr1 s) x (attempted s) (marks s) (log s) (db s) (base s) (used s) (claims s).
Definition set_attempted (s : shm) x :=
  mkShm (locks s) (hdr0 s) (hdr1 s) (backfill s) x (marks s) (log s) (db s) (base s) (used s) (claims s).
Definition set_marks (s : shm) x :=
  mkShm (locks s) (hdr0 s) (hdr1 s) (backfill s) (attempted s) x (log s) (db s) (base s) (used s) (claims s).
Definition set_log (s : shm) x :=
  mkShm (locks s) (hdr0 s) (hdr1 s) (backfill s) (attempted s) (marks s) x (db s) (base s) (used s) (claims s).
Definition set_db (s : shm) x :=
  mkShm (locks s) (hdr0 s) (hdr1 s) (backfill s) (attempted s) (marks s) (log s) x (base s) (used s) (claims s).
Definition set_base (s : shm) x :=
  mkShm (locks s) (hdr0 s) (hdr1 s) (backfill s) (attempted s) (marks s) (log s) (db s) x (used s) (claims s).
Definition set_used (s : shm) x :=
  mkShm (locks s) (hdr0 s) (hdr1 s) (backfill s) (attempted s) (marks s) (log s) (db s) (base s) x (claims s).
Definition set_claims (s : shm) x :=
  mkShm (locks s) (hdr0 s) (hdr1 s) (backfill s) (attempted s) (marks s) (log s) (db s) (base s) (used s) x.

(** ** Content *)

(** The image in a frame. *)
Definition image (log : list (Z * Z)) (f : Z) : Z := default 0 (snd <$> log !! Z.to_nat (f - 1)).

(** The newest frame of page [p] from frame [lo] to frame [hi], 0 for none. *)
Definition frameOf (log : list (Z * Z)) (p lo hi : Z) : Z :=
  lookBack log.*1 p lo (Z.to_nat hi).

(** Page [p] of the database, with the first [m] frames applied to [base]. *)
Definition view (base : Z -> Z) (log : list (Z * Z)) (m p : Z) : Z :=
  let f := frameOf log p 1 m in
  if f =? 0 then base p else image log f.

(** The last committed content. *)
Definition committed (s : shm) : Z -> Z := view (base s) (log s) (mxFrame (hdr0 s)).

(** What a connection reads for page [p] when it holds read lock [lock] and
    uses the frames from [lo] to [hi]: the frame that [walFindFrame] finds, or
    else the database file. *)
Definition pageRead (s : shm) (lock lo hi p : Z) : Z :=
  let f := if lock =? 0 then 0 else frameOf (log s) p lo hi in
  if f =? 0 then db s p else image (log s) f.

(** ** Accesses *)

(** What the environment decides: a result code (0 for success), a number and
    a random value. *)
Record outcome := mkOutcome { o_rc : Z; o_val : Z; o_bytes : list Z }.

Definition inRange (lockIdx n j : Z) : bool := (lockIdx <=? j) && (j <? lockIdx + n).

Definition grantShared (s : shm) (j : Z) : bool :=
  bool_decide (map_Forall (fun k x => k.2 = j -> x = false) (locks s)).

Definition grantExclusive (s : shm) (lockIdx n : Z) : bool :=
  bool_decide (map_Forall (fun k _ => inRange lockIdx n k.2 = false) (locks s)).

(** Release of a shared lock ends the snapshot that it protects. *)
Definition unclaim (c : nat) (lockIdx : Z) (cl : gmap nat claim) : gmap nat claim :=
  match cl !! c with
  | Some x => if WAL_READ_LOCK (c_lock x) =? lockIdx then delete c cl else cl
  | None => cl
  end.

(** A new [aHdr[0]].  The log starts again when the new header has no frame,
    and then the database is complete; a connection that commits goes on with
    the snapshot it has made. *)
Definition storeHdr0 (c : nat) (h : WalIndexHdr) (s : shm) : shm :=
  let s' := set_used (set_hdr0 s h) (aSalt h :: used s) in
  let s' := if mxFrame h =? 0 then set_base s' (db s) else s' in
  match claims s !! c with
  | Some x =>
      if c_lock x =? 0 then s'
      else set_claims s' (<[c := mkClaim (c_lock x) (mxFrame h) (c_min x) (committed s')]> (claims s'))
  | None => s'
  end.

(** The salts of a log that starts again are new: half of them is random and
    the other half counts the restarts. *)
Definition freshSalt (h : WalIndexHdr) (s : shm) : bool :=
  negb (mxFrame h =? 0) && bool_decide (aSalt h = aSalt (hdr0 s))
  || bool_decide (aSalt h ∉ used s).

Definition ok_or (rc : Z) (s s' : shm) : Z * shm :=
  if rc =? SQLITE_OK then (rc, s') else (rc, s).

Definition sem (c : nat) {B} (e : event B) (o : outcome) (s : shm) : option (B * shm) :=
  match e in event B return option (B * shm) with
  | LockShared j => Some (
      if negb (o_rc o =? SQLITE_OK) then (o_rc o, s)
      else if grantShared s j then (SQLITE_OK, set_locks s (<[(c, j) := false]> (locks s)))
      else (SQLITE_BUSY, s))
  | UnlockShared j =>
      Some (tt, set_claims (set_locks s (delete (c, j) (locks s))) (unclaim c j (claims s)))
  | LockExclusive j n => Some (
      if negb (o_rc o =? SQLITE_OK) then (o_rc o, s)
      else if grantExclusive s j n then
        (SQLITE_OK, set_locks s (foldr (fun i => insert (c, i) true) (locks s) (seqZ j n)))
      else (SQLITE_BUSY, s))
  | UnlockExclusive j n =>
      Some (tt, set_locks s (foldr (fun i => delete (c, i)) (locks s) (seqZ j n)))
  | IndexPage =>
      if o_rc o =? SQLITE_READONLY_CANTINIT then None else Some (o_rc o, s)
  | IndexMapped => Some (o_rc o =? SQLITE_OK, s)
  | ReadHdr copy => Some (if copy : bool then hdr1 s else hdr0 s, s)
  | WriteHdr copy h =>
      if copy : bool then Some (tt, set_hdr1 s h)
      else if freshSalt h s then Some (tt, storeHdr0 c h s) else None
  | Validate i h lo => Some (
      if bool_decide (hdr0 s = h) then
        (true, set_claims s (<[c := mkClaim i (mxFrame h) lo (committed s)]> (claims s)))
      else (false, s))
  | LoadMark i => Some (nthZ (marks s) i, s)
  | StoreMark i v => Some (tt, set_marks s (setZ (marks s) i v))
  | LoadBackfill => Some (backfill s, s)
  | StoreBackfill v => Some (tt, set_backfill s v)
  | StoreAttempted v => Some (tt, set_attempted s v)
  | Iterate w nBackfill mxSafeFrame ignore => Some (
      if negb (o_rc o =? SQLITE_OK) then Err (o_rc o)
      else
        let pgs := (log s).*1 in
        Ok ((fun f => (pageAt pgs f, f)) <$>
            filter (fun f => pickZ w pgs (walFramePage (nBackfill + 1)) mxSafeFrame ignore (pageAt pgs f) = f)
                   (countdown (Z.to_nat (mxFrame (hdr w))))), s)
  | ReadFrame f => Some (if o_rc o =? SQLITE_OK then Ok (image (log s) f) else Err (o_rc o), s)
  | Append f frames =>
      Some (tt, set_log s (take (Z.to_nat f) (log s) ++ frames
                           ++ drop (Z.to_nat f + length frames) (log s)))
  | SyncWal => Some (o_rc o, s)
  | TruncateWal => Some (ok_or (o_rc o) s (set_log s []))
  | DbSize => Some (if o_rc o =? SQLITE_OK then Ok (o_val o) else Err (o_rc o), s)
  | WriteDb p v => Some (ok_or (o_rc o) s (set_db s (<[p := v]> (db s))))
  | TruncateDb n => Some (ok_or (o_rc o) s (set_db s (fun p => if p <=? n then db s p else 0)))
  | SyncDb => Some (o_rc o, s)
  | Interrupted => Some (o_rc o, s)
  | Callback => Some (o_rc o, s)
  | Busy => Some (negb (o_rc o =? SQLITE_OK), s)
  | Randomness => Some (o_bytes o, s)
  | Outside => None
  end.

(** ** The transition system *)

(** The operations that the pager starts on a connection. *)
Inductive op : Type :=
| BeginRead
| EndRead
| BeginWrite
| Write (frames : list (Z * Z)) (nTruncate : Z) (isCommit : bool)
| EndWrite
| Checkpoint (eMode : Z) (xBusy : option nat) (nBuf : Z) (xCb : bool).

Section System.
Context (be : bool) (nPages : Z).

(** What the code asserts of the connection, and of the pager that it never
    checkpoints within a transaction.  The database keeps its first [nPages]
    pages, and the log has less than [max_frame] frames. *)
Definition enabled (w : Wal) (o : op) : bool :=
  match o with
  | BeginRead => (readLock w <? 0) && negb (writeLock w)
  | EndRead | EndWrite => true
  | BeginWrite => (readLock w >=? 0) && negb (writeLock w)
  | Write frames nTruncate _ =>
      writeLock w && (readLock w >=? 0) && (nPages <=? nTruncate) && negb (length frames =? 0)%nat
      && (mxFrame (hdr w) + Z.of_nat (length frames) <? max_frame)
  | Checkpoint eMode xBusy _ _ => (readLock w <? 0) && negb (writeLock w)
  end.

Definition program (w : Wal) (o : op) : prog Wal :=
  match o with
  | BeginRead => '(_, _, w) ← sqlite3WalBeginReadTransaction be w false; Ret w
  | EndRead => sqlite3WalEndReadTransaction w
  | BeginWrite => '(_, w) ← sqlite3WalBeginWriteTransaction w; Ret w
  | Write frames nTruncate isCommit => '(_, w) ← walWriteTxn be w frames nTruncate isCommit; Ret w
  | EndWrite => sqlite3WalEndWriteTransaction w
  | Checkpoint eMode xBusy nBuf xCb =>
      '(_, _, w) ← sqlite3WalCheckpoint be w eMode xBusy nBuf xCb; Ret w
  end.

(** A connection is between operations ([Ret w]) or in one. *)
Record system := mkSystem { shared : shm; conns : nat -> prog Wal }.

(** Connection [c] starts an operation, or does one access that [may] allow. *)
Inductive step (may : forall B, nat -> event B -> shm -> Prop) : system -> system -> Prop :=
| step_start s t c w o :
    t c = Ret w -> enabled w o = true ->
    step may (mkSystem s t) (mkSystem s (<[c := program w o]> t))
| step_act s t c B (e : event B) k o b s' :
    t c = Act e k -> may B c e s -> sem c e o s = Some (b, s') ->
    step may (mkSystem s t) (mkSystem s' (<[c := k b]> t)).

(** Any access. *)
Definition anyAccess (B : Type) (c : nat) (e : event B) (s : shm) : Prop := True.

Definition noOtherCheckpoint (c : nat) (s : shm) : Prop :=
  forall c', c' <> c -> locks s !! (c', WAL_CKPT_LOCK) = None.

(** The log does not start again while another connection runs a checkpoint. *)
Definition noOverlap (B : Type) (c : nat) (e : event B) (s : shm) : Prop :=
  match e with
  | WriteHdr false h => mxFrame h = 0 -> noOtherCheckpoint c s
  | StoreBackfill _ => noOtherCheckpoint c s
  | _ => True
  end.
End System.

(** ** Executions *)

Definition isFree (c : nat) (s : shm) : bool :=
  bool_decide (map_Forall (fun k _ => k.2 = WAL_CKPT_LOCK -> k.1 = c) (locks s)).

(** [noOverlap], to compute. *)
Definition overlapFree (B : Type) (c : nat) (e : event B) (s : shm) : bool :=
  match e with
  | WriteHdr false h => negb (mxFrame h =? 0) || isFree c s
  | StoreBackfill _ => isFree c s
  | _ => true
  end.

Lemma isFree_ok c s : isFree c s = true -> noOtherCheckpoint c s.
Proof.
  intros H%bool_decide_eq_true c' Hne. destruct (locks s !! (c', WAL_CKPT_LOCK)) as [x|] eqn:E; [|done].
  destruct Hne. exact (H (c', WAL_CKPT_LOCK) x E eq_refl).
Qed.

Lemma overlapFree_ok B c (e : event B) s : overlapFree B c e s = true -> noOverlap B c e s.
Proof.
  destruct e; cbn; try done; [destruct copy; [done|]; intros H Hz; rewrite Hz in H|]; by apply isFree_ok.
Qed.

(** A schedule: start an operation; do at most [n] accesses of the operation.
    The accesses succeed, unless a lock is taken; a random value is four
    bytes. *)
Inductive command : Type :=
| Start (c : nat) (o : op)
| Go (c n : nat).

Definition success : outcome := mkOutcome SQLITE_OK 0 [7; 7; 7; 7].

Section Run.
Context (be : bool) (nPages : Z).
Context (may : forall B, nat -> event B -> shm -> Prop) (ok : forall B, nat -> event B -> shm -> bool).
Hypothesis ok_may : forall B c e s, ok B c e s = true -> may B c e s.

Fixpoint go (n c : nat) (S : system) : option system :=
  match n with
  | O => Some S
  | Datatypes.S n' =>
      match conns S c with
      | Ret w => Some S
      | @Act _ B e k =>
          if ok B c e (shared S) then
            '(b, s') ← sem c e success (shared S);
            go n' c (mkSystem s' (<[c := k b]> (conns S)))
          else None
      end
  end.

Fixpoint run (l : list command) (S : system) : option system :=
  match l with
  | [] => Some S
  | Start c o :: l =>
      match conns S c with
      | Ret w =>
          if enabled nPages w o
          then run l (mkSystem (shared S) (<[c := program be w o]> (conns S))) else None
      | Act _ _ => None
      end
  | Go c n :: l => S ← go n c S; run l S
  end.

Lemma go_steps (A : nat -> Prop) n c S S' :
  A c -> go n c S = Some S' ->
  rtc (fun S S' => step be nPages may S S' /\ forall c', ~ A c' -> conns S' c' = conns S c') S S'.
Proof using ok_may.
  intros HA. revert S; induction n as [|n IH]; intros S; simpl; [by intros [= <-]|].
  destruct (conns S c) as [w|B e k] eqn:E; [by intros [= <-]|].
  destruct (ok B c e (shared S)) eqn:Eok; [|done].
  destruct (sem c e success (shared S)) as [[b s']|] eqn:Es; [|done]. simpl. intros H%IH.
  eapply rtc_l; [|done]. destruct S as [s t]. split; [eapply step_act; eauto|].
  intros c' Hc'. simpl. rewrite fn_lookup_insert_ne; [done|]. by intros ->.
Qed.

(** A schedule of the connections in [A] leaves the others alone. *)
Lemma run_steps (A : nat -> Prop) l S S' :
  Forall (fun x => A (match x with Start c _ => c | Go c _ => c end)) l -> run l S = Some S' ->
  rtc (fun S S' => step be nPages may S S' /\ forall c', ~ A c' -> conns S' c' = conns S c') S S'.
Proof using ok_may.
  intros HA. revert S; induction HA as [|[c o|c n] l HAx HAl IH]; intros S; simpl; [by intros [= <-]| |].
  - destruct (conns S c) as [w|B e k] eqn:E; [|done].
    destruct (enabled nPages w o) eqn:Ee; [|done]. intros H%IH.
    eapply rtc_l; [|done]. destruct S as [s t]. split; [by eapply step_start|].
    intros c' Hc'. simpl. rewrite fn_lookup_insert_ne; [done|]. by intros ->.
  - destruct (go n c S) as [S1|] eqn:E; [|done]. simpl. intros H%IH.
    etrans; [by eapply go_steps|done].
Qed.

Lemma run_reach l S S' : run l S = Some S' -> rtc (step be nPages may) S S'.
Proof using ok_may.
  intros H. eapply rtc_subrel; [|apply (run_steps (fun _ => True) l); [|done]].
  - by intros S1 S2 [H1 _].
  - apply Forall_forall. by intros [].
Qed.
End Run.
