(* ===== verification/WalProtocol.v ===== *)
(** * The protocol of the shared WAL

    The invariant of what the connections share ([Inv]), what a connection
    can rely on while the others work ([rely]), the logic of the programs of
    WalShare under these ([wp]), and the rule of each access: what the
    connection must know (the locks it holds, the marks it has set) to keep
    the invariant and what the others rely on. *)

From stdpp Require Import base list numbers option gmap functions relations.
From S2P Require Import Prelude Util Wal WalIndex WalFormat WalSort WalIter WalShare WalSystem.
#[local] Open Scope Z_scope.

(** ** Frames *)

(** [frameOf] finds a frame of the page, and there is none later. *)
Lemma frameOf_cases log p lo hi :
  0 <= hi ->
  (frameOf log p lo hi = 0 /\ forall f, 1 <= f <= hi -> lo <= f -> pageAt log.*1 f <> p)
  \/ (1 <= frameOf log p lo hi <= hi /\ lo <= frameOf log p lo hi
      /\ pageAt log.*1 (frameOf log p lo hi) = p
      /\ forall f, frameOf log p lo hi < f <= hi -> pageAt log.*1 f <> p).
Proof.
  intros Hhi. unfold frameOf. remember (Z.to_nat hi) as n eqn:Hn.
  replace hi with (Z.of_nat n) by lia. clear Hn Hhi.
  induction n as [|n IH]; cbn [lookBack]; [left; split; [done|lia]|].
  destruct (Z.ltb_spec (Z.of_nat (S n)) lo); [left; split; [done|lia]|].
  destruct (Z.eqb_spec (nthZ log.*1 (Z.of_nat n)) p) as [E|E].
  - right. split; [lia|]. split; [lia|]. split; [|lia]. unfold pageAt. rewrite <- E. f_equal. lia.
  - assert (pageAt log.*1 (Z.of_nat (S n)) <> p) as Hlast.
    { unfold pageAt. by replace (Z.of_nat (S n) - 1) with (Z.of_nat n) by lia. }
    destruct IH as [[IH1 IH2]|(IH1 & IH2 & IH3 & IH4)]; [left|right].
    + split; [done|]. intros f Hf Hlo. destruct (decide (f = Z.of_nat (S n))) as [->|]; [done|].
      apply IH2; lia.
    + split; [lia|]. split; [done|]. split; [done|]. intros f Hf.
      destruct (decide (f = Z.of_nat (S n))) as [->|]; [done|]. apply IH4; lia.
Qed.

Lemma frameOf_range log p lo hi : 0 <= hi -> 0 <= frameOf log p lo hi <= hi.
Proof. intros H. destruct (frameOf_cases log p lo hi H) as [[-> _]|[? _]]; lia. Qed.

(** No frame from [lo] on: the newest frame is before [lo]. *)
Lemma frameOf_gap log p lo hi :
  0 <= hi -> 1 <= lo -> frameOf log p lo hi = 0 -> frameOf log p 1 hi < lo.
Proof.
  intros Hhi Hlo H0. destruct (frameOf_cases log p lo hi Hhi) as [[_ Hno]|(Hr & _)]; [|lia].
  destruct (frameOf_cases log p 1 hi Hhi) as [[-> _]|(Hr & _ & Hp & _)]; [lia|].
  destruct (Z.lt_ge_cases (frameOf log p 1 hi) lo); [done|]. exfalso.
  apply (Hno (frameOf log p 1 hi)); [lia|lia|done].
Qed.

Lemma frameOf_hit log p lo hi g :
  lo <= g -> 1 <= g <= hi -> pageAt log.*1 g = p -> g <= frameOf log p lo hi.
Proof.
  intros Hlo Hg Hp. destruct (frameOf_cases log p lo hi) as [[_ Hno]|(_ & _ & _ & Hlast)]; [lia| |].
  - by destruct (Hno g).
  - destruct (Z.le_gt_cases g (frameOf log p lo hi)); [done|].
    destruct (Hlast g); [lia|done].
Qed.

(** The newest frame up to [hi'] when it is at most [hi]. *)
Lemma frameOf_shrink log p hi hi' :
  0 <= hi <= hi' -> frameOf log p 1 hi' <= hi -> frameOf log p 1 hi' = frameOf log p 1 hi.
Proof.
  intros Hhi Hle.
  destruct (frameOf_cases log p 1 hi') as [[E Hno]|(Hr & _ & Hp & Hlast)]; [lia| |].
  - rewrite E. destruct (frameOf_cases log p 1 hi) as [[-> _]|(Hr' & _ & Hp' & _)]; [lia|done|].
    destruct (Hno (frameOf log p 1 hi)); [lia|lia|done].
  - apply Z.le_antisymm; [apply frameOf_hit; [lia|lia|done]|].
    destruct (frameOf_cases log p 1 hi) as [[-> _]|(Hr' & _ & Hp' & _)]; [lia|lia|].
    destruct (Z.le_gt_cases (frameOf log p 1 hi) (frameOf log p 1 hi')); [done|].
    destruct (Hlast (frameOf log p 1 hi)); [lia|done].
Qed.

(** Only the first [hi] frames matter. *)
Lemma frameOf_prefix log log' p lo hi :
  take (Z.to_nat hi) log = take (Z.to_nat hi) log' -> frameOf log p lo hi = frameOf log' p lo hi.
Proof. intros E. unfold frameOf. apply lookBack_prefix. by rewrite <- !fmap_take, E. Qed.

Lemma image_prefix log log' f hi :
  take (Z.to_nat hi) log = take (Z.to_nat hi) log' -> 1 <= f <= hi -> image log f = image log' f.
Proof.
  intros E Hf. unfold image.
  rewrite <- (lookup_take_lt log (Z.to_nat hi)), <- (lookup_take_lt log' (Z.to_nat hi)), E by lia. done.
Qed.

Lemma pageAt_prefix (log log' : list (Z * Z)) f hi :
  take (Z.to_nat hi) log = take (Z.to_nat hi) log' -> 1 <= f <= hi ->
  pageAt log.*1 f = pageAt log'.*1 f.
Proof.
  intros E Hf. unfold pageAt, nthZ. rewrite !list_lookup_fmap.
  rewrite <- (lookup_take_lt log (Z.to_nat hi)), <- (lookup_take_lt log' (Z.to_nat hi)), E by lia. done.
Qed.

Lemma view_prefix b log log' m p :
  0 <= m -> take (Z.to_nat m) log = take (Z.to_nat m) log' -> view b log m p = view b log' m p.
Proof.
  intros Hm E. unfold view. rewrite (frameOf_prefix _ _ p 1 m E).
  destruct (Z.eqb_spec (frameOf log' p 1 m) 0) as [|Hne]; [done|].
  apply (image_prefix _ _ _ m); [done|]. pose proof (frameOf_range log' p 1 m Hm). lia.
Qed.

Lemma view_shrink b log m m' p :
  0 <= m <= m' -> frameOf log p 1 m' <= m -> view b log m' p = view b log m p.
Proof. intros Hm Hf. unfold view. by rewrite (frameOf_shrink _ _ m m'). Qed.

Lemma view_0 b log p : view b log 0 p = b p.
Proof. done. Qed.

(** ** The invariant *)

Section Snapshot.
Context (be : bool) (nPages : Z).

Abbreviation mx s := (mxFrame (hdr0 s)).

(** A header that [walIndexTryHdr] accepts. *)
Definition hdr_valid (h : WalIndexHdr) : Prop :=
  isInit h <> 0 /\ walChecksumBytes be true (hdrBytes be h) (0, 0) = aCksum h
  /\ iVersion h = WALINDEX_MAX_VERSION.

(** The connection that holds these locks is restarting the log. *)
Definition restarting (s : shm) : Prop :=
  exists c, locks s !! (c, WAL_WRITE_LOCK) = Some true
    /\ forall i, 1 <= i <= 4 -> locks s !! (c, WAL_READ_LOCK i) = Some true.

(** An open snapshot is protected: by the lock on the database file, or by a
    mark that is not beyond it. *)
Definition claim_ok (s : shm) (c : nat) (x : claim) : Prop :=
  locks s !! (c, WAL_READ_LOCK (c_lock x)) = Some false
  /\ if decide (c_lock x = 0) then forall p, p <= nPages -> db s p = c_snap x p
     else 1 <= c_lock x <= 4
       /\ nthZ (marks s) (c_lock x) <= c_mx x <= mx s /\ 0 <= c_mx x
       /\ (1 <= c_min x <= backfill s + 1 /\ c_min x <= c_mx x + 1)
       /\ (forall p, p <= nPages -> c_snap x p = view (base s) (log s) (c_mx x) p)
       /\ (forall p, p <= nPages -> frameOf (log s) p (c_min x) (c_mx x) = 0 -> db s p = c_snap x p).

Record Inv (s : shm) : Prop := {
  iv_excl : forall c c' j x, locks s !! (c, j) = Some true -> locks s !! (c', j) = Some x -> c = c';
  iv_mx : 0 <= mx s <= Z.of_nat (length (log s));
  iv_max : mx s < max_frame;
  iv_pages : nPages <= nPage (hdr0 s);
  iv_valid : hdr_valid (hdr0 s);
  iv_same : hdr1 s = hdr0 s \/ exists c, locks s !! (c, WAL_WRITE_LOCK) = Some true;
  iv_salt : aSalt (hdr0 s) ∈ used s;
  iv_back : 0 <= backfill s /\ (backfill s <= mx s \/ restarting s);
  iv_db : forall p, p <= nPages -> frameOf (log s) p 1 (mx s) <= backfill s -> db s p = committed s p;
  iv_marks : length (marks s) = 5%nat;
  iv_claims : forall c x, claims s !! c = Some x -> claim_ok s c x
}.

(** ** What the others may do *)

(** The log only grows. *)
Record grows (s s' : shm) : Prop := {
  gw_back : backfill s <= backfill s';
  gw_mx : mx s <= mx s';
  gw_log : take (Z.to_nat (mx s)) (log s') = take (Z.to_nat (mx s)) (log s);
  gw_base : base s' = base s
}.

Definition holdsMark (s : shm) (c : nat) : Prop :=
  exists i x, 1 <= i <= 4 /\ locks s !! (c, WAL_READ_LOCK i) = Some x.

(** What connection [c] can rely on while other connections take steps. *)
Record rely (c : nat) (s s' : shm) : Prop := {
  r_locks : forall j, locks s' !! (c, j) = locks s !! (c, j);
  r_claim : claims s' !! c = claims s !! c;
  r_used : used s ⊆ used s';
  r_mark : forall i x, 1 <= i <= 4 -> locks s !! (c, WAL_READ_LOCK i) = Some x ->
             nthZ (marks s') i = nthZ (marks s) i;
  r_write : locks s !! (c, WAL_WRITE_LOCK) = Some true ->
             hdr0 s' = hdr0 s /\ hdr1 s' = hdr1 s /\ log s' = log s /\ backfill s <= backfill s'
             /\ (backfill s <= mx s -> backfill s' <= mx s);
  r_grow : holdsMark s c \/ locks s !! (c, WAL_CKPT_LOCK) = Some true -> grows s s';
  r_ckpt : locks s !! (c, WAL_CKPT_LOCK) = Some true ->
             backfill s' = backfill s /\ db s' = db s
             /\ forall c' x, claims s' !! c' = Some x -> claims s !! c' = Some x \/ mx s <= c_mx x;
  r_epoch : forall salt m, salt ∈ used s -> (aSalt (hdr0 s) = salt -> m <= mx s) ->
             aSalt (hdr0 s') = salt -> m <= mx s';
  r_epoch_back : forall salt m, salt ∈ used s ->
             (aSalt (hdr0 s) = salt -> m <= mx s /\ m <= backfill s) ->
             aSalt (hdr0 s') = salt -> m <= mx s' /\ m <= backfill s'
}.

Lemma grows_refl s : grows s s.
Proof. by split. Qed.

Lemma grows_trans s s' s'' : grows s s' -> grows s' s'' -> grows s s''.
Proof.
  intros [A1 A2 A3 A4] [B1 B2 B3 B4]. split; [lia|lia| |congruence].
  rewrite <- A3. apply (take_eq_le _ _ (Z.to_nat (mx s'))); [done|lia].
Qed.

Lemma rely_refl c s : rely c s s.
Proof. split; intros; auto using grows_refl; split_and!; auto; lia. Qed.

Lemma holdsMark_locks c s s' :
  (forall j, locks s' !! (c, j) = locks s !! (c, j)) -> holdsMark s c -> holdsMark s' c.
Proof. intros Heq (i & x & Hi & Hx). exists i, x. by rewrite Heq. Qed.

Lemma rely_trans c s s' s'' : rely c s s' -> rely c s' s'' -> rely c s s''.
Proof.
  intros HA HB.
  assert (holdsMark s c \/ locks s !! (c, WAL_CKPT_LOCK) = Some true ->
          holdsMark s' c \/ locks s' !! (c, WAL_CKPT_LOCK) = Some true) as Hh.
  { intros [H|H]; [left; eapply holdsMark_locks; [apply HA|done]|right].
    by rewrite (r_locks _ _ _ HA). }
  split.
  - intros j. by rewrite (r_locks _ _ _ HB), (r_locks _ _ _ HA).
  - by rewrite (r_claim _ _ _ HB), (r_claim _ _ _ HA).
  - etrans; [apply HA|apply HB].
  - intros i x Hi Hx. rewrite (r_mark _ _ _ HB i x Hi), (r_mark _ _ _ HA i x Hi Hx); [done|].
    by rewrite (r_locks _ _ _ HA).
  - intros Hw. destruct (r_write _ _ _ HA Hw) as (A1 & A2 & A3 & A4 & A5).
    rewrite <- (r_locks _ _ _ HA) in Hw. destruct (r_write _ _ _ HB Hw) as (B1 & B2 & B3 & B4 & B5).
    rewrite A1 in B5. split_and!; [congruence|congruence|congruence|lia|auto].
  - intros Hg. eapply grows_trans; [by apply HA|]. by apply HB, Hh.
  - intros Hc. destruct (r_ckpt _ _ _ HA Hc) as (A1 & A2 & A3).
    pose proof (r_grow _ _ _ HA (or_intror Hc)) as Hgr.
    rewrite <- (r_locks _ _ _ HA) in Hc. destruct (r_ckpt _ _ _ HB Hc) as (B1 & B2 & B3).
    split_and!; [congruence|congruence|]. intros c' x Hx.
    destruct (B3 c' x Hx) as [H|H]; [by apply A3|]. right. pose proof (gw_mx _ _ Hgr). lia.
  - intros salt m Hs Hm. apply HB; [by apply (r_used _ _ _ HA)|]. by apply HA.
  - intros salt m Hs Hm. apply HB; [by apply (r_used _ _ _ HA)|]. by apply HA.
Qed.

(** What connection [c] does must be acceptable to the others. *)
Definition guar (c : nat) (s s' : shm) : Prop := forall c', c' <> c -> rely c' s s'.

(** ** Programs *)

(** Accesses of this file. *)
Definition inside {B} (e : event B) : Prop := match e with Outside => False | _ => True end.

(** Only the commit of a transaction changes the committed content. *)
Definition preserves {B} (e : event B) (s s' : shm) : Prop :=
  match e with
  | WriteHdr false h => mxFrame h <> 0 \/ forall p, p <= nPages -> committed s' p = committed s p
  | _ => forall p, p <= nPages -> committed s' p = committed s p
  end.

(** From [s], whatever the others do between its accesses, connection [c] can
    run [p]: it keeps the invariant and the guarantee, and ends with [Q]. *)
Fixpoint wp {A} (c : nat) (p : prog A) (Q : A -> shm -> Prop) (s : shm) : Prop :=
  match p with
  | Ret a => Q a s
  | Act e k =>
      forall s1, rely c s s1 -> Inv s1 ->
      inside e /\
      forall o b s2, noOverlap _ c e s1 -> sem c e o s1 = Some (b, s2) ->
        Inv s2 /\ guar c s1 s2 /\ preserves e s1 s2 /\ wp c (k b) Q s2
  end.

Lemma wp_rely {A} c (p : prog A) Q s s' :
  (forall a s s', rely c s s' -> Inv s' -> Q a s -> Q a s') ->
  rely c s s' -> Inv s' -> wp c p Q s -> wp c p Q s'.
Proof.
  intros HQ Hr Hi. destruct p as [a|B e k]; simpl; [by apply HQ|].
  intros H s1 Hr1. apply H. by eapply rely_trans.
Qed.

Lemma wp_bind {A B} c (p : prog A) (f : A -> prog B) Q s :
  wp c p (fun a => wp c (f a) Q) s -> wp c (p ≫= f) Q s.
Proof.
  revert s; induction p as [a|B' e k IH]; intros s; simpl; [done|].
  intros H s1 Hr Hi. destruct (H s1 Hr Hi) as [He Hsem]. split; [done|].
  intros o b s2 Hno Hs. destruct (Hsem o b s2 Hno Hs) as (H1 & H2 & H3 & H4). auto.
Qed.

Lemma wp_mono {A} c (p : prog A) (Q Q' : A -> shm -> Prop) s :
  (forall a s, Q a s -> Q' a s) -> wp c p Q s -> wp c p Q' s.
Proof.
  intros HQ. revert s; induction p as [a|B e k IH]; intros s; simpl; [apply HQ|].
  intros H s1 Hr Hi. destruct (H s1 Hr Hi) as [He Hsem]. split; [done|].
  intros o b s2 Hno Hs. destruct (Hsem o b s2 Hno Hs) as (H1 & H2 & H3 & H4). auto.
Qed.

(** ** Locks *)

(** The locks of connection [c]. *)
Definition own (c : nat) (s : shm) (L : gmap Z bool) : Prop := forall j, locks s !! (c, j) = L !! j.

Definition lockRange (L : gmap Z bool) (j n : Z) : gmap Z bool :=
  foldr (fun i => insert i true) L (seqZ j n).
Definition unlockRange (L : gmap Z bool) (j n : Z) : gmap Z bool :=
  foldr (fun i => delete i) L (seqZ j n).

Lemma own_rely c s s' L : own c s L -> rely c s s' -> own c s' L.
Proof. intros Ho Hr j. by rewrite (r_locks _ _ _ Hr). Qed.

Lemma lock_lookup (c c' : nat) (m : gmap (nat * Z) bool) j n i :
  foldr (fun i => insert (c, i) true) m (seqZ j n) !! (c', i)
  = if decide (c' = c /\ j <= i < j + n) then Some true else m !! (c', i).
Proof.
  assert (forall l, foldr (fun i => insert (c, i) true) m l !! (c', i)
    = if decide (c' = c /\ i ∈ l) then Some true else m !! (c', i)) as H.
  { induction l as [|a l IH]; [by rewrite decide_False by set_solver|simpl].
    destruct (decide ((c, a) = (c', i))) as [[= <- <-]|Hne].
    - rewrite lookup_insert_eq, decide_True; [done|]. split; [done|by left].
    - rewrite lookup_insert_ne, IH by done. do 2 case_decide; try done; set_solver. }
  rewrite H. apply decide_ext. by rewrite elem_of_seqZ.
Qed.

Lemma unlock_lookup (c c' : nat) (m : gmap (nat * Z) bool) j n i :
  foldr (fun i => delete (c, i)) m (seqZ j n) !! (c', i)
  = if decide (c' = c /\ j <= i < j + n) then None else m !! (c', i).
Proof.
  assert (forall l, foldr (fun i => delete (c, i)) m l !! (c', i)
    = if decide (c' = c /\ i ∈ l) then None else m !! (c', i)) as H.
  { induction l as [|a l IH]; [by rewrite decide_False by set_solver|simpl].
    destruct (decide ((c, a) = (c', i))) as [[= <- <-]|Hne].
    - rewrite lookup_delete_eq, decide_True; [done|]. split; [done|by left].
    - rewrite lookup_delete_ne, IH by done. do 2 case_decide; try done; set_solver. }
  rewrite H. apply decide_ext. by rewrite elem_of_seqZ.
Qed.

Lemma lockRange_lookup L j n i :
  lockRange L j n !! i = if decide (j <= i < j + n) then Some true else L !! i.
Proof.
  unfold lockRange. assert (forall l, foldr (fun i => insert i true) L l !! i
    = if decide (i ∈ l) then Some true else L !! i) as H.
  { induction l as [|a l IH]; [by rewrite decide_False by set_solver|simpl].
    destruct (decide (a = i)) as [->|Hne].
    - rewrite lookup_insert_eq, decide_True; [done|by left].
    - rewrite lookup_insert_ne, IH by done. do 2 case_decide; try done; set_solver. }
  rewrite H. apply decide_ext. by rewrite elem_of_seqZ.
Qed.

Lemma unlockRange_lookup L j n i :
  unlockRange L j n !! i = if decide (j <= i < j + n) then None else L !! i.
Proof.
  unfold unlockRange. assert (forall l, foldr (fun i => delete i) L l !! i
    = if decide (i ∈ l) then None else L !! i) as H.
  { induction l as [|a l IH]; [by rewrite decide_False by set_solver|simpl].
    destruct (decide (a = i)) as [->|Hne].
    - rewrite lookup_delete_eq, decide_True; [done|by left].
    - rewrite lookup_delete_ne, IH by done. do 2 case_decide; try done; set_solver. }
  rewrite H. apply decide_ext. by rewrite elem_of_seqZ.
Qed.

(** A step that only changes the locks and the snapshot of [c]. *)
Lemma guar_mine c s L C :
  (forall c' j, c' <> c -> L !! (c', j) = locks s !! (c', j)) ->
  (forall c', c' <> c -> C !! c' = claims s !! c') ->
  (forall x, C !! c = Some x -> claims s !! c = Some x \/ mx s <= c_mx x) ->
  guar c s (set_claims (set_locks s L) C).
Proof.
  intros HL HC Hc c' Hne. split; simpl; auto.
  - intros _. split_and!; [done|done|done|lia|lia].
  - intros _. by split.
  - intros _. split_and!; [done|done|]. intros c1 x Hx.
    destruct (decide (c1 = c)) as [->|]; [by apply Hc|]. left. by rewrite <- HC.
Qed.

(** The invariant when only the locks and snapshots of [c] change. *)
Lemma Inv_mine c s L C :
  Inv s ->
  (forall c' j, c' <> c -> L !! (c', j) = locks s !! (c', j)) ->
  (forall c' j x, c' <> c -> L !! (c, j) = Some true -> locks s !! (c', j) = Some x -> False) ->
  (forall c' j, c' <> c -> locks s !! (c', j) = Some true -> L !! (c, j) = None) ->
  (locks s !! (c, WAL_WRITE_LOCK) = Some true -> L !! (c, WAL_WRITE_LOCK) <> Some true ->
     hdr1 s = hdr0 s) ->
  (backfill s <= mx s \/ (exists c', c' <> c /\ locks s !! (c', WAL_WRITE_LOCK) = Some true)
   \/ (L !! (c, WAL_WRITE_LOCK) = Some true
       /\ forall i, 1 <= i <= 4 -> L !! (c, WAL_READ_LOCK i) = Some true)) ->
  (forall c', c' <> c -> C !! c' = claims s !! c') ->
  (forall x, C !! c = Some x -> claim_ok (set_claims (set_locks s L) C) c x) ->
  Inv (set_claims (set_locks s L) C).
Proof.
  intros Hi HL Hx1 Hx2 Hw Hb HC Hc. pose proof Hi as [].
  split; simpl; auto.
  - intros c1 c2 j x E1 E2.
    destruct (decide (c1 = c)) as [->|H1], (decide (c2 = c)) as [->|H2]; [done| | |].
    + rewrite HL in E2 by done. exfalso. by eapply (Hx1 c2 j x).
    + rewrite HL in E1 by done. rewrite (Hx2 c1 j) in E2 by done. done.
    + rewrite HL in E1, E2 by done. by eapply iv_excl0.
  - destruct iv_same0 as [|[c1 H1]]; [by left|].
    destruct (decide (c1 = c)) as [->|Hne].
    + destruct (decide (L !! (c, WAL_WRITE_LOCK) = Some true)); [right; by exists c|left; by apply Hw].
    + right. exists c1. by rewrite HL.
  - split; [apply iv_back0|]. destruct Hb as [Hb|[(c1 & Hne & H1)|[H1 H2]]]; [by left| |right; by exists c].
    destruct iv_back0 as [_ [|(c2 & H2 & H3)]]; [by left|right].
    assert (c2 = c1) as -> by (by eapply iv_excl0). exists c1. split; [by rewrite HL|].
    intros i Hii. rewrite HL by done. by apply H3.
  - intros c1 x. destruct (decide (c1 = c)) as [->|Hne]; [by apply Hc|]. rewrite HC by done.
    intros Hcl. destruct (iv_claims0 c1 x Hcl) as [H1 H2]. split; simpl; [by rewrite HL|done].
Qed.

(** ** The rules of the accesses *)

Definition fine {B} (c : nat) (e : event B) (s s' : shm) : Prop :=
  Inv s' /\ guar c s s' /\ preserves e s s'.

Lemma fine_same {B} c (e : event B) s : Inv s -> fine c e s s.
Proof.
  intros Hi. split; [done|]. split; [intros c' _; apply rely_refl|].
  destruct e; try done. destruct copy; [done|by right].
Qed.

(** Whoever restarts the log holds the WRITE lock. *)
Lemma not_restarting c s : Inv s ->
  locks s !! (c, WAL_WRITE_LOCK) <> Some true ->
  backfill s <= mx s \/ exists c', c' <> c /\ locks s !! (c', WAL_WRITE_LOCK) = Some true.
Proof.
  intros Hi Hc. destruct (iv_back _ Hi) as [_ [|(c' & Hc' & _)]]; [by left|right].
  exists c'. split; [|done]. by intros ->.
Qed.

Lemma preserves_mine {B} (e : event B) s L C : preserves e s (set_claims (set_locks s L) C).
Proof. destruct e; try done. destruct copy; [done|by right]. Qed.

(** A claim that a step of its own connection does not concern. *)
Lemma claim_own c s L C x :
  Inv s -> claims s !! c = Some x ->
  L !! (c, WAL_READ_LOCK (c_lock x)) = locks s !! (c, WAL_READ_LOCK (c_lock x)) ->
  claim_ok (set_claims (set_locks s L) C) c x.
Proof. intros Hi Hx HL. destruct (iv_claims _ Hi c x Hx) as [H1 H2]. split; simpl; [by rewrite HL|done]. Qed.

Lemma set_locks_claims s L : set_locks s L = set_claims (set_locks s L) (claims s).
Proof. done. Qed.

(** More locks for [c], that do not conflict with those of the others. *)
Lemma fine_more {B} c (e : event B) s L M (L' : gmap Z bool) :
  Inv s -> own c s L ->
  (forall c' i, c' <> c -> M !! (c', i) = locks s !! (c', i)) ->
  (forall i, M !! (c, i) = L' !! i) ->
  (forall i x, L !! i = Some x -> L' !! i = Some x) ->
  (forall i c' x y, c' <> c -> L !! i = None -> L' !! i = Some x -> locks s !! (c', i) = Some y ->
     x = false /\ y = false) ->
  fine c e s (set_locks s M).
Proof.
  intros Hi Ho HM HMc Hkeep Hnew. rewrite set_locks_claims.
  assert (forall i, locks s !! (c, i) = Some true -> M !! (c, i) = Some true) as Htrue
    by (intros i H; rewrite HMc; apply Hkeep; by rewrite <- Ho).
  assert (forall i c' x y, c' <> c -> L' !! i = Some x -> locks s !! (c', i) = Some y ->
    x = false /\ y = false \/ L !! i = Some x) as Hcase.
  { intros i c' x y Hne Hx Hy. destruct (L !! i) as [z|] eqn:E.
    - right. rewrite (Hkeep _ _ E) in Hx. congruence.
    - left. by eapply Hnew. }
  split; [|split; [apply guar_mine; auto|apply preserves_mine]].
  eapply (Inv_mine c); auto.
  - intros c' i x Hne E1 E2. rewrite HMc in E1.
    destruct (Hcase i c' true x Hne E1 E2) as [[? _]|E]; [done|]. rewrite <- Ho in E.
    destruct Hne. symmetry. by eapply (iv_excl _ Hi).
  - intros c' i Hne E. rewrite HMc. destruct (L' !! i) as [x|] eqn:E'; [|done].
    destruct (Hcase i c' x true Hne E' E) as [[_ ?]|El]; [done|]. rewrite <- Ho in El.
    destruct Hne. by eapply (iv_excl _ Hi).
  - intros H1 H2. by destruct H2; apply Htrue.
  - destruct (decide (locks s !! (c, WAL_WRITE_LOCK) = Some true)) as [Hw|Hw].
    + destruct (iv_back _ Hi) as [_ [|(c' & H1 & H2)]]; [by left|right; right].
      assert (c' = c) as -> by (by eapply (iv_excl _ Hi)). auto.
    + destruct (not_restarting c s Hi Hw) as [|H]; [by left|right; by left].
  - intros x Hx. apply claim_own; [done|done|]. destruct (iv_claims _ Hi c x Hx) as [H1 _].
    rewrite HMc, H1. rewrite Ho in H1. by apply Hkeep.
Qed.

Lemma fine_LockShared c s L j o b s2 :
  Inv s -> own c s L -> L !! j = None -> sem c (LockShared j) o s = Some (b, s2) ->
  fine c (LockShared j) s s2
  /\ (b <> SQLITE_OK /\ s2 = s
      \/ b = SQLITE_OK /\ s2 = set_locks s (<[(c, j) := false]> (locks s)) /\ own c s2 (<[j := false]> L)).
Proof.
  intros Hi Ho Hj. simpl.
  destruct (Z.eqb_spec (o_rc o) SQLITE_OK) as [|Hrc]; simpl;
    [|intros [= <- <-]; split; [by apply fine_same|by left]].
  destruct (grantShared s j) eqn:Eg; intros [= <- <-]; [|split; [by apply fine_same|by left]].
  unfold grantShared in Eg. apply bool_decide_eq_true in Eg.
  assert (forall i, <[(c, j) := false]> (locks s) !! (c, i) = <[j := false]> L !! i) as HLc.
  { intros i. destruct (decide (i = j)) as [->|]; [by rewrite !lookup_insert_eq|].
    rewrite !lookup_insert_ne by congruence. apply Ho. }
  split; [|right; split; [done|]; split; [done|exact HLc]].
  eapply (fine_more c _ s L _ (<[j := false]> L)); auto.
  - intros c' i Hne. rewrite lookup_insert_ne; [done|congruence].
  - intros i x E. rewrite lookup_insert_ne; [done|]. intros <-. congruence.
  - intros i c' x y Hne E E' Ey. destruct (decide (i = j)) as [->|].
    + rewrite lookup_insert_eq in E'. injection E' as <-. split; [done|]. by apply (Eg (c', j) y Ey).
    + rewrite lookup_insert_ne in E' by done. congruence.
Qed.

Lemma fine_LockExclusive c s L j n o b s2 :
  Inv s -> own c s L -> sem c (LockExclusive j n) o s = Some (b, s2) ->
  fine c (LockExclusive j n) s s2
  /\ (b <> SQLITE_OK /\ s2 = s
      \/ b = SQLITE_OK /\ own c s2 (lockRange L j n)
         /\ s2 = set_locks s (foldr (fun i => insert (c, i) true) (locks s) (seqZ j n))
         /\ forall c' i, j <= i < j + n -> locks s !! (c', i) = None).
Proof.
  intros Hi Ho. simpl.
  destruct (Z.eqb_spec (o_rc o) SQLITE_OK) as [|Hrc]; simpl;
    [|intros [= <- <-]; split; [by apply fine_same|by left]].
  destruct (grantExclusive s j n) eqn:Eg; intros [= <- <-]; [|split; [by apply fine_same|by left]].
  unfold grantExclusive in Eg. apply bool_decide_eq_true in Eg.
  assert (forall c' i, j <= i < j + n -> locks s !! (c', i) = None) as Hfree.
  { intros c' i Hr. destruct (locks s !! (c', i)) as [y|] eqn:E; [|done].
    specialize (Eg (c', i) y E). simpl in Eg. unfold inRange in Eg. lia. }
  set (M := foldr _ _ _).
  assert (forall i, M !! (c, i) = lockRange L j n !! i) as HLc.
  { intros i. unfold M. rewrite lock_lookup, lockRange_lookup, <- Ho.
    apply decide_ext. tauto. }
  split; [|right; split; [done|]; split; [exact HLc|done]].
  eapply (fine_more c _ s L _ (lockRange L j n)); auto.
  - intros c' i Hne. unfold M. rewrite lock_lookup, decide_False; [done|tauto].
  - intros i x E. rewrite lockRange_lookup. case_decide as Hr; [|done].
    rewrite <- Ho, Hfree in E by done. done.
  - intros i c' x y Hne E E' Ey. rewrite lockRange_lookup in E'. case_decide as Hr; [|congruence].
    rewrite Hfree in Ey by done. done.
Qed.

(** What the connection that holds the WRITE lock must have completed when it
    releases a lock. *)
Definition settled (s : shm) (L : gmap Z bool) : Prop :=
  L !! WAL_WRITE_LOCK = Some true -> hdr1 s = hdr0 s /\ backfill s <= mx s.

(** Fewer locks for [c]. *)
Lemma Inv_fewer c s L M C (L' : gmap Z bool) :
  Inv s -> own c s L -> settled s L ->
  (forall c' i, c' <> c -> M !! (c', i) = locks s !! (c', i)) ->
  (forall i, M !! (c, i) = L' !! i) ->
  (forall i x, L' !! i = Some x -> L !! i = Some x) ->
  (forall c', c' <> c -> C !! c' = claims s !! c') ->
  (forall x, C !! c = Some x -> claims s !! c = Some x /\ L' !! WAL_READ_LOCK (c_lock x) = Some false) ->
  Inv (set_claims (set_locks s M) C) /\ guar c s (set_claims (set_locks s M) C).
Proof.
  intros Hi Ho Hset HM HMc Hless HC Hc.
  split; [|apply guar_mine; auto; intros x Hx; left; by apply Hc].
  eapply (Inv_mine c); auto.
  - intros c' i x Hne E1 E2. rewrite HMc in E1. apply Hless in E1. rewrite <- Ho in E1.
    destruct Hne. symmetry. by eapply (iv_excl _ Hi).
  - intros c' i Hne E. rewrite HMc. destruct (L' !! i) as [x|] eqn:E'; [|done].
    apply Hless in E'. rewrite <- Ho in E'. destruct Hne. by eapply (iv_excl _ Hi).
  - intros H1 _. rewrite Ho in H1. by apply Hset.
  - destruct (decide (locks s !! (c, WAL_WRITE_LOCK) = Some true)) as [Hw|Hw].
    + left. rewrite Ho in Hw. by apply Hset.
    + destruct (not_restarting c s Hi Hw) as [|H]; [by left|right; by left].
  - intros x Hx. destruct (Hc x Hx) as [Hx' Hl]. apply claim_own; [done|done|].
    rewrite HMc, Hl. symmetry. rewrite Ho. by apply Hless.
Qed.

Lemma fine_UnlockExclusive c s L j n o b s2 :
  Inv s -> own c s L -> settled s L -> (forall i, j <= i < j + n -> L !! i = Some true) ->
  sem c (UnlockExclusive j n) o s = Some (b, s2) ->
  fine c (UnlockExclusive j n) s s2 /\ own c s2 (unlockRange L j n)
  /\ s2 = set_locks s (foldr (fun i => delete (c, i)) (locks s) (seqZ j n)).
Proof.
  intros Hi Ho Hset Hown. simpl. intros [= _ <-]. set (M := foldr _ _ _).
  assert (forall i, M !! (c, i) = unlockRange L j n !! i) as HLc.
  { intros i. unfold M. rewrite unlock_lookup, unlockRange_lookup, <- Ho. apply decide_ext. tauto. }
  split; [|by split]. rewrite set_locks_claims.
  destruct (Inv_fewer c s L M (claims s) (unlockRange L j n)) as [H1 H2]; auto.
  - intros c' i Hne. unfold M. rewrite unlock_lookup, decide_False; [done|tauto].
  - intros i x. rewrite unlockRange_lookup. by case_decide.
  - intros x Hx. split; [done|]. destruct (iv_claims _ Hi c x Hx) as [Hl _]. rewrite Ho in Hl.
    rewrite unlockRange_lookup, decide_False; [done|]. intros Hr. rewrite Hown in Hl by done. done.
  - split; [done|]. split; [done|]. apply preserves_mine.
Qed.

Lemma fine_UnlockShared c s L j o b s2 :
  Inv s -> own c s L -> settled s L -> L !! j = Some false ->
  sem c (UnlockShared j) o s = Some (b, s2) ->
  fine c (UnlockShared j) s s2 /\ own c s2 (delete j L)
  /\ s2 = set_claims (set_locks s (delete (c, j) (locks s))) (unclaim c j (claims s))
  /\ forall x, claims s2 !! c = Some x -> claims s !! c = Some x /\ WAL_READ_LOCK (c_lock x) <> j.
Proof.
  intros Hi Ho Hset Hj. cbn [sem]. intros [= _ <-].
  assert (forall i, delete (c, j) (locks s) !! (c, i) = delete j L !! i) as HLc.
  { intros i. destruct (decide (i = j)) as [->|]; [by rewrite !lookup_delete_eq|].
    rewrite !lookup_delete_ne by congruence. apply Ho. }
  assert (forall x, unclaim c j (claims s) !! c = Some x ->
    claims s !! c = Some x /\ WAL_READ_LOCK (c_lock x) <> j) as Hcl.
  { intros x. unfold unclaim. destruct (claims s !! c) as [y|] eqn:E; [|congruence].
    destruct (Z.eqb_spec (WAL_READ_LOCK (c_lock y)) j) as [|Hne].
    - by rewrite lookup_delete_eq.
    - rewrite E. intros [= <-]. done. }
  split; [|by split_and!].
  destruct (Inv_fewer c s L (delete (c, j) (locks s)) (unclaim c j (claims s)) (delete j L))
    as [H1 H2]; auto.
  - intros c' i Hne. rewrite lookup_delete_ne; [done|congruence].
  - intros i x [_ H]%lookup_delete_Some. done.
  - intros c' Hne. unfold unclaim. destruct (claims s !! c); [|done]. destruct (_ =? _); [|done].
    by rewrite lookup_delete_ne.
  - intros x Hx. destruct (Hcl x Hx) as [Hx' Hl]. split; [done|]. rewrite lookup_delete_ne by done.
    rewrite <- Ho. by apply (iv_claims _ Hi c x).
  - split; [done|]. split; [done|]. apply preserves_mine.
Qed.

(** ** Snapshots *)

Lemma fine_Validate c s L i h lo o b s2 :
  Inv s -> own c s L -> L !! WAL_READ_LOCK i = Some false ->
  (i = 0 /\ (hdr0 s = h -> mxFrame h <= backfill s)
   \/ 1 <= i <= 4 /\ nthZ (marks s) i <= mxFrame h /\ 1 <= lo <= backfill s + 1) ->
  sem c (Validate i h lo) o s = Some (b, s2) ->
  fine c (Validate i h lo) s s2 /\ own c s2 L
  /\ (b = false /\ s2 = s
      \/ b = true /\ hdr0 s = h
         /\ s2 = set_claims s (<[c := mkClaim i (mxFrame h) lo (committed s)]> (claims s))).
Proof.
  intros Hi Ho Hl Hcase. cbn [sem]. case_bool_decide as Hh; intros [= <- <-];
    [|split; [by apply fine_same|]; split; [done|by left]].
  subst h. split; [|split; [done|by right]]. set (x := mkClaim _ _ _ _).
  pose proof (iv_mx _ Hi) as Hmx.
  assert (forall p, p <= nPages -> frameOf (log s) p 1 (mx s) <= backfill s -> db s p = committed s p)
    as Hdb by apply Hi.
  assert (set_claims s (<[c := x]> (claims s)) = set_claims (set_locks s (locks s)) (<[c := x]> (claims s)))
    as -> by (by destruct s).
  split; [|split; [|apply preserves_mine]].
  - eapply (Inv_mine c); auto.
    + intros c' j y Hne E1 E2. destruct Hne. symmetry. by eapply (iv_excl _ Hi).
    + intros c' j Hne E. destruct (locks s !! (c, j)) eqn:E'; [|done].
      destruct Hne. by eapply (iv_excl _ Hi).
    + done.
    + destruct (decide (locks s !! (c, WAL_WRITE_LOCK) = Some true)) as [Hw|Hw].
      * destruct (iv_back _ Hi) as [_ [|(c' & H1 & H2)]]; [by left|right; right].
        assert (c' = c) as -> by (by eapply (iv_excl _ Hi)). done.
      * destruct (not_restarting c s Hi Hw) as [|H]; [by left|right; by left].
    + intros c' Hne. by rewrite lookup_insert_ne.
    + intros y. rewrite lookup_insert_eq. intros [= <-]. split; [cbn; by rewrite Ho|].
      case_decide as H0; cbn in H0; cbn.
      * intros p Hp. apply Hdb; [done|]. pose proof (frameOf_range (log s) p 1 (mx s)).
        destruct Hcase as [[_ Hb]|[? _]]; [specialize (Hb eq_refl); lia|lia].
      * destruct Hcase as [[? _]|(H1 & H2 & H3)]; [done|].
        assert (backfill s <= mx s).
        { destruct (iv_back _ Hi) as [_ [|(c' & G1 & G2)]]; [done|]. specialize (G2 i H1).
          rewrite <- Ho in Hl. assert (c' = c) as -> by (by eapply (iv_excl _ Hi)). congruence. }
        split_and!; try lia; [done|]. intros p Hp Hno. apply Hdb; [done|].
        pose proof (frameOf_gap (log s) p lo (mx s)). lia.
  - apply guar_mine; auto.
    + intros c' Hne. by rewrite lookup_insert_ne.
    + intros y. rewrite lookup_insert_eq. intros [= <-]. right. cbn. lia.
Qed.

(** ** Marks *)

(** Nobody uses a read lock that is held exclusively. *)
Lemma no_claim c c' s i x :
  Inv s -> locks s !! (c, WAL_READ_LOCK i) = Some true -> claims s !! c' = Some x -> c_lock x <> i.
Proof.
  intros Hi Hl Hx <-. destruct (iv_claims _ Hi c' x Hx) as [H1 _].
  assert (c = c') as -> by (by eapply (iv_excl _ Hi)). congruence.
Qed.

(** Only one connection holds an exclusive lock. *)
Lemma only_me c c' s j x :
  Inv s -> locks s !! (c, j) = Some true -> c' <> c -> locks s !! (c', j) = Some x -> False.
Proof. intros Hi H1 Hne H2. destruct Hne. symmetry. by eapply (iv_excl _ Hi). Qed.

Lemma fine_StoreMark c s L i v o b s2 :
  Inv s -> own c s L -> 1 <= i <= 4 -> L !! WAL_READ_LOCK i = Some true ->
  sem c (StoreMark i v) o s = Some (b, s2) ->
  fine c (StoreMark i v) s s2 /\ own c s2 L /\ s2 = set_marks s (setZ (marks s) i v).
Proof.
  intros Hi Ho Hr Hl. cbn [sem]. intros [= _ <-]. split; [|done]. rewrite <- Ho in Hl.
  pose proof (iv_marks _ Hi) as Hlen.
  split; [|split; [|done]].
  - pose proof Hi as []. split; simpl; auto; [by rewrite length_setZ|].
    intros c' x Hx. pose proof (no_claim c c' s i x Hi Hl Hx) as Hne.
    destruct (iv_claims0 c' x Hx) as [H1 H2]. split; [done|]. simpl in *. case_decide; [done|].
    rewrite nthZ_setZ_ne by lia. done.
  - intros c' Hne. split; simpl; auto.
    + intros j x Hj Hx. rewrite nthZ_setZ_ne; [done|lia|lia|]. intros <-.
      by eapply (only_me c c' s).
    + intros _. split_and!; [done|done|done|lia|lia].
    + intros _. by split.
Qed.

(** ** The header *)

Lemma fine_WriteHdr1 c s L h o b s2 :
  Inv s -> own c s L -> L !! WAL_WRITE_LOCK = Some true ->
  sem c (WriteHdr true h) o s = Some (b, s2) ->
  fine c (WriteHdr true h) s s2 /\ own c s2 L /\ s2 = set_hdr1 s h.
Proof.
  intros Hi Ho Hl. cbn [sem]. intros [= _ <-]. split; [|done]. rewrite <- Ho in Hl.
  split; [|split; [|done]].
  - pose proof Hi as []. split; simpl; auto. right. by exists c.
  - intros c' Hne. split; simpl; auto.
    + intros Hw. exfalso. by eapply (only_me c c' s).
    + intros _. by split.
Qed.

(** The fields that a new header changes. *)
Lemma storeHdr0_fields c h s :
  let s' := storeHdr0 c h s in
  locks s' = locks s /\ hdr0 s' = h /\ hdr1 s' = hdr1 s /\ backfill s' = backfill s
  /\ marks s' = marks s /\ log s' = log s /\ db s' = db s
  /\ base s' = (if mxFrame h =? 0 then db s else base s) /\ used s' = aSalt h :: used s
  /\ (forall c', c' <> c -> claims s' !! c' = claims s !! c').
Proof.
  unfold storeHdr0. destruct (mxFrame h =? 0), (claims s !! c) as [x|];
    try destruct (c_lock x =? 0); cbn; split_and!; auto; intros c' Hne; by rewrite lookup_insert_ne.
Qed.

(** The claim of the connection that stores the header. *)
Lemma storeHdr0_claim c h s x :
  claims (storeHdr0 c h s) !! c = Some x ->
  exists y, claims s !! c = Some y
    /\ (c_lock y = 0 /\ x = y
        \/ c_lock y <> 0 /\ x = mkClaim (c_lock y) (mxFrame h) (c_min y) (committed (storeHdr0 c h s))).
Proof.
  unfold storeHdr0. destruct (claims s !! c) as [y|] eqn:E.
  - destruct (Z.eqb_spec (c_lock y) 0) as [H0|H0].
    + destruct (mxFrame h =? 0); cbn; rewrite E; intros [= <-]; eauto.
    + destruct (mxFrame h =? 0); cbn; rewrite lookup_insert_eq; intros [= <-]; eauto 10.
  - destruct (mxFrame h =? 0); cbn; rewrite E; done.
Qed.

(** The commit of a transaction. *)
Lemma fine_commit c s L h o b s2 :
  Inv s -> own c s L -> L !! WAL_WRITE_LOCK = Some true ->
  hdr1 s = h -> hdr_valid h -> nPages <= nPage h -> backfill s <= mx s ->
  mx s <= mxFrame h <= Z.of_nat (length (log s)) -> mxFrame h < max_frame -> mxFrame h <> 0 ->
  (aSalt h = aSalt (hdr0 s) \/ mx s = 0) ->
  sem c (WriteHdr false h) o s = Some (b, s2) ->
  fine c (WriteHdr false h) s s2 /\ own c s2 L /\ s2 = storeHdr0 c h s.
Proof.
  intros Hi Ho Hl H1 Hv Hp Hb Hm Hmax Hnz Hsalt. cbn [sem].
  destruct (freshSalt h s) eqn:Ef; [|done]. intros [= _ <-].
  destruct (storeHdr0_fields c h s) as (F1 & F2 & F3 & F4 & F5 & F6 & F7 & F8 & F9 & F10).
  pose proof (storeHdr0_claim c h s) as Hclaim. set (s2 := storeHdr0 c h s) in *.
  split; [|split; [intros j; by rewrite F1|done]].
  rewrite (proj2 (Z.eqb_neq (mxFrame h) 0)) in F8 by done.
  assert (aSalt h = aSalt (hdr0 s) \/ aSalt h ∉ used s) as Hfresh.
  { unfold freshSalt in Ef. apply orb_true_iff in Ef as [Ef|Ef].
    - apply andb_true_iff in Ef as [_ Ef%bool_decide_eq_true]. by left.
    - apply bool_decide_eq_true in Ef. by right. }
  rewrite <- Ho in Hl. pose proof (iv_mx _ Hi) as Hmx.
  assert (forall m p, 0 <= m -> view (base s2) (log s2) m p = view (base s) (log s) m p) as Hview
    by (intros; by rewrite F8, F6).
  split; [|split; [|by left]].
  - pose proof Hi as []. split; rewrite ?F1, ?F2, ?F3, ?F4, ?F5, ?F6, ?F7, ?F9; auto.
    + lia.
    + by left.
    + split; [lia|]. left. lia.
    + intros p Hpp Hfr. unfold committed. rewrite F2, F6, F8.
      rewrite (view_shrink _ _ (mx s)) by lia. apply iv_db0; [done|].
      rewrite <- (frameOf_shrink _ _ (mx s) (mxFrame h)) by lia. done.
    + intros c' x. destruct (decide (c' = c)) as [->|Hne].
      * intros Hx. apply Hclaim in Hx as (y & Hy & Hcase).
        destruct (iv_claims0 c y Hy) as [C1 C2]. destruct Hcase as [[H0 ->]|[H0 ->]].
        { split; [by rewrite F1|]. rewrite decide_True in C2 by done. rewrite decide_True by done.
          by rewrite F7. }
        split; [by rewrite F1|]. rewrite decide_False in C2 by done. rewrite decide_False by done.
        cbn. rewrite F2, F4, F5, F6, F7, F8.
        destruct C2 as (C3 & C4 & C5 & C6 & C7 & C8). split_and!; try lia.
        -- intros p Hpp. unfold committed. by rewrite F2, F6, F8.
        -- intros p Hpp Hno. unfold committed. rewrite F2, F6, F8.
           pose proof (frameOf_gap (log s) p (c_min y) (mxFrame h)) as Hgap.
           assert (frameOf (log s) p (c_min y) (c_mx y) = 0) as Hno'.
           { destruct (frameOf_cases (log s) p (c_min y) (c_mx y)) as [[? _]|(G1 & G2 & G3 & _)];
               [lia|done|].
             pose proof (frameOf_hit (log s) p (c_min y) (mxFrame h) _ G2 ltac:(lia) G3). lia. }
           rewrite C8, C7 by done. symmetry. apply view_shrink; [lia|].
           destruct (frameOf_cases (log s) p 1 (mxFrame h)) as [[-> _]|(G1 & _ & G3 & _)]; [lia|lia|].
           destruct (Z.le_gt_cases (frameOf (log s) p 1 (mxFrame h)) (c_mx y)); [done|].
           pose proof (frameOf_hit (log s) p (c_min y) (mxFrame h) _ ltac:(lia) G1 G3). lia.
      * rewrite F10 by done. intros Hx. destruct (iv_claims0 c' x Hx) as [C1 C2].
        split; [by rewrite F1|]. rewrite F2, F4, F5, F6, F7, F8. case_decide; [done|].
        destruct C2 as (C3 & C4 & C5 & C6 & C7 & C8). split_and!; auto; lia.
  - intros c' Hne. split; rewrite ?F1, ?F2, ?F3, ?F4, ?F5, ?F6, ?F7, ?F9; auto.
    + intros y Hy. apply elem_of_cons. by right.
    + intros Hw. exfalso. by eapply (only_me c c' s).
    + intros _. split; rewrite ?F2, ?F4, ?F6, ?F8; [lia|lia|done|done].
    + intros _. split_and!; auto. intros c1 x. destruct (decide (c1 = c)) as [->|Hne1].
      * intros (y & Hy & [[H0 ->]|[H0 ->]])%Hclaim; [by left|right]. cbn. lia.
      * rewrite F10 by done. by left.
    + intros salt m Hs Hle Heq. destruct Hfresh as [He|Hnot]; [|congruence].
      rewrite He in Heq. specialize (Hle Heq). lia.
    + intros salt m Hs Hle Heq. destruct Hfresh as [He|Hnot]; [|congruence].
      rewrite He in Heq. specialize (Hle Heq). lia.
Qed.

(** The locks of a connection that restarts the log. *)
Definition restarter (L : gmap Z bool) : Prop :=
  L !! WAL_WRITE_LOCK = Some true /\ forall i, 1 <= i <= 4 -> L !! WAL_READ_LOCK i = Some true.

(** No snapshot uses the log while it is restarted. *)
Lemma restarter_claims c c' s L x :
  Inv s -> own c s L -> restarter L -> claims s !! c' = Some x -> c_lock x = 0.
Proof.
  intros Hi Ho [_ Hr] Hx. destruct (decide (c_lock x = 0)) as [|Hne]; [done|].
  destruct (iv_claims _ Hi c' x Hx) as [_ H]. rewrite decide_False in H by done.
  destruct H as [H _]. specialize (Hr _ H). rewrite <- Ho in Hr.
  by destruct (no_claim c c' s (c_lock x) x Hi Hr Hx).
Qed.

Lemma restarter_others c c' s L :
  Inv s -> own c s L -> restarter L -> c' <> c -> holdsMark s c' -> False.
Proof.
  intros Hi Ho [_ Hr] Hne (i & x & Hii & Hx). specialize (Hr i Hii). rewrite <- Ho in Hr.
  by eapply (only_me c c' s).
Qed.

(** The log starts again: the database file is complete. *)
Lemma fine_restart c s L h o b s2 :
  Inv s -> own c s L -> restarter L -> hdr1 s = h -> hdr_valid h -> nPages <= nPage h ->
  mx s <= backfill s -> mxFrame h = 0 ->
  noOverlap _ c (WriteHdr false h) s -> sem c (WriteHdr false h) o s = Some (b, s2) ->
  fine c (WriteHdr false h) s s2 /\ own c s2 L /\ s2 = storeHdr0 c h s
  /\ claims s2 = claims s.
Proof.
  intros Hi Ho Hr H1 Hv Hp Hb Hz Hno. cbn [sem].
  destruct (freshSalt h s) eqn:Ef; [|done]. intros [= _ <-]. specialize (Hno Hz).
  destruct (storeHdr0_fields c h s) as (F1 & F2 & F3 & F4 & F5 & F6 & F7 & F8 & F9 & F10).
  assert (claims (storeHdr0 c h s) = claims s) as Hcl.
  { unfold storeHdr0. destruct (claims s !! c) as [x|] eqn:E.
    - rewrite (restarter_claims c c s L x Hi Ho Hr E). simpl. by destruct (mxFrame h =? 0).
    - by destruct (mxFrame h =? 0). }
  set (s2 := storeHdr0 c h s) in *. rewrite Hz in F8. simpl in F8.
  assert (aSalt h ∉ used s) as Hfresh.
  { unfold freshSalt in Ef. rewrite Hz in Ef. simpl in Ef. by apply bool_decide_eq_true in Ef. }
  pose proof (iv_mx _ Hi) as Hmx.
  split; [|split; [intros j; by rewrite F1|done]]. split; [|split].
  - pose proof Hi as []. split; rewrite ?F1, ?F2, ?F3, ?F4, ?F5, ?F6, ?F7, ?F9, ?Hcl; auto.
    + lia.
    + by rewrite Hz.
    + by left.
    + split; [lia|]. right. exists c. rewrite !F1. destruct Hr as [Hr1 Hr2].
      split; [by rewrite Ho|]. intros i Hii. rewrite Ho. by apply Hr2.
    + intros p Hpp _. unfold committed. by rewrite F2, F6, F8, Hz, view_0.
    + intros c' x Hx. pose proof (restarter_claims c c' s L x Hi Ho Hr Hx) as H0.
      destruct (iv_claims0 c' x Hx) as [C1 C2]. split; [by rewrite F1|].
      rewrite decide_True in C2 by done. rewrite decide_True by done. by rewrite F7.
  - intros c' Hne. assert (locks s !! (c', WAL_CKPT_LOCK) = None) as Hck by (by apply Hno).
    split; rewrite ?F1, ?F2, ?F3, ?F4, ?F5, ?F6, ?F7, ?F9, ?Hcl; auto.
    + intros y Hy. apply elem_of_cons. by right.
    + intros Hw. exfalso. destruct Hr as [Hr _]. rewrite <- Ho in Hr. by eapply (only_me c c' s).
    + intros [H|H]; [|congruence]. exfalso. by eapply (restarter_others c c' s L).
    + intros salt m Hs _ <-. done.
    + intros salt m Hs _ <-. done.
  - right. intros p Hpp. unfold committed at 1. rewrite F2, F6, F8, Hz, view_0.
    apply (iv_db _ Hi); [done|]. pose proof (frameOf_range (log s) p 1 (mx s)). lia.
Qed.

(** ** The number of frames in the database *)

Lemma fine_StoreBackfill_0 c s L o b s2 :
  Inv s -> own c s L -> restarter L -> mx s = 0 ->
  noOverlap _ c (StoreBackfill 0) s -> sem c (StoreBackfill 0) o s = Some (b, s2) ->
  fine c (StoreBackfill 0) s s2 /\ own c s2 L /\ s2 = set_backfill s 0.
Proof.
  intros Hi Ho Hr Hz Hno. cbn [sem]. intros [= _ <-]. split; [|done]. cbn in Hno.
  pose proof (iv_back _ Hi) as [Hb _].
  split; [|split; [|done]].
  - pose proof Hi as []. split; simpl; auto.
    + split; [lia|]. left. lia.
    + intros p Hp _. apply iv_db0; [done|]. rewrite Hz. pose proof (frameOf_range (log s) p 1 0). lia.
    + intros c' x Hx. pose proof (restarter_claims c c' s L x Hi Ho Hr Hx) as H0.
      destruct (iv_claims0 c' x Hx) as [C1 C2]. split; [done|].
      rewrite decide_True in C2 by done. rewrite decide_True by done. done.
  - intros c' Hne. assert (locks s !! (c', WAL_CKPT_LOCK) = None) as Hck by (by apply Hno).
    split; simpl; auto.
    + intros Hw. exfalso. destruct Hr as [Hr _]. rewrite <- Ho in Hr. by eapply (only_me c c' s).
    + intros [H|H]; [|congruence]. exfalso. by eapply (restarter_others c c' s L).
    + intros H. congruence.
    + intros salt m Hs Hle Heq. specialize (Hle Heq). lia.
Qed.

(** The locks of a connection that copies frames into the database. *)
Definition copier (L : gmap Z bool) : Prop :=
  L !! WAL_CKPT_LOCK = Some true /\ L !! WAL_READ_LOCK 0 = Some true.

Lemma fine_StoreBackfill c s L v o b s2 :
  Inv s -> own c s L -> copier L -> backfill s <= v <= mx s ->
  (forall p, p <= nPages -> frameOf (log s) p 1 (mx s) <= v -> db s p = committed s p) ->
  sem c (StoreBackfill v) o s = Some (b, s2) ->
  fine c (StoreBackfill v) s s2 /\ own c s2 L /\ s2 = set_backfill s v.
Proof.
  intros Hi Ho [Hr _] Hv Hdb. cbn [sem]. intros [= _ <-]. split; [|done].
  rewrite <- Ho in Hr. split; [|split; [|done]].
  - pose proof Hi as []. split; simpl; auto.
    + split; [lia|]. left. lia.
    + intros c' x Hx. destruct (iv_claims0 c' x Hx) as [C1 C2]. split; [done|]. simpl.
      case_decide; [done|]. destruct C2 as (C3 & C4 & C5 & C6 & C7 & C8). split_and!; auto; lia.
  - intros c' Hne. split; simpl; auto.
    + intros _. split_and!; [done|done|done|lia|lia].
    + intros _. split; simpl; [lia|lia|done|done].
    + intros Hc. exfalso. by eapply (only_me c c' s).
    + intros salt m Hs Hle Heq. specialize (Hle Heq). lia.
Qed.

Lemma fine_StoreAttempted c s L v o b s2 :
  Inv s -> own c s L -> sem c (StoreAttempted v) o s = Some (b, s2) ->
  fine c (StoreAttempted v) s s2 /\ own c s2 L /\ s2 = set_attempted s v.
Proof.
  intros Hi Ho. cbn [sem]. intros [= _ <-]. split; [|done]. split; [|split; [|done]].
  - pose proof Hi as []. by split.
  - intros c' Hne. destruct (rely_refl c' s). split; simpl; auto. intros _. by split.
Qed.

(** ** The log file *)

(** A log with the same committed frames. *)
Lemma fine_log {B} c (e : event B) s L l :
  Inv s -> own c s L -> L !! WAL_WRITE_LOCK = Some true ->
  take (Z.to_nat (mx s)) l = take (Z.to_nat (mx s)) (log s) -> mx s <= Z.of_nat (length l) ->
  fine c e s (set_log s l).
Proof.
  intros Hi Ho Hl Htake Hlen. rewrite <- Ho in Hl. pose proof (iv_mx _ Hi) as Hmx.
  assert (forall m, 0 <= m <= mx s -> take (Z.to_nat m) l = take (Z.to_nat m) (log s)) as Hpre
    by (intros m Hm; apply (take_eq_le _ _ (Z.to_nat (mx s))); [done|lia]).
  assert (forall p lo m, 0 <= m <= mx s -> frameOf l p lo m = frameOf (log s) p lo m) as Hfr
    by (intros p lo m Hm; apply frameOf_prefix; by apply Hpre).
  assert (forall b p m, 0 <= m <= mx s -> view b l m p = view b (log s) m p) as Hview
    by (intros b p m Hm; apply view_prefix; [lia|by apply Hpre]).
  split; [|split].
  - pose proof Hi as []. split; simpl; auto.
    + lia.
    + intros p Hp. rewrite Hfr by lia. unfold committed. simpl. rewrite Hview by lia. by apply iv_db0.
    + intros c' x Hx. destruct (iv_claims0 c' x Hx) as [C1 C2]. split; [done|]. simpl.
      case_decide; [done|]. destruct C2 as (C3 & C4 & C5 & C6 & C7 & C8).
      split_and!; auto; try lia.
      * intros p Hp. rewrite Hview by lia. by apply C7.
      * intros p Hp. rewrite Hfr by lia. by apply C8.
  - intros c' Hne. split; simpl; auto.
    + intros Hw. exfalso. by eapply (only_me c c' s).
    + intros _. split; simpl; [lia|lia|done|done].
  - assert (forall p, p <= nPages -> committed (set_log s l) p = committed s p) as Hc
      by (intros p Hp; unfold committed; simpl; apply Hview; lia).
    destruct e; try done. destruct copy; [done|by right].
Qed.

Lemma fine_Append c s L f frames o b s2 :
  Inv s -> own c s L -> L !! WAL_WRITE_LOCK = Some true -> f = mx s ->
  sem c (Append f frames) o s = Some (b, s2) ->
  fine c (Append f frames) s s2 /\ own c s2 L
  /\ exists l, s2 = set_log s l /\ mx s + Z.of_nat (length frames) <= Z.of_nat (length l).
Proof.
  intros Hi Ho Hl ->. cbn [sem]. intros [= _ <-]. pose proof (iv_mx _ Hi) as Hmx.
  assert (length (take (Z.to_nat (mx s)) (log s)) = Z.to_nat (mx s)) as Hlen
    by (rewrite length_take; lia).
  split; [|split; [done|]].
  - apply (fine_log c _ s L); auto.
    + rewrite take_app_length' by done. done.
    + rewrite length_app, Hlen. lia.
  - eexists. split; [done|]. rewrite !length_app, Hlen. lia.
Qed.

Lemma fine_TruncateWal c s L o b s2 :
  Inv s -> own c s L -> L !! WAL_WRITE_LOCK = Some true -> mx s = 0 ->
  sem c TruncateWal o s = Some (b, s2) ->
  fine c TruncateWal s s2 /\ own c s2 L /\ exists l, s2 = set_log s l.
Proof.
  intros Hi Ho Hl Hz. cbn [sem]. unfold ok_or.
  destruct (o_rc o =? SQLITE_OK); intros [= <- <-].
  - split; [|split; [done|by eexists]]. apply (fine_log c _ s L); auto; rewrite Hz; done.
  - split; [by apply fine_same|]. split; [done|]. exists (log s). by destruct s.
Qed.

(** ** The database file *)

(** A database in which page [q] may have changed: no snapshot reads it, and
    its newest frame is not counted in [nBackfill]. *)
Lemma fine_db {B} c (e : event B) s L d :
  Inv s -> own c s L -> copier L ->
  (forall p, p <= nPages -> d p = db s p \/
     backfill s < frameOf (log s) p 1 (mx s)
     /\ forall c' x, claims s !! c' = Some x -> c_lock x <> 0 ->
          frameOf (log s) p (c_min x) (c_mx x) <> 0) ->
  fine c e s (set_db s d).
Proof.
  intros Hi Ho [Hck Hr0] Hd. rewrite <- Ho in Hck, Hr0.
  split; [|split].
  - pose proof Hi as []. split; simpl; auto.
    + intros p Hp Hle. destruct (Hd p Hp) as [->|[Hlt _]]; [by apply iv_db0|lia].
    + intros c' x Hx. pose proof (no_claim c c' s 0 x Hi Hr0 Hx) as Hne.
      destruct (iv_claims0 c' x Hx) as [C1 C2]. split; [done|]. rewrite decide_False in C2 by done.
      rewrite decide_False by done. destruct C2 as (C3 & C4 & C5 & C6 & C7 & C8).
      do 5 (split; [done|]). simpl. intros p Hp Hno.
      destruct (Hd p Hp) as [->|[_ Hfr]]; [by apply C8|by destruct (Hfr c' x Hx Hne)].
  - intros c' Hne. destruct (rely_refl c' s). split; simpl; auto.
    + intros _. by split.
    + intros Hc. exfalso. by apply (only_me c c' s WAL_CKPT_LOCK true).
  - destruct e; try done. destruct copy; [done|by right].
Qed.

Lemma fine_WriteDb c s L p g o b s2 :
  Inv s -> own c s L -> copier L -> backfill s < g <= mx s -> pageAt (log s).*1 g = p ->
  (forall c' x, claims s !! c' = Some x -> c_lock x <> 0 -> g <= c_mx x) ->
  sem c (WriteDb p (image (log s) g)) o s = Some (b, s2) ->
  fine c (WriteDb p (image (log s) g)) s s2 /\ own c s2 L
  /\ (b <> SQLITE_OK /\ s2 = s
      \/ b = SQLITE_OK /\ s2 = set_db s (<[p := image (log s) g]> (db s))).
Proof.
  intros Hi Ho Hc Hg Hp Hcl. cbn [sem]. unfold ok_or. pose proof (iv_back _ Hi) as [Hb _].
  destruct (Z.eqb_spec (o_rc o) SQLITE_OK) as [E|E]; intros [= <- <-];
    [|split; [by apply fine_same|]; split; [done|by left]].
  split; [|split; [done|by right]]. apply (fine_db c _ s L); auto.
  intros q Hq. destruct (decide (q = p)) as [->|Hne]; [right|left; by rewrite fn_lookup_insert_ne].
  split.
  - pose proof (frameOf_hit (log s) p 1 (mx s) g). lia.
  - intros c' x Hx H0. specialize (Hcl c' x Hx H0).
    destruct (iv_claims _ Hi c' x Hx) as [_ C2]. rewrite decide_False in C2 by done.
    destruct C2 as (C3 & C4 & C5 & C6 & _).
    pose proof (frameOf_hit (log s) p (c_min x) (c_mx x) g). lia.
Qed.

Lemma fine_TruncateDb c s L n o b s2 :
  Inv s -> own c s L -> copier L -> nPages <= n ->
  sem c (TruncateDb n) o s = Some (b, s2) ->
  fine c (TruncateDb n) s s2 /\ own c s2 L
  /\ exists d, s2 = set_db s d /\ forall p, p <= nPages -> d p = db s p.
Proof.
  intros Hi Ho Hc Hn. cbn [sem]. unfold ok_or.
  destruct (o_rc o =? SQLITE_OK); intros [= <- <-].
  - assert (forall p, p <= nPages -> (if p <=? n then db s p else 0) = db s p) as Hd
      by (intros p Hp; by rewrite (proj2 (Z.leb_le p n)) by lia).
    split; [apply (fine_db c _ s L); auto|]. split; [done|]. by eexists.
  - split; [by apply fine_same|]. split; [done|]. exists (db s). split; [by destruct s|done].
Qed.
End Snapshot.

Arguments wp : simpl never.
