(* ===== verification/WalSnapshot.v ===== *)
(** * Opening a snapshot

    The programs of WalShare that read the wal-index header and open a
    snapshot, verified with the rules of WalProtocol: whatever the other
    connections do meanwhile, the program ends, with a snapshot of the content
    that is committed at that time or with an error and no lock more than
    before. *)

From stdpp Require Import base list numbers option gmap functions relations.
From S2P Require Import Prelude Util Wal WalIndex WalFormat WalSort WalIter WalShare WalSystem WalProtocol.
#[local] Open Scope Z_scope.

Section Programs.
Context {be : bool} {nPages : Z}.

Abbreviation mx s := (mxFrame (hdr0 s)).
Abbreviation Inv := (WalProtocol.Inv be nPages).
Abbreviation wp := (WalProtocol.wp be nPages).

(** ** What does not change for a connection that holds the locks [L] *)

Record calm (L : gmap Z bool) (c : nat) (s s' : shm) : Prop := {
  cm_used : used s ⊆ used s';
  cm_mark : forall i x, 1 <= i <= 4 -> L !! WAL_READ_LOCK i = Some x ->
              nthZ (marks s') i = nthZ (marks s) i;
  cm_write : L !! WAL_WRITE_LOCK = Some true ->
              hdr0 s' = hdr0 s /\ hdr1 s' = hdr1 s /\ log s' = log s /\ backfill s <= backfill s'
              /\ (backfill s <= mx s -> backfill s' <= mx s);
  cm_grow : (exists i x, 1 <= i <= 4 /\ L !! WAL_READ_LOCK i = Some x)
            \/ L !! WAL_CKPT_LOCK = Some true -> grows s s';
  cm_ckpt : L !! WAL_CKPT_LOCK = Some true ->
              backfill s' = backfill s /\ db s' = db s
              /\ forall c' x, claims s' !! c' = Some x -> claims s !! c' = Some x \/ mx s <= c_mx x;
  cm_epoch : forall salt m, salt ∈ used s -> (aSalt (hdr0 s) = salt -> m <= mx s) ->
              aSalt (hdr0 s') = salt -> m <= mx s';
  cm_back : forall salt m, salt ∈ used s ->
              (aSalt (hdr0 s) = salt -> m <= mx s /\ m <= backfill s) ->
              aSalt (hdr0 s') = salt -> m <= mx s' /\ m <= backfill s'
}.

Lemma calm_rely L c s s' : own c s L -> rely c s s' -> calm L c s s'.
Proof.
  intros Ho []. split; auto.
  - intros i x Hi Hx. rewrite <- Ho in Hx. by apply (r_mark i x).
  - intros H. rewrite <- Ho in H. auto.
  - intros [(i & x & Hi & Hx)|H].
    + rewrite <- Ho in Hx. apply r_grow. left. by exists i, x.
    + rewrite <- Ho in H. auto.
  - intros H. rewrite <- Ho in H. auto.
Qed.

Lemma calm_refl L c s : calm L c s s.
Proof. split; intros; auto using grows_refl; split_and!; auto; lia. Qed.

Lemma calm_trans L c s s' s'' : calm L c s s' -> calm L c s' s'' -> calm L c s s''.
Proof.
  intros HA HB. split.
  - etrans; [apply HA|apply HB].
  - intros i x Hi Hx. by rewrite (cm_mark _ _ _ _ HB i x Hi Hx), (cm_mark _ _ _ _ HA i x Hi Hx).
  - intros H. destruct (cm_write _ _ _ _ HA H) as (A1 & A2 & A3 & A4 & A5).
    destruct (cm_write _ _ _ _ HB H) as (B1 & B2 & B3 & B4 & B5).
    rewrite A1 in B5. split_and!; [congruence|congruence|congruence|lia|auto].
  - intros H. eapply grows_trans; [by apply HA|by apply HB].
  - intros H. destruct (cm_ckpt _ _ _ _ HA H) as (A1 & A2 & A3).
    destruct (cm_ckpt _ _ _ _ HB H) as (B1 & B2 & B3).
    pose proof (gw_mx _ _ (cm_grow _ _ _ _ HA (or_intror H))) as Hle.
    split_and!; [congruence|congruence|]. intros c' x Hx.
    destruct (B3 c' x Hx) as [Hy|Hy]; [by apply A3|right; lia].
  - intros salt m Hs Hm. apply HB; [by apply (cm_used _ _ _ _ HA)|]. by apply HA.
  - intros salt m Hs Hm. apply HB; [by apply (cm_used _ _ _ _ HA)|]. by apply HA.
Qed.

(** Fewer locks, fewer guarantees. *)
Lemma calm_mono L L' c s s' :
  (forall i x, L !! i = Some x -> L' !! i = Some x) -> calm L' c s s' -> calm L c s s'.
Proof.
  intros Hsub []. split; auto.
  - intros i x Hi Hx. eapply cm_mark0; eauto.
  - intros [(i & x & Hi & Hx)|H]; eauto 10.
Qed.

(** Own steps that only change locks and snapshots. *)
Lemma calm_mine L c s M C :
  (forall c' x, C !! c' = Some x -> claims s !! c' = Some x \/ mx s <= c_mx x) ->
  calm L c s (set_claims (set_locks s M) C).
Proof.
  intros HC. split; simpl; auto.
  - intros _. split_and!; auto; lia.
  - intros _. by split.
Qed.

Lemma calm_locks L c s M : calm L c s (set_locks s M).
Proof. apply (calm_mine L c s M (claims s)). auto. Qed.

(** ** Rules with continuations *)

(** An access that changes nothing. *)
Definition silent {B} (e : event B) : Prop :=
  match e with
  | IndexPage | IndexMapped | ReadHdr _ | LoadMark _ | LoadBackfill | Iterate _ _ _ _ | ReadFrame _
  | SyncWal | DbSize | SyncDb | Interrupted | Callback | Busy | Randomness => True
  | _ => False
  end.

Lemma silent_sem {B} c (e : event B) o s b s' : silent e -> sem c e o s = Some (b, s') -> s' = s.
Proof.
  destruct e; try done; cbn [sem]; intros _; [destruct (_ =? _); [done|]|..]; intros [= _ <-]; done.
Qed.

Lemma wp_ret {A} c (a : A) (Q : A -> shm -> Prop) s : Q a s -> wp c (Ret a) Q s.
Proof. done. Qed.

Lemma wp_silent {B} c s L (e : event B) Q :
  own c s L -> silent e ->
  (forall s1 o b, calm L c s s1 -> Inv s1 -> own c s1 L -> claims s1 !! c = claims s !! c ->
     sem c e o s1 = Some (b, s1) -> Q b s1) ->
  wp c (act e) Q s.
Proof.
  intros Ho Hs Hk s1 Hr Hi. split; [by destruct e|]. intros o b s2 _ Hsem.
  pose proof (silent_sem c e o s1 b s2 Hs Hsem) as ->.
  destruct (fine_same be nPages c e s1 Hi) as (H1 & H2 & H3). split_and!; auto.
  eapply Hk; eauto using own_rely, calm_rely. apply Hr.
Qed.

Lemma wp_LockShared c s L j Q :
  own c s L -> L !! j = None ->
  (forall s1 rc, calm L c s s1 -> Inv s1 -> own c s1 L -> rc <> SQLITE_OK ->
     claims s1 !! c = claims s !! c -> Q rc s1) ->
  (forall s1, calm L c s s1 -> Inv s1 -> own c s1 (<[j := false]> L) ->
     claims s1 !! c = claims s !! c -> Q SQLITE_OK s1) ->
  wp c (act (LockShared j)) Q s.
Proof.
  intros Ho Hj Hfail Hok s1 Hr Hi. split; [done|]. intros o b s2 _ Hsem.
  pose proof (own_rely _ _ _ _ Ho Hr) as Ho1. pose proof (calm_rely _ _ _ _ Ho Hr) as Hc1.
  pose proof (r_claim _ _ _ Hr) as Hcl.
  destruct (fine_LockShared be nPages c s1 L j o b s2 Hi Ho1 Hj Hsem) as ((F1 & F2 & F3) & Hcase).
  split_and!; auto. destruct Hcase as [[Hb ->]|(-> & -> & Ho2)]; [by apply Hfail|].
  apply Hok; auto. eapply calm_trans; [done|apply calm_locks].
Qed.

Lemma wp_LockExclusive c s L j n Q :
  own c s L ->
  (forall s1 rc, calm L c s s1 -> Inv s1 -> own c s1 L -> rc <> SQLITE_OK ->
     claims s1 !! c = claims s !! c -> Q rc s1) ->
  (forall s1, calm L c s s1 -> Inv s1 -> own c s1 (lockRange L j n) ->
     claims s1 !! c = claims s !! c ->
     (j <= WAL_WRITE_LOCK < j + n -> hdr1 s1 = hdr0 s1) -> Q SQLITE_OK s1) ->
  wp c (act (LockExclusive j n)) Q s.
Proof.
  intros Ho Hfail Hok s1 Hr Hi. split; [done|]. intros o b s2 _ Hsem.
  pose proof (own_rely _ _ _ _ Ho Hr) as Ho1. pose proof (calm_rely _ _ _ _ Ho Hr) as Hc1.
  pose proof (r_claim _ _ _ Hr) as Hcl.
  destruct (fine_LockExclusive be nPages c s1 L j n o b s2 Hi Ho1 Hsem) as ((F1 & F2 & F3) & Hcase).
  split_and!; auto. destruct Hcase as [[Hb ->]|(-> & Ho2 & -> & Hfree)]; [by apply Hfail|].
  apply Hok; auto.
  - eapply calm_trans; [done|apply calm_locks].
  - intros Hw. simpl. destruct (iv_same _ _ _ Hi) as [|[c' Hc']]; [done|].
    rewrite Hfree in Hc' by done. done.
Qed.

(** No connection but one with all the read locks restarts the log. *)
Lemma settled_intro k c s L :
  Inv s -> own c s L -> 1 <= k <= 4 -> L !! WAL_READ_LOCK k <> Some true ->
  (L !! WAL_WRITE_LOCK = Some true -> hdr1 s = hdr0 s) -> settled s L.
Proof.
  intros Hi Ho Hk H1 Hh Hw. split; [by apply Hh|].
  destruct (iv_back _ _ _ Hi) as [_ [|(c' & Hc' & Hr)]]; [done|]. rewrite <- Ho in Hw.
  assert (c' = c) as -> by (by eapply (iv_excl _ _ _ Hi)). specialize (Hr k Hk).
  rewrite Ho in Hr. done.
Qed.

Lemma wp_UnlockExclusive c s L j n Q :
  own c s L -> (forall i, j <= i < j + n -> L !! i = Some true) ->
  (forall s1, calm L c s s1 -> Inv s1 -> own c s1 L -> settled s1 L) ->
  (forall s1, calm (unlockRange L j n) c s s1 -> Inv s1 -> own c s1 (unlockRange L j n) ->
     claims s1 !! c = claims s !! c -> Q tt s1) ->
  wp c (act (UnlockExclusive j n)) Q s.
Proof.
  intros Ho Hown Hset Hk s1 Hr Hi. split; [done|]. intros o [] s2 _ Hsem.
  pose proof (own_rely _ _ _ _ Ho Hr) as Ho1. pose proof (calm_rely _ _ _ _ Ho Hr) as Hc1.
  destruct (fine_UnlockExclusive be nPages c s1 L j n o tt s2 Hi Ho1 (Hset _ Hc1 Hi Ho1) Hown Hsem)
    as ((F1 & F2 & F3) & Ho2 & ->). split_and!; auto. apply Hk; auto; [|by apply Hr].
  eapply calm_trans; [|apply calm_locks]. eapply calm_mono; [|done].
  intros i x. rewrite unlockRange_lookup. by case_decide.
Qed.

Lemma wp_UnlockShared c s L j Q :
  own c s L -> L !! j = Some false ->
  (forall s1, calm L c s s1 -> Inv s1 -> own c s1 L -> settled s1 L) ->
  (forall s1, calm (delete j L) c s s1 -> Inv s1 -> own c s1 (delete j L) ->
     (forall x, claims s1 !! c = Some x -> claims s !! c = Some x /\ WAL_READ_LOCK (c_lock x) <> j) ->
     Q tt s1) ->
  wp c (act (UnlockShared j)) Q s.
Proof.
  intros Ho Hj Hset Hk s1 Hr Hi. split; [done|]. intros o [] s2 _ Hsem.
  pose proof (own_rely _ _ _ _ Ho Hr) as Ho1. pose proof (calm_rely _ _ _ _ Ho Hr) as Hc1.
  destruct (fine_UnlockShared be nPages c s1 L j o tt s2 Hi Ho1 (Hset _ Hc1 Hi Ho1) Hj Hsem)
    as ((F1 & F2 & F3) & Ho2 & E & Hcl). split_and!; auto. apply Hk; auto.
  - eapply calm_trans.
    + eapply calm_mono; [|done]. intros i x [_ H]%lookup_delete_Some. done.
    + rewrite E. apply calm_mine. intros c' x Hx. left.
      unfold unclaim in Hx. destruct (claims s1 !! c) as [y|]; [|done].
      destruct (_ =? _); [|done]. by apply lookup_delete_Some in Hx as [_ Hx].
  - intros x Hx. rewrite <- (r_claim _ _ _ Hr). by apply Hcl.
Qed.

(** ** Reading the header *)

(** What is known of a header that was read. *)
Record seen (c : nat) (s : shm) (h : WalIndexHdr) : Prop := {
  se_salt : aSalt h ∈ used s;
  se_pages : nPages <= nPage h;
  se_nonneg : 0 <= mxFrame h;
  se_version : iVersion h = WALINDEX_MAX_VERSION;
  se_epoch : aSalt (hdr0 s) = aSalt h -> mxFrame h <= mx s
}.

Lemma seen_calm L c s s' h : calm L c s s' -> seen c s h -> seen c s' h.
Proof.
  intros Hc []. split; auto; [by apply (cm_used _ _ _ _ Hc)|].
  by apply (cm_epoch _ _ _ _ Hc).
Qed.

Lemma seen_live c s : Inv s -> seen c s (hdr0 s).
Proof. intros []. split; auto; [lia|by destruct iv_valid as (_ & _ & ?)|lia]. Qed.

(** The fields that reading the header does not change. *)
Definition keeps (w w' : Wal) : Prop :=
  readLock w' = readLock w /\ writeLock w' = writeLock w /\ ckptLock w' = ckptLock w
  /\ readOnly w' = readOnly w /\ bShmUnreliable w' = bShmUnreliable w
  /\ minFrame w' = minFrame w /\ nCkpt w' = nCkpt w.

Lemma keeps_refl w : keeps w w.
Proof. by split_and!. Qed.

Lemma keeps_trans w w' w'' : keeps w w' -> keeps w' w'' -> keeps w w''.
Proof. unfold keeps. intuition congruence. Qed.

Lemma TryHdr_result w h1 h2 ch bad ch' w' :
  WalFormat.walIndexTryHdr be w h1 h2 ch = (bad, ch', w') ->
  keeps w w' /\ (bad = 0 -> h1 = h2 /\ hdr w' = h1)
  /\ (bad <> 0 -> bad = 1) /\ (h1 = h2 -> hdr_valid be h1 -> bad = 0).
Proof.
  unfold WalFormat.walIndexTryHdr.
  case_bool_decide as E; simpl; [|intros [= <- <- <-]; split_and!; auto using keeps_refl; done].
  subst h2. destruct (Z.eqb_spec (isInit h1) 0) as [H0|H0].
  { intros [= <- <- <-]. split_and!; auto using keeps_refl; [done|]. by intros _ [? _]. }
  case_bool_decide as Ec; simpl.
  - case_bool_decide as Eh; simpl; intros [= <- <- <-]; split_and!; auto using keeps_refl; done.
  - intros [= <- <- <-]. split_and!; auto using keeps_refl; [done|]. by intros _ (_ & ? & _).
Qed.

(** The header: whether or not it can be read, the connection holds the same
    locks; with the WRITE lock it is read and current. *)
Lemma wp_TryHdr c s L w ch Q :
  own c s L -> Inv s ->
  (forall s1 bad ch' w', calm L c s s1 -> Inv s1 -> own c s1 L -> claims s1 !! c = claims s !! c ->
     keeps w w' -> (bad = 0 -> seen c s1 (hdr w')
                      /\ (L !! WAL_CKPT_LOCK = Some true -> mxFrame (hdr w') <= mx s1)) ->
     (bad <> 0 -> bad = 1) ->
     (L !! WAL_WRITE_LOCK = Some true -> hdr1 s = hdr0 s ->
        bad = 0 /\ hdr w' = hdr0 s1 /\ hdr1 s1 = hdr0 s1) ->
     Q (bad, ch', w') s1) ->
  wp c (walIndexTryHdr be w ch) Q s.
Proof.
  intros Ho Hi HQ. unfold walIndexTryHdr.
  apply wp_bind, (wp_silent c s L); [done|done|]. intros s1 o h1 C1 I1 O1 L1 [= <-].
  apply wp_bind, (wp_silent c s1 L); [done|done|]. intros s2 o' h2 C2 I2 O2 L2 [= <-].
  apply wp_ret.
  destruct (WalFormat.walIndexTryHdr be w (hdr0 s1) (hdr1 s2) ch) as [[bad ch'] w'] eqn:E.
  apply TryHdr_result in E as (Hk & H0 & H1 & Hv). apply HQ; auto.
  - by eapply calm_trans.
  - congruence.
  - intros Hb. destruct (H0 Hb) as [_ ->]. split; [by eapply seen_calm, seen_live|].
    intros Hck. by apply (gw_mx _ _ (cm_grow _ _ _ _ C2 (or_intror Hck))).
  - intros Hw Heq. destruct (cm_write _ _ _ _ C1 Hw) as (A1 & A2 & _).
    destruct (cm_write _ _ _ _ C2 Hw) as (B1 & B2 & _).
    assert (hdr0 s1 = hdr1 s2) as E12 by congruence.
    assert (bad = 0) as Hb by (apply Hv; [done|]; apply I1).
    destruct (H0 Hb) as [_ ->]. split_and!; congruence.
Qed.

(** The locks of a connection between two operations. *)
Definition writeLocks (w : Wal) (L : gmap Z bool) : Prop :=
  L !! WAL_WRITE_LOCK = if writeLock w then Some true else None.

Lemma lockRange_keep L j n i x :
  (forall i, j <= i < j + n -> L !! i = None) -> L !! i = Some x -> lockRange L j n !! i = Some x.
Proof. intros Hn Hx. rewrite lockRange_lookup. case_decide as Hr; [|done]. by rewrite Hn in Hx. Qed.

Lemma unlock_lock L j n :
  (forall i, j <= i < j + n -> L !! i = None) -> unlockRange (lockRange L j n) j n = L.
Proof.
  intros Hn. apply map_eq. intros i. rewrite unlockRange_lookup, lockRange_lookup.
  case_decide as Hr; [by rewrite Hn|done].
Qed.

Lemma wp_ReadHdr c s L w ch Q :
  own c s L -> Inv s -> writeLocks w L -> (writeLock w = true -> hdr1 s = hdr0 s) ->
  L !! WAL_READ_LOCK 1 <> Some true ->
  readOnly w = 0 -> bShmUnreliable w = false ->
  (forall s1 rc ch' w', calm L c s s1 -> Inv s1 -> own c s1 L -> claims s1 !! c = claims s !! c ->
     keeps w w' ->
     (rc = SQLITE_OK -> seen c s1 (hdr w') /\ (L !! WAL_CKPT_LOCK = Some true -> mxFrame (hdr w') <= mx s1)) ->
     (rc = SQLITE_OK -> writeLock w = true -> hdr w' = hdr0 s1 /\ hdr1 s1 = hdr0 s1) ->
     Q (rc, ch', w') s1) ->
  wp c (walIndexReadHdr be w ch) Q s.
Proof.
  intros Ho Hi Hwl Hsame Hr1 Hro Hshm HQ. unfold walIndexReadHdr.
  apply wp_bind, (wp_silent c s L); [done|done|]. intros s1 o rc C1 I1 O1 L1 Hsem.
  destruct (Z.eqb_spec rc SQLITE_OK) as [->|Hrc]; cbn [negb].
  2:{ cbn [sem] in Hsem. destruct (Z.eqb_spec (o_rc o) SQLITE_READONLY_CANTINIT) as [|Hne]; [done|].
      injection Hsem as <-. rewrite (proj2 (Z.eqb_neq (o_rc o) _)) by done.
      apply wp_ret, HQ; auto using keeps_refl; done. }
  assert (L !! WAL_WRITE_LOCK = Some true -> hdr1 s1 = hdr0 s1) as Hsame1.
  { intros Hw. destruct (cm_write _ _ _ _ C1 Hw) as (-> & -> & _). apply Hsame.
    unfold writeLocks in Hwl. rewrite Hw in Hwl. by destruct (writeLock w). }
  apply wp_bind, (wp_TryHdr c s1 L); [done|done|].
  intros s2 bad ch2 w2 C2 I2 O2 L2 K2 Hseen Hbad Hcur.
  pose proof (calm_trans _ _ _ _ _ C1 C2) as C12. apply wp_bind.
  destruct (Z.eqb_spec bad 0) as [->|Hb]; cbn [negb].
  - destruct (Hseen eq_refl) as [Hs2 Hck2]. apply wp_ret. cbn. rewrite (se_version _ _ _ Hs2).
    apply wp_ret, HQ; auto; [congruence|]. intros _ Hw. unfold writeLocks in Hwl. rewrite Hw in Hwl.
    destruct (Hcur Hwl (Hsame1 Hwl)) as (_ & H1 & H2). done.
  - pose proof K2 as (E1 & E2 & E3 & E4 & E5 & E6 & E7). rewrite E5, Hshm, E4, Hro, E2. cbn [negb andb Z.land Z.eqb].
    unfold writeLocks in Hwl. destruct (writeLock w) eqn:Ew.
    { exfalso. by destruct (Hcur Hwl (Hsame1 Hwl)) as [? _]. }
    apply wp_bind, (wp_LockExclusive c s2 L); [done| |].
    { intros s3 rc C3 I3 O3 Hrc L3. rewrite (proj2 (Z.eqb_neq rc _)) by done. apply wp_ret.
      cbn. rewrite (proj2 (Z.eqb_neq bad 0)) by done. cbn. apply wp_ret, HQ; auto; try done.
      - by eapply calm_trans.
      - congruence. }
    intros s3 C3 I3 O3 L3 Hh3. specialize (Hh3 ltac:(unfold WAL_WRITE_LOCK; lia)).
    set (L' := lockRange L WAL_WRITE_LOCK 1) in *.
    assert (forall i, WAL_WRITE_LOCK <= i < WAL_WRITE_LOCK + 1 -> L !! i = None) as Hnone
      by (intros i Hii; by replace i with WAL_WRITE_LOCK by lia).
    assert (forall i x, L !! i = Some x -> L' !! i = Some x) as Hsub
      by (intros i x; by apply lockRange_keep).
    assert (L' !! WAL_WRITE_LOCK = Some true) as Hw'.
    { unfold L'. rewrite lockRange_lookup, decide_True; [done|]. unfold WAL_WRITE_LOCK. lia. }
    assert (L' !! WAL_READ_LOCK 1 <> Some true) as Hr1'.
    { unfold L'. rewrite lockRange_lookup, decide_False; [done|].
      unfold WAL_WRITE_LOCK, WAL_READ_LOCK. lia. }
    cbn [Z.eqb]. apply wp_bind.
    apply (wp_mono be nPages c _ (fun r s4 => calm L c s s4 /\ Inv s4 /\ own c s4 L'
      /\ hdr1 s4 = hdr0 s4 /\ claims s4 !! c = claims s !! c
      /\ keeps (set_writeLock w true) r.2
      /\ (r.1.1.1 = SQLITE_OK -> r.1.1.2 = 0)
      /\ (r.1.1.2 = 0 -> seen c s4 (hdr r.2)
            /\ (L !! WAL_CKPT_LOCK = Some true -> mxFrame (hdr r.2) <= mx s4)))).
    { intros [[[rc bad4] ch4] w4] s4. cbn [fst snd].
      intros (C4 & I4 & O4 & Hh4 & L4 & K4 & Hrc & Hseen4).
      apply wp_bind, (wp_UnlockExclusive c s4 L'); [done| | |].
      - intros i Hii. by replace i with WAL_WRITE_LOCK by lia.
      - intros s5 C5 I5 O5. apply (settled_intro 1 c); auto; [lia|]. intros Hw.
        destruct (cm_write _ _ _ _ C5 Hw) as (-> & -> & _). done.
      - unfold L'. rewrite unlock_lock by done. intros s5 C5 I5 O5 L5. apply wp_ret. cbn.
        destruct K4 as (G1 & G2 & G3 & G4 & G5 & G6 & G7).
        assert (keeps w (set_writeLock w4 false)) as HK by (unfold keeps; cbn in *; by split_and!).
        destruct (Z.eqb_spec bad4 0) as [->|Hb4].
        + destruct (Hseen4 eq_refl) as [Hs4 Hck4]. cbn. rewrite (se_version _ _ _ Hs4).
          apply HQ; auto; [by eapply calm_trans|congruence| |done]. intros _.
          split; [by eapply seen_calm|]. intros Hck. specialize (Hck4 Hck).
          pose proof (gw_mx _ _ (cm_grow _ _ _ _ C5 (or_intror Hck))). cbn. lia.
        + cbn. apply HQ; auto; [by eapply calm_trans|congruence| |done].
          intros ->. by destruct Hb4; apply Hrc. }
    assert (calm L c s s3) as Cs3 by (by eapply calm_trans).
    assert (keeps (set_writeLock w true) (set_writeLock w2 true)) as Kw
      by (unfold keeps; cbn; by split_and!).
    unfold retryHdr. apply wp_bind, (wp_silent c s3 L'); [done|done|].
    intros s4 o4 rc4 C4 I4 O4 L4 _. destruct (cm_write _ _ _ _ C4 Hw') as (A1 & A2 & _).
    assert (calm L c s s4) as Cs4 by (eapply calm_trans; [done|]; by eapply calm_mono).
    destruct (Z.eqb_spec rc4 SQLITE_OK) as [->|Hrc4].
    2:{ apply wp_ret. cbn. split_and!; auto; congruence. }
    apply wp_bind, (wp_TryHdr c s4 L'); [done|done|].
    intros s5 bad5 ch5 w5 C5 I5 O5 L5 K5 Hseen5 _ Hcur5.
    destruct (Hcur5 Hw' ltac:(congruence)) as (-> & Hhw & Hh5). cbn. apply wp_ret. cbn.
    split_and!; auto; try congruence.
    + eapply calm_trans; [done|]. by eapply calm_mono.
    + by eapply keeps_trans.
    + intros _. destruct (Hseen5 eq_refl) as [H1 H2]. split; [done|]. intros Hck. apply H2. by apply Hsub.
Qed.

(** ** Opening a snapshot *)

(** The two copies of the header agree while the connection may write. *)
Definition same (L : gmap Z bool) (s : shm) : Prop :=
  L !! WAL_WRITE_LOCK = Some true -> hdr1 s = hdr0 s.

Lemma same_calm L c s s' : calm L c s s' -> same L s -> same L s'.
Proof. intros HC Hs Hw. destruct (cm_write _ _ _ _ HC Hw) as (-> & -> & _). by apply Hs. Qed.

Lemma calm_marks L c s i v :
  Inv s -> 1 <= i <= 4 -> L !! WAL_READ_LOCK i = None ->
  calm L c s (set_marks s (setZ (marks s) i v)).
Proof.
  intros Hi Hr HL. pose proof (iv_marks _ _ _ Hi) as Hlen. split; simpl; auto.
  - intros j x Hj Hx. rewrite nthZ_setZ_ne; [done|lia|lia|]. intros <-. congruence.
  - intros _. split_and!; auto; lia.
  - intros _. by split.
Qed.

Lemma wp_StoreMark c s L i v Q :
  own c s L -> 1 <= i <= 4 -> L !! WAL_READ_LOCK i = Some true ->
  (forall s1, calm L c s s1 -> Inv s1 -> let s2 := set_marks s1 (setZ (marks s1) i v) in
     Inv s2 -> own c s2 L -> claims s1 !! c = claims s !! c -> Q tt s2) ->
  wp c (act (StoreMark i v)) Q s.
Proof.
  intros Ho Hir Hl Hk s1 Hr Hi. split; [done|]. intros o [] s2 _ Hsem.
  pose proof (own_rely _ _ _ _ Ho Hr) as Ho1.
  destruct (fine_StoreMark be nPages c s1 L i v o tt s2 Hi Ho1 Hir Hl Hsem) as ((F1 & F2 & F3) & Ho2 & ->).
  split_and!; auto. apply Hk; auto; [by apply calm_rely|apply Hr].
Qed.

Lemma wp_Validate c s L i h lo Q :
  own c s L -> L !! WAL_READ_LOCK i = Some false ->
  (forall s1, calm L c s s1 -> Inv s1 ->
     i = 0 /\ (hdr0 s1 = h -> mxFrame h <= backfill s1)
     \/ 1 <= i <= 4 /\ nthZ (marks s1) i <= mxFrame h /\ 1 <= lo <= backfill s1 + 1) ->
  (forall s1, calm L c s s1 -> Inv s1 -> own c s1 L -> claims s1 !! c = claims s !! c -> Q false s1) ->
  (forall s1, calm L c s s1 -> Inv s1 -> own c s1 L -> hdr0 s1 = h ->
     claims s1 !! c = Some (mkClaim i (mxFrame h) lo (committed s1)) -> Q true s1) ->
  wp c (act (Validate i h lo)) Q s.
Proof.
  intros Ho Hl Hcond Hf Ht s1 Hr Hi. split; [done|]. intros o b s2 _ Hsem.
  pose proof (own_rely _ _ _ _ Ho Hr) as Ho1. pose proof (calm_rely _ _ _ _ Ho Hr) as Hc1.
  destruct (fine_Validate be nPages c s1 L i h lo o b s2 Hi Ho1 Hl (Hcond s1 Hc1 Hi) Hsem)
    as ((F1 & F2 & F3) & Ho2 & Hcase). split_and!; auto.
  destruct Hcase as [[-> ->]|(-> & Hh & ->)]; [apply Hf; auto; apply Hr|].
  apply Ht; auto.
  - eapply calm_trans; [done|].
    pose proof (calm_mine L c s1 (locks s1) (<[c := mkClaim i (mxFrame h) lo (committed s1)]> (claims s1))) as Hm.
    destruct s1; apply Hm. simpl in *. intros c' x Hx.
    destruct (decide (c' = c)) as [->|Hne].
    + rewrite lookup_insert_eq in Hx. injection Hx as <-. right. simpl. by subst h.
    + rewrite lookup_insert_ne in Hx by done. by left.
  - simpl. by rewrite lookup_insert_eq.
Qed.

(** A connection with an open snapshot; [L] are its other locks. *)
Record reading (c : nat) (s : shm) (L : gmap Z bool) (w : Wal) : Prop := {
  rd_own : own c s (<[WAL_READ_LOCK (readLock w) := false]> L);
  rd_range : 0 <= readLock w <= 4;
  rd_claim : exists x, claims s !! c = Some x /\ c_lock x = readLock w
               /\ (readLock w <> 0 -> c_mx x = mxFrame (hdr w) /\ c_min x = minFrame w);
  rd_salt : aSalt (hdr w) ∈ used s;
  rd_back : readLock w = 0 -> aSalt (hdr0 s) = aSalt (hdr w) ->
              mxFrame (hdr w) <= mx s /\ mxFrame (hdr w) <= backfill s
}.

(** The fields that opening a snapshot does not change. *)
Definition sameConn (w w' : Wal) : Prop :=
  writeLock w' = writeLock w /\ ckptLock w' = ckptLock w /\ readOnly w' = readOnly w
  /\ bShmUnreliable w' = bShmUnreliable w /\ nCkpt w' = nCkpt w.

Lemma sameConn_trans w w' w'' : sameConn w w' -> sameConn w' w'' -> sameConn w w''.
Proof. unfold sameConn. intuition congruence. Qed.

Lemma keeps_sameConn w w' : keeps w w' -> sameConn w w'.
Proof. by intros (? & ? & ? & ? & ? & ? & ?). Qed.

(** The result of an attempt that began in [s] with [w]. *)
Record attempt (c : nat) (s : shm) (L : gmap Z bool) (w : Wal) (rc : Z) (w' : Wal) (s' : shm) : Prop := {
  at_calm : calm L c s s';
  at_inv : Inv s';
  at_conn : sameConn w w';
  at_ok : rc = SQLITE_OK -> reading c s' L w';
  at_fail : rc <> SQLITE_OK -> own c s' L /\ claims s' !! c = None /\ readLock w' = readLock w
}.

Lemma attempt_calm c s0 s L w0 w rc w' s' :
  calm L c s0 s -> sameConn w0 w -> readLock w = readLock w0 ->
  attempt c s L w rc w' s' -> attempt c s0 L w0 rc w' s'.
Proof.
  intros HC HK HR []. split; auto; [by eapply calm_trans|by eapply sameConn_trans|].
  intros Hrc. destruct (at_fail0 Hrc) as (? & ? & ?). split_and!; auto; congruence.
Qed.

Lemma attempt_fail c s L w rc :
  Inv s -> own c s L -> claims s !! c = None -> rc <> SQLITE_OK -> attempt c s L w rc w s.
Proof. intros. split; auto using calm_refl; done. Qed.

(** No read lock is held. *)
Definition noRead (L : gmap Z bool) : Prop := forall i, 0 <= i <= 4 -> L !! WAL_READ_LOCK i = None.

Lemma read_keep (L : gmap Z bool) i j x :
  L !! WAL_READ_LOCK i = None -> L !! j = Some x -> <[WAL_READ_LOCK i := false]> L !! j = Some x.
Proof. intros HL Hj. rewrite lookup_insert_ne; [done|]. intros <-. congruence. Qed.

(** Releasing the read lock [i] that was just taken. *)
Lemma wp_backOff c s0 s L w0 w rc i (Q : unit -> shm -> Prop) :
  own c s (<[WAL_READ_LOCK i := false]> L) -> Inv s -> 0 <= i <= 4 -> noRead L -> same L s ->
  claims s !! c = None -> calm L c s0 s -> rc <> SQLITE_OK ->
  sameConn w0 w -> readLock w = readLock w0 ->
  (forall s', attempt c s0 L w0 rc w s' -> Q tt s') ->
  wp c (act (UnlockShared (WAL_READ_LOCK i))) Q s.
Proof.
  intros Ho Hi Hir HL Hsame Hcl HC Hrc HK HR HQ.
  assert (forall s1, calm (<[WAL_READ_LOCK i := false]> L) c s s1 -> same L s1) as Hs1.
  { intros s1 C1. eapply same_calm; [|done]. eapply calm_mono; [|done].
    intros j x. apply read_keep. by apply HL. }
  eapply (wp_UnlockShared c s); [done|by rewrite lookup_insert_eq| |].
  - intros s1 C1 I1 O1. eapply (settled_intro 1 c); [done|done|lia| |].
    + intros H. destruct (decide (i = 1)) as [->|Hne]; [by rewrite lookup_insert_eq in H|].
      rewrite lookup_insert_ne, HL in H by (unfold WAL_READ_LOCK; lia). done.
    + intros H. rewrite lookup_insert_ne in H by (unfold WAL_READ_LOCK, WAL_WRITE_LOCK; lia).
      by apply (Hs1 s1 C1).
  - rewrite delete_insert_id by (by apply HL). intros s1 C1 I1 O1 Hc1. apply HQ.
    eapply (attempt_calm c s0 s1 L w0 w); [by eapply calm_trans|done|done|].
    apply attempt_fail; auto. destruct (claims s1 !! c) as [x|] eqn:E; [|done].
    destruct (Hc1 x eq_refl) as [? _]. congruence.
Qed.

(** An attempt on the log keeps the header, and uses a mark. *)
Definition logged (w : Wal) (r : Z * Wal) : Prop :=
  hdr r.2 = hdr w /\ (r.1 = SQLITE_OK -> 1 <= readLock r.2).

Lemma wp_lockMark c s L w i mark :
  own c s L -> Inv s -> noRead L -> same L s -> claims s !! c = None -> 1 <= i <= 4 ->
  seen c s (hdr w) -> mark <= mxFrame (hdr w) ->
  wp c (lockMark w i mark) (fun r s' => attempt c s L w r.1 r.2 s' /\ logged w r) s.
Proof.
  intros Ho Hi HL Hsame Hcl Hir Hseen Hmark. unfold lockMark.
  assert (L !! WAL_READ_LOCK i = None) as HLi by (apply HL; lia).
  assert (forall s s', calm (<[WAL_READ_LOCK i := false]> L) c s s' -> calm L c s s') as Hmono
    by (intros s1 s2; apply calm_mono; intros j x; by apply read_keep).
  apply wp_bind, (wp_LockShared c s L); [done|done| |].
  { intros s1 rc C1 I1 O1 Hrc L1. rewrite (proj2 (Z.eqb_neq rc _)) by done. apply wp_ret. simpl.
    assert ((if Z.land rc 255 =? SQLITE_BUSY then WAL_RETRY else rc) <> SQLITE_OK) as Hne
      by (by destruct (_ =? _)).
    split; [|by split]. eapply attempt_calm; [done|done|done|]. apply attempt_fail; auto. congruence. }
  intros s1 C1 I1 O1 L1. cbn [negb Z.eqb].
  apply wp_bind, (wp_silent c s1 (<[WAL_READ_LOCK i := false]> L)); [done|done|].
  intros s2 o nb C2 I2 O2 L2 [= <-].
  apply wp_bind, (wp_silent c s2 (<[WAL_READ_LOCK i := false]> L)); [done|done|].
  intros s3 o' m C3 I3 O3 L3 [= <-].
  assert (calm L c s s3) as C03 by eauto using calm_trans.
  set (w1 := set_minFrame w (backfill s2 + 1)). apply wp_bind.
  assert (forall s4, calm L c s3 s4 -> Inv s4 -> own c s4 (<[WAL_READ_LOCK i := false]> L) ->
    claims s4 !! c = claims s3 !! c ->
    wp c (_ ← act (UnlockShared (WAL_READ_LOCK i)); Ret (WAL_RETRY, w1))
      (fun r s' => attempt c s L w r.1 r.2 s' /\ logged w r) s4) as Hback.
  { intros s4 C4 I4 O4 L4. assert (calm L c s s4) as C04 by eauto using calm_trans.
    apply wp_bind, (wp_backOff c s s4 L w w1 WAL_RETRY i);
      auto; [lia|by eapply same_calm|congruence|done|by split]. }
  destruct (Z.eqb_spec (nthZ (marks s3) i) mark) as [Em|Em]; cbn [negb].
  2:{ apply wp_ret. cbn [negb]. apply Hback; auto using calm_refl. }
  eapply (wp_Validate c s3 (<[WAL_READ_LOCK i := false]> L)); [done|by rewrite lookup_insert_eq| | |].
  - intros s4 C4 I4. right. split; [done|].
    rewrite (cm_mark _ _ _ _ C4 i false), Em by (done || by rewrite lookup_insert_eq).
    split; [done|]. pose proof (iv_back _ _ _ I2) as [Hb _].
    assert (grows s2 s4) as [Hg _ _ _]; [|subst w1; simpl; lia].
    eapply (cm_grow (<[WAL_READ_LOCK i := false]> L)); [by eapply calm_trans|].
    left. exists i, false. by rewrite lookup_insert_eq.
  - intros s4 C4 I4 O4 L4. cbn [negb]. apply Hback; auto.
  - intros s4 C4 I4 O4 Hh L4. cbn [negb]. apply wp_ret. simpl. split; [|by split; [|simpl; lia]].
    split; [eauto using calm_trans|done|done| |done]. intros _. split; simpl; [done|lia| | |lia].
    + eexists. by split_and!.
    + change (hdr w) with (hdr w1). rewrite <- Hh. apply I4.
Qed.

Lemma wp_readDatabase c s L w :
  own c s L -> Inv s -> noRead L -> same L s -> claims s !! c = None -> seen c s (hdr w) ->
  (aSalt (hdr0 s) = aSalt (hdr w) -> mxFrame (hdr w) <= backfill s) ->
  wp c (readDatabase w)
     (fun r s' => match r with
                  | inl rc => rc <> SQLITE_OK /\ calm L c s s' /\ Inv s' /\ own c s' L /\ claims s' !! c = None
                  | inr (rc, w') => attempt c s L w rc w' s' /\ hdr w' = hdr w
                  end) s.
Proof.
  intros Ho Hi HL Hsame Hcl Hseen Hback. unfold readDatabase.
  assert (L !! WAL_READ_LOCK 0 = None) as HL0 by (apply HL; lia).
  assert (forall s s', calm (<[WAL_READ_LOCK 0 := false]> L) c s s' -> calm L c s s') as Hmono
    by (intros s1 s2; apply calm_mono; intros j x; by apply read_keep).
  apply wp_bind, (wp_LockShared c s L); [done|done| |].
  { intros s1 rc C1 I1 O1 Hrc L1. rewrite (proj2 (Z.eqb_neq rc _)) by done.
    destruct (rc =? SQLITE_BUSY); cbn [negb]; apply wp_ret; [split_and!; auto; congruence|].
    split; [|done]. eapply attempt_calm; [done|done|done|]. apply attempt_fail; auto. congruence. }
  intros s1 C1 I1 O1 L1. cbn [negb Z.eqb SQLITE_OK].
  assert (forall s2, calm L c s s2 -> aSalt (hdr0 s2) = aSalt (hdr w) ->
    mxFrame (hdr w) <= mx s2 /\ mxFrame (hdr w) <= backfill s2) as Hep.
  { intros s2 C2. apply (cm_back _ _ _ _ C2); [apply Hseen|]. intros E. split; [by apply Hseen|auto]. }
  apply wp_bind, (wp_Validate c s1 (<[WAL_READ_LOCK 0 := false]> L)); [done|by rewrite lookup_insert_eq| | |].
  - intros s2 C2 I2. left. split; [done|]. intros Hh. apply Hep; [eauto using calm_trans|by rewrite Hh].
  - intros s2 C2 I2 O2 L2. cbn [negb].
    assert (calm L c s s2) as C02 by eauto using calm_trans.
    apply wp_bind, (wp_backOff c s s2 L w w WAL_RETRY 0);
      auto; [lia|by eapply same_calm|congruence|done|]. intros s3 H. by apply wp_ret.
  - intros s2 C2 I2 O2 Hh L2. cbn [negb]. apply wp_ret. split; [|done].
    split; [eauto using calm_trans|done|done| |done]. intros _. split; simpl; [done|lia| | |].
    + eexists. by split_and!.
    + rewrite <- Hh. apply I2.
    + intros _. apply Hep. eauto using calm_trans.
Qed.

Lemma wp_scanMarks c s L n i m rm mi Q :
  own c s L -> Inv s -> 1 <= i -> i + Z.of_nat n <= 5 -> rm <= m -> 0 <= mi <= 4 ->
  (forall s1 rm' mi', calm L c s s1 -> Inv s1 -> own c s1 L -> claims s1 !! c = claims s !! c ->
     rm' <= m -> 0 <= mi' <= 4 -> Q (rm', mi') s1) ->
  wp c (scanMarks n i m rm mi) Q s.
Proof.
  revert s i rm mi; induction n as [|n IH]; intros s i rm mi Ho Hi H1 H5 Hrm Hmi HQ; cbn [scanMarks].
  { apply wp_ret, HQ; auto using calm_refl. }
  apply wp_bind, (wp_silent c s L); [done|done|]. intros s1 o t C1 I1 O1 L1 _.
  destruct ((rm <=? t) && (t <=? m)) eqn:E; apply IH; auto; try lia;
    intros s2 rm' mi' C2 I2 O2 L2 B1 B2; apply HQ; auto; (eauto using calm_trans || congruence).
Qed.

Lemma wp_takeMark c s L n i m rc Q :
  own c s L -> Inv s -> noRead L -> same L s -> 1 <= i -> i + Z.of_nat n <= 5 ->
  (n = 0%nat -> rc <> SQLITE_OK) ->
  (forall s1 rc' t, calm L c s s1 -> Inv s1 -> own c s1 L -> claims s1 !! c = claims s !! c ->
     (forall j, t = Some j -> 1 <= j <= 4) -> (t = None -> rc' <> SQLITE_OK) -> Q (rc', t) s1) ->
  wp c (takeMark n i m rc) Q s.
Proof.
  intros Ho Hi HL Hsame. revert s i rc Ho Hi Hsame.
  induction n as [|n IH]; intros s i rc Ho Hi Hsame H1 H5 Hrc HQ; cbn [takeMark].
  { apply wp_ret, HQ; auto using calm_refl. done. }
  assert (L !! WAL_READ_LOCK i = None) as HLi by (apply HL; lia).
  assert (forall j, WAL_READ_LOCK i <= j < WAL_READ_LOCK i + 1 -> L !! j = None) as Hnone
    by (intros j Hj; by replace j with (WAL_READ_LOCK i) by lia).
  set (L' := lockRange L (WAL_READ_LOCK i) 1).
  assert (forall s s', calm L' c s s' -> calm L c s s') as Hmono
    by (intros s1 s2; apply calm_mono; intros j x; by apply lockRange_keep).
  assert (L' !! WAL_READ_LOCK i = Some true) as Hl
    by (unfold L'; rewrite lockRange_lookup, decide_True; [done|lia]).
  apply wp_bind, (wp_LockExclusive c s L); [done| |].
  - intros s1 rc1 C1 I1 O1 Hrc1 L1. rewrite (proj2 (Z.eqb_neq rc1 _)) by done.
    destruct (rc1 =? SQLITE_BUSY); cbn [negb].
    + apply IH; auto; [by eapply same_calm|lia|lia|].
      intros s2 rc2 t C2 I2 O2 L2 B1 B2. apply HQ; auto; [eauto using calm_trans|congruence].
    + apply wp_ret, HQ; auto. done.
  - intros s1 C1 I1 O1 L1 _. cbn [Z.eqb SQLITE_OK].
    apply wp_bind, (wp_StoreMark c s1 L'); [done|lia|done|]. intros s2 C2 I2 s3 I3 O3 L3.
    assert (calm L c s s3) as C03.
    { apply (calm_trans _ _ _ s2); [eauto using calm_trans|]. apply calm_marks; [done|lia|done]. }
    apply wp_bind, (wp_UnlockExclusive c s3 L'); [done| | |].
    + intros j Hj. by replace j with (WAL_READ_LOCK i) by lia.
    + intros s4 C4 I4 O4. set (k := if decide (i = 1) then 2 else 1).
      assert (1 <= k <= 4 /\ k <> i) as [Hk Hki] by (unfold k; case_decide; lia).
      eapply (settled_intro k c); [done|done|done| |].
      * unfold L'. rewrite lockRange_lookup, decide_False, HL; [done|lia|unfold WAL_READ_LOCK; lia].
      * intros Hw. eapply (same_calm L c s); [eauto using calm_trans|done|].
        unfold L' in Hw. rewrite lockRange_lookup, decide_False in Hw;
          [done|unfold WAL_READ_LOCK, WAL_WRITE_LOCK; lia].
    + unfold L'. rewrite unlock_lock by done. intros s4 C4 I4 O4 L4. apply wp_ret, HQ; auto.
      * eauto using calm_trans.
      * rewrite L4. unfold s3. simpl. congruence.
      * intros j [= <-]. lia.
Qed.

Lemma wp_readLog c s L w rc :
  own c s L -> Inv s -> noRead L -> same L s -> claims s !! c = None -> seen c s (hdr w) ->
  readOnly w = 0 ->
  wp c (readLog w rc) (fun r s' => attempt c s L w r.1 r.2 s' /\ logged w r) s.
Proof.
  intros Ho Hi HL Hsame Hcl Hseen Hro. unfold readLog. rewrite Hro. cbn [Z.land Z.eqb andb].
  assert (forall s1 i mark, calm L c s s1 -> Inv s1 -> own c s1 L -> claims s1 !! c = None ->
    1 <= i <= 4 -> mark <= mxFrame (hdr w) ->
    wp c (lockMark w i mark) (fun r s' => attempt c s L w r.1 r.2 s' /\ logged w r) s1) as Hlock.
  { intros s1 i mark C1 I1 O1 L1 Hir Hm.
    eapply wp_mono; [|apply (wp_lockMark c s1 L w i mark); eauto using same_calm, seen_calm].
    intros [rc' w'] s2 [H1 H2]. split; [|done]. eapply attempt_calm; [done|done|done|done]. }
  assert (forall s1 rc', calm L c s s1 -> Inv s1 -> own c s1 L -> claims s1 !! c = None ->
    rc' <> SQLITE_OK -> attempt c s L w rc' w s1 /\ logged w (rc', w)) as Hfail.
  { intros s1 rc' C1 I1 O1 L1 Hrc. split; [|by split]. eapply attempt_calm; [done|done|done|].
    by apply attempt_fail. }
  apply wp_bind, (wp_scanMarks c s L); auto; [lia|done|apply Hseen|lia|].
  intros s1 rm mi C1 I1 O1 L1 Hrm Hmi. rewrite Hcl in L1.
  destruct ((rm <? mxFrame (hdr w)) || (mi =? 0)) eqn:E.
  - apply wp_bind, (wp_takeMark c s1 L); [done|done|done|by eapply same_calm|lia|done|done|].
    intros s2 rc2 t C2 I2 O2 L2 Ht Hrc2. rewrite L1 in L2.
    pose proof (calm_trans _ _ _ _ _ C1 C2) as C02.
    destruct t as [j|]; [apply Hlock; auto; lia|]. specialize (Hrc2 eq_refl).
    destruct (rc2 =? SQLITE_BUSY); cbn [negb]; [|by apply wp_ret, Hfail].
    destruct (Z.eqb_spec mi 0); [by apply wp_ret, Hfail|]. apply Hlock; auto. lia.
  - assert (mi <> 0) as Hm0 by lia. rewrite (proj2 (Z.eqb_neq mi 0)) by done. apply Hlock; auto. lia.
Qed.

Lemma wp_busyReadHdr c s L Q :
  own c s L -> Inv s -> same L s -> L !! WAL_RECOVER_LOCK = None -> L !! WAL_READ_LOCK 1 = None ->
  claims s !! c = None ->
  (forall s1 rc, calm L c s s1 -> Inv s1 -> own c s1 L -> claims s1 !! c = None ->
     rc <> SQLITE_OK -> Q rc s1) ->
  wp c busyReadHdr Q s.
Proof.
  intros Ho Hi Hsame HL HL1 Hcl HQ. unfold busyReadHdr.
  apply wp_bind, (wp_silent c s L); [done|done|]. intros s1 o m C1 I1 O1 L1 _.
  destruct m; cbn [negb]; [|apply wp_ret, HQ; auto; congruence].
  apply wp_bind, (wp_LockShared c s1 L); [done|done| |].
  - intros s2 rc C2 I2 O2 Hrc L2. rewrite (proj2 (Z.eqb_neq rc _)) by done.
    destruct (rc =? SQLITE_BUSY); apply wp_ret, HQ; eauto using calm_trans; congruence.
  - intros s2 C2 I2 O2 L2. cbn [Z.eqb SQLITE_OK].
    assert (forall s s', calm (<[WAL_RECOVER_LOCK := false]> L) c s s' -> calm L c s s') as Hmono.
    { intros s3 s4. apply calm_mono. intros j x Hj. rewrite lookup_insert_ne; [done|].
      intros <-. congruence. }
    apply wp_bind, (wp_UnlockShared c s2 (<[WAL_RECOVER_LOCK := false]> L));
      [done|by rewrite lookup_insert_eq| |].
    + intros s3 C3 I3 O3. apply (settled_intro 1 c); [done|done|lia|by rewrite lookup_insert_ne, HL1|].
      rewrite lookup_insert_ne by done. apply (same_calm L c s); eauto using calm_trans.
    + rewrite delete_insert_id by done. intros s3 C3 I3 O3 L3. apply wp_ret, HQ; eauto using calm_trans.
      destruct (claims s3 !! c) as [x|] eqn:E; [|done]. destruct (L3 x eq_refl) as [? _]. congruence.
Qed.

(** What a connection needs to open a snapshot. *)
Record ready (c : nat) (s : shm) (L : gmap Z bool) (w : Wal) : Prop := {
  ry_own : own c s L;
  ry_inv : Inv s;
  ry_free : noRead L;
  ry_recover : L !! WAL_RECOVER_LOCK = None;
  ry_write : writeLocks w L;
  ry_same : same L s;
  ry_claim : claims s !! c = None;
  ry_rw : readOnly w = 0;
  ry_shm : bShmUnreliable w = false
}.

Lemma ready_fail c s L w rc w' s' :
  ready c s L w -> attempt c s L w rc w' s' -> rc <> SQLITE_OK -> ready c s' L w'.
Proof.
  intros [] [? ? (E1 & E2 & E3 & E4 & E5) _ H] Hrc. destruct (H Hrc) as (? & ? & ?).
  split; auto; [unfold writeLocks in *; by rewrite E1|by eapply same_calm|congruence|congruence].
Qed.

Lemma wp_TryBeginRead c s L w ch useWal cnt :
  ready c s L w -> (useWal = true -> seen c s (hdr w)) ->
  wp c (walTryBeginRead be w ch useWal cnt)
     (fun '(rc, _, cnt', w') s' => attempt c s L w rc w' s' /\ (useWal = true -> logged w (rc, w'))
        /\ cnt' = cnt + 1 /\ (rc = WAL_RETRY -> cnt' <= WAL_RETRY_PROTOCOL_LIMIT)) s.
Proof.
  intros [] Huse. unfold walTryBeginRead.
  destruct ((cnt + 1 >? 5) && (cnt + 1 >? WAL_RETRY_PROTOCOL_LIMIT)) eqn:Ecnt.
  { apply wp_ret. split_and!; auto; [by apply attempt_fail|by split|done]. }
  assert (cnt + 1 <= WAL_RETRY_PROTOCOL_LIMIT) as Hcnt by (unfold WAL_RETRY_PROTOCOL_LIMIT in *; lia).
  rewrite ry_shm0. cbn [negb]. rewrite andb_true_r. apply wp_bind.
  apply (wp_mono be nPages c _ (fun '(rc, _, w1) s1 => calm L c s s1 /\ Inv s1 /\ own c s1 L
    /\ claims s1 !! c = None /\ keeps w w1 /\ (useWal = true -> hdr w1 = hdr w)
    /\ (rc = SQLITE_OK -> seen c s1 (hdr w1)))).
  { intros [[rc ch1] w1] s1 (C1 & I1 & O1 & L1 & K1 & Hu & Hs1).
    assert (readLock w1 = readLock w) as HR by apply K1. pose proof (keeps_sameConn _ _ K1) as HK.
    assert (readOnly w1 = 0) as Hro1 by (destruct K1 as (_ & _ & _ & -> & _); done).
    destruct (Z.eqb_spec rc SQLITE_OK) as [->|Hrc]; cbn [negb].
    2:{ apply wp_ret. split_and!; auto; [|intros Hu'; split; [auto|done]].
        eapply attempt_calm; [done|done|done|]. by apply attempt_fail. }
    rewrite (proj1 (proj2 (proj2 (proj2 (proj2 K1))))), ry_shm0. cbn [andb].
    rewrite andb_false_r. specialize (Hs1 eq_refl).
    assert (forall rc' w' s', attempt c s1 L w1 rc' w' s' /\ (useWal = true -> logged w1 (rc', w')) ->
      attempt c s L w rc' w' s' /\ (useWal = true -> logged w (rc', w'))
      /\ cnt + 1 = cnt + 1 /\ (rc' = WAL_RETRY -> cnt + 1 <= WAL_RETRY_PROTOCOL_LIMIT)) as Hend.
    { intros rc' w' s' [H1 H2]. split_and!; auto; [by eapply attempt_calm|].
      intros Hu'. destruct (H2 Hu') as [E1 E2]. split; [rewrite E1; auto|done]. }
    assert (forall s2 rc, calm L c s1 s2 -> Inv s2 -> own c s2 L -> claims s2 !! c = None ->
      wp c (readLog w1 rc)
        (fun '(rc, w') s' => attempt c s1 L w1 rc w' s' /\ (useWal = true -> logged w1 (rc, w'))) s2) as Hlog.
    { intros s2 rc C2 I2 O2 L2.
      eapply wp_mono; [|apply (wp_readLog c s2 L w1 rc); eauto using same_calm, seen_calm, calm_trans].
      intros [rc' w'] s3 [H1 H2]. split; [|done]. by eapply attempt_calm. }
    apply wp_bind. destruct useWal.
    { apply wp_ret, wp_bind. eapply wp_mono; [|apply Hlog; auto using calm_refl].
      intros [rc w'] s3 H. apply wp_ret, Hend, H. }
    apply wp_bind, (wp_silent c s1 L); [done|done|]. intros s2 o nb C2 I2 O2 L2 [= <-]. rewrite L1 in L2.
    destruct (Z.eqb_spec (backfill s2) (mxFrame (hdr w1))) as [Eb|Eb].
    2:{ apply wp_ret, wp_bind. eapply wp_mono; [|apply Hlog; auto].
        intros [rc w'] s3 H. apply wp_ret, Hend, H. }
    eapply wp_mono; [|apply (wp_readDatabase c s2 L w1);
      eauto using same_calm, seen_calm, calm_trans; intros; lia].
    intros [rc|[rc w']] s3.
    - intros (Hrc & C3 & I3 & O3 & L3). apply wp_bind. eapply wp_mono; [|apply Hlog; eauto using calm_trans].
      intros [rc' w'] s4 H. apply wp_ret, Hend, H.
    - intros [H1 H2]. apply wp_ret, Hend. split; [by eapply attempt_calm|done]. }
  destruct useWal; cbn [negb].
  { apply wp_ret. split_and!; auto using calm_refl, keeps_refl. }
  assert (forall rc, L !! WAL_READ_LOCK 1 <> Some rc) as Hr1 by (intros rc; rewrite ry_free0; [done|lia]).
  apply wp_bind, (wp_ReadHdr c s L); auto.
  { intros Hw. apply ry_same0. unfold writeLocks in ry_write0. by rewrite ry_write0, Hw. }
  intros s1 rc ch1 w1 C1 I1 O1 L1 K1 Hs1 _. rewrite ry_claim0 in L1. apply wp_bind.
  destruct (Z.eqb_spec rc SQLITE_BUSY) as [->|Hrc].
  - apply (wp_busyReadHdr c s1 L); auto; [by eapply same_calm|apply ry_free0; lia|].
    intros s2 rc C2 I2 O2 L2 Hrc. apply wp_ret. split_and!; auto; [by eapply calm_trans|done|done].
  - apply wp_ret, wp_ret. split_and!; auto; [done|]. intros ->. by apply Hs1.
Qed.

(** The loop ends: it does not take more than [maxTurns] turns. *)
Lemma wp_beginLoop c s L w ch useWal cnt turns :
  ready c s L w -> (useWal = true -> seen c s (hdr w)) ->
  WAL_RETRY_PROTOCOL_LIMIT < cnt + Z.of_nat turns ->  cnt <= WAL_RETRY_PROTOCOL_LIMIT ->
  wp c (beginLoop be turns w ch useWal cnt)
     (fun '(rc, _, w') s' => attempt c s L w rc w' s' /\ (useWal = true -> logged w (rc, w'))) s.
Proof.
  revert s w ch cnt; induction turns as [|n IH]; intros s w ch cnt HR Huse Hlim Hcnt; [lia|].
  cbn [beginLoop]. eapply wp_bind, wp_mono; [|by apply wp_TryBeginRead].
  intros [[[rc ch1] cnt1] w1] s1 (Hat & Hh & Hc1 & Hlim1).
  destruct (Z.eqb_spec rc WAL_RETRY) as [->|Hrc]; [|by apply wp_ret].
  assert (WAL_RETRY <> SQLITE_OK) as Hne by done.
  destruct (at_fail _ _ _ _ _ _ _ Hat Hne) as (_ & _ & HR1).
  eapply wp_mono; [|apply IH].
  - intros [[rc2 ch2] w2] s2 [H1 H2]. split.
    + eapply attempt_calm; [by apply Hat|by apply Hat|done|done].
    + intros Hu. destruct (H2 Hu) as [E1 E2]. split; [rewrite E1; by apply Hh|done].
  - by eapply ready_fail.
  - intros Hu. destruct (Hh Hu) as [E _]. simpl in E. rewrite E. eapply seen_calm; [by apply Hat|auto].
  - lia.
  - auto.
Qed.
End Programs.
