(* ===== verification/WalWriter.v ===== *)
(** * Transactions on a shared WAL

    The programs of WalShare that end and begin transactions, write frames and
    restart the log, verified with the rules of WalProtocol: between two
    operations a connection is [idle], with the locks that its fields tell and
    an open snapshot if it has a read lock. *)

From stdpp Require Import base list numbers option gmap functions relations.
From S2P Require Import Prelude Util Wal WalIndex WalFormat WalSort WalIter WalShare WalSystem WalProtocol WalSnapshot.
#[local] Open Scope Z_scope.

Section Programs.
Context {be : bool} {nPages : Z}.

Abbreviation mx s := (mxFrame (hdr0 s)).
Abbreviation Inv := (WalProtocol.Inv be nPages).
Abbreviation wp := (WalProtocol.wp be nPages).

(** ** Between operations *)

Definition writeSet (b : bool) : gmap Z bool := if b then {[WAL_WRITE_LOCK := true]} else ∅.

Record idle (c : nat) (s : shm) (w : Wal) : Prop := {
  id_ckpt : ckptLock w = false;
  id_rw : readOnly w = 0;
  id_shm : bShmUnreliable w = false;
  id_none : readLock w < 0 -> own c s (writeSet (writeLock w)) /\ claims s !! c = None;
  id_open : 0 <= readLock w -> reading c s (writeSet (writeLock w)) w;
  id_write : writeLock w = true -> hdr0 s = hdr w /\ hdr1 s = hdr w
}.

Lemma writeSet_read b i : 0 <= i -> writeSet b !! WAL_READ_LOCK i = None.
Proof.
  intros Hi. destruct b; [|done]. unfold writeSet. rewrite lookup_singleton_ne; [done|].
  unfold WAL_READ_LOCK, WAL_WRITE_LOCK. lia.
Qed.

Lemma writeSet_write b : writeSet b !! WAL_WRITE_LOCK = if b then Some true else None.
Proof. by destruct b. Qed.

(** A snapshot stays open. *)
Lemma reading_calm c s s' L L0 L' w w' :
  calm L0 c s s' -> own c s' (<[WAL_READ_LOCK (readLock w) := false]> L') ->
  claims s' !! c = claims s !! c ->
  readLock w' = readLock w -> hdr w' = hdr w -> minFrame w' = minFrame w ->
  reading c s L w -> reading c s' L' w'.
Proof.
  intros HC Ho Hcl E1 E2 E3 []. split; rewrite ?E1, ?E2, ?E3, ?Hcl; auto.
  - by apply (cm_used _ _ _ _ HC).
  - intros H0. by apply (cm_back _ _ _ _ HC); [|auto].
Qed.

Lemma idle_rely c s s' w : rely c s s' -> idle c s w -> idle c s' w.
Proof.
  intros Hr []. split; auto.
  - intros H. destruct (id_none0 H). split; [by eapply own_rely|]. by rewrite (r_claim _ _ _ Hr).
  - intros H. pose proof (id_open0 H) as Hd. eapply reading_calm; [|..|done]; try done.
    + eapply calm_rely; [|done]. apply Hd.
    + eapply own_rely; [|done]. apply Hd.
    + apply Hr.
  - intros H. assert (locks s !! (c, WAL_WRITE_LOCK) = Some true) as Hw.
    { destruct (Z.lt_ge_cases (readLock w) 0) as [H0|H0].
      - destruct (id_none0 H0) as [Ho _]. by rewrite Ho, writeSet_write, H.
      - rewrite (rd_own _ _ _ _ (id_open0 H0)), lookup_insert_ne, writeSet_write, H; [done|].
        unfold WAL_READ_LOCK, WAL_WRITE_LOCK. lia. }
    destruct (r_write _ _ _ Hr Hw) as (-> & -> & _). auto.
Qed.

(** ** The end of transactions *)

(** The connection after [sqlite3WalEndWriteTransaction]. *)
Definition ended (w w' : Wal) : Prop :=
  readLock w' = readLock w /\ hdr w' = hdr w /\ minFrame w' = minFrame w /\ ckptLock w' = ckptLock w
  /\ readOnly w' = readOnly w /\ bShmUnreliable w' = bShmUnreliable w /\ writeLock w' = false.

Lemma wp_EndWrite c s L w (Q : Wal -> shm -> Prop) :
  own c s L -> Inv s -> writeLocks w L -> same L s -> L !! WAL_READ_LOCK 1 <> Some true ->
  (forall s1 w', calm (delete WAL_WRITE_LOCK L) c s s1 -> Inv s1 -> own c s1 (delete WAL_WRITE_LOCK L) ->
     claims s1 !! c = claims s !! c -> ended w w' -> Q w' s1) ->
  wp c (sqlite3WalEndWriteTransaction w) Q s.
Proof.
  intros Ho Hi Hw Hsame Hr1 HQ. unfold sqlite3WalEndWriteTransaction. unfold writeLocks in Hw.
  destruct (writeLock w) eqn:Ew.
  - apply wp_bind, (wp_UnlockExclusive c s L); [done| | |].
    + intros i Hi'. by replace i with WAL_WRITE_LOCK by lia.
    + intros s1 C1 I1 O1. eapply (settled_intro 1 c); [done|done|lia|done|by eapply same_calm].
    + intros s1 C1 I1 O1 L1. apply wp_ret. apply HQ; auto. unfold ended. by cbn.
  - apply wp_ret. rewrite delete_id in HQ by done. apply HQ; auto using calm_refl.
    unfold ended. by rewrite Ew.
Qed.

Lemma writeSet_delete b : delete WAL_WRITE_LOCK (writeSet b) = ∅.
Proof. by destruct b. Qed.

Lemma idle_own c s w : idle c s w -> own c s
  (if readLock w <? 0 then writeSet (writeLock w)
   else <[WAL_READ_LOCK (readLock w) := false]> (writeSet (writeLock w))).
Proof. intros []. destruct (Z.ltb_spec (readLock w) 0) as [H|H]; [by apply id_none0|]. by apply id_open0. Qed.

Lemma wp_endWrite c s w :
  idle c s w -> Inv s ->
  wp c (sqlite3WalEndWriteTransaction w)
     (fun w' s' => idle c s' w' /\ Inv s' /\ readLock w' = readLock w /\ writeLock w' = false) s.
Proof.
  intros Hid Hi. pose proof (idle_own _ _ _ Hid) as Ho. set (L := if _ <? _ then _ else _) in Ho.
  assert (L !! WAL_WRITE_LOCK = writeSet (writeLock w) !! WAL_WRITE_LOCK) as HLw.
  { unfold L. destruct (Z.ltb_spec (readLock w) 0); [done|].
    rewrite lookup_insert_ne; [done|]. unfold WAL_READ_LOCK, WAL_WRITE_LOCK. lia. }
  rewrite writeSet_write in HLw.
  apply (wp_EndWrite c s L); auto.
  - intros Hw. rewrite HLw in Hw. destruct (writeLock w) eqn:E; [|done].
    destruct (id_write _ _ _ Hid E). congruence.
  - unfold L. destruct (Z.ltb_spec (readLock w) 0); [by rewrite writeSet_read by lia|].
    destruct (decide (readLock w = 1)) as [->|]; [by rewrite lookup_insert_eq|].
    rewrite lookup_insert_ne, writeSet_read by (unfold WAL_READ_LOCK; lia). done.
  - intros s1 w' C1 I1 O1 L1 (E1 & E2 & E3 & E4 & E5 & E6 & E7). split_and!; auto.
    destruct Hid. split; try congruence; rewrite E1, E7; intros H.
    + destruct (id_none0 H). split; [|congruence].
      unfold L in O1. rewrite (proj2 (Z.ltb_lt _ _) H), writeSet_delete in O1. done.
    + eapply (reading_calm c s s1); [done| |done|done|done|done|by apply id_open0].
      unfold L in O1. rewrite (proj2 (Z.ltb_ge _ _) H), delete_insert_ne, writeSet_delete in O1; [done|].
      unfold WAL_READ_LOCK, WAL_WRITE_LOCK. lia.
Qed.

Lemma wp_endRead c s w :
  idle c s w -> Inv s -> wp c (sqlite3WalEndReadTransaction w) (fun w' s' => idle c s' w') s.
Proof.
  intros Hid Hi. unfold sqlite3WalEndReadTransaction.
  eapply wp_bind, wp_mono; [|by apply wp_endWrite]. clear Hid Hi s.
  intros w1 s (Hid & Hi & _ & Hw). rewrite Z.geb_leb.
  destruct (Z.leb_spec 0 (readLock w1)) as [H|H]; [|by apply wp_ret].
  pose proof (id_open _ _ _ Hid H) as Hd. rewrite Hw in Hd.
  set (i := readLock w1) in *.
  apply wp_bind, (wp_UnlockShared c s (<[WAL_READ_LOCK i := false]> (writeSet false)));
    [apply Hd|by rewrite lookup_insert_eq| |].
  - intros s1 C1 I1 O1 Hww. rewrite lookup_insert_ne in Hww; [done|].
    unfold WAL_READ_LOCK, WAL_WRITE_LOCK. lia.
  - rewrite delete_insert_id by (by apply writeSet_read).
    intros s1 C1 I1 O1 L1. apply wp_ret. destruct Hid. split; cbn; rewrite ?Hw; try done.
    intros _. split; [done|]. destruct (claims s1 !! c) as [x|] eqn:E; [|done].
    destruct (L1 x eq_refl) as [Hx Hne]. destruct (rd_claim _ _ _ _ Hd) as (y & Hy & Hyl & _).
    rewrite Hx in Hy. injection Hy as <-. by rewrite Hyl in Hne.
Qed.

(** ** The beginning of transactions *)

Lemma wp_beginRead c s w :
  idle c s w -> Inv s -> readLock w < 0 -> writeLock w = false ->
  wp c (sqlite3WalBeginReadTransaction be w false) (fun r s' => idle c s' r.2) s.
Proof.
  intros Hid Hi Hr Hw. destruct Hid. destruct (id_none0 Hr) as [Ho Hcl].
  unfold sqlite3WalBeginReadTransaction.
  eapply wp_mono; [|apply (wp_beginLoop c s (writeSet (writeLock w)) w false false 0 maxTurns)].
  - intros [[rc ch] w'] s' [[C1 I1 (E1 & E2 & E3 & E4 & E5) Hok Hfail] _]. cbn.
    split; try congruence; rewrite E1.
    + intros H. destruct (decide (rc = SQLITE_OK)) as [->|Hrc].
      * pose proof (rd_range _ _ _ _ (Hok eq_refl)). lia.
      * by destruct (Hfail Hrc) as (? & ? & _).
    + intros H. destruct (decide (rc = SQLITE_OK)) as [->|Hrc]; [by apply Hok|].
      destruct (Hfail Hrc) as (_ & _ & HR). lia.
  - split; auto.
    + intros i Hii. apply writeSet_read. lia.
    + by rewrite Hw.
    + unfold writeLocks. apply writeSet_write.
    + intros H. by rewrite writeSet_write, Hw in H.
  - done.
  - done.
  - done.
Qed.

Lemma wp_beginWrite c s w :
  idle c s w -> Inv s -> 0 <= readLock w -> writeLock w = false ->
  wp c (sqlite3WalBeginWriteTransaction w) (fun r s' => idle c s' r.2) s.
Proof.
  intros Hid Hi Hr Hw. unfold sqlite3WalBeginWriteTransaction.
  pose proof Hid as []. rewrite id_rw0. cbn [negb Z.eqb].
  pose proof (id_open0 Hr) as Hd. rewrite Hw in Hd. set (L := <[WAL_READ_LOCK (readLock w) := false]> (writeSet false)).
  assert (forall s1 w', calm L c s s1 -> own c s1 L -> claims s1 !! c = claims s !! c ->
     w' = w \/ w' = set_writeLock (set_writeLock w true) false -> idle c s1 w') as Hback.
  { intros s1 w' C1 O1 L1 Hw'. assert (reading c s1 (writeSet false) w') as Hd1
      by (eapply (reading_calm c s s1 _ L _ w w'); [done|done|done|..|done]; by destruct Hw' as [->| ->]).
    destruct Hw' as [->| ->]; split; cbn; rewrite ?Hw; try done; intros; exfalso; lia. }
  apply wp_bind, (wp_LockExclusive c s L); [apply Hd| |].
  { intros s1 rc C1 I1 O1 Hrc L1. rewrite (proj2 (Z.eqb_neq rc _)) by done. apply wp_ret.
    eapply Hback; eauto. }
  intros s1 C1 I1 O1 L1 Hsame. specialize (Hsame ltac:(unfold WAL_WRITE_LOCK; lia)).
  cbn [negb Z.eqb SQLITE_OK]. set (L' := lockRange L WAL_WRITE_LOCK 1) in *.
  assert (L !! WAL_WRITE_LOCK = None) as HLw.
  { unfold L. rewrite lookup_insert_ne; [done|]. unfold WAL_READ_LOCK, WAL_WRITE_LOCK. lia. }
  assert (L' = <[WAL_READ_LOCK (readLock w) := false]> (writeSet true)) as HL'.
  { unfold L', L, writeSet. change (lockRange ?l WAL_WRITE_LOCK 1) with (<[WAL_WRITE_LOCK := true]> l).
    apply insert_insert_ne. unfold WAL_READ_LOCK, WAL_WRITE_LOCK. lia. }
  apply wp_bind, (wp_silent c s1 L'); [done|done|]. intros s2 o h C2 I2 O2 L2 [= <-].
  assert (calm L c s1 s2) as C2'.
  { eapply calm_mono; [|done]. intros i x Hx. apply lockRange_keep; [|done].
    intros j Hj. by replace j with WAL_WRITE_LOCK by lia. }
  assert (L' !! WAL_WRITE_LOCK = Some true) as Hw'.
  { unfold L'. rewrite lockRange_lookup, decide_True; [done|]. unfold WAL_WRITE_LOCK. lia. }
  destruct (cm_write _ _ _ _ C2 Hw') as (G1 & G2 & _).
  case_bool_decide as Hh; cbn [negb]; cbn in Hh.
  - apply wp_ret. split; cbn; try done.
    + intros. exfalso. lia.
    + intros _. eapply (reading_calm c s s2 _ L _ w); [by eapply calm_trans| |congruence|done|done|done|done].
      rewrite HL' in O2. exact O2.
    + intros _. split; congruence.
  - apply wp_bind, (wp_UnlockExclusive c s2 L'); [done| | |].
    + intros i Hii. by replace i with WAL_WRITE_LOCK by lia.
    + intros s3 C3 I3 O3. destruct (cm_write _ _ _ _ C3 Hw') as (G3 & G4 & _).
      eapply (settled_intro 1 c); [done|done|lia| |congruence]. rewrite HL'.
      destruct (decide (readLock w = 1)) as [->|]; [by rewrite lookup_insert_eq|].
      rewrite lookup_insert_ne, writeSet_read by (unfold WAL_READ_LOCK; lia). done.
    + unfold L'. rewrite unlock_lock by (intros j Hj; by replace j with WAL_WRITE_LOCK by lia).
      intros s3 C3 I3 O3 L3. apply wp_ret. eapply (Hback s3); [|done|congruence|by right].
      eauto using calm_trans.
Qed.

(** ** Writing the header *)

Lemma wp_fine {B} c s L (e : event B) Q :
  own c s L -> inside e ->
  (forall s1 o b s2, calm L c s s1 -> Inv s1 -> own c s1 L -> claims s1 !! c = claims s !! c ->
     noOverlap B c e s1 -> sem c e o s1 = Some (b, s2) -> fine be nPages c e s1 s2 /\ Q b s2) ->
  wp c (act e) Q s.
Proof.
  intros Ho He HQ s1 Hr Hi. split; [done|]. intros o b s2 Hno Hsem.
  destruct (HQ s1 o b s2) as [(F1 & F2 & F3) Hq]; auto using calm_rely.
  - by eapply own_rely.
  - apply Hr.
Qed.

(** The header that [walIndexWriteHdr] stores. *)
Lemma written_valid w : hdr_valid be (hdr (WalFormat.walIndexWriteHdr be w)).
Proof. by split_and!. Qed.

(** The log starts again, with the header of [w']. *)
Record restarted (c : nat) (s : shm) (L : gmap Z bool) (w w' : Wal) (s' : shm) : Prop := {
  rs_inv : Inv s';
  rs_own : own c s' L;
  rs_claim : claims s' !! c = claims s !! c;
  rs_hdr0 : hdr0 s' = hdr w';
  rs_hdr1 : hdr1 s' = hdr w';
  rs_mx : mxFrame (hdr w') = 0;
  rs_back : backfill s' = 0;
  rs_conn : writeLock w' = writeLock w /\ ckptLock w' = ckptLock w /\ readOnly w' = readOnly w
            /\ bShmUnreliable w' = bShmUnreliable w /\ readLock w' = readLock w
}.

(** Another access changes neither the headers nor the number of frames in the
    database. *)
Lemma restarted_step {B} c s L w w' s1 (e : event B) Q :
  restarter L -> restarted c s L w w' s1 -> inside e ->
  (forall s2 o b s3, Inv s2 -> own c s2 L -> hdr0 s2 = hdr w' -> sem c e o s2 = Some (b, s3) ->
     fine be nPages c e s2 s3 /\ locks s3 = locks s2 /\ claims s3 = claims s2 /\ hdr0 s3 = hdr0 s2
     /\ hdr1 s3 = hdr1 s2 /\ backfill s3 = backfill s2) ->
  (forall b s2, restarted c s L w w' s2 -> Q b s2) ->
  wp c (act e) Q s1.
Proof.
  intros [Hw _] [] He Hsem HQ. eapply (wp_fine c s1 L); [done|done|].
  intros s2 o b s3 C I O Lc _ Hs. destruct (cm_write _ _ _ _ C Hw) as (G1 & G2 & G3 & G4 & G5).
  rewrite rs_hdr2, rs_mx0, rs_back0 in *. specialize (G5 ltac:(lia)).
  destruct (Hsem s2 o b s3 I O ltac:(congruence) Hs) as (F & E1 & E2 & E3 & E4 & E5).
  split; [done|]. apply HQ. split; auto; try congruence.
  - apply F.
  - lia.
Qed.

(** The rest of the checkpoint information. *)
Lemma wp_restartMarks c s L w w' s1 :
  restarter L -> restarted c s L w w' s1 ->
  wp c (_ ← act (StoreAttempted 0); _ ← act (StoreMark 1 0); _ ← act (StoreMark 2 READMARK_NOT_USED);
        _ ← act (StoreMark 3 READMARK_NOT_USED); _ ← act (StoreMark 4 READMARK_NOT_USED); Ret w')
     (fun w' s' => restarted c s L w w' s') s1.
Proof.
  intros Hrs HR. pose proof Hrs as [_ Hr]. eapply wp_bind, (restarted_step c s L w w' s1); [done|done|done| |].
  { intros s2 o [] s3 I O _ Hs.
    destruct (fine_StoreAttempted be nPages c s2 L _ o tt s3 I O Hs) as (F & _ & ->). by split_and!. }
  assert (forall i v s6 Q, 1 <= i <= 4 -> restarted c s L w w' s6 ->
    (forall b s2, restarted c s L w w' s2 -> Q b s2) -> wp c (act (StoreMark i v)) Q s6) as Hmark.
  { intros i v s7 Q Hir HR7. apply (restarted_step c s L w w' s7); [done|done|done|].
    intros s2 o [] s3 I O _ Hs. destruct (fine_StoreMark be nPages c s2 L i v o tt s3 I O Hir (Hr i Hir) Hs)
      as (F & _ & ->). by split_and!. }
  intros [] s7 H7. apply wp_bind, Hmark; [lia|done|]. intros [] s8 H8.
  apply wp_bind, Hmark; [lia|done|]. intros [] s9 H9.
  apply wp_bind, Hmark; [lia|done|]. intros [] s10 H10.
  apply wp_bind, Hmark; [lia|done|]. intros [] s11 H11. by apply wp_ret.
Qed.

Lemma wp_RestartHdr c s L w salt :
  own c s L -> Inv s -> restarter L -> hdr0 s = hdr w -> mx s <= backfill s ->
  wp c (walRestartHdr be w salt) (fun w' s' => restarted c s L w w' s') s.
Proof.
  intros Ho Hi Hrs Hh Hmx. pose proof Hrs as [Hw Hr]. unfold walRestartHdr.
  set (w1 := set_hdr (set_nCkpt w _) _). set (w' := WalFormat.walIndexWriteHdr be w1).
  assert (nPages <= nPage (hdr w')) as Hp by (change (nPages <= nPage (hdr w)); rewrite <- Hh; apply Hi).
  eapply wp_bind, wp_bind, (wp_fine c s L); [done|done|].
  intros s1 o [] s2 C1 I1 O1 L1 _ Hs.
  destruct (fine_WriteHdr1 be nPages c s1 L _ o tt s2 I1 O1 Hw Hs) as (F & O2 & ->). split; [done|].
  destruct (cm_write _ _ _ _ C1 Hw) as (G1 & G2 & G3 & G4 & _).
  eapply wp_bind, (wp_fine c _ L); [done|done|]. intros s3 o' [] s4 C3 I3 O3 L3 Hno Hs3.
  destruct (cm_write _ _ _ _ C3 Hw) as (H1 & H2 & H3 & H4 & _). simpl in H1, H2, H3, H4, L3.
  destruct (fine_restart be nPages c s3 L (hdr w') o' tt s4) as (F4 & O4 & E4 & Ec4);
    [done|done|done|done|apply written_valid|done|rewrite H1, G1; lia|done|done|done|].
  split; [done|]. apply wp_ret.
  destruct (storeHdr0_fields c (hdr w') s3) as (P1 & P2 & P3 & P4 & _). rewrite <- E4 in *.
  eapply wp_bind, (wp_fine c s4 L); [done|done|]. intros s5 o5 [] s6 C5 I5 O5 L5 Hno5 Hs5.
  destruct (cm_write _ _ _ _ C5 Hw) as (Q1 & Q2 & _).
  destruct (fine_StoreBackfill_0 be nPages c s5 L o5 tt s6) as (F6 & O6 & E6); auto; [by rewrite Q1, P2|].
  split; [done|].
  assert (restarted c s L w w' s6) as HR.
  { rewrite E6. split; simpl; auto; try congruence; [rewrite <- E6; apply F6|by rewrite Q1, P2]. }
  by apply wp_restartMarks.
Qed.

(** ** Writing frames *)

(** A writer that only waits. *)
Lemma idle_calm c s s' w :
  let L := <[WAL_READ_LOCK (readLock w) := false]> (writeSet true) in
  idle c s w -> writeLock w = true -> 0 <= readLock w ->
  calm L c s s' -> own c s' L -> claims s' !! c = claims s !! c -> idle c s' w.
Proof.
  intros L Hid Hw Hr HC Ho Hcl. pose proof Hid as []. split; auto.
  - intros H. exfalso. lia.
  - intros _. rewrite Hw. eapply (reading_calm c s s'); [done|done|done|done|done|done|by apply id_open0].
  - intros _. destruct (id_write0 Hw) as [E0 E1].
    assert (L !! WAL_WRITE_LOCK = Some true) as HLw.
    { unfold L. rewrite lookup_insert_ne; [done|]. unfold WAL_READ_LOCK, WAL_WRITE_LOCK. lia. }
    destruct (cm_write _ _ _ _ HC HLw) as (-> & -> & _). done.
Qed.

(** The part that restarts the log, if it can. *)
Lemma wp_tryRestart c s w nBackfill :
  idle c s w -> Inv s -> writeLock w = true -> readLock w = 0 ->
  wp c (if nBackfill >? 0 then
          salt1 ← act Randomness;
          rc ← walLockExclusive (WAL_READ_LOCK 1) (WAL_NREADER - 1);
          if rc =? SQLITE_OK then
            w ← walRestartHdr be w salt1;
            _ ← walUnlockExclusive (WAL_READ_LOCK 1) (WAL_NREADER - 1);
            Ret (rc, true, w)
          else Ret (rc, false, w)
        else Ret (SQLITE_OK, false, w))
     (fun r s' => idle c s' r.2 /\ Inv s' /\ writeLock r.2 = true /\ readLock r.2 = 0
                  /\ mxFrame (hdr r.2) <= mxFrame (hdr w)) s.
Proof.
  intros Hid Hi Hw Hr. pose proof (id_open _ _ _ Hid ltac:(lia)) as Hd. rewrite Hw in Hd.
  pose proof (rd_own _ _ _ _ Hd) as Ho. set (L := <[_ := false]> _) in Ho.
  assert (L !! WAL_WRITE_LOCK = Some true) as HLw by (unfold L; by rewrite Hr).
  assert (forall s1, calm L c s s1 -> own c s1 L -> claims s1 !! c = claims s !! c -> idle c s1 w) as Hwait
    by (intros; eapply idle_calm; eauto; lia).
  destruct (nBackfill >? 0); [|apply wp_ret; by split_and!].
  apply wp_bind, (wp_silent c s L); [done|done|]. intros s2 o' salt C2 I2 O2 L2 _.
  apply wp_bind, (wp_LockExclusive c s2 L); [done| |].
  { intros s3 rc C3 I3 O3 Hrc L3. rewrite (proj2 (Z.eqb_neq rc _)) by done. apply wp_ret. simpl.
    split_and!; auto; [|done]. apply Hwait; eauto using calm_trans; congruence. }
  intros s3 C3 I3 O3 L3 _. cbn [Z.eqb SQLITE_OK].
  assert (calm L c s s3) as C03 by eauto using calm_trans.
  set (L' := lockRange L (WAL_READ_LOCK 1) (WAL_NREADER - 1)) in *.
  assert (restarter L') as Hrs.
  { split; unfold L'; [by rewrite lockRange_lookup, decide_False by (unfold WAL_READ_LOCK, WAL_WRITE_LOCK; lia)|].
    intros i Hii. rewrite lockRange_lookup, decide_True; [done|].
    unfold WAL_READ_LOCK, WAL_NREADER. lia. }
  assert (unlockRange L' (WAL_READ_LOCK 1) (WAL_NREADER - 1) = L) as HL'.
  { apply unlock_lock. intros i Hii. unfold WAL_NREADER, WAL_READ_LOCK in Hii. unfold L.
    rewrite Hr, lookup_insert_ne by (unfold WAL_READ_LOCK; lia).
    replace i with (WAL_READ_LOCK (i - 3)) by (unfold WAL_READ_LOCK; lia). apply writeSet_read. lia. }
  destruct (id_write _ _ _ Hid Hw) as [Hh0 Hh1].
  destruct (cm_write _ _ _ _ C03 HLw) as (G0 & G1 & _).
  apply wp_bind. eapply wp_mono; [|apply (wp_RestartHdr c s3 L'); auto; [congruence|]].
  2:{ rewrite G0, Hh0. apply (cm_back _ _ _ _ C03 (aSalt (hdr w)) (mxFrame (hdr w))).
      - apply Hd.
      - by apply Hd.
      - congruence. }
  intros w' s4 []. apply wp_bind, (wp_UnlockExclusive c s4 L'); [done| | |].
  - intros i Hii. unfold WAL_NREADER, WAL_READ_LOCK in Hii.
    replace i with (WAL_READ_LOCK (i - 3)) by (unfold WAL_READ_LOCK; lia). apply Hrs. lia.
  - intros s5 C5 I5 O5 _. destruct (cm_write _ _ _ _ C5 (proj1 Hrs)) as (-> & -> & _ & _ & H).
    split; [congruence|]. apply H. rewrite rs_hdr2, rs_back0, rs_mx0. lia.
  - rewrite HL'. intros s5 C5 I5 O5 L5. destruct rs_conn0 as (E1 & E2 & E3 & E4 & E5).
    assert (mxFrame (hdr w') <= mxFrame (hdr w)) as Hle by (rewrite <- Hh0, rs_mx0; apply Hi).
    apply wp_ret. simpl. split_and!; [|done|congruence|congruence|done].
    destruct (cm_write _ _ _ _ C5 HLw) as (G2 & G3 & _).
    destruct Hid. split; rewrite ?E1, ?E2, ?E3, ?E4, ?E5, ?Hw; auto; try (intros; congruence).
    + intros H. exfalso. lia.
    + intros _. split; rewrite ?E5; auto; try lia.
      * destruct (rd_claim _ _ _ _ Hd) as (x & Hx & Hxl & _). exists x.
        split_and!; [congruence|done|]. intros H0. by rewrite Hr in H0.
      * rewrite <- rs_hdr2, <- G2. apply I5.
      * intros _ _. rewrite rs_mx0. split; apply I5.
    + intros _. split; congruence.
Qed.

Lemma wp_RestartLog c s w :
  idle c s w -> Inv s -> writeLock w = true -> 0 <= readLock w ->
  wp c (walRestartLog be w)
     (fun r s' => idle c s' r.2 /\ Inv s' /\ writeLock r.2 = true
                  /\ (r.1.1 = SQLITE_OK -> 1 <= readLock r.2)
                  /\ mxFrame (hdr r.2) <= mxFrame (hdr w)) s.
Proof.
  intros Hid Hi Hw Hr. unfold walRestartLog.
  destruct (Z.eqb_spec (readLock w) 0) as [H0|H0]; [|apply wp_ret; split_and!; auto; simpl; lia].
  set (L := <[WAL_READ_LOCK 0 := false]> (writeSet true)).
  apply wp_bind, (wp_silent c s L); [|done|].
  { pose proof (rd_own _ _ _ _ (id_open _ _ _ Hid Hr)) as Ho. by rewrite Hw, H0 in Ho. }
  intros s1 o nb C1 I1 O1 L1 _. apply wp_bind.
  assert (idle c s1 w) as Hid1 by (eapply (idle_calm c s s1 w); rewrite ?H0; eauto; lia).
  eapply wp_mono; [|by apply wp_tryRestart]. generalize (mxFrame (hdr w)) as m. intros m.
  clear dependent s s1 w o nb.
  intros [[rc re] w] s (Hid & Hi & Hw & H0 & Hle). cbn [snd] in *.
  destruct (negb (rc =? SQLITE_OK) && negb (rc =? SQLITE_BUSY)) eqn:Erc.
  { apply wp_ret. split_and!; auto. simpl. intros ->. done. }
  pose proof (id_open _ _ _ Hid ltac:(lia)) as Hd. rewrite Hw in Hd.
  pose proof (rd_own _ _ _ _ Hd) as Ho. rewrite H0 in Ho. fold L in Ho.
  assert (L !! WAL_WRITE_LOCK = Some true) as HLw by done.
  destruct (id_write _ _ _ Hid Hw) as [Hh0 Hh1].
  assert (delete (WAL_READ_LOCK 0) L = writeSet true) as HL by done.
  apply wp_bind, (wp_UnlockShared c s L); [done|done| |].
  { intros s1 C1 I1 O1. destruct (cm_write _ _ _ _ C1 HLw) as (E0 & E1 & _).
    eapply (settled_intro 1 c); [done|done|lia|done|congruence]. }
  rewrite HL. intros s1 C1 I1 O1 L1. destruct (cm_write _ _ _ _ C1 eq_refl) as (E0 & E1 & _).
  assert (claims s1 !! c = None) as Hnone.
  { destruct (claims s1 !! c) as [x|] eqn:E; [|done]. destruct (L1 x eq_refl) as [Hx Hne].
    destruct (rd_claim _ _ _ _ Hd) as (y & Hy & Hyl & _). rewrite Hx in Hy. injection Hy as <-.
    by rewrite Hyl, H0 in Hne. }
  eapply wp_bind, wp_mono; [|apply (wp_beginLoop c s1 (writeSet true) (set_readLock w (-1)) false true 0 maxTurns)];
    [| |intros _; change (seen (nPages := nPages) c s1 (hdr w)); rewrite <- Hh0, <- E0; by apply (seen_live (be := be))|done|done].
  2:{ destruct Hid. split; auto.
      - intros i Hii. apply writeSet_read. lia.
      - unfold writeLocks. simpl. by rewrite Hw.
      - intros _. congruence. }
  intros [[rc' ch] w'] s' [[C2 I2 (K1 & K2 & K3 & K4 & K5) Hok Hfail] Hlog].
  destruct (Hlog eq_refl) as [Hhw Hr']. apply wp_ret. simpl in *.
  split_and!; [|done|congruence|done|by rewrite Hhw].
  destruct (cm_write _ _ _ _ C2 eq_refl) as (E2 & E3 & _).
  destruct Hid. split; try congruence; rewrite ?K1, ?Hw.
  - intros H. destruct (decide (rc' = SQLITE_OK)) as [->|Hrc'].
    + specialize (Hr' eq_refl). lia.
    + by destruct (Hfail Hrc') as (? & ? & _).
  - intros H. destruct (decide (rc' = SQLITE_OK)) as [->|Hrc']; [by apply Hok|].
    destruct (Hfail Hrc') as (_ & _ & HR). lia.
  - intros _. split; congruence.
Qed.

(** The two stores that commit a transaction. *)
Lemma wp_commit c s w h :
  let L := <[WAL_READ_LOCK (readLock w) := false]> (writeSet true) in
  idle c s w -> Inv s -> writeLock w = true -> 1 <= readLock w ->
  nPages <= nPage h -> mx s < mxFrame h <= Z.of_nat (length (log s)) -> mxFrame h < max_frame ->
  (aSalt h = aSalt (hdr0 s) \/ mx s = 0) ->
  wp c (walIndexWriteHdr be (set_hdr w h)) (fun w' s' => idle c s' w') s.
Proof.
  intros L Hid Hi Hw Hr Hp Hm Hmax Hsalt. unfold walIndexWriteHdr.
  set (w' := WalFormat.walIndexWriteHdr be (set_hdr w h)).
  pose proof (id_open _ _ _ Hid ltac:(lia)) as Hd. rewrite Hw in Hd.
  assert (L !! WAL_WRITE_LOCK = Some true) as HLw.
  { unfold L. rewrite lookup_insert_ne; [done|]. unfold WAL_READ_LOCK, WAL_WRITE_LOCK. lia. }
  assert (exists k, 1 <= k <= 4 /\ L !! WAL_READ_LOCK k <> Some true) as (k & Hk & HLk).
  { exists (readLock w). split; [pose proof (rd_range _ _ _ _ Hd); lia|]. unfold L. by rewrite lookup_insert_eq. }
  destruct (id_write _ _ _ Hid Hw) as [Hh0 Hh1].
  eapply wp_bind, (wp_fine c s L); [apply Hd|done|].
  intros s1 o [] s2 C1 I1 O1 L1 _ Hs.
  destruct (fine_WriteHdr1 be nPages c s1 L _ o tt s2 I1 O1 HLw Hs) as (F & O2 & ->). split; [done|].
  destruct (cm_write _ _ _ _ C1 HLw) as (G1 & G2 & G3 & G4 & _).
  eapply wp_bind, (wp_fine c _ L); [done|done|]. intros s3 o' [] s4 C3 I3 O3 L3 Hno Hs3.
  destruct (cm_write _ _ _ _ C3 HLw) as (H1 & H2 & H3 & H4 & _). simpl in H1, H2, H3, H4, L3.
  assert (backfill s3 <= mx s3) as Hb.
  { destruct (settled_intro (be := be) (nPages := nPages) k c s1 L) as [_ Hb]; auto; [congruence|].
    pose proof (proj2 (proj2 (proj2 (proj2 (cm_write _ _ _ _ C3 HLw)))) Hb). simpl in *. by rewrite H1. }
  change (mxFrame h) with (mxFrame (hdr w')) in Hm. change (aSalt h) with (aSalt (hdr w')) in Hsalt.
  pose proof (iv_mx _ _ _ Hi) as Hmx.
  destruct (fine_commit be nPages c s3 L (hdr w') o' tt s4) as (F4 & O4 & E4);
    [done|done|done|done|apply written_valid|done|done|rewrite H1, H3, G1, G3; lia|done|lia
    |rewrite H1, G1; done|done|].
  split; [done|]. apply wp_ret.
  destruct (storeHdr0_fields c (hdr w') s3) as (P1 & P2 & P3 & P4 & _ & _ & _ & _ & P9 & _).
  destruct (rd_claim _ _ _ _ Hd) as (x & Hx & Hxl & Hxm). destruct (Hxm ltac:(lia)) as [_ Hxmin].
  assert (claims s4 !! c = Some (mkClaim (c_lock x) (mxFrame (hdr w')) (c_min x) (committed s4))) as Hcl4.
  { rewrite E4. unfold storeHdr0. rewrite L3, L1, Hx. rewrite (proj2 (Z.eqb_neq (c_lock x) 0)) by lia.
    simpl. rewrite lookup_insert_eq. done. }
  rewrite <- E4 in *. destruct Hid. split; simpl; auto.
  - intros H. exfalso. lia.
  - intros _. rewrite Hw. split; [done|apply Hd| | |intros; simpl in *; lia].
    + eexists. split_and!; [done|done|done].
    + change (aSalt (hdr w') ∈ used s4). rewrite P9. by left.
  - intros _. split; [done|]. by rewrite P3.
Qed.

Lemma wp_WriteTxn c s w frames nTruncate isCommit :
  idle c s w -> Inv s -> writeLock w = true -> 0 <= readLock w -> nPages <= nTruncate ->
  frames <> [] -> mxFrame (hdr w) + Z.of_nat (length frames) < max_frame ->
  wp c (walWriteTxn be w frames nTruncate isCommit) (fun r s' => idle c s' r.2) s.
Proof.
  intros Hid Hi Hw Hr Hp Hf Hmax. unfold walWriteTxn.
  eapply wp_bind, wp_mono; [|by apply wp_RestartLog]. revert Hmax.
  generalize (mxFrame (hdr w)) as m. intros m Hmax. clear dependent s w.
  intros [[rc re] w] s (Hid & Hi & Hw & Hr & Hle). cbn [fst snd] in *.
  destruct (Z.eqb_spec rc SQLITE_OK) as [->|Hrc]; cbn [negb]; [|by apply wp_ret].
  specialize (Hr eq_refl). pose proof (id_open _ _ _ Hid ltac:(lia)) as Hd. rewrite Hw in Hd.
  set (L := <[WAL_READ_LOCK (readLock w) := false]> (writeSet true)).
  assert (L !! WAL_WRITE_LOCK = Some true) as HLw.
  { unfold L. rewrite lookup_insert_ne; [done|]. unfold WAL_READ_LOCK, WAL_WRITE_LOCK. lia. }
  destruct (id_write _ _ _ Hid Hw) as [Hh0 Hh1]. apply wp_bind.
  apply (wp_mono be nPages c _ (fun h s1 => idle c s1 w /\ Inv s1 /\ own c s1 L
    /\ mxFrame h = mx s1 /\ (aSalt h = aSalt (hdr0 s1) \/ mx s1 = 0))).
  2:{ destruct ((mxFrame (hdr w) =? 0) && (nCkpt w =? 0)) eqn:E.
      - apply wp_bind, (wp_silent c s L); [apply Hd|done|]. intros s1 o salt C1 I1 O1 L1 _.
        assert (idle c s1 w) as Hid1 by (eapply (idle_calm c s s1 w); eauto; lia).
        apply wp_ret. destruct (id_write _ _ _ Hid1 Hw) as [E0 E1]. split_and!; auto; simpl.
        + by rewrite E0.
        + right. rewrite E0. lia.
      - apply wp_ret. split_and!; auto; [apply Hd|by rewrite Hh0|left; by rewrite Hh0]. }
  clear dependent s. intros h s (Hid & Hi & Ho & Hm & Hsalt).
  apply wp_bind, (wp_fine c s L); [done|done|]. intros s1 o [] s2 C1 I1 O1 L1 _ Hs.
  assert (idle c s1 w) as Hid1 by (eapply (idle_calm c s s1 w); eauto; lia).
  destruct (cm_write _ _ _ _ C1 HLw) as (G1 & G2 & G3 & _). rewrite <- G1 in Hm, Hsalt.
  destruct (fine_Append be nPages c s1 L _ _ o tt s2 I1 O1 HLw Hm Hs) as (F & O2 & l & -> & Hlen).
  split; [done|]. assert (idle c (set_log s1 l) w) as Hid2.
  { destruct Hid1 as [A1 A2 A3 A4 A5 A6]. split; auto. intros H. destruct (A5 H). by split. }
  destruct isCommit; [|by apply wp_ret].
  assert (1 <= Z.of_nat (length frames)) as Hlf by (destruct frames; [done|simpl; lia]).
  destruct (id_write _ _ _ Hid1 Hw) as [E0 _].
  eapply wp_bind, wp_mono; [|apply (wp_commit c _ w); auto; [apply F|simpl; lia|simpl; rewrite Hm, E0; lia]].
  intros w' s' H. by apply wp_ret.
Qed.
End Programs.
