(* ===== verification/WalBackfill.v ===== *)
(** * Checkpoints of a shared WAL

    The checkpoint of WalShare, verified with the rules of WalProtocol: it
    copies into the database file only frames that no open snapshot is older
    than, it counts a frame as copied only when the newest image of its page
    is in the database, and it restarts the log only when everything is. *)

From stdpp Require Import base list numbers option gmap functions relations.
From S2P Require Import Prelude Util Wal WalIndex WalFormat WalSort WalIter WalShare WalSystem WalProtocol WalSnapshot WalWriter.
#[local] Open Scope Z_scope.

(** ** The frames of the iterator *)

Lemma elem_of_countdown n f : f ∈ countdown n <-> 1 <= f <= Z.of_nat n.
Proof.
  induction n as [|n IH]; cbn [countdown]; [split; [by intros ?%elem_of_nil|lia]|].
  rewrite elem_of_cons, IH. lia.
Qed.

(** What the iterator gives for the frames up to [hi]: frames of the pages
    they are given for, and the newest frame of a page if that is after
    [nb] and not after [safe]. *)
Definition todo_ok (log : list (Z * Z)) (hi nb safe : Z) (todo : list (Z * Z)) : Prop :=
  forall q f, (q, f) ∈ todo ->
    1 <= f <= hi /\ pageAt log.*1 f = q
    /\ (nb < frameOf log q 1 hi <= safe -> f = frameOf log q 1 hi).

Definition iterated (w : Wal) (log : list (Z * Z)) (nb safe : Z) (ignore : bool) : list (Z * Z) :=
  (fun f => (pageAt log.*1 f, f)) <$>
    filter (fun f => pickZ w log.*1 (walFramePage (nb + 1)) safe ignore (pageAt log.*1 f) = f)
           (countdown (Z.to_nat (mxFrame (hdr w)))).

Lemma pickZ_newest w (log : list (Z * Z)) nb safe ignore p :
  let hi := mxFrame (hdr w) in
  0 <= nb -> nb + 1 < max_frame -> 0 <= hi -> nb < frameOf log p 1 hi <= safe ->
  pickZ w log.*1 (walFramePage (nb + 1)) safe ignore p = frameOf log p 1 hi.
Proof.
  intros hi Hnb Hmax Hhi Hf.
  destruct (proj1 (walFramePage_spec (nb + 1) _ ltac:(lia)) eq_refl) as [_ Hz].
  destruct (frameOf_cases log p 1 hi Hhi) as [[? _]|(Hr & _ & Hp & Hlast)]; [lia|].
  assert (lookBack log.*1 p (iZeroOf (walFramePage (nb + 1)) + 1) (Z.to_nat hi) = frameOf log p 1 hi) as E.
  { apply lookBack_some; [lia|lia|done|]. intros f Hf'. apply Hlast. lia. }
  unfold pickZ, pick. fold hi. rewrite E.
  rewrite (proj2 (Z.eqb_neq _ 0)) by lia.
  destruct (Z.gtb_spec (frameOf log p 1 hi) safe); [lia|done].
Qed.

Lemma iterated_ok w log nb safe ignore :
  0 <= nb -> nb + 1 < max_frame -> 0 <= mxFrame (hdr w) ->
  todo_ok log (mxFrame (hdr w)) nb safe (iterated w log nb safe ignore).
Proof.
  intros Hnb Hmax Hhi q f Hin. unfold iterated in Hin.
  apply list_elem_of_fmap in Hin as (g & [= -> ->] & Hg).
  apply list_elem_of_filter in Hg as [Hpick Hg%elem_of_countdown].
  split_and!; [lia|lia|done|]. intros Hf. rewrite <- Hpick at 1. by apply pickZ_newest.
Qed.

Lemma iterated_complete w log nb safe ignore p :
  0 <= nb -> nb + 1 < max_frame -> 0 <= mxFrame (hdr w) ->
  nb < frameOf log p 1 (mxFrame (hdr w)) <= safe ->
  (p, frameOf log p 1 (mxFrame (hdr w))) ∈ iterated w log nb safe ignore.
Proof.
  intros Hnb Hmax Hhi Hf. unfold iterated.
  destruct (frameOf_cases log p 1 (mxFrame (hdr w)) Hhi) as [[? _]|(Hr & _ & Hp & _)]; [lia|].
  apply list_elem_of_fmap. eexists. split; [by rewrite Hp|].
  apply list_elem_of_filter. split; [|apply elem_of_countdown; lia].
  rewrite Hp. by apply pickZ_newest.
Qed.

Section Programs.
Context {be : bool} {nPages : Z}.

Abbreviation mx s := (mxFrame (hdr0 s)).
Abbreviation Inv := (WalProtocol.Inv be nPages).
Abbreviation wp := (WalProtocol.wp be nPages).

(** ** Waiting for a lock *)

Lemma wp_BusyLock c s L xBusy j n Q :
  own c s L ->
  (forall s1 rc, calm L c s s1 -> Inv s1 -> own c s1 L -> rc <> SQLITE_OK ->
     claims s1 !! c = claims s !! c -> Q rc s1) ->
  (forall s1, calm L c s s1 -> Inv s1 -> own c s1 (lockRange L j n) ->
     claims s1 !! c = claims s !! c ->
     (j <= WAL_WRITE_LOCK < j + n -> hdr1 s1 = hdr0 s1) -> Q SQLITE_OK s1) ->
  wp c (walBusyLock xBusy j n) Q s.
Proof.
  intros Ho Hfail Hok. destruct xBusy as [r|]; [|by apply (wp_LockExclusive c s L)]. unfold walBusyLock.
  revert s Ho Hfail Hok; induction r as [|r IH]; intros s Ho Hfail Hok; cbn [busyLoop];
    (apply wp_bind, (wp_LockExclusive c s L); [done| |]).
  - intros. apply wp_ret. by apply Hfail.
  - intros. apply wp_ret. by apply Hok.
  - intros s1 rc C1 I1 O1 Hrc L1. destruct (rc =? SQLITE_BUSY); [|by apply wp_ret, Hfail].
    apply wp_bind, (wp_silent c s1 L); [done|done|]. intros s2 o b C2 I2 O2 L2 _.
    destruct b; [|apply wp_ret, Hfail; auto; [by eapply calm_trans|congruence]].
    apply IH; [done|..].
    + intros. apply Hfail; auto; [|congruence]. do 2 (eapply calm_trans; [done|]). done.
    + intros. apply Hok; auto; [|congruence]. do 2 (eapply calm_trans; [done|]). done.
  - intros. cbn. apply wp_ret. by apply Hok.
Qed.

(** ** The state of a checkpoint *)

(** The connection holds [L], among them the CKPT lock, and has read the
    header of [w]. *)
Record ckpting (c : nat) (L : gmap Z bool) (w : Wal) (s : shm) : Prop := {
  ck_own : own c s L;
  ck_inv : Inv s;
  ck_lock : L !! WAL_CKPT_LOCK = Some true;
  ck_claim : claims s !! c = None;
  ck_nonneg : 0 <= mxFrame (hdr w);
  ck_mx : mxFrame (hdr w) <= mx s;
  ck_pages : nPages <= nPage (hdr w);
  ck_write : L !! WAL_WRITE_LOCK = Some true -> hdr0 s = hdr w /\ hdr1 s = hdr w
}.

(** It goes on while the others work, with locks [L'] on the marks. *)
Lemma ckpting_to c L0 L L' w s s' :
  calm L0 c s s' -> Inv s' -> own c s' L' -> claims s' !! c = claims s !! c ->
  L0 !! WAL_CKPT_LOCK = L !! WAL_CKPT_LOCK -> L0 !! WAL_WRITE_LOCK = L !! WAL_WRITE_LOCK ->
  L' !! WAL_CKPT_LOCK = L !! WAL_CKPT_LOCK -> L' !! WAL_WRITE_LOCK = L !! WAL_WRITE_LOCK ->
  ckpting c L w s -> ckpting c L' w s'.
Proof.
  intros HC Hi Ho Hcl E1 E2 E3 E4 []. rewrite ck_lock0 in E1. split; rewrite ?E3, ?E4; auto.
  - by rewrite Hcl.
  - pose proof (gw_mx _ _ (cm_grow _ _ _ _ HC (or_intror E1))). lia.
  - intros Hw. rewrite <- E2 in Hw. destruct (cm_write _ _ _ _ HC Hw) as (-> & -> & _).
    apply ck_write0. by rewrite <- E2.
Qed.

Lemma ckpting_calm c L w s s' :
  calm L c s s' -> Inv s' -> own c s' L -> claims s' !! c = claims s !! c ->
  ckpting c L w s -> ckpting c L w s'.
Proof. intros. by eapply (ckpting_to c L L L). Qed.

(** No snapshot on the marks before [i] is older than frame [safe]. *)
Definition above (i safe : Z) (s : shm) : Prop :=
  forall c' x, claims s !! c' = Some x -> 1 <= c_lock x < i -> safe <= c_mx x.

Lemma above_calm c L w s s' i safe :
  calm L c s s' -> ckpting c L w s -> safe <= mxFrame (hdr w) -> above i safe s -> above i safe s'.
Proof.
  intros HC [] Hs Ha c' x Hx Hl. destruct (cm_ckpt _ _ _ _ HC ck_lock0) as (_ & _ & Hcl).
  destruct (Hcl c' x Hx) as [Hy|Hy]; [by eapply Ha|lia].
Qed.

(** Locks on one mark, on top of [L]. *)
Lemma mark_locks (L : gmap Z bool) i n :
  noRead L -> 0 <= i -> i + n <= 5 ->
  let L' := lockRange L (WAL_READ_LOCK i) n in
  (forall j x, L !! j = Some x -> L' !! j = Some x)
  /\ (forall j, i <= j < i + n -> L' !! WAL_READ_LOCK j = Some true)
  /\ L' !! WAL_CKPT_LOCK = L !! WAL_CKPT_LOCK /\ L' !! WAL_WRITE_LOCK = L !! WAL_WRITE_LOCK
  /\ unlockRange L' (WAL_READ_LOCK i) n = L
  /\ (forall k, ~ (i <= k < i + n) -> L' !! WAL_READ_LOCK k = L !! WAL_READ_LOCK k).
Proof.
  intros HL Hi Hn L'.
  assert (forall j, WAL_READ_LOCK i <= j < WAL_READ_LOCK i + n -> L !! j = None) as Hnone.
  { intros j Hj. replace j with (WAL_READ_LOCK (j - 3)) by (unfold WAL_READ_LOCK; lia).
    apply HL. unfold WAL_READ_LOCK in Hj. lia. }
  unfold L'. split_and!; [by intros j x; apply lockRange_keep|..|by apply unlock_lock|];
    intros; rewrite lockRange_lookup; unfold WAL_READ_LOCK, WAL_CKPT_LOCK, WAL_WRITE_LOCK in *.
  - rewrite decide_True; [done|lia].
  - rewrite decide_False; [done|lia].
  - rewrite decide_False; [done|lia].
  - rewrite decide_False; [done|lia].
Qed.

(** One mark of the loop that computes [mxSafeFrame]: a mark that nobody uses
    is set. *)
Lemma wp_setMark c L w s i v safe (Q : unit -> shm -> Prop) :
  let L' := lockRange L (WAL_READ_LOCK i) 1 in
  noRead L -> 1 <= i <= 4 -> safe <= mxFrame (hdr w) ->
  ckpting c L' w s -> above i safe s ->
  (forall s1, ckpting c L w s1 -> above (i + 1) safe s1 -> backfill s1 = backfill s -> Q tt s1) ->
  wp c (act (StoreMark i v)) (fun _ => wp c (walUnlockExclusive (WAL_READ_LOCK i) 1) Q) s.
Proof.
  intros L' HL Hir Hs Hck Ha HQ.
  destruct (mark_locks L i 1 HL ltac:(lia) ltac:(lia)) as (Hsub & Hlk & Hckl & Hwl & HU & Hoth). fold L' in Hsub, Hlk, Hckl, Hwl, HU, Hoth.
  assert (above (i + 1) safe s) as Ha'.
  { intros c' x Hx Hl. destruct (decide (c_lock x = i)) as [E|]; [|apply (Ha c'); [done|lia]].
    exfalso. eapply (no_claim be nPages c c' s i x); [apply Hck| |done|done].
    rewrite (ck_own _ _ _ _ Hck). apply Hlk. lia. }
  apply (wp_StoreMark c s L'); [apply Hck|done|apply Hlk; lia|].
  intros s1 C1 I1 s2 I2 O2 L2.
  assert (ckpting c L' w s1) as Hck1 by (eapply ckpting_calm; eauto; by intros j).
  assert (above (i + 1) safe s2) as Ha2 by (exact (above_calm _ _ _ _ _ _ _ C1 Hck Hs Ha')).
  assert (ckpting c L' w s2) as Hck2 by (by destruct Hck1).
  destruct (cm_ckpt _ _ _ _ C1 (ck_lock _ _ _ _ Hck)) as (B1 & _).
  apply (wp_UnlockExclusive c s2 L'); [done| | |].
  - intros j Hj. replace j with (WAL_READ_LOCK i) by lia. apply Hlk. lia.
  - intros s3 C3 I3 O3. set (k := if decide (i = 1) then 2 else 1).
    assert (1 <= k <= 4 /\ k <> i) as [Hk Hki] by (unfold k; case_decide; lia).
    eapply (settled_intro k c); [done|done|done| |].
    + rewrite Hoth, HL by lia. done.
    + intros Hw. destruct (cm_write _ _ _ _ C3 Hw) as (-> & -> & _).
      destruct (ck_write _ _ _ _ Hck2 Hw). congruence.
  - rewrite HU. intros s3 C3 I3 O3 L3.
    assert (L !! WAL_CKPT_LOCK = Some true) as HLck by (rewrite <- Hckl; apply Hck).
    assert (ckpting c L w s3) as Hck3 by (by eapply (ckpting_to c L L' L)).
    destruct (cm_ckpt _ _ _ _ C3 HLck) as (B3 & _ & Hcl3).
    apply HQ; [done| |rewrite B3; exact B1].
    intros c' x Hx Hl. destruct (Hcl3 c' x Hx) as [Hy|Hy]; [by eapply Ha2|].
    pose proof (ck_mx _ _ _ _ Hck2). lia.
Qed.

Lemma wp_safeLoop c L w n i rc safe xBusy s Q :
  noRead L -> 1 <= i -> i + Z.of_nat n = 5 -> safe <= mxFrame (hdr w) ->
  ckpting c L w s -> above i safe s ->
  (forall s1 rc' safe' xb, ckpting c L w s1 -> above 5 safe' s1 -> safe' <= mxFrame (hdr w) ->
     Q (inl (rc', safe', xb)) s1) ->
  (forall s1 rc', ckpting c L w s1 -> rc' <> SQLITE_OK -> Q (inr rc') s1) ->
  wp c (safeLoop n i rc safe xBusy) Q s.
Proof.
  intros HL. revert i rc safe xBusy s.
  induction n as [|n IH]; intros i rc safe xBusy s H1 H5 Hs Hck Ha Hl Hr; cbn [safeLoop].
  { apply wp_ret, Hl; auto. by replace 5 with i by lia. }
  apply wp_bind, (wp_silent c s L); [apply Hck|done|]. intros s1 o y C1 I1 O1 L1 [= <-].
  pose proof (above_calm _ _ _ _ _ _ _ C1 Hck Hs Ha) as Ha1.
  pose proof (ckpting_calm _ _ _ _ _ C1 I1 O1 L1 Hck) as Hck1. clear dependent s.
  set (y := nthZ (marks s1) i).
  assert (above (i + 1) (Z.min safe y) s1) as Hy.
  { intros c' x Hx Hxl. destruct (decide (c_lock x = i)) as [E|].
    - destruct (iv_claims _ _ _ I1 c' x Hx) as [_ Hc]. rewrite decide_False, E in Hc by lia. fold y in Hc. lia.
    - specialize (Ha1 c' x Hx ltac:(lia)). lia. }
  destruct (Z.gtb_spec safe y) as [Hgt|Hle].
  2:{ rewrite Z.min_l in Hy by lia. apply IH; auto; lia. }
  rewrite Z.min_r in Hy by lia.
  destruct (mark_locks L i 1 HL ltac:(lia) ltac:(lia)) as (Hsub & Hlk & Hckl & Hwl & HU & Hoth).
  apply wp_bind, (wp_BusyLock c s1 L); [done| |].
  - intros s2 rc2 C2 I2 O2 Hrc2 L2. rewrite (proj2 (Z.eqb_neq rc2 _)) by done.
    pose proof (ckpting_calm _ _ _ _ _ C2 I2 O2 L2 Hck1) as Hck2.
    destruct (rc2 =? SQLITE_BUSY); [|by apply wp_ret, Hr].
    apply IH; auto; [lia|lia|lia|]. eapply above_calm; eauto. lia.
  - intros s2 C2 I2 O2 L2 _. cbn [Z.eqb SQLITE_OK].
    assert (ckpting c (lockRange L (WAL_READ_LOCK i) 1) w s2) as Hck2 by (by eapply (ckpting_to c L L)).
    eapply wp_bind, wp_mono; [|eapply (wp_setMark c L w s2 i _ safe
      (fun _ s3 => wp c (safeLoop n (i + 1) SQLITE_OK safe xBusy) Q s3)); [done|lia|done|done| |]].
    + intros [] s3 H3. by apply wp_bind.
    + eapply above_calm; eauto.
    + intros s3 Hck3 Ha3 _. apply IH; auto; lia.
Qed.

(** ** Copying frames *)

(** The checkpoint copies frames of [log0], up to frame [safe]. *)
Record copying (c : nat) (L : gmap Z bool) (w : Wal) (log0 : list (Z * Z)) (nb safe : Z) (s : shm) : Prop := {
  cp_ck : ckpting c L w s;
  cp_log : take (Z.to_nat (mxFrame (hdr w))) (log s) = take (Z.to_nat (mxFrame (hdr w))) log0;
  cp_back : backfill s = nb;
  cp_above : above 5 safe s;
  cp_safe : safe <= mxFrame (hdr w)
}.

Lemma copying_calm c L w log0 nb safe s s' :
  calm L c s s' -> Inv s' -> own c s' L -> claims s' !! c = claims s !! c ->
  copying c L w log0 nb safe s -> copying c L w log0 nb safe s' /\ db s' = db s.
Proof.
  intros HC Hi Ho Hcl []. pose proof (ck_lock _ _ _ _ cp_ck0) as Hl.
  destruct (cm_ckpt _ _ _ _ HC Hl) as (E1 & E2 & _). split; [|done]. split; auto; [|..|congruence|].
  - by eapply ckpting_calm.
  - rewrite <- cp_log0. pose proof (cm_grow _ _ _ _ HC (or_intror Hl)) as [].
    apply (take_eq_le _ _ (Z.to_nat (mx s))); [done|]. pose proof (ck_mx _ _ _ _ cp_ck0). lia.
  - by eapply above_calm.
Qed.

(** The newest frame of page [p] is after [nb] and not after [safe], so that
    the page must be copied; it is still to do, or done. *)
Definition pending (log0 : list (Z * Z)) (hi nb safe : Z) (todo : list (Z * Z)) (d : Z -> Z) : Prop :=
  forall p, p <= nPages -> nb < frameOf log0 p 1 hi <= safe ->
    (p, frameOf log0 p 1 hi) ∈ todo \/ d p = image log0 (frameOf log0 p 1 hi).

Lemma pending_skip log0 hi nb safe q f todo d :
  ~ (nb < f <= safe /\ q <= nPages) ->
  pending log0 hi nb safe ((q, f) :: todo) d -> pending log0 hi nb safe todo d.
Proof.
  intros Hn HP p Hp Hf. destruct (HP p Hp Hf) as [Hin|]; [|by right].
  apply elem_of_cons in Hin as [[= <- <-]|Hin]; [by destruct Hn|by left].
Qed.

Lemma pending_write log0 hi nb safe q f todo d :
  todo_ok log0 hi nb safe ((q, f) :: todo) ->
  pending log0 hi nb safe ((q, f) :: todo) d -> pending log0 hi nb safe todo (<[q := image log0 f]> d).
Proof.
  intros HT HP p Hp Hf. destruct (decide (p = q)) as [->|Hne].
  - right. rewrite fn_lookup_insert. f_equal. apply (HT q f); [by left|done].
  - destruct (HP p Hp Hf) as [Hin|E]; [|right; by rewrite fn_lookup_insert_ne].
    apply elem_of_cons in Hin as [[= -> _]|Hin]; [done|by left].
Qed.

Lemma todo_ok_tail log0 hi nb safe x todo : todo_ok log0 hi nb safe (x :: todo) -> todo_ok log0 hi nb safe todo.
Proof. intros HT q f Hin. apply HT. by right. Qed.

Lemma wp_copyLoop c L w log0 nb safe mxPage xCb todo s Q :
  copier L -> nPages <= mxPage ->
  copying c L w log0 nb safe s ->
  todo_ok log0 (mxFrame (hdr w)) nb safe todo -> pending log0 (mxFrame (hdr w)) nb safe todo (db s) ->
  (forall s1 rc, copying c L w log0 nb safe s1 ->
     (rc = SQLITE_OK -> pending log0 (mxFrame (hdr w)) nb safe [] (db s1)) -> Q rc s1) ->
  wp c (copyLoop todo nb safe mxPage xCb) Q s.
Proof.
  intros HL Hmp. revert s. induction todo as [|[q f] todo IH]; intros s Hcp HT HP HQ; cbn [copyLoop].
  { apply wp_ret, HQ; auto. }
  apply wp_bind, (wp_silent c s L); [apply Hcp|done|]. intros s1 o rc C1 I1 O1 L1 _.
  destruct (copying_calm _ _ _ _ _ _ _ _ C1 I1 O1 L1 Hcp) as [Hcp1 Ed1].
  destruct (Z.eqb_spec rc SQLITE_OK) as [->|Hrc]; cbn [negb]; [|by apply wp_ret, HQ].
  pose proof (todo_ok_tail _ _ _ _ _ _ HT) as HT'.
  destruct ((f <=? nb) || (f >? safe) || (q >? mxPage)) eqn:Eskip.
  { apply IH; auto. rewrite Ed1. eapply pending_skip; [|done]. lia. }
  apply wp_bind, (wp_silent c s1 L); [done|done|]. intros s2 o2 buf C2 I2 O2 L2 Hsem2.
  destruct (copying_calm _ _ _ _ _ _ _ _ C2 I2 O2 L2 Hcp1) as [Hcp2 Ed2].
  injection Hsem2 as <-. destruct (o_rc o2 =? SQLITE_OK) eqn:Eo2; [|apply wp_ret, HQ; [done|]; intros E; by rewrite E in Eo2].
  destruct (HT q f) as (Hf & Hq & _); [by left|].
  assert (image (log s2) f = image log0 f) as Eim by (eapply image_prefix; [apply Hcp2|lia]).
  rewrite Eim. apply wp_bind, (wp_fine c s2 L); [done|done|]. intros s3 o3 b s4 C3 I3 O3 L3 _ Hsem.
  destruct (copying_calm _ _ _ _ _ _ _ _ C3 I3 O3 L3 Hcp2) as [Hcp3 Ed3].
  assert (image log0 f = image (log s3) f) as Eim3 by (symmetry; eapply image_prefix; [apply Hcp3|lia]).
  rewrite Eim3 in Hsem |- *.
  destruct (fine_WriteDb be nPages c s3 L q f o3 b s4) as (F & O4 & Hcase); auto.
  { rewrite (cp_back _ _ _ _ _ _ _ Hcp3). pose proof (ck_mx _ _ _ _ (cp_ck _ _ _ _ _ _ _ Hcp3)). lia. }
  { rewrite <- Hq. eapply pageAt_prefix; [apply Hcp3|lia]. }
  { intros c' x Hx H0. destruct (iv_claims _ _ _ I3 c' x Hx) as [_ Hc]. rewrite decide_False in Hc by done.
    pose proof (cp_above _ _ _ _ _ _ _ Hcp3 c' x Hx ltac:(lia)). lia. }
  split; [done|]. destruct Hcase as [[Hb ->]|[-> ->]].
  { rewrite (proj2 (Z.eqb_neq b _)) by done. cbn [negb]. apply wp_ret, HQ; auto. done. }
  cbn [negb Z.eqb SQLITE_OK]. set (s4 := set_db s3 _) in *.
  assert (copying c L w log0 nb safe s4) as Hcp4.
  { destruct Hcp3 as [[] ? ? ? ?]. split; auto. split; auto. apply F. }
  assert (pending log0 (mxFrame (hdr w)) nb safe todo (db s4)) as HP4.
  { simpl. rewrite Ed3, Ed2, Ed1, <- Eim3. by apply pending_write. }
  apply wp_bind. destruct xCb.
  - apply (wp_silent c s4 L); [done|done|]. intros s5 o5 rc5 C5 I5 O5 L5 _.
    destruct (copying_calm _ _ _ _ _ _ _ _ C5 I5 O5 L5 Hcp4) as [Hcp5 Ed5].
    destruct (Z.eqb_spec rc5 SQLITE_OK) as [->|Hrc5]; cbn [negb]; [|by apply wp_ret, HQ].
    apply IH; auto. by rewrite Ed5.
  - apply wp_ret. cbn [negb Z.eqb SQLITE_OK]. by apply IH.
Qed.

(** When nothing is left to do, every page whose newest frame is not after
    [safe] is in the database. *)
Lemma pending_done c L w log0 nb safe s p :
  copying c L w log0 nb safe s -> pending log0 (mxFrame (hdr w)) nb safe [] (db s) ->
  p <= nPages -> frameOf (log s) p 1 (mx s) <= safe -> db s p = committed s p.
Proof.
  intros [[] Hlog Hb _ Hs] HP Hp Hf. set (M := mxFrame (hdr w)) in *.
  assert (frameOf (log s) p 1 (mx s) = frameOf log0 p 1 M) as Efr.
  { rewrite (frameOf_shrink _ _ M) by lia. by apply frameOf_prefix. }
  destruct (Z.le_gt_cases (frameOf (log s) p 1 (mx s)) nb) as [Hle|Hgt].
  { apply (iv_db _ _ _ ck_inv0); [done|]. lia. }
  destruct (HP p Hp) as [?%elem_of_nil|E]; [lia|done|]. rewrite E. unfold committed, view.
  pose proof (iv_back _ _ _ ck_inv0) as [Hb0 _].
  rewrite Efr, (proj2 (Z.eqb_neq _ 0)) by lia. symmetry. eapply image_prefix; [done|]. lia.
Qed.

(** The end of the copy: the database file gets its size, and the frames are
    counted. *)
Lemma wp_endCopy c L w log0 nb safe xCb s :
  copier L -> nb <= safe -> copying c L w log0 nb safe s ->
  pending log0 (mxFrame (hdr w)) nb safe [] (db s) ->
  wp c (live ← act (ReadHdr false);
        rc ← (if safe =? mxFrame live then
                rc ← (if xCb : bool then act Callback else Ret SQLITE_OK);
                rc ← andThen rc (act (TruncateDb (nPage (hdr w))));
                andThen rc (act SyncDb)
              else Ret SQLITE_OK);
        andThen rc (_ ← act (StoreBackfill safe); Ret SQLITE_OK))
     (fun _ s' => ckpting c L w s') s.
Proof.
  intros HL Hns Hcp HP.
  set (P s := copying c L w log0 nb safe s /\ pending log0 (mxFrame (hdr w)) nb safe [] (db s)).
  assert (forall s s', calm L c s s' -> Inv s' -> own c s' L -> claims s' !! c = claims s !! c ->
    P s -> P s') as Hstep.
  { intros s1 s2 C I O Lc [Hc1 Hp1]. destruct (copying_calm _ _ _ _ _ _ _ _ C I O Lc Hc1) as [Hc2 Ed].
    split; [done|]. by rewrite Ed. }
  assert (P s) as HPs by done. clear Hcp HP.
  apply wp_bind, (wp_silent c s L); [apply HPs|done|]. intros s1 o live C1 I1 O1 L1 _.
  pose proof (Hstep _ _ C1 I1 O1 L1 HPs) as HP1. clear dependent s. apply wp_bind.
  apply (wp_mono be nPages c _ (fun _ s2 => P s2)).
  { clear dependent s1. intros rc s1 HP1. unfold andThen.
    destruct (rc =? SQLITE_OK); [|apply wp_ret; apply HP1].
    apply wp_bind, (wp_fine c s1 L); [apply HP1|done|]. intros s2 o2 [] s3 C2 I2 O2 L2 _ Hs2.
    destruct (Hstep _ _ C2 I2 O2 L2 HP1) as [Hc2 Hp2].
    pose proof (ck_mx _ _ _ _ (cp_ck _ _ _ _ _ _ _ Hc2)). pose proof (cp_safe _ _ _ _ _ _ _ Hc2).
    destruct (fine_StoreBackfill be nPages c s2 L safe o2 tt s3) as (F & O3 & ->); auto.
    - rewrite (cp_back _ _ _ _ _ _ _ Hc2). lia.
    - intros p Hp Hf. by eapply pending_done.
    - split; [done|]. apply wp_ret. destruct Hc2 as [[] _ _ _ _]. split; auto. apply F. }
  destruct (safe =? mxFrame live); [|by apply wp_ret]. apply wp_bind.
  apply (wp_mono be nPages c _ (fun _ s2 => P s2)).
  - clear dependent s1. intros rc s1 HP1. apply wp_bind. unfold andThen.
    apply (wp_mono be nPages c _ (fun _ s2 => P s2)).
    + clear dependent s1. intros rc' s1 HP1. destruct (rc' =? SQLITE_OK); [|by apply wp_ret].
      apply (wp_silent c s1 L); [apply HP1|done|]. intros s2 o2 b C2 I2 O2 L2 _. by apply (Hstep s1).
    + destruct (rc =? SQLITE_OK); [|by apply wp_ret].
      apply (wp_fine c s1 L); [apply HP1|done|]. intros s2 o2 b s3 C2 I2 O2 L2 _ Hs2.
      destruct (Hstep _ _ C2 I2 O2 L2 HP1) as [Hc2 Hp2].
      destruct (fine_TruncateDb be nPages c s2 L (nPage (hdr w)) o2 b s3) as (F & O3 & d & -> & Hd); auto.
      { apply (cp_ck _ _ _ _ _ _ _ Hc2). }
      split; [done|]. split.
      * destruct Hc2 as [[] ? ? ? ?]. split; auto. split; auto. apply F.
      * intros p Hp Hf. destruct (Hp2 p Hp Hf) as [?|E]; [by left|right]. simpl. by rewrite Hd.
  - destruct xCb; [|by apply wp_ret]. apply (wp_silent c s1 L); [apply HP1|done|].
    intros s2 o2 b C2 I2 O2 L2 _. by apply (Hstep s1).
Qed.

Lemma wp_backfillPages c L w log0 nb safe todo xCb s :
  copier L -> nb <= safe -> copying c L w log0 nb safe s ->
  todo_ok log0 (mxFrame (hdr w)) nb safe todo -> pending log0 (mxFrame (hdr w)) nb safe todo (db s) ->
  wp c (backfillPages w todo safe (nPage (hdr w)) xCb) (fun _ s' => ckpting c L w s') s.
Proof.
  intros HL Hns Hcp HT HP. unfold backfillPages.
  set (P s := copying c L w log0 nb safe s /\ pending log0 (mxFrame (hdr w)) nb safe todo (db s)).
  assert (forall s s', calm L c s s' -> Inv s' -> own c s' L -> claims s' !! c = claims s !! c ->
    P s -> P s') as Hstep.
  { intros s1 s2 C I O Lc [Hc1 Hp1]. destruct (copying_calm _ _ _ _ _ _ _ _ C I O Lc Hc1) as [Hc2 Ed].
    split; [done|]. by rewrite Ed. }
  assert (P s) as HPs by done. clear Hcp HP.
  apply wp_bind, (wp_silent c s L); [apply HPs|done|]. intros s1 o nb' C1 I1 O1 L1 [= <-].
  pose proof (Hstep _ _ C1 I1 O1 L1 HPs) as HP1. clear dependent s.
  rewrite (cp_back _ _ _ _ _ _ _ (proj1 HP1)).
  apply wp_bind, (wp_fine c s1 L); [done|done|]. intros s2 o2 [] s3 C2 I2 O2 L2 _ Hs2.
  destruct (Hstep _ _ C2 I2 O2 L2 HP1) as [Hc2 Hp2].
  destruct (fine_StoreAttempted be nPages c s2 L _ o2 tt s3 I2 O2 Hs2) as (F & O3 & ->). split; [done|].
  assert (P (set_attempted s2 safe)) as HP3.
  { split; [|done]. destruct Hc2 as [[] ? ? ? ?]. split; auto. split; auto. apply F. }
  apply wp_bind, (wp_silent c _ L); [done|done|]. intros s4 o4 rc4 C4 I4 O4 L4 _.
  pose proof (Hstep _ _ C4 I4 O4 L4 HP3) as HP4. clear dependent s1 s2. apply wp_bind.
  apply (wp_mono be nPages c _ (fun _ s' => P s')).
  - clear dependent s4. intros rc s1 HP1. apply wp_bind.
    apply (wp_mono be nPages c _ (fun rc s' => copying c L w log0 nb safe s' /\
      (rc = SQLITE_OK -> pending log0 (mxFrame (hdr w)) nb safe [] (db s')))).
    + clear dependent s1. intros rc' s1 [Hc1 Hp1]. unfold andThen at 1.
      destruct (Z.eqb_spec rc' SQLITE_OK) as [->|]; [|apply wp_ret; apply Hc1].
      eapply wp_endCopy; eauto.
    + unfold andThen. destruct (Z.eqb_spec rc SQLITE_OK) as [->|Hrc]; [|apply wp_ret; by split; [apply HP1|]].
      destruct HP1 as [Hc1 Hp1]. apply (wp_copyLoop c L w log0); auto. apply Hc1.
  - unfold andThen. destruct (rc4 =? SQLITE_OK); [|by apply wp_ret].
    apply wp_bind, (wp_silent c s4 L); [done|done|]. intros s5 o5 sz C5 I5 O5 L5 _.
    pose proof (Hstep _ _ C5 I5 O5 L5 HP4). destruct sz; by apply wp_ret.
Qed.

(** Release of read locks that the checkpoint took on top of [L]. *)
Lemma wp_release c L w i n s (Q : unit -> shm -> Prop) :
  let L' := lockRange L (WAL_READ_LOCK i) n in
  noRead L -> 0 <= i -> i + n <= 5 -> ckpting c L' w s ->
  (L !! WAL_WRITE_LOCK = Some true -> backfill s <= mx s) ->
  (forall s1, ckpting c L w s1 -> Q tt s1) ->
  wp c (walUnlockExclusive (WAL_READ_LOCK i) n) Q s.
Proof.
  intros L' HL Hi Hn Hck Hb HQ.
  destruct (mark_locks L i n HL Hi Hn) as (Hsub & Hlk & Hckl & Hwl & HU & Hoth).
  fold L' in Hsub, Hlk, Hckl, Hwl, HU, Hoth.
  apply (wp_UnlockExclusive c s L'); [apply Hck| | |].
  - intros j Hj. replace j with (WAL_READ_LOCK (j - 3)) by (unfold WAL_READ_LOCK; lia).
    apply Hlk. unfold WAL_READ_LOCK in Hj. lia.
  - intros s1 C1 I1 O1 Hw. destruct (cm_write _ _ _ _ C1 Hw) as (E1 & E2 & _ & _ & H).
    destruct (ck_write _ _ _ _ Hck Hw) as [E3 E4]. rewrite E1, E2. split; [congruence|].
    rewrite Hwl in Hw. auto.
  - rewrite HU. intros s1 C1 I1 O1 L1. apply HQ. eapply (ckpting_to c L L' L); eauto.
Qed.

Lemma settled_ck c L w s : L !! WAL_READ_LOCK 1 = None -> ckpting c L w s -> L !! WAL_WRITE_LOCK = Some true -> backfill s <= mx s.
Proof.
  intros HL [] Hw.
  destruct (settled_intro (be := be) (nPages := nPages) 1 c s L) as [_ Hb]; auto; [lia| |].
  - by rewrite HL.
  - intros _. destruct (ck_write0 Hw). congruence.
Qed.

Lemma wp_copyFrames c L w xBusy xCb s :
  noRead L -> ckpting c L w s ->
  wp c (copyFrames w xBusy xCb) (fun _ s' => ckpting c L w s') s.
Proof.
  intros HL Hck. unfold copyFrames.
  apply wp_bind, (wp_safeLoop c L w); [done|lia|done|done|done|intros c' x _ ?; lia| |];
    [|intros; by apply wp_ret]. clear dependent s.
  intros s rc safe xb Hck Ha Hs. apply wp_bind, (wp_silent c s L); [apply Hck|done|].
  intros s1 o nb C1 I1 O1 L1 [= <-]. pose proof (ckpting_calm _ _ _ _ _ C1 I1 O1 L1 Hck) as Hck1.
  pose proof (above_calm _ _ _ _ _ _ _ C1 Hck Hs Ha) as Ha1. clear dependent s o. apply wp_bind.
  apply (wp_mono be nPages c _ (fun _ s' => ckpting c L w s')); [intros; by apply wp_ret|].
  destruct (Z.ltb_spec (backfill s1) safe) as [Hnb|_]; [|by apply wp_ret].
  apply wp_bind, (wp_silent c s1 L); [done|done|]. intros s2 o nb C2 I2 O2 L2 [= <-].
  pose proof (ckpting_calm _ _ _ _ _ C2 I2 O2 L2 Hck1) as Hck2.
  pose proof (above_calm _ _ _ _ _ _ _ C2 Hck1 Hs Ha1) as Ha2.
  destruct (cm_ckpt _ _ _ _ C2 (ck_lock _ _ _ _ Hck1)) as (E2 & _ & _). rewrite <- E2 in Hnb.
  clear dependent s1. set (nb := backfill s2) in *.
  assert (copying c L w (log s2) nb safe s2) as Hcp2 by done.
  apply wp_bind, (wp_silent c s2 L); [done|done|]. intros s3 o3 it C3 I3 O3 L3 Hsem.
  destruct (copying_calm _ _ _ _ _ _ _ _ C3 I3 O3 L3 Hcp2) as [[Hck3 _ Eb3 Ha3 _] _].
  assert (copying c L w (log s3) nb safe s3) as Hcp3 by done.
  injection Hsem as <-. destruct (o_rc o3 =? SQLITE_OK); cbn [negb]; [|by apply wp_ret].
  change (_ <$> _) with (iterated w (log s3) nb safe (negb xCb)). set (log0 := log s3) in *.
  assert (0 <= nb) as Hnb0 by (rewrite <- Eb3; apply I3).
  assert (nb + 1 < max_frame) as Hmax.
  { pose proof (iv_max _ _ _ I3). pose proof (ck_mx _ _ _ _ Hck3). lia. }
  pose proof (ck_nonneg _ _ _ _ Hck3) as HM.
  destruct (mark_locks L 0 1 HL ltac:(lia) ltac:(lia)) as (Hsub & Hlk & Hckl & Hwl & HU & Hoth).
  set (L' := lockRange L (WAL_READ_LOCK 0) 1) in *. clearbody log0.
  apply wp_bind, (wp_BusyLock c s3 L); [done| |].
  { intros s4 rc4 C4 I4 O4 Hrc4 L4. rewrite (proj2 (Z.eqb_neq rc4 _)) by done. apply wp_ret.
    by eapply ckpting_calm. }
  intros s4 C4 I4 O4 L4 _. cbn [Z.eqb SQLITE_OK].
  assert (ckpting c L' w s4) as Hck4 by (by eapply (ckpting_to c L L)).
  assert (copying c L' w log0 nb safe s4) as Hcp4.
  { destruct Hcp3. split; auto; [|..|by eapply above_calm].
    - rewrite <- cp_log0. pose proof (cm_grow _ _ _ _ C4 (or_intror (ck_lock _ _ _ _ Hck3))) as [].
      apply (take_eq_le _ _ (Z.to_nat (mx s3))); [done|]. pose proof (ck_mx _ _ _ _ Hck3). lia.
    - destruct (cm_ckpt _ _ _ _ C4 (ck_lock _ _ _ _ Hck3)) as (-> & _). done. }
  eapply wp_bind, wp_mono; [|apply (wp_backfillPages c L' w log0 nb safe); [|lia|done|by apply iterated_ok|]].
  - clear dependent s2 s3 s4. intros rc' s1 Hck'. apply wp_bind. apply (wp_release c L w); [done|lia|lia|done| |].
    + intros Hw. eapply (settled_ck c L' w); [|done|by rewrite Hwl]. rewrite Hoth by lia. apply HL. lia.
    + intros. by apply wp_ret.
  - split; [rewrite Hckl; apply Hck3|]. apply Hlk. lia.
  - intros p Hp Hf. left. by apply iterated_complete.
Qed.

(** ** Restarting the log *)

Definition keepsLocks (w w' : Wal) : Prop :=
  writeLock w' = writeLock w /\ ckptLock w' = ckptLock w /\ readOnly w' = readOnly w
  /\ bShmUnreliable w' = bShmUnreliable w /\ readLock w' = readLock w.

Lemma wp_restartReaders c L w eMode xBusy s :
  noRead L -> L !! WAL_WRITE_LOCK = Some true -> ckpting c L w s ->
  wp c (restartReaders be w eMode xBusy) (fun r s' => ckpting c L r.2 s' /\ keepsLocks w r.2) s.
Proof.
  intros HL Hw Hck. unfold restartReaders.
  assert (forall rc s', ckpting c L w s' -> ckpting c L (rc, w).2 s' /\ keepsLocks w (@snd Z Wal (rc, w)))
    as Hend by (intros; split; [done|by split_and!]).
  apply wp_bind, (wp_silent c s L); [apply Hck|done|]. intros s1 o nb C1 I1 O1 L1 [= <-].
  pose proof (ckpting_calm _ _ _ _ _ C1 I1 O1 L1 Hck) as Hck1.
  destruct (Z.ltb_spec (backfill s1) (mxFrame (hdr w))) as [|Hnb]; [by apply wp_ret, Hend|].
  destruct (eMode >=? SQLITE_CHECKPOINT_RESTART); [|by apply wp_ret, Hend].
  apply wp_bind, (wp_silent c s1 L); [done|done|]. intros s2 o2 salt C2 I2 O2 L2 _.
  pose proof (ckpting_calm _ _ _ _ _ C2 I2 O2 L2 Hck1) as Hck2.
  assert (1 + (WAL_NREADER - 1) <= 5) as Hn by done.
  destruct (mark_locks L 1 (WAL_NREADER - 1) HL ltac:(lia) Hn) as (Hsub & Hlk & Hckl & Hwl & HU & Hoth).
  set (L' := lockRange L (WAL_READ_LOCK 1) (WAL_NREADER - 1)) in *.
  apply wp_bind, (wp_BusyLock c s2 L); [done| |].
  { intros s3 rc3 C3 I3 O3 Hrc3 L3. rewrite (proj2 (Z.eqb_neq rc3 _)) by done. apply wp_ret, Hend.
    by eapply ckpting_calm. }
  intros s3 C3 I3 O3 L3 _. cbn [Z.eqb SQLITE_OK].
  assert (ckpting c L' w s3) as Hck3 by (by eapply (ckpting_to c L L)).
  assert (restarter L') as Hrs.
  { split; [congruence|]. intros i Hi. apply Hlk. unfold WAL_NREADER. lia. }
  destruct (ck_write _ _ _ _ Hck3 (proj1 Hrs)) as [Hh0 Hh1].
  assert (mx s3 <= backfill s3) as Hfull.
  { rewrite Hh0. destruct (cm_ckpt _ _ _ _ C2 (ck_lock _ _ _ _ Hck1)) as (E2 & _).
    destruct (cm_ckpt _ _ _ _ C3 (ck_lock _ _ _ _ Hck2)) as (E3 & _). lia. }
  assert (backfill s3 <= mx s3) as Hb3.
  { destruct (cm_write _ _ _ _ C3 Hw) as (E3 & _ & _ & _ & H). rewrite E3. apply H.
    eapply (settled_ck c L w); eauto. apply HL. lia. }
  apply wp_bind. destruct (eMode =? SQLITE_CHECKPOINT_TRUNCATE).
  2:{ apply wp_ret, wp_bind, (wp_release c L w); [done|lia|done|done|done|].
      intros s4 Hck4. by apply wp_ret, Hend. }
  eapply wp_bind, wp_mono; [|by apply (wp_RestartHdr c s3 L')].
  intros w' s4 HR4. apply wp_bind. eapply (restarted_step c s3 L' w w' s4); [done|done|done| |].
  { intros s5 o5 b s6 I5 O5 Hh5 Hs5.
    destruct (fine_TruncateWal be nPages c s5 L' o5 b s6) as (F & O6 & l & ->);
      [done|done|apply Hrs|rewrite Hh5; apply HR4|done|by split_and!]. }
  intros rc s5 [R1 R2 R3 R4 R5 R6 R7 R8].
  apply wp_ret, wp_bind, (wp_release c L w'); [done|lia|done| | |].
  - split; [done|done|apply Hck3| |lia|rewrite R4; lia| |done].
    + rewrite R3. apply Hck3.
    + rewrite <- R4. apply R1.
  - intros _. rewrite R7, R4, R6. done.
  - intros s6 Hck6. by apply wp_ret.
Qed.

Lemma wp_Checkpoint c L w eMode xBusy xCb s :
  noRead L -> (eMode <> SQLITE_CHECKPOINT_PASSIVE -> L !! WAL_WRITE_LOCK = Some true) ->
  ckpting c L w s ->
  wp c (walCheckpoint be w eMode xBusy xCb) (fun r s' => ckpting c L r.2 s' /\ keepsLocks w r.2) s.
Proof.
  intros HL Hw Hck. unfold walCheckpoint.
  apply wp_bind, (wp_silent c s L); [apply Hck|done|]. intros s1 o nb C1 I1 O1 L1 _.
  pose proof (ckpting_calm _ _ _ _ _ C1 I1 O1 L1 Hck) as Hck1. clear dependent s o. apply wp_bind.
  apply (wp_mono be nPages c _ (fun _ s' => ckpting c L w s')).
  - clear dependent s1. intros [[rc xb]|rc] s Hck; [|apply wp_ret; split; [done|by split_and!]].
    destruct (rc =? SQLITE_OK); cbn [andb]; [|apply wp_ret; split; [done|by split_and!]].
    destruct (Z.eqb_spec eMode SQLITE_CHECKPOINT_PASSIVE); cbn [negb];
      [apply wp_ret; split; [done|by split_and!]|]. apply wp_restartReaders; auto.
  - destruct (nb <? mxFrame (hdr w)); [by apply wp_copyFrames|by apply wp_ret].
Qed.

(** ** The whole operation *)

Definition ckSet (ck b : bool) : gmap Z bool :=
  if ck then <[WAL_CKPT_LOCK := true]> (writeSet b) else writeSet b.

Lemma ckSet_read ck b : noRead (ckSet ck b).
Proof.
  intros i Hi. unfold ckSet. destruct ck; [rewrite lookup_insert_ne by (unfold WAL_CKPT_LOCK, WAL_READ_LOCK; lia)|];
    apply writeSet_read; lia.
Qed.

Lemma ckSet_write ck b : ckSet ck b !! WAL_WRITE_LOCK = if b then Some true else None.
Proof. by destruct ck, b. Qed.

(** A connection that runs a checkpoint, with the locks that its fields tell. *)
Record held (c : nat) (w : Wal) (s : shm) : Prop := {
  hd_own : own c s (ckSet (ckptLock w) (writeLock w));
  hd_inv : Inv s;
  hd_claim : claims s !! c = None;
  hd_same : writeLock w = true -> hdr1 s = hdr0 s;
  hd_rw : readOnly w = 0;
  hd_shm : bShmUnreliable w = false;
  hd_read : readLock w < 0
}.

Lemma held_calm c w w' s s' :
  calm (ckSet (ckptLock w) (writeLock w)) c s s' -> Inv s' -> own c s' (ckSet (ckptLock w) (writeLock w)) ->
  claims s' !! c = claims s !! c -> keepsLocks w w' -> held c w s -> held c w' s'.
Proof.
  intros HC Hi Ho Hcl (E1 & E2 & E3 & E4 & E5) []. split; rewrite ?E1, ?E2, ?E3, ?E4, ?E5; auto; [congruence|].
  intros Hw. destruct (cm_write _ _ _ _ HC) as (-> & -> & _); [by rewrite ckSet_write, Hw|auto].
Qed.

Lemma ckpting_held c w w' s :
  ckpting c (ckSet (ckptLock w) (writeLock w)) w' s -> keepsLocks w w' ->
  readOnly w = 0 -> bShmUnreliable w = false -> readLock w < 0 -> held c w' s.
Proof.
  intros [] (E1 & E2 & E3 & E4 & E5) H1 H2 H3.
  split; rewrite ?E1, ?E2, ?E3, ?E4, ?E5; auto. intros Hw.
  destruct ck_write0; [by rewrite ckSet_write, Hw|congruence].
Qed.

(** The end: the locks are released. *)
Lemma wp_endCheckpoint c w s (Q : Wal -> shm -> Prop) :
  held c w s -> (forall w' s', idle c s' w' -> Q w' s') ->
  wp c (sqlite3WalEndWriteTransaction w)
     (fun w => wp c (if ckptLock w then
                       _ ← walUnlockExclusive WAL_CKPT_LOCK 1; Ret (set_ckptLock w false)
                     else Ret w) Q) s.
Proof.
  intros Hd HQ. pose proof Hd as []. set (L := ckSet (ckptLock w) (writeLock w)) in *.
  assert (L !! WAL_WRITE_LOCK = if writeLock w then Some true else None) as HLw by apply ckSet_write.
  apply (wp_EndWrite c s L); auto.
  - intros Hw. rewrite HLw in Hw. destruct (writeLock w); [auto|done].
  - unfold L. rewrite ckSet_read by lia. done.
  - intros s1 w1 C1 I1 O1 L1 (E1 & E2 & E3 & E4 & E5 & E6 & E7). rewrite hd_claim0 in L1.
    rewrite E4. unfold L in O1. destruct (ckptLock w) eqn:Eck.
    + assert (delete WAL_WRITE_LOCK (ckSet true (writeLock w)) = {[WAL_CKPT_LOCK := true]}) as EL
        by (by destruct (writeLock w)). rewrite EL in O1.
      apply wp_bind, (wp_UnlockExclusive c s1 {[WAL_CKPT_LOCK := true]}); [done| | |].
      * intros i Hi'. by replace i with WAL_CKPT_LOCK by lia.
      * intros s2 C2 I2 O2 Hw. done.
      * intros s2 C2 I2 O2 L2. apply wp_ret, HQ.
        assert (unlockRange {[WAL_CKPT_LOCK := true]} WAL_CKPT_LOCK 1 = ∅) as EU by done. rewrite EU in O2.
        split; cbn; rewrite ?E1, ?E5, ?E6, ?E7; auto; [|intros; exfalso; lia|done].
        intros _. split; [done|congruence].
    + apply wp_ret, HQ. unfold ckSet in O1. rewrite writeSet_delete in O1.
      split; rewrite ?E1, ?E4, ?E5, ?E6, ?E7; auto; [intros; exfalso; lia|done].
Qed.

(** The WRITE lock, for a checkpoint that is not passive. *)
Lemma wp_writeMode c w eMode xBusy s (Q : Z * Z * option nat * Wal -> shm -> Prop) :
  held c w s -> ckptLock w = true -> writeLock w = false ->
  (forall rc eMode' xBusy' w' s', held c w' s' -> ckptLock w' = true ->
     (rc = SQLITE_OK -> eMode' <> SQLITE_CHECKPOINT_PASSIVE -> writeLock w' = true) ->
     Q (rc, eMode', xBusy', w') s') ->
  wp c (if negb (eMode =? SQLITE_CHECKPOINT_PASSIVE) then
         rc ← walBusyLock xBusy WAL_WRITE_LOCK 1;
         if rc =? SQLITE_OK then Ret (rc, eMode, xBusy, set_writeLock w true)
         else if rc =? SQLITE_BUSY then Ret (SQLITE_OK, SQLITE_CHECKPOINT_PASSIVE, None, w)
         else Ret (rc, eMode, xBusy, w)
       else Ret (SQLITE_OK, eMode, xBusy, w)) Q s.
Proof.
  intros Hd Hck Hw HQ. pose proof Hd as [Ho Hi Hcl Hsame Hro Hsh Hr]. rewrite Hck, Hw in Ho.
  destruct (Z.eqb_spec eMode SQLITE_CHECKPOINT_PASSIVE) as [->|Hm]; cbn [negb]; [by apply wp_ret, HQ|].
  apply wp_bind, (wp_BusyLock c s (ckSet true false)); [done| |].
  - intros s1 rc C1 I1 O1 Hrc L1. rewrite (proj2 (Z.eqb_neq rc _)) by done.
    assert (held c w s1) as Hd1 by (eapply held_calm; rewrite ?Hck, ?Hw; eauto; by split_and!).
    destruct (rc =? SQLITE_BUSY); apply wp_ret, HQ; done.
  - intros s1 C1 I1 O1 L1 Hs. specialize (Hs ltac:(unfold WAL_WRITE_LOCK; lia)). cbn [Z.eqb SQLITE_OK].
    apply wp_ret, HQ; auto. split; cbn; auto; [|congruence]. rewrite Hck. exact O1.
Qed.

Lemma wp_checkpoint c s w eMode xBusy nBuf xCb :
  idle c s w -> Inv s -> readLock w < 0 -> writeLock w = false ->
  wp c (sqlite3WalCheckpoint be w eMode xBusy nBuf xCb) (fun r s' => idle c s' r.2) s.
Proof.
  intros Hid Hi Hr Hw. pose proof Hid as [Eck Hro Hsh Hnone _ _]. destruct (Hnone Hr) as [Ho Hcl].
  unfold sqlite3WalCheckpoint. rewrite Hro. cbn [negb Z.eqb]. rewrite Hw in Ho.
  assert (held c w s) as Hd0 by (split; rewrite ?Eck, ?Hw; auto; done).
  apply wp_bind, (wp_mono be nPages c _ (fun rc s1 =>
    held c (if rc =? SQLITE_OK then set_ckptLock w true else w) s1)).
  2:{ apply (wp_LockExclusive c s (writeSet false)); [done| |].
      - intros s1 rc C1 I1 O1 Hrc L1. rewrite (proj2 (Z.eqb_neq rc _)) by done.
        eapply held_calm; rewrite ?Eck, ?Hw; eauto. by split_and!.
      - intros s1 C1 I1 O1 L1 _. cbn [Z.eqb SQLITE_OK]. split; cbn; rewrite ?Hw; auto; [congruence|done]. }
  clear dependent s. intros rc s Hd0. apply wp_bind, (wp_mono be nPages c _ (fun '(rc, eMode', _, w') s' =>
    held c w' s' /\ (rc = SQLITE_OK -> ckptLock w' = true
      /\ (eMode' <> SQLITE_CHECKPOINT_PASSIVE -> writeLock w' = true)))).
  2:{ destruct (Z.eqb_spec rc SQLITE_OK) as [->|Hrc]; [|by apply wp_ret].
      apply wp_writeMode; auto. }
  clear dependent s rc. intros [[[rc eMode'] xBusy'] w1] s [Hd Hok].
  apply wp_bind, (wp_mono be nPages c _ (fun '(rc, _, w2) s' => held c w2 s' /\
    (rc = SQLITE_OK -> ckpting c (ckSet (ckptLock w2) (writeLock w2)) w2 s'
      /\ (eMode' <> SQLITE_CHECKPOINT_PASSIVE -> writeLock w2 = true)))).
  2:{ destruct (Z.eqb_spec rc SQLITE_OK) as [->|Hrc]; [|apply wp_ret; split_and!; auto; done].
      destruct (Hok eq_refl) as [Hck1 Hm1]. pose proof Hd as [Ho1 Hi1 Hcl1 Hsame1 Hro1 Hsh1 Hr1].
      apply (wp_ReadHdr c s (ckSet (ckptLock w1) (writeLock w1))); auto.
      - apply ckSet_write.
      - rewrite ckSet_read by lia. done.
      - intros s1 rc ch w2 C1 I1 O1 L1 (E1 & E2 & E3 & E4 & E5 & E6 & E7) Hseen Hcur.
        split; [eapply held_calm; eauto; by split_and!|]. rewrite E2, E3.
        intros ->. split; [|done]. destruct (Hseen eq_refl) as [[] Hmx].
        assert (ckSet (ckptLock w1) (writeLock w1) !! WAL_CKPT_LOCK = Some true) as HLck
          by (rewrite Hck1; apply lookup_insert_eq).
        split; auto; [congruence|]. rewrite ckSet_write. intros Hww. destruct (writeLock w1); [|done].
        destruct (Hcur eq_refl eq_refl). split; congruence. }
  clear dependent s rc w1. intros [[rc ch] w2] s (Hd & Hck).
  apply wp_bind, (wp_mono be nPages c _ (fun r s' => held c r.2 s')).
  - clear. intros [[rc out] w3] s Hd. cbn [snd] in Hd.
    set (w4 := if ch : bool then set_hdr w3 zeroHdr else w3).
    assert (held c w4 s) as Hd4 by (unfold w4; destruct ch; [by destruct Hd|done]).
    clearbody w4. eapply wp_bind, wp_mono; [|by apply (wp_endCheckpoint c w4 s (fun w' s' => idle c s' w'))].
    intros w5 s5 H5. apply wp_bind. eapply wp_mono; [|exact H5]. intros w6 s6 H6. by apply wp_ret.
  - destruct (Z.eqb_spec rc SQLITE_OK) as [->|Hrc]; [|by apply wp_ret].
    destruct (Hck eq_refl) as [Hck2 Hm]. apply wp_bind, (wp_mono be nPages c _ (fun r s' => held c r.2 s')).
    + clear. intros [rc w3] s Hd. cbn [snd] in Hd.
      destruct ((rc =? SQLITE_OK) || (rc =? SQLITE_BUSY)); [|by apply wp_ret].
      apply wp_bind, (wp_silent c s (ckSet (ckptLock w3) (writeLock w3))); [apply Hd|done|].
      intros s1 o nb C1 I1 O1 L1 _. apply wp_ret. eapply held_calm; eauto. by split_and!.
    + destruct (negb (mxFrame (hdr w2) =? 0) && negb (walPagesize w2 =? nBuf)); [by apply wp_ret|].
      eapply wp_mono; [|apply (wp_Checkpoint c (ckSet (ckptLock w2) (writeLock w2)) w2); auto using ckSet_read].
      * intros [rc w3] s3 [Hck3 HK3]. eapply ckpting_held; [exact Hck3|exact HK3|apply Hd..].
      * intros He. rewrite ckSet_write. by rewrite Hm.
Qed.
End Programs.
