(* ===== verification/WalIsolation.v ===== *)
(** * Isolation of the connections of a WAL

    The theorems about any number of connections that run the operations of
    WalShare, with their accesses interleaved in any order: what a connection
    reads, what a writer starts from, which steps change the committed
    content, that the loop of [sqlite3WalBeginReadTransaction] ends; and the
    schedule in which a checkpoint overlaps with the restart of the log. *)

From stdpp Require Import base list numbers option gmap functions relations.
From S2P Require Import Prelude Util Wal WalIndex WalFormat WalSort WalIter WalShare WalSystem WalProtocol WalSnapshot WalWriter WalBackfill.
#[local] Open Scope Z_scope.

Section Isolation.
Context {be : bool} {nPages : Z}.

Abbreviation mx s := (mxFrame (hdr0 s)).
Abbreviation Inv := (WalProtocol.Inv be nPages).
Abbreviation wp := (WalProtocol.wp be nPages).
Abbreviation steps := (rtc (step be nPages noOverlap)).

(** ** The invariant of the system *)

Lemma program_ok c s w o :
  idle c s w -> Inv s -> enabled nPages w o = true ->
  wp c (program be w o) (fun w' s' => idle c s' w') s.
Proof.
  intros Hid Hi He. destruct o; cbn [enabled program] in *.
  - eapply wp_bind, wp_mono; [|apply wp_beginRead; auto; [lia|]].
    + intros [[rc ch] w'] s' H. by apply wp_ret.
    + destruct (writeLock w); [|done]. by rewrite andb_false_r in He.
  - by apply wp_endRead.
  - eapply wp_bind, wp_mono; [|apply wp_beginWrite; auto; [lia|]].
    + intros [rc w'] s' H. by apply wp_ret.
    + destruct (writeLock w); [|done]. by rewrite andb_false_r in He.
  - eapply wp_bind, wp_mono; [|apply wp_WriteTxn; auto; [|lia|lia| |lia]].
    + intros [rc w'] s' H. by apply wp_ret.
    + by destruct (writeLock w).
    + intros ->. simpl in He. lia.
  - eapply wp_mono; [|by apply wp_endWrite]. by intros w' s' [H _].
  - eapply wp_bind, wp_mono; [|apply wp_checkpoint; auto; [lia|]].
    + intros [[rc ch] w'] s' H. by apply wp_ret.
    + destruct (writeLock w); [|done]. by rewrite andb_false_r in He.
Qed.

(** Every connection is between operations, or in one that will end well. *)
Definition sound (S : system) : Prop :=
  Inv (shared S) /\ forall c, wp c (conns S c) (fun w s => idle c s w) (shared S).

(** A system in which no connection is in an operation. *)
Definition quiet (S : system) : Prop :=
  Inv (shared S) /\ forall c, exists w, conns S c = Ret w /\ idle c (shared S) w.

Lemma quiet_sound S : quiet S -> sound S.
Proof. intros [Hi Hq]. split; [done|]. intros c. destruct (Hq c) as (w & -> & H). by apply wp_ret. Qed.

Lemma idle_at S c w : sound S -> conns S c = Ret w -> idle c (shared S) w.
Proof. intros [_ H] E. specialize (H c). by rewrite E in H. Qed.

Lemma sound_act s t c B (e : event B) k :
  sound (mkSystem s t) -> t c = Act e k ->
  inside e /\ forall o b s', noOverlap B c e s -> sem c e o s = Some (b, s') ->
    guar c s s' /\ preserves nPages e s s' /\ sound (mkSystem s' (<[c := k b]> t)).
Proof.
  intros [Hi Hwp] E. pose proof (Hwp c) as Hc. simpl in *. rewrite E in Hc.
  destruct (Hc s (rely_refl c s) Hi) as [He Hs]. split; [done|].
  intros o b s' Hno Hsem. destruct (Hs o b s' Hno Hsem) as (Hi' & Hg & Hpres & Hk).
  split_and!; auto. split; [done|]. intros c'. simpl. destruct (decide (c' = c)) as [->|Hne].
  - by rewrite fn_lookup_insert.
  - rewrite fn_lookup_insert_ne by done. eapply wp_rely; [|by apply Hg|done|apply Hwp].
    intros w s1 s2 Hr _. by apply idle_rely.
Qed.

Lemma step_sound S S' : sound S -> step be nPages noOverlap S S' -> sound S'.
Proof.
  intros HS Hstep. destruct Hstep as [s t c w o E He|s t c B e k o b s' E Hmay Hsem].
  - pose proof (idle_at _ c w HS E) as Hid. destruct HS as [Hi Hwp]. split; [done|].
    intros c'. simpl. destruct (decide (c' = c)) as [->|Hne].
    + rewrite fn_lookup_insert. by apply program_ok.
    + rewrite fn_lookup_insert_ne by done. apply Hwp.
  - by eapply sound_act.
Qed.

Lemma steps_sound S S' : steps S S' -> sound S -> sound S'.
Proof. induction 1; eauto using step_sound. Qed.

(** ** Snapshots *)





End Isolation.

(** ** A database of three pages *)

Definition twoFrames : WalIndexHdr :=
  hdr (WalFormat.walIndexWriteHdr false
        (set_hdr emptyWal (mkHdr 0 0 5 0 0 4096 2 3 (0, 0) [0; 0; 0; 1; 5; 5; 5; 5] (0, 0)))).

Definition threePages : Z -> Z :=
  fun p => if p =? 1 then 10 else if p =? 2 then 20 else if p =? 3 then 30 else 0.

(** Two frames, that are in the database already. *)
Definition startShm : shm :=
  mkShm ∅ twoFrames twoFrames 2 2
    [0; 2; READMARK_NOT_USED; READMARK_NOT_USED; READMARK_NOT_USED]
    [(1, 10); (2, 20)] threePages threePages [aSalt twoFrames] ∅.

Definition outsideTxn : Wal := set_nCkpt (set_writeLock (set_readLock emptyWal (-1)) false) 1.

Definition startSystem : system := mkSystem startShm (fun _ => Ret outsideTxn).

Lemma start_inv : Inv false 3 startShm.
Proof.
  split; [done|by vm_compute|done|done|by vm_compute|by left|by left| | |done|done].
  - split; [done|by left].
  - intros p Hp Hf. destruct (decide (p = 1)) as [->|]; [done|]. destruct (decide (p = 2)) as [->|]; [done|].
    assert (frameOf [(1, 10); (2, 20)] p 1 2 = 0) as E.
    { apply lookBack_none. intros f Hf1 _ Hp'.
      assert (f = 1 \/ f = 2) as [-> | ->] by lia; vm_compute in Hp'; congruence. }
    unfold committed, view.
    change (frameOf (log startShm) p 1 (mxFrame (hdr0 startShm))) with (frameOf [(1, 10); (2, 20)] p 1 2).
    by rewrite E.
Qed.

Lemma start_quiet : quiet (be := false) (nPages := 3) startSystem.
Proof. split; [apply start_inv|]. intros c. exists outsideTxn. by split. Qed.

Abbreviation runs := (run false 3 overlapFree).





(** Connection 0 runs a passive checkpoint and has read the header, with two
    frames; connection 1 restarts the log and writes page 3 into frame 1.  The
    checkpoint then takes frames 1 and 2 as frames that are to be copied. *)
Definition raceSchedule : list command :=
  [Start 1 BeginRead; Go 1 6; Start 1 BeginWrite; Go 1 2;
   Start 0 (Checkpoint SQLITE_CHECKPOINT_PASSIVE None 4096 false); Go 0 4;
   Start 1 (Write [(3, 33)] 3 true); Go 1 13; Go 0 16; Go 1 100; Go 0 100;
   Start 2 BeginRead; Go 2 100].

(** ** Properties *)







(** No connection finds the two copies of the wal-index header in a state that
    makes it run recovery, and the loop that begins a read transaction does
    not take more than [maxTurns] turns: no connection gets to an access that
    is not modelled. *)
Lemma no_recovery be nPages S0 S c B (e : event B) k :
  quiet (be := be) (nPages := nPages) S0 -> rtc (step be nPages noOverlap) S0 S ->
  conns S c = Act e k -> inside e.
Proof.
  intros HQ H0 E. pose proof (steps_sound _ _ H0 (quiet_sound _ HQ)) as HS.
  destruct S as [s t]. by apply (sound_act s t c B e k HS E).
Qed.



(** C29: without the restriction that the log is not restarted during a checkpoint
    of another connection, isolation fails: after [raceSchedule] a connection
    that begins a read transaction reads from page 1 what was written to page
    3, which no transaction ever committed to page 1, and [nBackfill] counts
    more frames than the log has. *)
Theorem checkpoint_restart_race :
  quiet (be := false) (nPages := 3) startSystem
  /\ exists S w, rtc (step false 3 anyAccess) startSystem S
       /\ conns S 2%nat = Ret w /\ 0 <= readLock w
       /\ pageRead (shared S) (readLock w) (minFrame w) (mxFrame (hdr w)) 1 = 33
       /\ committed (shared S) 1 = 10 /\ committed (shared S) 3 = 33
       /\ mxFrame (hdr0 (shared S)) < backfill (shared S).
Proof.
  split; [apply start_quiet|]. set (r := run false 3 (fun _ _ _ _ => true) raceSchedule startSystem).
  assert (match r with
          | Some X =>
              match conns X 2%nat with
              | Ret w => (0 <=? readLock w)
                  && (pageRead (shared X) (readLock w) (minFrame w) (mxFrame (hdr w)) 1 =? 33)
                  && (committed (shared X) 1 =? 10) && (committed (shared X) 3 =? 33)
                  && (mxFrame (hdr0 (shared X)) <? backfill (shared X))
              | Act _ _ => false
              end
          | None => false
          end = true) as H by (vm_compute; reflexivity).
  destruct r as [X|] eqn:E; [|done]. destruct (conns X 2%nat) as [w|] eqn:Ew; [|done].
  exists X, w. split; [by eapply (run_reach false 3 anyAccess (fun _ _ _ _ => true))|].
  apply andb_prop in H as [[[[H1 H2]%andb_prop H3]%andb_prop H4]%andb_prop H5]. split_and!; auto; lia.
Qed.
