(* ===== verification/WalProgress.v ===== *)
(** * A checkpoint that nobody disturbs

    The checkpoint of WalShare in a system where no other connection holds a
    lock and no access fails: it copies every frame that is not in the
    database yet, and counts them all. *)

From stdpp Require Import base list numbers option gmap functions relations.
From S2P Require Import Prelude Util Wal WalIndex WalFormat WalSort WalIter WalShare WalSystem WalProtocol WalSnapshot WalBackfill WalIsolation.
#[local] Open Scope Z_scope.

(** ** Execution without interference *)

(** Connection [c] runs [p] alone; every access has the outcome [o]. *)
Fixpoint exec {A} (o : outcome) (c : nat) (p : prog A) (s : shm) : option (A * shm) :=
  match p with
  | Ret a => Some (a, s)
  | Act e k => '(b, s') ← sem c e o s; exec o c (k b) s'
  end.

Lemma exec_bind {A B} o c (p : prog A) (f : A -> prog B) s a s' :
  exec o c p s = Some (a, s') -> exec o c (p ≫= f) s = exec o c (f a) s'.
Proof.
  revert s; induction p as [a0|C e k IH]; intros s; simpl; [by intros [= -> ->]|].
  destruct (sem c e o s) as [[b s1]|]; [|done]. simpl. apply IH.
Qed.

Lemma exec_act {A B} o c (e : event B) (f : B -> prog A) s b s' :
  sem c e o s = Some (b, s') -> exec o c (act e ≫= f) s = exec o c (f b) s'.
Proof. intros H. apply exec_bind. simpl. by rewrite H. Qed.

Lemma seqZ_1 j : seqZ j 1 = [j].
Proof. done. Qed.

Section Alone.
Context (be : bool) (nPages : Z) (o : outcome) (c : nat).
Hypothesis o_ok : o_rc o = SQLITE_OK.

Abbreviation mx s := (mxFrame (hdr0 s)).

(** Only [c] holds locks, and not lock [j]. *)
Definition mine (L : gmap (nat * Z) bool) : Prop := forall c' j x, L !! (c', j) = Some x -> c' = c.

Lemma exec_lock s j :
  mine (locks s) -> locks s !! (c, j) = None ->
  sem c (LockExclusive j 1) o s = Some (SQLITE_OK, set_locks s (<[(c, j) := true]> (locks s))).
Proof using o_ok.
  intros Hm Hj. cbn [sem]. rewrite o_ok. cbn [negb Z.eqb SQLITE_OK].
  assert (grantExclusive s j 1 = true) as ->.
  { apply bool_decide_eq_true. intros [c' i] x Hx. simpl. destruct (decide (i = j)) as [->|Hne].
    - rewrite (Hm c' j x Hx) in Hx. congruence.
    - unfold inRange. lia. }
  done.
Qed.

Lemma exec_unlock s j :
  sem c (UnlockExclusive j 1) o s = Some (tt, set_locks s (delete (c, j) (locks s))).
Proof. done. Qed.

(** Locking and unlocking. *)
Lemma relock s L j : L !! (c, j) = None -> set_locks s (delete (c, j) (<[(c, j) := true]> L)) = set_locks s L.
Proof. intros H. by rewrite delete_insert_id. Qed.

Lemma exec_ReadHdr s w :
  hdr1 s = hdr0 s -> hdr_valid be (hdr0 s) ->
  exists ch w', exec o c (walIndexReadHdr be w false) s = Some ((SQLITE_OK, ch, w'), s)
    /\ keeps w w' /\ hdr w' = hdr0 s.
Proof using o_ok.
  intros Hh Hv. unfold walIndexReadHdr.
  erewrite exec_act by (cbn [sem]; rewrite o_ok; done). cbn [negb Z.eqb SQLITE_OK].
  destruct (WalFormat.walIndexTryHdr be w (hdr0 s) (hdr1 s) false) as [[bad ch] w'] eqn:E.
  erewrite exec_bind by (unfold walIndexTryHdr; erewrite exec_act by done; erewrite exec_act by done;
    cbn [exec]; rewrite E; done).
  apply TryHdr_result in E as (Hk & H0 & _ & Hbad). rewrite (Hbad (eq_sym Hh) Hv) in *.
  destruct (H0 eq_refl) as [_ Hw]. cbn [negb Z.eqb]. exists ch, w'. split; [|done].
  cbn. rewrite Hw. destruct Hv as (_ & _ & ->). done.
Qed.

Lemma exec_BusyLock xBusy s j :
  mine (locks s) -> locks s !! (c, j) = None ->
  exec o c (walBusyLock xBusy j 1) s = Some (SQLITE_OK, set_locks s (<[(c, j) := true]> (locks s))).
Proof using o_ok.
  intros Hm Hj. pose proof (exec_lock s j Hm Hj) as E. destruct xBusy as [r|]; cbn [walBusyLock].
  - destruct r; cbn [busyLoop]; unfold walLockExclusive; rewrite (exec_act _ _ _ _ _ _ _ E); done.
  - cbn [walLockExclusive act exec]. rewrite E. done.
Qed.

(** The marks: none of them is in use. *)
Lemma exec_safeLoop n i safe xBusy s :
  mine (locks s) -> (forall j, 0 <= j -> locks s !! (c, WAL_READ_LOCK j) = None) -> 1 <= i ->
  exists m, exec o c (safeLoop n i SQLITE_OK safe xBusy) s
            = Some (inl (SQLITE_OK, safe, xBusy), set_marks s m).
Proof using o_ok.
  revert i s; induction n as [|n IH]; intros i s Hm HL Hi; cbn [safeLoop].
  { exists (marks s). by destruct s. }
  erewrite exec_act by done. destruct (safe >? nthZ (marks s) i); [|apply IH; [done|done|lia]].
  erewrite exec_bind by (apply exec_BusyLock; [done|apply HL; lia]). cbn [Z.eqb SQLITE_OK].
  erewrite exec_act by done. unfold walUnlockExclusive. erewrite exec_act by apply exec_unlock. cbn [locks set_marks set_locks].
  rewrite delete_insert_id by (apply HL; lia).
  set (m1 := setZ _ i _). destruct (IH (i + 1) (set_marks s m1)) as (m & E); [done|done|lia|].
  exists m. destruct s. exact E.
Qed.

(** ** Copying *)

(** The database [d] after the copy from [d0]. *)
Definition copied (log0 : list (Z * Z)) (hi nb safe : Z) (d0 d : Z -> Z) : Prop :=
  pending (nPages := nPages) log0 hi nb safe [] d
  /\ forall p, p <= nPages -> d p = d0 p \/ nb < frameOf log0 p 1 hi.

Lemma exec_copyLoop log0 hi nb safe mxPage xCb todo s :
  log s = log0 -> nPages <= mxPage -> 0 <= nb ->
  todo_ok log0 hi nb safe todo -> pending (nPages := nPages) log0 hi nb safe todo (db s) ->
  exists d, exec o c (copyLoop todo nb safe mxPage xCb) s = Some (SQLITE_OK, set_db s d)
    /\ copied log0 hi nb safe (db s) d.
Proof using o_ok.
  intros Hlog Hmp Hnb. revert s Hlog. induction todo as [|[q f] todo IH]; intros s Hlog HT HP; cbn [copyLoop].
  { exists (db s). split; [by destruct s|]. split; [done|by left]. }
  erewrite exec_act by (cbn [sem]; rewrite o_ok; done). cbn [negb Z.eqb SQLITE_OK].
  pose proof (todo_ok_tail _ _ _ _ _ _ HT) as HT'.
  destruct ((f <=? nb) || (f >? safe) || (q >? mxPage)) eqn:Eskip.
  { apply IH; auto. eapply pending_skip; [|done]. lia. }
  erewrite exec_act by (cbn [sem]; rewrite o_ok; done). cbn [Z.eqb SQLITE_OK].
  erewrite exec_act by (cbn [sem]; unfold ok_or; rewrite o_ok; done). cbn [negb Z.eqb SQLITE_OK].
  set (s1 := set_db s _).
  assert (exec o c (if xCb then act Callback else Ret SQLITE_OK) s1 = Some (SQLITE_OK, s1)) as E.
  { destruct xCb; [|done]. cbn. by rewrite o_ok. }
  erewrite exec_bind by exact E. cbn [negb Z.eqb SQLITE_OK].
  destruct (IH s1) as (d & Ed & Hd1 & Hd2); auto.
  - simpl. rewrite Hlog. by apply pending_write.
  - exists d. split; [rewrite Ed; by destruct s|]. split; [done|]. intros p Hp.
    destruct (Hd2 p Hp) as [->|]; [|by right]. destruct (decide (p = q)) as [->|Hne].
    + right. destruct (HT q f) as (Hf & Hq & _); [by left|].
      pose proof (frameOf_hit log0 q 1 hi f). lia.
    + left. simpl. by rewrite fn_lookup_insert_ne.
Qed.

Lemma exec_backfillPages w todo safe xCb s :
  let nb := backfill s in
  let nReq := nPage (hdr w) * walPagesize w in
  nPages <= nPage (hdr w) -> 0 <= nb -> nReq <= o_val o + 65536 + mxFrame (hdr w) * walPagesize w ->
  todo_ok (log s) (mxFrame (hdr w)) nb safe todo ->
  pending (nPages := nPages) (log s) (mxFrame (hdr w)) nb safe todo (db s) ->
  exists d, exec o c (backfillPages w todo safe (nPage (hdr w)) xCb) s
      = Some (SQLITE_OK, set_backfill (set_db (set_attempted s safe) d) safe)
    /\ copied (log s) (mxFrame (hdr w)) nb safe (db s) d.
Proof using o_ok.
  intros nb nReq Hp Hnb Hsz HT HP. unfold backfillPages.
  erewrite exec_act by done. erewrite exec_act by done. erewrite exec_act by (cbn [sem]; rewrite o_ok; done).
  fold nb. set (s1 := set_attempted s safe).
  erewrite exec_bind.
  2:{ unfold andThen. cbn [Z.eqb SQLITE_OK]. erewrite exec_act by (cbn [sem]; rewrite o_ok; done).
      cbn [Z.eqb SQLITE_OK]. fold nReq. rewrite (proj2 (Z.ltb_ge (o_val o + _ + _) nReq)), andb_false_r by done. done. }
  destruct (exec_copyLoop (log s) (mxFrame (hdr w)) nb safe (nPage (hdr w)) xCb todo s1) as (d & Ed & Hd); auto.
  erewrite exec_bind by (cbn [andThen Z.eqb SQLITE_OK andb]; exact Ed).
  cbn [andThen Z.eqb SQLITE_OK]. erewrite exec_act by done. set (s2 := set_db s1 d).
  assert (exists d', exec o c
    (if safe =? mxFrame (hdr0 s2) then
       rc ← (if xCb then act Callback else Ret SQLITE_OK);
       rc ← andThen rc (act (TruncateDb (nPage (hdr w))));
       andThen rc (act SyncDb)
     else Ret SQLITE_OK) s2 = Some (SQLITE_OK, set_db s1 d')
    /\ forall p, p <= nPages -> d' p = d p) as (d' & E & Hd').
  { destruct (safe =? mxFrame (hdr0 s2)); [|by exists d].
    exists (fun p => if p <=? nPage (hdr w) then d p else 0). split.
    - erewrite exec_bind by (instantiate (1 := s2); instantiate (1 := SQLITE_OK);
        destruct xCb; [cbn; by rewrite o_ok|done]).
      cbn [andThen Z.eqb SQLITE_OK].
      erewrite exec_act by (cbn [sem]; unfold ok_or; rewrite o_ok; done).
      cbn. by rewrite o_ok.
    - intros p Hp'. by rewrite (proj2 (Z.leb_le p _)) by lia. }
  erewrite exec_bind by exact E. exists d'. split; [done|].
  destruct Hd as [Hd1 Hd2]. split; intros p Hp'; rewrite Hd' by done; auto.
Qed.

(** The file is not shorter than the database in header [hdr w] by more than the
    log and 64 KiB; otherwise [walCheckpoint] reports SQLITE_CORRUPT. *)
Definition plausible (w : Wal) : Prop :=
  nPage (hdr w) * walPagesize w <= o_val o + 65536 + mxFrame (hdr w) * walPagesize w.

Lemma exec_copyFrames w xBusy xCb s :
  Inv be nPages s -> mine (locks s) -> (forall j, 0 <= j -> locks s !! (c, WAL_READ_LOCK j) = None) ->
  hdr w = hdr0 s -> plausible w -> backfill s < mx s ->
  exists m d, exec o c (copyFrames w xBusy xCb) s
      = Some (inl (SQLITE_OK, xBusy),
              set_backfill (set_db (set_attempted (set_marks s m) (mx s)) d) (mx s))
    /\ copied (log s) (mx s) (backfill s) (mx s) (db s) d.
Proof using o_ok.
  intros Hi Hm HL Hh Hsz Hb. unfold copyFrames.
  destruct (exec_safeLoop (Z.to_nat (WAL_NREADER - 1)) 1 (mxFrame (hdr w)) xBusy s Hm HL ltac:(lia)) as (m & E).
  erewrite exec_bind by exact E. set (s1 := set_marks s m). rewrite Hh.
  assert (0 <= backfill s) as Hb0 by apply Hi.
  assert (backfill s + 1 < max_frame) as Hmax by (pose proof (iv_max _ _ _ Hi); lia).
  erewrite exec_act by done. change (backfill s1) with (backfill s).
  rewrite (proj2 (Z.ltb_lt (backfill s) (mx s))) by done.
  set (todo := iterated w (log s) (backfill s) (mx s) (negb xCb)).
  set (s2 := set_locks s1 (<[(c, WAL_READ_LOCK 0) := true]> (locks s))).
  assert (0 <= mxFrame (hdr w)) as HM by (rewrite Hh; apply Hi).
  destruct (exec_backfillPages w todo (mx s) xCb s2) as (d & Ed & Hd); auto.
  { rewrite Hh. apply Hi. }
  { by apply iterated_ok. }
  { intros p Hp Hf. left. by apply iterated_complete. }
  exists m, d. split; [|by rewrite Hh in Hd].
  erewrite exec_bind.
  2:{ erewrite exec_act by done. erewrite exec_act by (cbn [sem]; rewrite o_ok; done).
      cbn [negb Z.eqb SQLITE_OK]. change (_ <$> _) with todo.
      erewrite exec_bind by (apply exec_BusyLock; [done|apply (HL 0); lia]). cbn [Z.eqb SQLITE_OK].
      change (locks s1) with (locks s). fold s2. rewrite Hh in Ed. erewrite exec_bind by exact Ed.
      unfold walUnlockExclusive. erewrite exec_act by apply exec_unlock.
      cbn [locks set_backfill set_db set_attempted s2 set_locks].
      rewrite delete_insert_id by (apply (HL 0); lia). done. }
  by destruct s.
Qed.

(** With nothing left to copy, the database is complete. *)
Lemma copied_complete s d p :
  Inv be nPages s -> copied (log s) (mx s) (backfill s) (mx s) (db s) d ->
  p <= nPages -> d p = committed s p.
Proof.
  intros Hi [HP Hsame] Hp. pose proof (iv_mx _ _ _ Hi) as Hmx. pose proof (iv_back _ _ _ Hi) as [Hb _].
  pose proof (frameOf_range (log s) p 1 (mx s) ltac:(lia)) as Hf.
  destruct (Z.le_gt_cases (frameOf (log s) p 1 (mx s)) (backfill s)) as [Hle|Hgt].
  - destruct (Hsame p Hp) as [->|]; [|lia]. by apply (iv_db _ _ _ Hi).
  - destruct (HP p Hp ltac:(lia)) as [?%elem_of_nil| ->]; [done|].
    unfold committed, view. by rewrite (proj2 (Z.eqb_neq _ 0)) by lia.
Qed.

(** The result of [walCheckpoint]: only the database and what tells how much
    of the log it contains have changed. *)
Lemma exec_Checkpoint w xBusy xCb s :
  Inv be nPages s -> mine (locks s) -> (forall j, 0 <= j -> locks s !! (c, WAL_READ_LOCK j) = None) ->
  hdr w = hdr0 s -> plausible w -> backfill s <= mx s ->
  exists s', exec o c (walCheckpoint be w SQLITE_CHECKPOINT_PASSIVE xBusy xCb) s = Some ((SQLITE_OK, w), s')
    /\ hdr0 s' = hdr0 s /\ backfill s' = mx s /\ locks s' = locks s
    /\ forall p, p <= nPages -> db s' p = committed s p.
Proof using o_ok.
  intros Hi Hm HL Hh Hsz Hb. unfold walCheckpoint. erewrite exec_act by done. rewrite Hh.
  destruct (Z.ltb_spec (backfill s) (mx s)) as [Hlt|Hge].
  - destruct (exec_copyFrames w xBusy xCb s) as (m & d & E & Hd); auto.
    erewrite exec_bind by exact E. cbn [andb negb Z.eqb SQLITE_OK SQLITE_CHECKPOINT_PASSIVE].
    eexists. split; [done|]. split_and!; [done|done|done|]. intros p Hp. by apply copied_complete.
  - erewrite exec_bind by done. exists s. split_and!; [done|done|lia|done|]. intros p Hp.
    apply (iv_db _ _ _ Hi); [done|]. pose proof (iv_mx _ _ _ Hi).
    pose proof (frameOf_range (log s) p 1 (mx s) ltac:(lia)). lia.
Qed.
End Alone.

(** ** Properties *)

(** C20: a checkpoint that no other connection disturbs and in which no access
    fails completes: it returns SQLITE_OK with every frame of the log counted
    as copied, the database file then has the committed content of every
    page, and no lock is left.  The file may grow, by at most the bytes of the
    log and 64 KiB: a shorter one is taken for a corrupt database. *)
Theorem checkpoint_completes be nPages o c w xCb s :
  Inv be nPages s -> locks s = ∅ -> o_rc o = SQLITE_OK ->
  plausible o (set_hdr w (hdr0 s)) ->
  readOnly w = 0 -> writeLock w = false ->
  exists w' s',
    exec o c (sqlite3WalCheckpoint be w SQLITE_CHECKPOINT_PASSIVE None
                (walPagesize (set_hdr w (hdr0 s))) xCb) s
    = Some ((SQLITE_OK, Some (mxFrame (hdr0 s), mxFrame (hdr0 s)), w'), s')
    /\ backfill s' = mxFrame (hdr0 s) /\ locks s' = ∅ /\ ckptLock w' = false
    /\ forall p, p <= nPages -> db s' p = committed s p.
Proof.
  intros Hi HL Ho Hsz Hro Hw. unfold sqlite3WalCheckpoint. rewrite Hro. cbn [negb Z.eqb].
  assert (mine c (locks s)) as Hmine by (rewrite HL; by intros c' j x ?%lookup_empty_Some).
  assert (hdr1 s = hdr0 s) as Hh1.
  { destruct (iv_same _ _ _ Hi) as [|[c' Hc']]; [done|]. by rewrite HL, lookup_empty in Hc'. }
  assert (backfill s <= mxFrame (hdr0 s)) as Hb.
  { destruct (iv_back _ _ _ Hi) as [_ [|(c' & Hc' & _)]]; [done|]. by rewrite HL, lookup_empty in Hc'. }
  unfold walLockExclusive. erewrite exec_act by (apply exec_lock; [done|done|by rewrite HL, lookup_empty]).
  set (s1 := set_locks s _). cbn [Z.eqb SQLITE_OK negb SQLITE_CHECKPOINT_PASSIVE].
  erewrite exec_bind by done. set (w1 := set_ckptLock w true).
  destruct (exec_ReadHdr be o c Ho s1 w1) as (ch & w2 & E & (K1 & K2 & K3 & K4 & K5 & K6 & K7) & Hh2);
    [done|apply Hi|]. erewrite exec_bind by exact E. cbn [Z.eqb SQLITE_OK].
  assert (walPagesize w2 = walPagesize (set_hdr w (hdr0 s))) as Hpg by (unfold walPagesize; by rewrite Hh2).
  assert (Inv be nPages s1) as Hi1.
  { destruct (fine_LockExclusive be nPages c s ∅ WAL_CKPT_LOCK 1 o SQLITE_OK s1) as [(F & _) _];
      [done|intros j; by rewrite HL, !lookup_empty| |done].
    apply exec_lock; [done|done|by rewrite HL, lookup_empty]. }
  assert (locks s1 = {[(c, WAL_CKPT_LOCK) := true]}) as HL1 by (simpl; by rewrite HL).
  destruct (exec_Checkpoint be nPages o c Ho w2 None xCb s1) as (s2 & E2 & H1 & H2 & H3 & H4);
    [done| | |done|unfold plausible in *; by rewrite Hpg, Hh2|done|].
  { rewrite HL1. intros c' j x Hx. apply lookup_singleton_Some in Hx as [[= <- _] _]. done. }
  { intros j Hj. rewrite HL1, lookup_singleton_ne; [done|]. unfold WAL_CKPT_LOCK, WAL_READ_LOCK.
    intros [= ?]. lia. }
  rewrite Hpg, Z.eqb_refl. cbn [negb]. rewrite andb_false_r.
  erewrite exec_bind; [|erewrite exec_bind by exact E2; cbn [Z.eqb SQLITE_OK orb]; erewrite exec_act by done; done].
  set (w3 := if ch : bool then set_hdr w2 zeroHdr else w2).
  assert (writeLock w3 = false /\ ckptLock w3 = true) as [W1 W2].
  { unfold w3. destruct ch; simpl; rewrite K2, K3; by split. }
  cbv zeta. fold w3. unfold sqlite3WalEndWriteTransaction. rewrite W1. erewrite exec_bind by done. rewrite W2.
  unfold walUnlockExclusive. erewrite exec_bind by (erewrite exec_act by apply exec_unlock; done).
  rewrite Hh2, H2. do 2 eexists. split; [done|]. split; [done|]. split; [|by split].
  simpl. by rewrite H3, HL1, delete_singleton_eq.
Qed.

(** Two frames, none of them in the database yet; its file has one page. *)
Definition nothingCopied : shm :=
  set_backfill (set_db startShm (fun p => if p =? 3 then 30 else 0)) 0.

Lemma nothingCopied_inv : Inv false 3 nothingCopied.
Proof.
  split; [done|by vm_compute|done|done|by vm_compute|by left|by left| | |done|done].
  - split; [done|by left].
  - intros p Hp Hf. change (frameOf (log nothingCopied) p 1 (mxFrame (hdr0 nothingCopied))) with
      (frameOf [(1, 10); (2, 20)] p 1 2) in Hf. change (backfill nothingCopied) with 0 in Hf.
    destruct (decide (p = 1)) as [->|H1]; [by vm_compute in Hf|].
    destruct (decide (p = 2)) as [->|H2]; [by vm_compute in Hf|].
    assert (frameOf [(1, 10); (2, 20)] p 1 2 = 0) as E by (pose proof (frameOf_range [(1, 10); (2, 20)] p 1 2); lia).
    unfold committed, view.
    change (frameOf (log nothingCopied) p 1 (mxFrame (hdr0 nothingCopied))) with (frameOf [(1, 10); (2, 20)] p 1 2).
    rewrite E. cbn. unfold threePages. destruct (Z.eqb_spec p 1); [done|]. by destruct (Z.eqb_spec p 2).
Qed.

Lemma checkpoint_completes_witness :
  exists w' s',
    exec (mkOutcome SQLITE_OK 4096 []) 0
      (sqlite3WalCheckpoint false outsideTxn SQLITE_CHECKPOINT_PASSIVE None
         (walPagesize (set_hdr outsideTxn twoFrames)) false) nothingCopied
    = Some ((SQLITE_OK, Some (2, 2), w'), s') /\ backfill s' = 2 /\ db s' 1 = 10.
Proof.
  destruct (checkpoint_completes false 3 (mkOutcome SQLITE_OK 4096 []) 0 outsideTxn false nothingCopied)
    as (w' & s' & E & Hb & _ & _ & Hd).
  - apply nothingCopied_inv.
  - reflexivity.
  - reflexivity.
  - vm_compute. congruence.
  - reflexivity.
  - reflexivity.
  - exists w', s'. split; [exact E|]. split; [exact Hb|]. rewrite Hd by lia. reflexivity.
Defined.
